(* ===== verification/_CoqProject ===== *)
-Q . S2P
Prelude.v
Tables.v
Dates.v
Calendar.v
Due.v
CommandScheduler.v
TaskPlans.v
TaskStore.v
TaskScheduler.v
StatusKinds.v
Journal.v
Connection.v
Observer.v
Reachability.v
Rollup.v
StatusStore.v
NotificationStore.v
Announce.v
Payloads.v
StatusController.v
StatusHistory.v
StatusPages.v
Outcome.v
Delivery.v
Egress.v
HealthPoller.v
Limiter.v
Shell.v
Control.v
ClientSettings.v
ClientConfig.v
InstanceInput.v
Access.v
HostStore.v
InstanceStore.v
InstanceController.v
InstanceRequests.v
InstanceWork.v
InstanceSafety.v
Authentication.v
SignIn.v
MachineFacts.v
Provision.v
ProvisionSafety.v
HostCheck.v
HostController.v
Teardown.v
HostSafety.v
HostSetup.v
ExpressInstall.v
ConfigDrift.v
Reconcile.v
HostReader.v
ReconcileSafety.v
ReadConnections.v
ReadPool.v
ReadOps.v
Mcp.v
McpReadouts.v
RunningChecks.v
LiveControl.v
LiveSafety.v
Destinations.v
Senders.v
SenderSafety.v
DestinationSafety.v
AlertSafety.v
Bytes.v
Smtp.v
SmtpSafety.v
MailText.v
Artifacts.v
ArtifactCollect.v
ArtifactSafety.v
ArtifactPruning.v
Members.v
ReleaseNotes.v
UpdateCheck.v
SealedBox.v
SshTransport.v
