(* ===== verification/Prelude.v ===== *)
(** * The control plane of OpenMCC manager

    OpenMCC manager keeps Minecraft clients ("bots") running on machines
    reached over ssh.  This library models the parts of its TypeScript code
    that decide and remember: the requests on bots and machines and the claims
    that keep them apart, the schedulers, the status history, the connections
    it reads over, what it collects, and the alerts and how they are sent.
    Definitions keep the names of the sources; each file names the sources it
    follows.

    ** The program's parts and how they interact

    - The command scheduler (packages/core/src/instance/due.ts, schedule.ts,
      command.repository.ts, scheduler.ts) runs a command on a bot once per
      local day: files [Due], [Calendar] and [CommandScheduler].
    - The task scheduler (task.ts, task.repository.ts, task-run.ts,
      task-scheduler.ts) runs lists of steps on logins, respawns, times of day
      and intervals: files [TaskPlans], [TaskStore] and [TaskScheduler].
    - The status history (packages/core/src/status) follows machines through
      checks and bots through their journals.  [Journal] reads the output of
      journalctl into signals (packages/contracts/src/boundary/journal.ts),
      [Connection] turns signals into changes and incidents (connection.ts,
      incident.ts), [Observer] drains a journal page by page
      (instance-observer.ts, task-signals.ts), [Reachability] judges a machine
      (reachability.ts), [Rollup] adds up availability (rollup.ts),
      [StatusStore] has the tables (status.repository.ts) and
      [StatusController] the transactions on them (status.controller.ts);
      [StatusHistory] and [StatusPages] hold theorems about them.
    - The notifications (packages/core/src/notification) tell about events.
      [Announce] plans and stores a notification with its deliveries and jobs
      inside the transaction that stored the event (producer.ts, announce.ts),
      [Payloads] reads jobs and replies back (escalation.job.ts, delivery.job.ts
      and three readers of packages/contracts/src/boundary), [Outcome]
      classifies replies and sets the waits (outcome.ts, failure.ts), and
      [Delivery] carries out a job (delivery.job.ts, delivery.batch.ts,
      retention.ts) on the tables of [NotificationStore]
      (notification.repository.ts).  [Destinations] has the settings of a
      destination and the requests on them, [Senders] sends over http
      (sender.ts, dispatch.ts, pinned.ts, signature.ts) to where [Egress]
      (egress.ts) allows, and [Smtp] by mail (the smtp files) with the bytes of
      [Bytes]; [DestinationSafety], [AlertSafety], [SenderSafety], [SmtpSafety]
      and [MailText] hold their theorems.
    - The instance controller (packages/core/src/instance/instance.controller.ts)
      creates, starts, stops, removes and configures bots.
      [InstanceController] has its claims, machines, starts, stops and saves,
      [InstanceRequests] its other requests; the tables are those of
      [InstanceStore] (instance.repository.ts, schedule.repository.ts), of
      [HostStore] (host.repository.ts, runtime-guard.ts, unreachable.ts) and of
      the schedulers, and what a role may do and the audit log are in [Access]
      (authz.ts, packages/core/src/audit).  The commands it runs on a machine,
      and the answers it reads, are in [Shell] (unit.ts, removal.ts,
      console.ts, exit-code.ts, packages/core/src/host/profile.ts, deadline.ts),
      the lines it sends to a client in [Control] (control.ts,
      packages/contracts/src/command-credentials.ts), the file it writes for a
      client in [ClientConfig] (config.ts) with the settings of
      [ClientSettings] (packages/contracts/src/boundary/mcc-config-keys.ts), and
      what it accepts in [InstanceInput] (packages/contracts/src/instance.ts,
      minecraft-version.ts).  [InstanceWork] is the proof library of its
      theorems and [InstanceSafety] states them.  [Authentication] signs a bot
      in (authenticate.ts), with its theorems in [SignIn].
    - The machines (packages/core/src/host): [HostController] has the requests
      on them (host.controller.ts), [HostCheck] looks at one before it is
      enrolled (check.ts), [Provision] sets one up (provision.ts) with what
      [MachineFacts] asks and writes, [HostSetup] is the script that prepares
      an account (packages/contracts/src/host-setup.ts), run over a root session
      by [ExpressInstall] (express-install.ts), and [Teardown] cleans a machine
      that is removed (teardown.ts and its job).  [ProvisionSafety] and
      [HostSafety] hold theorems.
    - [Reconcile] compares a machine with what should be on it (reconcile.ts)
      and [ConfigDrift] a client's settings with those it should have
      (packages/contracts/src/boundary/mcc-config.ts, config-drift.ts), over a
      reader that [HostReader] leases (host-reader.ts); theorems in
      [ReconcileSafety].
    - [ReadConnections] shares the connections reads go over
      (packages/transport/src/read-connections.ts): theorems in [ReadPool] and
      [ReadOps].  [Limiter] is the limit of commands on a connection
      (packages/transport/src/ssh/limiter.ts), [HealthPoller] the round over the
      machines (health-poller.ts, health.ts, facts.ts).
    - [Mcp] and [McpReadouts] read what a running client says
      (packages/contracts/src/boundary/mcp.ts, mcp-readouts.ts), [LiveControl]
      asks and steers it (live-control.ts), once [RunningChecks] found that it
      runs; theorems in [LiveSafety].
    - [Artifacts] collects what a bot leaves in its directory (artifact.ts),
      [ArtifactCollect] keeps it and is the job (artifact.repository.ts,
      artifact-collect.job.ts); theorems in [ArtifactSafety] and
      [ArtifactPruning].
    - [SshTransport] is the connection itself (packages/transport/src/ssh/exec.ts,
      connection.ts): a command waits for its turn and for a channel, runs and
      ends, each callback and timer a step.
    - [SealedBox] seals the secrets the tables keep
      (packages/core/src/crypto/sealed-box.ts), with the keys of the machines in
      its Module [SshKeys] (packages/core/src/ssh-key) and the enrolment of the
      manager's own machine in [SelfHost] (packages/core/src/self-host);
      [Members] has the members of an organization and their invitations
      (packages/core/src/member).
    - [UpdateCheck] asks for newer releases (packages/core/src/system:
      update-check.ts, update-state.repository.ts, update-status.ts,
      build-info.ts), [ReleaseNotes] reads their notes (release-notes.ts), and
      the Module [FleetStatus] judges the worker (fleet-status.ts,
      process-identity.repository.ts).  The Module [ChatText] of [McpReadouts]
      writes the messages of the game
      (packages/contracts/src/boundary/chat-component.ts).

    The journal feeds [StatusController.recordInstanceConnection], which
    announces events and schedules the check [escalateInstance]; both end in
    delivery jobs for [Delivery.createDeliveryHandler], whose argument that
    sends is [Senders].  The schedulers send through
    [InstanceRequests.runScheduledCommand] and [runTask].  Removing a machine
    queues the job of [Teardown]; reconciling and the live requests lease their
    readers through [HostReader] from the pool of [ReadConnections].  What the
    controllers take as the [exec] of a connection is [SshTransport.exec]; the
    machine of [SelfHost.adopt] gets a key of [SshKeys], which [SealedBox] opens
    when a connection is made.

    ** How state and operations are modelled

    - A table is a list of rows and a statement one of the shapes of
      [Tables]; unique indexes are [unique_on].  Of the constraints whose
      violation makes a statement throw only those the code reads are modelled,
      two of the table of bots and two of the table of keys; the cascades of
      foreign keys are.
    - The code reads two clocks, of the process and of the database; the
      tables of [InstanceStore] take both, and the controller passes one.
    - The state of the instance controller is a [World]: the tables, what it
      remembers of active units, the clock, and the rest of the world [X],
      which the commands run on machines change.  Such a command may also
      change the tables and the clock, as other requests do while it runs;
      [InstanceWork.timely] says what the theorems allow them.
    - An [async] function is a computation of the monad [M] below: it returns
      or throws, and what it did before stays.  [transaction] undoes the
      tables when its body throws.  The program logic [triple] is what the
      invariants are proved with.  Where callbacks may come in any order
      ([Limiter], [ReadConnections], [RunningChecks], [SshTransport]) every
      callback is a step of a transition system.
    - A date is its milliseconds since 1970 ([Dates]), a string the list of
      its code units below 256, the text of an alert its code points, a buffer
      its bytes, a number an integer or a fraction.
    - Arguments stand for what the code calls and this library cannot read:
      [formatToParts] for the calendar of [Intl] (what the schedulers rely on
      is the class [Due.LocalZone]), [nanoid] ids, the clock, the job queue
      ([Announce.SendJob], with the classes [QueueKeepsStatus] and
      [Delivery.RecordingQueue] for what it promises), commands run on a
      machine, sending to a service, [JSON.parse], [isIP] (the class
      [Egress.AddressFamilies]) and the parsers of URLs and of toml, digests,
      and the date formats and number formats other than those the code itself
      prints ([other]).  The removal of secrets from texts (security/redact.ts)
      is an argument too.

    ** What is shown

    - [CommandScheduler]: a command is tried at the first tick of each day
      that falls in its window, and exactly then; claims exclude later claims
      of the day; ticks account for every row.  Two theorems evaluate the
      start of a day the code computes where it is not midnight: in the first
      minute of a day, and on the day the clock jumps forward.
    - [TaskPlans], [TaskStore], [TaskScheduler]: which claims are made and that
      their keys are distinct, that a claim is granted once, that a tick ends
      the runs it starts and survives failures, that an interval counts the
      time its bot runs, that steps are sent in order.
    - [StatusHistory]: the history of every machine and bot has no gap and no
      overlap and agrees with its condition after every operation; a lasting
      absence is reported, once per incident; one theorem evaluates how
      reading a journal afresh takes such a report back.
    - [StatusPages]: the pages of the event list partition it.
    - [Reachability], [Rollup], [Connection], [Observer]: the verdict on a
      machine is its run of failures; seconds add up; paging does not change
      what a journal says; every leased connection is released; the command
      run on a machine holds only checked text.
    - [Announce], [Outcome], [Delivery]: an event is announced once, a recovery
      only after its problem; waits are bounded; every delivery is settled or
      has a job for its next attempt, and a settled one is left alone.
    - [DestinationSafety], [AlertSafety]: settings are read back as saved (the
      class [WebhookJson] has a printer and a reader of JSON as its instance),
      rotated secrets of webhooks overlap, requests are recorded or undone, tests are
      counted, an alert sent again has its job.
    - [SenderSafety], [Egress]: no request leaves for an address the policy
      forbids; an address is allowed exactly when the blocks the code lists say
      so, and an accepted destination passed every check.
    - [SmtpSafety], [MailText]: nothing is told before the session is secure, a
      message is handed over once, mail called delivered was taken (one theorem
      evaluates the answer out of turn where it was not), and an alert stays in
      its place in the message.
    - [InstanceSafety]: every command a request runs on a machine is run under
      its claim, a request that was granted its claim is not overtaken, saves
      are compare and swap, requests that succeed are recorded and those that
      fail give the claim back.  The first two are proved by running a request
      beside the same request on machines that refuse commands without the
      claim ([InstanceWork.agree]): the two give the same answer.
    - [InstanceStore]: a granted claim to save, to start, stop or remove, or to
      add a bot excludes all others for its lease (a sign-in's does not exclude a
      save), and saved settings are numbered as they were saved.
    - [SignIn]: a sign-in whose commands were answered gives its claim back when
      it fails; two theorems evaluate what it leaves wrong.
    - [ClientConfig], [Control], [Shell]: no setting, command or name breaks
      out of its place in the client's file, its control channel or a shell
      command, and passwords typed as commands are hidden; the file's lines are
      those of a grammar of toml that is told without the functions that write it.
    - [ProvisionSafety], [HostCheck], [HostSafety], [HostSetup],
      [ExpressInstall], [Teardown]: what setting a machine up has made sure of,
      that it lets go of the machine however it ends and whichever of its writes
      fail, that a machine called ready is accepted by the steps of setting up
      ([HostCheck.storageStep] is the script that sets storage up; the two cases
      where it may still refuse are stated), that every bot keeps a machine, and
      that the row of a machine goes only when nothing is left on it.
    - [ReconcileSafety], [ConfigDrift]: a report is empty exactly when
      everything is as it should be, which [ReconcileSafety.in_order] says of the
      machine's answers without the functions that compare, and tells nothing of
      withheld values.
    - [ReadPool], [ReadOps], [HostReader], [RunningChecks], [Limiter]: readers
      read over connections of their own key, an open connection is the one of
      the pool's entry for its key unless it was taken out and is still used,
      reads that lost theirs are told, no more calls than the limit hold a
      channel, in the order they came, and an answer about a bot is of the same
      machine and login and never older than its last stop.
    - [LiveSafety]: an exchange ends once and closes its channel.
    - [SshTransport]: a command ends once, by the time it was given, and leaves
      no channel and no place behind, also of those opened for it too late; its
      result is all that was said.  The same
      of commands under a signal, and of forwards.
    - [ArtifactSafety]: whatever fails in between, what left a bot's list of
      players was stored, and is until the job deletes it, but for two exceptions
      that are stated; the guards of the command that empties the list are
      modelled ([Artifacts.truncateGuards]).  [ArtifactPruning]: pruning keeps the
      newest; of the commands of a sweep one removes a replay that was just
      stored and one those that are a week old.
    - [Members]: an organization keeps an owner, whoever removes whom; a removal
      is whole.  [SealedBox], [SshKeys]: secrets outlive the change of keys, a
      stored key opens, and machines keep their keys.
    - [UpdateCheck], [ReleaseNotes], [FleetStatus], [ChatText]: checks are
      spaced and keep what they found, versions are ordered, notes are read to
      the end, processes are judged by their last words, and a style never
      changes what a message says.
    - [Access]: the pages of the audit log are the log.
    - [HealthPoller]: a poll returns and judges every machine; one theorem
      evaluates how a failure to store reads as an unreachable machine.

    ** Fuel and bounds

    A journal is drained in at most [JOURNAL_DRAIN_ROUNDS] and
    [JOIN_DRAIN_ROUNDS] rounds, which are the code's own.  [Smtp.readReply]
    takes the length of its buffer as fuel: every turn takes a line off it
    ([SmtpSafety.read_lines_enough]); [MailText.lines_of], which only theorems
    use, does the same.  The loops of [ReleaseNotes] take the length of what
    they read: every turn passes a unit or a line
    ([ReleaseNotes.notes_are_read_to_the_end], [find_close_enough]).  Every
    other function is total by structural recursion; [for_each] and [order_by]
    visit a list once.

    ** What is not modelled, and why

    The ssh client ([SshTransport] models what the code does with its
    callbacks) and the parser of toml are packages; the patterns of the
    removal of secrets look around and ahead, and only what is done with their
    result matters here.  The web application, the routes, the schemas of
    requests and views, the migrations and the policies handed to the queue
    are wiring and data, as are logging and tracing.  The timers that call the
    ticks are left out: what is modelled is what a tick does. *)

From stdpp Require Export base tactics list sets strings pretty.
From Stdlib Require Export ZArith Lia Sorting.Permutation Sorting.Sorted.
From Stdlib Require Export Ascii.

#[global] Open Scope Z_scope.

(** ** Notations and automation of the development *)

Declare Scope mcc_scope.
Delimit Scope mcc_scope with mcc.

(** The [===] of the sources on strings, enumerations and optional values. *)
Notation "x ≡? y" := (bool_decide (x = y)) (at level 70, no associativity) : mcc_scope.

#[global] Open Scope mcc_scope.

Create HintDb mcc.

(** [lia] knows division and remainder by constants. *)
Ltac Zify.zify_post_hook ::= Z.to_euclidean_division_equations.

(** Turn boolean tests of the sources into the propositions they decide. *)
Ltac tests :=
  repeat match goal with
  | H : bool_decide _ = true |- _ => apply bool_decide_eq_true in H
  | H : bool_decide _ = false |- _ => apply bool_decide_eq_false in H
  | H : (_ && _)%bool = true |- _ => apply andb_prop in H; destruct H
  | H : (_ || _)%bool = false |- _ => apply orb_false_elim in H; destruct H
  | H : negb _ = true |- _ => apply negb_true_iff in H
  | H : negb _ = false |- _ => apply negb_false_iff in H
  | H : (_ <? _) = true |- _ => apply Z.ltb_lt in H
  | H : (_ <? _) = false |- _ => apply Z.ltb_ge in H
  | H : (_ <=? _) = true |- _ => apply Z.leb_le in H
  | H : (_ <=? _) = false |- _ => apply Z.leb_gt in H
  | H : (_ =? _) = true |- _ => apply Z.eqb_eq in H
  | H : (_ =? _) = false |- _ => apply Z.eqb_neq in H
  end.

(** Equality tests on constants, evaluated. *)
Ltac constants :=
  repeat match goal with
  | |- context [bool_decide (?a = ?b)] =>
      let v := eval vm_compute in (bool_decide (a = b)) in
      lazymatch v with
      | true => change (bool_decide (a = b)) with true
      | false => change (bool_decide (a = b)) with false
      end
  end; cbv iota.

(** Case analysis on every test of the goal, with the decided facts in
    the context. *)
Ltac branches :=
  repeat match goal with
  | |- context [match ?x with _ => _ end] =>
      lazymatch x with
      | context [match _ with _ => _ end] => fail
      | _ => let E := fresh "E" in destruct x eqn:E; simplify_eq/=
      end
  end; tests.

(** ** Fallible, stateful computations

    An [async] function of the sources awaits its calls one after the
    other; it either returns a value or throws, and in both cases the
    effects made so far stay.  [M S A] is that: a state transformer that
    returns the state on both exits. *)

(** The classes of [Error] the modelled code tells apart with
    [instanceof]; a class carries the fields the code reads from it. *)
Inductive ErrorClass : Type :=
  | PlainError
  | InternalError
  | UnknownTimezoneError
  | InstanceTaskStepsFailedError (stepsSent : Z)
  | NamedError (name : string).

(** A thrown value: an [Error] object, or anything else. *)
Inductive thrown : Type :=
  | ThrownError (cls : ErrorClass) (message : string)
  | ThrownValue (text : string).

#[global] Instance ErrorClass_eq_dec : EqDecision ErrorClass.
Proof. solve_decision. Defined.

#[global] Instance thrown_eq_dec : EqDecision thrown.
Proof. solve_decision. Defined.

Inductive result (A : Type) : Type :=
  | Ok (a : A)
  | Throw (e : thrown).
Arguments Ok {A} a.
Arguments Throw {A} e.

Definition M (S A : Type) : Type := S -> result A * S.

Section monad.
Context {S : Type}.

Definition ret {A} (a : A) : M S A := fun s => (Ok a, s).

Definition throw {A} (e : thrown) : M S A := fun s => (Throw e, s).

Definition bind {A B} (m : M S A) (k : A -> M S B) : M S B :=
  fun s => match m s with
           | (Ok a, s') => k a s'
           | (Throw e, s') => (Throw e, s')
           end.

(** [try { m } catch (error) { h(error) }] *)
Definition try_catch {A} (m : M S A) (h : thrown -> M S A) : M S A :=
  fun s => match m s with
           | (Ok a, s') => (Ok a, s')
           | (Throw e, s') => h e s'
           end.

(** [try { m } finally { f() }]: [f] runs on both exits. *)
Definition try_finally {A} (m : M S A) (f : M S unit) : M S A :=
  fun s => match m s with
           | (r, s') => match f s' with
                        | (Ok _, s'') => (r, s'')
                        | (Throw e, s'') => (Throw e, s'')
                        end
           end.

(** [await m.catch(() => undefined)] *)
Definition swallow (m : M S unit) : M S unit := try_catch m (fun _ => ret tt).

Definition get : M S S := fun s => (Ok s, s).

Definition modify (f : S -> S) : M S unit := fun s => (Ok tt, f s).

Definition gets {A} (f : S -> A) : M S A := fun s => (Ok (f s), s).

(** [for (const x of xs) { body }]; the body's [continue] is a return. *)
Fixpoint for_each {A} (xs : list A) (body : A -> M S unit) : M S unit :=
  match xs with
  | [] => ret tt
  | x :: rest => bind (body x) (fun _ => for_each rest body)
  end.
End monad.

Notation "'let*' x ':=' m 'in' k" := (bind m (fun x => k))
  (at level 10, x pattern, m at level 100, k at level 200) : mcc_scope.
Notation "m ;;; k" := (bind m (fun _ => k))
  (at level 100, k at level 200, right associativity) : mcc_scope.

(** Code that throws but keeps no state is a [result]; [lift] is its call
    from stateful code. *)
Definition rbind {A B} (r : result A) (k : A -> result B) : result B :=
  match r with
  | Ok a => k a
  | Throw e => Throw e
  end.

Notation "'let+' x ':=' r 'in' k" := (rbind r (fun x => k))
  (at level 10, x pattern, r at level 100, k at level 200) : mcc_scope.

Definition lift {S A} (r : result A) : M S A := fun s => (r, s).

(** A database statement: it answers and leaves new tables. *)
Definition stmt {S A} (f : S -> A * S) : M S A := fun s => (Ok (f s).1, (f s).2).

(** [error instanceof Error ? error : fallback], a failure handed on. *)
Definition as_failure (fallback : string) (e : thrown) : thrown :=
  match e with
  | ThrownError _ _ => e
  | ThrownValue _ => ThrownValue fallback
  end.

(** [error instanceof Error ? error.message : fallback] *)
Definition reason_of (fallback : string) (e : thrown) : string :=
  match e with
  | ThrownError _ message => message
  | ThrownValue _ => fallback
  end.

(** An optional callback, [deps.onError?.(message, error)]. *)
Definition call_optional {S} (callback : option (string -> thrown -> M S unit))
    (message : string) (error : thrown) : M S unit :=
  match callback with
  | Some f => f message error
  | None => fun s => (Ok tt, s)
  end.

(** A computation on one component of a larger state. *)
Definition on_snd {R W A} (m : M W A) : M (R * W) A :=
  fun s => match m (snd s) with (r, w) => (r, (fst s, w)) end.

Definition on_fst {R W A} (m : M R A) : M (R * W) A :=
  fun s => match m (fst s) with (r, x) => (r, (x, snd s)) end.

(** A database transaction: what it did to the database is undone when
    its body throws.  [restore before after] is the state with the
    database of [before]. *)
Definition transaction {S A} (restore : S -> S -> S) (m : M S A) : M S A :=
  fun s => match m s with
           | (Ok a, s') => (Ok a, s')
           | (Throw e, s') => (Throw e, restore s s')
           end.

(** ** A small program logic

    [triple P m Q E]: from a state satisfying [P], [m] returns with [Q] or
    throws with [E].  The rules below are what the loop invariants of the
    components are proved with. *)
Definition triple {S A} (P : S -> Prop) (m : M S A)
    (Q : A -> S -> Prop) (E : thrown -> S -> Prop) : Prop :=
  forall s, P s -> match m s with
                   | (Ok a, s') => Q a s'
                   | (Throw e, s') => E e s'
                   end.

Section triples.
Context {S : Type}.
Implicit Types P : S -> Prop.

Lemma triple_ret {A} P (a : A) E : triple P (ret a) (fun _ => P) E.
Proof. intros s Hs. exact Hs. Qed.

Lemma triple_throw {A} P e (Q : A -> S -> Prop) :
  triple P (throw e) Q (fun _ => P).
Proof. intros s Hs. exact Hs. Qed.

Lemma triple_bind {A B} P (m : M S A) (k : A -> M S B) R Q E :
  triple P m R E -> (forall a, triple (R a) (k a) Q E) -> triple P (bind m k) Q E.
Proof.
  intros Hm Hk s Hs. specialize (Hm s Hs). unfold bind.
  destruct (m s) as [[a|e] s']; [exact (Hk a s' Hm) | exact Hm].
Qed.

Lemma triple_catch {A} P (m : M S A) h R Q E :
  triple P m Q R -> (forall e, triple (R e) (h e) Q E) -> triple P (try_catch m h) Q E.
Proof.
  intros Hm Hh s Hs. specialize (Hm s Hs). unfold try_catch.
  destruct (m s) as [[a|e] s']; [exact Hm | exact (Hh e s' Hm)].
Qed.

Lemma triple_consequence {A} (P P' : S -> Prop) (m : M S A) Q Q' E E' :
  triple P' m Q' E' -> (forall s, P s -> P' s) ->
  (forall a s, Q' a s -> Q a s) -> (forall e s, E' e s -> E e s) -> triple P m Q E.
Proof.
  intros Hm HP HQ HE s Hs. specialize (Hm s (HP s Hs)).
  destruct (m s) as [[a|e] s']; auto.
Qed.

(** The invariant rule of [for_each]: [I] is indexed by what was visited
    and what is left. *)
Lemma triple_for_each {A} (I : list A -> list A -> S -> Prop) E
    (body : A -> M S unit) (xs : list A) :
  (forall seen x rest, xs = seen ++ x :: rest ->
     triple (I seen (x :: rest)) (body x) (fun _ => I (seen ++ [x]) rest) E) ->
  triple (I [] xs) (for_each xs body) (fun _ => I xs []) E.
Proof.
  intros Hbody.
  enough (H : forall seen rest, xs = seen ++ rest ->
    triple (I seen rest) (for_each rest body) (fun _ => I xs []) E) by exact (H [] xs eq_refl).
  intros seen rest. revert seen. induction rest as [|x rest IH]; intros seen Hxs; simpl.
  - rewrite app_nil_r in Hxs. rewrite <- Hxs. apply triple_ret.
  - eapply triple_bind; [exact (Hbody seen x rest Hxs)|].
    intros ?. apply IH. rewrite Hxs, <- app_assoc. reflexivity.
Qed.

Lemma triple_for_each_all {A} P E (body : A -> M S unit) (xs : list A) :
  (forall x, In x xs -> triple P (body x) (fun _ => P) E) ->
  triple P (for_each xs body) (fun _ => P) E.
Proof.
  intros H. apply (triple_for_each (fun _ _ => P)). intros seen x rest ->. apply H.
  apply in_app_iff. right. by left.
Qed.

(** A loop in which one element changes what holds. *)
Lemma triple_for_each_at {A} P Q E (body : A -> M S unit) (before : list A) x after :
  (forall y, In y before -> triple P (body y) (fun _ => P) E) ->
  triple P (body x) (fun _ => Q) E ->
  (forall y, In y after -> triple Q (body y) (fun _ => Q) E) ->
  triple P (for_each (before ++ x :: after) body) (fun _ => Q) E.
Proof.
  intros Hb Hx Ha. induction before as [|y before IH]; simpl.
  - eapply triple_bind; [exact Hx|]. intros ?. by apply triple_for_each_all.
  - eapply triple_bind; [apply Hb; by left|]. intros ?. apply IH. intros z Hz. apply Hb. by right.
Qed.
End triples.

(** What is known besides the state. *)
Lemma triple_ex {S A X} (P : X -> S -> Prop) (m : M S A) Q E :
  (forall x, triple (P x) m Q E) -> triple (fun s => exists x, P x s) m Q E.
Proof. intros H s [x Hx]. by apply (H x). Qed.

Lemma triple_and {S A} (F : Prop) (P : S -> Prop) (m : M S A) Q E :
  (F -> triple P m Q E) -> triple (fun s => F /\ P s) m Q E.
Proof. intros H s [HF Hs]. by apply (H HF). Qed.

Lemma triple_finally {S A} (P : S -> Prop) (m : M S A) f R Q E E' :
  triple P m R E' -> (forall a, triple (R a) f (fun _ => Q a) E) ->
  (forall e, triple (E' e) f (fun _ => E e) E) -> triple P (try_finally m f) Q E.
Proof.
  intros Hm Hf He s Hs. specialize (Hm s Hs). unfold try_finally.
  destruct (m s) as [[a|e] s'].
  - specialize (Hf a s' Hm). by destruct (f s') as [[[]|e] s''].
  - specialize (He e s' Hm). by destruct (f s') as [[[]|e'] s''].
Qed.

(** What a computation on one component says nothing of. *)
Lemma triple_on_snd {R W A} (P : R -> Prop) (m : M W A) :
  triple (fun s : R * W => P s.1) (on_snd m) (fun _ s => P s.1) (fun _ s => P s.1).
Proof. intros [r w] Hs. unfold on_snd. simpl. by destruct (m w) as [[a|e] w']. Qed.

Lemma triple_on_fst_modify {R W} (P Q : R -> Prop) (f : R -> R) E :
  (forall r, P r -> Q (f r)) ->
  triple (fun s : R * W => P s.1) (on_fst (modify f)) (fun _ s => Q s.1) E.
Proof. intros H [r w] Hs. exact (H r Hs). Qed.

Lemma triple_lift {S A} (P : S -> Prop) (r : result A) E :
  (forall e s, r = Throw e -> P s -> E e s) ->
  triple P (lift r) (fun a s => P s /\ r = Ok a) E.
Proof. intros H s Hs. unfold lift. destruct r as [a|e]; [done|by apply H]. Qed.

(** An invariant kept on both exits. *)
Definition preserves {S A} (P : S -> Prop) (m : M S A) : Prop :=
  triple P m (fun _ => P) (fun _ => P).

Section preserves.
Context {S : Type} (P : S -> Prop).

Lemma preserves_ret {A} (a : A) : preserves P (ret a).
Proof. intros s Hs. exact Hs. Qed.

Lemma preserves_throw {A} e : preserves P (throw (A := A) e).
Proof. intros s Hs. exact Hs. Qed.

Lemma preserves_gets {A} (f : S -> A) : preserves P (gets f).
Proof. intros s Hs. exact Hs. Qed.

Lemma preserves_modify f : (forall s, P s -> P (f s)) -> preserves P (modify f).
Proof. intros H s Hs. exact (H s Hs). Qed.

Lemma preserves_bind {A B} (m : M S A) (k : A -> M S B) :
  preserves P m -> (forall a, preserves P (k a)) -> preserves P (bind m k).
Proof. intros Hm Hk. eapply triple_bind; [exact Hm | exact Hk]. Qed.

Lemma preserves_catch {A} (m : M S A) h :
  preserves P m -> (forall e, preserves P (h e)) -> preserves P (try_catch m h).
Proof. intros Hm Hh. eapply triple_catch; [exact Hm | exact Hh]. Qed.

Lemma preserves_swallow m : preserves P m -> preserves P (swallow m).
Proof. intros Hm. apply preserves_catch; [exact Hm|]. intros e. apply preserves_ret. Qed.

Lemma preserves_for_each {A} (xs : list A) body :
  (forall x, preserves P (body x)) -> preserves P (for_each xs body).
Proof.
  intros H. induction xs as [|x xs IH]; simpl; [apply preserves_ret|].
  apply preserves_bind; [apply H | intros ?; exact IH].
Qed.

Lemma preserves_transaction {A} restore (m : M S A) :
  (forall s s', P s -> P s' -> P (restore s s')) ->
  preserves P m -> preserves P (transaction restore m).
Proof.
  intros Hr Hm s Hs. specialize (Hm s Hs). unfold transaction.
  destruct (m s) as [[a|e] s']; [exact Hm | exact (Hr s s' Hs Hm)].
Qed.
End preserves.

#[export] Hint Resolve preserves_ret preserves_throw preserves_gets preserves_bind
  preserves_catch preserves_swallow preserves_for_each : mcc.

(** ** JavaScript strings and numbers

    A string is the list of its code units; the model has those below 256. *)

(** [let? x := o in k]: [k] on the value, [undefined] on [undefined]. *)
Notation "'let?' x ':=' m 'in' k" := (match m with Some x => k | None => None end)
  (at level 10, x pattern, m at level 100, k at level 200) : mcc_scope.

(** [value.includes(part)] *)
Fixpoint includes (part value : string) : bool :=
  String.prefix part value ||
  match value with
  | EmptyString => false
  | String _ rest => includes part rest
  end.

(** [value.startsWith(part)] *)
Definition startsWith (part value : string) : bool := String.prefix part value.

(** [value.slice(n)] for [n >= 0]. *)
Fixpoint slice_from (n : nat) (value : string) : string :=
  match n, value with
  | O, _ => value
  | _, EmptyString => EmptyString
  | S n', String _ rest => slice_from n' rest
  end.

(** [value.split(separator)] for a one-character separator: never empty. *)
Fixpoint split_on (separator : Ascii.ascii) (value : string) : list string :=
  match value with
  | EmptyString => [EmptyString]
  | String c rest =>
      if c ≡? separator then EmptyString :: split_on separator rest
      else match split_on separator rest with
           | [] => [String c EmptyString]
           | head :: tail => String c head :: tail
           end
  end.

(** [parts.join(separator)] *)
Fixpoint join_with (separator : string) (parts : list string) : string :=
  match parts with
  | [] => EmptyString
  | [part] => part
  | part :: rest => part +:+ separator +:+ join_with separator rest
  end.

(** White space, [\s] of the regular expressions, among the code units
    below 256. *)
Definition is_white (c : Ascii.ascii) : bool :=
  let n := Ascii.nat_of_ascii c in
  ((9 <=? n)%nat && (n <=? 13)%nat) || (n =? 32)%nat || (n =? 160)%nat.

(** [value.trim()] *)
Fixpoint trim_start (value : string) : string :=
  match value with
  | String c rest => if is_white c then trim_start rest else value
  | EmptyString => EmptyString
  end.

Definition trim (value : string) : string :=
  String.rev (trim_start (String.rev (trim_start value))).

(** [value.split(/\s+/)]; [in_gap] while a run of white space is read. *)
Fixpoint split_white (in_gap : bool) (value : string) : list string :=
  match value with
  | EmptyString => [EmptyString]
  | String c rest =>
      if is_white c then
        if in_gap then split_white true rest else EmptyString :: split_white true rest
      else
        match split_white false rest with
        | [] => [String c EmptyString]
        | word :: words => String c word :: words
        end
  end.

(** [value.toLowerCase()] *)
Definition lower_char (c : Ascii.ascii) : Ascii.ascii :=
  let n := Ascii.nat_of_ascii c in
  if ((65 <=? n)%nat && (n <=? 90)%nat) || ((192 <=? n)%nat && (n <=? 222)%nat && negb (n =? 215)%nat)
  then Ascii.ascii_of_nat (n + 32) else c.

Fixpoint toLowerCase (value : string) : string :=
  match value with
  | EmptyString => EmptyString
  | String c rest => String (lower_char c) (toLowerCase rest)
  end.

Fixpoint chars_all (p : Ascii.ascii -> bool) (value : string) : bool :=
  match value with
  | EmptyString => true
  | String c rest => p c && chars_all p rest
  end.

(** [value.padStart(width, fill)] for a one-character fill. *)
Fixpoint repeat_char (n : nat) (c : Ascii.ascii) : string :=
  match n with
  | O => EmptyString
  | S n' => String c (repeat_char n' c)
  end.

Definition padStart (width : nat) (fill : Ascii.ascii) (value : string) : string :=
  repeat_char (width - String.length value) fill +:+ value.

(** [String(n)] of an integer. *)
Definition decimal (n : Z) : string := pretty n.

(** The value of a string of decimal digits, [Number(digits)]. *)
Definition digit_value (c : Ascii.ascii) : option Z :=
  match Ascii.is_nat c with
  | Some n => Some (Z.of_nat n)
  | None => None
  end.

Fixpoint digits_from (acc : Z) (value : string) : option Z :=
  match value with
  | EmptyString => Some acc
  | String c rest =>
      match digit_value c with
      | Some d => digits_from (acc * 10 + d) rest
      | None => None
      end
  end.

Definition numberOfDigits (value : string) : option Z :=
  match value with
  | EmptyString => None
  | _ => digits_from 0 value
  end.

(** ** Shared lemmas *)

Lemma decimal_inj n m : decimal n = decimal m -> n = m.
Proof. apply pretty_Z_inj. Qed.

Lemma string_app_nil_r (s : string) : s +:+ "" = s.
Proof. induction s as [|c s IH]; [done|]. change (String c (s +:+ "") = String c s). by rewrite IH. Qed.

Lemma string_app_assoc (a b c : string) : (a +:+ b) +:+ c = a +:+ (b +:+ c).
Proof.
  induction a as [|x a IH]; [done|].
  change (String x ((a +:+ b) +:+ c) = String x (a +:+ (b +:+ c))). by rewrite IH.
Qed.

Lemma string_app_cons x (a b : string) : String x a +:+ b = String x (a +:+ b).
Proof. reflexivity. Qed.

Lemma slice_from_app a b k :
  slice_from (String.length a + k) (a +:+ b) = slice_from k b.
Proof. induction a as [|c a IH]; [done|]. rewrite string_app_cons. simpl. exact IH. Qed.


Lemma string_length_app (a b : string) :
  String.length (a +:+ b) = (String.length a + String.length b)%nat.
Proof. induction a as [|c a IH]; [done|]. rewrite string_app_cons. simpl. by rewrite IH. Qed.

(** Texts that end in parts of the same length are equal part by part. *)
Lemma app_inj_length (a a' b b' : string) :
  String.length b = String.length b' -> a +:+ b = a' +:+ b' -> a = a' /\ b = b'.
Proof.
  intros Hlen. revert a'. induction a as [|x a IH]; intros [|x' a'] H.
  - done.
  - exfalso. change (b = String x' (a' +:+ b')) in H. subst b. simpl in Hlen.
    rewrite string_length_app in Hlen. lia.
  - exfalso. change (String x (a +:+ b) = b') in H. subst b'. simpl in Hlen.
    rewrite string_length_app in Hlen. lia.
  - rewrite !string_app_cons in H. injection H as -> H. apply IH in H as [-> ->]. done.
Qed.

Lemma string_app_inj_l a b c : a +:+ b = a +:+ c -> b = c.
Proof. induction a as [|x a IH]; [done|]. intros [= H]. by apply IH. Qed.

Lemma string_app_inj_r a b c : a +:+ c = b +:+ c -> a = b.
Proof.
  intros H. apply app_inj_length in H as [H _]; [done|].
  apply (f_equal String.length) in H. rewrite !string_length_app in H. lia.
Qed.

Lemma starts_iff s v : startsWith s v = true <-> exists b, v = s +:+ b.
Proof.
  unfold startsWith. revert v. induction s as [|c s IH]; intros v.
  - split; [by exists v|]. intros _. by destruct v.
  - destruct v as [|d v]; simpl; [split; [done|by intros [b [=]]]|].
    destruct (Ascii.ascii_dec c d) as [->|Hne].
    + rewrite IH. split; intros [b Hb]; exists b; [by rewrite string_app_cons, Hb|].
      rewrite string_app_cons in Hb. by injection Hb.
    + split; [done|]. intros [b Hb]. rewrite string_app_cons in Hb. by injection Hb as ->.
Qed.

Lemma startsWith_part part rest : startsWith part (part +:+ rest) = true.
Proof.
  unfold startsWith. induction part as [|c part IH]; [by destruct rest|]. rewrite string_app_cons. cbn [String.prefix].
  by destruct (Ascii.ascii_dec c c).
Qed.

(** ** Texts within texts *)

Lemma includes_unfold s v :
  includes s v = startsWith s v || match v with EmptyString => false | String _ rest => includes s rest end.
Proof. by destruct v. Qed.

Lemma includes_iff s v : includes s v = true <-> exists a b, v = a +:+ s +:+ b.
Proof.
  induction v as [|c v IH].
  - rewrite includes_unfold, orb_false_r, starts_iff. split.
    + intros [b Hb]. by exists "", b.
    + intros (a & b & H). destruct a; [by exists b|done].
  - rewrite includes_unfold, orb_true_iff, IH, starts_iff. split.
    + intros [[b Hb]|(a & b & ->)]; [by exists "", b|]. by exists (String c a), b.
    + intros (a & b & H). destruct a as [|d a]; [left; by exists b|right].
      rewrite string_app_cons in H. injection H as -> H. by exists a, b.
Qed.

(** A part of a text has nothing the text has not. *)
Lemma includes_part s a m b : includes s (a +:+ m +:+ b) = false -> includes s m = false.
Proof.
  intros H. destruct (includes s m) eqn:E; [|done]. apply includes_iff in E as (x & y & ->).
  rewrite <- H. symmetry. apply includes_iff. exists (a +:+ x), (y +:+ b). by rewrite !string_app_assoc.
Qed.

Lemma string_app_eq_app (a b c d : string) :
  a +:+ b = c +:+ d -> (exists e, a = c +:+ e /\ d = e +:+ b) \/ (exists e, c = a +:+ e /\ b = e +:+ d).
Proof.
  revert c. induction a as [|x a IH]; intros c H; [right; by exists c|].
  destruct c as [|y c]; [left; by exists (String x a)|]. rewrite !string_app_cons in H. injection H as -> H.
  apply IH in H as [(e & -> & ->)|(e & -> & ->)]; [left|right]; by exists e.
Qed.

Lemma filter_idem {A} (p : A -> bool) (l : list A) :
  List.filter p (List.filter p l) = List.filter p l.
Proof.
  induction l as [|x l IH]; simpl; [done|].
  destruct (p x) eqn:E; simpl; [rewrite E, IH|]; done.
Qed.

Lemma filter_all {A} (p : A -> bool) (l : list A) :
  (forall x, In x l -> p x = true) -> List.filter p l = l.
Proof.
  induction l as [|x l IH]; intros H; simpl; [done|].
  rewrite (H x (or_introl eq_refl)), IH; [done|]. intros y Hy. apply H. right. exact Hy.
Qed.

Lemma filter_none {A} (p : A -> bool) (l : list A) :
  (forall x, In x l -> p x = false) -> List.filter p l = [].
Proof.
  induction l as [|x l IH]; intros H; simpl; [done|].
  rewrite (H x (or_introl eq_refl)). apply IH. intros y Hy. apply H. right. exact Hy.
Qed.

Lemma existsb_false {A} (p : A -> bool) (l : list A) :
  existsb p l = false <-> forall x, In x l -> p x = false.
Proof.
  split.
  - intros H x Hx. destruct (p x) eqn:E; [|done].
    assert (existsb p l = true) by (apply existsb_exists; eauto). congruence.
  - intros H. destruct (existsb p l) eqn:E; [|done].
    apply existsb_exists in E as (x & Hx & Hp). rewrite (H x Hx) in Hp. done.
Qed.

(** What a predicate says of every character of a concatenation, and of a
    printed number. *)
Lemma chars_all_app p a b : chars_all p (a +:+ b) = chars_all p a && chars_all p b.
Proof.
  induction a as [|x a IH]; [done|]. rewrite string_app_cons. simpl. rewrite IH.
  by rewrite andb_assoc.
Qed.

Lemma chars_all_repeat p n c : p c = true -> chars_all p (repeat_char n c) = true.
Proof. intros H. induction n as [|n IH]; simpl; [done|]. by rewrite H. Qed.

Definition digits_or_dash (c : Ascii.ascii) : bool :=
  match Ascii.is_nat c with Some _ => true | None => c ≡? "-"%char end.

Lemma pretty_N_go_digits n s :
  chars_all digits_or_dash s = true -> chars_all digits_or_dash (pretty_N_go n s) = true.
Proof.
  revert s. induction (N.lt_wf_0 n) as [n _ IH]. intros s Hs.
  destruct (decide (0 < n)%N) as [Hn|Hn].
  - rewrite pretty_N_go_step by done. apply IH; [by apply N.div_lt|]. simpl. rewrite Hs.
    rewrite andb_true_r. unfold pretty_N_char. repeat case_match; reflexivity.
  - replace n with 0%N by lia. by rewrite pretty_N_go_0.
Qed.

Lemma decimal_digits n : chars_all digits_or_dash (decimal n) = true.
Proof.
  assert (Hpos : forall p, chars_all digits_or_dash (pretty (N.pos p)) = true).
  { intros p. unfold pretty, pretty_N. case_decide; [done|]. by apply pretty_N_go_digits. }
  destruct n as [|p|p]; [done|apply Hpos|]. unfold decimal, pretty, pretty_Z.
  rewrite chars_all_app. apply andb_true_iff. split; [done|apply Hpos].
Qed.

Lemma chars_all_impl (p q : Ascii.ascii -> bool) s :
  (forall c, p c = true -> q c = true) -> chars_all p s = true -> chars_all q s = true.
Proof.
  intros H. induction s as [|c s IH]; simpl; [done|]. intros Hs. tests.
  by rewrite (H c), IH.
Qed.

Lemma chars_all_join p separator words :
  chars_all p separator = true -> Forall (fun word => chars_all p word = true) words ->
  chars_all p (join_with separator words) = true.
Proof.
  intros Hs Hw. induction Hw as [|word words Hword Hwords IH]; [done|].
  destruct words as [|next words]; [done|].
  change (chars_all p (word +:+ separator +:+ join_with separator (next :: words)) = true).
  by rewrite !chars_all_app, Hword, Hs, IH.
Qed.

(** Splitting on a separator undoes joining with it, for parts that do not
    hold the separator. *)
Definition free_of (c : Ascii.ascii) (value : string) : bool :=
  chars_all (fun x => negb (x ≡? c)) value.

Lemma includes_char c s : includes (String c "") s = negb (free_of c s).
Proof.
  induction s as [|x s IH]; [done|].
  unfold free_of in *. cbn [includes chars_all String.prefix]. rewrite IH, negb_andb, negb_involutive.
  f_equal. destruct (Ascii.ascii_dec c x) as [->|Hne].
  - rewrite bool_decide_eq_true_2 by done. by destruct s.
  - by rewrite bool_decide_eq_false_2.
Qed.

Lemma free_of_app c a b : free_of c (a +:+ b) = free_of c a && free_of c b.
Proof. apply chars_all_app. Qed.

Lemma decimal_free c n : digits_or_dash c = false -> free_of c (decimal n) = true.
Proof.
  intros Hc. eapply chars_all_impl; [|apply decimal_digits]. intros d Hd.
  apply negb_true_iff, bool_decide_eq_false. congruence.
Qed.

Lemma padStart_free c w fill s :
  fill <> c -> free_of c s = true -> free_of c (padStart w fill s) = true.
Proof.
  intros Hf Hs. unfold padStart. rewrite free_of_app, Hs, andb_true_r.
  apply chars_all_repeat. by apply negb_true_iff, bool_decide_eq_false.
Qed.

Lemma split_free c s : free_of c s = true -> split_on c s = [s].
Proof.
  induction s as [|x s IH]; intros H; [done|].
  unfold free_of in H. simpl in H. tests. simpl.
  rewrite bool_decide_eq_false_2 by done. rewrite (IH H0). done.
Qed.

Lemma split_app c s t :
  free_of c s = true -> split_on c (s +:+ String c t) = s :: split_on c t.
Proof.
  induction s as [|x s IH]; intros H.
  - simpl. rewrite bool_decide_eq_true_2 by done. done.
  - unfold free_of in H. simpl in H. tests. rewrite string_app_cons. simpl.
    rewrite bool_decide_eq_false_2 by done. rewrite (IH H0). done.
Qed.

Lemma split_join c (parts : list string) :
  parts <> [] -> Forall (fun s => free_of c s = true) parts ->
  split_on c (join_with (String c "") parts) = parts.
Proof.
  intros Hne Hfree. induction Hfree as [|s rest Hs Hrest IH]; [done|].
  destruct rest as [|t rest]; [apply split_free, Hs|].
  change (split_on c (s +:+ String c (join_with (String c "") (t :: rest))) = s :: t :: rest).
  rewrite split_app by exact Hs. rewrite IH; done.
Qed.

Lemma last_cons_default {A} (x : A) l d : List.last (x :: l) d = List.last l x.
Proof. revert x d. induction l as [|y l IH]; intros x d; [done|]. simpl in *. by rewrite (IH y x), (IH y d). Qed.

(** [m] returns, from any state. *)
Definition answers {S A} (m : M S A) : Prop := forall s, exists a s', m s = (Ok a, s').

(** [m] keeps what [f] reads of the state, however it ends. *)
Definition keeps {S A B} (f : S -> B) (m : M S A) : Prop := forall s, f (m s).2 = f s.

Lemma triple_answers {S A} (P : S -> Prop) (m : M S A) :
  answers m -> preserves P m -> triple P m (fun _ => P) (fun _ _ => False).
Proof.
  intros Ha Hp s Hs. specialize (Hp s Hs). destruct (Ha s) as (a & s' & Hm).
  rewrite Hm in *. exact Hp.
Qed.

Lemma preserves_keeps {S A B} (f : S -> B) (Q : B -> Prop) (m : M S A) :
  keeps f m -> preserves (fun s => Q (f s)) m.
Proof. intros H s Hs. specialize (H s). destruct (m s) as [[a|e] s']; simpl in H; by rewrite H. Qed.

Lemma preserves_on_snd {R W A} (P : W -> Prop) (m : M W A) :
  preserves P m -> preserves (fun s : R * W => P s.2) (on_snd m).
Proof.
  intros H [r w] Hw. specialize (H w Hw). unfold on_snd. simpl. by destruct (m w) as [[a|e] w'].
Qed.

Lemma answers_on_snd {R W A} (m : M W A) : answers m -> answers (S := R * W) (on_snd m).
Proof. intros H [r w]. destruct (H w) as (a & w' & Hm). exists a, (r, w'). unfold on_snd. simpl. by rewrite Hm. Qed.

(** A triple that excludes throwing gives the answer. *)
Lemma triple_run {S A} (P : S -> Prop) (m : M S A) Q :
  triple P m Q (fun _ _ => False) -> forall s, P s -> exists a s', m s = (Ok a, s') /\ Q a s'.
Proof. intros H s Hs. specialize (H s Hs). destruct (m s) as [[a|e] s']; [by exists a, s'|done]. Qed.

(** What a sequence that returned went through. *)
Lemma bind_ok {S A B} (m : M S A) (k : A -> M S B) s b s' :
  bind m k s = (Ok b, s') -> exists a s1, m s = (Ok a, s1) /\ k a s1 = (Ok b, s').
Proof. unfold bind. destruct (m s) as [[a|e] s1] eqn:E; [|done]. intros H. by exists a, s1. Qed.
