(* ===== verification/Tables.v ===== *)
(** The relational layer.

    The repositories of [packages/core] build one SQL statement per
    operation.  A table is the list of its rows in insertion order, and the
    definitions below are the statement shapes the repositories use:
    [select ... where], [update ... set ... where], [delete ... where],
    [insert ... on conflict do nothing] and [insert ... on conflict do
    update].  Each statement is atomic, as a single statement of the
    database is.  A unique index of the migrations is [unique_on key]; a
    partial index is a [key] that is [None] outside its [WHERE]. *)

From S2P Require Import Prelude.

Section tables.
Context {R : Type}.
Implicit Types (p : R -> bool) (f : R -> R) (t : list R).

Definition select p t : list R := List.filter p t.

(** [executeTakeFirst] of a select. *)
Definition select_first p t : option R := head (select p t).

Definition update_where p f t : list R := map (fun r => if p r then f r else r) t.

(** The rows a [returning] clause of an update or a delete reports on. *)
Definition updated p f t : list R := map f (select p t).

(** [numUpdatedRows] and [numDeletedRows]. *)
Definition affected p t : nat := length (select p t).

Definition delete_where p t : list R := List.filter (fun r => negb (p r)) t.

(** [insert ... on conflict do nothing]: [clashes] holds of the stored
    rows the new one conflicts with. *)
Definition insert_or_nothing (clashes : R -> bool) (row : R) t : option R * list R :=
  if existsb clashes t then (None, t) else (Some row, t ++ [row]).

(** [insert ... on conflict do update set]. *)
Definition upsert (clashes : R -> bool) f (row : R) t : option R * list R :=
  if existsb clashes t then (head (updated clashes f t), update_where clashes f t)
  else (Some row, t ++ [row]).

(** A unique index on the rows where [key] is defined. *)
Definition unique_on {K} (key : R -> option K) t : Prop := NoDup (omap key t).

(** ** Reading after writing *)

Lemma select_first_spec p t r : select_first p t = Some r -> In r t /\ p r = true.
Proof.
  unfold select_first, select. intros H. apply filter_In.
  destruct (List.filter p t); simplify_eq/=. by left.
Qed.

Lemma select_first_none p t : select_first p t = None <-> forall r, In r t -> p r = false.
Proof.
  unfold select_first, select. split.
  - intros H r Hr. destruct (p r) eqn:E; [|done].
    assert (Hin : In r (List.filter p t)) by (by apply filter_In).
    destruct (List.filter p t); [done | discriminate].
  - intros H. by rewrite filter_none.
Qed.

Lemma in_update_where p f t r :
  In r (update_where p f t) <-> exists r0, In r0 t /\ r = (if p r0 then f r0 else r0).
Proof.
  unfold update_where. rewrite in_map_iff. split; intros (r0 & H1 & H2); exists r0; auto.
Qed.

Lemma length_update_where p f t : length (update_where p f t) = length t.
Proof. apply length_map. Qed.

Lemma update_where_none p f t : (forall r, In r t -> p r = false) -> update_where p f t = t.
Proof.
  intros H. unfold update_where. induction t as [|r t IH]; [done|]. simpl.
  rewrite (H r (or_introl eq_refl)), IH; [done|]. intros r' Hr'. apply H. by right.
Qed.

Lemma update_where_app p f t t' :
  update_where p f (t ++ t') = update_where p f t ++ update_where p f t'.
Proof. apply map_app. Qed.

(** Rows an unrelated [q] selects are found unchanged. *)
Lemma select_update_other q p f t :
  (forall r, p r = true -> q r = false /\ q (f r) = false) ->
  select q (update_where p f t) = select q t.
Proof.
  intros H. unfold select, update_where. induction t as [|r t IH]; [done|]. simpl.
  destruct (p r) eqn:E; simpl; rewrite IH; [|done].
  destruct (H r E) as [-> ->]. done.
Qed.

(** A row found again after an update that leaves what it is found by. *)
Lemma select_first_update q p f t :
  (forall r, p r = true -> q (f r) = q r) ->
  select_first q (update_where p f t)
  = option_map (fun r => if p r then f r else r) (select_first q t).
Proof.
  intros H. unfold select_first, select, update_where. induction t as [|r t IH]; [done|]. simpl.
  assert (Hq : q (if p r then f r else r) = q r) by (destruct (p r) eqn:E; [by apply H|done]).
  rewrite Hq. by destruct (q r).
Qed.

(** The row an update of one row was made on. *)
Lemma affected_one p t r r' :
  affected p t = 1%nat -> In r t -> p r = true -> In r' t -> p r' = true -> r' = r.
Proof.
  unfold affected. intros H Hr Hp Hr' Hp'.
  assert (Hs : In r (select p t) /\ In r' (select p t)) by (by split; apply filter_In).
  destruct (select p t) as [|x [|y l]]; [done| |done]. simpl in Hs. intuition congruence.
Qed.

Lemma select_delete_other q p t :
  (forall r, p r = true -> q r = false) -> select q (delete_where p t) = select q t.
Proof.
  intros H. unfold select, delete_where. induction t as [|r t IH]; [done|]. simpl.
  destruct (p r) eqn:E; simpl; rewrite IH; [|done]. by rewrite (H r E).
Qed.

Lemma select_app q t t' : select q (t ++ t') = select q t ++ select q t'.
Proof. unfold select. apply List.filter_app. Qed.

Lemma in_delete_where p t r : In r (delete_where p t) <-> In r t /\ p r = false.
Proof. unfold delete_where. rewrite filter_In. by rewrite negb_true_iff. Qed.

(** ** Unique indexes *)

Lemma in_omap {K} (key : R -> option K) t k :
  k ∈ omap key t <-> exists r, In r t /\ key r = Some k.
Proof.
  rewrite list_elem_of_omap.
  split; intros (r & H1 & H2); exists r; (split; [by apply list_elem_of_In|done]).
Qed.

Lemma unique_on_nil {K} (key : R -> option K) : unique_on key [].
Proof. constructor. Qed.

Lemma unique_on_tail {K} (key : R -> option K) r t :
  unique_on key (r :: t) -> unique_on key t.
Proof.
  unfold unique_on. simpl. destruct (key r); [|done]. intros H. by apply NoDup_cons in H as [_ H].
Qed.

Lemma unique_on_head {K} (key : R -> option K) r t k r' :
  unique_on key (r :: t) -> key r = Some k -> In r' t -> key r' <> Some k.
Proof.
  unfold unique_on. simpl. intros H Hk Hin Hk'. rewrite Hk in H.
  apply NoDup_cons in H as [Hn _]. apply Hn. apply in_omap. eauto.
Qed.

(** Two stored rows with the same key are the same row. *)
Lemma unique_on_eq {K} (key : R -> option K) t k r r' :
  unique_on key t -> In r t -> In r' t -> key r = Some k -> key r' = Some k -> r = r'.
Proof.
  induction t as [|x t IH]; intros Hu Hr Hr' Hk Hk'; [done|].
  destruct Hr as [->|Hr], Hr' as [->|Hr']; [done|..].
  - by destruct (unique_on_head key r t k r' Hu Hk Hr').
  - by destruct (unique_on_head key r' t k r Hu Hk' Hr).
  - apply IH; eauto using unique_on_tail.
Qed.

Lemma unique_on_select_le_1 {K} (key : R -> option K) t k p :
  unique_on key t -> (forall r, p r = true -> key r = Some k) ->
  (length (select p t) <= 1)%nat.
Proof.
  intros Hu Hp. unfold select in *. induction t as [|x t IH]; simpl; [lia|].
  destruct (p x) eqn:E; simpl; [|apply IH; eauto using unique_on_tail].
  rewrite filter_none; [simpl; lia|].
  intros y Hy. destruct (p y) eqn:Ey; [|done].
  by destruct (unique_on_head key x t k y Hu (Hp x E) Hy (Hp y Ey)).
Qed.

(** An update that keeps every key, or drops it, keeps the index. *)
Lemma unique_on_update {K} (key : R -> option K) p f t :
  (forall r, In r t -> p r = true -> key (f r) = key r \/ key (f r) = None) ->
  unique_on key t -> unique_on key (update_where p f t).
Proof.
  unfold unique_on, update_where. induction t as [|x t IH]; [done|]. intros Hf Hu.
  assert (IH' : NoDup (omap key (map (fun r => if p r then f r else r) t))).
  { apply IH; [intros r Hr; apply Hf; by right|]. exact (unique_on_tail key x t Hu). }
  simpl. set (x' := if p x then f x else x) in *.
  assert (Hx : key x' = key x \/ key x' = None).
  { unfold x'. destruct (p x) eqn:E; [apply Hf; [by left|done]|by left]. }
  destruct (key x') as [k|] eqn:Ek; [|done]. destruct Hx as [Hx|Hx]; [|done].
  apply NoDup_cons. split; [|done]. intros Hin. apply in_omap in Hin as (r & Hr & Hrk).
  apply in_map_iff in Hr as (r0 & <- & Hr0).
  assert (Hk0 : key r0 = Some k).
  { destruct (p r0) eqn:E; [|done].
    destruct (Hf r0 (or_intror Hr0) E) as [H|H]; rewrite H in Hrk; done. }
  by apply (unique_on_head key x t k r0 Hu (eq_sym Hx) Hr0).
Qed.

Lemma unique_on_delete {K} (key : R -> option K) p t :
  unique_on key t -> unique_on key (delete_where p t).
Proof.
  unfold delete_where. induction t as [|x t IH]; [done|]. intros Hu. simpl.
  pose proof (IH (unique_on_tail key x t Hu)) as IH'.
  destruct (negb (p x)); [|done]. unfold unique_on in *. simpl.
  destruct (key x) as [k|] eqn:E; [|done].
  apply NoDup_cons. split; [|done]. intros Hin. apply in_omap in Hin as (r & Hr & Hrk).
  apply filter_In in Hr as [Hr _].
  by apply (unique_on_head key x t k r Hu E Hr).
Qed.

Lemma unique_on_snoc {K} (key : R -> option K) t r :
  (forall k r', key r = Some k -> In r' t -> key r' <> Some k) ->
  unique_on key t -> unique_on key (t ++ [r]).
Proof.
  unfold unique_on. intros Hf Hu. rewrite omap_app. simpl.
  destruct (key r) as [k|] eqn:E; [|by rewrite app_nil_r].
  apply NoDup_app. split; [done|]. split; [|apply NoDup_singleton].
  intros k' Hk' Hin. apply list_elem_of_singleton in Hin as ->.
  apply in_omap in Hk' as (r' & Hr' & Hk'). by apply (Hf k r' eq_refl Hr').
Qed.

(** [on conflict do nothing] keeps the index its conflict target names. *)
Lemma unique_on_insert {K} (key : R -> option K) clashes row t :
  (forall r, In r t -> key r = key row -> key row <> None -> clashes r = true) ->
  unique_on key t -> unique_on key (insert_or_nothing clashes row t).2.
Proof.
  intros Hc Hu. unfold insert_or_nothing. destruct (existsb clashes t) eqn:E; [done|]. simpl.
  apply unique_on_snoc; [|done]. intros k r' Hk Hr' Hk'.
  rewrite existsb_false in E. specialize (E r' Hr').
  rewrite (Hc r' Hr') in E; congruence.
Qed.

Lemma insert_or_nothing_some clashes row t r t' :
  insert_or_nothing clashes row t = (Some r, t') ->
  r = row /\ t' = t ++ [row] /\ (forall x, In x t -> clashes x = false).
Proof.
  unfold insert_or_nothing. destruct (existsb clashes t) eqn:E; intros [= <- <-].
  by rewrite existsb_false in E.
Qed.

Lemma insert_or_nothing_none clashes row t t' :
  insert_or_nothing clashes row t = (None, t') ->
  t' = t /\ exists x, In x t /\ clashes x = true.
Proof.
  unfold insert_or_nothing. destruct (existsb clashes t) eqn:E; intros [= <-].
  by apply existsb_exists in E.
Qed.
End tables.

Arguments select {R} p t : simpl never.
Arguments update_where {R} p f t : simpl never.
Arguments delete_where {R} p t : simpl never.

#[export] Hint Resolve unique_on_nil unique_on_delete : mcc.

(** ** [order by]

    A stable insertion sort; [le x y] holds when [x] may stand before
    [y]. *)
Section sorting.
Context {A : Type} (le : A -> A -> bool).

Fixpoint insert_by (x : A) (l : list A) : list A :=
  match l with
  | [] => [x]
  | y :: rest => if le x y then x :: y :: rest else y :: insert_by x rest
  end.

Definition order_by (l : list A) : list A := foldr insert_by [] l.

Lemma insert_by_perm x l : Permutation (insert_by x l) (x :: l).
Proof.
  induction l as [|y l IH]; simpl; [done|]. destruct (le x y); [done|].
  rewrite IH. apply perm_swap.
Qed.

Lemma order_by_perm l : Permutation (order_by l) l.
Proof. induction l as [|x l IH]; simpl; [done|]. by rewrite insert_by_perm, IH. Qed.

Lemma in_order_by x l : In x (order_by l) <-> In x l.
Proof.
  split; apply Permutation_in; [|apply Permutation_sym]; apply order_by_perm.
Qed.

Lemma length_order_by l : length (order_by l) = length l.
Proof. apply Permutation_length, order_by_perm. Qed.

Hypothesis le_total : forall x y, le x y = false -> le y x = true.
Hypothesis le_trans : forall x y z, le x y = true -> le y z = true -> le x z = true.

Definition ordered (l : list A) : Prop := StronglySorted (fun x y => le x y = true) l.

Lemma insert_by_ordered x l : ordered l -> ordered (insert_by x l).
Proof.
  unfold ordered. induction l as [|y l IH]; intros Hl; simpl; [by repeat constructor|].
  apply StronglySorted_inv in Hl as [Hl Hy]. destruct (le x y) eqn:E.
  - constructor; [by constructor|]. constructor; [done|].
    eapply Forall_impl; [exact Hy|]. intros z Hz. eauto.
  - constructor; [by apply IH|]. rewrite (insert_by_perm x l). constructor; auto.
Qed.

Lemma order_by_ordered l : ordered (order_by l).
Proof. induction l as [|x l IH]; simpl; [constructor|]. by apply insert_by_ordered. Qed.

(** Sorting leaves an already sorted list as it is. *)
Lemma order_by_id l : ordered l -> order_by l = l.
Proof.
  unfold ordered. induction l as [|x l IH]; intros Hl; simpl; [done|].
  apply StronglySorted_inv in Hl as [Hl Hx]. rewrite (IH Hl).
  destruct l as [|y l]; simpl; [done|]. inversion Hx as [|? ? Hxy]; subst. by rewrite Hxy.
Qed.
End sorting.
