(* ===== verification/Dates.v ===== *)
(** Instants and their ISO form.

    A [Date] of the sources is the number of milliseconds it holds, a [Z].
    [toISOString] and the reading of its own output by [new Date(text)] are
    the two parts of the language's [Date] the sources rely on: claim keys,
    event source keys and page markers hold ISO strings, so what identifies
    a run or a page is an injective image of the instant.  The civil
    calendar is the proleptic Gregorian one of the language definition.

    [StatusCursor] is packages/contracts/src/boundary/status-cursor.ts. *)

From S2P Require Import Prelude.

Definition MS_PER_MINUTE : Z := 60000.
Definition MS_PER_DAY : Z := 86400000.

(** ** The civil calendar *)

Record Civil := MkCivil { cyear : Z; cmonth : Z; cday : Z }.

(** Years count from March, so that the leap day is the last of its year:
    the day [doe] of a 400-year era gives the year of the era, the month
    counted from March and the day of the month. *)
Definition month_day (doy : Z) : Z * Z :=
  let mp := (5 * doy + 2) / 153 in
  (mp, doy - (153 * mp + 2) / 5 + 1).

Definition year_of_era (doe : Z) : Z :=
  (doe - doe / 1460 + doe / 36524 - doe / 146096) / 365.

Definition era_parts (doe : Z) : Z * Z * Z :=
  let yoe := year_of_era doe in
  let '(mp, d) := month_day (doe - (365 * yoe + yoe / 4 - yoe / 100)) in
  (yoe, mp, d).

Definition day_of_era (yoe mp d : Z) : Z :=
  (365 * yoe + yoe / 4 - yoe / 100) + ((153 * mp + 2) / 5 + d - 1).

(** Days since 1970-01-01 to a civil date, and back. *)
Definition civil_of_days (days : Z) : Civil :=
  let z := days + 719468 in
  let '(yoe, mp, d) := era_parts (z mod 146097) in
  let m := if mp <? 10 then mp + 3 else mp - 9 in
  MkCivil (yoe + z / 146097 * 400 + (if m <=? 2 then 1 else 0)) m d.

Definition days_of_civil (c : Civil) : Z :=
  let y := cyear c - (if cmonth c <=? 2 then 1 else 0) in
  let mp := if cmonth c <=? 2 then cmonth c + 9 else cmonth c - 3 in
  y / 400 * 146097 + day_of_era (y mod 400) mp (cday c) - 719468.

(** ** ISO strings *)

Definition padded (width : nat) (n : Z) : string := padStart width "0"%char (decimal n).

Definition iso_year (y : Z) : string :=
  if (0 <=? y) && (y <=? 9999) then padded 4 y
  else (if y <? 0 then "-" else "+") +:+ padded 6 (Z.abs y).

(** [date.toISOString()] *)
Definition toISOString (at_ : Z) : string :=
  let c := civil_of_days (at_ / MS_PER_DAY) in
  let ms := at_ mod MS_PER_DAY in
  iso_year (cyear c) +:+ "-" +:+ padded 2 (cmonth c) +:+ "-" +:+ padded 2 (cday c) +:+ "T"
    +:+ padded 2 (ms / 3600000) +:+ ":" +:+ padded 2 (ms / 60000 mod 60)
    +:+ ":" +:+ padded 2 (ms / 1000 mod 60) +:+ "." +:+ padded 3 (ms mod 1000) +:+ "Z".

Fixpoint take_str (n : nat) (s : string) : string :=
  match n, s with
  | S n', String c rest => String c (take_str n' rest)
  | _, _ => EmptyString
  end.

(** Read a number of [width] digits, or one given character. *)
Definition read_number (width : nat) (s : string) : option (Z * string) :=
  match digits_from 0 (take_str width s) with
  | Some n => Some (n, slice_from width s)
  | None => None
  end.

Definition skip_char (c : Ascii.ascii) (s : string) : option string :=
  match s with
  | String c' rest => if c ≡? c' then Some rest else None
  | EmptyString => None
  end.

(** The instant of the four-digit-year ISO form. *)
Definition iso_fields (s : string) : option Z :=
  let? (y, s) := read_number 4 s in let? s := skip_char "-" s in
  let? (mo, s) := read_number 2 s in let? s := skip_char "-" s in
  let? (d, s) := read_number 2 s in let? s := skip_char "T" s in
  let? (h, s) := read_number 2 s in let? s := skip_char ":" s in
  let? (mi, s) := read_number 2 s in let? s := skip_char ":" s in
  let? (sec, s) := read_number 2 s in let? s := skip_char "." s in
  let? (ms, s) := read_number 3 s in let? _ := skip_char "Z" s in
  Some (days_of_civil (MkCivil y mo d) * MS_PER_DAY
          + h * 3600000 + mi * 60000 + sec * 1000 + ms).

(** [new Date(text)] with the invalid date as [None].  The language fixes
    the reading of the strings [toISOString] prints; what it does with
    other text is left to the implementation, the parameter [other]. *)
Definition date_of (other : string -> option Z) (s : string) : option Z :=
  match iso_fields s with
  | Some t => if toISOString t ≡? s then Some t else other s
  | None => other s
  end.

(** ** Bounded checks by computation *)

Fixpoint all_below (n : nat) (p : Z -> bool) : bool :=
  match n with
  | O => true
  | S n' => p (Z.of_nat n') && all_below n' p
  end.

Lemma all_below_spec n p : all_below n p = true -> forall z, 0 <= z < Z.of_nat n -> p z = true.
Proof.
  induction n as [|n IH]; intros H z Hz; [lia|]. simpl in H. tests.
  destruct (Z.eq_dec z (Z.of_nat n)) as [->|]; [done|]. apply IH; [done|lia].
Qed.

(** The same on [a * b] numbers, without a unary [a * b]. *)
Lemma all_below_grid a b p :
  all_below a (fun i => all_below b (fun j => p (i * Z.of_nat b + j))) = true ->
  forall z, 0 <= z < Z.of_nat a * Z.of_nat b -> p z = true.
Proof.
  intros H z Hz. assert (Hb : 0 < Z.of_nat b) by nia.
  assert (Hq : 0 <= z / Z.of_nat b < Z.of_nat a).
  { split; [apply Z.div_pos; lia | apply Z.div_lt_upper_bound; lia]. }
  pose proof (all_below_spec _ _ H _ Hq) as H1. cbv beta in H1.
  pose proof (all_below_spec _ _ H1 (z mod Z.of_nat b) ltac:(apply Z.mod_pos_bound; lia)) as H2.
  cbv beta in H2. rewrite <- H2. f_equal. rewrite (Z.div_mod z (Z.of_nat b)) at 1 by lia. lia.
Qed.

Definition month_check (doy : Z) : bool :=
  let '(mp, d) := month_day doy in
  (0 <=? mp) && (mp <? 12) && (1 <=? d) && (d <=? 31) && ((153 * mp + 2) / 5 + d - 1 =? doy).

Lemma month_day_ok doy mp d :
  0 <= doy <= 365 -> month_day doy = (mp, d) ->
  0 <= mp < 12 /\ 1 <= d <= 31 /\ (153 * mp + 2) / 5 + d - 1 = doy.
Proof.
  intros H Heq.
  assert (Hc : month_check doy = true).
  { apply (all_below_spec 366); [vm_compute; reflexivity|lia]. }
  unfold month_check in Hc. rewrite Heq in Hc. tests. lia.
Qed.

Lemma year_of_era_ok doe :
  0 <= doe < 146097 ->
  let yoe := year_of_era doe in
  0 <= yoe < 400 /\ 0 <= doe - (365 * yoe + yoe / 4 - yoe / 100) <= 365.
Proof.
  intros H yoe. assert (Hy : yoe = year_of_era doe) by done. unfold year_of_era in Hy.
  clearbody yoe. repeat split; lia.
Qed.

Lemma era_parts_ok doe yoe mp d :
  0 <= doe < 146097 -> era_parts doe = (yoe, mp, d) ->
  0 <= yoe < 400 /\ 0 <= mp < 12 /\ 1 <= d <= 31 /\ day_of_era yoe mp d = doe.
Proof.
  intros H Heq. unfold era_parts in Heq. pose proof (year_of_era_ok doe H) as [Hy Hdoy].
  destruct (month_day _) as [mp' d'] eqn:E. injection Heq as <- <- <-.
  apply month_day_ok in E as (Hm & Hd & Hday); [|exact Hdoy].
  unfold day_of_era. lia.
Qed.

(** The month counted from March and the month of the year. *)
Lemma month_cases mp :
  0 <= mp < 12 ->
  let m := if mp <? 10 then mp + 3 else mp - 9 in
  1 <= m <= 12 /\ (if m <=? 2 then m + 9 else m - 3) = mp.
Proof.
  intros H m. unfold m. destruct (Z.ltb_spec mp 10).
  - destruct (Z.leb_spec (mp + 3) 2); lia.
  - destruct (Z.leb_spec (mp - 9) 2); lia.
Qed.

Lemma days_of_civil_of_days days : days_of_civil (civil_of_days days) = days.
Proof.
  unfold civil_of_days, days_of_civil.
  destruct (era_parts ((days + 719468) mod 146097)) as [[yoe mp] d] eqn:E.
  apply era_parts_ok in E as (Hy & Hm & Hd & Hday); [|apply Z.mod_pos_bound; lia].
  pose proof (month_cases mp Hm) as [_ Hmp]. cbv zeta in Hmp.
  cbn [cyear cmonth cday]. rewrite Hmp.
  replace (yoe + (days + 719468) / 146097 * 400 + _ - _)
    with (yoe + (days + 719468) / 146097 * 400) by lia.
  rewrite Z.div_add, Z.mod_add, (Z.div_small yoe), (Z.mod_small yoe), Hday by lia.
  pose proof (Z.div_mod (days + 719468) 146097). lia.
Qed.

Lemma civil_bounds days :
  1 <= cmonth (civil_of_days days) <= 12 /\ 1 <= cday (civil_of_days days) <= 31.
Proof.
  unfold civil_of_days. destruct (era_parts _) as [[yoe mp] d] eqn:E.
  apply era_parts_ok in E as (Hy & Hm & Hd & Hday); [|apply Z.mod_pos_bound; lia].
  exact (conj (proj1 (month_cases mp Hm)) Hd).
Qed.

(** ** Round trip of the ISO form *)

Definition pad_check (w : nat) (n : Z) : bool :=
  (String.length (padded w n) =? w)%nat && (digits_from 0 (padded w n) ≡? Some n).

Lemma pad_ok w n :
  (w = 2 \/ w = 3 \/ w = 4)%nat -> 0 <= n < 10 ^ Z.of_nat w -> pad_check w n = true.
Proof.
  intros [ -> | [ -> | -> ] ] Hn.
  - apply (all_below_grid 10 10); [vm_compute; reflexivity|done].
  - apply (all_below_grid 100 10); [vm_compute; reflexivity|done].
  - apply (all_below_grid 100 100); [vm_compute; reflexivity|done].
Qed.

Lemma take_str_app a b : take_str (String.length a) (a +:+ b) = a.
Proof. induction a as [|c a IH]; [by destruct b|]. rewrite string_app_cons. simpl. by rewrite IH. Qed.

(** A printed field is read back, and so is a separator. *)
Lemma read_padded w n rest :
  (w = 2 \/ w = 3 \/ w = 4)%nat -> 0 <= n < 10 ^ Z.of_nat w ->
  read_number w (padded w n +:+ rest) = Some (n, rest).
Proof.
  intros Hw Hn. pose proof (pad_ok w n Hw Hn) as H. unfold pad_check in H. tests.
  apply Nat.eqb_eq in H. unfold read_number.
  assert (Ht : take_str w (padded w n +:+ rest) = padded w n).
  { rewrite <- H at 1. apply take_str_app. }
  assert (Hs : slice_from w (padded w n +:+ rest) = rest).
  { rewrite <- H at 1. rewrite <- (Nat.add_0_r (String.length _)), slice_from_app. done. }
  by rewrite Ht, Hs, H0.
Qed.

Lemma skip_char_app c rest : skip_char c (String c "" +:+ rest) = Some rest.
Proof. unfold skip_char. rewrite string_app_cons, bool_decide_eq_true_2; done. Qed.

(** The instants whose year has four digits: 0000-01-01 to 9999-12-31. *)
Definition four_digit_year (at_ : Z) : Prop :=
  0 <= cyear (civil_of_days (at_ / MS_PER_DAY)) <= 9999.

Lemma iso_fields_toISOString at_ :
  four_digit_year at_ -> iso_fields (toISOString at_) = Some at_.
Proof.
  unfold four_digit_year, toISOString, iso_fields, iso_year. intros Hy.
  pose proof (civil_bounds (at_ / MS_PER_DAY)) as [Hm Hd].
  pose proof (days_of_civil_of_days (at_ / MS_PER_DAY)) as Hround.
  destruct (civil_of_days (at_ / MS_PER_DAY)) as [y m d]. simpl in *.
  assert (Hms : 0 <= at_ mod MS_PER_DAY < 86400000) by (unfold MS_PER_DAY; lia).
  replace ((0 <=? y) && (y <=? 9999)) with true by (symmetry; apply andb_true_iff; lia).
  assert (H2 : 10 ^ Z.of_nat 2 = 100) by done. assert (H3 : 10 ^ Z.of_nat 3 = 1000) by done.
  assert (H4 : 10 ^ Z.of_nat 4 = 10000) by done.
  repeat (rewrite read_padded by (rewrite ?H2, ?H3, ?H4; lia); rewrite skip_char_app).
  rewrite read_padded by (rewrite ?H3; lia). change ("Z"%string) with ("Z" +:+ ""%string).
  rewrite skip_char_app, Hround. f_equal. unfold MS_PER_DAY in *. lia.
Qed.

(** [new Date(date.toISOString())] is [date]. *)
Lemma date_of_toISOString other at_ :
  four_digit_year at_ -> date_of other (toISOString at_) = Some at_.
Proof.
  intros H. unfold date_of. rewrite (iso_fields_toISOString at_ H).
  by rewrite bool_decide_eq_true_2.
Qed.

Lemma toISOString_inj at_ at_' :
  four_digit_year at_ -> four_digit_year at_' -> toISOString at_ = toISOString at_' -> at_ = at_'.
Proof.
  intros H H' Heq. apply iso_fields_toISOString in H, H'. congruence.
Qed.

Example iso_example : toISOString 1788166800123 = "2026-08-31T09:00:00.123Z".
Proof. vm_compute. reflexivity. Qed.

(** ** Page markers of the status history *)

Module StatusCursor.
Record StatusEventCursor := MkCursor { occurredAt : Z; cursorId : string }.

Definition SEPARATOR : Ascii.ascii := "|".

Definition encodeStatusEventCursor (cursor : StatusEventCursor) : string :=
  toISOString (occurredAt cursor) +:+ String SEPARATOR "" +:+ cursorId cursor.

(** [raw.indexOf(c)] with the two slices around it. *)
Fixpoint cut_at (c : Ascii.ascii) (raw : string) : option (string * string) :=
  match raw with
  | EmptyString => None
  | String x rest =>
      if x ≡? c then Some (EmptyString, rest)
      else let? (before, after) := cut_at c rest in Some (String x before, after)
  end.

Definition parseStatusEventCursor (other : string -> option Z) (raw : string)
    : option StatusEventCursor :=
  let? (stamp, id) := cut_at SEPARATOR raw in
  if (String.length id =? 0)%nat then None
  else
    let? at_ := date_of other stamp in
    if negb (toISOString at_ ≡? stamp) then None else Some (MkCursor at_ id).

Lemma cut_at_app c before after :
  free_of c before = true -> cut_at c (before +:+ String c "" +:+ after) = Some (before, after).
Proof.
  induction before as [|x before IH]; intros H.
  - rewrite !string_app_cons. simpl. by rewrite bool_decide_eq_true_2.
  - unfold free_of in H. simpl in H. tests. rewrite string_app_cons. simpl.
    rewrite bool_decide_eq_false_2 by done. by rewrite IH.
Qed.

Lemma cut_at_join c raw before after :
  cut_at c raw = Some (before, after) -> raw = before +:+ String c "" +:+ after.
Proof.
  revert before after. induction raw as [|x raw IH]; intros before after H; [done|].
  simpl in H. case_bool_decide; simplify_eq; [done|].
  destruct (cut_at c raw) as [[b a]|]; simplify_eq.
  rewrite string_app_cons. f_equal. by apply IH.
Qed.

Lemma toISOString_free at_ : free_of SEPARATOR (toISOString at_) = true.
Proof.
  assert (Hp : forall w n, free_of SEPARATOR (padded w n) = true).
  { intros w n. apply padStart_free; [done|]. by apply decimal_free. }
  assert (Hy : forall y, free_of SEPARATOR (iso_year y) = true).
  { intros y. unfold iso_year. destruct (_ && _); [apply Hp|].
    rewrite free_of_app, Hp. by destruct (y <? 0). }
  unfold toISOString. by rewrite !free_of_app, Hy, !Hp.
Qed.

Lemma parse_encode other cursor :
  four_digit_year (occurredAt cursor) -> cursorId cursor <> EmptyString ->
  parseStatusEventCursor other (encodeStatusEventCursor cursor) = Some cursor.
Proof.
  intros Hy Hid. unfold parseStatusEventCursor, encodeStatusEventCursor.
  rewrite cut_at_app by apply toISOString_free.
  destruct (Nat.eqb_spec (String.length (cursorId cursor)) 0) as [H0|_].
  { by destruct (cursorId cursor). }
  rewrite date_of_toISOString by done. rewrite bool_decide_eq_true_2 by done. simpl.
  by destruct cursor.
Qed.

Lemma encode_parse other raw cursor :
  parseStatusEventCursor other raw = Some cursor ->
  encodeStatusEventCursor cursor = raw /\ cursorId cursor <> EmptyString.
Proof.
  unfold parseStatusEventCursor, encodeStatusEventCursor. intros H.
  destruct (cut_at SEPARATOR raw) as [[stamp id]|] eqn:E; [|done].
  destruct (Nat.eqb_spec (String.length id) 0) as [|Hid]; [done|].
  destruct (date_of other stamp) as [t|]; [|done].
  destruct (negb _) eqn:Et; [done|]. tests. simplify_eq. simpl.
  split; [by apply cut_at_join in E | by intros ->].
Qed.
End StatusCursor.
