(* ===== verification/Calendar.v ===== *)
(** Days, times of day and sleep windows.

    packages/contracts/src/schedule.ts (what an operator may save) and
    packages/core/src/instance/schedule.ts (how days are stored and how a
    sleep window becomes two systemd timers), with [validateInstanceId] of
    packages/core/src/instance/unit.ts and [instanceCommandText] of
    packages/contracts/src/instance.ts, which they use. *)

From S2P Require Import Prelude Dates.

(** ** Days of the week *)

Inductive DayOfWeek := Mon | Tue | Wed | Thu | Fri | Sat | Sun.

#[global] Instance DayOfWeek_eq_dec : EqDecision DayOfWeek.
Proof. solve_decision. Defined.

Definition DAYS_OF_WEEK : list DayOfWeek := [Mon; Tue; Wed; Thu; Fri; Sat; Sun].

(** A member of the string enumeration, as the string it is. *)
Definition day_name (day : DayOfWeek) : string :=
  match day with
  | Mon => "Mon" | Tue => "Tue" | Wed => "Wed" | Thu => "Thu" | Fri => "Fri"
  | Sat => "Sat" | Sun => "Sun"
  end.

(** [isDayOfWeek], with the member it recognises. *)
Definition isDayOfWeek (value : string) : option DayOfWeek :=
  List.find (fun day => day_name day ≡? value) DAYS_OF_WEEK.

Definition includes_day (days : list DayOfWeek) (day : DayOfWeek) : bool :=
  existsb (fun d => d ≡? day) days.

(** [orderedDays]: in week order, each once. *)
Definition orderedDays (days : list DayOfWeek) : list DayOfWeek :=
  List.filter (includes_day days) DAYS_OF_WEEK.

Definition NO_DAY : thrown :=
  ThrownError InternalError "A sleep window must name at least one day".

(** The stored form: ["*"], or day names joined with commas. *)
Definition renderDaysOfWeek (days : list DayOfWeek) : result string :=
  let ordered := orderedDays days in
  if (length ordered =? 0)%nat then Throw NO_DAY
  else if (length ordered =? length DAYS_OF_WEEK)%nat then Ok "*"
  else Ok (join_with "," (map day_name ordered)).

Definition calendarWeekdayPrefix (days : list DayOfWeek) : result string :=
  let ordered := orderedDays days in
  if (length ordered =? 0)%nat then Throw NO_DAY
  else if (length ordered =? length DAYS_OF_WEEK)%nat then Ok ""
  else Ok (join_with "," (map day_name ordered) +:+ " ").

Definition parseDaysOfWeek (stored : string) : list DayOfWeek :=
  if stored ≡? "*" then DAYS_OF_WEEK
  else orderedDays (omap isDayOfWeek (split_on "," stored)).

(** ** Times of day *)

Record TimeOfDay := MkTime { hour : Z; minute : Z }.

Definition MINUTES_PER_DAY : Z := 24 * 60.

(** [timeOfDaySchema] *)
Definition timeOfDaySchema (time : TimeOfDay) : bool :=
  (0 <=? hour time) && (hour time <=? 23) && (0 <=? minute time) && (minute time <=? 59).

Definition minuteOfDay (time : TimeOfDay) : Z := hour time * 60 + minute time.

Definition timeOfDay (minutes : Z) : TimeOfDay := MkTime (minutes / 60) (minutes mod 60).

(** ** Time zone names *)

Definition in_range (lo hi : Ascii.ascii) (c : Ascii.ascii) : bool :=
  let n := Ascii.nat_of_ascii c in
  (Ascii.nat_of_ascii lo <=? n)%nat && (n <=? Ascii.nat_of_ascii hi)%nat.

Definition is_letter (c : Ascii.ascii) : bool := in_range "A" "Z" c || in_range "a" "z" c.
Definition is_digit (c : Ascii.ascii) : bool := in_range "0" "9" c.

Definition is_zone_char (c : Ascii.ascii) : bool :=
  is_letter c || is_digit c || (c ≡? "+"%char) || (c ≡? "_"%char) || (c ≡? "-"%char).

Definition zone_part (part : string) : bool :=
  negb (part ≡? "") && chars_all is_zone_char part.

(** [TIMEZONE_PATTERN]: a name that starts with a letter, and up to two
    more names, separated by slashes. *)
Definition TIMEZONE_PATTERN (value : string) : bool :=
  match split_on "/" value with
  | String c first :: more =>
      is_letter c && chars_all is_zone_char first
      && (length more <=? 2)%nat && forallb zone_part more
  | _ => false
  end.

Definition UNKNOWN_ZONE_MESSAGE (timezone : string) : string :=
  "Refusing to render a timer for an unrecognised timezone: " +:+ timezone.

Definition validateTimezone (timezone : string) : result string :=
  if negb (TIMEZONE_PATTERN timezone) || (64 <? String.length timezone)%nat
  then Throw (ThrownError InternalError (UNKNOWN_ZONE_MESSAGE timezone))
  else Ok timezone.

(** ** Instance ids *)

Definition is_id_char (c : Ascii.ascii) : bool :=
  is_letter c || is_digit c || (c ≡? "_"%char) || (c ≡? "-"%char).

Definition INSTANCE_ID_PATTERN (id : string) : bool :=
  (1 <=? String.length id)%nat && (String.length id <=? 64)%nat && chars_all is_id_char id.

Definition validateInstanceId (id : string) : result string :=
  if includes "%" id
  then Throw (ThrownError InternalError
    "Instance id must not contain '%', which systemd expands as a specifier")
  else if negb (INSTANCE_ID_PATTERN id)
  then Throw (ThrownError InternalError
    "Instance id must be 1-64 characters of letters, digits, '-' and '_'")
  else Ok id.

(** ** Sleep windows as systemd timers *)

Definition SLEEP_STOP_UNIT : string := "open-mcc-sleep-stop".
Definition SLEEP_START_UNIT : string := "open-mcc-sleep-start".

Definition sleepStopTimer (instanceId : string) : result string :=
  let+ id := validateInstanceId instanceId in Ok (SLEEP_STOP_UNIT +:+ "@" +:+ id +:+ ".timer").

Definition sleepStartTimer (instanceId : string) : result string :=
  let+ id := validateInstanceId instanceId in Ok (SLEEP_START_UNIT +:+ "@" +:+ id +:+ ".timer").

Definition pad2 (value : Z) : string := padStart 2 "0" (decimal value).

Definition renderOnCalendar (days : list DayOfWeek) (minutes : Z) (timezone : string)
    : result string :=
  let h := minutes / 60 in
  let m := minutes mod 60 in
  let+ prefix := calendarWeekdayPrefix days in
  let+ zone := validateTimezone timezone in
  Ok (prefix +:+ "*-*-* " +:+ pad2 h +:+ ":" +:+ pad2 m +:+ ":00 " +:+ zone).

Definition NEWLINE : Ascii.ascii := "010".
Definition newline : string := String NEWLINE "".

Definition timerUnit (description onCalendar instanceId : string) : string :=
  "[Unit]" +:+ newline
  +:+ "Description=" +:+ description +:+ " for open-mcc instance " +:+ instanceId +:+ newline
  +:+ newline
  +:+ "[Timer]" +:+ newline
  +:+ "OnCalendar=" +:+ onCalendar +:+ newline
  +:+ "Persistent=false" +:+ newline
  +:+ "AccuracySec=30s" +:+ newline
  +:+ newline
  +:+ "[Install]" +:+ newline
  +:+ "WantedBy=timers.target" +:+ newline.

Record RenderableSleepWindow := MkSleepWindow {
  sw_instanceId : string;
  sw_daysOfWeek : list DayOfWeek;
  sw_stopAt : TimeOfDay;
  sw_startAt : TimeOfDay;
  sw_timezone : string }.

(** The record of file names and contents, in insertion order. *)
Definition renderSleepTimers (window : RenderableSleepWindow) : result (list (string * string)) :=
  let+ instanceId := validateInstanceId (sw_instanceId window) in
  let+ stop := renderOnCalendar (sw_daysOfWeek window) (minuteOfDay (sw_stopAt window))
                 (sw_timezone window) in
  let+ start := renderOnCalendar (sw_daysOfWeek window) (minuteOfDay (sw_startAt window))
                  (sw_timezone window) in
  Ok [(SLEEP_STOP_UNIT +:+ "@" +:+ instanceId +:+ ".timer",
         timerUnit "Sleep window stop" stop instanceId);
      (SLEEP_START_UNIT +:+ "@" +:+ instanceId +:+ ".timer",
         timerUnit "Sleep window start" start instanceId)].

(** ** What an operator may save *)

Section input.
(** [Intl.DateTimeFormat(...).resolvedOptions().timeZone], which throws on
    a name it does not know. *)
Variable resolveTimeZone : string -> option string.

Definition isKnownTimezone (value : string) : bool :=
  match resolveTimeZone value with
  | Some resolved => (resolved ≡? value) || negb (toLowerCase resolved ≡? toLowerCase value)
  | None => false
  end.

Definition timezoneSchema (value : string) : bool :=
  (1 <=? String.length value)%nat && (String.length value <=? 64)%nat
  && TIMEZONE_PATTERN value && isKnownTimezone value.

Definition daysSchema (days : list DayOfWeek) : bool :=
  (1 <=? length days)%nat && (length days <=? 7)%nat.

(** [sleepWindowInput] *)
Definition sleepWindowInput (window : RenderableSleepWindow) : bool :=
  (1 <=? String.length (sw_instanceId window))%nat && daysSchema (sw_daysOfWeek window)
  && timeOfDaySchema (sw_stopAt window) && timeOfDaySchema (sw_startAt window)
  && timezoneSchema (sw_timezone window)
  && negb (minuteOfDay (sw_stopAt window) =? minuteOfDay (sw_startAt window)).

Definition LINE_BREAK (value : string) : bool :=
  negb (chars_all (fun c => negb (c ≡? NEWLINE) && negb (c ≡? "013"%char)) value).

Definition withoutInvisibleCharacters (value : string) : bool :=
  chars_all (fun c => (32 <=? Ascii.nat_of_ascii c)%nat
                      && negb (Ascii.nat_of_ascii c =? 127)%nat) value.

Definition INSTANCE_COMMAND_MAX_BYTES : nat := 256.

(** [instanceCommandText] *)
Definition instanceCommandText (value : string) : bool :=
  (1 <=? String.length value)%nat && (String.length value <=? INSTANCE_COMMAND_MAX_BYTES)%nat
  && negb (LINE_BREAK value) && withoutInvisibleCharacters value.

Record ScheduledCommandInput := MkCommandInput {
  ci_instanceId : string; ci_name : string; ci_command : string;
  ci_daysOfWeek : list DayOfWeek; ci_runAt : TimeOfDay; ci_timezone : string;
  ci_enabled : bool }.

Definition nameSchema (name : string) : bool :=
  (1 <=? String.length name)%nat && (String.length name <=? 64)%nat.

(** [scheduledCommandInput] *)
Definition scheduledCommandInput (input : ScheduledCommandInput) : bool :=
  (1 <=? String.length (ci_instanceId input))%nat && nameSchema (ci_name input)
  && instanceCommandText (ci_command input) && daysSchema (ci_daysOfWeek input)
  && timeOfDaySchema (ci_runAt input) && timezoneSchema (ci_timezone input).

Definition TASK_STEPS_MAX : nat := 10.
Definition TASK_TIMES_MAX : nat := 12.
Definition TASK_STEP_DELAY_DEFAULT_SECONDS : Z := 3.
Definition TASK_STEP_DELAY_MAX_SECONDS : Z := 60.
Definition TASK_INTERVAL_MIN_SECONDS : Z := 5.
Definition TASK_INTERVAL_MAX_SECONDS : Z := 30 * 24 * 60 * 60.

Record TaskTime := MkTaskTime { tt_daysOfWeek : list DayOfWeek; tt_runAt : TimeOfDay }.

Definition taskTimeSchema (time : TaskTime) : bool :=
  daysSchema (tt_daysOfWeek time) && timeOfDaySchema (tt_runAt time).

Record TaskInterval := MkTaskInterval { minSeconds : Z; maxSeconds : Z }.

Definition seconds_in_bounds (n : Z) : bool :=
  (TASK_INTERVAL_MIN_SECONDS <=? n) && (n <=? TASK_INTERVAL_MAX_SECONDS).

Definition taskIntervalSchema (interval : TaskInterval) : bool :=
  seconds_in_bounds (minSeconds interval) && seconds_in_bounds (maxSeconds interval)
  && (minSeconds interval <=? maxSeconds interval).

Record InstanceTaskInput := MkTaskInput {
  ti_id : option string; ti_instanceId : string; ti_name : string;
  ti_steps : list string; ti_stepDelaySeconds : Z; ti_enabled : bool; ti_timezone : string;
  ti_onFirstLogin : bool; ti_onLogin : bool; ti_onRespawn : bool;
  ti_times : list TaskTime; ti_interval : option TaskInterval }.

(** [instanceTaskInput] *)
Definition instanceTaskInput (input : InstanceTaskInput) : bool :=
  match ti_id input with Some id => (1 <=? String.length id)%nat | None => true end
  && (1 <=? String.length (ti_instanceId input))%nat && nameSchema (ti_name input)
  && (1 <=? length (ti_steps input))%nat && (length (ti_steps input) <=? TASK_STEPS_MAX)%nat
  && forallb instanceCommandText (ti_steps input)
  && (0 <=? ti_stepDelaySeconds input)
  && (ti_stepDelaySeconds input <=? TASK_STEP_DELAY_MAX_SECONDS)
  && timezoneSchema (ti_timezone input)
  && (length (ti_times input) <=? TASK_TIMES_MAX)%nat
  && forallb taskTimeSchema (ti_times input)
  && match ti_interval input with Some i => taskIntervalSchema i | None => true end
  && (ti_onFirstLogin input || ti_onLogin input || ti_onRespawn input
      || (0 <? length (ti_times input))%nat || bool_decide (is_Some (ti_interval input))).
End input.

(** ** Days: the stored form *)

Section days_lemmas.
Lemma isDayOfWeek_name day : isDayOfWeek (day_name day) = Some day.
Proof. by destruct day. Qed.

Lemma includes_day_spec days day : includes_day days day = true <-> In day days.
Proof.
  unfold includes_day. rewrite existsb_exists. split.
  - intros (d & Hd & H). tests. by subst.
  - intros H. exists day. split; [done|]. by apply bool_decide_eq_true_2.
Qed.

Lemma in_DAYS_OF_WEEK day : In day DAYS_OF_WEEK.
Proof. destruct day; simpl; tauto. Qed.

Lemma in_orderedDays days day : In day (orderedDays days) <-> In day days.
Proof.
  unfold orderedDays. rewrite filter_In, includes_day_spec.
  pose proof (in_DAYS_OF_WEEK day). tauto.
Qed.

(** [orderedDays] depends only on which days there are. *)
Lemma orderedDays_ext days days' :
  (forall day, In day days <-> In day days') -> orderedDays days = orderedDays days'.
Proof.
  intros H. unfold orderedDays. apply List.filter_ext. intros day.
  apply eq_true_iff_eq. by rewrite !includes_day_spec.
Qed.

Lemma orderedDays_idem days : orderedDays (orderedDays days) = orderedDays days.
Proof. apply orderedDays_ext. apply in_orderedDays. Qed.

Lemma orderedDays_empty days : orderedDays days = [] <-> days = [].
Proof.
  split; [|by intros ->]. destruct days as [|day days]; [done|]. intros H.
  assert (Hin : In day (orderedDays (day :: days))) by (apply in_orderedDays; by left).
  by rewrite H in Hin.
Qed.

Lemma orderedDays_all days :
  length (orderedDays days) = length DAYS_OF_WEEK -> orderedDays days = DAYS_OF_WEEK.
Proof.
  unfold orderedDays. intros H. apply filter_all. intros day Hday.
  destruct (includes_day days day) eqn:E; [done|].
  assert (Hlt : (length (List.filter (includes_day days) DAYS_OF_WEEK) < length DAYS_OF_WEEK)%nat).
  { clear H. revert Hday. generalize DAYS_OF_WEEK as l. induction l as [|x l IH]; [done|].
    intros [->|Hin]; simpl.
    - rewrite E. pose proof (List.filter_length_le (includes_day days) l). lia.
    - specialize (IH Hin). destruct (includes_day days x); simpl; lia. }
  lia.
Qed.

Lemma omap_day_names days : omap isDayOfWeek (map day_name days) = days.
Proof. induction days as [|d days IH]; csimpl; [done|]. by rewrite isDayOfWeek_name, IH. Qed.

Lemma split_day_names days :
  days <> [] -> split_on "," (join_with "," (map day_name days)) = map day_name days.
Proof.
  intros H. apply split_join; [by destruct days|].
  apply Forall_map, Forall_forall. intros d _. by destruct d.
Qed.

Lemma day_names_not_star days : join_with "," (map day_name days) <> "*".
Proof. destruct days as [|d [|d' days]]; [done| |]; destruct d; done. Qed.

Lemma parse_render days stored :
  renderDaysOfWeek days = Ok stored -> parseDaysOfWeek stored = orderedDays days.
Proof.
  unfold renderDaysOfWeek, parseDaysOfWeek.
  destruct (Nat.eqb_spec (length (orderedDays days)) 0) as [|Hne]; [done|].
  destruct (Nat.eqb_spec (length (orderedDays days)) (length DAYS_OF_WEEK)) as [Hall|_];
    intros [= <-].
  - rewrite bool_decide_eq_true_2 by done. symmetry. by apply orderedDays_all.
  - rewrite bool_decide_eq_false_2 by apply day_names_not_star.
    rewrite split_day_names by (intros H; by rewrite H in Hne).
    rewrite omap_day_names. apply orderedDays_idem.
Qed.

Lemma render_ordered days : renderDaysOfWeek (orderedDays days) = renderDaysOfWeek days.
Proof. unfold renderDaysOfWeek. by rewrite orderedDays_idem. Qed.

Lemma render_total days : days <> [] -> exists stored, renderDaysOfWeek days = Ok stored.
Proof.
  intros H. unfold renderDaysOfWeek.
  destruct (Nat.eqb_spec (length (orderedDays days)) 0) as [H0|_].
  { by apply nil_length_inv, (proj1 (orderedDays_empty days)) in H0. }
  destruct (_ =? _)%nat; eauto.
Qed.

Lemma prefix_total days : days <> [] -> exists prefix, calendarWeekdayPrefix days = Ok prefix.
Proof.
  intros H. unfold calendarWeekdayPrefix.
  destruct (Nat.eqb_spec (length (orderedDays days)) 0) as [H0|_].
  { by apply nil_length_inv, (proj1 (orderedDays_empty days)) in H0. }
  destruct (_ =? _)%nat; eauto.
Qed.
End days_lemmas.

(** ** Times of day *)

Lemma minuteOfDay_bounds time :
  timeOfDaySchema time = true -> 0 <= minuteOfDay time < MINUTES_PER_DAY.
Proof. unfold timeOfDaySchema, minuteOfDay, MINUTES_PER_DAY. intros H. tests. lia. Qed.

Lemma timeOfDay_minuteOfDay time :
  timeOfDaySchema time = true -> timeOfDay (minuteOfDay time) = time.
Proof.
  destruct time as [h m]. unfold timeOfDaySchema, timeOfDay, minuteOfDay. simpl. intros H. tests.
  f_equal; lia.
Qed.

Lemma minuteOfDay_timeOfDay minutes :
  0 <= minutes < MINUTES_PER_DAY ->
  minuteOfDay (timeOfDay minutes) = minutes /\ timeOfDaySchema (timeOfDay minutes) = true.
Proof.
  unfold MINUTES_PER_DAY, timeOfDay, minuteOfDay, timeOfDaySchema. simpl. intros H. split; [lia|].
  rewrite !andb_true_iff, !Z.leb_le. lia.
Qed.

(** ** Sleep timers *)

Section timers.
(** The lines of a rendered timer. *)
Definition timer_lines (description onCalendar instanceId : string) : list string :=
  ["[Unit]"; "Description=" +:+ description +:+ " for open-mcc instance " +:+ instanceId; "";
   "[Timer]"; "OnCalendar=" +:+ onCalendar; "Persistent=false"; "AccuracySec=30s"; "";
   "[Install]"; "WantedBy=timers.target"; ""].

Lemma timerUnit_join description onCalendar instanceId :
  timerUnit description onCalendar instanceId
  = join_with newline (timer_lines description onCalendar instanceId).
Proof. unfold timerUnit, timer_lines. simpl. by rewrite ?string_app_assoc. Qed.

Lemma timerUnit_lines description onCalendar instanceId :
  free_of NEWLINE description = true -> free_of NEWLINE onCalendar = true ->
  free_of NEWLINE instanceId = true ->
  split_on NEWLINE (timerUnit description onCalendar instanceId)
  = timer_lines description onCalendar instanceId.
Proof.
  intros Hd Hc Hi. rewrite timerUnit_join. apply split_join; [done|].
  repeat constructor; rewrite ?free_of_app, ?Hd, ?Hc, ?Hi; done.
Qed.

Lemma letters_free c :
  is_letter c || is_digit c || (c ≡? "+"%char) || (c ≡? "_"%char) || (c ≡? "-"%char) = true ->
  negb (c ≡? NEWLINE) = true.
Proof. intros H. apply negb_true_iff, bool_decide_eq_false. by intros ->. Qed.

Lemma id_free id : INSTANCE_ID_PATTERN id = true -> free_of NEWLINE id = true.
Proof.
  unfold INSTANCE_ID_PATTERN. intros H. tests. eapply chars_all_impl; [|eassumption].
  intros c Hc. apply letters_free. unfold is_id_char in Hc.
  rewrite !orb_true_iff in *. tauto.
Qed.

Lemma id_no_percent id : INSTANCE_ID_PATTERN id = true -> includes "%" id = false.
Proof.
  unfold INSTANCE_ID_PATTERN. intros H. tests.
  rewrite includes_char. apply negb_false_iff. eapply chars_all_impl; [|eassumption].
  intros c Hc. apply negb_true_iff, bool_decide_eq_false. by intros ->.
Qed.

Lemma join_free c separator parts :
  free_of c separator = true -> Forall (fun part => free_of c part = true) parts ->
  free_of c (join_with separator parts) = true.
Proof.
  intros Hs Hp. induction Hp as [|part parts Hpart Hparts IH]; [done|].
  destruct parts as [|next parts]; [done|].
  change (free_of c (part +:+ separator +:+ join_with separator (next :: parts)) = true).
  by rewrite !free_of_app, Hpart, Hs, IH.
Qed.

Lemma join_split c s : join_with (String c "") (split_on c s) = s.
Proof.
  induction s as [|x s IH]; [done|]. simpl. case_bool_decide as Hx.
  - subst. destruct (split_on c s) as [|p ps] eqn:E.
    + exfalso. destruct s; simpl in E; [done|].
      case_bool_decide; [done|]. by destruct (split_on c s).
    + change (join_with (String c "") ("" :: p :: ps))
        with (String c (join_with (String c "") (p :: ps))). by rewrite IH.
  - destruct (split_on c s) as [|p ps] eqn:E; [simpl in IH; by subst|].
    destruct ps as [|q ps]; simpl in *; [by subst|]. by rewrite <- IH.
Qed.

Lemma zone_free zone : TIMEZONE_PATTERN zone = true -> free_of NEWLINE zone = true.
Proof.
  unfold TIMEZONE_PATTERN. intros H. rewrite <- (join_split "/" zone).
  destruct (split_on "/" zone) as [|[|c first] more]; [done|done|].
  destruct (is_letter c) eqn:Ec; [|done]. simpl in H. tests.
  assert (Hpart : forall s, chars_all is_zone_char s = true -> free_of NEWLINE s = true).
  { intros s. apply chars_all_impl, letters_free. }
  apply join_free; [done|]. constructor.
  - unfold free_of. simpl. rewrite (letters_free c) by (by rewrite Ec). by apply Hpart.
  - apply Forall_forall. intros part Hin.
    rewrite forallb_forall in H0. apply list_elem_of_In, H0 in Hin. unfold zone_part in Hin. tests.
    by apply Hpart.
Qed.

Lemma prefix_free days prefix :
  calendarWeekdayPrefix days = Ok prefix -> free_of NEWLINE prefix = true.
Proof.
  unfold calendarWeekdayPrefix. destruct (_ =? _)%nat; [done|].
  destruct (_ =? _)%nat; intros [= <-]; [done|]. rewrite free_of_app, andb_true_r.
  apply join_free; [done|]. apply Forall_map, Forall_forall. intros d _. by destruct d.
Qed.

(** What a successful [renderOnCalendar] prints. *)
Lemma renderOnCalendar_ok days minutes zone :
  days <> [] -> TIMEZONE_PATTERN zone = true -> (String.length zone <= 64)%nat ->
  exists prefix, calendarWeekdayPrefix days = Ok prefix /\
    let text := prefix +:+ "*-*-* " +:+ pad2 (minutes / 60) +:+ ":" +:+ pad2 (minutes mod 60)
                +:+ ":00 " +:+ zone in
    renderOnCalendar days minutes zone = Ok text /\ free_of NEWLINE text = true.
Proof.
  intros Hd Hz Hlen. destruct (prefix_total days Hd) as [prefix Hp].
  exists prefix. split; [done|]. unfold renderOnCalendar, validateTimezone. rewrite Hp, Hz. simpl.
  replace (64 <? String.length zone)%nat with false
    by (symmetry; apply Nat.ltb_ge; lia). split; [done|].
  assert (Hpad : forall n, free_of NEWLINE (pad2 n) = true).
  { intros n. apply padStart_free; [done|]. by apply decimal_free. }
  by rewrite !free_of_app, (prefix_free _ _ Hp), !Hpad, (zone_free _ Hz).
Qed.

(** The printed time tells two minutes of the day apart. *)
Lemma calendar_text_inj prefix zone m m' :
  0 <= m < MINUTES_PER_DAY -> 0 <= m' < MINUTES_PER_DAY ->
  prefix +:+ "*-*-* " +:+ pad2 (m / 60) +:+ ":" +:+ pad2 (m mod 60) +:+ ":00 " +:+ zone
  = prefix +:+ "*-*-* " +:+ pad2 (m' / 60) +:+ ":" +:+ pad2 (m' mod 60) +:+ ":00 " +:+ zone ->
  m = m'.
Proof.
  unfold MINUTES_PER_DAY. intros Hm Hm' H.
  apply (inj (String.append prefix)), (inj (String.append "*-*-* ")) in H.
  assert (H2 : 10 ^ Z.of_nat 2 = 100) by done.
  pose proof (f_equal (read_number 2) H) as Hh. change pad2 with (padded 2) in Hh.
  rewrite !(read_padded 2) in Hh by (rewrite ?H2; lia). injection Hh as Hh Hrest.
  apply (inj (String.append "")) in Hrest.
  pose proof (f_equal (read_number 2) Hrest) as Hmin. change pad2 with (padded 2) in Hmin.
  rewrite !(read_padded 2) in Hmin by (rewrite ?H2; lia). injection Hmin as Hmin. lia.
Qed.
End timers.

Lemma sleepWindowInput_spec resolve window :
  sleepWindowInput resolve window = true ->
  sw_daysOfWeek window <> []
  /\ timeOfDaySchema (sw_stopAt window) = true /\ timeOfDaySchema (sw_startAt window) = true
  /\ TIMEZONE_PATTERN (sw_timezone window) = true
  /\ (String.length (sw_timezone window) <= 64)%nat
  /\ minuteOfDay (sw_stopAt window) <> minuteOfDay (sw_startAt window).
Proof.
  unfold sleepWindowInput, daysSchema, timezoneSchema.
  rewrite !andb_true_iff, !Nat.leb_le, negb_true_iff, Z.eqb_neq.
  intros H. destruct_and! H. repeat split; try done.
  intros Hd. rewrite Hd in *. simpl in *. lia.
Qed.

(** ** Properties *)

(** saving a choice of days and reading the stored text back gives the
    same days, in week order and each once, and storing what was read gives
    the same text; the only choice that cannot be stored is the empty one. *)
Theorem days_roundtrip (days : list DayOfWeek) :
  (renderDaysOfWeek days = Throw NO_DAY /\ days = [])
  \/ exists stored,
       renderDaysOfWeek days = Ok stored
       /\ parseDaysOfWeek stored = orderedDays days
       /\ (forall day, In day (parseDaysOfWeek stored) <-> In day days)
       /\ NoDup (parseDaysOfWeek stored)
       /\ renderDaysOfWeek (parseDaysOfWeek stored) = Ok stored.
Proof.
  destruct (decide (days = [])) as [->|Hne]; [by left|right].
  destruct (render_total days Hne) as [stored Hs]. exists stored.
  rewrite (parse_render days stored Hs), render_ordered.
  repeat split; [done|apply in_orderedDays|apply in_orderedDays| |done].
  apply NoDup_ListNoDup, List.NoDup_filter. unfold DAYS_OF_WEEK.
  apply NoDup_ListNoDup. by apply (bool_decide_unpack (NoDup DAYS_OF_WEEK)).
Qed.

(** a sleep window the input schema accepts, for an instance id the id
    pattern accepts, always renders: two unit files with different names,
    whose lines are exactly the fixed directives with the description and
    one [OnCalendar] line, so no field can add a directive, and the stop and
    start times printed on them differ. *)
Theorem sleep_timers_render (resolve : string -> option string) (window : RenderableSleepWindow) :
  sleepWindowInput resolve window = true ->
  INSTANCE_ID_PATTERN (sw_instanceId window) = true ->
  exists stopName startName stopText startText stop start,
    renderSleepTimers window = Ok [(stopName, stopText); (startName, startText)]
    /\ stopName <> startName
    /\ split_on NEWLINE stopText
         = timer_lines "Sleep window stop" stop (sw_instanceId window)
    /\ split_on NEWLINE startText
         = timer_lines "Sleep window start" start (sw_instanceId window)
    /\ stop <> start.
Proof.
  intros Hin Hid.
  destruct (sleepWindowInput_spec _ _ Hin) as (Hd & Hst & Hsa & Hz & Hlen & Hne).
  destruct (renderOnCalendar_ok _ (minuteOfDay (sw_stopAt window)) (sw_timezone window) Hd)
    as (prefix & Hp & Hstop & Hstopfree); [done|done|].
  destruct (renderOnCalendar_ok _ (minuteOfDay (sw_startAt window)) (sw_timezone window) Hd)
    as (prefix' & Hp' & Hstart & Hstartfree); [done|done|].
  rewrite Hp in Hp'. injection Hp' as <-.
  unfold renderSleepTimers, validateInstanceId.
  rewrite (id_no_percent _ Hid), Hid, Hstop, Hstart. simpl.
  do 6 eexists. split; [reflexivity|]. split; [done|]. split; [|split].
  - apply timerUnit_lines; [done|done|by apply id_free].
  - apply timerUnit_lines; [done|done|by apply id_free].
  - intros Heq. apply calendar_text_inj in Heq; by try apply minuteOfDay_bounds.
Qed.

Definition witness_window : RenderableSleepWindow :=
  MkSleepWindow "bot-1" [Fri; Mon] (MkTime 23 5) (MkTime 6 0) "Europe/London".

Lemma sleep_timers_render_witness :
  exists stopName startName stopText startText stop start,
    renderSleepTimers witness_window = Ok [(stopName, stopText); (startName, startText)]
    /\ stopName <> startName
    /\ split_on NEWLINE stopText = timer_lines "Sleep window stop" stop "bot-1"
    /\ split_on NEWLINE startText = timer_lines "Sleep window start" start "bot-1"
    /\ stop <> start.
Proof.
  exact (sleep_timers_render (fun z => Some z) witness_window
           ltac:(vm_compute; reflexivity) ltac:(vm_compute; reflexivity)).
Defined.
