(* ===== verification/Due.v ===== *)
(** When a daily command or task time is due.

    packages/core/src/instance/due.ts.  [Intl.DateTimeFormat] and its time
    zone database are a parameter, [formatToParts]; what the scheduling
    theorems use of it is the class [LocalZone]: in a zone, an instant has a
    local time, and the parts printed are those of that time.  [CalendarZone] is
    an instance for any local time, with the civil calendar of [Dates];
    [UTC] is the one whose local time is the instant itself. *)

From S2P Require Import Prelude Dates Calendar.

Definition CATCH_UP_GRACE_MINUTES : Z := 60.

Record ZonedMoment := MkMoment { weekday : DayOfWeek; momentMinute : Z; dateKey : string }.

Definition WEEKDAY_BY_SHORT_NAME (name : string) : option DayOfWeek :=
  if name ≡? "Mon" then Some Mon
  else if name ≡? "Tue" then Some Tue
  else if name ≡? "Wed" then Some Wed
  else if name ≡? "Thu" then Some Thu
  else if name ≡? "Fri" then Some Fri
  else if name ≡? "Sat" then Some Sat
  else if name ≡? "Sun" then Some Sun
  else None.

(** [Number(text)] on the texts of two-digit parts: digits, or nothing. *)
Definition Number_ (text : string) : Z :=
  match numberOfDigits text with Some n => n | None => 0 end.

(** The candidate of [isDue]; [candidate_lastRunAt] is [null] when the
    command has not run. *)
Record DueCandidate := MkCandidate {
  candidate_daysOfWeek : list DayOfWeek;
  candidate_minuteOfDay : Z;
  candidate_timezone : string;
  candidate_enabled : bool;
  candidate_lastRunAt : option Z }.

Section due.
(** [new Intl.DateTimeFormat("en-US", { timeZone, ... }).formatToParts(at)]:
    the parts by type, or a throw for a zone it does not know. *)
Variable formatToParts : string -> Z -> option (list (string * string)).

Definition find_part (parts : list (string * string)) (type : string) : string :=
  match List.find (fun part => part.1 ≡? type) parts with
  | Some part => part.2
  | None => ""
  end.

Definition zonedMoment (at_ : Z) (timezone : string) : result ZonedMoment :=
  match formatToParts timezone at_ with
  | None => Throw (ThrownError UnknownTimezoneError ("Unknown timezone: " +:+ timezone))
  | Some parts =>
      match WEEKDAY_BY_SHORT_NAME (find_part parts "weekday") with
      | None =>
          Throw (ThrownError UnknownTimezoneError ("Unknown weekday for timezone: " +:+ timezone))
      | Some day =>
          Ok (MkMoment day
                (Number_ (find_part parts "hour") * 60 + Number_ (find_part parts "minute"))
                (find_part parts "year" +:+ "-" +:+ find_part parts "month" +:+ "-"
                   +:+ find_part parts "day"))
      end
  end.

Definition isDue (candidate : DueCandidate) (at_ : Z) : result bool :=
  if negb (candidate_enabled candidate) then Ok false
  else if (length (candidate_daysOfWeek candidate) =? 0)%nat then Ok false
  else
    let+ now := zonedMoment at_ (candidate_timezone candidate) in
    if negb (includes_day (candidate_daysOfWeek candidate) (weekday now)) then Ok false
    else
      let elapsed := momentMinute now - candidate_minuteOfDay candidate in
      if (elapsed <? 0) || (CATCH_UP_GRACE_MINUTES <? elapsed) then Ok false
      else
        match candidate_lastRunAt candidate with
        | None => Ok true
        | Some lastRunAt =>
            let+ last := zonedMoment lastRunAt (candidate_timezone candidate) in
            Ok (negb (dateKey last ≡? dateKey now))
        end.

Definition everyDay : list DayOfWeek := DAYS_OF_WEEK.

Definition startOfLocalDay (timezone : string) (at_ : Z) : result Z :=
  let+ now := zonedMoment at_ timezone in
  Ok (at_ - momentMinute now * 60000).

(** What the schedulers rely on: the zone's local time at an instant, and
    parts that print its day and minute.  1970-01-01 was a Thursday. *)
Definition weekday_of_days (days : Z) : DayOfWeek :=
  nth (Z.to_nat ((days + 3) mod 7)) DAYS_OF_WEEK Mon.

Class LocalZone (timezone : string) := {
  local : Z -> Z;
  day_key : Z -> string;
  day_key_inj : forall d d', day_key d = day_key d' -> d = d';
  zoned_local : forall at_,
    zonedMoment at_ timezone
    = Ok (MkMoment (weekday_of_days (local at_ / MS_PER_DAY))
            (local at_ mod MS_PER_DAY / MS_PER_MINUTE)
            (day_key (local at_ / MS_PER_DAY))) }.

Definition local_day (timezone : string) {zone : LocalZone timezone} (at_ : Z) : Z :=
  local at_ / MS_PER_DAY.

Definition local_minute (timezone : string) {zone : LocalZone timezone} (at_ : Z) : Z :=
  local at_ mod MS_PER_DAY / MS_PER_MINUTE.

Section zone.
Context (timezone : string) {zone : LocalZone timezone}.

Lemma local_minute_bounds at_ : 0 <= local_minute timezone at_ < 1440.
Proof. unfold local_minute, MS_PER_DAY, MS_PER_MINUTE. lia. Qed.

(** [isDue] in terms of the local calendar. *)
Lemma isDue_local days m en last at_ :
  isDue (MkCandidate days m timezone en last) at_
  = Ok (en && includes_day days (weekday_of_days (local_day timezone at_))
        && (m <=? local_minute timezone at_)
        && (local_minute timezone at_ <=? m + CATCH_UP_GRACE_MINUTES)
        && match last with
           | None => true
           | Some t => negb (local_day timezone t =? local_day timezone at_)
           end).
Proof.
  unfold isDue. cbn [candidate_enabled candidate_daysOfWeek candidate_timezone
    candidate_minuteOfDay candidate_lastRunAt].
  destruct en; [|done]. cbn [negb andb].
  destruct days as [|d rest]; [done|]. set (days := d :: rest).
  change (length days =? 0)%nat with false. cbv iota.
  rewrite zoned_local. cbn [rbind weekday momentMinute dateKey].
  fold (local_day timezone at_) (local_minute timezone at_).
  destruct (includes_day days _); [|done]. cbn [negb andb].
  set (lm := local_minute timezone at_).
  destruct (Z.leb_spec m lm), (Z.ltb_spec (lm - m) 0); try lia; [|done]. cbn [orb andb].
  destruct (Z.leb_spec lm (m + CATCH_UP_GRACE_MINUTES)),
    (Z.ltb_spec CATCH_UP_GRACE_MINUTES (lm - m)); try lia; [|done].
  destruct last as [t|]; [|done]. rewrite zoned_local. cbn [rbind dateKey].
  fold (local_day timezone t). cbn [andb]. do 2 f_equal.
  destruct (Z.eqb_spec (local_day timezone t) (local_day timezone at_)) as [Heq|Hne].
  - rewrite Heq. by apply bool_decide_eq_true_2.
  - apply bool_decide_eq_false_2. intros Hk. by apply day_key_inj in Hk.
Qed.

(** The claim boundary is the start of the local day, plus the seconds
    and milliseconds of the minute [at] falls in. *)
Lemma startOfLocalDay_local at_ :
  startOfLocalDay timezone at_ = Ok (at_ - local_minute timezone at_ * 60000).
Proof. unfold startOfLocalDay. rewrite zoned_local. done. Qed.
End zone.
End due.

Arguments local {formatToParts timezone LocalZone} at_.
Arguments local_day formatToParts timezone {zone} at_.
Arguments local_minute formatToParts timezone {zone} at_.

(** ** A zone by its calendar

    A [formatToParts] for one zone whose local time is [local_of], with the
    calendar of [Dates]. *)

Definition calendarParts (name : string) (local_of : Z -> Z) (timezone : string) (at_ : Z)
    : option (list (string * string)) :=
  if timezone ≡? name then
    let at_ := local_of at_ in
    let c := civil_of_days (at_ / MS_PER_DAY) in
    let m := at_ mod MS_PER_DAY / MS_PER_MINUTE in
    Some [("weekday", day_name (weekday_of_days (at_ / MS_PER_DAY)));
          ("month", padded 2 (cmonth c)); ("day", padded 2 (cday c)); ("year", decimal (cyear c));
          ("hour", padded 2 (m / 60)); ("minute", padded 2 (m mod 60))]
  else None.

Definition utcParts : string -> Z -> option (list (string * string)) :=
  calendarParts "UTC" (fun at_ => at_).

Definition utc_key (days : Z) : string :=
  let c := civil_of_days days in
  decimal (cyear c) +:+ "-" +:+ padded 2 (cmonth c) +:+ "-" +:+ padded 2 (cday c).

Section utc.
Lemma padded2_inj n n' :
  0 <= n < 100 -> 0 <= n' < 100 -> padded 2 n = padded 2 n' -> n = n'.
Proof.
  assert (H2 : 10 ^ Z.of_nat 2 = 100) by done. intros Hn Hn' H.
  pose proof (read_padded 2 n "" ltac:(auto) ltac:(by rewrite H2)) as H1.
  pose proof (read_padded 2 n' "" ltac:(auto) ltac:(by rewrite H2)) as H1'.
  rewrite H in H1. congruence.
Qed.

Lemma padded2_length n : 0 <= n < 100 -> String.length (padded 2 n) = 2%nat.
Proof.
  intros Hn. pose proof (pad_ok 2 n ltac:(auto) Hn) as H. unfold pad_check in H. tests.
  by apply Nat.eqb_eq.
Qed.

Lemma padded2_number n : 0 <= n < 100 -> Number_ (padded 2 n) = n.
Proof.
  intros Hn. pose proof (pad_ok 2 n ltac:(auto) Hn) as H. unfold pad_check in H. tests.
  apply Nat.eqb_eq in H. unfold Number_, numberOfDigits.
  destruct (padded 2 n) as [|c s]; [done|]. by rewrite H0.
Qed.

Lemma utc_key_inj d d' : utc_key d = utc_key d' -> d = d'.
Proof.
  unfold utc_key. intros H.
  pose proof (civil_bounds d) as [Hm Hd]. pose proof (civil_bounds d') as [Hm' Hd'].
  apply app_inj_length in H as [Hy H];
    [|rewrite !string_length_app, !padded2_length by lia; done].
  apply decimal_inj in Hy. apply (inj (String.append "-")) in H.
  apply app_inj_length in H as [Hmo H]; [|rewrite !string_length_app, !padded2_length by lia; done].
  apply (inj (String.append "-")), padded2_inj in H; [|lia..]. apply padded2_inj in Hmo; [|lia..].
  rewrite <- (days_of_civil_of_days d), <- (days_of_civil_of_days d').
  f_equal. destruct (civil_of_days d), (civil_of_days d'). simpl in *. congruence.
Qed.

Lemma weekday_name day : WEEKDAY_BY_SHORT_NAME (day_name day) = Some day.
Proof. by destruct day. Qed.

#[export] Program Instance CalendarZone name local_of :
    LocalZone (calendarParts name local_of) name := {|
  local := local_of;
  day_key := utc_key |}.
Next Obligation. intros. by apply utc_key_inj. Qed.
Next Obligation.
  intros name local_of at_. unfold zonedMoment, calendarParts.
  rewrite bool_decide_eq_true_2 by done.
  set (l := local_of at_). unfold find_part. simpl. rewrite weekday_name.
  assert (Hm : 0 <= l mod MS_PER_DAY / MS_PER_MINUTE < 1440)
    by (unfold MS_PER_DAY, MS_PER_MINUTE; lia).
  rewrite !padded2_number by lia. unfold utc_key. do 2 f_equal. lia.
Qed.

#[export] Instance UTC : LocalZone utcParts "UTC" := CalendarZone "UTC" (fun at_ => at_).
End utc.
