(* ===== verification/CommandScheduler.v ===== *)
(** Daily commands: storage and the tick that runs them.

    [CommandRepository] is packages/core/src/instance/command.repository.ts
    over the [instanceCommand] table; the rest is
    packages/core/src/instance/scheduler.ts, a tick written against the
    record of operations [SchedulerDeps], and the wiring of
    apps/server/src/bootstrap.ts, [command_deps]. *)

From S2P Require Import Prelude Tables Dates Calendar Due.

Record InstanceCommandRow := MkCommand {
  cmd_id : string; cmd_organizationId : string; cmd_instanceId : string; cmd_name : string;
  cmd_command : string; cmd_daysOfWeek : string; cmd_minuteOfDay : Z; cmd_timezone : string;
  cmd_enabled : bool; cmd_lastRunAt : option Z; cmd_lastRunError : option string;
  cmd_createdAt : Z }.

(** ** The [instanceCommand] table *)

Module CommandRepository.
Definition Table : Type := list InstanceCommandRow.

Record ScheduledCommandValues := MkValues {
  v_instanceId : string; v_name : string; v_command : string; v_daysOfWeek : string;
  v_minuteOfDay : Z; v_timezone : string; v_enabled : bool }.

(** [instanceCommand_org_instance_name_unique] *)
Definition name_key (row : InstanceCommandRow) : option (string * string * string) :=
  Some (cmd_organizationId row, cmd_instanceId row, cmd_name row).

Definition id_key (row : InstanceCommandRow) : option string := Some (cmd_id row).

(** The new row; [id] is the drawn [nanoid()], [createdAt] the default. *)
Definition upsert (organizationId id : string) (createdAt : Z) (values : ScheduledCommandValues)
    (t : Table) : option InstanceCommandRow * Table :=
  Tables.upsert
    (fun row => (cmd_organizationId row ≡? organizationId)
                && (cmd_instanceId row ≡? v_instanceId values) && (cmd_name row ≡? v_name values))
    (fun row => MkCommand (cmd_id row) (cmd_organizationId row) (cmd_instanceId row) (cmd_name row)
                  (v_command values) (v_daysOfWeek values) (v_minuteOfDay values)
                  (v_timezone values) (v_enabled values) None None (cmd_createdAt row))
    (MkCommand id organizationId (v_instanceId values) (v_name values) (v_command values)
       (v_daysOfWeek values) (v_minuteOfDay values) (v_timezone values) (v_enabled values)
       None None createdAt) t.

Definition listForInstance (organizationId instanceId : string) (t : Table) : Table :=
  order_by (fun a b => cmd_minuteOfDay a <=? cmd_minuteOfDay b)
    (select (fun row => (cmd_instanceId row ≡? instanceId)
                        && (cmd_organizationId row ≡? organizationId)) t).

Definition listEnabledAcrossOrganizations (t : Table) : Table := select cmd_enabled t.

Definition owned (organizationId id : string) (row : InstanceCommandRow) : bool :=
  (cmd_id row ≡? id) && (cmd_organizationId row ≡? organizationId).

Definition deleteReturning (organizationId id : string) (t : Table)
    : option InstanceCommandRow * Table :=
  (select_first (owned organizationId id) t, delete_where (owned organizationId id) t).

Definition delete (organizationId id : string) (t : Table) : bool * Table :=
  ((0 <? affected (owned organizationId id) t)%nat, delete_where (owned organizationId id) t).

Definition set_last_run (ranAt : Z) (error : option string) (row : InstanceCommandRow)
    : InstanceCommandRow :=
  MkCommand (cmd_id row) (cmd_organizationId row) (cmd_instanceId row) (cmd_name row)
    (cmd_command row) (cmd_daysOfWeek row) (cmd_minuteOfDay row) (cmd_timezone row)
    (cmd_enabled row) (Some ranAt) error (cmd_createdAt row).

Definition claimable (id : string) (notRunSince : Z) (row : InstanceCommandRow) : bool :=
  (cmd_id row ≡? id)
  && match cmd_lastRunAt row with None => true | Some t => t <? notRunSince end.

Definition claimRun (id : string) (ranAt notRunSince : Z) (t : Table) : bool * Table :=
  ((0 <? affected (claimable id notRunSince) t)%nat,
   update_where (claimable id notRunSince) (set_last_run ranAt None) t).

Definition recordRun (id : string) (ranAt : Z) (error : option string) (t : Table)
    : unit * Table :=
  (tt, update_where (fun row => cmd_id row ≡? id) (set_last_run ranAt error) t).

(** ** Lemmas *)

Definition well_formed (t : Table) : Prop := unique_on id_key t /\ unique_on name_key t.

Lemma claimRun_well_formed id ranAt since t :
  well_formed t -> well_formed (claimRun id ranAt since t).2.
Proof.
  intros [H1 H2]. split; (apply unique_on_update; [|done]); intros r _ _; by left.
Qed.

Lemma recordRun_well_formed id ranAt error t :
  well_formed t -> well_formed (recordRun id ranAt error t).2.
Proof.
  intros [H1 H2]. split; (apply unique_on_update; [|done]); intros r _ _; by left.
Qed.

Lemma upsert_well_formed organizationId id createdAt values t :
  well_formed t -> (forall row, In row t -> cmd_id row <> id) ->
  well_formed (upsert organizationId id createdAt values t).2.
Proof.
  intros [H1 H2] Hfresh. unfold upsert, Tables.upsert.
  destruct (existsb _ t) eqn:E; simpl.
  - split; (apply unique_on_update; [|done]); intros r _ _; by left.
  - rewrite existsb_false in E. split; apply unique_on_snoc; try done.
    + intros k r [= <-] Hr [= Hk]. by apply (Hfresh r Hr).
    + intros k r [= <-] Hr [= Ho Hi Hn]. specialize (E r Hr). cbv beta in E.
      rewrite Ho, Hi, Hn in E. rewrite !bool_decide_eq_true_2 in E by done. done.
Qed.

Lemma well_formed_singleton row : well_formed [row].
Proof. split; apply NoDup_singleton. Qed.

(** The row with an id, when there is one. *)
Lemma id_unique t r r' :
  well_formed t -> In r t -> In r' t -> cmd_id r = cmd_id r' -> r = r'.
Proof.
  intros [H _] Hr Hr' Hid. apply (unique_on_eq id_key t (cmd_id r)); [done..|].
  unfold id_key. by rewrite Hid.
Qed.

(** A claim succeeds exactly when the stored row has not run since. *)
Lemma claimRun_true t r ranAt since :
  well_formed t -> In r t ->
  (claimRun (cmd_id r) ranAt since t).1
  = match cmd_lastRunAt r with None => true | Some at_ => at_ <? since end.
Proof.
  intros Hwf Hr. unfold claimRun, affected. cbn [fst].
  destruct (match cmd_lastRunAt r with None => true | Some at_ => at_ <? since end) eqn:E.
  - apply Nat.ltb_lt.
    assert (Hin : In r (select (claimable (cmd_id r) since) t)).
    { apply filter_In. split; [done|]. unfold claimable. by rewrite bool_decide_eq_true_2. }
    destruct (select _ t); [done|simpl; lia].
  - apply Nat.ltb_ge. unfold select. rewrite filter_none; [done|].
    intros r' Hr'. unfold claimable. case_bool_decide as Hid; [|done]. simpl.
    by rewrite (id_unique t r' r).
Qed.

(** What a claim leaves of a row: the claimed one is stamped. *)
Lemma claimRun_row t r ranAt since :
  well_formed t -> In r t -> (claimRun (cmd_id r) ranAt since t).1 = true ->
  In (set_last_run ranAt None r) (claimRun (cmd_id r) ranAt since t).2.
Proof.
  intros Hwf Hr Hc. rewrite claimRun_true in Hc by done. cbn [claimRun snd].
  apply in_update_where. exists r. split; [done|]. unfold claimable.
  by rewrite bool_decide_eq_true_2, Hc.
Qed.

Lemma claimRun_other t r id ranAt since :
  In r t -> cmd_id r <> id -> In r (claimRun id ranAt since t).2.
Proof.
  intros Hr Hid. apply in_update_where. exists r. split; [done|]. unfold claimable.
  by rewrite bool_decide_eq_false_2.
Qed.

Lemma claimRun_false t id ranAt since :
  (claimRun id ranAt since t).1 = false -> (claimRun id ranAt since t).2 = t.
Proof.
  unfold claimRun, affected. cbn [fst snd]. intros H. apply Nat.ltb_ge in H.
  apply update_where_none. intros r Hr.
  destruct (claimable id since r) eqn:E; [|done].
  assert (Hin : In r (select (claimable id since) t)) by (by apply filter_In).
  destruct (select _ t); [done|simpl in H; lia].
Qed.

Lemma recordRun_other t r id ranAt error :
  In r t -> cmd_id r <> id -> In r (recordRun id ranAt error t).2.
Proof.
  intros Hr Hid. apply in_update_where. exists r. split; [done|].
  by rewrite bool_decide_eq_false_2.
Qed.
End CommandRepository.

Arguments CommandRepository.claimRun : simpl never.
Arguments CommandRepository.recordRun : simpl never.

(** ** The tick *)

Definition SCHEDULER_TICK_MS : Z := 30000.
Definition SCHEDULER_ACTOR_LABEL : string := "scheduler".
Definition UNKNOWN_FAILURE : string := "Unknown scheduler failure".

Record SchedulerRun := MkRun {
  considered : Z; fired : list string; failed : list (string * string); skipped : Z;
  unclaimed : Z }.

Record SchedulerDeps (W : Type) := MkSchedulerDeps {
  dueCommands : M W (list InstanceCommandRow);
  send : InstanceCommandRow -> M W unit;
  claimRun : string -> Z -> Z -> M W bool;
  recordRun : string -> Z -> option string -> M W unit;
  now : M W Z;
  onError : option (string -> thrown -> M W unit);
  describeFailure : thrown -> string }.
Arguments dueCommands {W}. Arguments send {W}. Arguments claimRun {W}. Arguments recordRun {W}.
Arguments now {W}. Arguments onError {W}. Arguments describeFailure {W}.

(** The mutations of the tick's [run]. *)
Definition push_fired (id : string) (run : SchedulerRun) : SchedulerRun :=
  MkRun (considered run) (fired run ++ [id]) (failed run) (skipped run) (unclaimed run).
Definition push_failed (id reason : string) (run : SchedulerRun) : SchedulerRun :=
  MkRun (considered run) (fired run) (failed run ++ [(id, reason)]) (skipped run) (unclaimed run).
Definition add_skipped (run : SchedulerRun) : SchedulerRun :=
  MkRun (considered run) (fired run) (failed run) (skipped run + 1) (unclaimed run).
Definition add_unclaimed (run : SchedulerRun) : SchedulerRun :=
  MkRun (considered run) (fired run) (failed run) (skipped run) (unclaimed run + 1).

Section tick.
Variable formatToParts : string -> Z -> option (list (string * string)).
Context {W : Type} (deps : SchedulerDeps W).

Definition candidateFor (row : InstanceCommandRow) : DueCandidate :=
  MkCandidate (parseDaysOfWeek (cmd_daysOfWeek row)) (cmd_minuteOfDay row) (cmd_timezone row)
    (cmd_enabled row) (cmd_lastRunAt row).

Definition change (f : SchedulerRun -> SchedulerRun) : M (SchedulerRun * W) unit :=
  on_fst (modify f).

(** The three [try] blocks of the loop body; [None] is a [continue] from
    the [catch]. *)
Definition due_or_recorded (at_ : Z) (row : InstanceCommandRow)
    : M (SchedulerRun * W) (option bool) :=
  try_catch (let* due := lift (isDue formatToParts (candidateFor row) at_) in ret (Some due))
    (fun error =>
       let reason := reason_of UNKNOWN_FAILURE error in
       change (push_failed (cmd_id row) reason) ;;;
       on_snd (swallow (recordRun deps (cmd_id row) at_ (Some reason))) ;;;
       ret None).

Definition claim_or_reported (at_ : Z) (row : InstanceCommandRow)
    : M (SchedulerRun * W) (option bool) :=
  try_catch
    (let* notRunSince := lift (startOfLocalDay formatToParts (cmd_timezone row) at_) in
     let* claimed := on_snd (claimRun deps (cmd_id row) at_ notRunSince) in
     ret (Some claimed))
    (fun error =>
       change (push_failed (cmd_id row) (reason_of UNKNOWN_FAILURE error)) ;;;
       on_snd (call_optional (onError deps)
         ("Scheduled command " +:+ cmd_id row +:+ " could not be claimed")
         (as_failure UNKNOWN_FAILURE error)) ;;;
       ret None).

Definition send_or_recorded (at_ : Z) (row : InstanceCommandRow) : M (SchedulerRun * W) unit :=
  try_catch (on_snd (send deps row) ;;; change (push_fired (cmd_id row)))
    (fun error =>
       let failure := as_failure UNKNOWN_FAILURE error in
       let reason := describeFailure deps failure in
       change (push_failed (cmd_id row) reason) ;;;
       on_snd (call_optional (onError deps)
         ("Scheduled command " +:+ cmd_id row +:+ " failed") failure) ;;;
       on_snd (swallow (recordRun deps (cmd_id row) at_ (Some reason)))).

Definition consider (at_ : Z) (row : InstanceCommandRow) : M (SchedulerRun * W) unit :=
  let* due := due_or_recorded at_ row in
  match due with
  | None => ret tt
  | Some false => change add_skipped
  | Some true =>
      let* claimed := claim_or_reported at_ row in
      match claimed with
      | None => ret tt
      | Some false => change add_unclaimed
      | Some true => send_or_recorded at_ row
      end
  end.

Definition runSchedulerTick : M W SchedulerRun :=
  let* at_ := now deps in
  let* rows := dueCommands deps in
  fun w =>
    match for_each rows (consider at_) (MkRun (Z.of_nat (length rows)) [] [] 0 0, w) with
    | (Ok _, (run, w')) => (Ok run, w')
    | (Throw e, (_, w')) => (Throw e, w')
    end.
End tick.

(** The wiring of the server: the repository, a clock, and the sender. *)
Definition command_deps {Sink : Type} (clock : Z)
    (sender : InstanceCommandRow -> M (CommandRepository.Table * Sink) unit)
    (report : option (string -> thrown -> M (CommandRepository.Table * Sink) unit))
    (describe : thrown -> string) : SchedulerDeps (CommandRepository.Table * Sink) :=
  {| dueCommands := on_fst (gets CommandRepository.listEnabledAcrossOrganizations);
     send := sender;
     claimRun := fun id ranAt notRunSince =>
       on_fst (stmt (CommandRepository.claimRun id ranAt notRunSince));
     recordRun := fun id ranAt error => on_fst (stmt (CommandRepository.recordRun id ranAt error));
     now := ret clock;
     onError := report;
     describeFailure := describe |}.

(** ** The tick accounts for every row *)

Section accounting.
Variable formatToParts : string -> Z -> option (list (string * string)).
Context {W : Type} (deps : SchedulerDeps W).

Definition accounted (run : SchedulerRun) : Z :=
  Z.of_nat (length (fired run)) + Z.of_nat (length (failed run)) + skipped run + unclaimed run.

Definition counts (n k : Z) (run : SchedulerRun) : Prop := considered run = n /\ accounted run = k.

Lemma counts_push_fired n k id run : counts n k run -> counts n (k + 1) (push_fired id run).
Proof. intros [H1 H2]. split; [done|]. unfold accounted in *. simpl. rewrite length_app. simpl. lia. Qed.

Lemma counts_push_failed n k id reason run :
  counts n k run -> counts n (k + 1) (push_failed id reason run).
Proof. intros [H1 H2]. split; [done|]. unfold accounted in *. simpl. rewrite length_app. simpl. lia. Qed.

Lemma counts_skipped n k run : counts n k run -> counts n (k + 1) (add_skipped run).
Proof. intros [H1 H2]. split; [done|]. unfold accounted in *. simpl. lia. Qed.

Lemma counts_unclaimed n k run : counts n k run -> counts n (k + 1) (add_unclaimed run).
Proof. intros [H1 H2]. split; [done|]. unfold accounted in *. simpl. lia. Qed.

(** A body that counts one row on a return; a throw ends the tick. *)
Definition counting {A} (n k k' : Z) (m : M (SchedulerRun * W) A) : Prop :=
  triple (fun s => counts n k s.1) m (fun _ s => counts n k' s.1) (fun _ _ => True).

Lemma counting_on_snd {A} n k (m : M W A) : counting n k k (on_snd m).
Proof. eapply triple_consequence; [apply (triple_on_snd (counts n k))|done..]. Qed.

Lemma counting_bind {A B} n k k1 k2 (m : M (SchedulerRun * W) A) (f : A -> M _ B) :
  counting n k k1 m -> (forall a, counting n k1 k2 (f a)) -> counting n k k2 (bind m f).
Proof. intros Hm Hf. eapply triple_bind; [exact Hm|exact Hf]. Qed.

Lemma counting_change n k f :
  (forall run, counts n k run -> counts n (k + 1) (f run)) ->
  counting n k (k + 1) (change (W := W) f).
Proof. intros H. by apply triple_on_fst_modify. Qed.

Lemma counting_ret {A} n k (a : A) : counting n k k (ret a).
Proof. apply triple_ret. Qed.

(** One of the [try] blocks: nothing counted when it ends with [Some],
    one row when it ends with [None]. *)
Definition step_counting {A} n k (m : M (SchedulerRun * W) (option A)) : Prop :=
  triple (fun s => counts n k s.1) m
    (fun o s => counts n (match o with Some _ => k | None => k + 1 end) s.1) (fun _ _ => True).

Lemma due_counting n k at_ row : step_counting n k (due_or_recorded formatToParts deps at_ row).
Proof.
  eapply triple_catch with (R := fun _ s => counts n k s.1).
  - eapply triple_bind; [apply triple_lift; auto|].
    intros due [run w] [Hs _]. exact Hs.
  - intros e. eapply triple_bind;
      [apply counting_change; intros run; apply counts_push_failed|].
    intros ?. eapply triple_bind; [apply counting_on_snd|]. intros ? s Hs. exact Hs.
Qed.

Lemma claim_counting n k at_ row : step_counting n k (claim_or_reported formatToParts deps at_ row).
Proof.
  eapply triple_catch with (R := fun _ s => counts n k s.1).
  - eapply triple_bind with (R := fun _ s => counts n k s.1).
    { eapply triple_consequence; [apply triple_lift| |intros a s [Hs _]; exact Hs|];
        [intros e s _ Hs; exact Hs|done|done]. }
    intros since. eapply triple_bind; [apply (triple_on_snd (counts n k))|].
    intros claimed [run w] Hs. exact Hs.
  - intros e. eapply triple_bind;
      [apply counting_change; intros run; apply counts_push_failed|].
    intros ?. eapply triple_bind; [apply counting_on_snd|]. intros ? s Hs. exact Hs.
Qed.

Lemma send_counting n k at_ row : counting n k (k + 1) (send_or_recorded deps at_ row).
Proof.
  eapply triple_catch with (R := fun _ s => counts n k s.1).
  - eapply triple_bind; [apply (triple_on_snd (counts n k))|].
    intros ?. apply triple_on_fst_modify. intros run. apply counts_push_fired.
  - intros e. eapply counting_bind;
      [apply counting_change; intros run; apply counts_push_failed|].
    intros ?. eapply counting_bind; [apply counting_on_snd|]. intros ?. apply counting_on_snd.
Qed.

Lemma consider_counting n k at_ row : counting n k (k + 1) (consider formatToParts deps at_ row).
Proof.
  eapply triple_bind; [apply due_counting|]. intros [[|]|]; [| |intros s Hs; exact Hs].
  - eapply triple_bind; [apply claim_counting|]. intros [[|]|]; [| |intros s Hs; exact Hs].
    + apply send_counting.
    + apply counting_change. intros run. apply counts_unclaimed.
  - apply counting_change. intros run. apply counts_skipped.
Qed.
End accounting.

(** whatever the operations it is given do, a tick that returns has
    considered every row it read and counted it exactly once, as fired,
    failed, skipped or unclaimed. *)
Theorem tick_accounts_for_every_row {W} formatToParts (deps : SchedulerDeps W) w run w' :
  runSchedulerTick formatToParts deps w = (Ok run, w') ->
  exists at_ rows w0 w1,
    now deps w = (Ok at_, w0) /\ dueCommands deps w0 = (Ok rows, w1)
    /\ considered run = Z.of_nat (length rows)
    /\ Z.of_nat (length (fired run)) + Z.of_nat (length (failed run))
         + skipped run + unclaimed run = Z.of_nat (length rows).
Proof.
  unfold runSchedulerTick, bind. intros H.
  destruct (now deps w) as [[at_|e] w0]; [|done].
  destruct (dueCommands deps w0) as [[rows|e] w1] eqn:Erows; [|done].
  exists at_, rows, w0, w1. split; [done|]. split; [done|].
  set (n := Z.of_nat (length rows)) in *.
  assert (Hloop : triple (fun s : SchedulerRun * W => counts n 0 s.1)
    (for_each rows (consider formatToParts deps at_)) (fun _ s => counts n n s.1) (fun _ _ => True)).
  { apply (triple_for_each (fun seen _ s => counts n (Z.of_nat (length seen)) s.1)).
    intros seen x rest Hx.
    replace (Z.of_nat (length (seen ++ [x]))) with (Z.of_nat (length seen) + 1)
      by (rewrite length_app; simpl; lia).
    apply consider_counting. }
  specialize (Hloop (MkRun n [] [] 0 0, w1) (conj eq_refl eq_refl)).
  destruct (for_each rows _ _) as [[[]|e] [run' w2]]; [|done]. by injection H as -> ->.
Qed.

(** ** Once a day

    Ticks of one process, one after the other, over the table. *)

Section daily.
Variable formatToParts : string -> Z -> option (list (string * string)).
Context {Sink : Type}.
#[local] Abbreviation World := (CommandRepository.Table * Sink)%type.

(** What the tick needs of its environment: a sender that returns or
    throws, and a reporter that returns; neither touches the table. *)
Class CommandEnvironment (sender : InstanceCommandRow -> M World unit)
    (report : option (string -> thrown -> M World unit)) : Prop := {
  sender_table : forall row t sink, exists r sink', sender row (t, sink) = (r, (t, sink'));
  report_table : forall message error t sink, exists sink',
    call_optional report message error (t, sink) = (Ok tt, (t, sink')) }.

Context (sender : InstanceCommandRow -> M World unit)
  (report : option (string -> thrown -> M World unit)) (describe : thrown -> string)
  {environment : CommandEnvironment sender report}.

Definition tick_at (at_ : Z) : M World SchedulerRun :=
  runSchedulerTick formatToParts (command_deps at_ sender report describe).

Fixpoint ticks (instants : list Z) : M World (list (Z * SchedulerRun)) :=
  match instants with
  | [] => ret []
  | at_ :: rest =>
      let* run := tick_at at_ in
      let* runs := ticks rest in
      ret ((at_, run) :: runs)
  end.

(** A run that tried to send a command: the send returned or threw. *)
Definition attempted (id : string) (run : SchedulerRun) : Prop :=
  In id (fired run) \/ In id (map fst (failed run)).

Let deps at_ := command_deps at_ sender report describe.
Let body at_ := consider formatToParts (deps at_) at_.

(** The state of the loop that one row of the table sees. *)
Definition sees (r : InstanceCommandRow) (tried : bool) (s : SchedulerRun * World) : Prop :=
  CommandRepository.well_formed s.2.1 /\ In r s.2.1
  /\ (attempted (cmd_id r) s.1 <-> tried = true).

Lemma attempted_push_fired id id' run :
  attempted id (push_fired id' run) <-> attempted id run \/ id = id'.
Proof. unfold attempted. simpl. rewrite in_app_iff. simpl. intuition congruence. Qed.

Lemma attempted_push_failed id id' reason run :
  attempted id (push_failed id' reason run) <-> attempted id run \/ id = id'.
Proof. unfold attempted. simpl. rewrite map_app, in_app_iff. simpl. intuition congruence. Qed.

(** What another row does to one row: nothing. *)
Lemma consider_other at_ row r tried :
  cmd_id row <> cmd_id r ->
  triple (sees r tried) (body at_ row) (fun _ => sees r tried) (fun _ _ => False).
Proof.
  intros Hid [run [t sink]] (Hwf & Hin & Htried). simpl in *.
  assert (Hfired : forall run', attempted (cmd_id r) run' <-> tried = true ->
    attempted (cmd_id r) (push_fired (cmd_id row) run') <-> tried = true).
  { intros run' <-. rewrite attempted_push_fired. intuition congruence. }
  assert (Hfailed : forall reason run', attempted (cmd_id r) run' <-> tried = true ->
    attempted (cmd_id r) (push_failed (cmd_id row) reason run') <-> tried = true).
  { intros reason run' <-. rewrite attempted_push_failed. intuition congruence. }
  unfold body, consider, due_or_recorded, claim_or_reported, send_or_recorded, bind, try_catch,
    lift, change, on_fst, on_snd, modify, swallow, ret, deps, stmt. cbn.
  destruct (isDue formatToParts (candidateFor row) at_) as [[|]|e]; cbn; [|done|].
  2:{ split; [by apply CommandRepository.recordRun_well_formed|]. split; [|by apply Hfailed].
      apply CommandRepository.recordRun_other; congruence. }
  destruct (startOfLocalDay formatToParts (cmd_timezone row) at_) as [since|e]; cbn.
  2:{ match goal with |- context [call_optional report ?msg ?err _] =>
        destruct (report_table msg err t sink) as [sink' Hrep] end.
      rewrite Hrep. cbn. split; [done|]. split; [done|]. by apply Hfailed. }
  pose proof (CommandRepository.claimRun_well_formed (cmd_id row) at_ since t Hwf) as Hwf'.
  pose proof (CommandRepository.claimRun_other t r (cmd_id row) at_ since Hin
    (fun H => Hid (eq_sym H))) as Hin'.
  destruct (CommandRepository.claimRun (cmd_id row) at_ since t) as [[|] t']; cbn in *; [|done].
  destruct (sender_table row t' sink) as ([[]|e] & sink' & Hsend); rewrite Hsend; cbn.
  - split; [done|]. split; [done|]. by apply Hfired.
  - match goal with |- context [call_optional report ?msg ?err _] =>
      destruct (report_table msg err t' sink') as [sink'' Hrep] end.
    rewrite Hrep. cbn. split; [by apply CommandRepository.recordRun_well_formed|].
    split; [|by apply Hfailed]. apply CommandRepository.recordRun_other; congruence.
Qed.
(** A row in a known zone: whether the tick at [at] tries it. *)
Definition due_now (zone_of : string) {zone : LocalZone formatToParts zone_of}
    (row : InstanceCommandRow) (at_ : Z) : bool :=
  cmd_enabled row
  && includes_day (parseDaysOfWeek (cmd_daysOfWeek row))
       (weekday_of_days (local_day formatToParts zone_of at_))
  && (cmd_minuteOfDay row <=? local_minute formatToParts zone_of at_)
  && (local_minute formatToParts zone_of at_ <=? cmd_minuteOfDay row + CATCH_UP_GRACE_MINUTES).

Definition tried_at (zone_of : string) {zone : LocalZone formatToParts zone_of}
    (row : InstanceCommandRow) (at_ : Z) : bool :=
  due_now zone_of row at_
  && match cmd_lastRunAt row with
     | None => true
     | Some last =>
         negb (local_day formatToParts zone_of last =? local_day formatToParts zone_of at_)
         && (last <? at_ - local_minute formatToParts zone_of at_ * 60000)
     end.

Section row.
Context (r : InstanceCommandRow) {zone : LocalZone formatToParts (cmd_timezone r)}.
#[local] Abbreviation zone_name := (cmd_timezone r).

Lemma isDue_row at_ :
isDue formatToParts (candidateFor r) at_
= Ok (due_now zone_name r at_
      && match cmd_lastRunAt r with
         | None => true
         | Some last => negb (local_day formatToParts zone_name last
                              =? local_day formatToParts zone_name at_)
         end).
Proof. apply (isDue_local formatToParts zone_name). Qed.

(** What the row's own turn does. *)
Lemma consider_self at_ :
triple (sees r false) (body at_ r)
  (fun _ s => if tried_at zone_name r at_
              then exists error, sees (CommandRepository.set_last_run at_ error r) true s
              else sees r false s)
  (fun _ _ => False).
Proof.
intros [run [t sink]] (Hwf & Hin & Hnot). simpl in *.
set (since := at_ - local_minute formatToParts zone_name at_ * 60000).
pose proof (CommandRepository.claimRun_true t r at_ since Hwf Hin) as Hclaim.
pose proof (CommandRepository.claimRun_row t r at_ since Hwf Hin) as Hstamp.
pose proof (CommandRepository.claimRun_false t (cmd_id r) at_ since) as Hsame.
pose proof (CommandRepository.claimRun_well_formed (cmd_id r) at_ since t Hwf) as Hwf'.
unfold body, consider, due_or_recorded, claim_or_reported, send_or_recorded, bind, try_catch,
  lift, change, on_fst, on_snd, modify, swallow, ret, deps, stmt.
rewrite isDue_row, (startOfLocalDay_local formatToParts zone_name). unfold tried_at. cbn. fold since.
destruct (due_now zone_name r at_) eqn:Edue; cbn; [|done].
destruct (CommandRepository.claimRun (cmd_id r) at_ since t) as [claimed t'] eqn:Ec.
cbn in Hclaim, Hstamp, Hsame, Hwf'.
destruct (match cmd_lastRunAt r with Some last => negb _ | None => true end) eqn:Eday; cbn.
2:{ destruct (cmd_lastRunAt r) as [last|]; [|done]. by rewrite Eday. }
replace (match cmd_lastRunAt r with Some last => negb _ && (last <? since) | None => true end)
  with claimed by (rewrite Hclaim; destruct (cmd_lastRunAt r); [by rewrite Eday|done]).
rewrite Ec. cbn. destruct claimed; cbn.
2:{ rewrite (Hsame eq_refl). done. }
destruct (sender_table r t' sink) as ([[]|e] & sink' & Hsend); rewrite Hsend; cbn.
- exists None. split; [done|]. split; [by apply Hstamp|]. split; [done|]. intros _.
  apply attempted_push_fired. by right.
- match goal with |- context [call_optional report ?msg ?err _] =>
    destruct (report_table msg err t' sink') as [sink'' Hrep] end.
  rewrite Hrep. cbn. eexists. split; [by apply CommandRepository.recordRun_well_formed|].
  split.
  + apply in_update_where. exists (CommandRepository.set_last_run at_ None r).
    split; [by apply Hstamp|]. cbn. rewrite bool_decide_eq_true_2 by done. reflexivity.
  + split; [done|]. intros _. apply attempted_push_failed. by right.
Qed.

Lemma enabled_ids t :
CommandRepository.well_formed t ->
NoDup (map cmd_id (CommandRepository.listEnabledAcrossOrganizations t)).
Proof.
intros [Hid _]. unfold CommandRepository.listEnabledAcrossOrganizations, select.
induction t as [|x t IH]; simpl; [constructor|].
pose proof (unique_on_tail CommandRepository.id_key x t Hid) as Hid'.
destruct (cmd_enabled x); simpl; [|by apply IH].
apply NoDup_cons. split; [|by apply IH]. rewrite list_elem_of_In, in_map_iff.
intros (y & Hxy & Hy). apply filter_In in Hy as [Hy _].
apply (unique_on_head CommandRepository.id_key x t (cmd_id x) y Hid eq_refl Hy).
unfold CommandRepository.id_key. by rewrite Hxy.
Qed.

(** The other rows of a tick. *)
Lemma other_ids before after :
NoDup (map cmd_id (before ++ r :: after)) ->
(forall x, In x before -> cmd_id x <> cmd_id r) /\ (forall x, In x after -> cmd_id x <> cmd_id r).
Proof.
rewrite map_app. simpl. intros H. apply NoDup_app in H as (_ & Hdis & H).
apply NoDup_cons in H as [Hn _]. split; intros x Hx Heq.
- apply (Hdis (cmd_id x)); [apply list_elem_of_In; by apply in_map|]. rewrite Heq. by left.
- apply Hn. rewrite <- Heq. apply list_elem_of_In. by apply in_map.
Qed.

Definition row_done (at_ : Z) (s : SchedulerRun * World) : Prop :=
if tried_at zone_name r at_
then exists error, sees (CommandRepository.set_last_run at_ error r) true s
else sees r false s.

Lemma consider_after at_ row :
cmd_id row <> cmd_id r ->
triple (row_done at_) (body at_ row) (fun _ => row_done at_) (fun _ _ => False).
Proof.
intros Hid. unfold row_done. destruct (tried_at zone_name r at_); [|by apply consider_other].
intros s [error Hs].
pose proof (consider_other at_ row (CommandRepository.set_last_run at_ error r) true Hid s Hs) as H.
destruct (body at_ row s) as [[?|?] ?]; [by exists error|done].
Qed.

Lemma loop_row at_ t :
CommandRepository.well_formed t -> In r t ->
triple (sees r false) (for_each (CommandRepository.listEnabledAcrossOrganizations t) (body at_))
  (fun _ => row_done at_) (fun _ _ => False).
Proof.
intros Hwf Hin. pose proof (enabled_ids t Hwf) as Hids.
set (rows := CommandRepository.listEnabledAcrossOrganizations t) in *.
destruct (cmd_enabled r) eqn:Een.
- assert (Hr : In r rows) by (by apply filter_In).
  apply in_split in Hr as (before & after & Hsplit). rewrite Hsplit in *.
  apply other_ids in Hids as [Hbefore Hafter].
  apply triple_for_each_at; [|apply consider_self|].
  + intros x Hx. by apply consider_other, Hbefore.
  + intros x Hx. by apply consider_after, Hafter.
- assert (Hdone : tried_at zone_name r at_ = false) by (unfold tried_at, due_now; by rewrite Een).
  unfold row_done. rewrite Hdone. apply triple_for_each_all. intros x Hx.
  apply consider_other. intros Heq. apply filter_In in Hx as [Hx Hxe].
  rewrite (CommandRepository.id_unique t x r) in Hxe by done. congruence.
Qed.

(** A tick over the whole table. *)
Lemma tick_row at_ t sink :
CommandRepository.well_formed t -> In r t ->
exists run t' sink',
  tick_at at_ (t, sink) = (Ok run, (t', sink')) /\ CommandRepository.well_formed t'
  /\ if tried_at zone_name r at_
     then attempted (cmd_id r) run
          /\ exists error, In (CommandRepository.set_last_run at_ error r) t'
     else ~ attempted (cmd_id r) run /\ In r t'.
Proof.
intros Hwf Hin. unfold tick_at, runSchedulerTick, bind.
cbn [command_deps now dueCommands]. unfold ret, on_fst, gets. cbn [fst snd].
set (rows := CommandRepository.listEnabledAcrossOrganizations t).
set (run0 := MkRun (Z.of_nat (length rows)) [] [] 0 0).
assert (Hstart : sees r false (run0, (t, sink))).
{ split; [done|]. split; [done|]. split; [|done]. by intros [[]|[]]. }
pose proof (loop_row at_ t Hwf Hin _ Hstart) as Hloop. fold rows in Hloop.
unfold body, deps in Hloop.
destruct (for_each rows _ (run0, (t, sink))) as [[[]|e] [run [t' sink']]]; [|done].
exists run, t', sink'. split; [done|].
unfold row_done in Hloop. destruct (tried_at zone_name r at_).
- destruct Hloop as [error (H1 & H2 & H3)]. split; [done|]. split; [by apply H3|by exists error].
- destruct Hloop as (H1 & H2 & H3). split; [done|]. split; [|done]. intros H. by apply H3 in H.
Qed.
End row.

(** The tick at [at_], after the ticks at [earlier], is the first of its
    local day at which the command is due. *)
Definition first_due (zone_of : string) {zone : LocalZone formatToParts zone_of}
    (row : InstanceCommandRow) (earlier : list Z) (at_ : Z) : Prop :=
  due_now zone_of row at_ = true
  /\ (forall last, cmd_lastRunAt row = Some last ->
        local_day formatToParts zone_of last <> local_day formatToParts zone_of at_)
  /\ Forall (fun at' => due_now zone_of row at' = true ->
        local_day formatToParts zone_of at' <> local_day formatToParts zone_of at_) earlier.

Definition last_before (row : InstanceCommandRow) (instants : list Z) : Prop :=
  forall last, cmd_lastRunAt row = Some last -> Forall (fun at_ => last < at_) instants.

Section fixed_offset.
Context (zone_of : string) {zone : LocalZone formatToParts zone_of} (offset : Z)
(local_offset : forall at_, local (LocalZone := zone) at_ = at_ + offset).

Lemma local_day_mono a b :
a <= b -> local_day formatToParts zone_of a <= local_day formatToParts zone_of b.
Proof. unfold local_day, MS_PER_DAY. rewrite !local_offset. lia. Qed.

Lemma day_start a b :
a <= b -> local_day formatToParts zone_of a <> local_day formatToParts zone_of b ->
a < b - local_minute formatToParts zone_of b * 60000.
Proof.
unfold local_day, local_minute, MS_PER_DAY, MS_PER_MINUTE. rewrite !local_offset. lia.
Qed.

Lemma tried_first_due row at_ :
last_before row [at_] -> tried_at zone_of row at_ = true <-> first_due zone_of row [] at_.
Proof.
intros Hlast. unfold tried_at, first_due. rewrite andb_true_iff.
destruct (cmd_lastRunAt row) as [last|] eqn:E.
- specialize (Hlast last E). apply Forall_cons in Hlast as [Hlast _].
  rewrite andb_true_iff, negb_true_iff, Z.eqb_neq, Z.ltb_lt. split.
  + intros (H1 & H2 & H3). split; [done|]. split; [|constructor]. by intros ? [= <-].
  + intros (H1 & H2 & _). specialize (H2 last eq_refl). split; [done|]. split; [done|].
    apply day_start; [lia|done].
- split; [intros [H _]|intros (H & _)]; (split; [exact H|]); [|reflexivity].
  split; [discriminate|constructor].
Qed.

(** One tick more in the past of a tick. *)
Lemma first_due_cons_tried row at_ error earlier at' :
first_due zone_of row [] at_ -> last_before row [at_] -> at_ < at' ->
first_due zone_of (CommandRepository.set_last_run at_ error row) earlier at'
<-> first_due zone_of row (at_ :: earlier) at'.
Proof.
intros (Hdue & Hlast & _) Hb Hlt. unfold first_due. cbn [CommandRepository.set_last_run cmd_lastRunAt].
rewrite Forall_cons. split.
- intros (H1 & H2 & H3). split; [done|]. split; [|split; [|done]].
  + intros last Hl. specialize (Hlast last Hl). specialize (Hb last Hl).
    apply Forall_cons in Hb as [Hb _].
    pose proof (local_day_mono last at_). pose proof (local_day_mono at_ at'). lia.
  + intros _. by apply H2.
- intros (H1 & H2 & H3 & H4). split; [done|]. split; [|done]. intros last [= <-]. by apply H3.
Qed.

End fixed_offset.

Lemma first_due_cons_not_tried (zone_of : string) {zone : LocalZone formatToParts zone_of}
    row at_ earlier at' :
  ~ first_due zone_of row [] at_ ->
  first_due zone_of row earlier at' <-> first_due zone_of row (at_ :: earlier) at'.
Proof.
  intros Hnot. unfold first_due. rewrite Forall_cons. split; [|tauto].
  intros (H1 & H2 & H3). split; [done|]. split; [done|]. split; [|done].
  intros Hdue Heq. apply Hnot. split; [done|]. split; [|constructor].
  intros last Hl. rewrite Heq. by apply H2.
Qed.

(** What the ticks at [instants] show of a row, after those at [earlier]. *)
Definition runs_first_due (row : InstanceCommandRow)
    {zone : LocalZone formatToParts (cmd_timezone row)}
    (earlier instants : list Z) (runs : list (Z * SchedulerRun)) : Prop :=
  map fst runs = instants
  /\ forall i at_ run, nth_error runs i = Some (at_, run) ->
       (attempted (cmd_id row) run
        <-> first_due (cmd_timezone row) row (earlier ++ firstn i instants) at_).

Lemma runs_first_due_cons row {zone : LocalZone formatToParts (cmd_timezone row)}
    at_ run rest runs :
  (attempted (cmd_id row) run <-> first_due (cmd_timezone row) row [] at_) ->
  runs_first_due row [at_] rest runs ->
  runs_first_due row [] (at_ :: rest) ((at_, run) :: runs).
Proof.
  intros Hatt [Hmap Hruns]. split; [simpl; by rewrite Hmap|].
  intros [|i] at' run' Hi; simpl in Hi; [by injection Hi as <- <-|].
  by apply Hruns.
Qed.

(** The rows after the first tick are judged with it in their past. *)
Lemma runs_first_due_tried row {zone : LocalZone formatToParts (cmd_timezone row)}
    (offset : Z) (Hoff : forall at_, local (LocalZone := zone) at_ = at_ + offset)
    at_ error rest runs :
  first_due (cmd_timezone row) row [] at_ -> last_before row [at_] ->
  Forall (Z.lt at_) rest ->
  runs_first_due (CommandRepository.set_last_run at_ error row) [] rest runs ->
  runs_first_due row [at_] rest runs.
Proof.
  intros Hfirst Hlast Hlt [Hmap Hruns]. split; [exact Hmap|]. intros i at' run' Hi. simpl app.
  rewrite <- (first_due_cons_tried (cmd_timezone row) offset Hoff row at_ error);
    [exact (Hruns i at' run' Hi)|done|done|].
  rewrite Forall_forall in Hlt. apply Hlt. rewrite list_elem_of_In, <- Hmap, in_map_iff.
  exists (at', run'). split; [done|]. by eapply nth_error_In.
Qed.

Lemma runs_first_due_not_tried row {zone : LocalZone formatToParts (cmd_timezone row)}
    at_ rest runs :
  ~ first_due (cmd_timezone row) row [] at_ ->
  runs_first_due row [] rest runs -> runs_first_due row [at_] rest runs.
Proof.
  intros Hnot [Hmap Hruns]. split; [exact Hmap|]. intros i at' run' Hi. simpl app.
  rewrite <- (first_due_cons_not_tried (cmd_timezone row) _ _ _ _ Hnot).
  exact (Hruns i at' run' Hi).
Qed.

Lemma last_before_cons row at_ rest :
  last_before row (at_ :: rest) -> last_before row [at_] /\ last_before row rest.
Proof.
  intros H. split; intros last Hl; specialize (H last Hl); apply Forall_cons in H as [? ?];
    repeat constructor; done.
Qed.

Lemma ticks_first_due instants : forall row t sink
    {zone : LocalZone formatToParts (cmd_timezone row)} (offset : Z),
  (forall at_, local (LocalZone := zone) at_ = at_ + offset) ->
  CommandRepository.well_formed t -> In row t ->
  StronglySorted Z.lt instants -> last_before row instants ->
  exists runs w', ticks instants (t, sink) = (Ok runs, w') /\ runs_first_due row [] instants runs.
Proof.
  induction instants as [|at_ rest IH]; intros row t sink zone offset Hoff Hwf Hin Hsorted Hlast.
  { exists [], (t, sink). split; [done|]. split; [done|]. by intros [|i]. }
  apply StronglySorted_inv in Hsorted as [Hsorted Hlt].
  apply last_before_cons in Hlast as [Hone Hlast].
  pose proof (tried_first_due (cmd_timezone row) offset Hoff row at_ Hone) as Htried.
  destruct (tick_row row at_ t sink Hwf Hin) as (run & t' & sink' & Htick & Hwf' & Hrow).
  simpl. unfold bind. rewrite Htick. destruct (tried_at (cmd_timezone row) row at_).
  - destruct Hrow as [Hatt [error Hin']].
    destruct (IH (CommandRepository.set_last_run at_ error row) t' sink' zone offset Hoff Hwf'
      Hin' Hsorted) as (runs & w' & H1 & H2); [by intros ? [= <-]|].
    exists ((at_, run) :: runs), w'. rewrite H1. split; [done|].
    apply runs_first_due_cons; [tauto|].
    eapply (runs_first_due_tried row offset Hoff); [tauto|done|done|exact H2].
  - destruct Hrow as [Hatt Hin'].
    assert (Hnot : ~ first_due (cmd_timezone row) row [] at_) by (intros H; by apply Htried in H).
    destruct (IH row t' sink' zone offset Hoff Hwf' Hin' Hsorted Hlast) as (runs & w' & H1 & H2).
    exists ((at_, run) :: runs), w'. rewrite H1. split; [done|].
    apply runs_first_due_cons; [tauto|]. by apply runs_first_due_not_tried.
Qed.
End daily.

(** C10: with one scheduler process and a zone at a fixed offset, every
    sequence of ticks returns, and a tick tries to send a command exactly
    when it is the first of its local day, of those the command has not run
    on already, to fall in the command's catch-up window: at most one try a
    day, and a day with a tick in the window has its try, whatever became of
    the sends before. *)
Theorem command_fires_once_per_local_day formatToParts {Sink} sender report describe
    {environment : CommandEnvironment (Sink := Sink) sender report}
    (row : InstanceCommandRow) {zone : LocalZone formatToParts (cmd_timezone row)} offset
    (Hoffset : forall at_, local (LocalZone := zone) at_ = at_ + offset) t sink instants
    (Hwf : CommandRepository.well_formed t) (Hrow : In row t)
    (Hordered : StronglySorted Z.lt instants) (Hlast : last_before row instants) :
  exists runs w',
    ticks formatToParts sender report describe instants (t, sink) = (Ok runs, w')
    /\ map fst runs = instants
    /\ forall i at_ run, nth_error runs i = Some (at_, run) ->
         (attempted (cmd_id row) run
          <-> first_due formatToParts (cmd_timezone row) row (firstn i instants) at_).
Proof.
  destruct (ticks_first_due formatToParts sender report describe instants row t sink offset
    Hoffset Hwf Hrow Hordered Hlast) as (runs & w' & H1 & H2 & H3).
  by exists runs, w'.
Qed.

Definition example_command : InstanceCommandRow :=
  MkCommand "c1" "org" "i1" "restart" "/restart" "*" 1410 "UTC" true None None 0.

Lemma command_fires_once_per_local_day_witness :
  exists runs w',
    ticks utcParts (Sink := unit) (fun _ => throw (ThrownError PlainError "offline")) None
      (fun _ => "failed") [84600000; 84630000; 86400000; 171000000] ([example_command], tt)
    = (Ok runs, w')
    /\ map fst runs = [84600000; 84630000; 86400000; 171000000]
    /\ forall i at_ run, nth_error runs i = Some (at_, run) ->
         (attempted "c1" run
          <-> first_due utcParts "UTC" example_command
                (firstn i [84600000; 84630000; 86400000; 171000000]) at_).
Proof.
  assert (E : CommandEnvironment (Sink := unit)
    (fun _ => throw (ThrownError PlainError "offline")) None).
  { split; intros; [by exists (Throw (ThrownError PlainError "offline")), sink | by exists sink]. }
  apply (command_fires_once_per_local_day utcParts
    (fun _ => throw (ThrownError PlainError "offline")) None (fun _ => "failed")
    example_command (zone := UTC) 0).
  - intros at_. simpl. lia.
  - apply CommandRepository.well_formed_singleton.
  - by left.
  - repeat constructor; lia.
  - intros last H. discriminate.
Defined.

(** ** The claim across processes

    Several processes may hold rows read before another one claimed. *)

(** a claim excludes every later claim of the same local day, provided
    it was made after the day's first minute: a second process that judges
    the command due from a row it read earlier is refused. *)
Theorem claim_excludes_later_claims formatToParts timezone
    {zone : LocalZone formatToParts timezone} offset
    (Hoffset : forall at_, local (LocalZone := zone) at_ = at_ + offset)
    t row first second since1 since2
    (Hwf : CommandRepository.well_formed t) (Hrow : In row t)
    (Hsince1 : startOfLocalDay formatToParts timezone first = Ok since1)
    (Hsince2 : startOfLocalDay formatToParts timezone second = Ok since2)
    (Hlater : first <= second)
    (Hday : local_day formatToParts timezone first = local_day formatToParts timezone second)
    (Hminute : 1 <= local_minute formatToParts timezone first)
    (Hclaimed : (CommandRepository.claimRun (cmd_id row) first since1 t).1 = true) :
  CommandRepository.claimRun (cmd_id row) second since2
    (CommandRepository.claimRun (cmd_id row) first since1 t).2
  = (false, (CommandRepository.claimRun (cmd_id row) first since1 t).2).
Proof.
  set (t' := (CommandRepository.claimRun (cmd_id row) first since1 t).2).
  set (row' := CommandRepository.set_last_run first None row).
  assert (Hrow' : In row' t') by (by apply CommandRepository.claimRun_row).
  assert (Hwf' : CommandRepository.well_formed t') by (by apply CommandRepository.claimRun_well_formed).
  assert (Hfirst : (CommandRepository.claimRun (cmd_id row') second since2 t').1 = false).
  { rewrite CommandRepository.claimRun_true by done. cbn [cmd_lastRunAt row' CommandRepository.set_last_run].
    rewrite (startOfLocalDay_local formatToParts timezone) in Hsince2. injection Hsince2 as <-.
    apply Z.ltb_ge. revert Hday Hminute. unfold local_day, local_minute, MS_PER_DAY, MS_PER_MINUTE.
    rewrite !Hoffset. lia. }
  pose proof (CommandRepository.claimRun_false t' (cmd_id row') second since2 Hfirst) as Hsame.
  change (cmd_id row') with (cmd_id row) in *.
  by rewrite (surjective_pairing (CommandRepository.claimRun (cmd_id row) second since2 t')), Hfirst, Hsame.
Qed.

Lemma claim_excludes_later_claims_witness :
  CommandRepository.claimRun "c1" 84630000 30000
    (CommandRepository.claimRun "c1" 84600000 0 [example_command]).2
  = (false, (CommandRepository.claimRun "c1" 84600000 0 [example_command]).2).
Proof.
  apply (claim_excludes_later_claims utcParts "UTC" (zone := UTC) 0 (fun at_ => eq_sym (Z.add_0_r at_))
    [example_command] example_command 84600000 84630000).
  - apply CommandRepository.well_formed_singleton.
  - by left.
  - vm_compute. reflexivity.
  - vm_compute. reflexivity.
  - lia.
  - vm_compute. reflexivity.
  - vm_compute. discriminate.
  - vm_compute. reflexivity.
Defined.

(** the claim boundary keeps the seconds of the instant it is computed
    from, so in the first minute of a local day two processes may both
    claim a command, seconds apart, each from a row it read as due. *)
Theorem midnight_minute_is_claimed_twice :
  isDue utcParts (candidateFor (MkCommand "c" "o" "i" "n" "/x" "*" 0 "UTC" true None None 0))
    10000 = Ok true
  /\ startOfLocalDay utcParts "UTC" 10000 = Ok 10000
  /\ startOfLocalDay utcParts "UTC" 40000 = Ok 40000
  /\ forall row, cmd_lastRunAt row = None ->
       (CommandRepository.claimRun (cmd_id row) 10000 10000 [row]).1 = true
       /\ (CommandRepository.claimRun (cmd_id row) 40000 40000
             (CommandRepository.claimRun (cmd_id row) 10000 10000 [row]).2).1 = true.
Proof.
  split; [by vm_compute|]. split; [by vm_compute|]. split; [by vm_compute|]. intros row Hnone.
  unfold CommandRepository.claimRun, affected, select, update_where. simpl.
  assert (H1 : CommandRepository.claimable (cmd_id row) 10000 row = true).
  { unfold CommandRepository.claimable. by rewrite bool_decide_eq_true_2, Hnone. }
  rewrite H1. simpl. split; [done|].
  assert (H2 : CommandRepository.claimable (cmd_id row) 40000
    (CommandRepository.set_last_run 10000 None row) = true).
  { unfold CommandRepository.claimable. simpl. by rewrite bool_decide_eq_true_2. }
  by rewrite H2.
Qed.

(** A zone that is five hours behind UTC and moves its clocks an hour ahead
    at 07:00 UTC of 10 March 2024. *)
Definition springForward : Z := 1710054000000.

Definition newYork (at_ : Z) : Z :=
  at_ - (if at_ <? springForward then 18000000 else 14400000).

Definition newYorkParts : string -> Z -> option (list (string * string)) :=
  calendarParts "America/New_York" newYork.

#[local] Instance NewYork : LocalZone newYorkParts "America/New_York" :=
  CalendarZone "America/New_York" newYork.

(** A command of 23:30 that ran on the evening of 9 March, at 23:30:10. *)
Definition evening_command : InstanceCommandRow :=
  MkCommand "c1" "org" "i1" "backup" "/backup" "*" 1410 "America/New_York" true
    (Some 1710045010000) None 0.

(** on the 23-hour day of the change the claim boundary lies an hour
    before the local midnight: at no instant of the local day of 10 March
    is the evening command tried, though it is due from 23:30 on. *)
Theorem spring_forward_skips_evening_command {Sink} sender report describe
    {environment : CommandEnvironment (Sink := Sink) sender report} sink at_
    (Hday : 1710046800000 <= at_ < 1710129600000) :
  local_day newYorkParts "America/New_York" at_ = 19792
  /\ (exists run w', tick_at newYorkParts sender report describe at_ ([evening_command], sink)
        = (Ok run, w') /\ ~ attempted "c1" run)
  /\ (1710127800000 <= at_ -> isDue newYorkParts (candidateFor evening_command) at_ = Ok true).
Proof.
  assert (Hlocal : forall x, local_minute newYorkParts "America/New_York" x
    = newYork x mod MS_PER_DAY / MS_PER_MINUTE) by done.
  assert (Hld : forall x, local_day newYorkParts "America/New_York" x = newYork x / MS_PER_DAY) by done.
  assert (Hd : local_day newYorkParts "America/New_York" at_ = 19792).
  { rewrite Hld. unfold newYork, springForward, MS_PER_DAY. destruct (Z.ltb_spec at_ 1710054000000); lia. }
  split; [exact Hd|]. split.
  - destruct (tick_row newYorkParts sender report describe evening_command (zone := NewYork) at_
      [evening_command] sink) as (run & t' & sink' & Htick & _ & Hrow).
    + apply CommandRepository.well_formed_singleton.
    + by left.
    + exists run, (t', sink'). split; [exact Htick|].
      destruct (tried_at newYorkParts _ evening_command at_) eqn:E; [|apply Hrow]. exfalso.
      unfold tried_at, due_now in E. tests. rewrite Hlocal in *. simpl in *.
      revert H0 H2 H3. unfold newYork, springForward, MS_PER_DAY, MS_PER_MINUTE, CATCH_UP_GRACE_MINUTES.
      destruct (Z.ltb_spec at_ 1710054000000); lia.
  - intros Hev. unfold candidateFor. rewrite (isDue_local newYorkParts "America/New_York" (zone := NewYork)).
    rewrite Hd, Hlocal. f_equal. cbn [evening_command cmd_enabled cmd_daysOfWeek cmd_minuteOfDay cmd_lastRunAt].
    rewrite Hld. change (newYork 1710045010000 / MS_PER_DAY) with 19791.
    unfold newYork, springForward, MS_PER_DAY, MS_PER_MINUTE, CATCH_UP_GRACE_MINUTES.
    destruct (Z.ltb_spec at_ 1710054000000); [lia|].
    rewrite !(proj2 (Z.leb_le _ _)) by lia. by vm_compute.
Qed.

Lemma spring_forward_skips_evening_command_witness :
  local_day newYorkParts "America/New_York" 1710127810000 = 19792
  /\ (exists run w', tick_at newYorkParts (Sink := unit) (fun _ => ret tt) None (fun _ => "")
        1710127810000 ([evening_command], tt) = (Ok run, w') /\ ~ attempted "c1" run)
  /\ (1710127800000 <= 1710127810000 ->
      isDue newYorkParts (candidateFor evening_command) 1710127810000 = Ok true).
Proof.
  assert (E : CommandEnvironment (Sink := unit) (fun _ => ret tt) None).
  { split; intros; [by exists (Ok tt), sink | by exists sink]. }
  apply (spring_forward_skips_evening_command (fun _ => ret tt) None (fun _ => "")). lia.
Defined.

Lemma tick_accounts_for_every_row_witness :
  exists run w' at_ rows w0 w1,
    runSchedulerTick utcParts (command_deps (Sink := unit) 84600000 (fun _ => ret tt) None (fun _ => ""))
      ([example_command], tt) = (Ok run, w')
    /\ fired run = ["c1"]
    /\ now (command_deps (Sink := unit) 84600000 (fun _ => ret tt) None (fun _ => ""))
         ([example_command], tt) = (Ok at_, w0)
    /\ dueCommands (command_deps (Sink := unit) 84600000 (fun _ => ret tt) None (fun _ => "")) w0
       = (Ok rows, w1)
    /\ considered run = Z.of_nat (length rows)
    /\ Z.of_nat (length (fired run)) + Z.of_nat (length (failed run))
         + skipped run + unclaimed run = Z.of_nat (length rows).
Proof.
  do 2 eexists.
  destruct (tick_accounts_for_every_row utcParts
    (command_deps (Sink := unit) 84600000 (fun _ => ret tt) None (fun _ => ""))
    ([example_command], tt) (MkRun 1 ["c1"] [] 0 0)
    ([CommandRepository.set_last_run 84600000 None example_command], tt))
    as (at_ & rows & w0 & w1 & H); [vm_compute; reflexivity|].
  exists at_, rows, w0, w1. split; [vm_compute; reflexivity|]. split; [reflexivity|exact H].
Defined.
