(* ===== verification/TaskPlans.v ===== *)
(** When a task runs.

    packages/core/src/instance/task.ts: the claims a task makes on the
    signals a bot left, on the times of day it lists and on its interval.  A
    claim is a trigger and a key that names the occasion; the run table takes
    one run per key ([TaskStore]). *)

From S2P Require Import Prelude Tables Dates Calendar Due.

Definition TASK_TICK_MS : Z := 30000.
Definition TASK_SIGNAL_CATCH_UP_MS : Z := 10 * 60 * 1000.
Definition TASK_RUN_RETENTION_DAYS : Z := 7.
Definition TASK_SIGNAL_RETENTION_DAYS : Z := 120.
Definition TASK_RUNS_KEPT : Z := 10.
Definition TASK_ABANDONED_AFTER_MS : Z := 15 * 60 * 1000.
Definition TASK_ABANDONED_REASON : string := "The manager stopped part-way through this task".

(** [TASK_TRIGGERS] *)
Inductive TaskTrigger := FirstLogin | Login | Respawn | Time | Interval.

(** [InstanceSignalKind] *)
Inductive SignalKind := SignalLogin | SignalRespawn.

#[global] Instance TaskTrigger_eq_dec : EqDecision TaskTrigger.
Proof. solve_decision. Defined.

#[global] Instance SignalKind_eq_dec : EqDecision SignalKind.
Proof. solve_decision. Defined.

(** ** Rows *)

Record InstanceTaskRow := MkTask {
  task_id : string; task_organizationId : string; task_instanceId : string; task_name : string;
  stepDelaySeconds : Z; task_enabled : bool; task_timezone : string;
  onFirstLogin : bool; onLogin : bool; onRespawn : bool;
  intervalMinSeconds : option Z; intervalMaxSeconds : option Z;
  intervalNextRunAt : option Z; intervalObservedAt : option Z;
  task_lastRunAt : option Z; task_lastRunError : option string; task_createdAt : Z }.

Record InstanceTaskStepRow := MkStep {
  step_id : string; step_organizationId : string; step_taskId : string;
  position : Z; step_command : string }.

Record InstanceTaskTimeRow := MkTimeRow {
  time_id : string; time_organizationId : string; time_taskId : string;
  time_daysOfWeek : string; time_minuteOfDay : Z }.

Record InstanceSignalRow := MkSignal {
  signal_id : string; signal_organizationId : string; signal_instanceId : string;
  signal_kind : SignalKind; identity : string; process : option string;
  firstForProcess : bool; occurredAt : Z; observedAt : Z }.

Record TaskDefinition := MkDefinition {
  def_row : InstanceTaskRow; def_steps : list InstanceTaskStepRow;
  def_times : list InstanceTaskTimeRow }.

Record TaskClaim := MkClaim { trigger : TaskTrigger; claimKey : string }.

Definition orderedSteps (definition : TaskDefinition) : list InstanceTaskStepRow :=
  order_by (fun left right => position left <=? position right) (def_steps definition).

Definition wantsJoinSignal (row : InstanceTaskRow) : bool := onFirstLogin row || onLogin row.

Definition wantsRespawnSignal (row : InstanceTaskRow) : bool := onRespawn row.

(** ** Signals *)

Definition latestOf (signals : list InstanceSignalRow) (kind : SignalKind)
    : option InstanceSignalRow :=
  fold_left
    (fun newest signal =>
       match newest with
       | None => Some signal
       | Some n => if occurredAt n <? occurredAt signal then Some signal else newest
       end)
    (List.filter (fun signal => signal_kind signal ≡? kind) signals) None.

Definition signalClaims (row : InstanceTaskRow) (signals : list InstanceSignalRow)
    : list TaskClaim :=
  let login := latestOf signals SignalLogin in
  let respawn := latestOf signals SignalRespawn in
  (match login with
   | Some login =>
       if task_createdAt row <? occurredAt login then
         let asFirstLogin := onFirstLogin row && firstForProcess login in
         if onLogin row || asFirstLogin
         then [MkClaim (if asFirstLogin then FirstLogin else Login) ("login:" +:+ identity login)]
         else []
       else []
   | None => []
   end)
  ++ (match respawn with
      | Some respawn =>
          if onRespawn row && (task_createdAt row <? occurredAt respawn)
          then [MkClaim Respawn ("respawn:" +:+ identity respawn)]
          else []
      | None => []
      end).

(** ** Times of day *)

Section times.
Variable formatToParts : string -> Z -> option (list (string * string)).

Fixpoint timeClaimsOf (row : InstanceTaskRow) (times : list InstanceTaskTimeRow) (at_ : Z)
    : result (list TaskClaim) :=
  match times with
  | [] => Ok []
  | time :: rest =>
      let+ due :=
        isDue formatToParts
          (MkCandidate (parseDaysOfWeek (time_daysOfWeek time)) (time_minuteOfDay time)
             (task_timezone row) true None) at_ in
      if negb due then timeClaimsOf row rest at_
      else
        let+ moment := zonedMoment formatToParts at_ (task_timezone row) in
        let+ claims := timeClaimsOf row rest at_ in
        Ok (MkClaim Time ("time:" +:+ dateKey moment +:+ ":" +:+ decimal (time_minuteOfDay time))
              :: claims)
  end.

Definition timeClaims (definition : TaskDefinition) (at_ : Z) : result (list TaskClaim) :=
  timeClaimsOf (def_row definition) (def_times definition) at_.
End times.

(** ** The interval *)

Record IntervalArm := MkArm { nextRunAt : Z; armObservedAt : Z }.

Inductive IntervalPlan :=
  | unarmed
  | arm (a : IntervalArm)
  | hold (a : IntervalArm)
  | wait (a : IntervalArm)
  | fire (claim : TaskClaim) (a : IntervalArm).

Definition IntervalJitter : Type := Z -> Z -> Z.

(** [Math.random()] is [random / 2 ^ 53]. *)
Definition evenJitter (random : Z) : IntervalJitter := fun minSeconds maxSeconds =>
  if maxSeconds <=? minSeconds then minSeconds
  else minSeconds + random * (maxSeconds - minSeconds + 1) / 2 ^ 53.

Definition intervalPlan (row : InstanceTaskRow) (at_ : Z) (running : bool)
    (jitter : IntervalJitter) : IntervalPlan :=
  match intervalMinSeconds row, intervalMaxSeconds row with
  | Some minSeconds, Some maxSeconds =>
      let rearmed := MkArm (at_ + jitter minSeconds maxSeconds * 1000) at_ in
      match intervalNextRunAt row, intervalObservedAt row with
      | Some armed, Some observed =>
          if negb running then
            let paused := Z.max 0 (at_ - observed) in
            hold (MkArm (armed + paused) at_)
          else if at_ <? armed then wait (MkArm armed at_)
          else fire (MkClaim Interval ("interval:" +:+ toISOString armed)) rearmed
      | _, _ => arm rearmed
      end
  | _, _ => unarmed
  end.

Definition intervalClaimOf (plan : IntervalPlan) : option TaskClaim :=
  match plan with
  | unarmed => None
  | arm _ | hold _ | wait _ => None
  | fire claim _ => Some claim
  end.

Definition intervalArmOf (plan : IntervalPlan) : option IntervalArm :=
  match plan with
  | unarmed => None
  | arm a | hold a | wait a | fire _ a => Some a
  end.

(** The row after the scheduler stored the plan's arm. *)
Definition with_arm (a : IntervalArm) (row : InstanceTaskRow) : InstanceTaskRow :=
  MkTask (task_id row) (task_organizationId row) (task_instanceId row) (task_name row)
    (stepDelaySeconds row) (task_enabled row) (task_timezone row) (onFirstLogin row) (onLogin row)
    (onRespawn row) (intervalMinSeconds row) (intervalMaxSeconds row)
    (Some (nextRunAt a)) (Some (armObservedAt a)) (task_lastRunAt row) (task_lastRunError row)
    (task_createdAt row).

(** ** Lemmas on signals *)

Section signals.
Variable kind : SignalKind.

Lemma latest_fold_some (n : InstanceSignalRow) (l : list InstanceSignalRow) :
  exists s, fold_left
    (fun newest signal =>
       match newest with
       | None => Some signal
       | Some n => if occurredAt n <? occurredAt signal then Some signal else newest
       end) l (Some n) = Some s
  /\ (s = n \/ In s l) /\ occurredAt n <= occurredAt s
  /\ forall x, In x l -> occurredAt x <= occurredAt s.
Proof.
  revert n. induction l as [|y l IH]; intros n; simpl.
  - exists n. split; [done|]. split; [by left|]. split; [lia|done].
  - destruct (Z.ltb_spec (occurredAt n) (occurredAt y)) as [Hlt|Hge].
    + destruct (IH y) as (s & H1 & H2 & H3 & H4). exists s. split; [done|].
      split; [destruct H2 as [->|H2]; right; [by left|by right]|]. split; [lia|].
      intros x [<-|Hx]; [done|by apply H4].
    + destruct (IH n) as (s & H1 & H2 & H3 & H4). exists s. split; [done|].
      split; [destruct H2 as [->|H2]; [by left|right; by right]|]. split; [done|].
      intros x [<-|Hx]; [lia|by apply H4].
Qed.

(** The latest signal of a kind is one of them, and none is newer. *)
Lemma latestOf_spec signals :
  match latestOf signals kind with
  | None => forall x, In x signals -> signal_kind x <> kind
  | Some s => In s signals /\ signal_kind s = kind
              /\ forall x, In x signals -> signal_kind x = kind -> occurredAt x <= occurredAt s
  end.
Proof.
  unfold latestOf.
  assert (Hf : forall x, In x (List.filter (fun s => signal_kind s ≡? kind) signals)
    <-> In x signals /\ signal_kind x = kind).
  { intros x. rewrite filter_In. by rewrite bool_decide_eq_true. }
  destruct (List.filter _ signals) as [|n l] eqn:E; simpl.
  - intros x Hx Hk. apply (Hf x). done.
  - destruct (latest_fold_some n l) as (s & -> & Hs & Hn & Hl).
    assert (Hin : In s (n :: l)) by (destruct Hs as [->|Hs]; [by left|by right]).
    apply Hf in Hin as [Hin Hk]. split; [done|]. split; [done|]. intros x Hx Hxk.
    destruct (proj2 (Hf x) (conj Hx Hxk)) as [<-|Hx']; [done|by apply Hl].
Qed.
End signals.

(** ** The interval as a countdown

    What is left of the wait counts down between two ticks when the bot runs
    at the second one, and stands still otherwise. *)

Section interval.
Context (minS maxS : Z).

Definition armed_row (row : InstanceTaskRow) (armed observed : Z) : Prop :=
  intervalMinSeconds row = Some minS /\ intervalMaxSeconds row = Some maxS
  /\ intervalNextRunAt row = Some armed /\ intervalObservedAt row = Some observed.

Record IntervalTick := MkTick { tickAt : Z; tickRunning : bool; tickJitter : IntervalJitter }.

Definition plan_at (row : InstanceTaskRow) (t : IntervalTick) : IntervalPlan :=
  intervalPlan row (tickAt t) (tickRunning t) (tickJitter t).

(** One tick of the scheduler on the interval: the plan, and the row with
    the plan's arm stored. *)
Definition interval_step (row : InstanceTaskRow) (t : IntervalTick)
    : option TaskClaim * InstanceTaskRow :=
  let plan := plan_at row t in
  (intervalClaimOf plan,
   match intervalArmOf plan with Some a => with_arm a row | None => row end).

Fixpoint interval_run (row : InstanceTaskRow) (ts : list IntervalTick)
    : list (option TaskClaim) * InstanceTaskRow :=
  match ts with
  | [] => ([], row)
  | t :: rest =>
      let (claim, row') := interval_step row t in
      let (claims, row'') := interval_run row' rest in (claim :: claims, row'')
  end.

(** Milliseconds of [ts], observed from [last] on, that count. *)
Fixpoint running_ms (last : Z) (ts : list IntervalTick) : Z :=
  match ts with
  | [] => 0
  | t :: rest => (if tickRunning t then tickAt t - last else 0) + running_ms (tickAt t) rest
  end.

Definition in_order (last : Z) (ts : list IntervalTick) : Prop :=
  Sorted Z.le (last :: map tickAt ts).

Lemma in_order_cons last t ts : in_order last (t :: ts) -> last <= tickAt t /\ in_order (tickAt t) ts.
Proof.
  unfold in_order. simpl. intros H. apply Sorted_inv in H as [H H1].
  split; [by inversion H1|exact H].
Qed.

(** One tick: what is left before and after. *)
Lemma interval_step_countdown row armed observed t :
  armed_row row armed observed -> observed <= tickAt t ->
  let left := armed - observed in
  let gap := if tickRunning t then tickAt t - observed else 0 in
  if tickRunning t && (left <=? gap)
  then interval_step row t
       = (Some (MkClaim Interval ("interval:" +:+ toISOString armed)),
          with_arm (MkArm (tickAt t + tickJitter t minS maxS * 1000) (tickAt t)) row)
  else interval_step row t
       = (None, with_arm (MkArm (tickAt t + (left - gap)) (tickAt t)) row).
Proof.
  intros (H1 & H2 & H3 & H4) Hle. cbn zeta. unfold interval_step, plan_at, intervalPlan.
  rewrite H1, H2, H3, H4. destruct (tickRunning t); cbn [negb andb].
  - destruct (Z.leb_spec (armed - observed) (tickAt t - observed)),
      (Z.ltb_spec (tickAt t) armed); try lia; [done|]. cbn. do 3 f_equal. lia.
  - cbn. do 3 f_equal. lia.
Qed.

Lemma armed_with_arm row armed observed a :
  armed_row row armed observed -> armed_row (with_arm a row) (nextRunAt a) (armObservedAt a).
Proof. intros (H1 & H2 & _). done. Qed.

(** Ticks during which nothing fired: the countdown has run exactly for the
    time that counts, and it is not over. *)
Lemma quiet_countdown ts : forall row armed observed,
  armed_row row armed observed -> in_order observed ts ->
  Forall (fun c => c = None) (interval_run row ts).1 ->
  let last := List.last (map tickAt ts) observed in
  armed_row (interval_run row ts).2 (last + (armed - observed - running_ms observed ts)) last.
Proof.
  induction ts as [|t ts IH]; intros row armed observed Hrow Hord Hquiet; cbn zeta.
  - simpl. by replace (observed + (armed - observed - 0)) with armed by lia.
  - apply in_order_cons in Hord as [Hle Hord].
    pose proof (interval_step_countdown row armed observed t Hrow Hle) as Hstep. cbn zeta in Hstep.
    cbn [interval_run running_ms map] in Hquiet |- *.
    destruct (tickRunning t && (armed - observed <=? _)) eqn:E; rewrite Hstep in Hquiet |- *.
    + destruct (interval_run _ ts). simpl in Hquiet. by apply Forall_cons in Hquiet as [? _].
    + set (row' := with_arm _ row) in *.
      assert (Hrow' : armed_row row' (tickAt t + (armed - observed
        - (if tickRunning t then tickAt t - observed else 0))) (tickAt t))
        by (apply (armed_with_arm row armed observed); done).
      specialize (IH row' _ _ Hrow' Hord). destruct (interval_run row' ts) as [cs row''].
      simpl in Hquiet. apply Forall_cons in Hquiet as [_ Hquiet]. specialize (IH Hquiet).
      cbn zeta in IH. cbn [snd] in *.
      rewrite last_cons_default.
      match goal with |- armed_row _ ?x _ => match type of IH with armed_row _ ?y _ =>
        replace x with y by lia end end. exact IH.
Qed.
End interval.

(** ** Claim keys *)

Definition interval_key (armed : Z) : string := "interval:" +:+ toISOString armed.

Definition LAST_INSTANT : Z := 253402300799999.

Lemma four_digit_instants at_ : 0 <= at_ <= LAST_INSTANT -> four_digit_year at_.
Proof.
  unfold four_digit_year, LAST_INSTANT. intros H.
  assert (Hd : 0 <= at_ / MS_PER_DAY <= 2932896) by (unfold MS_PER_DAY; lia).
  pose proof (days_of_civil_of_days (at_ / MS_PER_DAY)) as Hc.
  pose proof (civil_bounds (at_ / MS_PER_DAY)) as [Hm Hday].
  destruct (civil_of_days (at_ / MS_PER_DAY)) as [y m d]. unfold days_of_civil, day_of_era in Hc.
  cbn [cyear cmonth cday] in *. rewrite <- Hc in Hd. clear Hc H.
  set (y' := y - (if m <=? 2 then 1 else 0)) in *.
  pose proof (Z.div_mod y' 400 ltac:(lia)) as Hy. pose proof (Z.mod_pos_bound y' 400 ltac:(lia)) as Hr.
  set (q := y' / 400) in *. set (r := y' mod 400) in *.
  destruct (Z.leb_spec m 2); subst y'; (destruct (Z.le_gt_cases q 23); [lia|]); lia.
Qed.

Lemma interval_key_inj a b :
  0 <= a <= LAST_INSTANT -> 0 <= b <= LAST_INSTANT -> interval_key a = interval_key b -> a = b.
Proof.
  intros Ha Hb H. apply (inj (String.append "interval:")) in H.
  by apply toISOString_inj in H; [|apply four_digit_instants..].
Qed.

(** The keys of the firings of a run name strictly later and later arms,
    each passed when it fires. *)
Lemma interval_run_keys minS maxS ts : forall row armed observed last,
  1 <= minS -> armed_row minS maxS row armed observed -> in_order observed ts ->
  Forall (fun t => tickAt t <= last /\ minS <= tickJitter t minS maxS) ts ->
  exists arms,
    map claimKey (omap id (interval_run row ts).1) = map interval_key arms
    /\ StronglySorted Z.lt arms /\ Forall (fun x => armed <= x <= last) arms.
Proof.
  induction ts as [|t ts IH]; intros row armed observed last Hmin Hrow Hord Hts.
  { exists []. split; [done|]. split; constructor. }
  apply in_order_cons in Hord as [Hle Hord]. apply Forall_cons in Hts as [[Hlast Hj] Hts].
  pose proof (interval_step_countdown minS maxS row armed observed t Hrow Hle) as Hstep.
  cbn zeta in Hstep. cbn [interval_run].
  destruct (tickRunning t && (armed - observed <=? _)) eqn:E; rewrite Hstep.
  - tests. rewrite H in *.
    destruct (IH (with_arm (MkArm (tickAt t + tickJitter t minS maxS * 1000) (tickAt t)) row)
      (tickAt t + tickJitter t minS maxS * 1000) (tickAt t) last Hmin) as (arms & H1 & H2 & H3);
      [by apply (armed_with_arm minS maxS row armed observed)|done|done|].
    destruct (interval_run _ ts) as [cs row'']. exists (armed :: arms). cbn in H1 |- *.
    split; [by rewrite H1|]. split; [constructor; [done|]|constructor; [lia|]];
      (eapply Forall_impl; [exact H3|]); intros x Hx; cbv beta in Hx; lia.
  - destruct (IH (with_arm (MkArm (tickAt t + (armed - observed
        - (if tickRunning t then tickAt t - observed else 0))) (tickAt t)) row)
      (tickAt t + (armed - observed - (if tickRunning t then tickAt t - observed else 0)))
      (tickAt t) last Hmin) as (arms & H1 & H2 & H3);
      [by apply (armed_with_arm minS maxS row armed observed)|done|done|].
    destruct (interval_run _ ts) as [cs row'']. exists arms. cbn in H1 |- *.
    split; [done|]. split; [done|]. eapply Forall_impl; [exact H3|]. intros x Hx. cbv beta in Hx.
    destruct (tickRunning t); lia.
Qed.

(** Text before the last separator. *)
Lemma app_separator_inj c a b a' b' :
  free_of c b = true -> free_of c b' = true ->
  a +:+ String c b = a' +:+ String c b' -> a = a' /\ b = b'.
Proof.
  intros Hb Hb'. revert a'. induction a as [|x a IH]; intros [|x' a'] H.
  - by injection H.
  - exfalso. rewrite string_app_cons in H. injection H as _ H. rewrite H in Hb.
    rewrite free_of_app in Hb. unfold free_of in Hb. simpl in Hb.
    rewrite bool_decide_eq_true_2 in Hb by done. by rewrite andb_false_r in Hb.
  - exfalso. rewrite string_app_cons in H. injection H as _ H. rewrite <- H in Hb'.
    rewrite free_of_app in Hb'. unfold free_of in Hb'. simpl in Hb'.
    rewrite bool_decide_eq_true_2 in Hb' by done. by rewrite andb_false_r in Hb'.
  - rewrite !string_app_cons in H. injection H as -> H. apply IH in H as [-> ->]. done.
Qed.

Section local_times.
Context (formatToParts : string -> Z -> option (list (string * string))) (timezone : string)
  {zone : LocalZone formatToParts timezone}.

Definition time_due (time : InstanceTaskTimeRow) (at_ : Z) : bool :=
  includes_day (parseDaysOfWeek (time_daysOfWeek time))
    (weekday_of_days (local_day formatToParts timezone at_))
  && (time_minuteOfDay time <=? local_minute formatToParts timezone at_)
  && (local_minute formatToParts timezone at_ <=? time_minuteOfDay time + CATCH_UP_GRACE_MINUTES).

Definition time_key (day minute : Z) : string :=
  "time:" +:+ day_key formatToParts (LocalZone := zone) day +:+ ":" +:+ decimal minute.

Lemma time_key_inj d m d' m' : time_key d m = time_key d' m' -> d = d' /\ m = m'.
Proof.
  unfold time_key. intros H. apply (inj (String.append "time:")) in H.
  apply app_separator_inj in H as [Hd Hm]; [|by apply decimal_free..].
  split; [by apply (day_key_inj formatToParts (LocalZone := zone))|by apply decimal_inj].
Qed.

(** In a known zone the claims are those of the times that are due. *)
Lemma timeClaims_local row times at_ :
  task_timezone row = timezone ->
  timeClaimsOf formatToParts row times at_
  = Ok (map (fun time => MkClaim Time
               (time_key (local_day formatToParts timezone at_) (time_minuteOfDay time)))
          (List.filter (fun time => time_due time at_) times)).
Proof.
  intros Hz. induction times as [|time times IH]; [done|]. cbn [timeClaimsOf]. rewrite Hz.
  rewrite (isDue_local formatToParts timezone). cbn [rbind andb List.filter].
  replace (includes_day (parseDaysOfWeek (time_daysOfWeek time))
    (weekday_of_days (local_day formatToParts timezone at_))
    && (time_minuteOfDay time <=? local_minute formatToParts timezone at_)
    && (local_minute formatToParts timezone at_ <=? time_minuteOfDay time + CATCH_UP_GRACE_MINUTES)
    && true) with (time_due time at_) by (unfold time_due; by rewrite andb_true_r).
  destruct (time_due time at_); cbn [negb]; [|exact IH].
  rewrite (zoned_local formatToParts). cbn [rbind dateKey]. rewrite IH. done.
Qed.
End local_times.

(** The default jitter stays within the interval's bounds. *)
Lemma evenJitter_bounds random minS maxS :
  0 <= random < 2 ^ 53 -> minS <= maxS -> minS <= evenJitter random minS maxS <= maxS.
Proof.
  intros Hr Hle. unfold evenJitter. destruct (Z.leb_spec maxS minS) as [H|H]; [lia|].
  set (n := maxS - minS + 1). assert (Hn : 0 < n) by lia.
  assert (0 <= random * n / 2 ^ 53) by (apply Z.div_pos; nia).
  assert (random * n / 2 ^ 53 < n) by (apply Z.div_lt_upper_bound; nia). lia.
Qed.

(** ** The properties of the plans *)

(** an armed interval is a countdown that runs only while the bot runs:
    after any ticks that fired nothing, the next tick fires exactly when the
    bot runs and the time between ticks at which it was running adds up to
    the wait that was left. *)
Theorem interval_counts_running_time minS maxS row armed observed ts next
    (Hrow : armed_row minS maxS row armed observed)
    (Horder : in_order observed (ts ++ [next]))
    (Hquiet : Forall (fun claim => claim = None) (interval_run row ts).1) :
  intervalClaimOf (plan_at (interval_run row ts).2 next) <> None
  <-> tickRunning next = true /\ armed - observed <= running_ms observed (ts ++ [next]).
Proof.
  assert (Hts : in_order observed ts /\ List.last (map tickAt ts) observed <= tickAt next
    /\ running_ms observed (ts ++ [next]) = running_ms observed ts
       + (if tickRunning next then tickAt next - List.last (map tickAt ts) observed else 0)).
  { clear Hrow Hquiet armed. revert observed Horder. induction ts as [|t ts IH]; intros observed H.
    - apply in_order_cons in H as [H _]. simpl. split; [repeat constructor|]. lia.
    - apply in_order_cons in H as [Hle H]. destruct (IH _ H) as (H1 & H2 & H3).
      cbn [map app running_ms]. rewrite last_cons_default, H3. split; [|split; [done|lia]].
      constructor; [exact H1|]. by constructor. }
  destruct Hts as (Hord & Hnext & Hsum).
  pose proof (quiet_countdown minS maxS ts row armed observed Hrow Hord Hquiet) as Hlast.
  cbn zeta in Hlast.
  pose proof (interval_step_countdown minS maxS _ _ _ next Hlast Hnext) as Hstep.
  cbn zeta in Hstep. rewrite Hsum. revert Hstep. unfold interval_step.
  destruct (tickRunning next) eqn:Er; cbn [andb].
  - match goal with |- context [?a <=? ?b] => destruct (Z.leb_spec a b) end; intros [= -> _];
      (split; [intros _; split; [done|lia]|intros [_ ?]; try discriminate; lia]) || idtac;
      split; [done|intros [_ ?]; lia].
  - intros [= -> _]. split; [done|]. by intros [? _].
Qed.

Definition example_task : InstanceTaskRow :=
  MkTask "t1" "org" "i1" "greet" 3 true "UTC" true false true (Some 60) (Some 120)
    (Some 100000) (Some 40000) None None 5000.

Definition example_ticks : list IntervalTick :=
  [MkTick 70000 true (fun lo _ => lo); MkTick 100000 false (fun lo _ => lo)].

Lemma interval_counts_running_time_witness :
  intervalClaimOf (plan_at (interval_run example_task example_ticks).2
    (MkTick 130000 true (fun lo _ => lo))) <> None
  <-> true = true /\ 100000 - 40000
      <= running_ms 40000 (example_ticks ++ [MkTick 130000 true (fun lo _ => lo)]).
Proof.
  apply (interval_counts_running_time 60 120 example_task 100000 40000 example_ticks
    (MkTick 130000 true (fun lo _ => lo))).
  - done.
  - unfold in_order. simpl. repeat constructor; lia.
  - vm_compute. repeat constructor.
Defined.

(** over any ticks in order, every interval of at least a second fires
    under keys that are all different, so that no firing is mistaken for an
    earlier one; each key names an arm whose time had come. *)
Theorem interval_claims_are_distinct minS maxS row armed observed ts
    (Hmin : 1 <= minS) (Hrow : armed_row minS maxS row armed observed)
    (Harmed : 0 <= armed) (Horder : in_order observed ts)
    (Hticks : Forall (fun t => tickAt t <= LAST_INSTANT /\ minS <= tickJitter t minS maxS) ts) :
  NoDup (map claimKey (omap id (interval_run row ts).1))
  /\ Forall (fun claim => trigger claim = Interval) (omap id (interval_run row ts).1).
Proof.
  split.
  - destruct (interval_run_keys minS maxS ts row armed observed LAST_INSTANT Hmin Hrow Horder Hticks)
      as (arms & -> & Hsorted & Hbound).
    induction Hsorted as [|x arms Hs IH Hx]; simpl; [constructor|].
    apply Forall_cons in Hbound as [Hb Hbound]. apply NoDup_cons. split; [|by apply IH].
    rewrite list_elem_of_In, in_map_iff. intros (y & Hkey & Hy).
    rewrite Forall_forall in Hx, Hbound. rewrite <- list_elem_of_In in Hy.
    specialize (Hx y Hy). specialize (Hbound y Hy). cbv beta in Hbound.
    apply interval_key_inj in Hkey; lia.
  - clear. revert row. induction ts as [|t ts IH]; intros row; [constructor|].
    cbn [interval_run]. unfold interval_step at 1. cbn [fst].
    set (row' := match _ with Some a => _ | None => _ end). specialize (IH row').
    destruct (interval_run row' ts) as [cs row'']. cbn [fst] in *. simpl.
    assert (Hc : forall c, intervalClaimOf (plan_at row t) = Some c -> trigger c = Interval).
    { intros c. unfold plan_at, intervalPlan. repeat case_match; simpl; intros [= <-]; done. }
    destruct (intervalClaimOf (plan_at row t)) as [c|]; simpl; [|exact IH].
    constructor; [by apply Hc|exact IH].
Qed.

Lemma interval_claims_are_distinct_witness :
  let ts := example_ticks ++ [MkTick 130000 true (fun lo _ => lo); MkTick 190000 true (fun lo _ => lo)] in
  length (omap id (interval_run example_task ts).1) = 2%nat
  /\ NoDup (map claimKey (omap id (interval_run example_task ts).1))
  /\ Forall (fun claim => trigger claim = Interval) (omap id (interval_run example_task ts).1).
Proof.
  split; [vm_compute; reflexivity|].
  apply (interval_claims_are_distinct 60 120 example_task 100000 40000).
  - lia.
  - done.
  - lia.
  - unfold in_order. simpl. repeat constructor; lia.
  - unfold LAST_INSTANT. repeat constructor; simpl; lia.
Defined.

(** in a zone with a local calendar, a task claims its times exactly
    within their catch-up windows, and two claims carry the same key exactly
    when they are for the same time of the same local day. *)
Theorem time_claims_name_the_occasion formatToParts timezone
    {zone : LocalZone formatToParts timezone} definition at_
    (Hzone : task_timezone (def_row definition) = timezone) :
  timeClaims formatToParts definition at_
  = Ok (map (fun time => MkClaim Time
               (time_key formatToParts timezone (local_day formatToParts timezone at_)
                  (time_minuteOfDay time)))
          (List.filter (fun time => time_due formatToParts timezone time at_) (def_times definition)))
  /\ forall at1 at2 time1 time2,
       time_key formatToParts timezone (local_day formatToParts timezone at1) (time_minuteOfDay time1)
       = time_key formatToParts timezone (local_day formatToParts timezone at2) (time_minuteOfDay time2)
       <-> local_day formatToParts timezone at1 = local_day formatToParts timezone at2
           /\ time_minuteOfDay time1 = time_minuteOfDay time2.
Proof.
  split; [by apply timeClaims_local|]. intros at1 at2 time1 time2.
  split; [apply time_key_inj|]. by intros [-> ->].
Qed.

Lemma time_claims_name_the_occasion_witness :
  let definition := MkDefinition example_task [] [MkTimeRow "m1" "org" "t1" "*" 30] in
  timeClaims utcParts definition 2000000
  = Ok (map (fun time => MkClaim Time
               (time_key utcParts "UTC" (local_day utcParts "UTC" 2000000) (time_minuteOfDay time)))
          (List.filter (fun time => time_due utcParts "UTC" time 2000000) (def_times definition)))
  /\ timeClaims utcParts definition 2000000 = Ok [MkClaim Time "time:1970-01-01:30"].
Proof.
  cbv zeta. split; [|vm_compute; reflexivity].
  apply (time_claims_name_the_occasion utcParts "UTC"
    (MkDefinition example_task [] [MkTimeRow "m1" "org" "t1" "*" 30]) 2000000 eq_refl).
Defined.

(** the signals that make a task run are the newest login and the newest
    respawn it was told of, and only when they came after the task was
    created: a claim is for one of those two, a first login is claimed as
    such only on the first join of a process, and each kind of signal the
    task wants is claimed. *)
Theorem signal_claims_are_the_newest row signals :
  (forall claim, In claim (signalClaims row signals) ->
     exists s, In s signals /\ task_createdAt row < occurredAt s
     /\ (forall x, In x signals -> signal_kind x = signal_kind s -> occurredAt x <= occurredAt s)
     /\ match trigger claim with
        | FirstLogin => signal_kind s = SignalLogin /\ onFirstLogin row = true
                        /\ firstForProcess s = true /\ claimKey claim = "login:" +:+ identity s
        | Login => signal_kind s = SignalLogin /\ onLogin row = true
                   /\ claimKey claim = "login:" +:+ identity s
        | Respawn => signal_kind s = SignalRespawn /\ onRespawn row = true
                     /\ claimKey claim = "respawn:" +:+ identity s
        | _ => False
        end)
  /\ (onLogin row = true -> (exists s, In s signals /\ signal_kind s = SignalLogin
        /\ task_createdAt row < occurredAt s) ->
      exists claim, In claim (signalClaims row signals) /\ In (trigger claim) [FirstLogin; Login])
  /\ (onRespawn row = true -> (exists s, In s signals /\ signal_kind s = SignalRespawn
        /\ task_createdAt row < occurredAt s) ->
      exists claim, In claim (signalClaims row signals) /\ trigger claim = Respawn).
Proof.
  pose proof (latestOf_spec SignalLogin signals) as Hl.
  pose proof (latestOf_spec SignalRespawn signals) as Hr.
  unfold signalClaims. split; [|split].
  - intros claim Hc. apply in_app_iff in Hc as [Hc|Hc].
    + destruct (latestOf signals SignalLogin) as [s|]; [|done].
      destruct (Z.ltb_spec (task_createdAt row) (occurredAt s)) as [Ht|]; [|done].
      destruct (_ || _) eqn:Ew; [|done]. destruct Hc as [<-|[]]. destruct Hl as (Hin & Hk & Hmax).
      exists s. split; [done|]. split; [done|]. rewrite Hk. split; [done|]. simpl.
      destruct (onFirstLogin row), (firstForProcess s); simpl in *; rewrite ?orb_false_r in Ew; done.
    + destruct (latestOf signals SignalRespawn) as [s|]; [|done].
      destruct (_ && _) eqn:Ew; [|done]. destruct Hc as [<-|[]]. destruct Hr as (Hin & Hk & Hmax).
      tests. exists s. split; [done|]. split; [done|]. rewrite Hk. split; [done|]. by simpl.
  - intros Hon (x & Hx & Hxk & Hxt). destruct (latestOf signals SignalLogin) as [s|]; [|by destruct (Hl x Hx)].
    destruct Hl as (_ & _ & Hmax). specialize (Hmax x Hx Hxk).
    destruct (Z.ltb_spec (task_createdAt row) (occurredAt s)); [|lia]. rewrite Hon. simpl.
    eexists. split; [by left|]. simpl. destruct (_ && _); auto.
  - intros Hon (x & Hx & Hxk & Hxt). destruct (latestOf signals SignalRespawn) as [s|]; [|by destruct (Hr x Hx)].
    destruct Hr as (_ & _ & Hmax). specialize (Hmax x Hx Hxk).
    rewrite Hon. destruct (Z.ltb_spec (task_createdAt row) (occurredAt s)); [|lia].
    eexists. split; [apply in_app_iff; right; by left|]. done.
Qed.
