(* ===== verification/TaskStore.v ===== *)
(** The tables of the tasks.

    packages/core/src/instance/task.repository.ts: one definition per
    operation of [createTaskRepository], each a statement on the tables of
    migration 0038.  Ids drawn with [nanoid()] are arguments; a list of
    inserted rows draws [newId 0], [newId 1], ... *)

From S2P Require Import Prelude Tables Calendar TaskPlans.

Inductive TaskRunOutcome := running | sent | failed | abandoned.

#[global] Instance TaskRunOutcome_eq_dec : EqDecision TaskRunOutcome.
Proof. solve_decision. Defined.

Inductive SignalSource := journalSource | liveEventsSource.

#[global] Instance SignalSource_eq_dec : EqDecision SignalSource.
Proof. solve_decision. Defined.

Record InstanceTaskRunRow := MkTaskRun {
  run_id : string; run_organizationId : string; run_taskId : string; run_trigger : TaskTrigger;
  run_claimKey : string; outcome : TaskRunOutcome; startedAt : Z; finishedAt : option Z;
  stepsSent : Z; run_error : option string }.

Record InstanceSignalCursorRow := MkSignalCursor {
  cur_id : string; cur_organizationId : string; cur_instanceId : string;
  cur_source : SignalSource; cur_cursor : string; lastObservedAt : Z }.

Record TaskTables := MkTaskTables {
  tasks : list InstanceTaskRow; steps : list InstanceTaskStepRow;
  times : list InstanceTaskTimeRow; runs : list InstanceTaskRunRow;
  signals : list InstanceSignalRow; cursors : list InstanceSignalCursorRow }.

Definition with_tasks (x : list InstanceTaskRow) (t : TaskTables) : TaskTables :=
  MkTaskTables x (steps t) (times t) (runs t) (signals t) (cursors t).
Definition with_steps (x : list InstanceTaskStepRow) (t : TaskTables) : TaskTables :=
  MkTaskTables (tasks t) x (times t) (runs t) (signals t) (cursors t).
Definition with_times (x : list InstanceTaskTimeRow) (t : TaskTables) : TaskTables :=
  MkTaskTables (tasks t) (steps t) x (runs t) (signals t) (cursors t).
Definition with_runs (x : list InstanceTaskRunRow) (t : TaskTables) : TaskTables :=
  MkTaskTables (tasks t) (steps t) (times t) x (signals t) (cursors t).
Definition with_signals (x : list InstanceSignalRow) (t : TaskTables) : TaskTables :=
  MkTaskTables (tasks t) (steps t) (times t) (runs t) x (cursors t).
Definition with_cursors (x : list InstanceSignalCursorRow) (t : TaskTables) : TaskTables :=
  MkTaskTables (tasks t) (steps t) (times t) (runs t) (signals t) x.

Record TaskValues := MkTaskValues {
  val_instanceId : string; val_name : string; val_stepDelaySeconds : Z; val_enabled : bool;
  val_timezone : string; val_onFirstLogin : bool; val_onLogin : bool; val_onRespawn : bool;
  val_intervalMinSeconds : option Z; val_intervalMaxSeconds : option Z }.

Record TaskTimeValues := MkTimeValues { tv_daysOfWeek : string; tv_minuteOfDay : Z }.

Record TaskParts := MkParts {
  parts_task : InstanceTaskRow; parts_steps : list InstanceTaskStepRow;
  parts_times : list InstanceTaskTimeRow; parts_runs : list InstanceTaskRunRow }.

Record SignalValues := MkSignalValues {
  sv_instanceId : string; sv_kind : SignalKind; sv_identity : string; sv_process : option string;
  sv_firstForProcess : bool; sv_occurredAt : Z; sv_observedAt : Z }.

(** ** Operations *)

Definition owned_task (organizationId id : string) (row : InstanceTaskRow) : bool :=
  (task_id row ≡? id) && (task_organizationId row ≡? organizationId).

Definition insert (organizationId id : string) (createdAt : Z) (values : TaskValues)
    (t : TaskTables) : InstanceTaskRow * TaskTables :=
  let row :=
    MkTask id organizationId (val_instanceId values) (val_name values)
      (val_stepDelaySeconds values) (val_enabled values) (val_timezone values)
      (val_onFirstLogin values) (val_onLogin values) (val_onRespawn values)
      (val_intervalMinSeconds values) (val_intervalMaxSeconds values) None None None None
      createdAt in
  (row, with_tasks (tasks t ++ [row]) t).

Definition update (organizationId id : string) (values : TaskValues) (t : TaskTables)
    : option InstanceTaskRow * TaskTables :=
  let p row :=
    (task_id row ≡? id) && (task_instanceId row ≡? val_instanceId values)
    && (task_organizationId row ≡? organizationId) in
  let f row :=
    MkTask (task_id row) (task_organizationId row) (task_instanceId row) (val_name values)
      (val_stepDelaySeconds values) (val_enabled values) (val_timezone values)
      (val_onFirstLogin values) (val_onLogin values) (val_onRespawn values)
      (val_intervalMinSeconds values) (val_intervalMaxSeconds values) None None
      (task_lastRunAt row) (task_lastRunError row) (task_createdAt row) in
  (head (updated p f (tasks t)), with_tasks (update_where p f (tasks t)) t).

Definition replaceSteps (newId : nat -> string) (organizationId taskId : string)
    (commands : list string) (t : TaskTables) : unit * TaskTables :=
  let kept := delete_where (fun row => (step_taskId row ≡? taskId)
                            && (step_organizationId row ≡? organizationId)) (steps t) in
  (tt, with_steps
         (kept ++ imap (fun i command =>
                    MkStep (newId i) organizationId taskId (Z.of_nat i) command) commands) t).

Definition replaceTimes (newId : nat -> string) (organizationId taskId : string)
    (values : list TaskTimeValues) (t : TaskTables) : unit * TaskTables :=
  let kept := delete_where (fun row => (time_taskId row ≡? taskId)
                            && (time_organizationId row ≡? organizationId)) (times t) in
  (tt, with_times
         (kept ++ imap (fun i time =>
                    MkTimeRow (newId i) organizationId taskId (tv_daysOfWeek time)
                      (tv_minuteOfDay time)) values) t).

(** The rows of the listed tasks; [scope] is [None] for the scheduler, which
    reads every organization. *)
Definition partsFor (scope : option string) (selected : list InstanceTaskRow) (runsSince : Z)
    (t : TaskTables) : list TaskParts :=
  if (length selected =? 0)%nat then []
  else
    let ids := map task_id selected in
    let in_scope organizationId :=
      match scope with None => true | Some o => organizationId ≡? o end in
    let stepRows :=
      order_by (fun a b => position a <=? position b)
        (select (fun row => bool_decide (step_taskId row ∈ ids) && in_scope (step_organizationId row))
           (steps t)) in
    let timeRows :=
      order_by (fun a b => time_minuteOfDay a <=? time_minuteOfDay b)
        (select (fun row => bool_decide (time_taskId row ∈ ids) && in_scope (time_organizationId row))
           (times t)) in
    let runRows :=
      order_by (fun a b => startedAt b <=? startedAt a)
        (select (fun row => bool_decide (run_taskId row ∈ ids) && (runsSince <=? startedAt row)
                            && in_scope (run_organizationId row)) (runs t)) in
    map (fun task =>
           MkParts task
             (List.filter (fun row => step_taskId row ≡? task_id task) stepRows)
             (List.filter (fun row => time_taskId row ≡? task_id task) timeRows)
             (List.filter (fun row => run_taskId row ≡? task_id task) runRows)) selected.

Definition by_creation (rows : list InstanceTaskRow) : list InstanceTaskRow :=
  order_by (fun a b => task_createdAt a <=? task_createdAt b) rows.

Definition listForInstance (organizationId instanceId : string) (runsSince : Z) (t : TaskTables)
    : list TaskParts :=
  partsFor (Some organizationId)
    (by_creation (select (fun row => (task_instanceId row ≡? instanceId)
                                     && (task_organizationId row ≡? organizationId)) (tasks t)))
    runsSince t.

Definition findById (organizationId id : string) (t : TaskTables) : option InstanceTaskRow :=
  select_first (owned_task organizationId id) (tasks t).

(** The foreign keys of migration 0038 delete a task's rows with it. *)
Definition of_task (organizationId id organizationId' taskId : string) : bool :=
  (taskId ≡? id) && (organizationId' ≡? organizationId).

Definition deleteReturning (organizationId id : string) (t : TaskTables)
    : option InstanceTaskRow * TaskTables :=
  match findById organizationId id t with
  | None => (None, t)
  | Some row =>
      (Some row,
       MkTaskTables (delete_where (owned_task organizationId id) (tasks t))
         (delete_where (fun x => of_task organizationId id (step_organizationId x) (step_taskId x))
            (steps t))
         (delete_where (fun x => of_task organizationId id (time_organizationId x) (time_taskId x))
            (times t))
         (delete_where (fun x => of_task organizationId id (run_organizationId x) (run_taskId x))
            (runs t))
         (signals t) (cursors t))
  end.

Definition listEnabledAcrossOrganizations (runsSince : Z) (t : TaskTables) : list TaskParts :=
  partsFor None (by_creation (select task_enabled (tasks t))) runsSince t.

Definition stepsFor (organizationId taskId : string) (t : TaskTables) : list InstanceTaskStepRow :=
  order_by (fun a b => position a <=? position b)
    (select (fun row => (step_taskId row ≡? taskId) && (step_organizationId row ≡? organizationId))
       (steps t)).

Definition armInterval (organizationId id : string) (a : IntervalArm) (t : TaskTables)
    : unit * TaskTables :=
  (tt, with_tasks (update_where (owned_task organizationId id) (with_arm a) (tasks t)) t).

Definition same_claim (organizationId taskId key : string) (row : InstanceTaskRunRow) : bool :=
  (run_organizationId row ≡? organizationId) && (run_taskId row ≡? taskId)
  && (run_claimKey row ≡? key).

Definition claimRun (newId organizationId taskId : string) (trigger : TaskTrigger)
    (claimKey : string) (started : Z) (t : TaskTables) : option string * TaskTables :=
  let (row, rows) :=
    insert_or_nothing (same_claim organizationId taskId claimKey)
      (MkTaskRun newId organizationId taskId trigger claimKey running started None 0 None)
      (runs t) in
  (option_map run_id row, with_runs rows t).

Definition owned_run (organizationId runId : string) (row : InstanceTaskRunRow) : bool :=
  (run_id row ≡? runId) && (run_organizationId row ≡? organizationId).

Definition finishRun (organizationId runId : string) (result : TaskRunOutcome) (sentSteps : Z)
    (error : option string) (finished : Z) (t : TaskTables) : unit * TaskTables :=
  (tt, with_runs
         (update_where (owned_run organizationId runId)
            (fun row => MkTaskRun (run_id row) (run_organizationId row) (run_taskId row)
                          (run_trigger row) (run_claimKey row) result (startedAt row)
                          (Some finished) sentSteps error) (runs t)) t).

Definition recordTaskOutcome (organizationId taskId : string) (ranAt : Z) (error : option string)
    (t : TaskTables) : unit * TaskTables :=
  (tt, with_tasks
         (update_where (owned_task organizationId taskId)
            (fun row => MkTask (task_id row) (task_organizationId row) (task_instanceId row)
                          (task_name row) (stepDelaySeconds row) (task_enabled row)
                          (task_timezone row) (onFirstLogin row) (onLogin row) (onRespawn row)
                          (intervalMinSeconds row) (intervalMaxSeconds row)
                          (intervalNextRunAt row) (intervalObservedAt row) (Some ranAt) error
                          (task_createdAt row)) (tasks t)) t).

Definition stale (startedBefore : Z) (row : InstanceTaskRunRow) : bool :=
  (outcome row ≡? running) && (startedAt row <? startedBefore).

Definition abandonStaleRuns (startedBefore : Z) (reason : string) (t : TaskTables)
    : nat * TaskTables :=
  (affected (stale startedBefore) (runs t),
   with_runs
     (update_where (stale startedBefore)
        (fun row => MkTaskRun (run_id row) (run_organizationId row) (run_taskId row)
                      (run_trigger row) (run_claimKey row) abandoned (startedAt row)
                      (Some startedBefore) (stepsSent row) (Some reason)) (runs t)) t).

Definition prunable (startedBefore : Z) (row : InstanceTaskRunRow) : bool :=
  (startedAt row <? startedBefore) && negb (outcome row ≡? running).

Definition pruneRuns (startedBefore : Z) (t : TaskTables) : nat * TaskTables :=
  (affected (prunable startedBefore) (runs t),
   with_runs (delete_where (prunable startedBefore) (runs t)) t).

Definition recordSignal (newId organizationId : string) (values : SignalValues) (t : TaskTables)
    : bool * TaskTables :=
  let (row, rows) :=
    insert_or_nothing
      (fun row => (signal_organizationId row ≡? organizationId)
                  && (signal_instanceId row ≡? sv_instanceId values)
                  && (signal_kind row ≡? sv_kind values) && (identity row ≡? sv_identity values))
      (MkSignal newId organizationId (sv_instanceId values) (sv_kind values) (sv_identity values)
         (sv_process values) (sv_firstForProcess values) (sv_occurredAt values)
         (sv_observedAt values)) (signals t) in
  (bool_decide (is_Some row), with_signals rows t).

Definition hasJoinedAs (organizationId instanceId proc : string) (t : TaskTables) : bool :=
  bool_decide (is_Some (select_first
    (fun row => (signal_organizationId row ≡? organizationId)
                && (signal_instanceId row ≡? instanceId) && (signal_kind row ≡? SignalLogin)
                && (process row ≡? Some proc)) (signals t))).

Definition signalsSince (organizationId instanceId : string) (since : Z) (t : TaskTables)
    : list InstanceSignalRow :=
  order_by (fun a b => occurredAt b <=? occurredAt a)
    (select (fun row => (signal_organizationId row ≡? organizationId)
                        && (signal_instanceId row ≡? instanceId)
                        && (since <=? occurredAt row)) (signals t)).

Definition pruneSignals (occurredBefore : Z) (t : TaskTables) : nat * TaskTables :=
  (affected (fun row => occurredAt row <? occurredBefore) (signals t),
   with_signals (delete_where (fun row => occurredAt row <? occurredBefore) (signals t)) t).

Definition of_source (organizationId instanceId : string) (source : SignalSource)
    (row : InstanceSignalCursorRow) : bool :=
  (cur_organizationId row ≡? organizationId) && (cur_instanceId row ≡? instanceId)
  && (cur_source row ≡? source).

Definition readSignalCursor (organizationId instanceId : string) (source : SignalSource)
    (t : TaskTables) : option string :=
  option_map cur_cursor (select_first (of_source organizationId instanceId source) (cursors t)).

Definition writeSignalCursor (newId organizationId instanceId : string) (source : SignalSource)
    (cursor : string) (observed : Z) (t : TaskTables) : unit * TaskTables :=
  (tt, with_cursors
         (upsert (of_source organizationId instanceId source)
            (fun row => MkSignalCursor (cur_id row) (cur_organizationId row) (cur_instanceId row)
                          (cur_source row) cursor observed)
            (MkSignalCursor newId organizationId instanceId source cursor observed)
            (cursors t)).2 t).

(** ** The unique indexes *)

Definition claim_key (row : InstanceTaskRunRow) : option (string * string * string) :=
  Some (run_organizationId row, run_taskId row, run_claimKey row).

Definition signal_key (row : InstanceSignalRow) : option (string * string * SignalKind * string) :=
  Some (signal_organizationId row, signal_instanceId row, signal_kind row, identity row).

Definition source_key (row : InstanceSignalCursorRow) : option (string * string * SignalSource) :=
  Some (cur_organizationId row, cur_instanceId row, cur_source row).

Definition indexed (t : TaskTables) : Prop :=
  unique_on claim_key (runs t) /\ unique_on signal_key (signals t) /\ unique_on source_key (cursors t).

(** Every operation that changes a table, as one step. *)
Inductive store_op :=
  | OpInsert (organizationId id : string) (createdAt : Z) (values : TaskValues)
  | OpUpdate (organizationId id : string) (values : TaskValues)
  | OpReplaceSteps (newId : nat -> string) (organizationId taskId : string) (commands : list string)
  | OpReplaceTimes (newId : nat -> string) (organizationId taskId : string)
      (values : list TaskTimeValues)
  | OpDelete (organizationId id : string)
  | OpArm (organizationId id : string) (a : IntervalArm)
  | OpClaim (newId organizationId taskId : string) (trigger : TaskTrigger) (key : string) (started : Z)
  | OpFinish (organizationId runId : string) (result : TaskRunOutcome) (sentSteps : Z)
      (error : option string) (finished : Z)
  | OpOutcome (organizationId taskId : string) (ranAt : Z) (error : option string)
  | OpAbandon (startedBefore : Z) (reason : string)
  | OpPruneRuns (startedBefore : Z)
  | OpSignal (newId organizationId : string) (values : SignalValues)
  | OpPruneSignals (occurredBefore : Z)
  | OpCursor (newId organizationId instanceId : string) (source : SignalSource) (cursor : string)
      (observed : Z).

Definition apply_op (op : store_op) (t : TaskTables) : TaskTables :=
  match op with
  | OpInsert o id c v => (insert o id c v t).2
  | OpUpdate o id v => (update o id v t).2
  | OpReplaceSteps n o id cs => (replaceSteps n o id cs t).2
  | OpReplaceTimes n o id vs => (replaceTimes n o id vs t).2
  | OpDelete o id => (deleteReturning o id t).2
  | OpArm o id a => (armInterval o id a t).2
  | OpClaim n o id tr k s => (claimRun n o id tr k s t).2
  | OpFinish o id r s e f => (finishRun o id r s e f t).2
  | OpOutcome o id r e => (recordTaskOutcome o id r e t).2
  | OpAbandon s r => (abandonStaleRuns s r t).2
  | OpPruneRuns s => (pruneRuns s t).2
  | OpSignal n o v => (recordSignal n o v t).2
  | OpPruneSignals o => (pruneSignals o t).2
  | OpCursor n o i s c z => (writeSignalCursor n o i s c z t).2
  end.

Definition apply_ops (ops : list store_op) (t : TaskTables) : TaskTables :=
  fold_left (fun t op => apply_op op t) ops t.

Lemma claimRun_tables newId o id tr key started t :
  (claimRun newId o id tr key started t).2
  = with_runs (insert_or_nothing (same_claim o id key)
       (MkTaskRun newId o id tr key running started None 0 None) (runs t)).2 t.
Proof. unfold claimRun. by destruct (insert_or_nothing _ _ _). Qed.

Lemma recordSignal_tables newId o values t :
  (recordSignal newId o values t).2
  = with_signals (insert_or_nothing
       (fun row => (signal_organizationId row ≡? o)
                   && (signal_instanceId row ≡? sv_instanceId values)
                   && (signal_kind row ≡? sv_kind values) && (identity row ≡? sv_identity values))
       (MkSignal newId o (sv_instanceId values) (sv_kind values) (sv_identity values)
          (sv_process values) (sv_firstForProcess values) (sv_occurredAt values)
          (sv_observedAt values)) (signals t)).2 t.
Proof. unfold recordSignal. by destruct (insert_or_nothing _ _ _). Qed.

Lemma same_claim_spec o id key row :
  same_claim o id key row = true <-> claim_key row = Some (o, id, key).
Proof.
  unfold same_claim, claim_key. rewrite !andb_true_iff, !bool_decide_eq_true.
  split; [intros [[-> ->] ->]; done|by intros [= -> -> ->]].
Qed.

Lemma unique_on_keep {R K} (key : R -> option K) p f (t : list R) :
  (forall r, key (f r) = key r) -> unique_on key t -> unique_on key (update_where p f t).
Proof. intros H. apply unique_on_update. intros r _ _. left. apply H. Qed.

(** ** Indexes and claims are kept *)

Lemma apply_op_indexed op t : indexed t -> indexed (apply_op op t).
Proof.
  intros (Hr & Hs & Hc). destruct op; simpl; unfold indexed; simpl; try done.
  - unfold deleteReturning. destruct (findById _ _ _); [|done]. simpl. auto with mcc.
  - rewrite claimRun_tables. simpl. split; [|done]. apply unique_on_insert; [|done]. intros r _ Hk _. by apply same_claim_spec.
  - split; [|done]. by apply unique_on_keep.
  - split; [|done]. by apply unique_on_keep.
  - auto with mcc.
  - rewrite recordSignal_tables. simpl. split; [done|]. split; [|done]. apply unique_on_insert; [|done]. intros r _ [= -> -> -> ->] _.
    by rewrite !bool_decide_eq_true_2.
  - auto with mcc.
  - split; [done|]. split; [done|]. unfold upsert.
    destruct (existsb _ _) eqn:E; simpl; [by apply unique_on_keep|].
    apply unique_on_snoc; [|done]. intros k r [= <-] Hr' [= Ho Hi Hsrc].
    rewrite existsb_false in E. specialize (E r Hr'). unfold of_source in E.
    rewrite Ho, Hi, Hsrc in E. by rewrite !bool_decide_eq_true_2 in E.
Qed.

(** A claim on record: its run row, whatever became of the run. *)
Definition claimed (organizationId taskId key : string) (started : Z) (t : TaskTables) : Prop :=
  exists row, In row (runs t) /\ claim_key row = Some (organizationId, taskId, key)
              /\ startedAt row = started.

(** The steps that keep it: anything but deleting the task or pruning runs
    as old as it. *)
Definition keeps_claim (organizationId taskId : string) (started : Z) (op : store_op) : Prop :=
  match op with
  | OpDelete o id => ~ (o = organizationId /\ id = taskId)
  | OpPruneRuns startedBefore => startedBefore <= started
  | _ => True
  end.

Lemma claimed_update o id key started p f t :
  (forall r, claim_key (f r) = claim_key r /\ startedAt (f r) = startedAt r) ->
  claimed o id key started t ->
  claimed o id key started (with_runs (update_where p f (runs t)) t).
Proof.
  intros Hf (row & Hin & Hk & Hs). exists (if p row then f row else row).
  split; [by apply in_update_where; exists row|].
  destruct (p row); [|done]. destruct (Hf row) as [H1 H2]. by rewrite H1, H2.
Qed.

Lemma apply_op_claimed o id key started op t :
  keeps_claim o id started op -> claimed o id key started t ->
  claimed o id key started (apply_op op t).
Proof.
  intros Hop Hc. destruct op; simpl in *; try exact Hc.
  - unfold deleteReturning. destruct (findById _ _ _); [|done]. destruct Hc as (row & Hin & Hk & Hs).
    exists row. split; [|done]. apply in_delete_where. split; [done|]. unfold of_task.
    injection Hk as -> -> _. apply andb_false_iff.
    destruct (decide (id = id0)) as [->|]; [right|left]; apply bool_decide_eq_false; [|done].
    intros ->. by apply Hop.
  - rewrite claimRun_tables. destruct Hc as (row & Hin & Hk & Hs). exists row.
    split; [|done]. unfold insert_or_nothing. destruct (existsb _ _); [done|].
    apply in_app_iff. by left.
  - by apply claimed_update.
  - by apply claimed_update.
  - destruct Hc as (row & Hin & Hk & Hs). exists row. split; [|done]. apply in_delete_where.
    split; [done|]. unfold prunable. rewrite Hs. apply andb_false_iff. left. apply Z.ltb_ge. lia.
  - by rewrite recordSignal_tables.
Qed.

Lemma claimRun_refused o id key started t newId tr at_ :
  claimed o id key started t -> claimRun newId o id tr key at_ t = (None, t).
Proof.
  intros (row & Hin & Hk & _). unfold claimRun, insert_or_nothing.
  replace (existsb (same_claim o id key) (runs t)) with true; [by destruct t|].
  symmetry. apply existsb_exists. exists row. split; [done|]. by apply same_claim_spec.
Qed.

Lemma claimRun_claims newId o id tr key started t runId :
  (claimRun newId o id tr key started t).1 = Some runId ->
  runId = newId /\ claimed o id key started (claimRun newId o id tr key started t).2
  /\ forall row, In row (runs t) -> claim_key row <> Some (o, id, key).
Proof.
  unfold claimRun.
  destruct (insert_or_nothing _ _ _) as [[row|] rows] eqn:E; [|done].
  apply insert_or_nothing_some in E as (-> & -> & Hnone). intros [= <-]. simpl.
  split; [done|]. split.
  - eexists. split; [apply in_app_iff; right; by left|]. done.
  - intros r Hr Hk. specialize (Hnone r Hr). apply same_claim_spec in Hk. congruence.
Qed.

(** every operation of the store, in any order, keeps the unique indexes
    its conflict clauses rely on: one run per claim key of a task, one
    signal per identity, one cursor per source. *)
Theorem store_keeps_indexes ops t (Hindexed : indexed t) : indexed (apply_ops ops t).
Proof.
  revert t Hindexed. induction ops as [|op ops IH]; intros t H; [done|].
  apply IH. by apply apply_op_indexed.
Qed.

Definition no_tables : TaskTables := MkTaskTables [] [] [] [] [] [].

Lemma store_keeps_indexes_witness :
  indexed (apply_ops [OpClaim "r1" "org" "t1" Login "login:1" 10; OpClaim "r2" "org" "t1" Login "login:1" 20]
             no_tables).
Proof. apply store_keeps_indexes. repeat split; apply unique_on_nil. Defined.

(** C13: a claim is granted once: after [claimRun] answers with a run id, no
    later [claimRun] for the same task and key is granted, whatever
    operations ran in between, until the run's row is pruned or its task
    deleted; the refused claim changes nothing. *)
Theorem claim_is_granted_once newId organizationId taskId trig key started t runId ops
    newId' trig' started'
    (Hgranted : (claimRun newId organizationId taskId trig key started t).1 = Some runId)
    (Hkept : Forall (keeps_claim organizationId taskId started) ops) :
  let t' := apply_ops ops (claimRun newId organizationId taskId trig key started t).2 in
  claimRun newId' organizationId taskId trig' key started' t' = (None, t').
Proof.
  cbv zeta. apply claimRun_claims in Hgranted as (_ & Hc & _).
  apply (claimRun_refused _ _ _ started). revert Hc.
  generalize (claimRun newId organizationId taskId trig key started t).2. clear t.
  induction Hkept as [|op ops Hop _ IH]; intros t Hc; [done|]. apply IH.
  by apply apply_op_claimed.
Qed.

Lemma claim_is_granted_once_witness :
  let t' := apply_ops [OpFinish "org" "r1" failed 0 (Some "offline") 20; OpPruneRuns 10]
              (claimRun "r1" "org" "t1" Login "login:1" 10 no_tables).2 in
  claimRun "r2" "org" "t1" Login "login:1" 30 t' = (None, t').
Proof.
  apply (claim_is_granted_once "r1" "org" "t1" Login "login:1" 10 no_tables "r1"
    [OpFinish "org" "r1" failed 0 (Some "offline") 20; OpPruneRuns 10] "r2" Login 30).
  - vm_compute. reflexivity.
  - repeat constructor; simpl; lia.
Defined.

(** ** Steps are read as they were saved *)

Lemma imap_positions (newId : nat -> string) o id commands n :
  StronglySorted (fun a b => (position a <=? position b) = true)
    (imap (fun i command => MkStep (newId (n + i)%nat) o id (Z.of_nat (n + i)) command) commands).
Proof.
  revert n. induction commands as [|c cs IH]; intros n; [constructor|]. rewrite imap_cons.
  constructor.
  - eapply eq_ind; [apply (IH (S n))|]. apply imap_ext. intros i x _. simpl.
    by rewrite Nat.add_succ_r.
  - apply Forall_forall. intros x Hx. apply elem_of_lookup_imap in Hx as (i & y & -> & _). simpl.
    apply Z.leb_le. lia.
Qed.

(** the steps of a task are read back as the list they were saved as, in
    order and numbered from zero, and saving them leaves every other task's
    steps alone. *)
Theorem steps_read_as_saved newId organizationId taskId commands t :
  map (fun row => (position row, step_command row))
    (stepsFor organizationId taskId (replaceSteps newId organizationId taskId commands t).2)
  = imap (fun i command => (Z.of_nat i, command)) commands
  /\ forall organizationId' taskId',
       (organizationId', taskId') <> (organizationId, taskId) ->
       stepsFor organizationId' taskId' (replaceSteps newId organizationId taskId commands t).2
       = stepsFor organizationId' taskId' t.
Proof.
  unfold stepsFor, replaceSteps. cbn [snd with_steps steps]. split.
  - rewrite select_app.
    replace (select _ (delete_where _ (steps t))) with (@nil InstanceTaskStepRow).
    2:{ symmetry. apply filter_none. intros r Hr. apply in_delete_where in Hr as [_ Hr]. exact Hr. }
    rewrite app_nil_l. unfold select. rewrite filter_all.
    2:{ intros r Hr. apply list_elem_of_In in Hr. apply elem_of_lookup_imap in Hr as (i & y & -> & _).
        simpl. by rewrite !bool_decide_eq_true_2. }
    rewrite order_by_id; [|apply (imap_positions newId organizationId taskId commands 0)].
    etransitivity; [apply fmap_imap|done].
  - intros o' id' Hne. rewrite select_app.
    rewrite select_delete_other.
    2:{ intros r Hr. cbv beta in *. tests. apply andb_false_iff.
        destruct (decide (step_taskId r = id')) as [<-|]; [right|left]; apply bool_decide_eq_false;
          [|done]. intros Ho. apply Hne. congruence. }
    match goal with |- order_by _ (_ ++ ?added) = _ => replace added with (@nil InstanceTaskStepRow) end;
      [by rewrite app_nil_r|]. symmetry. apply filter_none.
    intros r Hr. apply list_elem_of_In in Hr. apply elem_of_lookup_imap in Hr as (i & y & -> & _).
    simpl. apply andb_false_iff.
    destruct (decide (taskId = id')) as [->|]; [right|left]; apply bool_decide_eq_false; [|done].
    intros Ho. apply Hne. congruence.
Qed.
