(* ===== verification/TaskScheduler.v ===== *)
(** The task scheduler.

    packages/core/src/instance/task-run.ts sends the steps of one run;
    packages/core/src/instance/task-scheduler.ts is the tick that reads the
    enabled tasks, groups them by bot, claims what is due and carries it out.
    [task_deps] is the wiring of apps/server/src/bootstrap.ts over the tables
    of [TaskStore]. *)

From S2P Require Import Prelude Tables Dates Calendar Due TaskPlans TaskStore.

(** ** Sending the steps of a run *)

Record TaskStepRunner (W : Type) := MkRunner {
  send_command : string -> M W unit;
  wait_ms : Z -> M W unit;
  describe_step_failure : thrown -> string }.
Arguments send_command {W}. Arguments wait_ms {W}. Arguments describe_step_failure {W}.

Definition STEP_NOT_SENT : string := "The step could not be sent".

Section steps.
Context {W : Type} (runner : TaskStepRunner W).

Definition step_failed (index total : nat) (stepsSent : Z) (error : thrown) : thrown :=
  ThrownError (InstanceTaskStepsFailedError stepsSent)
    ("Step " +:+ decimal (Z.of_nat index + 1) +:+ " of " +:+ decimal (Z.of_nat total)
       +:+ " failed and the rest were not sent: "
       +:+ describe_step_failure runner (as_failure STEP_NOT_SENT error)).

Fixpoint send_from (total index : nat) (rest : list InstanceTaskStepRow) (delaySeconds sent : Z)
    : M W Z :=
  match rest with
  | [] => ret sent
  | step :: rest' =>
      (if (0 <? index)%nat && (0 <? delaySeconds) then wait_ms runner (delaySeconds * 1000)
       else ret tt) ;;;
      try_catch (send_command runner (step_command step))
        (fun error => throw (step_failed index total sent error)) ;;;
      send_from total (S index) rest' delaySeconds (sent + 1)
  end.

Definition sendStepsInOrder (steps : list InstanceTaskStepRow) (delaySeconds : Z) : M W Z :=
  let ordered := order_by (fun left right => position left <=? position right) steps in
  send_from (length ordered) 0 ordered delaySeconds 0.
End steps.

(** ** The tick *)

Definition TASK_SCHEDULER_ACTOR_LABEL : string := "task scheduler".
Definition UNKNOWN_TASK_FAILURE : string := "Unknown task failure".

Record TaskSignalNeeds := MkNeeds { needs_join : bool; needs_respawn : bool }.

Record TaskSchedulerRun := MkSchedulerRun {
  considered : Z; fired : list string; failures : list (string * string);
  unclaimed : Z; observed : Z }.

Record TaskSchedulerDeps (W : Type) := MkTaskDeps {
  enabledTasks : Z -> M W (list TaskParts);
  isRunning : string -> string -> M W bool;
  observeSignals : string -> string -> TaskSignalNeeds -> Z -> M W unit;
  signalsSince : string -> string -> Z -> M W (list InstanceSignalRow);
  armInterval : string -> string -> IntervalArm -> M W unit;
  claimRun : string -> string -> TaskClaim -> Z -> M W (option string);
  send : TaskParts -> M W Z;
  finishRun : string -> string -> TaskRunOutcome -> Z -> option string -> Z -> M W unit;
  recordTaskOutcome : string -> string -> Z -> option string -> M W unit;
  sweep : Z -> Z -> Z -> string -> M W unit;
  now : M W Z;
  random : M W Z;
  jitter : option IntervalJitter;
  describeFailure : thrown -> string;
  onError : option (string -> thrown -> M W unit) }.
Arguments enabledTasks {W}. Arguments isRunning {W}. Arguments observeSignals {W}.
Arguments signalsSince {W}. Arguments armInterval {W}. Arguments claimRun {W}. Arguments send {W}.
Arguments finishRun {W}. Arguments recordTaskOutcome {W}. Arguments sweep {W}. Arguments now {W}.
Arguments random {W}. Arguments jitter {W}. Arguments describeFailure {W}. Arguments onError {W}.

Definition scopeOf (row : InstanceTaskRow) : string := task_organizationId row.

Definition needsOf (tasks : list TaskParts) : TaskSignalNeeds :=
  MkNeeds (existsb (fun each => wantsJoinSignal (parts_task each)) tasks)
    (existsb (fun each => wantsRespawnSignal (parts_task each)) tasks).

(** A JavaScript [Map] iterates in insertion order: an association list. *)
Definition group_key (parts : TaskParts) : string :=
  task_organizationId (parts_task parts) +:+ ":" +:+ task_instanceId (parts_task parts).

Fixpoint add_to_group (parts : TaskParts) (grouped : list (string * list TaskParts))
    : list (string * list TaskParts) :=
  match grouped with
  | [] => [(group_key parts, [parts])]
  | (key, found) :: rest =>
      if key ≡? group_key parts then (key, found ++ [parts]) :: rest
      else (key, found) :: add_to_group parts rest
  end.

Definition byInstance (tasks : list TaskParts) : list (string * list TaskParts) :=
  fold_left (fun grouped parts => add_to_group parts grouped) tasks [].

(** The mutations of the tick's [run]. *)
Definition push_fired (id : string) (r : TaskSchedulerRun) : TaskSchedulerRun :=
  MkSchedulerRun (considered r) (fired r ++ [id]) (failures r) (unclaimed r) (observed r).
Definition push_failed (id reason : string) (r : TaskSchedulerRun) : TaskSchedulerRun :=
  MkSchedulerRun (considered r) (fired r) (failures r ++ [(id, reason)]) (unclaimed r) (observed r).
Definition add_unclaimed (r : TaskSchedulerRun) : TaskSchedulerRun :=
  MkSchedulerRun (considered r) (fired r) (failures r) (unclaimed r + 1) (observed r).
Definition add_observed (r : TaskSchedulerRun) : TaskSchedulerRun :=
  MkSchedulerRun (considered r) (fired r) (failures r) (unclaimed r) (observed r + 1).

Definition MS_OF_DAYS (days : Z) : Z := days * 24 * 60 * 60 * 1000.

Section tick.
Variable formatToParts : string -> Z -> option (list (string * string)).
Context {W : Type} (deps : TaskSchedulerDeps W).

Definition change (f : TaskSchedulerRun -> TaskSchedulerRun) : M (TaskSchedulerRun * W) unit :=
  on_fst (modify f).

Definition report (message : string) (error : thrown) : M (TaskSchedulerRun * W) unit :=
  on_snd (call_optional (onError deps) message (as_failure UNKNOWN_TASK_FAILURE error)).

Definition carryOut (parts : TaskParts) (claim : TaskClaim) (runId : string) (at_ : Z)
    : M (TaskSchedulerRun * W) unit :=
  let scope := scopeOf (parts_task parts) in
  let id := task_id (parts_task parts) in
  try_catch
    (let* stepsSent := on_snd (send deps parts) in
     change (push_fired id) ;;;
     let* finished := on_snd (now deps) in
     on_snd (finishRun deps scope runId sent stepsSent None finished) ;;;
     on_snd (recordTaskOutcome deps scope id at_ None))
    (fun error =>
       let failure := as_failure UNKNOWN_TASK_FAILURE error in
       let reason := match error with
                     | ThrownError (InstanceTaskStepsFailedError _) message => message
                     | _ => describeFailure deps failure
                     end in
       let stepsSent := match error with
                        | ThrownError (InstanceTaskStepsFailedError k) _ => k
                        | _ => 0
                        end in
       change (push_failed id reason) ;;;
       on_snd (call_optional (onError deps)
         ("Task " +:+ id +:+ " failed on trigger " +:+
            match trigger claim with
            | FirstLogin => "firstLogin" | Login => "login" | Respawn => "respawn"
            | Time => "time" | Interval => "interval"
            end) failure) ;;;
       let* finished := on_snd (now deps) in
       on_snd (swallow (finishRun deps scope runId failed stepsSent (Some reason) finished)) ;;;
       on_snd (swallow (recordTaskOutcome deps scope id at_ (Some reason)))).

(** One claim of a task's list: [None] is the [continue] of the [catch]. *)
Definition claim_and_carry_out (parts : TaskParts) (at_ : Z) (claim : TaskClaim)
    : M (TaskSchedulerRun * W) unit :=
  let id := task_id (parts_task parts) in
  let* granted :=
    try_catch
      (let* runId := on_snd (claimRun deps (scopeOf (parts_task parts)) id claim at_) in
       ret (Some runId))
      (fun error =>
         change (push_failed id (reason_of UNKNOWN_TASK_FAILURE error)) ;;;
         report ("Task " +:+ id +:+ " could not be claimed") error ;;;
         ret None) in
  match granted with
  | None => ret tt
  | Some None => change add_unclaimed
  | Some (Some runId) => carryOut parts claim runId at_
  end.

Record TaskMoment := MkMoment { moment_at : Z; moment_running : bool;
  moment_signals : list InstanceSignalRow }.

Definition considerTask (parts : TaskParts) (moment : TaskMoment) : M (TaskSchedulerRun * W) unit :=
  let task := parts_task parts in
  let scope := scopeOf task in
  let at_ := moment_at moment in
  match timeClaims formatToParts (MkDefinition task (parts_steps parts) (parts_times parts)) at_ with
  | Throw error =>
      let reason := reason_of UNKNOWN_TASK_FAILURE error in
      change (push_failed (task_id task) reason) ;;;
      on_snd (swallow (recordTaskOutcome deps scope (task_id task) at_ (Some reason)))
  | Ok timed =>
      let* draw := on_snd (random deps) in
      let plan := intervalPlan task at_ (moment_running moment)
                    (match jitter deps with Some j => j | None => evenJitter draw end) in
      let* arming :=
        match intervalArmOf plan with
        | None => ret true
        | Some a =>
            try_catch (on_snd (armInterval deps scope (task_id task) a) ;;; ret true)
              (fun error =>
                 report ("Task " +:+ task_id task +:+ " could not arm its interval") error ;;;
                 ret false)
        end in
      if negb arming then ret tt
      else
        let claims :=
          signalClaims task (moment_signals moment) ++ timed
          ++ match intervalClaimOf plan with Some claim => [claim] | None => [] end in
        if (length claims =? 0)%nat then ret tt
        else if negb (moment_running moment) then ret tt
        else for_each claims (claim_and_carry_out parts at_)
  end.

Definition considerGroup (at_ : Z) (group : string * list TaskParts)
    : M (TaskSchedulerRun * W) unit :=
  match group.2 with
  | [] => ret tt
  | first :: _ =>
      let scope := scopeOf (parts_task first) in
      let instanceId := task_instanceId (parts_task first) in
      let* status :=
        try_catch (let* r := on_snd (isRunning deps scope instanceId) in ret (Some r))
          (fun error =>
             report ("Task scheduler could not read bot " +:+ instanceId) error ;;; ret None) in
      match status with
      | None => ret tt
      | Some isUp =>
          let needs := needsOf group.2 in
          (if isUp && (needs_join needs || needs_respawn needs) then
             try_catch
               (on_snd (observeSignals deps scope instanceId needs at_) ;;; change add_observed)
               (fun error =>
                  report ("Task scheduler could not read signals for " +:+ instanceId) error)
           else ret tt) ;;;
          let* signals :=
            if needs_join needs || needs_respawn needs then
              try_catch
                (on_snd (signalsSince deps scope instanceId (at_ - TASK_SIGNAL_CATCH_UP_MS)))
                (fun error =>
                   report ("Task scheduler could not stand up signals for " +:+ instanceId) error ;;;
                   ret [])
            else ret [] in
          for_each group.2 (fun parts => considerTask parts (MkMoment at_ isUp signals))
      end
  end.

Definition runTaskSchedulerTick : M W TaskSchedulerRun :=
  let* at_ := now deps in
  let retainedSince := at_ - MS_OF_DAYS TASK_RUN_RETENTION_DAYS in
  try_catch
    (sweep deps (at_ - TASK_ABANDONED_AFTER_MS) retainedSince
       (at_ - MS_OF_DAYS TASK_SIGNAL_RETENTION_DAYS) TASK_ABANDONED_REASON)
    (fun error =>
       call_optional (onError deps) "Task runs could not be swept"
         (as_failure UNKNOWN_TASK_FAILURE error)) ;;;
  let* tasks := enabledTasks deps retainedSince in
  fun w =>
    match for_each (byInstance tasks) (considerGroup at_)
            (MkSchedulerRun (Z.of_nat (length tasks)) [] [] 0 0, w) with
    | (Ok _, (run, w')) => (Ok run, w')
    | (Throw e, (_, w')) => (Throw e, w')
    end.
End tick.

(** The wiring of the server over the tables. *)
Definition task_deps {Sink : Type} (clock random_ : M (TaskTables * Sink) Z)
    (nanoid : M (TaskTables * Sink) string)
    (running_ : string -> string -> M (TaskTables * Sink) bool)
    (observe : string -> string -> TaskSignalNeeds -> Z -> M (TaskTables * Sink) unit)
    (runTask : TaskParts -> M (TaskTables * Sink) Z)
    (describe : thrown -> string)
    (reporter : option (string -> thrown -> M (TaskTables * Sink) unit))
    : TaskSchedulerDeps (TaskTables * Sink) :=
  {| enabledTasks := fun runsSince => on_fst (gets (TaskStore.listEnabledAcrossOrganizations runsSince));
     isRunning := running_;
     observeSignals := observe;
     signalsSince := fun scope instanceId since =>
       on_fst (gets (TaskStore.signalsSince scope instanceId since));
     armInterval := fun scope taskId a => on_fst (stmt (TaskStore.armInterval scope taskId a));
     claimRun := fun scope taskId claim at_ =>
       let* id := nanoid in
       on_fst (stmt (TaskStore.claimRun id scope taskId (trigger claim) (claimKey claim) at_));
     send := runTask;
     finishRun := fun scope runId outcome stepsSent error at_ =>
       on_fst (stmt (TaskStore.finishRun scope runId outcome stepsSent error at_));
     recordTaskOutcome := fun scope taskId ranAt error =>
       on_fst (stmt (TaskStore.recordTaskOutcome scope taskId ranAt error));
     sweep := fun abandonBefore runsBefore signalsBefore reason =>
       let* _ := on_fst (stmt (TaskStore.abandonStaleRuns abandonBefore reason)) in
       let* _ := on_fst (stmt (TaskStore.pruneRuns runsBefore)) in
       let* _ := on_fst (stmt (TaskStore.pruneSignals signalsBefore)) in
       ret tt;
     now := clock;
     random := random_;
     jitter := None;
     describeFailure := describe;
     onError := reporter |}.

(** ** The steps of a run: lemmas *)

Inductive step_event := Waited (milliseconds : Z) | Tried (command : string).

(** A runner that logs what it is asked, and refuses the sends [refuses]
    says, counted from zero. *)
Definition tried_count (log : list step_event) : nat :=
  length (List.filter (fun e => match e with Tried _ => true | Waited _ => false end) log).

Definition logging_runner (refuses : nat -> option thrown) (describe : thrown -> string)
    : TaskStepRunner (list step_event) :=
  {| send_command := fun command log =>
       (match refuses (tried_count log) with Some e => Throw e | None => Ok tt end,
        log ++ [Tried command]);
     wait_ms := fun ms log => (Ok tt, log ++ [Waited ms]);
     describe_step_failure := describe |}.

(** What is asked for one step, and for a list of them. *)
Definition step_events (delaySeconds : Z) (index : nat) (step : InstanceTaskStepRow)
    : list step_event :=
  (if (0 <? index)%nat && (0 <? delaySeconds) then [Waited (delaySeconds * 1000)] else [])
  ++ [Tried (step_command step)].

Definition steps_events (delaySeconds : Z) (ordered : list InstanceTaskStepRow) : list step_event :=
  concat (imap (step_events delaySeconds) ordered).

Lemma tried_count_app a b : tried_count (a ++ b) = (tried_count a + tried_count b)%nat.
Proof. unfold tried_count. by rewrite List.filter_app, length_app. Qed.

Lemma tried_step delaySeconds index step : tried_count (step_events delaySeconds index step) = 1%nat.
Proof. unfold step_events. by destruct (_ && _). Qed.

Section send_lemmas.
Context (refuses : nat -> option thrown) (describe : thrown -> string) (delaySeconds : Z)
  (total : nat).

Lemma send_from_step index step rest sent log :
  tried_count log = index ->
  send_from (logging_runner refuses describe) total index (step :: rest) delaySeconds sent log
  = match refuses index with
    | Some e => (Throw (step_failed (logging_runner refuses describe) index total sent e),
                 log ++ step_events delaySeconds index step)
    | None => send_from (logging_runner refuses describe) total (S index) rest delaySeconds (sent + 1)
                (log ++ step_events delaySeconds index step)
    end.
Proof.
  intros Hc. cbn [send_from]. unfold bind, try_catch, throw. unfold step_events.
  destruct (_ && _); cbn; rewrite ?tried_count_app, Hc; cbn; rewrite ?Nat.add_0_r, <- ?app_assoc;
    by destruct (refuses index).
Qed.

Lemma send_from_spec rest : forall index log k,
  tried_count log = index -> (k <= length rest)%nat ->
  (forall j, (j < k)%nat -> refuses (index + j)%nat = None) ->
  send_from (logging_runner refuses describe) total index rest delaySeconds (Z.of_nat index) log
  = match drop k rest, refuses (index + k)%nat with
    | step :: _, Some e =>
        (Throw (step_failed (logging_runner refuses describe) (index + k) total
                  (Z.of_nat (index + k)) e),
         log ++ concat (imap (fun i => step_events delaySeconds (index + i)) (take (S k) rest)))
    | _, _ =>
        send_from (logging_runner refuses describe) total (index + k) (drop k rest) delaySeconds
          (Z.of_nat (index + k))
          (log ++ concat (imap (fun i => step_events delaySeconds (index + i)) (take k rest)))
    end.
Proof.
  induction rest as [|step rest IH]; intros index log k Hc Hk Hpre.
  { destruct k; [|simpl in Hk; lia]. simpl. by rewrite Nat.add_0_r, app_nil_r. }
  destruct k as [|k].
  - rewrite !Nat.add_0_r. cbn [drop].
    destruct (refuses index) as [e|] eqn:E; [|by rewrite app_nil_r].
    rewrite send_from_step by done. rewrite E. cbn. by rewrite Nat.add_0_r, app_nil_r.
  - rewrite send_from_step by done.
    rewrite (eq_trans (eq_sym (f_equal refuses (Nat.add_0_r index))) (Hpre 0%nat ltac:(lia))).
    replace (Z.of_nat index + 1) with (Z.of_nat (S index)) by lia.
    rewrite (IH (S index) _ k);
      [|rewrite tried_count_app, tried_step; lia|simpl in Hk; lia
       |intros j Hj; replace (S index + j)%nat with (index + S j)%nat by lia; apply Hpre; lia].
    replace (S index + k)%nat with (index + S k)%nat by lia. cbn [drop].
    assert (Heq : forall l, (log ++ step_events delaySeconds index step)
        ++ concat (imap (fun i => step_events delaySeconds (S index + i)) l)
      = log ++ concat (imap (fun i => step_events delaySeconds (index + i)) (step :: l))).
    { intros l. rewrite imap_cons. cbn [concat]. rewrite Nat.add_0_r, app_assoc. do 2 f_equal.
      apply imap_ext. intros i x _. cbn. by rewrite Nat.add_succ_r. }
    rewrite !Heq. reflexivity.
Qed.
End send_lemmas.

(** the steps of a run are sent in the order of their positions, each
    but the first after the delay, up to the first one that fails: then the
    error says how many were sent and nothing after it is tried. *)
Theorem steps_are_sent_in_order refuses describe steps delaySeconds k
    (Hk : (k <= length steps)%nat)
    (Haccepted : forall j, (j < k)%nat -> refuses j = None)
    (Hstop : k = length steps \/ refuses k <> None) :
  let ordered := order_by (fun left right => position left <=? position right) steps in
  Permutation ordered steps
  /\ StronglySorted (fun a b => (position a <=? position b) = true) ordered
  /\ exists r,
       sendStepsInOrder (logging_runner refuses describe) steps delaySeconds []
       = (r, steps_events delaySeconds (take (S k) ordered))
       /\ (k = length steps -> r = Ok (Z.of_nat (length steps)))
       /\ ((k < length steps)%nat -> exists e,
             refuses k = Some e
             /\ r = Throw (step_failed (logging_runner refuses describe) k (length steps)
                             (Z.of_nat k) e)).
Proof.
  cbv zeta. set (ordered := order_by _ steps).
  assert (Hperm : Permutation ordered steps) by apply order_by_perm.
  split; [exact Hperm|]. split.
  { apply order_by_ordered; intros; rewrite ?Z.leb_gt, ?Z.leb_le in *; lia. }
  assert (Hlen : length ordered = length steps) by apply length_order_by.
  unfold sendStepsInOrder. fold ordered.
  pose proof (send_from_spec refuses describe delaySeconds (length ordered) ordered 0 [] k eq_refl
    ltac:(lia) Haccepted) as H.
  change (Z.of_nat 0) with 0 in H. rewrite H. clear H. cbn [Nat.add app].
  change (imap (fun i => step_events delaySeconds i)) with (imap (step_events delaySeconds)).
  destruct (decide (k = length steps)) as [->|Hne].
  - rewrite (drop_ge ordered), !take_ge by lia. cbn [send_from]. unfold ret.
    eexists. split; [reflexivity|]. split; [done|lia].
  - destruct Hstop as [|Hstop]; [done|].
    destruct (drop k ordered) as [|step rest] eqn:Ed.
    { apply (f_equal length) in Ed. rewrite length_drop in Ed. simpl in Ed. lia. }
    destruct (refuses k) as [e|]; [|done]. eexists. split; [reflexivity|]. split; [done|].
    intros _. exists e. split; [done|]. by rewrite Hlen.
Qed.

Lemma steps_are_sent_in_order_witness :
  let steps := [MkStep "b" "o" "t" 1 "/second"; MkStep "a" "o" "t" 0 "/first";
                MkStep "c" "o" "t" 2 "/third"] in
  let ordered := order_by (fun left right => position left <=? position right) steps in
  Permutation ordered steps
  /\ StronglySorted (fun a b => (position a <=? position b) = true) ordered
  /\ exists r,
       sendStepsInOrder (logging_runner (fun j => if (j =? 1)%nat then Some (ThrownValue "x") else None)
         (reason_of "?")) steps 3 []
       = (r, steps_events 3 (take 2 ordered))
       /\ (1%nat = 3%nat -> r = Ok 3)
       /\ ((1 < 3)%nat -> exists e,
             Some (ThrownValue "x") = Some e
             /\ r = Throw (step_failed (logging_runner
                  (fun j => if (j =? 1)%nat then Some (ThrownValue "x") else None) (reason_of "?")) 1 3 1 e)).
Proof.
  apply (steps_are_sent_in_order (fun j => if (j =? 1)%nat then Some (ThrownValue "x") else None)
    (reason_of "?") [MkStep "b" "o" "t" 1 "/second"; MkStep "a" "o" "t" 0 "/first";
                MkStep "c" "o" "t" 2 "/third"] 3 1).
  - simpl. lia.
  - intros j Hj. destruct j; [done|lia].
  - right. done.
Defined.

(** ** Grouping by bot *)

(** Every group holds the tasks of its key, in the order they were read. *)
Definition groups_of (tasks : list TaskParts) (grouped : list (string * list TaskParts)) : Prop :=
  NoDup (map fst grouped)
  /\ (forall key group, In (key, group) grouped ->
        group <> [] /\ group = List.filter (fun parts => group_key parts ≡? key) tasks)
  /\ (forall parts, In parts tasks -> group_key parts ∈ map fst grouped).

Lemma add_to_group_keys parts grouped :
  map fst (add_to_group parts grouped)
  = if bool_decide (group_key parts ∈ map fst grouped) then map fst grouped
    else map fst grouped ++ [group_key parts].
Proof.
  induction grouped as [|[key found] rest IH].
  { rewrite bool_decide_eq_false_2; [done|]. apply not_elem_of_nil. }
  cbn [add_to_group]. destruct (decide (key = group_key parts)) as [->|E].
  - rewrite bool_decide_eq_true_2 by done. cbn. rewrite bool_decide_eq_true_2; [done|]. by left.
  - rewrite bool_decide_eq_false_2 by done. cbn [map fst]. rewrite IH. clear IH. case_bool_decide as E1; case_bool_decide as E2; try done.
    + exfalso. apply E2. by right.
    + exfalso. apply elem_of_cons in E2 as [|]; [congruence|done].
Qed.

Lemma add_to_group_in parts grouped key group :
  NoDup (map fst grouped) -> In (key, group) (add_to_group parts grouped) ->
  (key <> group_key parts /\ In (key, group) grouped)
  \/ (key = group_key parts
      /\ (((key ∉ map fst grouped) /\ group = [parts])
          \/ exists found, In (key, found) grouped /\ group = found ++ [parts])).
Proof.
  induction grouped as [|[key' found] rest IH]; intros Hnd Hin.
  - destruct Hin as [[= <- <-]|[]]. right. split; [done|]. left. split; [apply not_elem_of_nil|done].
  - cbn [map fst] in Hnd. apply NoDup_cons in Hnd as [Hn Hnd].
    cbn [add_to_group] in Hin. case_bool_decide as E.
    + destruct Hin as [[= <- <-]|Hin].
      * right. split; [done|]. right. exists found. split; [by left|done].
      * left. split; [|by right]. intros ->. apply Hn. rewrite E.
        apply list_elem_of_In, in_map_iff. by exists (group_key parts, group).
    + destruct Hin as [[= <- <-]|Hin]; [left; split; [done|by left]|].
      destruct (IH Hnd Hin) as [[Hk Hr]|[Hk [[Hr ->]|(f & Hr & ->)]]].
      * left. split; [done|by right].
      * right. split; [done|]. left. split; [|done]. intros H. cbn [map fst] in H. apply elem_of_cons in H as [H|H]; [congruence|done].
      * right. split; [done|]. right. exists f. split; [by right|done].
Qed.

Lemma groups_of_snoc tasks parts grouped :
  groups_of tasks grouped -> groups_of (tasks ++ [parts]) (add_to_group parts grouped).
Proof.
  intros (Hnd & Hgroups & Hall). split; [|split].
  - rewrite add_to_group_keys. case_bool_decide as E; [done|].
    apply NoDup_app. split; [done|]. split; [|apply NoDup_singleton].
    intros x Hx Hs. by apply list_elem_of_singleton in Hs as ->.
  - intros key group Hin. rewrite List.filter_app. cbn [List.filter].
    destruct (add_to_group_in parts grouped key group Hnd Hin)
      as [[Hk Hr]|[-> [[Hr ->]|(f & Hr & ->)]]].
    + apply Hgroups in Hr as [Hne ->]. rewrite bool_decide_eq_false_2 by done. by rewrite app_nil_r.
    + rewrite bool_decide_eq_true_2 by done. split; [done|]. rewrite filter_none; [done|].
      intros x Hx. apply bool_decide_eq_false. intros Heq. apply Hr. rewrite <- Heq. by apply Hall.
    + apply Hgroups in Hr as [Hne ->]. rewrite bool_decide_eq_true_2 by done.
      split; [by intros H; apply app_eq_nil in H as []|done].
  - intros x Hx. rewrite add_to_group_keys. apply in_app_iff in Hx as [Hx|[<-|[]]].
    + case_bool_decide; [by apply Hall|]. apply elem_of_app. left. by apply Hall.
    + case_bool_decide; [done|]. apply elem_of_app. right. by left.
Qed.

(** The tasks a tick reads are split by bot without loss: one group per
    bot, in which its tasks stand in the order they were read. *)
Theorem tasks_are_grouped_by_bot tasks : groups_of tasks (byInstance tasks).
Proof.
  unfold byInstance.
  enough (H : forall done_ rest grouped, groups_of done_ grouped ->
    groups_of (done_ ++ rest) (fold_left (fun grouped parts => add_to_group parts grouped) rest grouped)).
  { apply (H [] tasks []). split; [constructor|]. split; [by intros ? ? []|by intros ? []]. }
  intros done_ rest. revert done_. induction rest as [|parts rest IH]; intros done_ grouped H.
  - by rewrite app_nil_r.
  - cbn [fold_left]. replace (done_ ++ parts :: rest) with ((done_ ++ [parts]) ++ rest)
      by (by rewrite <- app_assoc). apply IH. by apply groups_of_snoc.
Qed.

(** ** A tick outlives what it calls

    [steady n m]: the part of the tick [m] returns, from any world, and
    leaves the count of the tasks it considers at [n]. *)

Section survival.
Variable formatToParts : string -> Z -> option (list (string * string)).
Context {W : Type} (deps : TaskSchedulerDeps W).

Class ReliableDeps : Prop := {
  reliable_now : answers (now deps);
  reliable_random : answers (random deps);
  reliable_report : forall message error, answers (call_optional (onError deps) message error) }.
Context {reliable : ReliableDeps}.

Definition counted (n : Z) (s : TaskSchedulerRun * W) : Prop := considered s.1 = n.

Definition steady {A} (n : Z) (m : M (TaskSchedulerRun * W) A) : Prop :=
  triple (counted n) m (fun _ => counted n) (fun _ _ => False).

Lemma steady_ret {A} n (a : A) : steady n (ret a).
Proof. intros s Hs. exact Hs. Qed.

Lemma steady_bind {A B} n (m : M (TaskSchedulerRun * W) A) (k : A -> M _ B) :
  steady n m -> (forall a, steady n (k a)) -> steady n (bind m k).
Proof. intros Hm Hk. eapply triple_bind; [exact Hm|exact Hk]. Qed.

Lemma steady_change n f : (forall r, considered (f r) = considered r) -> steady n (change (W := W) f).
Proof. intros H [r w] Hs. unfold counted in *. simpl in *. by rewrite H. Qed.

Lemma steady_answers {A} n (m : M W A) : answers m -> steady n (on_snd m).
Proof.
  intros H. apply triple_answers; [by apply answers_on_snd|]. apply (triple_on_snd (fun r => considered r = n)).
Qed.

(** A [try] whose [catch] returns. *)
Lemma steady_try {A} n (m : M (TaskSchedulerRun * W) A) h :
  preserves (counted n) m -> (forall e, steady n (h e)) -> steady n (try_catch m h).
Proof.
  intros Hm Hh. eapply triple_catch; [exact Hm|exact Hh].
Qed.

Lemma preserves_counted {A} n (m : M W A) : preserves (counted n) (on_snd m).
Proof. apply (triple_on_snd (fun r => considered r = n)). Qed.

Lemma steady_preserves {A} n (m : M (TaskSchedulerRun * W) A) : steady n m -> preserves (counted n) m.
Proof. intros H. eapply triple_consequence; [exact H|done|done|done]. Qed.

Lemma steady_report n message error : steady n (report deps message error).
Proof. apply steady_answers, reliable_report. Qed.

Lemma steady_swallow n (m : M W unit) : steady n (on_snd (swallow m)).
Proof.
  apply steady_answers. intros w. unfold swallow, try_catch.
  destruct (m w) as [[[]|e] w']; by exists tt, w'.
Qed.

Lemma steady_for_each {A} n (xs : list A) body :
  (forall x, steady n (body x)) -> steady n (for_each xs body).
Proof. intros H. apply triple_for_each_all. intros x _. apply H. Qed.

#[local] Hint Resolve steady_ret steady_bind steady_change steady_try preserves_counted
  steady_report steady_swallow steady_for_each steady_preserves reliable_now reliable_random
  steady_answers preserves_bind reliable_report : core.

Lemma carryOut_steady n parts claim runId at_ : steady n (carryOut deps parts claim runId at_).
Proof. unfold carryOut. apply steady_try; [|intros e]; auto 8. Qed.

Lemma claim_steady n parts at_ claim : steady n (claim_and_carry_out deps parts at_ claim).
Proof.
  unfold claim_and_carry_out. apply steady_bind.
  - apply steady_try; [apply preserves_bind; [auto|]; intros; auto|].
    intros e. apply steady_bind; [auto|]. auto.
  - intros [[runId|]|]; [apply carryOut_steady|by apply steady_change|auto].
Qed.

Lemma considerTask_steady n parts moment : steady n (considerTask formatToParts deps parts moment).
Proof.
  unfold considerTask. destruct (timeClaims _ _ _) as [timed|e]; [|auto].
  apply steady_bind; [auto|]. intros draw. set (plan := intervalPlan _ _ _ _). clearbody plan.
  apply steady_bind.
  - destruct (intervalArmOf plan) as [a|]; [|auto].
    apply steady_try; [apply preserves_bind; auto|]. auto.
  - intros arming. destruct (negb arming); [auto|].
    destruct (_ =? 0)%nat; [auto|]. destruct (negb _); [auto|].
    apply steady_for_each. intros claim. apply claim_steady.
Qed.

Lemma considerGroup_steady n at_ group : steady n (considerGroup formatToParts deps at_ group).
Proof.
  unfold considerGroup. destruct group.2 as [|first rest] eqn:E; [auto|].
  apply steady_bind.
  - apply steady_try; [apply preserves_bind; auto|]. auto.
  - intros [isUp|]; [|auto]. apply steady_bind.
    + destruct (_ && _); [|auto]. apply steady_try; [apply preserves_bind; auto|]. auto.
    + intros ?. apply steady_bind.
      * destruct (_ || _); [|auto]. apply steady_try; [auto|]. intros e. apply steady_bind; auto.
      * intros signals. apply steady_for_each. intros parts. apply considerTask_steady.
Qed.
End survival.

(** when the enabled tasks can be read, a tick returns and has considered
    each of them, whatever else fails: the sweep, reading a bot, its
    signals, arming an interval, claiming, sending a step or recording the
    outcome. *)
Theorem tick_survives_failures formatToParts {W} (deps : TaskSchedulerDeps W)
    {reliable : ReliableDeps deps} w
    (Hread : forall since, answers (enabledTasks deps since)) :
  exists run w' since tasks w0 w1,
    runTaskSchedulerTick formatToParts deps w = (Ok run, w')
    /\ enabledTasks deps since w0 = (Ok tasks, w1)
    /\ considered run = Z.of_nat (length tasks).
Proof.
  unfold runTaskSchedulerTick, bind at 1.
  destruct (reliable_now deps w) as (at_ & w0 & ->).
  unfold bind, try_catch.
  assert (Hsweep : exists w1, match sweep deps (at_ - TASK_ABANDONED_AFTER_MS)
      (at_ - MS_OF_DAYS TASK_RUN_RETENTION_DAYS) (at_ - MS_OF_DAYS TASK_SIGNAL_RETENTION_DAYS)
      TASK_ABANDONED_REASON w0 with
    | (Ok a, s') => (Ok a, s')
    | (Throw e, s') => call_optional (onError deps) "Task runs could not be swept"
                         (as_failure UNKNOWN_TASK_FAILURE e) s'
    end = (Ok tt, w1)).
  { destruct (sweep deps _ _ _ _ w0) as [[[]|e] w1]; [by exists w1|].
    destruct (reliable_report deps "Task runs could not be swept"
      (as_failure UNKNOWN_TASK_FAILURE e) w1) as ([] & w2 & H). by exists w2. }
  destruct Hsweep as [w1 ->].
  destruct (Hread (at_ - MS_OF_DAYS TASK_RUN_RETENTION_DAYS) w1) as (tasks & w2 & Htasks).
  rewrite Htasks.
  destruct (triple_run _ _ _ (steady_for_each (Z.of_nat (length tasks)) (byInstance tasks)
    (considerGroup formatToParts deps at_) (fun g => considerGroup_steady formatToParts deps _ at_ g))
    (MkSchedulerRun (Z.of_nat (length tasks)) [] [] 0 0, w2) eq_refl) as (u & [run w3] & Hloop & Hc).
  rewrite Hloop. by exists run, w3, (at_ - MS_OF_DAYS TASK_RUN_RETENTION_DAYS), tasks, w1, w2.
Qed.

(** ** No run is left running

    What the scheduler's own reads and sends do: they keep the run table,
    and the clock and the reporter return. *)

Section runs_end.
Variable formatToParts : string -> Z -> option (list (string * string)).
Context {Sink : Type}.
#[local] Abbreviation World := (TaskTables * Sink)%type.

Definition runs_of (w : World) : list InstanceTaskRunRow := runs w.1.

Context (clock random_ : M World Z) (nanoid : M World string)
  (running_ : string -> string -> M World bool)
  (observe : string -> string -> TaskSignalNeeds -> Z -> M World unit)
  (runTask : TaskParts -> M World Z) (describe : thrown -> string)
  (reporter : option (string -> thrown -> M World unit)).

Class TaskEnvironment : Prop := {
  clock_answers : answers clock;
  clock_runs : keeps runs_of clock;
  random_answers : answers random_;
  random_runs : keeps runs_of random_;
  nanoid_runs : keeps runs_of nanoid;
  running_runs : forall scope id, keeps runs_of (running_ scope id);
  observe_runs : forall scope id needs at_, keeps runs_of (observe scope id needs at_);
  runTask_runs : forall parts, keeps runs_of (runTask parts);
  reporter_answers : forall message error, answers (call_optional reporter message error);
  reporter_runs : forall message error, keeps runs_of (call_optional reporter message error) }.
Context {environment : TaskEnvironment}.

Let deps := task_deps clock random_ nanoid running_ observe runTask describe reporter.

(** Every run still marked running was so before, or is the one exempted. *)
Definition ended (before : list InstanceTaskRunRow) (exempt : InstanceTaskRunRow -> bool)
    (rows : list InstanceTaskRunRow) : Prop :=
  forall row, In row rows -> outcome row = running -> In row before \/ exempt row = true.

Definition nobody : InstanceTaskRunRow -> bool := fun _ => false.

Definition state_ended before exempt (s : TaskSchedulerRun * World) : Prop :=
  ended before exempt (runs_of s.2).

Lemma ended_kept {A} before exempt (m : M World A) :
  keeps runs_of m -> preserves (state_ended before exempt) (on_snd m).
Proof. intros H. apply (preserves_on_snd (fun w => ended before exempt (runs_of w))).
  by apply (preserves_keeps runs_of (ended before exempt)). Qed.

Lemma ended_change before exempt f : preserves (state_ended before exempt) (change (W := World) f).
Proof. intros [r w] Hs. exact Hs. Qed.

Lemma ended_report before exempt message error :
  preserves (state_ended before exempt) (report deps message error).
Proof. apply ended_kept. apply reporter_runs. Qed.

Lemma keeps_stmt {A} (f : TaskTables -> A * TaskTables) :
  (forall t, runs (f t).2 = runs t) -> keeps runs_of (on_fst (W := Sink) (stmt f)).
Proof. intros H [t sink]. apply H. Qed.

Lemma keeps_swallow (m : M World unit) : keeps runs_of m -> keeps runs_of (swallow m).
Proof. intros H w. unfold swallow, try_catch. specialize (H w). by destruct (m w) as [[a|e] w']. Qed.

Lemma keeps_outcome scope id at_ error : keeps runs_of (recordTaskOutcome deps scope id at_ error).
Proof. by apply keeps_stmt. Qed.

(** Finishing a run takes away its exemption. *)
Lemma finish_ends before scope runId result steps_ error at_ :
  result <> running ->
  triple (state_ended before (owned_run scope runId))
    (on_snd (finishRun deps scope runId result steps_ error at_))
    (fun _ => state_ended before nobody) (fun _ _ => False).
Proof.
  intros Hres [r [t sink]] Hs row Hin Hrun. cbn in Hin. apply in_update_where in Hin as (row0 & Hin & ->).
  destruct (owned_run scope runId row0) eqn:E; [done|].
  destruct (Hs row0 Hin Hrun) as [|H]; [by left|congruence].
Qed.

Lemma ended_weaken before exempt s : state_ended before nobody s -> state_ended before exempt s.
Proof. intros H row Hin Hr. destruct (H row Hin Hr) as [|]; [by left|done]. Qed.

#[local] Hint Resolve ended_kept ended_change ended_report keeps_swallow keeps_outcome clock_runs
  random_runs nanoid_runs running_runs observe_runs runTask_runs reporter_runs preserves_bind
  preserves_ret preserves_catch preserves_for_each : core.

(** Carrying a run out ends it, on every path. *)
Lemma carryOut_ends before parts claim runId at_ :
  triple (state_ended before (owned_run (scopeOf (parts_task parts)) runId))
    (carryOut deps parts claim runId at_)
    (fun _ => state_ended before nobody) (fun _ _ => False).
Proof.
  unfold carryOut. set (scope := scopeOf _). set (P := state_ended before (owned_run scope runId)).
  eapply triple_catch with (R := fun _ => P).
  - eapply triple_bind with (R := fun _ => P); [apply ended_kept, runTask_runs|]. intros stepsSent.
    eapply triple_bind with (R := fun _ => P); [apply ended_change|]. intros ?.
    eapply triple_bind with (R := fun _ => P); [apply ended_kept, clock_runs|]. intros finished.
    eapply triple_bind with (R := fun _ => state_ended before nobody).
    + eapply triple_consequence; [by apply finish_ends|done|done|by intros ? ? []].
    + intros ?. eapply triple_consequence; [apply (ended_kept before nobody), keeps_outcome|done|done|].
      intros e s. apply ended_weaken.
  - intros e. eapply triple_bind with (R := fun _ => P).
    { intros [r w] Hs. exact Hs. }
    intros ?. eapply triple_bind with (R := fun _ => P).
    { apply triple_answers; [apply answers_on_snd, reporter_answers|apply ended_kept, reporter_runs]. }
    intros ?. eapply triple_bind with (R := fun _ => P).
    { apply triple_answers; [apply answers_on_snd, clock_answers|apply ended_kept, clock_runs]. }
    intros finished. eapply triple_bind with (R := fun _ => state_ended before nobody).
    + intros s Hs. exact (finish_ends before scope runId failed _ _ _ ltac:(done) s Hs).
    + intros ? [r [t sink]] Hs. exact Hs.
Qed.

(** A granted claim adds one running row, its own. *)
Lemma claim_ends before parts at_ claim :
  preserves (state_ended before nobody) (claim_and_carry_out deps parts at_ claim).
Proof.
  unfold claim_and_carry_out. set (scope := scopeOf _).
  eapply triple_bind with (R := fun granted s =>
    match granted with
    | Some (Some runId) => state_ended before (owned_run scope runId) s
    | _ => state_ended before nobody s
    end).
  - apply triple_catch with (R := fun _ => state_ended before nobody).
    + intros [r [t sink]] Hs. unfold bind, on_snd. cbn [claimRun deps task_deps]. unfold bind.
      pose proof (nanoid_runs (t, sink)) as Hn. cbn [snd fst].
      destruct (nanoid (t, sink)) as [[newId|e] [t' sink']]; cbn in Hn |- *;
        [|unfold state_ended, runs_of in *; cbn in *; by rewrite Hn].
      destruct (TaskStore.claimRun newId scope (task_id (parts_task parts)) (trigger claim)
        (claimKey claim) at_ t') as [[runId|] t''] eqn:E; cbn.
      * pose proof (claimRun_tables newId scope (task_id (parts_task parts)) (trigger claim)
          (claimKey claim) at_ t') as Ht. rewrite E in Ht. cbn in Ht. subst t''.
        intros row Hin Hr. cbn in Hin. unfold TaskStore.claimRun in E.
        destruct (insert_or_nothing _ _ _) as [[row'|] rows] eqn:Ei; [|done].
        apply insert_or_nothing_some in Ei as (-> & -> & _). injection E as <-. cbn in Hin.
        apply in_app_iff in Hin as [Hin|[<-|[]]].
        -- destruct (Hs row) as [|]; [|done|by left|done]. unfold runs_of in *. cbn in *. by rewrite <- Hn.
        -- right. unfold owned_run. cbn. by rewrite !bool_decide_eq_true_2.
      * unfold TaskStore.claimRun in E.
        destruct (insert_or_nothing _ _ _) as [[row'|] rows] eqn:Ei; [done|].
        apply insert_or_nothing_none in Ei as [-> _]. injection E as <-.
        unfold state_ended, runs_of in *. cbn in *. by rewrite Hn.
    + intros e. eapply triple_bind with (R := fun _ => state_ended before nobody); [apply ended_change|].
      intros ?. eapply triple_bind with (R := fun _ => state_ended before nobody); [apply ended_report|].
      intros ? s Hs. exact Hs.
  - intros [[runId|]|]; [|apply ended_change|apply preserves_ret].
    eapply triple_consequence; [apply carryOut_ends|done|done|by intros ? ? []].
Qed.

Lemma considerTask_ends before parts moment :
  preserves (state_ended before nobody) (considerTask formatToParts deps parts moment).
Proof.
  unfold considerTask. destruct (timeClaims _ _ _) as [timed|e].
  2:{ apply preserves_bind; [auto|]. intros ?. auto. }
  apply preserves_bind; [auto|]. intros draw. set (plan := intervalPlan _ _ _ _). clearbody plan.
  apply preserves_bind.
  - destruct (intervalArmOf plan) as [a|]; [|auto]. apply preserves_catch.
    + apply preserves_bind; [|auto]. apply ended_kept. by apply keeps_stmt.
    + intros e. auto.
  - intros arming. destruct (negb arming); [auto|]. destruct (_ =? 0)%nat; [auto|].
    destruct (negb _); [auto|]. apply preserves_for_each. intros claim. apply claim_ends.
Qed.

Lemma considerGroup_ends before at_ group :
  preserves (state_ended before nobody) (considerGroup formatToParts deps at_ group).
Proof.
  unfold considerGroup. destruct group.2 as [|first rest] eqn:E; [auto|].
  apply preserves_bind.
  - apply preserves_catch; [apply preserves_bind; [apply ended_kept, running_runs|auto]|]. auto.
  - intros [isUp|]; [|auto]. apply preserves_bind.
    + destruct (_ && _); [|auto]. apply preserves_catch; [|auto].
      apply preserves_bind; [apply ended_kept, observe_runs|auto].
    + intros ?. apply preserves_bind.
      * destruct (_ || _); [|auto]. apply preserves_catch; [|intros e; auto].
        apply ended_kept. by intros [t sink].
      * intros signals_. apply preserves_for_each. intros parts. apply considerTask_ends.
Qed.

Lemma sweep_ends before a b c reason :
  preserves (fun w => ended before nobody (runs_of w)) (sweep deps a b c reason).
Proof.
  intros [t sink] Hs. cbn. intros row Hin Hr. cbn in Hin.
  apply in_delete_where in Hin as [Hin _]. apply in_update_where in Hin as (row0 & Hin & ->).
  destruct (stale a row0); [done|]. by apply Hs.
Qed.
End runs_end.

(** whatever sending the steps does, a tick over the tables leaves none
    of the runs it started marked as running: every run so marked after it
    was there before. *)
Theorem tick_ends_the_runs_it_starts formatToParts {Sink} clock random_ nanoid running_ observe
    runTask describe reporter
    {environment : TaskEnvironment (Sink := Sink) clock random_ nanoid running_ observe runTask reporter}
    (w : TaskTables * Sink) row
    (Hrow : In row (runs (runTaskSchedulerTick formatToParts
       (task_deps clock random_ nanoid running_ observe runTask describe reporter) w).2.1))
    (Hrunning : outcome row = running) :
  In row (runs w.1).
Proof.
  set (deps := task_deps clock random_ nanoid running_ observe runTask describe reporter) in *.
  set (P := fun x : TaskTables * Sink => ended (runs w.1) nobody (runs_of x)).
  assert (Htick : preserves P (runTaskSchedulerTick formatToParts deps)).
  { unfold runTaskSchedulerTick. apply preserves_bind.
    { apply (preserves_keeps runs_of (ended (runs w.1) nobody)). by eapply clock_runs. }
    intros at_. apply preserves_bind.
    { apply preserves_catch; [eapply sweep_ends|]. intros e.
      apply (preserves_keeps runs_of (ended (runs w.1) nobody)). by eapply reporter_runs. }
    intros ?. apply preserves_bind; [by intros [t sink]|]. intros tasks x Hx.
    pose proof (preserves_for_each (state_ended (runs w.1) nobody) (byInstance tasks)
      (considerGroup formatToParts deps at_)
      (fun g => considerGroup_ends formatToParts clock random_ nanoid running_ observe runTask
         describe reporter (runs w.1) at_ g)
      (MkSchedulerRun (Z.of_nat (length tasks)) [] [] 0 0, x) Hx) as H.
    by destruct (for_each _ _ _) as [[u|e] [run x']]. }
  assert (Hw : P w) by (intros r Hr _; by left).
  specialize (Htick w Hw).
  destruct (runTaskSchedulerTick formatToParts deps w) as [[a|e] w'];
    by destruct (Htick row Hrow Hrunning) as [|].
Qed.

Definition offline {W A} : M W A := throw (ThrownError PlainError "offline").

(** Everything but the clock and the task table is out of reach. *)
Definition broken_deps : TaskSchedulerDeps unit :=
  {| enabledTasks := fun _ => ret [MkParts example_task [] [] []];
     isRunning := fun _ _ => ret true; observeSignals := fun _ _ _ _ => offline;
     signalsSince := fun _ _ _ => offline; armInterval := fun _ _ _ => offline;
     claimRun := fun _ _ _ _ => offline; send := fun _ => offline;
     finishRun := fun _ _ _ _ _ _ => offline; recordTaskOutcome := fun _ _ _ _ => offline;
     sweep := fun _ _ _ _ => offline; now := ret 200000; random := ret 0; jitter := None;
     describeFailure := fun _ => "failed"; onError := None |}.

Lemma tick_survives_failures_witness :
  exists run w' since tasks w0 w1,
    runTaskSchedulerTick utcParts broken_deps tt = (Ok run, w')
    /\ enabledTasks broken_deps since w0 = (Ok tasks, w1)
    /\ considered run = Z.of_nat (length tasks).
Proof.
  assert (E : ReliableDeps broken_deps).
  { split; [intros []; by exists 200000, tt|intros []; by exists 0, tt|intros ? ? []; by exists tt, tt]. }
  apply (tick_survives_failures utcParts broken_deps tt).
  intros since w. by exists [MkParts example_task [] [] []], w.
Defined.

Definition example_tables : TaskTables :=
  MkTaskTables [example_task] [MkStep "s1" "org" "t1" 0 "/hello"] [MkTimeRow "m1" "org" "t1" "*" 0]
    [MkTaskRun "r0" "org" "t9" Login "login:9" running 190000 None 0 None] [] [].

#[local] Instance example_environment :
  TaskEnvironment (Sink := unit) (ret 200000) (ret 0) (ret "r1") (fun _ _ => ret true)
    (fun _ _ _ _ => ret tt) (fun _ => offline) None.
Proof. by constructor; try (intros; intros []); do 2 eexists. Qed.

Lemma tick_ends_the_runs_it_starts_witness :
  let deps := task_deps (Sink := unit) (ret 200000) (ret 0) (ret "r1") (fun _ _ => ret true)
                (fun _ _ _ _ => ret tt) (fun _ => offline) (fun _ => "failed") None in
  length (runs (runTaskSchedulerTick utcParts deps (example_tables, tt)).2.1) = 3%nat
  /\ In (MkTaskRun "r0" "org" "t9" Login "login:9" running 190000 None 0 None) (runs example_tables).
Proof.
  split; [vm_compute; reflexivity|].
  apply (tick_ends_the_runs_it_starts utcParts (ret 200000) (ret 0) (ret "r1") (fun _ _ => ret true)
    (fun _ _ _ _ => ret tt) (fun _ => offline) (fun _ => "failed") None (example_tables, tt)).
  - vm_compute. by left.
  - reflexivity.
Defined.
