(* ===== verification/StatusKinds.v ===== *)
(** The vocabulary of the status history.

    packages/contracts/src/status.ts: states, event kinds, which events
    notify and which resolve an earlier one, flapping and the ranges of the
    charts. *)

From S2P Require Import Prelude.

(** [STATUS_SUBJECT_TYPES], [STATUS_DIMENSIONS] and [STATUS_STATES] *)
Inductive StatusDimension :=
  | host_reachability | host_service_health | host_drift
  | instance_connection | instance_process | instance_drift.

Inductive StatusState :=
  | st_up | st_suspect | st_down | st_unknown
  | st_joined | st_interrupted | st_never_joined | st_excluded
  | st_running | st_stuck | st_stopped_expected | st_stopped_unexpected
  | st_degraded | st_healthy | st_drifting | st_clear.

(** [STATUS_EVENT_KINDS] *)
Inductive StatusEventKind :=
  | host_check_failed | host_check_recovered | host_unreachable | host_recovered
  | host_degraded | host_healthy | host_drift_started | host_drift_resolved
  | instance_joined | instance_disconnected | instance_reconnected | instance_kicked
  | instance_connection_lost | instance_flapping | instance_never_joined | instance_started
  | instance_stopped | instance_unexpected_stop | instance_process_recovered
  | instance_needs_auth | instance_drift_started | instance_drift_resolved | monitoring_gap.

(** [STATUS_SOURCES] and [STATUS_RANGES] *)
Inductive StatusSource := host_probe | journal | live_channel | reconcile.
Inductive StatusRange := range_24h | range_7d | range_30d.

#[global] Instance StatusDimension_eq_dec : EqDecision StatusDimension.
Proof. solve_decision. Defined.
#[global] Instance StatusState_eq_dec : EqDecision StatusState.
Proof. solve_decision. Defined.
#[global] Instance StatusEventKind_eq_dec : EqDecision StatusEventKind.
Proof. solve_decision. Defined.
#[global] Instance StatusSource_eq_dec : EqDecision StatusSource.
Proof. solve_decision. Defined.
#[global] Instance StatusRange_eq_dec : EqDecision StatusRange.
Proof. solve_decision. Defined.

(** The text of a kind. *)
Definition kind_text (kind : StatusEventKind) : string :=
  match kind with
  | host_check_failed => "host.check_failed"
  | host_check_recovered => "host.check_recovered"
  | host_unreachable => "host.unreachable"
  | host_recovered => "host.recovered"
  | host_degraded => "host.degraded"
  | host_healthy => "host.healthy"
  | host_drift_started => "host.drift_started"
  | host_drift_resolved => "host.drift_resolved"
  | instance_joined => "instance.joined"
  | instance_disconnected => "instance.disconnected"
  | instance_reconnected => "instance.reconnected"
  | instance_kicked => "instance.kicked"
  | instance_connection_lost => "instance.connection_lost"
  | instance_flapping => "instance.flapping"
  | instance_never_joined => "instance.never_joined"
  | instance_started => "instance.started"
  | instance_stopped => "instance.stopped"
  | instance_unexpected_stop => "instance.unexpected_stop"
  | instance_process_recovered => "instance.process_recovered"
  | instance_needs_auth => "instance.needs_auth"
  | instance_drift_started => "instance.drift_started"
  | instance_drift_resolved => "instance.drift_resolved"
  | monitoring_gap => "monitoring.gap"
  end.

Lemma kind_text_inj k k' : kind_text k = kind_text k' -> k = k'.
Proof. by destruct k, k'. Qed.

(** The texts hold no colon, so a key that ends in one can be cut. *)
Lemma kind_text_free k : free_of ":" (kind_text k) = true.
Proof. by destruct k. Qed.

Definition NOTIFYING_EVENT_KINDS : list StatusEventKind :=
  [host_unreachable; host_drift_started; instance_disconnected; instance_flapping;
   instance_never_joined; instance_unexpected_stop; instance_needs_auth; instance_drift_started].

Definition RESOLVING_EVENT_KINDS : list StatusEventKind :=
  [host_recovered; host_drift_resolved; instance_reconnected; instance_process_recovered;
   instance_drift_resolved].

Definition isNotifyingEvent (kind : StatusEventKind) : bool :=
  bool_decide (kind ∈ NOTIFYING_EVENT_KINDS).

(** [RESOLVES[kind]] *)
Definition problemResolvedBy (kind : StatusEventKind) : option StatusEventKind :=
  match kind with
  | host_recovered => Some host_unreachable
  | host_drift_resolved => Some host_drift_started
  | instance_reconnected => Some instance_disconnected
  | instance_process_recovered => Some instance_unexpected_stop
  | instance_drift_resolved => Some instance_drift_started
  | _ => None
  end.

Definition FLAPPING_WINDOW_MS : Z := 30 * 60 * 1000.
Definition FLAPPING_THRESHOLD : nat := 5.

Definition isFlapping (losses : list Z) (now : Z) : bool :=
  (FLAPPING_THRESHOLD
     <=? length (List.filter (fun at_ => (now - at_ <=? FLAPPING_WINDOW_MS)%Z) losses))%nat.

Definition HOST_SUSPECT_TO_DOWN_MS : Z := 3 * 60 * 1000.
Definition INSTANCE_INTERRUPTED_TO_DOWN_MS : Z := 2 * 60 * 1000.
Definition INSTANCE_NEVER_JOINED_MS : Z := 3 * 60 * 1000.

Definition DEFAULT_STATUS_RETENTION_DAYS : Z := 30.
Definition MIN_STATUS_RETENTION_DAYS : Z := 1.
Definition MAX_STATUS_RETENTION_DAYS : Z := 365.

Definition RANGE_SECONDS (range : StatusRange) : Z :=
  match range with
  | range_24h => 24 * 60 * 60
  | range_7d => 7 * 24 * 60 * 60
  | range_30d => 30 * 24 * 60 * 60
  end.

Definition BUCKET_SECONDS (range : StatusRange) : Z :=
  match range with
  | range_24h => 15 * 60
  | range_7d => 2 * 60 * 60
  | range_30d => 8 * 60 * 60
  end.

Definition rangeWithinRetention (range : StatusRange) (retentionDays : Z) : StatusRange :=
  let wanted := RANGE_SECONDS range / (24 * 60 * 60) in
  if wanted <=? retentionDays then range
  else if 7 <=? retentionDays then range_7d
  else range_24h.

Record Availability := MkAvailability {
  goodSeconds : Z; badSeconds : Z; degradedSeconds : Z; unknownSeconds : Z; excludedSeconds : Z }.

Definition EMPTY_AVAILABILITY : Availability := MkAvailability 0 0 0 0 0.

Definition measuredSeconds (availability : Availability) : Z :=
  goodSeconds availability + badSeconds availability + degradedSeconds availability.

(** Ratios as a numerator and a denominator. *)
Definition uptimeRatio (availability : Availability) : option (Z * Z) :=
  let measured := measuredSeconds availability in
  if measured =? 0 then None
  else Some (goodSeconds availability + degradedSeconds availability, measured).

Definition coverageRatio (availability : Availability) : option (Z * Z) :=
  let observable := measuredSeconds availability + unknownSeconds availability in
  if observable =? 0 then None else Some (measuredSeconds availability, observable).

(** A retained range never asks for more than is kept, for the retentions an
    operator may set. *)
Lemma rangeWithinRetention_fits range days :
  MIN_STATUS_RETENTION_DAYS <= days ->
  RANGE_SECONDS (rangeWithinRetention range days) <= Z.max days 1 * 86400
  /\ RANGE_SECONDS (rangeWithinRetention range days) <= RANGE_SECONDS range.
Proof.
  unfold MIN_STATUS_RETENTION_DAYS, rangeWithinRetention. intros H.
  destruct range; cbn -[Z.mul Z.leb]; repeat case_match; tests; cbn; lia.
Qed.
