(* ===== verification/Journal.v ===== *)
(** Reading a bot's journal.

    packages/contracts/src/boundary/journal.ts: the lines of
    [journalctl -o short-iso --show-cursor], the connection signals in them
    and the cursor to resume from.  [new Date(text)] on texts other than ISO
    ones is the parameter [other] of [date_of]. *)

From S2P Require Import Prelude Dates Calendar.

Record JournalLine := MkLine { line_at : Z; line_pid : string; line_message : string }.

(** The section sign, and the line terminators [.] does not match. *)
Definition SECTION_SIGN : Ascii.ascii := "167".

Definition is_terminator (c : Ascii.ascii) : bool := (c ≡? "010"%char) || (c ≡? "013"%char).

(** [value.replace(/§./g, "")] *)
Fixpoint stripColour (value : string) : string :=
  match value with
  | EmptyString => EmptyString
  | String c rest =>
      match rest with
      | String d rest' =>
          if (c ≡? SECTION_SIGN) && negb (is_terminator d) then stripColour rest'
          else String c (stripColour rest)
      | EmptyString => value
      end
  end.

(** The longest prefix whose characters satisfy [p], and the rest. *)
Fixpoint span (p : Ascii.ascii -> bool) (value : string) : string * string :=
  match value with
  | EmptyString => (EmptyString, EmptyString)
  | String c rest =>
      if p c then let (run, rest) := span p rest in (String c run, rest) else (EmptyString, value)
  end.

Definition nonempty (value : string) : bool := negb (value ≡? EmptyString).

(** [LINE.exec(raw)]: the stamp, the pid and the rest.  Every part of the
    pattern runs up to the first character it cannot match, so the match
    needs no backtracking. *)
Definition LINE (raw : string) : option (string * string * string) :=
  let (stamp, raw) := span (fun c => negb (is_white c)) raw in
  let (gap1, raw) := span is_white raw in
  let (host, raw) := span (fun c => negb (is_white c)) raw in
  let (gap2, raw) := span is_white raw in
  if negb (nonempty stamp && nonempty gap1 && nonempty host && nonempty gap2) then None
  else
    let (_, raw) := span (fun c => negb (c ≡? "["%char) && negb (c ≡? "]"%char)) raw in
    let? raw := skip_char "["%char raw in
    let (pid, raw) := span is_digit raw in
    let? raw := skip_char "]"%char raw in
    let? raw := skip_char ":"%char raw in
    let raw := match raw with String c rest => if is_white c then rest else raw | EmptyString => raw end in
    if nonempty pid && chars_all (fun c => negb (is_terminator c)) raw then Some (stamp, pid, raw)
    else None.

Section journal.
Variable other : string -> option Z.

Definition parseJournalLine (raw : string) : option JournalLine :=
  let? (stamp, pid, rest) := LINE raw in
  let? at_ := date_of other stamp in
  Some (MkLine at_ pid (trim (stripColour rest))).

Definition blank (candidate : string) : bool := trim candidate ≡? EmptyString.

Definition parseJournal (raw : string) : list JournalLine :=
  omap parseJournalLine (List.filter (fun candidate => negb (blank candidate)) (split_on NEWLINE raw)).
End journal.

(** ** Cursors *)

Definition is_hex (c : Ascii.ascii) : bool := is_digit c || in_range "a" "f" c.

(** A field of the cursor: [key], then hexadecimal digits, as many as
    [count] says. *)
Definition hex_field (key : string) (count : option nat) (value : string) : option string :=
  if negb (startsWith key value) then None
  else
    let (digits, rest) := span is_hex (slice_from (String.length key) value) in
    if match count with
       | Some n => (String.length digits =? n)%nat
       | None => nonempty digits
       end
    then Some rest else None.

Definition isJournalCursor (value : string) : bool :=
  match
    (let? value := hex_field "s=" (Some 32%nat) value in
     let? value := hex_field ";i=" None value in
     let? value := hex_field ";b=" (Some 32%nat) value in
     let? value := hex_field ";m=" None value in
     let? value := hex_field ";t=" None value in
     hex_field ";x=" None value)
  with
  | Some rest => rest ≡? EmptyString
  | None => false
  end.

Definition NOTE : string := "-- ".
Definition CURSOR_NOTE : string := "-- cursor: ".

Record JournalBatch := MkBatch { batch_lines : list string; batch_cursor : option string }.

Definition batch_step (batch : JournalBatch) (candidate : string) : JournalBatch :=
  if blank candidate then batch
  else if startsWith CURSOR_NOTE candidate then
    let shown := trim (slice_from (String.length CURSOR_NOTE) candidate) in
    MkBatch (batch_lines batch) (if isJournalCursor shown then Some shown else None)
  else if startsWith NOTE candidate then batch
  else MkBatch (batch_lines batch ++ [candidate]) (batch_cursor batch).

Definition journalBatch (raw : string) : JournalBatch :=
  fold_left batch_step (split_on NEWLINE raw) (MkBatch [] None).

Definition CURSOR_REFUSED : string := "Failed to seek to cursor".

Definition journalRefusedCursor (stderr : string) : bool := includes CURSOR_REFUSED stderr.

(** ** Connection signals *)

Definition JOINED_MARKER : string := "Server was successfully joined".
Definition DISCONNECTED_MARKER : string := "Disconnected by Server".
Definition STOPPED_MARKER : string := "Stopped open-mcc@".

Inductive ConnectionSignal :=
  | joined (at_ : Z) (pid : string)
  | disconnected (at_ : Z) (pid : string) (reason : option string)
  | stopped (at_ : Z) (pid : string).

Definition MCC_PREFIX : string := "[MCC]".

Definition withoutPrefix (message : string) : string :=
  if startsWith MCC_PREFIX message then trim (slice_from (String.length MCC_PREFIX) message)
  else message.

(** [message.split(":").slice(1).join(":")] *)
Definition after_colon (message : string) : string :=
  join_with ":" (tail (split_on ":" message)).

Definition signal_of (line : JournalLine) (next : option JournalLine) : option ConnectionSignal :=
  let message := withoutPrefix (line_message line) in
  if includes STOPPED_MARKER message then Some (stopped (line_at line) (line_pid line))
  else if includes JOINED_MARKER message then Some (joined (line_at line) (line_pid line))
  else if negb (includes DISCONNECTED_MARKER message) then None
  else
    let trailing := trim (after_colon message) in
    let following :=
      match next with
      | None => None
      | Some next => if negb (line_pid next ≡? line_pid line) then None
                     else Some (withoutPrefix (line_message next))
      end in
    let reason := if nonempty trailing then Some trailing else following in
    Some (disconnected (line_at line) (line_pid line)
            (match reason with
             | Some r => if nonempty r then Some r else None
             | None => None
             end)).

Fixpoint connectionSignals (lines : list JournalLine) : list ConnectionSignal :=
  match lines with
  | [] => []
  | line :: rest =>
      match signal_of line (head rest) with
      | Some signal => signal :: connectionSignals rest
      | None => connectionSignals rest
      end
  end.

(** ** Lemmas *)

Lemma span_app p value : value = (span p value).1 +:+ (span p value).2.
Proof.
  induction value as [|c rest IH]; [done|]. simpl. destruct (p c); [|done].
  destruct (span p rest) as [run rest']. cbn [fst snd] in *. rewrite string_app_cons. f_equal. exact IH.
Qed.

Lemma span_all p value : chars_all p (span p value).1 = true.
Proof. induction value as [|c rest IH]; [done|]. simpl. destruct (p c) eqn:E; [|done].
  destruct (span p rest) as [run rest']. simpl in *. by rewrite E.
Qed.

Lemma startsWith_app key value :
  startsWith key value = true -> value = key +:+ slice_from (String.length key) value.
Proof.
  revert value. unfold startsWith. induction key as [|c key IH]; intros value H; [done|].
  destruct value as [|d value]; [done|]. simpl in H.
  destruct (Ascii.ascii_dec c d) as [->|]; [|done]. rewrite string_app_cons.
  cbn [String.length slice_from]. f_equal. by apply IH.
Qed.

(** The characters of a cursor. *)
Definition cursor_char (c : Ascii.ascii) : bool :=
  is_hex c || (c ≡? ";"%char) || (c ≡? "="%char) || (c ≡? "s"%char) || (c ≡? "i"%char)
  || (c ≡? "m"%char) || (c ≡? "t"%char) || (c ≡? "x"%char).

Lemma hex_field_chars key count value rest :
  chars_all cursor_char key = true -> hex_field key count value = Some rest ->
  chars_all cursor_char rest = true -> chars_all cursor_char value = true.
Proof.
  unfold hex_field. intros Hkey H Hrest. destruct (startsWith key value) eqn:E; [|done].
  apply startsWith_app in E. simpl in H.
  pose proof (span_app is_hex (slice_from (String.length key) value)) as Happ.
  pose proof (span_all is_hex (slice_from (String.length key) value)) as Hall.
  destruct (span is_hex _) as [digits rest']. simpl in *. rewrite E, Happ, !chars_all_app, Hkey.
  assert (rest' = rest) as -> by (by destruct (match count with Some _ => _ | None => _ end); simplify_eq).
  rewrite Hrest, andb_true_r. simpl. eapply chars_all_impl; [|exact Hall].
  intros c Hc. unfold cursor_char. by rewrite Hc.
Qed.

Lemma isJournalCursor_chars value : isJournalCursor value = true -> chars_all cursor_char value = true.
Proof.
  unfold isJournalCursor. intros H.
  destruct (hex_field "s=" _ value) as [v1|] eqn:E1; [|done].
  destruct (hex_field ";i=" _ v1) as [v2|] eqn:E2; [|done].
  destruct (hex_field ";b=" _ v2) as [v3|] eqn:E3; [|done].
  destruct (hex_field ";m=" _ v3) as [v4|] eqn:E4; [|done].
  destruct (hex_field ";t=" _ v4) as [v5|] eqn:E5; [|done].
  destruct (hex_field ";x=" _ v5) as [v6|] eqn:E6; [|done]. tests. subst v6.
  eapply (hex_field_chars "s="), (hex_field_chars ";i="), (hex_field_chars ";b="),
    (hex_field_chars ";m="), (hex_field_chars ";t="), (hex_field_chars ";x="); try eassumption; done.
Qed.

(** What a batch keeps of its lines. *)
Lemma batch_step_cursor batch candidate :
  match batch_cursor batch with Some c => isJournalCursor c = true | None => True end ->
  match batch_cursor (batch_step batch candidate) with
  | Some c => isJournalCursor c = true
  | None => True
  end.
Proof.
  intros H. unfold batch_step. destruct (blank candidate); [done|].
  destruct (startsWith CURSOR_NOTE candidate); [|by destruct (startsWith NOTE candidate)].
  simpl. by destruct (isJournalCursor _) eqn:E.
Qed.

Lemma journalBatch_cursor raw cursor :
  batch_cursor (journalBatch raw) = Some cursor -> isJournalCursor cursor = true.
Proof.
  unfold journalBatch. intros H.
  assert (Hinv : forall l b, match batch_cursor b with Some c => isJournalCursor c = true | None => True end ->
    match batch_cursor (fold_left batch_step l b) with Some c => isJournalCursor c = true | None => True end).
  { induction l as [|x l IH]; intros b Hb; [done|]. apply IH. by apply batch_step_cursor. }
  specialize (Hinv (split_on NEWLINE raw) (MkBatch [] None) I). by rewrite H in Hinv.
Qed.

Example journal_line_example :
  parseJournalLine (fun text => if text ≡? "2026-08-31T09:00:00+0000" then Some 0 else None)
    "2026-08-31T09:00:00+0000 box mcc[411]: [MCC] Disconnected by Server: bye"
  = Some (MkLine 0 "411" "[MCC] Disconnected by Server: bye").
Proof. vm_compute. reflexivity. Qed.
