(* ===== verification/Connection.v ===== *)
(** A bot's connection, from its signals.

    packages/core/src/status/connection.ts turns the signals of the journal
    into changes of the connection state; packages/core/src/status/incident.ts
    follows the incident those changes open and close. *)

From S2P Require Import Prelude Dates Journal StatusKinds.

(** [CONNECTION_STATES] *)
Inductive ConnectionState := c_joined | c_interrupted | c_down | c_never_joined | c_unknown.

#[global] Instance ConnectionState_eq_dec : EqDecision ConnectionState.
Proof. solve_decision. Defined.

Definition CONNECTION_STATES : list ConnectionState :=
  [c_joined; c_interrupted; c_down; c_never_joined; c_unknown].

Definition status_of (state : ConnectionState) : StatusState :=
  match state with
  | c_joined => st_joined
  | c_interrupted => st_interrupted
  | c_down => st_down
  | c_never_joined => st_never_joined
  | c_unknown => st_unknown
  end.

Record ConnectionCurrent := MkCurrent {
  current_state : ConnectionState; since : option Z; current_pid : option string }.

Record ConnectionChange := MkChange {
  change_state : ConnectionState; change_at : Z; change_pid : option string;
  change_event : option StatusEventKind; change_reason : option string }.

Definition UNOBSERVED_CONNECTION : ConnectionCurrent := MkCurrent c_unknown None None.

Definition KICK_HINTS : list string := ["kick"; "banned"].

Definition looksLikeKick (reason : option string) : bool :=
  match reason with
  | None => false
  | Some reason => existsb (fun hint => includes hint (toLowerCase reason)) KICK_HINTS
  end.

(** One signal: the change it makes in [state], if any. *)
Definition change_of (state : ConnectionState) (signal : ConnectionSignal)
    : option ConnectionChange :=
  match signal with
  | joined at_ pid =>
      if state ≡? c_joined then None
      else Some (MkChange c_joined at_ (Some pid)
                   (Some (if state ≡? c_unknown then instance_joined else instance_reconnected)) None)
  | stopped at_ pid =>
      if state ≡? c_down then None
      else Some (MkChange c_down at_ (Some pid) (Some instance_stopped) None)
  | disconnected at_ pid reason =>
      if (state ≡? c_interrupted) || (state ≡? c_down) then None
      else Some (MkChange c_interrupted at_ (Some pid)
                   (Some (if looksLikeKick reason then instance_kicked else instance_connection_lost))
                   reason)
  end.

Fixpoint changes_from (state : ConnectionState) (signals : list ConnectionSignal)
    : list ConnectionChange :=
  match signals with
  | [] => []
  | signal :: rest =>
      match change_of state signal with
      | None => changes_from state rest
      | Some change => change :: changes_from (change_state change) rest
      end
  end.

Definition changesFromSignals (current : ConnectionCurrent) (signals : list ConnectionSignal)
    : list ConnectionChange :=
  changes_from (current_state current) signals.

Definition escalateIfStillDown (current : ConnectionCurrent) (now : Z) : option ConnectionChange :=
  if negb (current_state current ≡? c_interrupted) then None
  else
    match since current with
    | None => None
    | Some since =>
        if now - since <? INSTANCE_INTERRUPTED_TO_DOWN_MS then None
        else Some (MkChange c_down now (current_pid current) (Some instance_disconnected) None)
    end.

(** [connectionAfter] of packages/core/src/status/instance-observer.ts. *)
Definition connectionAfter (current : ConnectionCurrent) (changes : list ConnectionChange)
    : ConnectionCurrent :=
  match last changes with
  | None => current
  | Some change => MkCurrent (change_state change) (Some (change_at change)) (change_pid change)
  end.

(** ** Incidents *)

Record IncidentDecision := MkDecision {
  incidentId : option string; opened : bool; closing : option string }.

Definition CLOSES : list StatusEventKind := [instance_joined; instance_reconnected].

(** [fresh] is the id drawn when an incident opens. *)
Definition nextIncident (current : option string) (state : ConnectionState)
    (event : option StatusEventKind) (fresh : string) : IncidentDecision :=
  if match event with Some event => bool_decide (event ∈ CLOSES) | None => false end
  then MkDecision None false current
  else if state ≡? c_joined then MkDecision None false current
  else if state ≡? c_interrupted then
    match current with
    | Some _ => MkDecision current false None
    | None => MkDecision (Some fresh) true None
    end
  else MkDecision current false None.

Definition incidentOfEvent (decision : IncidentDecision) : option string :=
  match incidentId decision with
  | Some id => Some id
  | None => closing decision
  end.

Definition escalationKeyFor (incidentId : string) : string := "escalate:" +:+ incidentId.

Definition FLAPPING_LOSS_EVENTS : list StatusEventKind := [instance_connection_lost; instance_kicked].

Definition countsAsLoss (event : option StatusEventKind) : bool :=
  match event with
  | Some event => bool_decide (event ∈ FLAPPING_LOSS_EVENTS)
  | None => false
  end.

Record LossWindow := MkWindow { window_since : Z; window_until : Z }.

Definition lossWindow (at_ : Z) : LossWindow := MkWindow (at_ - FLAPPING_WINDOW_MS) at_.

Definition worthClaimingFlapping (recorded : list Z) (at_ : Z) : bool := isFlapping recorded at_.

(** ** Lemmas *)

(** A change moves to another state. *)
Lemma change_of_moves state signal change :
  change_of state signal = Some change -> change_state change <> state.
Proof.
  destruct signal; simpl; intros H; case_match; simplify_eq; tests; simpl; try congruence.
Qed.

Lemma connectionAfter_app current a b :
  connectionAfter current (a ++ b) = connectionAfter (connectionAfter current a) b.
Proof.
  destruct b as [|x b]; [by rewrite app_nil_r|]. unfold connectionAfter.
  rewrite last_app_cons. by destruct (last (x :: b)) eqn:E; [|apply last_None in E].
Qed.

Lemma changesFromSignals_app current a b :
  changesFromSignals current (a ++ b)
  = changesFromSignals current a
    ++ changesFromSignals (connectionAfter current (changesFromSignals current a)) b.
Proof.
  revert current. induction a as [|signal a IH]; intros current; [done|].
  unfold changesFromSignals in *. cbn [changes_from app].
  destruct (change_of (current_state current) signal) as [change|] eqn:E; [|apply IH].
  cbn [app]. f_equal.
  pose proof (IH (MkCurrent (change_state change) (Some (change_at change)) (change_pid change))) as H.
  cbn [current_state] in H. rewrite H. do 3 f_equal.
  change (change :: ?l) with ([change] ++ l). by rewrite connectionAfter_app.
Qed.

(** Neighbouring changes are to different states. *)
Fixpoint alternates (state : ConnectionState) (changes : list ConnectionChange) : Prop :=
  match changes with
  | [] => True
  | change :: rest => change_state change <> state /\ alternates (change_state change) rest
  end.

Lemma changes_alternate state signals : alternates state (changes_from state signals).
Proof.
  revert state. induction signals as [|signal signals IH]; intros state; [done|]. simpl.
  destruct (change_of state signal) as [change|] eqn:E; [|apply IH].
  split; [by eapply change_of_moves|apply IH].
Qed.

(** reading a journal page by page gives the changes of reading it at
    once: the changes of two pages are those of the first, and those of the
    second from where the first left the connection; and every change moves
    to another state than the one before it. *)
Theorem paging_keeps_the_changes current first second :
  changesFromSignals current (first ++ second)
  = changesFromSignals current first
    ++ changesFromSignals (connectionAfter current (changesFromSignals current first)) second
  /\ alternates (current_state current) (changesFromSignals current (first ++ second)).
Proof. split; [apply changesFromSignals_app|apply changes_alternate]. Qed.
