(* ===== verification/Observer.v ===== *)
(** Following a bot through its journal.

    packages/core/src/status/instance-observer.ts reads the journal on a
    machine, page by page, into connection changes;
    packages/core/src/instance/task-signals.ts reads the same journal and the
    client's event feed into the joins and respawns the tasks wait for.  The
    machine is a parameter: [exec] runs a command on a leased connection. *)

From S2P Require Import Prelude Dates Calendar Journal StatusKinds Connection.

Definition JOURNAL_READ_TIMEOUT_MS : Z := 20000.
Definition JOURNAL_MAX_LINES : nat := 2000.
Definition JOURNAL_LINE_COLUMNS : Z := 130.
Definition SEED_WINDOW : string := "-7d".

Definition journalResume (cursor : option string) : option string :=
  match cursor with
  | Some cursor => if isJournalCursor cursor then Some cursor else None
  | None => None
  end.

(** packages/core/src/host/profile.ts and packages/core/src/instance/unit.ts *)
Definition RUNTIME_DIR_PREFIX : string := "XDG_RUNTIME_DIR=/run/user/$(id -u) ".

Definition journalctl (args : string) : string :=
  RUNTIME_DIR_PREFIX +:+ "journalctl --user " +:+ args.

Definition unitName (instanceId : string) : result string :=
  let+ id := validateInstanceId instanceId in Ok ("open-mcc@" +:+ id).

Definition QUOTE : string := String "034" "".

(** [JSON.stringify] of a text that holds no quote, backslash or control
    character, as [SEED_WINDOW] and the cursors do not. *)
Definition stringify (text : string) : string := QUOTE +:+ text +:+ QUOTE.

Definition widthOf (command : string) : string :=
  "COLUMNS=" +:+ decimal JOURNAL_LINE_COLUMNS +:+ " " +:+ command.

Definition journalCommand (instanceId : string) (cursor : option string) : result string :=
  let resume := journalResume cursor in
  let+ unit := unitName instanceId in
  let read := "-u " +:+ unit +:+ " --utc -o short-iso --no-pager --no-full --show-cursor" in
  Ok (match resume with
      | None =>
          widthOf (journalctl (read +:+ " --since " +:+ stringify SEED_WINDOW +:+ " -n "
                                 +:+ decimal (Z.of_nat JOURNAL_MAX_LINES)))
      | Some resume =>
          widthOf (journalctl (read +:+ " --cursor " +:+ stringify resume +:+ " -n "
                                 +:+ decimal (Z.of_nat JOURNAL_MAX_LINES + 1)))
      end).

(** [??] on [string | undefined] and [string | null] *)
Definition or_else {A} (a b : option A) : option A := match a with Some _ => a | None => b end.

Record ExecResult := MkExec { exitCode : Z; stdout : string; stderr : string }.

(** A leased connection. *)
Record JournalLease (W : Type) := MkLease {
  exec : string -> M W ExecResult;
  release : M W unit }.
Arguments exec {W}. Arguments release {W}.

(** ** Connection changes *)

Record InstanceReading := MkReading {
  reading_changes : list ConnectionChange; reading_cursor : option string;
  reading_full : bool; reading_refused : bool }.

Section observer.
Variable other : string -> option Z.
Context {W : Type}.

(** The signals of a batch; on a full page those of the last line, which the
    next page starts with, are left to it. *)
Definition page_signals (lines : list string) (full : bool) : list ConnectionSignal :=
  let sighted := connectionSignals (parseJournal other (join_with newline lines)) in
  let beyond :=
    length (connectionSignals (parseJournal other
      (if full then match last lines with Some l => l | None => EmptyString end else EmptyString))) in
  firstn (length sighted - beyond) sighted.

(** The one change of a first reading. *)
Definition seeded_change (latest : ConnectionSignal) : ConnectionChange :=
  match latest with
  | joined at_ pid => MkChange c_joined at_ (Some pid) (Some instance_joined) None
  | stopped at_ pid => MkChange c_down at_ (Some pid) (Some instance_stopped) None
  | disconnected at_ pid reason =>
      MkChange c_interrupted at_ (Some pid) (Some instance_connection_lost) reason
  end.

Definition reading_of (result : ExecResult) (current : ConnectionCurrent) (cursor : option string)
    : InstanceReading :=
  let resume := journalResume cursor in
  if negb (exitCode result =? 0) then
    MkReading [] cursor false (bool_decide (is_Some resume) && journalRefusedCursor (stderr result))
  else
    let batch := journalBatch (stdout result) in
    let full := bool_decide (is_Some resume) && (JOURNAL_MAX_LINES <? length (batch_lines batch))%nat in
    let signals := page_signals (batch_lines batch) full in
    let next := or_else (batch_cursor batch) cursor in
    match resume with
    | None =>
        match last signals with
        | None => MkReading [] next full false
        | Some latest => MkReading [seeded_change latest] next full false
        end
    | Some _ => MkReading (changesFromSignals current signals) next full false
    end.

Definition readConnectionChanges (reader : JournalLease W) (instanceId : string)
    (current : ConnectionCurrent) (cursor : option string) : M W InstanceReading :=
  let* command := lift (journalCommand instanceId cursor) in
  let* result := exec reader command in
  ret (reading_of result current cursor).

Definition JOURNAL_DRAIN_ROUNDS : nat := 4.

Record JournalDrain := MkDrain {
  lease : M W (option (JournalLease W));
  record : list ConnectionChange -> M W unit;
  saveCursor : string -> M W unit;
  onRefused : string -> M W unit }.

Inductive DrainOutcome := drained | unleased.

Fixpoint drain_rounds (rounds : nat) (drain : JournalDrain) (instanceId : string)
    (seen : ConnectionCurrent) (at_ : option string) : M W DrainOutcome :=
  match rounds with
  | O => ret drained
  | S rounds =>
      let* leased := lease drain in
      match leased with
      | None => ret unleased
      | Some reader =>
          let* reading :=
            try_finally (readConnectionChanges reader instanceId seen at_) (release reader) in
          record drain (reading_changes reading) ;;;
          match reading_refused reading, at_ with
          | true, Some refused =>
              onRefused drain refused ;;;
              drain_rounds rounds drain instanceId seen None
          | _, _ =>
              match reading_cursor reading with
              | None => ret drained
              | Some next =>
                  if negb (reading_full reading) then
                    (if negb (Some next ≡? at_) then saveCursor drain next else ret tt) ;;;
                    ret drained
                  else
                    saveCursor drain next ;;;
                    drain_rounds rounds drain instanceId
                      (connectionAfter seen (reading_changes reading)) (Some next)
              end
          end
      end
  end.

Definition drainConnectionChanges (drain : JournalDrain) (instanceId : string)
    (current : ConnectionCurrent) (cursor : option string) : M W DrainOutcome :=
  drain_rounds JOURNAL_DRAIN_ROUNDS drain instanceId current cursor.

(** [I] stands for the rows of the instances. *)
Fixpoint observeEachInstance {I : Type} (instances : list I) (observe : I -> M W DrainOutcome)
    (onFailed : I -> thrown -> M W unit) : M W unit :=
  match instances with
  | [] => ret tt
  | instance :: rest =>
      let* stop :=
        try_catch
          (let* outcome := observe instance in
           ret (match outcome with unleased => true | drained => false end))
          (fun error => onFailed instance error ;;; ret false) in
      if stop then ret tt else observeEachInstance rest observe onFailed
  end.
End observer.
Arguments JournalDrain W : clear implicits.
Arguments MkDrain {W}. Arguments lease {W}. Arguments record {W}. Arguments saveCursor {W}.
Arguments onRefused {W}.

(** ** Joins and respawns *)

Definition JOIN_DRAIN_ROUNDS : nat := 4.
Definition RESPAWN_EVENT_TYPE : string := "respawn".
Definition RESPAWN_PAGE_MAX : Z := 200.

Record JoinSighting := MkJoin { join_process : string; join_occurredAt : Z }.

Record JoinReading := MkJoinReading {
  joins : list JoinSighting; join_cursor : option string; join_seeded : bool;
  join_refused : bool; join_full : bool }.

Section joins.
Variable other : string -> option Z.
Context {W : Type}.

Definition joins_of (signals : list ConnectionSignal) : list JoinSighting :=
  omap (fun signal => match signal with
                      | joined at_ pid => Some (MkJoin pid at_)
                      | _ => None
                      end) signals.

Definition join_reading_of (result : ExecResult) (cursor : option string) : JoinReading :=
  let resume := journalResume cursor in
  if negb (exitCode result =? 0) then
    MkJoinReading [] cursor false
      (bool_decide (is_Some resume) && journalRefusedCursor (stderr result)) false
  else
    let batch := journalBatch (stdout result) in
    let next := or_else (batch_cursor batch) cursor in
    match resume with
    | None => MkJoinReading [] next true false false
    | Some _ =>
        MkJoinReading
          (joins_of (connectionSignals (parseJournal other (join_with newline (batch_lines batch)))))
          next false false (JOURNAL_MAX_LINES <? length (batch_lines batch))%nat
    end.

Definition readJoinSightings (reader : JournalLease W) (instanceId : string)
    (cursor : option string) : M W JoinReading :=
  let* command := lift (journalCommand instanceId cursor) in
  let* result := exec reader command in
  ret (join_reading_of result cursor).

Record JoinDrain := MkJoinDrain {
  join_read : option string -> M W JoinReading;
  join_record : list JoinSighting -> M W unit;
  join_saveCursor : string -> M W unit }.

Fixpoint drain_joins (rounds : nat) (drain : JoinDrain) (at_ : option string) : M W unit :=
  match rounds with
  | O => ret tt
  | S rounds =>
      let* reading := join_read drain at_ in
      join_record drain (joins reading) ;;;
      if join_refused reading && bool_decide (is_Some at_) then drain_joins rounds drain None
      else
        match join_cursor reading with
        | None => ret tt
        | Some next =>
            (if negb (Some next ≡? at_) then join_saveCursor drain next else ret tt) ;;;
            if negb (join_full reading) then ret tt
            else drain_joins rounds drain (Some next)
        end
  end.

Definition drainJoinSightings (drain : JoinDrain) (cursor : option string) : M W unit :=
  drain_joins JOIN_DRAIN_ROUNDS drain cursor.
End joins.
Arguments JoinDrain W : clear implicits.
Arguments MkJoinDrain {W}. Arguments join_read {W}. Arguments join_record {W}.
Arguments join_saveCursor {W}.

Record McpEvent := MkEvent { event_id : Z; event_timestampUtc : string; event_type : string }.

Record McpEventPage := MkPage { latestId : Z; page_events : list McpEvent }.

Record RespawnSighting := MkRespawn { respawn_eventId : Z; respawn_occurredAt : Z }.

Record RespawnReading := MkRespawnReading {
  respawns : list RespawnSighting; respawn_cursor : Z; respawn_seeded : bool }.

Section respawns.
Variable other : string -> option Z.

Definition momentOf (stamp : string) (fallback : Z) : Z :=
  match date_of other stamp with Some at_ => at_ | None => fallback end.

Definition respawnsFrom (page : McpEventPage) (cursor : option Z) (at_ : Z) : RespawnReading :=
  let afterId := match cursor with Some c => c | None => 0 end in
  let highest :=
    fold_left (fun seen event => Z.max seen (event_id event)) (page_events page) (latestId page) in
  let next := Z.max afterId highest in
  match cursor with
  | None => MkRespawnReading [] next true
  | Some _ =>
      MkRespawnReading
        (map (fun event => MkRespawn (event_id event) (momentOf (event_timestampUtc event) at_))
           (List.filter (fun event => (event_type event ≡? RESPAWN_EVENT_TYPE)
                                      && (afterId <? event_id event)) (page_events page)))
        next false
  end.
End respawns.

(** ** The command line *)

(** whatever cursor is stored for a bot, the command that reads its
    journal is one of two fixed shapes: the stored text is put into it only
    when it has the form of a cursor, and then holds nothing but letters,
    digits, semicolons and equal signs between its quotes. *)
Theorem journal_command_is_safe instanceId cursor command
    (Hcommand : journalCommand instanceId cursor = Ok command) :
  exists unit, unitName instanceId = Ok unit
  /\ let read := "-u " +:+ unit +:+ " --utc -o short-iso --no-pager --no-full --show-cursor" in
     command = "COLUMNS=130 XDG_RUNTIME_DIR=/run/user/$(id -u) journalctl --user " +:+ read
                 +:+ " --since " +:+ QUOTE +:+ "-7d" +:+ QUOTE +:+ " -n 2000"
     \/ exists resume, cursor = Some resume /\ isJournalCursor resume = true
        /\ chars_all cursor_char resume = true
        /\ command = "COLUMNS=130 XDG_RUNTIME_DIR=/run/user/$(id -u) journalctl --user " +:+ read
                 +:+ " --cursor " +:+ QUOTE +:+ resume +:+ QUOTE +:+ " -n 2001".
Proof.
  unfold journalCommand in Hcommand. destruct (unitName instanceId) as [unit|e]; [|done].
  cbn [rbind] in Hcommand. injection Hcommand as <-. exists unit. split; [done|]. cbv zeta.
  unfold widthOf, journalctl, RUNTIME_DIR_PREFIX, stringify, SEED_WINDOW, journalResume.
  destruct cursor as [cursor|]; [destruct (isJournalCursor cursor) eqn:E|].
  - right. exists cursor. split; [done|]. split; [done|].
    split; [by apply isJournalCursor_chars|]. rewrite !string_app_assoc. reflexivity.
  - left. rewrite !string_app_assoc. reflexivity.
  - left. rewrite !string_app_assoc. reflexivity.
Qed.

Lemma journal_command_is_safe_witness :
  exists command, journalCommand "bot-1" (Some "not a cursor; rm -rf /") = Ok command
  /\ exists unit, unitName "bot-1" = Ok unit
  /\ let read := "-u " +:+ unit +:+ " --utc -o short-iso --no-pager --no-full --show-cursor" in
     command = "COLUMNS=130 XDG_RUNTIME_DIR=/run/user/$(id -u) journalctl --user " +:+ read
                 +:+ " --since " +:+ QUOTE +:+ "-7d" +:+ QUOTE +:+ " -n 2000"
     \/ exists resume, Some "not a cursor; rm -rf /" = Some resume /\ isJournalCursor resume = true
        /\ chars_all cursor_char resume = true
        /\ command = "COLUMNS=130 XDG_RUNTIME_DIR=/run/user/$(id -u) journalctl --user " +:+ read
                 +:+ " --cursor " +:+ QUOTE +:+ resume +:+ QUOTE +:+ " -n 2001".
Proof.
  eexists. split; [vm_compute; reflexivity|].
  apply (journal_command_is_safe "bot-1" (Some "not a cursor; rm -rf /")). vm_compute. reflexivity.
Defined.

(** ** Connections are given back *)

Section leases.
Variable other : string -> option Z.
Context {W : Type} (held : W -> Z).

(** A drain whose leases are counted: taking one adds one, giving it back
    takes one away, and nothing else touches the count. *)
Class CountedDrain (drain : JournalDrain W) : Prop := {
  lease_counted : forall w, match lease drain w with
    | (Ok (Some reader), w') =>
        held w' = held w + 1
        /\ (forall command, keeps held (exec reader command))
        /\ forall v, exists v', release reader v = (Ok tt, v') /\ held v' = held v - 1
    | (_, w') => held w' = held w
    end;
  record_keeps : forall changes, keeps held (record drain changes);
  save_keeps : forall cursor, keeps held (saveCursor drain cursor);
  refused_keeps : forall cursor, keeps held (onRefused drain cursor) }.

Lemma keeps_ret {A} (a : A) : keeps held (ret a).
Proof. intros w. done. Qed.

Lemma keeps_bind {A B} (m : M W A) (k : A -> M W B) :
  keeps held m -> (forall a, keeps held (k a)) -> keeps held (bind m k).
Proof.
  intros Hm Hk w. specialize (Hm w). unfold bind. destruct (m w) as [[a|e] w']; [|done].
  by rewrite Hk.
Qed.

Lemma keeps_if {A} (b : bool) (m m' : M W A) :
  keeps held m -> keeps held m' -> keeps held (if b then m else m').
Proof. by destruct b. Qed.

Lemma keeps_read reader instanceId current cursor :
  (forall command, keeps held (exec reader command)) ->
  keeps held (readConnectionChanges other reader instanceId current cursor).
Proof.
  intros H. apply keeps_bind; [by intros w|]. intros command. apply keeps_bind; [apply H|].
  intros result. apply keeps_ret.
Qed.

Lemma drain_rounds_keeps drain {counted : CountedDrain drain} rounds : forall instanceId seen at_,
  keeps held (drain_rounds other rounds drain instanceId seen at_).
Proof.
  induction rounds as [|rounds IH]; intros instanceId seen at_; [apply keeps_ret|].
  cbn [drain_rounds]. intros w. unfold bind at 1. pose proof (lease_counted w) as Hlease.
  destruct (lease drain w) as [[[reader|]|e] w']; [|exact Hlease|exact Hlease].
  destruct Hlease as (Hheld & Hexec & Hrelease). unfold bind at 1, try_finally.
  pose proof (keeps_read reader instanceId seen at_ Hexec w') as Hread.
  destruct (readConnectionChanges _ _ _ _ _ w') as [r w'']. cbn in Hread.
  destruct (Hrelease w'') as (v & -> & Hv). destruct r as [reading|e]; [|cbn; lia].
  match goal with |- held (?m v).2 = _ => assert (Hrest : keeps held m); [|rewrite (Hrest v); lia] end.
  apply keeps_bind; [apply record_keeps|]. intros ?.
  assert (Hend : keeps held
    match reading_cursor reading with
    | Some next =>
        if negb (reading_full reading) then
          (if negb (Some next ≡? at_) then saveCursor drain next else ret tt) ;;; ret drained
        else saveCursor drain next ;;;
          drain_rounds other rounds drain instanceId
            (connectionAfter seen (reading_changes reading)) (Some next)
    | None => ret drained
    end).
  { destruct (reading_cursor reading) as [next|]; [|apply keeps_ret]. apply keeps_if.
    - apply keeps_bind; [apply keeps_if; [apply save_keeps|apply keeps_ret]|]. intros ?. apply keeps_ret.
    - apply keeps_bind; [apply save_keeps|]. intros ?. apply IH. }
  destruct (reading_refused reading); [|exact Hend]. destruct at_ as [refused|]; [|exact Hend].
  apply keeps_bind; [apply refused_keeps|]. intros ?. apply IH.
Qed.
End leases.

(** draining a bot's journal gives back every connection it leases, on
    every exit: when it finishes, when no connection is to be had, and when
    reading, recording or saving the cursor throws. *)
Theorem drain_releases_every_lease other {W} (held : W -> Z) drain
    {counted : CountedDrain held drain} instanceId current cursor w :
  held (drainConnectionChanges other drain instanceId current cursor w).2 = held w.
Proof. apply (drain_rounds_keeps other held drain JOURNAL_DRAIN_ROUNDS). Qed.

(** A drain over the count itself, whose machine is offline. *)
Definition offline_drain : JournalDrain Z :=
  {| lease := fun n => (Ok (Some {| exec := fun _ => throw (ThrownError PlainError "offline");
                                    release := fun n => (Ok tt, n - 1) |}), n + 1);
     record := fun _ => ret tt; saveCursor := fun _ => ret tt; onRefused := fun _ => ret tt |}.

Lemma drain_releases_every_lease_witness :
  (drainConnectionChanges (fun _ => None) offline_drain "bot-1" UNOBSERVED_CONNECTION None 0).2 = 0.
Proof.
  assert (E : CountedDrain (fun n => n) offline_drain).
  { split; try done. intros n. split; [lia|]. split; [done|]. intros v. by exists (v - 1). }
  apply (drain_releases_every_lease (fun _ => None) (fun n => n) offline_drain).
Defined.

(** ** Event pages *)

Lemma highest_bound events : forall start,
  start <= fold_left (fun seen event => Z.max seen (event_id event)) events start
  /\ forall e, In e events ->
       event_id e <= fold_left (fun seen event => Z.max seen (event_id event)) events start.
Proof.
  induction events as [|e events IH]; intros start; [split; [simpl; lia|done]|]. cbn [fold_left].
  destruct (IH (Z.max start (event_id e))) as [H1 H2]. split; [lia|].
  intros x [<-|Hx]; [lia|by apply H2].
Qed.

(** A respawn is reported once: read with the cursor a page left, a later
    page never reports an event the earlier page held, the cursor never goes
    back, and each new respawn of a page is reported. *)
Theorem respawns_are_reported_once other page1 page2 cursor at1 at2 :
  let first := respawnsFrom other page1 cursor at1 in
  let second := respawnsFrom other page2 (Some (respawn_cursor first)) at2 in
  match cursor with Some c => c | None => 0 end <= respawn_cursor first
  /\ respawn_cursor first <= respawn_cursor second
  /\ (forall r, In r (respawns second) ->
        respawn_cursor first < respawn_eventId r <= respawn_cursor second
        /\ ~ In (respawn_eventId r) (map event_id (page_events page1)))
  /\ (forall e, In e (page_events page2) -> event_type e = RESPAWN_EVENT_TYPE ->
        respawn_cursor first < event_id e -> In (event_id e) (map respawn_eventId (respawns second))).
Proof.
  cbv zeta. set (first := respawnsFrom other page1 cursor at1).
  assert (Hfirst : match cursor with Some c => c | None => 0 end <= respawn_cursor first
    /\ forall e, In e (page_events page1) -> event_id e <= respawn_cursor first).
  { pose proof (highest_bound (page_events page1) (latestId page1)) as [_ Hb]. unfold first, respawnsFrom.
    destruct cursor; cbn; (split; [lia|]; intros e He; specialize (Hb e He); lia). }
  destruct Hfirst as [Hmono Hheld]. split; [exact Hmono|].
  pose proof (highest_bound (page_events page2) (latestId page2)) as [_ Hb2].
  unfold respawnsFrom. cbn [respawns respawn_cursor]. split; [lia|]. split.
  - intros r Hr. apply in_map_iff in Hr as (e & <- & He). apply filter_In in He as [He Hc].
    cbn [respawn_eventId]. tests. specialize (Hb2 e He). split; [lia|].
    rewrite in_map_iff. intros (e1 & Heq & He1). specialize (Hheld e1 He1). lia.
  - intros e He Ht Hnew. rewrite map_map. cbn. apply in_map_iff. exists e. split; [done|].
    apply filter_In. split; [done|]. rewrite bool_decide_eq_true_2 by done. by apply Z.ltb_lt.
Qed.
