(* ===== verification/Reachability.v ===== *)
(** Whether a machine answers.

    packages/core/src/status/reachability.ts: one check moves a machine
    between up, suspect and down.  The theorem says which of the three it is
    in terms of the checks alone: the run of failures since the last check
    that got through. *)

From S2P Require Import Prelude StatusKinds.

Inductive ReachabilityState := r_up | r_suspect | r_down | r_unknown.

#[global] Instance ReachabilityState_eq_dec : EqDecision ReachabilityState.
Proof. solve_decision. Defined.

Record ReachabilityCurrent := MkReach { reach_state : ReachabilityState; failureStartedAt : option Z }.

Record ReachabilityDecision := MkReachDecision {
  next_state : ReachabilityState; next_failureStartedAt : option Z;
  reach_event : option StatusEventKind; changed : bool }.

Definition UNOBSERVED : ReachabilityCurrent := MkReach r_unknown None.

Definition nextReachability (current : ReachabilityCurrent) (reached : bool) (now : Z)
    : ReachabilityDecision :=
  if reached then
    if reach_state current ≡? r_up then MkReachDecision r_up None None false
    else
      MkReachDecision r_up None
        (if reach_state current ≡? r_down then Some host_recovered
         else if reach_state current ≡? r_suspect then Some host_check_recovered
         else None) true
  else if reach_state current ≡? r_down then
    MkReachDecision r_down (failureStartedAt current) None false
  else
    let failingSince :=
      match failureStartedAt current with
      | Some t => if reach_state current ≡? r_suspect then t else now
      | None => now
      end in
    if HOST_SUSPECT_TO_DOWN_MS <=? now - failingSince then
      MkReachDecision r_down (Some failingSince) (Some host_unreachable) true
    else if reach_state current ≡? r_suspect then
      MkReachDecision r_suspect (Some failingSince) None false
    else MkReachDecision r_suspect (Some failingSince) (Some host_check_failed) true.

(** ** A machine under observation *)

Record Check_ := MkCheck { check_at : Z; check_reached : bool }.

Definition step (current : ReachabilityCurrent) (c : Check_) : ReachabilityCurrent :=
  let decision := nextReachability current (check_reached c) (check_at c) in
  MkReach (next_state decision) (next_failureStartedAt decision).

Definition observe (checks : list Check_) : ReachabilityCurrent := fold_left step checks UNOBSERVED.

(** The instants of the checks that failed since the last that got through,
    in order. *)
Definition streak_step (streak : list Z) (c : Check_) : list Z :=
  if check_reached c then [] else streak ++ [check_at c].

Definition streak (checks : list Check_) : list Z := fold_left streak_step checks [].

(** What a machine is said to be, from the streak. *)
Definition verdict (checks : list Check_) : ReachabilityCurrent :=
  if (length checks =? 0)%nat then UNOBSERVED
  else match streak checks with
  | [] => MkReach r_up None
  | first :: rest =>
      MkReach (if HOST_SUSPECT_TO_DOWN_MS <=? List.last rest first - first then r_down else r_suspect)
        (Some first)
  end.

Definition checks_in_order (checks : list Check_) : Prop := StronglySorted Z.le (map check_at checks).

(** The kinds a run of checks records, in order. *)
Fixpoint events_from (current : ReachabilityCurrent) (checks : list Check_) : list StatusEventKind :=
  match checks with
  | [] => []
  | c :: rest =>
      let decision := nextReachability current (check_reached c) (check_at c) in
      match reach_event decision with
      | Some e => e :: events_from (step current c) rest
      | None => events_from (step current c) rest
      end
  end.

Lemma last_snoc_default {A} (l : list A) x d : List.last (l ++ [x]) d = x.
Proof. apply List.last_last. Qed.

Lemma checks_in_order_snoc checks c :
  checks_in_order (checks ++ [c]) ->
  checks_in_order checks /\ forall t, In t (map check_at checks) -> t <= check_at c.
Proof.
  unfold checks_in_order. rewrite map_app. simpl.
  induction checks as [|x checks IH]; simpl; intros H; [split; [constructor|done]|].
  apply StronglySorted_inv in H as [H Hx]. destruct (IH H) as [H1 H2].
  rewrite Forall_app in Hx. destruct Hx as [Hx Hc]. split; [by constructor|].
  intros t [<-|Ht]; [by inversion Hc|by apply H2].
Qed.

Lemma streak_snoc checks c : streak (checks ++ [c]) = streak_step (streak checks) c.
Proof. unfold streak. by rewrite fold_left_app. Qed.

Lemma streak_in checks t : In t (streak checks) -> In t (map check_at checks).
Proof.
  induction checks as [|c checks IH] using rev_ind; [done|].
  rewrite streak_snoc, map_app, in_app_iff. simpl. unfold streak_step.
  destruct (check_reached c); [done|]. rewrite in_app_iff. simpl. intros [H|H]; [left; by apply IH|by right].
Qed.

(** after any checks in order, what is said of a machine is decided by
    its run of failures alone: nothing before the first check, up when the
    last check got through, suspect while the run is shorter than the limit
    and down once a check fails that long after the run began; the start of
    the failure is the first check of the run. *)
Theorem reachability_is_the_failing_streak checks
    (Hordered : checks_in_order checks) : observe checks = verdict checks.
Proof.
  induction checks as [|c checks IH] using rev_ind; [done|].
  apply checks_in_order_snoc in Hordered as [Hordered Hle]. specialize (IH Hordered).
  assert (Hpos : 0 < HOST_SUSPECT_TO_DOWN_MS) by done.
  unfold observe. rewrite fold_left_app. fold (observe checks). rewrite IH. clear IH.
  unfold verdict. rewrite streak_snoc, length_app, Nat.add_1_r. cbn [fold_left Nat.eqb].
  destruct c as [now reached]. unfold step, nextReachability, streak_step.
  cbn [check_at check_reached] in *.
  destruct (Nat.eqb_spec (length checks) 0) as [H0|Hne].
  { apply nil_length_inv in H0 as ->. destruct reached; [done|]. cbn [UNOBSERVED reach_state
      failureStartedAt streak fold_left app List.last]. constants. rewrite !Z.sub_diag.
    by destruct (Z.leb_spec HOST_SUSPECT_TO_DOWN_MS 0); [lia|]. }
  destruct (streak checks) as [|first rest] eqn:Es.
  - destruct reached; [done|]. cbn [reach_state failureStartedAt app List.last]. constants.
    rewrite !Z.sub_diag. by destruct (Z.leb_spec HOST_SUSPECT_TO_DOWN_MS 0); [lia|].
  - assert (Hlast : List.last rest first <= now).
    { apply Hle, streak_in. rewrite Es. rewrite <- (last_cons_default first rest first).
      destruct (exists_last (l := first :: rest) ltac:(done)) as (l & x & Hx). rewrite Hx.
      rewrite last_snoc_default. apply in_app_iff. right. by left. }
    destruct reached.
    + by destruct (HOST_SUSPECT_TO_DOWN_MS <=? List.last rest first - first).
    + cbn [app]. rewrite last_snoc_default. cbn [reach_state failureStartedAt].
      destruct (Z.leb_spec HOST_SUSPECT_TO_DOWN_MS (List.last rest first - first)) as [H|H];
        constants; destruct (Z.leb_spec HOST_SUSPECT_TO_DOWN_MS (now - first)); try done; lia.
Qed.

Definition example_checks : list Check_ :=
  [MkCheck 0 true; MkCheck 60000 false; MkCheck 120000 false; MkCheck 240000 false].

Lemma reachability_is_the_failing_streak_witness :
  observe example_checks = verdict example_checks
  /\ observe example_checks = MkReach r_down (Some 60000).
Proof.
  split; [|vm_compute; reflexivity]. apply reachability_is_the_failing_streak.
  unfold checks_in_order. simpl. repeat constructor; lia.
Defined.

(** Problems and recoveries alternate. *)
Fixpoint alternating (down : bool) (events : list StatusEventKind) : Prop :=
  match events with
  | [] => True
  | e :: rest =>
      if e ≡? host_unreachable then down = false /\ alternating true rest
      else if e ≡? host_recovered then down = true /\ alternating false rest
      else alternating down rest
  end.

(** the events a machine records alternate: it is reported unreachable
    only when it was not, and recovered only after it was reported
    unreachable. *)
Theorem unreachable_and_recovered_alternate checks :
  alternating false (events_from UNOBSERVED checks).
Proof.
  enough (H : forall current,
    alternating (reach_state current ≡? r_down) (events_from current checks)) by exact (H UNOBSERVED).
  induction checks as [|c checks IH]; intros current; [done|]. cbn [events_from].
  specialize (IH (step current c)). revert IH. unfold step, nextReachability.
  destruct current as [state start]. destruct (check_reached c);
    destruct state, start as [start|]; cbn [reach_state failureStartedAt]; constants;
    try destruct (HOST_SUSPECT_TO_DOWN_MS <=? _);
    cbn [reach_event next_state next_failureStartedAt alternating]; constants; auto.
Qed.
