(* ===== verification/Rollup.v ===== *)
(** Availability over a window.

    packages/core/src/status/rollup.ts adds up, in seconds, how long a
    subject spent in each kind of state, over one window and over the
    buckets of a chart. *)

From S2P Require Import Prelude Dates StatusKinds.

Record RollableInterval := MkInterval {
  interval_state : StatusState; interval_startedAt : Z; interval_endedAt : option Z }.

Inductive AvailabilityBucket := good | bad | degraded | unknown | excluded.

#[global] Instance AvailabilityBucket_eq_dec : EqDecision AvailabilityBucket.
Proof. solve_decision. Defined.

(** [BUCKET_BY_STATE] *)
Definition bucketOf (state : StatusState) : AvailabilityBucket :=
  match state with
  | st_up | st_joined | st_running | st_healthy | st_clear => good
  | st_down | st_interrupted | st_never_joined | st_stopped_unexpected => bad
  | st_degraded | st_drifting | st_stuck => degraded
  | st_suspect | st_unknown => unknown
  | st_excluded | st_stopped_expected => excluded
  end.

(** [Math.round(ms / 1000)] *)
Definition round_seconds (ms : Z) : Z := (ms + 500) / 1000.

Definition overlapSeconds (interval : RollableInterval) (dayStart dayEnd : Z) : Z :=
  let from := Z.max (interval_startedAt interval) dayStart in
  let until := Z.min (match interval_endedAt interval with Some e => e | None => dayEnd end) dayEnd in
  if until <=? from then 0 else round_seconds (until - from).

(** [{ ...totals, [bucket]: totals[bucket] + seconds }] *)
Definition add_seconds (bucket : AvailabilityBucket) (seconds : Z) (totals : Availability)
    : Availability :=
  match bucket with
  | good => MkAvailability (goodSeconds totals + seconds) (badSeconds totals)
              (degradedSeconds totals) (unknownSeconds totals) (excludedSeconds totals)
  | bad => MkAvailability (goodSeconds totals) (badSeconds totals + seconds)
              (degradedSeconds totals) (unknownSeconds totals) (excludedSeconds totals)
  | degraded => MkAvailability (goodSeconds totals) (badSeconds totals)
              (degradedSeconds totals + seconds) (unknownSeconds totals) (excludedSeconds totals)
  | unknown => MkAvailability (goodSeconds totals) (badSeconds totals)
              (degradedSeconds totals) (unknownSeconds totals + seconds) (excludedSeconds totals)
  | excluded => MkAvailability (goodSeconds totals) (badSeconds totals)
              (degradedSeconds totals) (unknownSeconds totals) (excludedSeconds totals + seconds)
  end.

Definition rollUpWindow (intervals : list RollableInterval) (start end_ : Z) : Availability :=
  fold_left
    (fun totals interval =>
       let seconds := overlapSeconds interval start end_ in
       if seconds =? 0 then totals
       else add_seconds (bucketOf (interval_state interval)) seconds totals)
    intervals EMPTY_AVAILABILITY.

Definition bucketStartsFor (range : StatusRange) (now : Z) : list Z :=
  let step := BUCKET_SECONDS range * 1000 in
  let count := RANGE_SECONDS range / BUCKET_SECONDS range in
  let current := now / step * step in
  let since := now - RANGE_SECONDS range * 1000 in
  map (fun index => if (index =? 0)%nat then since
                    else current - (count - 1 - Z.of_nat index) * step)
    (seq 0 (Z.to_nat count)).

Record BucketAvailability := MkBucket { bucket_start : string; bucket_availability : Availability }.

Fixpoint rollUpBuckets (intervals : list RollableInterval) (starts : list Z) (bucketSeconds : Z)
    : list BucketAvailability :=
  match starts with
  | [] => []
  | start :: rest =>
      MkBucket (toISOString start)
        (rollUpWindow intervals start
           (match rest with next :: _ => next | [] => start + bucketSeconds * 1000 end))
      :: rollUpBuckets intervals rest bucketSeconds
  end.

(** [availabilityOver] of packages/core/src/status/status.controller.ts. *)
Definition availabilityOver (intervals : list RollableInterval) (since until : Z) : Availability :=
  let clipped :=
    map (fun interval =>
           MkInterval (interval_state interval)
             (if interval_startedAt interval <? since then since else interval_startedAt interval)
             (Some (match interval_endedAt interval with Some e => e | None => until end)))
      intervals in
  if until <=? since then EMPTY_AVAILABILITY else rollUpWindow clipped since until.

(** ** Sums *)

Definition totalSeconds (a : Availability) : Z :=
  goodSeconds a + badSeconds a + degradedSeconds a + unknownSeconds a + excludedSeconds a.

Definition nonnegative (a : Availability) : Prop :=
  0 <= goodSeconds a /\ 0 <= badSeconds a /\ 0 <= degradedSeconds a /\ 0 <= unknownSeconds a
  /\ 0 <= excludedSeconds a.

(** The milliseconds of an interval inside a window. *)
Definition overlapMs (interval : RollableInterval) (start end_ : Z) : Z :=
  Z.max 0 (Z.min (match interval_endedAt interval with Some e => e | None => end_ end) end_
           - Z.max (interval_startedAt interval) start).

Lemma overlapSeconds_rounds interval start end_ :
  0 <= overlapSeconds interval start end_
  /\ Z.abs (1000 * overlapSeconds interval start end_ - overlapMs interval start end_) <= 500.
Proof.
  unfold overlapSeconds, overlapMs, round_seconds.
  set (until := Z.min _ end_). set (from := Z.max _ start). destruct (Z.leb_spec until from); lia.
Qed.

Lemma total_add bucket seconds totals :
  totalSeconds (add_seconds bucket seconds totals) = totalSeconds totals + seconds.
Proof. unfold totalSeconds. destruct bucket; simpl; lia. Qed.

Lemma nonnegative_add bucket seconds totals :
  0 <= seconds -> nonnegative totals -> nonnegative (add_seconds bucket seconds totals).
Proof. unfold nonnegative. destruct bucket; simpl; lia. Qed.

Definition sumZ (l : list Z) : Z := fold_right Z.add 0 l.

Lemma rollUpWindow_total intervals start end_ :
  totalSeconds (rollUpWindow intervals start end_)
  = sumZ (map (fun i => overlapSeconds i start end_) intervals)
  /\ nonnegative (rollUpWindow intervals start end_).
Proof.
  unfold rollUpWindow.
  enough (H : forall totals, nonnegative totals ->
    let final := fold_left (fun totals interval =>
       let seconds := overlapSeconds interval start end_ in
       if seconds =? 0 then totals
       else add_seconds (bucketOf (interval_state interval)) seconds totals) intervals totals in
    totalSeconds final = totalSeconds totals + sumZ (map (fun i => overlapSeconds i start end_) intervals)
    /\ nonnegative final).
  { destruct (H EMPTY_AVAILABILITY) as [H1 H2]; [by repeat split|]. split; [|exact H2].
    etransitivity; [exact H1|]. unfold totalSeconds. simpl. lia. }
  induction intervals as [|i intervals IH]; intros totals Hn; cbv zeta.
  { simpl. split; [lia|done]. }
  pose proof (overlapSeconds_rounds i start end_) as [Hpos _]. cbn [fold_left map].
  change (sumZ (?a :: ?l)) with (a + sumZ l).
  destruct (Z.eqb_spec (overlapSeconds i start end_) 0) as [H0|H0].
  - destruct (IH totals Hn) as [H1 H2]. split; [|done]. etransitivity; [exact H1|]. lia.
  - destruct (IH _ (nonnegative_add (bucketOf (interval_state i)) _ totals Hpos Hn)) as [H1 H2].
    split; [|done]. etransitivity; [exact H1|]. rewrite total_add. lia.
Qed.

(** Intervals that follow one another without a gap, from [from] on; the
    last one is open or ends at [until] or later. *)
Fixpoint chained (from until : Z) (intervals : list RollableInterval) : Prop :=
  match intervals with
  | [] => until <= from
  | i :: rest =>
      interval_startedAt i <= from
      /\ match interval_endedAt i with
         | None => rest = []
         | Some e => from <= e /\ match rest with
                                  | [] => until <= e
                                  | j :: _ => interval_startedAt j = e
                                  end
                     /\ chained e until rest
         end
  end.

(** What starts after the window adds nothing. *)
Lemma chained_past start until intervals : forall e i,
  head intervals = Some i -> interval_startedAt i = e -> chained e until intervals -> until <= e ->
  sumZ (map (fun i => overlapSeconds i start until) intervals) = 0.
Proof.
  induction intervals as [|i rest IH]; intros e i' Hi Hs Hch Hle; [done|]. injection Hi as <-.
  destruct Hch as [_ Hch]. cbn [map]. change (sumZ (?a :: ?l)) with (a + sumZ l).
  assert (Hzero : overlapSeconds i start until = 0).
  { unfold overlapSeconds. destruct (Z.leb_spec (Z.min (match interval_endedAt i with
      Some e => e | None => until end) until) (Z.max (interval_startedAt i) start)); [done|].
    destruct (interval_endedAt i); lia. }
  rewrite Hzero. destruct rest as [|j rest]; [done|].
  destruct (interval_endedAt i) as [e'|]; [|done]. destruct Hch as (Hee & Hj & Hch).
  rewrite (IH e' j eq_refl Hj Hch ltac:(lia)). done.
Qed.

Lemma chained_ms intervals : forall from until,
  from <= until -> chained from until intervals ->
  Z.abs (1000 * sumZ (map (fun i => overlapSeconds i from until) intervals) - (until - from))
  <= 500 * Z.of_nat (length intervals).
Proof.
  enough (H : forall start from until, start <= from <= until -> chained from until intervals ->
    match intervals with
    | [] => True
    | i :: _ => interval_startedAt i <= start \/ start <= from /\ interval_startedAt i = from
    end ->
    Z.abs (1000 * sumZ (map (fun i => overlapSeconds i start until) intervals)
           - (until - match intervals with
                      | [] => from
                      | i :: _ => Z.max start (interval_startedAt i)
                      end)) <= 500 * Z.of_nat (length intervals)).
  { intros from until Hle Hch. specialize (H from from until ltac:(lia) Hch).
    destruct intervals as [|i rest]; [simpl in *; lia|].
    destruct Hch as [Hs _]. specialize (H (or_introl Hs)).
    replace (Z.max from (interval_startedAt i)) with from in H by lia. exact H. }
  induction intervals as [|i rest IH]; intros start from until Hle Hch Hfirst.
  { simpl in *. lia. }
  destruct Hch as [Hs Hch]. cbn [map length]. change (sumZ (?a :: ?l)) with (a + sumZ l).
  pose proof (overlapSeconds_rounds i start until) as [_ Hr]. unfold overlapMs in Hr.
  destruct (interval_endedAt i) as [e|] eqn:Ee.
  - destruct Hch as (Hfe & Hnext & Hch). destruct rest as [|j rest].
    + simpl. change (sumZ []) with 0. lia.
    + destruct (Z.le_gt_cases e until) as [Heu|Heu].
      * specialize (IH start e until ltac:(lia) Hch ltac:(right; lia)). cbv beta iota in IH.
        rewrite Hnext in IH. lia.
      * rewrite (chained_past start until (j :: rest) e j eq_refl Hnext Hch ltac:(lia)). lia.
  - subst rest. simpl. change (sumZ []) with 0. lia.
Qed.

Lemma clip_overlap since until i :
  since < until ->
  overlapSeconds
    (MkInterval (interval_state i)
       (if interval_startedAt i <? since then since else interval_startedAt i)
       (Some (match interval_endedAt i with Some e => e | None => until end))) since until
  = overlapSeconds i since until.
Proof.
  intros H. unfold overlapSeconds. cbn [interval_startedAt interval_endedAt].
  replace (Z.max (if interval_startedAt i <? since then since else interval_startedAt i) since)
    with (Z.max (interval_startedAt i) since); [done|].
  destruct (Z.ltb_spec (interval_startedAt i) since); lia.
Qed.

Lemma availabilityOver_window intervals since until :
  since < until -> availabilityOver intervals since until = rollUpWindow intervals since until.
Proof.
  intros H. unfold availabilityOver. destruct (Z.leb_spec until since); [lia|].
  unfold rollUpWindow. generalize EMPTY_AVAILABILITY.
  induction intervals as [|i intervals IH]; intros totals; [done|]. cbn [map fold_left].
  rewrite clip_overlap by done. cbn [interval_state]. apply IH.
Qed.

(** when the stored intervals of a subject follow one another without a
    gap over a window, the availability reported for it accounts for the
    whole window: its five counts are not negative and add up to the length
    of the window, up to half a second of rounding for each interval. *)
Theorem availability_accounts_for_the_window intervals since until
    (Hwindow : since < until) (Hchain : chained since until intervals) :
  nonnegative (availabilityOver intervals since until)
  /\ Z.abs (1000 * totalSeconds (availabilityOver intervals since until) - (until - since))
     <= 500 * Z.of_nat (length intervals).
Proof.
  rewrite availabilityOver_window by done.
  destruct (rollUpWindow_total intervals since until) as [-> Hn].
  split; [exact Hn|]. apply chained_ms; [lia|exact Hchain].
Qed.

Lemma availability_accounts_for_the_window_witness :
  let intervals := [MkInterval st_up 0 (Some 5000); MkInterval st_down 5000 (Some 7400);
                    MkInterval st_up 7400 None] in
  nonnegative (availabilityOver intervals 1000 9000)
  /\ Z.abs (1000 * totalSeconds (availabilityOver intervals 1000 9000) - (9000 - 1000))
     <= 500 * Z.of_nat (length intervals).
Proof.
  apply (availability_accounts_for_the_window [MkInterval st_up 0 (Some 5000);
    MkInterval st_down 5000 (Some 7400); MkInterval st_up 7400 None] 1000 9000).
  - lia.
  - simpl. repeat split; lia.
Defined.

(** ** Buckets *)

Lemma bucketStartsFor_nth range now i :
  (i < Z.to_nat (RANGE_SECONDS range / BUCKET_SECONDS range))%nat ->
  nth_error (bucketStartsFor range now) i
  = Some (if (i =? 0)%nat then now - RANGE_SECONDS range * 1000
          else now / (BUCKET_SECONDS range * 1000) * (BUCKET_SECONDS range * 1000)
               - (RANGE_SECONDS range / BUCKET_SECONDS range - 1 - Z.of_nat i)
                 * (BUCKET_SECONDS range * 1000)).
Proof.
  intros Hi. unfold bucketStartsFor. rewrite nth_error_map.
  rewrite (nth_error_nth' _ 0%nat) by (rewrite length_seq; exact Hi).
  rewrite seq_nth by exact Hi. done.
Qed.

Lemma bucket_counts range :
  0 < BUCKET_SECONDS range /\ 2 <= RANGE_SECONDS range / BUCKET_SECONDS range
  /\ RANGE_SECONDS range = RANGE_SECONDS range / BUCKET_SECONDS range * BUCKET_SECONDS range.
Proof. destruct range; vm_compute; repeat split; congruence. Qed.

(** the buckets of a chart start at the start of its range, follow one
    another, and the last one holds the present: between two starts lies one
    bucket's width, except that the first bucket takes up the remainder and
    is up to twice as wide. *)
Theorem buckets_cover_the_range range now :
  let starts := bucketStartsFor range now in
  let width := BUCKET_SECONDS range * 1000 in
  length starts = Z.to_nat (RANGE_SECONDS range / BUCKET_SECONDS range)
  /\ head starts = Some (now - RANGE_SECONDS range * 1000)
  /\ (forall i a b, nth_error starts i = Some a -> nth_error starts (S i) = Some b ->
        if (i =? 0)%nat then width < b - a <= 2 * width else b - a = width)
  /\ exists l, nth_error starts (length starts - 1) = Some l /\ l <= now < l + width.
Proof.
  cbv zeta. destruct (bucket_counts range) as (Hb & Hc & Hr).
  set (count := RANGE_SECONDS range / BUCKET_SECONDS range) in *.
  set (width := BUCKET_SECONDS range * 1000) in *.
  assert (Hlen : length (bucketStartsFor range now) = Z.to_nat count)
    by (unfold bucketStartsFor; by rewrite length_map, length_seq).
  assert (Hnow : now / width * width <= now < now / width * width + width).
  { pose proof (Z.div_mod now width ltac:(lia)). pose proof (Z.mod_pos_bound now width ltac:(lia)). lia. }
  assert (Hrange : RANGE_SECONDS range * 1000 = count * width) by lia.
  split; [exact Hlen|]. split; [|split].
  - pose proof (bucketStartsFor_nth range now 0 ltac:(lia)) as H0.
    by destruct (bucketStartsFor range now); simplify_eq/=.
  - intros i a b Ha Hb'.
    assert (Hi : (S i < Z.to_nat count)%nat) by (rewrite <- Hlen; apply nth_error_Some; congruence).
    rewrite bucketStartsFor_nth in Ha, Hb' by lia. fold count width in Ha, Hb'.
    injection Hb' as <-. injection Ha as <-.
    destruct (Nat.eqb_spec i 0) as [->|Hne]; [|nia]. rewrite Hrange. cbn [Z.of_nat]. nia.
  - rewrite Hlen, bucketStartsFor_nth by (fold count; lia). fold count width.
    destruct (Nat.eqb_spec (Z.to_nat count - 1) 0) as [H|H]; [lia|].
    eexists. split; [done|]. rewrite Nat2Z.inj_sub, Z2Nat.id by lia. nia.
Qed.
