(* ===== verification/StatusStore.v ===== *)
(** The tables of the status history.

    packages/core/src/status/status.repository.ts: one definition per
    operation of [createStatusRepository].  Ids drawn with [nanoid()] are
    arguments.  The [detail] columns, which the modelled code leaves empty,
    are left out. *)

From S2P Require Import Prelude Tables Dates StatusKinds Connection Rollup.

(** [SubjectRef]: a machine or a bot. *)
Inductive SubjectRef := Host (hostId : string) | Bot (instanceId : string).

#[global] Instance SubjectRef_eq_dec : EqDecision SubjectRef.
Proof. solve_decision. Defined.

Record ConditionPatch := MkPatch {
  patch_state : StatusState; patch_observedAt : Z; patch_failureStartedAt : option Z;
  patch_activeIncidentId : option string }.

Record StatusConditionRow := MkCondition {
  cond_id : string; cond_organizationId : string; cond_subject : SubjectRef;
  cond_dimension : StatusDimension; cond_state : StatusState; cond_startedAt : Z;
  cond_lastObservedAt : Z; cond_failureStartedAt : option Z;
  cond_activeIncidentId : option string; cond_lastFlappedAt : option Z }.

Record StatusIntervalRow := MkIntervalRow {
  ival_id : string; ival_organizationId : string; ival_subject : SubjectRef;
  ival_dimension : StatusDimension; ival_state : StatusState; ival_startedAt : Z;
  ival_endedAt : option Z; ival_startEventId : option string; ival_endEventId : option string }.

Record StatusEventRow := MkEventRow {
  event_id : string; event_organizationId : string; event_subject : SubjectRef;
  event_subjectLabel : string; event_kind : StatusEventKind; event_occurredAt : Z;
  event_observedAt : Z; event_lastCorroboratedAt : Z; event_incidentId : option string;
  primarySource : StatusSource; sourceKey : option string }.

Record StatusSourceCursorRow := MkSourceCursor {
  src_id : string; src_organizationId : string; src_instanceId : string;
  src_source : StatusSource; src_cursor : string; src_lastObservedAt : Z }.

Record StatusTables := MkStatusTables {
  conditions : list StatusConditionRow; intervals : list StatusIntervalRow;
  events : list StatusEventRow; sourceCursors : list StatusSourceCursorRow }.

Definition with_conditions (x : list StatusConditionRow) (t : StatusTables) : StatusTables :=
  MkStatusTables x (intervals t) (events t) (sourceCursors t).
Definition with_intervals (x : list StatusIntervalRow) (t : StatusTables) : StatusTables :=
  MkStatusTables (conditions t) x (events t) (sourceCursors t).
Definition with_events (x : list StatusEventRow) (t : StatusTables) : StatusTables :=
  MkStatusTables (conditions t) (intervals t) x (sourceCursors t).
Definition with_sourceCursors (x : list StatusSourceCursorRow) (t : StatusTables) : StatusTables :=
  MkStatusTables (conditions t) (intervals t) (events t) x.

(** ** Conditions *)

Definition condition_of (organizationId : string) (subject : SubjectRef)
    (dimension : StatusDimension) (row : StatusConditionRow) : bool :=
  (cond_organizationId row ≡? organizationId) && (cond_dimension row ≡? dimension)
  && (cond_subject row ≡? subject).

Definition findCondition (organizationId : string) (subject : SubjectRef)
    (dimension : StatusDimension) (t : StatusTables) : option StatusConditionRow :=
  select_first (condition_of organizationId subject dimension) (conditions t).

Definition upsertCondition (newId organizationId : string) (subject : SubjectRef)
    (dimension : StatusDimension) (patch : ConditionPatch) (startedAt : Z) (t : StatusTables)
    : option StatusConditionRow * StatusTables :=
  let (row, rows) :=
    upsert (condition_of organizationId subject dimension)
      (fun row => MkCondition (cond_id row) (cond_organizationId row) (cond_subject row)
                    (cond_dimension row) (patch_state patch) startedAt (patch_observedAt patch)
                    (patch_failureStartedAt patch) (patch_activeIncidentId patch)
                    (cond_lastFlappedAt row))
      (MkCondition newId organizationId subject dimension (patch_state patch) startedAt
         (patch_observedAt patch) (patch_failureStartedAt patch) (patch_activeIncidentId patch) None)
      (conditions t) in
  (row, with_conditions rows t).

Definition owned_condition (organizationId id : string) (row : StatusConditionRow) : bool :=
  (cond_organizationId row ≡? organizationId) && (cond_id row ≡? id).

Definition touchCondition (organizationId conditionId : string) (observedAt : Z) (t : StatusTables)
    : unit * StatusTables :=
  (tt, with_conditions
         (update_where (owned_condition organizationId conditionId)
            (fun row => MkCondition (cond_id row) (cond_organizationId row) (cond_subject row)
                          (cond_dimension row) (cond_state row) (cond_startedAt row) observedAt
                          (cond_failureStartedAt row) (cond_activeIncidentId row)
                          (cond_lastFlappedAt row)) (conditions t)) t).

(** ** Intervals *)

Definition interval_of (organizationId : string) (subject : SubjectRef)
    (dimension : StatusDimension) (row : StatusIntervalRow) : bool :=
  (ival_organizationId row ≡? organizationId) && (ival_dimension row ≡? dimension)
  && (ival_subject row ≡? subject).

Definition openInterval (newId organizationId : string) (subject : SubjectRef)
    (dimension : StatusDimension) (state : StatusState) (startedAt : Z)
    (startEventId : option string) (t : StatusTables) : StatusIntervalRow * StatusTables :=
  let row :=
    MkIntervalRow newId organizationId subject dimension state startedAt None startEventId None in
  (row, with_intervals (intervals t ++ [row]) t).

Definition open_interval_of (organizationId : string) (subject : SubjectRef)
    (dimension : StatusDimension) (row : StatusIntervalRow) : bool :=
  interval_of organizationId subject dimension row && (ival_endedAt row ≡? None).

(** [greatest(endedAt, "startedAt")] *)
Definition close_row (endedAt : Z) (endEventId : option string) (row : StatusIntervalRow)
    : StatusIntervalRow :=
  MkIntervalRow (ival_id row) (ival_organizationId row) (ival_subject row) (ival_dimension row)
    (ival_state row) (ival_startedAt row) (Some (Z.max endedAt (ival_startedAt row)))
    (ival_startEventId row) endEventId.

Definition closeOpenInterval (organizationId : string) (subject : SubjectRef)
    (dimension : StatusDimension) (endedAt : Z) (endEventId : option string) (t : StatusTables)
    : option StatusIntervalRow * StatusTables :=
  let p := open_interval_of organizationId subject dimension in
  (head (updated p (close_row endedAt endEventId) (intervals t)),
   with_intervals (update_where p (close_row endedAt endEventId) (intervals t)) t).

(** ** Events *)

Definition bot_of (subject : SubjectRef) : option string :=
  match subject with Bot id => Some id | Host _ => None end.

Definition host_of (subject : SubjectRef) : option string :=
  match subject with Host id => Some id | Bot _ => None end.

Definition recentLossesAt (organizationId instanceId : string) (window : LossWindow)
    (kinds : list StatusEventKind) (t : StatusTables) : list Z :=
  if (length kinds =? 0)%nat then []
  else
    map event_occurredAt
      (order_by (fun a b => event_occurredAt b <=? event_occurredAt a)
         (select (fun row => (event_organizationId row ≡? organizationId)
                             && (event_subject row ≡? Bot instanceId)
                             && bool_decide (event_kind row ∈ kinds)
                             && (window_since window <=? event_occurredAt row)
                             && (event_occurredAt row <=? window_until window)) (events t))).

Definition escalatable (organizationId conditionId incidentId : string) (row : StatusConditionRow)
    : bool :=
  owned_condition organizationId conditionId row
  && (cond_activeIncidentId row ≡? Some incidentId) && (cond_state row ≡? st_interrupted).

Definition claimEscalation (organizationId conditionId incidentId : string) (state : StatusState)
    (observedAt : Z) (t : StatusTables) : bool * StatusTables :=
  let p := escalatable organizationId conditionId incidentId in
  ((affected p (conditions t) =? 1)%nat,
   with_conditions
     (update_where p
        (fun row => MkCondition (cond_id row) (cond_organizationId row) (cond_subject row)
                      (cond_dimension row) state observedAt observedAt
                      (cond_failureStartedAt row) (cond_activeIncidentId row)
                      (cond_lastFlappedAt row)) (conditions t)) t).

Definition flappable (organizationId conditionId : string) (now cooldownMs : Z)
    (row : StatusConditionRow) : bool :=
  owned_condition organizationId conditionId row
  && match cond_lastFlappedAt row with
     | None => true
     | Some at_ => at_ <=? now - cooldownMs
     end.

Definition claimFlapping (organizationId conditionId : string) (now cooldownMs : Z)
    (t : StatusTables) : bool * StatusTables :=
  let p := flappable organizationId conditionId now cooldownMs in
  ((affected p (conditions t) =? 1)%nat,
   with_conditions
     (update_where p
        (fun row => MkCondition (cond_id row) (cond_organizationId row) (cond_subject row)
                      (cond_dimension row) (cond_state row) (cond_startedAt row)
                      (cond_lastObservedAt row) (cond_failureStartedAt row)
                      (cond_activeIncidentId row) (Some now)) (conditions t)) t).

(** [on conflict do nothing], over every unique index: the source key, and
    the id. *)
Definition clashes_with (row row' : StatusEventRow) : bool :=
  (event_id row' ≡? event_id row)
  || ((event_organizationId row' ≡? event_organizationId row)
      && (primarySource row' ≡? primarySource row)
      && match sourceKey row with
         | Some key => sourceKey row' ≡? Some key
         | None => false
         end).

Definition recordEvent (row : StatusEventRow) (t : StatusTables)
    : option StatusEventRow * StatusTables :=
  let (stored, rows) := insert_or_nothing (clashes_with row) row (events t) in
  (stored, with_events rows t).

(** ** Lists *)

Record EventFilter := MkFilter {
  filter_since : Z; filter_hostId : option string; filter_instanceId : option string }.

Definition eventsMatching (organizationId : string) (filter : EventFilter) (row : StatusEventRow)
    : bool :=
  (event_organizationId row ≡? organizationId) && (filter_since filter <=? event_occurredAt row)
  && match filter_hostId filter with
     | Some id => host_of (event_subject row) ≡? Some id
     | None => true
     end
  && match filter_instanceId filter with
     | Some id => bot_of (event_subject row) ≡? Some id
     | None => true
     end.

(** The order of the pages, newest first; ids break ties. *)
Definition before_cursor (occurredAt : Z) (id : string) (row : StatusEventRow) : bool :=
  (event_occurredAt row <? occurredAt)
  || ((event_occurredAt row =? occurredAt) && String.ltb (event_id row) id).

Definition newest_first (a b : StatusEventRow) : bool :=
  (event_occurredAt b <? event_occurredAt a)
  || ((event_occurredAt b =? event_occurredAt a) && String.leb (event_id b) (event_id a)).

Definition listEvents (organizationId : string) (filter : EventFilter) (limit : nat)
    (cursor : option StatusCursor.StatusEventCursor) (t : StatusTables) : list StatusEventRow :=
  firstn limit
    (order_by newest_first
       (select (fun row => eventsMatching organizationId filter row
                           && match cursor with
                              | Some c => before_cursor (StatusCursor.occurredAt c)
                                            (StatusCursor.cursorId c) row
                              | None => true
                              end) (events t))).

Definition countEvents (organizationId : string) (filter : EventFilter) (t : StatusTables) : Z :=
  Z.of_nat (length (select (eventsMatching organizationId filter) (events t))).

Definition listIntervals (organizationId : string) (dimension : StatusDimension) (since : Z)
    (t : StatusTables) : list StatusIntervalRow :=
  order_by (fun a b => ival_startedAt a <=? ival_startedAt b)
    (select (fun row => (ival_organizationId row ≡? organizationId)
                        && (ival_dimension row ≡? dimension)
                        && match ival_endedAt row with None => true | Some e => since <=? e end)
       (intervals t)).

Definition of_source (organizationId instanceId : string) (source : StatusSource)
    (row : StatusSourceCursorRow) : bool :=
  (src_organizationId row ≡? organizationId) && (src_instanceId row ≡? instanceId)
  && (src_source row ≡? source).

Definition readCursor (organizationId instanceId : string) (source : StatusSource)
    (t : StatusTables) : option string :=
  option_map src_cursor (select_first (of_source organizationId instanceId source) (sourceCursors t)).

Definition writeCursor (newId organizationId instanceId : string) (source : StatusSource)
    (cursor : string) (observedAt : Z) (t : StatusTables) : unit * StatusTables :=
  (tt, with_sourceCursors
         (upsert (of_source organizationId instanceId source)
            (fun row => MkSourceCursor (src_id row) (src_organizationId row) (src_instanceId row)
                          (src_source row) cursor observedAt)
            (MkSourceCursor newId organizationId instanceId source cursor observedAt)
            (sourceCursors t)).2 t).

Definition listConditions (organizationId : string) (dimension : StatusDimension) (t : StatusTables)
    : list StatusConditionRow :=
  select (fun row => (cond_organizationId row ≡? organizationId)
                     && (cond_dimension row ≡? dimension)) (conditions t).
