(* ===== verification/NotificationStore.v ===== *)
(** The tables of the notifications.

    packages/core/src/notification/notification.repository.ts: one
    definition per operation of [createNotificationRepository]; the kinds
    are those of packages/contracts/src/notification.ts. *)

From S2P Require Import Prelude Tables Dates StatusKinds StatusStore.

(** [DESTINATION_KINDS] *)
Inductive DestinationKind :=
  | webhook | telegram | discord | slack | teams | email | resend | gotify | ntfy.

#[global] Instance DestinationKind_eq_dec : EqDecision DestinationKind.
Proof. solve_decision. Defined.

Definition DESTINATION_LABELS (kind : DestinationKind) : string :=
  match kind with
  | webhook => "Webhook" | telegram => "Telegram" | discord => "Discord" | slack => "Slack"
  | teams => "Microsoft Teams" | email => "Email" | resend => "Resend" | gotify => "Gotify"
  | ntfy => "ntfy"
  end.

Definition HTTP_DESTINATION_KINDS : list DestinationKind :=
  [webhook; telegram; discord; slack; teams; resend; gotify; ntfy].

Definition usesEmailTransport (kind : DestinationKind) : bool := kind ≡? email.

(** [DELIVERY_STATES] and [ATTEMPT_OUTCOMES] *)
Inductive DeliveryState := queued | delivered | failed | abandoned.
Inductive AttemptOutcome := attempt_delivered | attempt_retryable | attempt_terminal.

#[global] Instance DeliveryState_eq_dec : EqDecision DeliveryState.
Proof. solve_decision. Defined.

Definition SUBSCRIPTION_KINDS : list StatusEventKind := NOTIFYING_EVENT_KINDS.

(** [NOTIFICATION_KINDS]: an event's kind, or the test. *)
Inductive NotificationKind := about (kind : StatusEventKind) | test.

#[global] Instance NotificationKind_eq_dec : EqDecision NotificationKind.
Proof. solve_decision. Defined.

Definition NOTIFICATION_KINDS : list NotificationKind :=
  map about NOTIFYING_EVENT_KINDS ++ map about RESOLVING_EVENT_KINDS ++ [test].

Definition DELIVERY_RETRY_LIMIT : Z := 8.
Definition DELIVERY_TIMEOUT_MS : Z := 20000.
Definition DELIVERY_MAX_RESPONSE_BYTES : Z := 64 * 1024.

(** ** Rows *)

Record NotificationDestinationRow := MkDestination {
  dest_id : string; dest_organizationId : string; dest_name : string; dest_kind : DestinationKind;
  dest_enabled : bool; displayTarget : string; secretEncrypted : string; secretKeyId : string;
  dest_createdAt : Z; lastSucceededAt : option Z; lastFailedAt : option Z;
  lastFailureReason : option string }.

Record NotificationSubscriptionRow := MkSubscription {
  sub_id : string; sub_organizationId : string; sub_destinationId : string;
  sub_kind : StatusEventKind }.

Record NotificationRow := MkNotification {
  notif_id : string; notif_organizationId : string; notif_kind : NotificationKind;
  title : string; body : string; subjectType : string; subjectId : string; dedupeKey : string;
  sourceStatusEventId : option string; notif_createdAt : Z }.

Record NotificationDeliveryRow := MkDelivery {
  del_id : string; del_organizationId : string; del_notificationId : string;
  del_destinationId : string; del_state : DeliveryState; attempts : Z; del_createdAt : Z;
  settledAt : option Z; lastError : option string }.

Record NotificationAttemptRow := MkAttempt {
  att_id : string; att_organizationId : string; att_deliveryId : string; attempt : Z;
  att_outcome : AttemptOutcome; statusCode : option Z; att_error : option string }.

Record NotificationTables := MkNotificationTables {
  destinations : list NotificationDestinationRow;
  subscriptions : list NotificationSubscriptionRow;
  notifications : list NotificationRow;
  deliveries : list NotificationDeliveryRow;
  attemptRows : list NotificationAttemptRow }.

Definition with_destinations x (t : NotificationTables) : NotificationTables :=
  MkNotificationTables x (subscriptions t) (notifications t) (deliveries t) (attemptRows t).
Definition with_subscriptions x (t : NotificationTables) : NotificationTables :=
  MkNotificationTables (destinations t) x (notifications t) (deliveries t) (attemptRows t).
Definition with_notifications x (t : NotificationTables) : NotificationTables :=
  MkNotificationTables (destinations t) (subscriptions t) x (deliveries t) (attemptRows t).
Definition with_deliveries x (t : NotificationTables) : NotificationTables :=
  MkNotificationTables (destinations t) (subscriptions t) (notifications t) x (attemptRows t).
Definition with_attemptRows x (t : NotificationTables) : NotificationTables :=
  MkNotificationTables (destinations t) (subscriptions t) (notifications t) (deliveries t) x.

(** ** Destinations *)

Definition owned_destination (organizationId id : string) (row : NotificationDestinationRow) : bool :=
  (dest_organizationId row ≡? organizationId) && (dest_id row ≡? id).

Definition of_destination (organizationId id : string) (row : NotificationSubscriptionRow) : bool :=
  (sub_organizationId row ≡? organizationId) && (sub_destinationId row ≡? id).

(** The join of destinations with their subscriptions. *)
Definition destinationsSubscribedTo (organizationId : string) (kind : StatusEventKind)
    (t : NotificationTables) : list NotificationDestinationRow :=
  concat
    (map (fun d =>
            map (fun _ => d)
              (select (fun s => (sub_destinationId s ≡? dest_id d)
                                && (sub_organizationId s ≡? dest_organizationId d)
                                && (sub_kind s ≡? kind)) (subscriptions t)))
       (select (fun d => (dest_organizationId d ≡? organizationId) && dest_enabled d)
          (destinations t))).

Definition listDestinations (organizationId : string) (t : NotificationTables)
    : list NotificationDestinationRow :=
  order_by (fun a b => String.leb (dest_name a) (dest_name b))
    (select (fun d => dest_organizationId d ≡? organizationId) (destinations t)).

Definition subscriptionsFor (organizationId : string) (destinationIds : list string)
    (t : NotificationTables) : list (string * StatusEventKind) :=
  if (length destinationIds =? 0)%nat then []
  else map (fun s => (sub_destinationId s, sub_kind s))
         (select (fun s => (sub_organizationId s ≡? organizationId)
                           && bool_decide (sub_destinationId s ∈ destinationIds))
            (subscriptions t)).

Record DestinationValues := MkDestinationValues {
  dv_name : string; dv_displayTarget : string; dv_secretEncrypted : string; dv_secretKeyId : string }.

Definition insertDestination (newId organizationId : string) (createdAt : Z) (kind : DestinationKind)
    (values : DestinationValues) (t : NotificationTables)
    : NotificationDestinationRow * NotificationTables :=
  let row :=
    MkDestination newId organizationId (dv_name values) kind true (dv_displayTarget values)
      (dv_secretEncrypted values) (dv_secretKeyId values) createdAt None None None in
  (row, with_destinations (destinations t ++ [row]) t).

Definition updateDestination (organizationId id : string) (values : DestinationValues)
    (t : NotificationTables) : option NotificationDestinationRow * NotificationTables :=
  let f d :=
    MkDestination (dest_id d) (dest_organizationId d) (dv_name values) (dest_kind d)
      (dest_enabled d) (dv_displayTarget values) (dv_secretEncrypted values) (dv_secretKeyId values)
      (dest_createdAt d) (lastSucceededAt d) (lastFailedAt d) (lastFailureReason d) in
  (head (updated (owned_destination organizationId id) f (destinations t)),
   with_destinations (update_where (owned_destination organizationId id) f (destinations t)) t).

Definition set_enabled (enabled : bool) (d : NotificationDestinationRow)
    : NotificationDestinationRow :=
  MkDestination (dest_id d) (dest_organizationId d) (dest_name d) (dest_kind d) enabled
    (displayTarget d) (secretEncrypted d) (secretKeyId d) (dest_createdAt d) (lastSucceededAt d)
    (lastFailedAt d) (lastFailureReason d).

Definition setDestinationEnabled (organizationId id : string) (enabled : bool)
    (t : NotificationTables) : bool * NotificationTables :=
  ((affected (owned_destination organizationId id) (destinations t) =? 1)%nat,
   with_destinations
     (update_where (owned_destination organizationId id) (set_enabled enabled) (destinations t)) t).

Definition delivery_to (organizationId destinationId : string) (row : NotificationDeliveryRow) : bool :=
  (del_organizationId row ≡? organizationId) && (del_destinationId row ≡? destinationId).

(** The foreign keys delete a destination's subscriptions, deliveries and
    their attempts with it. *)
Definition deleteDestination (organizationId id : string) (t : NotificationTables)
    : bool * NotificationTables :=
  ((affected (owned_destination organizationId id) (destinations t) =? 1)%nat,
   if (affected (owned_destination organizationId id) (destinations t) =? 0)%nat then t
   else
     MkNotificationTables (delete_where (owned_destination organizationId id) (destinations t))
       (delete_where (of_destination organizationId id) (subscriptions t)) (notifications t)
       (delete_where (delivery_to organizationId id) (deliveries t))
       (delete_where (fun a => existsb (fun d => delivery_to organizationId id d
                                          && (del_id d ≡? att_deliveryId a)
                                          && (del_organizationId d ≡? att_organizationId a))
                                 (deliveries t)) (attemptRows t))).

Definition replaceSubscriptions (newId : nat -> string) (organizationId destinationId : string)
    (kinds : list StatusEventKind) (t : NotificationTables) : unit * NotificationTables :=
  (tt, with_subscriptions
         (delete_where (of_destination organizationId destinationId) (subscriptions t)
          ++ imap (fun i kind => MkSubscription (newId i) organizationId destinationId kind) kinds) t).

(** ** Deliveries *)

Definition set_state (state : DeliveryState) (attempts_ : Z) (settled : option Z)
    (error : option string) (d : NotificationDeliveryRow) : NotificationDeliveryRow :=
  MkDelivery (del_id d) (del_organizationId d) (del_notificationId d) (del_destinationId d) state
    attempts_ (del_createdAt d) settled error.

Definition owned_delivery (organizationId id : string) (d : NotificationDeliveryRow) : bool :=
  (del_organizationId d ≡? organizationId) && (del_id d ≡? id).

Definition abandonQueuedFor (organizationId destinationId : string) (at_ : Z) (reason : string)
    (t : NotificationTables) : Z * NotificationTables :=
  let p d := delivery_to organizationId destinationId d && (del_state d ≡? queued) in
  (Z.of_nat (affected p (deliveries t)),
   with_deliveries
     (update_where p (fun d => set_state abandoned (attempts d) (Some at_) (Some reason) d)
        (deliveries t)) t).

Definition of_notification (d : NotificationDeliveryRow) (n : NotificationRow) : bool :=
  (notif_id n ≡? del_notificationId d) && (notif_organizationId n ≡? del_organizationId d).

Definition testsSince (organizationId : string) (destinationId : option string) (since : Z)
    (t : NotificationTables) : Z :=
  Z.of_nat (length (concat (map (fun d =>
    select (fun n => of_notification d n && (notif_kind n ≡? test)) (notifications t))
    (select (fun d => (del_organizationId d ≡? organizationId)
                      && match destinationId with
                         | Some id => del_destinationId d ≡? id
                         | None => true
                         end && (since <=? del_createdAt d)) (deliveries t))))).

Definition failureCount (organizationId : string) (t : NotificationTables) : Z :=
  Z.of_nat (length (select (fun d => (del_organizationId d ≡? organizationId)
                                     && (del_state d ≡? failed)) (deliveries t))).

Definition requeueDelivery (organizationId id : string) (t : NotificationTables)
    : bool * NotificationTables :=
  let p d := owned_delivery organizationId id d
             && ((del_state d ≡? failed) || (del_state d ≡? abandoned)) in
  ((affected p (deliveries t) =? 1)%nat,
   with_deliveries (update_where p (set_state queued 0 None None) (deliveries t)) t).

Definition dismissDelivery (organizationId id : string) (at_ : Z) (t : NotificationTables)
    : bool * NotificationTables :=
  let p d := owned_delivery organizationId id d && (del_state d ≡? failed) in
  ((affected p (deliveries t) =? 1)%nat,
   with_deliveries
     (update_where p (fun d => set_state abandoned (attempts d) (Some at_) (lastError d) d)
        (deliveries t)) t).

Record RetentionBoundaries := MkBoundaries { createdBefore : Z; settledBefore : Z }.

Definition unsettled (boundaries : RetentionBoundaries) (d : NotificationDeliveryRow) : bool :=
  (del_state d ≡? queued)
  || match settledAt d with None => true | Some at_ => settledBefore boundaries <=? at_ end.

Definition removable (organizationId : string) (boundaries : RetentionBoundaries)
    (t : NotificationTables) (n : NotificationRow) : bool :=
  (notif_organizationId n ≡? organizationId) && (notif_createdAt n <? createdBefore boundaries)
  && negb (existsb (fun d => of_notification d n && unsettled boundaries d) (deliveries t)).

(** The deliveries and attempts of a notification go with it. *)
Definition deleteSettledBefore (organizationId : string) (boundaries : RetentionBoundaries)
    (t : NotificationTables) : Z * NotificationTables :=
  let gone := select (removable organizationId boundaries t) (notifications t) in
  let gone_delivery d := existsb (of_notification d) gone in
  (Z.of_nat (length gone),
   MkNotificationTables (destinations t) (subscriptions t)
     (delete_where (removable organizationId boundaries t) (notifications t))
     (delete_where gone_delivery (deliveries t))
     (delete_where (fun a => existsb (fun d => gone_delivery d && (del_id d ≡? att_deliveryId a)
                                        && (del_organizationId d ≡? att_organizationId a))
                               (deliveries t)) (attemptRows t))).

Definition findDestination (organizationId id : string) (t : NotificationTables)
    : option NotificationDestinationRow :=
  select_first (owned_destination organizationId id) (destinations t).

Definition newest_notification_first (a b : NotificationRow) : bool :=
  (notif_createdAt b <? notif_createdAt a)
  || ((notif_createdAt b =? notif_createdAt a) && String.leb (notif_id b) (notif_id a)).

(** [events] is the [statusEvent] table the query joins. *)
Definition lastAnnouncedAmong (organizationId subject_type subject_id : string)
    (kinds : list NotificationKind) (incidentId : option string) (events : list StatusEventRow)
    (t : NotificationTables) : option NotificationRow :=
  if (length kinds =? 0)%nat then None
  else
    let joined n :=
      existsb (fun e => (sourceStatusEventId n ≡? Some (event_id e))
                        && (event_organizationId e ≡? notif_organizationId n)
                        && match incidentId with
                           | Some id => event_incidentId e ≡? Some id
                           | None => true
                           end) events in
    head (order_by newest_notification_first
            (select (fun n => (notif_organizationId n ≡? organizationId)
                              && (subjectType n ≡? subject_type) && (subjectId n ≡? subject_id)
                              && bool_decide (notif_kind n ∈ kinds) && joined n)
               (notifications t))).

Definition notifiedAlready (organizationId key : string) (t : NotificationTables)
    : option NotificationRow :=
  select_first (fun n => (notif_organizationId n ≡? organizationId) && (dedupeKey n ≡? key))
    (notifications t).

Definition createNotification (row : NotificationRow) (t : NotificationTables)
    : option NotificationRow * NotificationTables :=
  let (stored, rows) :=
    insert_or_nothing
      (fun n => (notif_organizationId n ≡? notif_organizationId row)
                && (dedupeKey n ≡? dedupeKey row)) row (notifications t) in
  (stored, with_notifications rows t).

Definition findDelivery (organizationId id : string) (t : NotificationTables)
    : option NotificationDeliveryRow :=
  select_first (owned_delivery organizationId id) (deliveries t).

Definition findNotification (organizationId id : string) (t : NotificationTables)
    : option NotificationRow :=
  select_first (fun n => (notif_organizationId n ≡? organizationId) && (notif_id n ≡? id))
    (notifications t).

Definition recordAttempt (row : NotificationAttemptRow) (t : NotificationTables)
    : unit * NotificationTables :=
  (tt, with_attemptRows (attemptRows t ++ [row]) t).

Definition settleDelivery (organizationId id : string) (state : DeliveryState) (attempts_ : Z)
    (settled : option Z) (error : option string) (t : NotificationTables)
    : unit * NotificationTables :=
  (tt, with_deliveries
         (update_where (owned_delivery organizationId id) (set_state state attempts_ settled error)
            (deliveries t)) t).

(** [greatest(coalesce("lastSucceededAt", '-infinity'), ...) < observedAt] *)
Definition older_than (observedAt : Z) (d : NotificationDestinationRow) : bool :=
  match lastSucceededAt d with Some at_ => at_ <? observedAt | None => true end
  && match lastFailedAt d with Some at_ => at_ <? observedAt | None => true end.

Definition markDestinationOutcome (organizationId id : string) (succeededAt failedAt : option Z)
    (reason : option string) (t : NotificationTables) : unit * NotificationTables :=
  match (match succeededAt with Some _ => succeededAt | None => failedAt end) with
  | None => (tt, t)
  | Some observedAt =>
      (tt, with_destinations
             (update_where
                (fun d => owned_destination organizationId id d && older_than observedAt d)
                (fun d =>
                   match succeededAt with
                   | None =>
                       MkDestination (dest_id d) (dest_organizationId d) (dest_name d) (dest_kind d)
                         (dest_enabled d) (displayTarget d) (secretEncrypted d) (secretKeyId d)
                         (dest_createdAt d) (lastSucceededAt d) failedAt reason
                   | Some _ =>
                       MkDestination (dest_id d) (dest_organizationId d) (dest_name d) (dest_kind d)
                         (dest_enabled d) (displayTarget d) (secretEncrypted d) (secretKeyId d)
                         (dest_createdAt d) succeededAt (lastFailedAt d) None
                   end) (destinations t)) t)
  end.

Definition disableDestination (organizationId id : string) (t : NotificationTables)
    : unit * NotificationTables :=
  (tt, with_destinations
         (update_where (owned_destination organizationId id) (set_enabled false) (destinations t)) t).

Definition createDelivery (row : NotificationDeliveryRow) (t : NotificationTables)
    : option NotificationDeliveryRow * NotificationTables :=
  let (stored, rows) :=
    insert_or_nothing
      (fun d => (del_organizationId d ≡? del_organizationId row)
                && (del_notificationId d ≡? del_notificationId row)
                && (del_destinationId d ≡? del_destinationId row)) row (deliveries t) in
  (stored, with_deliveries rows t).
