(* ===== verification/Announce.v ===== *)
(** From an event to the deliveries it causes.

    packages/core/src/notification/producer.ts decides whether an event is
    worth announcing and what is said;
    packages/core/src/notification/announce.ts stores the notification and
    one delivery, with its job, for each subscribed destination; the texts
    are those of packages/contracts/src/notification-copy.ts.  All of it runs
    inside the caller's database transaction, the jobs included: the world
    below is what such a transaction commits or undoes. *)

From S2P Require Import Prelude Tables Dates StatusKinds StatusStore NotificationStore.

(** packages/core/src/job/queue-setup.ts *)
Definition NOTIFICATION_DEADLETTER_QUEUE : string := "notification.deadletter".
Definition STATUS_ESCALATE_QUEUE : string := "status.escalate".
Definition NOTIFICATION_CLEANUP_QUEUE : string := "notification.cleanup".
Definition NOTIFICATION_HTTP_QUEUE : string := "notification.deliver.http".
Definition NOTIFICATION_EMAIL_QUEUE : string := "notification.deliver.email".

(** The database, the queue's own tables ([J], kept by pg-boss in the same
    database) and the number of ids drawn. *)
Record World (J : Type) := MkWorld {
  status : StatusTables; notifs : NotificationTables; jobs : J; drawn : nat }.
Arguments MkWorld {J}. Arguments status {J}. Arguments notifs {J}. Arguments jobs {J}.
Arguments drawn {J}.

Section world.
Context {J : Type}.

Definition with_status (x : StatusTables) (w : World J) : World J :=
  MkWorld x (notifs w) (jobs w) (drawn w).
Definition with_notifs (x : NotificationTables) (w : World J) : World J :=
  MkWorld (status w) x (jobs w) (drawn w).

(** Statements on the two groups of tables. *)
Definition on_status {A} (f : StatusTables -> A * StatusTables) : M (World J) A :=
  fun w => let (a, t) := f (status w) in (Ok a, with_status t w).
Definition on_notifs {A} (f : NotificationTables -> A * NotificationTables) : M (World J) A :=
  fun w => let (a, t) := f (notifs w) in (Ok a, with_notifs t w).
Definition from_status {A} (f : StatusTables -> A) : M (World J) A := gets (fun w => f (status w)).
Definition from_notifs {A} (f : NotificationTables -> A) : M (World J) A := gets (fun w => f (notifs w)).

(** [nanoid()]: ids drawn one after the other. *)
Definition nanoid (idOf : nat -> string) : M (World J) string :=
  fun w => (Ok (idOf (drawn w)), MkWorld (status w) (notifs w) (jobs w) (S (drawn w))).

(** [db.transaction().execute(fn)]: all of it, or nothing. *)
Definition in_transaction {A} (m : M (World J) A) : M (World J) A :=
  transaction (fun before _ => before) m.
End world.

(** [SendJob]: the queue, the payload and the delay in seconds; [null] when
    the queue does not take the job. *)
Definition SendJob (J : Type) : Type :=
  string -> list (string * string) -> option Z -> M (World J) (option string).

(** ** What is said *)

Record NotificationCopy := MkCopy { copy_title : string; copy_body : string }.

(** [COPY[kind]({ name })], for the kinds that have a text. *)
Definition notificationCopy (kind : NotificationKind) (name : string) : NotificationCopy :=
  match kind with
  | about host_unreachable =>
      MkCopy (name +:+ " is not responding")
        "OpenMCC cannot reach this machine, so the bots on it are unmanaged."
  | about host_recovered => MkCopy (name +:+ " is back") "OpenMCC can reach this machine again."
  | about host_drift_started =>
      MkCopy (name +:+ " was changed elsewhere")
        "Something on this machine no longer matches what OpenMCC set up."
  | about host_drift_resolved =>
      MkCopy (name +:+ " matches again") "This machine is back to what OpenMCC set up."
  | about instance_disconnected =>
      MkCopy (name +:+ " left the server") "It has not managed to get back on."
  | about instance_reconnected =>
      MkCopy (name +:+ " is back on the server") "It rejoined and is playing again."
  | about instance_flapping =>
      MkCopy (name +:+ " keeps dropping out")
        "It has left and rejoined repeatedly in the last half hour."
  | about instance_never_joined =>
      MkCopy (name +:+ " never got on the server") "It started up but never joined."
  | about instance_unexpected_stop =>
      MkCopy (name +:+ " stopped on its own") "Nobody asked it to stop."
  | about instance_process_recovered => MkCopy (name +:+ " is running again") "It started back up."
  | about instance_needs_auth =>
      MkCopy (name +:+ " needs you to sign in") "Open OpenMCC and start sign-in again."
  | about instance_drift_started =>
      MkCopy (name +:+ " was changed elsewhere") "Its settings no longer match what OpenMCC has."
  | about instance_drift_resolved =>
      MkCopy (name +:+ " settings match again") "Its settings are back to what OpenMCC has."
  | test =>
      MkCopy "Test from OpenMCC"
        ("If you are reading this, " +:+ name +:+ " is set up correctly.")
  | about _ => MkCopy EmptyString EmptyString
  end.

(** ** Whether it is said *)

Record EventFact := MkFact {
  fact_statusEventId : string; fact_kind : StatusEventKind; fact_subjectType : string;
  fact_subjectId : string; fact_subjectName : string; fact_incidentId : option string }.

Record PlannedNotification := MkPlanned {
  planned_kind : NotificationKind; planned_title : string; planned_body : string;
  planned_subjectType : string; planned_subjectId : string; planned_dedupeKey : string;
  planned_sourceStatusEventId : string }.

Definition dedupeKeyFor (statusEventId : string) : string := "event:" +:+ statusEventId.

Definition subscriptionKindFor (kind : StatusEventKind) : StatusEventKind :=
  match problemResolvedBy kind with Some problem => problem | None => kind end.

Definition asNotificationKind (kind : StatusEventKind) : option NotificationKind :=
  List.find (fun candidate => candidate ≡? about kind) NOTIFICATION_KINDS.

Definition relevantKinds (kind : StatusEventKind) : list NotificationKind :=
  let resolved :=
    match problemResolvedBy kind with Some problem => asNotificationKind problem | None => None end in
  omap id [resolved; asNotificationKind kind].

Definition worthAnnouncing (kind : StatusEventKind) (lastAnnouncedKind : option NotificationKind)
    : bool :=
  match problemResolvedBy kind with
  | Some problem => lastAnnouncedKind ≡? Some (about problem)
  | None => isNotifyingEvent kind
  end.

Section announce.
Context {J : Type} (sendJob : SendJob J) (idOf : nat -> string) (dbNow : Z)
  (carrier : list (string * string)).

Definition planNotification (fact : EventFact)
    (lastAnnounced : string -> string -> list NotificationKind -> option string
                     -> M (World J) (option NotificationKind))
    : M (World J) (option PlannedNotification) :=
  match asNotificationKind (fact_kind fact) with
  | None => ret None
  | Some kind =>
      let* previous :=
        match problemResolvedBy (fact_kind fact) with
        | None => ret None
        | Some _ =>
            lastAnnounced (fact_subjectType fact) (fact_subjectId fact)
              (relevantKinds (fact_kind fact)) (fact_incidentId fact)
        end in
      if negb (worthAnnouncing (fact_kind fact) previous) then ret None
      else
        let copy := notificationCopy kind (fact_subjectName fact) in
        ret (Some (MkPlanned kind (copy_title copy) (copy_body copy) (fact_subjectType fact)
                     (fact_subjectId fact) (dedupeKeyFor (fact_statusEventId fact))
                     (fact_statusEventId fact)))
  end.

Definition queueFor (destination : NotificationDestinationRow) : string :=
  if usesEmailTransport (dest_kind destination) then NOTIFICATION_EMAIL_QUEUE
  else NOTIFICATION_HTTP_QUEUE.

Definition InternalError_ (message : string) : thrown := ThrownError InternalError message.

(** One turn of the loop over the destinations. *)
Definition announce_to (organizationId : string) (notification : NotificationRow)
    (destination : NotificationDestinationRow) : M (World J) unit :=
  let* deliveryId := nanoid idOf in
  let* delivery :=
    on_notifs (createDelivery (MkDelivery deliveryId organizationId (notif_id notification)
                                 (dest_id destination) queued 0 dbNow None None)) in
  match delivery with
  | None => ret tt
  | Some delivery =>
      let* jobId :=
        sendJob (queueFor destination)
          ([("organizationId", organizationId); ("deliveryId", del_id delivery); ("attempt", "1")]
             ++ carrier) None in
      match jobId with
      | None =>
          throw (InternalError_ ("the delivery to " +:+ dest_name destination
                                   +:+ " could not be queued"))
      | Some _ => ret tt
      end
  end.

Definition announce (organizationId : string) (fact : EventFact)
    : M (World J) (option PlannedNotification) :=
  let* planned :=
    planNotification fact
      (fun subjectType subjectId kinds incidentId =>
         gets (fun w => option_map notif_kind
                          (lastAnnouncedAmong organizationId subjectType subjectId kinds incidentId
                             (events (status w)) (notifs w)))) in
  match planned with
  | None => ret None
  | Some planned =>
      match List.find (fun candidate => candidate ≡? subscriptionKindFor (fact_kind fact))
              SUBSCRIPTION_KINDS with
      | None => ret None
      | Some subscribable =>
          let* destinations := from_notifs (destinationsSubscribedTo organizationId subscribable) in
          if (length destinations =? 0)%nat then ret None
          else
            let* notificationId := nanoid idOf in
            let* notification :=
              on_notifs (createNotification
                (MkNotification notificationId organizationId (planned_kind planned)
                   (planned_title planned) (planned_body planned) (planned_subjectType planned)
                   (planned_subjectId planned) (planned_dedupeKey planned)
                   (Some (planned_sourceStatusEventId planned)) dbNow)) in
            match notification with
            | None => ret None
            | Some notification =>
                for_each destinations (announce_to organizationId notification) ;;;
                ret (Some planned)
            end
      end
  end.
End announce.

(** ** Lemmas *)

Section lemmas.
Context {J : Type} (sendJob : SendJob J) (idOf : nat -> string) (dbNow : Z)
  (carrier : list (string * string)).

(** A queue that leaves the status tables alone. *)
Class QueueKeepsStatus : Prop := {
  sendJob_status : forall queue payload delay, keeps status (sendJob queue payload delay) }.

Lemma keeps_bind_status {A B} (m : M (World J) A) (k : A -> M (World J) B) :
  keeps status m -> (forall a, keeps status (k a)) -> keeps status (bind m k).
Proof.
  intros Hm Hk w. specialize (Hm w). unfold bind. destruct (m w) as [[a|e] w']; [|done].
  by rewrite Hk.
Qed.

Lemma keeps_ret_status {A} (a : A) : keeps (status (J := J)) (ret a).
Proof. by intros w. Qed.

Lemma keeps_notifs_status {A} (f : NotificationTables -> A * NotificationTables) :
  keeps (status (J := J)) (on_notifs f).
Proof. intros w. unfold on_notifs. by destruct (f (notifs w)). Qed.

Lemma keeps_for_each_status {A} (xs : list A) body :
  (forall x, keeps status (body x)) -> keeps (status (J := J)) (for_each xs body).
Proof.
  intros H. induction xs as [|x xs IH]; [by intros w|]. apply keeps_bind_status; [apply H|]. by intros ?.
Qed.

Lemma announce_to_status {queue : QueueKeepsStatus} organizationId notification destination :
  keeps status (announce_to sendJob idOf dbNow carrier organizationId notification destination).
Proof.
  apply keeps_bind_status; [by intros w|]. intros id.
  apply keeps_bind_status; [apply keeps_notifs_status|]. intros [delivery|]; [|apply keeps_ret_status].
  apply keeps_bind_status; [apply sendJob_status|]. intros [jobId|]; by intros w.
Qed.

Lemma announce_status {queue : QueueKeepsStatus} organizationId fact :
  keeps status (announce sendJob idOf dbNow carrier organizationId fact).
Proof.
  unfold announce. apply keeps_bind_status.
  { unfold planNotification. destruct (asNotificationKind _); [|apply keeps_ret_status].
    apply keeps_bind_status; [by destruct (problemResolvedBy _)|]. intros previous.
    by destruct (negb _). }
  intros [planned|]; [|apply keeps_ret_status]. destruct (List.find _ _); [|apply keeps_ret_status].
  apply keeps_bind_status; [by intros w|]. intros destinations_.
  destruct (_ =? 0)%nat; [apply keeps_ret_status|].
  apply keeps_bind_status; [by intros w|]. intros notificationId.
  apply keeps_bind_status; [apply keeps_notifs_status|]. intros [notification|]; [|apply keeps_ret_status].
  apply keeps_bind_status; [|by intros ?; apply keeps_ret_status].
  apply keeps_for_each_status. intros d. apply announce_to_status.
Qed.

(** What a plan says, when there is one. *)
Lemma planNotification_some fact last w planned w' :
  planNotification (J := J) fact last w = (Ok (Some planned), w') ->
  planned_kind planned = about (fact_kind fact)
  /\ planned_dedupeKey planned = dedupeKeyFor (fact_statusEventId fact)
  /\ planned_sourceStatusEventId planned = fact_statusEventId fact
  /\ match problemResolvedBy (fact_kind fact) with
     | None => isNotifyingEvent (fact_kind fact) = true /\ w' = w
     | Some problem =>
         last (fact_subjectType fact) (fact_subjectId fact) (relevantKinds (fact_kind fact))
           (fact_incidentId fact) w = (Ok (Some (about problem)), w')
     end.
Proof.
  unfold planNotification. destruct (asNotificationKind (fact_kind fact)) as [kind|] eqn:Ek; [|done].
  assert (Hk : kind = about (fact_kind fact)).
  { apply List.find_some in Ek as [_ Ek]. by apply bool_decide_eq_true in Ek. }
  unfold worthAnnouncing, bind. destruct (problemResolvedBy (fact_kind fact)) as [problem|].
  - destruct (last _ _ _ _ w) as [[previous|e] w1]; [|done].
    destruct (negb _) eqn:E; [done|]. intros [= <- <-]. tests. by subst.
  - cbn. destruct (negb _) eqn:E; [done|]. intros [= <- <-]. tests. by subst.
Qed.

Lemma lastAnnounced_spec organizationId subject_type subject_id kinds incidentId evs t n :
  lastAnnouncedAmong organizationId subject_type subject_id kinds incidentId evs t = Some n ->
  In n (notifications t) /\ notif_organizationId n = organizationId
  /\ subjectType n = subject_type /\ subjectId n = subject_id /\ notif_kind n ∈ kinds
  /\ exists e, In e evs /\ sourceStatusEventId n = Some (event_id e)
       /\ (incidentId = None \/ event_incidentId e = incidentId).
Proof.
  unfold lastAnnouncedAmong. destruct (_ =? 0)%nat; [done|]. intros H.
  assert (Hin : In n (order_by newest_notification_first
    (select (fun n => (notif_organizationId n ≡? organizationId) && (subjectType n ≡? subject_type)
       && (subjectId n ≡? subject_id) && bool_decide (notif_kind n ∈ kinds)
       && existsb (fun e => (sourceStatusEventId n ≡? Some (event_id e))
            && (event_organizationId e ≡? notif_organizationId n)
            && match incidentId with
               | Some id => event_incidentId e ≡? Some id
               | None => true
               end) evs) (notifications t)))).
  { destruct (order_by _ _); [done|]. simpl in H. injection H as ->. by left. }
  apply in_order_by, filter_In in Hin as [Hin Hp]. tests. apply existsb_exists in H1 as (e & He & Hp).
  tests. repeat (split; [done|]). exists e. split; [done|]. split; [done|].
  destruct incidentId as [id|]; [right|by left]. by tests.
Qed.
End lemmas.

(** an event is announced at most once: once a notification is on record
    for it, announcing the event again plans nothing and leaves the tables
    and the queue as they were. *)
Theorem event_is_announced_once {J} (sendJob : SendJob J) idOf dbNow carrier organizationId fact w n
    (Hrecorded : In n (notifications (notifs w)))
    (Hsame : notif_organizationId n = organizationId
             /\ dedupeKey n = dedupeKeyFor (fact_statusEventId fact)) :
  exists w', announce sendJob idOf dbNow carrier organizationId fact w = (Ok None, w')
    /\ status w' = status w /\ notifs w' = notifs w /\ jobs w' = jobs w.
Proof.
  unfold announce, bind at 1. set (last := fun _ _ _ _ => _).
  assert (Hplan : exists p, planNotification fact last w = (Ok p, w)).
  { unfold planNotification, bind. destruct (asNotificationKind _); [|by eexists].
    destruct (problemResolvedBy _); cbn; (destruct (negb _); by eexists). }
  destruct Hplan as [planned Hplan]. rewrite Hplan. destruct planned as [planned|]; [|by exists w].
  apply planNotification_some in Hplan as (_ & Hkey & _).
  destruct (List.find _ _) as [subscribable|]; [|by exists w].
  unfold bind at 1, from_notifs, gets.
  destruct (_ =? 0)%nat; [by exists w|]. unfold bind at 1, nanoid. unfold bind, on_notifs. cbn.
  unfold createNotification, insert_or_nothing. cbn.
  replace (existsb _ (notifications (notifs w))) with true.
  - cbn. eexists. split; [reflexivity|]. split; [done|]. split; [by destruct (notifs w)|done].
  - symmetry. apply existsb_exists. exists n. split; [done|]. destruct Hsame as [-> ->].
    rewrite Hkey. by rewrite !bool_decide_eq_true_2.
Qed.

(** good news is told only to those who had the bad news: when an event
    that resolves a problem is announced, a notification of that problem is
    on record for the same subject, and for the same incident when the event
    belongs to one. *)
Theorem recovery_is_announced_after_its_problem {J} (sendJob : SendJob J) idOf dbNow carrier
    organizationId fact w planned w' problem
    (Hannounced : announce sendJob idOf dbNow carrier organizationId fact w = (Ok (Some planned), w'))
    (Hresolves : problemResolvedBy (fact_kind fact) = Some problem) :
  exists n e, In n (notifications (notifs w)) /\ notif_kind n = about problem
    /\ notif_organizationId n = organizationId
    /\ subjectType n = fact_subjectType fact /\ subjectId n = fact_subjectId fact
    /\ In e (events (status w)) /\ sourceStatusEventId n = Some (event_id e)
    /\ (fact_incidentId fact = None \/ event_incidentId e = fact_incidentId fact).
Proof.
  unfold announce, bind at 1 in Hannounced.
  destruct (planNotification _ _ w) as [[[p|]|e] w1] eqn:Hplan; [|done|done].
  apply planNotification_some in Hplan as (_ & _ & _ & Hlast). rewrite Hresolves in Hlast.
  cbn in Hlast. unfold gets in Hlast. injection Hlast as Hlast _.
  destruct (lastAnnouncedAmong _ _ _ _ _ _ _) as [n|] eqn:En; [|done]. injection Hlast as Hk.
  apply lastAnnounced_spec in En as (Hin & Ho & Ht & Hi & _ & e & He & Hs & Hinc).
  by exists n, e.
Qed.

(** Ids for the examples. *)
Definition decimalOfNat (n : nat) : string := decimal (Z.of_nat n).

(** A queue that takes every job: it is the list of the jobs taken. *)
Definition accepting : SendJob (list (string * list (string * string))) :=
  fun queue payload _ w =>
    (Ok (Some "job"), MkWorld (status w) (notifs w) (jobs w ++ [(queue, payload)]) (drawn w)).

Definition example_destination : NotificationDestinationRow :=
  MkDestination "d1" "org" "Ops" discord true "#ops" "sealed" "k1" 0 None None None.

Definition down_event : StatusEventRow :=
  MkEventRow "e1" "org" (Bot "i1") "bot" instance_disconnected 5 5 5 (Some "inc") journal None.

Definition announced_world : World (list (string * list (string * string))) :=
  MkWorld (MkStatusTables [] [] [down_event] [])
    (MkNotificationTables [example_destination]
       [MkSubscription "s1" "org" "d1" instance_disconnected]
       [MkNotification "n1" "org" (about instance_disconnected) "" "" "instance" "i1" "event:e1"
          (Some "e1") 6] [] []) [] 0.

Lemma event_is_announced_once_witness :
  exists w', announce accepting decimalOfNat 0 [] "org"
      (MkFact "e1" instance_disconnected "instance" "i1" "bot" (Some "inc")) announced_world
    = (Ok None, w')
    /\ status w' = status announced_world /\ notifs w' = notifs announced_world
    /\ jobs w' = jobs announced_world.
Proof.
  eapply (event_is_announced_once accepting decimalOfNat 0 [] "org"
    (MkFact "e1" instance_disconnected "instance" "i1" "bot" (Some "inc")) announced_world).
  - by left.
  - done.
Defined.

Lemma recovery_is_announced_after_its_problem_witness :
  exists planned w', announce accepting decimalOfNat 0 [] "org"
      (MkFact "e2" instance_reconnected "instance" "i1" "bot" (Some "inc")) announced_world
    = (Ok (Some planned), w')
    /\ length (jobs w') = 1%nat
    /\ exists n e, In n (notifications (notifs announced_world))
       /\ notif_kind n = about instance_disconnected /\ notif_organizationId n = "org"
       /\ subjectType n = "instance" /\ subjectId n = "i1"
       /\ In e (events (status announced_world)) /\ sourceStatusEventId n = Some (event_id e)
       /\ (Some "inc" = None \/ event_incidentId e = Some "inc").
Proof.
  do 2 eexists. split; [vm_compute; reflexivity|]. split; [vm_compute; reflexivity|].
  eapply (recovery_is_announced_after_its_problem accepting decimalOfNat 0 [] "org"
    (MkFact "e2" instance_reconnected "instance" "i1" "bot" (Some "inc")) announced_world).
  - vm_compute. reflexivity.
  - reflexivity.
Defined.
