(* ===== verification/Payloads.v ===== *)
(** What a queued job carries.

    packages/core/src/status/escalation.job.ts and [readDeliveryPayload] of
    packages/core/src/notification/delivery.job.ts read back, from decoded
    JSON, the payloads the control plane queued; the boundary readers of
    packages/contracts/src/boundary (discord.ts, resend.ts, telegram.ts) read
    the replies of the notification services the same way. *)

From S2P Require Import Prelude.

(** A decoded JSON value; a number is a fraction, an object the list of its
    own fields. *)
#[warnings="-register-all"]
Inductive Json :=
  | JNull
  | JBool (value : bool)
  | JNumber (numerator : Z) (denominator : positive)
  | JString (value : string)
  | JArray (items : list Json)
  | JObject (fields : list (string * Json)).

(** [record[key]]; [undefined] when there is no such field. *)
Fixpoint field (key : string) (fields : list (string * Json)) : option Json :=
  match fields with
  | [] => None
  | (name, value) :: rest => if name ≡? key then Some value else field key rest
  end.

(** A field that must be a string that is not empty. *)
Definition text_field (key : string) (fields : list (string * Json)) : option string :=
  match field key fields with
  | Some (JString value) => if (String.length value =? 0)%nat then None else Some value
  | _ => None
  end.

Definition MAX_SAFE_INTEGER : Z := 9007199254740991.

(** [Number.isInteger] and the integer. *)
Definition whole (numerator : Z) (denominator : positive) : option Z :=
  if numerator mod Z.pos denominator =? 0 then Some (numerator / Z.pos denominator) else None.

(** [Math.ceil] *)
Definition ceil_div (n d : Z) : Z := - ((- n) / d).

(** ** The check on an interrupted bot *)

Record EscalationPayload := MkEscalation {
  esc_organizationId : string; esc_instanceId : string; esc_incidentId : string }.

Definition readEscalationPayload (payload : Json) : option EscalationPayload :=
  match payload with
  | JObject fields =>
      let? organizationId := text_field "organizationId" fields in
      let? instanceId := text_field "instanceId" fields in
      let? incidentId := text_field "incidentId" fields in
      Some (MkEscalation organizationId instanceId incidentId)
  | _ => None
  end.

Definition createEscalationHandler {S} (escalate : string -> string -> string -> M S bool)
    (payload : Json) : M S bool :=
  match readEscalationPayload payload with
  | None => ret false
  | Some read => escalate (esc_organizationId read) (esc_instanceId read) (esc_incidentId read)
  end.

(** ** A delivery *)

Record DeliveryPayload := MkDeliveryPayload {
  pay_organizationId : string; pay_deliveryId : string; pay_attempt : Z;
  traceparent : option string }.

(** [Number(text)]: decimal digits are read here, the other notations of the
    language by [other]; [None] is a value that is not an integer. *)
Definition number_of (other : string -> option Z) (text : string) : option Z :=
  match numberOfDigits text with Some n => Some n | None => other text end.

Definition readDeliveryPayload (other : string -> option Z) (payload : Json)
    : option DeliveryPayload :=
  match payload with
  | JObject fields =>
      let? organizationId := text_field "organizationId" fields in
      let? deliveryId := text_field "deliveryId" fields in
      let carried := text_field "traceparent" fields in
      let counted :=
        match field "attempt" fields with
        | None => Some 1
        | Some (JString text) => number_of other text
        | Some (JNumber n d) => whole n d
        | Some _ => None
        end in
      let? attempt := counted in
      if attempt <? 1 then None
      else Some (MkDeliveryPayload organizationId deliveryId attempt carried)
  | _ => None
  end.

(** The queue keeps a payload as the JSON object of its strings. *)
Definition as_json (payload : list (string * string)) : Json :=
  JObject (map (fun kv => (kv.1, JString kv.2)) payload).

(** ** Replies of the services; [JSON_parse] is [JSON.parse], [None] where it
    throws. *)
Section replies.
Variable JSON_parse : string -> option Json.

Definition asRecord (value : Json) : option (list (string * Json)) :=
  match value with JObject fields => Some fields | _ => None end.

Definition parseDiscordRetryAfter (raw : string) : option Z :=
  let? decoded := JSON_parse raw in
  let? body := asRecord decoded in
  match field "retry_after" body with
  | Some (JNumber n d) => if n <? 0 then None else Some (ceil_div n (Z.pos d))
  | _ => None
  end.

Definition parseResendErrorName (raw : string) : option string :=
  let? decoded := JSON_parse raw in
  let? body := asRecord decoded in
  text_field "name" body.

Record TelegramReply := MkTelegramReply {
  reply_ok : bool; errorCode : option Z; description : option string;
  reply_retryAfterSeconds : option Z }.

Definition asWholeNumber (value : option Json) : option Z :=
  match value with
  | Some (JNumber n d) =>
      let? v := whole n d in
      if (0 <=? v) && (v <=? MAX_SAFE_INTEGER) then Some v else None
  | _ => None
  end.

Definition parseTelegramReply (raw : string) : option TelegramReply :=
  let? decoded := JSON_parse raw in
  let? body := asRecord decoded in
  match field "ok" body with
  | Some (JBool ok) =>
      let parameters := let? value := field "parameters" body in asRecord value in
      Some (MkTelegramReply ok (asWholeNumber (field "error_code" body))
              (text_field "description" body)
              (let? parameters := parameters in asWholeNumber (field "retry_after" parameters)))
  | _ => None
  end.
End replies.

(** ** Lemmas *)

(** [Number(String(n))] *)
Lemma digit_value_char d : (d < 10)%N -> digit_value (pretty_N_char d) = Some (Z.of_N d).
Proof.
  intros H. assert (Hd : In d [0;1;2;3;4;5;6;7;8;9]%N) by (simpl; lia).
  simpl in Hd. by repeat destruct Hd as [<-|Hd].
Qed.

Lemma digits_from_pretty n s : digits_from 0 (pretty_N_go n s) = digits_from (Z.of_N n) s.
Proof.
  revert s. induction (N.lt_wf_0 n) as [n _ IH]. intros s. destruct (decide (0 < n)%N) as [Hn|Hn].
  - rewrite pretty_N_go_step by done. rewrite IH by (by apply N.div_lt). cbn [digits_from].
    rewrite digit_value_char by (by apply N.mod_lt). f_equal. lia.
  - replace n with 0%N by lia. by rewrite pretty_N_go_0.
Qed.

Lemma number_of_decimal other n : 0 <= n -> number_of other (decimal n) = Some n.
Proof.
  intros Hn. unfold number_of, numberOfDigits, decimal, pretty, pretty_Z.
  destruct n as [|p|p]; [done| |lia].
  assert (Hd : digits_from 0 (pretty (N.pos p)) = Some (Z.pos p)).
  { unfold pretty, pretty_N. case_decide; [done|]. by rewrite digits_from_pretty. }
  change (pretty p) with (pretty (N.pos p)). destruct (pretty (N.pos p)); [done|]. by rewrite Hd.
Qed.

Lemma field_as_json key payload :
  field key (map (fun kv => (kv.1, JString kv.2)) payload)
  = option_map JString (option_map snd (List.find (fun kv => kv.1 ≡? key) payload)).
Proof.
  induction payload as [|[name value] payload IH]; [done|]. cbn. by destruct (name ≡? key).
Qed.
