(* ===== verification/StatusController.v ===== *)
(** The status history as a whole.

    packages/core/src/status/status.controller.ts: what a check of a machine
    and the connection changes of a bot leave in the tables, the escalation
    of a bot that stays off the server
    (packages/core/src/status/escalation.job.ts), and what the pages read.
    Every operation is one transaction on the world of [Announce]. *)

From S2P Require Import Prelude Tables Dates StatusKinds Connection Reachability Rollup StatusStore NotificationStore Announce.

Record HostObservation := MkHostObservation {
  obs_hostId : string; obs_hostName : string; obs_reached : bool }.

(** The [{ id, name }] of a bot or a machine. *)
Record Named := MkNamed { named_id : string; named_name : string }.

Definition HOST_REACHABILITY : StatusDimension := host_reachability.
Definition INSTANCE_CONNECTION : StatusDimension := instance_connection.

(** The words of a state that machines, and bots, have in common with
    [StatusState]. *)
Definition reachability_of (state : StatusState) : ReachabilityState :=
  match state with
  | st_up => r_up | st_suspect => r_suspect | st_down => r_down | _ => r_unknown
  end.

Definition status_of_reachability (state : ReachabilityState) : StatusState :=
  match state with
  | r_up => st_up | r_suspect => st_suspect | r_down => st_down | r_unknown => st_unknown
  end.

(** [CONNECTION_STATES.find((candidate) => candidate === condition.state)] *)
Definition connection_of (state : StatusState) : option ConnectionState :=
  List.find (fun candidate => status_of candidate ≡? state) CONNECTION_STATES.

Definition reachability_current (existing : option StatusConditionRow) : ReachabilityCurrent :=
  match existing with
  | None => UNOBSERVED
  | Some existing =>
      MkReach (reachability_of (cond_state existing)) (cond_failureStartedAt existing)
  end.

Definition active_incident (existing : option StatusConditionRow) : option string :=
  match existing with Some existing => cond_activeIncidentId existing | None => None end.

Section controller.
Context {J : Type} (sendJob : SendJob J) (idOf : nat -> string) (dbNow : Z)
  (carrier : list (string * string)).
(** [deps.now()] *)
Context (now : M (World J) Z).
Variable organizationId : string.

Definition record_event (row : string -> StatusEventRow) : M (World J) (option StatusEventRow) :=
  let* id := nanoid idOf in on_status (recordEvent (row id)).

Definition open_interval (subject : SubjectRef) (dimension : StatusDimension) (state : StatusState)
    (startedAt : Z) (startEventId : option string) : M (World J) StatusIntervalRow :=
  let* id := nanoid idOf in
  on_status (openInterval id organizationId subject dimension state startedAt startEventId).

Definition upsert_condition (subject : SubjectRef) (dimension : StatusDimension)
    (patch : ConditionPatch) (startedAt : Z) : M (World J) (option StatusConditionRow) :=
  let* id := nanoid idOf in
  on_status (upsertCondition id organizationId subject dimension patch startedAt).

Definition announce_ (fact : EventFact) : M (World J) unit :=
  announce sendJob idOf dbNow carrier organizationId fact ;;; ret tt.

(** The interval and the condition of a machine whose state moved. *)
Definition settle_host (subject : SubjectRef) (decision : ReachabilityDecision)
    (incidentId eventId : option string) (at_ : Z) : M (World J) unit :=
  let state := status_of_reachability (next_state decision) in
  on_status (closeOpenInterval organizationId subject HOST_REACHABILITY at_ eventId) ;;;
  open_interval subject HOST_REACHABILITY state at_ eventId ;;;
  upsert_condition subject HOST_REACHABILITY
    (MkPatch state at_ (next_failureStartedAt decision)
       (if next_state decision ≡? r_up then None else incidentId)) at_ ;;;
  ret tt.

(** A machine whose state moved, or that was never checked before. *)
Definition host_moved (observation : HostObservation) (existing : option StatusConditionRow)
    (decision : ReachabilityDecision) (at_ : Z) : M (World J) unit :=
  let subject := Host (obs_hostId observation) in
  let* incidentId :=
    if next_state decision ≡? r_down then
      match active_incident existing with
      | Some id => ret (Some id)
      | None => let* id := nanoid idOf in ret (Some id)
      end
    else if next_state decision ≡? r_up then ret None
    else ret (active_incident existing) in
  let eventIncidentId :=
    match incidentId with Some id => Some id | None => active_incident existing end in
  let* event :=
    match reach_event decision with
    | None => ret None
    | Some kind =>
        record_event (fun id =>
          MkEventRow id organizationId subject (obs_hostName observation) kind at_ at_ at_
            eventIncidentId host_probe None)
    end in
  match event with
  | None => ret tt
  | Some event =>
      announce_ (MkFact (event_id event) (event_kind event) "host" (obs_hostId observation)
                   (obs_hostName observation) eventIncidentId)
  end ;;;
  settle_host subject decision incidentId (option_map event_id event) at_.

Definition recordHostReachability (observation : HostObservation) : M (World J) unit :=
  let* at_ := now in
  in_transaction (
    let* existing :=
      from_status (findCondition organizationId (Host (obs_hostId observation)) HOST_REACHABILITY) in
    let decision := nextReachability (reachability_current existing) (obs_reached observation) at_ in
    match existing, changed decision with
    | Some existing, false => on_status (touchCondition organizationId (cond_id existing) at_)
    | _, _ => host_moved observation existing decision at_
    end).

(** What follows once the escalation is claimed. *)
Definition escalate_claimed (instance : Named) (incidentId : string) (change : ConnectionChange)
    : M (World J) bool :=
  let subject := Bot (named_id instance) in
  let* observedAt := now in
  let* corroboratedAt := now in
  let* event :=
    record_event (fun id =>
      MkEventRow id organizationId subject (named_name instance) instance_disconnected
        (change_at change) observedAt corroboratedAt (Some incidentId) journal
        (Some (escalationKeyFor incidentId))) in
  match event with
  | None => ret false
  | Some event =>
      announce_ (MkFact (event_id event) (event_kind event) "instance" (named_id instance)
                   (named_name instance) (Some incidentId)) ;;;
      on_status (closeOpenInterval organizationId subject INSTANCE_CONNECTION (change_at change)
                   (Some (event_id event))) ;;;
      open_interval subject INSTANCE_CONNECTION (status_of (change_state change))
        (change_at change) (Some (event_id event)) ;;;
      ret true
  end.

Definition escalateInstance (instance : Named) (incidentId : string) : M (World J) bool :=
  in_transaction (
    let* condition :=
      from_status (findCondition organizationId (Bot (named_id instance)) INSTANCE_CONNECTION) in
    match condition with
    | None => ret false
    | Some condition =>
        if negb (cond_activeIncidentId condition ≡? Some incidentId) then ret false
        else match connection_of (cond_state condition) with
        | None => ret false
        | Some connectionState =>
            let* at_ := now in
            match escalateIfStillDown
                    (MkCurrent connectionState (cond_failureStartedAt condition) None) at_ with
            | None => ret false
            | Some change =>
                let* claimedAt := now in
                let* claimed :=
                  on_status (claimEscalation organizationId (cond_id condition) incidentId
                               (status_of (change_state change)) claimedAt) in
                if negb claimed then ret false
                else escalate_claimed instance incidentId change
            end
        end
    end).

(** The key an event of the journal is stored under. *)
Definition changeKey (instanceId : string) (at_ : Z) (kind : StatusEventKind) : string :=
  instanceId +:+ ":" +:+ toISOString at_ +:+ ":" +:+ kind_text kind.

Definition flapKey (instanceId : string) (at_ : Z) : string :=
  "flap:" +:+ instanceId +:+ ":" +:+ toISOString at_.

(** The event of one change, stored and announced. *)
Definition record_change_event (instance : Named) (change : ConnectionChange)
    (eventIncidentId : option string) : M (World J) (option StatusEventRow) :=
  let* event :=
    match change_event change with
    | None => ret None
    | Some kind =>
        let* observedAt := now in
        let* corroboratedAt := now in
        record_event (fun id =>
          MkEventRow id organizationId (Bot (named_id instance)) (named_name instance) kind
            (change_at change) observedAt corroboratedAt eventIncidentId journal
            (Some (changeKey (named_id instance) (change_at change) kind)))
    end in
  match event with
  | None => ret tt
  | Some event =>
      announce_ (MkFact (event_id event) (event_kind event) "instance" (named_id instance)
                   (named_name instance) eventIncidentId)
  end ;;;
  ret event.

(** The check scheduled when an incident opens. *)
Definition schedule_escalation (instance : Named) (decision : IncidentDecision) : M (World J) unit :=
  match opened decision, incidentId decision with
  | true, Some incidentId =>
      let* scheduled :=
        sendJob STATUS_ESCALATE_QUEUE
          [("organizationId", organizationId); ("instanceId", named_id instance);
           ("incidentId", incidentId)]
          (Some ((INSTANCE_INTERRUPTED_TO_DOWN_MS + 999) / 1000)) in
      match scheduled with
      | None =>
          throw (InternalError_ ("the check on " +:+ named_name instance
                                   +:+ " could not be scheduled"))
      | Some _ => ret tt
      end
  | _, _ => ret tt
  end.

(** Whether this loss makes the bot one that keeps dropping out. *)
Definition record_flapping (instance : Named) (opening : option StatusConditionRow)
    (change : ConnectionChange) (incidentId : option string) : M (World J) unit :=
  match opening with
  | Some opening =>
      if negb (countsAsLoss (change_event change)) then ret tt
      else
        let* losses :=
          from_status (recentLossesAt organizationId (named_id instance)
                         (lossWindow (change_at change)) FLAPPING_LOSS_EVENTS) in
        if negb (worthClaimingFlapping losses (change_at change)) then ret tt
        else
          let* claimed :=
            on_status (claimFlapping organizationId (cond_id opening) (change_at change)
                         FLAPPING_WINDOW_MS) in
          if negb claimed then ret tt
          else
            let* observedAt := now in
            let* corroboratedAt := now in
            let* flapped :=
              record_event (fun id =>
                MkEventRow id organizationId (Bot (named_id instance)) (named_name instance)
                  instance_flapping (change_at change) observedAt corroboratedAt incidentId journal
                  (Some (flapKey (named_id instance) (change_at change)))) in
            match flapped with
            | None => ret tt
            | Some flapped =>
                announce_ (MkFact (event_id flapped) (event_kind flapped) "instance"
                             (named_id instance) (named_name instance) None)
            end
  | None => ret tt
  end.

(** Where the next interval starts: not before the one just closed ended. *)
Definition startAtAfter (closed : option StatusIntervalRow) (at_ : Z) : Z :=
  match closed with
  | Some row => match ival_endedAt row with
                | Some ended => if at_ <? ended then ended else at_
                | None => at_
                end
  | None => at_
  end.

(** The interval and the condition of one change. *)
Definition settle_change (instance : Named) (change : ConnectionChange) (event : option StatusEventRow)
    (incidentId : option string) : M (World J) unit :=
  let subject := Bot (named_id instance) in
  let state := status_of (change_state change) in
  let* closed :=
    on_status (closeOpenInterval organizationId subject INSTANCE_CONNECTION (change_at change)
                 (option_map event_id event)) in
  open_interval subject INSTANCE_CONNECTION state (startAtAfter closed (change_at change))
    (option_map event_id event) ;;;
  let* observedAt := now in
  upsert_condition subject INSTANCE_CONNECTION
    (MkPatch state observedAt
       (if change_state change ≡? c_joined then None else Some (change_at change)) incidentId)
    (change_at change) ;;;
  ret tt.

(** One turn of the loop; it answers with the incident that goes on.  The id
    of an incident is drawn only when one opens. *)
Definition record_change (instance : Named) (opening : option StatusConditionRow)
    (current : option string) (change : ConnectionChange) : M (World J) (option string) :=
  let* decision :=
    fun w =>
      let decision := nextIncident current (change_state change) (change_event change)
                        (idOf (drawn w)) in
      if opened decision then (let* _ := nanoid idOf in ret decision) w else (Ok decision, w) in
  let* event := record_change_event instance change (incidentOfEvent decision) in
  schedule_escalation instance decision ;;;
  record_flapping instance opening change (incidentId decision) ;;;
  settle_change instance change event (incidentId decision) ;;;
  ret (incidentId decision).

Fixpoint record_changes (instance : Named) (opening : option StatusConditionRow)
    (current : option string) (changes : list ConnectionChange) : M (World J) unit :=
  match changes with
  | [] => ret tt
  | change :: rest =>
      let* next := record_change instance opening current change in
      record_changes instance opening next rest
  end.

Definition recordInstanceConnection (instance : Named) (changes : list ConnectionChange)
    : M (World J) unit :=
  if (length changes =? 0)%nat then ret tt
  else
    in_transaction (
      let* opening :=
        from_status (findCondition organizationId (Bot (named_id instance)) INSTANCE_CONNECTION) in
      record_changes instance opening (active_incident opening) changes).

Definition connectionCursor (instanceId : string) : M (World J) (option string) :=
  in_transaction (from_status (readCursor organizationId instanceId journal)).

Definition saveConnectionCursor (instanceId cursor : string) : M (World J) unit :=
  in_transaction (
    let* observedAt := now in
    let* id := nanoid idOf in
    on_status (writeCursor id organizationId instanceId journal cursor observedAt)).

Definition current_of (condition : StatusConditionRow) : ConnectionCurrent :=
  MkCurrent
    match cond_state condition with
    | st_joined => c_joined
    | st_interrupted => c_interrupted
    | st_down => c_down
    | st_never_joined => c_never_joined
    | _ => c_unknown
    end (Some (cond_startedAt condition)) None.

Definition currentConnection (instanceId : string) : M (World J) ConnectionCurrent :=
  let* condition :=
    in_transaction
      (from_status (findCondition organizationId (Bot instanceId) INSTANCE_CONNECTION)) in
  ret (match condition with
       | None => UNOBSERVED_CONNECTION
       | Some condition => current_of condition
       end).

(** ** What the pages read *)

Record HostSummary := MkHostSummary {
  sum_host : Named; sum_state : StatusState; sum_since : Z; sum_lastCheckedAt : Z;
  sum_availability : Availability; sum_buckets : list BucketAvailability }.

Record BotSummary := MkBotSummary {
  bot_named : Named; bot_state : StatusState; bot_availability : Availability;
  bot_buckets : list BucketAvailability; bot_lastChangeAt : option Z }.

Record StatusSummary := MkStatusSummary {
  sum_hosts : list HostSummary; sum_bots : list BotSummary; answering : nat; total : nat;
  sum_bucketSeconds : Z; sum_retentionDays : Z }.

Definition rollable (row : StatusIntervalRow) : RollableInterval :=
  MkInterval (ival_state row) (ival_startedAt row) (ival_endedAt row).

(** [intervals.filter(...)] and its copy with the open one ended now. *)
Definition of_subject (subject : SubjectRef) (rows : list StatusIntervalRow) : list RollableInterval :=
  map rollable (List.filter (fun row => ival_subject row ≡? subject) rows).

Definition ended_by (at_ : Z) (interval : RollableInterval) : RollableInterval :=
  MkInterval (interval_state interval) (interval_startedAt interval)
    (Some (match interval_endedAt interval with Some e => e | None => at_ end)).

Definition condition_about (subject : SubjectRef) (rows : list StatusConditionRow)
    : option StatusConditionRow :=
  List.find (fun row => cond_subject row ≡? subject) rows.

Definition summary (hostNames instanceNames : M (World J) (list Named)) (retentionDays : Z)
    (requested : StatusRange) : M (World J) StatusSummary :=
  let range := rangeWithinRetention requested retentionDays in
  let* at_ := now in
  let starts := bucketStartsFor range at_ in
  let since := match starts with first :: _ => first | [] => at_ end in
  let bucketSeconds := BUCKET_SECONDS range in
  let* names := hostNames in
  in_transaction (
    let* conditions := from_status (listConditions organizationId HOST_REACHABILITY) in
    let* intervals := from_status (listIntervals organizationId HOST_REACHABILITY since) in
    let hosts :=
      map (fun host =>
             let condition := condition_about (Host (named_id host)) conditions in
             let mine := of_subject (Host (named_id host)) intervals in
             MkHostSummary host
               (match condition with Some c => cond_state c | None => st_unknown end)
               (match condition with Some c => cond_startedAt c | None => since end)
               (match condition with Some c => cond_lastObservedAt c | None => since end)
               (availabilityOver mine since at_)
               (rollUpBuckets (map (ended_by at_) mine) starts bucketSeconds)) names in
    let* botNames := instanceNames in
    let* botConditions := from_status (listConditions organizationId INSTANCE_CONNECTION) in
    let* botIntervals := from_status (listIntervals organizationId INSTANCE_CONNECTION since) in
    let bots :=
      map (fun bot =>
             let condition := condition_about (Bot (named_id bot)) botConditions in
             let mine := of_subject (Bot (named_id bot)) botIntervals in
             MkBotSummary bot
               (match condition with Some c => cond_state c | None => st_unknown end)
               (availabilityOver mine since at_)
               (rollUpBuckets (map (ended_by at_) mine) starts bucketSeconds)
               (option_map cond_startedAt condition)) botNames in
    ret (MkStatusSummary hosts bots
           (length (List.filter (fun host => sum_state host ≡? st_up) hosts)) (length hosts)
           bucketSeconds retentionDays)).

Record ListedEvent := MkListed {
  listed_id : string; listed_kind : StatusEventKind; listed_label : string;
  listed_hostId : option string; listed_instanceId : option string; listed_occurredAt : Z }.

Record StatusEventPage := MkEventPage {
  page_events : list ListedEvent; page_total : Z; nextCursor : option string }.

Definition listed (row : StatusEventRow) : ListedEvent :=
  MkListed (event_id row) (event_kind row) (event_subjectLabel row) (host_of (event_subject row))
    (bot_of (event_subject row)) (event_occurredAt row).

Definition events_page (range : StatusRange) (limit : nat) (hostId instanceId : option string)
    (cursor : option StatusCursor.StatusEventCursor) : M (World J) StatusEventPage :=
  let* at_ := now in
  let filter := MkFilter (at_ - RANGE_SECONDS range * 1000) hostId instanceId in
  in_transaction (
    let* rows := from_status (listEvents organizationId filter limit cursor) in
    let* total := from_status (countEvents organizationId filter) in
    let events := map listed rows in
    ret (MkEventPage events total
           (match last events with
            | None => None
            | Some last =>
                if (length events <? limit)%nat then None
                else Some (StatusCursor.encodeStatusEventCursor
                             (StatusCursor.MkCursor (listed_occurredAt last) (listed_id last)))
            end))).
End controller.
