(* ===== verification/StatusHistory.v ===== *)
(** The history the status controller keeps.

    Whatever is recorded, the intervals of every machine and bot follow one
    another without gap or overlap, the last one open and in the state of
    the condition; and a bot that stays off the server is reported once per
    incident.  The lemmas are about the operations of [StatusController]. *)

From S2P Require Import Prelude Tables Dates Journal StatusKinds Connection Observer Reachability Rollup StatusStore NotificationStore Announce StatusController.

(** ** Timelines

    The intervals of one subject, in the order they were opened: each ends
    where the next begins, the last is open, and it is in the state of the
    condition. *)

Definition line (organizationId : string) (subject : SubjectRef) (dimension : StatusDimension)
    (t : StatusTables) : list StatusIntervalRow :=
  select (interval_of organizationId subject dimension) (intervals t).

Fixpoint contiguous (rows : list StatusIntervalRow) : Prop :=
  match rows with
  | [] => True
  | row :: rest =>
      match rest with
      | [] => ival_endedAt row = None
      | next :: _ => ival_endedAt row = Some (ival_startedAt next)
                     /\ ival_startedAt row <= ival_startedAt next
      end /\ contiguous rest
  end.

Definition timeline (organizationId : string) (subject : SubjectRef) (dimension : StatusDimension)
    (t : StatusTables) : Prop :=
  contiguous (line organizationId subject dimension t)
  /\ option_map ival_state (last (line organizationId subject dimension t))
     = option_map cond_state (findCondition organizationId subject dimension t).

Definition timelines (t : StatusTables) : Prop :=
  forall organizationId subject dimension, timeline organizationId subject dimension t.

Section timeline_lemmas.
Variables (organizationId : string) (subject : SubjectRef) (dimension : StatusDimension).

Local Abbreviation mine := (interval_of organizationId subject dimension).

Lemma interval_of_spec row :
  mine row = true <-> ival_organizationId row = organizationId /\ ival_subject row = subject
                      /\ ival_dimension row = dimension.
Proof.
  unfold interval_of. rewrite !andb_true_iff, !bool_decide_eq_true. tauto.
Qed.

Definition closed_at (at_ : Z) (eventId : option string) (row : StatusIntervalRow)
    : StatusIntervalRow :=
  if ival_endedAt row ≡? None then close_row at_ eventId row else row.

Lemma closed_at_starts at_ eventId row : ival_startedAt (closed_at at_ eventId row) = ival_startedAt row.
Proof. unfold closed_at. by destruct (_ ≡? _). Qed.

(** Only the last row of a contiguous timeline is open. *)
Lemma open_rows rows :
  contiguous rows ->
  List.filter (fun row => ival_endedAt row ≡? None) rows
  = match last rows with Some row => [row] | None => [] end.
Proof.
  induction rows as [|x rows IH]; [done|]. intros [Hx Hrows]. specialize (IH Hrows).
  destruct rows as [|y rows]; simpl in *.
  - by rewrite bool_decide_eq_true_2.
  - destruct Hx as [Hx _]. by rewrite Hx, (bool_decide_eq_false_2 (Some _ = None)).
Qed.

(** Closing the open row and opening another where it ends. *)
Lemma contiguous_extend at_ eventId rows row :
  contiguous rows -> ival_endedAt row = None ->
  (forall before, last rows = Some before ->
     ival_startedAt row = Z.max at_ (ival_startedAt before)) ->
  contiguous (map (closed_at at_ eventId) rows ++ [row]).
Proof.
  intros Hrows Hopen Hstart. induction rows as [|x rows IH]; [done|].
  destruct Hrows as [Hx Hrows]. specialize (IH Hrows). destruct rows as [|y rows].
  - specialize (Hstart x eq_refl). cbn. unfold closed_at. rewrite Hx, bool_decide_eq_true_2 by done.
    cbn. rewrite Hstart. split; [|done]. split; [done|lia].
  - destruct Hx as [Hx Hle]. specialize (IH Hstart). cbn [map app contiguous] in IH |- *.
    split; [|exact IH]. rewrite !closed_at_starts. unfold closed_at at 1.
    by rewrite Hx, bool_decide_eq_false_2.
Qed.

Lemma line_close at_ eventId t :
  line organizationId subject dimension (closeOpenInterval organizationId subject dimension at_ eventId t).2
  = map (closed_at at_ eventId) (line organizationId subject dimension t).
Proof.
  unfold line, closeOpenInterval, with_intervals, select, update_where. cbn.
  induction (intervals t) as [|row rows IH]; [done|]. cbn.
  assert (Ho : open_interval_of organizationId subject dimension row
    = mine row && (ival_endedAt row ≡? None)) by done.
  rewrite Ho. destruct (mine row) eqn:E; cbn; [|by rewrite E].
  assert (Hc : mine (closed_at at_ eventId row) = true)
    by (unfold closed_at; by destruct (ival_endedAt row ≡? None)).
  unfold closed_at in *. rewrite Hc. cbn. by rewrite IH.
Qed.

Lemma closed_by_close at_ eventId t :
  (closeOpenInterval organizationId subject dimension at_ eventId t).1
  = head (map (close_row at_ eventId)
            (List.filter (fun row => ival_endedAt row ≡? None) (line organizationId subject dimension t))).
Proof.
  unfold closeOpenInterval, updated, line, select. cbn. do 2 f_equal.
  unfold open_interval_of. induction (intervals t) as [|row rows IH]; [done|]. cbn.
  destruct (mine row) eqn:E; cbn; [|done]. by destruct (_ ≡? None); [f_equal|].
Qed.

(** Where the code starts the next interval. *)
Lemma startAtAfter_close at_ eventId t :
  contiguous (line organizationId subject dimension t) ->
  startAtAfter (closeOpenInterval organizationId subject dimension at_ eventId t).1 at_
  = match last (line organizationId subject dimension t) with
    | Some before => Z.max at_ (ival_startedAt before)
    | None => at_
    end.
Proof.
  intros H. rewrite closed_by_close, open_rows by done.
  destruct (last _) as [before|]; [|done]. cbn. destruct (Z.ltb_spec at_ (Z.max at_ (ival_startedAt before))); lia.
Qed.

Lemma line_open id state startedAt eventId t :
  line organizationId subject dimension
    (openInterval id organizationId subject dimension state startedAt eventId t).2
  = line organizationId subject dimension t
    ++ [MkIntervalRow id organizationId subject dimension state startedAt None eventId None].
Proof.
  unfold line, openInterval. cbn. rewrite select_app. f_equal. unfold select. cbn.
  unfold interval_of. cbn. by rewrite !bool_decide_eq_true_2.
Qed.

Lemma find_upsert id patch startedAt t :
  option_map cond_state
    (findCondition organizationId subject dimension
       (upsertCondition id organizationId subject dimension patch startedAt t).2)
  = Some (patch_state patch).
Proof.
  unfold findCondition, upsertCondition, upsert.
  set (mine_ := condition_of organizationId subject dimension).
  destruct (existsb mine_ (conditions t)) eqn:E; cbn.
  - unfold select_first, select, update_where. induction (conditions t) as [|row rows IH]; [done|].
    cbn in E |- *. destruct (mine_ row) eqn:Em; cbn; [|by rewrite Em; apply IH].
    assert (H : forall id_ st sa ob fs inc fl, mine_ (MkCondition id_ (cond_organizationId row)
      (cond_subject row) (cond_dimension row) st sa ob fs inc fl) = true) by (intros; exact Em).
    by rewrite H.
  - rewrite existsb_false in E. unfold select_first. rewrite select_app.
    unfold select at 1. rewrite filter_none by done. cbn.
    unfold select, mine_, condition_of. cbn. by rewrite !bool_decide_eq_true_2.
Qed.
End timeline_lemmas.

(** Another subject is left alone. *)
Section others.
Variables (organizationId : string) (subject : SubjectRef) (dimension : StatusDimension).
Variables (organizationId' : string) (subject' : SubjectRef) (dimension' : StatusDimension).
Hypothesis differs : (organizationId', subject', dimension') <> (organizationId, subject, dimension).

Lemma line_close_other at_ eventId t :
  line organizationId' subject' dimension'
    (closeOpenInterval organizationId subject dimension at_ eventId t).2
  = line organizationId' subject' dimension' t.
Proof.
  apply select_update_other. intros row H. unfold open_interval_of in H. tests.
  apply interval_of_spec in H as (Ho & Hs & Hd).
  enough (Hn : interval_of organizationId' subject' dimension' row = false) by exact (conj Hn Hn).
  destruct (interval_of organizationId' _ _ row) eqn:E; [|done].
  apply interval_of_spec in E as (? & ? & ?). congruence.
Qed.

Lemma line_open_other id state startedAt eventId t :
  line organizationId' subject' dimension'
    (openInterval id organizationId subject dimension state startedAt eventId t).2
  = line organizationId' subject' dimension' t.
Proof.
  unfold line, openInterval. cbn. rewrite select_app. unfold select at 2. cbn.
  destruct (interval_of _ _ _ _) eqn:E; [|by rewrite app_nil_r].
  apply interval_of_spec in E as (? & ? & ?). cbn in *. congruence.
Qed.

Lemma find_upsert_other id patch startedAt t :
  findCondition organizationId' subject' dimension'
    (upsertCondition id organizationId subject dimension patch startedAt t).2
  = findCondition organizationId' subject' dimension' t.
Proof.
  assert (Hno : forall row, condition_of organizationId subject dimension row = true ->
    condition_of organizationId' subject' dimension' row = false).
  { unfold condition_of. intros row H. tests. apply not_true_iff_false. intros H'. tests. congruence. }
  unfold findCondition, select_first, upsertCondition, upsert. f_equal.
  destruct (existsb _ _); cbn.
  - apply select_update_other. intros row H. split; [by apply Hno|].
    rewrite <- (Hno row H). reflexivity.
  - rewrite select_app. unfold select at 2. cbn. rewrite Hno; [by rewrite app_nil_r|].
    unfold condition_of. cbn. by rewrite !bool_decide_eq_true_2.
Qed.
End others.

(** What an interval handed from one state to the next leaves of a
    timeline. *)
Lemma timelines_advance organizationId subject dimension at_ eventId id startedAt state t t' :
  timelines t ->
  intervals t' = intervals (openInterval id organizationId subject dimension state startedAt eventId
    (closeOpenInterval organizationId subject dimension at_ eventId t).2).2 ->
  (forall before, last (line organizationId subject dimension t) = Some before ->
     startedAt = Z.max at_ (ival_startedAt before)) ->
  option_map cond_state (findCondition organizationId subject dimension t') = Some state ->
  (forall o s d, (o, s, d) <> (organizationId, subject, dimension) ->
     option_map cond_state (findCondition o s d t') = option_map cond_state (findCondition o s d t)) ->
  timelines t'.
Proof.
  intros Ht Hi Hstart Hmine Hothers o s d. unfold timeline.
  assert (Hline : forall o s d, line o s d t' = line o s d
    (openInterval id organizationId subject dimension state startedAt eventId
      (closeOpenInterval organizationId subject dimension at_ eventId t).2).2)
    by (intros; unfold line; by rewrite Hi).
  rewrite Hline. destruct (decide ((o, s, d) = (organizationId, subject, dimension))) as [[= -> -> ->]|Hne].
  - rewrite line_open, line_close. destruct (Ht organizationId subject dimension) as [Hc _].
    split; [by apply contiguous_extend|]. by rewrite last_snoc, Hmine.
  - rewrite line_open_other, line_close_other, Hothers by done. apply Ht.
Qed.

(** The tables after a change: contiguous timelines, and the subject in the
    state it moved to. *)
Definition settled_in (organizationId : string) (subject : SubjectRef) (dimension : StatusDimension)
    (state : StatusState) (t : StatusTables) : Prop :=
  timelines t
  /\ option_map cond_state (findCondition organizationId subject dimension t) = Some state.

Section histories.
Context {J : Type} (sendJob : SendJob J) (idOf : nat -> string) (dbNow : Z)
  (carrier : list (string * string)) (now : M (World J) Z) (organizationId : string).

(** Reading the clock leaves the status tables alone. *)
Class ClockKeepsStatus : Prop := { now_status : keeps status now }.

Context {queue : QueueKeepsStatus sendJob} {clock : ClockKeepsStatus}.

(** A property of the status tables. *)
Definition holds (P : StatusTables -> Prop) : World J -> Prop := fun w => P (status w).

Lemma preserves_now P : preserves (holds P) now.
Proof. exact (preserves_keeps status P now now_status). Qed.

Lemma preserves_nanoid P : preserves (holds P) (nanoid idOf).
Proof. by intros w Hw. Qed.

Lemma preserves_from_status {A} P (f : StatusTables -> A) : preserves (holds P) (from_status f).
Proof. by intros w Hw. Qed.

Lemma preserves_on_status {A} P (f : StatusTables -> A * StatusTables) :
  (forall t, P t -> P (f t).2) -> preserves (holds P) (on_status f).
Proof. intros H w Hw. specialize (H _ Hw). unfold on_status. by destruct (f (status w)) as [a t]. Qed.

Lemma preserves_announce P fact :
  preserves (holds P) (announce_ sendJob idOf dbNow carrier organizationId fact).
Proof.
  apply preserves_bind; [|intros ?; apply preserves_ret].
  exact (preserves_keeps status P _ (announce_status sendJob idOf dbNow carrier organizationId fact)).
Qed.

(** Storing an event leaves conditions and intervals alone. *)
Lemma preserves_record_event P row :
  (forall t x, P t -> P (with_events x t)) -> preserves (holds P) (record_event idOf row).
Proof.
  intros H. apply preserves_bind; [apply preserves_nanoid|]. intros id. apply preserves_on_status.
  intros t Ht. unfold recordEvent. destruct (insert_or_nothing _ _ _) as [stored rows]. by apply H.
Qed.

Lemma timelines_with_events t x : timelines t -> timelines (with_events x t).
Proof. exact id. Qed.

(** Noting that a bot keeps dropping out changes no state. *)
Lemma timelines_claimFlapping conditionId at_ cooldown t :
  timelines t -> timelines (claimFlapping organizationId conditionId at_ cooldown t).2.
Proof.
  intros Ht o s d. destruct (Ht o s d) as [H1 H2]. split; [exact H1|]. etransitivity; [exact H2|].
  unfold findCondition, claimFlapping. cbn. rewrite select_first_update by done.
  destruct (select_first _ _) as [row|]; [|done]. cbn. by destruct (flappable _ _ _ _ row).
Qed.

#[local] Hint Resolve preserves_now preserves_nanoid preserves_from_status preserves_announce
  preserves_record_event timelines_with_events timelines_claimFlapping preserves_on_status : mcc.

Lemma preserves_record_change_event instance change eventIncidentId :
  preserves (holds timelines)
    (record_change_event sendJob idOf dbNow carrier now organizationId instance change eventIncidentId).
Proof.
  apply preserves_bind.
  - destruct (change_event change); auto 8 with mcc.
  - intros [event|]; auto 8 with mcc.
Qed.

Lemma preserves_schedule P instance decision :
  preserves (holds P) (schedule_escalation sendJob organizationId instance decision).
Proof.
  unfold schedule_escalation. destruct (opened decision), (incidentId decision); auto with mcc.
  apply preserves_bind; [exact (preserves_keeps status P _ (sendJob_status _ _ _ _))|].
  intros [scheduled|]; auto with mcc.
Qed.

Lemma preserves_record_flapping instance opening change incidentId :
  preserves (holds timelines)
    (record_flapping sendJob idOf dbNow carrier now organizationId instance opening change incidentId).
Proof.
  unfold record_flapping. destruct opening; [|auto with mcc].
  destruct (negb _); [auto with mcc|]. apply preserves_bind; [auto with mcc|]. intros losses.
  destruct (negb _); [auto with mcc|]. apply preserves_bind; [auto with mcc|]. intros claimed.
  destruct (negb _); [auto with mcc|]. do 3 (apply preserves_bind; [auto with mcc|intros ?]).
  case_match; auto with mcc.
Qed.

Lemma settle_change_spec instance change event incidentId :
  triple (holds timelines) (settle_change idOf now organizationId instance change event incidentId)
    (fun _ => holds (settled_in organizationId (Bot (named_id instance)) INSTANCE_CONNECTION (status_of (change_state change)))) (fun _ _ => True).
Proof.
  intros w Hw. unfold settle_change, open_interval, upsert_condition, nanoid, on_status, bind.
  set (eventId := option_map _ event). set (subject := Bot _).
  set (closing := closeOpenInterval organizationId subject INSTANCE_CONNECTION (change_at change) eventId).
  pose proof (startAtAfter_close organizationId subject INSTANCE_CONNECTION (change_at change) eventId
    (status w) (proj1 (Hw _ _ _))) as Hstart. fold closing in Hstart.
  destruct (closing (status w)) as [closed t1] eqn:Ec. cbn -[upsertCondition].
  destruct (now _) as [[observedAt|e] w1] eqn:En; [|done].
  pose proof (now_status (with_status (with_intervals (intervals t1 ++ [MkIntervalRow (idOf (drawn w))
    organizationId subject INSTANCE_CONNECTION (status_of (change_state change))
    (startAtAfter closed (change_at change)) None eventId None]) t1)
    (MkWorld (status (with_status t1 w)) (notifs w) (jobs w) (S (drawn w))))) as Hn.
  unfold with_status in Hn, En. cbn in Hn, En. rewrite En in Hn. cbn in Hn.
  destruct (upsertCondition _ _ _ _ _ _ _) as [row t2] eqn:Eu. cbn. unfold holds. cbn.
  assert (E2 : t2 = (upsertCondition (idOf (drawn w1)) organizationId subject INSTANCE_CONNECTION
    (MkPatch (status_of (change_state change)) observedAt
       (if change_state change ≡? c_joined then None else Some (change_at change)) incidentId)
    (change_at change) (status w1)).2) by by rewrite Eu.
  split; [|by rewrite E2, find_upsert].
  eapply (timelines_advance organizationId subject INSTANCE_CONNECTION (change_at change) eventId
    (idOf (drawn w)) (startAtAfter closed (change_at change)) (status_of (change_state change))
    (status w)); [exact Hw| | |by rewrite E2, find_upsert|].
  - fold closing. rewrite E2, Hn, Ec. unfold upsertCondition. by destruct (upsert _ _ _ _).
  - intros before Hb. by rewrite Hb in Hstart.
  - intros o s d Hne. rewrite E2, find_upsert_other, Hn by done.
    assert (Hc : conditions t1 = conditions (status w)).
    { change (conditions (closed, t1).2 = conditions (status w)). by rewrite <- Ec. }
    unfold findCondition. cbn. by rewrite Hc.
Qed.

Lemma record_change_spec instance opening current change :
  triple (holds timelines)
    (record_change sendJob idOf dbNow carrier now organizationId instance opening current change)
    (fun _ => holds (settled_in organizationId (Bot (named_id instance)) INSTANCE_CONNECTION (status_of (change_state change)))) (fun _ _ => True).
Proof.
  assert (Hweak : forall A (m : M (World J) A), preserves (holds timelines) m ->
    triple (holds timelines) m (fun _ => holds timelines) (fun _ _ => True)).
  { intros A m Hm. eapply triple_consequence; [exact Hm|done..]. }
  eapply triple_bind; [apply Hweak; intros w Hw; cbn; by destruct (opened _)|]. intros decision.
  eapply triple_bind; [apply Hweak, preserves_record_change_event|]. intros event.
  eapply triple_bind; [apply Hweak, preserves_schedule|]. intros ?.
  eapply triple_bind; [apply Hweak, preserves_record_flapping|]. intros ?.
  eapply triple_bind; [apply settle_change_spec|]. intros ?. apply triple_ret.
Qed.

Lemma record_changes_spec instance opening changes : forall current state,
  triple (holds (settled_in organizationId (Bot (named_id instance)) INSTANCE_CONNECTION state))
    (record_changes sendJob idOf dbNow carrier now organizationId instance opening current changes)
    (fun _ => holds (settled_in organizationId (Bot (named_id instance)) INSTANCE_CONNECTION
       match last changes with Some final => status_of (change_state final) | None => state end))
    (fun _ _ => True).
Proof.
  induction changes as [|change rest IH]; intros current state; [apply triple_ret|].
  eapply triple_bind.
  { eapply triple_consequence; [apply record_change_spec| |done|done]. by intros w [Hw _]. }
  intros next. eapply triple_consequence; [apply IH|done| |done].
  intros ? w Hw. destruct rest as [|x rest]; [exact Hw|].
  change (last (change :: x :: rest)) with (last (x :: rest)).
  destruct (last (x :: rest)) eqn:El; [exact Hw|by apply last_None in El].
Qed.
End histories.

(** C9: whatever the journal says, a bot's history has no gap and no
    overlap: after its changes are recorded every subject's intervals still
    follow one another, the last one open and in the state of its condition,
    and the bot is in the state of the last change; when recording throws,
    the tables are those before. *)
Theorem connection_history_has_no_gap {J} (sendJob : SendJob J) idOf dbNow carrier now organizationId
    {queue : QueueKeepsStatus sendJob} {clock : ClockKeepsStatus now} instance changes final w
    (Htimelines : timelines (status w)) (Hfinal : last changes = Some final) :
  match recordInstanceConnection sendJob idOf dbNow carrier now organizationId instance changes w with
  | (Ok _, w') =>
      timelines (status w')
      /\ option_map cond_state
           (findCondition organizationId (Bot (named_id instance)) INSTANCE_CONNECTION (status w'))
         = Some (status_of (change_state final))
  | (Throw _, w') => w' = w
  end.
Proof.
  destruct changes as [|change rest]; [done|]. unfold recordInstanceConnection, in_transaction,
    transaction, bind at 1, from_status, gets. cbn [length Nat.eqb record_changes].
  set (opening := findCondition _ _ _ (status w)).
  pose proof (triple_bind _ _ _ _ _ _ (record_change_spec sendJob idOf dbNow carrier now organizationId
    instance opening (active_incident opening) change)
    (fun next => record_changes_spec sendJob idOf dbNow carrier now organizationId instance opening
       rest next _) w Htimelines) as H.
  destruct (bind _ _ w) as [[[]|e] w']; [|done]. destruct H as [H1 H2]. split; [exact H1|].
  rewrite H2. destruct rest as [|x rest]; [by injection Hfinal as <-|].
  change (last (change :: x :: rest)) with (last (x :: rest)) in Hfinal. by rewrite Hfinal.
Qed.

(** ** Machines *)

Lemma unchanged_keeps_state current reached at_ :
  changed (nextReachability current reached at_) = false ->
  next_state (nextReachability current reached at_) = reach_state current
  /\ reach_state current <> r_unknown.
Proof.
  unfold nextReachability. destruct current as [state start].
  destruct reached, state; cbn [reach_state failureStartedAt]; constants; try done;
    destruct start; try done; by destruct (HOST_SUSPECT_TO_DOWN_MS <=? _).
Qed.

Lemma status_of_reachability_of state :
  reachability_of state <> r_unknown -> status_of_reachability (reachability_of state) = state.
Proof. by destruct state. Qed.

Section machines.
Context {J : Type} (sendJob : SendJob J) (idOf : nat -> string) (dbNow : Z)
  (carrier : list (string * string)) (organizationId : string).
Context {queue : QueueKeepsStatus sendJob}.

Lemma timelines_touch conditionId at_ t o s d :
  timelines t ->
  timelines (touchCondition organizationId conditionId at_ t).2
  /\ option_map cond_state (findCondition o s d (touchCondition organizationId conditionId at_ t).2)
     = option_map cond_state (findCondition o s d t).
Proof.
  intros Ht.
  assert (H : forall o s d,
    option_map cond_state (findCondition o s d (touchCondition organizationId conditionId at_ t).2)
    = option_map cond_state (findCondition o s d t)).
  { intros o' s' d'. unfold findCondition, touchCondition. cbn. rewrite select_first_update by done.
    destruct (select_first _ _) as [row|]; [|done]. cbn. by destruct (owned_condition _ _ row). }
  split; [|apply H]. intros o' s' d'. unfold timeline. rewrite H. apply Ht.
Qed.

Lemma settle_host_spec subject decision incidentId eventId at_ (w : World J) :
  timelines (status w) ->
  (forall row, In row (line organizationId subject HOST_REACHABILITY (status w)) ->
     ival_startedAt row <= at_) ->
  exists w', settle_host idOf organizationId subject decision incidentId eventId at_ w = (Ok tt, w')
    /\ timelines (status w')
    /\ option_map cond_state (findCondition organizationId subject HOST_REACHABILITY (status w'))
       = Some (status_of_reachability (next_state decision)).
Proof.
  intros Ht Hbefore. unfold settle_host, open_interval, upsert_condition, nanoid, on_status, bind.
  set (state := status_of_reachability _).
  set (closing := closeOpenInterval organizationId subject HOST_REACHABILITY at_ eventId (status w)).
  destruct closing as [closed t1] eqn:Ec. cbn -[upsertCondition].
  destruct (upsertCondition _ _ _ _ _ _ _) as [row t2] eqn:Eu. eexists. split; [done|]. cbn.
  assert (Hfind : option_map cond_state (findCondition organizationId subject HOST_REACHABILITY t2)
    = Some state) by (change t2 with (row, t2).2; rewrite <- Eu; apply find_upsert).
  split; [|done].
  apply (timelines_advance organizationId subject HOST_REACHABILITY at_ eventId (idOf (drawn w)) at_
    state (status w)); [done| | |done|].
  - change t2 with (row, t2).2. rewrite <- Eu. fold closing. rewrite Ec.
    unfold upsertCondition. by destruct (upsert _ _ _ _).
  - intros before Hb. apply last_Some in Hb as [rows Hb].
    specialize (Hbefore before). rewrite Hb in Hbefore.
    rewrite Z.max_l; [done|]. apply Hbefore. apply in_app_iff. right. by left.
  - intros o s d Hne. change t2 with (row, t2).2. rewrite <- Eu, find_upsert_other by done.
    assert (Hc : conditions t1 = conditions (status w)).
    { change (conditions (closed, t1).2 = conditions (status w)). rewrite <- Ec. done. }
    unfold findCondition. cbn. by rewrite Hc.
Qed.

(** The two facts a moved machine is settled from. *)
Definition ready (subject : SubjectRef) (at_ : Z) (t : StatusTables) : Prop :=
  timelines t
  /\ forall row, In row (line organizationId subject HOST_REACHABILITY t) -> ival_startedAt row <= at_.

Lemma host_moved_spec observation existing decision at_ :
  triple (holds (ready (Host (obs_hostId observation)) at_))
    (host_moved sendJob idOf dbNow carrier organizationId observation existing decision at_)
    (fun _ => holds (settled_in organizationId (Host (obs_hostId observation)) HOST_REACHABILITY
                       (status_of_reachability (next_state decision))))
    (fun _ _ => True).
Proof.
  set (P := ready (Host (obs_hostId observation)) at_).
  assert (Hweak : forall A (m : M (World J) A), preserves (holds P) m ->
    triple (holds P) m (fun _ => holds P) (fun _ _ => True)).
  { intros A m Hm. eapply triple_consequence; [exact Hm|done..]. }
  eapply triple_bind.
  { apply Hweak. intros w Hw. by destruct (_ ≡? r_down); [destruct (active_incident existing)|
      destruct (_ ≡? r_up)]. }
  intros incidentId. eapply triple_bind.
  { apply Hweak. destruct (reach_event decision); [|apply preserves_ret].
    by apply preserves_record_event. }
  intros event. eapply triple_bind.
  { apply Hweak. destruct event; [by apply preserves_announce|apply preserves_ret]. }
  intros ? w [Ht Hb].
  destruct (settle_host_spec (Host (obs_hostId observation)) decision incidentId
    (option_map event_id event) at_ w Ht Hb) as (w' & Hw' & H).
  rewrite Hw'. exact H.
Qed.
End machines.

(** a check of a machine moves it as [nextReachability] says, and leaves
    its history without gap or overlap, provided the clock does not run
    behind the intervals already begun; when it throws, the tables are those
    before. *)
Theorem machine_history_has_no_gap {J} (sendJob : SendJob J) idOf dbNow carrier now organizationId
    {queue : QueueKeepsStatus sendJob} observation at_ w w0
    (Hnow : now w = (Ok at_, w0)) (Htimelines : timelines (status w0))
    (Hclock : forall row, In row (line organizationId (Host (obs_hostId observation))
                                    HOST_REACHABILITY (status w0)) -> ival_startedAt row <= at_) :
  let find t := findCondition organizationId (Host (obs_hostId observation)) HOST_REACHABILITY t in
  let decision :=
    nextReachability (reachability_current (find (status w0))) (obs_reached observation) at_ in
  match recordHostReachability sendJob idOf dbNow carrier now organizationId observation w with
  | (Ok _, w') =>
      timelines (status w')
      /\ option_map cond_state (find (status w'))
         = Some (status_of_reachability (next_state decision))
  | (Throw _, w') => w' = w0
  end.
Proof.
  intros find decision. unfold recordHostReachability, bind at 1. rewrite Hnow.
  unfold in_transaction, transaction, bind at 1, from_status, gets. fold (find (status w0)).
  fold decision.
  pose proof (host_moved_spec sendJob idOf dbNow carrier organizationId observation
    (find (status w0)) decision at_ w0 (conj Htimelines Hclock)) as Hmoved.
  destruct (find (status w0)) as [existing|] eqn:Ef; [destruct (changed decision) eqn:Ec|];
    try by destruct (host_moved _ _ _ _ _ _ _ _ _ _) as [[[]|e] w'].
  unfold on_status, find. destruct (touchCondition _ _ _ _) as [u t'] eqn:Et. cbn.
  destruct (timelines_touch organizationId (cond_id existing) at_ (status w0) organizationId
    (Host (obs_hostId observation)) HOST_REACHABILITY Htimelines) as [H1 H2].
  rewrite Et in H1, H2. split; [exact H1|]. cbn in H2. rewrite H2.
  unfold find in Ef. rewrite Ef.
  apply unchanged_keeps_state in Ec as [Hs Hr]. unfold decision in *. cbn in *.
  rewrite Hs. by rewrite status_of_reachability_of.
Qed.

(** ** Escalation *)

Lemma connection_of_spec state c : connection_of state = Some c -> status_of c = state.
Proof. intros H. apply List.find_some in H as [_ H]. by tests. Qed.

(** A claim moves the one condition it is made on. *)
Lemma claimEscalation_spec organizationId incidentId subject dimension state at_ condition t t' :
  findCondition organizationId subject dimension t = Some condition ->
  cond_activeIncidentId condition = Some incidentId -> cond_state condition = st_interrupted ->
  claimEscalation organizationId (cond_id condition) incidentId state at_ t = (true, t') ->
  intervals t' = intervals t /\ events t' = events t
  /\ option_map cond_state (findCondition organizationId subject dimension t') = Some state
  /\ forall o s d, (o, s, d) <> (organizationId, subject, dimension) ->
       findCondition o s d t' = findCondition o s d t.
Proof.
  intros Hfind Hinc Hst Hclaim. unfold claimEscalation in Hclaim. injection Hclaim as Hone <-.
  apply Nat.eqb_eq in Hone. set (p := escalatable organizationId (cond_id condition) incidentId) in *.
  pose proof (select_first_spec _ _ _ Hfind) as [Hin Hcond].
  assert (Hp : p condition = true).
  { unfold p, escalatable, owned_condition, condition_of in *. tests. subst.
    rewrite Hinc, Hst. by rewrite !bool_decide_eq_true_2. }
  do 2 (split; [done|]).
  assert (Hupdate : forall o s d, findCondition o s d (with_conditions (update_where p
      (fun row => MkCondition (cond_id row) (cond_organizationId row) (cond_subject row)
                    (cond_dimension row) state at_ at_ (cond_failureStartedAt row)
                    (cond_activeIncidentId row) (cond_lastFlappedAt row)) (conditions t)) t)
    = option_map (fun row => if p row then MkCondition (cond_id row) (cond_organizationId row)
        (cond_subject row) (cond_dimension row) state at_ at_ (cond_failureStartedAt row)
        (cond_activeIncidentId row) (cond_lastFlappedAt row) else row) (findCondition o s d t)).
  { intros o s d. unfold findCondition. cbn. by rewrite select_first_update. }
  split; [by rewrite Hupdate, Hfind; cbn; rewrite Hp|]. intros o s d Hne. rewrite Hupdate.
  destruct (findCondition o s d t) as [row|] eqn:Ef; [|done]. cbn.
  destruct (p row) eqn:Er; [|done]. exfalso.
  apply select_first_spec in Ef as [Hrow Hkey].
  pose proof (affected_one p _ _ _ Hone Hin Hp Hrow Er) as ->.
  unfold condition_of in *. tests. congruence.
Qed.

Section escalation.
Context {J : Type} (sendJob : SendJob J) (idOf : nat -> string) (dbNow : Z)
  (carrier : list (string * string)) (now : M (World J) Z) (organizationId : string).
Context {queue : QueueKeepsStatus sendJob} {clock : ClockKeepsStatus now}.

(** Two status tables with the same events, up to one stored at the end. *)
Definition escalation_event (instance : Named) (incidentId : string) (at_ : Z) (e : StatusEventRow)
    : Prop :=
  event_organizationId e = organizationId /\ event_subject e = Bot (named_id instance)
  /\ event_kind e = instance_disconnected /\ event_occurredAt e = at_
  /\ event_incidentId e = Some incidentId /\ primarySource e = journal
  /\ sourceKey e = Some (escalationKeyFor incidentId).

(** An event the escalation's would clash with. *)
Definition already_recorded (incidentId : string) (t : StatusTables) : Prop :=
  exists e, In e (events t)
    /\ ((event_organizationId e = organizationId /\ primarySource e = journal
         /\ sourceKey e = Some (escalationKeyFor incidentId))
        \/ exists n, event_id e = idOf n).

Lemma escalate_claimed_spec instance incidentId change t0 :
  triple (holds (eq t0))
    (escalate_claimed sendJob idOf dbNow carrier now organizationId instance incidentId change)
    (fun (told : bool) => holds (fun t =>
       conditions t = conditions t0
       /\ if told then
            exists e id, events t = events t0 ++ [e]
              /\ escalation_event instance incidentId (change_at change) e
              /\ intervals t = intervals (openInterval id organizationId (Bot (named_id instance))
                   INSTANCE_CONNECTION (status_of (change_state change)) (change_at change)
                   (Some (event_id e))
                   (closeOpenInterval organizationId (Bot (named_id instance)) INSTANCE_CONNECTION
                      (change_at change) (Some (event_id e)) t0).2).2
          else already_recorded incidentId t0))
    (fun _ _ => True).
Proof.
  assert (Hweak : forall A P (m : M (World J) A), preserves (holds P) m ->
    triple (holds P) m (fun _ => holds P) (fun _ _ => True)).
  { intros A P m Hm. eapply triple_consequence; [exact Hm|done..]. }
  unfold escalate_claimed. eapply triple_bind; [exact (Hweak _ _ _ (preserves_now now _))|intros observedAt].
  eapply triple_bind; [exact (Hweak _ _ _ (preserves_now now _))|intros corroboratedAt].
  set (row := fun id => MkEventRow id _ _ _ _ _ _ _ _ _ _).
  eapply (triple_bind _ _ _ (fun event => holds (fun t =>
    match event with
    | None => t = t0 /\ already_recorded incidentId t0
    | Some e => escalation_event instance incidentId (change_at change) e
                /\ t = with_events (events t0 ++ [e]) t0
    end))).
  { intros w Hw. unfold record_event, nanoid, on_status, bind, recordEvent. cbn.
    destruct (insert_or_nothing (clashes_with (row (idOf (drawn w)))) _ (events (status w)))
      as [[stored|] rows] eqn:Ei; cbn; unfold holds in *; cbn; rewrite <- Hw in *.
    - apply insert_or_nothing_some in Ei as (-> & -> & _). done.
    - apply insert_or_nothing_none in Ei as (-> & x & Hx & Hclash). split; [by destruct t0|].
      exists x. split; [done|]. unfold clashes_with in Hclash. apply orb_prop in Hclash as [H|H].
      + right. exists (drawn w). by tests.
      + left. cbn in H. by tests. }
  intros [e|]; [|intros w [Hw H]; exact (conj (f_equal conditions Hw) H)].
  eapply triple_bind; [exact (Hweak _ _ _ (preserves_announce sendJob idOf dbNow carrier organizationId _ _))|].
  intros ? w [He Hw]. unfold on_status, open_interval, nanoid, bind.
  destruct (closeOpenInterval _ _ _ _ _ (status w)) as [closed t1] eqn:Ec. cbn. unfold holds. cbn.
  assert (Ht1 : t1 = with_intervals (intervals (closeOpenInterval organizationId
    (Bot (named_id instance)) INSTANCE_CONNECTION (change_at change) (Some (event_id e)) t0).2)
    (status w)).
  { change t1 with (closed, t1).2. rewrite <- Ec, Hw. done. }
  rewrite Ht1, Hw. cbn. split; [done|]. by exists e, (idOf (drawn w)).
Qed.
End escalation.

Lemma claimEscalation_one organizationId incidentId subject dimension state at_ condition t :
  unique_on (fun c => Some (cond_id c)) (conditions t) ->
  findCondition organizationId subject dimension t = Some condition ->
  cond_activeIncidentId condition = Some incidentId -> st_interrupted = cond_state condition ->
  (claimEscalation organizationId (cond_id condition) incidentId state at_ t).1 = true.
Proof.
  intros Hkeys Hfind Hinc Hst. apply select_first_spec in Hfind as [Hin Hcond]. cbn.
  apply Nat.eqb_eq. unfold affected. set (p := escalatable _ _ _).
  assert (Hp : In condition (select p (conditions t))).
  { apply filter_In. split; [done|]. unfold p, escalatable, owned_condition, condition_of in *.
    tests. rewrite Hinc, <- Hst, H. by rewrite !bool_decide_eq_true_2. }
  assert (Hle : (length (select p (conditions t)) <= 1)%nat).
  { apply (unique_on_select_le_1 (fun c => Some (cond_id c)) _ (cond_id condition)); [done|].
    unfold p, escalatable, owned_condition. intros r Hr. tests. by f_equal. }
  destruct (select p (conditions t)) as [|x [|y l]]; [done|done|cbn in Hle; lia].
Qed.

(** Every branch of an escalation. *)
Lemma escalateInstance_spec {J} (sendJob : SendJob J) idOf dbNow carrier now
    organizationId {queue : QueueKeepsStatus sendJob} {clock : ClockKeepsStatus now}
    instance incidentId w :
  unique_on (fun c => Some (cond_id c)) (conditions (status w)) ->
  let subject := Bot (named_id instance) in
  match escalateInstance sendJob idOf dbNow carrier now organizationId instance incidentId w with
  | (Ok true, w') =>
      exists c since at_ e id,
        findCondition organizationId subject INSTANCE_CONNECTION (status w) = Some c
        /\ cond_state c = st_interrupted /\ cond_activeIncidentId c = Some incidentId
        /\ cond_failureStartedAt c = Some since /\ INSTANCE_INTERRUPTED_TO_DOWN_MS <= at_ - since
        /\ events (status w') = events (status w) ++ [e]
        /\ escalation_event organizationId instance incidentId at_ e
        /\ (exists w1, now w = (Ok at_, w1))
        /\ intervals (status w')
           = intervals (openInterval id organizationId subject INSTANCE_CONNECTION st_down at_
               (Some (event_id e)) (closeOpenInterval organizationId subject INSTANCE_CONNECTION at_
                  (Some (event_id e)) (status w)).2).2
        /\ option_map cond_state
             (findCondition organizationId subject INSTANCE_CONNECTION (status w')) = Some st_down
        /\ forall o s d, (o, s, d) <> (organizationId, subject, INSTANCE_CONNECTION) ->
             findCondition o s d (status w') = findCondition o s d (status w)
  | (Ok false, w') =>
      status w' = status w \/ already_recorded idOf organizationId incidentId (status w)
  | (Throw _, w') => w' = w
  end.
Proof.
  intros Hkeys subject. subst subject.
  unfold escalateInstance, in_transaction, transaction, bind at 1, from_status, gets.
  destruct (findCondition _ _ _ (status w)) as [c|] eqn:Ef; [|by left].
  destruct (negb (cond_activeIncidentId c ≡? _)) eqn:Ei; [by left|]. tests.
  destruct (connection_of (cond_state c)) as [state|] eqn:Es; [|by left].
  unfold bind at 1. destruct (now w) as [[at_|e] w1] eqn:Hnow; [|done].
  pose proof (now_status now w) as Hs1. rewrite Hnow in Hs1. cbn in Hs1.
  unfold escalateIfStillDown. cbn [current_state since current_pid].
  destruct (negb (state ≡? c_interrupted)) eqn:Eint; [by left|]. tests. subst state.
  apply connection_of_spec in Es. cbn in Es.
  destruct (cond_failureStartedAt c) as [since|] eqn:Esince; [|by left].
  destruct (Z.ltb_spec (at_ - since) INSTANCE_INTERRUPTED_TO_DOWN_MS) as [|Hlong]; [by left|].
  unfold bind at 1. destruct (now w1) as [[claimedAt|e] w2] eqn:En2; [|done].
  pose proof (now_status now w1) as Hs2. rewrite En2 in Hs2. cbn in Hs2.
  unfold bind at 1, on_status at 1. cbn [change_state change_at status_of].
  destruct (claimEscalation _ _ _ _ _ _) as [claimed t0] eqn:Ec.
  rewrite Hs2, Hs1 in Ec. destruct claimed.
  2:{ pose proof (claimEscalation_one organizationId incidentId _ _ st_down claimedAt _ _ Hkeys Ef Ei Es)
        as H. by rewrite Ec in H. }
  pose proof (claimEscalation_spec organizationId incidentId _ _ _ _ _ _ _ Ef Ei (eq_sym Es) Ec)
    as (Hi & He & Hmine & Hothers).
  pose proof (escalate_claimed_spec sendJob idOf dbNow carrier now organizationId instance incidentId
    (MkChange c_down at_ None (Some instance_disconnected) None) t0 (with_status t0 w2) eq_refl) as H.
  cbn [negb]. destruct (escalate_claimed _ _ _ _ _ _ _ _ _ _) as [[[|]|e] w3]; [| |done].
  - destruct H as (Hc & e & id & Hev & Hevent & Hint).
    assert (Hfind : forall o s d, findCondition o s d (status w3) = findCondition o s d t0)
      by (intros; unfold findCondition; by rewrite Hc).
    exists c, since, at_, e, id. repeat (split; [done|]). rewrite Hev, He. repeat (split; [done|]).
    split; [by exists w1|]. split; [|split].
    + rewrite Hint. unfold openInterval, closeOpenInterval, with_intervals. cbn. by rewrite Hi.
    + by rewrite Hfind.
    + intros o s d Hne. by rewrite Hfind, Hothers.
  - right. destruct H as [_ (e & Hin & H)]. exists e. by rewrite <- He.
Qed.


(** the absence of a bot is reported once per incident: after an
    escalation that was reported, checking the same incident again, whatever
    the queue and the clock do, reports nothing and leaves the status tables
    as they are. *)
Theorem escalation_happens_once {J} (sendJob sendJob' : SendJob J) idOf idOf' dbNow dbNow' carrier
    carrier' now now' organizationId {queue : QueueKeepsStatus sendJob}
    {clock : ClockKeepsStatus now} {clock' : ClockKeepsStatus now'}
    instance incidentId w w' later
    (Hkeys : unique_on (fun c => Some (cond_id c)) (conditions (status w)))
    (Hreported : escalateInstance sendJob idOf dbNow carrier now organizationId instance incidentId w
                 = (Ok true, w'))
    (Hlater : status later = status w') :
  match escalateInstance sendJob' idOf' dbNow' carrier' now' organizationId instance incidentId later with
  | (Ok reported, after) => reported = false /\ status after = status later
  | (Throw _, after) => after = later
  end.
Proof.
  pose proof (escalateInstance_spec sendJob idOf dbNow carrier now organizationId instance incidentId w
    Hkeys) as H. rewrite Hreported, <- Hlater in H. clear Hreported.
  destruct H as (_ & _ & _ & _ & _ & _ & _ & _ & _ & _ & _ & _ & _ & _ & Hdown & _).
  unfold escalateInstance, in_transaction, transaction, bind at 1, from_status, gets.
  destruct (findCondition _ _ _ (status later)) as [c|]; [|done]. injection Hdown as Hdown.
  destruct (negb _); [done|]. rewrite Hdown. change (connection_of st_down) with (Some c_down).
  unfold bind at 1. destruct (now' later) as [[at_|e] w1] eqn:En; [|done].
  pose proof (now_status now' later) as Hs. rewrite En in Hs. by split.
Qed.

(** ** Examples *)

Definition Jobs : Type := list (string * list (string * string)).

#[export] Instance accepting_keeps_status : QueueKeepsStatus accepting.
Proof. constructor. by intros queue payload delay w. Qed.

#[export] Instance fixed_clock {J} at_ : ClockKeepsStatus (J := J) (ret at_).
Proof. constructor. by intros w. Qed.

Definition empty_world : World Jobs :=
  MkWorld (MkStatusTables [] [] [] []) (MkNotificationTables [] [] [] [] []) [] 0.

Definition example_bot : Named := MkNamed "i1" "bot".

(** A bot that lost its connection at 0, in incident [inc]. *)
Definition interrupted_tables : StatusTables :=
  MkStatusTables
    [MkCondition "c1" "org" (Bot "i1") INSTANCE_CONNECTION st_interrupted 0 0 (Some 0) (Some "inc") None]
    [MkIntervalRow "v1" "org" (Bot "i1") INSTANCE_CONNECTION st_interrupted 0 None None None] [] [].

Definition interrupted_world : World Jobs :=
  MkWorld interrupted_tables (MkNotificationTables [] [] [] [] []) [] 0.

Lemma empty_timelines : timelines (status empty_world).
Proof. by intros o s d. Qed.

Lemma interrupted_timelines : timelines interrupted_tables.
Proof.
  intros o s d. unfold timeline, line, findCondition, select_first, select, interval_of, condition_of.
  cbn. by destruct (_ && _).
Qed.

Lemma connection_history_has_no_gap_witness :
  exists w', recordInstanceConnection accepting decimalOfNat 0 [] (ret 9) "org" example_bot
      [MkChange c_joined 5 None (Some instance_joined) None;
       MkChange c_interrupted 3 None (Some instance_connection_lost) None] empty_world = (Ok tt, w')
    /\ timelines (status w')
    /\ option_map cond_state
         (findCondition "org" (Bot (named_id example_bot)) INSTANCE_CONNECTION (status w'))
       = Some st_interrupted.
Proof.
  eexists. split; [vm_compute; reflexivity|].
  exact (connection_history_has_no_gap accepting decimalOfNat 0 [] (ret 9) "org" example_bot
    [MkChange c_joined 5 None (Some instance_joined) None;
     MkChange c_interrupted 3 None (Some instance_connection_lost) None]
    (MkChange c_interrupted 3 None (Some instance_connection_lost) None) empty_world
    empty_timelines eq_refl).
Defined.

Lemma machine_history_has_no_gap_witness :
  exists w', recordHostReachability accepting decimalOfNat 0 [] (ret 9) "org"
      (MkHostObservation "h1" "host" true) empty_world = (Ok tt, w')
    /\ timelines (status w')
    /\ option_map cond_state (findCondition "org" (Host "h1") HOST_REACHABILITY (status w'))
       = Some st_up.
Proof.
  eexists. split; [vm_compute; reflexivity|].
  refine (machine_history_has_no_gap accepting decimalOfNat 0 [] (ret 9) "org"
    (MkHostObservation "h1" "host" true) 9 empty_world empty_world eq_refl empty_timelines _).
  by intros row [].
Defined.


(** The tables of a bot that was reported off the server at two minutes. *)
Definition reported_world : World Jobs :=
  (escalateInstance accepting decimalOfNat 0 [] (ret 120000) "org" example_bot "inc"
     interrupted_world).2.

Lemma escalation_happens_once_witness :
  exists after, escalateInstance accepting decimalOfNat 0 [] (ret 600000) "org" example_bot "inc"
      reported_world = (Ok false, after)
    /\ false = false /\ status after = status reported_world.
Proof.
  assert (H : escalateInstance accepting decimalOfNat 0 [] (ret 120000) "org" example_bot "inc"
    interrupted_world = (Ok true, reported_world)) by (vm_compute; reflexivity).
  eexists. split; [vm_compute; reflexivity|].
  refine (escalation_happens_once accepting accepting decimalOfNat decimalOfNat 0 0 [] []
    (ret 120000) (ret 600000) "org" example_bot "inc" interrupted_world reported_world reported_world
    _ H eq_refl).
  vm_compute. apply NoDup_singleton.
Defined.

(** What is recorded when its journal is then read afresh: the last line is
    still the lost connection. *)
Definition reread_world : World Jobs :=
  (recordInstanceConnection accepting decimalOfNat 0 [] (ret 200000) "org" example_bot
     [seeded_change (disconnected 0 "1" None)] reported_world).2.

(** reading a journal afresh takes back the report that a bot is off the
    server: a bot that is down goes back to interrupted, with no check
    scheduled that would move it on; and when the same check runs again it
    answers that there is nothing to report, yet leaves the condition down
    while the open interval stays interrupted. *)
Theorem rereading_takes_back_an_escalation :
  let state t := option_map cond_state (findCondition "org" (Bot "i1") INSTANCE_CONNECTION t) in
  let shown t := option_map ival_state (last (line "org" (Bot "i1") INSTANCE_CONNECTION t)) in
  let again :=
    escalateInstance accepting decimalOfNat 0 [] (ret 400000) "org" example_bot "inc" reread_world in
  state (status reported_world) = Some st_down
  /\ state (status reread_world) = Some st_interrupted /\ jobs reread_world = jobs reported_world
  /\ again.1 = Ok false
  /\ state (status again.2) = Some st_down /\ shown (status again.2) = Some st_interrupted.
Proof. vm_compute. repeat split. Qed.
