(* ===== verification/StatusPages.v ===== *)
(** The pages of the event list.

    [events_page] of [StatusController] cuts the list of events into pages
    with cursors; the theorem says that the cursor of a page leads to the
    rest of the list, so following the cursors shows every event once. *)

From stdpp Require Import sorting.
From S2P Require Import Prelude Tables Dates StatusKinds StatusStore NotificationStore Announce StatusController StatusHistory.

(** ** The order of the list *)

Lemma ltb_leb a b : String.ltb a b = String.leb a b && negb (a ≡? b).
Proof.
  unfold String.ltb, String.leb. destruct (String.compare a b) eqn:E; simpl.
  - apply String.compare_eq_iff in E as ->. by rewrite bool_decide_eq_true_2.
  - rewrite bool_decide_eq_false_2; [done|]. intros ->.
    pose proof (String.compare_antisym b b) as H. by rewrite E in H.
  - done.
Qed.

Lemma leb_trans a b c : String.leb a b = true -> String.leb b c = true -> String.leb a c = true.
Proof.
  intros H1 H2.
  assert (H : String.le a c); [|by unfold String.le in H; destruct (String.leb a c)].
  transitivity b; unfold String.le; by rewrite ?H1, ?H2.
Qed.

Lemma newest_first_total a b : newest_first a b = false -> newest_first b a = true.
Proof.
  unfold newest_first. intros H. tests. apply orb_true_iff.
  destruct (Z.ltb_spec (event_occurredAt a) (event_occurredAt b)); [by left|right].
  assert (Ho : event_occurredAt b = event_occurredAt a) by lia. rewrite Ho, Z.eqb_refl in *.
  destruct (String.leb_total (event_id a) (event_id b)) as [Hl|Hl]; simpl in *; congruence.
Qed.

Lemma newest_first_trans a b c :
  newest_first a b = true -> newest_first b c = true -> newest_first a c = true.
Proof.
  unfold newest_first. rewrite !orb_true_iff, !andb_true_iff, !Z.ltb_lt, !Z.eqb_eq.
  intros [?|[? ?]] [?|[? ?]]; [left; lia..|]. right. split; [lia|]. by eapply leb_trans.
Qed.

Lemma ltb_trans a b c : String.ltb a b = true -> String.ltb b c = true -> String.ltb a c = true.
Proof.
  rewrite !ltb_leb. intros H1 H2. tests. rewrite (leb_trans a b c) by done. simpl.
  apply negb_true_iff, bool_decide_eq_false. intros ->. by apply H0, String.leb_antisym.
Qed.

(** Past the cursor of a row: after it in the list. *)
Lemma before_cursor_newest e x :
  newest_first e x = true -> event_id x <> event_id e ->
  before_cursor (event_occurredAt e) (event_id e) x = true.
Proof.
  unfold before_cursor, newest_first. rewrite ltb_leb. intros H Hne.
  rewrite (bool_decide_eq_false_2 (event_id x = event_id e)) by done. by rewrite andb_true_r.
Qed.

Lemma newest_before_cursor e x :
  newest_first x e = true -> before_cursor (event_occurredAt e) (event_id e) x = false.
Proof.
  unfold before_cursor, newest_first. rewrite ltb_leb, <- not_true_iff_false.
  rewrite !orb_true_iff, !andb_true_iff, !Z.ltb_lt, !Z.eqb_eq, negb_true_iff, bool_decide_eq_false.
  intros [?|[? ?]] [?|[? [? Hne]]]; try lia. apply Hne. by apply String.leb_antisym.
Qed.

Lemma before_cursor_trans at_ id e x :
  before_cursor at_ id e = true -> before_cursor (event_occurredAt e) (event_id e) x = true ->
  before_cursor at_ id x = true.
Proof.
  unfold before_cursor. rewrite !orb_true_iff, !andb_true_iff, !Z.ltb_lt, !Z.eqb_eq.
  intros [?|[? ?]] [?|[? ?]]; [left; lia..|]. right. split; [lia|]. by eapply ltb_trans.
Qed.

(** ** The rest of a list *)

Section rest.
Variables (organizationId : string) (filter : EventFilter) (t : StatusTables).
Hypothesis unique_ids : unique_on (fun e => Some (event_id e)) (events t).

(** Every event the filter keeps, past the cursor, in the order of the list. *)
Definition all_events (cursor : option StatusCursor.StatusEventCursor) : list StatusEventRow :=
  listEvents organizationId filter (length (events t)) cursor t.

Definition kept (cursor : option StatusCursor.StatusEventCursor) (row : StatusEventRow) : bool :=
  eventsMatching organizationId filter row
  && match cursor with
     | Some c => before_cursor (StatusCursor.occurredAt c) (StatusCursor.cursorId c) row
     | None => true
     end.

Definition cursor_of (e : StatusEventRow) : StatusCursor.StatusEventCursor :=
  StatusCursor.MkCursor (event_occurredAt e) (event_id e).

Lemma all_events_order cursor :
  all_events cursor = order_by newest_first (select (kept cursor) (events t)).
Proof.
  unfold all_events, listEvents. apply firstn_all2. rewrite length_order_by.
  apply List.filter_length_le.
Qed.

Lemma listEvents_firstn limit cursor :
  listEvents organizationId filter limit cursor t = firstn limit (all_events cursor).
Proof. by rewrite all_events_order. Qed.

Lemma all_events_sorted cursor :
  StronglySorted (fun a b => newest_first a b = true) (all_events cursor).
Proof.
  rewrite all_events_order. apply order_by_ordered; [apply newest_first_total|apply newest_first_trans].
Qed.

Lemma in_all_events cursor x : In x (all_events cursor) <-> In x (events t) /\ kept cursor x = true.
Proof. rewrite all_events_order, in_order_by. apply filter_In. Qed.

Lemma same_id x y : In x (events t) -> In y (events t) -> event_id x = event_id y -> x = y.
Proof. intros Hx Hy H. apply (unique_on_eq _ _ (event_id x) _ _ unique_ids Hx Hy); [done|by rewrite H]. Qed.

Lemma all_events_NoDup cursor : NoDup (all_events cursor).
Proof.
  rewrite all_events_order. rewrite order_by_perm. apply NoDup_ListNoDup, List.NoDup_filter.
  apply NoDup_ListNoDup. clear -unique_ids. induction (events t) as [|e rest IH]; [constructor|].
  constructor; [|apply IH; by eapply unique_on_tail].
  intros Hin. apply list_elem_of_In in Hin. by apply (unique_on_head _ e rest _ e unique_ids eq_refl Hin).
Qed.

(** The cursor of the last row of a page lists what the page left. *)
Lemma rest_of_list cursor before e rest :
  all_events cursor = before ++ e :: rest -> all_events (Some (cursor_of e)) = rest.
Proof.
  intros Hall. pose proof (all_events_sorted cursor) as Hs. pose proof (all_events_NoDup cursor) as Hn.
  assert (Hin : forall x, In x (before ++ e :: rest) -> In x (events t) /\ kept cursor x = true)
    by (intros x; rewrite <- Hall; apply in_all_events).
  rewrite Hall in Hs, Hn. apply StronglySorted_app in Hs as (Hcross & _ & Hs).
  apply StronglySorted_inv in Hs as [Hs He].
  apply (StronglySorted_unique_strong (fun a b => newest_first a b = true));
    [|apply all_events_sorted|done|].
  - intros x y Hx Hy Hxy Hyx. apply list_elem_of_In in Hx, Hy. apply in_all_events in Hx as [Hx _].
    apply same_id; [done|apply Hin, in_app_iff; by right; right|].
    unfold newest_first in *. rewrite orb_true_iff, andb_true_iff, Z.ltb_lt, Z.eqb_eq in *.
    destruct Hxy as [?|[? ?]], Hyx as [?|[? ?]]; try lia. by apply String.leb_antisym.
  - apply NoDup_Permutation; [apply NoDup_ListNoDup, all_events_NoDup| |].
    { apply NoDup_app in Hn as (_ & _ & Hn). apply NoDup_cons in Hn as [_ Hn].
      by apply NoDup_ListNoDup. }
    intros x. rewrite in_all_events.
    assert (Hkept : kept (Some (cursor_of e)) x
      = eventsMatching organizationId filter x
        && before_cursor (event_occurredAt e) (event_id e) x) by done.
    rewrite Hkept. split.
    + intros [Hx Hp]. tests.
      assert (Hall_x : In x (before ++ e :: rest)).
      { rewrite <- Hall, in_all_events. split; [done|]. unfold kept. rewrite H. simpl.
        destruct cursor as [c|]; [|done]. eapply before_cursor_trans; [|exact H0].
        destruct (Hin e) as [_ Hk]; [apply in_app_iff; right; by left|]. unfold kept in Hk. by tests. }
      apply in_app_iff in Hall_x as [Hb|[<-|Hr]]; [| |done].
      * rewrite newest_before_cursor in H0; [done|]. apply Hcross; apply list_elem_of_In; [done|by left].
      * rewrite newest_before_cursor in H0; [done|]. unfold newest_first.
        rewrite Z.eqb_refl. destruct (String.leb_total (event_id e) (event_id e)) as [->| ->];
          by rewrite orb_true_r.
    + intros Hr. destruct (Hin x) as [Hx Hk]; [apply in_app_iff; by right; right|].
      destruct (Hin e) as [He_in _]; [apply in_app_iff; right; by left|].
      split; [done|]. unfold kept in Hk. tests. rewrite H. simpl. apply before_cursor_newest.
      * rewrite List.Forall_forall in He. by apply He.
      * intros Hid. apply (same_id x e Hx He_in) in Hid as ->.
        apply NoDup_app in Hn as (_ & _ & Hn). apply NoDup_cons in Hn as [Hn _].
        by apply Hn, list_elem_of_In.
Qed.
End rest.

(** following the cursors of the event list shows every event once: a
    page holds the next events of the list, with their number in all, and
    the cursor it answers with, once parsed as a request parses it, lists
    exactly the events the page left; no cursor means that nothing is left. *)
Theorem pages_partition_the_events {J} (other : string -> option Z) at_ organizationId range limit
    hostId instanceId cursor (w : World J)
    (Hids : unique_on (fun e => Some (event_id e)) (events (status w)))
    (Hrows : forall e, In e (events (status w)) ->
       four_digit_year (event_occurredAt e) /\ event_id e <> EmptyString) :
  let filter := MkFilter (at_ - RANGE_SECONDS range * 1000) hostId instanceId in
  let all := all_events organizationId filter (status w) in
  exists page, events_page (ret at_) organizationId range limit hostId instanceId cursor w = (Ok page, w)
    /\ page_events page = map listed (firstn limit (all cursor))
    /\ page_total page = Z.of_nat (length (all None))
    /\ match nextCursor page with
       | None => limit = 0%nat \/ skipn limit (all cursor) = []
       | Some raw =>
           exists next, StatusCursor.parseStatusEventCursor other raw = Some next
             /\ all (Some next) = skipn limit (all cursor)
       end.
Proof.
  intros filter all. eexists. split.
  { unfold events_page, bind, ret, in_transaction, transaction, from_status, gets. reflexivity. }
  cbn [page_events page_total nextCursor].
  rewrite (listEvents_firstn organizationId filter (status w)). fold (all cursor).
  split; [done|]. split.
  { unfold all. rewrite all_events_order, length_order_by. unfold countEvents. do 2 f_equal.
    unfold select. apply List.filter_ext. intros e. unfold kept. by rewrite andb_true_r. }
  destruct (last (map listed (firstn limit (all cursor)))) as [l|] eqn:El.
  2:{ apply last_None, map_eq_nil in El. apply (f_equal length) in El. rewrite length_firstn in El.
      destruct limit as [|limit]; [by left|right]. apply skipn_all2. cbn [length] in El. lia. }
  destruct (Nat.ltb_spec (length (map listed (firstn limit (all cursor)))) limit) as [Hlt|Hge].
  { right. rewrite length_map, length_firstn in Hlt. apply skipn_all2. lia. }
  apply last_Some in El as [ls El]. apply map_eq_app in El as (before & last_ & El & _ & Hl).
  destruct last_ as [|e [|]]; try done. injection Hl as <-.
  assert (Hall : all cursor = before ++ e :: skipn limit (all cursor)).
  { rewrite <- (firstn_skipn limit (all cursor)) at 1. by rewrite El, <- app_assoc. }
  assert (He : In e (all cursor)) by (rewrite Hall; apply in_app_iff; right; by left).
  apply in_all_events in He as [He _]. destruct (Hrows e He) as [Hy Hid].
  exists (cursor_of e). split; [by apply StatusCursor.parse_encode|].
  exact (rest_of_list organizationId filter (status w) Hids cursor before e _ Hall).
Qed.

Definition joined_event (id : string) (at_ : Z) : StatusEventRow :=
  MkEventRow id "org" (Bot "i1") "bot" instance_joined at_ at_ at_ None journal None.

Definition listed_world : World Jobs :=
  MkWorld (MkStatusTables [] []
    [joined_event "b" 5; joined_event "a" 5; joined_event "c" 9; joined_event "d" 1] [])
    (MkNotificationTables [] [] [] [] []) [] 0.

Lemma pages_partition_the_events_witness :
  exists page next, events_page (ret 10) "org" range_24h 2 None None None listed_world
      = (Ok page, listed_world)
    /\ map listed_id (page_events page) = ["c"; "b"]
    /\ nextCursor page = Some next
    /\ exists cursor, StatusCursor.parseStatusEventCursor (fun _ => None) next = Some cursor
         /\ map event_id (all_events "org" (MkFilter (10 - RANGE_SECONDS range_24h * 1000) None None)
              (status listed_world) (Some cursor)) = ["a"; "d"].
Proof.
  destruct (pages_partition_the_events (fun _ => None) 10 "org" range_24h 2 None None None listed_world)
    as (page & Hpage & Hevents & _ & Hnext).
  - apply (bool_decide_unpack _). vm_compute. exact I.
  - intros e He. cbn in He. unfold four_digit_year. intuition; subst; vm_compute; intuition discriminate.
  - exists page. assert (Hn : exists next, nextCursor page = Some next).
    { vm_compute in Hpage. injection Hpage as <-. eexists. reflexivity. }
    destruct Hn as [next Hn]. rewrite Hn in Hnext. exists next. split; [exact Hpage|].
    split; [rewrite Hevents; vm_compute; reflexivity|]. split; [exact Hn|].
    destruct Hnext as (cursor & Hparse & Hrest). exists cursor. split; [exact Hparse|].
    rewrite Hrest. vm_compute. reflexivity.
Defined.
