(* ===== verification/Outcome.v ===== *)
(** What became of an attempt to deliver.

    packages/core/src/notification/outcome.ts classifies the replies of the
    services, failure.ts words the failures of the network, and delivery.job.ts
    says how long to wait before the next attempt. *)

From S2P Require Import Prelude Dates Payloads.

(** [DeliveryOutcome] *)
Inductive DeliveryOutcome :=
  | went (code : option Z)
  | retryable (code : option Z) (reason : string) (retryAfterSeconds : option Z)
      (detail : option string)
  | terminal (code : option Z) (reason : string) (stopSending : bool) (detail : option string).

Definition outcome_code (outcome : DeliveryOutcome) : option Z :=
  match outcome with went code | retryable code _ _ _ | terminal code _ _ _ => code end.

Definition retryAfter_of (outcome : DeliveryOutcome) : option Z :=
  match outcome with retryable _ _ asked _ => asked | _ => None end.

Definition MAX_RETRY_AFTER_SECONDS : Z := 60 * 60.

Definition RETRYABLE_STATUS : list Z := [408; 425; 429; 500; 502; 503; 504].

Section outcome.
Variable other : string -> option Z.

Definition parseRetryAfter (value : option string) (now : Z) : option Z :=
  let? value := value in
  let trimmed := trim value in
  if (String.length trimmed =? 0)%nat then None
  else match numberOfDigits trimmed with
  | Some n => Some (Z.min n MAX_RETRY_AFTER_SECONDS)
  | None =>
      let? at_ := date_of other trimmed in
      let seconds := ceil_div (at_ - now) 1000 in
      if seconds <=? 0 then Some 0 else Some (Z.min seconds MAX_RETRY_AFTER_SECONDS)
  end.

Definition classifyHttpStatus (status : Z) (retryAfter : option string) (now : Z)
    : DeliveryOutcome :=
  if (200 <=? status) && (status <? 300) then went (Some status)
  else if status =? 410 then
    terminal (Some status) "This destination asked us to stop sending" true None
  else if bool_decide (status ∈ RETRYABLE_STATUS) || (500 <=? status) then
    retryable (Some status) ("Server answered " +:+ decimal status) (parseRetryAfter retryAfter now)
      None
  else terminal (Some status) ("Server refused with " +:+ decimal status) false None.

Definition classifyNetworkFailure (reason : string) : DeliveryOutcome :=
  retryable None reason None None.

Definition classifyRefusal (reason : string) : DeliveryOutcome := terminal None reason false None.

Definition TELEGRAM_TERMINAL : list Z := [400; 401; 403; 404].

Definition telegramReason (code : Z) : string :=
  if code =? 400 then "Telegram refused the message; check the chat ID"
  else if code =? 401 then "Telegram did not accept the bot token"
  else if code =? 403 then "The bot may not post in that chat"
  else if code =? 404 then "Telegram did not accept the bot token"
  else if code =? 429 then "Telegram asked us to slow down"
  else "Telegram refused with " +:+ decimal code.

Definition classifyTelegramReply (httpStatus : Z) (reply : option TelegramReply) (now : Z)
    : DeliveryOutcome :=
  match reply with
  | None => classifyHttpStatus httpStatus None now
  | Some reply =>
      if reply_ok reply then went (Some httpStatus)
      else
        let code := match errorCode reply with Some code => code | None => httpStatus end in
        let reason := telegramReason code in
        let detail := description reply in
        let retryAfterSeconds :=
          option_map (fun asked => Z.min asked MAX_RETRY_AFTER_SECONDS)
            (reply_retryAfterSeconds reply) in
        if code =? 429 then retryable (Some code) reason retryAfterSeconds detail
        else if bool_decide (code ∈ TELEGRAM_TERMINAL) then terminal (Some code) reason false detail
        else retryable (Some code) reason retryAfterSeconds detail
  end.

Definition RESEND_QUOTA_SPENT : list string := ["daily_quota_exceeded"; "monthly_quota_exceeded"].

Section services.
Variable JSON_parse : string -> option Json.

Definition classifyDiscordReply (status : Z) (retryAfter : option string) (body : string) (now : Z)
    : DeliveryOutcome :=
  if negb (status =? 429) then classifyHttpStatus status retryAfter now
  else
    let fromHeader := parseRetryAfter retryAfter now in
    let fromBody := parseDiscordRetryAfter JSON_parse body in
    let longest :=
      match omap id [fromHeader; fromBody] with
      | [] => None
      | first :: rest => Some (fold_left Z.max rest first)
      end in
    retryable (Some status) ("Server answered " +:+ decimal status)
      (option_map (fun longest => Z.min longest MAX_RETRY_AFTER_SECONDS) longest) None.

Definition classifyResendReply (status : Z) (retryAfter : option string) (body : string) (now : Z)
    : DeliveryOutcome :=
  if (status =? 429)
     && bool_decide (match parseResendErrorName JSON_parse body with
                     | Some name => name
                     | None => EmptyString
                     end ∈ RESEND_QUOTA_SPENT)
  then terminal (Some status) "The email service has used up its sending quota" false None
  else classifyHttpStatus status retryAfter now.
End services.

Definition classifySmtpReply (code : Z) (reason : string) : DeliveryOutcome :=
  if (200 <=? code) && (code <? 400) then went (Some code)
  else if (400 <=? code) && (code <? 500) then retryable (Some code) reason None None
  else terminal (Some code) reason false None.
End outcome.

(** ** Failures of the network *)

Definition TIMED_OUT : string := "That address did not answer in time".
Definition REFUSED : string := "That address refused the connection".
Definition DROPPED : string := "That address closed the connection".
Definition UNREACHABLE : string := "That address could not be reached".
Definition INSECURE : string := "That address presented a certificate we could not trust".
Definition DID_NOT_GO_THROUGH : string := "The delivery did not go through".

Definition REASONS : list (string * string) :=
  [("UND_ERR_CONNECT_TIMEOUT", TIMED_OUT); ("UND_ERR_HEADERS_TIMEOUT", TIMED_OUT);
   ("UND_ERR_BODY_TIMEOUT", TIMED_OUT); ("ETIMEDOUT", TIMED_OUT); ("ECONNREFUSED", REFUSED);
   ("ECONNRESET", DROPPED); ("EPIPE", DROPPED); ("UND_ERR_SOCKET", DROPPED);
   ("EHOSTUNREACH", UNREACHABLE); ("ENETUNREACH", UNREACHABLE); ("ENETDOWN", UNREACHABLE);
   ("EAI_AGAIN", UNREACHABLE); ("ENOTFOUND", UNREACHABLE); ("CERT_HAS_EXPIRED", INSECURE);
   ("CERT_NOT_YET_VALID", INSECURE); ("CERT_SIGNATURE_FAILURE", INSECURE);
   ("UNABLE_TO_VERIFY_LEAF_SIGNATURE", INSECURE); ("UNABLE_TO_GET_ISSUER_CERT", INSECURE);
   ("UNABLE_TO_GET_ISSUER_CERT_LOCALLY", INSECURE); ("SELF_SIGNED_CERT_IN_CHAIN", INSECURE);
   ("DEPTH_ZERO_SELF_SIGNED_CERT", INSECURE); ("ERR_TLS_CERT_ALTNAME_INVALID", INSECURE);
   ("ERR_TLS_INVALID_PROTOCOL_VERSION", INSECURE); ("ERR_SSL_WRONG_VERSION_NUMBER", INSECURE);
   ("HOSTNAME_MISMATCH", INSECURE)].

(** What is read of an [Error]: its name, its [code] when that is a string,
    and its [cause] when that is an [Error]. *)
#[warnings="-register-all"]
Inductive NetworkError := MkNetworkError (name : string) (code : option string)
  (cause : option NetworkError).

Definition ownCode (error : NetworkError) : option string :=
  match error with MkNetworkError _ code _ => code end.

Definition errorCode_ (error : NetworkError) : option string :=
  match error with
  | MkNetworkError _ (Some code) _ => Some code
  | MkNetworkError _ None (Some cause) => ownCode cause
  | MkNetworkError _ None None => None
  end.

Definition error_name (error : NetworkError) : string :=
  match error with MkNetworkError name _ _ => name end.

Definition reasonForCode (code : string) : option string :=
  match List.find (fun entry => entry.1 ≡? code) REASONS with
  | Some entry => Some entry.2
  | None =>
      if startsWith "ERR_TLS" code || startsWith "ERR_SSL" code then Some INSECURE
      else if startsWith "CERT_" code || startsWith "DEPTH_" code then Some INSECURE
      else if includes "SELF_SIGNED" code || includes "UNABLE_TO_" code then Some INSECURE
      else None
  end.

Definition networkReason (error : option NetworkError) : string :=
  match error with
  | None => DID_NOT_GO_THROUGH
  | Some error =>
      match (let? code := errorCode_ error in reasonForCode code) with
      | Some reason => reason
      | None =>
          if (error_name error ≡? "AbortError") || (error_name error ≡? "TimeoutError")
          then TIMED_OUT else DID_NOT_GO_THROUGH
      end
  end.

(** ** The wait before the next attempt *)

Definition BASE_RETRY_SECONDS : Z := 15.
Definition MAX_RETRY_SECONDS : Z := 60 * 60.

Definition backoffSeconds (attempt : Z) : Z :=
  Z.min MAX_RETRY_SECONDS (BASE_RETRY_SECONDS * 2 ^ Z.max 0 (attempt - 1)).

Definition nextDelaySeconds (attempt : Z) (askedFor : option Z) : Z :=
  Z.min MAX_RETRY_SECONDS
    (Z.max (match askedFor with Some asked => asked | None => 0 end) (backoffSeconds attempt)).

(** ** Bounds *)

Lemma digits_from_nonneg s acc n : 0 <= acc -> digits_from acc s = Some n -> 0 <= n.
Proof.
  revert acc. induction s as [|c s IH]; intros acc Hacc H; simpl in H; [by injection H as <-|].
  destruct (digit_value c) as [d|] eqn:Ed; [|done]. apply (IH (acc * 10 + d)); [|done].
  unfold digit_value in Ed. destruct (Ascii.is_nat c); [|done]. injection Ed as <-. lia.
Qed.

(** A wait a service may ask for. *)
Definition bounded (asked : option Z) : Prop :=
  match asked with Some s => 0 <= s <= MAX_RETRY_AFTER_SECONDS | None => True end.

Lemma parseRetryAfter_bounded other value now : bounded (parseRetryAfter other value now).
Proof.
  unfold parseRetryAfter, bounded, MAX_RETRY_AFTER_SECONDS. destruct value as [value|]; [|done].
  destruct (_ =? 0)%nat; [done|]. destruct (numberOfDigits (trim value)) as [n|] eqn:En.
  - unfold numberOfDigits in En. destruct (trim value); [done|].
    pose proof (digits_from_nonneg _ 0 n ltac:(lia) En). lia.
  - destruct (date_of other _) as [at_|]; [|done]. destruct (Z.leb_spec (ceil_div (at_ - now) 1000) 0); lia.
Qed.

Lemma classifyHttpStatus_bounded other status retryAfter now :
  bounded (retryAfter_of (classifyHttpStatus other status retryAfter now)).
Proof.
  unfold classifyHttpStatus. repeat case_match; try done. simpl. apply parseRetryAfter_bounded.
Qed.

Lemma backoff_monotone a b : a <= b -> backoffSeconds a <= backoffSeconds b.
Proof.
  intros H. unfold backoffSeconds, BASE_RETRY_SECONDS.
  assert (2 ^ Z.max 0 (a - 1) <= 2 ^ Z.max 0 (b - 1)) by (apply Z.pow_le_mono_r; lia). lia.
Qed.

Lemma nextDelaySeconds_bounds attempt asked :
  BASE_RETRY_SECONDS <= nextDelaySeconds attempt asked <= MAX_RETRY_SECONDS
  /\ backoffSeconds attempt <= nextDelaySeconds attempt asked.
Proof.
  assert (H : 1 <= 2 ^ Z.max 0 (attempt - 1)).
  { change 1 with (2 ^ 0). apply Z.pow_le_mono_r; lia. }
  unfold nextDelaySeconds, backoffSeconds, BASE_RETRY_SECONDS, MAX_RETRY_SECONDS in *. lia.
Qed.

Lemma fold_max_nonneg l first : 0 <= first -> 0 <= fold_left Z.max l first.
Proof. revert first. induction l as [|x l IH]; intros first H; simpl; [done|]. apply IH. lia. Qed.

(** What a reply may ask for, in seconds that are not negative, is bounded
    once it is cut off at the limit. *)
Lemma cut_off_bounded asked :
  (forall s, asked = Some s -> 0 <= s) ->
  bounded (option_map (fun s => Z.min s MAX_RETRY_AFTER_SECONDS) asked).
Proof.
  destruct asked as [s|]; [|done]. intros H. specialize (H s eq_refl). simpl.
  unfold MAX_RETRY_AFTER_SECONDS. lia.
Qed.

Lemma parseDiscord_nonneg JSON_parse raw s : parseDiscordRetryAfter JSON_parse raw = Some s -> 0 <= s.
Proof.
  unfold parseDiscordRetryAfter. destruct (JSON_parse raw) as [v|]; [|done].
  destruct (asRecord v) as [body|]; [|done]. destruct (field _ body) as [[]|]; try done.
  destruct (Z.ltb_spec numerator 0); [done|]. intros [= <-]. unfold ceil_div.
  enough ((- numerator) / Z.pos denominator <= 0) by lia. apply Z.div_le_upper_bound; lia.
Qed.

Lemma asWholeNumber_nonneg value s : asWholeNumber value = Some s -> 0 <= s.
Proof.
  unfold asWholeNumber. destruct value as [[]|]; try done. destruct (whole _ _) as [v|]; [|done].
  destruct (_ && _) eqn:E; [|done]. intros [= <-]. by tests.
Qed.

Lemma parseTelegram_nonneg JSON_parse raw reply s :
  parseTelegramReply JSON_parse raw = Some reply -> reply_retryAfterSeconds reply = Some s -> 0 <= s.
Proof.
  unfold parseTelegramReply. destruct (JSON_parse raw) as [v|]; [|done].
  destruct (asRecord v) as [body|]; [|done]. destruct (field "ok" body) as [[]|]; try done.
  intros [= <-]. simpl. destruct (field "parameters" body) as [p|]; [|done].
  destruct (asRecord p) as [parameters|]; [|done]. apply asWholeNumber_nonneg.
Qed.

(** no reply of a service can stall a delivery or hurry it: whatever the
    status, the headers and the body say, the wait it asks for is between
    nothing and an hour, the wait before the next attempt is between fifteen
    seconds and an hour, never shorter than what was asked, and it does not
    shrink from one attempt to the next. *)
Theorem waits_are_bounded other JSON_parse status header body reason now attempt attempt'
    (Hlater : attempt <= attempt') :
  Forall
    (fun outcome =>
       let asked := retryAfter_of outcome in
       match asked with
       | Some s => 0 <= s <= MAX_RETRY_AFTER_SECONDS /\ s <= nextDelaySeconds attempt asked
       | None => True
       end
       /\ BASE_RETRY_SECONDS <= nextDelaySeconds attempt asked <= MAX_RETRY_SECONDS
       /\ nextDelaySeconds attempt asked <= nextDelaySeconds attempt' asked)
    [classifyHttpStatus other status header now;
     classifyDiscordReply other JSON_parse status header body now;
     classifyResendReply other JSON_parse status header body now;
     classifyTelegramReply other status (parseTelegramReply JSON_parse body) now;
     classifySmtpReply status reason; classifyNetworkFailure reason; classifyRefusal reason].
Proof.
  eapply Forall_impl with (P := fun outcome => bounded (retryAfter_of outcome)).
  2:{ intros outcome H. set (asked := retryAfter_of outcome) in *. cbv zeta.
      pose proof (backoff_monotone attempt attempt' Hlater) as Hm.
      pose proof (nextDelaySeconds_bounds attempt asked) as [Hb _].
      split; [|split; [done|unfold nextDelaySeconds; lia]].
      destruct asked as [s|]; [|done]. simpl in H. split; [done|]. unfold nextDelaySeconds in *.
      unfold MAX_RETRY_AFTER_SECONDS, MAX_RETRY_SECONDS in *. lia. }
  pose proof (fun status header => classifyHttpStatus_bounded other status header now) as Hhttp.
  repeat apply List.Forall_cons; try apply List.Forall_nil; auto; try done.
  - unfold classifyDiscordReply. destruct (negb _); [done|]. simpl. apply cut_off_bounded.
    pose proof (parseRetryAfter_bounded other header now) as Hh.
    destruct (parseRetryAfter other header now) as [h|],
      (parseDiscordRetryAfter JSON_parse body) as [d|] eqn:Ed; simpl in *; intros s [= <-];
      try apply parseDiscord_nonneg in Ed; lia.
  - unfold classifyResendReply. by destruct (_ && _).
  - unfold classifyTelegramReply. destruct (parseTelegramReply JSON_parse body) as [reply|] eqn:Er; [|done].
    destruct (reply_ok reply); [done|]. destruct (_ =? 429); [|case_bool_decide; [done|]];
      apply cut_off_bounded; intros s; by apply (parseTelegram_nonneg JSON_parse body).
  - unfold classifySmtpReply. by repeat case_match.
Qed.

Lemma waits_are_bounded_witness :
  nextDelaySeconds 3 (retryAfter_of (classifyHttpStatus (fun _ => None) 503 (Some "7200") 0)) = 3600
  /\ 15 <= nextDelaySeconds 3 (Some 3600) <= 3600.
Proof.
  split; [vm_compute; reflexivity|].
  pose proof (waits_are_bounded (fun _ => None) (fun _ => None) 503 (Some "7200") EmptyString EmptyString
    0 3 4 ltac:(lia)) as H.
  apply List.Forall_inv in H as [_ [H _]]. exact H.
Defined.
