(* ===== verification/Delivery.v ===== *)
(** Delivering what was announced.

    packages/core/src/notification/delivery.job.ts carries out one delivery
    job, packages/core/src/notification/delivery.batch.ts the jobs of a batch,
    and packages/core/src/notification/retention.ts sweeps what is settled.
    Sending, which opens a connection to a service, and [redact], the removal
    of secrets from a text (packages/core/src/security/redact.ts), are
    arguments. *)

From S2P Require Import Prelude Tables Dates StatusKinds StatusStore NotificationStore Announce Payloads Outcome.

Record NotificationEnvelope := MkEnvelope {
  env_id : string; env_deliveryId : string; env_kind : NotificationKind; env_title : string;
  env_body : string; env_subjectType : string; env_subjectId : string; env_occurredAt : Z }.

Inductive Settled := r_delivered | r_failed | r_abandoned | r_skipped | r_retrying.

Record DeliveryResult := MkResult { settled : Settled; afterSeconds : option Z }.

Definition SETTLED : list DeliveryState := [delivered; failed; abandoned].

Definition GAVE_UP : string := "the delivery did not go through".

Definition attempt_outcome (outcome : DeliveryOutcome) : AttemptOutcome :=
  match outcome with
  | went _ => attempt_delivered
  | retryable _ _ _ _ => attempt_retryable
  | terminal _ _ _ _ => attempt_terminal
  end.

Section delivery.
Context {J : Type} (sendJob : SendJob J) (idOf : nat -> string) (now : M (World J) Z)
  (redact : string -> string)
  (send : NotificationDestinationRow -> NotificationEnvelope -> M (World J) DeliveryOutcome)
  (onError : option (string -> thrown -> M (World J) unit))
  (queue : string) (retryLimit : Z).

Definition abandon (organizationId deliveryId : string) (attempt : Z) (reason : string)
    : M (World J) DeliveryResult :=
  in_transaction (
    let* settledAt := now in
    on_notifs (settleDelivery organizationId deliveryId abandoned attempt (Some settledAt)
                 (Some reason))) ;;;
  ret (MkResult r_abandoned None).

Definition envelope_of (notification : NotificationRow) (delivery : NotificationDeliveryRow)
    : NotificationEnvelope :=
  MkEnvelope (notif_id notification) (del_id delivery) (notif_kind notification)
    (title notification) (body notification) (subjectType notification) (subjectId notification)
    (notif_createdAt notification).

(** [outcome.reason] as it is stored; [null] for what went through. *)
Definition stored_error (outcome : DeliveryOutcome) : option string :=
  match outcome with
  | went _ => None
  | retryable _ reason _ _ | terminal _ reason _ _ => Some (redact reason)
  end.

Definition outcome_detail (outcome : DeliveryOutcome) : option string :=
  match outcome with
  | went _ => None
  | retryable _ _ _ detail | terminal _ _ _ detail => detail
  end.

(** Sending, with what it threw made into an outcome. *)
Definition attempt_send (destination : NotificationDestinationRow) (envelope : NotificationEnvelope)
    (deliveryId : string) : M (World J) DeliveryOutcome :=
  let* outcome :=
    try_catch (send destination envelope)
      (fun error =>
         call_optional onError ("Delivery " +:+ deliveryId +:+ " could not be sent")
           (as_failure GAVE_UP error) ;;;
         ret (classifyRefusal GAVE_UP)) in
  match outcome_detail outcome with
  | Some detail =>
      call_optional onError ("Delivery " +:+ deliveryId +:+ " was refused")
        (ThrownValue (redact detail))
  | None => ret tt
  end ;;;
  ret outcome.

Definition carried_of (payload : DeliveryPayload) : list (string * string) :=
  match traceparent payload with Some text => [("traceparent", text)] | None => [] end.

(** The transaction that records an attempt that did not go through. *)
Definition settle_failure (payload : DeliveryPayload) (delivery : NotificationDeliveryRow)
    (destination : NotificationDestinationRow) (outcome : DeliveryOutcome) (settledAt : Z)
    : M (World J) DeliveryResult :=
  let organizationId := pay_organizationId payload in
  let attempt := pay_attempt payload in
  let lastError := stored_error outcome in
  let isTerminal := match outcome with terminal _ _ _ _ => true | _ => false end in
  on_notifs (markDestinationOutcome organizationId (dest_id destination) None (Some settledAt)
               lastError) ;;;
  if isTerminal || (retryLimit <=? attempt) then
    match outcome with
    | terminal _ _ true _ => on_notifs (disableDestination organizationId (dest_id destination))
    | _ => ret tt
    end ;;;
    on_notifs (settleDelivery organizationId (del_id delivery) failed attempt (Some settledAt)
                 lastError) ;;;
    let* dead :=
      sendJob NOTIFICATION_DEADLETTER_QUEUE
        ([("organizationId", organizationId); ("deliveryId", del_id delivery)] ++ carried_of payload)
        None in
    match dead with
    | None => throw (InternalError_ "this delivery could not be set aside")
    | Some _ => ret (MkResult r_failed None)
    end
  else
    let afterSeconds := nextDelaySeconds attempt (retryAfter_of outcome) in
    on_notifs (settleDelivery organizationId (del_id delivery) queued attempt None lastError) ;;;
    let* again :=
      sendJob queue
        ([("organizationId", organizationId); ("deliveryId", del_id delivery);
          ("attempt", decimal (attempt + 1))] ++ carried_of payload)
        (Some afterSeconds) in
    match again with
    | None => throw (InternalError_ "this delivery could not be queued again")
    | Some _ => ret (MkResult r_retrying (Some afterSeconds))
    end.

Definition settle_attempt (payload : DeliveryPayload) (delivery : NotificationDeliveryRow)
    (destination : NotificationDestinationRow) (outcome : DeliveryOutcome) (settledAt : Z)
    : M (World J) DeliveryResult :=
  let organizationId := pay_organizationId payload in
  in_transaction (
    let* attemptId := nanoid idOf in
    on_notifs (recordAttempt (MkAttempt attemptId organizationId (del_id delivery)
                 (pay_attempt payload) (attempt_outcome outcome) (outcome_code outcome)
                 (stored_error outcome))) ;;;
    match outcome with
    | went _ =>
        on_notifs (settleDelivery organizationId (del_id delivery) delivered (pay_attempt payload)
                     (Some settledAt) None) ;;;
        on_notifs (markDestinationOutcome organizationId (dest_id destination) (Some settledAt) None
                     None) ;;;
        ret (MkResult r_delivered None)
    | _ => settle_failure payload delivery destination outcome settledAt
    end).

Definition createDeliveryHandler (payload : DeliveryPayload) : M (World J) DeliveryResult :=
  let organizationId := pay_organizationId payload in
  let attempt := pay_attempt payload in
  let* delivery := from_notifs (findDelivery organizationId (pay_deliveryId payload)) in
  match delivery with
  | None => ret (MkResult r_skipped None)
  | Some delivery =>
      if bool_decide (del_state delivery ∈ SETTLED) then ret (MkResult r_skipped None)
      else
        let* destination :=
          from_notifs (findDestination organizationId (del_destinationId delivery)) in
        let* notification :=
          from_notifs (findNotification organizationId (del_notificationId delivery)) in
        match destination, notification with
        | Some destination, Some notification =>
            if negb (dest_enabled destination) then
              abandon organizationId (del_id delivery) attempt
                "this destination was turned off before it could be sent"
            else
              let* outcome :=
                attempt_send destination (envelope_of notification delivery) (del_id delivery) in
              let* settledAt := now in
              settle_attempt payload delivery destination outcome settledAt
        | _, _ =>
            abandon organizationId (del_id delivery) attempt
              "the destination was removed before this could be sent"
        end
  end.
End delivery.

(** ** A batch *)

Record QueuedJob := MkJob { job_id : string; job_data : Json }.

(** The span a job runs in is left out: it only traces. *)
Definition deliverQueuedBatch {S} (other : string -> option Z) (queue : string)
    (jobs : list QueuedJob) (deliver : DeliveryPayload -> M S DeliveryResult)
    (reportMalformed : string -> string -> M S unit) : M S unit :=
  for_each jobs
    (fun job =>
       match readDeliveryPayload other (job_data job) with
       | None => reportMalformed queue (job_id job)
       | Some payload => deliver payload ;;; ret tt
       end).

(** ** Sweeping *)

Definition NOTIFICATION_RETENTION_DAYS : Z := 90.
Definition TEST_WINDOW_MS : Z := 60 * 1000.
Definition TESTS_PER_WINDOW : Z := 3.
Definition TESTS_PER_WINDOW_PER_ORGANIZATION : Z := 10.
Definition DEADLETTER_RETENTION_SECONDS : Z := 30 * (24 * 60 * 60).

Definition cutoffFor (now days : Z) : Z := now - days * 24 * 60 * 60 * 1000.

Definition DEADLETTER_RETENTION_DAYS : Z := DEADLETTER_RETENTION_SECONDS / (24 * 60 * 60).

Definition boundariesFor (now retentionDays : Z) : RetentionBoundaries :=
  MkBoundaries (cutoffFor now retentionDays) (cutoffFor now DEADLETTER_RETENTION_DAYS).

Definition throttleExceeded (recent limit : Z) : bool := limit <=? recent.

Fixpoint sweep {S} (organizationIds : list string) (removed : Z)
    (delete : string -> M S Z) : M S Z :=
  match organizationIds with
  | [] => ret removed
  | organizationId :: rest =>
      let* count := delete organizationId in
      sweep rest (removed + count) delete
  end.

Definition createCleanupHandler {S} (organizationIds : M S (list string))
    (deleteSettledBefore : string -> RetentionBoundaries -> M S Z) (now : M S Z) (retentionDays : Z)
    : M S Z :=
  let* at_ := now in
  let boundaries := boundariesFor at_ retentionDays in
  let* ids := organizationIds in
  sweep ids 0 (fun organizationId => deleteSettledBefore organizationId boundaries).

(** ** What a queue promises

    A job taken is posted, with its payload and its delay, and taking it
    leaves the tables alone. *)
Class RecordingQueue {J} (sendJob : SendJob J) := {
  posted : J -> list (string * list (string * string) * option Z);
  sendJob_posts : forall queue payload delay w,
    match sendJob queue payload delay w with
    | (Ok (Some _), w') =>
        notifs w' = notifs w /\ posted (jobs w') = posted (jobs w) ++ [(queue, payload, delay)]
    | _ => True
    end }.

(** What is stored of the notifications. *)
Definition tables {J} (w : World J) : NotificationTables * J := (notifs w, jobs w).

(** Sending, reporting and reading the clock leave the tables alone. *)
Class Surroundings {J} (now : M (World J) Z)
    (send : NotificationDestinationRow -> NotificationEnvelope -> M (World J) DeliveryOutcome)
    (onError : option (string -> thrown -> M (World J) unit)) : Prop := {
  now_tables : keeps tables now;
  send_tables : forall destination envelope, keeps tables (send destination envelope);
  report_tables : forall message error, keeps tables (call_optional onError message error) }.

(** A delivery's row after an attempt. *)
Definition left_as {J} (organizationId deliveryId : string) (state : DeliveryState) (attempt : Z)
    (w : World J) : Prop :=
  exists d, findDelivery organizationId deliveryId (notifs w) = Some d
    /\ del_state d = state /\ attempts d = attempt /\ (bool_decide (is_Some (settledAt d)) = negb (state ≡? queued)).

(** How each result accounts for a delivery, from the world before to the
    world after. *)
Definition accounts {J} (sendJob : SendJob J) {recording : RecordingQueue sendJob}
    (other : string -> option Z) (queue : string) (retryLimit : Z)
    (payload : DeliveryPayload) (w w' : World J) (result : DeliveryResult) : Prop :=
  let organizationId := pay_organizationId payload in
  let deliveryId := pay_deliveryId payload in
  let left state := left_as organizationId deliveryId state (pay_attempt payload) w' in
  match settled result with
  | r_skipped => w' = w
  | r_abandoned => left abandoned /\ posted (jobs w') = posted (jobs w)
  | r_delivered => left delivered /\ posted (jobs w') = posted (jobs w)
  | r_failed =>
      left failed
      /\ exists body, posted (jobs w')
           = posted (jobs w) ++ [(NOTIFICATION_DEADLETTER_QUEUE, body, None)]
  | r_retrying =>
      left queued /\ pay_attempt payload < retryLimit
      /\ exists body seconds,
           posted (jobs w') = posted (jobs w) ++ [(queue, body, Some seconds)]
           /\ afterSeconds result = Some seconds
           /\ BASE_RETRY_SECONDS <= seconds <= MAX_RETRY_SECONDS
           /\ readDeliveryPayload other (as_json body)
              = Some (MkDeliveryPayload organizationId deliveryId (pay_attempt payload + 1)
                        (traceparent payload))
  end.

(** A payload a job was read as. *)
Definition well_read (payload : DeliveryPayload) : Prop :=
  pay_organizationId payload <> EmptyString /\ pay_deliveryId payload <> EmptyString
  /\ 1 <= pay_attempt payload /\ traceparent payload <> Some EmptyString.

Lemma text_field_some key fields value :
  text_field key fields = Some value -> value <> EmptyString.
Proof.
  unfold text_field. destruct (field key fields) as [[]|]; try done.
  destruct (Nat.eqb_spec (String.length value0) 0) as [|H]; [done|]. intros [= <-] ->. done.
Qed.

Lemma readDeliveryPayload_well_read other raw payload :
  readDeliveryPayload other raw = Some payload -> well_read payload.
Proof.
  unfold readDeliveryPayload. destruct raw as [| | | | |fields]; try done.
  destruct (text_field "organizationId" fields) as [organizationId|] eqn:Eo; [|done].
  destruct (text_field "deliveryId" fields) as [deliveryId|] eqn:Ed; [|done].
  destruct (match field "attempt" fields with Some _ => _ | None => _ end) as [attempt|]; [|done].
  destruct (Z.ltb_spec attempt 1); [done|]. intros [= <-]. unfold well_read. cbn.
  apply text_field_some in Eo, Ed. repeat (split; [done|]).
  destruct (text_field "traceparent" fields) as [text|] eqn:Et; [|done].
  apply text_field_some in Et. by intros [= ->].
Qed.

(** The next attempt's job is read as the next attempt. *)
Lemma next_attempt_read other payload :
  well_read payload ->
  readDeliveryPayload other
    (as_json ([("organizationId", pay_organizationId payload); ("deliveryId", pay_deliveryId payload);
               ("attempt", decimal (pay_attempt payload + 1))] ++ carried_of payload))
  = Some (MkDeliveryPayload (pay_organizationId payload) (pay_deliveryId payload)
            (pay_attempt payload + 1) (traceparent payload)).
Proof.
  intros (Ho & Hd & Ha & Ht). unfold readDeliveryPayload, as_json, text_field, carried_of.
  rewrite !field_as_json. destruct payload as [o d a t]. cbn [pay_organizationId pay_deliveryId
    pay_attempt traceparent] in *.
  assert (Hnonempty : forall s, s <> EmptyString -> (String.length s =? 0)%nat = false)
    by (by intros []).
  destruct t as [t|]; cbn [app List.find fst snd]; constants; cbn [option_map snd];
    rewrite !Hnonempty, number_of_decimal by (done || lia || congruence);
    destruct (Z.ltb_spec (a + 1) 1); (lia || done).
Qed.

Lemma find_settle organizationId id state attempt at_ error t :
  findDelivery organizationId id (settleDelivery organizationId id state attempt at_ error t).2
  = option_map (set_state state attempt at_ error) (findDelivery organizationId id t).
Proof.
  unfold findDelivery, settleDelivery. cbn. rewrite select_first_update by done.
  destruct (select_first _ _) as [d|] eqn:E; [|done]. cbn.
  apply select_first_spec in E as [_ E]. by rewrite E.
Qed.

Lemma find_mark organizationId id destinationId ok bad reason t :
  findDelivery organizationId id (markDestinationOutcome organizationId destinationId ok bad reason t).2
  = findDelivery organizationId id t.
Proof. unfold markDestinationOutcome. by destruct ok, bad. Qed.

Lemma left_as_settled {J} organizationId id state attempt at_ error delivery (w : World J) t :
  findDelivery organizationId id t = Some delivery ->
  bool_decide (is_Some at_) = negb (state ≡? queued) ->
  findDelivery organizationId id (notifs w)
  = findDelivery organizationId id (settleDelivery organizationId id state attempt at_ error t).2 ->
  left_as organizationId id state attempt w.
Proof. intros Hf Hs Hw. rewrite find_settle, Hf in Hw. by eexists. Qed.

Section accounting.
Context {J : Type} (sendJob : SendJob J) {recording : RecordingQueue sendJob} (idOf : nat -> string)
  (now : M (World J) Z) (redact : string -> string)
  (send : NotificationDestinationRow -> NotificationEnvelope -> M (World J) DeliveryOutcome)
  (onError : option (string -> thrown -> M (World J) unit)) (queue : string) (retryLimit : Z)
  {surroundings : Surroundings now send onError}.

Lemma keeps_tables_run {A} (m : M (World J) A) w r w' :
  keeps tables m -> m w = (r, w') -> notifs w' = notifs w /\ jobs w' = jobs w.
Proof. intros H E. specialize (H w). rewrite E in H. by injection H as H1 H2. Qed.

Lemma keeps_tables_bind {A B} (m : M (World J) A) (k : A -> M (World J) B) :
  keeps tables m -> (forall a, keeps tables (k a)) -> keeps tables (bind m k).
Proof.
  intros Hm Hk w. specialize (Hm w). unfold bind. destruct (m w) as [[a|e] w']; [|done].
  by rewrite Hk.
Qed.

Lemma attempt_send_tables destination envelope id :
  keeps tables (attempt_send redact send onError destination envelope id).
Proof.
  apply keeps_tables_bind.
  - intros w. unfold try_catch. pose proof (send_tables destination envelope w) as Hs.
    destruct (send destination envelope w) as [[outcome|e] w']; [done|].
    rewrite <- Hs. apply keeps_tables_bind; [apply report_tables|]. by intros ? ?.
  - intros outcome. apply keeps_tables_bind; [|by intros ? ?].
    destruct (outcome_detail outcome); [apply report_tables|by intros ?].
Qed.

(** The transaction after an attempt that failed. *)
Lemma settle_failure_accounts other payload delivery destination outcome settledAt w :
  well_read payload -> del_id delivery = pay_deliveryId payload ->
  findDelivery (pay_organizationId payload) (pay_deliveryId payload) (notifs w) = Some delivery ->
  match settle_failure sendJob redact queue retryLimit payload delivery destination outcome settledAt w with
  | (Ok result, w') =>
      settled result <> r_skipped /\ accounts sendJob other queue retryLimit payload w w' result
  | (Throw _, _) => True
  end.
Proof.
  intros Hread Hid Hfind. unfold settle_failure. rewrite Hid. unfold bind at 1, on_notifs at 1.
  pose proof (find_mark (pay_organizationId payload) (pay_deliveryId payload) (dest_id destination) None
    (Some settledAt) (stored_error redact outcome) (notifs w)) as Hmark.
  destruct (markDestinationOutcome _ _ _ _ _ (notifs w)) as [u t1]. cbn in Hmark. rewrite Hfind in Hmark.
  destruct (_ || _) eqn:Egive.
  - set (disable := match outcome with terminal _ _ true _ => _ | _ => _ end).
    assert (Hdisable : exists t2, disable (with_notifs t1 w) = (Ok tt, with_notifs t2 w)
      /\ findDelivery (pay_organizationId payload) (pay_deliveryId payload) t2 = Some delivery).
    { unfold disable. destruct outcome as [| |code reason [] detail]; by eexists. }
    destruct Hdisable as (t2 & Hrun & Hf2). unfold bind at 1. rewrite Hrun.
    unfold bind at 1, on_notifs at 1. cbn [notifs with_notifs settleDelivery]. unfold bind at 1.
    match goal with |- context [sendJob ?q ?p ?d ?w] => pose proof (sendJob_posts q p d w) as Hpost end.
    destruct (sendJob _ _ _ _) as [[[id|]|e] w3]; [|done|done]. destruct Hpost as [Hn Hp].
    split; [done|]. unfold accounts. cbn. split; [|by eexists].
    eapply (left_as_settled _ _ _ _ (Some settledAt)); [exact Hf2|done|]. by rewrite Hn.
  - apply orb_false_iff in Egive as [_ Hlimit]. apply Z.leb_gt in Hlimit.
    unfold bind at 1, on_notifs at 1. cbn [notifs with_notifs settleDelivery]. unfold bind at 1.
    match goal with |- context [sendJob ?q ?p ?d ?w] => pose proof (sendJob_posts q p d w) as Hpost end.
    destruct (sendJob _ _ _ _) as [[[id|]|e] w3]; [|done|done]. destruct Hpost as [Hn Hp].
    split; [done|]. unfold accounts. cbn [settled afterSeconds]. split; [|split; [done|]].
    { eapply (left_as_settled _ _ _ _ None); [exact Hmark|done|]. by rewrite Hn. }
    do 2 eexists. split; [exact Hp|]. split; [done|].
    split; [apply nextDelaySeconds_bounds|by apply next_attempt_read].
Qed.

Lemma settle_attempt_accounts other payload delivery destination outcome settledAt w :
  well_read payload -> del_id delivery = pay_deliveryId payload ->
  findDelivery (pay_organizationId payload) (pay_deliveryId payload) (notifs w) = Some delivery ->
  match settle_attempt sendJob idOf redact queue retryLimit payload delivery destination outcome
          settledAt w with
  | (Ok result, w') =>
      settled result <> r_skipped /\ accounts sendJob other queue retryLimit payload w w' result
  | (Throw _, w') => w' = w
  end.
Proof.
  intros Hread Hid Hfind. unfold settle_attempt, in_transaction, transaction.
  unfold bind at 1, nanoid at 1. unfold bind at 1, on_notifs at 1.
  destruct (recordAttempt _ _) as [u t1] eqn:Er.
  assert (Hf1 : findDelivery (pay_organizationId payload) (pay_deliveryId payload) t1 = Some delivery)
    by (unfold recordAttempt in Er; injection Er as _ <-; exact Hfind).
  set (w1 := with_notifs t1 _).
  assert (Hother : match settle_failure sendJob redact queue retryLimit payload delivery destination
    outcome settledAt w1 with
    | (Ok result, w') => settled result <> r_skipped
                         /\ accounts sendJob other queue retryLimit payload w w' result
    | (Throw _, _) => True end).
  { pose proof (settle_failure_accounts other payload delivery destination outcome settledAt w1 Hread
      Hid Hf1) as H.
    destruct (settle_failure _ _ _ _ _ _ _ _ _ w1) as [[result|e] w']; [|done].
    destruct H as [Hs H]. split; [done|]. unfold accounts in *. by destruct (settled result). }
  destruct outcome as [code|code reason asked detail|code reason stop detail];
    try by destruct (settle_failure _ _ _ _ _ _ _ _ _ w1) as [[result|e] w'].
  unfold bind, on_notifs, ret. cbn [notifs with_notifs settleDelivery markDestinationOutcome].
  split; [done|]. unfold accounts. cbn [settled]. split; [|done].
  eapply (left_as_settled _ _ _ _ (Some settledAt)); [exact Hf1|done|]. by rewrite Hid.
Qed.
End accounting.

(** C4: no delivery is forgotten and none is tried for ever: carrying out a
    job either finds the delivery gone or settled and does nothing, or leaves
    its row delivered, abandoned or failed, the last with a job in the dead
    letter queue, or leaves it queued with a job that is read back as the
    next attempt, at most the limit, after a wait between fifteen seconds
    and an hour; when it throws, what is stored is as before. *)
Theorem delivery_is_settled_or_tried_again {J} (sendJob : SendJob J)
    {recording : RecordingQueue sendJob} idOf now redact send onError queue retryLimit
    {surroundings : Surroundings now send onError} other raw payload w
    (Hread : readDeliveryPayload other raw = Some payload) :
  match createDeliveryHandler sendJob idOf now redact send onError queue retryLimit payload w with
  | (Ok result, w') => accounts sendJob other queue retryLimit payload w w' result
  | (Throw _, w') => tables w' = tables w
  end.
Proof.
  apply readDeliveryPayload_well_read in Hread. unfold createDeliveryHandler.
  unfold bind at 1, from_notifs at 1, gets.
  destruct (findDelivery _ _ (notifs w)) as [delivery|] eqn:Ef; [|done].
  case_bool_decide; [done|].
  assert (Hid : del_id delivery = pay_deliveryId payload).
  { apply select_first_spec in Ef as [_ Ef]. unfold owned_delivery in Ef. by tests. }
  assert (Habandon : forall reason,
    match abandon now (pay_organizationId payload) (del_id delivery) (pay_attempt payload) reason w with
    | (Ok result, w') => accounts sendJob other queue retryLimit payload w w' result
    | (Throw _, w') => tables w' = tables w
    end).
  { intros reason. unfold abandon, in_transaction, transaction, bind at 1, bind at 1.
    destruct (now w) as [[at_|e] w1] eqn:En; [|done].
    pose proof (keeps_tables_run now w _ _ now_tables En) as [Hn Hj].
    unfold on_notifs, settleDelivery. cbn. unfold accounts. cbn [settled jobs with_notifs].
    split; [|by rewrite Hj].
    eapply (left_as_settled _ _ _ _ (Some at_) (Some reason) delivery _ (notifs w1));
      [by rewrite Hn|done|]. by rewrite <- Hid. }
  do 2 (unfold bind at 1, from_notifs at 1, gets at 1; cbv beta iota).
  destruct (findDestination _ _ _) as [destination|]; [|apply Habandon].
  destruct (findNotification _ _ _) as [notification|]; [|apply Habandon].
  destruct (negb _); [apply Habandon|]. clear Habandon. unfold bind at 1.
  pose proof (attempt_send_tables now redact send onError destination
    (envelope_of notification delivery) (del_id delivery)) as Hsent.
  destruct (attempt_send _ _ _ _ _ _ w) as [[outcome|e] w1] eqn:Es;
    pose proof (keeps_tables_run _ w _ _ Hsent Es) as [Hn1 Hj1]; [|unfold tables; by rewrite Hn1, Hj1].
  unfold bind at 1. destruct (now w1) as [[at_|e] w2] eqn:En;
    pose proof (keeps_tables_run _ w1 _ _ now_tables En) as [Hn2 Hj2];
    [|unfold tables; by rewrite Hn2, Hn1, Hj2, Hj1].
  pose proof (settle_attempt_accounts sendJob idOf redact queue retryLimit other payload delivery
    destination outcome at_ w2 Hread Hid) as Hacc.
  rewrite Hn2, Hn1 in Hacc. specialize (Hacc Ef).
  destruct (settle_attempt _ _ _ _ _ _ _ _ _ _ w2) as [[result|e] w3].
  - destruct Hacc as [Hs Hacc]. unfold accounts in *. rewrite Hj2, Hj1 in Hacc. by destruct (settled result).
  - rewrite Hacc. unfold tables. by rewrite Hn2, Hn1, Hj2, Hj1.
Qed.

(** a delivery that is settled is never sent again: handling a job for
    it, however often a queue hands it out, neither sends nor stores
    anything. *)
Theorem settled_delivery_is_left_alone {J} (sendJob : SendJob J) idOf now redact send onError queue
    retryLimit payload delivery w
    (Hfound : findDelivery (pay_organizationId payload) (pay_deliveryId payload) (notifs w)
              = Some delivery)
    (Hsettled : del_state delivery <> queued) :
  createDeliveryHandler sendJob idOf now redact send onError queue retryLimit payload w
  = (Ok (MkResult r_skipped None), w).
Proof.
  unfold createDeliveryHandler, bind at 1, from_notifs, gets. rewrite Hfound.
  rewrite bool_decide_eq_true_2; [done|]. unfold SETTLED. destruct (del_state delivery); set_solver.
Qed.

(** ** Examples *)

Definition delayed_job : Type := string * list (string * string) * option Z.

(** A queue that takes every job. *)
Definition taking : SendJob (list delayed_job) :=
  fun queue payload delay w =>
    (Ok (Some "job"), MkWorld (status w) (notifs w) (jobs w ++ [(queue, payload, delay)]) (drawn w)).

#[export] Instance taking_records : RecordingQueue taking.
Proof. refine {| posted := fun jobs => jobs |}. by intros queue payload delay w. Defined.

(** A service that is down. *)
Definition unavailable : NotificationDestinationRow -> NotificationEnvelope
    -> M (World (list delayed_job)) DeliveryOutcome :=
  fun _ _ => ret (classifyHttpStatus (fun _ => None) 503 None 0).

#[export] Instance unavailable_surroundings : Surroundings (ret 7) unavailable None.
Proof. split; by intros. Qed.

Definition queued_world (state : DeliveryState) : World (list delayed_job) :=
  MkWorld (MkStatusTables [] [] [] [])
    (MkNotificationTables [example_destination] []
       [MkNotification "n1" "org" test "" "" "" "" "k" None 0]
       [MkDelivery "v1" "org" "n1" "d1" state 2 0 None None] []) [] 0.

Definition third_attempt : Json :=
  as_json [("organizationId", "org"); ("deliveryId", "v1"); ("attempt", "3")].

Lemma delivery_is_settled_or_tried_again_witness :
  exists result w',
    createDeliveryHandler taking decimalOfNat (ret 7) (fun text => text) unavailable None
      NOTIFICATION_HTTP_QUEUE DELIVERY_RETRY_LIMIT (MkDeliveryPayload "org" "v1" 3 None)
      (queued_world queued) = (Ok result, w')
    /\ settled result = r_retrying
    /\ accounts taking (fun _ => None) NOTIFICATION_HTTP_QUEUE DELIVERY_RETRY_LIMIT
         (MkDeliveryPayload "org" "v1" 3 None) (queued_world queued) w' result.
Proof.
  do 2 eexists. split; [vm_compute; reflexivity|]. split; [reflexivity|].
  exact (delivery_is_settled_or_tried_again taking decimalOfNat (ret 7) (fun text => text) unavailable
    None NOTIFICATION_HTTP_QUEUE DELIVERY_RETRY_LIMIT (fun _ => None) third_attempt
    (MkDeliveryPayload "org" "v1" 3 None) (queued_world queued) eq_refl).
Defined.

Lemma settled_delivery_is_left_alone_witness :
  createDeliveryHandler taking decimalOfNat (ret 7) (fun text => text) unavailable None
    NOTIFICATION_HTTP_QUEUE DELIVERY_RETRY_LIMIT (MkDeliveryPayload "org" "v1" 3 None)
    (queued_world delivered) = (Ok (MkResult r_skipped None), queued_world delivered).
Proof.
  apply (settled_delivery_is_left_alone taking decimalOfNat (ret 7) (fun text => text) unavailable None
    NOTIFICATION_HTTP_QUEUE DELIVERY_RETRY_LIMIT (MkDeliveryPayload "org" "v1" 3 None)
    (MkDelivery "v1" "org" "n1" "d1" delivered 2 0 None None)).
  - vm_compute. reflexivity.
  - discriminate.
Defined.
