(* ===== verification/Egress.v ===== *)
(** Where notifications may be sent.

    packages/core/src/notification/egress.ts decides whether an address may
    be connected to, and whether a destination may name it.  [isIP] of
    node:net and the URL parser are arguments; [AddressFamilies] states what
    the code relies on of the first. *)

From S2P Require Import Prelude Dates Announce.

Record AddressAllowance := MkAllowance { bytes : list Z; bits : Z }.

Record EgressPolicy := MkPolicy {
  allowHttp : bool; allowedHosts : list string; allowedAddresses : list AddressAllowance }.

Definition PUBLIC_ONLY : EgressPolicy := MkPolicy false [] [].

(** [RejectionCategory] *)
Inductive RejectionCategory :=
  | loopback | private_ | reserved | unreadable | insecure | credentials | fragment | host_category
  | retired | signin | parameters.

Inductive AddressVerdict :=
  | address_allowed (named : bool)
  | address_refused (reason : string) (category : RejectionCategory).

Definition LOOPBACK : string := "it points back at this machine".
Definition PRIVATE : string := "it points at a private network".
Definition RESERVED : string := "it points at a reserved address".
Definition UNREADABLE : string := "that address could not be read".

Definition V6_GROUPS : nat := 8.

(** [hostname.replace(/^\[|\]$/g, "")] *)
Definition without_last (c : ascii) (value : string) : string :=
  match String.rev value with
  | String x rest => if x ≡? c then String.rev rest else value
  | EmptyString => value
  end.

Definition bareHostname (hostname : string) : string :=
  without_last "]" (match hostname with
                    | String x rest => if x ≡? "["%char then rest else hostname
                    | EmptyString => hostname
                    end).

(** [value.endsWith(part)] *)
Definition endsWith (part value : string) : bool := String.prefix (String.rev part) (String.rev value).

Definition LOCAL_SUFFIXES : list string := [".localhost"; ".local"; ".internal"; ".home.arpa"].

Definition looksLocalName (hostname : string) : bool :=
  (hostname ≡? "localhost") || existsb (fun suffix => endsWith suffix hostname) LOCAL_SUFFIXES.

(** ** Reading an address *)

Definition is_digit (c : ascii) : bool :=
  match digit_value c with Some _ => true | None => false end.

(** [/^\d{1,3}$/] *)
Definition WIDTH (text : string) : bool :=
  chars_all is_digit text && (1 <=? String.length text)%nat && (String.length text <=? 3)%nat.

(** [results], or [undefined] at the first [undefined]. *)
Fixpoint all_some {A} (l : list (option A)) : option (list A) :=
  match l with
  | [] => Some []
  | None :: _ => None
  | Some x :: rest => let? xs := all_some rest in Some (x :: xs)
  end.

Definition parse_byte (part : string) : option Z :=
  if negb (WIDTH part) then None
  else let? byte := numberOfDigits part in if 255 <? byte then None else Some byte.

Definition parseV4 (address : string) : option (list Z) :=
  let parts := split_on "." address in
  if negb (length parts =? 4)%nat then None else all_some (map parse_byte parts).

Definition hex_value (c : ascii) : option Z :=
  let n := Z.of_nat (Ascii.nat_of_ascii c) in
  if (48 <=? n) && (n <=? 57) then Some (n - 48)
  else if (97 <=? n) && (n <=? 102) then Some (n - 87)
  else if (65 <=? n) && (n <=? 70) then Some (n - 55)
  else None.

Fixpoint hex_from (acc : Z) (text : string) : option Z :=
  match text with
  | EmptyString => Some acc
  | String c rest => let? d := hex_value c in hex_from (acc * 16 + d) rest
  end.

(** [HEXTET.test(group)] and [Number.parseInt(group, 16)] *)
Definition hextet (group : string) : option Z :=
  if (1 <=? String.length group)%nat && (String.length group <=? 4)%nat then hex_from 0 group
  else None.

Fixpoint hextets_of (groups : list string) : option (list Z) :=
  match groups with
  | [] => Some []
  | group :: rest =>
      if (length rest =? 0)%nat && includes "." group then
        let? embedded := parseV4 group in
        match embedded with
        | [a; b; c; d] => Some [Z.lor (Z.shiftl a 8) b; Z.lor (Z.shiftl c 8) d]
        | _ => None
        end
      else
        let? value := hextet group in
        let? values := hextets_of rest in
        Some (value :: values)
  end.

Definition hextetsOf (segment : string) : option (list Z) :=
  if (String.length segment =? 0)%nat then Some [] else hextets_of (split_on ":" segment).

Definition octetsOf (groups : list Z) : list Z :=
  flat_map (fun group => [Z.land (Z.shiftr group 8) 255; Z.land group 255]) groups.

(** [value.split("::")] *)
Fixpoint split_double (value : string) : list string :=
  match value with
  | EmptyString => [EmptyString]
  | String x tail =>
      match tail with
      | String y rest =>
          if (x ≡? ":"%char) && (y ≡? ":"%char) then EmptyString :: split_double rest
          else match split_double tail with
               | [] => [String x EmptyString]
               | head :: others => String x head :: others
               end
      | EmptyString => [String x EmptyString]
      end
  end.

Definition parseV6 (address : string) : option (list Z) :=
  if includes "%" address then None
  else match split_double address with
  | [whole] =>
      let? only := hextetsOf whole in
      if negb (length only =? V6_GROUPS)%nat then None else Some (octetsOf only)
  | [before; after] =>
      let? head := hextetsOf before in
      let? tail := hextetsOf after in
      if (V6_GROUPS <? length head + length tail + 1)%nat then None
      else Some (octetsOf (head ++ repeat 0 (V6_GROUPS - length head - length tail) ++ tail))
  | _ => None
  end.

(** ** Ranges *)

Record Range := MkRange {
  limit : AddressAllowance; range_reason : string; range_category : RejectionCategory }.

Definition categoryFor (reason : string) : RejectionCategory :=
  if reason ≡? LOOPBACK then loopback
  else if reason ≡? PRIVATE then private_
  else if reason ≡? RESERVED then reserved
  else if reason ≡? UNREADABLE then unreadable
  else reserved.

(** One turn of the loop: the first [width] bits of a byte. *)
Fixpoint within_from (left right : list Z) (remaining : Z) : bool :=
  if remaining <=? 0 then true
  else
    let width := Z.min 8 remaining in
    let mask := Z.land (Z.shiftl 255 (8 - width)) 255 in
    match left, right with
    | l :: left', r :: right' =>
        if negb (Z.land l mask =? Z.land r mask) then false
        else within_from left' right' (remaining - width)
    | _, _ => false
    end.

Definition within (address : list Z) (limit : AddressAllowance) : bool :=
  if negb (length address =? length (bytes limit))%nat then false
  else if Z.of_nat (length (bytes limit)) * 8 <? bits limit then false
  else within_from address (bytes limit) (bits limit).

Section egress.
Variable isIP : string -> Z.

Definition parseAddress (address : string) : option (list Z) :=
  let family := isIP address in
  if family =? 4 then parseV4 address
  else if family =? 6 then parseV6 address
  else None.

Definition allowanceOf (notation : string) : option AddressAllowance :=
  match StatusCursor.cut_at "/" notation with
  | None =>
      let? parsed := parseAddress (bareHostname notation) in
      Some (MkAllowance parsed (Z.of_nat (length parsed) * 8))
  | Some (written, width) =>
      let? parsed := parseAddress (bareHostname written) in
      if negb (WIDTH width) then None
      else
        let? wide := numberOfDigits width in
        if Z.of_nat (length parsed) * 8 <? wide then None else Some (MkAllowance parsed wide)
  end.

Definition range (notation reason : string) : result Range :=
  match allowanceOf notation with
  | None => Throw (InternalError_ ("unusable address range: " +:+ notation))
  | Some allowance => Ok (MkRange allowance reason (categoryFor reason))
  end.

Fixpoint ranges (listed : list (string * string)) : result (list Range) :=
  match listed with
  | [] => Ok []
  | (notation, reason) :: rest =>
      let+ first := range notation reason in
      let+ others := ranges rest in
      Ok (first :: others)
  end.
End egress.

Definition NEVER_V4 : list (string * string) :=
  [("0.0.0.0/8", LOOPBACK); ("169.254.0.0/16", RESERVED); ("224.0.0.0/4", RESERVED);
   ("240.0.0.0/4", RESERVED); ("100.100.100.100/32", RESERVED); ("100.100.100.200/32", RESERVED);
   ("192.0.0.192/32", RESERVED)].

Definition NEVER_V6 : list (string * string) :=
  [("::/128", LOOPBACK); ("ff00::/8", RESERVED); ("fe80::/10", RESERVED);
   ("fd00:ec2::254/128", RESERVED)].

Definition FORBIDDEN_V4 : list (string * string) :=
  [("10.0.0.0/8", PRIVATE); ("100.64.0.0/10", PRIVATE); ("127.0.0.0/8", LOOPBACK);
   ("172.16.0.0/12", PRIVATE); ("192.0.0.0/24", RESERVED); ("192.0.2.0/24", RESERVED);
   ("192.88.99.0/24", RESERVED); ("192.168.0.0/16", PRIVATE); ("198.18.0.0/15", RESERVED);
   ("198.51.100.0/24", RESERVED); ("203.0.113.0/24", RESERVED)].

Definition GLOBAL_V6 : string * string := ("2000::/3", RESERVED).

Definition MAPPED_V4 : string * string := ("::ffff:0:0/96", RESERVED).

Definition NON_GLOBAL_V6 : list (string * string) :=
  [("::1/128", LOOPBACK); ("fc00::/7", PRIVATE); ("fec0::/10", PRIVATE)].

Definition FORBIDDEN_V6 : list (string * string) :=
  [("2001::/32", RESERVED); ("2001:2::/48", RESERVED); ("2001:10::/28", RESERVED);
   ("2001:20::/28", RESERVED); ("2001:db8::/32", RESERVED); ("2002::/16", RESERVED);
   ("3fff::/20", RESERVED)].

(** The constants of the module, once it is loaded; loading it throws when a
    range cannot be read. *)
Record Tables_ := MkTables {
  never_v4 : list Range; never_v6 : list Range; forbidden_v4 : list Range; global_v6 : Range;
  mapped_v4 : Range; non_global_v6 : list Range; forbidden_v6 : list Range }.

Definition load (isIP : string -> Z) : result Tables_ :=
  let+ never4 := ranges isIP NEVER_V4 in
  let+ never6 := ranges isIP NEVER_V6 in
  let+ forbidden4 := ranges isIP FORBIDDEN_V4 in
  let+ global := range isIP GLOBAL_V6.1 GLOBAL_V6.2 in
  let+ mapped := range isIP MAPPED_V4.1 MAPPED_V4.2 in
  let+ nonGlobal := ranges isIP NON_GLOBAL_V6 in
  let+ forbidden6 := ranges isIP FORBIDDEN_V6 in
  Ok (MkTables never4 never6 forbidden4 global mapped nonGlobal forbidden6).

(** ** Verdicts *)

Definition softDeny (t : Tables_) (address : list Z) : option Range :=
  if (length address =? 4)%nat then
    List.find (fun r => within address (limit r)) (forbidden_v4 t)
  else if negb (within address (limit (global_v6 t))) then
    match List.find (fun r => within address (limit r)) (non_global_v6 t) with
    | Some r => Some r
    | None => Some (global_v6 t)
    end
  else List.find (fun r => within address (limit r)) (forbidden_v6 t).

Definition normalised (t : Tables_) (address : list Z) : list Z :=
  if (length address =? 16)%nat && within address (limit (mapped_v4 t)) then drop 12 address
  else address.

Definition never (t : Tables_) (address : list Z) : option Range :=
  List.find (fun r => within address (limit r))
    (if (length address =? 4)%nat then never_v4 t else never_v6 t).

Section verdicts.
Variables (isIP : string -> Z) (t : Tables_).

Definition verifyAddress (address : string) (policy : EgressPolicy) (hostAllowed : bool)
    : AddressVerdict :=
  match parseAddress isIP address with
  | None => address_refused UNREADABLE unreadable
  | Some parsed =>
      let address := normalised t parsed in
      match never t address with
      | Some r => address_refused (range_reason r) (range_category r)
      | None =>
          let named :=
            hostAllowed || existsb (fun allowance => within address allowance)
                             (allowedAddresses policy) in
          match softDeny t address with
          | None => address_allowed named
          | Some hit =>
              if named then address_allowed true
              else address_refused (range_reason hit) (range_category hit)
          end
      end
  end.

Definition hostIsAllowed (hostname : string) (policy : EgressPolicy) : bool :=
  existsb (fun allowed => allowed ≡? toLowerCase (bareHostname hostname)) (allowedHosts policy).

Inductive UrlVerdict :=
  | url_allowed (hostname : string)
  | url_refused (reason : string) (category : RejectionCategory).

Definition INSECURE : string := "the address must start with https".

(** What is read of a [URL]. *)
Record Url := MkUrl {
  protocol : string; username : string; password : string; hash : string; url_hostname : string;
  pathname : string; origin : string; url_search : string; searchParam : string -> option string }.

(** [new URL(raw)]; [None] where it throws. *)
Variable URL_of : string -> option Url.

Definition is_empty (text : string) : bool := (String.length text =? 0)%nat.

Definition verifyDestinationUrl (raw : string) (policy : EgressPolicy) : UrlVerdict :=
  match URL_of raw with
  | None => url_refused "that does not look like a web address" unreadable
  | Some parsed =>
      if negb (protocol parsed ≡? "https:") && negb (protocol parsed ≡? "http:") then
        url_refused INSECURE insecure
      else if negb (is_empty (username parsed)) || negb (is_empty (password parsed)) then
        url_refused "the address must not contain a username or password" credentials
      else if negb (is_empty (hash parsed)) then
        url_refused "the address must not contain a fragment" fragment
      else
        let hostname := bareHostname (url_hostname parsed) in
        if is_empty hostname then url_refused "that does not look like a web address" unreadable
        else
          let hostAllowed := hostIsAllowed hostname policy in
          let literal := negb (isIP hostname =? 0) in
          let verdict :=
            if literal then Some (verifyAddress hostname policy hostAllowed) else None in
          match verdict with
          | Some (address_refused reason category) => url_refused reason category
          | _ =>
              if negb hostAllowed && negb literal && looksLocalName hostname then
                url_refused LOOPBACK loopback
              else
                let named :=
                  hostAllowed || match verdict with
                                 | Some (address_allowed named) => named
                                 | _ => false
                                 end in
                if (protocol parsed ≡? "http:") && (negb (allowHttp policy) || negb named) then
                  url_refused INSECURE insecure
                else url_allowed (url_hostname parsed)
          end
  end.

Definition verifyDestinationHost (raw : string) (policy : EgressPolicy) : UrlVerdict :=
  let hostname := toLowerCase (bareHostname (trim raw)) in
  if is_empty hostname then url_refused "that does not look like a server address" unreadable
  else
    let hostAllowed := hostIsAllowed hostname policy in
    if negb (isIP hostname =? 0) then
      match verifyAddress hostname policy hostAllowed with
      | address_allowed _ => url_allowed hostname
      | address_refused reason category => url_refused reason category
      end
    else if includes "/" hostname || includes "@" hostname || includes ":" hostname then
      url_refused "give the server address only, with nothing after it" parameters
    else if negb hostAllowed && looksLocalName hostname then url_refused LOOPBACK loopback
    else url_allowed hostname.

(** The ellipsis is written in UTF-8. *)
Definition sanitisedTarget (raw : string) : string :=
  match URL_of raw with
  | Some parsed =>
      if (pathname parsed ≡? "/") || is_empty (pathname parsed) then origin parsed else origin parsed +:+ "/…"
  | None => "an address that could not be read"
  end.
End verdicts.

(** ** Settings *)

Record EgressSettings := MkSettings {
  set_allowHttp : bool; set_allowedHosts : string; set_allowedAddresses : string }.

Definition listed (raw : string) : list string :=
  List.filter (fun entry => negb (is_empty entry))
    (map (fun entry => toLowerCase (trim entry)) (split_on "," raw)).

Definition hostList (raw : string) : list string := listed raw.

Definition readsAsAddressList (isIP : string -> Z) (raw : string) : bool :=
  forallb (fun entry => bool_decide (is_Some (allowanceOf isIP entry))) (listed raw).

Fixpoint allowances (isIP : string -> Z) (entries : list string) : result (list AddressAllowance) :=
  match entries with
  | [] => Ok []
  | entry :: rest =>
      match allowanceOf isIP entry with
      | None => Throw (InternalError_ ("that address could not be read: " +:+ entry))
      | Some allowance => let+ others := allowances isIP rest in Ok (allowance :: others)
      end
  end.

Definition egressPolicy (isIP : string -> Z) (settings : EgressSettings) : result EgressPolicy :=
  let+ addresses := allowances isIP (listed (set_allowedAddresses settings)) in
  Ok (MkPolicy (set_allowHttp settings) (map bareHostname (listed (set_allowedHosts settings)))
        addresses).

(** ** Addresses as numbers *)

Definition is_byte (b : Z) : Prop := 0 <= b < 256.

(** The number a list of bytes writes, first byte first. *)
Definition number (address : list Z) : Z := fold_left (fun n b => n * 256 + b) address 0.

Definition width_of (address : list Z) : Z := 8 * Z.of_nat (length address).

Lemma number_from address n :
  fold_left (fun n b => n * 256 + b) address n = n * 2 ^ width_of address + number address.
Proof.
  unfold number, width_of. revert n. induction address as [|b rest IH]; intros n; [simpl; lia|].
  cbn [fold_left length]. rewrite IH, (IH (0 * 256 + b)), Nat2Z.inj_succ.
  replace (8 * Z.succ (Z.of_nat (length rest))) with (8 + 8 * Z.of_nat (length rest)) by lia.
  rewrite Z.pow_add_r by lia. change (2 ^ 8) with 256. ring.
Qed.

Lemma number_cons b rest : number (b :: rest) = b * 2 ^ width_of rest + number rest.
Proof. unfold number at 1. cbn [fold_left]. rewrite number_from. f_equal. Qed.

Lemma number_bounds address : Forall is_byte address -> 0 <= number address < 2 ^ width_of address.
Proof.
  induction 1 as [|b rest Hb Hrest IH]; [done|]. rewrite number_cons.
  replace (width_of (b :: rest)) with (8 + width_of rest) by (unfold width_of; cbn [length]; lia).
  rewrite Z.pow_add_r by (unfold width_of; lia). change (2 ^ 8) with 256. unfold is_byte in Hb. nia.
Qed.

Lemma number_app a b : number (a ++ b) = number a * 2 ^ width_of b + number b.
Proof. unfold number at 1. rewrite fold_left_app. fold (number a). apply number_from. Qed.

(** A block of addresses: those that start with the first [wide] bits of
    [base]. *)
Definition in_block (width n : Z) (block : Z * Z) : bool :=
  n / 2 ^ (width - block.2) =? block.1 / 2 ^ (width - block.2).

(** The mask of [within] keeps the first [w] bits of a byte. *)
Lemma mask_keeps w b :
  1 <= w <= 8 -> is_byte b ->
  Z.land b (Z.land (Z.shiftl 255 (8 - w)) 255) = b / 2 ^ (8 - w) * 2 ^ (8 - w).
Proof.
  intros Hw Hb. unfold is_byte in Hb.
  assert (H : forallb (fun w => forallb (fun b =>
    Z.land b (Z.land (Z.shiftl 255 (8 - w)) 255) =? b / 2 ^ (8 - w) * 2 ^ (8 - w))
    (map Z.of_nat (seq 0 256))) (map Z.of_nat (seq 1 8)) = true) by (vm_compute; reflexivity).
  rewrite forallb_forall in H. specialize (H w).
  assert (Hin : In w (map Z.of_nat (seq 1 8))).
  { apply in_map_iff. exists (Z.to_nat w). split; [lia|]. apply List.in_seq. lia. }
  specialize (H Hin). rewrite forallb_forall in H. apply Z.eqb_eq, H.
  apply in_map_iff. exists (Z.to_nat b). split; [lia|]. apply List.in_seq. lia.
Qed.

(** The first bits of a first byte and what follows it. *)
Lemma first_bits_short k x v wide :
  0 <= k -> 0 < wide <= 8 -> 0 <= v < 2 ^ k -> (x * 2 ^ k + v) / 2 ^ (8 + k - wide) = x / 2 ^ (8 - wide).
Proof.
  intros Hk Hw Hv. replace (8 + k - wide) with (k + (8 - wide)) by lia.
  rewrite Z.pow_add_r, <- Z.div_div by lia. f_equal. rewrite Z.div_add_l, Z.div_small by lia. lia.
Qed.

Lemma first_bits_long k x v wide :
  8 < wide <= 8 + k ->
  (x * 2 ^ k + v) / 2 ^ (8 + k - wide) = x * 2 ^ (wide - 8) + v / 2 ^ (8 + k - wide).
Proof.
  intros H. replace k with ((wide - 8) + (8 + k - wide)) at 1 by lia.
  by rewrite Z.pow_add_r, Z.mul_assoc, Z.div_add_l by lia.
Qed.

Lemma rest_bits_bound k v wide :
  8 < wide <= 8 + k -> 0 <= v < 2 ^ k -> 0 <= v / 2 ^ (8 + k - wide) < 2 ^ (wide - 8).
Proof.
  intros Hw Hv. split; [apply Z.div_pos; lia|]. apply Z.div_lt_upper_bound; [lia|].
  rewrite <- Z.pow_add_r by lia. replace (8 + k - wide + (wide - 8)) with k by lia. lia.
Qed.

(** No bits left to compare. *)
Lemma no_bits left right :
  length left = length right -> Forall is_byte left -> Forall is_byte right ->
  (number left / 2 ^ (width_of left - 0) =? number right / 2 ^ (width_of left - 0)) = true.
Proof.
  intros Hlen Hl Hr. rewrite Z.sub_0_r. apply number_bounds in Hl, Hr.
  unfold width_of in *. rewrite <- Hlen in Hr. apply Z.eqb_eq. by rewrite !Z.div_small.
Qed.

Lemma within_from_prefix left : forall right remaining,
  length left = length right -> Forall is_byte left -> Forall is_byte right ->
  0 <= remaining <= width_of left ->
  within_from left right remaining
  = (number left / 2 ^ (width_of left - remaining) =? number right / 2 ^ (width_of left - remaining)).
Proof.
  induction left as [|l left IH]; intros right remaining Hlen Hl Hr Hrem.
  { destruct right; [|done]. unfold width_of in Hrem. cbn in Hrem.
    replace remaining with 0 by lia. symmetry. by apply no_bits. }
  destruct right as [|r right]; [done|]. injection Hlen as Hlen.
  apply Forall_cons in Hl as [Hl Hleft], Hr as [Hr Hright].
  cbn [within_from]. destruct (Z.leb_spec remaining 0) as [H0|Hpos].
  { replace remaining with 0 by lia. symmetry.
    apply no_bits; [cbn; lia|by apply Forall_cons..]. }
  rewrite !mask_keeps by (done || lia). set (w := Z.min 8 remaining).
  pose proof (number_bounds left Hleft) as Hvl. pose proof (number_bounds right Hright) as Hvr.
  assert (Hw : width_of right = width_of left) by (unfold width_of; by rewrite Hlen).
  rewrite !number_cons, Hw in *. set (k := width_of left) in *. set (vl := number left) in *.
  set (vr := number right) in *.
  assert (Hk : 0 <= k) by (unfold k, width_of; lia).
  assert (Hwidth : width_of (l :: left) = 8 + k) by (unfold k, width_of; cbn [length]; lia).
  rewrite Hwidth in *. unfold is_byte in *.
  destruct (Z.le_gt_cases remaining 8) as [Hle|Hgt].
  - assert (Ew : w = remaining) by (unfold w; lia). rewrite Ew, Z.sub_diag.
    rewrite !first_bits_short by lia. set (m := 2 ^ (8 - remaining)). assert (0 < m) by (unfold m; lia).
    assert (Hw0 : within_from left right 0 = true) by (destruct left; done). rewrite Hw0.
    destruct (Z.eqb_spec (l / m * m) (r / m * m)) as [He|He]; cbn [negb]; symmetry.
    + apply Z.eqb_eq. apply Z.mul_reg_r in He; lia.
    + apply Z.eqb_neq. intros E. by rewrite E in He.
  - assert (Ew : w = 8) by (unfold w; lia). rewrite Ew, Z.sub_diag. change (2 ^ 0) with 1.
    rewrite !Z.div_1_r, !Z.mul_1_r.
    rewrite !first_bits_long by lia.
    pose proof (rest_bits_bound k vl remaining ltac:(lia) Hvl).
    pose proof (rest_bits_bound k vr remaining ltac:(lia) Hvr).
    rewrite (IH right (remaining - 8) Hlen Hleft Hright) by (fold k; lia).
    fold k vl vr.
    replace (k - (remaining - 8)) with (8 + k - remaining) by lia.
    set (ql := vl / _) in *. set (qr := vr / _) in *. set (p := 2 ^ (remaining - 8)) in *.
    clearbody ql qr p. destruct (Z.eqb_spec l r) as [->|Hne]; cbn [negb].
    + apply eq_true_iff_eq. rewrite !Z.eqb_eq. symmetry. apply Z.add_cancel_l.
    + symmetry. apply Z.eqb_neq. nia.
Qed.

(** ** What is read is bytes *)

Lemma all_some_spec {A} (l : list (option A)) xs : all_some l = Some xs -> l = map Some xs.
Proof.
  revert xs. induction l as [|[x|] l IH]; intros xs H; simpl in H; [by injection H as <-| |done].
  destruct (all_some l) as [ys|]; [|done]. injection H as <-. simpl. by rewrite <- (IH ys).
Qed.

Lemma numberOfDigits_nonneg text n : numberOfDigits text = Some n -> 0 <= n.
Proof.
  assert (H : forall s acc, 0 <= acc -> digits_from acc s = Some n -> 0 <= n).
  { induction s as [|c s IH]; intros acc Hacc E; simpl in E; [by injection E as <-|].
    destruct (digit_value c) as [d|] eqn:Ed; [|done]. apply (IH (acc * 10 + d)); [|done].
    unfold digit_value in Ed. destruct (Ascii.is_nat c); [|done]. injection Ed as <-. lia. }
  destruct text; [done|]. by apply H.
Qed.

Lemma parseV4_bytes text address :
  parseV4 text = Some address -> length address = 4%nat /\ Forall is_byte address.
Proof.
  unfold parseV4. destruct (Nat.eqb_spec (length (split_on "." text)) 4) as [Hlen|]; [|done].
  intros H. apply all_some_spec in H. split.
  - apply (f_equal length) in H. rewrite !length_map in H. congruence.
  - apply Forall_forall. intros b Hb.
    assert (Hin : Some b ∈ map parse_byte (split_on "." text))
      by (rewrite H; by apply list_elem_of_fmap_2).
    apply list_elem_of_fmap in Hin as (part & Hp & _). unfold parse_byte in Hp.
    destruct (negb _); [done|]. destruct (numberOfDigits part) as [n|] eqn:En; [|done].
    apply numberOfDigits_nonneg in En. destruct (Z.ltb_spec 255 n); [done|]. injection Hp as ->.
    unfold is_byte. lia.
Qed.

Lemma octetsOf_bytes groups :
  length (octetsOf groups) = (2 * length groups)%nat /\ Forall is_byte (octetsOf groups).
Proof.
  assert (Hbyte : forall x, is_byte (Z.land x 255)).
  { intros x. change 255 with (Z.ones 8). rewrite Z.land_ones by lia. unfold is_byte. lia. }
  induction groups as [|g groups [IH1 IH2]]; [by split|].
  change (octetsOf (g :: groups)) with ([Z.land (Z.shiftr g 8) 255; Z.land g 255] ++ octetsOf groups).
  split; [rewrite length_app, IH1; simpl; lia|]. apply Forall_app. split; [|done].
  by repeat (apply Forall_cons; split).
Qed.

Lemma parseV6_bytes text address :
  parseV6 text = Some address -> length address = 16%nat /\ Forall is_byte address.
Proof.
  unfold parseV6. destruct (includes "%" text); [done|].
  assert (Hoctets : forall groups, length groups = V6_GROUPS -> Some (octetsOf groups) = Some address ->
    length address = 16%nat /\ Forall is_byte address).
  { intros groups Hlen [= <-]. destruct (octetsOf_bytes groups) as [H1 H2]. by rewrite H1, Hlen. }
  destruct (split_double text) as [|before [|after [|]]]; try done.
  - destruct (hextetsOf before) as [only|]; [|done].
    destruct (Nat.eqb_spec (length only) V6_GROUPS); [|done]. by apply Hoctets.
  - destruct (hextetsOf before) as [head|]; [|done]. destruct (hextetsOf after) as [tail|]; [|done].
    destruct (Nat.ltb_spec V6_GROUPS (length head + length tail + 1)); [done|]. apply Hoctets.
    rewrite !length_app, repeat_length. unfold V6_GROUPS in *. lia.
Qed.

Lemma parseAddress_bytes isIP text address :
  parseAddress isIP text = Some address ->
  (length address = 4%nat \/ length address = 16%nat) /\ Forall is_byte address.
Proof.
  unfold parseAddress. destruct (_ =? 4); [|destruct (_ =? 6); [|done]]; intros H.
  - apply parseV4_bytes in H as [? ?]. auto.
  - apply parseV6_bytes in H as [? ?]. auto.
Qed.

(** [within] is: in the block of the limit. *)
Lemma within_in_block address allowance :
  Forall is_byte address -> Forall is_byte (bytes allowance) -> 0 <= bits allowance ->
  within address allowance
  = (length address =? length (bytes allowance))%nat && (bits allowance <=? width_of address)
    && in_block (width_of address) (number address) (number (bytes allowance), bits allowance).
Proof.
  intros Ha Hl Hb. unfold within, in_block. cbn [fst snd].
  destruct (Nat.eqb_spec (length address) (length (bytes allowance))) as [Hlen|]; [|done].
  rewrite <- Hlen. unfold width_of at 1. cbn [negb andb].
  destruct (Z.ltb_spec (Z.of_nat (length address) * 8) (bits allowance)) as [Hw|Hw],
    (Z.leb_spec (bits allowance) (8 * Z.of_nat (length address))) as [Hle|Hle]; try lia; try done.
  apply within_from_prefix; [done..|]. unfold width_of. lia.
Qed.

(** ** The blocks of the module, as numbers *)

Definition v4 (a b c d : Z) : Z := ((a * 256 + b) * 256 + c) * 256 + d.

(** The address that starts with the first groups and ends with zeros. *)
Definition v6 (groups : list Z) : Z :=
  fold_left (fun n g => n * 65536 + g) groups 0 * 65536 ^ (8 - Z.of_nat (length groups)).

Definition NEVER_BLOCKS (width : Z) : list (Z * Z) :=
  if width =? 32 then
    [(v4 0 0 0 0, 8); (v4 169 254 0 0, 16); (v4 224 0 0 0, 4); (v4 240 0 0 0, 4);
     (v4 100 100 100 100, 32); (v4 100 100 100 200, 32); (v4 192 0 0 192, 32)]
  else
    [(0, 128); (v6 [0xff00], 8); (v6 [0xfe80], 10); (v6 [0xfd00; 0xec2] + 0x254, 128)].

Definition FORBIDDEN_BLOCKS (width : Z) : list (Z * Z) :=
  if width =? 32 then
    [(v4 10 0 0 0, 8); (v4 100 64 0 0, 10); (v4 127 0 0 0, 8); (v4 172 16 0 0, 12);
     (v4 192 0 0 0, 24); (v4 192 0 2 0, 24); (v4 192 88 99 0, 24); (v4 192 168 0 0, 16);
     (v4 198 18 0 0, 15); (v4 198 51 100 0, 24); (v4 203 0 113 0, 24)]
  else
    [(v6 [0x2001], 32); (v6 [0x2001; 0x2], 48); (v6 [0x2001; 0x10], 28); (v6 [0x2001; 0x20], 28);
     (v6 [0x2001; 0xdb8], 32); (v6 [0x2002], 16); (v6 [0x3fff], 20)].

(** An address anyone may be sent to: none of the blocks set aside, and for
    the newer family one of those in use (2000::/3). *)
Definition public (width n : Z) : bool :=
  negb (existsb (in_block width n) (FORBIDDEN_BLOCKS width))
  && ((width =? 32) || in_block width n (v6 [0x2000], 3)).

Definition never_block (width n : Z) : bool := existsb (in_block width n) (NEVER_BLOCKS width).

(** The older address a newer one stands for (::ffff:0:0/96), or itself. *)
Definition target (width n : Z) : Z * Z :=
  if (width =? 128) && (n / 2 ^ 32 =? 0xffff) then (32, n mod 2 ^ 32) else (width, n).

(** ** The constants, loaded *)

Definition constants : list (string * string) :=
  NEVER_V4 ++ NEVER_V6 ++ FORBIDDEN_V4 ++ [GLOBAL_V6; MAPPED_V4] ++ NON_GLOBAL_V6 ++ FORBIDDEN_V6.

Definition address_part (notation : string) : string :=
  bareHostname (match StatusCursor.cut_at "/" notation with
                | Some (written, _) => written
                | None => notation
                end).

(** An address with a colon is of the newer family. *)
Definition family_of (text : string) : Z := if includes ":" text then 6 else 4.

(** [isIP] knows the addresses the module is written with. *)
Class AddressFamilies (isIP : string -> Z) : Prop := {
  families : forall entry, In entry constants ->
    isIP (address_part entry.1) = family_of (address_part entry.1) }.

Lemma allowanceOf_agrees isIP isIP' notation :
  isIP (address_part notation) = isIP' (address_part notation) ->
  allowanceOf isIP notation = allowanceOf isIP' notation.
Proof.
  unfold allowanceOf, address_part, parseAddress.
  by destruct (StatusCursor.cut_at "/" notation) as [[written width]|]; intros ->.
Qed.

Lemma ranges_agree isIP isIP' listed_ :
  (forall entry, In entry listed_ -> isIP (address_part entry.1) = isIP' (address_part entry.1)) ->
  ranges isIP listed_ = ranges isIP' listed_.
Proof.
  induction listed_ as [|[notation reason] rest IH]; intros H; [done|]. cbn [ranges].
  unfold range. rewrite (allowanceOf_agrees isIP isIP') by (apply (H (notation, reason)); by left).
  rewrite IH; [done|]. intros entry He. apply H. by right.
Qed.

Definition standard : Tables_ :=
  Eval vm_compute in
    match load family_of with
    | Ok t => t
    | Throw _ =>
        let none := MkRange (MkAllowance [] 0) EmptyString reserved in
        MkTables [] [] [] none none [] []
    end.

Lemma load_standard isIP {known : AddressFamilies isIP} : load isIP = Ok standard.
Proof.
  transitivity (load family_of); [|vm_compute; reflexivity].
  assert (Hpart : forall l, (forall entry, In entry l -> In entry constants) ->
    ranges isIP l = ranges family_of l).
  { intros l Hl. apply ranges_agree. intros entry He. by apply families, Hl. }
  assert (Hone : forall entry, In entry constants ->
    range isIP entry.1 entry.2 = range family_of entry.1 entry.2).
  { intros entry He. unfold range. by rewrite (allowanceOf_agrees isIP family_of) by by apply families. }
  unfold load. rewrite !Hpart, !Hone; [done|..];
    unfold constants; intros; rewrite !in_app_iff; simpl; tauto.
Qed.

(** Ranges and the blocks they are. *)
Definition describes (len : nat) (r : Range) (block : Z * Z) : bool :=
  (length (bytes (limit r)) =? len)%nat
  && forallb (fun b => (0 <=? b) && (b <? 256)) (bytes (limit r))
  && (number (bytes (limit r)) =? block.1) && (bits (limit r) =? block.2)
  && (0 <=? block.2) && (block.2 <=? 8 * Z.of_nat len).

Fixpoint describe (len : nat) (rs : list Range) (blocks : list (Z * Z)) : bool :=
  match rs, blocks with
  | [], [] => true
  | r :: rs', b :: blocks' => describes len r b && describe len rs' blocks'
  | _, _ => false
  end.

Lemma within_described len address r block :
  length address = len -> Forall is_byte address -> describes len r block = true ->
  within address (limit r) = in_block (width_of address) (number address) block.
Proof.
  intros Hlen Ha H. unfold describes in H. tests. apply Nat.eqb_eq in H.
  rewrite within_in_block; [|done| |lia].
  - rewrite Hlen, H, Nat.eqb_refl. cbn [andb]. destruct block as [base wide]. cbn [fst snd] in *.
    subst. unfold width_of. destruct (Z.leb_spec (bits (limit r)) (8 * Z.of_nat (length address)));
      [done|lia].
  - apply Forall_forall. intros b Hb. rewrite forallb_forall in H4. apply list_elem_of_In in Hb.
    specialize (H4 b Hb). unfold is_byte. tests. lia.
Qed.

Lemma find_described len address rs blocks :
  length address = len -> Forall is_byte address -> describe len rs blocks = true ->
  match List.find (fun r => within address (limit r)) rs with Some _ => true | None => false end
  = existsb (in_block (width_of address) (number address)) blocks.
Proof.
  intros Hlen Ha. revert blocks. induction rs as [|r rs IH]; intros [|b blocks] H; try done.
  cbn [describe] in H. tests. cbn [List.find existsb].
  rewrite (within_described len address r b) by done. destruct (in_block _ _ b); [done|by apply IH].
Qed.

Lemma never_standard address :
  length address = 4%nat \/ length address = 16%nat -> Forall is_byte address ->
  match never standard address with Some _ => true | None => false end
  = never_block (width_of address) (number address).
Proof.
  intros [Hlen|Hlen] Ha; unfold never, never_block; rewrite Hlen; cbn [Nat.eqb].
  - rewrite (find_described 4 address _ (NEVER_BLOCKS 32)); [|done|done|vm_compute; reflexivity].
    unfold width_of. by rewrite Hlen.
  - rewrite (find_described 16 address _ (NEVER_BLOCKS 128)); [|done|done|vm_compute; reflexivity].
    unfold width_of. by rewrite Hlen.
Qed.

Lemma softDeny_standard address :
  length address = 4%nat \/ length address = 16%nat -> Forall is_byte address ->
  match softDeny standard address with Some _ => false | None => true end
  = public (width_of address) (number address).
Proof.
  intros [Hlen|Hlen] Ha; unfold softDeny, public; rewrite Hlen; cbn [Nat.eqb].
  - pose proof (find_described 4 address (forbidden_v4 standard) (FORBIDDEN_BLOCKS 32) Hlen Ha
      ltac:(vm_compute; reflexivity)) as H.
    replace (width_of address) with 32 in * by (unfold width_of; rewrite Hlen; done).
    rewrite <- H. cbn [Z.eqb]. by destruct (List.find _ _).
  - pose proof (find_described 16 address (forbidden_v6 standard) (FORBIDDEN_BLOCKS 128) Hlen Ha
      ltac:(vm_compute; reflexivity)) as H.
    rewrite (within_described 16 address (global_v6 standard) (v6 [0x2000], 3)) by
      (done || vm_compute; reflexivity).
    replace (width_of address) with 128 in * by (unfold width_of; rewrite Hlen; done).
    rewrite <- H. change (128 =? 32) with false. cbn [orb].
    destruct (in_block 128 _ (v6 [0x2000], 3)); cbn [negb].
    + by destruct (List.find _ _).
    + rewrite andb_false_r. by destruct (List.find _ (non_global_v6 standard)).
Qed.

Lemma number_split address n :
  (n <= length address)%nat -> Forall is_byte address ->
  number address / 2 ^ width_of (drop n address) = number (take n address)
  /\ number address mod 2 ^ width_of (drop n address) = number (drop n address).
Proof.
  intros Hn Ha. 
  assert (E : number address = number (take n address) * 2 ^ width_of (drop n address)
    + number (drop n address)) by (by rewrite <- number_app, take_drop). rewrite E.
  assert (Hd : 0 <= number (drop n address) < 2 ^ width_of (drop n address))
    by (apply number_bounds; by apply Forall_drop).
  set (p := 2 ^ width_of (drop n address)) in *. assert (Hp : p <> 0) by lia. split.
  - by rewrite Z.div_add_l, Z.div_small, Z.add_0_r.
  - by rewrite Z.add_comm, Z.mod_add, Z.mod_small.
Qed.

Lemma normalised_target address :
  length address = 4%nat \/ length address = 16%nat -> Forall is_byte address ->
  let reached := normalised standard address in
  (length reached = 4%nat \/ length reached = 16%nat) /\ Forall is_byte reached
  /\ (width_of reached, number reached) = target (width_of address) (number address).
Proof.
  intros Hlen Ha. unfold normalised, target.
  destruct Hlen as [Hlen|Hlen]; rewrite Hlen; cbn [Nat.eqb andb].
  { replace (width_of address) with 32 by (unfold width_of; by rewrite Hlen). cbn zeta.
    split; [by left|]. split; [done|]. reflexivity. }
  rewrite (within_described 16 address (mapped_v4 standard) (0xffff * 2 ^ 32, 96)) by
    (done || vm_compute; reflexivity).
  replace (width_of address) with 128 by (unfold width_of; by rewrite Hlen).
  unfold in_block. cbn [fst snd]. rewrite Z.div_mul by done.
  change (128 - 96) with 32. change (128 =? 128) with true. cbn [andb].
  destruct (number address / 2 ^ 32 =? 0xffff).
  - assert (Hd : length (drop 12 address) = 4%nat) by (rewrite length_drop; lia).
    destruct (number_split address 12 ltac:(lia) Ha) as [_ Hmod].
    replace (width_of (drop 12 address)) with 32 in Hmod by (unfold width_of; by rewrite Hd).
    split; [by left|]. split; [by apply Forall_drop|]. rewrite Hmod. unfold width_of. by rewrite Hd.
  - split; [by right|]. split; [done|]. unfold width_of. by rewrite Hlen.
Qed.

(** An allowance the settings can hold. *)
Definition readable (allowance : AddressAllowance) : Prop :=
  Forall is_byte (bytes allowance) /\ 0 <= bits allowance.

(** An operator named the address. *)
Definition named_by (policy : EgressPolicy) (width n : Z) (allowance : AddressAllowance) : Prop :=
  In allowance (allowedAddresses policy) /\ width_of (bytes allowance) = width
  /\ bits allowance <= width
  /\ in_block width n (number (bytes allowance), bits allowance) = true.

Lemma width_of_inj a b : width_of a = width_of b <-> length a = length b.
Proof. unfold width_of. lia. Qed.

Lemma named_spec policy address :
  Forall readable (allowedAddresses policy) -> Forall is_byte address ->
  existsb (fun allowance => within address allowance) (allowedAddresses policy) = true
  <-> exists allowance, named_by policy (width_of address) (number address) allowance.
Proof.
  intros Hpolicy Ha. rewrite existsb_exists. apply exist_proper. intros allowance.
  unfold named_by. split.
  - intros [Hin H]. rewrite List.Forall_forall in Hpolicy. destruct (Hpolicy allowance Hin) as [Hb Hn].
    rewrite within_in_block in H by done. tests. apply Nat.eqb_eq in H.
    rewrite width_of_inj. auto.
  - intros (Hin & Hw & Hle & H). rewrite List.Forall_forall in Hpolicy.
    destruct (Hpolicy allowance Hin) as [Hb Hn]. split; [done|]. rewrite within_in_block by done.
    apply width_of_inj in Hw. rewrite <- Hw, Nat.eqb_refl, H.
    destruct (Z.leb_spec (bits allowance) (width_of address)); [done|lia].
Qed.

(** an address may be connected to exactly when the address it reaches,
    which for an older address written inside a newer one is the older one,
    lies in no block that is never reached, and is public or was named by
    the operator: no setting opens this host's own, link-local, multicast or
    metadata addresses, and without one nothing but a public address is
    reached. *)
Theorem addresses_follow_the_blocks isIP {known : AddressFamilies isIP} t text address policy
    hostAllowed (Hload : load isIP = Ok t) (Hparsed : parseAddress isIP text = Some address)
    (Hpolicy : Forall readable (allowedAddresses policy)) :
  let (width, n) := target (width_of address) (number address) in
  (exists named, verifyAddress isIP t text policy hostAllowed = address_allowed named)
  <-> never_block width n = false
      /\ (public width n = true \/ hostAllowed = true
          \/ exists allowance, named_by policy width n allowance).
Proof.
  rewrite (load_standard isIP (known := known)) in Hload. injection Hload as <-.
  apply parseAddress_bytes in Hparsed as Hbytes. destruct Hbytes as [Hlen Ha].
  destruct (normalised_target address Hlen Ha) as (Hrl & Hrb & <-).
  unfold verifyAddress. rewrite Hparsed. set (reached := normalised standard address) in *.
  rewrite <- (never_standard reached), <- (softDeny_standard reached), <- named_spec by done.
  destruct (never standard reached) as [r|]; [by split; intros [? ?]|].
  destruct (softDeny standard reached) as [hit|].
  2:{ split; [intros _; split; [done|by left]|intros _; by eexists]. }
  destruct (hostAllowed || _) eqn:En.
  - split; [|intros _; by eexists]. intros _. split; [done|]. right. by apply orb_prop in En.
  - apply orb_false_iff in En as [-> ->]. split; [by intros [? ?]|]. intros [_ [?|[?|?]]]; done.
Qed.

(** a destination is accepted over plain http only when the operator
    allows it and named its host or address, and never with a user name, a
    password or a fragment; a literal address must pass [verifyAddress], and
    a local name must be named by the operator. *)
Theorem accepted_destinations_are_checked isIP t URL_of raw policy hostname
    (Haccepted : verifyDestinationUrl isIP t URL_of raw policy = url_allowed hostname) :
  exists url, URL_of raw = Some url /\ hostname = url_hostname url
    /\ username url = EmptyString /\ password url = EmptyString /\ hash url = EmptyString
    /\ let name := bareHostname hostname in
       let trusted := hostIsAllowed name policy in
       (protocol url = "https:"
        \/ protocol url = "http:" /\ allowHttp policy = true
           /\ (trusted = true
               \/ isIP name <> 0 /\ verifyAddress isIP t name policy trusted = address_allowed true))
       /\ (isIP name <> 0 -> exists named, verifyAddress isIP t name policy trusted
                                          = address_allowed named)
       /\ (isIP name = 0 -> trusted = true \/ looksLocalName name = false).
Proof.
  assert (Hempty : forall s, negb (is_empty s) = false -> s = EmptyString) by (by intros []).
  unfold verifyDestinationUrl in Haccepted. destruct (URL_of raw) as [url|]; [|done].
  destruct (negb (protocol url ≡? "https:") && _) eqn:Ep; [done|].
  destruct (negb (is_empty (username url)) || _) eqn:Eu; [done|].
  destruct (negb (is_empty (hash url))) eqn:Eh; [done|].
  apply orb_false_iff in Eu as [Eu Ew]. apply Hempty in Eu, Ew, Eh.
  exists url. destruct (is_empty (bareHostname (url_hostname url))); [done|].
  set (name := bareHostname (url_hostname url)) in *.
  remember (hostIsAllowed name policy) as trusted eqn:Et.
  assert (Hprotocol : protocol url = "https:" \/ protocol url = "http:").
  { apply andb_false_iff in Ep as [Ep|Ep]; [left|right]; by tests. }
  destruct (Z.eqb_spec (isIP name) 0) as [H0|H0]; cbn [negb] in Haccepted.
  - destruct (negb trusted && _ && _) eqn:El; [done|].
    destruct ((protocol url ≡? "http:") && _) eqn:En; [done|]. injection Haccepted as <-.
    cbv zeta. fold name. rewrite <- Et. do 5 (split; [done|]). split; [|split; [done|]].
    + destruct Hprotocol as [|Hp]; [by left|right]. rewrite bool_decide_eq_true_2 in En by done.
      cbn in En. tests. rewrite orb_false_r in *. auto.
    + intros _. destruct trusted; [by left|right]. by cbn in El.
  - destruct (verifyAddress isIP t name policy trusted) as [named|] eqn:Ev; [|done].
    rewrite andb_false_r in Haccepted. cbn [andb] in Haccepted.
    destruct ((protocol url ≡? "http:") && _) eqn:En; [done|]. injection Haccepted as <-.
    cbv zeta. fold name. rewrite <- Et. do 5 (split; [done|]). split; [|split; [by eexists|done]].
    destruct Hprotocol as [|Hp]; [by left|right]. rewrite bool_decide_eq_true_2 in En by done.
    cbn in En. tests. do 2 (split; [done|]). destruct trusted; [by left|right].
    cbn in *. by subst named.
Qed.

(** ** Examples *)

(** Node's [isIP] on the addresses written here. *)
Definition example_isIP (text : string) : Z :=
  if (is_empty text) || includes "h" text then 0 else family_of text.

#[export] Instance example_families : AddressFamilies example_isIP.
Proof.
  constructor. intros entry He.
  assert (H : forallb (fun e => example_isIP (address_part e.1) =? family_of (address_part e.1))
    constants = true) by (vm_compute; reflexivity).
  rewrite forallb_forall in H. by apply Z.eqb_eq, H.
Qed.

Lemma addresses_follow_the_blocks_witness :
  (never_block 32 (v4 10 0 0 7) = false /\ public 32 (v4 10 0 0 7) = false)
  /\ ((exists named, verifyAddress example_isIP standard "::ffff:10.0.0.7" PUBLIC_ONLY true
                     = address_allowed named)
      <-> never_block 32 (v4 10 0 0 7) = false
          /\ (public 32 (v4 10 0 0 7) = true \/ true = true
              \/ exists allowance, named_by PUBLIC_ONLY 32 (v4 10 0 0 7) allowance)).
Proof.
  split; [split; vm_compute; reflexivity|].
  refine (addresses_follow_the_blocks example_isIP standard "::ffff:10.0.0.7"
    [0;0;0;0;0;0;0;0;0;0;255;255;10;0;0;7] PUBLIC_ONLY true _ _ _).
  - vm_compute. reflexivity.
  - vm_compute. reflexivity.
  - constructor.
Defined.

Definition example_url : Url :=
  MkUrl "http:" EmptyString EmptyString EmptyString "10.0.0.7" "/" "http://10.0.0.7" EmptyString (fun _ => None).

Lemma accepted_destinations_are_checked_witness :
  exists named, verifyAddress example_isIP standard "10.0.0.7"
    (MkPolicy true [] [MkAllowance [10;0;0;0] 8]) false = address_allowed named.
Proof.
  destruct (accepted_destinations_are_checked example_isIP standard (fun _ => Some example_url)
    "http://10.0.0.7/" (MkPolicy true [] [MkAllowance [10;0;0;0] 8]) "10.0.0.7")
    as (url & Hurl & _ & _ & _ & _ & _ & Hip & _).
  - vm_compute. reflexivity.
  - apply Hip. vm_compute. discriminate.
Defined.
