(* ===== verification/HealthPoller.v ===== *)
(** The health poll.

    packages/core/src/host/health-poller.ts asks every machine in turn how it
    is and hands the answer on: what was seen, whether it answered, and then
    its bots; packages/core/src/host/health.ts and facts.ts read the answers,
    packages/contracts/src/host-health.ts judges them. *)

From S2P Require Import Prelude Dates Observer.

(** ** What a machine answers *)

Definition HEALTH_POLL_MS : Z := 60000.
Definition OFFLINE_AFTER_MS : Z := 3 * HEALTH_POLL_MS.
Definition HEALTH_TIMEOUT_MS : Z := 15000.

Inductive HostHealth := online | degraded | unreadable | offline | unknown.

Record HealthInput := MkHealthInput {
  input_status : string; lastSeenAt : option Z; input_failedUnits : option Z }.

Definition healthFor (host : HealthInput) (now : Z) : HostHealth :=
  if (input_status host ≡? "pending") || (input_status host ≡? "provisioning") then unknown
  else if (input_status host ≡? "unreachable") || (input_status host ≡? "error") then offline
  else
    match lastSeenAt host with
    | None => unknown
    | Some seen =>
        if OFFLINE_AFTER_MS <? now - seen then offline
        else
          match input_failedUnits host with
          | None => unreadable
          | Some failed => if 0 <? failed then degraded else online
          end
    end.

Definition systemctl (args : string) : string := RUNTIME_DIR_PREFIX +:+ "systemctl --user " +:+ args.

Definition failedUnitsCommand : string :=
  systemctl "list-units 'open-mcc*' --state=failed --no-legend --plain".

Definition NEWLINE : ascii := Ascii.ascii_of_nat 10.

Definition parseFailedUnits (output : string) : Z :=
  Z.of_nat (length (List.filter (fun line => (1 <=? String.length (trim line))%nat)
                      (split_on NEWLINE output))).

Definition OS_RELEASE_COMMAND : string :=
  ". /etc/os-release 2>/dev/null; printf '%s\n%s' " +:+ QUOTE +:+ "$ID" +:+ QUOTE +:+ " " +:+ QUOTE
    +:+ "$PRETTY_NAME" +:+ QUOTE.

Definition UNKNOWN_HOST_FACT : string := "Unknown".

(** [/^[ -~]{1,128}$/] *)
Definition HOST_FACT_SHAPE (value : string) : bool :=
  chars_all (fun c => let n := Ascii.nat_of_ascii c in (32 <=? n)%nat && (n <=? 126)%nat) value
  && (1 <=? String.length value)%nat && (String.length value <=? 128)%nat.

(** [value.replace(/^Q|Q$/g, "")] for the quote [Q] *)
Definition unquoted (value : string) : string :=
  let rest := if startsWith QUOTE value then slice_from 1 value else value in
  if startsWith QUOTE (String.rev rest) then String.rev (slice_from 1 (String.rev rest)) else rest.

Definition hostFact (output : string) : option string :=
  let value := unquoted (trim output) in
  if (String.length value =? 0)%nat then None
  else Some (if HOST_FACT_SHAPE value then value else UNKNOWN_HOST_FACT).

Definition parseOsRelease (output : string) : option string * option string :=
  let lines := split_on NEWLINE output in
  (hostFact (nth 0 lines EmptyString), hostFact (nth 1 lines EmptyString)).

Record HostObservationResult := MkObserved {
  failedUnits : option Z; osId : option string; osName : option string }.

(** ** One poll *)

(** What the poll reads of a row of the machines. *)
Record HostRow := MkHost {
  host_id : string; host_status : string; osRelease : option string; networkStack : option string;
  architecture : option string }.

(** [hostMeets(host, "runtime")] of packages/core/src/host/runtime-guard.ts *)
Definition hostMeetsRuntime (host : HostRow) : bool :=
  bool_decide (is_Some (osRelease host)) && bool_decide (is_Some (networkStack host))
  && bool_decide (is_Some (architecture host)).

Definition isPollable (host : HostRow) : bool :=
  negb (host_status host ≡? "removing") && hostMeetsRuntime host.

(** [HostReadLease] *)
Inductive HostReadLease (W : Type) :=
  | leased (reader : JournalLease W) (host : HostRow)
  | missing | unprovisioned | changed.
Arguments leased {W}. Arguments missing {W}. Arguments unprovisioned {W}. Arguments changed {W}.

Record HealthPollerDeps (W : Type) := MkPollerDeps {
  pollableHosts : M W (list HostRow);
  lease_host : HostRow -> Z -> M W (HostReadLease W);
  recordSeen : HostRow -> Z -> HostObservationResult -> M W unit;
  recordReachability : option (HostRow -> bool -> M W unit);
  observeInstances : option (HostRow -> (Z -> M W (HostReadLease W)) -> M W unit);
  poll_now : M W Z;
  poll_onError : option (string -> thrown -> M W unit) }.
Arguments MkPollerDeps {W}. Arguments pollableHosts {W}. Arguments lease_host {W}.
Arguments recordSeen {W}. Arguments recordReachability {W}. Arguments observeInstances {W}.
Arguments poll_now {W}. Arguments poll_onError {W}.

Record HealthPollRun := MkPollRun { polled : nat; reached : list string; unreachable : list string }.

Section poll.
Context {W : Type} (deps : HealthPollerDeps W).

Definition observeHost (reader : JournalLease W) : M W HostObservationResult :=
  let* failed := exec reader failedUnitsCommand in
  let* os := exec reader OS_RELEASE_COMMAND in
  let (id, name) := parseOsRelease (stdout os) in
  ret (MkObserved (if exitCode failed =? 0 then Some (parseFailedUnits (stdout failed)) else None)
         id name).

Definition push_reached (id : string) : M (HealthPollRun * W) unit :=
  on_fst (modify (fun run => MkPollRun (polled run) (reached run ++ [id]) (unreachable run))).

Definition push_unreachable (id : string) : M (HealthPollRun * W) unit :=
  on_fst (modify (fun run => MkPollRun (polled run) (reached run) (unreachable run ++ [id]))).

(** [deps.recordReachability?.(host, reached)] *)
Definition tell_reachability (host : HostRow) (reached : bool) : M W unit :=
  match recordReachability deps with Some f => f host reached | None => ret tt end.

(** A machine that answered, from the lease on. *)
Definition poll_leased (reader : JournalLease W) (host : HostRow) : M (HealthPollRun * W) unit :=
  let* observed := on_snd (try_finally (observeHost reader) (release reader)) in
  let* seenAt := on_snd (poll_now deps) in
  on_snd (recordSeen deps host seenAt observed) ;;;
  push_reached (host_id host) ;;;
  on_snd (tell_reachability host true) ;;;
  on_snd
    (try_catch
       (match observeInstances deps with
        | Some f => f host (fun deadlineMs => lease_host deps host deadlineMs)
        | None => ret tt
        end)
       (fun error =>
          call_optional (poll_onError deps)
            ("Could not read the bots on host " +:+ host_id host) error)).

(** What is done about whatever the poll of a machine threw. *)
Definition poll_failed (listed : HostRow) (error : thrown) : M (HealthPollRun * W) unit :=
  push_unreachable (host_id listed) ;;;
  on_snd
    (call_optional (poll_onError deps) ("Health poll could not reach host " +:+ host_id listed) error ;;;
     try_catch (tell_reachability listed false)
       (fun recordError =>
          call_optional (poll_onError deps)
            ("Could not record that host " +:+ host_id listed +:+ " was unreachable") recordError)).

Definition poll_host (listed : HostRow) : M (HealthPollRun * W) unit :=
  try_catch
    (let* answer := on_snd (lease_host deps listed HEALTH_TIMEOUT_MS) in
     match answer with
     | leased reader host => poll_leased reader host
     | _ => ret tt
     end)
    (poll_failed listed).

Definition runHealthPoll : M W HealthPollRun :=
  fun w =>
    match pollableHosts deps w with
    | (Throw e, w') => (Throw e, w')
    | (Ok listed, w') =>
        let hosts := List.filter isPollable listed in
        match for_each hosts poll_host (MkPollRun (length hosts) [] [], w') with
        | (Ok _, (run, w'')) => (Ok run, w'')
        | (Throw e, (_, w'')) => (Throw e, w'')
        end
    end.
End poll.

(** ** Every machine gets a verdict *)

(** What one machine adds to the run: its id, in one of the lists or in both. *)
Definition judged (id : string) (refused : Prop) (before after : HealthPollRun) : Prop :=
  exists seen failed,
    after = MkPollRun (polled before) (reached before ++ seen) (unreachable before ++ failed)
    /\ (seen = [] \/ seen = [id]) /\ (failed = [] \/ failed = [id])
    /\ (seen = [] -> failed = [] -> refused).

(** The machine's lease is answered without a connection: it is gone, not
    set up, or was changed meanwhile. *)
Definition lease_refused {W} (deps : HealthPollerDeps W) (listed : HostRow) : Prop :=
  exists w answer w', lease_host deps listed HEALTH_TIMEOUT_MS w = (Ok answer, w')
    /\ forall reader host, answer <> leased reader host.

Section verdicts.
Context {W : Type} (deps : HealthPollerDeps W).

(** Reporting an error answers. *)
Context (errors_answered : forall message e w,
  exists w', call_optional (poll_onError deps) message e w = (Ok tt, w')).

(** A lease is of the machine it was asked for. *)
Context (leases_keep_the_machine : forall listed ms w reader host w',
  lease_host deps listed ms w = (Ok (leased reader host), w') -> host_id host = host_id listed).

Lemma poll_failed_judges listed e run w :
  exists w', poll_failed deps listed e (run, w)
    = (Ok tt, (MkPollRun (polled run) (reached run) (unreachable run ++ [host_id listed]), w')).
Proof.
  unfold poll_failed, push_unreachable, bind, on_fst, on_snd, modify, try_catch. simpl.
  destruct (errors_answered ("Health poll could not reach host " +:+ host_id listed) e w)
    as [w1 E1].
  rewrite E1. destruct (tell_reachability deps listed false w1) as [[[]|e'] w2]; [by eexists|].
  destruct (errors_answered
    ("Could not record that host " +:+ host_id listed +:+ " was unreachable") e' w2) as [w3 E3].
  rewrite E3. by eexists.
Qed.

(** A machine that answered is reached before anything else is told. *)
Lemma poll_leased_judges reader host run w :
  exists answer seen w',
    poll_leased deps reader host (run, w)
      = (answer, (MkPollRun (polled run) (reached run ++ seen) (unreachable run), w'))
    /\ (seen = [] \/ seen = [host_id host]) /\ (answer = Ok tt -> seen = [host_id host]).
Proof.
  assert (Hrun : run = MkPollRun (polled run) (reached run ++ []) (unreachable run))
    by (destruct run; simpl; by rewrite app_nil_r).
  unfold poll_leased, bind, on_snd at 1. simpl.
  destruct (try_finally _ _ w) as [[observed|e] w1];
    [|eexists _, [], _; split; [by rewrite <- Hrun|split; [by left|discriminate]]].
  unfold on_snd at 1. simpl. destruct (poll_now deps w1) as [[seenAt|e] w2];
    [|eexists _, [], _; split; [by rewrite <- Hrun|split; [by left|discriminate]]].
  unfold on_snd at 1. simpl. destruct (recordSeen deps host seenAt observed w2) as [[[]|e] w3];
    [|eexists _, [], _; split; [by rewrite <- Hrun|split; [by left|discriminate]]].
  simpl. unfold on_snd at 1. simpl.
  destruct (tell_reachability deps host true w3) as [[[]|e] w4];
    [|eexists _, [host_id host], _; split; [done|split; [by right|discriminate]]].
  unfold on_snd. simpl. destruct (try_catch _ _ w4) as [[[]|e] w5];
    eexists _, [host_id host], _; (split; [done|naive_solver]).
Qed.

Lemma poll_host_judges listed run w :
  exists run' w', poll_host deps listed (run, w) = (Ok tt, (run', w'))
    /\ judged (host_id listed) (lease_refused deps listed) run run'.
Proof.
  assert (Hrun : run = MkPollRun (polled run) (reached run ++ []) (unreachable run ++ []))
    by (destruct run; simpl; by rewrite !app_nil_r).
  unfold poll_host, try_catch, bind, on_snd at 1. simpl.
  destruct (lease_host deps listed HEALTH_TIMEOUT_MS w) as [[answer|e] w1] eqn:El; simpl.
  - destruct answer as [reader host| | |];
      try (exists run, w1; split; [done|]; exists [], [];
           (repeat split; [done|by left|by left|]); intros _ _; eexists _, _, _; by split).
    destruct (poll_leased_judges reader host run w1) as (answer & seen & w2 & -> & Hs & Ha).
    rewrite (leases_keep_the_machine _ _ _ _ _ _ El) in *. destruct answer as [[]|e].
    + eexists _, _. split; [done|]. exists seen, []. rewrite app_nil_r.
      rewrite (Ha eq_refl). (split_and!; [done|by right|by left|done]).
    + destruct (poll_failed_judges listed e
        (MkPollRun (polled run) (reached run ++ seen) (unreachable run)) w2) as [w3 ->].
      eexists _, _. split; [done|]. exists seen, [host_id listed].
      (split_and!; [done|done|by right|done]).
  - destruct (poll_failed_judges listed e run w1) as [w2 ->].
    eexists _, _. split; [done|]. exists [], [host_id listed]. rewrite app_nil_r.
    (split_and!; [done|by left|by right|done]).
Qed.
End verdicts.

(** What a run says of the machines visited so far. *)
Definition accounts_for {W} (deps : HealthPollerDeps W) (hosts : list HostRow) (n : nat)
    (run : HealthPollRun) : Prop :=
  polled run = n
  /\ reached run `sublist_of` map host_id hosts
  /\ unreachable run `sublist_of` map host_id hosts
  /\ forall host, In host hosts -> ~ lease_refused deps host ->
       In (host_id host) (reached run ++ unreachable run).

Lemma judged_accounts {W} (deps : HealthPollerDeps W) hosts host n run run' :
  accounts_for deps hosts n run ->
  judged (host_id host) (lease_refused deps host) run run' ->
  accounts_for deps (hosts ++ [host]) n run'.
Proof.
  intros (Hn & Hr & Hu & Hall) (seen & failed & -> & Hs & Hf & Hno). unfold accounts_for. simpl.
  rewrite map_app. simpl. split_and!; [done| | |].
  1,2: apply sublist_app; [done|]; destruct Hs as [-> | ->], Hf as [-> | ->]; try done;
       apply sublist_nil_l.
  intros other Hin Hok. rewrite !in_app_iff in *. destruct Hin as [Hin|[<-|[]]].
  - apply Hall in Hin; [|done]. rewrite in_app_iff in Hin. tauto.
  - destruct Hs as [-> | ->]; [|simpl; tauto]. destruct Hf as [-> | ->]; [|simpl; tauto].
    exfalso. by apply Hok, Hno.
Qed.

(** A health poll survives every failure on a machine: when the machines
    can be listed, errors can be reported and a lease is of the machine asked
    for, [runHealthPoll] returns, counts the machines that may be polled, and
    lists every one of them whose lease was not refused as reached or as
    unreachable, in order, at most once in each list, and no other machine. *)
Theorem health_poll_judges_every_machine {W} (deps : HealthPollerDeps W) w listed w1 :
  (forall message e w,
     exists w', call_optional (poll_onError deps) message e w = (Ok tt, w')) ->
  (forall host ms w reader leased_host w',
     lease_host deps host ms w = (Ok (leased reader leased_host), w') ->
     host_id leased_host = host_id host) ->
  pollableHosts deps w = (Ok listed, w1) ->
  exists run w', runHealthPoll deps w = (Ok run, w')
    /\ accounts_for deps (List.filter isPollable listed)
         (length (List.filter isPollable listed)) run.
Proof.
  intros Herr Hid Hl. unfold runHealthPoll. rewrite Hl.
  remember (List.filter isPollable listed) as hosts eqn:Eh. clear Eh.
  pose proof (triple_for_each
    (fun seen _ (s : HealthPollRun * W) => accounts_for deps seen (length hosts) s.1)
    (fun _ _ => False) (poll_host deps) hosts) as Hloop.
  specialize (Hloop (fun seen host rest _ => ltac:(
    intros [run w2] Hrun;
    destruct (poll_host_judges deps Herr Hid host run w2) as (run' & w3 & -> & Hj);
    exact (judged_accounts deps seen host _ run run' Hrun Hj)))).
  specialize (Hloop (MkPollRun (length hosts) [] [], w1)).
  destruct (for_each hosts (poll_host deps) _) as [[[]|e] [run w']].
  - exists run, w'. split; [done|]. apply Hloop. by split_and!.
  - exfalso. apply Hloop. by split_and!.
Qed.

(** *** A fleet of three machines

    [a] answers, [b] cannot be connected to, [c] is gone; what is told about
    reachability is kept in the state. *)
Definition fleet_host (id : string) : HostRow :=
  MkHost id "ready" (Some "6.1") (Some "netns") (Some "x64").

Definition fleet_lease {W : Type} : JournalLease W :=
  MkLease W (fun _ => ret (MkExec 0 "" "")) (ret tt).

Definition fleet (recordSeen : HostRow -> Z -> HostObservationResult -> M (list (string * bool)) unit)
    : HealthPollerDeps (list (string * bool)) :=
  MkPollerDeps
    (ret [fleet_host "a"; MkHost "new" "pending" None None None; fleet_host "b"; fleet_host "c"])
    (fun host _ =>
       if host_id host ≡? "a" then ret (leased fleet_lease host)
       else if host_id host ≡? "b" then throw (ThrownValue "timed out") else ret missing)
    recordSeen
    (Some (fun host reached => modify (fun told => told ++ [(host_id host, reached)])))
    None (ret 0) None.

Lemma health_poll_judges_every_machine_witness :
  exists run w', runHealthPoll (fleet (fun _ _ _ => ret tt)) [] = (Ok run, w')
    /\ accounts_for (fleet (fun _ _ _ => ret tt)) [fleet_host "a"; fleet_host "b"; fleet_host "c"] 3 run.
Proof.
  apply (health_poll_judges_every_machine (fleet (fun _ _ _ => ret tt)) []
    [fleet_host "a"; MkHost "new" "pending" None None None; fleet_host "b"; fleet_host "c"] []).
  - intros message e w. by exists w.
  - intros host ms w reader other w' H. unfold fleet, lease_host in H.
    destruct (host_id host ≡? "a"); [by inversion H|].
    destruct (host_id host ≡? "b"); inversion H.
  - reflexivity.
Defined.

(** A machine that answered its poll is reported unreachable when storing
    what was seen of it fails: [recordSeen] is inside the [try] whose [catch]
    takes every failure for a machine that could not be reached. *)
Theorem failed_store_reads_as_unreachable :
  runHealthPoll (fleet (fun _ _ _ => throw (ThrownValue "the database is away"))) []
    = (Ok (MkPollRun 3 [] ["a"; "b"]), [("a", false); ("b", false)])
  /\ runHealthPoll (fleet (fun _ _ _ => ret tt)) []
    = (Ok (MkPollRun 3 ["a"] ["b"]), [("a", true); ("b", false)]).
Proof. split; vm_compute; reflexivity. Qed.
