(* ===== verification/Limiter.v ===== *)
(** The limit of commands on a connection.

    packages/transport/src/ssh/limiter.ts lets a fixed number of commands run
    on a connection and queues the rest. *)

From stdpp Require Import relations.
From S2P Require Import Prelude.

(** ** The channel limiter *)

Definition DEFAULT_EXEC_CONCURRENCY : Z := 6.

(** [waiting.indexOf(admit)] and [waiting.splice(index, 1)] *)
Fixpoint remove_first (ticket : nat) (waiting : list nat) : list nat :=
  match waiting with
  | [] => []
  | next :: rest => if next ≡? ticket then rest else next :: remove_first ticket rest
  end.


(** A call of [acquire] is a ticket and an abort signal a number; several
    calls can share a signal.  [listeners] are the [abandon] functions added to
    signals, [settled] the promises answered so far, resolved or rejected. *)
Record ChannelLimiter := Mk {
  active : Z; waiting : list nat; listeners : list (nat * nat); aborted : list nat;
  settled : list (nat * bool) }.

Definition queued (s : ChannelLimiter) : nat := length (waiting s).

Definition createChannelLimiter : ChannelLimiter := Mk 0 [] [] [] [].

Definition resolve (ticket : nat) (s : ChannelLimiter) : ChannelLimiter :=
  Mk (active s) (waiting s) (listeners s) (aborted s) (settled s ++ [(ticket, true)]).

Definition reject (ticket : nat) (s : ChannelLimiter) : ChannelLimiter :=
  Mk (active s) (waiting s) (listeners s) (aborted s) (settled s ++ [(ticket, false)]).

Definition abandon (ticket : nat) (s : ChannelLimiter) : ChannelLimiter :=
  reject ticket (Mk (active s) (remove_first ticket (waiting s)) (listeners s) (aborted s) (settled s)).

Definition admit_next (ticket : nat) (s : ChannelLimiter) : ChannelLimiter :=
  resolve ticket
    (Mk (active s + 1) (waiting s) (List.filter (fun l => negb (l.2 ≡? ticket)) (listeners s))
       (aborted s) (settled s)).

Definition acquire (limit : Z) (ticket : nat) (signal : option nat) (s : ChannelLimiter) : ChannelLimiter :=
  if match signal with Some n => bool_decide (n ∈ aborted s) | None => false end
  then reject ticket s
  else if active s <? limit
  then resolve ticket
         (Mk (active s + 1) (waiting s) (listeners s) (aborted s) (settled s))
  else Mk (active s) (waiting s ++ [ticket])
         (listeners s ++ match signal with Some n => [(n, ticket)] | None => [] end)
         (aborted s) (settled s).

Definition release (s : ChannelLimiter) : ChannelLimiter :=
  let s' := Mk (Z.max 0 (active s - 1)) (waiting s) (listeners s) (aborted s) (settled s) in
  match waiting s with
  | next :: rest =>
      admit_next next (Mk (active s') rest (listeners s') (aborted s') (settled s'))
  | [] => s'
  end.

(** [controller.abort()]: the listeners of the signal run once, in the order
    they were added; a signal aborts once. *)
Definition heard (signal : nat) (s : ChannelLimiter) : list nat :=
  map snd (List.filter (fun l => l.1 ≡? signal) (listeners s)).

Definition abort (signal : nat) (s : ChannelLimiter) : ChannelLimiter :=
  if bool_decide (signal ∈ aborted s) then s
  else fold_left (fun s ticket => abandon ticket s) (heard signal s)
         (Mk (active s) (waiting s) (List.filter (fun l => negb (l.1 ≡? signal)) (listeners s))
            (aborted s ++ [signal]) (settled s)).

(** *** What callers do with it

    Every call has a ticket of its own and releases only after its promise
    resolved, once: [try { ... } finally { limiter.release() }] of
    packages/transport/src/ssh/connection.ts. *)
Definition admitted (s : ChannelLimiter) : list nat := map fst (List.filter snd (settled s)).

Definition abandoned (s : ChannelLimiter) : list nat := map fst (List.filter (fun p => negb p.2) (settled s)).

Record world := World { limiter : ChannelLimiter; arrivals : list nat; released : list nat }.

Definition holders (w : world) : list nat :=
  List.filter (fun ticket => negb (bool_decide (ticket ∈ released w))) (admitted (limiter w)).

Inductive step (limit : Z) : world -> world -> Prop :=
  | step_acquire w ticket signal :
      ticket ∉ arrivals w ->
      step limit w
        (World (acquire limit ticket signal (limiter w)) (arrivals w ++ [ticket]) (released w))
  | step_abort w signal :
      step limit w (World (abort signal (limiter w)) (arrivals w) (released w))
  | step_release w ticket :
      ticket ∈ holders w ->
      step limit w (World (release (limiter w)) (arrivals w) (released w ++ [ticket])).

Definition reachable (limit : Z) : world -> Prop :=
  rtc (step limit) (World createChannelLimiter [] []).

Record invariant (limit : Z) (w : world) : Prop := {
  counts_the_holders : active (limiter w) = Z.of_nat (length (holders w));
  within_limit : active (limiter w) <= limit;
  idle_before_waiting : waiting (limiter w) <> [] -> active (limiter w) = limit;
  in_order : admitted (limiter w) ++ waiting (limiter w) `sublist_of` arrivals w;
  all_accounted :
    arrivals w ≡ₚ admitted (limiter w) ++ abandoned (limiter w) ++ waiting (limiter w);
  one_each : NoDup (arrivals w);
  releases_are_of_admitted : forall ticket, ticket ∈ released w -> ticket ∈ admitted (limiter w);
  listeners_wait : NoDup (map snd (listeners (limiter w)))
    /\ forall l, In l (listeners (limiter w)) -> l.2 ∈ waiting (limiter w) }.

(** *** What the operations do to the promises *)

Lemma admitted_resolve ticket s : admitted (resolve ticket s) = admitted s ++ [ticket].
Proof. unfold admitted. simpl. by rewrite List.filter_app, map_app. Qed.

Lemma abandoned_resolve ticket s : abandoned (resolve ticket s) = abandoned s.
Proof. unfold abandoned. simpl. by rewrite List.filter_app, app_nil_r. Qed.

Lemma admitted_reject ticket s : admitted (reject ticket s) = admitted s.
Proof. unfold admitted. simpl. by rewrite List.filter_app, app_nil_r. Qed.

Lemma abandoned_reject ticket s : abandoned (reject ticket s) = abandoned s ++ [ticket].
Proof. unfold abandoned. simpl. by rewrite List.filter_app, map_app. Qed.

Lemma remove_first_sublist ticket l : remove_first ticket l `sublist_of` l.
Proof.
  induction l as [|x l IH]; simpl; [done|]. destruct (x ≡? ticket); [by apply sublist_cons|].
  by apply sublist_skip.
Qed.

Lemma remove_first_perm ticket l : ticket ∈ l -> ticket :: remove_first ticket l ≡ₚ l.
Proof.
  induction l as [|x l IH]; simpl; [by rewrite elem_of_nil|]. rewrite elem_of_cons. intros H.
  destruct (x ≡? ticket) eqn:E; tests; subst; [done|].
  rewrite Permutation_swap, IH; [done|]. destruct H as [->|H]; [congruence|done].
Qed.

Lemma remove_first_others ticket other l :
  other <> ticket -> other ∈ l -> other ∈ remove_first ticket l.
Proof.
  intros Hne. induction l as [|x l IH]; simpl; [done|]. rewrite elem_of_cons.
  destruct (x ≡? ticket) eqn:E; tests; subst; rewrite ?elem_of_cons; intros [->|H]; auto; congruence.
Qed.

(** What aborting changes when it abandons the calls [due]. *)
Lemma abandon_all due : forall s,
  NoDup due -> (forall ticket, ticket ∈ due -> ticket ∈ waiting s) ->
  let s' := fold_left (fun s ticket => abandon ticket s) due s in
  active s' = active s /\ listeners s' = listeners s /\ admitted s' = admitted s
  /\ waiting s' `sublist_of` waiting s
  /\ abandoned s' ++ waiting s' ≡ₚ abandoned s ++ waiting s
  /\ (forall ticket, ticket ∉ due -> ticket ∈ waiting s -> ticket ∈ waiting s').
Proof.
  induction due as [|ticket due IH]; intros s Hdue Hwait; [by split_and!|]. simpl.
  apply NoDup_cons in Hdue as [Hnot Hdue].
  destruct (IH (abandon ticket s)) as (Ha & Hl & Hadm & Hsub & Hperm & Hin); [done| |].
  { intros other Hother. simpl. apply remove_first_others; [by intros ->|].
    apply Hwait. by apply elem_of_cons; right. }
  split_and!.
  - by rewrite Ha.
  - by rewrite Hl.
  - rewrite Hadm. unfold abandon. by rewrite admitted_reject.
  - etrans; [exact Hsub|]. apply remove_first_sublist.
  - rewrite Hperm. unfold abandon. rewrite abandoned_reject, <- app_assoc. simpl.
    rewrite remove_first_perm; [done|]. apply Hwait. apply elem_of_cons. by left.
  - intros other Hother H. rewrite not_elem_of_cons in Hother. apply Hin; [tauto|].
    simpl. apply remove_first_others; tauto.
Qed.

(** *** The invariant *)

Lemma invariant_start limit : 0 <= limit -> invariant limit (World createChannelLimiter [] []).
Proof.
  intros H. split; simpl; try done; [constructor|split; [constructor|by intros l []]].
Qed.

Lemma admitted_once limit w : invariant limit w -> NoDup (admitted (limiter w)).
Proof.
  intros H. pose proof (one_each _ _ H) as Hn. rewrite (all_accounted _ _ H) in Hn.
  by apply NoDup_app in Hn as [? _].
Qed.

Lemma waiting_once limit w : invariant limit w ->
  NoDup (waiting (limiter w)) /\ forall ticket, ticket ∈ waiting (limiter w) -> ticket ∉ admitted (limiter w).
Proof.
  intros H. pose proof (one_each _ _ H) as Hn. rewrite (all_accounted _ _ H) in Hn.
  apply NoDup_app in Hn as (_ & Hd & Hn). apply NoDup_app in Hn as (_ & _ & Hn).
  split; [done|]. intros ticket Hw Ha. apply (Hd ticket Ha). apply elem_of_app. by right.
Qed.

(** A call that has not been released holds its place. *)
Lemma new_holder w s ticket arrived :
  admitted s = admitted (limiter w) ++ [ticket] -> ticket ∉ released w ->
  holders (World s arrived (released w)) = holders w ++ [ticket].
Proof.
  intros Ha Hr. unfold holders. simpl. rewrite Ha, List.filter_app. simpl.
  by rewrite (bool_decide_eq_false_2 _ Hr).
Qed.

Lemma released_seen limit w ticket :
  invariant limit w -> ticket ∉ arrivals w ->
  (ticket ∉ released w) /\ (ticket ∉ waiting (limiter w)).
Proof.
  intros H Hnew. rewrite (all_accounted _ _ H), !not_elem_of_app in Hnew.
  split; [|tauto]. intros Hr. apply (releases_are_of_admitted _ _ H) in Hr. tauto.
Qed.

(** The calls that arrived, one more. *)
Lemma arrival limit w ticket :
  invariant limit w -> ticket ∉ arrivals w -> NoDup (arrivals w ++ [ticket]).
Proof.
  intros H Hnew. apply NoDup_app. split_and!; [apply H| |by apply NoDup_singleton].
  intros x Hx ->%list_elem_of_singleton. done.
Qed.

Lemma acquire_refused limit w ticket :
  invariant limit w -> ticket ∉ arrivals w ->
  invariant limit (World (reject ticket (limiter w)) (arrivals w ++ [ticket]) (released w)).
Proof.
  intros H Hnew.
  split; cbn [limiter arrivals released]; rewrite ?admitted_reject, ?abandoned_reject;
    try apply H; [| | |by eapply arrival].
  - etrans; [exact (counts_the_holders _ _ H)|]. unfold holders. simpl. by rewrite admitted_reject.
  - etrans; [apply H|]. by apply sublist_inserts_r.
  - rewrite (all_accounted _ _ H) at 1. simpl. solve_Permutation.
Qed.

Lemma acquire_at_once limit w ticket :
  invariant limit w -> ticket ∉ arrivals w -> active (limiter w) < limit ->
  invariant limit
    (World (resolve ticket (Mk (active (limiter w) + 1) (waiting (limiter w)) (listeners (limiter w))
              (aborted (limiter w)) (settled (limiter w))))
       (arrivals w ++ [ticket]) (released w)).
Proof.
  intros H Hnew Hroom. destruct (released_seen _ _ _ H Hnew) as [Hr Hw].
  assert (Hidle : waiting (limiter w) = []).
  { destruct (waiting (limiter w)) eqn:Ew; [done|].
    pose proof (idle_before_waiting _ _ H) as Hi. rewrite Ew in Hi. specialize (Hi ltac:(done)). lia. }
  pose proof (in_order _ _ H) as Ho. pose proof (all_accounted _ _ H) as Hp.
  rewrite Hidle in Ho, Hp. rewrite app_nil_r in Ho.
  split; cbn [limiter arrivals released]; rewrite ?admitted_resolve, ?abandoned_resolve; simpl;
    rewrite ?Hidle; try done; [| | | |by eapply arrival| |].
  - rewrite (counts_the_holders _ _ H). erewrite (new_holder w); [|by rewrite admitted_resolve|done].
    rewrite length_app. simpl. lia.
  - lia.
  - rewrite app_nil_r. by apply sublist_app.
  - rewrite Hp at 1. solve_Permutation.
  - intros x Hx. apply elem_of_app. left. by apply H.
  - rewrite <- Hidle. apply H.
Qed.

Lemma acquire_queued limit w ticket signal :
  invariant limit w -> ticket ∉ arrivals w -> ~ active (limiter w) < limit ->
  invariant limit
    (World (Mk (active (limiter w)) (waiting (limiter w) ++ [ticket])
              (listeners (limiter w) ++ match signal with Some n => [(n, ticket)] | None => [] end)
              (aborted (limiter w)) (settled (limiter w)))
       (arrivals w ++ [ticket]) (released w)).
Proof.
  intros H Hnew Hfull. destruct (released_seen _ _ _ H Hnew) as [Hr Hw].
  destruct (listeners_wait _ _ H) as [Hl Hin].
  split; cbn [limiter arrivals released waiting active listeners]; try apply H.
  - intros _. pose proof (within_limit _ _ H). lia.
  - unfold admitted. simpl. rewrite app_assoc. apply sublist_app; [apply H|done].
  - unfold admitted, abandoned. simpl. rewrite (all_accounted _ _ H) at 1. solve_Permutation.
  - by eapply arrival.
  - split.
    + destruct signal as [n|]; rewrite ?app_nil_r; [|done]. rewrite map_app. apply NoDup_app.
      split_and!; [done| |by apply NoDup_singleton]. intros x Hx Hs.
      apply list_elem_of_singleton in Hs. simpl in Hs. subst x. apply Hw.
      apply list_elem_of_In, in_map_iff in Hx as (l & El & Hx). rewrite <- El. by apply Hin.
    + intros l Hl'. apply in_app_iff in Hl'. apply elem_of_app. destruct Hl' as [Hl'|Hl'].
      { left. by apply Hin. }
      right. destruct signal as [n|]; [|done]. destruct Hl' as [Hl'|[]]. subst l.
      by apply list_elem_of_singleton.
Qed.

(** Listeners are of different calls. *)
Lemma listener_inj (ls : list (nat * nat)) l l' :
  NoDup (map snd ls) -> In l ls -> In l' ls -> l.2 = l'.2 -> l = l'.
Proof.
  induction ls as [|x ls IH]; simpl; [done|]. intros [Hx Hn]%NoDup_cons Hl Hl' E.
  assert (Hout : forall y, In y ls -> x.2 <> y.2).
  { intros y Hy Exy. apply Hx. rewrite Exy. by apply list_elem_of_In, in_map. }
  destruct Hl as [<-|Hl], Hl' as [<-|Hl']; [done| | |auto]; exfalso; by eapply Hout.
Qed.

Lemma some_listeners_once p (ls : list (nat * nat)) :
  NoDup (map snd ls) -> NoDup (map snd (List.filter p ls)).
Proof.
  intros H. eapply sublist_NoDup; [exact H|].
  induction ls as [|x ls IH]; simpl; [done|]. apply NoDup_cons in H as [_ H].
  destruct (p x); [by apply sublist_skip, IH|by apply sublist_cons, IH].
Qed.

Lemma in_heard signal s ticket :
  ticket ∈ heard signal s <-> exists l, In l (listeners s) /\ l.1 = signal /\ l.2 = ticket.
Proof.
  unfold heard. rewrite list_elem_of_In, in_map_iff.
  split; intros (l & H); exists l; rewrite filter_In, bool_decide_eq_true in *; tauto.
Qed.

Lemma abort_keeps limit w signal :
  invariant limit w ->
  invariant limit (World (abort signal (limiter w)) (arrivals w) (released w)).
Proof.
  intros H. unfold abort. destruct (bool_decide _); [by destruct w|].
  destruct (listeners_wait _ _ H) as [Hl Hin].
  set (s := Mk _ _ _ _ _).
  destruct (abandon_all (heard signal (limiter w)) s) as (Ha & Hls & Hadm & Hsub & Hperm & Hkept).
  { by apply some_listeners_once. }
  { intros ticket (l & Hin' & _ & <-)%in_heard. by apply Hin. }
  set (s' := fold_left _ _ _) in *.
  change (admitted s) with (admitted (limiter w)) in *.
  change (abandoned s) with (abandoned (limiter w)) in *.
  change (waiting s) with (waiting (limiter w)) in *.
  change (active s) with (active (limiter w)) in *.
  split; cbn [limiter arrivals released]; rewrite ?Ha, ?Hadm.
  - etrans; [exact (counts_the_holders _ _ H)|]. unfold holders. simpl. by rewrite Hadm.
  - apply H.
  - intros Hne. apply (idle_before_waiting _ _ H). intros E. rewrite E in Hsub.
    by apply sublist_nil_r in Hsub.
  - etrans; [|apply (in_order _ _ H)]. by apply sublist_app.
  - rewrite Hperm. apply H.
  - apply H.
  - apply H.
  - rewrite Hls. split; [by apply some_listeners_once|].
    intros l [Hl' Hs]%filter_In. apply negb_true_iff, bool_decide_eq_false in Hs.
    apply Hkept; [|by apply Hin]. intros (l' & Hin' & Hs' & E)%in_heard.
    apply Hs. by rewrite <- (listener_inj _ _ _ Hl Hin' Hl' E).
Qed.

(** A holder fewer. *)
Lemma one_holder_less w ticket s arrived :
  NoDup (admitted (limiter w)) -> ticket ∈ holders w -> admitted s = admitted (limiter w) ->
  S (length (holders (World s arrived (released w ++ [ticket])))) = length (holders w).
Proof.
  unfold holders. simpl. intros Hn Hh ->.
  induction (admitted (limiter w)) as [|x l IH]; simpl in *; [by apply not_elem_of_nil in Hh|].
  apply NoDup_cons in Hn as [Hx Hn].
  destruct (bool_decide (x ∈ released w)) eqn:Ex; simpl in *; tests.
  - rewrite bool_decide_eq_true_2 by (apply elem_of_app; by left). simpl. by apply IH.
  - destruct (decide (x = ticket)) as [->|Hne].
    + rewrite bool_decide_eq_true_2
        by (apply elem_of_app; right; by apply list_elem_of_singleton).
      simpl. f_equal. f_equal. apply filter_ext_in. intros y Hy. f_equal. apply bool_decide_ext.
      rewrite elem_of_app, list_elem_of_singleton. split; [|by left].
      intros [?| ->]; [done|]. exfalso. apply Hx. by apply list_elem_of_In.
    + rewrite bool_decide_eq_false_2
        by (rewrite elem_of_app, list_elem_of_singleton; tauto).
      simpl. f_equal. apply IH; [done|]. apply elem_of_cons in Hh as [->|Hh]; done.
Qed.

Lemma holder_admitted limit w ticket :
  invariant limit w -> ticket ∈ holders w ->
  forall x, x ∈ released w ++ [ticket] -> x ∈ admitted (limiter w).
Proof.
  intros H Hh x Hx. apply elem_of_app in Hx as [Hx|Hx]; [by apply H|].
  apply list_elem_of_singleton in Hx. subst x.
  apply list_elem_of_In, filter_In in Hh. apply list_elem_of_In, Hh.
Qed.

Lemma release_unqueued limit w ticket :
  invariant limit w -> ticket ∈ holders w -> waiting (limiter w) = [] ->
  invariant limit
    (World (Mk (Z.max 0 (active (limiter w) - 1)) [] (listeners (limiter w)) (aborted (limiter w))
              (settled (limiter w))) (arrivals w) (released w ++ [ticket])).
Proof.
  intros H Hh Ew. pose proof (counts_the_holders _ _ H) as Hc.
  pose proof (one_holder_less w ticket (limiter w) (arrivals w) (admitted_once _ _ H) Hh eq_refl) as Hless.
  pose proof (in_order _ _ H) as Ho. pose proof (all_accounted _ _ H) as Hp.
  pose proof (listeners_wait _ _ H) as Hl. pose proof (within_limit _ _ H). rewrite Ew in Ho, Hp, Hl.
  split; cbn [limiter arrivals released active waiting listeners]; try done; [|lia|apply H|].
  - unfold holders in *. simpl in *. unfold admitted in *. simpl in *. lia.
  - by apply (holder_admitted limit).
Qed.

Lemma release_queued limit w ticket next rest :
  invariant limit w -> ticket ∈ holders w -> waiting (limiter w) = next :: rest ->
  invariant limit (World (release (limiter w)) (arrivals w) (released w ++ [ticket])).
Proof.
  intros H Hh Ew. pose proof (counts_the_holders _ _ H) as Hc.
  pose proof (one_holder_less w ticket (limiter w) (arrivals w) (admitted_once _ _ H) Hh eq_refl) as Hless.
  pose proof (in_order _ _ H) as Ho. pose proof (all_accounted _ _ H) as Hp.
  destruct (listeners_wait _ _ H) as [Hl Hin]. pose proof (within_limit _ _ H).
  destruct (waiting_once _ _ H) as [Hw Hwa].
  unfold release. rewrite Ew in *. unfold admit_next.
  assert (Hnext : next ∉ released w ++ [ticket]).
  { intros Hx. apply (holder_admitted limit) in Hx; [|done|done].
    by apply (Hwa next); [apply elem_of_cons; left|]. }
  split; cbn [limiter arrivals released]; rewrite ?admitted_resolve, ?abandoned_resolve.
  - erewrite (new_holder (World (limiter w) (arrivals w) (released w ++ [ticket])));
      [|by rewrite admitted_resolve|done].
    rewrite length_app. simpl. unfold holders in *. simpl in *. lia.
  - simpl. lia.
  - intros _. simpl. rewrite (idle_before_waiting _ _ H) in * by (by rewrite Ew). lia.
  - simpl. by rewrite <- app_assoc.
  - simpl. rewrite Hp. unfold admitted, abandoned. simpl. solve_Permutation.
  - apply H.
  - intros x Hx. apply elem_of_app. left. by apply (holder_admitted limit w ticket).
  - simpl. split; [by apply some_listeners_once|]. intros l [Hl' Hne]%filter_In.
    apply negb_true_iff, bool_decide_eq_false in Hne.
    apply Hin, elem_of_cons in Hl' as [?|?]; done.
Qed.

Lemma step_keeps limit w w' : invariant limit w -> step limit w w' -> invariant limit w'.
Proof.
  intros H Hstep. destruct Hstep as [w ticket signal Hnew|w signal|w ticket Hh].
  - unfold acquire. destruct (match signal with Some _ => _ | None => _ end).
    + by apply acquire_refused.
    + destruct (active (limiter w) <? limit) eqn:E; tests.
      * by apply acquire_at_once.
      * apply acquire_queued; [done|done|lia].
  - by apply abort_keeps.
  - destruct (waiting (limiter w)) as [|next rest] eqn:Ew; [|by eapply release_queued].
    unfold release. rewrite Ew. by apply release_unqueued.
Qed.

Lemma reachable_invariant limit w : 0 <= limit -> reachable limit w -> invariant limit w.
Proof.
  intros Hlimit Hw. pose proof (invariant_start limit Hlimit) as H. revert H.
  induction Hw as [|w1 w2 w3 Hstep _ IH]; [done|]. intros H. apply IH. by eapply step_keeps.
Qed.

(** Releases serve the queue from its head. *)
Lemma releases_serve_the_queue n : forall s,
  admitted (Nat.iter n release s) = admitted s ++ take n (waiting s)
  /\ waiting (Nat.iter n release s) = drop n (waiting s).
Proof.
  induction n as [|n IH]; intros s; [by rewrite app_nil_r|]. rewrite Nat.iter_succ_r.
  destruct (IH (release s)) as [-> ->]. unfold release.
  destruct (waiting s) as [|next rest]; simpl; [by rewrite take_nil, drop_nil|].
  unfold admit_next. rewrite admitted_resolve, <- app_assoc. simpl. done.
Qed.

(** However calls of [acquire], aborted waits and releases interleave, as
    long as a call releases at most once and only after its promise resolved:
    at most [limit] calls hold a channel and [active] counts them; a call waits
    only while the limit is used up; channels are given in the order the calls
    came, [n] further releases giving them to the first [n] that wait; and every
    call is exactly one of admitted, abandoned and waiting. *)
Theorem channels_are_limited_and_fair limit w :
  0 <= limit -> reachable limit w ->
  active (limiter w) = Z.of_nat (length (holders w)) /\ active (limiter w) <= limit
  /\ (waiting (limiter w) <> [] -> active (limiter w) = limit)
  /\ (admitted (limiter w) ++ waiting (limiter w) `sublist_of` arrivals w)
  /\ (arrivals w ≡ₚ admitted (limiter w) ++ abandoned (limiter w) ++ waiting (limiter w))
  /\ NoDup (arrivals w)
  /\ forall n, admitted (Nat.iter n release (limiter w))
       = admitted (limiter w) ++ take n (waiting (limiter w)).
Proof.
  intros Hlimit Hw. destruct (reachable_invariant limit w Hlimit Hw).
  split_and!; try done. intros n. apply releases_serve_the_queue.
Qed.

(** Three calls and one channel: the second waits with a signal that aborts,
    the third gets the channel when the first releases it. *)
Definition three_calls : world :=
  World (release (abort 7%nat (acquire 1 3%nat (Some 8%nat) (acquire 1 2%nat (Some 7%nat)
           (acquire 1 1%nat (Some 6%nat) createChannelLimiter)))))
    [1; 2; 3]%nat [1]%nat.

Lemma channels_are_limited_and_fair_witness :
  (holders three_calls = [3]%nat /\ abandoned (limiter three_calls) = [2]%nat)
  /\ active (limiter three_calls) = Z.of_nat (length (holders three_calls)).
Proof.
  split; [split; vm_compute; reflexivity|].
  refine (proj1 (channels_are_limited_and_fair 1 three_calls _ _)); [lia|].
  eapply rtc_l; [apply (step_acquire 1 _ 1%nat (Some 6%nat)); vm_compute; by intros ?%not_elem_of_nil|].
  eapply rtc_l; [apply (step_acquire 1 _ 2%nat (Some 7%nat)); by apply (bool_decide_unpack _)|].
  eapply rtc_l; [apply (step_acquire 1 _ 3%nat (Some 8%nat)); by apply (bool_decide_unpack _)|].
  eapply rtc_l; [apply (step_abort 1 _ 7%nat)|].
  eapply rtc_l; [apply (step_release 1 _ 1%nat); by apply (bool_decide_unpack _)|].
  apply rtc_refl.
Defined.

