(* ===== verification/Shell.v ===== *)
(** The commands that run on a machine.

    packages/core/src/instance/unit.ts builds the commands that lay out, write
    and start a bot, packages/core/src/instance/removal.ts those that remove
    it, console.ts the one that reads its console;
    packages/core/src/host/profile.ts and deadline.ts have the parts they
    share.  The answers of the first are read back by [parseUnitStartState]
    and [parseUnitExitState]. *)

From S2P Require Import Prelude Calendar Observer.

#[local] Set Warnings "-clear-no-such-hyp".

(** ** Quoting *)

(** [value.replace(/'/g, "'\\''")] *)
Fixpoint escape_quotes (value : string) : string :=
  match value with
  | EmptyString => EmptyString
  | String c rest => if c ≡? "'"%char then "'\''" +:+ escape_quotes rest
                     else String c (escape_quotes rest)
  end.

Definition shellQuote (value : string) : string := "'" +:+ escape_quotes value +:+ "'".

(** A text between double quotes, as the commands write it. *)
Definition dq (text : string) : string := QUOTE +:+ text +:+ QUOTE.

(** ** packages/core/src/host/profile.ts, deadline.ts and instance/exit-code.ts *)

Definition INSTANCES_PATH : string := ".local/share/open-mcc".
Definition UNITS_PATH : string := ".config/systemd/user".
Definition INSTANCES_ROOT : string := dq "$HOME" +:+ "/" +:+ INSTANCES_PATH.
Definition UNIT_DIR : string := dq "$HOME" +:+ "/" +:+ UNITS_PATH.

Definition systemctl (args : string) : string := RUNTIME_DIR_PREFIX +:+ "systemctl --user " +:+ args.
Definition podman (args : string) : string := RUNTIME_DIR_PREFIX +:+ "podman " +:+ args.

Definition withDeadline (killAfterSeconds seconds : Z) (command : string) : string :=
  "timeout -k " +:+ decimal killAfterSeconds +:+ " " +:+ decimal seconds +:+ " " +:+ command
    +:+ "; s=$?; exit $s".

Definition endedByDeadline (exitCode : Z) : bool := (exitCode =? 124) || (exitCode =? 137).

Inductive ExitMeaning := clean | kicked | connection_lost | login_failed | unknown_exit.

#[global] Instance ExitMeaning_eq_dec : EqDecision ExitMeaning.
Proof. solve_decision. Defined.

Definition interpretExitCode (code : Z) : ExitMeaning :=
  if code =? 0 then clean
  else if code =? 2 then kicked
  else if code =? 3 then connection_lost
  else if code =? 4 then login_failed
  else unknown_exit.

Definition shouldRestartOn (meaning : ExitMeaning) : bool :=
  match meaning with kicked | connection_lost | unknown_exit => true | _ => false end.

(** ** unit.ts *)

Definition layout_config : string := "config".
Definition layout_state : string := "state".
Definition layout_replays : string := "replays".
Definition layout_recordingCache : string := "recording-cache".
Definition layout_unitEnv : string := "unit.env".
Definition layout_env : string := "env".
Definition layout_control : string := "control".
Definition layout_collectLock : string := "collect.lock".

Definition CONFIG_FILE_NAME : string := "MinecraftClient.ini".
Definition CONFIG_FILE_PATH : string := layout_config +:+ "/" +:+ CONFIG_FILE_NAME.

Definition internal (message : string) : thrown := ThrownError InternalError message.

Definition LIVE_CONTROL_TOKEN_ENV : string := "MCC_MCP_AUTH_TOKEN".

(** [/^[0-9a-f]{32}$/] *)
Definition LIVE_CONTROL_TOKEN (value : string) : bool :=
  (String.length value =? 32)%nat
  && chars_all (fun c => let n := Ascii.nat_of_ascii c in
                         ((48 <=? n)%nat && (n <=? 57)%nat) || ((97 <=? n)%nat && (n <=? 102)%nat)) value.

Definition renderEnvironmentFile (liveControlToken : string) : result string :=
  if negb (LIVE_CONTROL_TOKEN liveControlToken)
  then Throw (internal "The live control token must be 32 lowercase hex characters")
  else Ok (LIVE_CONTROL_TOKEN_ENV +:+ "=" +:+ liveControlToken +:+ newline).

(** [/^[1-9][0-9]{0,4}$/] on the text of the number *)
Definition PORT_DIGITS (port : Z) : bool := (1 <=? port) && (port <=? 99999).

Definition renderUnitEnv (port : Z) : result string :=
  if negb (PORT_DIGITS port) || (65535 <? port)
  then Throw (internal "The live control port must be a whole number from 1 to 65535")
  else Ok ("OPEN_MCC_PORT=" +:+ decimal port +:+ newline).

Definition authUnitName (instanceId : string) : result string :=
  let+ id := validateInstanceId instanceId in Ok ("open-mcc-auth@" +:+ id +:+ ".service").

Definition stopAuthCommand (instanceId : string) : result string :=
  let+ name := authUnitName instanceId in
  let unit := shellQuote name in
  Ok (systemctl ("stop " +:+ unit) +:+ " || true; " +:+ systemctl ("reset-failed " +:+ unit)
        +:+ " || true").

Definition instanceDir (instanceId : string) : result string :=
  let+ id := validateInstanceId instanceId in Ok (INSTANCES_ROOT +:+ "/instances/" +:+ id).

Definition CONFIG_WRITE_KILL_AFTER_SECONDS : Z := 2.
Definition CONFIG_WRITE_DEADLINE_SECONDS : Z := 10.

(** [Buffer.byteLength(value, "utf8")] for code units below 256. *)
Fixpoint byteLength (value : string) : Z :=
  match value with
  | EmptyString => 0
  | String c rest => (if (Ascii.nat_of_ascii c <? 128)%nat then 1 else 2) + byteLength rest
  end.

Definition configWriteCommand (instanceId document : string) : result string :=
  let+ dir := instanceDir instanceId in
  let bytes := byteLength document in
  if bytes =? 0
  then Throw (internal
    "The settings document must not be empty, which the byte check cannot tell from a lost channel")
  else Ok (withDeadline CONFIG_WRITE_KILL_AFTER_SECONDS CONFIG_WRITE_DEADLINE_SECONDS
    ("sh -c " +:+ shellQuote (join_with "; " [
       "t=$(mktemp " +:+ dir +:+ "/" +:+ layout_config +:+ "/." +:+ CONFIG_FILE_NAME
         +:+ ".XXXXXX) || exit 1";
       "if cat > " +:+ dq "$t" +:+ " && [ " +:+ dq ("$(wc -c < " +:+ dq "$t" +:+ ")") +:+ " -eq "
         +:+ decimal bytes +:+ " ] && mv -f -- " +:+ dq "$t" +:+ " " +:+ dir +:+ "/"
         +:+ CONFIG_FILE_PATH +:+ "; then exit 0; fi";
       "rm -f -- " +:+ dq "$t";
       "exit 1"]))).

Definition ENV_WRITTEN : string := "written".
Definition ENV_KEPT : string := "kept".

(** The steps that write the environment, and the port when there is one. *)
Definition env_steps (environment : string) (liveControlPort : option Z) : result (list string) :=
  let bytes := byteLength environment in
  let temp := "t=$(mktemp " +:+ dq "$d" +:+ "/." +:+ layout_env +:+ ".XXXXXX) || exit 1" in
  let received :=
    "cat > " +:+ dq "$t" +:+ " && [ " +:+ dq ("$(wc -c < " +:+ dq "$t" +:+ ")") +:+ " -eq "
      +:+ decimal bytes +:+ " ]" in
  let renamed := "mv -f -- " +:+ dq "$t" +:+ " " +:+ dq "$d" +:+ "/" +:+ layout_env in
  let written := "printf " +:+ shellQuote (ENV_WRITTEN +:+ "\n") in
  match liveControlPort with
  | None =>
      Ok [temp;
          "if " +:+ received +:+ " && " +:+ renamed +:+ "; then " +:+ written +:+ "; else rm -f -- "
            +:+ dq "$t" +:+ "; exit 1; fi"]
  | Some port =>
      let+ unitEnv := renderUnitEnv port in
      Ok [temp;
          "u=$(mktemp " +:+ dq "$d" +:+ "/." +:+ layout_unitEnv +:+ ".XXXXXX) || { rm -f -- "
            +:+ dq "$t" +:+ "; exit 1; }";
          "if " +:+ received +:+ " && printf '%s' " +:+ shellQuote unitEnv +:+ " > " +:+ dq "$u"
            +:+ " && mv -f -- " +:+ dq "$u" +:+ " " +:+ dq "$d" +:+ "/" +:+ layout_unitEnv
            +:+ " && " +:+ renamed +:+ "; then " +:+ written +:+ "; else rm -f -- " +:+ dq "$t"
            +:+ " " +:+ dq "$u" +:+ "; exit 1; fi"]
  end.

Definition envWriteCommand (instanceId environment : string) (liveControlPort : option Z)
    : result string :=
  let+ steps := env_steps environment liveControlPort in
  let+ dir := instanceDir instanceId in
  Ok (join_with "; " (("d=" +:+ dir) :: steps)).

Record LayoutStep := MkLayoutStep {
  step_command : string; step_failure : string; step_stdin : option string }.

Definition instanceLayoutSteps (instanceId : string) (liveControlPort : Z)
    (liveControlToken configDocument : string) : result (list LayoutStep) :=
  let+ dir := instanceDir instanceId in
  let+ environment := renderEnvironmentFile liveControlToken in
  let+ unitEnv := renderUnitEnv liveControlPort in
  let+ writeEnv := envWriteCommand instanceId environment None in
  let+ writeConfig := configWriteCommand instanceId configDocument in
  let under name := dir +:+ "/" +:+ name in
  Ok [MkLayoutStep
        ("install -d -m 0700 " +:+ dir +:+ " " +:+ under layout_config +:+ " " +:+ under layout_state
           +:+ " " +:+ under layout_replays +:+ " " +:+ under layout_recordingCache)
        "Failed to create the instance directories" None;
      MkLayoutStep
        ("(test -p " +:+ under layout_control +:+ " || mkfifo -m 0600 " +:+ under layout_control
           +:+ ") && (umask 077; : > " +:+ under layout_collectLock +:+ " && printf '%s' "
           +:+ shellQuote unitEnv +:+ " > " +:+ under layout_unitEnv +:+ ")")
        "Failed to create the control fifo, the collector lock and the port file" None;
      MkLayoutStep writeEnv "Failed to write the instance environment" (Some environment);
      MkLayoutStep writeConfig "Failed to write the instance config" (Some configDocument)].

Definition RUNNING_UNIT_STATES : list string := ["active"; "activating"; "deactivating"; "reloading"].

Definition envWriteUnlessRunningCommand (instanceId environment : string) (liveControlPort : Z)
    : result string :=
  let+ name := unitName instanceId in
  let unit := shellQuote (name +:+ ".service") in
  let state := systemctl ("show -p ActiveState --value " +:+ unit) in
  let kept := "printf " +:+ shellQuote (ENV_KEPT +:+ "\n") in
  let+ write := envWriteCommand instanceId environment (Some liveControlPort) in
  Ok ("case " +:+ dq ("$(" +:+ state +:+ ")") +:+ " in " +:+ join_with "|" RUNNING_UNIT_STATES
        +:+ ") " +:+ kept +:+ ";; *) " +:+ write +:+ ";; esac").

(** [output.endsWith("\n") ? output.slice(0, -1) : output] *)
Fixpoint without_newline (output : string) : string :=
  match output with
  | EmptyString => EmptyString
  | String c EmptyString => if c ≡? NEWLINE then EmptyString else output
  | String c rest => String c (without_newline rest)
  end.

Inductive EnvAnswer := env_written | env_kept.

Definition parseEnvWriteAnswer (output : string) : option EnvAnswer :=
  let answer := without_newline output in
  if answer ≡? ENV_WRITTEN then Some env_written
  else if answer ≡? ENV_KEPT then Some env_kept
  else None.

Definition UNIT_START_TIMEOUT_MS : Z := 75000.

Definition startUnitCommand (instanceId : string) : result string :=
  let+ name := unitName instanceId in
  let unit := shellQuote name in
  let+ auth := authUnitName instanceId in
  let signIn := shellQuote auth in
  Ok (systemctl ("start " +:+ unit) +:+ " && " +:+ systemctl ("show -p ActiveState -p Result " +:+ unit)
        +:+ " && printf 'SignIn=%s\n' "
        +:+ dq ("$(" +:+ systemctl ("show -p ActiveState --value " +:+ signIn) +:+ ")")).

(** *** Answers *)

(** [/[a-z][a-z-]*/] over a whole text: the states of systemd. *)
Definition is_lower (c : Ascii.ascii) : bool :=
  let n := Ascii.nat_of_ascii c in (97 <=? n)%nat && (n <=? 122)%nat.

Definition UNIT_RESULT (value : string) : bool :=
  match value with
  | EmptyString => false
  | String c rest => is_lower c && chars_all (fun c => is_lower c || (c ≡? "-"%char)) rest
  end.

(** [text] after [key=], when it starts so. *)
Definition value_of (key line : string) : option string :=
  let start := key +:+ "=" in
  if startsWith start line then Some (slice_from (String.length start) line) else None.

(** The first key the line assigns, with its value. *)
Fixpoint assigned (keys : list string) (line : string) : option (string * string) :=
  match keys with
  | [] => None
  | key :: rest =>
      match value_of key line with
      | Some value => Some (key, value)
      | None => assigned rest line
      end
  end.

(** [values.has(key)] and [values.get(key)] on the entries read so far *)
Fixpoint value_for (key : string) (values : list (string * string)) : option string :=
  match values with
  | [] => None
  | (k, v) :: rest => if k ≡? key then Some v else value_for key rest
  end.

(** The loop over the lines: [None] is its [return undefined]. *)
Fixpoint read_lines (keys : list string) (ok : string -> bool) (lines : list string)
    (values : list (string * string)) : option (list (string * string)) :=
  match lines with
  | [] => Some values
  | line :: rest =>
      let? (key, value) := assigned keys line in
      if negb (ok value) then None
      else if bool_decide (is_Some (value_for key values)) then None
      else read_lines keys ok rest (values ++ [(key, value)])
  end.

Record UnitStart := MkUnitStart { activeState : string; start_result : string; signIn : string }.

Definition START_KEYS : list string := ["ActiveState"; "Result"; "SignIn"].

Definition parseUnitStartState (output : string) : option UnitStart :=
  let lines := split_on NEWLINE (without_newline output) in
  if negb (length lines =? 3)%nat then None
  else
    let? values := read_lines START_KEYS UNIT_RESULT lines [] in
    let? activeState := value_for "ActiveState" values in
    let? result := value_for "Result" values in
    let? signIn := value_for "SignIn" values in
    Some (MkUnitStart activeState result signIn).

Definition MAIN_PROCESS_EXITED : string := "exit-code".

Definition unitExitCommand (instanceId : string) : result string :=
  let+ name := unitName instanceId in
  Ok (systemctl ("show -p ExecMainStatus -p Result " +:+ shellQuote (name +:+ ".service"))).

(** [/^(?:0|[1-9][0-9]{0,2})$/] *)
Definition EXIT_STATUS (value : string) : option Z :=
  let? n := numberOfDigits value in
  if (value ≡? decimal n) && (n <=? 999) then Some n else None.

Record UnitExit := MkUnitExit { execMainStatus : Z; exit_result : string }.

(** [.+]: some text without line ends *)
Definition some_text (value : string) : bool :=
  (1 <=? String.length value)%nat
  && chars_all (fun c => negb (c ≡? NEWLINE) && negb (c ≡? "013"%char)) value.

Definition EXIT_KEYS : list string := ["ExecMainStatus"; "Result"].

Definition parseUnitExitState (output : string) : option UnitExit :=
  let lines := split_on NEWLINE (without_newline output) in
  if negb (length lines =? 2)%nat then None
  else
    let? values := read_lines EXIT_KEYS some_text lines [] in
    let? status := value_for "ExecMainStatus" values in
    let? result := value_for "Result" values in
    let? code := EXIT_STATUS status in
    if UNIT_RESULT result then Some (MkUnitExit code result) else None.

(** ** removal.ts *)

Definition REMOVAL_STEP_TIMEOUT_MS : Z := 15000.
Definition UNIT_STOP_TIMEOUT_MS : Z := 45000.
Definition DIRECTORY_DELETE_TIMEOUT_MS : Z := 40000.
Definition CONTAINERS_KILL_AFTER_SECONDS : Z := 3.
Definition CONTAINERS_DEADLINE_SECONDS : Z := 10.
Definition DIRECTORY_KILL_AFTER_SECONDS : Z := 5.
Definition DIRECTORY_DEADLINE_SECONDS : Z := 30.

Definition unitsOf (instanceId : string) : result string :=
  let+ name := unitName instanceId in
  let+ auth := authUnitName instanceId in
  Ok (join_with " " [shellQuote (name +:+ ".service"); shellQuote auth]).

Definition containersOf (instanceId : string) : result string :=
  let+ id := validateInstanceId instanceId in
  Ok ("open-mcc-" +:+ id +:+ " open-mcc-auth-" +:+ id).

Definition removeTimersCommand (instanceId : string) : result string :=
  let+ stop := sleepStopTimer instanceId in
  let+ start := sleepStartTimer instanceId in
  let timers := join_with " " [shellQuote stop; shellQuote start] in
  Ok ("for timer in " +:+ timers +:+ "; do if [ -e " +:+ UNIT_DIR +:+ "/" +:+ dq "$timer"
        +:+ " ]; then " +:+ systemctl ("disable --now " +:+ dq "$timer") +:+ " || exit 1; fi; rm -f -- "
        +:+ UNIT_DIR +:+ "/" +:+ dq "$timer" +:+ " || exit 1; done; " +:+ systemctl "daemon-reload").

Definition stopUnitsCommand (instanceId : string) : result string :=
  let+ units := unitsOf instanceId in Ok (systemctl ("stop " +:+ units)).

Definition removeContainersCommand (instanceId : string) : result string :=
  let+ containers := containersOf instanceId in
  Ok (withDeadline CONTAINERS_KILL_AFTER_SECONDS CONTAINERS_DEADLINE_SECONDS
        ("podman rm -f --ignore " +:+ containers)).

Definition verifyGoneCommand (instanceId : string) : result string :=
  let+ units := unitsOf instanceId in
  let+ containers := containersOf instanceId in
  Ok (join_with "; " [
    "failed=";
    "for unit in " +:+ units +:+ "; do state=$("
      +:+ systemctl ("show -p ActiveState --value " +:+ dq "$unit") +:+ ") || exit 1; case "
      +:+ dq "$state" +:+ " in inactive) ;; failed) failed=" +:+ dq "$failed $unit"
      +:+ " ;; *) exit 1 ;; esac; done";
    "for name in " +:+ containers +:+ "; do " +:+ podman ("container exists " +:+ dq "$name")
      +:+ "; case $? in 1) ;; *) exit 1 ;; esac; done";
    "[ -z " +:+ dq "$failed" +:+ " ] || " +:+ systemctl "reset-failed $failed"]).

Definition deleteDirectoryCommand (instanceId : string) : result string :=
  let+ directory := instanceDir instanceId in
  Ok (withDeadline DIRECTORY_KILL_AFTER_SECONDS DIRECTORY_DEADLINE_SECONDS
        ("sh -c '{ [ ! -e " +:+ directory +:+ " ] || chmod -R u+rwX -- " +:+ directory
           +:+ "; } && rm -rf -- " +:+ directory +:+ "'")).

(** ** console.ts *)

Definition CONSOLE_READ_DEADLINE_MS : Z := 15000.

Definition consoleCommand (instanceId : string) (lines : Z) : result string :=
  let+ id := validateInstanceId instanceId in
  if (lines <? 1) || (1000 <? lines)
  then Throw (internal "Console line count must be a whole number between 1 and 1000")
  else
    let+ name := unitName id in
    Ok (journalctl ("-u " +:+ shellQuote (name +:+ ".service") +:+ " --lines " +:+ decimal lines
          +:+ " --no-pager --output cat")).

Definition HostRefusedError (message : string) : thrown :=
  ThrownError (NamedError "HostRefusedError") message.

Definition readConsole {W} (run : string -> M W ExecResult) (instanceId : string) (lines : Z)
    : M W string :=
  let* command := lift (consoleCommand instanceId lines) in
  let* result := run command in
  if negb (exitCode result =? 0)
  then throw (HostRefusedError ("Failed to read console for instance " +:+ instanceId +:+ ": "
                                  +:+ trim (stderr result)))
  else ret (stdout result).

(** ** What a shell reads

    One word of the language of the POSIX shell, as far as it goes without
    expansions: text between single quotes and a character after a backslash
    stand for themselves, as do the plain characters; the word ends where a
    blank or an operator starts.  [None] is anything that would be expanded
    or is not closed. *)

Definition sh_stop (c : Ascii.ascii) : bool :=
  bool_decide (c ∈ [" "; "009"; "010"; ";"; "&"; "|"; "<"; ">"; "("; ")"]%char).

Definition sh_plain (c : Ascii.ascii) : bool :=
  is_id_char c || bool_decide (c ∈ ["."; "/"; "@"; ":"; "="; ","; "+"; "%"]%char).

Definition sh_cons (c : Ascii.ascii) (read : option (string * string)) : option (string * string) :=
  let? (word, rest) := read in Some (String c word, rest).

Fixpoint sh_word (quoted : bool) (text : string) : option (string * string) :=
  match text with
  | EmptyString => if quoted then None else Some (EmptyString, EmptyString)
  | String c rest =>
      if quoted then
        if c ≡? "'"%char then sh_word false rest else sh_cons c (sh_word true rest)
      else if c ≡? "'"%char then sh_word true rest
      else if c ≡? "\"%char then
        match rest with
        | String d rest' => if d ≡? NEWLINE then None else sh_cons d (sh_word false rest')
        | EmptyString => None
        end
      else if sh_stop c then Some (EmptyString, text)
      else if sh_plain c then sh_cons c (sh_word false rest)
      else None
  end.

(** The text a word is followed by. *)
Definition sh_ends (rest : string) : Prop :=
  match rest with EmptyString => True | String c _ => sh_stop c = true end.

Lemma sh_word_stop rest : sh_ends rest -> sh_word false rest = Some (EmptyString, rest).
Proof.
  destruct rest as [|c rest]; [done|]. simpl. intros H.
  assert (c <> "'"%char /\ c <> "\"%char) as [H1 H2] by (split; intros ->; discriminate H).
  by rewrite !bool_decide_eq_false_2, H.
Qed.

Lemma sh_word_quoted value rest :
  sh_ends rest -> sh_word true (escape_quotes value +:+ "'" +:+ rest) = Some (value, rest).
Proof.
  intros Hrest. induction value as [|c value IH]; [exact (sh_word_stop rest Hrest)|].
  cbn [escape_quotes]. destruct (c ≡? "'"%char) eqn:E; tests.
  - subst c. rewrite string_app_assoc.
    change (sh_cons "'" (sh_word true (escape_quotes value +:+ "'" +:+ rest))
            = Some (String "'" value, rest)). by rewrite IH.
  - rewrite string_app_cons.
    change ((if c ≡? "'"%char then sh_word false (escape_quotes value +:+ "'" +:+ rest)
             else sh_cons c (sh_word true (escape_quotes value +:+ "'" +:+ rest)))
            = Some (String c value, rest)).
    rewrite bool_decide_eq_false_2 by done. by rewrite IH.
Qed.

(** C40: whatever text the manager puts into a command with [shellQuote], a
    shell reads it back as one word with exactly that text: quotes, blanks,
    line ends, dollar signs and semicolons in it are part of the word and end
    nothing. *)
Theorem quoted_text_is_one_word value rest (Hrest : sh_ends rest) :
  sh_word false (shellQuote value +:+ rest) = Some (value, rest).
Proof.
  unfold shellQuote. rewrite !string_app_assoc. exact (sh_word_quoted value rest Hrest).
Qed.

Lemma quoted_text_is_one_word_witness :
  sh_word false (shellQuote "it's; rm -rf $HOME" +:+ " || true")
  = Some ("it's; rm -rf $HOME", " || true").
Proof. apply (quoted_text_is_one_word "it's; rm -rf $HOME" " || true"). reflexivity. Defined.

(** ** Answers read back *)

Definition assignment (kv : string * string) : string := kv.1 +:+ "=" +:+ kv.2.

Lemma slice_from_whole a b : slice_from (String.length a) (a +:+ b) = b.
Proof. rewrite <- (Nat.add_0_r (String.length a)). apply slice_from_app. Qed.

Lemma prefix_app a b : String.prefix a (a +:+ b) = true.
Proof.
  induction a as [|c a IH]; [by destruct b|]. rewrite string_app_cons. simpl.
  by destruct (Ascii.ascii_dec c c).
Qed.

Lemma prefix_split a s : String.prefix a s = true -> s = a +:+ slice_from (String.length a) s.
Proof.
  revert s. induction a as [|c a IH]; intros [|d s]; simpl; try done.
  destruct (Ascii.ascii_dec c d) as [->|]; [|done]. intros H. by rewrite string_app_cons, <- IH.
Qed.

Lemma value_of_spec key line value : value_of key line = Some value <-> line = assignment (key, value).
Proof.
  unfold value_of, startsWith, assignment. cbn [fst snd]. rewrite <- string_app_assoc. split.
  - destruct (String.prefix _ _) eqn:E; [|done]. intros [= <-]. by apply prefix_split.
  - intros ->. by rewrite prefix_app, slice_from_whole.
Qed.

(** No key is read in the assignment of another. *)
Definition apart (keys : list string) : Prop :=
  forall k k' v v', In k keys -> In k' keys -> assignment (k, v) = assignment (k', v') -> k = k'.

Lemma assigned_spec keys line key value :
  apart keys -> assigned keys line = Some (key, value) <-> In key keys /\ line = assignment (key, value).
Proof.
  intros Hap. assert (Hincl : incl keys keys) by apply incl_refl. revert Hincl.
  generalize keys at 1 3 4 as ks. induction ks as [|k ks IH]; intros Hincl; simpl; [naive_solver|].
  assert (Hks : incl ks keys) by (intros x Hx; apply Hincl; by right).
  destruct (value_of k line) as [v|] eqn:E.
  - apply value_of_spec in E. split; [intros [= <- <-]; split; [by left|done]|].
    intros [Hin ->]. assert (k = key) as ->.
    { symmetry. eapply Hap; [|apply Hincl; by left|exact E]. apply Hincl. exact Hin. }
    unfold assignment in E. cbn [fst snd] in E.
    assert (value_of key (assignment (key, value)) = Some v) as H1 by (by apply value_of_spec).
    rewrite (proj2 (value_of_spec key _ value) eq_refl) in H1. by injection H1 as <-.
  - rewrite (IH Hks). split; intros [Hin ->]; (split; [|done]); [by right|].
    destruct Hin as [->|Hin]; [|done].
    by rewrite (proj2 (value_of_spec key _ value) eq_refl) in E.
Qed.

Lemma value_for_none key values : value_for key values = None <-> ~ In key (map fst values).
Proof.
  induction values as [|[k v] values IH]; simpl; [by split; [intros _ []|]|].
  case_bool_decide as E; [naive_solver|]. rewrite IH. naive_solver.
Qed.

Lemma value_for_in key value values :
  NoDup (map fst values) -> value_for key values = Some value <-> In (key, value) values.
Proof.
  induction values as [|[k v] values IH]; simpl; [by split; [|intros []]|].
  intros [Hk Hn]%NoDup_cons. case_bool_decide as E.
  - subst k. split; [intros [= ->]; by left|]. intros [[= ->]|Hin]; [done|].
    exfalso. apply Hk. apply list_elem_of_In, in_map_iff. by exists (key, value).
  - rewrite (IH Hn). split; [by right|]. intros [[= ? ?]|?]; [congruence|done].
Qed.

(** The loop reads lines that assign different keys, in any order. *)
Lemma read_lines_spec keys ok lines values all :
  apart keys -> NoDup (map fst values) ->
  read_lines keys ok lines values = Some all <->
  exists read, lines = map assignment read /\ all = values ++ read
    /\ Forall (fun kv => In kv.1 keys /\ ok kv.2 = true) read /\ NoDup (map fst (values ++ read)).
Proof.
  intros Hap. revert values. induction lines as [|line lines IH]; intros values Hn; simpl.
  - split.
    + intros [= <-]. exists []. rewrite app_nil_r. by split_and!.
    + intros ([|? ?] & [=] & -> & _). by rewrite app_nil_r.
  - split.
    + destruct (assigned keys line) as [[k v]|] eqn:E; [|done].
      apply assigned_spec in E as [Hk ->]; [|done].
      destruct (negb (ok v)) eqn:Eok; [done|]. case_bool_decide as Es; [done|]. tests.
      assert (Hnew : NoDup (map fst (values ++ [(k, v)]))).
      { rewrite map_app. apply NoDup_app. split_and!; [done| |apply NoDup_singleton].
        intros x Hx ->%list_elem_of_singleton. simpl in Hx. apply Es.
        destruct (value_for k values) eqn:En; [by eexists|].
        apply value_for_none in En. by apply list_elem_of_In in Hx. }
      rewrite IH by done. intros (read & -> & -> & Hf & Hall). exists ((k, v) :: read).
      rewrite <- app_assoc in *. split_and!; [done|done|by constructor|done].
    + intros ([|[k v] read] & [= -> ->] & -> & Hf & Hall). apply Forall_cons in Hf as [[Hk Hv] Hf].
      rewrite (proj2 (assigned_spec keys _ k v Hap)) by done. simpl in Hv. rewrite Hv. simpl.
      rewrite bool_decide_eq_false_2.
      2:{ intros [v' Hs]. rewrite map_app in Hall. apply NoDup_app in Hall as (_ & Hd & _).
          destruct (value_for k values) eqn:En; [|done].
          apply (Hd k); [|by apply list_elem_of_In; left].
          destruct (decide (k ∈ map fst values)) as [|Hni]; [done|].
          rewrite list_elem_of_In in Hni. apply value_for_none in Hni. congruence. }
      change ((k, v) :: read) with ([(k, v)] ++ read) in *. rewrite app_assoc in *.
      apply IH; [|by exists read]. rewrite map_app in Hall. by apply NoDup_app in Hall as [? _].
Qed.

Lemma start_keys_apart : apart START_KEYS.
Proof.
  intros k k' v v' Hk Hk'. unfold assignment. simpl in *.
  repeat destruct Hk as [<-|Hk]; repeat destruct Hk' as [<-|Hk']; done.
Qed.

Lemma unit_result_free value : UNIT_RESULT value = true -> free_of NEWLINE value = true.
Proof.
  assert (Hc : forall c, is_lower c || (c ≡? "-"%char) = true -> negb (c ≡? NEWLINE) = true).
  { intros c H. apply negb_true_iff, bool_decide_eq_false. by intros ->. }
  destruct value as [|c value]; [done|]. simpl. intros H. tests. unfold free_of. simpl.
  rewrite (Hc c) by (by apply orb_true_iff; left). simpl.
  exact (chars_all_impl _ _ value Hc ltac:(assumption)).
Qed.

Lemma wanted_once (active result signIn : string) :
  NoDup [("ActiveState", active); ("Result", result); ("SignIn", signIn)].
Proof.
  apply (NoDup_fmap_1 (@fst string string)). by apply (bool_decide_unpack _).
Qed.

(** The lines of an answer, in some order, with a line end after the last or
    without. *)
Definition answer_of (values : list (string * string)) (output : string) : Prop :=
  exists lines, lines ≡ₚ map assignment values /\ without_newline output = join_with newline lines.

(** the answer of the command that starts a bot is understood exactly when
    it has the three states the command asks for, each once and each a word of
    systemd, in whatever order and with or without a line end at the end; what
    is understood is what was printed. *)
Theorem unit_start_is_read_back output active result signIn :
  parseUnitStartState output = Some (MkUnitStart active result signIn)
  <-> Forall (fun value => UNIT_RESULT value = true) [active; result; signIn]
      /\ answer_of [("ActiveState", active); ("Result", result); ("SignIn", signIn)] output.
Proof.
  set (wanted := [("ActiveState", active); ("Result", result); ("SignIn", signIn)]).
  unfold parseUnitStartState. split.
  - set (lines := split_on NEWLINE (without_newline output)).
    destruct (length lines =? 3)%nat eqn:El; [|done]. apply Nat.eqb_eq in El. simpl.
    destruct (read_lines _ _ _ _) as [all|] eqn:Er; [|done].
    apply read_lines_spec in Er as (read & Hlines & -> & Hf & Hn);
      [|apply start_keys_apart|constructor]. simpl in *.
    destruct (value_for "ActiveState" read) as [a|] eqn:Ea; [|done].
    destruct (value_for "Result" read) as [r|] eqn:Eb; [|done].
    destruct (value_for "SignIn" read) as [s|] eqn:Ec; [|done]. intros [= -> -> ->].
    apply value_for_in in Ea, Eb, Ec; [|done..].
    assert (Hp : wanted ≡ₚ read).
    { apply submseteq_length_Permutation.
      - apply NoDup_submseteq; [apply wanted_once|].
        intros kv Hkv. apply list_elem_of_In in Hkv. apply list_elem_of_In.
        by destruct Hkv as [<-|[<-|[<-|[]]]].
      - rewrite Hlines, length_map in El. simpl. lia. }
    split.
    + rewrite Forall_forall in Hf. repeat constructor;
        [apply (Hf ("ActiveState", active))|apply (Hf ("Result", result))
        |apply (Hf ("SignIn", signIn))]; by apply list_elem_of_In.
    + exists lines. split; [by rewrite Hlines, Hp|]. symmetry. apply (join_split NEWLINE).
  - intros (Hok & lines & Hlines & Htext).
    apply Permutation_map_inv in Hlines as (read & -> & Hp).
    assert (Hread : Forall (fun kv => In kv.1 START_KEYS /\ UNIT_RESULT kv.2 = true) read).
    { rewrite <- Hp. rewrite !Forall_cons in Hok. destruct Hok as (Ha & Hr & Hs & _).
      unfold wanted. rewrite !Forall_cons. simpl. split_and!; auto. }
    assert (Hn : NoDup (map fst read)) by (rewrite <- Hp; by apply (bool_decide_unpack _)).
    rewrite Htext. unfold newline. rewrite (split_join NEWLINE).
    2:{ intros E. apply map_eq_nil in E. subst read. by apply Permutation_nil_r in Hp. }
    2:{ apply Forall_map. eapply Forall_impl; [exact Hread|]. intros [k v] [Hk Hv]. simpl in *.
        unfold assignment. simpl. rewrite !free_of_app, (unit_result_free v Hv), andb_true_r.
        by destruct Hk as [<-|[<-|[<-|[]]]]. }
    rewrite length_map, <- (Permutation_length Hp). simpl.
    rewrite (proj2 (read_lines_spec START_KEYS UNIT_RESULT (map assignment read) [] read
      start_keys_apart NoDup_nil_2)) by (by exists read).
    assert (Hv : forall k v, In (k, v) wanted -> value_for k read = Some v).
    { intros k v Hin. apply value_for_in; [done|]. by rewrite <- Hp. }
    rewrite (Hv "ActiveState" active), (Hv "Result" result), (Hv "SignIn" signIn); simpl; auto.
Qed.
