(* ===== verification/Control.v ===== *)
(** Commands for a bot.

    packages/core/src/instance/control.ts turns what a member types into the
    line the client reads from its control channel;
    packages/contracts/src/command-credentials.ts hides the credentials such a
    command may carry. *)

From S2P Require Import Prelude Calendar Observer Shell.

(** ** command-credentials.ts

    The two patterns match at the start of a line and end with it, so a text
    is masked line by line; a line ends at a line feed or a carriage return. *)

Definition is_blank (c : ascii) : bool := (c ≡? " "%char) || (c ≡? "009"%char).
Definition is_end (c : ascii) : bool := (c ≡? NEWLINE) || (c ≡? "013"%char).

(** The longest prefix whose characters satisfy [p], and the rest. *)
Fixpoint take_while (p : ascii -> bool) (value : string) : string * string :=
  match value with
  | EmptyString => (EmptyString, EmptyString)
  | String c rest =>
      if p c then let (run, rest) := take_while p rest in (String c run, rest)
      else (EmptyString, value)
  end.

(** [[/!]{0,2}] *)
Definition is_sigil (c : ascii) : bool := (c ≡? "/"%char) || (c ≡? "!"%char).

#[global] Arguments is_sigil : simpl never.

Definition sigils (value : string) : string * string :=
  match value with
  | String a (String b rest) =>
      if is_sigil a then
        if is_sigil b then (String a (String b EmptyString), rest)
        else (String a EmptyString, String b rest)
      else (EmptyString, value)
  | String a EmptyString => if is_sigil a then (value, EmptyString) else (EmptyString, value)
  | EmptyString => (EmptyString, EmptyString)
  end.

(** [[ \t]+\S]: blanks, and something that is no white space after them *)
Definition argument_follows (rest : string) : bool :=
  let (gap, rest) := take_while is_blank rest in
  negb (gap ≡? EmptyString)
  && match rest with String c _ => negb (is_white c) | EmptyString => false end.

Definition AUTHME_COMMANDS : list string :=
  ["register"; "reg"; "r"; "password"; "changepassword"; "changepass"; "cp"].

Definition CREDENTIAL_COMMANDS : list string :=
  ["changepassword"; "changepass"; "unregister"; "register"; "login"; "unreg"; "reg"; "log"; "cp"; "l"].

Definition not_blank (c : ascii) : bool := negb (is_blank c).

(** The command of two words the first pattern looks for. *)
Definition two_words (first second : string) : bool :=
  (toLowerCase first ≡? "authme") && bool_decide (toLowerCase second ∈ AUTHME_COMMANDS)
  || (toLowerCase first ≡? "email") && (toLowerCase second ≡? "setpassword").

Definition masked_tail : string := " [redacted]".

(** A line the first pattern matches, masked. *)
Definition mask_two (line : string) : option string :=
  let (lead, rest) := take_while is_blank line in
  let (sigil, rest) := sigils rest in
  let (first, rest) := take_while not_blank rest in
  let (gap, rest) := take_while is_blank rest in
  let (second, rest) := take_while not_blank rest in
  if two_words first second && argument_follows rest
  then Some (lead +:+ sigil +:+ first +:+ gap +:+ second +:+ masked_tail) else None.

(** A line the second pattern matches, masked. *)
Definition mask_one (line : string) : option string :=
  let (lead, rest) := take_while is_blank line in
  let (sigil, rest) := sigils rest in
  let (word, rest) := take_while not_blank rest in
  if bool_decide (toLowerCase word ∈ CREDENTIAL_COMMANDS) && argument_follows rest
  then Some (lead +:+ sigil +:+ word +:+ masked_tail) else None.

(** [acc.replace(pattern, replacement)] on every line; [line] is the part of
    the current line read so far. *)
Fixpoint on_lines (f : string -> string) (line value : string) : string :=
  match value with
  | EmptyString => f line
  | String c rest =>
      if is_end c then f line +:+ String c (on_lines f EmptyString rest)
      else on_lines f (line +:+ String c EmptyString) rest
  end.

Definition or_same (mask : string -> option string) (line : string) : string :=
  match mask line with Some masked => masked | None => line end.

Definition maskCommandCredentials (command : string) : string :=
  on_lines (or_same mask_one) EmptyString (on_lines (or_same mask_two) EmptyString command).

(** ** control.ts *)

Definition CONTROL_TIMEOUT_MS : Z := 15000.

Definition controlPath (instanceId : string) : result string :=
  let+ dir := instanceDir instanceId in Ok (dir +:+ "/control").

Definition INTERNAL_COMMANDS : list string :=
  ["achievement"; "animation"; "bed"; "blockinfo"; "changeslot"; "chunk"; "dialog"; "dig";
   "dropitem"; "effects"; "enchant"; "entity"; "exit"; "follow"; "health"; "help"; "inventory";
   "list"; "look"; "minimap"; "move"; "nameitem"; "recipebook"; "reco"; "respawn"; "sneak"; "tab";
   "teams"; "tps"; "useblock"; "useitem"].

Definition ARGUMENT_FREE_COMMANDS : list string := ["reco"].

Definition INTERNAL_COMMAND_PREFIX : string := "!".

Definition is_control (c : ascii) : bool :=
  let n := Ascii.nat_of_ascii c in (n <? 32)%nat || (n =? 127)%nat.

Definition hasControlCharacter (value : string) : bool :=
  negb (chars_all (fun c => negb (is_control c)) value).

Definition DisallowedInternalCommandError (message : string) : thrown :=
  ThrownError (NamedError "DisallowedInternalCommandError") message.

Definition refuseDoubleSlashCredential (command : string) : result unit :=
  if negb (startsWith "//" command) || (maskCommandCredentials command ≡? command) then Ok tt
  else Throw (ThrownError (NamedError "DoubleSlashCredentialError")
         "A credential command written with two slashes never reaches the server").

Definition refuseStoredCredential (command : string) : result unit :=
  if maskCommandCredentials command ≡? command then Ok tt
  else Throw (ThrownError (NamedError "StoredCredentialError")
         "A command that could carry a credential is not stored, where every member could read it").

Definition controlLine (input : string) : result string :=
  if negb (startsWith INTERNAL_COMMAND_PREFIX input)
  then Ok (if startsWith "/" input then "/" +:+ input else input)
  else
    let words := split_white false (trim (slice_from 1 input)) in
    let name := match words with word :: _ => toLowerCase word | [] => EmptyString end in
    if negb (bool_decide (name ∈ INTERNAL_COMMANDS))
    then Throw (DisallowedInternalCommandError
           ("The client command '" +:+ name +:+ "' is not one this manager will run"))
    else
      let args := tail words in
      if (0 <? length args)%nat && bool_decide (name ∈ ARGUMENT_FREE_COMMANDS)
      then Throw (DisallowedInternalCommandError
             ("The client command '" +:+ name +:+ "' does not take an argument here"))
      else Ok ("/" +:+ join_with " " (name :: args)).

Definition sendableLine (command : string) : result string :=
  if hasControlCharacter command
  then Throw (internal "Instance commands must not contain a control character")
  else let+ _ := refuseDoubleSlashCredential command in controlLine command.

(** [transport.exec(command, timeoutMs, stdin)] *)
Definition Exec (W : Type) : Type := string -> Z -> option string -> M W ExecResult.

Definition sendCommand {W} (exec : Exec W) (instanceId command : string) : M W unit :=
  let* id := lift (validateInstanceId instanceId) in
  let* line := lift (sendableLine command) in
  let* path := lift (controlPath id) in
  let* result := exec ("cat > " +:+ path) CONTROL_TIMEOUT_MS (Some (line +:+ newline)) in
  if negb (exitCode result =? 0)
  then throw (HostRefusedError ("Failed to send command to instance " +:+ id +:+ ": "
                                  +:+ trim (stderr result)))
  else ret tt.

(** ** What reaches the client *)

Lemma chars_all_rev p s : chars_all p (String.rev s) = chars_all p s.
Proof.
  assert (H : forall s acc, chars_all p (String.rev_app s acc) = chars_all p s && chars_all p acc).
  { clear s. induction s as [|c s IH]; intros acc; [done|].
    cbn [String.rev_app chars_all]. rewrite IH. cbn [chars_all].
    by destruct (p c), (chars_all p s), (chars_all p acc). }
  unfold String.rev. rewrite H. by rewrite andb_true_r.
Qed.

Lemma chars_all_trim_start p s : chars_all p s = true -> chars_all p (trim_start s) = true.
Proof.
  induction s as [|c s IH]; [done|]. intros H. cbn [trim_start].
  destruct (is_white c); [|done]. apply IH. simpl in H. by apply andb_prop in H as [_ ?].
Qed.

Lemma chars_all_trim p s : chars_all p s = true -> chars_all p (trim s) = true.
Proof.
  intros H. unfold trim. rewrite chars_all_rev. apply chars_all_trim_start. rewrite chars_all_rev.
  by apply chars_all_trim_start.
Qed.

Lemma split_white_all p gap s :
  chars_all p s = true -> Forall (fun word => chars_all p word = true) (split_white gap s).
Proof.
  revert gap. induction s as [|c s IH]; intros gap H; [by repeat constructor|].
  cbn [chars_all] in H. apply andb_prop in H as [Hc Hs]. cbn [split_white].
  destruct (is_white c); [destruct gap; [by apply IH|constructor; [done|by apply IH]]|].
  specialize (IH false Hs). destruct (split_white false s) as [|word words].
  - repeat constructor. simpl. by rewrite Hc.
  - apply Forall_cons in IH as [Hw Hws]. constructor; [|done]. simpl. by rewrite Hc.
Qed.

Lemma chars_all_lower s :
  chars_all (fun c => negb (is_control c)) s = true ->
  chars_all (fun c => negb (is_control c)) (toLowerCase s) = true.
Proof.
  induction s as [|c s IH]; [done|]. cbn [toLowerCase chars_all]. intros H.
  apply andb_prop in H as [Hc Hs]. rewrite (IH Hs), andb_true_r. clear IH Hs s.
  revert Hc. destruct c as [[] [] [] [] [] [] [] []]; vm_compute; done.
Qed.

(** A client command the manager lets through. *)
Definition client_command (line : string) : Prop :=
  exists name args, line = "/" +:+ join_with " " (name :: args)
    /\ name ∈ INTERNAL_COMMANDS /\ (name ∈ ARGUMENT_FREE_COMMANDS -> args = []).

(** what a member types becomes one line of the client's control channel
    and nothing else: it has no control character, so no second line, and it
    is chat, a command for the server, or a command of the client whose name is
    on the list (and has no argument where none is taken). *)
Theorem sendable_line_is_allowed command line (Hline : sendableLine command = Ok line) :
  chars_all (fun c => negb (is_control c)) line = true
  /\ (startsWith "/" line = false /\ line = command
      \/ line = "/" +:+ command /\ startsWith "//" line = true
      \/ startsWith "!" command = true /\ client_command line).
Proof.
  unfold sendableLine in Hline. destruct (hasControlCharacter command) eqn:Ec; [done|].
  unfold hasControlCharacter in Ec. apply negb_false_iff in Ec.
  destruct (refuseDoubleSlashCredential command) as [u|e]; [|done]. cbn [rbind] in Hline.
  unfold controlLine in Hline. destruct (startsWith INTERNAL_COMMAND_PREFIX command) eqn:Ei; cbn [negb] in Hline.
  - assert (Hrest : chars_all (fun c => negb (is_control c)) (slice_from 1 command) = true).
    { destruct command as [|c command]; [done|]. cbn [chars_all] in Ec. by apply andb_prop in Ec as [_ ?]. }
    pose proof (split_white_all _ false _ (chars_all_trim _ _ Hrest)) as Hwords.
    destruct (split_white false (trim (slice_from 1 command))) as [|word words]; [by vm_compute in Hline|].
    apply Forall_cons in Hwords as [Hw Hws].
    case_bool_decide as Hname; [|done]. cbn [negb tail] in Hline.
    destruct ((0 <? length words)%nat && _) eqn:Ea; [done|]. injection Hline as <-. split.
    + change (chars_all (fun c => negb (is_control c))
                (String "/" (join_with " " (toLowerCase word :: words))) = true).
      cbn [chars_all]. apply andb_true_iff. split; [done|]. apply chars_all_join; [done|].
      constructor; [by apply chars_all_lower|done].
    + right. right. split; [done|]. exists (toLowerCase word), words. split_and!; [done|done|].
      intros Hf. rewrite bool_decide_eq_true_2, andb_true_r in Ea by done.
      destruct words; [done|]. discriminate Ea.
  - destruct (startsWith "/" command) eqn:Es; injection Hline as <-.
    + split; [by rewrite chars_all_app, Ec|]. right. left. split; [done|].
      destruct command as [|c command]; [done|]. unfold startsWith in *. simpl in *.
      destruct (Ascii.ascii_dec "/" c) as [<-|]; [by destruct command|done].
    + split; [done|]. by left.
Qed.

Lemma sendable_line_is_allowed_witness :
  chars_all (fun c => negb (is_control c)) "/health now" = true
  /\ (startsWith "/" "/health now" = false /\ "/health now" = "!HEALTH   now "
      \/ "/health now" = "/" +:+ "!HEALTH   now " /\ startsWith "//" "/health now" = true
      \/ startsWith "!" "!HEALTH   now " = true /\ client_command "/health now").
Proof. apply (sendable_line_is_allowed "!HEALTH   now "). vm_compute. reflexivity. Defined.

(** ** Credentials are hidden *)

Lemma take_while_app p a b :
  chars_all p a = true -> match b with EmptyString => True | String c _ => p c = false end ->
  take_while p (a +:+ b) = (a, b).
Proof.
  intros Ha Hb. induction a as [|c a IH].
  - destruct b as [|c b]; [done|]. simpl. by rewrite Hb.
  - rewrite string_app_cons. cbn [take_while chars_all] in *. apply andb_prop in Ha as [-> Ha].
    by rewrite (IH Ha).
Qed.

Lemma on_lines_one f line value :
  chars_all (fun c => negb (is_end c)) value = true -> on_lines f line value = f (line +:+ value).
Proof.
  revert line. induction value as [|c value IH]; intros line H; cbn [on_lines chars_all] in *.
  - by rewrite string_app_nil_r.
  - apply andb_prop in H as [Hc H]. apply negb_true_iff in Hc. rewrite Hc, (IH _ H).
    by rewrite string_app_assoc.
Qed.

(** The letters of the commands: neither blank, nor a sigil, nor a line end. *)
Definition is_letter (c : ascii) : bool := is_lower (lower_char c).

Lemma letter_plain c :
  is_letter c = true -> not_blank c = true /\ is_sigil c = false /\ is_end c = false.
Proof. destruct c as [[] [] [] [] [] [] [] []]; vm_compute; done. Qed.

Lemma letters_of_lower word w :
  toLowerCase word = w -> chars_all is_lower w = true -> chars_all is_letter word = true.
Proof.
  intros <-. induction word as [|c word IH]; [done|]. cbn [toLowerCase chars_all]. intros H.
  apply andb_prop in H as [Hc H]. unfold is_letter at 1. by rewrite Hc, (IH H).
Qed.

Lemma letters_plain word :
  chars_all is_letter word = true ->
  chars_all not_blank word = true /\ chars_all (fun c => negb (is_end c)) word = true.
Proof.
  intros H. split; (eapply chars_all_impl; [|exact H]); intros c Hc;
    destruct (letter_plain c Hc) as (? & ? & He); [done|]. by rewrite He.
Qed.

Definition blanks (gap : string) : Prop := chars_all is_blank gap = true.

(** A word that is a command, on its own line with what is before it. *)
Record typed (lead sigil word : string) : Prop := {
  typed_lead : blanks lead;
  typed_sigil : sigil ∈ [""; "/"; "!"; "//"; "/!"; "!/"; "!!"];
  typed_word : chars_all is_letter word = true;
  typed_some : word <> EmptyString }.

Lemma sigils_word lead sigil word rest :
  typed lead sigil word -> sigils (sigil +:+ word +:+ rest) = (sigil, word +:+ rest).
Proof.
  intros [_ Hs Hw Hn]. destruct word as [|c word]; [done|]. cbn [chars_all] in Hw.
  apply andb_prop in Hw as [Hc _]. apply letter_plain in Hc as (_ & Hc & _).
  rewrite string_app_cons. rewrite !elem_of_cons, elem_of_nil in Hs.
  destruct Hs as [->|[->|[->|[->|[->|[->|[->|[]]]]]]]]; rewrite ?string_app_cons;
    change ("" +:+ String c (word +:+ rest)) with (String c (word +:+ rest));
    simpl; change (is_sigil "/") with true; change (is_sigil "!") with true; cbv iota;
    rewrite ?Hc; try done.
  by destruct (word +:+ rest).
Qed.

Lemma lead_before lead sigil word rest :
  typed lead sigil word ->
  take_while is_blank (lead +:+ sigil +:+ word +:+ rest) = (lead, sigil +:+ word +:+ rest).
Proof.
  intros [Hl Hs Hw Hn]. apply take_while_app; [done|].
  destruct word as [|c word]; [done|]. cbn [chars_all] in Hw. apply andb_prop in Hw as [Hc _].
  apply letter_plain in Hc as (Hc & _ & _). unfold not_blank in Hc. apply negb_true_iff in Hc.
  rewrite !elem_of_cons, elem_of_nil in Hs.
  destruct Hs as [->|[->|[->|[->|[->|[->|[->|[]]]]]]]]; done.
Qed.

Definition starts_blank (rest : string) : Prop :=
  match rest with EmptyString => True | String c _ => is_blank c = true end.

Lemma word_before word rest :
  chars_all is_letter word = true -> starts_blank rest ->
  take_while not_blank (word +:+ rest) = (word, rest).
Proof.
  intros Hw Hr. apply take_while_app; [by apply letters_plain|].
  destruct rest as [|c rest]; [done|]. unfold not_blank. simpl in Hr. by rewrite Hr.
Qed.

(** The secret part of a command: blanks, and a text on the same line. *)
Record argument (gap secret : string) : Prop := {
  argument_gap : blanks gap; argument_apart : gap <> EmptyString;
  argument_text : exists c rest, secret = String c rest /\ is_white c = false;
  argument_line : chars_all (fun c => negb (is_end c)) secret = true }.

Lemma blank_not_end gap : blanks gap -> chars_all (fun c => negb (is_end c)) gap = true.
Proof.
  apply chars_all_impl. intros c. destruct c as [[] [] [] [] [] [] [] []]; vm_compute; done.
Qed.

Lemma argument_blank gap secret rest : argument gap secret -> starts_blank (gap +:+ rest).
Proof.
  intros [Hg Ha _ _]. destruct gap as [|c gap]; [done|]. unfold blanks in Hg. simpl in *.
  by apply andb_prop in Hg as [? _].
Qed.

Lemma white_not_blank c : is_white c = false -> is_blank c = false.
Proof. destruct c as [[] [] [] [] [] [] [] []]; vm_compute; done. Qed.

Lemma argument_read gap secret : argument gap secret -> argument_follows (gap +:+ secret) = true.
Proof.
  intros [Hg Ha (c & rest & -> & Hc) _]. unfold argument_follows.
  rewrite take_while_app; [|done|by apply white_not_blank].
  rewrite bool_decide_eq_false_2 by done. by rewrite Hc.
Qed.

Lemma list_letters w l : w ∈ l -> forallb (chars_all is_lower) l = true -> chars_all is_lower w = true.
Proof. intros Hw Hl. rewrite forallb_forall in Hl. apply Hl. by apply list_elem_of_In. Qed.

Lemma credential_word word :
  toLowerCase word ∈ CREDENTIAL_COMMANDS ->
  chars_all is_letter word = true /\ word <> EmptyString
  /\ toLowerCase word <> "authme" /\ toLowerCase word <> "email".
Proof.
  intros H. split_and!.
  - eapply letters_of_lower; [done|]. by eapply list_letters.
  - intros ->. by apply (bool_decide_pack _) in H.
  - intros E. rewrite E in H. by apply (bool_decide_pack _) in H.
  - intros E. rewrite E in H. by apply (bool_decide_pack _) in H.
Qed.

Lemma mask_two_skips lead sigil word rest :
  typed lead sigil word -> toLowerCase word <> "authme" -> toLowerCase word <> "email" ->
  starts_blank rest -> mask_two (lead +:+ sigil +:+ word +:+ rest) = None.
Proof.
  intros Ht Ha He Hr. unfold mask_two. rewrite (lead_before _ _ _ _ Ht).
  cbv iota beta. rewrite (sigils_word lead _ _ _ Ht). cbv iota beta.
  rewrite word_before by (done || apply Ht). cbv iota beta.
  destruct (take_while is_blank rest) as [gap rest']. destruct (take_while not_blank rest') as [second rest''].
  unfold two_words. by rewrite (bool_decide_eq_false_2 _ Ha), (bool_decide_eq_false_2 _ He).
Qed.

Lemma one_line lead sigil word tail :
  typed lead sigil word -> chars_all (fun c => negb (is_end c)) tail = true ->
  chars_all (fun c => negb (is_end c)) (lead +:+ sigil +:+ word +:+ tail) = true.
Proof.
  intros [Hl Hs Hw Hn] Ht. rewrite !chars_all_app, Ht, (blank_not_end _ Hl).
  rewrite (proj2 (letters_plain _ Hw)), !andb_true_r. simpl.
  rewrite !elem_of_cons, elem_of_nil in Hs.
  by destruct Hs as [->|[->|[->|[->|[->|[->|[->|[]]]]]]]].
Qed.

(** when a command that sets or gives a password is shown or stored for
    others to read, nothing of what follows the command is left of it: the
    text is the command as it was typed and [[redacted]], whatever the
    password was. *)
Theorem credential_is_hidden lead sigil word gap secret
    (Htyped : typed lead sigil word) (Hword : toLowerCase word ∈ CREDENTIAL_COMMANDS)
    (Hsecret : argument gap secret) :
  maskCommandCredentials (lead +:+ sigil +:+ word +:+ gap +:+ secret)
  = lead +:+ sigil +:+ word +:+ " [redacted]".
Proof.
  destruct (credential_word word Hword) as (Hl & Hn & Ha & He).
  pose proof (argument_blank gap secret secret Hsecret) as Hblank.
  assert (Hend : chars_all (fun c => negb (is_end c)) (gap +:+ secret) = true).
  { rewrite chars_all_app, (blank_not_end gap) by apply Hsecret. by apply Hsecret. }
  unfold maskCommandCredentials. rewrite (on_lines_one (or_same mask_two)) by (by apply one_line).
  change ("" +:+ ?s) with s. unfold or_same at 2. rewrite mask_two_skips by done.
  rewrite on_lines_one by (by apply one_line). change ("" +:+ ?s) with s.
  unfold or_same, mask_one. rewrite (lead_before _ _ _ _ Htyped). cbv iota beta.
  rewrite (sigils_word lead _ _ _ Htyped). cbv iota beta. rewrite word_before by done.
  cbv iota beta. by rewrite bool_decide_eq_true_2, argument_read.
Qed.

Lemma credential_is_hidden_witness :
  maskCommandCredentials "  /LogIn hunter2 hunter3" = "  /LogIn [redacted]".
Proof.
  apply (credential_is_hidden "  " "/" "LogIn" " " "hunter2 hunter3").
  - split; [reflexivity|by apply (bool_decide_unpack _)|reflexivity|done].
  - by apply (bool_decide_unpack _).
  - split; [reflexivity|done|by eexists _, _|reflexivity].
Defined.
