(* ===== verification/ClientSettings.v ===== *)
(** The settings of the client an operator may change.

    packages/contracts/src/boundary/mcc-config-keys.ts: which keys of the
    client's configuration file there are besides the ones the manager writes
    itself, and which texts each takes.  [z.object(...).partial().strict()] is
    a list of keys in which every key is known and every value taken.
    [Number(text)] of a decimal number, a binary fraction, is compared by the
    argument [number_le]; [finite] is [Number.isFinite]. *)

From S2P Require Import Prelude Calendar Tables.

(** A value as it is stored: a text, or a list of texts. *)
Inductive ConfigText := one (text : string) | many (texts : list string).

(** An object of settings, its keys in the order they were written;
    [undefined] values can be written too. *)
Definition Settings : Type := list (string * option ConfigText).

Definition lookup_setting (key : string) (config : Settings) : option ConfigText :=
  match List.find (fun entry => entry.1 ≡? key) config with
  | Some (_, value) => value
  | None => None
  end.

(** ** Shapes of values *)

Definition INT32_max : Z := 2147483647.

Definition digit (c : ascii) : bool := bool_decide (is_Some (digit_value c)).

(** [0|[1-9][0-9]*] *)
Definition whole_digits (text : string) : bool :=
  match text with
  | EmptyString => false
  | String c rest => chars_all digit text && (negb (c ≡? "0"%char) || (rest ≡? EmptyString))
  end.

Definition unsigned (text : string) : string :=
  match text with String c rest => if c ≡? "-"%char then rest else text | EmptyString => text end.

(** [INTEGER_SHAPE], with the number it is *)
Definition INTEGER_SHAPE (text : string) : option Z :=
  let digits := unsigned text in
  if whole_digits digits && (String.length digits <=? 10)%nat && negb (text ≡? "-0") then
    let? n := numberOfDigits digits in
    Some (if digits ≡? text then n else - n)
  else None.

(** [FLOAT_SHAPE]: the part before the point and the part after it *)
Definition FLOAT_SHAPE (text : string) : bool :=
  match split_on "."%char (unsigned text) with
  | [whole; fraction] => whole_digits whole && negb (fraction ≡? EmptyString) && chars_all digit fraction
  | _ => false
  end.

Definition isPlainText (value : string) : bool :=
  chars_all (fun c => let n := Ascii.nat_of_ascii c in negb ((n <? 32)%nat || (n =? 127)%nat)) value.

Definition RESERVED_FILE_NAMES : list string :=
  ["MinecraftClient"; "Sentry"; "SessionCache.db"; "ProfileKeyCache.ini"; "Rendered_Maps"; "lang";
   "replay_recordings"; "recording_cache"].

Definition isReservedFileName (value : string) : bool := bool_decide (value ∈ RESERVED_FILE_NAMES).

Definition FILE_NAME_MAX_BYTES : Z := 255.

Fixpoint utf8Bytes (value : string) : Z :=
  match value with
  | EmptyString => 0
  | String c rest => (if (Ascii.nat_of_ascii c <? 128)%nat then 1 else 2) + utf8Bytes rest
  end.

Definition nonempty_without (excluded : list ascii) (value : string) : bool :=
  negb (value ≡? EmptyString) && chars_all (fun c => negb (bool_decide (c ∈ excluded))) value.

Definition PATH_SHAPE : string -> bool := nonempty_without ["/"; "\"; "%"]%char.
Definition EXPANDED_PATH_SHAPE : string -> bool := nonempty_without ["/"; "\"]%char.

Definition dots (value : string) : bool := (value ≡? ".") || (value ≡? "..").

Definition A_FILE_NAME : string := "A file name, not a path".

Definition fileNameIssue (value : string) : option string :=
  if negb (PATH_SHAPE value) || dots value || negb (isPlainText value) then Some A_FILE_NAME
  else if FILE_NAME_MAX_BYTES <? utf8Bytes value then Some "Too long for a file name" else None.

Definition isOperatorFileName (value : string) : bool :=
  (fileNameIssue value ≡? None) && negb (isReservedFileName value).

Definition fileNameSchema (value : string) : bool :=
  negb (value ≡? EmptyString) && (fileNameIssue value ≡? None).

Definition expandedFileNameSchema (value : string) : bool :=
  EXPANDED_PATH_SHAPE value && negb (dots value) && isPlainText value.

Definition pathSchema (value : string) : bool := fileNameSchema value && negb (isReservedFileName value).

Inductive Setting :=
  | s_enum (options : list string)
  | s_boolean
  | s_float (accepts : string -> bool)
  | s_integer (min max : Z)
  | s_path
  | s_file
  | s_expanded
  | s_words.

Section settings.
Variables (number_le : string -> string -> bool) (finite : string -> bool).

Definition floatIssue (value : string) : option string :=
  if FLOAT_SHAPE value && finite value then None else Some "Decimal number".

Definition accepts (setting : Setting) (value : ConfigText) : bool :=
  match setting, value with
  | s_enum options, one text => bool_decide (text ∈ options)
  | s_boolean, one text => (text ≡? "true") || (text ≡? "false")
  | s_float ok, one text => (floatIssue text ≡? None) && ok text
  | s_integer min max, one text =>
      match INTEGER_SHAPE text with Some n => (min <=? n) && (n <=? max) | None => false end
  | s_path, one text => pathSchema text
  | s_file, one text => fileNameSchema text
  | s_expanded, one text => expandedFileNameSchema text
  | s_words, many texts => forallb (fun text => negb (text ≡? EmptyString) && isPlainText text) texts
  | _, _ => false
  end.

Definition at_least (bound : string) : Setting := s_float (fun value => number_le bound value).
Definition any_float : Setting := s_float (fun _ => true).
(** [value < 0 || value >= 0.1] *)
Definition delay_or_negative : Setting :=
  s_float (fun value => negb (number_le "0" value) || number_le "0.1" value).

(** ** The tables of keys *)

Definition ADVANCED_ENUM_SHAPE : list (string * Setting) := [
  ("ChatBot.AutoAttack.Mode", s_enum ["single"; "multi"]);
  ("ChatBot.AutoAttack.Priority", s_enum ["distance"; "health"]);
  ("ChatBot.AutoAttack.Interaction", s_enum ["Interact"; "Attack"; "InteractAt"]);
  ("ChatBot.AutoAttack.List_Mode", s_enum ["blacklist"; "whitelist"]);
  ("ChatBot.AutoCraft.OnFailure", s_enum ["abort"; "wait"]);
  ("ChatBot.AutoDig.Mode", s_enum ["lookat"; "fixedpos"; "both"]);
  ("ChatBot.AutoDig.Location_Order", s_enum ["distance"; "index"]);
  ("ChatBot.AutoDig.List_Type", s_enum ["blacklist"; "whitelist"]);
  ("ChatBot.AutoDrop.Mode", s_enum ["include"; "exclude"; "everything"])].

Definition ADVANCED_BOOLEAN_NAMES : list string := [
  "ChatBot.AutoAttack.Enabled"; "ChatBot.AutoAttack.Cooldown_Time.Custom";
  "ChatBot.AutoAttack.Cooldown_Time.RandomMode"; "ChatBot.AutoAttack.Attack_Hostile";
  "ChatBot.AutoAttack.Attack_Passive"; "ChatBot.AutoCraft.Enabled"; "ChatBot.AutoDig.Enabled";
  "ChatBot.AutoDig.Auto_Tool_Switch"; "ChatBot.AutoDig.Apply_Efficiency_Enchantments";
  "ChatBot.AutoDig.Apply_Haste_Effects"; "ChatBot.AutoDig.Drop_Low_Durability_Tools";
  "ChatBot.AutoDig.Log_Block_Dig"; "ChatBot.AutoDrop.Enabled"; "ChatBot.AutoEat.Enabled";
  "ChatBot.AutoFishing.Enabled"; "ChatBot.AutoFishing.Antidespawn"; "ChatBot.AutoFishing.Mainhand";
  "ChatBot.AutoFishing.Auto_Start"; "ChatBot.AutoFishing.Auto_Rod_Switch";
  "ChatBot.AutoFishing.Enable_Velocity_Detection"; "ChatBot.AutoFishing.Enable_Sound_Detection";
  "ChatBot.AutoFishing.Log_Fish_Bobber"; "ChatBot.AutoFishing.Enable_Move"; "ChatBot.Farmer.Enabled";
  "ChatBot.ItemsCollector.Enabled"; "ChatBot.ItemsCollector.Collect_All_Item_Types";
  "ChatBot.ItemsCollector.Always_Return_To_Start"; "ChatBot.ItemsCollector.Prioritize_Clusters"].

Definition ADVANCED_BOOLEAN_SHAPE : list (string * Setting) :=
  map (fun name => (name, s_boolean)) ADVANCED_BOOLEAN_NAMES.

Definition ADVANCED_NUMBER_SHAPE : list (string * Setting) := [
  ("ChatBot.AutoAttack.Cooldown_Time.Min", any_float);
  ("ChatBot.AutoAttack.Cooldown_Time.Max", any_float);
  ("ChatBot.AutoAttack.Attack_Range", s_float (fun value => number_le "1" value && number_le value "4"));
  ("ChatBot.AutoCraft.CraftingTable.X", any_float);
  ("ChatBot.AutoCraft.CraftingTable.Y", any_float);
  ("ChatBot.AutoCraft.CraftingTable.Z", any_float);
  ("ChatBot.AutoDig.Durability_Limit", s_integer 0 INT32_max);
  ("ChatBot.AutoDig.Auto_Start_Delay", delay_or_negative);
  ("ChatBot.AutoDig.Dig_Timeout", delay_or_negative);
  ("ChatBot.AutoEat.Threshold", s_integer 0 20);
  ("ChatBot.AutoFishing.Cast_Delay", at_least "0");
  ("ChatBot.AutoFishing.Fishing_Delay", at_least "0");
  ("ChatBot.AutoFishing.Fishing_Timeout", at_least "0");
  ("ChatBot.AutoFishing.Durability_Limit", s_float (fun value => number_le "0" value && number_le value "64"));
  ("ChatBot.AutoFishing.Stationary_Threshold", at_least "0");
  ("ChatBot.AutoFishing.Hook_Threshold", at_least "0");
  ("ChatBot.AutoFishing.Velocity_Hook_Threshold", s_float (fun value => number_le value "0"));
  ("ChatBot.AutoFishing.Sound_Distance", at_least "0");
  ("ChatBot.AutoFishing.Detection_Warmup", at_least "0");
  ("ChatBot.Farmer.Delay_Between_Tasks", at_least "1");
  ("ChatBot.ItemsCollector.Delay_Between_Tasks", s_integer 100 INT32_max);
  ("ChatBot.ItemsCollector.Collection_Radius", any_float)].

Definition ADVANCED_LITERAL_SHAPE : list (string * Setting) :=
  ADVANCED_BOOLEAN_SHAPE ++ ADVANCED_NUMBER_SHAPE.

Definition ADVANCED_KEY_SHAPE : list (string * Setting) := ADVANCED_ENUM_SHAPE ++ ADVANCED_LITERAL_SHAPE.

Definition BOT_CONFIG_PATH_SHAPE : list (string * Setting) := [
  ("ChatBot.Mailer.DatabaseFile", s_path); ("ChatBot.Mailer.IgnoreListFile", s_path);
  ("ChatBot.PlayerListLogger.File", s_path)].

Definition BOT_CONFIG_QUOTED_SHAPE : list (string * Setting) := BOT_CONFIG_PATH_SHAPE.

Definition BOT_CONFIG_LIST_SHAPE : list (string * Setting) :=
  [("ChatBot.Alerts.Matches", s_words); ("ChatBot.Alerts.Excludes", s_words)].

Definition BOT_CONFIG_BOOLEAN_NAMES : list string := [
  "ChatBot.Alerts.Enabled"; "ChatBot.Alerts.Beep_Enabled"; "ChatBot.Alerts.Trigger_By_Words";
  "ChatBot.Alerts.Trigger_By_Rain"; "ChatBot.Alerts.Trigger_By_Thunderstorm"; "ChatBot.Map.Enabled";
  "ChatBot.Map.Render_In_Console"; "ChatBot.Map.Auto_Render_On_Update";
  "ChatBot.Map.Delete_All_On_Unload"; "ChatBot.Map.Notify_On_First_Update"; "ChatBot.Mailer.Enabled";
  "ChatBot.Mailer.PublicInteractions"; "ChatBot.PlayerListLogger.Enabled";
  "ChatBot.FollowPlayer.Enabled"; "ChatBot.RemoteControl.Enabled"; "ChatBot.RemoteControl.AutoTpaccept";
  "ChatBot.RemoteControl.AutoTpaccept_Everyone"; "ChatBot.ReplayCapture.Enabled"].

Definition BOT_CONFIG_BOOLEAN_SHAPE : list (string * Setting) :=
  map (fun name => (name, s_boolean)) BOT_CONFIG_BOOLEAN_NAMES.

Definition BOT_CONFIG_INTEGER_SHAPE : list (string * Setting) := [
  ("ChatBot.Mailer.MaxMailsPerPlayer", s_integer 1 INT32_max);
  ("ChatBot.Mailer.MaxDatabaseSize", s_integer 1 INT32_max);
  ("ChatBot.Mailer.MailRetentionDays", s_integer 1 INT32_max)].

Definition BOT_CONFIG_FLOAT_SHAPE : list (string * Setting) := [
  ("ChatBot.PlayerListLogger.Delay", at_least "1");
  ("ChatBot.FollowPlayer.Update_Limit", at_least "0");
  ("ChatBot.FollowPlayer.Stop_At_Distance", at_least "0");
  ("ChatBot.ReplayCapture.Backup_Interval", at_least "-1")].

Definition BOT_CONFIG_BARE_SHAPE : list (string * Setting) :=
  BOT_CONFIG_BOOLEAN_SHAPE ++ BOT_CONFIG_INTEGER_SHAPE ++ BOT_CONFIG_FLOAT_SHAPE.

Definition BOT_CONFIG_SHAPE : list (string * Setting) :=
  BOT_CONFIG_QUOTED_SHAPE ++ BOT_CONFIG_LIST_SHAPE ++ BOT_CONFIG_BARE_SHAPE.

Definition QUOTED_CONFIG_NAMES : list string :=
  map fst ADVANCED_ENUM_SHAPE ++ map fst BOT_CONFIG_QUOTED_SHAPE.

Definition LIST_CONFIG_NAMES : list string := map fst BOT_CONFIG_LIST_SHAPE.

Definition BOT_CONFIG_NAMES : list string := map fst BOT_CONFIG_SHAPE.

(** [.sort((left, right) => left.localeCompare(right))] *)
Definition ADVANCED_KEY_NAMES (locale_le : string -> string -> bool) : list string :=
  order_by locale_le (map fst ADVANCED_KEY_SHAPE).

(** ** The schemas *)

Fixpoint shape_of (shape : list (string * Setting)) (key : string) : option Setting :=
  match shape with
  | [] => None
  | (name, setting) :: rest => if name ≡? key then Some setting else shape_of rest key
  end.

Definition object_accepts (shape : list (string * Setting)) (config : Settings) : bool :=
  forallb (fun entry =>
             match shape_of shape entry.1 with
             | None => false
             | Some setting =>
                 match entry.2 with None => true | Some value => accepts setting value end
             end) config.

Definition advancedKeysSchema (config : Settings) : bool := object_accepts ADVANCED_KEY_SHAPE config.

Definition CLIENT_DEFAULT_FILES : list (string * string) := [
  ("ChatBot.Mailer.DatabaseFile", "MailerDatabase.ini");
  ("ChatBot.Mailer.IgnoreListFile", "MailerIgnoreList.ini");
  ("ChatBot.PlayerListLogger.File", "playerlog.txt")].

(** [config[key] ?? fallback] *)
Definition file_of (config : Settings) (entry : string * string) : ConfigText :=
  match lookup_setting entry.1 config with Some value => value | None => one entry.2 end.

#[global] Instance ConfigText_eq_dec : EqDecision ConfigText.
Proof. solve_decision. Defined.

Definition sharedFileKeys (config : Settings) : list string :=
  map fst
    (List.filter
       (fun each =>
          bool_decide (is_Some (lookup_setting each.1 config))
          && existsb (fun other => negb (other.1 ≡? each.1)
                                   && (file_of config other ≡? file_of config each))
               CLIENT_DEFAULT_FILES)
       CLIENT_DEFAULT_FILES).

Definition botConfigSchema (config : Settings) : bool :=
  object_accepts BOT_CONFIG_SHAPE config && (length (sharedFileKeys config) =? 0)%nat.

(** The shapes of the paths replaced by those of stored settings. *)
Definition storedBotConfigSchema (config : Settings) : bool :=
  object_accepts
    ([("ChatBot.Mailer.DatabaseFile", s_file); ("ChatBot.Mailer.IgnoreListFile", s_file);
      ("ChatBot.PlayerListLogger.File", s_expanded)] ++ BOT_CONFIG_SHAPE) config.
End settings.
