(* ===== verification/ClientConfig.v ===== *)
(** The configuration file of the client.

    packages/core/src/instance/config.ts renders the settings of a bot as the
    TOML document the client reads, and has the ports of live control. *)

From S2P Require Import Prelude Calendar Tables Observer Shell ClientSettings.

Inductive AccountType := microsoft | offline.

#[global] Instance AccountType_eq_dec : EqDecision AccountType.
Proof. solve_decision. Defined.

Definition isOfflineAccount (accountType : AccountType) : bool := accountType ≡? offline.
Definition needsInteractiveSignIn (accountType : AccountType) : bool := accountType ≡? microsoft.
Definition account_text (accountType : AccountType) : string :=
  match accountType with microsoft => "microsoft" | offline => "offline" end.

Record DelaySecondsRange := MkRange { range_min : Z; range_max : Z }.

Record InstanceConfigInput := MkConfig {
  accountType : AccountType; minecraftAccount : string; serverAddress : string;
  minecraftVersion : string; autoRelogRetries : Z; autoRelogEnabled : bool;
  autoRelogDelaySeconds : DelaySecondsRange; antiAfkEnabled : bool;
  antiAfkIntervalSeconds : DelaySecondsRange; autoRespawnEnabled : bool;
  liveControlEnabled : bool; liveControlPort : Z; worldDataEnabled : bool;
  inventoryDataEnabled : bool; entityDataEnabled : bool; advancedKeys : Settings;
  botConfig : Settings }.

Definition with_port (port : Z) (c : InstanceConfigInput) : InstanceConfigInput :=
  MkConfig (accountType c) (minecraftAccount c) (serverAddress c) (minecraftVersion c)
    (autoRelogRetries c) (autoRelogEnabled c) (autoRelogDelaySeconds c) (antiAfkEnabled c)
    (antiAfkIntervalSeconds c) (autoRespawnEnabled c) (liveControlEnabled c) port
    (worldDataEnabled c) (inventoryDataEnabled c) (entityDataEnabled c) (advancedKeys c) (botConfig c).

Definition with_bots (advanced bots : Settings) (c : InstanceConfigInput) : InstanceConfigInput :=
  MkConfig (accountType c) (minecraftAccount c) (serverAddress c) (minecraftVersion c)
    (autoRelogRetries c) (autoRelogEnabled c) (autoRelogDelaySeconds c) (antiAfkEnabled c)
    (antiAfkIntervalSeconds c) (autoRespawnEnabled c) (liveControlEnabled c) (liveControlPort c)
    (worldDataEnabled c) (inventoryDataEnabled c) (entityDataEnabled c) advanced bots.

Definition OFFLINE_PASSWORD : string := "-".

(** Both kinds of account sign in the same way. *)
Definition MCC_LOGIN_TYPES (accountType : AccountType) : string :=
  match accountType with microsoft => "microsoft" | offline => "microsoft" end.

Definition ALLOWED_CONFIG_KEYS : list string := [
  "Main.General.AccountType"; "Main.General.Account.Login"; "Main.General.Account.Password";
  "Main.General.Server.Host"; "Main.General.Server.Port"; "Main.Advanced.MinecraftVersion";
  "Main.Advanced.AutoRespawn"; "ChatBot.McpServer.Enabled"; "ChatBot.McpServer.Transport.Port";
  "Main.Advanced.TerrainAndMovements"; "Main.Advanced.InventoryHandling";
  "Main.Advanced.EntityHandling"; "ChatBot.McpServer.Capabilities.SessionStatus";
  "ChatBot.McpServer.Capabilities.Inventory"; "ChatBot.McpServer.Capabilities.EntityWorld";
  "ChatBot.AutoRelog.Enabled"; "ChatBot.AutoRelog.Retries"; "ChatBot.AutoRelog.Delay";
  "ChatBot.AntiAFK.Enabled"; "ChatBot.AntiAFK.Delay"].

Definition FIXED_CONFIG_KEYS : list string := [
  "Main.Advanced.EnableSentry"; "Main.Advanced.ShowGithubStarReminder"; "Console.General.ConsoleMode";
  "Logging.LogToFile"; "Main.Advanced.ExitOnFailure"; "Main.Advanced.IgnoreInvalidPlayerName";
  "Main.Advanced.InternalCmdChar"; "Main.General.Method"; "ChatBot.McpServer.Transport.BindHost";
  "ChatBot.McpServer.Transport.Route"; "ChatBot.McpServer.Transport.RequireAuthToken";
  "ChatBot.McpServer.Transport.AuthTokenEnvVar"; "ChatBot.McpServer.Capabilities.ChatAndCommands";
  "ChatBot.McpServer.Capabilities.Movement"; "Main.Advanced.BotOwners";
  "ChatBot.Map.Send_Rendered_To_Discord"; "ChatBot.Map.Send_Rendered_To_Telegram";
  "ChatBot.ChatLog.Enabled"; "ChatBot.Alerts.Log_To_File"; "ChatBot.Map.Save_To_File";
  "ChatBot.AutoRespond.Enabled"; "ChatBot.ScriptScheduler.Enabled"; "ChatBot.DiscordBridge.Enabled";
  "ChatBot.TelegramBridge.Enabled"].

Definition LIVE_CONTROL_BIND_HOST : string := "0.0.0.0".
Definition LIVE_CONTROL_ROUTE : string := "/mcp".

Definition EMPTIED_CONFIG_SECTIONS : list string :=
  ["Main.Advanced.AccountList"; "Main.Advanced.ServerList"].

Definition CONSOLE_MODE : string := "classic".
Definition INTERNAL_CMD_CHAR : string := "slash".
Definition LOGIN_METHOD : string := "mcc".

(** ** Values *)

Definition BACKSLASH : ascii := "\".
Definition DQUOTE : ascii := "034".

(** [code.toString(16)] of a digit *)
Definition hex_digit (n : nat) : ascii :=
  if (n <? 10)%nat then Ascii.ascii_of_nat (48 + n) else Ascii.ascii_of_nat (87 + n).

(** A character inside the quotes: [TOML_ESCAPES], the other control characters
    by their number ([\u] and four hexadecimal digits), the rest as it is. *)
Definition toml_char (c : ascii) : string :=
  let n := Ascii.nat_of_ascii c in
  if c ≡? BACKSLASH then "\\"
  else if c ≡? DQUOTE then String BACKSLASH QUOTE
  else if (n =? 10)%nat then "\n"
  else if (n =? 13)%nat then "\r"
  else if (n =? 9)%nat then "\t"
  else if (n =? 8)%nat then "\b"
  else if (n =? 12)%nat then "\f"
  else if (n <? 32)%nat || (n =? 127)%nat
  then "\u00" +:+ String (hex_digit (n / 16)) (String (hex_digit (n mod 16)) "")
  else String c "".

Fixpoint toml_body (value : string) : string :=
  match value with EmptyString => EmptyString | String c rest => toml_char c +:+ toml_body rest end.

Definition tomlString (value : string) : string := QUOTE +:+ toml_body value +:+ QUOTE.

Definition tomlInt (value : Z) : string := decimal value.
Definition tomlBool (value : bool) : string := if value then "true" else "false".

(** [value.toFixed(1)] of a whole number *)
Definition toFixed1 (value : Z) : string := decimal value +:+ ".0".

Definition tomlSecondsRange (range : DelaySecondsRange) : result string :=
  if range_min range <? 0
  then Throw (internal "Config delays must be a non-negative number of seconds")
  else Ok ("{ min = " +:+ toFixed1 (range_min range) +:+ ", max = " +:+ toFixed1 (range_max range) +:+ " }").

(** [value.lastIndexOf(c)]: what is before and after it. *)
Fixpoint split_last (c : ascii) (value : string) : option (string * string) :=
  match value with
  | EmptyString => None
  | String x rest =>
      match split_last c rest with
      | Some (before, after) => Some (String x before, after)
      | None => if x ≡? c then Some (EmptyString, rest) else None
      end
  end.

Record ServerAddress := MkAddress { address_host : string; address_port : option Z }.

(** [Number(text)] of a text without sign, fraction or exponent; texts that
    [Number] reads otherwise are the argument [other_number]. *)
Section config.
Variable other_number : string -> option Z.

Definition number_of_text (text : string) : option Z :=
  match numberOfDigits text with Some n => Some n | None => other_number text end.

Definition splitServerAddress (value : string) : ServerAddress :=
  match split_last ":" value with
  | None => MkAddress value None
  | Some (host, after) =>
      if (String.length host =? 0)%nat || includes "]" value then MkAddress value None
      else
        match number_of_text after with
        | None => MkAddress value None
        | Some port => if (port <? 1) || (65535 <? port) then MkAddress value None
                       else MkAddress host (Some port)
        end
  end.

Definition serverLines (address : string) : list string :=
  let split := splitServerAddress address in
  ("Host = " +:+ tomlString (address_host split))
  :: match address_port split with None => [] | Some port => ["Port = " +:+ tomlInt port] end.

(** ** Tables of settings *)

Definition PINNED_BOT_CONFIG : Settings := [
  ("ChatBot.Map.Send_Rendered_To_Discord", Some (one "false"));
  ("ChatBot.Map.Send_Rendered_To_Telegram", Some (one "false"));
  ("ChatBot.ChatLog.Enabled", Some (one "false"));
  ("ChatBot.Alerts.Log_To_File", Some (one "false"));
  ("ChatBot.Map.Save_To_File", Some (one "false"))].

(** [QUOTED_CONFIG_NAMES] and [LIST_CONFIG_NAMES] do not look at the numbers. *)
Definition quoted_key (key : string) : bool := bool_decide (key ∈ QUOTED_CONFIG_NAMES).
Definition list_key (key : string) : bool := bool_decide (key ∈ LIST_CONFIG_NAMES).

Definition renderConfigValue (key : string) (value : ConfigText) : string :=
  if list_key key then
    let entries := match value with one text => [text] | many texts => texts end in
    if (length entries =? 0)%nat then "[]"
    else "[ " +:+ join_with ", " (map tomlString entries) +:+ " ]"
  else
    let single := match value with one text => text | many (text :: _) => text | many [] => EmptyString end in
    if quoted_key key then tomlString single else single.

(** [key.slice(0, separator)] and [key.slice(separator + 1)] *)
Definition table_and_name (key : string) : string * string :=
  match split_last "." key with
  | Some parts => parts
  | None => (match String.length key with O => EmptyString | S n => String.substring 0 n key end, key)
  end.

Definition defined_entries (config : Settings) : list (string * ConfigText) :=
  omap (fun entry => option_map (pair entry.1) entry.2) config.

(** The map of the tables, in the order of their first keys. *)
Fixpoint add_line (table line : string) (tables : list (string * list string))
    : list (string * list string) :=
  match tables with
  | [] => [(table, [line])]
  | (name, lines) :: rest =>
      if name ≡? table then (name, lines ++ [line]) :: rest
      else (name, lines) :: add_line table line rest
  end.

Definition assignment_line (entry : string * ConfigText) : string * string :=
  let (table, name) := table_and_name entry.1 in
  (table, name +:+ " = " +:+ renderConfigValue entry.1 entry.2).

Definition config_tables (entries : list (string * ConfigText)) : list (string * list string) :=
  fold_left (fun tables entry => let (table, line) := assignment_line entry in add_line table line tables)
    entries [].

Definition renderConfigTables (advancedKeys botConfig : Settings) : list string :=
  let tables :=
    config_tables (defined_entries advancedKeys ++ defined_entries botConfig
                     ++ defined_entries PINNED_BOT_CONFIG) in
  flat_map (fun table => ("[" +:+ table.1 +:+ "]") :: order_by String.leb table.2 ++ [EmptyString])
    (order_by (fun a b => String.leb a.1 b.1) tables).

(** The lines of the document. *)
Definition config_lines (c : InstanceConfigInput) : result (list string) :=
  let set name value := name +:+ " = " +:+ value in
  let+ relogDelay := tomlSecondsRange (autoRelogDelaySeconds c) in
  let+ afkDelay := tomlSecondsRange (antiAfkIntervalSeconds c) in
  Ok ([
    "[Main.General]";
    set "AccountType" (tomlString (MCC_LOGIN_TYPES (accountType c)));
    set "Method" (tomlString LOGIN_METHOD);
    "";
    "[Main.General.Account]";
    set "Login" (tomlString (minecraftAccount c));
    set "Password" (tomlString (if isOfflineAccount (accountType c) then OFFLINE_PASSWORD else ""));
    "";
    "[Main.General.Server]"] ++
    serverLines (serverAddress c) ++ [
    "";
    "[Main.Advanced]";
    set "EnableSentry" (tomlBool false);
    set "ExitOnFailure" (tomlBool true);
    set "IgnoreInvalidPlayerName" (tomlBool true);
    set "InternalCmdChar" (tomlString INTERNAL_CMD_CHAR);
    set "ShowGithubStarReminder" (tomlBool false);
    "BotOwners = []";
    set "MinecraftVersion" (tomlString (minecraftVersion c));
    set "AutoRespawn" (tomlBool (autoRespawnEnabled c));
    set "TerrainAndMovements" (tomlBool (worldDataEnabled c));
    set "InventoryHandling" (tomlBool (inventoryDataEnabled c));
    set "EntityHandling" (tomlBool (entityDataEnabled c));
    "";
    "[Main.Advanced.AccountList]";
    "";
    "[Main.Advanced.ServerList]";
    "";
    "[ChatBot.AutoRelog]";
    set "Enabled" (tomlBool (autoRelogEnabled c));
    set "Retries" (tomlInt (autoRelogRetries c));
    set "Delay" relogDelay;
    "";
    "[ChatBot.AntiAFK]";
    set "Enabled" (tomlBool (antiAfkEnabled c));
    set "Delay" afkDelay;
    "";
    "[ChatBot.McpServer]";
    set "Enabled" (tomlBool (liveControlEnabled c));
    "";
    "[ChatBot.McpServer.Transport]";
    set "BindHost" (tomlString LIVE_CONTROL_BIND_HOST);
    set "Port" (tomlInt (liveControlPort c));
    set "Route" (tomlString LIVE_CONTROL_ROUTE);
    set "RequireAuthToken" (tomlBool true);
    set "AuthTokenEnvVar" (tomlString LIVE_CONTROL_TOKEN_ENV);
    "";
    "[ChatBot.McpServer.Capabilities]";
    set "SessionStatus" (tomlBool (liveControlEnabled c));
    set "ChatAndCommands" (tomlBool false);
    set "Movement" (tomlBool false);
    set "Inventory" (tomlBool (liveControlEnabled c && inventoryDataEnabled c));
    set "EntityWorld" (tomlBool (liveControlEnabled c && entityDataEnabled c));
    "";
    "[Console.General]";
    set "ConsoleMode" (tomlString CONSOLE_MODE);
    "";
    "[Logging]";
    set "LogToFile" (tomlBool false);
    "";
    "[ChatBot.AutoRespond]";
    set "Enabled" (tomlBool false);
    "";
    "[ChatBot.ScriptScheduler]";
    set "Enabled" (tomlBool false);
    "";
    "[ChatBot.DiscordBridge]";
    set "Enabled" (tomlBool false);
    "";
    "[ChatBot.TelegramBridge]";
    set "Enabled" (tomlBool false);
    ""] ++
    renderConfigTables (advancedKeys c) (botConfig c)).

Definition renderInstanceConfig (c : InstanceConfigInput) : result string :=
  let+ lines := config_lines c in Ok (join_with newline lines).
End config.

(** ** Defaults, and the ports of live control *)

Definition DEFAULT_AUTO_RELOG_RETRIES : Z := 3.
Definition DEFAULT_AUTO_RELOG_DELAY_SECONDS : DelaySecondsRange := MkRange 10 10.
Definition DEFAULT_ANTI_AFK_INTERVAL_SECONDS : DelaySecondsRange := MkRange 60 60.
Definition DEFAULT_LIVE_CONTROL_PORT : Z := 33333.
Definition LIVE_CONTROL_PORT_LIMIT : Z := 33832.

Definition LiveControlPortsExhaustedError (message : string) : thrown :=
  ThrownError (NamedError "LiveControlPortsExhaustedError") message.

Definition freeLiveControlPorts (taken : list Z) : list Z :=
  List.filter (fun port => negb (bool_decide (port ∈ taken)))
    (seqZ DEFAULT_LIVE_CONTROL_PORT (LIVE_CONTROL_PORT_LIMIT - DEFAULT_LIVE_CONTROL_PORT + 1)).

Definition defaultInstanceConfig (accountType : AccountType)
    (minecraftAccount serverAddress minecraftVersion : string) : InstanceConfigInput :=
  MkConfig accountType minecraftAccount serverAddress minecraftVersion DEFAULT_AUTO_RELOG_RETRIES
    true DEFAULT_AUTO_RELOG_DELAY_SECONDS false DEFAULT_ANTI_AFK_INTERVAL_SECONDS false false
    DEFAULT_LIVE_CONTROL_PORT false false false [] [].

(** ** Texts read back

    A basic string of TOML 1.0, read from its opening quote on: the value and
    what follows the closing quote. *)

Definition hex_number (c : ascii) : option nat :=
  let n := Ascii.nat_of_ascii c in
  if (48 <=? n)%nat && (n <=? 57)%nat then Some (n - 48)%nat
  else if (97 <=? n)%nat && (n <=? 102)%nat then Some (n - 87)%nat
  else None.

Definition toml_escape (c : ascii) : option ascii :=
  if c ≡? BACKSLASH then Some BACKSLASH
  else if c ≡? DQUOTE then Some DQUOTE
  else if c ≡? "n"%char then Some "010"%char
  else if c ≡? "r"%char then Some "013"%char
  else if c ≡? "t"%char then Some "009"%char
  else if c ≡? "b"%char then Some "008"%char
  else if c ≡? "f"%char then Some "012"%char
  else None.

Definition toml_cons (c : ascii) (read : option (string * string)) : option (string * string) :=
  let? (value, rest) := read in Some (String c value, rest).

Fixpoint toml_text (text : string) : option (string * string) :=
  match text with
  | EmptyString => None
  | String c rest =>
      let n := Ascii.nat_of_ascii c in
      if c ≡? DQUOTE then Some (EmptyString, rest)
      else if c ≡? BACKSLASH then
        match rest with
        | String "u" (String "0" (String "0" (String a (String b rest')))) =>
            let? high := hex_number a in
            let? low := hex_number b in
            toml_cons (Ascii.ascii_of_nat (16 * high + low)) (toml_text rest')
        | String e rest' => let? value := toml_escape e in toml_cons value (toml_text rest')
        | EmptyString => None
        end
      else if ((n <? 32)%nat && negb (n =? 9)%nat) || (n =? 127)%nat then None
      else toml_cons c (toml_text rest)
  end.

Definition toml_basic (text : string) : option (string * string) :=
  match text with
  | String c rest => if c ≡? DQUOTE then toml_text rest else None
  | EmptyString => None
  end.

Lemma toml_char_reads c rest : toml_text (toml_char c +:+ rest) = toml_cons c (toml_text rest).
Proof. by destruct c as [[] [] [] [] [] [] [] []]. Qed.

Lemma toml_body_reads value rest : toml_text (toml_body value +:+ QUOTE +:+ rest) = Some (value, rest).
Proof.
  induction value as [|c value IH]; [done|]. cbn [toml_body].
  by rewrite string_app_assoc, toml_char_reads, IH.
Qed.

(** whatever text a setting holds, the client reads it back from the
    document as it was: quotes, backslashes and control characters in it are
    escaped, and nothing after the text is read as part of it. *)
Theorem toml_string_reads_back value rest :
  toml_basic (tomlString value +:+ rest) = Some (value, rest).
Proof. unfold tomlString. rewrite !string_app_assoc. apply toml_body_reads. Qed.

Lemma toml_body_free value : free_of NEWLINE (toml_body value) = true.
Proof.
  induction value as [|c value IH]; [done|]. cbn [toml_body]. rewrite free_of_app, IH, andb_true_r.
  by destruct c as [[] [] [] [] [] [] [] []].
Qed.

Lemma tomlString_free value : free_of NEWLINE (tomlString value) = true.
Proof. unfold tomlString. by rewrite !free_of_app, toml_body_free. Qed.

(** ** The lines of the document *)

Definition key_char (c : ascii) : bool := is_id_char c.
Definition path_char (c : ascii) : bool := is_id_char c || (c ≡? "."%char).

(** The grammar of the values, from the specification of the file format
    (TOML 1.0) and not from what writes them, as far as the document uses it.

    Between the quotes of a basic string: a tab or any character that is no
    control character, no quote and no backslash; or a backslash and one of
    seven letters, or [u] and four hexadecimal digits. *)
Definition basic_unescaped (c : ascii) : bool :=
  let n := Ascii.nat_of_ascii c in
  ((n =? 9)%nat || ((32 <=? n)%nat && negb (n =? 127)%nat)) && negb (n =? 34)%nat && negb (n =? 92)%nat.

Definition hexadecimal_digit (c : ascii) : bool :=
  let n := Ascii.nat_of_ascii c in
  ((48 <=? n)%nat && (n <=? 57)%nat) || ((65 <=? n)%nat && (n <=? 70)%nat) || ((97 <=? n)%nat && (n <=? 102)%nat).

Inductive basic_characters : string -> Prop :=
  | basic_end : basic_characters ""
  | basic_plain c rest : basic_unescaped c = true -> basic_characters rest -> basic_characters (String c rest)
  | basic_escape e rest :
      In e ["b"; "t"; "n"; "f"; "r"; "034"; "\"]%char -> basic_characters rest ->
      basic_characters (String "\" (String e rest))
  | basic_unicode a b c d rest :
      forallb hexadecimal_digit [a; b; c; d] = true -> basic_characters rest ->
      basic_characters (String "\" (String "u" (String a (String b (String c (String d rest)))))).

Inductive basic_string : string -> Prop :=
  | quoted characters : basic_characters characters -> basic_string (String "034" (characters +:+ String "034" "")).

(** Digits without a leading zero. *)
Definition whole_number (text : string) : bool :=
  match text with
  | EmptyString => false
  | String c rest => chars_all is_digit text && (negb (c ≡? "0"%char) || (rest ≡? EmptyString))
  end.

Inductive toml_integer : string -> Prop :=
  | unsigned_integer text : whole_number text = true -> toml_integer text
  | negative_integer text : whole_number text = true -> toml_integer (String "-" text).

Inductive toml_float : string -> Prop :=
  | decimal_fraction whole fraction :
      toml_integer whole -> fraction <> EmptyString -> chars_all is_digit fraction = true ->
      toml_float (whole +:+ "." +:+ fraction).

Inductive toml_value : string -> Prop :=
  | value_string text : basic_string text -> toml_value text
  | value_true : toml_value "true"
  | value_false : toml_value "false"
  | value_integer text : toml_integer text -> toml_value text
  | value_float text : toml_float text -> toml_value text
  | value_empty_array : toml_value "[]"
  | value_array items : items <> [] -> Forall basic_string items -> toml_value ("[ " +:+ join_with ", " items +:+ " ]")
  | value_inline_table entries :
      entries <> [] -> Forall (fun e => chars_all key_char e.1 = true /\ e.1 <> EmptyString /\ toml_float e.2) entries ->
      toml_value ("{ " +:+ join_with ", " (map (fun e => e.1 +:+ " = " +:+ e.2) entries) +:+ " }").

(** *** What is written is of the grammar *)

Lemma toml_char_basic c rest : basic_characters rest -> basic_characters (toml_char c +:+ rest).
Proof.
  intros H. destruct c as [[] [] [] [] [] [] [] []];
    first [by apply basic_plain|apply basic_escape; [simpl; tauto|exact H]|by apply basic_unicode].
Qed.

Lemma toml_body_basic value : basic_characters (toml_body value).
Proof. induction value as [|c value IH]; [constructor|]. by apply toml_char_basic. Qed.

Lemma tomlString_basic value : basic_string (tomlString value).
Proof. apply quoted, toml_body_basic. Qed.

Lemma tv_string text : toml_value (tomlString text).
Proof. apply value_string, tomlString_basic. Qed.

Lemma tv_boolean b : toml_value (tomlBool b).
Proof. destruct b; [exact value_true|exact value_false]. Qed.

Lemma digit_is_digit text : chars_all digit text = true -> chars_all is_digit text = true.
Proof. apply chars_all_impl. intros c. destruct c as [[] [] [] [] [] [] [] []]; vm_compute; done. Qed.

Lemma whole_digits_whole text : whole_digits text = true -> whole_number text = true.
Proof.
  destruct text as [|c rest]; [done|]. unfold whole_digits, whole_number. intros H. apply andb_prop in H as [H ->].
  by rewrite digit_is_digit.
Qed.

Lemma unsigned_integers text : whole_digits (unsigned text) = true -> toml_integer text.
Proof.
  destruct text as [|c rest]; [done|]. simpl. case_bool_decide as E.
  - subst c. intros H. by apply negative_integer, whole_digits_whole.
  - intros H. by apply unsigned_integer, whole_digits_whole.
Qed.

Lemma tv_integer text n : INTEGER_SHAPE text = Some n -> toml_value text.
Proof.
  unfold INTEGER_SHAPE. destruct (whole_digits (unsigned text)) eqn:E; [|done]. intros _.
  by apply value_integer, unsigned_integers.
Qed.

Lemma tv_float text : FLOAT_SHAPE text = true -> toml_value text.
Proof.
  unfold FLOAT_SHAPE. intros H. apply value_float. pose proof (join_split "." (unsigned text)) as E.
  destruct (split_on _ _) as [|whole [|fraction [|? ?]]]; try done.
  apply andb_prop in H as [H Hf]. apply andb_prop in H as [Hw Hn]. cbn [join_with] in E.
  assert (Hne : fraction <> EmptyString) by (intros ->; discriminate Hn).
  destruct text as [|c rest]; [by destruct whole|]. simpl in E. case_bool_decide as Ec.
  - subst c rest. apply (decimal_fraction (String "-" whole)); [by apply negative_integer, whole_digits_whole|done|by apply digit_is_digit].
  - rewrite <- E. apply decimal_fraction; [by apply unsigned_integer, whole_digits_whole|done|by apply digit_is_digit].
Qed.

(** A printed number has no leading zero. *)
Lemma pretty_N_go_whole n s : (0 < n)%N -> chars_all is_digit s = true -> whole_number (pretty_N_go n s) = true.
Proof.
  revert s. induction (N.lt_wf_0 n) as [n _ IH]. intros s Hn Hs. rewrite pretty_N_go_step by done.
  assert (Hd : chars_all is_digit (String (pretty_N_char (n mod 10)) s) = true).
  { simpl. rewrite Hs, andb_true_r. unfold pretty_N_char. repeat case_match; reflexivity. }
  destruct (decide (0 < n / 10)%N) as [Hq|Hq]; [apply IH; [by apply N.div_lt|done|done]|].
  replace (n / 10)%N with 0%N by lia. rewrite pretty_N_go_0. unfold whole_number. rewrite Hd. simpl.
  assert (Hm : (n mod 10 = n)%N) by (apply N.mod_small; apply N.div_small_iff; lia). rewrite Hm.
  assert (H10 : (n < 10)%N) by (apply N.div_small_iff; lia).
  assert (E : pretty_N_char n <> "0"%char).
  { assert (Hc : (n = 1 \/ n = 2 \/ n = 3 \/ n = 4 \/ n = 5 \/ n = 6 \/ n = 7 \/ n = 8 \/ n = 9)%N) by lia.
    destruct Hc as [->|[->|[->|[->|[->|[->|[->|[->| ->]]]]]]]]; discriminate. }
  by rewrite bool_decide_eq_false_2.
Qed.

Lemma decimal_integer n : toml_integer (decimal n).
Proof.
  assert (Hpos : forall p, whole_number (pretty (N.pos p)) = true).
  { intros p. unfold pretty, pretty_N. case_decide; [done|]. by apply pretty_N_go_whole. }
  destruct n as [|p|p]; [by apply unsigned_integer|apply unsigned_integer, Hpos|apply negative_integer, Hpos].
Qed.

Lemma tv_number n : toml_value (tomlInt n).
Proof. apply value_integer, decimal_integer. Qed.

Lemma toFixed1_float n : toml_float (toFixed1 n).
Proof. by apply (decimal_fraction (decimal n) "0"); [apply decimal_integer| |]. Qed.

Lemma tv_empty : toml_value "[]".
Proof. exact value_empty_array. Qed.

Lemma tv_list text texts : toml_value ("[ " +:+ join_with ", " (map tomlString (text :: texts)) +:+ " ]").
Proof. apply value_array; [done|]. apply Forall_map, Forall_forall. intros value _. apply tomlString_basic. Qed.

Lemma tv_range min max : toml_value ("{ min = " +:+ toFixed1 min +:+ ", max = " +:+ toFixed1 max +:+ " }").
Proof.
  pose proof (value_inline_table [("min", toFixed1 min); ("max", toFixed1 max)]) as H. cbn [map join_with fst snd] in H.
  rewrite !string_app_assoc in H. apply H; [done|].
  repeat (apply Forall_cons; split; [split_and!; [done|done|apply toFixed1_float]|]). by apply Forall_nil.
Qed.

Inductive toml_line : string -> Prop :=
  | tl_blank : toml_line ""
  | tl_table path : chars_all path_char path = true -> toml_line ("[" +:+ path +:+ "]")
  | tl_assign name value :
      chars_all key_char name = true -> toml_value value -> toml_line (name +:+ " = " +:+ value).

Lemma path_free path : chars_all path_char path = true -> free_of NEWLINE path = true.
Proof.
  apply chars_all_impl. intros c. destruct c as [[] [] [] [] [] [] [] []]; vm_compute; done.
Qed.

Lemma key_free name : chars_all key_char name = true -> free_of NEWLINE name = true.
Proof.
  apply chars_all_impl. intros c. destruct c as [[] [] [] [] [] [] [] []]; vm_compute; done.
Qed.

Lemma basic_free text : basic_characters text -> free_of NEWLINE text = true.
Proof.
  assert (Hu : forall c, basic_unescaped c = true -> negb (c ≡? NEWLINE) = true)
    by (intros c; destruct c as [[] [] [] [] [] [] [] []]; vm_compute; done).
  assert (Hh : forall c, hexadecimal_digit c = true -> negb (c ≡? NEWLINE) = true)
    by (intros c; destruct c as [[] [] [] [] [] [] [] []]; vm_compute; done).
  unfold free_of. induction 1 as [|c rest Hc _ IH|e rest He _ IH|a b c d rest Hd _ IH]; [done|..]; cbn [chars_all].
  - by rewrite Hu.
  - rewrite IH. by destruct He as [<-|[<-|[<-|[<-|[<-|[<-|[<-|[]]]]]]]].
  - cbn [forallb] in Hd. apply andb_prop in Hd as [Ha [Hb [Hc [Hd _]%andb_prop]%andb_prop]%andb_prop].
    by rewrite (Hh _ Ha), (Hh _ Hb), (Hh _ Hc), (Hh _ Hd), IH.
Qed.

Lemma basic_string_free text : basic_string text -> free_of NEWLINE text = true.
Proof.
  intros [characters H]. change (free_of NEWLINE (QUOTE +:+ characters +:+ QUOTE) = true).
  by rewrite !free_of_app, (basic_free _ H).
Qed.

Lemma is_digits_free text : chars_all is_digit text = true -> free_of NEWLINE text = true.
Proof. apply chars_all_impl. intros c. destruct c as [[] [] [] [] [] [] [] []]; vm_compute; done. Qed.

Lemma toml_integer_free text : toml_integer text -> free_of NEWLINE text = true.
Proof.
  assert (Hw : forall t, whole_number t = true -> free_of NEWLINE t = true).
  { intros [|c t]; [done|]. unfold whole_number. intros [H _]%andb_prop. by apply is_digits_free. }
  intros [t H|t H]; [by apply Hw|]. change (free_of NEWLINE ("-" +:+ t) = true). by rewrite free_of_app, (Hw t H).
Qed.

Lemma toml_float_free text : toml_float text -> free_of NEWLINE text = true.
Proof. intros [whole fraction Hw _ Hf]. by rewrite !free_of_app, (toml_integer_free whole Hw), (is_digits_free fraction Hf). Qed.

Lemma value_free value : toml_value value -> free_of NEWLINE value = true.
Proof.
  intros [text H| | |text H|text H| |items _ H|entries _ H]; try done; rewrite ?free_of_app.
  - by apply basic_string_free.
  - by apply toml_integer_free.
  - by apply toml_float_free.
  - rewrite join_free; [done|done|]. eapply Forall_impl; [exact H|]. apply basic_string_free.
  - rewrite join_free; [done|done|]. apply Forall_map. eapply Forall_impl; [exact H|]. intros [key text] (Hk & _ & Hv). cbn [fst snd] in *.
    by rewrite !free_of_app, (key_free key Hk), (toml_float_free text Hv).
Qed.

Lemma line_free line : toml_line line -> free_of NEWLINE line = true.
Proof.
  intros [|path H|name value Hn Hv]; [done| |]; rewrite !free_of_app;
    [by rewrite (path_free _ H)|by rewrite (key_free _ Hn), (value_free _ Hv)].
Qed.

(** *** Lines of settings *)

Section documents.
Variables (number_le : string -> string -> bool) (finite : string -> bool).
Variable other_number : string -> option Z.

(** How a key is rendered follows from what it takes. *)
Definition rendered_as (entry : string * Setting) : bool :=
  let (key, setting) := entry in
  match setting with
  | s_enum _ | s_path | s_file | s_expanded => quoted_key key && negb (list_key key)
  | s_words => list_key key
  | s_boolean | s_float _ | s_integer _ _ => negb (quoted_key key) && negb (list_key key)
  end.

(** The name of a key, and the table it is in. *)
Definition plain_key (key : string) : bool :=
  let (table, name) := table_and_name key in
  chars_all path_char table && chars_all key_char name.

Definition good_shape (shape : list (string * Setting)) : bool :=
  forallb (fun entry => rendered_as entry && plain_key entry.1) shape.

Lemma shape_of_in shape key setting : shape_of shape key = Some setting -> In (key, setting) shape.
Proof.
  induction shape as [|[name s] shape IH]; [done|]. simpl.
  case_bool_decide as E; [subst name; intros [= ->]; by left|right; auto].
Qed.

Lemma accepted_value shape key setting value :
  good_shape shape = true -> shape_of shape key = Some setting ->
  accepts finite setting value = true ->
  plain_key key = true /\ toml_value (renderConfigValue key value).
Proof.
  intros Hgood Hs Ha. apply shape_of_in in Hs. unfold good_shape in Hgood.
  rewrite forallb_forall in Hgood. apply Hgood in Hs. apply andb_prop in Hs as [Hr Hp].
  split; [done|]. unfold renderConfigValue. simpl in Hr.
  destruct setting, value as [text|texts]; try discriminate Ha; simpl in Ha; tests;
    repeat match goal with H : quoted_key _ = _ |- _ => rewrite H | H : list_key _ = _ |- _ => rewrite H end;
    try apply tv_string.
  - apply orb_prop in Ha as [Ha|Ha]; tests; subst text; [apply (tv_boolean true)|apply (tv_boolean false)].
  - apply tv_float. unfold floatIssue in *. by destruct (FLOAT_SHAPE text).
  - destruct (INTEGER_SHAPE text) eqn:E; [by eapply tv_integer|done].
  - destruct texts; [apply tv_empty|apply tv_list].
Qed.

(** The assignments of accepted settings. *)
Definition good_entry (entry : string * ConfigText) : Prop :=
  plain_key entry.1 = true /\ toml_value (renderConfigValue entry.1 entry.2).

Lemma accepted_entries shape config :
  good_shape shape = true -> object_accepts finite shape config = true ->
  Forall good_entry (defined_entries config).
Proof.
  intros Hgood H. unfold object_accepts in H. rewrite forallb_forall in H.
  apply Forall_forall. intros [key value] Hin. apply list_elem_of_omap in Hin as ([k [v|]] & Hk & [= <- <-]).
  apply list_elem_of_In, H in Hk. simpl in Hk.
  destruct (shape_of shape k) as [setting|] eqn:E; [|done]. by eapply accepted_value.
Qed.

Lemma pinned_entries : Forall good_entry (defined_entries PINNED_BOT_CONFIG).
Proof. repeat (apply Forall_cons; split; [split; [done|exact (tv_boolean false)]|]). constructor. Qed.

Definition is_table (line : string) : bool :=
  match line with String c _ => c ≡? "["%char | EmptyString => false end.

Lemma assignment_is_no_table name value :
  chars_all key_char name = true -> is_table (name +:+ " = " +:+ value) = false.
Proof.
  destruct name as [|c name]; [done|]. intros [H _]%andb_prop. revert H.
  destruct c as [[] [] [] [] [] [] [] []]; vm_compute; done.
Qed.

(** The tables of settings: their names and their lines. *)
Definition setting_line (line : string) : Prop := toml_line line /\ is_table line = false.

Definition good_table (table : string * list string) : Prop :=
  chars_all path_char table.1 = true /\ Forall setting_line table.2.

Lemma good_assignment entry :
  good_entry entry ->
  chars_all path_char (assignment_line entry).1 = true /\ setting_line (assignment_line entry).2.
Proof.
  intros [Hk Hv]. unfold assignment_line, plain_key in *.
  destruct (table_and_name entry.1) as [table name]. apply andb_prop in Hk as [Ht Hn]. simpl.
  split; [done|]. by split; [constructor|apply assignment_is_no_table].
Qed.

Lemma add_line_good table line tables :
  chars_all path_char table = true -> setting_line line ->
  Forall good_table tables -> Forall good_table (add_line table line tables).
Proof.
  intros Ht Hl. induction 1 as [|[name lines] tables [Hn Hls] Htables IH]; simpl.
  - repeat constructor; try done; apply Hl.
  - case_bool_decide; constructor; try done. split; [done|]. apply Forall_app. by split; [|constructor].
Qed.

Lemma add_line_names table line tables :
  NoDup (map fst tables) -> NoDup (map fst (add_line table line tables))
  /\ forall name, name ∈ map fst (add_line table line tables) <-> name = table \/ name ∈ map fst tables.
Proof.
  induction tables as [|[name lines] tables IH]; simpl.
  - intros _. split; [apply NoDup_singleton|]. intros n. rewrite list_elem_of_singleton, elem_of_nil; tauto.
  - intros [Hn Hd]%NoDup_cons. case_bool_decide as E; simpl.
    + subst name. split; [by constructor|]. intros n. rewrite elem_of_cons. tauto.
    + destruct (IH Hd) as [Hd' Hin]. split.
      * constructor; [|done]. rewrite Hin. by intros [->|?].
      * intros n. rewrite !elem_of_cons, Hin. tauto.
Qed.

Lemma config_tables_good entries :
  Forall good_entry entries ->
  Forall good_table (config_tables entries) /\ NoDup (map fst (config_tables entries))
  /\ forall name, name ∈ map fst (config_tables entries) ->
       exists entry, entry ∈ entries /\ (assignment_line entry).1 = name.
Proof.
  intros H. unfold config_tables.
  enough (Hacc : forall seen acc, Forall good_entry seen -> Forall good_table acc -> NoDup (map fst acc) ->
    (forall name, name ∈ map fst acc -> exists entry, entry ∈ entries /\ (assignment_line entry).1 = name) ->
    (forall entry, entry ∈ seen -> entry ∈ entries) ->
    let out := fold_left (fun tables entry =>
                 let (table, line) := assignment_line entry in add_line table line tables) seen acc in
    Forall good_table out /\ NoDup (map fst out)
    /\ forall name, name ∈ map fst out -> exists entry, entry ∈ entries /\ (assignment_line entry).1 = name).
  { apply Hacc; [done|constructor|constructor|by intros ? ?%elem_of_nil|done]. }
  induction seen as [|entry seen IH]; intros acc Hs Hacc Hn Hfrom Hincl; [done|]. simpl.
  apply Forall_cons in Hs as [He Hs]. pose proof (good_assignment entry He) as [Ht Hl].
  assert (Hentry : entry ∈ entries) by (apply Hincl; apply elem_of_cons; by left).
  destruct (assignment_line entry) as [table line] eqn:E.
  destruct (add_line_names table line acc Hn) as [Hn' Hin]. simpl in *. apply IH; try done.
  - by apply add_line_good.
  - intros name Hname. apply Hin in Hname as [->|Hname]; [|by apply Hfrom].
    exists entry. by rewrite E.
  - intros e He'. apply Hincl. apply elem_of_cons. by right.
Qed.

(** *** The document *)

Definition header_of (table : string) : string := "[" +:+ table +:+ "]".

Lemma tables_filter (tables : list (string * list string)) :
  Forall good_table tables ->
  List.filter is_table
    (flat_map (fun table => ("[" +:+ table.1 +:+ "]") :: order_by String.leb table.2 ++ [""]) tables)
  = map (fun table => header_of table.1) tables.
Proof.
  induction 1 as [|[name lines] tables [_ Hlines] Htables IH]; [done|].
  cbn [flat_map map fst snd]. rewrite List.filter_app, IH.
  change (("[" +:+ name +:+ "]") :: ?l) with ([header_of name] ++ l).
  rewrite !List.filter_app, (filter_none is_table (order_by _ _)); [done|].
  intros x Hx. apply in_order_by in Hx. rewrite Forall_forall in Hlines.
  by apply Hlines, list_elem_of_In.
Qed.

Lemma tables_lines (tables : list (string * list string)) :
  Forall good_table tables ->
  Forall toml_line
    (flat_map (fun table => ("[" +:+ table.1 +:+ "]") :: order_by String.leb table.2 ++ [""]) tables).
Proof.
  induction 1 as [|[name lines] tables [Hname Hlines] Htables IH]; [constructor|].
  cbn [flat_map fst snd]. apply Forall_app; split; [|done].
  constructor; [by constructor|]. apply Forall_app; split; [|repeat constructor].
  rewrite Forall_forall in Hlines |- *. intros x Hx.
  apply list_elem_of_In, in_order_by, list_elem_of_In, Hlines in Hx as [Hx _]. done.
Qed.

(** The tables the settings of a bot can be in, and those of the rest. *)
Definition settings_tables : list string :=
  map (fun key => (table_and_name key).1)
    (map fst (ADVANCED_KEY_SHAPE number_le) ++ map fst (BOT_CONFIG_SHAPE number_le)
       ++ map fst PINNED_BOT_CONFIG).

Definition fixed_tables : list string := [
  "Main.General"; "Main.General.Account"; "Main.General.Server"; "Main.Advanced";
  "Main.Advanced.AccountList"; "Main.Advanced.ServerList"; "ChatBot.AutoRelog"; "ChatBot.AntiAFK";
  "ChatBot.McpServer"; "ChatBot.McpServer.Transport"; "ChatBot.McpServer.Capabilities";
  "Console.General"; "Logging"; "ChatBot.AutoRespond"; "ChatBot.ScriptScheduler";
  "ChatBot.DiscordBridge"; "ChatBot.TelegramBridge"].

Lemma tables_apart table : table ∈ settings_tables -> table ∉ fixed_tables.
Proof.
  intros H Hf.
  assert (Hall : forallb (fun t => negb (bool_decide (t ∈ fixed_tables))) settings_tables = true)
    by (vm_compute; reflexivity).
  rewrite forallb_forall in Hall. apply list_elem_of_In, Hall in H.
  by rewrite bool_decide_eq_true_2 in H.
Qed.

Lemma accepted_keys shape config key value :
  object_accepts finite shape config = true -> (key, value) ∈ defined_entries config ->
  key ∈ map fst shape.
Proof.
  intros H Hin. apply list_elem_of_omap in Hin as ([k [v|]] & Hk & [= -> ->]).
  unfold object_accepts in H. rewrite forallb_forall in H. apply list_elem_of_In, H in Hk. simpl in Hk.
  destruct (shape_of shape key) as [setting|] eqn:E; [|done]. apply shape_of_in in E.
  apply list_elem_of_In, in_map_iff. by exists (key, setting).
Qed.

(** What the settings of a saved configuration passed before it was rendered. *)
Definition accepted (c : InstanceConfigInput) : Prop :=
  advancedKeysSchema number_le finite (advancedKeys c) = true
  /\ object_accepts finite (BOT_CONFIG_SHAPE number_le) (botConfig c) = true.

Definition settings_entries (c : InstanceConfigInput) : list (string * ConfigText) :=
  defined_entries (advancedKeys c) ++ defined_entries (botConfig c) ++ defined_entries PINNED_BOT_CONFIG.

Lemma settings_entries_good c : accepted c -> Forall good_entry (settings_entries c).
Proof.
  intros [Ha Hb]. unfold settings_entries. rewrite !Forall_app. split_and!; [| |apply pinned_entries];
    (eapply accepted_entries; [|done]); vm_compute; reflexivity.
Qed.

Lemma settings_entries_tables c entry :
  accepted c -> entry ∈ settings_entries c -> (assignment_line entry).1 ∈ settings_tables.
Proof.
  intros [Ha Hb] Hin. destruct entry as [key value].
  assert (Hkey : key ∈ map fst (ADVANCED_KEY_SHAPE number_le) ++ map fst (BOT_CONFIG_SHAPE number_le)
                         ++ map fst PINNED_BOT_CONFIG).
  { unfold settings_entries in Hin. apply elem_of_app in Hin. rewrite elem_of_app in Hin.
    rewrite !elem_of_app.
    destruct Hin as [Hin|[Hin|Hin]]; [left|right; left|right; right].
    - exact (accepted_keys (ADVANCED_KEY_SHAPE number_le) _ _ _ Ha Hin).
    - exact (accepted_keys (BOT_CONFIG_SHAPE number_le) _ _ _ Hb Hin).
    - apply list_elem_of_omap in Hin as ([k [v|]] & Hk & [= -> ->]).
      apply list_elem_of_In, in_map_iff. exists (key, Some value). by rewrite <- list_elem_of_In. }
  replace (assignment_line (key, value)).1 with (table_and_name key).1
    by (unfold assignment_line; by destruct (table_and_name _)).
  by apply (list_elem_of_fmap_2 (fun key => (table_and_name key).1)).
Qed.

(** Lines of the document whose texts are fixed or whose values are rendered. *)
Ltac fixed_line :=
  match goal with
  | |- toml_line "" => apply tl_blank
  | |- toml_line (String "[" ?rest) =>
      let path := eval vm_compute in (String.substring 0 (String.length rest - 1) rest) in
      exact (tl_table path eq_refl)
  | |- toml_line "BotOwners = []" => exact (tl_assign "BotOwners" "[]" eq_refl tv_empty)
  | |- toml_line _ =>
      apply tl_assign; [reflexivity|];
      first [apply tv_string|apply tv_boolean|apply tv_number|apply tv_range]
  end.

Lemma range_renders range text :
  tomlSecondsRange range = Ok text -> toml_value text.
Proof. unfold tomlSecondsRange. case_match; [done|]. intros [= <-]. apply tv_range. Qed.

Lemma serverLines_good address : Forall setting_line (serverLines other_number address).
Proof.
  unfold serverLines. constructor; [split; [exact (tl_assign "Host" _ eq_refl (tv_string _))|done]|].
  destruct (address_port _) as [port|]; [|constructor].
  apply Forall_singleton. split; [exact (tl_assign "Port" _ eq_refl (tv_number _))|done].
Qed.

Lemma Ok_inj {A} (a b : A) : Ok a = Ok b -> a = b.
Proof. congruence. Qed.

Lemma config_lines_good c lines :
  accepted c -> config_lines other_number c = Ok lines ->
  Forall toml_line lines
  /\ List.filter is_table lines
     = map header_of fixed_tables
         ++ map (fun table => header_of table.1)
              (order_by (fun a b => String.leb a.1 b.1) (config_tables (settings_entries c))).
Proof.
  intros Hc. unfold config_lines.
  destruct (tomlSecondsRange (autoRelogDelaySeconds c)) as [relog|] eqn:Hrelog; [|done].
  destruct (tomlSecondsRange (antiAfkIntervalSeconds c)) as [afk|] eqn:Hafk; [|done].
  intros <-%Ok_inj. apply range_renders in Hrelog, Hafk.
  destruct (config_tables_good _ (settings_entries_good c Hc)) as (Htables & _ & _).
  apply (Permutation_Forall (Permutation_sym
           (order_by_perm (fun a b => String.leb a.1 b.1) _))) in Htables.
  pose proof (serverLines_good (serverAddress c)) as Hserver. split.
  - rewrite !Forall_app. split_and!.
    + repeat (apply Forall_cons; split; [fixed_line|]). constructor.
    + eapply Forall_impl; [apply Hserver|]. by intros ? [].
    + repeat (apply Forall_cons; split;
        [first [fixed_line|apply tl_assign; [reflexivity|assumption]]|]). constructor.
    + by apply tables_lines.
  - rewrite !List.filter_app, (filter_none is_table (serverLines _ _)).
    + unfold renderConfigTables. rewrite tables_filter by done. reflexivity.
    + intros x Hx. rewrite Forall_forall in Hserver. by apply Hserver, list_elem_of_In.
Qed.

Lemma header_of_inj a b : header_of a = header_of b -> a = b.
Proof.
  unfold header_of. intros H. change (String "[" (a +:+ "]") = String "[" (b +:+ "]")) in H.
  injection H as H. by apply app_inj_length in H as [-> _].
Qed.

Lemma document_tables_apart c :
  accepted c ->
  NoDup (map header_of fixed_tables
           ++ map (fun table => header_of table.1)
                (order_by (fun a b => String.leb a.1 b.1) (config_tables (settings_entries c)))).
Proof.
  intros Hc. destruct (config_tables_good _ (settings_entries_good c Hc)) as (_ & Hnd & Hfrom).
  set (tables := order_by _ (config_tables _)).
  assert (Hp : Permutation (map fst tables) (map fst (config_tables (settings_entries c))))
    by (apply Permutation_map, order_by_perm).
  rewrite <- (map_map fst header_of), <- map_app. apply NoDup_fmap_2; [intros ? ?; apply header_of_inj|].
  apply NoDup_app. split_and!.
  - by apply (bool_decide_unpack _).
  - intros table Hfixed Hin. rewrite Hp in Hin. apply Hfrom in Hin as (entry & Hentry & <-).
    exact (tables_apart _ (settings_entries_tables c entry Hc Hentry) Hfixed).
  - by rewrite Hp.
Qed.

End documents.

(** A configuration with settings of a bot, and its document. *)
Definition example_config : InstanceConfigInput :=
  with_bots [("ChatBot.AutoEat.Threshold", Some (one "6"))]
    [("ChatBot.Alerts.Matches", Some (many ["creeper"; "say " +:+ QUOTE +:+ "[b]" +:+ QUOTE]))]
    (defaultInstanceConfig microsoft "steve" "mc.example:25566" "1.20").

