(* ===== verification/InstanceInput.v ===== *)
(** What a request about a bot may hold.

    The schemas of packages/contracts/src/instance.ts on the fields of a
    request, and the versions of the game there are
    (packages/contracts/src/minecraft-version.ts).  A document of settings is
    read as JSON by the argument [readDocument], which fills in the defaults and
    turns a single number of seconds into a range; the schemas check its fields. *)

From S2P Require Import Prelude Tables Calendar Observer ClientSettings ClientConfig Shell.

(** ** Versions *)

Definition MINECRAFT_VERSION_AUTO : string := "auto".

Definition MINECRAFT_VERSIONS : list string :=
  ["1.0"; "1.0.0"; "1.0.1"; "1.1"; "1.1.0"; "1.2"; "1.2.0"; "1.2.1"; "1.2.2"; "1.2.3"; "1.2.4";
   "1.2.5"; "1.3"; "1.3.0"; "1.3.1"; "1.3.2"; "1.4"; "1.4.0"; "1.4.1"; "1.4.2"; "1.4.3"; "1.4.4";
   "1.4.5"; "1.4.6"; "1.4.7"; "1.5"; "1.5.0"; "1.5.1"; "1.5.2"; "1.6"; "1.6.0"; "1.6.1"; "1.6.2";
   "1.6.3"; "1.6.4"; "1.7"; "1.7.0"; "1.7.1"; "1.7.2"; "1.7.3"; "1.7.4"; "1.7.5"; "1.7.6";
   "1.7.7"; "1.7.8"; "1.7.9"; "1.7.10"; "1.8"; "1.8.0"; "1.8.1"; "1.8.2"; "1.8.3"; "1.8.4";
   "1.8.5"; "1.8.6"; "1.8.7"; "1.8.8"; "1.8.9"; "1.9"; "1.9.0"; "1.9.1"; "1.9.2"; "1.9.3";
   "1.9.4"; "1.10"; "1.10.0"; "1.10.1"; "1.10.2"; "1.11"; "1.11.0"; "1.11.1"; "1.11.2"; "1.12";
   "1.12.0"; "1.12.1"; "1.12.2"; "1.13"; "1.13.0"; "1.13.1"; "1.13.2"; "1.14"; "1.14.0"; "1.14.1";
   "1.14.2"; "1.14.3"; "1.14.4"; "1.15"; "1.15.0"; "1.15.1"; "1.15.2"; "1.16"; "1.16.0"; "1.16.1";
   "1.16.2"; "1.16.3"; "1.16.4"; "1.16.5"; "1.17"; "1.17.0"; "1.17.1"; "1.18"; "1.18.0"; "1.18.1";
   "1.18.2"; "1.19"; "1.19.0"; "1.19.1"; "1.19.2"; "1.19.3"; "1.19.4"; "1.20"; "1.20.1"; "1.20.2";
   "1.20.3"; "1.20.4"; "1.20.5"; "1.20.6"; "1.21"; "1.21.1"; "1.21.2"; "1.21.3"; "1.21.4";
   "1.21.5"; "1.21.6"; "1.21.7"; "1.21.8"; "1.21.9"; "1.21.10"; "1.21.11"; "26.1"; "26.2"].

Definition minecraftVersionSchema (version : string) : bool :=
  bool_decide (version ∈ MINECRAFT_VERSION_AUTO :: MINECRAFT_VERSIONS).

(** The version without a last part of zero. *)
Definition bareSpellingOf (version : string) : option string :=
  match split_on "."%char version with
  | [major; minor; patch] => if patch ≡? "0" then Some (major +:+ "." +:+ minor) else None
  | _ => None
  end.

Definition MINECRAFT_VERSION_ALIASES : list string :=
  List.filter (fun version =>
                 match bareSpellingOf version with
                 | Some bare => bool_decide (bare ∈ MINECRAFT_VERSIONS)
                 | None => false
                 end) MINECRAFT_VERSIONS.

Definition numbersIn (version : string) : list Z :=
  map (fun part => default 0 (numberOfDigits part)) (split_on "."%char version).

(** [newestFirst(left, right)]: the first gap, or zero. *)
Fixpoint gap_of (earlier later : list Z) : Z :=
  match earlier, later with
  | [], [] => 0
  | e :: earlier, [] => if 0 - e =? 0 then gap_of earlier [] else 0 - e
  | [], l :: later => if l - 0 =? 0 then (fix go (rest : list Z) : Z :=
                        match rest with [] => 0 | x :: rest => if x =? 0 then go rest else x end) later
                      else l - 0
  | e :: earlier, l :: later => if l - e =? 0 then gap_of earlier later else l - e
  end.

Definition newestFirst (left right : string) : Z := gap_of (numbersIn left) (numbersIn right).

Definition MINECRAFT_VERSION_OPTIONS : list string :=
  order_by (fun a b => newestFirst a b <=? 0)
    (List.filter (fun version => negb (bool_decide (version ∈ MINECRAFT_VERSION_ALIASES)))
       MINECRAFT_VERSIONS).

(** ** Accounts and addresses *)

Section schemas.
(** [z.string().email()], and the numbers of [ClientSettings]. *)
Variables (is_email : string -> bool) (number_le : string -> string -> bool) (finite : string -> bool).

Definition MINECRAFT_USERNAME_PATTERN (value : string) : bool :=
  (3 <=? String.length value)%nat && (String.length value <=? 16)%nat
  && chars_all (fun c => is_letter c || is_digit c || (c ≡? "_"%char)) value.

Definition accountIdentifier (accountType : AccountType) (value : string) : bool :=
  if isOfflineAccount accountType then MINECRAFT_USERNAME_PATTERN value else is_email value.

Definition minecraftNameOf (accountType : AccountType) (minecraftAccount : string)
    (minecraftUsername : option string) : option string :=
  match minecraftUsername with
  | Some name => if (0 <? String.length name)%nat then Some name
                 else if isOfflineAccount accountType then Some minecraftAccount else None
  | None => if isOfflineAccount accountType then Some minecraftAccount else None
  end.

Definition withoutPathParts (value : string) : bool :=
  negb (includes "/" value) && negb (includes "\" value) && negb (includes ".." value)
  && chars_all (fun c => (32 <=? Ascii.nat_of_ascii c)%nat) value.

Definition sized (min max : nat) (value : string) : bool :=
  (min <=? String.length value)%nat && (String.length value <=? max)%nat.

Record CreateInstanceInput := MkCreateInput {
  cr_hostId : string; cr_name : string; cr_accountType : AccountType; cr_minecraftAccount : string;
  cr_serverAddress : string; cr_minecraftVersion : string }.

Definition createInstanceInput (input : CreateInstanceInput) : bool :=
  (1 <=? String.length (cr_hostId input))%nat && sized 1 64 (cr_name input)
  && sized 1 255 (cr_minecraftAccount input)
  && sized 1 253 (cr_serverAddress input) && withoutPathParts (cr_serverAddress input)
  && minecraftVersionSchema (cr_minecraftVersion input)
  && accountIdentifier (cr_accountType input) (cr_minecraftAccount input).

(** ** Settings *)

Definition DELAY_SECONDS_MINIMUM : Z := 1.
Definition DELAY_SECONDS_MAXIMUM : Z := 3600.

Definition delayBound (n : Z) : bool := (DELAY_SECONDS_MINIMUM <=? n) && (n <=? DELAY_SECONDS_MAXIMUM).

Definition delaySecondsRange (range : DelaySecondsRange) : bool :=
  delayBound (range_min range) && delayBound (range_max range) && (range_min range <=? range_max range).

(** What a saved document is held to, besides the settings of the bots. *)
Definition stored_fields (c : InstanceConfigInput) : bool :=
  sized 1 255 (minecraftAccount c) && sized 1 253 (serverAddress c)
  && minecraftVersionSchema (minecraftVersion c)
  && (0 <=? autoRelogRetries c) && (autoRelogRetries c <=? 1000)
  && delaySecondsRange (autoRelogDelaySeconds c) && delaySecondsRange (antiAfkIntervalSeconds c)
  && (1024 <=? liveControlPort c) && (liveControlPort c <=? 65535)
  && advancedKeysSchema number_le finite (advancedKeys c).

Definition instanceConfigInput (c : InstanceConfigInput) : bool :=
  stored_fields c && withoutPathParts (minecraftAccount c) && withoutPathParts (serverAddress c)
  && botConfigSchema number_le finite (botConfig c).

Variable readDocument : string -> option InstanceConfigInput.

Definition instanceConfigStored (document : string) : option InstanceConfigInput :=
  let? c := readDocument document in
  if stored_fields c && storedBotConfigSchema number_le finite (botConfig c) then Some c else None.

Definition instanceBotsInput (botConfig advancedKeys : Settings) : bool :=
  botConfigSchema number_le finite botConfig && advancedKeysSchema number_le finite advancedKeys.

(** What may be asked of a bot that runs. *)
Definition sendInstanceCommandInput (instanceId command : string) : bool :=
  (1 <=? String.length instanceId)%nat && instanceCommandText command.

Definition readInstanceConsoleInput (instanceId : string) (lines : Z) : bool :=
  (1 <=? String.length instanceId)%nat && (1 <=? lines) && (lines <=? 1000).

Lemma input_accepted c : instanceConfigInput c = true -> accepted number_le finite c.
Proof.
  unfold instanceConfigInput, botConfigSchema, accepted.
  intros [[[Hfields _]%andb_prop _]%andb_prop [Hbots _]%andb_prop]%andb_prop.
  unfold stored_fields in Hfields. apply andb_prop in Hfields as [_ Hkeys]. exact (conj Hkeys Hbots).
Qed.

(** Settings that passed the schema are rendered: no delay is negative. *)
Lemma input_renders other_number c :
  instanceConfigInput c = true -> exists document, renderInstanceConfig other_number c = Ok document.
Proof.
  unfold instanceConfigInput. intros [[[Hfields _]%andb_prop _]%andb_prop _]%andb_prop.
  unfold stored_fields in Hfields. apply andb_prop in Hfields as [Hfields _].
  unfold delaySecondsRange, delayBound, DELAY_SECONDS_MINIMUM in Hfields. tests. unfold renderInstanceConfig, config_lines, tomlSecondsRange.
  destruct (Z.ltb_spec (range_min (autoRelogDelaySeconds c)) 0); [lia|].
  destruct (Z.ltb_spec (range_min (antiAfkIntervalSeconds c)) 0); [lia|]. simpl. by eexists.
Qed.
End schemas.
