(* ===== verification/Access.v ===== *)
(** Who may do what, and the record of what was done.

    The roles of the members of an organization and what each may do
    (packages/contracts/src/authz.ts), the audit events
    (packages/core/src/audit/audit.repository.ts) and the reading of them
    (packages/core/src/audit/audit.controller.ts). *)

From S2P Require Import Prelude Tables Dates Shell.

(** ** Roles *)

Inductive Role := owner | operator | viewer.

#[global] Instance Role_eq_dec : EqDecision Role.
Proof. solve_decision. Defined.

Inductive Capability :=
  | instance_read | console_read | console_write | instance_start | config_edit | instance_create
  | instance_authenticate | host_enroll | sshKey_manage | member_manage | notification_read
  | notification_manage | audit_read.

#[global] Instance Capability_eq_dec : EqDecision Capability.
Proof. solve_decision. Defined.

Definition CAPABILITIES : list Capability :=
  [instance_read; console_read; console_write; instance_start; config_edit; instance_create;
   instance_authenticate; host_enroll; sshKey_manage; member_manage; notification_read;
   notification_manage; audit_read].

Definition VIEWER : list Capability := [instance_read; console_read].

Definition OPERATOR : list Capability :=
  VIEWER ++ [console_write; instance_start; config_edit; notification_read].

Definition GRANTS (role : Role) : list Capability :=
  match role with viewer => VIEWER | operator => OPERATOR | owner => CAPABILITIES end.

Definition can (role : Role) (capability : Capability) : bool :=
  bool_decide (capability ∈ GRANTS role).

(** Every capability is somebody's, and nobody has what the owner has not. *)
Lemma owner_can_everything capability : can owner capability = true.
Proof. by destruct capability. Qed.

Lemma viewer_can_less capability : can viewer capability = true -> can operator capability = true.
Proof. by destruct capability. Qed.

Record ActorContext := MkActor {
  ctx_organizationId : string; ctx_memberId : string; ctx_actorLabel : string; ctx_role : Role }.

Definition ForbiddenError (message : string) : thrown :=
  ThrownError (NamedError "ForbiddenError") message.

Definition role_text (role : Role) : string :=
  match role with owner => "owner" | operator => "operator" | viewer => "viewer" end.

Definition capability_text (capability : Capability) : string :=
  match capability with
  | instance_read => "instance.read" | console_read => "console.read"
  | console_write => "console.write" | instance_start => "instance.start"
  | config_edit => "config.edit" | instance_create => "instance.create"
  | instance_authenticate => "instance.authenticate" | host_enroll => "host.enroll"
  | sshKey_manage => "sshKey.manage" | member_manage => "member.manage"
  | notification_read => "notification.read" | notification_manage => "notification.manage"
  | audit_read => "audit.read"
  end.

Definition requireCapabilityFor (role : Role) (capability : Capability) : result unit :=
  if can role capability then Ok tt
  else Throw (ForbiddenError ("Role " +:+ role_text role +:+ " lacks " +:+ capability_text capability)).

(** ** Audit events *)

Record AuditEntry := MkAuditEntry {
  entry_actorId : option string; entry_actorLabel : string; entry_action : string;
  entry_subjectType : string; entry_subjectId : string; entry_detail : list (string * string) }.

Record AuditEventRow := MkAuditEvent {
  ae_id : string; ae_organizationId : string; ae_actorId : option string; ae_actorLabel : string;
  ae_action : string; ae_subjectType : string; ae_subjectId : string;
  ae_detail : list (string * string); ae_createdAt : Z }.

Definition SYSTEM_ACTOR_LABEL : string := "system".

Definition blank (value : string) : bool := (String.length (trim value) =? 0)%nat.

Definition resolveActorLabel (entry : AuditEntry) : result string :=
  match entry_actorId entry with
  | None => Ok (if blank (entry_actorLabel entry) then SYSTEM_ACTOR_LABEL else entry_actorLabel entry)
  | Some _ =>
      if blank (entry_actorLabel entry)
      then Throw (internal "actorLabel is required when actorId is set")
      else Ok (entry_actorLabel entry)
  end.

Module AuditRepository.
Definition Table : Type := list AuditEventRow.

(** [record]: the row the database stamps with its id and its clock. *)
Definition record (organizationId newId : string) (createdAt : Z) (entry : AuditEntry)
    : M Table AuditEventRow :=
  let* label := lift (resolveActorLabel entry) in
  let row :=
    MkAuditEvent newId organizationId (entry_actorId entry) label (entry_action entry)
      (entry_subjectType entry) (entry_subjectId entry) (entry_detail entry) createdAt in
  stmt (fun t => (row, t ++ [row])).

(** Newest first, and by [id_le], the collation of the database, among those
    of one instant. *)
Definition newest (id_le : string -> string -> bool) (a b : AuditEventRow) : bool :=
  (ae_createdAt b <? ae_createdAt a)
  || ((ae_createdAt a =? ae_createdAt b) && id_le (ae_id b) (ae_id a)).

Definition list_ (id_le : string -> string -> bool) (organizationId : string) (limit offset : nat)
    (t : Table) : list AuditEventRow :=
  take limit (drop offset
    (order_by (newest id_le) (select (fun row => ae_organizationId row ≡? organizationId) t))).

Definition count (organizationId : string) (t : Table) : Z :=
  Z.of_nat (length (select (fun row => ae_organizationId row ≡? organizationId) t)).
End AuditRepository.

(** ** The controller *)

Definition AUDIT_PAGE_SIZE : nat := 50.

Record AuditEventView := MkAuditView {
  view_id : string; view_actorLabel : string; view_action : string; view_subjectType : string;
  view_subjectId : string; view_detail : list (string * string); view_createdAt : string }.

Definition toView (row : AuditEventRow) : AuditEventView :=
  MkAuditView (ae_id row) (ae_actorLabel row) (ae_action row) (ae_subjectType row)
    (ae_subjectId row) (ae_detail row) (toISOString (ae_createdAt row)).

Record AuditPage := MkAuditPage { items : list AuditEventView; total : Z }.

Definition requireAuditRead (ctx : ActorContext) : result unit :=
  if can (ctx_role ctx) audit_read then Ok tt else Throw (ForbiddenError "Forbidden: audit.read").

Definition audit_list (id_le : string -> string -> bool) (ctx : ActorContext) (offset : nat)
    : M AuditRepository.Table AuditPage :=
  lift (requireAuditRead ctx) ;;;
  transaction (fun before _ => before)
    (let* rows := gets (AuditRepository.list_ id_le (ctx_organizationId ctx) AUDIT_PAGE_SIZE offset) in
     let* counted := gets (AuditRepository.count (ctx_organizationId ctx)) in
     ret (MkAuditPage (map toView rows) counted)).

(** ** Reading every page gives every event once *)

(** The pages from [offset] on, until one is not full. *)
Fixpoint pages_from (id_le : string -> string -> bool) (organizationId : string)
    (fuel offset : nat) (t : AuditRepository.Table) : list AuditEventRow :=
  match fuel with
  | O => []
  | S fuel =>
      let page := AuditRepository.list_ id_le organizationId AUDIT_PAGE_SIZE offset t in
      if (length page <? AUDIT_PAGE_SIZE)%nat then page
      else page ++ pages_from id_le organizationId fuel (offset + AUDIT_PAGE_SIZE) t
  end.

Lemma pages_are_the_rest id_le organizationId fuel offset t :
  let sorted := order_by (AuditRepository.newest id_le)
                  (select (fun row => ae_organizationId row ≡? organizationId) t) in
  (length sorted < offset + fuel * AUDIT_PAGE_SIZE)%nat ->
  pages_from id_le organizationId fuel offset t = drop offset sorted.
Proof.
  revert offset. induction fuel as [|fuel IH]; intros offset sorted Hfuel.
  - simpl in Hfuel. by rewrite drop_ge by lia.
  - cbn [pages_from]. unfold AuditRepository.list_. fold sorted.
    destruct (Nat.ltb_spec (length (take AUDIT_PAGE_SIZE (drop offset sorted))) AUDIT_PAGE_SIZE) as [H|H].
    + rewrite length_take, length_drop in H. rewrite take_ge; [done|]. rewrite length_drop. lia.
    + rewrite IH by (fold sorted; unfold AUDIT_PAGE_SIZE in *; lia). fold sorted.
      rewrite <- drop_drop. apply take_drop.
Qed.

(** paging through the audit log ends, and shows every event of the
    organization once and none of another's, whatever the events are and
    however many there are. *)
Theorem audit_pages_are_the_log id_le organizationId t :
  exists fuel,
    Permutation (pages_from id_le organizationId fuel 0 t)
      (List.filter (fun row => ae_organizationId row ≡? organizationId) t).
Proof.
  exists (S (length (order_by (AuditRepository.newest id_le)
                (select (fun row => ae_organizationId row ≡? organizationId) t)))).
  rewrite pages_are_the_rest by (unfold AUDIT_PAGE_SIZE; lia). rewrite drop_0. apply order_by_perm.
Qed.
