(* ===== verification/HostStore.v ===== *)
(** The table of the machines.

    packages/core/src/host/host.repository.ts, what a machine must have to run
    bots (packages/core/src/host/runtime-guard.ts) and how a failed connection
    is told (packages/core/src/host/unreachable.ts).  The columns of a row are
    grouped: its address, the trust in its key, what is known of it, and the
    claim of a provisioning. *)

From S2P Require Import Prelude Tables Shell Access.

Record HostAddress := MkHostAddress {
  hostname : string; port : Z; username : string; sshKeyId : option string }.

Record HostTrust := MkTrust {
  hostKeyFingerprint : option string; hostKeyAlgorithm : option string;
  hostKeyTrustedAt : option Z; hostKeyTrustedBy : option string; hostKeyTrustedByLabel : string }.

Inductive NetworkStack := slirp4netns | pasta.

#[global] Instance NetworkStack_eq_dec : EqDecision NetworkStack.
Proof. solve_decision. Defined.


Inductive HostArchitecture := x64 | arm64.

Record HostFacts := MkFacts {
  osRelease : option string; osId : option string; osName : option string;
  cpuCount : option Z; memoryMb : option Z; lastSeenAt : option Z; failedUnits : option Z;
  networkStack : option NetworkStack; architecture : option HostArchitecture }.

Record HostProvisioning := MkProvisioning {
  provisioningAttemptId : option string; provisioningClaimedAt : option Z;
  provisioningError : option string; provisioningStep : option string;
  provisioningStepIndex : option Z; provisioningStepTotal : option Z }.

Inductive HostStatus := pending | provisioning | ready | unreachable | host_error | removing.

#[global] Instance HostStatus_eq_dec : EqDecision HostStatus.
Proof. solve_decision. Defined.

Record HostRow := MkHostRow {
  host_id : string; host_organizationId : string; host_name : string; host_status : HostStatus;
  host_address : HostAddress; host_trust : HostTrust; host_facts : HostFacts;
  host_provisioning : HostProvisioning; teardownRequestedAt : option Z; teardownError : option string;
  host_createdAt : Z }.

Definition with_status (status : HostStatus) (h : HostRow) : HostRow :=
  MkHostRow (host_id h) (host_organizationId h) (host_name h) status (host_address h) (host_trust h)
    (host_facts h) (host_provisioning h) (teardownRequestedAt h) (teardownError h) (host_createdAt h).

Definition with_trust (trust : HostTrust) (h : HostRow) : HostRow :=
  MkHostRow (host_id h) (host_organizationId h) (host_name h) (host_status h) (host_address h) trust
    (host_facts h) (host_provisioning h) (teardownRequestedAt h) (teardownError h) (host_createdAt h).

Definition with_facts (facts : HostFacts) (h : HostRow) : HostRow :=
  MkHostRow (host_id h) (host_organizationId h) (host_name h) (host_status h) (host_address h)
    (host_trust h) facts (host_provisioning h) (teardownRequestedAt h) (teardownError h)
    (host_createdAt h).

Definition with_provisioning (claim : HostProvisioning) (h : HostRow) : HostRow :=
  MkHostRow (host_id h) (host_organizationId h) (host_name h) (host_status h) (host_address h)
    (host_trust h) (host_facts h) claim (teardownRequestedAt h) (teardownError h) (host_createdAt h).

Definition with_teardown (requestedAt : option Z) (error : option string) (h : HostRow) : HostRow :=
  MkHostRow (host_id h) (host_organizationId h) (host_name h) (host_status h) (host_address h)
    (host_trust h) (host_facts h) (host_provisioning h) requestedAt error (host_createdAt h).

(** ** Running bots *)

Definition runs_bots (h : HostRow) : bool :=
  bool_decide (is_Some (networkStack (host_facts h))) && bool_decide (is_Some (architecture (host_facts h))).

(** [checkHostRuntime(host).kind === "ready"], and what is missing otherwise. *)
Definition checkHostRuntime (h : HostRow) : option (list string) :=
  if runs_bots h then None
  else Some ((if networkStack (host_facts h) then [] else ["networkStack"])
               ++ (if architecture (host_facts h) then [] else ["architecture"])).

Inductive HostNeed := setUpOnce | runtime.

Definition hostMeets (h : HostRow) (need : HostNeed) : bool :=
  if osRelease (host_facts h) then
    match need with
    | setUpOnce => true
    | runtime => match checkHostRuntime h with None => true | Some _ => false end
    end
  else false.

(** ** A failed connection

    [code] and [level] are the fields of the thrown error, when it has them as
    texts; [matches] is a regular expression without regard to case. *)

Definition TIMED_OUT : string := "The server did not answer in time".
Definition REFUSED : string := "The server refused the connection".
Definition NOT_FOUND : string := "That address could not be found".
Definition NO_ROUTE : string := "That address could not be reached".
Definition DROPPED : string := "The server closed the connection".
Definition KEY_REFUSED : string := "The server did not accept this SSH key".
Definition HOST_KEY_MISMATCH : string := "The server's key did not match the fingerprint".
Definition COULD_NOT_CONNECT : string := "Could not connect to the server".

Definition BY_CODE : list (string * string) := [
  ("ETIMEDOUT", TIMED_OUT); ("ECONNREFUSED", REFUSED); ("ENOTFOUND", NOT_FOUND);
  ("EAI_AGAIN", NOT_FOUND); ("EHOSTUNREACH", NO_ROUTE); ("ENETUNREACH", NO_ROUTE);
  ("ENETDOWN", NO_ROUTE); ("ECONNRESET", DROPPED); ("EPIPE", DROPPED)].

Definition connectFailureReason (code level : option string) (message : string) : string :=
  let known := let? c := code in snd <$> List.find (fun entry => entry.1 ≡? c) BY_CODE in
  match known with
  | Some reason => reason
  | None =>
      if level ≡? Some "client-authentication" then KEY_REFUSED
      else if level ≡? Some "client-dns" then NOT_FOUND
      else if (level ≡? Some "client-timeout") || includes "timed out" (toLowerCase message) then TIMED_OUT
      else if includes "host denied" (toLowerCase message) then HOST_KEY_MISMATCH
      else COULD_NOT_CONNECT
  end.

(** ** The repository *)

Definition UNKNOWN_TRUSTED_BY_LABEL : string := "unknown".

Definition requireNonBlankLabel (label : string) : result string :=
  if blank label
  then Throw (internal "hostKeyTrustedByLabel is required when hostKeyTrustedBy is set")
  else Ok label.

Record HostCreateValues := MkHostValues {
  create_name : string; create_status : HostStatus; create_address : HostAddress;
  create_trust : HostTrust; create_facts : HostFacts }.

Definition resolveHostKeyTrustedByLabel (values : HostCreateValues) : result string :=
  let label := hostKeyTrustedByLabel (create_trust values) in
  match hostKeyTrustedBy (create_trust values) with
  | None => Ok (if blank label then UNKNOWN_TRUSTED_BY_LABEL else label)
  | Some _ => requireNonBlankLabel label
  end.

(** How many of [TRUST_EVIDENCE_FIELDS] are there. *)
Definition presentEvidenceCount (trust : HostTrust) : nat :=
  (if hostKeyFingerprint trust then 1 else 0) + (if hostKeyAlgorithm trust then 1 else 0)
  + (if hostKeyTrustedAt trust then 1 else 0).

Definition requireConsistentTrustTuple (values : HostCreateValues) : result unit :=
  let present := presentEvidenceCount (create_trust values) in
  if negb (present =? 0)%nat && negb (present =? 3)%nat
  then Throw (internal "Host key trust evidence (hostKeyFingerprint, hostKeyAlgorithm, hostKeyTrustedAt) must be set all at once or not at all")
  else if (if hostKeyTrustedBy (create_trust values) then true else false) && (present =? 0)%nat
  then Throw (internal "hostKeyTrustedBy cannot be set without hostKeyFingerprint, hostKeyAlgorithm, and hostKeyTrustedAt")
  else Ok tt.

Definition PROVISIONING_LEASE_MS : Z := 20 * 60 * 1000.

Definition isProvisioningClaimStale (claimedAt : option Z) (now : Z) : bool :=
  match claimedAt with None => true | Some t => PROVISIONING_LEASE_MS <? now - t end.

(** The fields of a patch that are not [undefined]. *)
Record HostUpdateValues := MkHostPatch {
  p_name : option string; p_hostname : option string; p_port : option Z; p_username : option string;
  p_sshKeyId : option (option string); p_status : option HostStatus;
  p_osRelease : option (option string); p_cpuCount : option (option Z); p_memoryMb : option (option Z);
  p_lastSeenAt : option (option Z); p_osId : option (option string); p_osName : option (option string);
  p_failedUnits : option (option Z) }.

Definition no_patch : HostUpdateValues :=
  MkHostPatch None None None None None None None None None None None None None.

Definition whitelistHostUpdate (patch : HostUpdateValues) (h : HostRow) : HostRow :=
  let a := host_address h in
  let f := host_facts h in
  MkHostRow (host_id h) (host_organizationId h) (default (host_name h) (p_name patch))
    (default (host_status h) (p_status patch))
    (MkHostAddress (default (hostname a) (p_hostname patch)) (default (port a) (p_port patch))
       (default (username a) (p_username patch)) (default (sshKeyId a) (p_sshKeyId patch)))
    (host_trust h)
    (MkFacts (default (osRelease f) (p_osRelease patch)) (default (osId f) (p_osId patch))
       (default (osName f) (p_osName patch)) (default (cpuCount f) (p_cpuCount patch))
       (default (memoryMb f) (p_memoryMb patch)) (default (lastSeenAt f) (p_lastSeenAt patch))
       (default (failedUnits f) (p_failedUnits patch)) (networkStack f) (architecture f))
    (host_provisioning h) (teardownRequestedAt h) (teardownError h) (host_createdAt h).

Module HostRepository.
Definition Table : Type := list HostRow.

Definition owned (organizationId id : string) (h : HostRow) : bool :=
  (host_id h ≡? id) && (host_organizationId h ≡? organizationId).

Definition beginTeardown (organizationId id : string) (at_ : Z) (t : Table) : bool * Table :=
  ((0 <? affected (owned organizationId id) t)%nat,
   update_where (owned organizationId id)
     (fun h => with_teardown (Some at_) None (with_status removing h)) t).

Definition recordTeardownFailure (id organizationId reason : string) (t : Table) : unit * Table :=
  (tt, update_where (owned organizationId id)
         (fun h => with_teardown (teardownRequestedAt h) (Some (String.substring 0 2000 reason)) h) t).

Definition torn_down (organizationId id : string) (h : HostRow) : bool :=
  owned organizationId id h && (host_status h ≡? removing).

Definition deleteAfterTeardown (id organizationId : string) (t : Table) : bool * Table :=
  ((0 <? affected (torn_down organizationId id) t)%nat, delete_where (torn_down organizationId id) t).

Definition listPollableAcrossOrganizations (t : Table) : Table :=
  select (fun h => negb (host_status h ≡? removing) && bool_decide (is_Some (osRelease (host_facts h)))
                   && runs_bots h) t.

Definition seen (seenAt : Z) (failed : option Z) (id name : option string) (h : HostRow) : HostRow :=
  let f := host_facts h in
  with_facts
    (MkFacts (osRelease f) (if id then id else osId f) (if name then name else osName f)
       (cpuCount f) (memoryMb f) (Some seenAt) failed (networkStack f) (architecture f)) h.

Definition recordSeen (id organizationId : string) (seenAt : Z) (failedUnits : option Z)
    (osId osName : option string) (t : Table) : unit * Table :=
  (tt, update_where (owned organizationId id) (seen seenAt failedUnits osId osName) t).

Definition insert (organizationId newId : string) (createdAt : Z) (values : HostCreateValues)
    : M Table HostRow :=
  lift (requireConsistentTrustTuple values) ;;;
  let* label := lift (resolveHostKeyTrustedByLabel values) in
  let trust := create_trust values in
  let row :=
    MkHostRow newId organizationId (create_name values) (create_status values) (create_address values)
      (MkTrust (hostKeyFingerprint trust) (hostKeyAlgorithm trust) (hostKeyTrustedAt trust)
         (hostKeyTrustedBy trust) label)
      (create_facts values) (MkProvisioning None None None None None None) None None createdAt in
  stmt (fun t => (row, t ++ [row])).

Definition findById (organizationId id : string) (t : Table) : option HostRow :=
  select_first (owned organizationId id) t.

Definition list_ (organizationId : string) (t : Table) : Table :=
  select (fun h => host_organizationId h ≡? organizationId) t.

Definition update (organizationId id : string) (patch : HostUpdateValues) (t : Table)
    : option HostRow * Table :=
  (head (updated (owned organizationId id) (whitelistHostUpdate patch) t),
   update_where (owned organizationId id) (whitelistHostUpdate patch) t).

Definition delete (organizationId id : string) (t : Table) : bool * Table :=
  ((0 <? affected (owned organizationId id) t)%nat, delete_where (owned organizationId id) t).

Definition attempted (organizationId id attemptId : string) (h : HostRow) : bool :=
  owned organizationId id h && (provisioningAttemptId (host_provisioning h) ≡? Some attemptId).

Definition progress (reached : string * Z * Z) (p : HostProvisioning) : HostProvisioning :=
  MkProvisioning (provisioningAttemptId p) (provisioningClaimedAt p) (provisioningError p)
    (Some reached.1.1) (Some reached.1.2) (Some reached.2).

Definition recordProvisioningProgress (organizationId id attemptId : string) (reached : string * Z * Z)
    (t : Table) : unit * Table :=
  (tt, update_where
         (fun h => attempted organizationId id attemptId h
                   && (provisioningError (host_provisioning h) ≡? None))
         (fun h => with_provisioning (progress reached (host_provisioning h)) h) t).

Definition failure (reason : string) (reached : option (string * Z * Z)) (p : HostProvisioning)
    : HostProvisioning :=
  let p' := match reached with Some r => progress r p | None => p end in
  MkProvisioning (provisioningAttemptId p') (provisioningClaimedAt p') (Some reason)
    (provisioningStep p') (provisioningStepIndex p') (provisioningStepTotal p').

Definition recordProvisioningFailure (organizationId id attemptId reason : string)
    (reached : option (string * Z * Z)) (t : Table) : unit * Table :=
  (tt, update_where (attempted organizationId id attemptId)
         (fun h => with_provisioning (failure reason reached (host_provisioning h)) h) t).

Definition stale_claim (now : Z) (h : HostRow) : bool :=
  (host_status h ≡? provisioning)
  && match provisioningClaimedAt (host_provisioning h) with
     | None => true
     | Some t => t <? now - PROVISIONING_LEASE_MS
     end.

Definition claimable (organizationId id : string) (expected : HostStatus) (now : Z) (h : HostRow) : bool :=
  owned organizationId id h
  && (if expected ≡? provisioning then stale_claim now h
      else (host_status h ≡? expected) || stale_claim now h).

Definition claim (attemptId : string) (now : Z) (h : HostRow) : HostRow :=
  with_provisioning (MkProvisioning (Some attemptId) (Some now) None None None None)
    (with_status provisioning h).

Definition claimForProvisioning (organizationId id attemptId : string) (expected : HostStatus) (now : Z)
    (t : Table) : option HostRow * Table :=
  (head (updated (claimable organizationId id expected now) (claim attemptId now) t),
   update_where (claimable organizationId id expected now) (claim attemptId now) t).

Definition held (organizationId id attemptId : string) (h : HostRow) : bool :=
  owned organizationId id h && (host_status h ≡? provisioning)
  && (provisioningAttemptId (host_provisioning h) ≡? Some attemptId).

(** [finalizeProvisioning]; [runtime] is the pair the patch may carry besides. *)
Definition finalized (patch : HostUpdateValues) (stack : option (option NetworkStack))
    (arch : option (option HostArchitecture)) (h : HostRow) : HostRow :=
  let patched := whitelistHostUpdate patch h in
  let f := host_facts patched in
  let p := host_provisioning patched in
  with_provisioning
    (MkProvisioning None None (provisioningError p) (provisioningStep p) (provisioningStepIndex p)
       (provisioningStepTotal p))
    (with_facts
       (MkFacts (osRelease f) (osId f) (osName f) (cpuCount f) (memoryMb f) (lastSeenAt f)
          (failedUnits f) (default (networkStack f) stack) (default (architecture f) arch)) patched).

Definition finalizeProvisioning (organizationId id attemptId : string) (patch : HostUpdateValues)
    (stack : option (option NetworkStack)) (arch : option (option HostArchitecture)) (t : Table)
    : option HostRow * Table :=
  (head (updated (held organizationId id attemptId) (finalized patch stack arch) t),
   update_where (held organizationId id attemptId) (finalized patch stack arch) t).

Definition updateHostKeyTrust (organizationId id trustedBy trustedByLabel fingerprint algorithm : string)
    (trustedAt : Z) : M Table (option HostRow) :=
  let* label := lift (requireNonBlankLabel trustedByLabel) in
  let f := with_trust (MkTrust (Some fingerprint) (Some algorithm) (Some trustedAt) (Some trustedBy) label) in
  stmt (fun t => (head (updated (owned organizationId id) f t), update_where (owned organizationId id) f t)).
End HostRepository.
