(* ===== verification/InstanceStore.v ===== *)
(** The tables of the bots.

    packages/core/src/instance/instance.repository.ts, schedule.repository.ts
    and the tables a transaction of the instance controller works on.  The
    database's clock ([clock_timestamp()]) and the process's ([new Date()]) are
    separate arguments; the ids drawn by [nanoid] are arguments too. *)

From S2P Require Import Prelude Tables Shell CommandScheduler TaskPlans TaskStore ClientConfig Access HostStore.

(** ** Rows *)

Inductive InstanceStatus := st_created | st_needs_auth | st_stopped | st_running | st_error.

#[global] Instance InstanceStatus_eq_dec : EqDecision InstanceStatus.
Proof. solve_decision. Defined.

Definition status_text (status : InstanceStatus) : string :=
  match status with
  | st_created => "created" | st_needs_auth => "needs_auth" | st_stopped => "stopped"
  | st_running => "running" | st_error => "error"
  end.

Record InstanceClaims := MkClaims {
  authClaimId : option string; authClaimedAt : option Z;
  configClaimId : option string; configClaimedAt : option Z }.

Definition no_claims : InstanceClaims := MkClaims None None None None.

Record SealedValue := MkSealed { ciphertext : string; keyId : string }.

Record InstanceRow := MkInstance {
  in_id : string; in_organizationId : string; in_hostId : string; in_name : string;
  in_accountType : AccountType; in_minecraftAccount : string; in_minecraftUsername : option string;
  in_status : InstanceStatus; in_lastExitCode : option Z; in_claims : InstanceClaims;
  in_liveControlPort : Z; in_token : option SealedValue; in_createdAt : Z }.

Definition with_claims (claims : InstanceClaims) (r : InstanceRow) : InstanceRow :=
  MkInstance (in_id r) (in_organizationId r) (in_hostId r) (in_name r) (in_accountType r)
    (in_minecraftAccount r) (in_minecraftUsername r) (in_status r) (in_lastExitCode r) claims
    (in_liveControlPort r) (in_token r) (in_createdAt r).

Definition with_state (status : InstanceStatus) (exit : option Z) (r : InstanceRow) : InstanceRow :=
  MkInstance (in_id r) (in_organizationId r) (in_hostId r) (in_name r) (in_accountType r)
    (in_minecraftAccount r) (in_minecraftUsername r) status exit (in_claims r)
    (in_liveControlPort r) (in_token r) (in_createdAt r).

Definition with_token (token : option SealedValue) (r : InstanceRow) : InstanceRow :=
  MkInstance (in_id r) (in_organizationId r) (in_hostId r) (in_name r) (in_accountType r)
    (in_minecraftAccount r) (in_minecraftUsername r) (in_status r) (in_lastExitCode r) (in_claims r)
    (in_liveControlPort r) token (in_createdAt r).

Record InstanceConfigRow := MkInstanceConfig {
  ic_id : string; ic_organizationId : string; ic_instanceId : string; ic_version : Z;
  ic_document : string; ic_authorId : option string; ic_authorLabel : string }.

Record InstanceScheduleRow := MkSchedule {
  is_id : string; is_organizationId : string; is_instanceId : string; is_daysOfWeek : string;
  is_stopMinuteOfDay : Z; is_startMinuteOfDay : Z; is_timezone : string; is_enabled : bool;
  is_createdAt : Z }.

Record SshKeyRow := MkSshKey {
  key_id : string; key_organizationId : string; key_privateKeyEncrypted : string;
  key_privateKeyKeyId : string }.

Record FleetTables := MkFleet {
  hosts : HostRepository.Table; sshKeys : list SshKeyRow; instances : list InstanceRow;
  configs : list InstanceConfigRow; schedules : list InstanceScheduleRow;
  commands : CommandRepository.Table; task_tables : TaskTables; audits : AuditRepository.Table }.

Definition with_instances (x : list InstanceRow) (t : FleetTables) : FleetTables :=
  MkFleet (hosts t) (sshKeys t) x (configs t) (schedules t) (commands t) (task_tables t) (audits t).
Definition with_configs (x : list InstanceConfigRow) (t : FleetTables) : FleetTables :=
  MkFleet (hosts t) (sshKeys t) (instances t) x (schedules t) (commands t) (task_tables t) (audits t).
Definition with_schedules (x : list InstanceScheduleRow) (t : FleetTables) : FleetTables :=
  MkFleet (hosts t) (sshKeys t) (instances t) (configs t) x (commands t) (task_tables t) (audits t).
Definition with_commands (x : CommandRepository.Table) (t : FleetTables) : FleetTables :=
  MkFleet (hosts t) (sshKeys t) (instances t) (configs t) (schedules t) x (task_tables t) (audits t).
Definition with_task_tables (x : TaskTables) (t : FleetTables) : FleetTables :=
  MkFleet (hosts t) (sshKeys t) (instances t) (configs t) (schedules t) (commands t) x (audits t).
Definition with_audits (x : AuditRepository.Table) (t : FleetTables) : FleetTables :=
  MkFleet (hosts t) (sshKeys t) (instances t) (configs t) (schedules t) (commands t) (task_tables t) x.

(** A constraint of the migrations, violated: [constraintViolationOf] of what
    the driver throws. *)
Definition ConstraintViolation (constraint : string) : thrown :=
  ThrownError (NamedError "DatabaseError") constraint.

Definition constraintViolationOf (error : thrown) : option string :=
  match error with
  | ThrownError (NamedError "DatabaseError") constraint => Some constraint
  | _ => None
  end.

Definition LIVE_PORT_CONSTRAINT : string := "instance_live_control_port_unique".

Definition AUTH_LEASE_MS : Z := 15 * 60 * 1000.
Definition CONFIG_CLAIM_LEASE_MS : Z := 180000.

Definition isAuthClaimStale (claimedAt : option Z) (now : Z) : bool :=
  match claimedAt with None => true | Some t => AUTH_LEASE_MS <? now - t end.

Record InstanceUpdateValues := MkInstancePatch {
  u_name : option string; u_status : option InstanceStatus; u_lastExitCode : option (option Z);
  u_minecraftUsername : option (option string); u_token : option (option SealedValue) }.

(** [whitelistInstanceUpdate]; the two columns of the token are set together
    (migration 0024 refuses one without the other). *)
Definition whitelistInstanceUpdate (patch : InstanceUpdateValues) (r : InstanceRow) : InstanceRow :=
  MkInstance (in_id r) (in_organizationId r) (in_hostId r) (default (in_name r) (u_name patch))
    (in_accountType r) (in_minecraftAccount r)
    (default (in_minecraftUsername r) (u_minecraftUsername patch))
    (default (in_status r) (u_status patch)) (default (in_lastExitCode r) (u_lastExitCode patch))
    (in_claims r) (in_liveControlPort r) (default (in_token r) (u_token patch)) (in_createdAt r).

Record InstanceCreateValues := MkInstanceValues {
  nv_hostId : string; nv_name : string; nv_accountType : AccountType; nv_minecraftAccount : string;
  nv_status : InstanceStatus; nv_liveControlPort : Z; nv_token : option SealedValue }.

(** ** The repository of the bots *)

Module InstanceRepository.
Definition Table : Type := list InstanceRow.

Definition owned (organizationId id : string) (r : InstanceRow) : bool :=
  (in_id r ≡? id) && (in_organizationId r ≡? organizationId).

Definition findById (organizationId id : string) (t : Table) : option InstanceRow :=
  select_first (owned organizationId id) t.

Definition list_ (organizationId : string) (t : Table) : Table :=
  order_by (fun a b => in_createdAt b <=? in_createdAt a)
    (select (fun r => in_organizationId r ≡? organizationId) t).

(** An [update ... returning] of one statement, and whether it met a row. *)
Definition returning (p : InstanceRow -> bool) (f : InstanceRow -> InstanceRow) (t : Table)
    : option InstanceRow * Table :=
  (head (updated p f t), update_where p f t).

Definition any (p : InstanceRow -> bool) (f : InstanceRow -> InstanceRow) (t : Table)
    : bool * Table :=
  ((0 <? affected p t)%nat, update_where p f t).

Definition update (organizationId id : string) (patch : InstanceUpdateValues) (t : Table) :=
  returning (owned organizationId id) (whitelistInstanceUpdate patch) t.

Definition auth_free (now : Z) (r : InstanceRow) : bool :=
  (authClaimId (in_claims r) ≡? None)
  || match authClaimedAt (in_claims r) with Some t => t <? now - AUTH_LEASE_MS | None => false end.

Definition config_free (clock : Z) (r : InstanceRow) : bool :=
  (configClaimId (in_claims r) ≡? None)
  || match configClaimedAt (in_claims r) with
     | Some t => t <? clock - CONFIG_CLAIM_LEASE_MS | None => false end.

Definition set_auth (attemptId : string) (now : Z) (r : InstanceRow) : InstanceRow :=
  with_claims (MkClaims (Some attemptId) (Some now) None None) r.

Definition set_config (claimId : string) (clock : Z) (r : InstanceRow) : InstanceRow :=
  with_claims (MkClaims (authClaimId (in_claims r)) (authClaimedAt (in_claims r))
                 (Some claimId) (Some clock)) r.

Definition clear_auth (r : InstanceRow) : InstanceRow :=
  with_claims (MkClaims None None (configClaimId (in_claims r)) (configClaimedAt (in_claims r))) r.

Definition clear_config (r : InstanceRow) : InstanceRow :=
  with_claims (MkClaims (authClaimId (in_claims r)) (authClaimedAt (in_claims r)) None None) r.

Definition claimForAuth (organizationId id attemptId : string) (now clock : Z) (t : Table) :=
  returning (fun r => owned organizationId id r && auth_free now r && config_free clock r)
    (set_auth attemptId now) t.

Definition auth_held (organizationId id attemptId : string) (r : InstanceRow) : bool :=
  owned organizationId id r && (authClaimId (in_claims r) ≡? Some attemptId).

Definition config_held (organizationId id claimId : string) (r : InstanceRow) : bool :=
  owned organizationId id r && (configClaimId (in_claims r) ≡? Some claimId).

Definition releaseAuthClaim (organizationId id attemptId : string) (t : Table) :=
  any (auth_held organizationId id attemptId) clear_auth t.

Definition claimForConfig (organizationId id claimId : string) (clock : Z) (t : Table) :=
  returning (fun r => owned organizationId id r && config_free clock r) (set_config claimId clock) t.

Definition claimForLifecycle (organizationId id claimId : string) (now clock : Z) (t : Table) :=
  returning (fun r => owned organizationId id r && config_free clock r && auth_free now r)
    (set_config claimId clock) t.

(** The patch of [finalizeConfigClaim]: a status, an exit code. *)
Definition finalized (status : option InstanceStatus) (exit : option (option Z)) (r : InstanceRow)
    : InstanceRow :=
  clear_config (with_state (default (in_status r) status) (default (in_lastExitCode r) exit) r).

Definition finalizeConfigClaim (organizationId id claimId : string) (status : option InstanceStatus)
    (exit : option (option Z)) (t : Table) :=
  returning (config_held organizationId id claimId) (finalized status exit) t.

Definition recordUnitFailure (organizationId id : string) (exit : option Z) (t : Table) :=
  any (fun r => owned organizationId id r && (in_status r ≡? st_running)
                && (configClaimId (in_claims r) ≡? None)) (with_state st_error exit) t.

Definition releaseConfigClaim (organizationId id claimId : string) (t : Table) :=
  any (config_held organizationId id claimId) clear_config t.

Definition renewed (claimId : string) (sealed : SealedValue) (clock : Z) (r : InstanceRow) : InstanceRow :=
  with_token (Some sealed)
    (with_claims (MkClaims (authClaimId (in_claims r)) (authClaimedAt (in_claims r))
                    (configClaimId (in_claims r)) (Some clock)) r).

Definition writeTokenUnderClaim (organizationId id claimId : string) (sealed : SealedValue) (clock : Z)
    (t : Table) :=
  any (config_held organizationId id claimId) (renewed claimId sealed clock) t.

Definition new_row (organizationId newId : string) (values : InstanceCreateValues) (claimId : string)
    (clock : Z) : InstanceRow :=
  MkInstance newId organizationId (nv_hostId values) (nv_name values) (nv_accountType values)
    (nv_minecraftAccount values) None (nv_status values) None
    (MkClaims None None (Some claimId) (Some clock)) (nv_liveControlPort values) (nv_token values) clock.

(** The unique constraints of the table, in the order of the migrations. *)
Definition violated (row : InstanceRow) (t : Table) : option string :=
  if existsb (fun r => in_id r ≡? in_id row) t then Some "instance_pkey"
  else if existsb (fun r => (in_organizationId r ≡? in_organizationId row) && (in_name r ≡? in_name row)) t
       then Some "instance_org_name_unique"
  else if existsb (fun r => (in_organizationId r ≡? in_organizationId row)
                            && (in_hostId r ≡? in_hostId row)
                            && (in_liveControlPort r =? in_liveControlPort row)) t
       then Some LIVE_PORT_CONSTRAINT
  else None.

Definition insert (organizationId newId : string) (values : InstanceCreateValues) (claimId : string)
    (clock : Z) : M FleetTables InstanceRow := fun t =>
  let row := new_row organizationId newId values claimId clock in
  match violated row (instances t) with
  | Some constraint => (Throw (ConstraintViolation constraint), t)
  | None =>
      if existsb (fun h => HostRepository.owned organizationId (nv_hostId values) h) (hosts t)
      then (Ok row, with_instances (instances t ++ [row]) t)
      else (Throw (ConstraintViolation "instance_host_org_fk"), t)
  end.

(** The foreign keys delete what belongs to a deleted bot with it. *)
Definition delete_rows (p : InstanceRow -> bool) (t : FleetTables) : FleetTables :=
  let gone organizationId id :=
    existsb (fun r => p r && owned organizationId id r) (instances t) in
  let lost_task row := gone (task_organizationId row) (task_instanceId row) in
  let of_lost organizationId taskId :=
    existsb (fun row => lost_task row && (task_id row ≡? taskId)
                        && (task_organizationId row ≡? organizationId)) (tasks (task_tables t)) in
  let x := task_tables t in
  MkFleet (hosts t) (sshKeys t) (delete_where p (instances t))
    (delete_where (fun c => gone (ic_organizationId c) (ic_instanceId c)) (configs t))
    (delete_where (fun c => gone (is_organizationId c) (is_instanceId c)) (schedules t))
    (delete_where (fun c => gone (cmd_organizationId c) (cmd_instanceId c)) (commands t))
    (MkTaskTables (delete_where lost_task (tasks x))
       (delete_where (fun y => of_lost (step_organizationId y) (step_taskId y)) (steps x))
       (delete_where (fun y => of_lost (time_organizationId y) (time_taskId y)) (times x))
       (delete_where (fun y => of_lost (run_organizationId y) (run_taskId y)) (runs x))
       (delete_where (fun y => gone (signal_organizationId y) (signal_instanceId y)) (signals x))
       (delete_where (fun y => gone (cur_organizationId y) (cur_instanceId y)) (cursors x)))
    (audits t).

Definition delete (organizationId id : string) (t : FleetTables) : bool * FleetTables :=
  ((0 <? affected (owned organizationId id) (instances t))%nat, delete_rows (owned organizationId id) t).

Definition deleteUnderClaim (organizationId id claimId : string) (t : FleetTables)
    : bool * FleetTables :=
  ((0 <? affected (config_held organizationId id claimId) (instances t))%nat,
   delete_rows (config_held organizationId id claimId) t).

(** *** Saved settings *)

Definition of_instance (organizationId instanceId : string) (c : InstanceConfigRow) : bool :=
  (ic_instanceId c ≡? instanceId) && (ic_organizationId c ≡? organizationId).

(** [order by version desc], the first row. *)
Definition latestConfig (organizationId instanceId : string) (t : list InstanceConfigRow)
    : option InstanceConfigRow :=
  head (order_by (fun a b => ic_version b <=? ic_version a)
          (select (of_instance organizationId instanceId) t)).

Definition insertConfigVersion (organizationId newId instanceId document : string)
    (authorId : option string) (authorLabel : string) (t : list InstanceConfigRow)
    : InstanceConfigRow * list InstanceConfigRow :=
  let version :=
    match latestConfig organizationId instanceId t with Some c => ic_version c | None => 0 end + 1 in
  let row := MkInstanceConfig newId organizationId instanceId version document authorId authorLabel in
  (row, t ++ [row]).
End InstanceRepository.

(** ** The repository of the sleep windows *)

Record SleepWindowValues := MkSleepValues {
  sv_windowInstanceId : string; sv_daysOfWeek : string; sv_stopMinuteOfDay : Z;
  sv_startMinuteOfDay : Z; sv_windowTimezone : string; sv_enabled : bool }.

Module ScheduleRepository.
Definition Table : Type := list InstanceScheduleRow.

Definition of_instance (organizationId instanceId : string) (r : InstanceScheduleRow) : bool :=
  (is_instanceId r ≡? instanceId) && (is_organizationId r ≡? organizationId).

Definition upsert (organizationId newId : string) (createdAt : Z) (values : SleepWindowValues) (t : Table)
    : option InstanceScheduleRow * Table :=
  Tables.upsert (of_instance organizationId (sv_windowInstanceId values))
    (fun r => MkSchedule (is_id r) (is_organizationId r) (is_instanceId r) (sv_daysOfWeek values)
                (sv_stopMinuteOfDay values) (sv_startMinuteOfDay values) (sv_windowTimezone values)
                (sv_enabled values) (is_createdAt r))
    (MkSchedule newId organizationId (sv_windowInstanceId values) (sv_daysOfWeek values)
       (sv_stopMinuteOfDay values) (sv_startMinuteOfDay values) (sv_windowTimezone values)
       (sv_enabled values) createdAt) t.

Definition findByInstance (organizationId instanceId : string) (t : Table) : option InstanceScheduleRow :=
  select_first (of_instance organizationId instanceId) t.

Definition list_ (organizationId : string) (t : Table) : Table :=
  order_by (fun a b => is_createdAt b <=? is_createdAt a)
    (select (fun r => is_organizationId r ≡? organizationId) t).

Definition delete (organizationId instanceId : string) (t : Table) : bool * Table :=
  ((0 <? affected (of_instance organizationId instanceId) t)%nat,
   delete_where (of_instance organizationId instanceId) t).
End ScheduleRepository.

(** ** Claims exclude each other

    A bot is changed by one request at a time: a request claims its row, works
    on its machine, and gives the claim back.  A claim that is not given back
    can be taken over when its lease is over. *)

Inductive instance_op :=
  | op_insert (organizationId newId : string) (values : InstanceCreateValues) (claimId : string) (clock : Z)
  | op_update (organizationId id : string) (patch : InstanceUpdateValues)
  | op_claimForAuth (organizationId id attemptId : string) (now clock : Z)
  | op_releaseAuthClaim (organizationId id attemptId : string)
  | op_claimForConfig (organizationId id claimId : string) (clock : Z)
  | op_claimForLifecycle (organizationId id claimId : string) (now clock : Z)
  | op_finalize (organizationId id claimId : string) (status : option InstanceStatus)
      (exit : option (option Z))
  | op_recordUnitFailure (organizationId id : string) (exit : option Z)
  | op_releaseConfigClaim (organizationId id claimId : string)
  | op_writeToken (organizationId id claimId : string) (sealed : SealedValue) (clock : Z)
  | op_deleteUnderClaim (organizationId id claimId : string).

Definition apply_instance_op (op : instance_op) (t : FleetTables) : FleetTables :=
  let on f := with_instances (f (instances t)) t in
  match op with
  | op_insert o newId values c clock => (InstanceRepository.insert o newId values c clock t).2
  | op_update o i patch => on (fun x => (InstanceRepository.update o i patch x).2)
  | op_claimForAuth o i a now clock => on (fun x => (InstanceRepository.claimForAuth o i a now clock x).2)
  | op_releaseAuthClaim o i a => on (fun x => (InstanceRepository.releaseAuthClaim o i a x).2)
  | op_claimForConfig o i c clock => on (fun x => (InstanceRepository.claimForConfig o i c clock x).2)
  | op_claimForLifecycle o i c now clock =>
      on (fun x => (InstanceRepository.claimForLifecycle o i c now clock x).2)
  | op_finalize o i c status exit =>
      on (fun x => (InstanceRepository.finalizeConfigClaim o i c status exit x).2)
  | op_recordUnitFailure o i exit => on (fun x => (InstanceRepository.recordUnitFailure o i exit x).2)
  | op_releaseConfigClaim o i c => on (fun x => (InstanceRepository.releaseConfigClaim o i c x).2)
  | op_writeToken o i c sealed clock =>
      on (fun x => (InstanceRepository.writeTokenUnderClaim o i c sealed clock x).2)
  | op_deleteUnderClaim o i c => (InstanceRepository.deleteUnderClaim o i c t).2
  end.

Definition apply_instance_ops (ops : list instance_op) (t : FleetTables) : FleetTables :=
  fold_left (fun t op => apply_instance_op op t) ops t.

(** The row of the bot is there and has the claim, taken at [claimedAt]. *)
Definition claimed (organizationId id claimId : string) (claimedAt : Z) (t : FleetTables) : Prop :=
  (exists r, In r (instances t) /\ InstanceRepository.owned organizationId id r = true)
  /\ forall r, In r (instances t) -> InstanceRepository.owned organizationId id r = true ->
       configClaimId (in_claims r) = Some claimId /\ configClaimedAt (in_claims r) = Some claimedAt.

(** What requests other than the claim's holder do, up to an instant. *)
Definition of_others (claimId : string) (until : Z) (op : instance_op) : Prop :=
  match op with
  | op_claimForAuth _ _ _ _ clock | op_claimForConfig _ _ _ clock
  | op_claimForLifecycle _ _ _ _ clock => clock <= until
  | op_finalize _ _ c _ _ | op_releaseConfigClaim _ _ c | op_writeToken _ _ c _ _
  | op_deleteUnderClaim _ _ c => c <> claimId
  | _ => True
  end.

(** An update that leaves the bot's row its identity, and its claim where it
    applies to it. *)
Lemma claim_survives_update organizationId id claimId claimedAt p f t :
  (forall r, in_id (f r) = in_id r /\ in_organizationId (f r) = in_organizationId r) ->
  (forall r, configClaimId (in_claims r) = Some claimId -> configClaimedAt (in_claims r) = Some claimedAt ->
     p r = true ->
     configClaimId (in_claims (f r)) = Some claimId
     /\ configClaimedAt (in_claims (f r)) = Some claimedAt) ->
  claimed organizationId id claimId claimedAt t ->
  claimed organizationId id claimId claimedAt (with_instances (update_where p f (instances t)) t).
Proof.
  intros Hid Hf [(r & Hr & Ho) Hall].
  assert (Hown : forall r, InstanceRepository.owned organizationId id (if p r then f r else r)
                           = InstanceRepository.owned organizationId id r).
  { intros x. destruct (p x); [|done]. unfold InstanceRepository.owned.
    by destruct (Hid x) as [-> ->]. }
  split; simpl.
  - exists (if p r then f r else r). split; [|by rewrite Hown].
    apply in_update_where. by exists r.
  - intros x Hx Hxo. apply in_update_where in Hx as (y & Hy & ->). rewrite Hown in Hxo.
    destruct (Hall y Hy Hxo) as [Hc Ht]. destruct (p y) eqn:Ep; [|done]. by apply Hf.
Qed.

Lemma claimed_delete organizationId id claimId claimedAt p t :
  (forall r, InstanceRepository.owned organizationId id r = true ->
     configClaimId (in_claims r) = Some claimId -> p r = false) ->
  claimed organizationId id claimId claimedAt t ->
  claimed organizationId id claimId claimedAt (InstanceRepository.delete_rows p t).
Proof.
  intros Hp [(r & Hr & Ho) Hall]. split; simpl.
  - exists r. split; [|done]. apply in_delete_where. split; [done|]. apply Hp; [done|]. by apply Hall.
  - intros x [Hx _]%in_delete_where. by apply Hall.
Qed.

Lemma claimed_insert organizationId id claimId claimedAt o newId values c clock t :
  claimed organizationId id claimId claimedAt t ->
  claimed organizationId id claimId claimedAt
    (InstanceRepository.insert o newId values c clock t).2.
Proof.
  intros Hc. unfold InstanceRepository.insert.
  destruct (InstanceRepository.violated _ _) eqn:E; [done|].
  destruct (existsb _ _); [|done]. destruct Hc as [(r & Hr & Ho) Hall]. split; simpl.
  - exists r. split; [|done]. apply in_or_app. by left.
  - intros x [Hx|[<-|[]]]%in_app_or; [by apply Hall|]. intros Hx.
    unfold InstanceRepository.violated in E. destruct (existsb _ (instances t)) eqn:En in E; [done|].
    rewrite existsb_false in En. specialize (En r Hr). unfold InstanceRepository.owned in *.
    tests. simpl in *. congruence.
Qed.

(** A claim within its lease is not free. *)
Lemma config_not_free claimId claimedAt clock r :
  configClaimId (in_claims r) = Some claimId -> configClaimedAt (in_claims r) = Some claimedAt ->
  clock <= claimedAt + CONFIG_CLAIM_LEASE_MS -> InstanceRepository.config_free clock r = false.
Proof.
  intros Hc Ht Hclock. unfold InstanceRepository.config_free. rewrite Hc, Ht.
  apply orb_false_intro; [by case_bool_decide|]. apply Z.ltb_ge. lia.
Qed.

Lemma others_keep_claim organizationId id claimId claimedAt op t :
  of_others claimId (claimedAt + CONFIG_CLAIM_LEASE_MS) op ->
  claimed organizationId id claimId claimedAt t ->
  claimed organizationId id claimId claimedAt (apply_instance_op op t).
Proof.
  assert (Hfree : forall r clock, clock <= claimedAt + CONFIG_CLAIM_LEASE_MS ->
    configClaimId (in_claims r) = Some claimId -> configClaimedAt (in_claims r) = Some claimedAt ->
    InstanceRepository.config_free clock r = true -> False).
  { intros r clock Hclock Hc Ht Hf. by rewrite (config_not_free claimId claimedAt clock r Hc Ht Hclock) in Hf. }
  assert (Hother : forall o i c r, c <> claimId -> configClaimId (in_claims r) = Some claimId ->
    InstanceRepository.config_held o i c r = true -> False).
  { intros o i c r Hne Hc Hh. unfold InstanceRepository.config_held in Hh. tests. congruence. }
  destruct op; simpl; intros Hop Hc; try (by apply claimed_insert);
    try (apply claim_survives_update; [done| |done]; intros r Hr Ht Hp;
         first [exact (conj Hr Ht)|exfalso; first [by eapply Hother|tests; by eapply Hfree]]).
  - apply claimed_delete; [|done]. intros r _ Hr.
    destruct (InstanceRepository.config_held _ _ _ _) eqn:E; [|done]. by edestruct Hother.
Qed.

Lemma others_keep_claims organizationId id claimId claimedAt ops t :
  Forall (of_others claimId (claimedAt + CONFIG_CLAIM_LEASE_MS)) ops ->
  claimed organizationId id claimId claimedAt t ->
  claimed organizationId id claimId claimedAt (apply_instance_ops ops t).
Proof.
  intros Hops. revert t. induction Hops as [|op ops Hop Hops IH]; intros t Hc; [done|].
  simpl. apply IH. by apply others_keep_claim.
Qed.

(** An update returns nothing when no row meets it, and a row when one does. *)
Lemma returning_none p f t :
  (forall r, In r t -> p r = false) -> (InstanceRepository.returning p f t).1 = None.
Proof.
  intros H. unfold InstanceRepository.returning, updated. simpl.
  change (select p t) with (List.filter p t). by rewrite filter_none.
Qed.

Lemma returning_some p f t r :
  In r t -> p r = true ->
  exists r', In r' t /\ p r' = true /\ (InstanceRepository.returning p f t).1 = Some (f r').
Proof.
  intros Hr Hp. unfold InstanceRepository.returning, updated. simpl.
  assert (Hin : In r (select p t)) by (by apply filter_In).
  destruct (select p t) as [|r' l] eqn:E; [done|]. exists r'. simpl.
  assert (Hr' : In r' (select p t)) by (rewrite E; by left). apply filter_In in Hr' as [? ?]. done.
Qed.

(** The row a granted claim returns, and the claim in the table it leaves. *)
Definition id_key (r : InstanceRow) : option (string * string) :=
  Some (in_organizationId r, in_id r).

Lemma owned_unique organizationId id t r r' :
  unique_on id_key t -> In r t -> In r' t ->
  InstanceRepository.owned organizationId id r = true ->
  InstanceRepository.owned organizationId id r' = true -> r = r'.
Proof.
  intros Hu Hr Hr' Ho Ho'. unfold InstanceRepository.owned in *. tests.
  apply (unique_on_eq id_key t (organizationId, id)); try done; unfold id_key; congruence.
Qed.

Lemma granted_claim organizationId id p f claimId clock t r t' :
  unique_on id_key (instances t) ->
  (forall x, p x = true -> InstanceRepository.owned organizationId id x = true) ->
  (forall x, in_id (f x) = in_id x /\ in_organizationId (f x) = in_organizationId x
             /\ configClaimId (in_claims (f x)) = Some claimId
             /\ configClaimedAt (in_claims (f x)) = Some clock) ->
  InstanceRepository.returning p f (instances t) = (Some r, t') ->
  claimed organizationId id claimId clock (with_instances t' t) /\ In r t'
  /\ InstanceRepository.owned organizationId id r = true.
Proof.
  intros Hu Hp Hf H. injection H as Hr <-.
  unfold updated in Hr. destruct (select p (instances t)) as [|r0 l] eqn:E; [done|]. injection Hr as <-.
  assert (Hr0 : In r0 (instances t) /\ p r0 = true)
    by (apply filter_In; change (In r0 (select p (instances t))); rewrite E; by left).
  destruct Hr0 as [Hin Hp0]. destruct (Hf r0) as (Hid & Horg & Hc & Ht).
  assert (Hown : InstanceRepository.owned organizationId id (f r0) = true).
  { specialize (Hp r0 Hp0). unfold InstanceRepository.owned in *. by rewrite Hid, Horg. }
  assert (Hnew : In (f r0) (update_where p f (instances t))).
  { apply in_update_where. exists r0. by rewrite Hp0. }
  split_and!; [|done..]. split; [by exists (f r0)|]. simpl.
  intros x Hx Hxo. apply in_update_where in Hx as (y & Hy & ->).
  destruct (p y) eqn:Ey; [by apply Hf|].
  assert (y = r0) by (by eapply owned_unique; [exact Hu| | |exact Hxo|by apply Hp]). congruence.
Qed.

(** The holder of a claim gives it back. *)
Lemma claimed_finalizes organizationId id claimId claimedAt status exit t :
  claimed organizationId id claimId claimedAt t ->
  exists r, In r (instances t) /\ InstanceRepository.owned organizationId id r = true
    /\ (InstanceRepository.finalizeConfigClaim organizationId id claimId status exit (instances t)).1
       = Some (InstanceRepository.finalized status exit r).
Proof.
  intros [(r & Hr & Ho) Hall].
  destruct (returning_some (InstanceRepository.config_held organizationId id claimId)
              (InstanceRepository.finalized status exit) (instances t) r Hr) as (r' & Hr' & Hp & E).
  - unfold InstanceRepository.config_held. rewrite Ho. by destruct (Hall r Hr Ho) as [-> _]; case_bool_decide.
  - exists r'. unfold InstanceRepository.config_held in Hp. tests. done.
Qed.

Lemma claimed_excludes organizationId id claimId claimedAt clock t :
  clock <= claimedAt + CONFIG_CLAIM_LEASE_MS -> claimed organizationId id claimId claimedAt t ->
  (forall claim, (InstanceRepository.claimForConfig organizationId id claim clock (instances t)).1 = None)
  /\ (forall claim now,
        (InstanceRepository.claimForLifecycle organizationId id claim now clock (instances t)).1 = None)
  /\ (forall attempt now,
        (InstanceRepository.claimForAuth organizationId id attempt now clock (instances t)).1 = None).
Proof.
  intros Hclock [_ Hall].
  assert (H : forall r, In r (instances t) -> InstanceRepository.owned organizationId id r = true ->
                InstanceRepository.config_free clock r = false)
    by (intros r Hr Ho; destruct (Hall r Hr Ho); by eapply config_not_free).
  split_and!; intros; apply returning_none; intros r Hr;
    destruct (InstanceRepository.owned organizationId id r) eqn:Ho; try done; simpl;
    by rewrite ?(H r Hr Ho), ?andb_false_r.
Qed.

(** The statement that takes the claim of a request that saves settings, of one
    that starts, stops or removes a bot, or of one that adds it. *)
Inductive takes_claim (organizationId id claimId : string) (clock : Z) (t : FleetTables) : FleetTables -> Prop :=
  | takes_to_save r t' :
      InstanceRepository.claimForConfig organizationId id claimId clock (instances t) = (Some r, t') ->
      takes_claim organizationId id claimId clock t (with_instances t' t)
  | takes_to_change now r t' :
      InstanceRepository.claimForLifecycle organizationId id claimId now clock (instances t) = (Some r, t') ->
      takes_claim organizationId id claimId clock t (with_instances t' t)
  | takes_to_add values r t' :
      InstanceRepository.insert organizationId id values claimId clock t = (Ok r, t') ->
      takes_claim organizationId id claimId clock t t'.

Lemma takes_claimed organizationId id claimId clock t t' :
  unique_on id_key (instances t) -> takes_claim organizationId id claimId clock t t' ->
  claimed organizationId id claimId clock t'.
Proof.
  intros Hu [r x H|now r x H|values r x H].
  - refine (proj1 (granted_claim _ _ _ _ _ _ _ _ _ Hu _ _ H)); [|done]. intros y Hy. by tests.
  - refine (proj1 (granted_claim _ _ _ _ _ _ _ _ _ Hu _ _ H)); [|done]. intros y Hy. by tests.
  - unfold InstanceRepository.insert in H.
    destruct (InstanceRepository.violated _ _) eqn:E; [done|]. destruct (existsb _ (hosts t)); [|done].
    injection H as <- <-. unfold InstanceRepository.violated in E.
    destruct (existsb _ (instances t)) eqn:En in E; [done|]. clear E. rewrite existsb_false in En.
    split; simpl.
    + eexists. split; [apply in_or_app; right; by left|]. unfold InstanceRepository.owned. cbn. by rewrite !bool_decide_eq_true_2.
    + intros y [Hy|[<-|[]]]%in_app_or Ho; [|done]. specialize (En y Hy). unfold InstanceRepository.owned in Ho.
      tests. simpl in *. congruence.
Qed.

(** C14: a claim to save the settings of a bot, to start, stop or remove it, or
    to add it, is exclusive for its lease once it is granted: whatever other
    requests do to the tables in that time, none of them is granted a claim on
    the bot (to save settings, to start, stop or remove it, or to sign it in),
    and the holder can still finish: the claim is its own to give back.  The
    claim of a sign-in is another and is not the subject: a save is granted
    next to it. *)
Theorem granted_claim_is_exclusive organizationId id claimId clock t t' ops later
    (Hunique : unique_on id_key (instances t))
    (Hgranted : takes_claim organizationId id claimId clock t t')
    (Hothers : Forall (of_others claimId (clock + CONFIG_CLAIM_LEASE_MS)) ops)
    (Hlater : later <= clock + CONFIG_CLAIM_LEASE_MS) :
  let after := instances (apply_instance_ops ops t') in
  (forall claim, (InstanceRepository.claimForConfig organizationId id claim later after).1 = None)
  /\ (forall claim now', (InstanceRepository.claimForLifecycle organizationId id claim now' later after).1 = None)
  /\ (forall attempt now', (InstanceRepository.claimForAuth organizationId id attempt now' later after).1 = None)
  /\ forall status exit,
       is_Some (InstanceRepository.finalizeConfigClaim organizationId id claimId status exit after).1.
Proof.
  pose proof (others_keep_claims _ _ _ _ _ _ Hothers (takes_claimed _ _ _ _ _ _ Hunique Hgranted)) as Hafter.
  destruct (claimed_excludes _ _ _ _ later _ Hlater Hafter) as (H1 & H2 & H3).
  split_and!; [exact H1|exact H2|exact H3|]. intros status exit.
  destruct (claimed_finalizes _ _ _ _ status exit _ Hafter) as (r' & _ & _ & ->). done.
Qed.

(** A bot, and what other requests do while it is claimed. *)
Definition example_instance : InstanceRow :=
  MkInstance "bot" "org" "host" "Miner" microsoft "steve@example.com" None st_stopped None no_claims
    33333 None 0.

Definition example_fleet : FleetTables :=
  MkFleet [] [] [example_instance] [] [] [] no_tables [].

Lemma granted_claim_is_exclusive_witness :
  exists r t',
    InstanceRepository.claimForLifecycle "org" "bot" "mine" 1000 1000 [example_instance] = (Some r, t')
    /\ let after := instances (apply_instance_ops
             [op_claimForConfig "org" "bot" "theirs" 2000; op_claimForAuth "org" "bot" "sign-in" 2000 2000;
              op_recordUnitFailure "org" "bot" (Some 1); op_releaseConfigClaim "org" "bot" "theirs"]
             (with_instances t' example_fleet)) in
       (forall claim, (InstanceRepository.claimForConfig "org" "bot" claim 100000 after).1 = None)
       /\ (forall claim now', (InstanceRepository.claimForLifecycle "org" "bot" claim now' 100000 after).1 = None)
       /\ (forall attempt now', (InstanceRepository.claimForAuth "org" "bot" attempt now' 100000 after).1 = None)
       /\ forall status exit,
            is_Some (InstanceRepository.finalizeConfigClaim "org" "bot" "mine" status exit after).1.
Proof.
  eexists _, _. split; [reflexivity|].
  apply (granted_claim_is_exclusive "org" "bot" "mine" 1000 example_fleet).
  - apply NoDup_singleton.
  - by apply (takes_to_change _ _ _ _ example_fleet 1000 (InstanceRepository.set_config "mine" 1000 example_instance)).
  - repeat constructor; unfold of_others, CONFIG_CLAIM_LEASE_MS; (lia || done).
  - unfold CONFIG_CLAIM_LEASE_MS. lia.
Defined.

(** ** Versions of saved settings *)

Definition saved (organizationId instanceId : string) (t : list InstanceConfigRow)
    : list InstanceConfigRow := select (InstanceRepository.of_instance organizationId instanceId) t.

(** The versions of every bot are 1, 2, 3... in the order they were saved. *)
Definition numbered (t : list InstanceConfigRow) : Prop :=
  forall organizationId instanceId,
    let rows := saved organizationId instanceId t in
    map ic_version rows = seqZ 1 (Z.of_nat (length rows)).

Inductive config_op :=
  | save_settings (organizationId newId instanceId document : string) (authorId : option string)
      (authorLabel : string)
  | remove_bots (p : InstanceRow -> bool) (instances : list InstanceRow).

Definition apply_config_op (op : config_op) (t : list InstanceConfigRow) : list InstanceConfigRow :=
  match op with
  | save_settings o newId i document authorId authorLabel =>
      (InstanceRepository.insertConfigVersion o newId i document authorId authorLabel t).2
  | remove_bots p rows =>
      configs (InstanceRepository.delete_rows p (MkFleet [] [] rows t [] [] no_tables []))
  end.

Lemma head_of_descending (l : list InstanceConfigRow) :
  StronglySorted (fun a b => ic_version a < ic_version b) l ->
  head (order_by (fun a b => ic_version b <=? ic_version a) l) = last l.
Proof.
  induction l as [|x l IH]; intros H; [done|]. apply StronglySorted_inv in H as [Hl Hx].
  cbn [order_by foldr]. change (foldr (insert_by _) [] l)
    with (order_by (fun a b => ic_version b <=? ic_version a) l).
  specialize (IH Hl). destruct l as [|y l]; [done|]. rewrite last_cons_cons, <- IH.
  set (sorted := order_by _ (y :: l)) in *.
  assert (Hperm : Permutation sorted (y :: l)) by apply order_by_perm.
  destruct sorted as [|z rest]; [by apply Permutation_nil in Hperm|].
  assert (Hz : z ∈ y :: l) by (rewrite <- Hperm; by left).
  rewrite Forall_forall in Hx. apply Hx in Hz. simpl.
  destruct (Z.leb_spec (ic_version z) (ic_version x)); [lia|done].
Qed.

Lemma seqZ_sorted (l : list InstanceConfigRow) m n :
  map ic_version l = seqZ m n -> StronglySorted (fun a b => ic_version a < ic_version b) l.
Proof.
  revert m n. induction l as [|x l IH]; intros m n H; [constructor|]. simpl in H.
  assert (Hn : 0 < n) by (destruct (Z.ltb_spec 0 n); [done|]; rewrite seqZ_nil in H by lia; done).
  rewrite seqZ_cons in H by done. injection H as Hx Hl. constructor; [by eapply IH|].
  apply Forall_forall. intros y Hy. apply (list_elem_of_fmap_2 ic_version) in Hy.
  change (ic_version <$> l) with (map ic_version l) in Hy. rewrite Hl in Hy.
  apply elem_of_seqZ in Hy. lia.
Qed.

Lemma numbered_latest organizationId instanceId t :
  numbered t ->
  InstanceRepository.latestConfig organizationId instanceId t = last (saved organizationId instanceId t).
Proof. intros H. apply head_of_descending. by eapply seqZ_sorted. Qed.

Lemma numbered_version organizationId instanceId t c :
  numbered t -> last (saved organizationId instanceId t) = Some c ->
  ic_version c = Z.of_nat (length (saved organizationId instanceId t)).
Proof.
  intros H Hl. specialize (H organizationId instanceId). cbv zeta in H.
  apply last_Some in Hl as [l Hl]. rewrite Hl in *.
  rewrite map_app, length_app, Nat.add_1_r, seqZ_S in H. rewrite length_app.
  apply app_inj_tail in H as [_ H]. simpl. lia.
Qed.

Lemma saved_save o i o' newId i' document authorId authorLabel t :
  let '(row, t') := InstanceRepository.insertConfigVersion o' newId i' document authorId authorLabel t in
  saved o i t' = saved o i t ++ (if (i ≡? i') && (o ≡? o') then [row] else []).
Proof.
  unfold InstanceRepository.insertConfigVersion, saved. rewrite select_app. f_equal.
  unfold select. simpl. unfold InstanceRepository.of_instance. simpl.
  rewrite (bool_decide_ext (i' = i) (i = i')), (bool_decide_ext (o' = o) (o = o')) by (by split; intros ->).
  by destruct ((i ≡? i') && (o ≡? o')).
Qed.

Lemma saved_version o newId i document authorId authorLabel t :
  numbered t ->
  ic_version (InstanceRepository.insertConfigVersion o newId i document authorId authorLabel t).1
  = Z.of_nat (length (saved o i t)) + 1.
Proof.
  intros H. unfold InstanceRepository.insertConfigVersion. simpl. rewrite numbered_latest by done.
  destruct (last (saved o i t)) as [c|] eqn:E.
  - by rewrite (numbered_version o i t c H E).
  - apply last_None in E. by rewrite E.
Qed.

Lemma numbered_save o newId i document authorId authorLabel t :
  numbered t ->
  numbered (InstanceRepository.insertConfigVersion o newId i document authorId authorLabel t).2.
Proof.
  intros H o' i'. pose proof (saved_save o' i' o newId i document authorId authorLabel t) as Hs.
  pose proof (saved_version o newId i document authorId authorLabel t H) as Hv.
  destruct (InstanceRepository.insertConfigVersion _ _ _ _ _ _ t) as [row t'].
  cbn [fst snd] in *. cbv zeta. rewrite Hs.
  destruct ((i' ≡? i) && (o' ≡? o)) eqn:E; [|rewrite app_nil_r; apply H].
  tests. subst. rewrite map_app, length_app, Nat.add_1_r, seqZ_S. f_equal; [apply H|].
  simpl. by rewrite Hv, Z.add_comm.
Qed.

(** A removal of bots takes the settings of the removed, whole. *)
Definition goes (p : InstanceRow -> bool) (rows : list InstanceRow) (o i : string) : bool :=
  existsb (fun r => p r && InstanceRepository.owned o i r) rows.

Lemma saved_remove p t o i :
  saved o i (configs (InstanceRepository.delete_rows p t))
  = if goes p (instances t) o i then [] else saved o i (configs t).
Proof.
  change (configs (InstanceRepository.delete_rows p t))
    with (delete_where (fun c => goes p (instances t) (ic_organizationId c) (ic_instanceId c)) (configs t)).
  generalize (goes p (instances t)). intros gone.
  unfold saved, select, delete_where, InstanceRepository.of_instance.
  induction (configs t) as [|c cs IH]; [by destruct (gone o i)|]. simpl.
  destruct ((ic_instanceId c ≡? i) && (ic_organizationId c ≡? o)) eqn:E.
  - tests. subst. destruct (gone _ _) eqn:Eg; simpl; [done|].
    rewrite !bool_decide_eq_true_2 by done. simpl. by rewrite IH.
  - destruct (gone (ic_organizationId c) (ic_instanceId c)); simpl; [done|by rewrite E].
Qed.

Lemma numbered_remove p rows t :
  numbered t -> numbered (apply_config_op (remove_bots p rows) t).
Proof.
  intros H o i. cbn [apply_config_op]. cbv zeta. rewrite saved_remove. simpl.
  destruct (goes p rows o i); [done|apply H].
Qed.

(** the saved settings of a bot are numbered 1, 2, 3... in the order they
    were saved, whatever is saved for other bots in between and whichever bots
    are removed; so the settings just saved are the ones read back as the
    latest, and an expected version names one state of the settings. *)
Theorem settings_are_numbered_as_saved ops organizationId newId instanceId document authorId authorLabel :
  let t := fold_left (fun t op => apply_config_op op t) ops [] in
  let rows := saved organizationId instanceId t in
  map ic_version rows = seqZ 1 (Z.of_nat (length rows))
  /\ InstanceRepository.latestConfig organizationId instanceId t = last rows
  /\ let '(row, t') := InstanceRepository.insertConfigVersion organizationId newId instanceId document
                          authorId authorLabel t in
     ic_version row = Z.of_nat (length rows) + 1 /\ ic_document row = document
     /\ InstanceRepository.latestConfig organizationId instanceId t' = Some row
     /\ forall organizationId' instanceId', (organizationId', instanceId') <> (organizationId, instanceId) ->
          InstanceRepository.latestConfig organizationId' instanceId' t'
          = InstanceRepository.latestConfig organizationId' instanceId' t.
Proof.
  set (t := fold_left _ ops []).
  assert (Ht : numbered t).
  { unfold t. assert (H0 : numbered []) by done. revert H0. generalize (@nil InstanceConfigRow).
    induction ops as [|op ops IH]; intros t0 H0; [done|]. simpl. apply IH.
    destruct op; [by apply numbered_save|by apply numbered_remove]. }
  cbv zeta. split; [apply Ht|]. split; [by apply numbered_latest|].
  pose proof (numbered_save organizationId newId instanceId document authorId authorLabel t Ht) as Ht'.
  pose proof (saved_version organizationId newId instanceId document authorId authorLabel t Ht) as Hv.
  pose proof (fun o i => saved_save o i organizationId newId instanceId document authorId authorLabel t) as Hs.
  destruct (InstanceRepository.insertConfigVersion _ _ _ _ _ _ t) as [row t'] eqn:E.
  cbn [fst snd] in *. split_and!; [done|by injection E as <- _| |].
  - rewrite numbered_latest by done. rewrite Hs, !bool_decide_eq_true_2 by done. apply last_snoc.
  - intros o i Hne. rewrite !numbered_latest by done. rewrite Hs.
    destruct ((i ≡? instanceId) && (o ≡? organizationId)) eqn:Eq; [tests; congruence|by rewrite app_nil_r].
Qed.
