(* ===== verification/InstanceController.v ===== *)
(** The controller of the bots.

    packages/core/src/instance/instance.controller.ts: what the members of an
    organization do to its bots.  A request claims the row of the bot, works on
    the machine the bot runs on, and gives the claim back in the transaction
    that records what was done.  Opening a connection and running a command on
    it are arguments: whatever others do to the tables meanwhile, they do there. *)

From S2P Require Import Prelude Tables Dates Calendar Due CommandScheduler TaskPlans TaskStore TaskScheduler Observer Shell Control ClientSettings ClientConfig InstanceInput Access HostStore InstanceStore.

Definition named (class message : string) : thrown := ThrownError (NamedError class) message.

Definition InstanceNotFoundError := named "InstanceNotFoundError".
Definition InstanceNotRunningError := named "InstanceNotRunningError".
Definition HostUnreachableError := named "HostUnreachableError".
Definition InstanceConfigUnusableError := named "InstanceConfigUnusableError".
Definition InstanceBotConfigUnusableError := named "InstanceBotConfigUnusableError".
Definition InstanceHostNotFoundError := named "InstanceHostNotFoundError".
Definition InstanceTaskNotFoundError := named "InstanceTaskNotFoundError".
Definition InstanceHostNotProvisionedError := named "InstanceHostNotProvisionedError".
Definition InstanceAuthInProgressError := named "InstanceAuthInProgressError".
Definition InstanceSignInRunningError := named "InstanceSignInRunningError".
Definition InstanceConcurrentlyModifiedError := named "InstanceConcurrentlyModifiedError".
Definition InstanceBusyError := named "InstanceBusyError".
Definition InstanceStillInUseError := named "InstanceStillInUseError".
Definition InstanceRemovalFailedError := named "InstanceRemovalFailedError".
Definition InstanceStartFailedError := named "InstanceStartFailedError".
Definition InstanceStopFailedError := named "InstanceStopFailedError".
Definition InstanceCommandNotSentError := named "InstanceCommandNotSentError".
Definition InstanceConsoleUnreadableError := named "InstanceConsoleUnreadableError".
Definition HostMisconfiguredError := named "HostMisconfiguredError".
Definition HostAnswerUnreadableError := named "HostAnswerUnreadableError".
Definition ZodError := named "ZodError".

(** [error instanceof Class], for a class without subclasses. *)
Definition instanceof (class : string) (error : thrown) : bool :=
  match error with ThrownError (NamedError name) _ => name ≡? class | _ => false end.

Definition scheduledRunFailure (error : thrown) : string :=
  if instanceof "HostUnreachableError" error then reason_of "" error
  else if instanceof "InstanceNotRunningError" error then "The bot was not running"
  else if instanceof "InstanceNotFoundError" error then "The bot no longer exists"
  else if instanceof "InstanceHostNotFoundError" error
          || instanceof "InstanceHostNotProvisionedError" error
       then "Its host is not set up to run bots"
  else "The command could not be sent".

(** What is thrown by plain [Error]s and by refusals of the machine is told as
    [Failure]. *)
Definition failure_of (Failure : string -> thrown) (error : thrown) : thrown :=
  match error with
  | ThrownValue _ => error
  | ThrownError cls message =>
      if (cls ≡? PlainError) || (cls ≡? NamedError "HostRefusedError") then Failure message else error
  end.

Definition failingAs {S A} (Failure : string -> thrown) (work : M S A) : M S A :=
  try_catch work (fun error => throw (failure_of Failure error)).

Inductive HostUnreachableReason :=
  misconfigured | unprovisioned | unreachable_host | interrupted_read | unreadable_answer | failed_read.

Definition reasonFor (error : thrown) : HostUnreachableReason :=
  if instanceof "InstanceHostNotProvisionedError" error then unprovisioned
  else if instanceof "InstanceHostNotFoundError" error then misconfigured
  else if instanceof "HostUnreachableError" error then unreachable_host
  else failed_read.

Definition startedOrThrow (instanceId output : string) : result unit :=
  match parseUnitStartState output with
  | None => Throw (HostAnswerUnreadableError
                     ("Could not read whether instance " +:+ instanceId +:+ " started"))
  | Some state =>
      if activeState state ≡? "active" then Ok tt
      else if (start_result state ≡? "exec-condition") || bool_decide (signIn state ∈ RUNNING_UNIT_STATES)
           then Throw (InstanceSignInRunningError ("Sign-in is running for instance " +:+ instanceId))
      else Throw (HostRefusedError ("Failed to start instance " +:+ instanceId +:+ ": "
                                      +:+ activeState state +:+ " " +:+ start_result state))
  end.

Definition ACTIVE_RESULT_MAX_AGE_MS : Z := 5000.
Definition LIVE_PORT_PROBE_TIMEOUT_MS : Z := 3000.
Definition LIVE_PORT_CLAIM_ATTEMPTS : nat := 5.
Definition INSTANCE_STEP_TIMEOUT_MS : Z := 15000.
Definition CONNECT_TIMEOUT_MS : Z := 10000.

Record ConnectionIdentity := MkIdentity {
  id_hostname : string; id_port : Z; id_username : string; id_sshKeyId : string;
  id_hostKeyFingerprint : string }.

Record ConnectOptions := MkConnect {
  co_hostname : string; co_port : Z; co_username : string; co_privateKey : string;
  co_expectedFingerprint : string; co_timeoutMs : Z }.

Record LoadedHost := MkLoaded { lh_identity : ConnectionIdentity; lh_options : ConnectOptions }.

(** [HostTransport], as far as the controller uses it. *)
Record HostTransport (W : Type) := MkTransport {
  tr_connect : ConnectOptions -> M W unit;
  tr_exec : Exec W;
  tr_canForward : Z -> Z -> M W bool;
  tr_close : M W unit }.
Arguments tr_connect {W}. Arguments tr_exec {W}. Arguments tr_canForward {W}. Arguments tr_close {W}.

(** The database, its clock (which the process's agrees with), what the process
    remembers of running bots, and the rest: the machines. *)
Record World (X : Type) := MkWorld {
  fleet : FleetTables; clock : Z; activeReadAt : list (string * ConnectionIdentity * Z); elsewhere : X }.
Arguments MkWorld {X}. Arguments fleet {X}. Arguments clock {X}. Arguments activeReadAt {X}.
Arguments elsewhere {X}.

Section worlds.
Context {X : Type}.

Definition with_fleet (t : FleetTables) (w : World X) : World X :=
  MkWorld t (clock w) (activeReadAt w) (elsewhere w).

Definition with_active (x : list (string * ConnectionIdentity * Z)) (w : World X) : World X :=
  MkWorld (fleet w) (clock w) x (elsewhere w).

(** A statement on the tables, outside or inside a transaction. *)
Definition on_fleet {A} (m : M FleetTables A) : M (World X) A := fun w =>
  match m (fleet w) with (r, t) => (r, with_fleet t w) end.

Definition query {A} (f : FleetTables -> A) : M (World X) A := gets (fun w => f (fleet w)).

Definition withTransaction {A} (m : M (World X) A) : M (World X) A :=
  transaction (fun before after => with_fleet (fleet before) after) m.

Definition on_instances {A} (f : InstanceRepository.Table -> A * InstanceRepository.Table)
    : M (World X) A :=
  on_fleet (stmt (fun t => let (a, x) := f (instances t) in (a, with_instances x t))).

(** [repos.audit.record(scope, entry)] *)
Definition record_audit (scope auditId : string) (entry : AuditEntry) : M (World X) AuditEventRow :=
  fun w =>
    match AuditRepository.record scope auditId (clock w) entry (audits (fleet w)) with
    | (r, x) => (r, with_fleet (with_audits x (fleet w)) w)
    end.
End worlds.

(** The calls of the controller it is built with. *)
Record InstanceControllerDeps (X : Type) := MkInstanceDeps {
  createTransport : M (World X) (HostTransport (World X));
  seal : string -> result SealedValue;
  open_sealed : string -> string -> result string;
  error_code : thrown -> option string;
  error_level : thrown -> option string;
  redactSecrets : string -> string;
  is_email : string -> bool;
  number_le : string -> string -> bool;
  finite : string -> bool;
  other_number : string -> option Z;
  readDocument : string -> option InstanceConfigInput;
  writeDocument : InstanceConfigInput -> string }.
Arguments createTransport {X}. Arguments seal {X}. Arguments open_sealed {X}.
Arguments error_code {X}. Arguments error_level {X}. Arguments redactSecrets {X}.
Arguments is_email {X}. Arguments number_le {X}. Arguments finite {X}. Arguments other_number {X}.
Arguments readDocument {X}. Arguments writeDocument {X}.

Section controller.
Context {X : Type} (deps : InstanceControllerDeps X).
Abbreviation W := (World X).

(** [redactCommand(command)] *)
Definition redactCommand (command : string) : string :=
  maskCommandCredentials (redactSecrets deps command).

(** ** Claims *)

Definition takeConfigClaim (scope instanceId claimId : string) (expectedVersion : Z)
    : M W (InstanceRow * InstanceConfigRow) :=
  let* w := get in
  let* claimed := on_instances (InstanceRepository.claimForConfig scope instanceId claimId (clock w)) in
  match claimed with
  | None =>
      let* present := query (fun t => InstanceRepository.findById scope instanceId (instances t)) in
      match present with
      | None => throw (InstanceNotFoundError ("Instance not found: " +:+ instanceId))
      | Some _ => throw (InstanceBusyError ("Instance " +:+ instanceId +:+ " is busy with another change"))
      end
  | Some row =>
      let* config := query (fun t => InstanceRepository.latestConfig scope instanceId (configs t)) in
      match config with
      | None => throw (internal ("No saved settings for instance " +:+ instanceId))
      | Some c =>
          if ic_version c =? expectedVersion then ret (row, c)
          else throw (InstanceConcurrentlyModifiedError
                        ("Instance " +:+ instanceId +:+ " is at version " +:+ decimal (ic_version c)
                           +:+ ", not " +:+ decimal expectedVersion))
      end
  end.

Definition busy (instanceId : string) : thrown :=
  InstanceBusyError ("Instance " +:+ instanceId +:+ " is busy with another change").

Definition takeLifecycleClaim (scope instanceId claimId : string) : M W InstanceRow :=
  let* w := get in
  let* claimed :=
    on_instances (InstanceRepository.claimForLifecycle scope instanceId claimId (clock w) (clock w)) in
  match claimed with
  | Some row => ret row
  | None =>
      let* present := query (fun t => InstanceRepository.findById scope instanceId (instances t)) in
      match present with
      | None => throw (InstanceNotFoundError ("Instance not found: " +:+ instanceId))
      | Some row =>
          if bool_decide (is_Some (authClaimId (in_claims row)))
             && negb (isAuthClaimStale (authClaimedAt (in_claims row)) (clock w))
          then throw (InstanceAuthInProgressError
                        ("Instance " +:+ instanceId +:+ " is being authenticated and cannot be changed"))
          else throw (busy instanceId)
      end
  end.

(** ** Commands of a request that holds a claim

    The request's state is [inFlight]: whether a command may still run on the
    machine though its connection is gone. *)

Definition claimedExec (transport : HostTransport W) (command : string) (timeoutMs : Z)
    (stdin : option string) : M (bool * W) ExecResult := fun s =>
  match tr_exec transport command timeoutMs stdin s.2 with
  | (Ok result, w) => (Ok result, (s.1, w))
  | (Throw error, w) =>
      (Throw error, (if instanceof "ChannelLimitReachedError" error then s.1 else true, w))
  end.

(** [releaseConfigClaim(...).catch(() => undefined)] *)
Definition release_claim (scope instanceId claimId : string) : M W unit :=
  on_instances (InstanceRepository.releaseConfigClaim scope instanceId claimId) ;;; ret tt.

Definition releasingClaim {A} (scope instanceId claimId : string) (run : M (bool * W) A) : M W A :=
  fun w =>
    match run (false, w) with
    | (Ok a, (_, w')) => (Ok a, w')
    | (Throw error, (inFlight, w')) =>
        if inFlight then (Throw error, w')
        else
          match release_claim scope instanceId claimId w' with
          | (_, w'') => (Throw error, w'')
          end
    end.

(** ** Machines *)

Definition scopeOf (ctx : ActorContext) : string := ctx_organizationId ctx.

Definition findSshKey (scope id : string) (t : FleetTables) : option SshKeyRow :=
  select_first (fun k => (key_id k ≡? id) && (key_organizationId k ≡? scope)) (sshKeys t).

(** A column that is neither [null] nor empty. *)
Definition truthy (value : option string) : option string :=
  match value with Some v => if v ≡? EmptyString then None else Some v | None => None end.

Definition loadHost (scope hostId : string) (need : HostNeed) : M W LoadedHost :=
  let* host := query (fun t => HostRepository.findById scope hostId (hosts t)) in
  match host with
  | None => throw (InstanceHostNotFoundError ("Host not found: " +:+ hostId))
  | Some h =>
      match truthy (sshKeyId (host_address h)), truthy (hostKeyFingerprint (host_trust h)) with
      | None, _ => throw (InstanceHostNotFoundError ("Host " +:+ hostId +:+ " has no ssh key"))
      | _, None => throw (InstanceHostNotFoundError
                            ("Host " +:+ hostId +:+ " has no trusted host key fingerprint"))
      | Some keyOf, Some fingerprint =>
          if negb (hostMeets h need)
          then throw (InstanceHostNotProvisionedError ("Host " +:+ hostId +:+ " is not set up to run bots"))
          else
            let* key := query (findSshKey scope keyOf) in
            match key with
            | None => throw (InstanceHostNotFoundError ("Ssh key not found for host " +:+ hostId))
            | Some k =>
                let* privateKey :=
                  lift (open_sealed deps (key_privateKeyEncrypted k) (key_privateKeyKeyId k)) in
                let a := host_address h in
                ret (MkLoaded (MkIdentity (hostname a) (port a) (username a) keyOf fingerprint)
                       (MkConnect (hostname a) (port a) (username a) privateKey fingerprint
                          CONNECT_TIMEOUT_MS))
            end
      end
  end.

Definition connection_failure (error : thrown) : string :=
  match error with
  | ThrownError _ message => connectFailureReason (error_code deps error) (error_level deps error) message
  | ThrownValue _ => COULD_NOT_CONNECT
  end.

Definition connectLoaded (loaded : LoadedHost) : M W (HostTransport W) :=
  let* transport := createTransport deps in
  try_catch (tr_connect transport (lh_options loaded) ;;; ret transport)
    (fun error =>
       swallow (tr_close transport) ;;; throw (HostUnreachableError (connection_failure error))).

Definition openHost (scope hostId : string) (need : HostNeed)
    : M W (HostTransport W * ConnectionIdentity) :=
  let* loaded := loadHost scope hostId need in
  let* transport := connectLoaded loaded in
  ret (transport, lh_identity loaded).

Definition connectToHost (scope hostId : string) (need : HostNeed) : M W (HostTransport W) :=
  let* opened := openHost scope hostId need in ret opened.1.

(** [try { body } finally { await transport.close().catch(() => undefined) }] *)
Definition closing {S A} (lifted : M W unit -> M S unit) (transport : HostTransport W) (body : M S A)
    : M S A := try_finally body (lifted (swallow (tr_close transport))).

Definition here : M W unit -> M W unit := fun m => m.
Definition under : M W unit -> M (bool * W) unit := on_snd.

(** Up to [tries] attempts, as long as the port is what another bot took. *)
Fixpoint insertWithFreePort {S} (tries : nat) (attempt : nat -> M S InstanceRow) : M S InstanceRow :=
  match tries with
  | O => throw (LiveControlPortsExhaustedError
                  "Another instance claimed every port this one tried on that host")
  | Datatypes.S tries =>
      try_catch (attempt tries)
        (fun error =>
           if constraintViolationOf error ≡? Some LIVE_PORT_CONSTRAINT
           then insertWithFreePort tries attempt else throw error)
  end.

Fixpoint first_unused (transport : HostTransport W) (ports : list Z) : M W Z :=
  match ports with
  | [] => throw (LiveControlPortsExhaustedError
                   "No live control port on this host is both unrecorded and unused")
  | port :: rest =>
      let* answers := tr_canForward transport port LIVE_PORT_PROBE_TIMEOUT_MS in
      if answers then first_unused transport rest else ret port
  end.

Definition unusedPortOnHost (transport : HostTransport W) (taken : list Z) : M W Z :=
  first_unused transport (freeLiveControlPorts taken).

(** ** Saved settings *)

Definition unusable (instanceId : string) : thrown :=
  InstanceConfigUnusableError ("Saved settings for instance " +:+ instanceId +:+ " are unusable").

Definition storedDocument (instanceId : string) (row : InstanceConfigRow) : result InstanceConfigInput :=
  match instanceConfigStored (number_le deps) (finite deps) (readDocument deps) (ic_document row) with
  | None => Throw (unusable instanceId)
  | Some c => Ok c
  end.

Definition storedFrom (instance : InstanceRow) (saved : option InstanceConfigRow)
    : result (option InstanceConfigInput) :=
  match saved with
  | None => Ok None
  | Some row =>
      let+ c := storedDocument (in_id instance) row in Ok (Some (with_port (in_liveControlPort instance) c))
  end.

Definition storedConfigFor (scope : string) (instance : InstanceRow)
    : M W (option InstanceConfigInput) :=
  let* saved := query (fun t => InstanceRepository.latestConfig scope (in_id instance) (configs t)) in
  lift (storedFrom instance saved).

Definition usableBots (instanceId : string) (stored : InstanceConfigInput) : result (Settings * Settings) :=
  if instanceBotsInput (number_le deps) (finite deps) (botConfig stored) (advancedKeys stored)
  then Ok (botConfig stored, advancedKeys stored)
  else Throw (InstanceBotConfigUnusableError
                ("Saved bot settings for instance " +:+ instanceId +:+ " are unusable")).

Definition documentFrom (instance : InstanceRow) (saved : option InstanceConfigRow)
    : result (option string) :=
  let+ stored := storedFrom instance saved in
  match stored with
  | None => Ok None
  | Some c =>
      let+ _ := usableBots (in_id instance) c in
      if instanceConfigInput (number_le deps) (finite deps) c
      then let+ document := renderInstanceConfig (other_number deps) c in Ok (Some document)
      else Throw (unusable (in_id instance))
  end.

Definition expectedDocumentFor (scope : string) (instance : InstanceRow) : M W (option string) :=
  let* saved := query (fun t => InstanceRepository.latestConfig scope (in_id instance) (configs t)) in
  lift (documentFrom instance saved).

Definition requireInstance (ctx : ActorContext) (instanceId : string) : M W InstanceRow :=
  let* found := query (fun t => InstanceRepository.findById (scopeOf ctx) instanceId (instances t)) in
  match found with
  | None => throw (InstanceNotFoundError ("Instance not found: " +:+ instanceId))
  | Some row => ret row
  end.

(** ** What is shown of a bot *)

Record InstancePublic := MkInstancePublic {
  pub_id : string; pub_hostId : string; pub_name : string; pub_accountType : AccountType;
  pub_minecraftAccount : string; pub_minecraftUsername : option string; pub_status : InstanceStatus;
  pub_lastExitCode : option Z; pub_createdAt : string }.

Definition toInstancePublic (row : InstanceRow) : InstancePublic :=
  MkInstancePublic (in_id row) (in_hostId row) (in_name row) (in_accountType row)
    (in_minecraftAccount row) (in_minecraftUsername row) (in_status row) (in_lastExitCode row)
    (toISOString (in_createdAt row)).

Definition by_actor (ctx : ActorContext) (action subjectId : string) (detail : list (string * string))
    : AuditEntry :=
  MkAuditEntry (Some (ctx_memberId ctx)) (ctx_actorLabel ctx) action "instance" subjectId detail.

Definition forgetActive (instanceId : string) : M W unit :=
  modify (fun w => with_active (List.filter (fun e => negb (e.1.1 ≡? instanceId)) (activeReadAt w)) w).

(** ** Starting and stopping *)

Definition stopUnitUnderClaim (transport : HostTransport W) (instanceId : string) : M (bool * W) unit :=
  let* unit := lift (unitName instanceId) in
  let* result := claimedExec transport (systemctl ("stop " +:+ shellQuote unit)) UNIT_STOP_TIMEOUT_MS None in
  if negb (exitCode result =? 0)
  then throw (HostRefusedError ("Failed to stop instance " +:+ instanceId +:+ ": "
                                  +:+ trim (stderr result)))
  else on_snd (forgetActive instanceId).

Definition finalizeLifecycle (ctx : ActorContext) (instanceId claimId auditId : string)
    (status : InstanceStatus) (action : string) : M W InstanceRow :=
  withTransaction (
    let exit := if status ≡? st_running then Some None else None in
    let* finalized :=
      on_instances (InstanceRepository.finalizeConfigClaim (scopeOf ctx) instanceId claimId
                      (Some status) exit) in
    match finalized with
    | None => throw (busy instanceId)
    | Some row =>
        record_audit (scopeOf ctx) auditId (by_actor ctx action instanceId []) ;;; ret row
    end).

Inductive StartVerb := start_verb | restart_verb.

#[global] Instance StartVerb_eq_dec : EqDecision StartVerb.
Proof. solve_decision. Defined.

(** The transaction that takes the claim of a start and reads the settings. *)
Definition claim_and_read (scope instanceId claimId : string) : M W (InstanceRow * option string) :=
  withTransaction (
    let* row := takeLifecycleClaim scope instanceId claimId in
    let* saved := query (fun t => InstanceRepository.latestConfig scope instanceId (configs t)) in
    let* document := lift (documentFrom row saved) in
    ret (row, document)).

Definition refused_unless_zero (message : string) (result : ExecResult) : M (bool * W) unit :=
  if negb (exitCode result =? 0)
  then throw (HostRefusedError (message +:+ ": " +:+ trim (stderr result)))
  else ret tt.

(** The new token on the machine, and in the table when it was written. *)
Definition write_environment (scope instanceId claimId environment : string) (sealed : SealedValue)
    (claimed : InstanceRow) (transport : HostTransport W) : M (bool * W) unit :=
  let* command :=
    lift (envWriteUnlessRunningCommand (in_id claimed) environment (in_liveControlPort claimed)) in
  let* wrote := claimedExec transport command INSTANCE_STEP_TIMEOUT_MS (Some environment) in
  refused_unless_zero "Failed to write the instance environment" wrote ;;;
  match parseEnvWriteAnswer (stdout wrote) with
  | None => throw (HostAnswerUnreadableError
                     ("Could not read whether instance " +:+ in_id claimed +:+ " is running"))
  | Some env_kept => ret tt
  | Some env_written =>
      let* w := get in
      let* stored :=
        on_snd (on_instances (InstanceRepository.writeTokenUnderClaim scope instanceId claimId sealed
                                (clock w.2))) in
      if negb stored then throw (busy instanceId) else ret tt
  end.

Definition write_document (instanceId document : string) (transport : HostTransport W)
    : M (bool * W) unit :=
  let* command := lift (configWriteCommand instanceId document) in
  let* written := claimedExec transport command INSTANCE_STEP_TIMEOUT_MS (Some document) in
  refused_unless_zero "Failed to write instance config" written.

Definition start_unit (instanceId : string) (transport : HostTransport W) : M (bool * W) unit :=
  let* command := lift (startUnitCommand instanceId) in
  let* started := claimedExec transport command UNIT_START_TIMEOUT_MS None in
  refused_unless_zero ("Failed to start instance " +:+ instanceId) started ;;;
  lift (startedOrThrow instanceId (stdout started)).

(** What a start does on the machine, connected to it. *)
Definition start_on_machine (scope instanceId claimId environment : string) (sealed : SealedValue)
    (verb : StartVerb) (claimed : InstanceRow) (document : option string)
    (transport : HostTransport W) : M (bool * W) unit :=
  (if verb ≡? restart_verb
   then failingAs InstanceStopFailedError (stopUnitUnderClaim transport (in_id claimed))
   else ret tt) ;;;
  write_environment scope instanceId claimId environment sealed claimed transport ;;;
  match document with
  | None => ret tt
  | Some text => write_document (in_id claimed) text transport
  end ;;;
  start_unit (in_id claimed) transport.

(** [connectLoaded], the body, and the closing of the connection. *)
Definition on_machine (loaded : LoadedHost) (body : HostTransport W -> M (bool * W) unit)
    : M (bool * W) unit :=
  let* transport := on_snd (connectLoaded loaded) in
  closing under transport (body transport).

(** [token] is [randomUUID().replaceAll("-", "")], [claimId] a [randomUUID()]. *)
Definition startUnderClaim (ctx : ActorContext) (instanceId : string) (verb : StartVerb)
    (token claimId auditId : string) : M W InstancePublic :=
  let scope := scopeOf ctx in
  let* instance := requireInstance ctx instanceId in
  if in_status instance ≡? st_needs_auth
  then throw (InstanceAuthInProgressError
                ("Instance " +:+ instanceId +:+ " has not completed its microsoft sign-in"))
  else
    expectedDocumentFor scope instance ;;;
    let* loaded := loadHost scope (in_hostId instance) runtime in
    let* sealed := lift (seal deps token) in
    let* environment := lift (renderEnvironmentFile token) in
    releasingClaim scope instanceId claimId (
      let* claim := on_snd (claim_and_read scope instanceId claimId) in
      let (claimed, document) := claim in
      failingAs InstanceStartFailedError
        (on_machine loaded
           (start_on_machine scope instanceId claimId environment sealed verb claimed document)) ;;;
      let action := if verb ≡? start_verb then "instance.start" else "instance.restart" in
      let* row := on_snd (finalizeLifecycle ctx instanceId claimId auditId st_running action) in
      ret (toInstancePublic row)).

Definition start (ctx : ActorContext) (instanceId token claimId auditId : string) : M W InstancePublic :=
  lift (requireCapabilityFor (ctx_role ctx) instance_start) ;;;
  startUnderClaim ctx instanceId start_verb token claimId auditId.

Definition restart (ctx : ActorContext) (instanceId token claimId auditId : string) : M W InstancePublic :=
  lift (requireCapabilityFor (ctx_role ctx) instance_start) ;;;
  startUnderClaim ctx instanceId restart_verb token claimId auditId.

Definition stop (ctx : ActorContext) (instanceId claimId auditId : string) : M W InstancePublic :=
  lift (requireCapabilityFor (ctx_role ctx) instance_start) ;;;
  let scope := scopeOf ctx in
  let* instance := requireInstance ctx instanceId in
  let* loaded := loadHost scope (in_hostId instance) setUpOnce in
  releasingClaim scope instanceId claimId (
    let* claimed := on_snd (withTransaction (takeLifecycleClaim scope instanceId claimId)) in
    failingAs InstanceStopFailedError
      (on_machine loaded (fun transport => stopUnitUnderClaim transport (in_id claimed))) ;;;
    let* row := on_snd (finalizeLifecycle ctx instanceId claimId auditId st_stopped "instance.stop") in
    ret (toInstancePublic row)).

(** ** Saving settings *)

Definition save_version (ctx : ActorContext) (instanceId claimId configId auditId : string)
    (settled : InstanceConfigInput) : M W Z :=
  withTransaction (
    let* finalized :=
      on_instances (InstanceRepository.finalizeConfigClaim (scopeOf ctx) instanceId claimId None None) in
    match finalized with
    | None => throw (busy instanceId)
    | Some _ =>
        let* saved :=
          on_fleet (stmt (fun t =>
            let (row, x) := InstanceRepository.insertConfigVersion (scopeOf ctx) configId instanceId
                              (writeDocument deps settled) (Some (ctx_memberId ctx)) (ctx_actorLabel ctx)
                              (configs t) in
            (row, with_configs x t))) in
        record_audit (scopeOf ctx) auditId
          (by_actor ctx "instance.config.update" instanceId [("version", decimal (ic_version saved))]) ;;;
        ret (ic_version saved)
    end).

(** The transaction that takes the claim and composes the new settings. *)
Definition settings_transaction (scope instanceId claimId : string) (expectedVersion : Z)
    (compose : InstanceConfigInput -> result InstanceConfigInput) : M W (InstanceConfigInput * string) :=
  let* claimed := takeConfigClaim scope instanceId claimId expectedVersion in
  let (row, config) := claimed in
  let* stored := lift (storedDocument instanceId config) in
  let* composed := lift (compose stored) in
  if instanceConfigInput (number_le deps) (finite deps) composed then
    let settled := with_port (in_liveControlPort row) composed in
    let* document := lift (renderInstanceConfig (other_number deps) settled) in
    ret (settled, document)
  else throw (ZodError "Invalid settings").

Definition saveConfig (ctx : ActorContext) (instanceId : string) (expectedVersion : Z)
    (compose : InstanceConfigInput -> result InstanceConfigInput) (claimId configId auditId : string)
    : M W Z :=
  lift (requireCapabilityFor (ctx_role ctx) config_edit) ;;;
  let scope := scopeOf ctx in
  let* instance := requireInstance ctx instanceId in
  let* loaded := loadHost scope (in_hostId instance) setUpOnce in
  releasingClaim scope instanceId claimId (
    let* claim := on_snd (withTransaction (settings_transaction scope instanceId claimId expectedVersion compose)) in
    let (settled, document) := claim in
    on_machine loaded (write_document instanceId document) ;;;
    on_snd (save_version ctx instanceId claimId configId auditId settled)).

(** [{ ...settings, ...usableBots(instanceId, stored) }] *)
Definition updateSettings (ctx : ActorContext) (instanceId : string) (settings : InstanceConfigInput)
    (expectedVersion : Z) (claimId configId auditId : string) : M W Z :=
  saveConfig ctx instanceId expectedVersion
    (fun stored => let+ (bots, advanced) := usableBots instanceId stored in
                   Ok (with_bots advanced bots settings)) claimId configId auditId.

Definition updateBotConfig (ctx : ActorContext) (instanceId : string) (advanced bots : Settings)
    (expectedVersion : Z) (claimId configId auditId : string) : M W Z :=
  saveConfig ctx instanceId expectedVersion (fun stored => Ok (with_bots advanced bots stored))
    claimId configId auditId.
End controller.
