(* ===== verification/InstanceRequests.v ===== *)
(** The other requests on bots.

    The rest of packages/core/src/instance/instance.controller.ts: bots are
    created, removed and shown, commands are sent to them, and commands, tasks
    and sleep windows are kept for them. *)

From S2P Require Import Prelude Tables Dates Calendar Due CommandScheduler TaskPlans TaskStore TaskScheduler Observer Shell Control ClientSettings ClientConfig InstanceInput Access HostStore InstanceStore InstanceController.

Section requests.
Context {X : Type} (deps : InstanceControllerDeps X).
Abbreviation W := (World X).

(** Reading from a machine over the shared connections: [leaseHost] answers
    with a reader to be given back. *)
Variable leaseHost : string -> string -> Z -> HostNeed -> M W (JournalLease W).

(** ** Showing bots *)

Definition list_instances (ctx : ActorContext) : M W (list InstancePublic) :=
  lift (requireCapabilityFor (ctx_role ctx) instance_read) ;;;
  let* rows := query (fun t => InstanceRepository.list_ (scopeOf ctx) (instances t)) in
  ret (map toInstancePublic rows).

Definition get_instance (ctx : ActorContext) (instanceId : string) : M W InstancePublic :=
  lift (requireCapabilityFor (ctx_role ctx) instance_read) ;;;
  let* row := requireInstance ctx instanceId in ret (toInstancePublic row).

Definition getConfig (ctx : ActorContext) (instanceId : string) : M W (option (InstanceConfigInput * Z)) :=
  lift (requireCapabilityFor (ctx_role ctx) instance_read) ;;;
  let* instance := requireInstance ctx instanceId in
  let* row := query (fun t => InstanceRepository.latestConfig (scopeOf ctx) instanceId (configs t)) in
  ret (let? c := row in
       let? config := instanceConfigStored (number_le deps) (finite deps) (readDocument deps) (ic_document c) in
       Some (with_port (in_liveControlPort instance) config, ic_version c)).

(** ** Creating a bot *)

(** The transaction of one attempt: the machine is locked and looked at again,
    then the row, its first settings and the audit event are stored. *)
Definition insert_bot (ctx : ActorContext) (input : CreateInstanceInput) (newId claimId configId auditId : string)
    (sealedToken : SealedValue) (initial : InstanceConfigInput) : M W InstanceRow :=
  let scope := scopeOf ctx in
  withTransaction (
    let* locked := query (fun t => HostRepository.findById scope (cr_hostId input) (hosts t)) in
    let set_up := match locked with
                  | Some h => (host_status h ≡? ready) && runs_bots h
                  | None => false end in
    if negb set_up
    then throw (InstanceHostNotProvisionedError
                  ("Host " +:+ cr_hostId input +:+ " is not ready for a new bot"))
    else
      let* w := get in
      let* row :=
        on_fleet (InstanceRepository.insert scope newId
          (MkInstanceValues (cr_hostId input) (cr_name input) (cr_accountType input)
             (cr_minecraftAccount input)
             (if needsInteractiveSignIn (cr_accountType input) then st_needs_auth else st_stopped)
             (liveControlPort initial) (Some sealedToken)) claimId (clock w)) in
      on_fleet (stmt (fun t =>
        let (saved, x) := InstanceRepository.insertConfigVersion scope configId (in_id row)
                            (writeDocument deps initial) (Some (ctx_memberId ctx)) (ctx_actorLabel ctx)
                            (configs t) in
        (saved, with_configs x t))) ;;;
      record_audit scope auditId
        (by_actor ctx "instance.create" (in_id row)
           [("hostId", cr_hostId input); ("name", cr_name input);
            ("accountType", account_text (cr_accountType input))]) ;;;
      ret row).

(** [claimed] and [initialConfig], which an attempt leaves to the next one. *)
Record Attempt := MkAttempt { claimed_ports : list Z; initialConfig : InstanceConfigInput }.

Definition attempt_insert (ctx : ActorContext) (input : CreateInstanceInput) (transport : HostTransport W)
    (newId : nat -> string) (claimId : string) (configId auditId : nat -> string)
    (sealedToken : SealedValue) (n : nat) : M (Attempt * W) InstanceRow :=
  let* s := get in
  let* free := on_snd (unusedPortOnHost transport (claimed_ports s.1)) in
  on_fst (modify (fun a => MkAttempt (claimed_ports a ++ [free]) (with_port free (initialConfig a)))) ;;;
  let* s := get in
  on_snd (insert_bot ctx input (newId n) claimId (configId n) (auditId n) sealedToken (initialConfig s.1)).

(** The steps that lay out the bot's directory. *)
Definition run_step (transport : HostTransport W) (step : LayoutStep) : M (bool * W) unit :=
  let* result := claimedExec transport (Shell.step_command step) INSTANCE_STEP_TIMEOUT_MS (step_stdin step) in
  refused_unless_zero (step_failure step) result.

Definition lay_out (ctx : ActorContext) (created : InstanceRow) (claimId token : string)
    (initial : InstanceConfigInput) (transport : HostTransport W) : M (bool * W) InstancePublic :=
  let* document := lift (renderInstanceConfig (other_number deps) initial) in
  let* steps :=
    lift (instanceLayoutSteps (in_id created) (in_liveControlPort created) token document) in
  for_each steps (run_step transport) ;;;
  let* finalized :=
    on_snd (on_instances (InstanceRepository.finalizeConfigClaim (scopeOf ctx) (in_id created) claimId
                            None None)) in
  match finalized with
  | None => throw (busy (in_id created))
  | Some _ => ret (toInstancePublic created)
  end.

Definition create (ctx : ActorContext) (input : CreateInstanceInput) (token claimId : string)
    (newId configId auditId : nat -> string) : M W InstancePublic :=
  lift (requireCapabilityFor (ctx_role ctx) instance_create) ;;;
  if negb (createInstanceInput (is_email deps) input) then throw (ZodError "Invalid bot")
  else
    let scope := scopeOf ctx in
    let* host := query (fun t => HostRepository.findById scope (cr_hostId input) (hosts t)) in
    match host with
    | None => throw (InstanceHostNotFoundError ("Host not found: " +:+ cr_hostId input))
    | Some h =>
        if negb ((host_status h ≡? ready) && runs_bots h)
        then throw (InstanceHostNotProvisionedError
                      ("Host " +:+ cr_hostId input +:+ " is not ready for a new bot"))
        else
          let* onHost :=
            query (fun t => List.filter (fun r => in_hostId r ≡? cr_hostId input)
                              (InstanceRepository.list_ scope (instances t))) in
          let* transport := connectToHost deps scope (cr_hostId input) runtime in
          closing here transport (
            let* sealedToken := lift (seal deps token) in
            let initial :=
              defaultInstanceConfig (cr_accountType input) (cr_minecraftAccount input)
                (cr_serverAddress input) (cr_minecraftVersion input) in
            let* created := (fun w =>
              match insertWithFreePort LIVE_PORT_CLAIM_ATTEMPTS
                      (attempt_insert ctx input transport newId claimId configId auditId sealedToken)
                      (MkAttempt (map in_liveControlPort onHost) initial, w) with
              | (Ok row, (a, w')) => (Ok (row, initialConfig a), w')
              | (Throw error, (_, w')) => (Throw error, w')
              end) in
            let (row, settled) := created in
            releasingClaim scope (in_id row) claimId (lay_out ctx row claimId token settled transport))
    end.

(** ** Removing a bot *)

Definition still_in_use (instanceId : string) : thrown :=
  InstanceStillInUseError ("Instance " +:+ instanceId +:+ " is still in use on its host").

Definition unfinished (instanceId : string) : thrown :=
  InstanceRemovalFailedError ("Instance " +:+ instanceId +:+ " could not be fully removed from its host").

Definition exitOf (transport : HostTransport W) (command : result string) (timeoutMs : Z)
    : M (bool * W) Z :=
  let* text := lift command in
  let* result := claimedExec transport text timeoutMs None in
  ret (exitCode result).

Definition unless_zero (code : Z) (error : thrown) : M (bool * W) unit :=
  if code =? 0 then ret tt else throw error.

Definition remove_from_machine (instanceId id : string) (transport : HostTransport W)
    : M (bool * W) unit :=
  let* timers := exitOf transport (removeTimersCommand id) REMOVAL_STEP_TIMEOUT_MS in
  unless_zero timers (unfinished instanceId) ;;;
  exitOf transport (stopUnitsCommand id) UNIT_STOP_TIMEOUT_MS ;;;
  on_snd (forgetActive id) ;;;
  let* containers := exitOf transport (removeContainersCommand id) REMOVAL_STEP_TIMEOUT_MS in
  unless_zero containers (still_in_use instanceId) ;;;
  let* gone := exitOf transport (verifyGoneCommand id) REMOVAL_STEP_TIMEOUT_MS in
  unless_zero gone (still_in_use instanceId) ;;;
  let* deleted := exitOf transport (deleteDirectoryCommand id) DIRECTORY_DELETE_TIMEOUT_MS in
  (if endedByDeadline deleted then throw (still_in_use instanceId) else ret tt) ;;;
  unless_zero deleted (unfinished instanceId) ;;;
  let* verified := exitOf transport (verifyGoneCommand id) REMOVAL_STEP_TIMEOUT_MS in
  unless_zero verified (still_in_use instanceId).

Definition delete_claimed (ctx : ActorContext) (instanceId claimId auditId : string) : M W unit :=
  withTransaction (
    let* removed :=
      on_fleet (stmt (InstanceRepository.deleteUnderClaim (scopeOf ctx) instanceId claimId)) in
    if negb removed then throw (busy instanceId)
    else record_audit (scopeOf ctx) auditId (by_actor ctx "instance.remove" instanceId []) ;;; ret tt).

Definition remove (ctx : ActorContext) (instanceId claimId auditId : string) : M W unit :=
  lift (requireCapabilityFor (ctx_role ctx) instance_create) ;;;
  let scope := scopeOf ctx in
  let* instance := requireInstance ctx instanceId in
  let* loaded := loadHost deps scope (in_hostId instance) setUpOnce in
  releasingClaim scope instanceId claimId (
    let* claimed := on_snd (withTransaction (takeLifecycleClaim scope instanceId claimId)) in
    on_machine deps loaded (remove_from_machine instanceId (in_id claimed)) ;;;
    on_snd (delete_claimed ctx instanceId claimId auditId)).

(** ** Commands *)

Definition record_event (scope auditId : string) (entry : AuditEntry) : M W unit :=
  withTransaction (record_audit scope auditId entry ;;; ret tt).

Definition send_command (ctx : ActorContext) (instanceId command auditId : string) : M W unit :=
  lift (requireCapabilityFor (ctx_role ctx) console_write) ;;;
  let* instance := requireInstance ctx instanceId in
  if negb (in_status instance ≡? st_running)
  then throw (InstanceNotRunningError
                ("Instance " +:+ instanceId +:+ " is " +:+ status_text (in_status instance)
                   +:+ "; nothing is reading its control channel"))
  else
    failingAs InstanceCommandNotSentError (
      let* transport := connectToHost deps (scopeOf ctx) (in_hostId instance) runtime in
      closing here transport (sendCommand (tr_exec transport) (in_id instance) command)) ;;;
    record_event (scopeOf ctx) auditId
      (by_actor ctx "instance.command" instanceId [("command", redactCommand deps command)]).

Definition read_console (ctx : ActorContext) (instanceId : string) (lines : Z) : M W string :=
  lift (requireCapabilityFor (ctx_role ctx) console_read) ;;;
  let* instance := requireInstance ctx instanceId in
  failingAs InstanceConsoleUnreadableError (
    let* reader := leaseHost (scopeOf ctx) (in_hostId instance) CONSOLE_READ_DEADLINE_MS runtime in
    try_finally (readConsole (exec reader) (in_id instance) lines) (release reader)).

Record ScheduledCommandPublic := MkCommandPublic {
  cp_id : string; cp_instanceId : string; cp_name : string; cp_command : string;
  cp_daysOfWeek : list DayOfWeek; cp_runAt : TimeOfDay; cp_timezone : string; cp_enabled : bool;
  cp_lastRunAt : option string; cp_lastRunError : option string }.

Definition toScheduledCommandPublic (row : InstanceCommandRow) : ScheduledCommandPublic :=
  MkCommandPublic (cmd_id row) (cmd_instanceId row) (cmd_name row) (cmd_command row)
    (parseDaysOfWeek (cmd_daysOfWeek row)) (timeOfDay (cmd_minuteOfDay row)) (cmd_timezone row)
    (cmd_enabled row) (toISOString <$> cmd_lastRunAt row) (cmd_lastRunError row).

Definition listScheduledCommands (ctx : ActorContext) (instanceId : string)
    : M W (list ScheduledCommandPublic) :=
  lift (requireCapabilityFor (ctx_role ctx) instance_read) ;;;
  requireInstance ctx instanceId ;;;
  let* rows := query (fun t => CommandRepository.listForInstance (scopeOf ctx) instanceId (commands t)) in
  ret (map toScheduledCommandPublic rows).

Definition on_commands {A} (f : CommandRepository.Table -> A * CommandRepository.Table) : M W A :=
  on_fleet (stmt (fun t => let (a, x) := f (commands t) in (a, with_commands x t))).

Definition setScheduledCommand (ctx : ActorContext) (input : ScheduledCommandInput) (newId auditId : string)
    : M W (option ScheduledCommandPublic) :=
  lift (requireCapabilityFor (ctx_role ctx) console_write) ;;;
  requireInstance ctx (ci_instanceId input) ;;;
  lift (sendableLine (ci_command input)) ;;;
  lift (refuseStoredCredential (ci_command input)) ;;;
  let* row := withTransaction (
    let* days := lift (renderDaysOfWeek (ci_daysOfWeek input)) in
    let* w := get in
    let* stored :=
      on_commands (CommandRepository.upsert (scopeOf ctx) newId (clock w)
        (CommandRepository.MkValues (ci_instanceId input) (ci_name input) (ci_command input) days
           (minuteOfDay (ci_runAt input)) (ci_timezone input) (ci_enabled input))) in
    record_audit (scopeOf ctx) auditId
      (by_actor ctx "instance.schedule" (ci_instanceId input)
         [("schedule", ci_name input); ("command", redactCommand deps (ci_command input))]) ;;;
    ret stored) in
  ret (toScheduledCommandPublic <$> row).

Definition deleteScheduledCommand (ctx : ActorContext) (id auditId : string) : M W unit :=
  lift (requireCapabilityFor (ctx_role ctx) console_write) ;;;
  withTransaction (
    let* removed := on_commands (CommandRepository.deleteReturning (scopeOf ctx) id) in
    match removed with
    | None => ret tt
    | Some row =>
        record_audit (scopeOf ctx) auditId
          (by_actor ctx "instance.schedule" (cmd_instanceId row)
             [("removed", "true"); ("schedule", cmd_name row);
              ("command", redactCommand deps (cmd_command row)); ("scheduleId", cmd_id row)]) ;;;
        ret tt
    end).

(** An entry of a scheduler: nobody's, under the scheduler's name. *)
Definition by_scheduler (label subjectId : string) (detail : list (string * string)) : AuditEntry :=
  MkAuditEntry None label "instance.command" "instance" subjectId detail.

(** The bot a scheduled run is for; [what] ends the message when it does not run. *)
Definition running_instance (scope instanceId what : string) : M W InstanceRow :=
  let* instance := query (fun t => InstanceRepository.findById scope instanceId (instances t)) in
  match instance with
  | None => throw (InstanceNotFoundError ("Instance not found: " +:+ instanceId))
  | Some row =>
      if in_status row ≡? st_running then ret row
      else throw (InstanceNotRunningError
                    ("Instance " +:+ instanceId +:+ " is " +:+ status_text (in_status row) +:+ what))
  end.

Definition runScheduledCommand (row : InstanceCommandRow) (auditId : string) : M W unit :=
  let scope := cmd_organizationId row in
  let* instance := running_instance scope (cmd_instanceId row) ", so its scheduled command was not sent" in
  (let* transport := connectToHost deps scope (in_hostId instance) runtime in
   closing here transport (sendCommand (tr_exec transport) (in_id instance) (cmd_command row))) ;;;
  record_event scope auditId
    (by_scheduler SCHEDULER_ACTOR_LABEL (cmd_instanceId row)
       [("command", redactCommand deps (cmd_command row)); ("schedule", cmd_name row)]).

(** ** Tasks *)

Definition on_tasks {A} (f : TaskTables -> A * TaskTables) : M W A :=
  on_fleet (stmt (fun t => let (a, x) := f (task_tables t) in (a, with_task_tables x t))).

Definition taskRunsSince : M W Z :=
  gets (fun w => clock w - TASK_RUN_RETENTION_DAYS * 24 * 60 * 60 * 1000).

Definition definitionOf (parts : TaskParts) : TaskDefinition :=
  MkDefinition (parts_task parts) (parts_steps parts) (parts_times parts).

Record InstanceTaskRunPublic := MkRunPublic {
  rp_id : string; rp_trigger : TaskTrigger; rp_outcome : TaskRunOutcome; rp_startedAt : string;
  rp_finishedAt : option string; rp_stepsSent : Z; rp_error : option string }.

Definition toTaskRunPublic (row : InstanceTaskRunRow) : InstanceTaskRunPublic :=
  MkRunPublic (run_id row) (run_trigger row) (outcome row) (toISOString (startedAt row))
    (toISOString <$> finishedAt row) (stepsSent row) (run_error row).

Record InstanceTaskPublic := MkTaskPublic {
  tp_id : string; tp_instanceId : string; tp_name : string; tp_steps : list (Z * string);
  tp_stepDelaySeconds : Z; tp_enabled : bool; tp_timezone : string; tp_onFirstLogin : bool;
  tp_onLogin : bool; tp_onRespawn : bool; tp_times : list TaskTime; tp_interval : option TaskInterval;
  tp_nextIntervalRunAt : option string; tp_lastRunAt : option string; tp_lastRunError : option string;
  tp_runs : list InstanceTaskRunPublic }.

Definition toTaskPublic (parts : TaskParts) : InstanceTaskPublic :=
  let task := parts_task parts in
  MkTaskPublic (task_id task) (task_instanceId task) (task_name task)
    (map (fun step => (position step, TaskPlans.step_command step)) (orderedSteps (definitionOf parts)))
    (stepDelaySeconds task) (task_enabled task) (task_timezone task) (onFirstLogin task) (onLogin task)
    (onRespawn task)
    (map (fun time => MkTaskTime (parseDaysOfWeek (time_daysOfWeek time)) (timeOfDay (time_minuteOfDay time)))
       (parts_times parts))
    (match intervalMinSeconds task, intervalMaxSeconds task with
     | Some low, Some high => Some (MkTaskInterval low high)
     | _, _ => None
     end)
    (toISOString <$> intervalNextRunAt task) (toISOString <$> task_lastRunAt task) (task_lastRunError task)
    (map toTaskRunPublic (parts_runs parts)).

Definition listTasks (ctx : ActorContext) (instanceId : string) : M W (list InstanceTaskPublic) :=
  lift (requireCapabilityFor (ctx_role ctx) instance_read) ;;;
  requireInstance ctx instanceId ;;;
  let* since := taskRunsSince in
  let* parts :=
    withTransaction (query (fun t => TaskStore.listForInstance (scopeOf ctx) instanceId since (task_tables t))) in
  ret (map toTaskPublic parts).

Definition task_not_found (id : string) : thrown := InstanceTaskNotFoundError ("Task not found: " +:+ id).

(** The stored times of a task. *)
Fixpoint stored_times (given : list TaskTime) : result (list TaskTimeValues) :=
  match given with
  | [] => Ok []
  | time :: rest =>
      let+ days := renderDaysOfWeek (tt_daysOfWeek time) in
      let+ others := stored_times rest in
      Ok (MkTimeValues days (minuteOfDay (tt_runAt time)) :: others)
  end.

Definition task_values (input : InstanceTaskInput) : TaskValues :=
  MkTaskValues (ti_instanceId input) (ti_name input) (ti_stepDelaySeconds input) (ti_enabled input)
    (ti_timezone input) (ti_onFirstLogin input) (ti_onLogin input) (ti_onRespawn input)
    (minSeconds <$> ti_interval input) (maxSeconds <$> ti_interval input).

(** [null] in the text of a message. *)
Definition id_text (id : option string) : string := match id with Some i => i | None => "null" end.

Definition store_task (ctx : ActorContext) (input : InstanceTaskInput) (newId auditId : string)
    (partId : nat -> string) : M W TaskParts :=
  let scope := scopeOf ctx in
  withTransaction (
    let* w := get in
    let* stored :=
      match ti_id input with
      | None => on_tasks (fun t => let (row, t') := TaskStore.insert scope newId (clock w) (task_values input) t
                                   in (Some row, t'))
      | Some id => on_tasks (TaskStore.update scope id (task_values input))
      end in
    match stored with
    | None => throw (task_not_found (id_text (ti_id input)))
    | Some row =>
        on_tasks (TaskStore.replaceSteps partId scope (task_id row) (ti_steps input)) ;;;
        let* given := lift (stored_times (ti_times input)) in
        on_tasks (TaskStore.replaceTimes partId scope (task_id row) given) ;;;
        record_audit scope auditId
          (by_actor ctx "instance.schedule" (ti_instanceId input)
             [("task", task_name row);
              ("steps", join_with " ; " (map (redactCommand deps) (ti_steps input)))]) ;;;
        let* since := taskRunsSince in
        let* listed :=
          query (fun t => TaskStore.listForInstance scope (ti_instanceId input) since (task_tables t)) in
        match List.find (fun each => task_id (parts_task each) ≡? task_id row) listed with
        | None => throw (task_not_found (task_id row))
        | Some found => ret found
        end
    end).

Definition setTask (ctx : ActorContext) (input : InstanceTaskInput) (newId auditId : string)
    (partId : nat -> string) : M W InstanceTaskPublic :=
  lift (requireCapabilityFor (ctx_role ctx) console_write) ;;;
  requireInstance ctx (ti_instanceId input) ;;;
  for_each (ti_steps input)
    (fun command => lift (sendableLine command) ;;; lift (refuseStoredCredential command)) ;;;
  let* parts := store_task ctx input newId auditId partId in
  ret (toTaskPublic parts).

Definition deleteTask (ctx : ActorContext) (id auditId : string) : M W unit :=
  lift (requireCapabilityFor (ctx_role ctx) console_write) ;;;
  withTransaction (
    let* removed := on_tasks (TaskStore.deleteReturning (scopeOf ctx) id) in
    match removed with
    | None => ret tt
    | Some row =>
        record_audit (scopeOf ctx) auditId
          (by_actor ctx "instance.schedule" (task_instanceId row)
             [("removed", "true"); ("task", task_name row); ("taskId", task_id row)]) ;;;
        ret tt
    end).

(** [wait] is [setTimeout] as a promise. *)
Definition runTask (wait : Z -> M W unit) (parts : TaskParts) (auditId : string) : M W Z :=
  let task := parts_task parts in
  let scope := task_organizationId task in
  let* instance := running_instance scope (task_instanceId task) ", so its task was not run" in
  let* stepsSent :=
    let* transport := connectToHost deps scope (in_hostId instance) runtime in
    closing here transport
      (sendStepsInOrder
         (MkRunner W (sendCommand (tr_exec transport) (in_id instance)) wait scheduledRunFailure)
         (orderedSteps (definitionOf parts)) (stepDelaySeconds task)) in
  record_event scope auditId
    (by_scheduler TASK_SCHEDULER_ACTOR_LABEL (task_instanceId task)
       [("task", task_name task);
        ("commands", join_with " ; "
           (map (fun step => redactCommand deps (TaskPlans.step_command step))
              (orderedSteps (definitionOf parts))))]) ;;;
  ret stepsSent.

(** ** Sleep windows *)

Definition toSleepWindowPublic (row : InstanceScheduleRow) : string * RenderableSleepWindow * bool :=
  (is_id row,
   MkSleepWindow (is_instanceId row) (parseDaysOfWeek (is_daysOfWeek row))
     (timeOfDay (is_stopMinuteOfDay row)) (timeOfDay (is_startMinuteOfDay row)) (is_timezone row),
   is_enabled row).

Definition write_timer (transport : HostTransport W) (timer : string * string) : M W unit :=
  let (name, unit) := timer in
  let* write :=
    tr_exec transport ("cat > " +:+ UNIT_DIR +:+ "/" +:+ shellQuote name) INSTANCE_STEP_TIMEOUT_MS
      (Some unit) in
  if negb (exitCode write =? 0)
  then throw (HostMisconfiguredError ("Failed to write " +:+ name +:+ ": " +:+ trim (stderr write)))
  else ret tt.

Definition enable_timer (transport : HostTransport W) (timer : string * string) : M W unit :=
  let name := timer.1 in
  let* enable :=
    tr_exec transport (systemctl ("enable --now " +:+ shellQuote name)) INSTANCE_STEP_TIMEOUT_MS None in
  if negb (exitCode enable =? 0)
  then throw (HostMisconfiguredError ("Failed to enable " +:+ name +:+ ": " +:+ trim (stderr enable)))
  else ret tt.

Definition applySleepTimers (ctx : ActorContext) (instance : InstanceRow) (window : RenderableSleepWindow)
    : M W unit :=
  let* timers := lift (renderSleepTimers window) in
  let* transport := connectToHost deps (scopeOf ctx) (in_hostId instance) setUpOnce in
  closing here transport (
    for_each timers (write_timer transport) ;;;
    tr_exec transport (systemctl "daemon-reload") INSTANCE_STEP_TIMEOUT_MS None ;;;
    for_each timers (enable_timer transport)).

Definition remove_timer (transport : HostTransport W) (name : string) : M W unit :=
  tr_exec transport (systemctl ("disable --now " +:+ shellQuote name) +:+ " || true")
    INSTANCE_STEP_TIMEOUT_MS None ;;;
  tr_exec transport ("rm -f " +:+ UNIT_DIR +:+ "/" +:+ shellQuote name) INSTANCE_STEP_TIMEOUT_MS None ;;;
  ret tt.

Definition removeSleepTimers (ctx : ActorContext) (instance : InstanceRow) : M W unit :=
  let* stopTimer := lift (sleepStopTimer (in_id instance)) in
  let* startTimer := lift (sleepStartTimer (in_id instance)) in
  let* transport := connectToHost deps (scopeOf ctx) (in_hostId instance) setUpOnce in
  closing here transport (
    for_each [stopTimer; startTimer] (remove_timer transport) ;;;
    tr_exec transport (systemctl "daemon-reload") INSTANCE_STEP_TIMEOUT_MS None ;;;
    ret tt).

Definition getSleepWindow (ctx : ActorContext) (instanceId : string)
    : M W (option (string * RenderableSleepWindow * bool)) :=
  lift (requireCapabilityFor (ctx_role ctx) instance_read) ;;;
  requireInstance ctx instanceId ;;;
  let* row := query (fun t => ScheduleRepository.findByInstance (scopeOf ctx) instanceId (schedules t)) in
  ret (toSleepWindowPublic <$> row).

(** The timers of the stored window again, after those of the new one failed. *)
Definition restore_timers (ctx : ActorContext) (instance : InstanceRow) (instanceId : string) : M W unit :=
  swallow (
    let* current :=
      query (fun t => ScheduleRepository.findByInstance (scopeOf ctx) instanceId (schedules t)) in
    match current with
    | Some row => applySleepTimers ctx instance (toSleepWindowPublic row).1.2
    | None => removeSleepTimers ctx instance
    end).

Definition store_window (ctx : ActorContext) (input : RenderableSleepWindow) (newId auditId : string)
    : M W (option InstanceScheduleRow) :=
  withTransaction (
    let* days := lift (renderDaysOfWeek (sw_daysOfWeek input)) in
    let* w := get in
    let* stored :=
      on_fleet (stmt (fun t =>
        let (row, x) := ScheduleRepository.upsert (scopeOf ctx) newId (clock w)
                          (MkSleepValues (sw_instanceId input) days (minuteOfDay (sw_stopAt input))
                             (minuteOfDay (sw_startAt input)) (sw_timezone input) true) (schedules t) in
        (row, with_schedules x t))) in
    match stored with
    | None => throw (internal "Instance schedule upsert returned no row")
    | Some row =>
        record_audit (scopeOf ctx) auditId
          (by_actor ctx "instance.schedule" (sw_instanceId input)
             [("days", is_daysOfWeek row); ("stop", decimal (is_stopMinuteOfDay row));
              ("start", decimal (is_startMinuteOfDay row)); ("timezone", is_timezone row)]) ;;;
        ret stored
    end).

Definition setSleepWindow (ctx : ActorContext) (input : RenderableSleepWindow) (newId auditId : string)
    : M W (option (string * RenderableSleepWindow * bool)) :=
  lift (requireCapabilityFor (ctx_role ctx) instance_start) ;;;
  let* instance := requireInstance ctx (sw_instanceId input) in
  try_catch (applySleepTimers ctx instance input)
    (fun error =>
       (if instanceof "HostUnreachableError" error then ret tt
        else restore_timers ctx instance (sw_instanceId input)) ;;;
       throw error) ;;;
  let* stored := store_window ctx input newId auditId in
  ret (toSleepWindowPublic <$> stored).

Definition clearSleepWindow (ctx : ActorContext) (instanceId auditId : string) : M W unit :=
  lift (requireCapabilityFor (ctx_role ctx) instance_start) ;;;
  let* instance := requireInstance ctx instanceId in
  removeSleepTimers ctx instance ;;;
  withTransaction (
    on_fleet (stmt (fun t =>
      let (gone, x) := ScheduleRepository.delete (scopeOf ctx) instanceId (schedules t) in
      (gone, with_schedules x t))) ;;;
    record_audit (scopeOf ctx) auditId
      (by_actor ctx "instance.schedule" instanceId [("cleared", "true")]) ;;;
    ret tt).
End requests.
