(* ===== verification/InstanceWork.v ===== *)
(** Requests work under their claims.

    While a request works on a machine, other requests go on: what they do to
    the tables is a sequence of the statements of the repositories.  A request
    that was granted a claim on a bot keeps it until it gives it back, because
    the time its commands may take adds up to less than the lease. *)

From stdpp Require Import relations.
From S2P Require Import Prelude Tables Calendar Observer Shell Control ClientSettings ClientConfig InstanceInput Access HostStore InstanceStore InstanceController InstanceRequests.

#[local] Arguments InstanceRepository.writeTokenUnderClaim : simpl never.
#[local] Arguments InstanceRepository.claimForConfig : simpl never.
#[local] Arguments InstanceRepository.claimForLifecycle : simpl never.
#[local] Arguments InstanceRepository.finalizeConfigClaim : simpl never.
#[local] Arguments InstanceRepository.releaseConfigClaim : simpl never.
#[local] Arguments InstanceRepository.deleteUnderClaim : simpl never.
#[local] Arguments InstanceRepository.insertConfigVersion : simpl never.

(** ** What others do *)

(** The transaction that ends the saving of settings, and the one that starts a
    bot's life: the statements others make on the tables of settings. *)
Definition save_op (o i claimId : string) (newId document : string) (authorId : option string)
    (authorLabel : string) (t : FleetTables) : FleetTables :=
  match InstanceRepository.finalizeConfigClaim o i claimId None None (instances t) with
  | (None, _) => t
  | (Some _, x) =>
      with_configs (InstanceRepository.insertConfigVersion o newId i document authorId authorLabel (configs t)).2
        (with_instances x t)
  end.

Definition create_op (o newId : string) (values : InstanceCreateValues) (claimId : string) (now : Z)
    (configId document : string) (authorId : option string) (authorLabel : string) (t : FleetTables)
    : FleetTables :=
  match InstanceRepository.insert o newId values claimId now t with
  | (Throw _, _) => t
  | (Ok row, t') =>
      with_configs (InstanceRepository.insertConfigVersion o configId (in_id row) document authorId authorLabel
                      (configs t')).2 t'
  end.

(** One step of others than the holder of [claimId], at [until] at the latest. *)
Inductive others (claimId : string) (until : Z) : FleetTables -> FleetTables -> Prop :=
  | others_instances op t : of_others claimId until op -> others claimId until t (apply_instance_op op t)
  | others_save o i c newId document authorId authorLabel t :
      c <> claimId -> others claimId until t (save_op o i c newId document authorId authorLabel t)
  | others_create o newId values c now configId document authorId authorLabel t :
      others claimId until t (create_op o newId values c now configId document authorId authorLabel t)
  | others_elsewhere t t' :
      instances t' = instances t -> configs t' = configs t -> others claimId until t t'.

Section claims.
Context (o i c : string).

(** The bot is claimed, and its saved settings are [rows]. *)
Definition mine (rows : list InstanceConfigRow) (claimedAt : Z) (t : FleetTables) : Prop :=
  claimed o i c claimedAt t /\ saved o i (configs t) = rows.

Lemma claimed_instances claimedAt t t' :
  instances t' = instances t -> claimed o i c claimedAt t -> claimed o i c claimedAt t'.
Proof. unfold claimed. by intros ->. Qed.

Lemma mine_instance_op rows claimedAt op t :
  of_others c (claimedAt + CONFIG_CLAIM_LEASE_MS) op ->
  mine rows claimedAt t -> mine rows claimedAt (apply_instance_op op t).
Proof.
  intros Hop [Hc Hs]. split; [by apply others_keep_claim|].
  destruct op; try exact Hs; cbn [apply_instance_op of_others] in *.
  - unfold InstanceRepository.insert. destruct (InstanceRepository.violated _ _); [done|].
    by destruct (existsb _ _).
  - unfold InstanceRepository.deleteUnderClaim. cbn [snd]. rewrite saved_remove.
    destruct (goes _ _ _ _) eqn:E; [|done].
    apply existsb_exists in E as (r & Hr & E). apply andb_prop in E as [Hp Ho].
    destruct Hc as [_ Hall]. destruct (Hall r Hr Ho) as [Hc' _].
    unfold InstanceRepository.config_held in Hp. tests. congruence.
Qed.

Lemma mine_others rows claimedAt until t t' :
  until <= claimedAt + CONFIG_CLAIM_LEASE_MS -> others c until t t' ->
  mine rows claimedAt t -> mine rows claimedAt t'.
Proof.
  intros Huntil [op t0 Hop|o' i' c' newId document authorId authorLabel t0 Hne
                |o' newId values c' now configId document authorId authorLabel t0|t0 t1 Hi Hcs] Hm.
  - apply mine_instance_op; [|done]. destruct op; simpl in *; try done; lia.
  - unfold save_op.
    destruct (InstanceRepository.finalizeConfigClaim o' i' c' None None (instances t0)) as [[r|] x] eqn:E; [|done].
    destruct (mine_instance_op rows claimedAt (op_finalize o' i' c' None None) t0 Hne Hm) as [Hc Hs].
    cbn [apply_instance_op] in Hc. rewrite E in Hc. split; [exact Hc|].
    destruct Hm as [[_ Hall] Hs0]. cbn [configs with_configs].
    pose proof (saved_save o i o' newId i' document authorId authorLabel (configs t0)) as Hsave.
    destruct (InstanceRepository.insertConfigVersion _ _ _ _ _ _ _) as [row cs]. cbn [snd]. rewrite Hsave.
    destruct ((i ≡? i') && (o ≡? o')) eqn:Eq; [|by rewrite app_nil_r]. tests. subst i' o'. exfalso.
    injection E as E _. unfold updated in E.
    destruct (select _ (instances t0)) as [|r0 l] eqn:El; [done|].
    assert (Hr0 : In r0 (select (InstanceRepository.config_held o i c') (instances t0)))
      by (rewrite El; by left).
    apply filter_In in Hr0 as [Hr0 Hh]. unfold InstanceRepository.config_held in Hh. tests.
    destruct (Hall r0 Hr0 ltac:(done)). congruence.
  - unfold create_op. pose proof (mine_instance_op rows claimedAt (op_insert o' newId values c' now) t0 I Hm) as Hins.
    simpl in Hins. unfold InstanceRepository.insert in *.
    destruct (InstanceRepository.violated _ _) eqn:Ev; [done|]. destruct (existsb _ (hosts t0)); [|done].
    destruct Hins as [Hc Hs]. split; [done|].
    pose proof (saved_save o i o' configId newId document authorId authorLabel (configs t0)) as Hsave.
    cbn [configs with_configs with_instances in_id InstanceRepository.new_row] in *.
    destruct (InstanceRepository.insertConfigVersion _ _ _ _ _ _ _) as [row cs]. cbn [snd]. rewrite Hsave.
    destruct ((i ≡? newId) && (o ≡? o')) eqn:Eq; [|by rewrite app_nil_r]. tests. subst newId o'. exfalso.
    destruct Hm as [[(r & Hr & Ho) _] _]. unfold InstanceRepository.violated in Ev.
    destruct (existsb _ (instances t0)) eqn:En in Ev; [done|]. rewrite existsb_false in En.
    specialize (En r Hr). unfold InstanceRepository.owned in Ho. simpl in En. tests. congruence.
  - destruct Hm as [Hc Hs]. split; [by apply (claimed_instances claimedAt t0)|by rewrite Hcs].
Qed.
End claims.

(** ** Two programs side by side

    [agree P m m' Q E]: from a state satisfying [P] the two do the same, and
    what they do ends in [Q] or throws in [E]. *)
Definition agree {S A} (P : S -> Prop) (m m' : M S A) (Q : A -> S -> Prop) (E : thrown -> Prop) : Prop :=
  forall s, P s -> m s = m' s
    /\ match m s with (Ok a, s') => Q a s' | (Throw e, _) => E e end.

Section agreement.
Context {S : Type}.
Implicit Types P : S -> Prop.

Lemma agree_consequence {A} P P' (m m' : M S A) Q Q' (E E' : thrown -> Prop) :
  (forall s, P s -> P' s) -> (forall a s, Q' a s -> Q a s) -> (forall e, E' e -> E e) ->
  agree P' m m' Q' E' -> agree P m m' Q E.
Proof.
  intros HP HQ HE H s Hs. destruct (H s (HP s Hs)) as [Heq Hm]. split; [done|].
  destruct (m s) as [[a|e] s']; auto.
Qed.

Lemma agree_ret {A} P (a : A) (Q : A -> S -> Prop) E : (forall s, P s -> Q a s) -> agree P (ret a) (ret a) Q E.
Proof. intros H s Hs. split; [done|]. by apply H. Qed.

Lemma agree_throw {A} P e (Q : A -> S -> Prop) (E : thrown -> Prop) : E e -> agree P (throw e) (throw e) Q E.
Proof. by intros H s Hs. Qed.

Lemma agree_lift {A} P (r : result A) (E : thrown -> Prop) :
  (forall e, r = Throw e -> E e) -> agree P (lift r) (lift r) (fun a s => P s /\ r = Ok a) E.
Proof. intros H s Hs. split; [done|]. unfold lift. destruct r; auto. Qed.

Lemma agree_bind {A B} P (m m' : M S A) (k k' : A -> M S B) R Q E :
  agree P m m' R E -> (forall a, agree (R a) (k a) (k' a) Q E) -> agree P (bind m k) (bind m' k') Q E.
Proof.
  intros Hm Hk s Hs. destruct (Hm s Hs) as [Heq Ha]. unfold bind. rewrite <- Heq.
  destruct (m s) as [[a|e] s']; [by apply Hk|done].
Qed.

Lemma agree_same {A} P (m : M S A) Q E :
  (forall s, P s -> match m s with (Ok a, s') => Q a s' | (Throw e, _) => E e end) -> agree P m m Q E.
Proof. intros H s Hs. split; [done|]. by apply H. Qed.

Lemma agree_failingAs {A} P Failure (m m' : M S A) Q (E : thrown -> Prop) :
  (forall e, E e -> E (failure_of Failure e)) ->
  agree P m m' Q E -> agree P (failingAs Failure m) (failingAs Failure m') Q E.
Proof.
  intros Hf H s Hs. destruct (H s Hs) as [Heq Hm]. unfold failingAs, try_catch. rewrite <- Heq.
  destruct (m s) as [[a|e] s']; [done|]. split; [done|]. by apply Hf.
Qed.

Lemma agree_finally {A} P (m m' : M S A) (f : M S unit) Q R E :
  agree P m m' Q E -> (forall s, exists s', f s = (Ok tt, s')) ->
  (forall a s s', Q a s -> f s = (Ok tt, s') -> R a s') ->
  agree P (try_finally m f) (try_finally m' f) R E.
Proof.
  intros H Hf Hr s Hs. destruct (H s Hs) as [Heq Hm]. unfold try_finally. rewrite <- Heq.
  split; [done|]. destruct (m s) as [r s']. destruct (Hf s') as [s'' Es]. rewrite Es.
  destruct r as [a|e]; [by eapply Hr|done].
Qed.
End agreement.

(** ** The machine, and a guard on it *)

Section work.
Context {X : Type} (deps : InstanceControllerDeps X) (o i c : string).
Abbreviation W := (World X).

Definition not_busy (e : thrown) : Prop := instanceof "InstanceBusyError" e = false.

(** What passes while a call is awaited: time, and steps of others. *)
Definition meantime (limit : Z) (w w' : W) : Prop :=
  clock w <= clock w' <= clock w + limit /\ rtc (others c (clock w')) (fleet w) (fleet w').

(** A call that takes no longer than its time limit, and fails with errors of
    its own. *)
Definition timely {A} (limit : Z) (m : M W A) : Prop :=
  0 <= limit -> forall w, meantime limit w (m w).2 /\ forall e, (m w).1 = Throw e -> not_busy e.

Record timely_transport (close_ms : Z) (tr : HostTransport W) : Prop := {
  connect_timely options : timely (co_timeoutMs options) (tr_connect tr options);
  exec_timely command timeoutMs stdin : timely timeoutMs (tr_exec tr command timeoutMs stdin);
  close_timely : timely close_ms (tr_close tr) }.

(** The machine runs a command only for the holder of the claim. *)
Definition guarded_exec (run : Exec W) : Exec W := fun command timeoutMs stdin w =>
  if existsb (InstanceRepository.config_held o i c) (instances (fleet w))
  then run command timeoutMs stdin w
  else (Throw (ThrownError PlainError "not the holder of the claim"), w).

Definition guarded (tr : HostTransport W) : HostTransport W :=
  MkTransport W (tr_connect tr) (guarded_exec (tr_exec tr)) (tr_canForward tr) (tr_close tr).

Definition guarded_deps : InstanceControllerDeps X :=
  MkInstanceDeps X (let* tr := createTransport deps in ret (guarded tr)) (seal deps) (open_sealed deps)
    (error_code deps) (error_level deps) (redactSecrets deps) (is_email deps) (number_le deps)
    (finite deps) (other_number deps) (readDocument deps) (writeDocument deps).

(** The claim has been held for [spent] milliseconds at most. *)
Definition held (rows : list InstanceConfigRow) (spent : Z) (w : W) : Prop :=
  exists claimedAt, mine o i c rows claimedAt (fleet w) /\ claimedAt <= clock w <= claimedAt + spent.

Lemma held_weaken rows m n w : m <= n -> held rows m w -> held rows n w.
Proof. intros Hle (t & Hm & Ht). exists t. split; [done|lia]. Qed.

Lemma mine_rtc rows claimedAt until t t' :
  until <= claimedAt + CONFIG_CLAIM_LEASE_MS -> rtc (others c until) t t' ->
  mine o i c rows claimedAt t -> mine o i c rows claimedAt t'.
Proof. intros Huntil. induction 1; [done|]. intros Hm. eauto using mine_others. Qed.

Lemma held_meantime rows spent limit w w' :
  held rows spent w -> meantime limit w w' -> spent + limit <= CONFIG_CLAIM_LEASE_MS ->
  held rows (spent + limit) w'.
Proof.
  intros (t & Hm & Ht) [Hclock Hsteps] Hlease. exists t. split; [|lia].
  eapply mine_rtc; [|exact Hsteps|exact Hm]. lia.
Qed.

Lemma held_is_held rows spent w :
  held rows spent w -> existsb (InstanceRepository.config_held o i c) (instances (fleet w)) = true.
Proof.
  intros (t & [[(r & Hr & Ho) Hall] _] & _). apply existsb_exists. exists r. split; [done|].
  unfold InstanceRepository.config_held. rewrite Ho. destruct (Hall r Hr Ho) as [-> _].
  by rewrite bool_decide_eq_true_2.
Qed.

Definition held_in (rows : list InstanceConfigRow) (spent : Z) (s : bool * W) : Prop := held rows spent s.2.

Context (close_ms : Z).

Lemma agree_exec rows spent tr command timeoutMs stdin :
  timely_transport close_ms tr -> 0 <= timeoutMs -> spent + timeoutMs <= CONFIG_CLAIM_LEASE_MS ->
  agree (held_in rows spent) (claimedExec tr command timeoutMs stdin)
    (claimedExec (guarded tr) command timeoutMs stdin)
    (fun _ => held_in rows (spent + timeoutMs)) not_busy.
Proof.
  intros Htr Hlimit Hlease [flight w] Hs. unfold held_in in Hs. simpl in Hs.
  unfold claimedExec. simpl. unfold guarded_exec. rewrite (held_is_held rows spent w Hs).
  destruct (exec_timely _ _ Htr command timeoutMs stdin Hlimit w) as [Hm He].
  destruct (tr_exec tr command timeoutMs stdin w) as [[result|e] w']; simpl in *.
  - split; [done|]. by eapply held_meantime.
  - split; [done|]. by apply He.
Qed.

Lemma agree_on_snd {A} P (m m' : M W A) Q E :
  agree P m m' Q E -> agree (fun s : bool * W => P s.2) (on_snd m) (on_snd m') (fun a s => Q a s.2) E.
Proof.
  intros H [flight w] Hs. destruct (H w Hs) as [Heq Hm]. unfold on_snd. simpl. rewrite <- Heq.
  split; [done|]. by destruct (m w) as [[a|e] w'].
Qed.

(** *** Connections *)

(** Opening a connection answers with a timely transport, in no time. *)
Definition timely_deps : Prop :=
  (forall w, match createTransport deps w with
             | (Ok tr, w') => w' = w /\ timely_transport close_ms tr
             | (Throw e, _) => not_busy e
             end)
  /\ (forall token e, seal deps token = Throw e -> not_busy e)
  /\ (forall text key e, open_sealed deps text key = Throw e -> not_busy e).

Lemma swallow_total {S} (m : M S unit) s : exists s', swallow m s = (Ok tt, s').
Proof. unfold swallow, try_catch. destruct (m s) as [[[]|e] s']; by eexists. Qed.

Lemma held_close rows spent tr w w' :
  timely_transport close_ms tr -> 0 <= close_ms -> spent + close_ms <= CONFIG_CLAIM_LEASE_MS ->
  held rows spent w -> swallow (tr_close tr) w = (Ok tt, w') -> held rows (spent + close_ms) w'.
Proof.
  intros Htr Hclose Hlease Hw E. destruct (close_timely _ _ Htr Hclose w) as [Hm _].
  assert (w' = (tr_close tr w).2) as ->
    by (unfold swallow, try_catch, ret in E; destruct (tr_close tr w) as [[[]|e] w'']; by injection E).
  by eapply held_meantime.
Qed.

Lemma connect_guarded loaded w :
  connectLoaded guarded_deps loaded w
  = match connectLoaded deps loaded w with (Ok tr, w') => (Ok (guarded tr), w') | (Throw e, w') => (Throw e, w') end.
Proof.
  unfold connectLoaded, guarded_deps, bind, ret, try_catch, throw. simpl.
  destruct (createTransport deps w) as [[tr|e] w1]; [|done]. simpl.
  destruct (tr_connect tr (lh_options loaded) w1) as [[[]|e] w2]; [done|]. simpl.
  destruct (swallow (tr_close tr) w2) as [[[]|e'] w3]; done.
Qed.

(** What is done on the machine of the bot, connected to it. *)
Lemma agree_on_machine rows spent spent' loaded body body' :
  timely_deps -> co_timeoutMs (lh_options loaded) = CONNECT_TIMEOUT_MS -> 0 <= close_ms ->
  spent + CONNECT_TIMEOUT_MS <= CONFIG_CLAIM_LEASE_MS -> spent' + close_ms <= CONFIG_CLAIM_LEASE_MS ->
  (forall tr, timely_transport close_ms tr ->
     agree (held_in rows (spent + CONNECT_TIMEOUT_MS)) (body tr) (body' (guarded tr))
       (fun _ => held_in rows spent') not_busy) ->
  agree (held_in rows spent) (on_machine deps loaded body) (on_machine guarded_deps loaded body')
    (fun _ => held_in rows (spent' + close_ms)) not_busy.
Proof.
  intros [Hcreate _] Hco Hclose Hspent Hspent' Hbody [flight w] Hs. unfold held_in in Hs. simpl in Hs.
  unfold on_machine, bind, on_snd. cbn [fst snd]. rewrite connect_guarded.
  destruct (connectLoaded deps loaded w) as [[tr|e] w'] eqn:E.
  - assert (Htr : timely_transport close_ms tr /\ held rows (spent + CONNECT_TIMEOUT_MS) w').
    { unfold connectLoaded, bind in E. specialize (Hcreate w).
      destruct (createTransport deps w) as [[tr0|e] w1]; [|done]. destruct Hcreate as [-> Htr].
      unfold try_catch, ret in E.
      destruct (connect_timely _ _ Htr (lh_options loaded) ltac:(by rewrite Hco) w) as [Hm _].
      destruct (tr_connect tr0 (lh_options loaded) w) as [[[]|e] w2]; simpl in *.
      - injection E as <- <-. split; [done|]. rewrite Hco in Hm. by eapply held_meantime.
      - unfold bind, throw in E. by destruct (swallow (tr_close tr0) w2) as [[[]|e'] w3]. }
    destruct Htr as [Htr Hheld].
    assert (H := agree_finally (S := bool * W) (held_in rows (spent + CONNECT_TIMEOUT_MS))
      (body tr) (body' (guarded tr)) (under (swallow (tr_close tr)))
      (fun _ => held_in rows spent') (fun _ => held_in rows (spent' + close_ms)) not_busy (Hbody tr Htr)).
    apply H; [| |done].
    + intros [f0 w0]. unfold under, on_snd. simpl.
      destruct (swallow_total (tr_close tr) w0) as [w1 ->]. by eexists.
    + intros a [f0 w0] [f1 w1] Hq E1. unfold under, on_snd in E1. simpl in E1.
      destruct (swallow (tr_close tr) w0) as [[[]|e] w2] eqn:E2; [|done]. injection E1 as <- <-.
      by eapply held_close.
  - split; [done|]. unfold connectLoaded, bind in E. specialize (Hcreate w).
    destruct (createTransport deps w) as [[tr0|e0] w1]; [|by injection E as <- _].
    unfold try_catch, ret, bind, throw in E.
    destruct (tr_connect tr0 (lh_options loaded) w1) as [[[]|e1] w2]; [done|].
    destruct (swallow_total (tr_close tr0) w2) as [w3 E3]. rewrite E3 in E. by injection E as <- _.
Qed.

(** *** The steps of a start and of a stop *)

(** Code that throws errors of its own only. *)
Definition calm {A} (r : result A) : Prop := forall e, r = Throw e -> not_busy e.

Lemma calm_ok {A} (a : A) : calm (Ok a).
Proof. by intros e. Qed.

Lemma calm_throw {A} e : instanceof "InstanceBusyError" e = false -> calm (A := A) (Throw e).
Proof. by intros He e' [= <-]. Qed.

Lemma calm_rbind {A B} (r : result A) (k : A -> result B) :
  calm r -> (forall a, calm (k a)) -> calm (rbind r k).
Proof. intros Hr Hk e. destruct r; simpl; [apply Hk|]. intros [= <-]. by apply Hr. Qed.

Ltac calm_steps :=
  repeat first
    [ apply calm_ok | apply calm_throw; reflexivity | apply calm_rbind; [|intros ?]
    | match goal with
      | |- calm (if ?b then _ else _) => destruct b
      | |- calm (match ?x with _ => _ end) => destruct x
      | |- calm (let (_, _) := ?x in _) => destruct x
      end ].

Lemma validate_calm id : calm (validateInstanceId id).
Proof. unfold validateInstanceId. calm_steps. Qed.

Lemma unit_calm id : calm (unitName id).
Proof. unfold unitName. calm_steps. apply validate_calm. Qed.

Lemma directory_calm id : calm (instanceDir id).
Proof. unfold instanceDir. calm_steps. apply validate_calm. Qed.

Lemma auth_unit_calm id : calm (authUnitName id).
Proof. unfold authUnitName. calm_steps. apply validate_calm. Qed.

Lemma config_write_calm id document : calm (configWriteCommand id document).
Proof. unfold configWriteCommand. calm_steps; auto using validate_calm, directory_calm. Qed.

Lemma env_write_calm id environment p : calm (envWriteUnlessRunningCommand id environment p).
Proof.
  unfold envWriteUnlessRunningCommand, envWriteCommand, env_steps, renderUnitEnv.
  calm_steps; auto using validate_calm, unit_calm, directory_calm.
Qed.

Lemma start_unit_calm id : calm (startUnitCommand id).
Proof. unfold startUnitCommand. calm_steps; auto using validate_calm, unit_calm, auth_unit_calm. Qed.

Lemma started_calm id output : calm (startedOrThrow id output).
Proof. unfold startedOrThrow. calm_steps. Qed.

Lemma document_calm row saved : calm (documentFrom deps row saved).
Proof.
  unfold documentFrom, storedFrom, storedDocument, usableBots, renderInstanceConfig, config_lines,
    tomlSecondsRange. calm_steps.
Qed.

Lemma agree_step {A} (P : bool * W -> Prop) (r : result A) {B} (k k' : A -> M (bool * W) B) Q :
  calm r -> (forall a, agree P (k a) (k' a) Q not_busy) -> agree P (bind (lift r) k) (bind (lift r) k') Q not_busy.
Proof.
  intros Hr Hk. eapply agree_bind; [by apply agree_lift|]. intros a.
  eapply agree_consequence; [|done|done|apply Hk]. by intros s [Hs _].
Qed.

Lemma agree_refused P message result :
  agree P (refused_unless_zero (X := X) message result) (refused_unless_zero message result)
    (fun _ => P) not_busy.
Proof.
  unfold refused_unless_zero. destruct (negb _); [by apply agree_throw|by apply agree_ret].
Qed.

Lemma failure_not_busy Failure e :
  (forall message, not_busy (Failure message)) -> not_busy e -> not_busy (failure_of Failure e).
Proof. intros HF He. destruct e as [cls message|text]; [|done]. simpl. by destruct (_ || _). Qed.

Lemma agree_write_document rows spent id document tr :
  timely_transport close_ms tr -> spent + INSTANCE_STEP_TIMEOUT_MS <= CONFIG_CLAIM_LEASE_MS ->
  agree (held_in rows spent) (write_document id document tr) (write_document id document (guarded tr))
    (fun _ => held_in rows (spent + INSTANCE_STEP_TIMEOUT_MS)) not_busy.
Proof.
  intros Htr Hlease. unfold write_document. apply agree_step; [apply config_write_calm|]. intros command.
  eapply agree_bind; [by apply agree_exec|]. intros written. apply agree_refused.
Qed.

Lemma agree_stop_unit rows spent id tr :
  timely_transport close_ms tr -> spent + UNIT_STOP_TIMEOUT_MS <= CONFIG_CLAIM_LEASE_MS ->
  agree (held_in rows spent) (stopUnitUnderClaim tr id) (stopUnitUnderClaim (guarded tr) id)
    (fun _ => held_in rows (spent + UNIT_STOP_TIMEOUT_MS)) not_busy.
Proof.
  intros Htr Hlease. unfold stopUnitUnderClaim. apply agree_step; [apply unit_calm|]. intros unit.
  eapply agree_bind; [by apply agree_exec|]. intros result. cbv beta.
  destruct (negb (exitCode result =? 0)); [by apply agree_throw|].
  apply agree_same. intros [flight w] Hs. exact Hs.
Qed.

Lemma agree_start_unit rows spent id tr :
  timely_transport close_ms tr -> spent + UNIT_START_TIMEOUT_MS <= CONFIG_CLAIM_LEASE_MS ->
  agree (held_in rows spent) (start_unit id tr) (start_unit id (guarded tr))
    (fun _ => held_in rows (spent + UNIT_START_TIMEOUT_MS)) not_busy.
Proof.
  intros Htr Hlease. unfold start_unit. apply agree_step; [apply start_unit_calm|]. intros command.
  eapply agree_bind; [by apply agree_exec|]. intros started. cbv beta.
  eapply agree_bind; [apply agree_refused|]. intros []. cbv beta.
  eapply agree_consequence; [done| |done|apply agree_lift, started_calm]. by intros [] s [Hs _].
Qed.

(** The holder renews its claim with the new token. *)
Lemma claimed_renews claimedAt sealed now t :
  claimed o i c claimedAt t ->
  let '(stored, x) := InstanceRepository.writeTokenUnderClaim o i c sealed now (instances t) in
  stored = true /\ claimed o i c now (with_instances x t).
Proof.
  intros [(r & Hr & Ho) Hall]. unfold InstanceRepository.writeTokenUnderClaim, InstanceRepository.any.
  set (p := InstanceRepository.config_held o i c). set (f := InstanceRepository.renewed c sealed now).
  assert (Hheld : forall x, In x (instances t) -> InstanceRepository.owned o i x = true -> p x = true).
  { intros x Hx Hxo. unfold p, InstanceRepository.config_held. rewrite Hxo.
    destruct (Hall x Hx Hxo) as [-> _]. by rewrite bool_decide_eq_true_2. }
  assert (Hown : forall x, InstanceRepository.owned o i (f x) = InstanceRepository.owned o i x) by done.
  split; [|split]; cbn [instances with_instances].
  - apply Nat.ltb_lt. unfold affected.
    assert (Hin : In r (select p (instances t))) by (apply filter_In; auto).
    destruct (select p (instances t)); [done|]. simpl. lia.
  - exists (f r). split; [|by rewrite Hown]. apply in_update_where. exists r. by rewrite Hheld.
  - intros x Hx Hxo. apply in_update_where in Hx as (y & Hy & ->).
    destruct (p y) eqn:Ep; [|by rewrite Hheld in Ep by done]. rewrite Hown in Hxo.
    by destruct (Hall y Hy Hxo).
Qed.

Lemma agree_write_environment rows spent environment sealed claimed tr :
  timely_transport close_ms tr -> 0 <= spent -> spent + INSTANCE_STEP_TIMEOUT_MS <= CONFIG_CLAIM_LEASE_MS ->
  agree (held_in rows spent) (write_environment o i c environment sealed claimed tr)
    (write_environment o i c environment sealed claimed (guarded tr))
    (fun _ => held_in rows (spent + INSTANCE_STEP_TIMEOUT_MS)) not_busy.
Proof.
  intros Htr Hspent Hlease. unfold write_environment. apply agree_step; [apply env_write_calm|]. intros command.
  eapply agree_bind; [by apply agree_exec|]. intros wrote. cbv beta.
  eapply agree_bind; [apply agree_refused|]. intros []. cbv beta.
  destruct (parseEnvWriteAnswer (stdout wrote)) as [[]|]; [|by apply agree_ret|by apply agree_throw].
  apply agree_same. intros [flight w] Hheld. destruct Hheld as (t & [Hc Hs] & Ht). simpl in *.
  pose proof (claimed_renews t sealed (clock w) (fleet w) Hc) as Hrenewed.
  unfold bind, get, on_snd, on_instances, on_fleet, stmt. cbn [fst snd].
  destruct (InstanceRepository.writeTokenUnderClaim _ _ _ _ _ _) as [stored x]. simpl.
  destruct Hrenewed as [-> Hc']. simpl. exists (clock w). split; [by split|]. simpl. unfold INSTANCE_STEP_TIMEOUT_MS. lia.
Qed.

(** *** Taking the claim, and giving it back *)

Definition granted (w : W) : Prop :=
  is_Some (InstanceRepository.claimForLifecycle o i c (clock w) (clock w) (instances (fleet w))).1.

Definition unless_granted (w : W) (e : thrown) : Prop := granted w -> not_busy e.

Lemma lifecycle_claim w :
  unique_on id_key (instances (fleet w)) ->
  match takeLifecycleClaim o i c w with
  | (Ok row, w') => held (saved o i (configs (fleet w))) 0 w' /\ in_id row = i
                    /\ configs (fleet w') = configs (fleet w)
  | (Throw e, _) => unless_granted w e
  end.
Proof.
  intros Hu. unfold takeLifecycleClaim, bind, get, on_instances, on_fleet, stmt. cbn [fst snd].
  destruct (InstanceRepository.claimForLifecycle o i c (clock w) (clock w) (instances (fleet w)))
    as [[row|] x] eqn:E; cbn [fst snd].
  - assert (Hg : claimed o i c (clock w) (with_instances x (fleet w)) /\ In row x
                 /\ InstanceRepository.owned o i row = true).
    { refine (granted_claim _ _ _ _ _ _ _ _ _ Hu _ _ E); [|done]. intros y Hy. by tests. }
    destruct Hg as (Hc & _ & Ho).
    split_and!; [|unfold InstanceRepository.owned in Ho; by tests|done].
    exists (clock w). split; [by split|]. simpl. lia.
  - assert (Hng : ~ granted w) by (unfold granted; rewrite E; by intros [? ?]).
    unfold query, gets, throw. cbn [fst snd].
    destruct (InstanceRepository.findById o i _) as [row|]; [|by intros ?].
    by destruct (bool_decide _ && _); intros ?.
Qed.

(** The transaction that ends the work of a request that still has its claim. *)
Lemma agree_finalize rows spent (ctx : ActorContext) auditId status action :
  scopeOf ctx = o ->
  agree (held_in rows spent) (on_snd (finalizeLifecycle ctx i c auditId status action))
    (on_snd (finalizeLifecycle ctx i c auditId status action)) (fun _ _ => True) not_busy.
Proof.
  intros Hctx. apply agree_same. intros [flight w] Hheld. destruct Hheld as (t & [Hc _] & _). simpl in *.
  unfold on_snd, finalizeLifecycle, withTransaction, transaction, bind, on_instances, on_fleet, stmt.
  rewrite Hctx. cbn [fst snd].
  match goal with |- context [InstanceRepository.finalizeConfigClaim _ _ _ _ ?e _] =>
    set (exit := e) end.
  destruct (claimed_finalizes o i c t (Some status) exit (fleet w) Hc) as (r & _ & _ & E).
  destruct (InstanceRepository.finalizeConfigClaim o i c (Some status) exit (instances (fleet w))) as [row x].
  simpl in *. subst row. unfold record_audit, AuditRepository.record, bind, lift, stmt. simpl.
  unfold resolveActorLabel. simpl. by destruct (blank _).
Qed.

Lemma agree_lift_calm {A} P (r : result A) :
  calm r -> agree (S := bool * W) P (lift r) (lift r) (fun _ => P) not_busy.
Proof.
  intros Hr. eapply agree_consequence; [done| |done|by apply agree_lift]. by intros a s [Hs _].
Qed.

(** The longest a start may take on the machine: its connection, the stop of a
    restart, two files and the start of the unit. *)
Definition START_MS : Z :=
  CONNECT_TIMEOUT_MS + UNIT_STOP_TIMEOUT_MS + INSTANCE_STEP_TIMEOUT_MS + INSTANCE_STEP_TIMEOUT_MS
  + UNIT_START_TIMEOUT_MS.

Lemma agree_start_on_machine rows environment sealed verb claimed document tr :
  timely_transport close_ms tr ->
  agree (held_in rows (0 + CONNECT_TIMEOUT_MS))
    (start_on_machine o i c environment sealed verb claimed document tr)
    (start_on_machine o i c environment sealed verb claimed document (guarded tr))
    (fun _ => held_in rows START_MS) not_busy.
Proof.
  intros Htr. unfold start_on_machine.
  set (stopped := CONNECT_TIMEOUT_MS + UNIT_STOP_TIMEOUT_MS).
  eapply (agree_bind _ _ _ _ _ (fun _ => held_in rows stopped)); [|intros []; cbv beta].
  { destruct (verb ≡? restart_verb).
    - apply agree_failingAs; [intros e; by apply failure_not_busy|].
      eapply agree_consequence; [done| |done|by apply agree_stop_unit]. done.
    - apply agree_ret. intros s. by apply held_weaken. }
  eapply agree_bind; [by apply agree_write_environment|intros []; cbv beta].
  set (written := stopped + INSTANCE_STEP_TIMEOUT_MS + INSTANCE_STEP_TIMEOUT_MS).
  eapply (agree_bind _ _ _ _ _ (fun _ => held_in rows written)); [|intros []; cbv beta].
  { destruct document as [text|]; [by apply agree_write_document|].
    apply agree_ret. intros s. by apply held_weaken. }
  by apply agree_start_unit.
Qed.

(** *** What a request reads first *)

Definition reads {A} (m : M W A) : Prop :=
  forall w, (m w).2 = w /\ forall e, (m w).1 = Throw e -> not_busy e.

Lemma agree_read {A B} w0 (m : M W A) (k k' : A -> M W B) Q (E : thrown -> Prop) :
  (forall e, not_busy e -> E e) -> reads m ->
  (forall a, m w0 = (Ok a, w0) -> agree (eq w0) (k a) (k' a) Q E) ->
  agree (eq w0) (bind m k) (bind m k') Q E.
Proof.
  intros HE Hm Hk s <-. unfold bind. destruct (Hm w0) as [Hw He].
  destruct (m w0) as [[a|e] w']; simpl in *; subst w'; [by apply (Hk a)|]. split; [done|]. by apply HE, He.
Qed.

Lemma reads_lift {A} (r : result A) : calm r -> reads (lift r).
Proof. intros Hr w. split; [done|]. apply Hr. Qed.

Lemma capability_calm role capability : calm (requireCapabilityFor role capability).
Proof. unfold requireCapabilityFor. calm_steps. Qed.

Lemma reads_instance ctx instanceId : reads (requireInstance ctx instanceId).
Proof.
  intros w. unfold requireInstance, bind, query, gets, throw, ret.
  destruct (InstanceRepository.findById _ _ _); simpl; split; try done. by intros e [= <-].
Qed.

Lemma reads_document scope row : reads (expectedDocumentFor deps scope row).
Proof. intros w. split; [done|]. apply document_calm. Qed.

Lemma reads_host scope hostId need : timely_deps -> reads (loadHost deps scope hostId need).
Proof.
  intros (_ & _ & Hopen) w. unfold loadHost, bind, query, gets, throw, ret, lift.
  assert (Hn : forall A e, not_busy e -> forall e', @Throw A e = Throw e' -> not_busy e')
    by (intros A e He e' [= <-]; done).
  destruct (HostRepository.findById _ _ _) as [h|]; [|split; [done|by apply Hn]].
  destruct (truthy (sshKeyId _)) as [k|]; [|split; [done|by apply Hn]].
  destruct (truthy (hostKeyFingerprint _)) as [f|]; [|split; [done|by apply Hn]].
  destruct (negb _); [split; [done|by apply Hn]|].
  destruct (findSshKey _ _ _) as [key|]; [|split; [done|by apply Hn]].
  destruct (open_sealed deps _ _) as [text|e] eqn:E; [done|]. split; [done|]. apply Hn. by eapply Hopen.
Qed.

Lemma host_timeout scope hostId need w loaded w' :
  loadHost deps scope hostId need w = (Ok loaded, w') -> co_timeoutMs (lh_options loaded) = CONNECT_TIMEOUT_MS.
Proof.
  unfold loadHost, bind, query, gets, throw, ret, lift.
  destruct (HostRepository.findById _ _ _) as [h|]; [|done].
  destruct (truthy (sshKeyId _)) as [k|]; [|done].
  destruct (truthy (hostKeyFingerprint _)) as [f|]; [|done].
  destruct (negb _); [done|]. destruct (findSshKey _ _ _) as [key|]; [|done].
  destruct (open_sealed deps _ _) as [text|e]; [|done]. by intros [= <- _].
Qed.

Lemma agree_releasing {A} w0 (run run' : M (bool * W) A) Q E :
  agree (eq (false, w0)) run run' Q E ->
  agree (eq w0) (releasingClaim o i c run) (releasingClaim o i c run') (fun a w => exists f, Q a (f, w)) E.
Proof.
  intros H s <-. destruct (H (false, w0) eq_refl) as [Heq Hm]. unfold releasingClaim. rewrite <- Heq.
  split; [done|]. destruct (run (false, w0)) as [[a|e] [f w]]; [by exists f|].
  destruct f; [done|]. by destruct (release_claim o i c w).
Qed.

Lemma agree_claim_and_read w0 :
  unique_on id_key (instances (fleet w0)) ->
  agree (eq (false, w0)) (on_snd (claim_and_read deps o i c)) (on_snd (claim_and_read guarded_deps o i c))
    (fun claim s => held_in (saved o i (configs (fleet w0))) 0 s /\ in_id claim.1 = i)
    (unless_granted w0).
Proof.
  intros Hu. change (claim_and_read guarded_deps o i c) with (claim_and_read deps o i c).
  apply agree_same. intros s <-. pose proof (lifecycle_claim w0 Hu) as Hclaim.
  unfold on_snd, claim_and_read, withTransaction, transaction, bind. cbn [fst snd].
  destruct (takeLifecycleClaim o i c w0) as [[row|e] w1]; [|done]. destruct Hclaim as (Hheld & Hid & _).
  unfold query, gets, lift, ret.
  destruct (documentFrom deps row (InstanceRepository.latestConfig o i (configs (fleet w1))))
    as [document|e] eqn:E; [exact (conj Hheld Hid)|]. intros _. by eapply document_calm.
Qed.

Lemma agree_claim w0 :
  unique_on id_key (instances (fleet w0)) ->
  agree (eq (false, w0)) (on_snd (withTransaction (takeLifecycleClaim o i c)))
    (on_snd (withTransaction (takeLifecycleClaim o i c)))
    (fun row s => held_in (saved o i (configs (fleet w0))) 0 s /\ in_id row = i) (unless_granted w0).
Proof.
  intros Hu. apply agree_same. intros s <-. pose proof (lifecycle_claim w0 Hu) as Hclaim.
  unfold on_snd, withTransaction, transaction. cbn [fst snd].
  destruct (takeLifecycleClaim o i c w0) as [[row|e] w1]; [|done]. by destruct Hclaim as (? & ? & _).
Qed.

Context (timely_machines : timely_deps) (close_bound : 0 <= close_ms <= 20000).

(** The end of a request: the transaction that records it. *)
Lemma agree_finish rows spent (ctx : ActorContext) auditId status action :
  scopeOf ctx = o ->
  agree (held_in rows spent)
    (let* row := on_snd (finalizeLifecycle ctx i c auditId status action) in ret (toInstancePublic row))
    (let* row := on_snd (finalizeLifecycle ctx i c auditId status action) in ret (toInstancePublic row))
    (fun _ _ => True) not_busy.
Proof. intros Hctx. eapply agree_bind; [by apply agree_finalize|]. intros row. by apply agree_ret. Qed.

Lemma not_busy_unless w0 e : not_busy e -> unless_granted w0 e.
Proof. by intros H _. Qed.

Lemma agree_start (ctx : ActorContext) verb token auditId w0 :
  scopeOf ctx = o -> unique_on id_key (instances (fleet w0)) ->
  agree (eq w0) (startUnderClaim deps ctx i verb token c auditId)
    (startUnderClaim guarded_deps ctx i verb token c auditId) (fun _ _ => True) (unless_granted w0).
Proof.
  intros Hctx Hu. unfold startUnderClaim. cbv zeta. rewrite Hctx.
  apply agree_read; [apply not_busy_unless|apply reads_instance|]. intros instance _.
  destruct (in_status instance ≡? st_needs_auth); [by apply agree_throw|].
  apply (agree_read w0 (expectedDocumentFor deps o instance));
    [apply not_busy_unless|apply reads_document|]. intros expected _.
  apply (agree_read w0 (loadHost deps o (in_hostId instance) runtime));
    [apply not_busy_unless|by apply reads_host|]. intros loaded Hloaded.
  apply (agree_read w0 (lift (seal deps token))); [apply not_busy_unless| |].
  { apply reads_lift. intros e. apply (proj1 (proj2 timely_machines)). }
  intros sealed _.
  apply agree_read; [apply not_busy_unless|apply reads_lift; unfold renderEnvironmentFile; calm_steps|].
  intros environment _. eapply agree_consequence; [done| |done|apply (agree_releasing w0 _ _ (fun _ _ => True))];
    [done|].
  eapply agree_bind; [by apply agree_claim_and_read|]. intros [claimed document]. cbv beta iota.
  eapply agree_consequence; [by intros s [Hs _]; exact Hs|done|apply not_busy_unless|].
  set (rows := saved o i (configs (fleet w0))).
  eapply (agree_bind _ _ _ _ _ (fun _ => held_in rows (START_MS + close_ms))).
  - apply agree_failingAs; [intros e; by apply failure_not_busy|].
    apply (agree_on_machine rows 0 START_MS); try done; try (by eapply host_timeout);
      unfold START_MS, CONNECT_TIMEOUT_MS, UNIT_STOP_TIMEOUT_MS, INSTANCE_STEP_TIMEOUT_MS,
        UNIT_START_TIMEOUT_MS, CONFIG_CLAIM_LEASE_MS; try lia.
    intros tr Htr. by apply agree_start_on_machine.
  - intros []. by apply agree_finish.
Qed.

Lemma agree_stop (ctx : ActorContext) auditId w0 :
  scopeOf ctx = o -> unique_on id_key (instances (fleet w0)) ->
  agree (eq w0) (stop deps ctx i c auditId) (stop guarded_deps ctx i c auditId) (fun _ _ => True)
    (unless_granted w0).
Proof.
  intros Hctx Hu. unfold stop. cbv zeta. rewrite Hctx.
  apply agree_read; [apply not_busy_unless|apply reads_lift, capability_calm|]. intros [] _.
  apply agree_read; [apply not_busy_unless|apply reads_instance|]. intros instance _.
  apply (agree_read w0 (loadHost deps o (in_hostId instance) setUpOnce));
    [apply not_busy_unless|by apply reads_host|]. intros loaded Hloaded.
  eapply agree_consequence; [done| |done|apply (agree_releasing w0 _ _ (fun _ _ => True))];
    [done|].
  eapply agree_bind; [by apply agree_claim|]. intros claimed. cbv beta.
  eapply agree_consequence; [by intros s [Hs _]; exact Hs|done|apply not_busy_unless|].
  set (rows := saved o i (configs (fleet w0))).
  eapply (agree_bind _ _ _ _ _ (fun _ => held_in rows (CONNECT_TIMEOUT_MS + UNIT_STOP_TIMEOUT_MS + close_ms))).
  - apply agree_failingAs; [intros e; by apply failure_not_busy|].
    apply (agree_on_machine rows 0 (CONNECT_TIMEOUT_MS + UNIT_STOP_TIMEOUT_MS)); try done; try (by eapply host_timeout);
      unfold CONNECT_TIMEOUT_MS, UNIT_STOP_TIMEOUT_MS, CONFIG_CLAIM_LEASE_MS; try lia.
    intros tr Htr. by apply agree_stop_unit.
  - intros []. by apply agree_finish.
Qed.

(** *** Removing a bot *)

Lemma agree_exit_of rows spent tr command timeoutMs :
  timely_transport close_ms tr -> calm command -> 0 <= timeoutMs -> spent + timeoutMs <= CONFIG_CLAIM_LEASE_MS ->
  agree (held_in rows spent) (exitOf tr command timeoutMs) (exitOf (guarded tr) command timeoutMs)
    (fun _ => held_in rows (spent + timeoutMs)) not_busy.
Proof.
  intros Htr Hcommand Hlimit Hlease. unfold exitOf. apply agree_step; [done|]. intros text.
  eapply agree_bind; [by apply agree_exec|]. intros result. by apply agree_ret.
Qed.

Lemma agree_unless_zero P code e :
  not_busy e -> agree P (unless_zero (X := X) code e) (unless_zero code e) (fun _ => P) not_busy.
Proof. intros He. unfold unless_zero. destruct (code =? 0); [by apply agree_ret|by apply agree_throw]. Qed.

Lemma removal_calm id :
  calm (removeTimersCommand id) /\ calm (stopUnitsCommand id) /\ calm (removeContainersCommand id)
  /\ calm (verifyGoneCommand id) /\ calm (deleteDirectoryCommand id).
Proof.
  unfold removeTimersCommand, stopUnitsCommand, removeContainersCommand, verifyGoneCommand,
    deleteDirectoryCommand, unitsOf, containersOf, sleepStopTimer, sleepStartTimer.
  split_and!; calm_steps; auto using validate_calm, unit_calm, auth_unit_calm, directory_calm.
Qed.

Definition REMOVAL_MS : Z :=
  CONNECT_TIMEOUT_MS + REMOVAL_STEP_TIMEOUT_MS + UNIT_STOP_TIMEOUT_MS + REMOVAL_STEP_TIMEOUT_MS
  + REMOVAL_STEP_TIMEOUT_MS + DIRECTORY_DELETE_TIMEOUT_MS + REMOVAL_STEP_TIMEOUT_MS.

Lemma agree_remove_from_machine rows id tr :
  timely_transport close_ms tr ->
  agree (held_in rows (0 + CONNECT_TIMEOUT_MS)) (remove_from_machine i id tr)
    (remove_from_machine i id (guarded tr)) (fun _ => held_in rows REMOVAL_MS) not_busy.
Proof.
  intros Htr. destruct (removal_calm id) as (Ht & Hs & Hc & Hv & Hd). unfold remove_from_machine.
  eapply agree_bind; [by apply agree_exit_of|]. intros timers. cbv beta.
  eapply agree_bind; [by apply agree_unless_zero|]. intros []. cbv beta.
  eapply agree_bind; [by apply agree_exit_of|]. intros units. cbv beta.
  set (spent := 0 + CONNECT_TIMEOUT_MS + REMOVAL_STEP_TIMEOUT_MS + UNIT_STOP_TIMEOUT_MS).
  eapply (agree_bind _ _ _ _ _ (fun _ => held_in rows spent)).
  { apply agree_same. intros [flight w] Hw. exact Hw. }
  intros []. cbv beta.
  eapply agree_bind; [by apply agree_exit_of|]. intros containers. cbv beta.
  eapply agree_bind; [by apply agree_unless_zero|]. intros []. cbv beta.
  eapply agree_bind; [by apply agree_exit_of|]. intros gone. cbv beta.
  eapply agree_bind; [by apply agree_unless_zero|]. intros []. cbv beta.
  eapply agree_bind; [by apply agree_exit_of|]. intros deleted. cbv beta.
  eapply (agree_bind _ _ _ _ _ (fun _ => held_in rows (spent + REMOVAL_STEP_TIMEOUT_MS
            + REMOVAL_STEP_TIMEOUT_MS + DIRECTORY_DELETE_TIMEOUT_MS))).
  { destruct (endedByDeadline deleted); [by apply agree_throw|by apply agree_ret]. }
  intros []. cbv beta.
  eapply agree_bind; [by apply agree_unless_zero|]. intros []. cbv beta.
  eapply agree_bind; [by apply agree_exit_of|]. intros verified. cbv beta.
  eapply agree_consequence; [done| |done|by apply agree_unless_zero]. by intros [] s Hw.
Qed.

Lemma agree_delete rows spent (ctx : ActorContext) auditId :
  scopeOf ctx = o ->
  agree (held_in rows spent) (on_snd (delete_claimed ctx i c auditId))
    (on_snd (delete_claimed ctx i c auditId)) (fun _ _ => True) not_busy.
Proof.
  intros Hctx. apply agree_same. intros [flight w] Hheld.
  pose proof (held_is_held rows spent w Hheld) as Hany.
  unfold on_snd, delete_claimed, withTransaction, transaction, bind, on_fleet, stmt. rewrite Hctx.
  cbn [fst snd]. unfold InstanceRepository.deleteUnderClaim. cbn [fst snd].
  assert (Hlt : (0 <? affected (InstanceRepository.config_held o i c) (instances (fleet w)))%nat = true).
  { apply existsb_exists in Hany as (r & Hr & Hp). apply Nat.ltb_lt. unfold affected.
    assert (Hin : In r (select (InstanceRepository.config_held o i c) (instances (fleet w))))
      by (by apply filter_In).
    destruct (select _ _); [done|]. simpl. lia. }
  rewrite Hlt. cbn [negb]. unfold record_audit, AuditRepository.record, bind, lift, stmt, resolveActorLabel. simpl.
  by destruct (blank _).
Qed.

Lemma agree_remove (ctx : ActorContext) auditId w0 :
  scopeOf ctx = o -> unique_on id_key (instances (fleet w0)) ->
  agree (eq w0) (remove deps ctx i c auditId) (remove guarded_deps ctx i c auditId) (fun _ _ => True)
    (unless_granted w0).
Proof.
  intros Hctx Hu. unfold remove. cbv zeta. rewrite Hctx.
  apply agree_read; [apply not_busy_unless|apply reads_lift, capability_calm|]. intros [] _.
  apply agree_read; [apply not_busy_unless|apply reads_instance|]. intros instance _.
  apply (agree_read w0 (loadHost deps o (in_hostId instance) setUpOnce));
    [apply not_busy_unless|by apply reads_host|]. intros loaded Hloaded.
  eapply agree_consequence; [done| |done|apply (agree_releasing w0 _ _ (fun _ _ => True))]; [done|].
  eapply agree_bind; [by apply agree_claim|]. intros claimed. cbv beta.
  eapply agree_consequence; [by intros s [Hs _]; exact Hs|done|apply not_busy_unless|].
  set (rows := saved o i (configs (fleet w0))).
  eapply (agree_bind _ _ _ _ _ (fun _ => held_in rows (REMOVAL_MS + close_ms))).
  - apply (agree_on_machine rows 0 REMOVAL_MS); try done; try (by eapply host_timeout);
      unfold REMOVAL_MS, CONNECT_TIMEOUT_MS, REMOVAL_STEP_TIMEOUT_MS, DIRECTORY_DELETE_TIMEOUT_MS,
        UNIT_STOP_TIMEOUT_MS, CONFIG_CLAIM_LEASE_MS; try lia.
    intros tr Htr. by apply agree_remove_from_machine.
  - intros []. by apply agree_delete.
Qed.

(** *** Saving settings *)

Definition granted_settings (w : W) : Prop :=
  is_Some (InstanceRepository.claimForConfig o i c (clock w) (instances (fleet w))).1.

Definition unless_granted_settings (w : W) (e : thrown) : Prop := granted_settings w -> not_busy e.

Lemma settings_claim w expectedVersion :
  unique_on id_key (instances (fleet w)) ->
  match takeConfigClaim o i c expectedVersion w with
  | (Ok (row, saved_row), w') =>
      held (saved o i (configs (fleet w))) 0 w'
      /\ InstanceRepository.latestConfig o i (configs (fleet w)) = Some saved_row
      /\ ic_version saved_row = expectedVersion
  | (Throw e, _) => unless_granted_settings w e
  end.
Proof.
  intros Hu. unfold takeConfigClaim, bind, get, on_instances, on_fleet, stmt. cbn [fst snd].
  destruct (InstanceRepository.claimForConfig o i c (clock w) (instances (fleet w)))
    as [[row|] x] eqn:E; cbn [fst snd]; unfold query, gets, throw, ret.
  - assert (Hg : claimed o i c (clock w) (with_instances x (fleet w)) /\ In row x
                 /\ InstanceRepository.owned o i row = true).
    { refine (granted_claim _ _ _ _ _ _ _ _ _ Hu _ _ E); [|done]. intros y Hy. by tests. }
    destruct Hg as (Hc & _ & _). cbn [fst snd fleet with_fleet configs with_instances].
    destruct (InstanceRepository.latestConfig o i (configs (fleet w))) as [cfg|]; [|by intros _].
    destruct (Z.eqb_spec (ic_version cfg) expectedVersion) as [Hv|]; [|by intros _].
    split_and!; [|done|done]. exists (clock w). split; [by split|]. simpl. lia.
  - assert (Hng : ~ granted_settings w) by (unfold granted_settings; rewrite E; by intros [? ?]).
    cbn [fst snd]. by destruct (InstanceRepository.findById o i _) as [row|]; intros ?.
Qed.

(** The settings stored are the ones composed, as the version after the one
    they were composed from. *)
Definition one_more (before : list InstanceConfigRow) (expectedVersion : Z) (version : Z) (w : W) : Prop :=
  version = expectedVersion + 1
  /\ (exists latest, InstanceRepository.latestConfig o i before = Some latest
        /\ ic_version latest = expectedVersion)
  /\ exists row, saved o i (configs (fleet w)) = saved o i before ++ [row] /\ ic_version row = version.

Lemma latest_of_saved t t' :
  saved o i t = saved o i t' ->
  InstanceRepository.latestConfig o i t = InstanceRepository.latestConfig o i t'.
Proof. unfold saved, InstanceRepository.latestConfig. by intros ->. Qed.

Lemma agree_save_version before spent expectedVersion (ctx : ActorContext) configId auditId settled latest :
  scopeOf ctx = o -> InstanceRepository.latestConfig o i before = Some latest ->
  ic_version latest = expectedVersion ->
  agree (held_in (saved o i before) spent)
    (on_snd (save_version deps ctx i c configId auditId settled))
    (on_snd (save_version guarded_deps ctx i c configId auditId settled))
    (fun version s => one_more before expectedVersion version s.2) not_busy.
Proof.
  intros Hctx Hlatest Hversion.
  change (save_version guarded_deps ctx i c configId auditId settled)
    with (save_version deps ctx i c configId auditId settled).
  apply agree_same. intros [flight w] Hheld. destruct Hheld as (t & [Hc Hs] & _). cbn [snd] in *.
  unfold on_snd, save_version, withTransaction, transaction, bind, on_instances, on_fleet, stmt.
  rewrite Hctx. cbn [fst snd].
  destruct (claimed_finalizes o i c t None None (fleet w) Hc) as (r & _ & _ & E).
  destruct (InstanceRepository.finalizeConfigClaim o i c None None (instances (fleet w))) as [row x].
  cbn [fst snd] in *. subst row. cbn [fleet with_fleet configs with_instances].
  pose proof (saved_save o i o configId i (writeDocument deps settled) (Some (ctx_memberId ctx))
                (ctx_actorLabel ctx) (configs (fleet w))) as Hsave.
  destruct (InstanceRepository.insertConfigVersion _ _ _ _ _ _ _) as [row cs] eqn:Ei. cbn [fst snd] in *.
  assert (Hv : ic_version row = expectedVersion + 1).
  { unfold InstanceRepository.insertConfigVersion in Ei. injection Ei as <- _. simpl.
    by rewrite (latest_of_saved (configs (fleet w)) before Hs), Hlatest, Hversion. }
  rewrite !bool_decide_eq_true_2 in Hsave by done. cbn [andb] in Hsave.
  unfold record_audit, AuditRepository.record, bind, lift, stmt, resolveActorLabel. cbn [fst snd by_actor entry_actorId].
  destruct (blank _); [done|]. cbn. split; [done|]. split; [by exists latest|].
  exists row. by rewrite <- Hs.
Qed.

Lemma settings_composed_calm compose expectedVersion w0 :
  (forall stored, calm (compose stored)) -> unique_on id_key (instances (fleet w0)) ->
  agree (eq (false, w0))
    (on_snd (withTransaction (settings_transaction deps o i c expectedVersion compose)))
    (on_snd (withTransaction (settings_transaction guarded_deps o i c expectedVersion compose)))
    (fun _ s => held_in (saved o i (configs (fleet w0))) 0 s
                /\ exists latest, InstanceRepository.latestConfig o i (configs (fleet w0)) = Some latest
                     /\ ic_version latest = expectedVersion) (unless_granted_settings w0).
Proof.
  intros Hcompose Hu.
  change (settings_transaction guarded_deps o i c expectedVersion compose)
    with (settings_transaction deps o i c expectedVersion compose).
  apply agree_same. intros s <-.
  pose proof (settings_claim w0 expectedVersion Hu) as Hclaim.
  unfold on_snd, withTransaction, transaction, settings_transaction, bind. cbn [fst snd].
  destruct (takeConfigClaim o i c expectedVersion w0) as [[[row cfg]|e] w1]; [|done].
  destruct Hclaim as (Hheld & Hlatest & Hv). unfold lift, ret, throw.
  assert (Hstored : calm (storedDocument deps i cfg)) by (unfold storedDocument; calm_steps).
  destruct (storedDocument deps i cfg) as [stored|e]; [|intros _; by apply Hstored].
  specialize (Hcompose stored).
  destruct (compose stored) as [composed|e]; [|intros _; by apply Hcompose].
  destruct (instanceConfigInput _ _ composed); [|by intros _].
  set (settled := with_port _ composed).
  assert (Hrender : calm (renderInstanceConfig (other_number deps) settled)).
  { unfold renderInstanceConfig, config_lines, tomlSecondsRange. calm_steps. }
  destruct (renderInstanceConfig _ settled) as [document|e]; [|intros _; by apply Hrender].
  split; [done|]. by exists cfg.
Qed.

Lemma agree_save (ctx : ActorContext) expectedVersion compose configId auditId w0 :
  scopeOf ctx = o -> (forall stored, calm (compose stored)) -> unique_on id_key (instances (fleet w0)) ->
  agree (eq w0) (saveConfig deps ctx i expectedVersion compose c configId auditId)
    (saveConfig guarded_deps ctx i expectedVersion compose c configId auditId)
    (one_more (configs (fleet w0)) expectedVersion) (unless_granted_settings w0).
Proof.
  intros Hctx Hcompose Hu. unfold saveConfig. cbv zeta. rewrite Hctx.
  assert (Hless : forall e, not_busy e -> unless_granted_settings w0 e) by (by intros e He _).
  apply agree_read; [done|apply reads_lift, capability_calm|]. intros [] _.
  apply agree_read; [done|apply reads_instance|]. intros instance _.
  apply (agree_read w0 (loadHost deps o (in_hostId instance) setUpOnce));
    [done|by apply reads_host|]. intros loaded Hloaded.
  set (rows := saved o i (configs (fleet w0))).
  eapply agree_consequence;
    [done| |exact (fun e H => H)|apply (agree_releasing w0 _ _ (fun version s => one_more (configs (fleet w0)) expectedVersion version s.2))].
  { by intros version w [f Hq]. }
  eapply agree_bind; [exact (settings_composed_calm compose expectedVersion w0 Hcompose Hu)|].
  intros [settled document]. cbv beta iota.
  intros s (Hheld & latest & Hlatest & Hv). revert s Hheld. fold rows.
  change (agree (held_in rows 0)
    (let* _ := on_machine deps loaded (write_document i document) in
     on_snd (save_version deps ctx i c configId auditId settled))
    (let* _ := on_machine guarded_deps loaded (write_document i document) in
     on_snd (save_version guarded_deps ctx i c configId auditId settled))
    (fun version s => one_more (configs (fleet w0)) expectedVersion version s.2) (unless_granted_settings w0)).
  eapply agree_consequence; [exact (fun s H => H)|exact (fun a s H => H)|exact Hless|].
  eapply (agree_bind _ _ _ _ _ (fun _ => held_in rows (CONNECT_TIMEOUT_MS + INSTANCE_STEP_TIMEOUT_MS + close_ms))).
  - apply (agree_on_machine rows 0 (CONNECT_TIMEOUT_MS + INSTANCE_STEP_TIMEOUT_MS)); try done;
      try (by eapply host_timeout);
      unfold CONNECT_TIMEOUT_MS, INSTANCE_STEP_TIMEOUT_MS, CONFIG_CLAIM_LEASE_MS; try lia.
    intros tr Htr. by apply agree_write_document.
  - intros []. by eapply agree_save_version.
Qed.
End work.
