(* ===== verification/InstanceSafety.v ===== *)
(** What a request on a bot guarantees.

    The theorems on the requests of [InstanceController] and
    [InstanceRequests]: they work on the machine under their claim, finish
    within its lease, record what they did, and give the claim back when they
    fail. *)

From stdpp Require Import relations.
From S2P Require Import Prelude Tables Calendar Observer Shell Control ClientSettings ClientConfig InstanceInput Access HostStore TaskStore InstanceStore InstanceController InstanceRequests InstanceWork.

(** ** Working under the claim *)

Lemma agree_eq {S A} (s : S) (m m' : M S A) Q E : agree (eq s) m m' Q E -> m s = m' s.
Proof. intros H. by destruct (H s eq_refl). Qed.

(** The answer that another change has the bot. *)
Definition told_busy {A} (r : result A) : Prop :=
  exists e, r = Throw e /\ instanceof "InstanceBusyError" e = true.

Section guarantees.
Context {X : Type} (deps : InstanceControllerDeps X) (ctx : ActorContext).
Context (instanceId claimId token configId auditId : string).
Abbreviation W := (World X).
Abbreviation scope := (ctx_organizationId ctx).

Lemma settings_compose_calm settings stored :
  calm (let+ (bots, advanced) := usableBots deps instanceId stored in
        Ok (with_bots advanced bots settings)).
Proof. unfold usableBots. by destruct (instanceBotsInput _ _ _ _); intros e; [|intros [= <-]]. Qed.

(** C1: every command a request runs on the machine of a bot it runs while it
    holds the claim of the bot: if the machine refused every command given
    without it, starting, restarting, stopping and removing the bot and saving
    its settings would be the same requests, whatever other requests do to the
    tables meanwhile.  The time limits of the commands, added up, are within
    the lease of the claim. *)
Theorem requests_work_under_their_claim close_ms (w : W) verb settings advanced bots version
    (Hmachines : timely_deps deps claimId close_ms) (Hclose : 0 <= close_ms <= 20000)
    (Hunique : unique_on id_key (instances (fleet w))) :
  let guarded := guarded_deps deps scope instanceId claimId in
  startUnderClaim deps ctx instanceId verb token claimId auditId w
    = startUnderClaim guarded ctx instanceId verb token claimId auditId w
  /\ stop deps ctx instanceId claimId auditId w = stop guarded ctx instanceId claimId auditId w
  /\ remove deps ctx instanceId claimId auditId w = remove guarded ctx instanceId claimId auditId w
  /\ updateSettings deps ctx instanceId settings version claimId configId auditId w
     = updateSettings guarded ctx instanceId settings version claimId configId auditId w
  /\ updateBotConfig deps ctx instanceId advanced bots version claimId configId auditId w
     = updateBotConfig guarded ctx instanceId advanced bots version claimId configId auditId w.
Proof.
  cbv zeta. split_and!.
  - by eapply agree_eq, (agree_start deps scope instanceId claimId close_ms).
  - by eapply agree_eq, (agree_stop deps scope instanceId claimId close_ms).
  - by eapply agree_eq, (agree_remove deps scope instanceId claimId close_ms).
  - unfold updateSettings.
    change (usableBots (guarded_deps deps scope instanceId claimId)) with (usableBots deps).
    eapply agree_eq, (agree_save deps scope instanceId claimId close_ms); try done.
    apply settings_compose_calm.
  - by eapply agree_eq, (agree_save deps scope instanceId claimId close_ms).
Qed.

(** C3: a request that is granted its claim is never told, later on, that the
    bot is busy with another change: no other request can have taken the bot
    over by the time this one has done its work, however slow the machine was
    within its time limits. *)
Theorem granted_requests_are_not_overtaken close_ms (w : W) verb
    (Hmachines : timely_deps deps claimId close_ms) (Hclose : 0 <= close_ms <= 20000)
    (Hunique : unique_on id_key (instances (fleet w)))
    (Hgranted : granted scope instanceId claimId w) :
  ~ told_busy (startUnderClaim deps ctx instanceId verb token claimId auditId w).1
  /\ ~ told_busy (stop deps ctx instanceId claimId auditId w).1
  /\ ~ told_busy (remove deps ctx instanceId claimId auditId w).1.
Proof.
  assert (H : forall A (m m' : M W A) Q, agree (eq w) m m' Q (unless_granted scope instanceId claimId w) ->
    ~ told_busy (m w).1).
  { intros A m m' Q H (e & He & Hb). destruct (H w eq_refl) as [_ Hm].
    destruct (m w) as [[a|e'] w']; simpl in He; [done|]. injection He as ->.
    specialize (Hm Hgranted). unfold not_busy in Hm. congruence. }
  split_and!; eapply H.
  - by apply (agree_start deps scope instanceId claimId close_ms).
  - by apply (agree_stop deps scope instanceId claimId close_ms).
  - by apply (agree_remove deps scope instanceId claimId close_ms).
Qed.

(** C2: settings are saved by compare and swap: a save that succeeds was
    composed from the version the member saw, stores exactly one version, the
    next one, and no other save came in between, whatever other requests did
    while the file was written on the machine. *)
Theorem saves_are_compare_and_swap close_ms (w w' : W) settings expectedVersion version
    (Hmachines : timely_deps deps claimId close_ms) (Hclose : 0 <= close_ms <= 20000)
    (Hunique : unique_on id_key (instances (fleet w)))
    (Hsaved : updateSettings deps ctx instanceId settings expectedVersion claimId configId auditId w
              = (Ok version, w')) :
  version = expectedVersion + 1
  /\ (exists latest, InstanceRepository.latestConfig scope instanceId (configs (fleet w)) = Some latest
        /\ ic_version latest = expectedVersion)
  /\ exists row, saved scope instanceId (configs (fleet w')) = saved scope instanceId (configs (fleet w)) ++ [row]
        /\ ic_version row = version.
Proof.
  unfold updateSettings in Hsaved.
  destruct (agree_save deps scope instanceId claimId close_ms Hmachines Hclose ctx expectedVersion
              (fun stored => let+ (bots, advanced) := usableBots deps instanceId stored in
                             Ok (with_bots advanced bots settings))
              configId auditId w eq_refl (settings_compose_calm settings) Hunique w eq_refl) as [_ H].
  by rewrite Hsaved in H.
Qed.
End guarantees.

(** ** A bot on a machine that answers *)

Definition example_transport : HostTransport (World unit) :=
  MkTransport _ (fun _ => ret tt)
    (fun _ timeoutMs _ w => (Ok (MkExec 0 ("written" +:+ newline) ""),
                     MkWorld (fleet w) (clock w + Z.min 1000 (Z.max 0 timeoutMs)) (activeReadAt w) tt))
    (fun _ _ => ret false) (ret tt).

Definition example_deps : InstanceControllerDeps unit :=
  MkInstanceDeps unit (ret example_transport) (fun token => Ok (MkSealed token "key"))
    (fun text _ => Ok text) (fun _ => None) (fun _ => None) (fun text => text) (fun _ => true)
    (fun _ _ => true) (fun _ => true) (fun _ => None)
    (fun _ => Some (defaultInstanceConfig offline "Steve" "mc.example" "1.20.1")) (fun _ => "{}").

Definition example_host : HostRow :=
  MkHostRow "host" "org" "vps" ready (MkHostAddress "10.0.0.1" 22 "mcc" (Some "ssh-key"))
    (MkTrust (Some "SHA256:abc") (Some "ed25519") (Some 0) None "unknown")
    (MkFacts (Some "Debian 13") None None None None None None (Some pasta) (Some x64))
    (MkProvisioning None None None None None None) None None 0.

Definition example_bot : InstanceRow :=
  MkInstance "bot" "org" "host" "Miner" offline "Steve" None st_running None no_claims 33333 None 0.

Definition example_world : World unit :=
  MkWorld
    (MkFleet [example_host] [MkSshKey "ssh-key" "org" "sealed" "key"] [example_bot]
       [MkInstanceConfig "c1" "org" "bot" 1 "{}" None "system"] [] [] no_tables []) 1000 [] tt.

Definition example_actor : ActorContext := MkActor "org" "member" "Ann" operator.

Lemma example_timely : timely_deps example_deps "claim" 0.
Proof.
  assert (Hquiet : forall A (a : A) limit, timely (X := unit) "claim" limit (ret a)).
  { intros A a limit Hl w. split; [|done]. split; simpl; [lia|done]. }
  split_and!; [|done..]. intros w. split; [done|]. split; simpl.
  - intros options. apply Hquiet.
  - intros command timeoutMs stdin Hl w'. split; [|done]. split; simpl; [lia|done].
  - apply Hquiet.
Qed.

Definition example_settings : InstanceConfigInput :=
  defaultInstanceConfig offline "Alex" "mc.example:25566" "1.20.1".

Lemma example_unique : unique_on id_key (instances (fleet example_world)).
Proof. apply NoDup_singleton. Qed.

Lemma requests_work_under_their_claim_witness :
  let guarded := guarded_deps example_deps "org" "bot" "claim" in
  startUnderClaim example_deps example_actor "bot" restart_verb "t" "claim" "a" example_world
    = startUnderClaim guarded example_actor "bot" restart_verb "t" "claim" "a" example_world
  /\ stop example_deps example_actor "bot" "claim" "a" example_world
     = stop guarded example_actor "bot" "claim" "a" example_world
  /\ remove example_deps example_actor "bot" "claim" "a" example_world
     = remove guarded example_actor "bot" "claim" "a" example_world
  /\ updateSettings example_deps example_actor "bot" example_settings 1 "claim" "c2" "a" example_world
     = updateSettings guarded example_actor "bot" example_settings 1 "claim" "c2" "a" example_world
  /\ updateBotConfig example_deps example_actor "bot" [] [] 1 "claim" "c2" "a" example_world
     = updateBotConfig guarded example_actor "bot" [] [] 1 "claim" "c2" "a" example_world.
Proof.
  apply (requests_work_under_their_claim example_deps example_actor "bot" "claim" "t" "c2" "a" 0
           example_world restart_verb example_settings [] [] 1).
  - apply example_timely.
  - lia.
  - apply example_unique.
Defined.

Lemma granted_requests_are_not_overtaken_witness :
  granted "org" "bot" "claim" example_world
  /\ ~ told_busy (startUnderClaim example_deps example_actor "bot" restart_verb "t" "claim" "a" example_world).1
  /\ ~ told_busy (stop example_deps example_actor "bot" "claim" "a" example_world).1
  /\ ~ told_busy (remove example_deps example_actor "bot" "claim" "a" example_world).1.
Proof.
  assert (H : granted "org" "bot" "claim" example_world) by (vm_compute; eexists; reflexivity).
  split; [exact H|].
  apply (granted_requests_are_not_overtaken example_deps example_actor "bot" "claim" "t" "a" 0
           example_world restart_verb).
  - apply example_timely.
  - lia.
  - apply example_unique.
  - exact H.
Defined.

Lemma saves_are_compare_and_swap_witness :
  exists version w',
    updateSettings example_deps example_actor "bot" example_settings 1 "claim" "c2" "a" example_world
      = (Ok version, w')
    /\ version = 1 + 1
    /\ (exists latest, InstanceRepository.latestConfig "org" "bot" (configs (fleet example_world)) = Some latest
          /\ ic_version latest = 1)
    /\ exists row, saved "org" "bot" (configs (fleet w'))
                   = saved "org" "bot" (configs (fleet example_world)) ++ [row]
          /\ ic_version row = version.
Proof.
  destruct (updateSettings example_deps example_actor "bot" example_settings 1 "claim" "c2" "a" example_world)
    as [[version|e] w'] eqn:E.
  - exists version, w'. split; [reflexivity|].
    apply (saves_are_compare_and_swap example_deps example_actor "bot" "claim" "c2" "a" 0
             example_world w' example_settings 1 version).
    + apply example_timely.
    + lia.
    + apply example_unique.
    + exact E.
  - vm_compute in E. discriminate E.
Defined.

(** ** What a finished request left behind *)

Lemma releasing_ok {X A} scope instanceId claimId (run : M (bool * World X) A) w a w' :
  releasingClaim scope instanceId claimId run w = (Ok a, w') -> exists f, run (false, w) = (Ok a, (f, w')).
Proof.
  unfold releasingClaim. destruct (run (false, w)) as [[x|e] [f w1]]; [intros [= -> ->]; by exists f|].
  destruct f; [done|]. by destruct (release_claim _ _ _ w1).
Qed.

Lemma on_snd_ok {R W A} (m : M W A) (s : R * W) a s' :
  on_snd m s = (Ok a, s') -> m s.2 = (Ok a, s'.2).
Proof. unfold on_snd. destruct (m s.2) as [r w]. by intros [= -> <-]. Qed.

(** The last event of the audit log. *)
Definition recorded {X} (ctx : ActorContext) (action instanceId : string) (w : World X) : Prop :=
  exists before event, audits (fleet w) = before ++ [event]
    /\ ae_organizationId event = ctx_organizationId ctx /\ ae_actorId event = Some (ctx_memberId ctx)
    /\ ae_actorLabel event = ctx_actorLabel ctx /\ ae_action event = action
    /\ ae_subjectId event = instanceId.

(** The row of the bot after a lifecycle change. *)
Definition settled_row {X} (scope instanceId : string) (status : InstanceStatus) (row : InstanceRow)
    (w : World X) : Prop :=
  In row (instances (fleet w)) /\ InstanceRepository.owned scope instanceId row = true
  /\ in_status row = status /\ configClaimId (in_claims row) = None
  /\ (status = st_running -> in_lastExitCode row = None).

Lemma record_ok {X} scope auditId ctx action instanceId detail (w w' : World X) event :
  scope = ctx_organizationId ctx ->
  record_audit scope auditId (by_actor ctx action instanceId detail) w = (Ok event, w') ->
  recorded ctx action instanceId w' /\ instances (fleet w') = instances (fleet w).
Proof.
  intros -> . unfold record_audit, AuditRepository.record, bind, lift, stmt, resolveActorLabel. simpl.
  destruct (blank _); [done|]. intros [= <- <-]. split; [|done]. by eexists _, _.
Qed.

Lemma finalize_ok {X} ctx instanceId claimId auditId status action (w w' : World X) row :
  finalizeLifecycle ctx instanceId claimId auditId status action w = (Ok row, w') ->
  settled_row (ctx_organizationId ctx) instanceId status row w' /\ recorded ctx action instanceId w'.
Proof.
  unfold finalizeLifecycle, withTransaction, transaction. cbv zeta.
  destruct (bind _ _ w) as [[row'|e] w1] eqn:E; [|done]. intros [= -> ->].
  apply bind_ok in E as (found & w2 & E1 & E2).
  unfold on_instances, on_fleet, stmt in E1. cbn [fst snd] in E1.
  destruct found as [r|]; [|done]. apply bind_ok in E2 as (event & w3 & E3 & E4).
  injection E4 as -> ->. apply record_ok in E3 as [Hrec Hinst]; [|done]. split; [|done].
  injection E1 as Hr Hw2. unfold updated in Hr.
  set (p := InstanceRepository.config_held _ _ _) in *.
  set (f := InstanceRepository.finalized _ _) in *.
  destruct (select p (instances (fleet w))) as [|r0 l] eqn:Es; [done|]. injection Hr as <-.
  assert (Hr0 : In r0 (instances (fleet w)) /\ p r0 = true)
    by (apply filter_In; change (In r0 (select p (instances (fleet w)))); rewrite Es; by left).
  destruct Hr0 as [Hin Hp]. split_and!.
  - rewrite Hinst, <- Hw2. simpl. apply in_update_where. exists r0. by rewrite Hp.
  - unfold p, InstanceRepository.config_held in Hp. by tests.
  - done.
  - done.
  - by intros ->.
Qed.

(** a start, a restart or a stop that succeeds leaves the bot as it says:
    its row, the one returned, has the new status, a running bot has no exit
    code of an earlier run, the claim is given back, and the last event of the
    audit log tells who did it; all of that in one transaction. *)
Theorem finished_requests_are_recorded {X} (deps : InstanceControllerDeps X) ctx instanceId verb token
    claimId auditId (w : World X) :
  (forall pub w', startUnderClaim deps ctx instanceId verb token claimId auditId w = (Ok pub, w') ->
     exists row, pub = toInstancePublic row
       /\ settled_row (ctx_organizationId ctx) instanceId st_running row w'
       /\ recorded ctx (if verb ≡? start_verb then "instance.start" else "instance.restart") instanceId w')
  /\ (forall pub w', stop deps ctx instanceId claimId auditId w = (Ok pub, w') ->
     exists row, pub = toInstancePublic row
       /\ settled_row (ctx_organizationId ctx) instanceId st_stopped row w'
       /\ recorded ctx "instance.stop" instanceId w')
  /\ (forall w', remove deps ctx instanceId claimId auditId w = (Ok tt, w') ->
     recorded ctx "instance.remove" instanceId w').
Proof.
  split_and!.
  - intros pub w' H. unfold startUnderClaim in H.
    apply bind_ok in H as (instance & w1 & _ & H). destruct (in_status instance ≡? st_needs_auth); [done|].
    do 4 (apply bind_ok in H as (? & ? & _ & H)).
    apply releasing_ok in H as [f H]. apply bind_ok in H as ([claimed document] & s1 & _ & H).
    apply bind_ok in H as ([] & s2 & _ & H). apply bind_ok in H as (row & s3 & Hrow & H).
    injection H as <- ->. apply on_snd_ok, finalize_ok in Hrow as [Hrow Hrec]. by exists row.
  - intros pub w' H. unfold stop in H. do 3 (apply bind_ok in H as (? & ? & _ & H)).
    apply releasing_ok in H as [f H]. apply bind_ok in H as (claimed & s1 & _ & H).
    apply bind_ok in H as ([] & s2 & _ & H). apply bind_ok in H as (row & s3 & Hrow & H).
    injection H as <- ->. apply on_snd_ok, finalize_ok in Hrow as [Hrow Hrec]. by exists row.
  - intros w' H. unfold remove in H. do 3 (apply bind_ok in H as (? & ? & _ & H)).
    apply releasing_ok in H as [f H]. apply bind_ok in H as (claimed & s1 & _ & H).
    apply bind_ok in H as ([] & s2 & _ & H). apply on_snd_ok in H. cbn [snd] in H.
    unfold delete_claimed, withTransaction, transaction in H.
    destruct (bind _ _ s2.2) as [[[]|e] w1] eqn:E; [|done]. injection H as ->.
    apply bind_ok in E as (removed & w2 & _ & E). destruct (negb removed); [done|].
    apply bind_ok in E as (event & w3 & E3 & E4). injection E4 as ->.
    by apply record_ok in E3 as [Hrec _].
Qed.

Lemma finished_requests_are_recorded_witness :
  exists pub w',
    stop example_deps example_actor "bot" "claim" "a" example_world = (Ok pub, w')
    /\ exists row, pub = toInstancePublic row
       /\ settled_row "org" "bot" st_stopped row w' /\ recorded example_actor "instance.stop" "bot" w'.
Proof.
  destruct (stop example_deps example_actor "bot" "claim" "a" example_world) as [[pub|e] w'] eqn:E.
  - exists pub, w'. split; [reflexivity|].
    apply (proj1 (proj2 (finished_requests_are_recorded example_deps example_actor "bot" start_verb "t"
                           "claim" "a" example_world)) pub w' E).
  - vm_compute in E. discriminate E.
Defined.

(** ** What a failed request left behind *)

(** A machine that answers every command, or refuses to take it: no command is
    left running without an answer. *)
Definition answering {X} (tr : HostTransport (World X)) : Prop :=
  forall command timeoutMs stdin w e, (tr_exec tr command timeoutMs stdin w).1 = Throw e ->
    instanceof "ChannelLimitReachedError" e = true.

Section landing.
Context {X : Type}.
Abbreviation W := (World X).

(** Nothing is in flight. *)
Definition landed (s : bool * W) : Prop := s.1 = false.

Lemma landed_on_snd {A} (m : M W A) : preserves landed (on_snd m).
Proof. intros [f w] H. unfold on_snd. simpl. by destruct (m w) as [[a|e] w']. Qed.

Lemma landed_lift {A} (r : result A) : preserves landed (lift r).
Proof. intros s H. unfold lift. by destruct r. Qed.

Lemma landed_exec tr command timeoutMs stdin :
  answering tr -> preserves landed (claimedExec tr command timeoutMs stdin).
Proof.
  intros Htr [f w] H. specialize (Htr command timeoutMs stdin w). unfold claimedExec. simpl.
  destruct (tr_exec tr command timeoutMs stdin w) as [[result|e] w']; [done|].
  rewrite (Htr e eq_refl). done.
Qed.

Lemma landed_failingAs {A} F (m : M (bool * W) A) : preserves landed m -> preserves landed (failingAs F m).
Proof. intros H. apply preserves_catch; [done|]. intros e. apply preserves_throw. Qed.

Lemma landed_refused message result : preserves landed (refused_unless_zero (X := X) message result).
Proof. unfold refused_unless_zero. destruct (negb _); [apply preserves_throw|apply preserves_ret]. Qed.

End landing.

Ltac landed_steps :=
  repeat
    match goal with
    | |- preserves _ (bind _ _) => apply preserves_bind; [|intros ?]
    | |- preserves _ (on_snd _) => apply landed_on_snd
    | |- preserves _ (lift _) => apply landed_lift
    | |- preserves _ (refused_unless_zero _ _) => apply landed_refused
    | |- preserves _ (claimedExec _ _ _ _) => apply landed_exec; assumption
    | |- preserves _ (failingAs _ _) => apply landed_failingAs
    | |- preserves _ (ret _) => apply preserves_ret
    | |- preserves _ (throw _) => apply preserves_throw
    | |- preserves _ get => apply (preserves_gets _ (fun s => s))
    | |- preserves _ (match ?x with _ => _ end) => destruct x
    end.

Section failures.
Context {X : Type} (deps : InstanceControllerDeps X).
Context (machines_answer : forall w tr w', createTransport deps w = (Ok tr, w') -> answering tr).
Abbreviation W := (World X).

Lemma landed_on_machine loaded body :
  (forall tr, answering tr -> preserves landed (body tr)) -> preserves landed (on_machine deps loaded body).
Proof.
  intros Hbody [f w] Hs. unfold on_machine, bind, on_snd. cbn [fst snd].
  destruct (connectLoaded deps loaded w) as [[tr|e] w'] eqn:E; [|done].
  assert (Htr : answering tr).
  { unfold connectLoaded, bind in E. destruct (createTransport deps w) as [[tr0|e] w1] eqn:Ec; [|done].
    unfold try_catch, ret in E. destruct (tr_connect tr0 (lh_options loaded) w1) as [[[]|e] w2].
    - injection E as <- <-. by eapply machines_answer.
    - unfold throw in E. by destruct (swallow (tr_close tr0) w2) as [[[]|e'] w3]. }
  specialize (Hbody tr Htr (f, w') Hs). unfold closing, try_finally, under, on_snd.
  destruct (body tr (f, w')) as [r s]. destruct (swallow_total (tr_close tr) s.2) as [w3 E3].
  rewrite E3. by destruct r.
Qed.

Lemma landed_start scope instanceId claimId environment sealed verb claimed document tr :
  answering tr ->
  preserves (landed (X := X)) (start_on_machine scope instanceId claimId environment sealed verb claimed document tr).
Proof.
  intros Htr. unfold start_on_machine, stopUnitUnderClaim, write_environment, write_document, start_unit.
  landed_steps.
Qed.

Lemma landed_stop_unit tr id : answering tr -> preserves (landed (X := X)) (stopUnitUnderClaim tr id).
Proof. intros Htr. unfold stopUnitUnderClaim. landed_steps. Qed.

Lemma landed_write id document tr : answering tr -> preserves (landed (X := X)) (write_document id document tr).
Proof. intros Htr. unfold write_document. landed_steps. Qed.

Lemma landed_remove instanceId id tr :
  answering tr -> preserves (landed (X := X)) (remove_from_machine (X := X) instanceId id tr).
Proof. intros Htr. unfold remove_from_machine, exitOf, unless_zero. landed_steps. Qed.

(** Nobody holds the claim. *)
Definition not_held (scope instanceId claimId : string) (w : W) : Prop :=
  forall r, In r (instances (fleet w)) -> InstanceRepository.owned scope instanceId r = true ->
    configClaimId (in_claims r) <> Some claimId.

Lemma released scope instanceId claimId w : not_held scope instanceId claimId (release_claim scope instanceId claimId w).2.
Proof.
  unfold release_claim, bind, on_instances, on_fleet, stmt, ret. simpl.
  intros r Hr Ho. apply in_update_where in Hr as (r0 & Hr0 & ->).
  destruct (InstanceRepository.config_held scope instanceId claimId r0) eqn:E; [done|].
  unfold InstanceRepository.config_held in E. rewrite Ho in E. simpl in E. by tests.
Qed.

Lemma releasing_failed {A} scope instanceId claimId (run : M (bool * W) A) w e w' :
  preserves landed run -> releasingClaim scope instanceId claimId run w = (Throw e, w') ->
  not_held scope instanceId claimId w'.
Proof.
  intros Hrun. unfold releasingClaim. specialize (Hrun (false, w) eq_refl).
  destruct (run (false, w)) as [[a|e'] [f w1]]; [done|]. cbn in Hrun. rewrite Hrun.
  pose proof (released scope instanceId claimId w1) as Hr.
  destruct (release_claim scope instanceId claimId w1) as [r w2]. by intros [= _ <-].
Qed.

(** Reading changes nothing. *)
Definition still {A} (m : M W A) : Prop := forall w, (m w).2 = w.

Lemma still_bind {A B} (P : W -> Prop) (m : M W A) (k : A -> M W B) w e w' :
  still m -> P w -> (forall a, k a w = (Throw e, w') -> P w') -> bind m k w = (Throw e, w') -> P w'.
Proof.
  intros Hm Hw Hk. unfold bind. specialize (Hm w). destruct (m w) as [[a|e'] w1]; simpl in Hm; subst w1.
  - apply Hk.
  - by intros [= _ <-].
Qed.

Lemma still_lift {A} (r : result A) : still (lift r).
Proof. done. Qed.

Lemma still_instance ctx instanceId : still (requireInstance ctx instanceId).
Proof.
  intros w. unfold requireInstance, bind, query, gets, throw, ret. by destruct (InstanceRepository.findById _ _ _).
Qed.

Lemma still_document scope row : still (expectedDocumentFor deps scope row).
Proof. done. Qed.

Lemma still_host scope hostId need : still (loadHost deps scope hostId need).
Proof.
  intros w. unfold loadHost, bind, query, gets, throw, ret, lift.
  destruct (HostRepository.findById _ _ _) as [h|]; [|done].
  destruct (truthy (sshKeyId (host_address h))), (truthy (hostKeyFingerprint (host_trust h))); try done.
  destruct (negb _); [done|]. destruct (findSshKey _ _ _); [|done]. by destruct (open_sealed deps _ _).
Qed.

(** C15: a request that fails gives the claim of the bot back, wherever it
    failed, as long as every command it gave was answered (one that was not may
    still be running, and then the claim is kept for its lease). *)
Theorem failed_requests_give_the_claim_back ctx instanceId verb token settings version claimId configId auditId w
    (Hfresh : not_held (ctx_organizationId ctx) instanceId claimId w) :
  let failed_free {A} (m : M W A) :=
    forall e w', m w = (Throw e, w') -> not_held (ctx_organizationId ctx) instanceId claimId w' in
  failed_free (startUnderClaim deps ctx instanceId verb token claimId auditId)
  /\ failed_free (stop deps ctx instanceId claimId auditId)
  /\ failed_free (remove deps ctx instanceId claimId auditId)
  /\ failed_free (updateSettings deps ctx instanceId settings version claimId configId auditId).
Proof.
  cbv zeta. split_and!; intros e w';
    unfold startUnderClaim, stop, remove, updateSettings, saveConfig; cbv zeta.
  - apply still_bind; [apply still_instance|done|]. intros instance.
    destruct (in_status instance ≡? st_needs_auth); [by intros [= _ <-]|].
    apply still_bind; [apply still_document|done|]. intros expected.
    apply still_bind; [apply still_host|done|]. intros loaded.
    apply still_bind; [apply still_lift|done|]. intros sealed.
    apply still_bind; [apply still_lift|done|]. intros environment.
    apply releasing_failed. apply preserves_bind; [apply landed_on_snd|]. intros [claimed document].
    apply preserves_bind; [apply landed_failingAs, landed_on_machine|intros []; landed_steps].
    intros tr Htr. by apply landed_start.
  - apply still_bind; [apply still_lift|done|]. intros [].
    apply still_bind; [apply still_instance|done|]. intros instance.
    apply still_bind; [apply still_host|done|]. intros loaded.
    apply releasing_failed. apply preserves_bind; [apply landed_on_snd|]. intros claimed.
    apply preserves_bind; [apply landed_failingAs, landed_on_machine|intros []; landed_steps].
    intros tr Htr. by apply landed_stop_unit.
  - apply still_bind; [apply still_lift|done|]. intros [].
    apply still_bind; [apply still_instance|done|]. intros instance.
    apply still_bind; [apply still_host|done|]. intros loaded.
    apply releasing_failed. apply preserves_bind; [apply landed_on_snd|]. intros claimed.
    apply preserves_bind; [apply landed_on_machine|intros []; landed_steps].
    intros tr Htr. by apply landed_remove.
  - apply still_bind; [apply still_lift|done|]. intros [].
    apply still_bind; [apply still_instance|done|]. intros instance.
    apply still_bind; [apply still_host|done|]. intros loaded.
    apply releasing_failed. apply preserves_bind; [apply landed_on_snd|]. intros [settled document].
    apply preserves_bind; [apply landed_on_machine|intros []; landed_steps].
    intros tr Htr. by apply landed_write.
Qed.
End failures.

(** A machine that refuses every command. *)
Definition refusing_deps : InstanceControllerDeps unit :=
  MkInstanceDeps unit
    (ret (MkTransport _ (fun _ => ret tt) (fun _ _ _ => ret (MkExec 1 "" "no")) (fun _ _ => ret false) (ret tt)))
    (seal example_deps) (open_sealed example_deps) (fun _ => None) (fun _ => None) (fun text => text)
    (fun _ => true) (fun _ _ => true) (fun _ => true) (fun _ => None) (readDocument example_deps) (fun _ => "{}").

Lemma failed_requests_give_the_claim_back_witness :
  not_held "org" "bot" "claim" example_world
  /\ (exists e w', stop refusing_deps example_actor "bot" "claim" "a" example_world = (Throw e, w')
        /\ not_held "org" "bot" "claim" w').
Proof.
  assert (Hfresh : not_held "org" "bot" "claim" example_world) by (intros r [<-|[]] _; discriminate).
  split; [exact Hfresh|].
  destruct (stop refusing_deps example_actor "bot" "claim" "a" example_world) as [[pub|e] w'] eqn:E.
  - vm_compute in E. discriminate E.
  - exists e, w'. split; [reflexivity|].
    assert (Hanswer : forall w tr w1, createTransport refusing_deps w = (Ok tr, w1) -> answering tr)
      by (intros w tr w1 [= <- _]; intros ? ? ? ? ? [=]).
    apply (proj1 (proj2 (failed_requests_give_the_claim_back refusing_deps Hanswer example_actor "bot"
                           start_verb "0123456789abcdef0123456789abcdef" example_settings 1 "claim" "c2" "a"
                           example_world Hfresh)) e w' E).
Defined.
