(* ===== verification/Authentication.v ===== *)
(** Signing a bot in with a device code.

    [packages/core/src/instance/authenticate.ts]: a sign-in claims the bot,
    stops it, starts its sign-in unit and reads the code the client prints;
    completing it looks for the session the client saved, and cancelling it
    stops the unit.  The theorems are in [SignIn]. *)

From S2P Require Import Prelude Tables Dates Calendar Observer Shell Control ClientConfig Access HostStore InstanceStore InstanceController.

Definition InstanceSignInDidNotStartError := named "InstanceSignInDidNotStartError".
Definition InstanceSignInNoDeviceCodeError := named "InstanceSignInNoDeviceCodeError".
Definition InstanceSignInOtherAccountError := named "InstanceSignInOtherAccountError".
Definition InstanceAccountNotInteractiveError := named "InstanceAccountNotInteractiveError".

(** ** Reading the client's log *)

(** The first suffix of [value] in which [at_start] finds something at its
    start, and what it finds: the leftmost match of a pattern. *)
Fixpoint leftmost {A} (at_start : string -> option A) (value : string) : option A :=
  match at_start value with
  | Some a => Some a
  | None => match value with EmptyString => None | String _ rest => leftmost at_start rest end
  end.

(** [[A-Z0-9]] of a pattern with the [i] flag. *)
Definition code_char (c : Ascii.ascii) : bool :=
  in_range "A" "Z" c || in_range "a" "z" c || in_range "0" "9" c.

(** [\b] after a character of a word. *)
Definition word_ends (rest : string) : bool :=
  match rest with EmptyString => true | String c _ => negb (code_char c || (c ≡? "_"%char)) end.

(** Exactly [n] characters of a code, and the rest. *)
Fixpoint code_run (n : nat) (value : string) : option (string * string) :=
  match n, value with
  | O, _ => Some (EmptyString, value)
  | S _, EmptyString => None
  | S n', String c rest =>
      if code_char c then let? (run, rest') := code_run n' rest in Some (String c run, rest') else None
  end.

(** The first of [ns] that works: a bounded repetition, longest first. *)
Fixpoint first_of {A} (ns : list nat) (try : nat -> option A) : option A :=
  match ns with [] => None | n :: ns' => or_else (try n) (first_of ns' try) end.

Definition CODE_COUNTS : list nat := [6; 5; 4]%nat.

(** [[A-Z0-9]{4,6}-?[A-Z0-9]{4,6}\b] *)
Definition code_at (value : string) : option string :=
  first_of CODE_COUNTS (fun n =>
    let? (first, rest) := code_run n value in
    let (dash, rest) :=
      match rest with
      | String c rest' => if c ≡? "-"%char then ("-", rest') else (EmptyString, rest)
      | EmptyString => (EmptyString, rest)
      end in
    first_of CODE_COUNTS (fun m =>
      let? (second, rest) := code_run m rest in
      if word_ends rest then Some (first +:+ dash +:+ second) else None)).

Definition CODE_PROMPT : string := "enter the code".

Definition without_colon (value : string) : string :=
  match value with
  | String c rest => if c ≡? ":"%char then rest else value
  | EmptyString => value
  end.

(** [/enter the code:?\s*([A-Z0-9]{4,6}-?[A-Z0-9]{4,6})\b/i] *)
Definition DEVICE_CODE_PATTERN : string -> option string :=
  leftmost (fun value =>
    if startsWith CODE_PROMPT (toLowerCase value)
    then code_at (trim_start (without_colon (slice_from (String.length CODE_PROMPT) value)))
    else None).

Definition URI_START : string := "https://".
Definition URI_END : string := "microsoft.com/link".

(** [[A-Za-z0-9.\-/]] *)
Definition uri_char (c : Ascii.ascii) : bool :=
  code_char c || (c ≡? "."%char) || (c ≡? "-"%char) || (c ≡? "/"%char).

(** The longest run of [uri_char]s after which [URI_END] follows. *)
Fixpoint uri_rest (value : string) : option string :=
  let here := if startsWith URI_END value then Some URI_END else None in
  match value with
  | EmptyString => here
  | String c rest =>
      if uri_char c
      then match uri_rest rest with Some run => Some (String c run) | None => here end
      else here
  end.

(** [/(https:\/\/[A-Za-z0-9.\-/]*microsoft\.com\/link)/] *)
Definition VERIFICATION_URI_PATTERN : string -> option string :=
  leftmost (fun value =>
    if startsWith URI_START value
    then let? run := uri_rest (slice_from (String.length URI_START) value) in Some (URI_START +:+ run)
    else None).

Definition AUTH_SESSION_TIMEOUT_MS : Z := 30000.
Definition AUTH_START_TIMEOUT_MS : Z := 85000.
Definition DEVICE_CODE_POLL_ATTEMPTS : nat := 10.
Definition DEVICE_CODE_POLL_INTERVAL_MS : Z := 2000.
Definition DEVICE_CODE_TTL_MS : Z := 15 * 60 * 1000.
Definition SESSION_CACHE_FILES : list string := ["SessionCache.db"].
Definition SESSION_CACHE_ABSENT_EXIT : Z := 1.
Definition SESSION_CACHE_UNREADABLE_EXIT : Z := 2.
Definition SESSION_CACHE_NO_STATE_DIR_EXIT : Z := 3.
Definition SESSION_CACHE_OTHER_ACCOUNT_EXIT : Z := 4.

Record DeviceCodeChallenge := MkChallenge {
  userCode : string; verificationUri : string; expiresAt : string }.

Definition extractChallenge (output : string) (now : Z) : option DeviceCodeChallenge :=
  match DEVICE_CODE_PATTERN output, VERIFICATION_URI_PATTERN output with
  | Some code, Some uri => Some (MkChallenge code uri (toISOString (now + DEVICE_CODE_TTL_MS)))
  | _, _ => None
  end.

(** ** The commands *)

Definition sessionCacheProbeCommand (instanceId minecraftAccount : string) : result string :=
  let+ id := validateInstanceId instanceId in
  let exit n := "exit " +:+ decimal n in
  let file := match SESSION_CACHE_FILES with name :: _ => name | [] => "undefined" end in
  Ok (join_with "; "
    ["d=" +:+ dq ("$HOME/" +:+ INSTANCES_PATH +:+ "/instances/" +:+ id +:+ "/" +:+ layout_state);
     "[ -d " +:+ dq "$d" +:+ " ] || " +:+ exit SESSION_CACHE_NO_STATE_DIR_EXIT;
     "out=$(find " +:+ dq "$d" +:+ " -maxdepth 1 -name " +:+ file
       +:+ " -type f -size +0 -print -quit)";
     "rc=$?";
     "[ " +:+ dq "$rc" +:+ " -eq 0 ] || " +:+ exit SESSION_CACHE_UNREADABLE_EXIT;
     "[ -n " +:+ dq "$out" +:+ " ] || " +:+ exit SESSION_CACHE_ABSENT_EXIT;
     "LC_ALL=C grep -a -i -q -F -e " +:+ shellQuote minecraftAccount +:+ " " +:+ dq "$out";
     "found=$?";
     "[ " +:+ dq "$found" +:+ " -eq 0 ] && exit 0";
     "[ " +:+ dq "$found" +:+ " -eq 1 ] && " +:+ exit SESSION_CACHE_OTHER_ACCOUNT_EXIT;
     exit SESSION_CACHE_UNREADABLE_EXIT]).

Definition startAuthCommand (instanceId : string) : result string :=
  let+ name := authUnitName instanceId in
  let+ dir := instanceDir instanceId in
  Ok ("rm -f " +:+ dir +:+ "/auth.log && " +:+ systemctl ("start " +:+ shellQuote name)).

Record AuthPolling := MkPolling { attempts : nat; intervalMs : Z }.

Definition default_polling : AuthPolling :=
  MkPolling DEVICE_CODE_POLL_ATTEMPTS DEVICE_CODE_POLL_INTERVAL_MS.

Record AuthenticationState := MkAuthState { authenticated : bool; auth_status : InstanceStatus }.

(** ** Signing in, completing and cancelling *)

Section authentication.
Context {X : Type} (deps : InstanceControllerDeps X).
Abbreviation W := (World X).

Definition connectForSignIn (transport : HostTransport W) (options : ConnectOptions) : M W unit :=
  try_catch (tr_connect transport options)
    (fun error => throw (HostUnreachableError (connection_failure deps error))).

(** The bot, if it is there and signs in with a code; [what] is why not. *)
Definition interactive_instance (scope instanceId what : string) : M W InstanceRow :=
  let* found := query (fun t => InstanceRepository.findById scope instanceId (instances t)) in
  match found with
  | None => throw (InstanceNotFoundError ("Instance not found: " +:+ instanceId))
  | Some instance =>
      if negb (needsInteractiveSignIn (in_accountType instance))
      then throw (InstanceAccountNotInteractiveError
                    ("Instance " +:+ instanceId +:+ " uses a "
                       +:+ account_text (in_accountType instance) +:+ " account, " +:+ what))
      else ret instance
  end.

(** The machine, its key and its trusted fingerprint, in the order in which the
    code asks for them. *)
Definition sign_in_host (scope hostId : string) : M W (HostRow * SshKeyRow * string) :=
  let* host := query (fun t => HostRepository.findById scope hostId (hosts t)) in
  let not_ready := InstanceHostNotFoundError ("Host " +:+ hostId +:+ " is not ready for authentication") in
  match host with
  | None => throw not_ready
  | Some h =>
      match truthy (sshKeyId (host_address h)), truthy (hostKeyFingerprint (host_trust h)) with
      | Some keyOf, Some fingerprint =>
          let* key := query (findSshKey scope keyOf) in
          match key with
          | None => throw (InstanceHostNotFoundError ("Ssh key not found for host " +:+ hostId))
          | Some k =>
              if hostMeets h runtime then ret (h, k, fingerprint)
              else throw (InstanceHostNotFoundError ("Host " +:+ hostId +:+ " is not set up to run bots"))
          end
      | _, _ => throw not_ready
      end
  end.

(** The connection of a sign-in, with the key opened. *)
Definition open_for_sign_in (machine : HostRow * SshKeyRow * string) (transport : HostTransport W)
    : M W unit :=
  let '(host, key, fingerprint) := machine in
  let a := host_address host in
  let* privateKey := lift (open_sealed deps (key_privateKeyEncrypted key) (key_privateKeyKeyId key)) in
  connectForSignIn transport
    (MkConnect (hostname a) (port a) (username a) privateKey fingerprint AUTH_SESSION_TIMEOUT_MS).

Definition release_auth (scope instanceId attemptId : string) : M W unit :=
  on_instances (InstanceRepository.releaseAuthClaim scope instanceId attemptId) ;;; ret tt.

(** *** Signing in *)

Definition take_auth_claim (scope instanceId attemptId : string) : M W unit :=
  let* w := get in
  let* claimed :=
    on_instances (InstanceRepository.claimForAuth scope instanceId attemptId (clock w) (clock w)) in
  match claimed with
  | Some _ => ret tt
  | None =>
      let* present := query (fun t => InstanceRepository.findById scope instanceId (instances t)) in
      match present with
      | None => throw (InstanceNotFoundError ("Instance not found: " +:+ instanceId))
      | Some row =>
          if isAuthClaimStale (authClaimedAt (in_claims row)) (clock w) then throw (busy instanceId)
          else throw (InstanceAuthInProgressError
                        ("Instance " +:+ instanceId
                           +:+ " is already being authenticated; the claim has not gone stale"))
      end
  end.

Definition no_code (instanceId : string) : thrown :=
  InstanceSignInNoDeviceCodeError
    ("The client did not present a device code for instance " +:+ instanceId
       +:+ " within the polling window").

(** The transaction that ends a sign-in that has a code to show. *)
Definition record_sign_in (ctx : ActorContext) (instance : InstanceRow) (instanceId auditId : string)
    : M W unit :=
  withTransaction (
    on_instances (InstanceRepository.update (scopeOf ctx) instanceId
                    (MkInstancePatch None (Some st_needs_auth) None None None)) ;;;
    record_audit (scopeOf ctx) auditId
      (by_actor ctx "instance.authenticate" instanceId
         [("minecraftAccount", in_minecraftAccount instance)]) ;;;
    ret tt).

(** The polling of the client's log, with [wait] for [setTimeout]. *)
Fixpoint poll_code (ctx : ActorContext) (instance : InstanceRow) (instanceId auditId log : string)
    (wait : Z -> M W unit) (interval : Z) (transport : HostTransport W) (left : nat)
    : M (bool * W) DeviceCodeChallenge :=
  match left with
  | O => throw (no_code instanceId)
  | S left' =>
      let* read := claimedExec transport ("cat " +:+ log +:+ " 2>/dev/null || true")
                     AUTH_SESSION_TIMEOUT_MS None in
      let* s := get in
      match extractChallenge (stdout read) (clock s.2) with
      | Some challenge => on_snd (record_sign_in ctx instance instanceId auditId) ;;; ret challenge
      | None =>
          match left' with O => ret tt | S _ => on_snd (wait interval) end ;;;
          poll_code ctx instance instanceId auditId log wait interval transport left'
      end
  end.

(** What a sign-in does on the machine, connected to it. *)
Definition sign_in_on_machine (ctx : ActorContext) (instance : InstanceRow) (instanceId auditId : string)
    (wait : Z -> M W unit) (polling : AuthPolling) (transport : HostTransport W)
    : M (bool * W) DeviceCodeChallenge :=
  let* unit := lift (unitName (in_id instance)) in
  claimedExec transport (systemctl ("stop " +:+ shellQuote unit) +:+ " || true") UNIT_STOP_TIMEOUT_MS None ;;;
  on_snd (forgetActive (in_id instance)) ;;;
  let* dir := lift (instanceDir (in_id instance)) in
  let* stopSignIn := lift (stopAuthCommand (in_id instance)) in
  claimedExec transport stopSignIn AUTH_SESSION_TIMEOUT_MS None ;;;
  let* startSignIn := lift (startAuthCommand (in_id instance)) in
  let* started := claimedExec transport startSignIn AUTH_START_TIMEOUT_MS None in
  if negb (exitCode started =? 0)
  then throw (InstanceSignInDidNotStartError
                ("The sign-in unit for instance " +:+ instanceId +:+ " did not start: "
                   +:+ trim (stderr started)))
  else poll_code ctx instance instanceId auditId (dir +:+ "/auth.log") wait (intervalMs polling) transport
         (attempts polling).

(** The [try] of a sign-in: [opening] connects, and what fails afterwards also
    stops the sign-in unit.  The claim is kept while a command may be running. *)
Definition signing_in {A} (scope instanceId attemptId id : string) (transport : HostTransport W)
    (opening : M W unit) (body : M (bool * W) A) : M W A := fun w =>
  match opening w with
  | (Throw error, w1) => (release_auth scope instanceId attemptId ;;; throw error) w1
  | (Ok _, w1) =>
      match body (false, w1) with
      | (Ok a, (_, w2)) => (Ok a, w2)
      | (Throw error, s) =>
          match (let* command := lift (stopAuthCommand id) in
                 swallow (claimedExec transport command AUTH_SESSION_TIMEOUT_MS None ;;; ret tt)) s with
          | (Throw refused, (_, w2)) => (Throw refused, w2)
          | (Ok _, (inFlight, w2)) =>
              if inFlight then (Throw error, w2)
              else (release_auth scope instanceId attemptId ;;; throw error) w2
          end
      end
  end.

Definition beginAuthentication (ctx : ActorContext) (instanceId attemptId auditId : string)
    (wait : Z -> M W unit) (polling : AuthPolling) : M W DeviceCodeChallenge :=
  let scope := scopeOf ctx in
  let* instance := interactive_instance scope instanceId "which signs in without a device code" in
  take_auth_claim scope instanceId attemptId ;;;
  let* machine :=
    try_catch (sign_in_host scope (in_hostId instance))
      (fun error => release_auth scope instanceId attemptId ;;; throw error) in
  let* transport := createTransport deps in
  closing here transport
    (signing_in scope instanceId attemptId (in_id instance) transport
       (open_for_sign_in machine transport)
       (sign_in_on_machine ctx instance instanceId auditId wait polling transport)).

(** *** Completing and cancelling *)

Definition stopAuthSession (transport : HostTransport W) (instanceId : string) : M W unit :=
  let* command := lift (stopAuthCommand instanceId) in
  tr_exec transport command AUTH_SESSION_TIMEOUT_MS None ;;; ret tt.

Definition remove_log (transport : HostTransport W) (dir : string) : M W unit :=
  tr_exec transport ("rm -f " +:+ dir +:+ "/auth.log") AUTH_SESSION_TIMEOUT_MS None ;;; ret tt.

(** What the client's session says: [Some] answer, or [None] to go on. *)
Definition probe_answer (instance : InstanceRow) (instanceId : string) (code : Z)
    : result (option AuthenticationState) :=
  if code =? SESSION_CACHE_OTHER_ACCOUNT_EXIT
  then Throw (InstanceSignInOtherAccountError
                ("Instance " +:+ instanceId +:+ " was signed in with a Microsoft account other than "
                   +:+ in_minecraftAccount instance))
  else if (code =? SESSION_CACHE_ABSENT_EXIT) || (code =? SESSION_CACHE_NO_STATE_DIR_EXIT)
       then Ok (Some (MkAuthState false (in_status instance)))
  else if negb (code =? 0)
       then Throw (HostAnswerUnreadableError
                     ("Could not read whether instance " +:+ in_id instance +:+ " has signed in"))
  else if negb (in_status instance ≡? st_needs_auth)
       then Ok (Some (MkAuthState true (in_status instance)))
  else Ok None.

Definition complete_on_machine (instance : InstanceRow) (instanceId dir : string)
    (transport : HostTransport W) : M W (option AuthenticationState) :=
  let* command := lift (sessionCacheProbeCommand (in_id instance) (in_minecraftAccount instance)) in
  let* probe := tr_exec transport command AUTH_SESSION_TIMEOUT_MS None in
  let* answer := lift (probe_answer instance instanceId (exitCode probe)) in
  match answer with
  | Some state => ret (Some state)
  | None => stopAuthSession transport (in_id instance) ;;; remove_log transport dir ;;; ret None
  end.

(** Gives back the claim the bot had when the request began. *)
Definition release_found (scope instanceId : string) (instance : InstanceRow) : M W unit :=
  match authClaimId (in_claims instance) with
  | Some attemptId => release_auth scope instanceId attemptId
  | None => ret tt
  end.

Definition record_phase (ctx : ActorContext) (instance : InstanceRow) (instanceId auditId phase : string)
    : M W unit :=
  record_audit (scopeOf ctx) auditId
    (by_actor ctx "instance.authenticate" instanceId
       [("minecraftAccount", in_minecraftAccount instance); ("phase", phase)]) ;;; ret tt.

Definition completeAuthentication (ctx : ActorContext) (instanceId auditId : string)
    : M W AuthenticationState :=
  let scope := scopeOf ctx in
  let* instance := interactive_instance scope instanceId "which signs in without a device code" in
  let* machine := sign_in_host scope (in_hostId instance) in
  let* dir := lift (instanceDir (in_id instance)) in
  let* transport := createTransport deps in
  let* answer :=
    closing here transport
      (open_for_sign_in machine transport ;;; complete_on_machine instance instanceId dir transport) in
  match answer with
  | Some state => ret state
  | None =>
      withTransaction (
        on_instances (InstanceRepository.update scope instanceId
                        (MkInstancePatch None (Some st_stopped) None None None)) ;;;
        record_phase ctx instance instanceId auditId "complete") ;;;
      release_found scope instanceId instance ;;;
      ret (MkAuthState true st_stopped)
  end.

Definition cancelAuthentication (ctx : ActorContext) (instanceId auditId : string)
    : M W AuthenticationState :=
  let scope := scopeOf ctx in
  let* instance := interactive_instance scope instanceId "which has no sign-in to cancel" in
  let* machine := sign_in_host scope (in_hostId instance) in
  let* transport := createTransport deps in
  closing here transport
    (open_for_sign_in machine transport ;;;
     stopAuthSession transport (in_id instance) ;;;
     let* dir := lift (instanceDir (in_id instance)) in
     remove_log transport dir) ;;;
  release_found scope instanceId instance ;;;
  withTransaction (record_phase ctx instance instanceId auditId "cancelled") ;;;
  ret (MkAuthState false (in_status instance)).

(** The requests of the controller, which a member must be allowed to make. *)
Definition authenticate (ctx : ActorContext) (instanceId attemptId auditId : string)
    (wait : Z -> M W unit) : M W DeviceCodeChallenge :=
  lift (requireCapabilityFor (ctx_role ctx) instance_authenticate) ;;;
  beginAuthentication ctx instanceId attemptId auditId wait default_polling.

Definition complete_sign_in (ctx : ActorContext) (instanceId auditId : string) : M W AuthenticationState :=
  lift (requireCapabilityFor (ctx_role ctx) instance_authenticate) ;;;
  completeAuthentication ctx instanceId auditId.

Definition cancel_sign_in (ctx : ActorContext) (instanceId auditId : string) : M W AuthenticationState :=
  lift (requireCapabilityFor (ctx_role ctx) instance_authenticate) ;;;
  cancelAuthentication ctx instanceId auditId.
End authentication.
