(* ===== verification/SignIn.v ===== *)
(** What a sign-in leaves behind.

    Theorems on the requests of [Authentication]: a sign-in that fails gives
    its claim back and one that succeeds shows a code and an address of the
    right form.  Two theorems evaluate what the requests leave wrong: a bot
    that was stopped for a sign-in that failed, and one that was started while
    another member's sign-in was being completed. *)

From S2P Require Import Prelude Tables Calendar Observer Shell Control ClientSettings ClientConfig Access HostStore TaskStore InstanceStore InstanceController InstanceWork InstanceSafety Authentication.

(** ** The code that is shown *)

(** Four to six letters and digits, perhaps a hyphen, and four to six more. *)
Definition is_code (code : string) : Prop :=
  exists first dash second, code = first +:+ dash +:+ second
    /\ chars_all code_char first = true /\ (4 <= String.length first <= 6)%nat
    /\ (dash = "" \/ dash = "-")
    /\ chars_all code_char second = true /\ (4 <= String.length second <= 6)%nat.

(** An address of the scheme https that ends at microsoft.com/link. *)
Definition is_uri (uri : string) : Prop :=
  exists host, uri = URI_START +:+ host +:+ URI_END /\ chars_all uri_char host = true.

Lemma code_run_spec n : forall value run rest,
  code_run n value = Some (run, rest) ->
  value = run +:+ rest /\ chars_all code_char run = true /\ String.length run = n.
Proof.
  induction n as [|n IH]; intros value run rest H; simpl in H.
  - injection H as <- <-. done.
  - destruct value as [|c value]; [done|]. destruct (code_char c) eqn:Ec; [|done].
    destruct (code_run n value) as [[run' rest']|] eqn:E; [|done]. injection H as <- <-.
    destruct (IH _ _ _ E) as (-> & Hrun & Hlen). split_and!; simpl.
    + done.
    + by rewrite Ec.
    + by rewrite Hlen.
Qed.

Lemma first_of_spec {A} ns (try : nat -> option A) a :
  first_of ns try = Some a -> exists n, In n ns /\ try n = Some a.
Proof.
  induction ns as [|n ns IH]; [done|]. simpl. unfold or_else. destruct (try n) eqn:E.
  - intros [= ->]. exists n. split; [by left|done].
  - intros H. destruct (IH H) as (m & Hm & Ha). exists m. split; [by right|done].
Qed.

Lemma code_counts n : In n CODE_COUNTS -> (4 <= n <= 6)%nat.
Proof. simpl. lia. Qed.

Lemma code_at_spec value code : code_at value = Some code -> is_code code.
Proof.
  intros H. apply first_of_spec in H as (n & Hn & H). apply code_counts in Hn.
  destruct (code_run n value) as [[first rest]|] eqn:E1; [|done].
  apply code_run_spec in E1 as (_ & Hfirst & Hlen1).
  set (split := match rest with EmptyString => _ | String c rest' => _ end) in H.
  assert (Hdash : split.1 = "" \/ split.1 = "-").
  { unfold split. destruct rest as [|c rest']; [by left|]. destruct (c ≡? "-"%char); [by right|by left]. }
  destruct split as [dash rest2]. simpl in Hdash.
  apply first_of_spec in H as (m & Hm & H). apply code_counts in Hm.
  destruct (code_run m rest2) as [[second rest3]|] eqn:E2; [|done].
  apply code_run_spec in E2 as (_ & Hsecond & Hlen2).
  destruct (word_ends rest3); [|done]. injection H as <-.
  exists first, dash, second. split_and!; try done; lia.
Qed.

Lemma leftmost_spec {A} (at_start : string -> option A) value a :
  leftmost at_start value = Some a -> exists before rest, value = before +:+ rest /\ at_start rest = Some a.
Proof.
  revert a. induction value as [|c value IH]; intros a H; simpl in H.
  - exists "", "". destruct (at_start ""); [|done]. by injection H as ->.
  - destruct (at_start (String c value)) eqn:E.
    + exists "", (String c value). by injection H as ->.
    + destruct (IH _ H) as (before & rest & -> & Ha). by exists (String c before), rest.
Qed.

Lemma uri_rest_spec value : forall run,
  uri_rest value = Some run -> exists host, run = host +:+ URI_END /\ chars_all uri_char host = true.
Proof.
  induction value as [|c value IH]; intros run H.
  - simpl in H. done.
  - cbn [uri_rest] in H.
    assert (Hhere : (if startsWith URI_END (String c value) then Some URI_END else None) = Some run ->
      exists host, run = host +:+ URI_END /\ chars_all uri_char host = true).
    { destruct (startsWith _ _); [|done]. intros [= <-]. by exists "". }
    destruct (uri_char c) eqn:Ec; [|by apply Hhere].
    destruct (uri_rest value) as [run'|]; [|by apply Hhere]. injection H as <-.
    destruct (IH _ eq_refl) as (host & -> & Hh). exists (String c host). split; [done|].
    simpl. by rewrite Ec.
Qed.

Lemma challenge_spec output now challenge :
  extractChallenge output now = Some challenge ->
  is_code (userCode challenge) /\ is_uri (verificationUri challenge).
Proof.
  unfold extractChallenge. destruct (DEVICE_CODE_PATTERN output) as [code|] eqn:Ec; [|done].
  destruct (VERIFICATION_URI_PATTERN output) as [uri|] eqn:Eu; [|done]. intros [= <-]. simpl. split.
  - apply leftmost_spec in Ec as (_ & rest & _ & E). destruct (startsWith _ _); [|done].
    by eapply code_at_spec.
  - apply leftmost_spec in Eu as (_ & rest & _ & E). destruct (startsWith _ _); [|done].
    destruct (uri_rest _) as [run|] eqn:Er; [|done]. injection E as <-.
    apply uri_rest_spec in Er as (host & -> & Hh). by exists host.
Qed.

(** ** How a sign-in ends *)

Section sign_in.
Context {X : Type} (deps : InstanceControllerDeps X).
Context (scope instanceId attemptId : string).
Abbreviation W := (World X).

(** Nobody is signing the bot in under this attempt. *)
Definition not_signing (w : W) : Prop :=
  forall r, In r (instances (fleet w)) -> InstanceRepository.owned scope instanceId r = true ->
    authClaimId (in_claims r) <> Some attemptId.

(** Connections answer, and nobody else uses the id of the attempt while one is
    being closed. *)
Definition sound_connections : Prop :=
  forall w, exists tr, createTransport deps w = (Ok tr, w) /\ answering tr
    /\ forall w', not_signing w' -> not_signing (tr_close tr w').2.

Lemma released_auth w : not_signing (release_auth scope instanceId attemptId w).2.
Proof.
  unfold release_auth, bind, on_instances, on_fleet, stmt, ret. simpl.
  intros r Hr Ho. apply in_update_where in Hr as (r0 & Hr0 & ->).
  destruct (InstanceRepository.auth_held scope instanceId attemptId r0) eqn:E; [done|].
  unfold InstanceRepository.auth_held in E. rewrite Ho in E. simpl in E. by tests.
Qed.

Lemma release_throws {A} (P : W -> Prop) error (Q : A -> W -> Prop) :
  triple P (release_auth scope instanceId attemptId ;;; throw error) Q (fun _ => not_signing).
Proof. intros w _. apply released_auth. Qed.

Lemma not_signing_interactive what :
  triple not_signing (interactive_instance scope instanceId what) (fun _ => not_signing) (fun _ => not_signing).
Proof.
  intros w Hw. unfold interactive_instance, bind, query, gets, throw, ret.
  destruct (InstanceRepository.findById _ _ _); [|done]. by destruct (negb _).
Qed.

Lemma not_signing_refused :
  triple not_signing (take_auth_claim scope instanceId attemptId) (fun _ _ => True) (fun _ => not_signing).
Proof.
  intros w Hw. unfold take_auth_claim, bind, get, query, gets, on_instances, on_fleet, stmt, throw, ret.
  simpl. set (p := fun r => _ && _ && _). set (f := InstanceRepository.set_auth _ _).
  destruct (updated p f (instances (fleet w))) as [|r l] eqn:E; [|done]. simpl.
  rewrite update_where_none.
  - destruct w as [t k a x]. destruct t. simpl in *. destruct (InstanceRepository.findById _ _ _); [|done].
    by destruct (isAuthClaimStale _ _).
  - intros r Hr. destruct (p r) eqn:Ep; [|done]. exfalso.
    assert (Hin : In (f r) (updated p f (instances (fleet w)))) by (apply in_map, filter_In; done).
    by rewrite E in Hin.
Qed.

Lemma anything {S A} (m : M S A) : triple (fun _ => True) m (fun _ _ => True) (fun _ _ => True).
Proof. intros s _. by destruct (m s) as [[a|e] s']. Qed.

Lemma code_shown ctx instance auditId log wait interval tr left :
  triple (fun _ : bool * W => True)
    (poll_code ctx instance instanceId auditId log wait interval tr left)
    (fun challenge _ => is_code (userCode challenge) /\ is_uri (verificationUri challenge)) (fun _ _ => True).
Proof.
  induction left as [|left IH]; simpl; [done|].
  eapply triple_bind; [apply anything|]. intros read. eapply triple_bind; [apply anything|]. intros s.
  destruct (extractChallenge _ _) as [challenge|] eqn:E.
  - apply challenge_spec in E. eapply triple_bind; [apply anything|]. intros u s2 _. exact E.
  - eapply triple_bind; [apply anything|]. intros u. exact IH.
Qed.

Lemma sign_in_shows ctx instance auditId wait polling tr :
  triple (fun _ : bool * W => True) (sign_in_on_machine ctx instance instanceId auditId wait polling tr)
    (fun challenge _ => is_code (userCode challenge) /\ is_uri (verificationUri challenge)) (fun _ _ => True).
Proof.
  unfold sign_in_on_machine.
  do 8 (eapply triple_bind; [apply anything|intros ?]).
  intros s _. destruct (negb (exitCode a6 =? 0)); [done|]. by apply code_shown.
Qed.

Lemma landed_poll ctx instance auditId log wait interval tr left :
  answering tr ->
  preserves (landed (X := X)) (poll_code ctx instance instanceId auditId log wait interval tr left).
Proof. intros Htr. induction left as [|left IH]; simpl; landed_steps; try apply IH. Qed.

Lemma landed_sign_in ctx instance auditId wait polling tr :
  answering tr ->
  preserves (landed (X := X)) (sign_in_on_machine ctx instance instanceId auditId wait polling tr).
Proof.
  intros Htr. unfold sign_in_on_machine. landed_steps; try by apply landed_poll.
Qed.

Lemma signing_in_ends {A} id tr opening (body : M (bool * W) A) Q :
  validateInstanceId id = Ok id -> answering tr -> preserves landed body ->
  triple (fun _ => True) body (fun a _ => Q a) (fun _ _ => True) ->
  triple (fun _ => True) (signing_in scope instanceId attemptId id tr opening body)
    (fun a _ => Q a) (fun _ => not_signing).
Proof.
  intros Hid Htr Hland Hbody w _. unfold signing_in.
  destruct (opening w) as [[[]|e] w1]; [|apply released_auth].
  specialize (Hland (false, w1) eq_refl). specialize (Hbody (false, w1) I).
  destruct (body (false, w1)) as [[a|e] s]; [by destruct s|].
  unfold stopAuthCommand, authUnitName. rewrite Hid. unfold bind at 1, lift. cbn [rbind].
  set (stop := claimedExec tr _ _ _ ;;; ret tt).
  destruct (swallow_total stop s) as [s2 E2]. rewrite E2.
  assert (Hs2 : landed s2).
  { assert (Hp : preserves (landed (X := X)) (swallow stop)).
    { apply preserves_swallow. unfold stop. landed_steps. }
    specialize (Hp s Hland). by rewrite E2 in Hp. }
  destruct s2 as [f w2]. unfold landed in Hs2. cbn [fst] in Hs2. subst f. apply released_auth.
Qed.
End sign_in.

Section sign_in_end.
Context {X : Type} (deps : InstanceControllerDeps X) (ctx : ActorContext).
Context (instanceId attemptId auditId : string).
Abbreviation scope := (ctx_organizationId ctx).

(** C37: as long as every command it gives is answered, a sign-in ends in one
    of two ways.  It shows a code of four to six and four to six letters and
    digits and an address of microsoft.com, both read from what the client
    printed; or it fails and the bot is no longer claimed for it, whichever of
    its steps failed: reaching the machine, its key, the unit, the client that
    shows no code, or the tables.  A command that times out or is cut off may
    still be running; the claim is kept then, and [sound_connections] leaves
    that case out. *)
Theorem sign_in_shows_a_code_or_gives_its_claim_back wait polling w
    (Hid : validateInstanceId instanceId = Ok instanceId)
    (Hmachines : sound_connections deps scope instanceId attemptId)
    (Hfresh : not_signing scope instanceId attemptId w) :
  match beginAuthentication deps ctx instanceId attemptId auditId wait polling w with
  | (Ok challenge, _) => is_code (userCode challenge) /\ is_uri (verificationUri challenge)
  | (Throw _, w') => not_signing scope instanceId attemptId w'
  end.
Proof.
  revert w Hfresh.
  change (triple (not_signing scope instanceId attemptId)
            (beginAuthentication deps ctx instanceId attemptId auditId wait polling)
            (fun c _ => is_code (userCode c) /\ is_uri (verificationUri c))
            (fun _ => not_signing scope instanceId attemptId)).
  unfold beginAuthentication. cbv zeta.
  eapply triple_bind with (R := fun r w => not_signing scope instanceId attemptId w /\ in_id r = instanceId).
  { intros w Hw. pose proof (not_signing_interactive scope instanceId attemptId
                               "which signs in without a device code" w Hw) as H.
    unfold scopeOf. destruct (interactive_instance _ _ _ w) as [[r|e] w1] eqn:E; [|done]. split; [done|].
    unfold interactive_instance, bind, query, gets, throw, ret in E.
    destruct (InstanceRepository.findById _ _ _) as [r'|] eqn:Ef; [|done].
    destruct (negb _); [done|]. injection E as <- _.
    apply select_first_spec in Ef as [_ Ho]. unfold InstanceRepository.owned in Ho. by tests. }
  intros instance. eapply triple_bind with (R := fun _ _ => in_id instance = instanceId).
  { intros w [Hw Hi]. pose proof (not_signing_refused scope instanceId attemptId w Hw) as H.
    unfold scopeOf. by destruct (take_auth_claim _ _ _ w) as [[[]|e] w1]. }
  intros _. intros w Hi. rewrite Hi. revert w Hi.
  eapply triple_bind with (R := fun _ _ => True).
  { eapply triple_catch with (R := fun _ _ => True).
    - intros w _. by destruct (sign_in_host _ _ w) as [[a|e] w1].
    - intros e. apply release_throws. }
  intros machine w _. destruct (Hmachines w) as (tr & Etr & Hanswer & Hclose).
  unfold bind. rewrite Etr. unfold closing, try_finally, here.
  pose proof (signing_in_ends scope instanceId attemptId instanceId tr
    (open_for_sign_in deps machine tr)
    (sign_in_on_machine ctx instance instanceId auditId wait polling tr)
    (fun c => is_code (userCode c) /\ is_uri (verificationUri c)) Hid Hanswer) as H.
  specialize (H (landed_sign_in _ ctx instance auditId wait polling tr Hanswer)
                (sign_in_shows _ ctx instance auditId wait polling tr) w I).
  unfold scopeOf. destruct (signing_in _ _ _ _ _ _ _ w) as [r w1].
  destruct (swallow (tr_close tr) w1) as [r2 w2] eqn:Ec. unfold swallow, try_catch, ret in Ec.
  specialize (Hclose w1). destruct (tr_close tr w1) as [r3 w3].
  assert (Hr2 : r2 = Ok tt /\ w2 = w3) by (destruct r3 as [[]|e]; by injection Ec as <- <-).
  destruct Hr2 as [-> ->]. destruct r as [c|e]; [done|]. by apply Hclose.
Qed.
End sign_in_end.

(** ** A bot and a machine that keeps what was run on it *)

Abbreviation Traced := (World (list string)).

(** A machine that runs every command and prints what [print] says. *)
Definition traced_transport (print : string -> option string -> string) : HostTransport Traced :=
  MkTransport Traced (fun _ => ret tt)
    (fun command _ stdin w =>
       (Ok (MkExec 0 (print command stdin) ""),
        MkWorld (fleet w) (clock w + 500) (activeReadAt w) (elsewhere w ++ [command])))
    (fun _ _ => ret false) (ret tt).

Definition traced_deps (transport : HostTransport Traced) : InstanceControllerDeps (list string) :=
  MkInstanceDeps _ (ret transport) (seal example_deps) (open_sealed example_deps) (fun _ => None)
    (fun _ => None) (fun text => text) (fun _ => true) (fun _ _ => true) (fun _ => true) (fun _ => None)
    (fun _ => Some (defaultInstanceConfig microsoft "miner@example.com" "mc.example" "1.20.1")) (fun _ => "{}").

Definition microsoft_bot (status : InstanceStatus) (claims : InstanceClaims) : InstanceRow :=
  MkInstance "bot" "org" "host" "Miner" microsoft "miner@example.com" None status None claims 33333 None 0.

Definition traced_world (bot : InstanceRow) : Traced :=
  MkWorld
    (MkFleet [example_host] [MkSshKey "ssh-key" "org" "sealed" "key"] [bot]
       [MkInstanceConfig "c1" "org" "bot" 1 "{}" None "system"] [] [] no_tables []) 1000 [] [].

Definition owner_actor : ActorContext := MkActor "org" "member" "Ann" owner.

Definition client_log : string :=
  "To sign in, open https://www.microsoft.com/link and enter the code: 7Q4K-M2XP to go on".

Lemma sign_in_shows_a_code_or_gives_its_claim_back_witness :
  let world := traced_world (microsoft_bot st_stopped no_claims) in
  let printing := traced_deps (traced_transport (fun _ _ => client_log)) in
  let silent := traced_deps (traced_transport (fun _ _ => "")) in
  let begin deps := beginAuthentication deps owner_actor "bot" "attempt" "a" (fun _ => ret tt) default_polling world in
  (exists challenge w', begin printing = (Ok challenge, w')
     /\ is_code (userCode challenge) /\ is_uri (verificationUri challenge))
  /\ (exists e w', begin silent = (Throw e, w') /\ not_signing "org" "bot" "attempt" w').
Proof.
  cbv zeta. set (world := traced_world _).
  assert (Hfresh : not_signing "org" "bot" "attempt" world) by (intros r [<-|[]] _; discriminate).
  assert (Hsound : forall print, sound_connections (traced_deps (traced_transport print)) "org" "bot" "attempt").
  { intros print w. eexists. split; [reflexivity|]. split; [|by intros w' Hw']. intros ? ? ? ? ? [=]. }
  pose proof (sign_in_shows_a_code_or_gives_its_claim_back
                (traced_deps (traced_transport (fun _ _ => client_log))) owner_actor "bot" "attempt" "a"
                (fun _ => ret tt) default_polling world eq_refl (Hsound _) Hfresh) as H1.
  pose proof (sign_in_shows_a_code_or_gives_its_claim_back
                (traced_deps (traced_transport (fun _ _ => ""))) owner_actor "bot" "attempt" "a"
                (fun _ => ret tt) default_polling world eq_refl (Hsound _) Hfresh) as H2.
  split.
  - destruct (beginAuthentication _ _ _ _ _ _ _ _) as [[c|e] w'] eqn:E.
    + exists c, w'. split; [reflexivity|exact H1].
    + vm_compute in E. discriminate E.
  - destruct (beginAuthentication _ _ _ _ _ _ _ world) as [[c|e] w'] eqn:E in H2 |- *.
    + vm_compute in E. discriminate E.
    + exists e, w'. split; [reflexivity|exact H2].
Defined.

(** a sign-in stops the bot before anything else and does not start it
    again when it fails: a running bot whose client shows no code is stopped on
    its machine and still said to be running. *)
Theorem failed_sign_in_leaves_the_bot_said_to_run :
  let world := traced_world (microsoft_bot st_running no_claims) in
  let silent := traced_deps (traced_transport (fun _ _ => "")) in
  exists commands w',
    beginAuthentication silent owner_actor "bot" "attempt" "a" (fun _ => ret tt) default_polling world
      = (Throw (no_code "bot"), w')
    /\ instances (fleet w') = [microsoft_bot st_running no_claims]
    /\ elsewhere w' = (systemctl "stop 'open-mcc@bot'" +:+ " || true") :: commands
    /\ Forall (fun command => includes "start 'open-mcc@bot'" command = false) commands.
Proof. eexists _, _. split; [vm_compute; reflexivity|]. by vm_compute; repeat constructor. Qed.

(** What the machine prints to the commands of a start. *)
Definition started_output (command : string) (stdin : option string) : string :=
  match stdin with
  | Some _ => "written" +:+ newline
  | None => "ActiveState=active" +:+ newline +:+ "Result=success" +:+ newline +:+ "SignIn=inactive"
  end.

Definition other_deps : InstanceControllerDeps (list string) := traced_deps (traced_transport started_output).
Definition other_actor : ActorContext := MkActor "org" "other" "Bob" owner.

(** Another member completes the same sign-in and starts the bot. *)
Definition other_requests (w : Traced) : Traced :=
  let w1 := (completeAuthentication other_deps other_actor "bot" "a1" w).2 in
  (start other_deps other_actor "bot" "0123456789abcdef0123456789abcdef" "claim" "a2" w1).2.

(** A machine on which other members' requests run while a log is removed. *)
Definition slow_transport : HostTransport Traced :=
  let plain := traced_transport (fun _ _ => "") in
  MkTransport Traced (tr_connect plain)
    (fun command timeoutMs stdin w =>
       tr_exec plain command timeoutMs stdin
         (if startsWith "rm -f " command then other_requests w else w))
    (tr_canForward plain) (tr_close plain).

Definition waiting_bot : InstanceRow :=
  microsoft_bot st_needs_auth (MkClaims (Some "attempt") (Some 900) None None).

(** completing a sign-in writes down that the bot is stopped, whatever has
    become of it: when another member completes the sign-in and starts the bot
    while Ann's request waits for the machine, both succeed, Bob's start is
    recorded, and Ann's request then marks the running bot as stopped without
    stopping it. *)
Theorem completion_overwrites_a_start :
  let world := traced_world waiting_bot in
  exists before pub during w',
    start other_deps other_actor "bot" "0123456789abcdef0123456789abcdef" "claim" "a2"
      (completeAuthentication other_deps other_actor "bot" "a1" before).2 = (Ok pub, during)
    /\ pub_status pub = st_running /\ map in_status (instances (fleet during)) = [st_running]
    /\ completeAuthentication (traced_deps slow_transport) owner_actor "bot" "a" world
       = (Ok (MkAuthState true st_stopped), w')
    /\ elsewhere w' = elsewhere during ++ ["rm -f " +:+ INSTANCES_ROOT +:+ "/instances/bot/auth.log"]
    /\ map in_status (instances (fleet w')) = [st_stopped]
    /\ map ae_action (audits (fleet w'))
       = ["instance.authenticate"; "instance.start"; "instance.authenticate"].
Proof.
  cbv zeta.
  exists (MkWorld (fleet (traced_world waiting_bot)) 2000 []
     [match sessionCacheProbeCommand "bot" "miner@example.com" with Ok c => c | Throw _ => "" end;
      match stopAuthCommand "bot" with Ok c => c | Throw _ => "" end]).
  eexists _, _, _. split; [vm_compute; reflexivity|]. split; [reflexivity|]. split; [reflexivity|].
  split; [vm_compute; reflexivity|]. by vm_compute.
Qed.
