(* ===== verification/MachineFacts.v ===== *)
(** What the manager asks of a machine before it sets it up, and what it puts
    there.

    [packages/core/src/host/podman-facts.ts], [runtime-image.ts],
    [mcc-release.ts], [unit-template.ts], the rest of [profile.ts], and
    [packages/contracts/src/host-account.ts]. *)

From S2P Require Import Prelude Calendar Journal Observer HealthPoller Shell Control ClientSettings HostStore.

(** A command as it is written, with a backquote for each double quote. *)
Fixpoint sh (text : string) : string :=
  match text with
  | EmptyString => EmptyString
  | String c rest => (if c ≡? "`"%char then QUOTE else String c EmptyString) +:+ sh rest
  end.

Definition lines_of_script (lines : list string) : string := join_with newline lines.

(** ** Podman and its storage *)

Record PodmanVersion := MkVersion { major : Z; minor : Z; patch : Z }.

Definition PODMAN_FLOOR : PodmanVersion := MkVersion 4 3 1.

(** [[0-9]+], and the number it says. *)
Definition version_number (value : string) : option (Z * string) :=
  let (digits, rest) := span is_digit value in
  let? n := numberOfDigits digits in Some (n, rest).

Definition after (text value : string) : option string :=
  if startsWith text value then Some (slice_from (String.length text) value) else None.

(** A suffix of a version, as in 5.0.0-dev, up to the end. *)
Definition version_suffix (value : string) : bool :=
  let sign c := (c ≡? "-"%char) || (c ≡? "+"%char) || (c ≡? "~"%char) in
  match value with
  | EmptyString => true
  | String c rest =>
      sign c && chars_all (fun c => is_digit c || is_letter c || sign c || (c ≡? "."%char)) rest
  end.

Definition parsePodmanVersion (output : string) : option PodmanVersion :=
  let? rest := after "podman version " (trim output) in
  let? (x, rest) := version_number rest in
  let? rest := after "." rest in
  let? (y, rest) := version_number rest in
  let? rest := after "." rest in
  let? (z, rest) := version_number rest in
  if version_suffix rest then Some (MkVersion x y z) else None.

Definition meetsPodmanFloor (v : PodmanVersion) : bool :=
  if negb (major v =? major PODMAN_FLOOR) then major PODMAN_FLOOR <? major v
  else if negb (minor v =? minor PODMAN_FLOOR) then minor PODMAN_FLOOR <? minor v
  else patch PODMAN_FLOOR <=? patch v.

Definition formatPodmanVersion (v : PodmanVersion) : string :=
  decimal (major v) +:+ "." +:+ decimal (minor v) +:+ "." +:+ decimal (patch v).

Definition stack_text (stack : NetworkStack) : string :=
  match stack with slirp4netns => "slirp4netns" | pasta => "pasta" end.

Definition NETWORK_STACKS : list NetworkStack := [slirp4netns; pasta].

Definition requiredStackFor (major : Z) : NetworkStack := if 5 <=? major then pasta else slirp4netns.

(** As [printf] is given it: with [\n] for the line ends. *)
Definition STORAGE_CONF_FORMAT : string := sh "[storage]\ndriver = `overlay`\n".

Definition STORAGE_OVERRIDE_VARIABLES : list string :=
  ["XDG_CONFIG_HOME"; "XDG_DATA_HOME"; "CONTAINERS_STORAGE_CONF"].

Definition STORAGE_OVERRIDES : list string := STORAGE_OVERRIDE_VARIABLES ++ ["rootless_storage_path"].

Definition SYSTEM_STORAGE_CONF : string := "/etc/containers/storage.conf".

Definition storageOverridesCommand (systemStorageConf : string) : string :=
  join_with "; "
    (map (fun name => sh ("[ -z `${" +:+ name +:+ "+set}` ] || printf 'override=" +:+ name +:+ "\n'"))
       STORAGE_OVERRIDE_VARIABLES
     ++ ["! grep -Eqs '^[[:space:]]*rootless_storage_path[[:space:]]*=' " +:+ shellQuote systemStorageConf
           +:+ " || printf 'override=rootless_storage_path\n'"]).

Definition CONF_PATH : string := sh "`$HOME`/.config/containers/storage.conf".
Definition GRAPH_ROOT : string := sh "`$HOME`/.local/share/containers/storage".

Definition STORAGE_STATE_COMMAND : string :=
  join_with "; "
    ["if printf '" +:+ STORAGE_CONF_FORMAT +:+ "' | cmp -s - " +:+ CONF_PATH
       +:+ "; then printf 'storage=set-up\n'";
     "elif [ ! -e " +:+ CONF_PATH +:+ " ] && [ ! -L " +:+ CONF_PATH +:+ " ] && { { [ ! -e " +:+ GRAPH_ROOT
       +:+ " ] && [ ! -L " +:+ GRAPH_ROOT +:+ " ]; } || { [ -d " +:+ GRAPH_ROOT +:+ " ] && [ -r " +:+ GRAPH_ROOT
       +:+ sh " ] && [ -z `$(ls -A " +:+ GRAPH_ROOT +:+ sh ")` ]; }; }; then printf 'storage=fresh\n'";
     "else printf 'storage=used\n'; fi"].

Definition PODMAN_INFO_COMMAND : string :=
  "podman info --format '{{.Host.Security.Rootless}} {{.Store.GraphDriverName}}'".

(** [/^(true|false) ([A-Za-z0-9_-]{1,32})$/] *)
Definition parsePodmanInfo (output : string) : option bool * option string :=
  let value := trim output in
  let driver word :=
    let? name := after (word +:+ " ") value in
    if chars_all (fun c => is_letter c || is_digit c || (c ≡? "_"%char) || (c ≡? "-"%char)) name
       && (1 <=? String.length name)%nat && (String.length name <=? 32)%nat
    then Some name else None in
  match driver "true", driver "false" with
  | Some name, _ => (Some true, Some name)
  | None, Some name => (Some false, Some name)
  | None, None => (None, None)
  end.

Inductive StorageStepWord := storage_refused | storage_used | storage_root.

Definition storage_word_text (word : StorageStepWord) : string :=
  match word with storage_refused => "refused" | storage_used => "used" | storage_root => "root" end.

Definition storageStepWord (output : string) : option StorageStepWord :=
  find (fun word => storage_word_text word ≡? trim output) [storage_refused; storage_used; storage_root].

Definition storageStepCommand : string :=
  lines_of_script
    ["overrides=$(" +:+ storageOverridesCommand SYSTEM_STORAGE_CONF +:+ ")";
     sh "if [ -n `$overrides` ]; then printf 'refused\n'; exit 1; fi";
     "state=$(" +:+ STORAGE_STATE_COMMAND +:+ ")";
     "ours=0; kept=0";
     sh "undo() { [ `$ours` = 1 ] || return 0; rm -f " +:+ CONF_PATH +:+ sh "; if [ `$kept` = 1 ]; then rm -rf "
       +:+ GRAPH_ROOT +:+ "/..?* " +:+ GRAPH_ROOT +:+ "/.[!.]* " +:+ GRAPH_ROOT +:+ "/*; else rm -rf "
       +:+ GRAPH_ROOT +:+ "; fi; }";
     sh "if [ `$state` = storage=fresh ]; then dir=`$HOME`/.config/containers; [ ! -d " +:+ GRAPH_ROOT
       +:+ sh " ] || kept=1; mkdir -p `$dir` || exit 1; tmp=$(mktemp `$dir`/.storage.conf.XXXXXX) || exit 1; if ! printf '"
       +:+ STORAGE_CONF_FORMAT +:+ sh "' > `$tmp` || ! mv -f `$tmp` " +:+ CONF_PATH
       +:+ sh "; then rm -f `$tmp`; exit 1; fi; ours=1; fi";
     "if ! info=$(" +:+ PODMAN_INFO_COMMAND
       +:+ sh "); then undo; [ `$state` != storage=used ] || printf 'used\n'; exit 1; fi";
     sh "case `$info` in `true overlay`) printf 'ready\n' ;; `true `*) undo; printf 'used\n'; exit 1 ;; *) undo; printf 'root\n'; exit 1 ;; esac"].

(** ** The facts of a machine *)

Definition fact (key command : string) : string :=
  "printf '" +:+ key +:+ sh "=%s\n' `$( " +:+ command
    +:+ sh " 2>/dev/null | head -n 1 | cut -c 1-256 | tr -c '[:print:]\n' ' ')`".

Definition subordinateLines (key file : string) : string :=
  sh "awk -F: -v u=`$(id -un 2>/dev/null)` -v i=`$(id -u 2>/dev/null)` 'NF == 3 && $1 != `` && $2 ~ /^[0-9]+$/ && $3 ~ /^[0-9]+$/ { if ($1 == u || $1 == i) own = 1; e = $2 + $3; if (e > top) top = e } END { printf `"
    +:+ key +:+ "=%s\n" +:+ key +:+ sh "-end=%.0f\n`, (own ? `own` : `other`), top }' " +:+ file
    +:+ " 2>/dev/null".

Definition OVERLAY_HELPER : string := "fuse-overlayfs".

Definition command_present (name key : string) : string :=
  "! command -v " +:+ name +:+ " >/dev/null 2>&1 || printf '" +:+ key +:+ "=" +:+ name +:+ "\n'".

Definition HOST_FACTS_COMMAND : string :=
  lines_of_script
    ([fact "uid" "id -u";
      sh "printf 'home=%s\n' `$(printf '%s' `$HOME` | tr -c '[:print:]' ' ' | cut -c 1-256)`";
      fact "passwd-home" (sh "getent passwd `$(id -un)` | cut -d: -f6");
      fact "os" (sh "(. /etc/os-release; printf '%s %s\n' `${ID:-}` `${VERSION_ID:-}`)");
      fact "podman" "podman --version";
      STORAGE_STATE_COMMAND;
      storageOverridesCommand SYSTEM_STORAGE_CONF;
      subordinateLines "subuid" "/etc/subuid";
      subordinateLines "subgid" "/etc/subgid";
      fact "cgroup" "stat -fc %T /sys/fs/cgroup"]
     ++ map (fun stack => command_present (stack_text stack) "helper") NETWORK_STACKS
     ++ [command_present OVERLAY_HELPER "overlay-helper";
         "if command -v curl >/dev/null 2>&1; then "
           +:+ fact "metadata" "curl -s --max-time 1 -o /dev/null -w '%{http_code}' http://169.254.169.254/"
           +:+ "; else printf 'metadata=none\n'; fi";
         "exit 0"]).

Inductive MetadataReach := unanswered | answered | unchecked.
Inductive AccountStorage := storage_fresh | storage_set_up | storage_is_used.

Record Subordinate := MkSubordinate { sub_own : bool; sub_end : Z }.

Record HostPodmanFacts := MkPodmanFacts {
  fact_uid : option Z; fact_usableHome : bool; fact_os : option string * option string;
  fact_podman : option PodmanVersion; fact_storage : AccountStorage; fact_overrides : list string;
  fact_subuid : Subordinate; fact_subgid : Subordinate; fact_cgroupV2 : bool;
  fact_helpers : list NetworkStack; fact_overlayHelper : bool; fact_metadata : MetadataReach }.

(** [/^[0-9]{1,10}$/], and the number. *)
Definition ten_digits (value : string) : option Z :=
  if chars_all is_digit value && (1 <=? String.length value)%nat && (String.length value <=? 10)%nat
  then numberOfDigits value else None.

(** [/^[a-z0-9._-]{1,32}$/] *)
Definition OS_WORD (value : string) : bool :=
  chars_all (fun c => in_range "a" "z" c || is_digit c || (c ≡? "."%char) || (c ≡? "_"%char) || (c ≡? "-"%char)) value
  && (1 <=? String.length value)%nat && (String.length value <=? 32)%nat.

(** [/^\/[A-Za-z0-9._\-/]*$/] *)
Definition HOME_PATTERN (value : string) : bool :=
  startsWith "/" value
  && chars_all (fun c => is_letter c || is_digit c || (c ≡? "."%char) || (c ≡? "_"%char) || (c ≡? "-"%char)
                         || (c ≡? "/"%char)) value.

Definition isUsableHome (home passwdHome : string) : bool := HOME_PATTERN home && (home ≡? passwdHome).

(** The key and the value of a line. *)
Definition key_value (line : string) : string * string :=
  let (key, rest) := span (fun c => negb (c ≡? "="%char)) line in
  match rest with EmptyString => (EmptyString, EmptyString) | String _ value => (key, value) end.

Definition all_values (key : string) (lines : list (string * string)) : list string :=
  map snd (List.filter (fun line => line.1 ≡? key) lines).

Definition first_value (key : string) (lines : list (string * string)) : string :=
  default EmptyString (head (all_values key lines)).

Definition subordinate (key : string) (lines : list (string * string)) : Subordinate :=
  MkSubordinate (trim (first_value key lines) ≡? "own")
    (default 0 (ten_digits (trim (first_value (key +:+ "-end") lines)))).

Definition some_is (value : string) (values : list string) : bool := existsb (fun v => trim v ≡? value) values.

Definition os_word (value : string) : option string := if OS_WORD value then Some value else None.

Definition parseHostFacts (output : string) : HostPodmanFacts :=
  let lines := map key_value (split_on NEWLINE output) in
  let os := split_on " "%char (trim (first_value "os" lines)) in
  let storage := trim (first_value "storage" lines) in
  let metadata := trim (default "none" (head (all_values "metadata" lines))) in
  MkPodmanFacts
    (ten_digits (trim (first_value "uid" lines)))
    (isUsableHome (first_value "home" lines) (first_value "passwd-home" lines))
    (os_word (nth 0 os EmptyString), os_word (nth 1 os EmptyString))
    (parsePodmanVersion (first_value "podman" lines))
    (if storage ≡? "fresh" then storage_fresh
     else if storage ≡? "set-up" then storage_set_up else storage_is_used)
    (List.filter (fun name => some_is name (all_values "override" lines)) STORAGE_OVERRIDES)
    (subordinate "subuid" lines) (subordinate "subgid" lines)
    (trim (first_value "cgroup" lines) ≡? "cgroup2fs")
    (List.filter (fun stack => some_is (stack_text stack) (all_values "helper" lines)) NETWORK_STACKS)
    (some_is OVERLAY_HELPER (all_values "overlay-helper" lines))
    (if metadata ≡? "none" then unchecked else if metadata ≡? "000" then unanswered else answered).

Definition SUBORDINATE_ID_FLOOR : Z := 100000.
Definition SUBORDINATE_ID_COUNT : Z := 65536.

Definition nextSubordinateRange (subuidEnd subgidEnd : Z) : Z * Z :=
  let start := Z.max (Z.max SUBORDINATE_ID_FLOOR subuidEnd) subgidEnd in
  (start, start + SUBORDINATE_ID_COUNT - 1).

(** ** Accounts *)

(** [/^[A-Za-z0-9_][A-Za-z0-9._-]*$/] *)
Definition SHELL_WORD (value : string) : bool :=
  let word c := is_letter c || is_digit c || (c ≡? "_"%char) in
  match value with
  | EmptyString => false
  | String c rest => word c && chars_all (fun c => word c || (c ≡? "."%char) || (c ≡? "-"%char)) rest
  end.

Definition accountWord (account : string) : string :=
  if SHELL_WORD account then account else shellQuote account.

Definition lingerCommand (account : string) : string := "sudo loginctl enable-linger " +:+ accountWord account.

(** ** The image and the client *)

Definition RUNTIME_IMAGE_REPOSITORY : string := "mcr.microsoft.com/dotnet/runtime-deps".

Record RuntimeImage := MkImage { manifest : string; imageId : string }.

Definition runtimeImageFor (architecture : HostArchitecture) : RuntimeImage :=
  match architecture with
  | x64 => MkImage "sha256:4d2c0a932f7b69603fe2ff643bd1f481914e154c4d5076691716bd23319bb12f"
             "sha256:56e3d8542b4091c81816101e95875e32ec981577e669112c479a57d4003e4c29"
  | arm64 => MkImage "sha256:003addb8550309e7cd6886ff29175c4c6d926cb920eb9966bda388fe9d682062"
               "sha256:b54641a0139b45834e25e82fa2cf2be60bafa6a1b6a22868bb1df7182a27a7b9"
  end.

Definition runtimeImageReference (image : RuntimeImage) : string :=
  RUNTIME_IMAGE_REPOSITORY +:+ "@" +:+ manifest image.

Definition podmanImageId (image : RuntimeImage) : string :=
  default (imageId image) (after "sha256:" (imageId image)).

Definition MCC_VERSION : string := "20260829-511".

Record MccRelease := MkRelease { rel_architecture : HostArchitecture; url : string; sha256 : string }.

Definition architecture_text (a : HostArchitecture) : string :=
  match a with x64 => "x64" | arm64 => "arm64" end.

Definition SHA256_BY_ARCHITECTURE (a : HostArchitecture) : string :=
  match a with
  | x64 => "2e0fe135079824d1b02a3ef9bf89c56d95d72a1d1502d7204f93acc0084223db"
  | arm64 => "305dc0766df3509008cc00bb4ebd6be8246f01aff7b84409e0856a98fb759925"
  end.

(** Its own keys; what a machine named after a member every object inherits
    would read ([constructor], [__proto__]) is not modelled. *)
Definition ARCHITECTURE_BY_MACHINE : list (string * HostArchitecture) :=
  [("x86_64", x64); ("amd64", x64); ("aarch64", arm64); ("arm64", arm64)].

Definition mccDownloadUrl (version : string) (a : HostArchitecture) : string :=
  "https://github.com/MCCTeam/Minecraft-Console-Client/releases/download/" +:+ version
    +:+ "/MinecraftClient-" +:+ version +:+ "-linux-" +:+ architecture_text a.

Definition architectureForMachine (machine : string) : result HostArchitecture :=
  match find (fun entry => entry.1 ≡? toLowerCase (trim machine)) ARCHITECTURE_BY_MACHINE with
  | Some (_, a) => Ok a
  | None =>
      Throw (ThrownError (NamedError "UnsupportedArchitectureError")
        ("No Minecraft Console Client build for machine architecture '"
           +:+ default UNKNOWN_HOST_FACT (hostFact machine) +:+ "'; supported: "
           +:+ join_with ", " (map fst ARCHITECTURE_BY_MACHINE)))
  end.

Definition mccReleaseForMachine (machine : string) : result MccRelease :=
  let+ a := architectureForMachine machine in
  Ok (MkRelease a (mccDownloadUrl MCC_VERSION a) (SHA256_BY_ARCHITECTURE a)).

(** ** The units *)

Definition INSTANCE_UNIT_NAME : string := "open-mcc@.service".
Definition SLEEP_STOP_UNIT_NAME : string := "open-mcc-sleep-stop@.service".
Definition SLEEP_START_UNIT_NAME : string := "open-mcc-sleep-start@.service".
Definition AUTH_UNIT_NAME : string := "open-mcc-auth@.service".
Definition QUIT_WRITE_TIMEOUT_SECONDS : Z := 5.
Definition UNIT_LOG_DRIVER : string := "passthrough".
Definition SUPPORTING_UNIT_NAMES : list string :=
  [SLEEP_STOP_UNIT_NAME; SLEEP_START_UNIT_NAME; AUTH_UNIT_NAME].

Definition ROOT : string := "%h/" +:+ INSTANCES_PATH.
Definition DIR : string := ROOT +:+ "/instances/%i".
Definition PORT : string := "$${OPEN_MCC_PORT}".

(** [/^[0-9a-f]{64}$/] *)
Definition PODMAN_IMAGE_ID (value : string) : bool :=
  chars_all is_hex value && (String.length value =? 64)%nat.

Definition skipWhileActive (unit : string) : string :=
  sh "ExecCondition=/bin/sh -c 'case `$$(systemctl --user show -p ActiveState --value " +:+ unit
    +:+ sh ")` in " +:+ join_with "|" RUNNING_UNIT_STATES +:+ ") exit 1;; esac'".

Definition CONFIG_PREFLIGHT : string :=
  sh "ExecStartPre=/bin/sh -c 'f=`" +:+ DIR +:+ "/" +:+ layout_config
    +:+ sh "/MinecraftClient.ini`; [ ! -L `$$f` ] && [ -f `$$f` ] && [ -s `$$f` ] && [ -r `$$f` ] || { echo `open-mcc: the saved settings file is missing or unreadable` >&2; exit 1; }'".

Definition sleepExec (verb : string) : string :=
  "/usr/bin/systemctl --user " +:+ verb +:+ " open-mcc@%i.service".

(** A path under the directory of a bot, between double quotes. *)
Definition in_dir (name : string) : string := dq (DIR +:+ "/" +:+ name).

Definition instanceUnit (network imageId : string) : string :=
  lines_of_script
    ["[Unit]"; "Description=open-mcc-manager instance %i"; "StartLimitIntervalSec=600"; "StartLimitBurst=5";
     "JobTimeoutSec=60"; "After=network-online.target"; "Wants=network-online.target"; "";
     "[Service]"; "Type=notify"; "NotifyAccess=all"; "Delegate=yes";
     "EnvironmentFile=" +:+ DIR +:+ "/" +:+ layout_unitEnv; "WorkingDirectory=" +:+ DIR;
     skipWhileActive "open-mcc-auth@%i.service"; CONFIG_PREFLIGHT;
     "ExecStartPre=/usr/bin/flock -w 30 " +:+ in_dir layout_collectLock +:+ " /bin/sh -c 'rm -rf -- "
       +:+ in_dir layout_recordingCache +:+ " && mkdir -m 0700 " +:+ in_dir layout_recordingCache +:+ "'";
     "ExecStart=/bin/sh -c 'exec 3<>" +:+ in_dir layout_control
       +:+ "; exec /usr/bin/podman run --replace --rm -d -i --pull=never --sdnotify=conmon --cgroups=split --log-driver="
       +:+ UNIT_LOG_DRIVER
       +:+ " --init --name open-mcc-%i --user 0:0 --read-only --cap-drop=all --security-opt=no-new-privileges --env-file="
       +:+ in_dir layout_env +:+ " -e DOTNET_BUNDLE_EXTRACT_BASE_DIR=/data -v " +:+ ROOT
       +:+ "/bin:/opt/mcc:ro -v " +:+ in_dir layout_config +:+ ":/config:ro -v " +:+ in_dir layout_state
       +:+ ":/data -v " +:+ in_dir layout_replays +:+ ":/data/replay_recordings -v "
       +:+ in_dir layout_recordingCache +:+ ":/data/recording_cache -w /data --network=" +:+ network
       +:+ " -p 127.0.0.1:" +:+ PORT +:+ ":" +:+ PORT +:+ " " +:+ imageId
       +:+ " /opt/mcc/MinecraftClient /config/MinecraftClient.ini BasicIO <&3'";
     sh "ExecStop=/bin/sh -c '[ -z `$$MAINPID` ] || { timeout " +:+ decimal QUIT_WRITE_TIMEOUT_SECONDS
       +:+ sh " sh -c `echo /quit > \`" +:+ DIR +:+ "/" +:+ layout_control
       +:+ sh "\`` && while kill -0 $$MAINPID 2>/dev/null; do sleep 1; done; }'";
     "StandardOutput=journal"; "StandardError=journal"; "TimeoutStartSec=25"; "TimeoutStopSec=20";
     "Restart=on-failure"; "RestartPreventExitStatus=4"; "RestartSec=30"; "";
     "[Install]"; "WantedBy=default.target"; ""].

Definition signInUnit (network imageId : string) : string :=
  lines_of_script
    ["[Unit]"; "Description=open-mcc-manager sign-in for instance %i"; "JobTimeoutSec=55"; "";
     "[Service]"; "Type=notify"; "NotifyAccess=all"; "Delegate=yes"; "WorkingDirectory=" +:+ DIR;
     skipWhileActive "open-mcc@%i.service"; CONFIG_PREFLIGHT;
     "ExecStartPre=/usr/bin/flock -w 30 " +:+ in_dir layout_collectLock +:+ " /bin/true";
     "ExecStart=/bin/sh -c 'exec /usr/bin/podman run --replace --rm -d --pull=never --sdnotify=conmon --cgroups=split --log-driver="
       +:+ UNIT_LOG_DRIVER
       +:+ " --init --name open-mcc-auth-%i --user 0:0 --read-only --cap-drop=all --security-opt=no-new-privileges -e DOTNET_BUNDLE_EXTRACT_BASE_DIR=/data -v "
       +:+ ROOT +:+ "/bin:/opt/mcc:ro -v " +:+ in_dir layout_config +:+ ":/config:ro -v " +:+ in_dir layout_state
       +:+ ":/data -w /data --network=" +:+ network +:+ " " +:+ imageId
       +:+ " /opt/mcc/MinecraftClient /config/MinecraftClient.ini BasicIO-NoColor </dev/null >" +:+ in_dir "auth.log"
       +:+ " 2>&1'";
     "TimeoutStartSec=20"; "TimeoutStopSec=10"; ""].

Definition sleepUnit (description verb : string) : string :=
  lines_of_script
    ["[Unit]"; "Description=" +:+ description; ""; "[Service]"; "Type=oneshot"; "ExecStart=" +:+ sleepExec verb; ""].

(** The units by their names, as the object lists them. *)
Definition renderUnitTemplates (networkStack : NetworkStack) (imageId : string)
    : result (list (string * string)) :=
  if negb (PODMAN_IMAGE_ID imageId)
  then Throw (internal "The runtime image ID must be the 64 hex characters Podman prints")
  else
    let network := stack_text networkStack in
    Ok [(INSTANCE_UNIT_NAME, instanceUnit network imageId); (AUTH_UNIT_NAME, signInUnit network imageId);
        (SLEEP_STOP_UNIT_NAME, sleepUnit "Stop open-mcc instance %i for its sleep window" "stop");
        (SLEEP_START_UNIT_NAME, sleepUnit "Start open-mcc instance %i after its sleep window" "start")].

Definition template_of (name : string) (templates : list (string * string)) : option string :=
  option_map snd (find (fun entry => entry.1 ≡? name) templates).
