(* ===== verification/Provision.v ===== *)
(** Setting a machine up.

    [packages/core/src/host/provision.ts] and [provision-failure.ts], with the
    labels of [packages/contracts/src/host.ts]: fifteen steps, each reported
    before it is tried. *)

From S2P Require Import Prelude Calendar Journal Observer HealthPoller Shell Control ClientSettings HostStore MachineFacts.

(** ** The steps and what is said of their failures *)

Inductive ProvisionStep :=
  | checking_systemd | LINGER_STEP_LABEL | checking_podman | STORAGE_STEP_LABEL | creating_directory
  | reading_architecture | DOWNLOAD_STEP_LABEL | verifying_download | installing_client
  | downloading_image | verifying_image | CLIENT_RUNS_STEP_LABEL | installing_unit
  | installing_sleep_units | reloading_systemd.

#[global] Instance ProvisionStep_eq_dec : EqDecision ProvisionStep.
Proof. solve_decision. Defined.

Definition PROVISION_STEPS : list ProvisionStep :=
  [checking_systemd; LINGER_STEP_LABEL; checking_podman; STORAGE_STEP_LABEL; creating_directory;
   reading_architecture; DOWNLOAD_STEP_LABEL; verifying_download; installing_client;
   downloading_image; verifying_image; CLIENT_RUNS_STEP_LABEL; installing_unit;
   installing_sleep_units; reloading_systemd].

Definition step_label (step : ProvisionStep) : string :=
  match step with
  | checking_systemd => "Checking systemd"
  | LINGER_STEP_LABEL => "Checking that instances survive a logout"
  | checking_podman => "Checking Podman"
  | STORAGE_STEP_LABEL => "Setting up container storage"
  | creating_directory => "Creating the instances directory"
  | reading_architecture => "Reading the host architecture"
  | DOWNLOAD_STEP_LABEL => "Downloading the client"
  | verifying_download => "Verifying the download"
  | installing_client => "Installing the client"
  | downloading_image => "Downloading the runtime image"
  | verifying_image => "Verifying the runtime image"
  | CLIENT_RUNS_STEP_LABEL => "Checking the client runs"
  | installing_unit => "Installing the instance unit"
  | installing_sleep_units => "Installing the sleep units"
  | reloading_systemd => "Reloading systemd"
  end.

Definition FAILURES (step : ProvisionStep) : string :=
  match step with
  | checking_systemd =>
      "Could not confirm systemd, a non-root account and a usable home folder on this host."
  | LINGER_STEP_LABEL =>
      "Lingering is off for this user, so bots would stop at logout. Run sudo loginctl enable-linger for this user on the host."
  | checking_podman => "Podman isn't ready for this account. Run the setup script on the host again."
  | STORAGE_STEP_LABEL => EmptyString
  | creating_directory => "The instances directory could not be created."
  | reading_architecture => "This host's processor could not be read, or has no client build."
  | DOWNLOAD_STEP_LABEL => "The client could not be downloaded."
  | verifying_download => "The download did not match its checksum, so it was not installed."
  | installing_client => "The client could not be installed."
  | downloading_image => "The runtime image could not be downloaded."
  | verifying_image => "The downloaded runtime image was not the expected one, so it was not used."
  | CLIENT_RUNS_STEP_LABEL => "The client did not start."
  | installing_unit => "The bot service could not be installed."
  | installing_sleep_units => "The sleep services could not be installed."
  | reloading_systemd => "systemd could not reload its services."
  end.

Definition STORAGE_FAILURES (word : StorageStepWord) : string :=
  match word with
  | storage_refused =>
      "One of XDG_CONFIG_HOME, XDG_DATA_HOME, CONTAINERS_STORAGE_CONF or rootless_storage_path in /etc/containers/storage.conf is sending Podman's storage elsewhere. Clear whichever is set on this host."
  | storage_used =>
      "Podman on this account already has data, and OpenMCC will not change it. Enrol an account that has never run Podman."
  | storage_root => "Podman does not run rootless for this account. Bots can only run where it does."
  end.

Definition DOWNLOAD_RAN_OUT_OF_TIME : string :=
  "The client download ran out of time. Provision again, or put this host on a faster connection.".
Definition STORAGE_STEP_SAID_NOTHING : string :=
  "Podman did not answer on this account, so nothing was set up on it. Run podman info there as this account to see why.".
Definition PROVISIONING_STOPPED_EARLY : string := "Provisioning stopped before its first step.".

Definition provisioningFailureFor (step : option ProvisionStep) (storage : option StorageStepWord)
    (downloadRanOutOfTime : bool) : string :=
  match step with
  | None => PROVISIONING_STOPPED_EARLY
  | Some s =>
      if s ≡? STORAGE_STEP_LABEL
      then match storage with None => STORAGE_STEP_SAID_NOTHING | Some word => STORAGE_FAILURES word end
      else if (s ≡? DOWNLOAD_STEP_LABEL) && downloadRanOutOfTime then DOWNLOAD_RAN_OUT_OF_TIME
      else FAILURES s
  end.

(** ** The commands, and what is read from them *)

Record ProvisionResult := MkProvisionResult {
  pr_osRelease : string; pr_osId : option string; pr_osName : option string;
  pr_networkStack : NetworkStack; pr_architecture : HostArchitecture }.

Record ProvisionProgress := MkProgress { pp_step : ProvisionStep; pp_index : Z; pp_total : Z }.

Definition PROVISION_STEP_TIMEOUT_MS : Z := 15000.
Definition PROVISION_DOWNLOAD_TIMEOUT_MS : Z := 460000.
Definition IMAGE_PULL_TIMEOUT_MS : Z := 180000.
Definition CLIENT_PROBE_TIMEOUT_MS : Z := 30000.
Definition CLIENT_BANNER : string := "Minecraft Console Client".

Definition SYSTEM_COMMAND : string :=
  lines_of_script
    [sh "printf 'uid=%s\n' `$(id -u)`";
     sh "printf 'home=%s\n' `$(printf '%s' `$HOME` | tr -c '[:print:]' ' ')`";
     sh "printf 'passwd-home=%s\n' `$(getent passwd `$(id -un)` | cut -d: -f6 | head -n 1)`";
     sh "printf 'systemd=%s\n' `$(systemctl --version 2>/dev/null | head -n 1)`";
     sh "(. /etc/os-release 2>/dev/null && printf 'os-id=%s\nos-name=%s\n' `$ID` `$PRETTY_NAME`)";
     "exit 0"].

Definition lineValue (lines : list string) (key : string) : option string :=
  match find (startsWith (key +:+ "=")) lines with
  | Some line => Some (slice_from (String.length key + 1) line)
  | None => None
  end.

Record SystemFacts := MkSystem {
  sys_uid : option Z; sys_home : string; sys_passwdHome : string; sys_systemd : option string;
  sys_osId : option string; sys_osName : option string }.

Definition parseSystem (output : string) : SystemFacts :=
  let lines := split_on NEWLINE output in
  let value key := default EmptyString (lineValue lines key) in
  MkSystem (ten_digits (value "uid")) (value "home") (value "passwd-home") (hostFact (value "systemd"))
    (hostFact (value "os-id")) (hostFact (value "os-name")).

(** A line of Podman's own log: time and level, then msg=. *)
Definition PODMAN_LOG_LINE (line : string) : bool :=
  match
    (let? rest := after ("time=" +:+ QUOTE) line in
     let? rest := after (QUOTE +:+ " level=") (span (fun c => negb (String c EmptyString ≡? QUOTE)) rest).2 in
     let (level, rest) := span (in_range "a" "z") rest in
     if level ≡? EmptyString then None else after " msg=" rest)
  with Some _ => true | None => false end.

Definition PODMAN_VERDICT : string := "Error: ".

Definition explainClientFailure (output : string) : string :=
  let lines := List.filter (fun line => (0 <? String.length line)%nat) (map trim (split_on NEWLINE output)) in
  match find (fun line => negb (PODMAN_LOG_LINE line) && negb (startsWith PODMAN_VERDICT line)) lines with
  | Some line => "The installed client could not start: " +:+ line
  | None =>
      match find (startsWith PODMAN_VERDICT) lines with
      | Some line => "Podman did not run the client: " +:+ slice_from (String.length PODMAN_VERDICT) line
      | None => "The installed client could not start, and reported nothing."
      end
  end.

Definition DOWNLOAD_ATTEMPTS : Z := 3.
Definition DOWNLOAD_DEADLINE_SECONDS : Z := 450.
Definition DOWNLOAD_FIRST_BACKOFF_SECONDS : Z := 1.
Definition RETRYABLE_HTTP_CODES : list string := ["408"; "429"; "5??"].
Definition CURL_RAN_OUT_OF_TIME : Z := 28.
Definition RETRYABLE_CURL_EXITS : list Z := [6; 7; 18; CURL_RAN_OUT_OF_TIME; 35; 52; 55; 56].

Definition TRANSIENT : string :=
  join_with "|"
    (map (fun code => "22:" +:+ code) RETRYABLE_HTTP_CODES
     ++ map (fun exit => decimal exit +:+ ":*") RETRYABLE_CURL_EXITS).

Definition TAB : string := String "009" "".

Definition clientDownloadCommand (url : string) : string :=
  lines_of_script
    ["dir=$(mktemp -d) || exit 1";
     "deadline=$(($(date +%s) + " +:+ decimal DOWNLOAD_DEADLINE_SECONDS +:+ "))";
     "pause=" +:+ decimal DOWNLOAD_FIRST_BACKOFF_SECONDS;
     "attempt=1";
     "while :; do";
     TAB +:+ "left=$((deadline - $(date +%s)))";
     TAB +:+ sh "[ `$left` -gt 0 ] || exit 28";
     TAB +:+ sh "code=$(curl -fsSL --max-time `$left` -w '%{http_code}' -o `$dir/mcc` " +:+ shellQuote url +:+ ")";
     TAB +:+ "status=$?";
     TAB +:+ sh "[ `$status` -eq 0 ] && break";
     TAB +:+ sh "case `$status:$code` in";
     TAB +:+ TRANSIENT +:+ ") ;;";
     TAB +:+ sh "*) exit `$status` ;;";
     TAB +:+ "esac";
     TAB +:+ sh "[ `$attempt` -lt " +:+ decimal DOWNLOAD_ATTEMPTS +:+ sh " ] || exit `$status`";
     TAB +:+ "attempt=$((attempt + 1))";
     TAB +:+ sh "sleep `$pause`";
     TAB +:+ "pause=$((pause * 2))";
     "done";
     sh "printf '%s' `$dir`"].

Definition imagePullCommand (image : RuntimeImage) : string :=
  "podman pull " +:+ shellQuote (runtimeImageReference image).

Definition imageIdCommand (image : RuntimeImage) : string :=
  "podman image inspect --format '{{.Id}}' " +:+ shellQuote (runtimeImageReference image).

Definition clientCheckCommand (image : RuntimeImage) : string :=
  "podman run --rm --network=none --pull=never --log-driver=" +:+ UNIT_LOG_DRIVER
    +:+ " --user 0:0 --read-only --cap-drop=all -e DOTNET_BUNDLE_EXTRACT_BASE_DIR=/tmp -v " +:+ INSTANCES_ROOT
    +:+ "/bin:/opt/mcc:ro " +:+ podmanImageId image +:+ " /opt/mcc/MinecraftClient --help < /dev/null 2>&1".

Definition LINGER_COMMAND : string :=
  sh "loginctl show-user `$(id -un)` --property=Linger --value 2>/dev/null || printf no".

Definition ROOT_REFUSAL : string := "Bots can't run as root. Use a normal account.".

(** ** Setting up

    The fields of a [HostProvisioningFailedError] besides its message are kept
    beside the state: those of the last one thrown. *)

Record FailureFields := MkFields { storage : option StorageStepWord; downloadRanOutOfTime : bool }.

Definition HostProvisioningFailedError (message : string) : thrown :=
  ThrownError (NamedError "HostProvisioningFailedError") message.

Definition no_fields : FailureFields := MkFields None false.

Section provisioning.
Context {W : Type} (run : Exec W) (onProgress : ProvisionProgress -> M W unit).

Definition fail_with {A} (message : string) (fields : FailureFields) : M (FailureFields * W) A :=
  on_fst (modify (fun _ => fields)) ;;; throw (HostProvisioningFailedError message).

Definition fail {A} (message : string) : M (FailureFields * W) A := fail_with message no_fields.

Definition exec (command : string) (timeoutMs : Z) (stdin : option string) : M (FailureFields * W) ExecResult :=
  on_snd (run command timeoutMs stdin).

Definition step (command failure : string) (timeoutMs : Z) (stdin : option string)
    : M (FailureFields * W) string :=
  let* result := exec command timeoutMs stdin in
  if negb (exitCode result =? 0) then fail (failure +:+ ": " +:+ trim (stderr result))
  else ret (trim (stdout result)).

Definition readSystem : M (FailureFields * W) (string * option string * option string) :=
  let* read := exec SYSTEM_COMMAND PROVISION_STEP_TIMEOUT_MS None in
  if negb (exitCode read =? 0)
  then fail ("Failed to read systemd and the connecting account: " +:+ trim (stderr read))
  else
    let system := parseSystem (stdout read) in
    match sys_uid system with
    | None => fail "Couldn't read this account's user id."
    | Some uid =>
        if uid =? 0 then fail ROOT_REFUSAL
        else match sys_systemd system with
             | None => fail "systemd is not available on this host"
             | Some osRelease =>
                 if negb (isUsableHome (sys_home system) (sys_passwdHome system))
                 then fail "The remote home directory must be an absolute path containing only letters, digits, '.', '_', '-', and '/', and must be the account's own home"
                 else ret (osRelease, sys_osId system, sys_osName system)
             end
    end.

Definition assertLingerEnabled : M (FailureFields * W) unit :=
  let* result := exec LINGER_COMMAND PROVISION_STEP_TIMEOUT_MS None in
  if trim (stdout result) ≡? "yes" then ret tt
  else
    let* user :=
      try_catch (let* r := exec "id -un" PROVISION_STEP_TIMEOUT_MS None in ret (trim (stdout r)))
        (fun _ => ret "<user>") in
    fail ("Instances would stop when this session ends because lingering is off for " +:+ user
            +:+ ". Run this on the host, then provision again: " +:+ lingerCommand user).

Definition networkStackFor (facts : HostPodmanFacts) : M (FailureFields * W) NetworkStack :=
  if match fact_uid facts with None => true | Some uid => uid =? 0 end then fail ROOT_REFUSAL
  else match fact_podman facts with
       | Some version =>
           if negb (meetsPodmanFloor version)
           then fail ("Needs Podman " +:+ formatPodmanVersion PODMAN_FLOOR +:+ " or newer.")
           else if negb (fact_cgroupV2 facts) then fail "This server's system is too old for Podman."
           else if negb (sub_own (fact_subuid facts)) || negb (sub_own (fact_subgid facts))
                then fail "This account can't run containers yet."
           else
             let stack := requiredStackFor (major version) in
             if bool_decide (stack ∈ fact_helpers facts) then ret stack
             else fail "A Podman network helper is missing."
       | None => fail ("Needs Podman " +:+ formatPodmanVersion PODMAN_FLOOR +:+ " or newer.")
       end.

(** [advance()], when [completed] steps were begun before. *)
Definition advance (completed : nat) : M (FailureFields * W) unit :=
  match nth_error PROVISION_STEPS completed with
  | Some next =>
      on_snd (onProgress (MkProgress next (Z.of_nat completed) (Z.of_nat (length PROVISION_STEPS))))
  | None => ret tt
  end.

Definition set_up_storage : M (FailureFields * W) unit :=
  let* result := exec storageStepCommand PROVISION_STEP_TIMEOUT_MS None in
  if negb (exitCode result =? 0) || negb (trim (stdout result) ≡? "ready")
  then fail_with ("Failed to set up container storage: " +:+ trim (stdout result) +:+ " " +:+ trim (stderr result))
         (MkFields (storageStepWord (stdout result)) false)
  else ret tt.

(** The download: the directory it is in. *)
Definition download (release : MccRelease) : M (FailureFields * W) string :=
  let* result := exec (clientDownloadCommand (url release)) PROVISION_DOWNLOAD_TIMEOUT_MS None in
  if negb (exitCode result =? 0)
  then fail_with ("Failed to download the Minecraft Console Client: " +:+ trim (stderr result))
         (MkFields None (exitCode result =? CURL_RAN_OUT_OF_TIME))
  else ret (trim (stdout result)).

(** The download checked and installed, and its directory removed. *)
Definition install_download (release : MccRelease) (workDir : string) : M (FailureFields * W) unit :=
  let file := shellQuote (workDir +:+ "/mcc") in
  try_finally
    (advance 7 ;;;
     step ("printf '%s  %s' " +:+ shellQuote (sha256 release) +:+ " " +:+ file +:+ " | sha256sum -c -")
       "The downloaded client did not match its expected checksum" PROVISION_STEP_TIMEOUT_MS None ;;;
     advance 8 ;;;
     step ("install -D -m 0755 " +:+ file +:+ " " +:+ INSTANCES_ROOT +:+ "/bin/MinecraftClient")
       "Failed to install the client" PROVISION_STEP_TIMEOUT_MS None ;;;
     ret tt)
    (swallow (exec ("rm -rf " +:+ shellQuote workDir) PROVISION_STEP_TIMEOUT_MS None ;;; ret tt)).

Definition verify_image (image : RuntimeImage) : M (FailureFields * W) unit :=
  let* pulled :=
    step (imageIdCommand image) "Failed to read the runtime image" PROVISION_STEP_TIMEOUT_MS None in
  if pulled ≡? podmanImageId image then ret tt
  else fail ("The runtime image is " +:+ default UNKNOWN_HOST_FACT (hostFact pulled) +:+ ", not "
               +:+ podmanImageId image).

Definition check_client (image : RuntimeImage) : M (FailureFields * W) unit :=
  let* probe := exec (clientCheckCommand image) CLIENT_PROBE_TIMEOUT_MS None in
  let output := stdout probe +:+ newline +:+ stderr probe in
  if includes CLIENT_BANNER output then ret tt else fail (explainClientFailure output).

Definition install_template (templates : list (string * string)) (name : string) : M (FailureFields * W) unit :=
  step ("cat > " +:+ UNIT_DIR +:+ "/" +:+ shellQuote name)
    ("Failed to install the " +:+ name +:+ " unit template") PROVISION_STEP_TIMEOUT_MS
    (template_of name templates) ;;; ret tt.

Definition provisionHost : M (FailureFields * W) ProvisionResult :=
  advance 0 ;;;
  let* system := readSystem in
  let '(osRelease, osId, osName) := system in
  advance 1 ;;; assertLingerEnabled ;;;
  advance 2 ;;;
  let* facts := step HOST_FACTS_COMMAND "Failed to read Podman's facts" PROVISION_STEP_TIMEOUT_MS None in
  let* networkStack := networkStackFor (parseHostFacts facts) in
  advance 3 ;;; set_up_storage ;;;
  advance 4 ;;;
  step ("install -d -m 0700 " +:+ INSTANCES_ROOT +:+ " " +:+ INSTANCES_ROOT +:+ "/bin " +:+ INSTANCES_ROOT
          +:+ "/instances") "Failed to create instances directory" PROVISION_STEP_TIMEOUT_MS None ;;;
  advance 5 ;;;
  let* machine := step "uname -m" "Failed to read the host machine architecture" PROVISION_STEP_TIMEOUT_MS None in
  let* release := lift (mccReleaseForMachine machine) in
  let image := runtimeImageFor (rel_architecture release) in
  advance 6 ;;;
  let* workDir := download release in
  install_download release workDir ;;;
  advance 9 ;;;
  step (imagePullCommand image) "Failed to download the runtime image" IMAGE_PULL_TIMEOUT_MS None ;;;
  advance 10 ;;; verify_image image ;;;
  advance 11 ;;; check_client image ;;;
  let* templates := lift (renderUnitTemplates networkStack (podmanImageId image)) in
  advance 12 ;;;
  step ("mkdir -p " +:+ UNIT_DIR +:+ " && cat > " +:+ UNIT_DIR +:+ "/" +:+ shellQuote INSTANCE_UNIT_NAME)
    "Failed to install the instance unit template" PROVISION_STEP_TIMEOUT_MS
    (template_of INSTANCE_UNIT_NAME templates) ;;;
  advance 13 ;;; for_each SUPPORTING_UNIT_NAMES (install_template templates) ;;;
  advance 14 ;;;
  step (systemctl "daemon-reload") "Failed to reload systemd" PROVISION_STEP_TIMEOUT_MS None ;;;
  ret (MkProvisionResult osRelease osId osName networkStack (rel_architecture release)).
End provisioning.
