(* ===== verification/ProvisionSafety.v ===== *)
(** What setting a machine up has made sure of.

    [provisionHost] of [Provision] is run here on a machine whose answers are
    arbitrary and may depend on everything before; what it runs and what it
    reports is kept as a trace. *)

From S2P Require Import Prelude Calendar Journal Observer HealthPoller Shell Control ClientSettings HostStore MachineFacts Provision.

Inductive Event :=
  | Ran (command : string) (answer : result ExecResult)
  | Reported (progress : ProvisionProgress).

Definition Trace : Type := list Event.

(** The reports of a whole set-up. *)
Definition REPORTS : list ProvisionProgress :=
  zip_with (fun step index => MkProgress step (Z.of_nat index) 15) PROVISION_STEPS (seq 0 15).

Definition reports (t : Trace) : list ProvisionProgress :=
  omap (fun e => match e with Reported p => Some p | Ran _ _ => None end) t.

Definition check_command (release : MccRelease) (workDir : string) : string :=
  "printf '%s  %s' " +:+ shellQuote (sha256 release) +:+ " " +:+ shellQuote (workDir +:+ "/mcc")
    +:+ " | sha256sum -c -".

Definition install_command (workDir : string) : string :=
  "install -D -m 0755 " +:+ shellQuote (workDir +:+ "/mcc") +:+ " " +:+ INSTANCES_ROOT +:+ "/bin/MinecraftClient".

Lemma shellQuote_read value rest :
  sh_ends rest -> sh_word false (shellQuote value +:+ rest) = Some (value, rest).
Proof. intros H. unfold shellQuote. rewrite !string_app_assoc. exact (sh_word_quoted value rest H). Qed.

(** The directory can be read back from the command. *)
Lemma install_command_inj w w' : install_command w = install_command w' -> w = w'.
Proof.
  intros E. unfold install_command in E. apply string_app_inj_l in E.
  apply (f_equal (sh_word false)) in E. rewrite !shellQuote_read in E by done.
  injection E as E. by apply string_app_inj_r in E.
Qed.

(** The one release for each kind of processor. *)
Definition pinned (release : MccRelease) : Prop := exists a,
  release = MkRelease a (mccDownloadUrl MCC_VERSION a) (SHA256_BY_ARCHITECTURE a).

Definition succeeded (answer : result ExecResult) : Prop := exists r, answer = Ok r /\ exitCode r = 0.

(** Nothing is installed but what has just matched the hash of its release. *)
Definition installs_what_it_checked (t : Trace) : Prop :=
  forall before workDir answer after, t = before ++ Ran (install_command workDir) answer :: after ->
  exists earlier release checked p,
    before = earlier ++ [Ran (check_command release workDir) checked; Reported p]
    /\ pinned release /\ succeeded checked.

(** An answer that was seen among [evidence]. *)
Definition saw (evidence : list Event) (command : string) (ok : ExecResult -> Prop) : Prop :=
  exists r, In (Ran command (Ok r)) evidence /\ ok r.

Definition said (output : string) (r : ExecResult) : Prop := exitCode r = 0 /\ trim (stdout r) = output.

(** What was asked of a machine that is ready, and what it answered. *)
Definition found_fit (result : ProvisionResult) (t : Trace) : Prop :=
  let image := runtimeImageFor (pr_architecture result) in
  saw t SYSTEM_COMMAND (fun r =>
    let system := parseSystem (stdout r) in
    (exists uid, sys_uid system = Some uid /\ uid <> 0)
    /\ isUsableHome (sys_home system) (sys_passwdHome system) = true
    /\ sys_systemd system = Some (pr_osRelease result))
  /\ saw t LINGER_COMMAND (fun r => trim (stdout r) = "yes")
  /\ saw t storageStepCommand (said "ready")
  /\ (exists workDir, saw t (install_command workDir) (fun r => exitCode r = 0))
  /\ saw t (imageIdCommand image) (said (podmanImageId image))
  /\ saw t (clientCheckCommand image) (fun r =>
       includes CLIENT_BANNER (stdout r +:+ newline +:+ stderr r) = true).

Section machine.
Context (machine : Trace -> string -> Z -> option string -> result ExecResult).

Definition run_traced : Exec Trace := fun command timeoutMs stdin t =>
  let answer := machine t command timeoutMs stdin in (answer, t ++ [Ran command answer]).

Definition report_traced (progress : ProvisionProgress) : M Trace unit :=
  fun t => (Ok tt, t ++ [Reported progress]).

(** Fields and trace, when [k] steps were begun and [evidence] was seen. *)
Definition during (k : nat) (evidence : list Event) (s : FailureFields * Trace) : Prop :=
  reports s.2 = take k REPORTS /\ installs_what_it_checked s.2 /\ Forall (fun e => In e s.2) evidence.

Definition stopped (_ : thrown) (s : FailureFields * Trace) : Prop :=
  exists k, (1 <= k <= 15)%nat /\ during k [] s.

Lemma reports_app t e : reports (t ++ [e]) = reports t ++ reports [e].
Proof. unfold reports. by rewrite omap_app. Qed.

Lemma installs_app t e :
  installs_what_it_checked t ->
  (forall workDir answer, e = Ran (install_command workDir) answer ->
     exists earlier release checked p,
       t = earlier ++ [Ran (check_command release workDir) checked; Reported p]
       /\ pinned release /\ succeeded checked) ->
  installs_what_it_checked (t ++ [e]).
Proof.
  intros Ht He before workDir answer after E.
  destruct after as [|e' after _] using rev_ind.
  - apply app_inj_tail in E as [-> E]. by apply (He workDir answer).
  - rewrite app_comm_cons, app_assoc in E. apply app_inj_tail in E as [E _].
    by eapply Ht.
Qed.

Lemma evidence_app (t : Trace) e evidence :
  Forall (fun x => In x t) evidence -> Forall (fun x => In x (t ++ [e])) evidence.
Proof. intros H. eapply Forall_impl; [exact H|]. intros x Hx. apply in_or_app. by left. Qed.

Lemma during_weaken k evidence evidence' s :
  incl evidence' evidence -> during k evidence s -> during k evidence' s.
Proof.
  intros Hi (H1 & H2 & H3). split_and!; try done. apply List.Forall_forall. intros x Hx.
  rewrite List.Forall_forall in H3. by apply H3, Hi.
Qed.

Lemma during_stopped k evidence e s : (1 <= k <= 15)%nat -> during k evidence s -> stopped e s.
Proof. intros Hk H. exists k. split; [done|]. by eapply during_weaken; [|exact H]; intros ? []. Qed.

(** A command that installs nothing. *)
Definition harmless (command : string) : Prop := startsWith "install -D" command = false.

Lemma harmless_ran command answer :
  harmless command -> forall workDir answer', Ran command answer <> Ran (install_command workDir) answer'.
Proof. intros H workDir answer' [= -> _]. by unfold harmless, install_command in H. Qed.

Lemma exec_during k evidence command timeoutMs stdin :
  (1 <= k <= 15)%nat -> harmless command ->
  triple (during k evidence) (exec run_traced command timeoutMs stdin)
    (fun r => during k (Ran command (Ok r) :: evidence)) stopped.
Proof.
  intros Hk Hc [f t] (H1 & H2 & H3). unfold exec, on_snd, run_traced. cbn [fst snd] in *.
  assert (H : forall answer, during k (Ran command answer :: evidence) (f, t ++ [Ran command answer])).
  { intros answer. split_and!; cbn [snd].
    - rewrite reports_app, H1. simpl. by rewrite app_nil_r.
    - apply installs_app; [done|]. intros w a E. by destruct (harmless_ran _ _ Hc _ _ E).
    - constructor; [apply in_or_app; right; by left|by apply evidence_app]. }
  specialize (H (machine t command timeoutMs stdin)).
  destruct (machine t command timeoutMs stdin) as [r|e]; [done|].
  by eapply during_stopped.
Qed.

Lemma step_during k evidence command failure timeoutMs stdin :
  (1 <= k <= 15)%nat -> harmless command ->
  triple (during k evidence) (step run_traced command failure timeoutMs stdin)
    (fun out s => exists r, exitCode r = 0 /\ out = trim (stdout r)
                            /\ during k (Ran command (Ok r) :: evidence) s) stopped.
Proof.
  intros Hk Hc. eapply triple_bind; [by apply exec_during|]. intros r s Hs.
  destruct (negb _) eqn:E.
  - by eapply during_stopped.
  - exists r. split_and!; [|done|done]. apply negb_false_iff in E. by apply Z.eqb_eq in E.
Qed.

Lemma fail_during {A} k evidence message fields (Q : A -> FailureFields * Trace -> Prop) :
  (1 <= k <= 15)%nat -> triple (during k evidence) (fail_with message fields) Q stopped.
Proof.
  intros Hk [f t] Hs. by eapply during_stopped.
Qed.

Lemma advance_during k evidence :
  (k < 15)%nat ->
  triple (during k evidence) (advance report_traced k) (fun _ => during (S k) evidence) stopped.
Proof.
  intros Hk [f t] (H1 & H2 & H3). unfold advance.
  assert (exists next, nth_error PROVISION_STEPS k = Some next /\
    reports [Reported (MkProgress next (Z.of_nat k) 15)] = [MkProgress next (Z.of_nat k) 15] /\
    take (S k) REPORTS = take k REPORTS ++ [MkProgress next (Z.of_nat k) 15]) as (next & -> & Hr & Ht).
  { do 15 (destruct k as [|k]; [by eexists|]). lia. }
  cbn [snd] in *. split_and!; cbn [snd].
  - rewrite reports_app, H1, Ht. done.
  - by apply installs_app.
  - by apply evidence_app.
Qed.

(** The next step begins. *)
Lemma next_step {A} k evidence (m : M (FailureFields * Trace) A) Q :
  (k < 15)%nat -> triple (during (S k) evidence) m Q stopped ->
  triple (during k evidence) (advance report_traced k ;;; m) Q stopped.
Proof. intros Hk Hm. eapply triple_bind; [by apply advance_during|]. intros ?. done. Qed.

(** A command that must succeed. *)
Lemma then_step {A} k evidence command failure timeoutMs stdin
    (m : string -> M (FailureFields * Trace) A) Q :
  (1 <= k <= 15)%nat -> harmless command ->
  (forall r, exitCode r = 0 ->
     triple (during k (Ran command (Ok r) :: evidence)) (m (trim (stdout r))) Q stopped) ->
  triple (during k evidence) (let* out := step run_traced command failure timeoutMs stdin in m out) Q stopped.
Proof.
  intros Hk Hc Hm. eapply triple_bind; [by apply step_during|]. intros out.
  apply triple_ex. intros r. apply triple_and. intros Hr. apply triple_and. intros ->. by apply Hm.
Qed.

Lemma then_exec {A} k evidence command timeoutMs stdin (m : ExecResult -> M (FailureFields * Trace) A) Q :
  (1 <= k <= 15)%nat -> harmless command ->
  (forall r, triple (during k (Ran command (Ok r) :: evidence)) (m r) Q stopped) ->
  triple (during k evidence) (let* r := exec run_traced command timeoutMs stdin in m r) Q stopped.
Proof. intros Hk Hc Hm. eapply triple_bind; [by apply exec_during|]. done. Qed.

Lemma then_lift {A B} k evidence (r : result B) (m : B -> M (FailureFields * Trace) A) Q :
  (1 <= k <= 15)%nat ->
  (forall b, r = Ok b -> triple (during k evidence) (m b) Q stopped) ->
  triple (during k evidence) (let* b := lift r in m b) Q stopped.
Proof.
  intros Hk Hm. destruct r as [b|e]; [by apply (Hm b)|]. intros s Hs. by eapply during_stopped.
Qed.

(** ** The steps *)

Lemma readSystem_during k evidence :
  (1 <= k <= 15)%nat ->
  triple (during k evidence) (readSystem run_traced)
    (fun out s => exists r,
       (let system := parseSystem (stdout r) in
        (exists uid, sys_uid system = Some uid /\ uid <> 0)
        /\ isUsableHome (sys_home system) (sys_passwdHome system) = true
        /\ sys_systemd system = Some out.1.1)
       /\ during k (Ran SYSTEM_COMMAND (Ok r) :: evidence) s) stopped.
Proof.
  intros Hk. unfold readSystem. apply then_exec; [done|done|]. intros r.
  destruct (negb _); [by apply fail_during|].
  destruct (sys_uid _) as [uid|] eqn:Eu; [|by apply fail_during].
  destruct (uid =? 0) eqn:E0; [by apply fail_during|].
  destruct (sys_systemd _) as [release|] eqn:Es; [|by apply fail_during].
  destruct (negb (isUsableHome _ _)) eqn:Eh; [by apply fail_during|].
  intros s Hs. exists r. split; [|done]. split_and!; [exists uid; split; [done|lia]|by tests|done].
Qed.

Lemma linger_during k evidence :
  (1 <= k <= 15)%nat ->
  triple (during k evidence) (assertLingerEnabled run_traced)
    (fun _ s => exists r, trim (stdout r) = "yes" /\ during k (Ran LINGER_COMMAND (Ok r) :: evidence) s) stopped.
Proof.
  intros Hk. unfold assertLingerEnabled. apply then_exec; [done|done|]. intros r.
  case_bool_decide as E; [intros s Hs; by exists r|].
  eapply (triple_bind _ _ _ (fun _ s => exists k', (1 <= k' <= 15)%nat /\ during k' [] s)).
  - eapply triple_catch.
    + eapply triple_bind; [by apply exec_during|]. intros out s Hs.
      exists k. split; [done|]. by eapply during_weaken; [|exact Hs]; intros ? [].
    + intros e s Hs. exact Hs.
  - intros user. apply triple_ex. intros k'. apply triple_and. intros Hk'. by apply fail_during.
Qed.

Lemma stack_during k evidence facts :
  (1 <= k <= 15)%nat ->
  triple (during k evidence) (networkStackFor facts) (fun _ => during k evidence) stopped.
Proof.
  intros Hk. unfold networkStackFor.
  repeat match goal with
  | |- triple _ (fail _) _ _ => by apply fail_during
  | |- triple _ (if _ then _ else _) _ _ => case_match
  | |- triple _ (match _ with _ => _ end) _ _ => case_match
  | |- triple _ (ret _) _ _ => by intros s Hs
  end.
Qed.

Lemma storage_during k evidence :
  (1 <= k <= 15)%nat ->
  triple (during k evidence) (set_up_storage run_traced)
    (fun _ s => exists r, said "ready" r /\ during k (Ran storageStepCommand (Ok r) :: evidence) s) stopped.
Proof.
  intros Hk. unfold set_up_storage. apply then_exec; [done|by vm_compute|]. intros r.
  destruct (_ || _) eqn:E; [by apply fail_during|]. intros s Hs. exists r. split; [|done].
  apply orb_false_iff in E as [E1 E2]. unfold said. split; tests; lia || done.
Qed.

Lemma verify_during k evidence image :
  (1 <= k <= 15)%nat ->
  triple (during k evidence) (verify_image run_traced image)
    (fun _ s => exists r, said (podmanImageId image) r
                          /\ during k (Ran (imageIdCommand image) (Ok r) :: evidence) s) stopped.
Proof.
  intros Hk. unfold verify_image. apply then_step; [done|done|]. intros r Hr.
  case_bool_decide as E; [|by apply fail_during]. intros s Hs. by exists r.
Qed.

Lemma client_during k evidence image :
  (1 <= k <= 15)%nat ->
  triple (during k evidence) (check_client run_traced image)
    (fun _ s => exists r, includes CLIENT_BANNER (stdout r +:+ newline +:+ stderr r) = true
                          /\ during k (Ran (clientCheckCommand image) (Ok r) :: evidence) s) stopped.
Proof.
  intros Hk. unfold check_client. apply then_exec; [done|done|]. intros r.
  destruct (includes _ _) eqn:E; [intros s Hs; by exists r|by apply fail_during].
Qed.

Lemma templates_during k evidence templates :
  (1 <= k <= 15)%nat ->
  triple (during k evidence) (for_each SUPPORTING_UNIT_NAMES (install_template run_traced templates))
    (fun _ => during k evidence) stopped.
Proof.
  intros Hk. apply triple_for_each_all. intros name _. unfold install_template.
  apply then_step; [done|done|]. intros r _ s Hs. eapply during_weaken; [|exact Hs]. apply incl_tl, incl_refl.
Qed.

(** The hash was right, and nothing but a report came since. *)
Definition just_checked (release : MccRelease) (workDir : string) (t : Trace) : Prop :=
  exists earlier checked p,
    t = earlier ++ [Ran (check_command release workDir) checked; Reported p] /\ succeeded checked.

Lemma check_download_during release workDir evidence :
  triple (during 7 evidence)
    (advance report_traced 7 ;;;
     step run_traced (check_command release workDir) "The downloaded client did not match its expected checksum"
       PROVISION_STEP_TIMEOUT_MS None ;;;
     advance report_traced 8)
    (fun _ s => just_checked release workDir s.2 /\ during 9 evidence s) stopped.
Proof.
  apply next_step; [lia|]. intros [f t] Hs.
  unfold step, exec, bind, on_snd, run_traced. cbn [fst snd].
  pose proof (exec_during 8 evidence (check_command release workDir) PROVISION_STEP_TIMEOUT_MS None
    ltac:(lia) ltac:(done) (f, t) Hs) as He.
  unfold exec, on_snd, run_traced in He. cbn [fst snd] in He.
  destruct (machine t _ _ _) as [r|e]; [|exact He].
  destruct (negb (exitCode r =? 0)) eqn:E0.
  - cbn. eapply during_stopped; [|exact He]; lia.
  - cbn [ret]. apply negb_false_iff, Z.eqb_eq in E0.
    pose proof (advance_during 8 _ ltac:(lia) _ He) as Ha.
    unfold advance in *. cbn [nth_error PROVISION_STEPS fst snd on_snd report_traced] in *.
    split; [|eapply during_weaken; [|exact Ha]; apply incl_tl, incl_refl].
    eexists t, (Ok r), _. cbn [snd]. rewrite <- app_assoc. split; [done|]. by exists r.
Qed.

Lemma install_during release workDir evidence :
  pinned release ->
  triple (fun s => just_checked release workDir s.2 /\ during 9 evidence s)
    (step run_traced (install_command workDir) "Failed to install the client" PROVISION_STEP_TIMEOUT_MS None)
    (fun _ s => exists r, exitCode r = 0 /\ during 9 (Ran (install_command workDir) (Ok r) :: evidence) s)
    stopped.
Proof.
  intros Hp [f t] [(earlier & checked & p & Ht & Hok) (H1 & H2 & H3)]. cbn [snd] in *.
  assert (H : forall answer,
    during 9 (Ran (install_command workDir) answer :: evidence) (f, t ++ [Ran (install_command workDir) answer])).
  { intros answer. split_and!; cbn [snd].
    - rewrite reports_app, H1. done.
    - apply installs_app; [done|]. intros w a Hw. assert (E : install_command workDir = install_command w) by congruence.
      exists earlier, release, checked, p. split_and!; try done.
      apply install_command_inj in E as <-. exact Ht.
    - constructor; [apply in_or_app; right; by left|by apply evidence_app]. }
  unfold step, exec, bind, on_snd, run_traced. cbn [fst snd].
  specialize (H (machine t (install_command workDir) PROVISION_STEP_TIMEOUT_MS None)).
  destruct (machine t _ _ _) as [r|e]; [|eapply during_stopped; [|exact H]; lia].
  destruct (negb _) eqn:E0.
  - eapply during_stopped; [|exact H]; lia.
  - exists r. split; [|done]. apply negb_false_iff in E0. lia.
Qed.

Lemma swallow_exec_during k evidence command timeoutMs stdin E :
  (1 <= k <= 15)%nat -> harmless command ->
  triple (during k evidence) (swallow (exec run_traced command timeoutMs stdin ;;; ret tt))
    (fun _ => during k evidence) E.
Proof.
  intros Hk Hc [f t] (H1 & H2 & H3).
  unfold swallow, try_catch, bind, ret, exec, on_snd, run_traced. cbn [fst snd] in *.
  assert (H : forall answer, during k evidence (f, t ++ [Ran command answer])).
  { intros answer. split_and!; cbn [snd].
    - rewrite reports_app, H1. simpl. by rewrite app_nil_r.
    - apply installs_app; [done|]. intros w a E'. by destruct (harmless_ran _ _ Hc _ _ E').
    - by apply evidence_app. }
  specialize (H (machine t command timeoutMs stdin)).
  by destruct (machine t command timeoutMs stdin) as [r|e].
Qed.

Lemma install_download_during release workDir evidence :
  pinned release ->
  triple (during 7 evidence) (install_download run_traced report_traced release workDir)
    (fun _ s => exists r, exitCode r = 0 /\ during 9 (Ran (install_command workDir) (Ok r) :: evidence) s)
    stopped.
Proof.
  intros Hp. unfold install_download.
  apply (triple_finally _ _ _
    (fun _ s => exists r, exitCode r = 0 /\ during 9 (Ran (install_command workDir) (Ok r) :: evidence) s)
    _ _ stopped).
  - intros s Hs.
    pose proof (check_download_during release workDir evidence s Hs) as Hc.
    pose proof (fun s => install_during release workDir evidence Hp s) as Hi.
    revert Hc. unfold bind. fold (check_command release workDir) (install_command workDir).
    destruct (advance report_traced 7 s) as [[[]|e] s1]; [|done].
    destruct (step run_traced (check_command release workDir) _ _ _ s1) as [[out|e] s2]; [|done].
    destruct (advance report_traced 8 s2) as [[[]|e] s3]; [|done]. intros Hc.
    specialize (Hi s3 Hc).
    destruct (step run_traced (install_command workDir) _ _ _ s3) as [[out'|e] s4]; exact Hi.
  - intros _. apply triple_ex. intros r. apply triple_and. intros Hr s Hs.
    pose proof (swallow_exec_during 9 _ ("rm -rf " +:+ shellQuote workDir) PROVISION_STEP_TIMEOUT_MS None
      stopped ltac:(lia) ltac:(done) s Hs) as H.
    destruct (swallow _ s) as [[[]|e] s']; [by exists r|exact H].
  - intros e s (k & Hk & Hs).
    pose proof (swallow_exec_during k _ ("rm -rf " +:+ shellQuote workDir) PROVISION_STEP_TIMEOUT_MS None
      stopped Hk ltac:(done) s Hs) as H.
    destruct (swallow _ s) as [[[]|e'] s']; [by exists k|exact H].
Qed.

Lemma release_pinned machine_name release :
  mccReleaseForMachine machine_name = Ok release -> pinned release.
Proof.
  unfold mccReleaseForMachine, rbind. destruct (architectureForMachine _) as [a|e]; [|done].
  intros [= <-]. by exists a.
Qed.

Lemma download_during release evidence :
  triple (during 7 evidence) (download run_traced release) (fun _ => during 7 evidence) stopped.
Proof.
  unfold download. apply then_exec; [lia|done|]. intros r.
  destruct (negb _); [apply fail_during; lia|]. intros s Hs. eapply during_weaken; [|exact Hs].
  apply incl_tl, incl_refl.
Qed.

Lemma provisionHost_during :
  triple (during 0 []) (provisionHost run_traced report_traced)
    (fun result s => reports s.2 = REPORTS /\ installs_what_it_checked s.2 /\ found_fit result s.2) stopped.
Proof.
  unfold provisionHost.
  apply next_step; [lia|]. eapply triple_bind.
  { apply (readSystem_during 1); lia. }
  intros [[osRelease osId] osName]. apply triple_ex. intros rs. apply triple_and. intros Hsys.
  apply next_step; [lia|]. eapply triple_bind; [apply linger_during; lia|]. intros ?.
  apply triple_ex. intros rl. apply triple_and. intros Hl.
  apply next_step; [lia|]. apply then_step; [lia|done|]. intros rf _.
  eapply triple_bind; [apply stack_during; lia|]. intros stack.
  apply next_step; [lia|]. eapply triple_bind; [apply storage_during; lia|]. intros ?.
  apply triple_ex. intros rst. apply triple_and. intros Hst.
  apply next_step; [lia|]. apply then_step; [lia|done|]. intros ri _.
  apply next_step; [lia|]. apply then_step; [lia|done|]. intros rm _.
  apply then_lift; [lia|]. intros release Hrel. apply release_pinned in Hrel.
  apply next_step; [lia|]. eapply triple_bind; [apply download_during|]. intros workDir.
  eapply triple_bind; [by apply install_download_during|]. intros ?.
  apply triple_ex. intros rin. apply triple_and. intros Hin.
  apply next_step; [lia|]. apply then_step; [lia|done|]. intros rp _.
  apply next_step; [lia|]. eapply triple_bind; [apply verify_during; lia|]. intros ?.
  apply triple_ex. intros rv. apply triple_and. intros Hv.
  apply next_step; [lia|]. eapply triple_bind; [apply client_during; lia|]. intros ?.
  apply triple_ex. intros rc. apply triple_and. intros Hc.
  apply then_lift; [lia|]. intros templates _.
  apply next_step; [lia|]. apply then_step; [lia|done|]. intros ru _.
  apply next_step; [lia|]. eapply triple_bind; [apply templates_during; lia|]. intros ?.
  apply next_step; [lia|]. apply then_step; [lia|done|]. intros rd _.
  intros s (H1 & H2 & H3). split_and!; [exact H1|exact H2|]. rewrite List.Forall_forall in H3.
  unfold found_fit. cbn [pr_architecture pr_osRelease]. cbn [fst] in Hsys. split_and!.
  all: cycle 3.
  { exists workDir, rin. split; [|done]. apply H3. simpl. tauto. }
  - exists rv. split; [|exact Hv]. apply H3. simpl. tauto.
  - exists rc. split; [|exact Hc]. apply H3. simpl. tauto.
  - exists rs. split; [|exact Hsys]. apply H3. simpl. tauto.
  - exists rl. split; [|exact Hl]. apply H3. simpl. tauto.
  - exists rst. split; [|exact Hst]. apply H3. simpl. tauto.
Qed.

(** C34: whatever a machine answers, and wherever it stops: setting it up
    reports its fifteen steps in their order and with their numbers, each at
    most once, all of them when it succeeds and those up to the one that
    failed otherwise; it never installs a client whose hash has not just been
    found to be the pinned one; and a machine that is reported as ready was
    seen to run the account without root, to let it linger, to have its
    storage set up, to hold the pinned image and to start the client on it. *)
Theorem setting_up_reports_and_checks fields :
  match provisionHost run_traced report_traced (fields, []) with
  | (Ok result, (_, t)) =>
      reports t = REPORTS /\ installs_what_it_checked t /\ found_fit result t
  | (Throw _, (_, t)) =>
      exists k, (1 <= k <= 15)%nat /\ reports t = take k REPORTS /\ installs_what_it_checked t
  end.
Proof.
  assert (Hstart : during 0 [] (fields, [])).
  { split_and!; [done| |done]. intros before w a after E. by destruct before. }
  pose proof (provisionHost_during (fields, [])) as H. destruct (provisionHost _ _ _) as [[result|e] [f t]].
  - apply H, Hstart.
  - destruct (H Hstart) as (k & Hk & H1 & H2 & _). by exists k.
Qed.
End machine.

(** A machine that is set up, with what it answers to each command. *)
Definition fit_machine (_ : Trace) (command : string) (_ : Z) (_ : option string) : result ExecResult :=
  let image := podmanImageId (runtimeImageFor x64) in
  let answers :=
    [(SYSTEM_COMMAND, lines_of_script ["uid=1000"; "home=/home/mcc"; "passwd-home=/home/mcc"; "systemd=systemd 255"]);
     (LINGER_COMMAND, "yes");
     (HOST_FACTS_COMMAND, lines_of_script
       ["uid=1000"; "podman=podman version 5.0.2"; "subuid=own"; "subgid=own"; "cgroup=cgroup2fs"; "helper=pasta"]);
     (storageStepCommand, "ready");
     ("uname -m", "x86_64");
     (imageIdCommand (runtimeImageFor x64), image);
     (clientCheckCommand (runtimeImageFor x64), CLIENT_BANNER)] in
  Ok (MkExec 0 (default "" (snd <$> find (fun a => a.1 ≡? command) answers)) "").

Example a_fit_machine_is_set_up :
  (provisionHost (run_traced fit_machine) report_traced (no_fields, [])).1
  = Ok (MkProvisionResult "systemd 255" None None pasta x64).
Proof. vm_compute. reflexivity. Qed.

(** One whose download has another hash is left without a client. *)
Example a_wrong_download_is_not_installed :
  let tampered t command timeoutMs stdin :=
    if includes "sha256sum" command then Ok (MkExec 1 "" "FAILED") else fit_machine t command timeoutMs stdin in
  let run := provisionHost (run_traced tampered) report_traced (no_fields, []) in
  run.1 = Throw (HostProvisioningFailedError "The downloaded client did not match its expected checksum: FAILED")
  /\ length (reports run.2.2) = 8%nat.
Proof. vm_compute. split; reflexivity. Qed.
