(* ===== verification/HostCheck.v ===== *)
(** Looking at a machine before it is enrolled.

    [packages/core/src/host/check.ts], with the report of
    [packages/contracts/src/host-check.ts], and [address-probe.ts]: what a
    machine answers to five or six commands is judged under twelve names.  A
    theorem says that an account the report calls ready is one that setting the
    machine up accepts. *)

From S2P Require Import Prelude Calendar Observer HealthPoller Shell Control ClientSettings HostStore InstanceController MachineFacts Provision.

(** ** Reports *)

Inductive HostCheckName :=
  | reachable | account | systemd | check_architecture | lingering | podman_check | cgroups
  | subordinate_ids | network_helper | check_storage | tcp_forwarding | cloud_metadata.

#[global] Instance HostCheckName_eq_dec : EqDecision HostCheckName.
Proof. solve_decision. Defined.

Definition HOST_CHECK_NAMES : list HostCheckName :=
  [reachable; account; systemd; check_architecture; lingering; podman_check; cgroups;
   subordinate_ids; network_helper; check_storage; tcp_forwarding; cloud_metadata].

Inductive HostCheckOutcome := passed | failed | warned | not_checked.

#[global] Instance HostCheckOutcome_eq_dec : EqDecision HostCheckOutcome.
Proof. solve_decision. Defined.

Record HostCheckResult := MkCheck {
  check_name : HostCheckName; check_outcome : HostCheckOutcome; check_detail : string;
  check_command : option string; check_hint : option string }.

Record HostCheckReport := MkReport { report_ready : bool; report_checks : list HostCheckResult }.

Definition isBlocking (check : HostCheckResult) : bool := check_outcome check ≡? failed.

Definition reportFrom (checks : list HostCheckResult) : HostCheckReport :=
  MkReport (forallb (fun check => negb (isBlocking check)) checks) checks.

(** ** What is said *)

Definition CHECK_TIMEOUT_MS : Z := 20000.
Definition FORWARD_PROBE_PORT : Z := 22.
Definition USED_STORAGE_REFUSAL : string := "Podman on this account already has data. Use a fresh account.".
Definition STORAGE_SETTINGS_REFUSAL : string := "This account's Podman storage settings aren't supported.".
Definition APT_INSTALL : string := "sudo apt-get install -y --no-install-recommends --no-remove".
Definition PODMAN_INSTALL_COMMAND : string :=
  APT_INSTALL +:+ " podman uidmap slirp4netns catatonit dbus-user-session " +:+ OVERLAY_HELPER.
Definition OVERLAY_HELPER_COMMAND : string := APT_INSTALL +:+ " " +:+ OVERLAY_HELPER.

Definition PACKAGE_FOR_STACK (stack : NetworkStack) : string :=
  match stack with slirp4netns => "slirp4netns" | pasta => "passt" end.

Definition networkHelperCommand (stack : NetworkStack) : string :=
  APT_INSTALL +:+ " " +:+ PACKAGE_FOR_STACK stack.

Definition subordinateIdsCommand (range : Z * Z) (account : string) : string :=
  let ids := decimal range.1 +:+ "-" +:+ decimal range.2 in
  "sudo usermod --add-subuids " +:+ ids +:+ " --add-subgids " +:+ ids +:+ " " +:+ accountWord account.

(** [resultWith(outcome)(name, detail, { command, hint })] *)
Definition resultWith (outcome : HostCheckOutcome) (name : HostCheckName) (detail : string)
    (command hint : option string) : HostCheckResult := MkCheck name outcome detail command hint.

Definition pass_ (name : HostCheckName) (detail : string) : HostCheckResult :=
  resultWith passed name detail None None.
Definition fail_ (name : HostCheckName) (detail : string) : HostCheckResult :=
  resultWith failed name detail None None.
Definition skipped (name : HostCheckName) (detail : string) : HostCheckResult :=
  resultWith not_checked name detail None None.

Definition NOT_CHECKED : string := "Not checked".

Definition unreachableReport (reason : string) : HostCheckReport :=
  reportFrom
    (map (fun name => if name ≡? reachable then fail_ name reason else skipped name NOT_CHECKED)
       HOST_CHECK_NAMES).

Definition reachedHost (report : HostCheckReport) : bool :=
  existsb (fun check => (check_name check ≡? reachable) && (check_outcome check ≡? passed))
    (report_checks report).

Definition auditOutcomeFor (report : option HostCheckReport) : string :=
  match report with
  | None => "interrupted"
  | Some r => if negb (reachedHost r) then "unreachable" else if report_ready r then "ready" else "blocked"
  end.

Record CheckHostInput := MkCheckInput {
  ch_hostname : string; ch_port : Z; ch_username : string; ch_sshKeyId : string;
  ch_expectedFingerprint : string }.

Definition checkAuditDetail (input : CheckHostInput) (report : option HostCheckReport)
    : list (string * string) :=
  [("hostname", ch_hostname input); ("port", decimal (ch_port input)); ("account", ch_username input);
   ("sshKeyId", ch_sshKeyId input); ("fingerprint", ch_expectedFingerprint input);
   ("outcome", auditOutcomeFor report)].

(** ** The judgements *)

Definition PodmanInfo : Type := option bool * option string.

Definition accountResult (facts : HostPodmanFacts) (info : option PodmanInfo) : HostCheckResult :=
  let rootless := let? i := info in i.1 in
  match fact_uid facts with
  | None => fail_ account "Couldn't read this account's user id."
  | Some uid =>
      if (uid =? 0) || (rootless ≡? Some false) then fail_ account ROOT_REFUSAL
      else if rootless ≡? Some true then pass_ account "Not root, and Podman runs rootless"
      else pass_ account "Not root. Rootless Podman is checked during setup."
  end.

Definition systemdResult (release : option string) (usableHome : bool) : HostCheckResult :=
  match release with
  | None => fail_ systemd "This host does not appear to run systemd"
  | Some r =>
      if negb usableHome
      then resultWith failed systemd "This account's home folder can't be used." None
             (Some "It must be the account's own home, and may only contain letters, digits, ., _, - and /.")
      else pass_ systemd r
  end.

Definition architectureResult (machine : string) : HostCheckResult :=
  match architectureForMachine machine with
  | Ok a => pass_ check_architecture (trim machine +:+ " uses the " +:+ architecture_text a +:+ " build")
  | Throw error => fail_ check_architecture (reason_of "Unsupported architecture" error)
  end.

Definition podmanResult (facts : HostPodmanFacts) : HostCheckResult :=
  match fact_podman facts with
  | None =>
      resultWith failed podman_check "Podman isn't installed." (Some PODMAN_INSTALL_COMMAND)
        (Some "This list is for Debian 12 and Ubuntu 24.04. On Debian 13, install passt in place of slirp4netns.")
  | Some found =>
      let version := formatPodmanVersion found in
      if negb (meetsPodmanFloor found)
      then resultWith failed podman_check
             ("Needs Podman " +:+ formatPodmanVersion PODMAN_FLOOR +:+ " or newer. This server has "
                +:+ version +:+ ".") None
             (Some "Ubuntu 22.04 is too old. Debian 12, Debian 13 and Ubuntu 24.04 work.")
      else resultWith passed podman_check ("Podman " +:+ version) None
             (if (fact_os facts).1 ≡? Some "ubuntu"
              then Some "Ubuntu support is untested on a real Ubuntu host." else None)
  end.

Definition subordinateIdsResult (facts : HostPodmanFacts) (account : string) : HostCheckResult :=
  if sub_own (fact_subuid facts) && sub_own (fact_subgid facts) then pass_ subordinate_ids "Set up"
  else resultWith failed subordinate_ids "This account can't run containers yet."
         (Some (subordinateIdsCommand
                  (nextSubordinateRange (sub_end (fact_subuid facts)) (sub_end (fact_subgid facts))) account))
         (Some "The range starts after the highest one in /etc/subuid and /etc/subgid. Ranges from a directory service (NSS) aren't seen here.").

(** Podman, when it is new enough. *)
Definition usable_podman (facts : HostPodmanFacts) : option PodmanVersion :=
  let? found := fact_podman facts in if meetsPodmanFloor found then Some found else None.

Definition networkHelperResult (facts : HostPodmanFacts) : HostCheckResult :=
  match usable_podman facts with
  | None => skipped network_helper NOT_CHECKED
  | Some found =>
      let stack := requiredStackFor (major found) in
      if bool_decide (stack ∈ fact_helpers facts)
      then pass_ network_helper ("Uses " +:+ stack_text stack)
      else resultWith failed network_helper "A Podman network helper is missing."
             (Some (networkHelperCommand stack)) None
  end.

Definition storageResult (facts : HostPodmanFacts) (info : option PodmanInfo) : HostCheckResult :=
  if (0 <? length (fact_overrides facts))%nat
  then resultWith failed check_storage STORAGE_SETTINGS_REFUSAL None
         (Some "Unset XDG_CONFIG_HOME, XDG_DATA_HOME and CONTAINERS_STORAGE_CONF for this account, and remove rootless_storage_path from /etc/containers/storage.conf.")
  else
    match fact_storage facts with
    | storage_fresh =>
        if fact_overlayHelper facts then resultWith warned check_storage "Set up during provisioning." None None
        else resultWith warned check_storage
               ("Set up during provisioning. Some kernels need " +:+ OVERLAY_HELPER +:+ " for that.")
               (Some OVERLAY_HELPER_COMMAND)
               (Some "Podman uses the kernel's own overlay where it can. Where it can't, this package is the only way, and provisioning stops without it.")
    | state =>
        match info with
        | None => skipped check_storage NOT_CHECKED
        | Some (_, driver) =>
            let refused := match driver with
                           | Some name => negb (name ≡? "overlay")
                           | None => match state with storage_is_used => true | _ => false end
                           end in
            if refused
            then resultWith failed check_storage USED_STORAGE_REFUSAL None
                   (Some "Provisioning sets up storage only for an account that has never run Podman.")
            else pass_ check_storage "Set up"
        end
    end.

Definition metadataResult (reach : MetadataReach) : HostCheckResult :=
  match reach with
  | answered => resultWith warned cloud_metadata "Bots on this server can reach its cloud metadata service." None
                  (Some "Don't give this server cloud roles or credentials.")
  | unanswered => pass_ cloud_metadata "Not reachable"
  | unchecked => resultWith not_checked cloud_metadata NOT_CHECKED None (Some "curl isn't installed.")
  end.

Definition lingeringResult (output account : string) : HostCheckResult :=
  if trim output ≡? "yes" then pass_ lingering "On"
  else resultWith failed lingering "Bots would stop when you log out." (Some (lingerCommand account)) None.

Definition cgroupsResult (cgroupV2 : bool) : HostCheckResult :=
  if cgroupV2 then pass_ cgroups "Supported"
  else resultWith failed cgroups "This server's system is too old for Podman." None (Some "Podman needs cgroup v2.").

Definition forwardingResult (forwards : bool) : HostCheckResult :=
  if forwards then pass_ tcp_forwarding "Live control can reach instances through this connection"
  else resultWith warned tcp_forwarding
         "This host's sshd refuses port forwarding, so live instance control will not work. Set AllowTcpForwarding to yes to enable it."
         None None.

Definition readsPodmanInfo (facts : HostPodmanFacts) : bool :=
  match fact_uid facts with None => false | Some uid => negb (uid =? 0) end
  && bool_decide (is_Some (usable_podman facts))
  && (length (fact_overrides facts) =? 0)%nat
  && match fact_storage facts with storage_fresh => false | _ => true end.

(** The report on what was read. *)
Definition report_on (facts : HostPodmanFacts) (info : option PodmanInfo) (release : option string)
    (machine linger account : string) (forwards : bool) : HostCheckReport :=
  reportFrom
    [pass_ reachable "Connected and the host key matched";
     accountResult facts info;
     systemdResult release (fact_usableHome facts);
     architectureResult machine;
     lingeringResult linger account;
     podmanResult facts;
     cgroupsResult (fact_cgroupV2 facts);
     subordinateIdsResult facts account;
     networkHelperResult facts;
     storageResult facts info;
     forwardingResult forwards;
     metadataResult (fact_metadata facts)].

Definition checkHostOverTransport {W} (transport : HostTransport W) (account : string)
    : M W HostCheckReport :=
  let read command := tr_exec transport command CHECK_TIMEOUT_MS None in
  let* version := read "systemctl --version | head -n 1" in
  let* machine := read "uname -m" in
  let* answer := read HOST_FACTS_COMMAND in
  let facts := parseHostFacts (stdout answer) in
  let* linger := read LINGER_COMMAND in
  let* info := if readsPodmanInfo facts
               then let* answer := read PODMAN_INFO_COMMAND in ret (Some (parsePodmanInfo (stdout answer)))
               else ret None in
  let* forwards := tr_canForward transport FORWARD_PROBE_PORT CHECK_TIMEOUT_MS in
  ret (report_on facts info (hostFact (stdout version)) (stdout machine) (stdout linger) account forwards).

(** ** What the step that sets up storage does on the machine *)

(** [$(...)] of the shell: the output without the line ends behind it. *)
Fixpoint without_line_ends (reversed : string) : string :=
  match reversed with
  | String "010" rest => without_line_ends rest
  | _ => reversed
  end.

Definition captured (output : string) : string := String.rev (without_line_ends (String.rev output)).

(** The script [storageStepCommand], run where [overrides] are set and the
    storage is in [state]; [written] says whether the configuration of a fresh
    account could be written, [podman] is what [podman info] answered, and
    [told] is what its commands wrote to stderr.  What [undo] removes is not
    part of the answer. *)
Definition storageStep (overrides : list string) (state : AccountStorage) (written : bool)
    (podman : ExecResult) (told : string) : ExecResult :=
  let answer code line := MkExec code (if line ≡? "" then "" else line +:+ newline) told in
  if (0 <? length overrides)%nat then answer 1 "refused"
  else if match state with storage_fresh => negb written | _ => false end then answer 1 ""
  else if negb (exitCode podman =? 0)
  then answer 1 (match state with storage_is_used => "used" | _ => "" end)
  else
    let info := captured (stdout podman) in
    if info ≡? "true overlay" then answer 0 "ready"
    else if startsWith "true " info then answer 1 "used"
    else answer 1 "root".

(** ** Whether anything answers at an address *)

Inductive AddressProbeOutcome := ap_answered | no_answer | refused | timed_out | not_ssh | unclear.

(** [SshHandshake] of the transport; a failure with the fields [code] and
    [level] of its error, when they are texts. *)
Inductive SshHandshake :=
  | handshake_key | handshake_timed_out | handshake_closed
  | handshake_failed (code level : option string) (message : string).

Definition NO_ANSWER_CODES : list string :=
  ["ENOTFOUND"; "EAI_AGAIN"; "EHOSTUNREACH"; "ENETUNREACH"; "ENETDOWN"].

Definition NOT_SSH_HANDSHAKE (message : string) : bool :=
  existsb (fun part => includes part (toLowerCase message))
    ["identification string"; "header line too long"; "greeting lines"; "expected newline"].

Definition outcomeForFailure (code level : option string) (message : string) : AddressProbeOutcome :=
  let code := default EmptyString code in
  let level := default EmptyString level in
  if bool_decide (code ∈ NO_ANSWER_CODES) then no_answer
  else if code ≡? "ECONNREFUSED" then refused
  else if code ≡? "ETIMEDOUT" then timed_out
  else if level ≡? "client-dns" then no_answer
  else if (level ≡? "client-timeout") || includes "timed out" (toLowerCase message) then timed_out
  else if NOT_SSH_HANDSHAKE message then not_ssh
  else unclear.

Definition addressProbeOutcomeFor (handshake : SshHandshake) : AddressProbeOutcome :=
  match handshake with
  | handshake_key => ap_answered
  | handshake_timed_out => timed_out
  | handshake_closed => unclear
  | handshake_failed code level message => outcomeForFailure code level message
  end.

(** ** Trimming twice *)

Lemma rev_app_spec a b : String.rev_app a b = String.rev a +:+ b.
Proof.
  unfold String.rev. revert b. induction a as [|x a IH]; intros b; [done|]. simpl.
  rewrite (IH (String x b)), (IH (String x "")), string_app_assoc. done.
Qed.

Lemma rev_cons x a : String.rev (String x a) = String.rev a +:+ String x "".
Proof. exact (rev_app_spec a (String x "")). Qed.

Lemma rev_concat a b : String.rev (a +:+ b) = String.rev b +:+ String.rev a.
Proof.
  induction a as [|x a IH]; simpl.
  - by rewrite string_app_nil_r.
  - by rewrite string_app_cons, !rev_cons, IH, string_app_assoc.
Qed.

Lemma rev_rev a : String.rev (String.rev a) = a.
Proof. induction a as [|x a IH]; [done|]. by rewrite rev_cons, rev_concat, IH. Qed.

(** A text without white space in front. *)
Definition bare (value : string) : Prop := trim_start value = value.

Lemma trim_start_suffix value : exists front, value = front +:+ trim_start value.
Proof.
  induction value as [|c value [front IH]]; [by exists ""|]. simpl.
  destruct (is_white c); [|by exists ""]. exists (String c front). by rewrite string_app_cons, <- IH.
Qed.

Lemma trim_start_bare value : bare (trim_start value).
Proof.
  unfold bare. induction value as [|c value IH]; [done|]. simpl.
  destruct (is_white c) eqn:E; [done|]. simpl. by rewrite E.
Qed.

Lemma bare_prefix a b : bare (a +:+ b) -> bare a.
Proof.
  unfold bare. destruct a as [|c a]; [done|]. rewrite string_app_cons. simpl.
  destruct (is_white c); [|done]. intros H. exfalso.
  destruct (trim_start_suffix (a +:+ b)) as [front Hf]. rewrite H in Hf.
  apply (f_equal String.length) in Hf. rewrite (string_length_app front) in Hf. simpl in Hf. lia.
Qed.

Lemma trim_trim value : trim (trim value) = trim value.
Proof.
  unfold trim. set (u := trim_start (String.rev (trim_start value))).
  assert (Hu : bare (String.rev u)).
  { destruct (trim_start_suffix (String.rev (trim_start value))) as [front Hf]. fold u in Hf.
    apply (bare_prefix _ (String.rev front)). rewrite <- rev_concat, <- Hf, rev_rev. apply trim_start_bare. }
  rewrite Hu, rev_rev. f_equal. apply trim_start_bare.
Qed.

(** ** What is called ready can be set up *)

(** [podman info] as it answers: a line with whether it runs rootless and the
    name of its storage driver, or a failure without output. *)
Definition driver_name (name : string) : bool :=
  chars_all (fun c => is_letter c || is_digit c || (c ≡? "_"%char) || (c ≡? "-"%char)) name
  && (1 <=? String.length name)%nat && (String.length name <=? 32)%nat.

Definition rootless_text (rootless : bool) : string := if rootless then "true" else "false".

Inductive podman_answers : ExecResult -> option (bool * string) -> Prop :=
  | podman_fails code told : code <> 0 -> podman_answers (MkExec code "" told) None
  | podman_tells rootless driver told :
      driver_name driver = true ->
      podman_answers (MkExec 0 (rootless_text rootless +:+ " " +:+ driver +:+ newline) told)
        (Some (rootless, driver)).

Lemma plain_name c :
  is_letter c || is_digit c || (c ≡? "_"%char) || (c ≡? "-"%char) = true -> is_white c = false.
Proof. destruct c as [[] [] [] [] [] [] [] []]; vm_compute; congruence. Qed.

Lemma bare_cons c value : is_white c = false -> bare (String c value).
Proof. intros H. unfold bare. simpl. by rewrite H. Qed.

Lemma name_line word driver :
  bare word -> word <> "" -> driver_name driver = true ->
  trim (word +:+ " " +:+ driver +:+ newline) = word +:+ " " +:+ driver
  /\ captured (word +:+ " " +:+ driver +:+ newline) = word +:+ " " +:+ driver.
Proof.
  intros Hw Hne Hd. unfold driver_name in Hd. apply andb_true_iff in Hd as [[Hall Hlen]%andb_true_iff _].
  apply Nat.leb_le in Hlen.
  assert (Hrev : exists c rest, String.rev (word +:+ " " +:+ driver) = String c rest
                   /\ is_white c = false /\ (c ≡? "010"%char) = false).
  { rewrite <- chars_all_rev in Hall. rewrite !rev_concat.
    destruct (String.rev driver) as [|c rest] eqn:E.
    - apply (f_equal String.rev) in E. rewrite rev_rev in E. subst. simpl in Hlen. lia.
    - rewrite string_app_assoc, string_app_cons. eexists _, _. split; [done|].
      apply andb_true_iff in Hall as [Hc _]. apply plain_name in Hc. split; [done|].
      case_bool_decide; [by subst|done]. }
  destruct Hrev as (c & rest & Hr & Hc & Hn).
  assert (Ht : trim_start (word +:+ " " +:+ driver +:+ newline) = word +:+ " " +:+ driver +:+ newline).
  { destruct word as [|x word]; [done|]. rewrite string_app_cons. apply bare_cons.
    unfold bare in Hw. simpl in Hw. destruct (is_white x); [|done]. exfalso.
    destruct (trim_start_suffix word) as [front Hf]. rewrite Hw in Hf.
    apply (f_equal String.length) in Hf. rewrite string_length_app in Hf. simpl in Hf. lia. }
  assert (Hline : String.rev (word +:+ " " +:+ driver +:+ newline) = String "010" (String c rest)).
  { rewrite <- Hr, <- string_app_assoc, <- string_app_assoc, rev_concat, !string_app_assoc. done. }
  split.
  - unfold trim. rewrite Ht, Hline. simpl. rewrite Hc, <- Hr. apply rev_rev.
  - unfold captured. rewrite Hline. change (String.rev (without_line_ends (String c rest)) = word +:+ " " +:+ driver).
    assert (He : without_line_ends (String c rest) = String c rest).
    { by destruct c as [[] [] [] [] [] [] [] []]. }
    rewrite He, <- Hr. apply rev_rev.
Qed.

Lemma rootless_line rootless driver :
  driver_name driver = true ->
  parsePodmanInfo (rootless_text rootless +:+ " " +:+ driver +:+ newline) = (Some rootless, Some driver)
  /\ captured (rootless_text rootless +:+ " " +:+ driver +:+ newline) = rootless_text rootless +:+ " " +:+ driver.
Proof.
  intros Hd. assert (Hb : bare (rootless_text rootless) /\ rootless_text rootless <> "") by (by destruct rootless).
  destruct (name_line _ _ (proj1 Hb) (proj2 Hb) Hd) as [Ht Hc].
  split; [|done]. unfold parsePodmanInfo. rewrite Ht. unfold after. fold (driver_name driver).
  assert (Hs : slice_from (String.length (rootless_text rootless +:+ " "))
                 (rootless_text rootless +:+ " " +:+ driver) = driver).
  { rewrite <- string_app_assoc, <- (Nat.add_0_r (String.length _)), slice_from_app. done. }
  unfold driver_name in Hd. destruct rootless; cbn [rootless_text] in *.
  - rewrite <- (string_app_assoc "true" " " driver), startsWith_part, string_app_assoc, Hs. by rewrite Hd.
  - change (startsWith ("true" +:+ " ") ("false" +:+ " " +:+ driver)) with false. cbn [mbind option_bind].
    rewrite <- (string_app_assoc "false" " " driver), startsWith_part, string_app_assoc, Hs. by rewrite Hd.
Qed.

Section agreement.
Context (facts : HostPodmanFacts) (podman : ExecResult) (release : option string).
Context (machine linger account : string) (forwards : bool).

(** What [checkHostOverTransport] takes from [podman info]. *)
Definition info : option PodmanInfo :=
  if readsPodmanInfo facts then Some (parsePodmanInfo (stdout podman)) else None.

(** Podman answered that it runs with root's rights. *)
Definition rootful : Prop := exists driver, info = Some (Some false, driver).

Lemma blocking_iff check : negb (isBlocking check) = true <-> check_outcome check <> failed.
Proof. unfold isBlocking. case_bool_decide; split; done. Qed.

Lemma stack_accepts {W} (s : FailureFields * W) stack :
  networkStackFor facts s = (Ok stack, s) <->
  (exists uid, fact_uid facts = Some uid /\ uid <> 0)
  /\ (exists found, usable_podman facts = Some found /\ stack = requiredStackFor (major found)
        /\ stack ∈ fact_helpers facts)
  /\ fact_cgroupV2 facts = true /\ sub_own (fact_subuid facts) = true /\ sub_own (fact_subgid facts) = true.
Proof.
  unfold networkStackFor, usable_podman, fail, fail_with, ret, throw, bind, on_fst, modify.
  destruct (fact_uid facts) as [uid|]; [|split; [done|intros ((? & ? & _) & _); done]].
  destruct (Z.eqb_spec uid 0) as [->|Hu]; [split; [done|intros ((? & [= <-] & ?) & _); done]|].
  destruct (fact_podman facts) as [found|]; [|split; [done|intros (_ & (? & ? & _) & _); done]].
  destruct (meetsPodmanFloor found); simpl; [|split; [done|intros (_ & (? & ? & _) & _); done]].
  destruct (fact_cgroupV2 facts); simpl; [|split; [done|intros (_ & _ & ? & _); done]].
  destruct (sub_own (fact_subuid facts)); simpl; [|split; [done|intros (_ & _ & _ & ? & _); done]].
  destruct (sub_own (fact_subgid facts)); simpl; [|split; [done|intros (_ & _ & _ & _ & ?); done]].
  case_bool_decide as Hh.
  - split.
    + intros [= <-]. split_and!; eauto.
    + intros (_ & (found' & [= <-] & -> & _) & _). done.
  - split; [done|]. intros (_ & (found' & [= <-] & -> & ?) & _). done.
Qed.

(** The step that sets up storage goes on after [result]. *)
Definition storage_set (result : ExecResult) : Prop :=
  forall W (s : FailureFields * W), set_up_storage (fun _ _ _ => ret result) s = (Ok tt, s).

Lemma storage_set_iff result : storage_set result <-> exitCode result = 0 /\ trim (stdout result) = "ready".
Proof.
  unfold storage_set, set_up_storage, exec, on_snd, bind, ret, fail_with, throw, on_fst, modify. split.
  - intros H. specialize (H unit (no_fields, tt)). simpl in H.
    destruct (Z.eqb_spec (exitCode result) 0); [|done]. case_bool_decide; done.
  - intros [-> ->] W [f w]. done.
Qed.

Lemma step_told written told state rootless driver told' :
  driver_name driver = true -> state <> storage_fresh ->
  storageStep [] state written (MkExec 0 (rootless_text rootless +:+ " " +:+ driver +:+ newline) told') told =
  if rootless && (driver ≡? "overlay") then MkExec 0 ("ready" +:+ newline) told
  else MkExec 1 ((if rootless then "used" else "root") +:+ newline) told.
Proof.
  intros Hd Hs. unfold storageStep. cbn [length Nat.ltb Nat.leb exitCode stdout].
  destruct (rootless_line rootless driver Hd) as [_ ->].
  destruct rootless; cbn [rootless_text andb].
  - assert (He : ("true" +:+ " " +:+ driver ≡? "true overlay") = (driver ≡? "overlay")).
    { case_bool_decide as H1; case_bool_decide as H2; try done.
      - exfalso. apply H2. by apply (string_app_inj_l ("true" +:+ " ")).
      - exfalso. apply H1. by subst. }
    rewrite He. replace (startsWith "true " ("true" +:+ " " +:+ driver)) with true
      by (symmetry; apply (startsWith_part "true " driver)).
    destruct state; [done|..]; by destruct (driver ≡? "overlay").
  - rewrite (bool_decide_eq_false_2 ("false" +:+ " " +:+ driver = "true overlay")) by done.
    destruct state; done.
Qed.

(** What the report says of the storage and of root's rights, where podman is
    there to be asked, is what the step would do. *)
Lemma storage_judged written told answer :
  podman_answers podman answer ->
  (exists uid, fact_uid facts = Some uid /\ uid <> 0) -> is_Some (usable_podman facts) ->
  (check_outcome (storageResult facts info) <> failed /\ ~ rootful <->
   fact_overrides facts = []
   /\ (fact_storage facts = storage_fresh
       \/ storage_set (storageStep (fact_overrides facts) (fact_storage facts) written podman told)
       \/ (fact_storage facts = storage_set_up /\ answer = None))).
Proof.
  intros Ha (uid & Hu & Hn%Z.eqb_neq) Hp. rewrite storage_set_iff.
  unfold rootful, info, readsPodmanInfo, storageResult.
  rewrite Hu, Hn, (bool_decide_eq_true_2 _ Hp).
  destruct (fact_overrides facts) as [|name names]; [|split; [by intros [[] _]|by intros [? _]]].
  assert (Hf : fact_storage facts = storage_fresh \/ fact_storage facts <> storage_fresh)
    by (destruct (fact_storage facts); auto; by right).
  destruct Hf as [->|Hf].
  { split; [intros _; split; [done|by left]|]. intros _. split; [by destruct (fact_overlayHelper facts)|by intros [? ?]]. }
  destruct Ha as [code told' Hc%Z.eqb_neq|rootless driver told' Hd].
  - unfold storageStep. cbn [exitCode stdout]. rewrite Hc.
    destruct (fact_storage facts); [done|..]; cbn.
    + split; [intros _; split; [done|by right; right]|]. intros _. split; [done|by intros [? ?]].
    + split; [by intros [[] _]|]. by intros [_ [|[[? _]|[? _]]]].
  - rewrite (step_told _ _ _ _ _ _ Hd Hf). cbn [stdout]. rewrite (proj1 (rootless_line rootless driver Hd)).
    destruct (fact_storage facts); [done|..]; destruct rootless; cbn; try (destruct (driver ≡? "overlay"); cbn).
    all: first
      [ split; [intros _; split; [done|right; left; split; reflexivity]|intros _; split; [done|by intros [? ?]]]
      | split; [intros [Hx Hy]; exfalso; first [by apply Hx|apply Hy; by exists (Some driver)]
               |by intros [_ [|[[? _]|[? ?]]]]] ].
Qed.

Lemma account_judged :
  check_outcome (accountResult facts info) <> failed <->
  (exists uid, fact_uid facts = Some uid /\ uid <> 0) /\ ~ rootful.
Proof.
  unfold accountResult, rootful. destruct (fact_uid facts) as [uid|]; [|split; [done|by intros [(? & ? & _) _]]].
  destruct (Z.eqb_spec uid 0) as [->|Hu]; simpl; [split; [done|by intros [(? & [= <-] & ?) _]]|].
  destruct info as [[[[|]|] driver]|]; simpl; split; try done.
  all: try (intros _; split; [by exists uid|intros [? ?]; congruence]).
  intros [_ H]. exfalso. apply H. by exists driver.
Qed.

Lemma helper_judged :
  check_outcome (podmanResult facts) <> failed /\ check_outcome (networkHelperResult facts) <> failed <->
  exists found, usable_podman facts = Some found /\ requiredStackFor (major found) ∈ fact_helpers facts.
Proof.
  unfold podmanResult, networkHelperResult, usable_podman.
  destruct (fact_podman facts) as [found|]; [|split; [by intros [[] _]|by intros (? & ? & _)]].
  destruct (meetsPodmanFloor found); simpl; [|split; [by intros [[] _]|by intros (? & ? & _)]].
  case_bool_decide; simpl; split; try done.
  - intros _. by exists found.
  - by intros [_ []].
  - intros (? & [= <-] & ?). done.
Qed.

Lemma release_exists :
  (exists found, mccReleaseForMachine (trim machine) = Ok found) <->
  check_outcome (architectureResult machine) <> failed.
Proof.
  unfold mccReleaseForMachine, architectureResult, architectureForMachine, rbind. rewrite trim_trim.
  destruct (find _ _) as [[key a]|]; simpl; split; try done; eauto. by intros [? ?].
Qed.

(** C35: the report on a machine says ready exactly when setting it up would
    accept what was read: its podman, control groups, subordinate ids and
    network helper, an account that is not root, systemd and a usable home, a
    processor with a client build, lingering that is on, no storage settings of
    the account's own, and storage where the step that sets it up says ready on
    the same answers of the machine.  Two accounts are called ready without
    that: a fresh one, for which podman is only asked after its storage was
    configured, and one set up before where [podman info] fails, which the
    report leaves to the setting up.  [podman info] answers as it is documented
    to: a line or a failure. *)
Theorem ready_is_what_setting_up_accepts written told answer
    (Hpodman : podman_answers podman answer) :
  report_ready (report_on facts info release machine linger account forwards) = true <->
  (exists stack, forall W (s : FailureFields * W), networkStackFor facts s = (Ok stack, s))
  /\ is_Some release /\ fact_usableHome facts = true
  /\ (exists found, mccReleaseForMachine (trim machine) = Ok found)
  /\ trim linger = "yes" /\ fact_overrides facts = []
  /\ (fact_storage facts = storage_fresh
      \/ (forall W (s : FailureFields * W),
            set_up_storage (fun _ _ _ =>
              ret (storageStep (fact_overrides facts) (fact_storage facts) written podman told)) s = (Ok tt, s))
      \/ (fact_storage facts = storage_set_up /\ answer = None)).
Proof.
  unfold report_on, reportFrom. cbn [report_ready forallb]. rewrite !andb_true_iff, !blocking_iff.
  rewrite account_judged, release_exists. pose proof (storage_judged written told answer Hpodman) as Hstorage.
  unfold storage_set in Hstorage.
  assert (Hstack : (exists stack, forall W (s : FailureFields * W), networkStackFor facts s = (Ok stack, s)) <->
    (exists uid, fact_uid facts = Some uid /\ uid <> 0)
    /\ (check_outcome (podmanResult facts) <> failed /\ check_outcome (networkHelperResult facts) <> failed)
    /\ fact_cgroupV2 facts = true /\ sub_own (fact_subuid facts) = true /\ sub_own (fact_subgid facts) = true).
  { rewrite helper_judged. split.
    - intros [stack H]. apply (stack_accepts (no_fields, tt)) in H; try exact None; try exact EmptyString; try exact true.
      destruct H as (? & (found & ? & -> & ?) & ?). split_and!; eauto; tauto.
    - intros (? & (found & ? & ?) & ?). eexists. intros W s. apply stack_accepts; eauto 10. }
  rewrite Hstack.
  assert (Hsys : check_outcome (systemdResult release (fact_usableHome facts)) <> failed <->
                 is_Some release /\ fact_usableHome facts = true).
  { unfold systemdResult. destruct release; [|split; [done|by intros [[? ?] _]]].
    destruct (fact_usableHome facts); simpl; split; try done; by intros [_ ?]. }
  assert (Hl : check_outcome (lingeringResult linger account) <> failed <-> trim linger = "yes").
  { unfold lingeringResult. case_bool_decide; simpl; split; done. }
  assert (Hc : check_outcome (cgroupsResult (fact_cgroupV2 facts)) <> failed <-> fact_cgroupV2 facts = true).
  { unfold cgroupsResult. destruct (fact_cgroupV2 facts); simpl; split; done. }
  assert (Hs : check_outcome (subordinateIdsResult facts account) <> failed <->
               sub_own (fact_subuid facts) = true /\ sub_own (fact_subgid facts) = true).
  { unfold subordinateIdsResult. destruct (sub_own _), (sub_own _); simpl; split; try done; by intros [? ?]. }
  assert (Hf : check_outcome (forwardingResult forwards) <> failed) by (by destruct forwards).
  assert (Hm : check_outcome (metadataResult (fact_metadata facts)) <> failed) by (by destruct (fact_metadata facts)).
  assert (Hp : check_outcome (podmanResult facts) <> failed /\ check_outcome (networkHelperResult facts) <> failed ->
               is_Some (usable_podman facts)).
  { intros (found & ? & _)%helper_judged. by exists found. }
  rewrite Hsys, Hl, Hc, Hs. clear - Hf Hm Hstorage Hp. simpl. split; intros; split_and!; try done; tauto.
Qed.
End agreement.

(** A machine on Debian 12 with podman 4.3.1, set up before. *)
Definition fit_facts (state : AccountStorage) : HostPodmanFacts :=
  MkPodmanFacts (Some 1000) true (Some "debian", Some "12") (Some (MkVersion 4 3 1)) state []
    (MkSubordinate true 0) (MkSubordinate true 0) true [slirp4netns] true unanswered.

Lemma ready_is_what_setting_up_accepts_witness :
  let ready podman := report_ready (report_on (fit_facts storage_set_up) (info (fit_facts storage_set_up) podman)
                                      (Some "systemd 252") "x86_64" "yes" "mcc" true) in
  let tells driver := MkExec 0 (rootless_text true +:+ " " +:+ driver +:+ newline) "" in
  ready (tells "overlay") = true
  /\ set_up_storage (fun _ _ _ => ret (storageStep [] storage_set_up true (tells "overlay") "")) (no_fields, tt)
     = (Ok tt, (no_fields, tt))
  /\ ready (tells "vfs") <> true.
Proof.
  split; [vm_compute; reflexivity|]. split.
  - destruct (proj1 (ready_is_what_setting_up_accepts (fit_facts storage_set_up) (MkExec 0 _ "") (Some "systemd 252")
                "x86_64" "yes" "mcc" true true "" _ (podman_tells true "overlay" "" eq_refl)) eq_refl)
      as (_ & _ & _ & _ & _ & _ & [[=]|[H|[_ [=]]]]).
    apply (H unit (no_fields, tt)).
  - intros Hready.
    destruct (proj1 (ready_is_what_setting_up_accepts (fit_facts storage_set_up) (MkExec 0 _ "") (Some "systemd 252")
                "x86_64" "yes" "mcc" true true "" _ (podman_tells true "vfs" "" eq_refl)) Hready)
      as (_ & _ & _ & _ & _ & _ & [[=]|[H|[_ [=]]]]).
    by specialize (H unit (no_fields, tt)).
Defined.

Example fit_facts_are_ready :
  let facts := fit_facts storage_fresh in
  report_ready (report_on facts None (Some "systemd 252") "x86_64" "yes" "mcc" true) = true
  /\ report_ready (report_on facts None (Some "systemd 252") "riscv64" "yes" "mcc" true) = false.
Proof. vm_compute. split; reflexivity. Qed.
