(* ===== verification/HostController.v ===== *)
(** The controller of the machines.

    [packages/core/src/host/host.controller.ts], with the checks of host keys
    in [packages/contracts/src/boundary/ssh.ts] and
    [packages/transport/src/ssh/verify.ts], and the queue of
    [packages/core/src/job/job.queue.ts].  The installation over a root
    session ([expressInstall]) is in [ExpressInstall].  A request works on the tables of
    [InstanceController.World]; the jobs are the first part of what is
    elsewhere, since a transaction takes them back too. *)

From S2P Require Import Prelude Tables Dates Calendar Observer HealthPoller Shell Control ClientSettings Access HostStore InstanceStore InstanceController MachineFacts Provision HostCheck.

Definition FingerprintMismatchError := named "FingerprintMismatchError".
Definition HostNotFoundError := named "HostNotFoundError".
Definition HostHasInstancesError := named "HostHasInstancesError".
Definition SshKeyNotFoundError := named "SshKeyNotFoundError".
Definition HostConcurrentlyModifiedError := named "HostConcurrentlyModifiedError".
Definition HostRemovalNotStartedError := named "HostRemovalNotStartedError".
Definition HostProvisioningInProgressError := named "HostProvisioningInProgressError".
Definition HostKeyUnreadableError := named "HostKeyUnreadableError".
Definition JobNotQueuedError := named "JobNotQueuedError".

Definition PROBE_TIMEOUT_MS : Z := 10000.
Definition ADDRESS_PROBE_TIMEOUT_MS : Z := 5000.
Definition HOST_TEARDOWN_QUEUE : string := "host.teardown".

(** ** Host keys

    A key is its bytes; [digest] is the base64 of their SHA-256. *)

Definition strip_end (c : Ascii.ascii) (value : string) : string :=
  let fix strip value :=
    match value with
    | String d rest => if d ≡? c then strip rest else value
    | EmptyString => EmptyString
    end in String.rev (strip (String.rev value)).

Definition fingerprintFromKey (digest : string -> string) (key : string) : string :=
  "SHA256:" +:+ strip_end "=" (digest key).

Definition isAllowedSshNameByte (byte : Ascii.ascii) : bool :=
  is_digit byte || in_range "A" "Z" byte || in_range "a" "z" byte
  || (byte ≡? "-"%char) || (byte ≡? "."%char) || (byte ≡? "@"%char).

Definition byte_at (n : nat) (key : string) : Z :=
  match String.get n key with Some c => Z.of_nat (Ascii.nat_of_ascii c) | None => 0 end.

Definition readUInt32BE (key : string) : Z :=
  ((byte_at 0 key * 256 + byte_at 1 key) * 256 + byte_at 2 key) * 256 + byte_at 3 key.

Definition algorithmFromKey (key : string) : result string :=
  let error message := Throw (ThrownError PlainError message) in
  if (String.length key <? 4)%nat then error "Host key blob is too short to contain an algorithm name"
  else
    let length := readUInt32BE key in
    if length =? 0 then error "Host key blob declares an empty algorithm name"
    else if Z.of_nat (String.length key) - 4 <? length
    then error "Host key blob declares an algorithm length exceeding the buffer"
    else
      let name := String.substring 4 (Z.to_nat length) key in
      if chars_all isAllowedSshNameByte name then Ok name
      else error "Host key blob declares an algorithm name outside the allowed character set".

(** [verifyHostKey]: the fingerprint when it is the expected one. *)
Definition verifyHostKey (digest : string -> string) (presented expected : string) : option string :=
  let fingerprint := fingerprintFromKey digest presented in
  if (String.length expected =? 0)%nat then None
  else if fingerprint ≡? expected then Some fingerprint else None.

(** ** What is shown *)

Definition host_status_text (status : HostStatus) : string :=
  match status with
  | pending => "pending" | provisioning => "provisioning" | ready => "ready"
  | unreachable => "unreachable" | host_error => "error" | removing => "removing"
  end.

Record HostPublic := MkHostPublic {
  hp_id : string; hp_name : string; hp_hostname : string; hp_port : Z; hp_username : string;
  hp_status : HostStatus; hp_hostKeyFingerprint : option string; hp_hostKeyAlgorithm : option string;
  hp_hostKeyTrustedAt : option string; hp_hostKeyTrustedByLabel : string;
  hp_osId : option string; hp_osName : option string; hp_osRelease : option string;
  hp_lastSeenAt : option string; hp_failedUnits : option Z;
  hp_provisioningStep : option string; hp_provisioningStepIndex : option Z;
  hp_provisioningStepTotal : option Z; hp_provisioningError : option string;
  hp_teardownError : option string; hp_teardownRequestedAt : option string }.

Definition toHostPublic (row : HostRow) : HostPublic :=
  let a := host_address row in
  let t := host_trust row in
  let f := host_facts row in
  let p := host_provisioning row in
  MkHostPublic (host_id row) (host_name row) (hostname a) (port a) (username a) (host_status row)
    (hostKeyFingerprint t) (hostKeyAlgorithm t) (toISOString <$> hostKeyTrustedAt t)
    (hostKeyTrustedByLabel t) (osId f) (osName f) (osRelease f) (toISOString <$> lastSeenAt f)
    (failedUnits f) (provisioningStep p) (provisioningStepIndex p) (provisioningStepTotal p)
    (provisioningError p) (teardownError row) (toISOString <$> teardownRequestedAt row).

Definition finishedProvisioning (h : HostRow) : bool := bool_decide (is_Some (osRelease (host_facts h))).

(** The fields of the job, unless nothing was installed. *)
Definition teardownPayloadFor (h : HostRow) : option (list (string * string)) :=
  let a := host_address h in
  match truthy (sshKeyId a), truthy (hostKeyFingerprint (host_trust h)) with
  | Some key, Some fingerprint =>
      if finishedProvisioning h
      then Some [("hostId", host_id h); ("hostname", hostname a); ("port", decimal (port a));
                 ("username", username a); ("sshKeyId", key); ("hostKeyFingerprint", fingerprint)]
      else None
  | _, _ => None
  end.

Definition instanceCount (organizationId id : string) (t : list InstanceRow) : Z :=
  Z.of_nat (length (List.filter
    (fun r => (in_hostId r ≡? id) && (in_organizationId r ≡? organizationId)) t)).

(** ** The controller *)

(** The writes of a request that sets a machine up: each is made once at most,
    after the lock of its transaction. *)
Inductive ProvisionWrite := write_claim | write_reclaim | write_reason | write_failed | write_ready | write_event.

(** Its calls. A queue takes a job in the transaction that adds it.
    [hd_fault] says which of the writes the database fails, and how. *)
Record HostControllerDeps (J Y : Type) := MkHostDeps {
  hd_createTransport : M (World (J * Y)) (HostTransport (World (J * Y)));
  hd_open : string -> string -> result string;
  probeHostKey : string -> Z -> Z -> M (World (J * Y)) string;
  hd_probeSshHandshake : string -> Z -> Z -> M (World (J * Y)) SshHandshake;
  evictHost : string -> string -> M (World (J * Y)) unit;
  hd_digest : string -> string;
  hd_code : thrown -> option string;
  hd_level : thrown -> option string;
  hd_onError : option (string -> thrown -> M (World (J * Y)) unit);
  hd_sendJob : string -> list (string * string) -> M J (option string);
  hd_fault : ProvisionWrite -> option thrown }.
Arguments hd_createTransport {J Y}. Arguments hd_open {J Y}. Arguments probeHostKey {J Y}.
Arguments hd_probeSshHandshake {J Y}. Arguments evictHost {J Y}. Arguments hd_digest {J Y}.
Arguments hd_code {J Y}. Arguments hd_level {J Y}. Arguments hd_onError {J Y}. Arguments hd_sendJob {J Y}.
Arguments hd_fault {J Y}.

Record CreateHostInput := MkCreateHost {
  ce_name : string; ce_hostname : string; ce_port : Z; ce_username : string; ce_sshKeyId : string;
  ce_expectedFingerprint : string }.

Definition with_hosts (x : HostRepository.Table) (t : FleetTables) : FleetTables :=
  MkFleet x (sshKeys t) (instances t) (configs t) (schedules t) (commands t) (task_tables t) (audits t).

Section controller.
Context {J Y : Type} (deps : HostControllerDeps J Y).
Abbreviation W := (World (J * Y)).

Definition require_enroll (ctx : ActorContext) (what : string) : M W unit :=
  if can (ctx_role ctx) host_enroll then ret tt else throw (ForbiddenError ("Forbidden: " +:+ what)).

Definition on_hosts {A} (f : HostRepository.Table -> A * HostRepository.Table) : M W A :=
  on_fleet (stmt (fun t => let (a, x) := f (hosts t) in (a, with_hosts x t))).

Definition on_jobs {A} (m : M J A) : M W A := fun w =>
  match m (fst (elsewhere w)) with
  | (r, j) => (r, MkWorld (fleet w) (clock w) (activeReadAt w) (j, snd (elsewhere w)))
  end.

Definition unless_fault {A} (write : ProvisionWrite) (m : M W A) : M W A :=
  match hd_fault deps write with Some error => throw error | None => m end.

(** [deps.withTransaction]: the tables and the jobs are taken back. *)
Definition host_transaction {A} (m : M W A) : M W A :=
  transaction (fun before after =>
    MkWorld (fleet before) (clock after) (activeReadAt after)
      (fst (elsewhere before), snd (elsewhere after))) m.

Definition host_event (ctx : ActorContext) (auditId action subjectId : string)
    (detail : list (string * string)) : M W unit :=
  record_audit (scopeOf ctx) auditId
    (MkAuditEntry (Some (ctx_memberId ctx)) (ctx_actorLabel ctx) action "host" subjectId detail) ;;;
  ret tt.

Definition host_not_found (hostId : string) : thrown := HostNotFoundError ("Host not found: " +:+ hostId).

Definition find_host (scope hostId : string) : M W (option HostRow) :=
  query (fun t => HostRepository.findById scope hostId (hosts t)).

(** [error instanceof Error ? connectFailureReason(error) : COULD_NOT_CONNECT] *)
Definition unreachable_reason (error : thrown) : string :=
  match error with
  | ThrownError _ message => connectFailureReason (hd_code deps error) (hd_level deps error) message
  | ThrownValue _ => COULD_NOT_CONNECT
  end.

Definition error_itself (error : thrown) : thrown :=
  match error with ThrownError _ _ => error | ThrownValue _ => internal COULD_NOT_CONNECT end.

(** ** Before a machine is enrolled *)

Definition probeAddress (ctx : ActorContext) (hostname : string) (port : Z) : M W AddressProbeOutcome :=
  require_enroll ctx "host.enroll" ;;;
  let* handshake := hd_probeSshHandshake deps hostname port ADDRESS_PROBE_TIMEOUT_MS in
  ret (addressProbeOutcomeFor handshake).

Definition presented_key (hostname : string) (port : Z) (Failure : string -> thrown) : M W string :=
  try_catch (probeHostKey deps hostname port PROBE_TIMEOUT_MS)
    (fun error => throw (Failure (unreachable_reason error))).

(** The fingerprint and the algorithm. *)
Definition readHostKey (ctx : ActorContext) (hostname : string) (port : Z) : M W (string * string) :=
  require_enroll ctx "host.enroll" ;;;
  let* presented := presented_key hostname port HostKeyUnreadableError in
  let* algorithm := lift (algorithmFromKey presented) in
  ret (fingerprintFromKey (hd_digest deps) presented, algorithm).

Inductive HostCheckAttempt := reported (report : HostCheckReport) | interrupted (error : thrown).

Definition attempt_check (input : CheckHostInput) (privateKey : string) : M W HostCheckAttempt :=
  let* transport := hd_createTransport deps in
  let options :=
    MkConnect (ch_hostname input) (ch_port input) (ch_username input) privateKey
      (ch_expectedFingerprint input) CONNECT_TIMEOUT_MS in
  let* connected :=
    try_catch (tr_connect transport options ;;; ret None)
      (fun error => swallow (tr_close transport) ;;; ret (Some (unreachable_reason error))) in
  match connected with
  | Some reason => ret (reported (unreachableReport reason))
  | None =>
      try_finally
        (try_catch (let* report := checkHostOverTransport transport (ch_username input) in ret (reported report))
           (fun error => ret (interrupted (error_itself error))))
        (swallow (tr_close transport))
  end.

Definition checkHost (ctx : ActorContext) (input : CheckHostInput) (auditId : string) : M W HostCheckReport :=
  require_enroll ctx "host.enroll" ;;;
  let* key := query (findSshKey (scopeOf ctx) (ch_sshKeyId input)) in
  match key with
  | None => throw (SshKeyNotFoundError ("SSH key not found: " +:+ ch_sshKeyId input))
  | Some k =>
      let* privateKey := lift (hd_open deps (key_privateKeyEncrypted k) (key_privateKeyKeyId k)) in
      let* attempt := attempt_check input privateKey in
      host_transaction
        (host_event ctx auditId "host.check" (ch_hostname input)
           (checkAuditDetail input (match attempt with reported report => Some report | _ => None end))) ;;;
      match attempt with interrupted error => throw error | reported report => ret report end
  end.

(** ** Enrolling *)

(** The fingerprint that was expected, and the algorithm of the key. *)
Definition verified_key (hostname : string) (port : Z) (expected mismatch : string) : M W (string * string) :=
  let* presented := presented_key hostname port HostUnreachableError in
  match verifyHostKey (hd_digest deps) presented expected with
  | None => throw (FingerprintMismatchError mismatch)
  | Some fingerprint =>
      let* algorithm := lift (algorithmFromKey presented) in ret (fingerprint, algorithm)
  end.

Definition nothing_known : HostFacts := MkFacts None None None None None None None None None.

Definition insert_host (ctx : ActorContext) (input : CreateHostInput) (newId auditId fingerprint algorithm : string)
    : M W HostPublic :=
  host_transaction (
    let* w := get in
    let values :=
      MkHostValues (ce_name input) pending
        (MkHostAddress (ce_hostname input) (ce_port input) (ce_username input) (Some (ce_sshKeyId input)))
        (MkTrust (Some fingerprint) (Some algorithm) (Some (clock w)) (Some (ctx_memberId ctx))
           (ctx_actorLabel ctx)) nothing_known in
    let* created :=
      on_fleet (fun t => match HostRepository.insert (scopeOf ctx) newId (clock w) values (hosts t) with
                         | (r, x) => (r, with_hosts x t)
                         end) in
    host_event ctx auditId "host.enroll" (host_id created)
      [("hostname", ce_hostname input); ("fingerprint", fingerprint)] ;;;
    ret (toHostPublic created)).

Definition enroll (ctx : ActorContext) (input : CreateHostInput) (newId auditId : string) : M W HostPublic :=
  require_enroll ctx "host.enroll" ;;;
  let* key := verified_key (ce_hostname input) (ce_port input) (ce_expectedFingerprint input)
                ("Host key fingerprint mismatch for " +:+ ce_hostname input) in
  insert_host ctx input newId auditId key.1 key.2.

(** ** Setting up *)

Definition no_fingerprint (hostId : string) : thrown :=
  HostMisconfiguredError ("Host " +:+ hostId +:+ " has no trusted host key fingerprint").

(** A provisioning of [h] is under way. *)
Definition is_provisioning (now : Z) (h : HostRow) : bool :=
  (host_status h ≡? provisioning)
  && negb (isProvisioningClaimStale (provisioningClaimedAt (host_provisioning h)) now).

(** The transaction that takes the claim: the row and the fingerprint to expect. *)
Definition claim_host (ctx : ActorContext) (hostId attemptId auditId : string) (found : HostRow)
    : M W (option (HostRow * string)) :=
  let scope := scopeOf ctx in
  host_transaction (
    let* locked := find_host scope hostId in
    match locked with
    | None => throw (host_not_found hostId)
    | Some l =>
        match truthy (hostKeyFingerprint (host_trust l)) with
        | None => throw (no_fingerprint hostId)
        | Some expectedFingerprint =>
            if negb (sshKeyId (host_address l) ≡? sshKeyId (host_address found))
            then throw (HostConcurrentlyModifiedError
                          ("Host " +:+ hostId +:+ " changed its ssh key before provisioning could start"))
            else
              let previousAttemptId := default EmptyString (provisioningAttemptId (host_provisioning l)) in
              let* w := get in
              let* row :=
                unless_fault write_claim
                  (on_hosts (HostRepository.claimForProvisioning scope hostId attemptId (host_status found) (clock w))) in
              match row with
              | None => ret None
              | Some r =>
                  (if host_status l ≡? provisioning
                   then unless_fault write_reclaim
                          (host_event ctx auditId "host.provision.reclaim" hostId
                             [("previousAttemptId", previousAttemptId)])
                   else ret tt) ;;;
                  ret (Some (r, expectedFingerprint))
              end
        end
    end).

(** What is known of the progress, and the world. *)
Abbreviation Tracked := (option ProvisionProgress * W)%type.

Definition reached_row (p : ProvisionProgress) : string * Z * Z := (step_label (pp_step p), pp_index p, pp_total p).

(** [onProgress]: the update is not waited for, and a failure of it is ignored.
    It is placed here where it is sent; [late_progress_is_ignored] is about one
    that arrives after the attempt has ended. *)
Definition on_progress (scope hostId attemptId : string) (p : ProvisionProgress) : M Tracked unit :=
  on_fst (modify (fun _ => Some p)) ;;;
  on_snd (on_hosts (HostRepository.recordProvisioningProgress scope hostId attemptId (reached_row p))).

Definition runProvision (scope hostId attemptId : string) (claimed : HostRow) (expectedFingerprint : string)
    (key : SshKeyRow) : M (FailureFields * Tracked) ProvisionResult :=
  let* transport := on_snd (on_snd (hd_createTransport deps)) in
  try_finally
    (let* privateKey := lift (hd_open deps (key_privateKeyEncrypted key) (key_privateKeyKeyId key)) in
     let a := host_address claimed in
     on_snd (on_snd (try_catch
       (tr_connect transport
          (MkConnect (hostname a) (port a) (username a) privateKey expectedFingerprint CONNECT_TIMEOUT_MS))
       (fun error => throw (HostUnreachableError (unreachable_reason error))))) ;;;
     provisionHost (fun command timeoutMs stdin => on_snd (tr_exec transport command timeoutMs stdin))
       (on_progress scope hostId attemptId))
    (on_snd (on_snd (swallow (tr_close transport)))).

Definition finalize_host (scope hostId attemptId : string) (patch : HostUpdateValues)
    (stack : option (option NetworkStack)) (arch : option (option HostArchitecture)) : M W (option HostRow) :=
  on_hosts (HostRepository.finalizeProvisioning scope hostId attemptId patch stack arch).

Definition status_patch (status : HostStatus) : HostUpdateValues :=
  MkHostPatch None None None None None (Some status) None None None None None None None.

Definition failure_sentence (error : thrown) (fields : FailureFields) (reached : option ProvisionProgress) : string :=
  if instanceof "HostUnreachableError" error then reason_of EmptyString error
  else
    let own := instanceof "HostProvisioningFailedError" error in
    provisioningFailureFor (pp_step <$> reached) (if own then storage fields else None)
      (own && downloadRanOutOfTime fields).

(** What is written of an attempt that failed; that it cannot be written is ignored. *)
Definition record_failure (scope hostId attemptId failure : string) (reached : option ProvisionProgress)
    : M W unit :=
  swallow (
    unless_fault write_reason
      (on_hosts (HostRepository.recordProvisioningFailure scope hostId attemptId failure (reached_row <$> reached))) ;;;
    host_transaction
      (unless_fault write_failed (finalize_host scope hostId attemptId (status_patch host_error) None None)) ;;;
    ret tt).

Definition runProvisionTracked (scope hostId attemptId : string) (claimed : HostRow)
    (expectedFingerprint : string) (key : SshKeyRow) : M W ProvisionResult := fun w =>
  match runProvision scope hostId attemptId claimed expectedFingerprint key (no_fields, (None, w)) with
  | (Ok result, (_, (_, w'))) => (Ok result, w')
  | (Throw error, (fields, (reached, w'))) =>
      let failure := failure_sentence error fields reached in
      (call_optional (hd_onError deps) ("Provisioning host " +:+ hostId +:+ " did not finish") error ;;;
       record_failure scope hostId attemptId failure reached ;;;
       throw (if instanceof "HostUnreachableError" error then error
              else HostProvisioningFailedError failure)) w'
  end.

(** The status and the system of a machine that is ready. *)
Definition ready_patch (r : ProvisionResult) : HostUpdateValues :=
  MkHostPatch None None None None None (Some ready) (Some (Some (pr_osRelease r))) None None None
    (Some (pr_osId r)) (Some (pr_osName r)) None.

Definition finish_provisioning (ctx : ActorContext) (hostId attemptId auditId : string) (r : ProvisionResult)
    : M W HostPublic :=
  host_transaction (
    let* finalized :=
      unless_fault write_ready
        (finalize_host (scopeOf ctx) hostId attemptId (ready_patch r) (Some (Some (pr_networkStack r)))
           (Some (Some (pr_architecture r)))) in
    match finalized with
    | None => throw (HostConcurrentlyModifiedError
                       ("Host " +:+ hostId +:+ " changed before provisioning could complete"))
    | Some row =>
        unless_fault write_event
          (host_event ctx auditId "host.provision" hostId [("osRelease", pr_osRelease r)]) ;;;
        ret (toHostPublic row)
    end).

(** [attemptId] is the [randomUUID()] of the claim. *)
Definition provision (ctx : ActorContext) (hostId attemptId reclaimAuditId auditId : string) : M W HostPublic :=
  require_enroll ctx "host.enroll" ;;;
  let scope := scopeOf ctx in
  let* found := find_host scope hostId in
  match found with
  | None => throw (host_not_found hostId)
  | Some f =>
      let* w := get in
      if is_provisioning (clock w) f
      then throw (HostProvisioningInProgressError ("Host " +:+ hostId +:+ " is already provisioning"))
      else
        match truthy (sshKeyId (host_address f)), truthy (hostKeyFingerprint (host_trust f)) with
        | None, _ => throw (HostMisconfiguredError ("Host " +:+ hostId +:+ " has no ssh key configured"))
        | _, None => throw (no_fingerprint hostId)
        | Some keyOf, Some _ =>
            let* key := query (findSshKey scope keyOf) in
            match key with
            | None => throw (SshKeyNotFoundError ("SSH key not found: " +:+ keyOf))
            | Some k =>
                let* claim := claim_host ctx hostId attemptId reclaimAuditId f in
                match claim with
                | None => throw (HostConcurrentlyModifiedError
                                   ("Host " +:+ hostId +:+ " changed before provisioning could start"))
                | Some (claimed, expectedFingerprint) =>
                    match provisioningAttemptId (host_provisioning claimed) with
                    | None => throw (internal ("Host " +:+ hostId +:+ " was claimed for provisioning without an attempt id"))
                    | Some attempt =>
                        let* r := runProvisionTracked scope hostId attempt claimed expectedFingerprint k in
                        finish_provisioning ctx hostId attempt auditId r
                    end
                end
            end
        end
  end.

(** ** Trusting another key *)

Definition trust_key (ctx : ActorContext) (hostId auditId fingerprint algorithm : string) : M W HostPublic :=
  let scope := scopeOf ctx in
  host_transaction (
    let* found := find_host scope hostId in
    let* w := get in
    if match found with Some f => is_provisioning (clock w) f | None => false end
    then throw (HostProvisioningInProgressError
                  ("Host " +:+ hostId +:+ " cannot be re-trusted while a provisioning attempt is in progress"))
    else
      let* trusted :=
        on_fleet (fun t =>
          match HostRepository.updateHostKeyTrust scope hostId (ctx_memberId ctx) (ctx_actorLabel ctx)
                  fingerprint algorithm (clock w) (hosts t) with
          | (r, x) => (r, with_hosts x t)
          end) in
      match trusted with
      | None => throw (host_not_found hostId)
      | Some row =>
          host_event ctx auditId "host.retrust" hostId [("fingerprint", fingerprint)] ;;;
          ret (toHostPublic row)
      end).

Definition retrustHostKey (ctx : ActorContext) (hostId fingerprint auditId : string) : M W HostPublic :=
  require_enroll ctx "host.enroll" ;;;
  let* target := find_host (scopeOf ctx) hostId in
  match target with
  | None => throw (host_not_found hostId)
  | Some t =>
      let* key := verified_key (hostname (host_address t)) (port (host_address t)) fingerprint
                    ("Host key fingerprint mismatch for host " +:+ hostId) in
      let* retrusted := trust_key ctx hostId auditId key.1 key.2 in
      evictHost deps (scopeOf ctx) hostId ;;;
      ret retrusted
  end.

Definition host_list (ctx : ActorContext) : M W (list HostPublic) :=
  if can (ctx_role ctx) instance_read
  then let* rows := query (fun t => HostRepository.list_ (scopeOf ctx) (hosts t)) in ret (map toHostPublic rows)
  else throw (ForbiddenError "Forbidden: read").

(** ** Removing *)

(** [createJobQueue(sendJob, tx).enqueue(queue, payload)] *)
Definition enqueue (queue : string) (payload : list (string * string)) : M W unit :=
  let* jobId :=
    try_catch (on_jobs (hd_sendJob deps queue payload))
      (fun error =>
         match error with
         | ThrownError PlainError message => throw (JobNotQueuedError message)
         | _ => throw error
         end) in
  match jobId with
  | None => throw (JobNotQueuedError (queue +:+ " did not take the job"))
  | Some _ => ret tt
  end.

Definition delete_host (ctx : ActorContext) (hostId auditId : string) : M W bool :=
  let* removed := on_hosts (HostRepository.delete (scopeOf ctx) hostId) in
  (if removed : bool
   then host_event ctx auditId "host.delete" hostId [("cleaned", "nothing was installed")]
   else ret tt) ;;;
  ret removed.

Definition request_teardown (ctx : ActorContext) (hostId auditId : string) (payload : list (string * string))
    : M W bool :=
  let* w := get in
  on_hosts (HostRepository.beginTeardown (scopeOf ctx) hostId (clock w)) ;;;
  try_catch (enqueue HOST_TEARDOWN_QUEUE (payload ++ [("organizationId", ctx_organizationId ctx)]))
    (fun error =>
       if instanceof "JobNotQueuedError" error
       then throw (HostRemovalNotStartedError
                     ("Host " +:+ hostId +:+ " was not removed: " +:+ reason_of EmptyString error))
       else throw error) ;;;
  host_event ctx auditId "host.teardown.requested" hostId [] ;;;
  ret true.

Definition remove_host (ctx : ActorContext) (hostId auditId : string) : M W bool :=
  let scope := scopeOf ctx in
  host_transaction (
    let* found := find_host scope hostId in
    match found with
    | None => ret false
    | Some f =>
        let* count := query (fun t => instanceCount scope hostId (instances t)) in
        let* w := get in
        if 0 <? count
        then throw (HostHasInstancesError
                      ("Host " +:+ hostId +:+ " still has " +:+ decimal count
                         +:+ " instance(s); remove them first"))
        else if is_provisioning (clock w) f
        then throw (HostProvisioningInProgressError
                      ("Host " +:+ hostId +:+ " cannot be deleted while its status is 'provisioning'"))
        else
          match teardownPayloadFor f with
          | None => delete_host ctx hostId auditId
          | Some payload => request_teardown ctx hostId auditId payload
          end
    end).

Definition remove (ctx : ActorContext) (hostId auditId : string) : M W bool :=
  require_enroll ctx "host.delete" ;;;
  let* target := find_host (scopeOf ctx) hostId in
  match target with
  | None => ret false
  | Some _ =>
      let* removed := remove_host ctx hostId auditId in
      evictHost deps (scopeOf ctx) hostId ;;;
      ret removed
  end.
End controller.
