(* ===== verification/Teardown.v ===== *)
(** Cleaning a machine that is removed.

    [packages/core/src/host/teardown.ts], the job of
    [packages/core/src/job/host-teardown.job.ts], the names of what the manager
    puts on a machine ([packages/core/src/instance/reconcile.ts]) and what the
    worker does with the outcome ([apps/worker/src/bootstrap.ts]).  A theorem
    says that the row of a machine goes only when nothing is left on it. *)

From S2P Require Import Prelude Tables Calendar Journal Observer HealthPoller Shell Control ClientSettings Access HostStore InstanceStore InstanceController MachineFacts Provision HostController.

(** ** What is the manager's *)

(** [[A-Za-z0-9_-]] from [least] to 64 times, and the rest. *)
Definition id_run (least : nat) (value : string) : option string :=
  let (id, rest) := span is_id_char value in
  if (least <=? String.length id)%nat && (String.length id <=? 64)%nat then Some rest else None.

(** [/^open-mcc(?:-sleep-(?:stop|start)|-auth)?@[A-Za-z0-9_-]{0,64}\.(?:service|timer)$/] *)
Definition MANAGED_UNIT_PATTERN (name : string) : bool :=
  existsb (fun kind =>
    match
      (let? rest := after ("open-mcc" +:+ kind +:+ "@") name in id_run 0 rest)
    with
    | Some rest => (rest ≡? ".service") || (rest ≡? ".timer")
    | None => false
    end) ["-sleep-stop"; "-sleep-start"; "-auth"; EmptyString].

Definition isManagedUnit (name : string) : bool := MANAGED_UNIT_PATTERN name.

(** [/^open-mcc-(?:auth-)?([A-Za-z0-9_-]{1,64})$/] *)
Definition MANAGED_CONTAINER_PATTERN (name : string) : bool :=
  existsb (fun kind =>
    match (let? rest := after ("open-mcc-" +:+ kind) name in id_run 1 rest) with
    | Some rest => rest ≡? EmptyString
    | None => false
    end) ["auth-"; EmptyString].

(** ** Cleaning *)

Definition TEARDOWN_TIMEOUT_MS : Z := 20000.
Definition CONTAINERS_TIMEOUT_MS : Z := 60000.
Definition IMAGE_TIMEOUT_MS : Z := 15000.
Definition FILES_TIMEOUT_MS : Z := 60000.

Definition PINNED_IMAGES : string :=
  join_with " " (map (fun a => podmanImageId (runtimeImageFor a)) [arm64; x64]).

Definition BOT_UNITS : string :=
  join_with " " (map shellQuote ["open-mcc@*.service"; "open-mcc-auth@*.service"]).

Record TeardownReport := MkTeardown {
  unitsRemoved : list string; directoryRemoved : bool; lingeringLeft : bool; remaining : list string }.

Definition linesOf (output : string) : list string :=
  List.filter (fun line => (0 <? String.length line)%nat) (map trim (split_on NEWLINE output)).

(** [line.split(/\s+/)[0]] *)
Definition first_word (line : string) : string := (span (fun c => negb (is_white c)) line).1.

Definition listUnitsCommand : string := "ls -1 " +:+ UNIT_DIR +:+ " 2>/dev/null || true".
Definition listContainersCommand : string := podman "ps -a --format '{{.Names}}'".
Definition runningUnitsCommand : string :=
  systemctl ("list-units --plain --no-legend --state=" +:+ join_with "," RUNNING_UNIT_STATES +:+ " "
               +:+ shellQuote "open-mcc*").
Definition removeImageCommand : string := withDeadline 3 10 ("podman rmi --ignore " +:+ PINNED_IMAGES).
Definition deleteFilesCommand : string :=
  withDeadline 5 50
    ("sh -c '{ [ ! -e " +:+ INSTANCES_ROOT +:+ " ] || chmod -R u+rwX -- " +:+ INSTANCES_ROOT
       +:+ "; } && rm -rf -- " +:+ INSTANCES_ROOT +:+ "'").

Definition managed_units (output : string) : list string := List.filter isManagedUnit (linesOf output).
Definition managed_containers (output : string) : list string :=
  List.filter MANAGED_CONTAINER_PATTERN (linesOf output).
Definition running_managed (output : string) : list string :=
  List.filter (fun line => isManagedUnit (first_word line)) (linesOf output).

Section cleaning.
Context {W : Type} (run : Exec W).

Definition listManagedUnits : M W (list string) :=
  let* result := run listUnitsCommand TEARDOWN_TIMEOUT_MS None in ret (managed_units (stdout result)).

Definition listContainers : M W (option (list string)) :=
  let* result := run listContainersCommand TEARDOWN_TIMEOUT_MS None in
  ret (if negb (exitCode result =? 0) then None else Some (managed_containers (stdout result))).

Definition countRunningUnits : M W (option Z) :=
  let* result := run runningUnitsCommand TEARDOWN_TIMEOUT_MS None in
  ret (if negb (exitCode result =? 0) then None
       else Some (Z.of_nat (length (running_managed (stdout result))))).

Definition exec_only (command : string) (timeoutMs : Z) : M W unit := run command timeoutMs None ;;; ret tt.

Definition containers_remaining (left_ : option (list string)) : list string :=
  match left_ with
  | None => ["The containers could not be listed"]
  | Some [] => []
  | Some names => [decimal (Z.of_nat (length names)) +:+ " container(s) still present"]
  end.

Definition running_remaining (running : option Z) : list string :=
  match running with
  | None => ["The running units could not be listed"]
  | Some n => if 0 <? n then [decimal n +:+ " unit(s) still running"] else []
  end.

(** Units and containers stopped: what is left of them. *)
Definition stop_everything (units : list string) : M W (list string) :=
  for_each units (fun unit =>
    exec_only (systemctl ("disable --now " +:+ shellQuote unit) +:+ " || true") TEARDOWN_TIMEOUT_MS) ;;;
  exec_only (systemctl ("stop " +:+ BOT_UNITS)) UNIT_STOP_TIMEOUT_MS ;;;
  let* containers := listContainers in
  match containers with
  | Some (c :: cs) =>
      exec_only (withDeadline 5 50 ("podman rm -f --ignore " +:+ join_with " " (c :: cs))) CONTAINERS_TIMEOUT_MS
  | _ => ret tt
  end ;;;
  let* containersLeft := listContainers in
  let* running := countRunningUnits in
  ret (containers_remaining containersLeft ++ running_remaining running).

(** Units, image and files deleted: what could not be, and whether the files are gone. *)
Definition delete_everything (units : list string) : M W (list string * bool) :=
  for_each units (fun unit => exec_only ("rm -f " +:+ UNIT_DIR +:+ "/" +:+ shellQuote unit) TEARDOWN_TIMEOUT_MS) ;;;
  exec_only (systemctl "daemon-reload") TEARDOWN_TIMEOUT_MS ;;;
  exec_only (systemctl "reset-failed" +:+ " || true") TEARDOWN_TIMEOUT_MS ;;;
  let* image := run removeImageCommand IMAGE_TIMEOUT_MS None in
  let* deleted := run deleteFilesCommand FILES_TIMEOUT_MS None in
  let gone := exitCode deleted =? 0 in
  let* leftoverUnits := listManagedUnits in
  ret ((if negb (exitCode image =? 0) then ["The runtime image could not be removed"] else [])
         ++ (if gone then [] else ["~/" +:+ INSTANCES_PATH +:+ " could not be removed"])
         ++ map (fun unit => unit +:+ " is still installed") leftoverUnits, gone).

Definition tearDownHost : M W TeardownReport :=
  let* units := listManagedUnits in
  let* left_running := stop_everything units in
  let* deleted := delete_everything units in
  let* lingering := run LINGER_COMMAND TEARDOWN_TIMEOUT_MS None in
  ret (MkTeardown units deleted.2 (trim (stdout lingering) ≡? "yes") (left_running ++ deleted.1)).
End cleaning.

(** ** The job *)

Definition NOT_FULLY_CLEANED : string := "Some of what was installed is still on the host.".
Definition CLEANING_STOPPED : string := "Cleaning stopped before it finished.".
Definition COULD_NOT_REACH : string := "Could not reach the host to clean it".

Record TeardownPayload := MkPayload {
  td_hostId : string; td_hostname : string; td_port : string; td_username : string;
  td_sshKeyId : string; td_hostKeyFingerprint : string; td_organizationId : string }.

(** The members of the object that are texts; [None] for one that is none. *)
Definition Json : Type := option (list (string * option string)).

Definition json_text (record : list (string * option string)) (key : string) : option string :=
  match find (fun entry => entry.1 ≡? key) record with Some (_, value) => value | None => None end.

Definition readPayload (payload : Json) : option TeardownPayload :=
  let? record := payload in
  let? hostId := json_text record "hostId" in
  let? hostname := json_text record "hostname" in
  let? port := json_text record "port" in
  let? username := json_text record "username" in
  let? sshKeyId := json_text record "sshKeyId" in
  let? fingerprint := json_text record "hostKeyFingerprint" in
  let? organizationId := json_text record "organizationId" in
  Some (MkPayload hostId hostname port username sshKeyId fingerprint organizationId).

(** [Number.parseInt(value, 10)]; [None] is NaN. *)
Definition parseInt10 (value : string) : option Z :=
  let value := trim_start value in
  let digits text := numberOfDigits (span is_digit text).1 in
  match value with
  | String "-" rest => Z.opp <$> digits rest
  | String "+" rest => digits rest
  | _ => digits value
  end.

Record TeardownJobDeps (W : Type) := MkTeardownDeps {
  openKey : string -> string -> M W (option string);
  td_connect : string -> option Z -> string -> string -> string -> M W (HostTransport W);
  onCleaned : string -> string -> list (string * string) -> M W unit;
  onFailed : string -> string -> string -> M W unit;
  td_onError : option (string -> thrown -> M W unit);
  td_code : thrown -> option string;
  td_level : thrown -> option string }.
Arguments openKey {W}. Arguments td_connect {W}. Arguments onCleaned {W}. Arguments onFailed {W}.
Arguments td_onError {W}. Arguments td_code {W}. Arguments td_level {W}.

Definition bool_text (b : bool) : string := if b then "true" else "false".

Section job.
Context {W : Type} (deps : TeardownJobDeps W).

(** [transport] and [recorded], and the rest. *)
Abbreviation Running := ((option (HostTransport W) * bool) * W)%type.

Definition clean_host (p : TeardownPayload) (privateKey : string) : M Running unit :=
  let* transport :=
    on_snd (td_connect deps (td_hostname p) (parseInt10 (td_port p)) (td_username p) privateKey
              (td_hostKeyFingerprint p)) in
  on_fst (modify (fun s => (Some transport, s.2))) ;;;
  let* report := on_snd (tearDownHost (tr_exec transport)) in
  if (0 <? length (remaining report))%nat then
    on_snd (call_optional (td_onError deps) ("Host " +:+ td_hostId p +:+ " was not fully cleaned")
              (ThrownValue (join_with "; " (remaining report)))) ;;;
    on_snd (onFailed deps (td_hostId p) (td_organizationId p) NOT_FULLY_CLEANED) ;;;
    on_fst (modify (fun s => (s.1, true))) ;;;
    throw (internal NOT_FULLY_CLEANED)
  else
    on_snd (onCleaned deps (td_hostId p) (td_organizationId p)
      [("unitsRemoved", decimal (Z.of_nat (length (unitsRemoved report))));
       ("directoryRemoved", bool_text (directoryRemoved report));
       ("lingeringLeft", bool_text (lingeringLeft report))]).

Definition cleaning_failed (p : TeardownPayload) (error : thrown) : M Running unit :=
  let* s := get in
  (if s.1.2 : bool then ret tt
   else
     on_snd (call_optional (td_onError deps) ("Host " +:+ td_hostId p +:+ " could not be cleaned") error) ;;;
     let reason :=
       match s.1.1 with
       | Some _ => CLEANING_STOPPED
       | None =>
           match error with
           | ThrownError _ message => connectFailureReason (td_code deps error) (td_level deps error) message
           | ThrownValue _ => COULD_NOT_REACH
           end
       end in
     on_snd (onFailed deps (td_hostId p) (td_organizationId p) reason)) ;;;
  throw error.

Definition close_if_open : M Running unit :=
  let* s := get in
  match s.1.1 with Some transport => on_snd (swallow (tr_close transport)) | None => ret tt end.

(** The handler that [createHostTeardownHandler] makes. *)
Definition host_teardown (data : Json) : M W unit :=
  match readPayload data with
  | None => ret tt
  | Some p =>
      let* key := openKey deps (td_organizationId p) (td_sshKeyId p) in
      match key with
      | None =>
          onFailed deps (td_hostId p) (td_organizationId p)
            "The SSH key for this host is gone, so it cannot be reached to clean it." ;;;
          throw (internal ("Ssh key " +:+ td_sshKeyId p +:+ " is gone; cannot clean the host"))
      | Some privateKey => fun w =>
          match try_finally (try_catch (clean_host p privateKey) (cleaning_failed p)) close_if_open
                  ((None, false), w) with
          | (r, (_, w')) => (r, w')
          end
      end
  end.
End job.

(** ** What the worker makes of it *)

(** The writes of the worker. *)
Inductive TeardownWrite := write_cleaned_event | write_deletion | write_failure.

(** [faults] says which of them the database fails, and how. *)
Section worker.
Context {X : Type} (newId : string) (faults : TeardownWrite -> option thrown).
Abbreviation W := (World X).

Definition may_fail {A} (write : TeardownWrite) (m : M W A) : M W A :=
  match faults write with Some error => throw error | None => m end.

Definition worker_cleaned (hostId organizationId : string) (summary : list (string * string)) : M W unit :=
  swallow (may_fail write_cleaned_event (record_audit organizationId newId
             (MkAuditEntry None "worker" "host.teardown" "host" hostId summary)) ;;; ret tt) ;;;
  may_fail write_deletion (on_fleet (stmt (fun t =>
    let (_, x) := HostRepository.deleteAfterTeardown hostId organizationId (hosts t) in (tt, with_hosts x t)))).

Definition worker_failed (hostId organizationId reason : string) : M W unit :=
  swallow (may_fail write_failure (on_fleet (stmt (fun t =>
    let (_, x) := HostRepository.recordTeardownFailure hostId organizationId reason (hosts t) in
    (tt, with_hosts x t))))).

Definition worker_key (open_ : string -> string -> result string) (organizationId sshKeyId : string)
    : M W (option string) :=
  let* key := query (findSshKey organizationId sshKeyId) in
  match key with
  | None => ret None
  | Some k =>
      let* privateKey := lift (open_ (key_privateKeyEncrypted k) (key_privateKeyKeyId k)) in
      ret (Some privateKey)
  end.

Definition worker_deps (open_ : string -> string -> result string)
    (connect : string -> option Z -> string -> string -> string -> M W (HostTransport W))
    (onError : option (string -> thrown -> M W unit)) (code level : thrown -> option string)
    : TeardownJobDeps W :=
  MkTeardownDeps W (worker_key open_) connect worker_cleaned worker_failed onError code level.
End worker.

(** ** Only a clean machine goes *)

(** The reasons of a connection that failed are never empty. *)
Lemma connectFailureReason_said code level message : connectFailureReason code level message <> EmptyString.
Proof.
  unfold connectFailureReason. destruct code as [c|]; [|by repeat case_match].
  destruct (List.find _ BY_CODE) as [[k reason]|] eqn:E; [|by repeat case_match].
  apply find_some in E as [Hin _]. revert Hin. change (In (k, reason) BY_CODE -> reason <> EmptyString).
  assert (H : forallb (fun entry => negb (entry.2 ≡? EmptyString)) BY_CODE = true) by reflexivity.
  rewrite forallb_forall in H. intros Hin ->. by specialize (H _ Hin).
Qed.

(** What was run, with the answers. *)
Definition Answers : Type := list (string * result ExecResult).

Definition last_answer (t : Answers) (command : string) : option (result ExecResult) :=
  snd <$> find (fun entry => entry.1 ≡? command) (List.rev t).

(** The last time [command] was run, it answered, and [ok]. *)
Definition ended_with (t : Answers) (command : string) (ok : ExecResult -> Prop) : Prop :=
  exists r, last_answer t command = Some (Ok r) /\ ok r.

(** Nothing of the manager's is left, as far as the machine says. *)
Definition clean (t : Answers) : Prop :=
  ended_with t listContainersCommand (fun r => exitCode r = 0 /\ managed_containers (stdout r) = [])
  /\ ended_with t runningUnitsCommand (fun r => exitCode r = 0 /\ running_managed (stdout r) = [])
  /\ ended_with t removeImageCommand (fun r => exitCode r = 0)
  /\ ended_with t deleteFilesCommand (fun r => exitCode r = 0)
  /\ ended_with t listUnitsCommand (fun r => managed_units (stdout r) = []).

Lemma last_answer_same t command answer : last_answer (t ++ [(command, answer)]) command = Some answer.
Proof. unfold last_answer. rewrite rev_app_distr. simpl. by rewrite bool_decide_eq_true_2. Qed.

Lemma last_answer_other t command command' answer :
  command' <> command -> last_answer (t ++ [(command', answer)]) command = last_answer t command.
Proof. intros H. unfold last_answer. rewrite rev_app_distr. simpl. by rewrite bool_decide_eq_false_2. Qed.

Section machine.
Context (machine : Answers -> string -> Z -> option string -> result ExecResult).
Abbreviation W := (World Answers).

Definition run_answering : Exec W := fun command timeoutMs stdin w =>
  let answer := machine (elsewhere w) command timeoutMs stdin in
  (answer, MkWorld (fleet w) (clock w) (activeReadAt w) (elsewhere w ++ [(command, answer)])).

(** The tables are [t], and [evidence] are the last answers to its commands. *)
Definition seen (t : FleetTables) (evidence : list (string * ExecResult)) (w : W) : Prop :=
  fleet w = t
  /\ Forall (fun e => last_answer (elsewhere w) e.1 = Some (Ok e.2)) evidence.

Definition untouched (t : FleetTables) (_ : thrown) (w : W) : Prop := fleet w = t.

(** [command] is none of those in [evidence]. *)
Definition other (command : string) (evidence : list (string * ExecResult)) : Prop :=
  Forall (fun e => startsWith e.1 command = false) evidence.

Lemma prefix_refl a : startsWith a a = true.
Proof.
  induction a as [|c a IH]; [done|]. unfold startsWith in *. simpl. rewrite IH.
  destruct (Ascii.ascii_dec c c); done.
Qed.

Lemma not_started a b : startsWith a b = false -> b <> a.
Proof. intros H ->. by rewrite prefix_refl in H. Qed.

Lemma run_seen t evidence command timeoutMs stdin :
  other command evidence ->
  triple (seen t evidence) (run_answering command timeoutMs stdin)
    (fun r => seen t ((command, r) :: evidence)) (untouched t).
Proof.
  intros Ho w [Hf Hs]. unfold run_answering.
  destruct (machine _ command timeoutMs stdin) as [r|e]; [|done]. split; [done|]. constructor.
  - apply last_answer_same.
  - cbn [elsewhere]. rewrite List.Forall_forall in Hs |- *. intros e He. rewrite last_answer_other; [by apply Hs|].
    unfold other in Ho. rewrite List.Forall_forall in Ho. by apply not_started, Ho.
Qed.

Lemma seen_forget t evidence evidence' w : incl evidence' evidence -> seen t evidence w -> seen t evidence' w.
Proof.
  intros Hi [Hf Hs]. split; [done|]. rewrite List.Forall_forall in Hs |- *. intros e He. by apply Hs, Hi.
Qed.

Lemma exec_only_seen t evidence command timeoutMs :
  other command evidence ->
  triple (seen t evidence) (exec_only run_answering command timeoutMs) (fun _ => seen t evidence) (untouched t).
Proof.
  intros Ho. eapply triple_bind; [by apply run_seen|]. intros r w Hw.
  eapply seen_forget; [|exact Hw]. apply incl_tl, incl_refl.
Qed.

Lemma each_seen {A} t evidence (xs : list A) command timeoutMs :
  (forall x, other (command x) evidence) ->
  triple (seen t evidence) (for_each xs (fun x => exec_only run_answering (command x) timeoutMs))
    (fun _ => seen t evidence) (untouched t).
Proof. intros Ho. apply triple_for_each_all. intros x _. by apply exec_only_seen. Qed.

Ltac unlike := unfold other; repeat constructor.

(** A command that must be answered, and what is read from it. *)
Lemma read_seen {A B} t evidence command timeoutMs stdin (read : ExecResult -> A) (m : A -> M W B) Q :
  other command evidence ->
  (forall r, triple (seen t ((command, r) :: evidence)) (m (read r)) Q (untouched t)) ->
  triple (seen t evidence)
    (let* a := (let* r := run_answering command timeoutMs stdin in ret (read r)) in m a) Q (untouched t).
Proof.
  intros Ho Hm w Hw. specialize (run_seen t evidence command timeoutMs stdin Ho w Hw). unfold bind, ret.
  destruct (run_answering command timeoutMs stdin w) as [[r|e] w']; [|done]. intros Hr. exact (Hm r w' Hr).
Qed.

Lemma then_seen {A} t evidence (m : M W unit) (k : M W A) Q :
  triple (seen t evidence) m (fun _ => seen t evidence) (untouched t) ->
  triple (seen t evidence) k Q (untouched t) -> triple (seen t evidence) (m ;;; k) Q (untouched t).
Proof. intros Hm Hk. eapply triple_bind; [exact Hm|]. intros ?. exact Hk. Qed.

Lemma weaken_seen {A} t evidence evidence' (m : M W A) Q :
  incl evidence' evidence -> triple (seen t evidence') m Q (untouched t) ->
  triple (seen t evidence) m Q (untouched t).
Proof. intros Hi Hm w Hw. apply Hm. by eapply seen_forget. Qed.

Lemma running_none n : running_remaining (Some (Z.of_nat n)) = [] -> n = 0%nat.
Proof. simpl. destruct (Z.ltb_spec 0 (Z.of_nat n)); [done|lia]. Qed.

Lemma stop_everything_seen t units :
  triple (seen t []) (stop_everything run_answering units)
    (fun left_ w => exists rc rr,
       (left_ = [] -> (exitCode rc = 0 /\ managed_containers (stdout rc) = [])
                      /\ (exitCode rr = 0 /\ running_managed (stdout rr) = []))
       /\ seen t [(runningUnitsCommand, rr); (listContainersCommand, rc)] w) (untouched t).
Proof.
  unfold stop_everything.
  apply then_seen; [apply each_seen; intros x; unlike|].
  apply then_seen; [apply exec_only_seen; unlike|].
  unfold listContainers at 1. apply read_seen; [unlike|]. intros r0.
  apply (weaken_seen _ _ []); [by intros ? []|]. apply then_seen.
  { destruct (if _ : bool then _ else _) as [[|c cs]|]; [apply triple_ret| |apply triple_ret].
    apply exec_only_seen. unlike. }
  unfold listContainers. apply read_seen; [unlike|]. intros rc.
  unfold countRunningUnits. apply read_seen; [unlike|]. intros rr w Hw.
  exists rc, rr. split; [|exact Hw]. intros H. apply app_eq_nil in H as [Hc Hr].
  destruct (Z.eqb_spec (exitCode rc) 0) as [E1|]; [|done].
  destruct (Z.eqb_spec (exitCode rr) 0) as [E2|]; [|done]. cbn [negb] in *. split; split; try done.
  - by destruct (managed_containers _).
  - by apply running_none, length_zero_iff_nil in Hr.
Qed.

Lemma delete_everything_seen t evidence units :
  Forall (fun e => e.1 = runningUnitsCommand \/ e.1 = listContainersCommand) evidence ->
  triple (seen t evidence) (delete_everything run_answering units)
    (fun out w => exists ri rd ru,
       (out.1 = [] -> exitCode ri = 0 /\ exitCode rd = 0 /\ managed_units (stdout ru) = [])
       /\ seen t ((listUnitsCommand, ru) :: (deleteFilesCommand, rd) :: (removeImageCommand, ri) :: evidence) w)
    (untouched t).
Proof.
  intros He.
  assert (Ho : forall command, startsWith runningUnitsCommand command = false ->
    startsWith listContainersCommand command = false -> other command evidence).
  { intros command H1 H2. unfold other. eapply Forall_impl; [exact He|]. by intros e [->| ->]. }
  unfold delete_everything.
  apply then_seen; [apply each_seen; intros x; by apply Ho|].
  apply then_seen; [apply exec_only_seen; by apply Ho|].
  apply then_seen; [apply exec_only_seen; by apply Ho|].
  eapply triple_bind; [apply run_seen; by apply Ho|]. intros ri.
  eapply triple_bind; [apply run_seen; constructor; [done|by apply Ho]|]. intros rd.
  unfold listManagedUnits. apply read_seen; [do 2 (constructor; [done|]); by apply Ho|]. intros ru w Hw.
  exists ri, rd, ru. split; [|exact Hw]. cbn [fst]. intros H.
  apply app_eq_nil in H as [Hi H]. apply app_eq_nil in H as [Hd Hu].
  destruct (Z.eqb_spec (exitCode ri) 0); [|done]. destruct (Z.eqb_spec (exitCode rd) 0); [|done].
  split_and!; try done. by destruct (managed_units _).
Qed.

Lemma tearDownHost_seen t :
  triple (seen t []) (tearDownHost run_answering)
    (fun report w => fleet w = t /\ (remaining report = [] -> clean (elsewhere w))) (untouched t).
Proof.
  unfold tearDownHost.
  unfold listManagedUnits at 1. apply read_seen; [unlike|]. intros r0.
  apply (weaken_seen _ _ []); [by intros ? []|].
  eapply triple_bind; [apply stop_everything_seen|]. intros left_.
  apply triple_ex. intros rc. apply triple_ex. intros rr. apply triple_and. intros Hleft.
  eapply triple_bind; [apply delete_everything_seen; constructor; [by left|constructor; [by right|done]]|]. intros out.
  apply triple_ex. intros ri. apply triple_ex. intros rd. apply triple_ex. intros ru. apply triple_and. intros Hout.
  eapply triple_bind; [apply run_seen; unlike|]. intros rl w [Hf Hs].
  split; [done|]. cbn [remaining]. intros H. apply app_eq_nil in H as [Hl Ho].
  destruct (Hleft Hl) as [Hc Hr]. destruct (Hout Ho) as (Hi & Hd & Hu).
  rewrite List.Forall_forall in Hs.
  split_and!; [exists rc|exists rr|exists ri|exists rd|exists ru]; (split; [|done]).
  all: match goal with |- last_answer _ ?c = Some (Ok ?r) => apply (Hs (c, r)); simpl; tauto end.
Qed.

(** Connecting, which may fail, to the machine. *)
Context (refusal : option thrown) (closing_answer : result unit).
Context (newId : string) (faults : TeardownWrite -> option thrown) (open_ : string -> string -> result string).
Context (code level : thrown -> option string).

Definition the_machine : HostTransport W :=
  MkTransport W (fun _ => ret tt) run_answering (fun _ _ => ret false) (fun w => (closing_answer, w)).

Definition connect_answering : string -> option Z -> string -> string -> string -> M W (HostTransport W) :=
  fun _ _ _ _ _ => match refusal with Some error => throw error | None => ret the_machine end.

Definition the_worker : TeardownJobDeps W :=
  worker_deps newId faults open_ connect_answering None code level.

Definition payload_json (p : TeardownPayload) : Json :=
  Some [("hostId", Some (td_hostId p)); ("hostname", Some (td_hostname p)); ("port", Some (td_port p));
        ("username", Some (td_username p)); ("sshKeyId", Some (td_sshKeyId p));
        ("hostKeyFingerprint", Some (td_hostKeyFingerprint p)); ("organizationId", Some (td_organizationId p))].

Lemma payload_reads_back p : readPayload (payload_json p) = Some p.
Proof. by destruct p. Qed.

(** How the job of [p] leaves the table of the machines, and the rest. *)
Definition torn_down_or_told (p : TeardownPayload) (t : HostRepository.Table) (after : result unit * W) : Prop :=
  match after with
  | (Ok _, w') =>
      clean (elsewhere w')
      /\ hosts (fleet w') = (HostRepository.deleteAfterTeardown (td_hostId p) (td_organizationId p) t).2
  | (Throw _, w') =>
      match faults write_failure with
      | None => exists reason, reason <> EmptyString
          /\ hosts (fleet w') = (HostRepository.recordTeardownFailure (td_hostId p) (td_organizationId p) reason t).2
      | Some _ => hosts (fleet w') = t
      end
  end.

(** A job that fails, and told [reason] or could not. *)
Lemma told p reason error w w' :
  reason <> EmptyString -> hosts (fleet w') = hosts (fleet (worker_failed (X := Answers) faults (td_hostId p) (td_organizationId p) reason w).2) ->
  torn_down_or_told p (hosts (fleet w)) (Throw error, w').
Proof.
  intros Hr E. unfold torn_down_or_told. revert E. unfold worker_failed, swallow, try_catch, may_fail.
  destruct (faults write_failure); intros ->; [done|]. exists reason. split; [done|]. reflexivity.
Qed.

Lemma worker_failed_ends p reason (w : W) :
  worker_failed faults (td_hostId p) (td_organizationId p) reason w
  = (Ok tt, (worker_failed faults (td_hostId p) (td_organizationId p) reason w).2).
Proof. unfold worker_failed, swallow, try_catch, may_fail. by destruct (faults write_failure). Qed.

(** What is made of a failure that was not told yet. *)
Lemma failed_untold p transport error (w w0 : W) :
  hosts (fleet w) = hosts (fleet w0) ->
  exists w', cleaning_failed the_worker p error ((transport, false), w) = (Throw error, ((transport, false), w'))
    /\ torn_down_or_told p (hosts (fleet w0)) (Throw error, w').
Proof.
  intros <-. unfold cleaning_failed, bind, get, on_snd, ret.
  cbn [fst snd td_onError the_worker worker_deps call_optional onFailed].
  rewrite worker_failed_ends. eexists. split; [reflexivity|]. eapply told; [|reflexivity].
  destruct transport; [done|]. destruct error; [apply connectFailureReason_said|done].
Qed.

Lemma cleaned_unless_fault p summary (w : W) :
  match worker_cleaned newId faults (td_hostId p) (td_organizationId p) summary w with
  | (Ok _, w') => elsewhere w' = elsewhere w
      /\ hosts (fleet w') = (HostRepository.deleteAfterTeardown (td_hostId p) (td_organizationId p) (hosts (fleet w))).2
  | (Throw _, w') => hosts (fleet w') = hosts (fleet w)
  end.
Proof.
  unfold worker_cleaned, bind, swallow, try_catch, may_fail, record_audit, ret, on_fleet, stmt, throw.
  destruct (faults write_cleaned_event), (faults write_deletion); by cbn.
Qed.

(** How the cleaning itself ends: clean and deleted, told, or with nothing written. *)
Definition ended (p : TeardownPayload) (t : HostRepository.Table)
    (after : result unit * (option (HostTransport W) * bool * W)) : Prop :=
  let '(r, ((transport, recorded), w')) := after in
  (transport = None \/ transport = Some the_machine)
  /\ match r with
     | Ok _ => torn_down_or_told p t (r, w')
     | Throw error => if recorded then torn_down_or_told p t (r, w') else hosts (fleet w') = t
     end.

Lemma clean_host_ends p privateKey w :
  ended p (hosts (fleet w)) (clean_host the_worker p privateKey ((None, false), w)).
Proof.
  unfold clean_host, bind at 1, on_snd at 1. cbn [fst snd td_connect the_worker worker_deps]. unfold connect_answering.
  destruct refusal as [error|]; [by split; [left|]|].
  unfold ret. unfold bind at 1, on_fst at 1, modify. cbn [fst snd tr_exec the_machine].
  pose proof (tearDownHost_seen (fleet w) w (conj eq_refl (Forall_nil_2 _))) as H.
  unfold bind at 1, on_snd at 1. cbn [fst snd]. destruct (tearDownHost run_answering w) as [[report|error] w1].
  - destruct H as [Hf Hc]. destruct (remaining report) as [|line lines] eqn:Er.
    + cbn [length Nat.ltb Nat.leb]. unfold on_snd. cbn [fst snd onCleaned the_worker worker_deps].
      match goal with |- context [worker_cleaned newId faults _ _ ?summary _] =>
        pose proof (cleaned_unless_fault p summary w1) as Hd end.
      destruct (worker_cleaned _ _ _ _ _ w1) as [[u|e] w2]; (split; [by right|]).
      * destruct Hd as [He Hd]. split; [by rewrite He; apply Hc|by rewrite Hd, Hf].
      * by rewrite Hd, Hf.
    + cbn [length Nat.ltb Nat.leb]. unfold bind, on_snd, on_fst. cbn [fst snd onFailed td_onError the_worker worker_deps call_optional].
      unfold ret. cbn [fst snd]. rewrite worker_failed_ends. split; [by right|]. rewrite <- Hf. by apply (told p NOT_FULLY_CLEANED _ w1).
  - split; [by right|]. cbn. by rewrite H.
Qed.

Lemma closes (s : option (HostTransport W) * bool) (w : W) :
  s.1 = None \/ s.1 = Some the_machine -> close_if_open (s, w) = (Ok tt, (s, w)).
Proof.
  destruct s as [t b]. intros [E|E]; cbn in E; subst t; [done|]. unfold close_if_open, bind, get, on_snd, swallow, try_catch.
  cbn. by destruct closing_answer as [[]|].
Qed.

Lemma cleaning p privateKey w :
  torn_down_or_told p (hosts (fleet w))
    (let '(r, (_, w')) :=
       try_finally (try_catch (clean_host the_worker p privateKey) (cleaning_failed the_worker p)) close_if_open
         ((None, false), w) in (r, w')).
Proof.
  unfold try_finally, try_catch. pose proof (clean_host_ends p privateKey w) as H.
  destruct (clean_host _ _ _ _) as [[u|error] [[transport recorded] w1]]; destruct H as [Ht H].
  - by rewrite closes.
  - destruct recorded.
    + unfold cleaning_failed, bind, get, ret, throw. cbn [fst snd]. by rewrite closes.
    + pose proof (failed_untold p transport error w1 w H) as (w2 & -> & Hf).
      by rewrite closes.
Qed.

(** C12: whatever a machine that is removed answers to its cleaning, and
    whichever writes of the worker the database fails: when the job succeeds,
    the machine said, the last time it was asked, that none of the manager's
    containers, units, image and files is left, and the row is deleted; when
    the job fails, so that the queue runs it again, the row stays and its
    owners are told a reason, unless the database failed that very write: then
    nothing is changed.  A job whose key is stored but cannot be opened fails
    before anything is done, and changes nothing either. *)
Theorem only_clean_machines_go p w :
  match worker_key open_ (td_organizationId p) (td_sshKeyId p) w with
  | (Ok _, _) => torn_down_or_told p (hosts (fleet w)) (host_teardown the_worker (payload_json p) w)
  | (Throw error, _) => host_teardown the_worker (payload_json p) w = (Throw error, w)
  end.
Proof.
  unfold host_teardown. rewrite payload_reads_back. cbn [openKey the_worker worker_deps]. unfold bind at 1.
  unfold worker_key, query, gets, bind, lift. destruct (findSshKey _ _ _) as [k|].
  - destruct (open_ _ _) as [privateKey|error]; [|done]. unfold ret. exact (cleaning p privateKey w).
  - unfold ret. cbn [onFailed the_worker worker_deps]. rewrite worker_failed_ends. unfold throw.
    eapply told; [|reflexivity]. done.
Qed.
End machine.

(** The job that [remove_host] adds reads back as the machine it is about. *)
Lemma requested_job_reads_back h payload organizationId :
  teardownPayloadFor h = Some payload ->
  exists key fingerprint, readPayload
    (Some (map (fun field => (field.1, Some field.2)) (payload ++ [("organizationId", organizationId)])))
  = Some (MkPayload (host_id h) (hostname (host_address h)) (decimal (port (host_address h)))
            (username (host_address h)) key fingerprint organizationId).
Proof.
  unfold teardownPayloadFor. destruct (truthy _) as [key|]; [|done]. destruct (truthy _) as [fingerprint|]; [|done].
  destruct (finishedProvisioning h); [|done]. intros [= <-]. by exists key, fingerprint.
Qed.

(** A machine that has one unit left over is not taken off the list. *)
Example a_machine_with_a_unit_left_stays :
  let machine (_ : Answers) (command : string) (_ : Z) (_ : option string) :=
    Ok (MkExec 0 (if command ≡? listUnitsCommand then "open-mcc@.service" else "") "") in
  (tearDownHost (run_answering machine) (MkWorld (MkFleet [] [] [] [] [] [] (TaskStore.MkTaskTables [] [] [] [] [] []) []) 0 [] [])).1
  = Ok (MkTeardown ["open-mcc@.service"] true false ["open-mcc@.service is still installed"]).
Proof. vm_compute. reflexivity. Qed.
