(* ===== verification/HostSafety.v ===== *)
(** What the requests on machines leave behind.

    Theorems on [HostController] and [Teardown]: a provisioning never stays
    held by a request that has ended; whatever requests and jobs run, in
    whatever order, every bot has a machine that is not being removed.  A last
    theorem evaluates what a provisioning does to a machine that is being
    removed. *)

From stdpp Require Import relations.
From S2P Require Import Prelude Tables Calendar Journal Observer HealthPoller Shell Control ClientSettings ClientConfig InstanceInput Access HostStore TaskStore InstanceStore InstanceController InstanceRequests MachineFacts Provision HostCheck HostController Teardown ProvisionSafety.

(** ** A provisioning ends *)

Lemma on_hosts_run {J Y A} (f : HostRepository.Table -> A * HostRepository.Table) (w : World (J * Y)) :
  on_hosts f w = (Ok (f (hosts (fleet w))).1, with_fleet (with_hosts (f (hosts (fleet w))).2 (fleet w)) w).
Proof. unfold on_hosts, on_fleet, stmt. by destruct (f (hosts (fleet w))). Qed.

Section settled.
Context {J Y : Type} (deps : HostControllerDeps J Y).
Context (scope hostId attemptId : string).
Abbreviation W := (World (J * Y)).

(** Nobody sets the machine up under this attempt. *)
Definition not_held (w : W) : Prop :=
  forall h, In h (hosts (fleet w)) -> HostRepository.held scope hostId attemptId h = false.

Lemma held_cleared patch status stack arch h :
  p_status patch = Some status ->
  HostRepository.held scope hostId attemptId (HostRepository.finalized patch stack arch h) = false.
Proof. intros _. unfold HostRepository.held. simpl. apply andb_false_r. Qed.

Lemma finalize_spec patch status stack arch w :
  p_status patch = Some status ->
  match finalize_host (J := J) (Y := Y) scope hostId attemptId patch stack arch w with
  | (Ok (Some row), w') => not_held w' /\ host_status row = status
  | (Ok None, w') => not_held w'
  | (Throw _, _) => False
  end.
Proof.
  intros Hp. unfold finalize_host, on_hosts, on_fleet, stmt, HostRepository.finalizeProvisioning. cbn.
  assert (Hn : not_held (with_fleet (with_hosts (update_where (HostRepository.held scope hostId attemptId)
      (HostRepository.finalized patch stack arch) (hosts (fleet w))) (fleet w)) w)).
  { intros h Hh. apply in_update_where in Hh as (h0 & _ & ->).
    destruct (HostRepository.held scope hostId attemptId h0) eqn:E; [|done]. by eapply held_cleared. }
  unfold updated. destruct (select _ _) as [|h hs]; [exact Hn|]. split; [exact Hn|].
  unfold HostRepository.finalized, whitelistHostUpdate, with_provisioning, with_facts. simpl. by rewrite Hp.
Qed.

(** A finalization that met no row says there was none. *)
Lemma finalize_missed patch stack arch w w' :
  finalize_host (J := J) (Y := Y) scope hostId attemptId patch stack arch w = (Ok None, w') -> not_held w.
Proof.
  unfold finalize_host, on_hosts, on_fleet, stmt, HostRepository.finalizeProvisioning. cbn.
  unfold updated. destruct (select _ _) as [|h hs] eqn:E; [|done]. intros _ h Hh.
  apply (proj1 (select_first_none (HostRepository.held scope hostId attemptId) (hosts (fleet w)))); [|done].
  unfold select_first. by rewrite E.
Qed.

Lemma restored_not_held (w w' : W) :
  not_held w ->
  not_held (MkWorld (fleet w) (clock w') (activeReadAt w') (fst (elsewhere w), snd (elsewhere w'))).
Proof. done. Qed.

Lemma event_recorded ctx auditId action subject detail (w : W) :
  blank (ctx_actorLabel ctx) = false ->
  exists w', host_event ctx auditId action subject detail w = (Ok tt, w') /\ hosts (fleet w') = hosts (fleet w).
Proof.
  intros Hl. unfold host_event, record_audit, AuditRepository.record, resolveActorLabel, bind, lift, stmt, ret.
  cbn [entry_actorId entry_actorLabel]. rewrite Hl. by eexists.
Qed.

(** The database failed one of the two writes made of an attempt that failed. *)
Definition failure_unwritten : Prop := exists write fault,
  In write [write_reason; write_failed] /\ hd_fault deps write = Some fault.

(** Why a request that ends with [error] leaves what it held. *)
Definition could_not_end (error : thrown) : Prop :=
  (failure_unwritten /\ instanceof "HostUnreachableError" error || instanceof "HostProvisioningFailedError" error = true)
  \/ hd_fault deps write_ready = Some error \/ hd_fault deps write_event = Some error.

Lemma record_failure_settles failure reached w :
  exists w', record_failure deps scope hostId attemptId failure reached w = (Ok tt, w')
    /\ (not_held w' \/ failure_unwritten).
Proof.
  unfold record_failure, swallow, try_catch, bind, host_transaction, transaction, unless_fault.
  destruct (hd_fault deps write_reason) as [f|] eqn:E1.
  { eexists. split; [reflexivity|]. right. exists write_reason, f. split; [by left|done]. }
  change (on_hosts (J := J) (Y := Y)
      (HostRepository.recordProvisioningFailure scope hostId attemptId failure (reached_row <$> reached)) w)
    with (Ok tt : result unit,
          (on_hosts (J := J) (Y := Y)
             (HostRepository.recordProvisioningFailure scope hostId attemptId failure (reached_row <$> reached)) w).2).
  set (w1 := (on_hosts _ w).2).
  cbv beta iota. destruct (hd_fault deps write_failed) as [f|] eqn:E2.
  { eexists. split; [reflexivity|]. right. exists write_failed, f. split; [right; by left|done]. }
  pose proof (finalize_spec (status_patch host_error) host_error None None w1 eq_refl) as H.
  destruct (finalize_host _ _ _ _ _ _ w1) as [[[row|]|e] w2]; [| |done]; eexists; (split; [reflexivity|]); left.
  - apply H.
  - exact H.
Qed.

Context (reporter_returns : forall f message error w, hd_onError deps = Some f ->
           exists w', f message error w = (Ok tt, w')).

Lemma tracked_settles claimed fingerprint key :
  triple (fun _ => True) (runProvisionTracked deps scope hostId attemptId claimed fingerprint key)
    (fun _ _ => True) (fun error w => not_held w \/ could_not_end error).
Proof.
  intros w _. unfold runProvisionTracked.
  destruct (runProvision _ _ _ _ _ _ _ _) as [[result|error] [fields [reached w1]]]; [done|].
  unfold bind.
  assert (exists w2, call_optional (hd_onError deps) ("Provisioning host " +:+ hostId +:+ " did not finish") error w1
                     = (Ok tt, w2)) as [w2 ->].
  { unfold call_optional. destruct (hd_onError deps) as [f|] eqn:E; [by eapply reporter_returns|by eexists]. }
  destruct (record_failure_settles (failure_sentence error fields reached) reached w2) as (w3 & -> & [H|H]).
  - by left.
  - right. left. split; [exact H|]. destruct (instanceof "HostUnreachableError" error) eqn:E; [by rewrite E|done].
Qed.

Lemma finish_settles ctx auditId r :
  scopeOf ctx = scope -> blank (ctx_actorLabel ctx) = false ->
  triple (fun _ => True) (finish_provisioning deps ctx hostId attemptId auditId r)
    (fun pub w => not_held w /\ hp_status pub = ready) (fun error w => not_held w \/ could_not_end error).
Proof.
  intros Hsc Hl w _. unfold finish_provisioning, host_transaction, transaction, bind, unless_fault. rewrite Hsc.
  destruct (hd_fault deps write_ready) as [f|] eqn:E1; [right; right; by left|].
  pose proof (finalize_spec (ready_patch r) ready (Some (Some (pr_networkStack r)))
    (Some (Some (pr_architecture r))) w eq_refl) as Hfin.
  pose proof (finalize_missed (ready_patch r) (Some (Some (pr_networkStack r)))
    (Some (Some (pr_architecture r))) w) as Hm.
  destruct (finalize_host _ _ _ _ _ _ w) as [[[row|]|e] w1]; [| |done].
  - destruct Hfin as [Hn Hs]. cbv beta iota.
    destruct (hd_fault deps write_event) as [f|] eqn:E2; [right; right; by right|].
    destruct (event_recorded ctx auditId "host.provision" hostId [("osRelease", pr_osRelease r)] w1 Hl)
      as (w2 & -> & Hh). split; [|exact Hs]. unfold not_held. by rewrite Hh.
  - left. apply restored_not_held. by eapply Hm.
Qed.

Lemma claim_keeps ctx auditId found :
  scopeOf ctx = scope ->
  triple not_held (claim_host deps ctx hostId attemptId auditId found)
    (fun claim w => match claim with
                    | None => not_held w
                    | Some (row, _) => provisioningAttemptId (host_provisioning row) = Some attemptId
                    end) (fun _ => not_held).
Proof.
  intros Hsc w Hw. unfold claim_host, host_transaction, transaction. rewrite Hsc.
  unfold bind at 1, find_host, query, gets.
  destruct (HostRepository.findById _ _ _) as [l|]; [|exact Hw].
  destruct (truthy _) as [fingerprint|]; [|exact Hw].
  destruct (negb _); [exact Hw|].
  unfold bind at 1, get. unfold bind at 1, unless_fault at 1.
  destruct (hd_fault deps write_claim); [exact Hw|]. rewrite on_hosts_run.
  unfold HostRepository.claimForProvisioning, updated. cbn [fst snd]. destruct (select _ _) as [|h hs] eqn:E.
  - rewrite update_where_none; [exact Hw|]. apply select_first_none. unfold select_first. by rewrite E.
  - cbn [map head]. unfold bind. destruct (host_status l ≡? provisioning); [|done].
    unfold unless_fault. destruct (hd_fault deps write_reclaim); [exact Hw|].
    match goal with |- context [host_event ?c ?i ?a ?s ?d ?w] => destruct (host_event c i a s d w) as [[[]|e] w2] end;
      [done|exact Hw].
Qed.

(** C11: a request that sets a machine up and ends leaves the machine held only
    when the database failed the very write that would have ended the hold.
    Whatever the machine answers, whichever writes the database fails and
    whatever others do to the tables while the request works: when it succeeds,
    no row is in the state of provisioning under its attempt and the machine is
    shown as ready; when it fails, no row is either, unless the database failed
    the note of the failure or the update that ends the attempt (the request
    then fails as the attempt did), or the update that makes the machine ready
    or its audit event (the request then fails with that very error).  The
    label of the actor has to be one the audit log accepts, and the error
    reporter must not throw. *)
Theorem provisioning_is_settled ctx reclaimAuditId auditId w
    (Hscope : scopeOf ctx = scope) (Hlabel : blank (ctx_actorLabel ctx) = false) (Hfresh : not_held w) :
  match provision deps ctx hostId attemptId reclaimAuditId auditId w with
  | (Ok shown, w') => not_held w' /\ hp_status shown = ready
  | (Throw error, w') => not_held w' \/ could_not_end error
  end.
Proof.
  enough (H : triple not_held (provision deps ctx hostId attemptId reclaimAuditId auditId)
    (fun shown w => not_held w /\ hp_status shown = ready) (fun error w => not_held w \/ could_not_end error))
    by exact (H w Hfresh).
  clear w Hfresh.
  assert (Ht : forall A error Q, triple not_held (throw error : M W A) Q (fun error w => not_held w \/ could_not_end error))
    by (intros A error Q w Hw; by left).
  unfold provision, require_enroll. rewrite Hscope.
  eapply (triple_bind _ _ _ (fun _ => not_held)); [destruct (can _ _); [apply triple_ret|apply Ht]|].
  intros ?. eapply (triple_bind _ _ _ (fun _ => not_held)); [intros w Hw; exact Hw|].
  intros [f|]; [|apply Ht].
  eapply (triple_bind _ _ _ (fun _ => not_held)); [intros w Hw; exact Hw|]. intros w0.
  destruct (is_provisioning _ _); [apply Ht|].
  destruct (truthy _) as [keyOf|]; [|apply Ht].
  destruct (truthy _) as [fingerprint|]; [|apply Ht].
  eapply (triple_bind _ _ _ (fun _ => not_held)); [intros w Hw; exact Hw|]. intros [k|]; [|apply Ht].
  eapply triple_bind.
  { eapply triple_consequence; [by apply claim_keeps|done|done|]. intros error w Hw. by left. }
  intros [[row expected]|]; [|apply Ht].
  intros w Hw. rewrite Hw.
  assert (H : triple (fun _ => True)
    (let* r := runProvisionTracked deps scope hostId attemptId row expected k in
     finish_provisioning deps ctx hostId attemptId auditId r)
    (fun shown w => not_held w /\ hp_status shown = ready) (fun error w => not_held w \/ could_not_end error)).
  { eapply triple_bind; [apply tracked_settles|]. intros r. by apply finish_settles. }
  exact (H w I).
Qed.
End settled.

(** A hold that could not be ended lapses: from then on the machine counts as
    free, and a request may take it. *)
Lemma unended_holds_lapse h now t :
  provisioningClaimedAt (host_provisioning h) = Some t -> PROVISIONING_LEASE_MS < now - t ->
  is_provisioning now h = false.
Proof.
  intros E H. unfold is_provisioning, isProvisioningClaimStale. rewrite E.
  by rewrite (proj2 (Z.ltb_lt _ _) H), andb_false_r.
Qed.

(** ** Every bot has its machine *)

Section placing.
Context {J Y : Type}.
Abbreviation W := (World (J * Y)).

(** Its machine is in the table, and is not being removed. *)
Definition has_machine (t : HostRepository.Table) (r : InstanceRow) : Prop := exists h,
  In h t /\ HostRepository.owned (in_organizationId r) (in_hostId r) h = true /\ host_status h <> removing.

Definition placed (w : W) : Prop :=
  forall r, In r (instances (fleet w)) -> has_machine (hosts (fleet w)) r.

(** Rows are kept, apart from what is not their name, and none becomes one
    that is being removed. *)
Definition keeps_machines (t t' : HostRepository.Table) : Prop :=
  forall h, In h t -> host_status h <> removing -> exists h', In h' t' /\ host_id h' = host_id h
    /\ host_organizationId h' = host_organizationId h /\ host_status h' <> removing.

Lemma keeps_has_machine t t' r : keeps_machines t t' -> has_machine t r -> has_machine t' r.
Proof.
  intros Hk (h & Hin & Ho & Hs). destruct (Hk h Hin Hs) as (h' & Hin' & Hid & Horg & Hs').
  exists h'. split_and!; try done. unfold HostRepository.owned in *. by rewrite Hid, Horg.
Qed.

Lemma keeps_update p f t :
  (forall h, host_id (f h) = host_id h /\ host_organizationId (f h) = host_organizationId h
             /\ (host_status h <> removing -> host_status (f h) <> removing)) ->
  keeps_machines t (update_where p f t).
Proof.
  intros Hf h Hin Hs. exists (if p h then f h else h). split.
  - apply in_update_where. by exists h.
  - destruct (Hf h) as (H1 & H2 & H3). destruct (p h); auto.
Qed.

Lemma keeps_append t h : keeps_machines t (t ++ [h]).
Proof. intros h0 Hin Hs. exists h0. split_and!; try done. apply in_or_app. by left. Qed.

Lemma keeps_others p t :
  (forall h, In h t -> p h = true -> host_status h = removing) -> keeps_machines t (delete_where p t).
Proof.
  intros Hp h Hin Hs. exists h. split_and!; try done. apply filter_In. split; [done|].
  destruct (p h) eqn:E; [|done]. by rewrite (Hp h Hin E) in Hs.
Qed.

(** A statement on the machines alone. *)
Lemma placed_on_hosts {A} (f : HostRepository.Table -> A * HostRepository.Table) :
  (forall t, keeps_machines t (f t).2) -> preserves placed (on_hosts (J := J) (Y := Y) f).
Proof.
  intros Hf w Hw. rewrite on_hosts_run. intros r Hr. eapply keeps_has_machine; [apply Hf|]. by apply Hw.
Qed.

Lemma placed_audit scope auditId entry : preserves placed (record_audit (X := J * Y) scope auditId entry).
Proof. intros w Hw. unfold record_audit. by destruct (AuditRepository.record _ _ _ _ _) as [[row|e] x]. Qed.

Lemma placed_event ctx auditId action subject detail :
  preserves placed (host_event (J := J) (Y := Y) ctx auditId action subject detail).
Proof. apply preserves_bind; [apply placed_audit|]. intros ?. apply preserves_ret. Qed.

Lemma placed_transaction {A} (m : M W A) : preserves placed m -> preserves placed (host_transaction m).
Proof. apply preserves_transaction. done. Qed.

Lemma placed_find scope hostId : preserves placed (find_host (J := J) (Y := Y) scope hostId).
Proof. apply preserves_gets. Qed.

Lemma placed_get : preserves placed (get (S := W)).
Proof. intros w Hw. exact Hw. Qed.

Lemma placed_jobs {A} (m : M J A) : preserves placed (on_jobs (Y := Y) m).
Proof. intros w Hw. unfold on_jobs. by destruct (m _) as [[a|e] j]. Qed.

Lemma placed_lift {A} (r : result A) : preserves placed (lift r).
Proof. intros w Hw. unfold lift. by destruct r. Qed.

(** ** The statements *)

Lemma finalized_names patch stack arch h :
  host_id (HostRepository.finalized patch stack arch h) = host_id h
  /\ host_organizationId (HostRepository.finalized patch stack arch h) = host_organizationId h
  /\ host_status (HostRepository.finalized patch stack arch h) = default (host_status h) (p_status patch).
Proof. done. Qed.

Lemma placed_finalize scope hostId attemptId patch stack arch :
  p_status patch <> Some removing ->
  preserves placed (finalize_host (J := J) (Y := Y) scope hostId attemptId patch stack arch).
Proof.
  intros Hp. apply placed_on_hosts. intros t. apply keeps_update. intros h.
  destruct (finalized_names patch stack arch h) as (H1 & H2 & H3). split_and!; try done.
  rewrite H3. destruct (p_status patch); simpl; congruence.
Qed.

(** Statements on the bots that leave each where it is. *)
Lemma placed_on_bots {A} (f : InstanceRepository.Table -> A * InstanceRepository.Table) :
  (forall t r, In r (f t).2 -> exists r0, In r0 t /\ in_hostId r = in_hostId r0
                                         /\ in_organizationId r = in_organizationId r0) ->
  preserves placed (on_instances (X := J * Y) f).
Proof.
  intros Hf w Hw. unfold on_instances, on_fleet, stmt. specialize (Hf (instances (fleet w))).
  destruct (f (instances (fleet w))) as [a x]. intros r Hr.
  destruct (Hf r Hr) as (r0 & Hr0 & Hh & Ho). unfold has_machine. rewrite Hh, Ho. exact (Hw r0 Hr0).
Qed.

Lemma same_place_update p f (t : InstanceRepository.Table) r :
  (forall r, in_hostId (f r) = in_hostId r /\ in_organizationId (f r) = in_organizationId r) ->
  In r (update_where p f t) ->
  exists r0, In r0 t /\ in_hostId r = in_hostId r0 /\ in_organizationId r = in_organizationId r0.
Proof.
  intros Hf Hr. apply in_update_where in Hr as (r0 & Hr0 & ->). exists r0. split; [done|].
  destruct (p r0); [apply Hf|done].
Qed.

Lemma placed_delete_bot p :
  preserves placed (on_fleet (X := J * Y) (stmt (fun t =>
    ((0 <? affected p (instances t))%nat, InstanceRepository.delete_rows p t)))).
Proof. intros w Hw r Hr. apply filter_In in Hr as [Hr _]. exact (Hw r Hr). Qed.

Lemma placed_insert_bot (deps : InstanceControllerDeps (J * Y)) ctx input newId claimId configId auditId token initial :
  preserves placed (insert_bot deps ctx input newId claimId configId auditId token initial).
Proof.
  apply preserves_transaction; [done|]. intros w Hw.
  unfold bind at 1, query, gets.
  destruct (HostRepository.findById _ _ _) as [h|] eqn:Eh; [|exact Hw].
  destruct ((host_status h ≡? ready) && runs_bots h) eqn:Es; [|exact Hw]. cbn [negb].
  apply select_first_spec in Eh as [Hin Hown]. apply andb_true_iff in Es as [Es _]. tests.
  unfold bind at 1, get. unfold bind at 1, on_fleet at 1, InstanceRepository.insert.
  destruct (InstanceRepository.violated _ _); [exact Hw|]. destruct (existsb _ _); [|exact Hw].
  set (row := InstanceRepository.new_row _ _ _ _ _).
  match goal with |- context [(?m ;;; ?k) ?s] => assert (Hp : placed s) end.
  { intros r Hr. apply in_app_or in Hr as [Hr|[<-|[]]]; [exact (Hw r Hr)|].
    exists h. split_and!; [done|exact Hown|by rewrite Es]. }
  revert Hp. generalize (with_fleet (with_instances (instances (fleet w) ++ [row]) (fleet w)) w).
  enough (H : preserves placed (
    on_fleet (stmt (fun t =>
        let (saved, x) := InstanceRepository.insertConfigVersion (scopeOf ctx) configId (in_id row)
                            (writeDocument deps initial) (Some (ctx_memberId ctx)) (ctx_actorLabel ctx)
                            (configs t) in (saved, with_configs x t))) ;;;
    record_audit (scopeOf ctx) auditId
      (by_actor ctx "instance.create" (in_id row)
         [("hostId", cr_hostId input); ("name", cr_name input);
          ("accountType", account_text (cr_accountType input))]) ;;;
    ret row)) by exact H.
  apply preserves_bind; [intros w1 Hw1; unfold on_fleet, stmt; by destruct (InstanceRepository.insertConfigVersion _ _ _ _ _ _ _)|].
  intros ?. apply preserves_bind; [apply placed_audit|]. intros ?. apply preserves_ret.
Qed.

Lemma placed_unless_fault {A} (deps : HostControllerDeps J Y) write (m : M W A) :
  preserves placed m -> preserves placed (unless_fault deps write m).
Proof. intros H. unfold unless_fault. destruct (hd_fault deps write); [apply preserves_throw|exact H]. Qed.

Lemma placed_may_fail {A} faults write (m : M W A) : preserves placed m -> preserves placed (may_fail faults write m).
Proof. intros H. unfold may_fail. destruct (faults write); [apply preserves_throw|exact H]. Qed.
End placing.

(** Steps over what a statement of a request is made of. *)
Ltac placed_steps :=
  repeat
    match goal with
    | |- preserves _ (bind _ _) => apply preserves_bind; [|intros ?]
    | |- preserves _ (host_transaction _) => apply placed_transaction
    | |- preserves _ (ret _) => apply preserves_ret
    | |- preserves _ (throw _) => apply preserves_throw
    | |- preserves _ (swallow _) => apply preserves_swallow
    | |- preserves _ (unless_fault _ _ _) => apply placed_unless_fault
    | |- preserves _ (may_fail _ _ _) => apply placed_may_fail
    | |- preserves _ (try_catch _ _) => apply preserves_catch; [|intros ?]
    | |- preserves _ (lift _) => apply placed_lift
    | |- preserves _ get => apply placed_get
    | |- preserves _ (query _) => apply preserves_gets
    | |- preserves _ (find_host _ _) => apply placed_find
    | |- preserves _ (host_event _ _ _ _ _) => apply placed_event
    | |- preserves _ (record_audit _ _ _) => apply placed_audit
    | |- preserves _ (on_jobs _) => apply placed_jobs
    | |- preserves _ (finalize_host _ _ _ _ _ _) => apply placed_finalize; done
    | |- preserves _ (match ?x with _ => _ end) => destruct x
    end.


Section removal.
Context {J Y : Type} (deps : HostControllerDeps J Y).
Abbreviation W := (World (J * Y)).

(** The machine has no bot. *)
Definition no_bots (scope hostId : string) (w : W) : Prop :=
  forall r, In r (instances (fleet w)) ->
    (in_hostId r ≡? hostId) && (in_organizationId r ≡? scope) = false.

Lemma not_its_machine scope hostId r h :
  (in_hostId r ≡? hostId) && (in_organizationId r ≡? scope) = false ->
  HostRepository.owned (in_organizationId r) (in_hostId r) h = true ->
  HostRepository.owned scope hostId h = false.
Proof.
  unfold HostRepository.owned. intros Hr Hh. apply andb_true_iff in Hh as [H1 H2].
  apply bool_decide_eq_true in H1, H2. rewrite H1, H2. exact Hr.
Qed.

(** What is done to a machine without bots is done to no bot's machine. *)
Lemma placed_without_bots {A} scope hostId (f : HostRepository.Table -> A * HostRepository.Table) :
  (forall t h, In h t -> HostRepository.owned scope hostId h = false -> In h (f t).2) ->
  triple (fun w => placed w /\ no_bots scope hostId w) (on_hosts (J := J) (Y := Y) f)
    (fun _ => placed) (fun _ => placed).
Proof.
  intros Hf w [Hw Hn]. rewrite on_hosts_run. intros r Hr.
  destruct (Hw r Hr) as (h & Hin & Ho & Hs). exists h. split_and!; [|exact Ho|exact Hs].
  apply Hf; [exact Hin|]. eapply not_its_machine; [by apply Hn|exact Ho].
Qed.

Lemma delete_host_placed ctx hostId auditId :
  triple (fun w => placed w /\ no_bots (scopeOf ctx) hostId w) (delete_host (J := J) (Y := Y) ctx hostId auditId)
    (fun _ => placed) (fun _ => placed).
Proof.
  eapply triple_bind.
  - apply placed_without_bots. intros t h Hin Ho. apply filter_In. by rewrite Ho.
  - intros removed. change (preserves placed ((if removed : bool then host_event (J := J) (Y := Y) ctx auditId
      "host.delete" hostId [("cleaned", "nothing was installed")] else ret tt) ;;; ret removed)). placed_steps.
Qed.

Lemma request_teardown_placed ctx hostId auditId payload :
  triple (fun w => placed w /\ no_bots (scopeOf ctx) hostId w) (request_teardown deps ctx hostId auditId payload)
    (fun _ => placed) (fun _ => placed).
Proof.
  unfold request_teardown.
  eapply (triple_bind _ _ _ (fun _ w => placed w /\ no_bots (scopeOf ctx) hostId w)); [intros w Hw; exact Hw|].
  intros w0. eapply triple_bind.
  - apply placed_without_bots. intros t h Hin Ho. apply in_update_where. exists h. by rewrite Ho.
  - intros ?. unfold enqueue.
    match goal with |- triple _ ?m _ _ => change (preserves (placed (J := J) (Y := Y)) m) end. placed_steps.
Qed.

Lemma remove_host_placed ctx hostId auditId : preserves placed (remove_host deps ctx hostId auditId).
Proof.
  apply placed_transaction. intros w Hw. unfold bind at 1, find_host, query, gets.
  destruct (HostRepository.findById _ _ _) as [f|]; [|exact Hw].
  unfold bind at 1, bind at 1, get.
  destruct (Z.ltb_spec 0 (instanceCount (scopeOf ctx) hostId (instances (fleet w)))) as [Hc|Hc]; [exact Hw|].
  destruct (is_provisioning _ _); [exact Hw|].
  assert (Hn : no_bots (scopeOf ctx) hostId w).
  { intros r Hr. unfold instanceCount in Hc.
    destruct (_ && _) eqn:E; [|done]. exfalso.
    assert (Hin : In r (List.filter (fun r => (in_hostId r ≡? hostId) && (in_organizationId r ≡? scopeOf ctx))
                          (instances (fleet w)))) by (by apply filter_In).
    destruct (List.filter _ _); [done|]. simpl in Hc. lia. }
  destruct (teardownPayloadFor f) as [payload|].
  - exact (request_teardown_placed ctx hostId auditId payload w (conj Hw Hn)).
  - exact (delete_host_placed ctx hostId auditId w (conj Hw Hn)).
Qed.
End removal.

(** ** Requests and jobs, in any order *)

(** A statement on the bots. *)
Inductive bot_statement : forall {A}, (InstanceRepository.Table -> A * InstanceRepository.Table) -> Prop :=
  | st_claimForAuth scope id attempt now clock :
      bot_statement (InstanceRepository.claimForAuth scope id attempt now clock)
  | st_releaseAuthClaim scope id attempt : bot_statement (InstanceRepository.releaseAuthClaim scope id attempt)
  | st_claimForConfig scope id claim clock :
      bot_statement (InstanceRepository.claimForConfig scope id claim clock)
  | st_claimForLifecycle scope id claim now clock :
      bot_statement (InstanceRepository.claimForLifecycle scope id claim now clock)
  | st_finalizeConfigClaim scope id claim status exit :
      bot_statement (InstanceRepository.finalizeConfigClaim scope id claim status exit)
  | st_releaseConfigClaim scope id claim : bot_statement (InstanceRepository.releaseConfigClaim scope id claim)
  | st_recordUnitFailure scope id exit : bot_statement (InstanceRepository.recordUnitFailure scope id exit)
  | st_writeTokenUnderClaim scope id claim sealed clock :
      bot_statement (InstanceRepository.writeTokenUnderClaim scope id claim sealed clock)
  | st_update scope id patch : bot_statement (InstanceRepository.update scope id patch).

(** What happens at once to the tables: a transaction or a statement outside
    one, of a request or of a job. *)
Inductive event {J Y} : forall {A}, M (World (J * Y)) A -> Prop :=
  | ev_enroll ctx input newId auditId fingerprint algorithm :
      event (insert_host ctx input newId auditId fingerprint algorithm)
  | ev_claim deps ctx hostId attemptId auditId found : event (claim_host deps ctx hostId attemptId auditId found)
  | ev_progress scope hostId attemptId reached :
      event (on_hosts (HostRepository.recordProvisioningProgress scope hostId attemptId reached))
  | ev_failure deps scope hostId attemptId failure reached :
      event (record_failure deps scope hostId attemptId failure reached)
  | ev_finish deps ctx hostId attemptId auditId result :
      event (finish_provisioning deps ctx hostId attemptId auditId result)
  | ev_trust ctx hostId auditId fingerprint algorithm : event (trust_key ctx hostId auditId fingerprint algorithm)
  | ev_remove deps ctx hostId auditId : event (remove_host deps ctx hostId auditId)
  | ev_cleaned newId faults hostId organizationId summary :
      event (worker_cleaned newId faults hostId organizationId summary)
  | ev_not_cleaned faults hostId organizationId reason : event (worker_failed faults hostId organizationId reason)
  | ev_seen hostId organizationId seenAt failed osId osName :
      event (on_hosts (HostRepository.recordSeen hostId organizationId seenAt failed osId osName))
  | ev_create deps ctx input newId claimId configId auditId token initial :
      event (insert_bot deps ctx input newId claimId configId auditId token initial)
  | ev_bot {A} (f : InstanceRepository.Table -> A * InstanceRepository.Table) :
      bot_statement f -> event (on_instances f)
  | ev_delete_bot scope instanceId claimId :
      event (on_fleet (stmt (InstanceRepository.deleteUnderClaim scope instanceId claimId))).

Section interleavings.
Context {J Y : Type}.
Abbreviation W := (World (J * Y)).

Definition happens (w w' : W) : Prop := exists A (m : M W A), event m /\ w' = (m w).2.

Lemma bot_statement_stays {A} (f : InstanceRepository.Table -> A * InstanceRepository.Table) :
  bot_statement f -> preserves placed (on_instances (X := J * Y) f).
Proof.
  intros Hf. apply placed_on_bots. intros t r Hr.
  destruct Hf; (eapply same_place_update; [|exact Hr]); done.
Qed.

Lemma event_placed {A} (m : M W A) : event m -> preserves placed m.
Proof.
  intros [].
  - unfold insert_host. placed_steps. intros w Hw. unfold on_fleet, HostRepository.insert, bind, lift, stmt.
    destruct (requireConsistentTrustTuple _) as [[]|e]; [|exact Hw].
    destruct (resolveHostKeyTrustedByLabel _) as [label|e]; [|exact Hw].
    intros r Hr. eapply keeps_has_machine; [apply keeps_append|]. by apply Hw.
  - unfold claim_host. placed_steps. apply placed_on_hosts. intros t. by apply keeps_update.
  - apply placed_on_hosts. intros t. by apply keeps_update.
  - unfold record_failure. placed_steps. apply placed_on_hosts. intros t. by apply keeps_update.
  - unfold finish_provisioning. placed_steps.
  - unfold trust_key. placed_steps. intros w Hw. unfold on_fleet, HostRepository.updateHostKeyTrust, bind, lift, stmt.
    destruct (requireNonBlankLabel _) as [label|e]; [|exact Hw].
    intros r Hr. eapply keeps_has_machine; [by apply keeps_update|]. by apply Hw.
  - apply remove_host_placed.
  - unfold worker_cleaned. placed_steps. all: intros w Hw; try exact Hw. all: intros r Hr.
    all: eapply keeps_has_machine; [|exact (Hw r Hr)]. apply keeps_others. intros h _ Hp.
    unfold HostRepository.torn_down in Hp. apply andb_true_iff in Hp as [_ Hp]. by tests.
  - unfold worker_failed. placed_steps. intros w Hw r Hr. eapply keeps_has_machine; [|exact (Hw r Hr)]. by apply keeps_update.
  - apply placed_on_hosts. intros t. by apply keeps_update.
  - apply placed_insert_bot.
  - by apply bot_statement_stays.
  - apply placed_delete_bot.
Qed.

(** C7: whatever requests of members and jobs of the worker do to the tables
    of machines and bots, in whatever order their transactions come, every bot
    always has a machine in the table that is not being removed: a machine
    with bots is neither removed nor begun to be, and one that is gone or
    being removed gets no bot. *)
Theorem bots_have_their_machine w w' (Hstart : placed w) (Hsteps : rtc happens w w') : placed w'.
Proof.
  induction Hsteps as [w|w w1 w' (A & m & Hm & ->) _ IH]; [exact Hstart|]. apply IH.
  pose proof (event_placed m Hm w Hstart) as H. by destruct (m w) as [[a|e] w2].
Qed.
End interleavings.

(** ** Progress that arrives late

    The updates of the progress are not waited for; one that reaches the table
    after the attempt has ended changes nothing. *)

Lemma late_progress_is_ignored scope hostId attemptId reason reached late t :
  let ended := (HostRepository.recordProvisioningFailure scope hostId attemptId reason reached t).2 in
  (HostRepository.recordProvisioningProgress scope hostId attemptId late ended).2 = ended.
Proof.
  simpl. apply update_where_none. intros h Hh. apply in_update_where in Hh as (h0 & _ & ->).
  destruct (HostRepository.attempted scope hostId attemptId h0) eqn:E; [|by rewrite E].
  apply andb_false_iff. right. by destruct reached.
Qed.

Lemma progress_after_the_end_is_ignored scope hostId attemptId patch stack arch late t :
  (forall h, In h t -> HostRepository.attempted scope hostId attemptId h = true -> host_status h = provisioning) ->
  let ended := (HostRepository.finalizeProvisioning scope hostId attemptId patch stack arch t).2 in
  (HostRepository.recordProvisioningProgress scope hostId attemptId late ended).2 = ended.
Proof.
  intros Hp. simpl. apply update_where_none. intros h Hh. apply in_update_where in Hh as (h0 & Hin & ->).
  destruct (HostRepository.held scope hostId attemptId h0) eqn:E.
  - apply andb_false_iff. left. apply andb_false_r.
  - apply andb_false_iff. left. destruct (HostRepository.attempted scope hostId attemptId h0) eqn:Ea; [|done].
    specialize (Hp h0 Hin Ea). unfold HostRepository.held, HostRepository.attempted in *.
    apply andb_true_iff in Ea as [Eo Ei]. rewrite Eo, Ei, bool_decide_eq_true_2 in E by done. done.
Qed.

(** ** A machine that is being removed *)

Module Removing.
(** The jobs that were taken, and the commands that were run. *)
Definition Jobs : Type := list (string * list (string * string)).
Definition Commands : Type := list string.
Abbreviation W := (World (Jobs * Commands)).

(** Every command succeeds, and the machine is found fit and clean. *)
Definition answering_all : Exec W := fun command timeoutMs stdin w =>
  (ProvisionSafety.fit_machine [] command timeoutMs stdin,
   MkWorld (fleet w) (clock w) (activeReadAt w) (fst (elsewhere w), snd (elsewhere w) ++ [command])).

Definition connection : HostTransport W :=
  MkTransport W (fun _ => ret tt) answering_all (fun _ _ => ret true) (ret tt).

Definition take_job (queue : string) (payload : list (string * string)) : M Jobs (option string) :=
  fun jobs => (Ok (Some "job"), jobs ++ [(queue, payload)]).

Definition deps : HostControllerDeps Jobs Commands :=
  MkHostDeps Jobs Commands (ret connection) (fun _ _ => Ok "private") (fun _ _ _ => ret "")
    (fun _ _ _ => ret handshake_key) (fun _ _ => ret tt) (fun _ => "") (fun _ => None) (fun _ => None) None take_job (fun _ => None).

Definition machine : HostRow :=
  MkHostRow "h" "o" "box" ready (MkHostAddress "box.example" 22 "mcc" (Some "k"))
    (MkTrust (Some "SHA256:f") (Some "ssh-ed25519") (Some 0) (Some "m") "Ann")
    (MkFacts (Some "systemd 255") None None None None None None (Some pasta) (Some x64))
    (MkProvisioning None None None None None None) None None 0.

Definition tables : FleetTables :=
  MkFleet [machine] [MkSshKey "k" "o" "sealed" "key"] [] [] [] [] (MkTaskTables [] [] [] [] [] []) [].

Definition ann : ActorContext := MkActor "o" "m" "Ann" owner.
Definition before : W := MkWorld tables 1000 [] ([], []).

(** The removal, the set-up that follows it, and then the job. *)
Definition removed : result bool * W := remove deps ann "h" "a1" before.
Definition set_up : result HostPublic * W := provision deps ann "h" "attempt" "a2" "a3" removed.2.

Definition job_of (w : W) : Json :=
  match fst (elsewhere w) with
  | (_, payload) :: _ => Some (map (fun field => (field.1, Some field.2)) payload)
  | [] => None
  end.

Definition torn_down : result unit * W :=
  host_teardown (worker_deps "a4" (fun _ => None) (fun _ _ => Ok "private") (fun _ _ _ _ _ => ret connection) None
                   (fun _ => None) (fun _ => None)) (job_of set_up.2) set_up.2.

(** a machine whose removal was requested can be set up again before the
    job of the removal runs, and is shown as ready; the job then deletes
    everything on it, including the bots' directory and the client just
    installed, and does not delete its row, which stays ready with the time of
    the request for its removal. *)
Theorem removal_empties_a_machine_set_up_again :
  removed.1 = Ok true
  /\ hp_status <$> (match set_up.1 with Ok shown => Some shown | Throw _ => None end) = Some ready
  /\ torn_down.1 = Ok tt
  /\ map (fun h => (host_status h, teardownRequestedAt h)) (hosts (fleet torn_down.2)) = [(ready, Some 1000)]
  /\ last (List.filter (fun c => (c ≡? deleteFilesCommand) || startsWith "install -D" c)
             (snd (elsewhere torn_down.2))) = Some deleteFilesCommand.
Proof. vm_compute. split_and!; reflexivity. Qed.

Lemma provisioning_is_settled_witness :
  match provision deps ann "h" "attempt" "a2" "a3" before with
  | (Ok shown, w') => not_held "o" "h" "attempt" w' /\ hp_status shown = ready
  | (Throw error, w') => not_held "o" "h" "attempt" w' \/ could_not_end deps error
  end.
Proof.
  apply (provisioning_is_settled deps "o" "h" "attempt").
  - intros f message error w H. discriminate H.
  - reflexivity.
  - vm_compute. reflexivity.
  - intros h [<-|[]]. reflexivity.
Defined.

(** Two machines, a bot on the first. *)
Definition spare : HostRow :=
  MkHostRow "e" "o" "spare" ready (host_address machine) (host_trust machine) (host_facts machine)
    (host_provisioning machine) None None 0.

Definition first_bot : InstanceRow :=
  MkInstance "bot" "o" "h" "Miner" offline "Steve" None st_running None no_claims 33333 None 0.

Definition populated : W :=
  MkWorld (MkFleet [machine; spare] [MkSshKey "k" "o" "sealed" "key"] [first_bot] [] [] [] (MkTaskTables [] [] [] [] [] []) [])
    1000 [] ([], []).

Definition bot_deps : InstanceControllerDeps (Jobs * Commands) :=
  MkInstanceDeps (Jobs * Commands) (throw (internal "no connection")) (fun token => Ok (MkSealed token "key"))
    (fun text _ => Ok text) (fun _ => None) (fun _ => None) (fun text => text) (fun _ => true)
    (fun _ _ => true) (fun _ => true) (fun _ => None) (fun _ => None) (fun _ => "{}").

(** Another bot, named [id], on the machine [host]. *)
Definition bot_added (id host : string) (w : W) : result InstanceRow * W :=
  insert_bot bot_deps ann (MkCreateInput host id offline "Alex" "mc.example" "1.20.1") id "claim" "c1" "a9"
    (MkSealed "token" "key") (with_port 33334 (defaultInstanceConfig offline "Alex" "mc.example" "1.20.1")) w.

(** The removal of the first machine is refused, that of the second begins; a
    bot is added to the first, and refused on the second. *)
Definition refused : result bool * W := remove_host deps ann "h" "a1" populated.
Definition begun : result bool * W := remove_host deps ann "e" "a2" refused.2.
Definition added : result InstanceRow * W := bot_added "second" "h" begun.2.
Definition late : result InstanceRow * W := bot_added "third" "e" added.2.

Lemma bots_have_their_machine_witness :
  map (fun r => (in_id r, in_hostId r)) (instances (fleet late.2)) = [("bot", "h"); ("second", "h")]
  /\ map (fun h => (host_id h, host_status h)) (hosts (fleet late.2)) = [("h", ready); ("e", removing)]
  /\ placed late.2.
Proof.
  split; [vm_compute; reflexivity|]. split; [vm_compute; reflexivity|].
  apply (bots_have_their_machine populated late.2).
  - intros r [<-|[]]. exists machine. split; [by left|]. split; [reflexivity|discriminate].
  - apply (rtc_l _ _ refused.2); [exact (ex_intro _ _ (ex_intro _ _ (conj (ev_remove deps ann "h" "a1") eq_refl)))|].
    apply (rtc_l _ _ begun.2); [exact (ex_intro _ _ (ex_intro _ _ (conj (ev_remove deps ann "e" "a2") eq_refl)))|].
    apply (rtc_l _ _ added.2); [eexists _, _; split; [apply ev_create|reflexivity]|].
    apply rtc_once. eexists _, _. split; [apply ev_create|reflexivity].
Defined.
End Removing.
