(* ===== verification/HostSetup.v ===== *)
(** The script that prepares an account on a machine.

    [packages/contracts/src/host-setup.ts]: the text a member runs on the
    machine, or the manager does over a root session.  A backquote stands for
    a double quote, as in [MachineFacts]. *)

From S2P Require Import Prelude Calendar Shell Control MachineFacts.

Definition singleQuote (value : string) : string := shellQuote value.

Definition SCRIPT_HEREDOC : string := "OPENMCC_SETUP".
Definition KEY_HEREDOC : string := "OPENMCC_KEY".
Definition SCAN_HEREDOC : string := "OPENMCC_AUTHKEY_SCAN".

Definition fingerprintCommand : string :=
  "ssh-keygen -lf /etc/ssh/ssh_host_ed25519_key.pub | awk '{print $2}'".

Definition setupSummary (username keyName : string) (createAccount : bool) : list string :=
  (if createAccount then ["Creates the account " +:+ username +:+ " if it is missing"] else [])
  ++ ["Offers to unlock " +:+ username +:+ " if it is locked";
      "Authorises the key " +:+ keyName +:+ " for " +:+ username;
      "Enables lingering, so instances keep running after you log out";
      "Checks this machine has a client build";
      "Installs Podman if it is missing";
      "Lets " +:+ username +:+ " run containers";
      "Prints the host key fingerprint for the next step"].

(** [/^[a-z_][a-z0-9_-]{0,31}$/] *)
Definition ACCOUNT_NAME_PATTERN (name : string) : bool :=
  match name with
  | EmptyString => false
  | String c rest =>
      (in_range "a" "z" c || (c ≡? "_"%char)) && (String.length rest <=? 31)%nat
      && chars_all (fun c => in_range "a" "z" c || is_digit c || (c ≡? "_"%char) || (c ≡? "-"%char)) rest
  end.

Definition createAccountCommand (username : string) : string :=
  "useradd --create-home --shell /bin/sh --password '*' -- " +:+ singleQuote username.

Definition createSection (username : string) : string :=
  lines_of_script
    [EmptyString;
     sh "if [ -z `$home` ]; then";
     "  if ! made=$(" +:+ createAccountCommand username +:+ " 2>&1); then";
     sh "    printf '%s\n' `$made` | tr -d '\000-\010\013-\037\177' >&2";
     sh "    echo `Could not create an account called $account on this host.` >&2";
     "    exit 1";
     "  fi";
     sh "  home=$(getent passwd `$account` | cut -d: -f6 || true)";
     sh "  if [ -z `$home` ]; then";
     sh "    echo `Created $account but this host reports no home folder for it.` >&2";
     "    exit 1";
     "  fi";
     sh "  echo `  account $account created`";
     "else";
     sh "  echo `  account $account already exists, left alone`";
     "fi";
     EmptyString].

Definition missingSection (username : string) : string :=
  lines_of_script
    [EmptyString;
     sh "if [ -z `$home` ]; then";
     sh "  echo `There is no account called $account on this host.` >&2";
     "  echo " +:+ singleQuote (sh "Either go back to the Account step and choose `Create it for me`,") +:+ " >&2";
     "  echo " +:+ singleQuote ("or run this first: sudo " +:+ createAccountCommand username) +:+ " >&2";
     "  exit 1";
     "fi";
     EmptyString].

Definition clearPasswordCommand (username : string) : string := "usermod -p '*' -- " +:+ singleQuote username.
Definition restorePasswordCommand (username : string) : string := "usermod -U -- " +:+ singleQuote username.
Definition shellCommand (username : string) : string := "chsh -s /bin/sh -- " +:+ singleQuote username.

Definition LOCK_STATE_FUNCTION : string :=
  lines_of_script
    ["lock_state() {";
     sh "  case `$1` in";
     "    '!'|'!!'|'!*') printf none ;;";
     "    '!'*) printf password ;;";
     "    *) printf open ;;";
     "  esac";
     "}"].

Inductive UnlockMode := ask | grant.
Inductive SetupPrivilege := sudo | no_privilege.

Definition lockedNotice (username : string) : string :=
  "The account " +:+ username +:+ " is locked, so the server may refuse it even with the right key.".

Definition LOCKED_KEEPS_PASSWORD : string :=
  "It has a password. Unlocking puts that password back exactly as it was, and changes nothing else.".
Definition LOCKED_HAS_NO_PASSWORD : string :=
  "It has no password, and unlocking gives it none. It stays key-only.".

Definition askSection : string :=
  lines_of_script
    [sh "  printf 'Unlock %s now? [y/N] ' `$account` >&2";
     "  answer=n";
     "  if { read -r reply < /dev/tty; } 2>/dev/null; then answer=$reply; fi"].

Definition grantSection : string := "  answer=y".

Definition READ_STATE : string :=
  sh "lock_state `$(getent shadow `$account` 2>/dev/null | cut -d: -f2 || true)`".

Definition lockSection (username : string) (unlock : UnlockMode) : string :=
  lines_of_script
    [EmptyString;
     LOCK_STATE_FUNCTION;
     "state=$(" +:+ READ_STATE +:+ ")";
     sh "if [ `$state` != open ]; then";
     "  echo " +:+ singleQuote (lockedNotice username) +:+ " >&2";
     sh "  if [ `$state` = password ]; then";
     "    echo " +:+ singleQuote LOCKED_KEEPS_PASSWORD +:+ " >&2";
     "  else";
     "    echo " +:+ singleQuote LOCKED_HAS_NO_PASSWORD +:+ " >&2";
     "  fi";
     match unlock with grant => grantSection | ask => askSection end;
     sh "  case `$answer` in";
     "    y|Y|yes|Yes|YES)";
     sh "      if [ `$state` = password ]; then";
     "        " +:+ restorePasswordCommand username +:+ " || true";
     "      else";
     "        " +:+ clearPasswordCommand username +:+ " || true";
     "      fi";
     sh "      if [ `$(" +:+ READ_STATE +:+ sh ")` != open ]; then";
     sh "        echo `Could not unlock $account.` >&2";
     "        exit 1";
     "      fi";
     sh "      echo `  $account unlocked`";
     "      ;;";
     "    *)";
     sh "      echo `Left $account locked, and changed nothing.` >&2";
     sh "      if [ `$state` = password ]; then";
     "        echo " +:+ singleQuote ("Unlock it yourself, then run this again: sudo " +:+ restorePasswordCommand username) +:+ " >&2";
     "      else";
     "        echo " +:+ singleQuote ("Unlock it yourself, then run this again: sudo " +:+ clearPasswordCommand username) +:+ " >&2";
     "      fi";
     "      exit 1";
     "      ;;";
     "  esac";
     "fi";
     EmptyString].

Definition signInSection (username : string) : string :=
  lines_of_script
    [EmptyString;
     sh "shell=$(getent passwd `$account` | cut -d: -f7)";
     sh "case `$shell` in";
     "  */nologin|*/false)";
     sh "    echo `The account $account cannot run anything: its shell is $shell.` >&2";
     "    echo " +:+ singleQuote ("Give it a login shell, then run this again: sudo " +:+ shellCommand username) +:+ " >&2";
     "    exit 1 ;;";
     "esac";
     sh "if [ ! -d `$home` ]; then";
     sh "  echo `The account $account has no home folder at $home, so nothing can be stored for it.` >&2";
     "  exit 1";
     "fi";
     "state=$(" +:+ READ_STATE +:+ ")";
     sh "if [ `$state` != open ]; then";
     sh "  echo `The account $account is locked, so a key login can still be refused.` >&2";
     sh "  if [ `$state` = password ]; then";
     "    echo " +:+ singleQuote ("Unlock it, then run this again: sudo " +:+ restorePasswordCommand username) +:+ " >&2";
     "  else";
     "    echo " +:+ singleQuote ("Unlock it, then run this again: sudo " +:+ clearPasswordCommand username) +:+ " >&2";
     "  fi";
     "  exit 1";
     "fi";
     sh "echo `  nothing on $account blocks a key login`";
     EmptyString].

Definition ROOT_SECTION : string :=
  lines_of_script
    [EmptyString;
     sh "if [ `$(id -u `$account`)` = 0 ]; then";
     sh "  echo `Bots can't run as root. Use a normal account.` >&2";
     "  exit 1";
     "fi";
     EmptyString].

Definition LINGER_SECTION : string :=
  lines_of_script
    [EmptyString;
     sh "if ! loginctl enable-linger `$account`; then";
     sh "  echo `Could not enable lingering for $account. Instances would stop when its last session ends.` >&2";
     "  exit 1";
     "fi";
     sh "echo `  lingering enabled, so instances keep running after logout`";
     EmptyString].

Definition PODMAN_SECTION : string :=
  lines_of_script
    [EmptyString;
     "if command -v podman >/dev/null 2>&1; then";
     sh "  echo `  Podman already installed`";
     "elif command -v apt-get >/dev/null 2>&1; then";
     "  log=$(mktemp)";
     sh "  if ! DEBIAN_FRONTEND=noninteractive apt-get update -qq >`$log` 2>&1; then";
     sh "    echo `Could not refresh the package lists:` >&2; tail -5 `$log` >&2; rm -f `$log`; exit 1";
     "  fi";
     "  major=$(apt-cache policy podman | awk '/Candidate:/ {print $2; exit}' | sed -E 's/^[0-9]+://; s/[^0-9].*$//')";
     sh "  if [ -z `$major` ]; then";
     sh "    echo `This distribution has no Podman package.` >&2; rm -f `$log`; exit 1";
     "  fi";
     sh "  helper=slirp4netns; [ `$major` -ge 5 ] && helper=passt";
     sh "  if ! DEBIAN_FRONTEND=noninteractive apt-get install -y -qq -o Dpkg::Use-Pty=0 --no-install-recommends --no-remove podman uidmap `$helper` catatonit dbus-user-session fuse-overlayfs >`$log` 2>&1; then";
     sh "    echo `Could not install Podman:` >&2; tail -5 `$log` >&2; rm -f `$log`; exit 1";
     "  fi";
     sh "  rm -f `$log`";
     sh "  echo `  installed Podman with $helper`";
     "else";
     sh "  echo `This distribution isn't supported yet.` >&2";
     "  exit 1";
     "fi";
     EmptyString].

Definition SUBORDINATE_SECTION : string :=
  lines_of_script
    [EmptyString;
     sh "uid=$(id -u `$account`)";
     "has_range() {";
     sh "  awk -F: -v a=`$account` -v i=`$uid` '$1 == a || $1 == i { found = 1 } END { exit !found }' `$1` 2>/dev/null";
     "}";
     "if has_range /etc/subuid && has_range /etc/subgid; then";
     sh "  echo `  $account can already run containers`";
     "else";
     sh "  start=$(cat /etc/subuid /etc/subgid 2>/dev/null | awk -F: 'NF == 3 && $2 ~ /^[0-9]+$/ && $3 ~ /^[0-9]+$/ { end = $2 + $3; if (end > top) top = end } END { printf `%d\n`, (top > 100000 ? top : 100000) }')";
     sh "  range=`$start-$((start + 65535))`";
     sh "  has_range /etc/subuid || usermod --add-subuids `$range` `$account`";
     sh "  has_range /etc/subgid || usermod --add-subgids `$range` `$account`";
     sh "  echo `  $account can now run containers`";
     "fi";
     EmptyString].

Definition AUTHORISE : string :=
  lines_of_script
    ["set -eu";
     "umask 077";
     "key=$(cat)";
     sh "home=$(getent passwd `$(id -un)` | cut -d: -f6)";
     sh "mkdir -p `$home/.ssh`";
     sh "chmod 700 `$home/.ssh`";
     sh "touch `$home/.ssh/authorized_keys`";
     sh "chmod 600 `$home/.ssh/authorized_keys`";
     sh "material=$(printf `%s` `$key` | awk `{print \$2}`)";
     "scan=$(mktemp)";
     sh "cat <<`" +:+ SCAN_HEREDOC +:+ sh "` > `$scan`";
     "function is_keytype(s) { return s ~ /^(ssh-|ecdsa-|sk-)/ }";
     sh "BEGIN { if (blob == ``) exit }";
     "/^[ \t]*#/ { next }";
     "/^[ \t]*$/ { next }";
     "decided { next }";
     "{";
     "	n = split($0, f, /[ \t]+/)";
     "	k = 0";
     "	for (i = 1; i <= n; i++) {";
     "		if (is_keytype(f[i])) { k = i; break }";
     "	}";
     "	if (k == 0 || f[k + 1] != blob) next";
     "	decided = 1";
     "	present = 1";
     "	dangerous = 0";
     "	for (i = 1; i < k; i++) {";
     sh "		if (index(f[i], `\``) > 0 || index(f[i], `=`) > 0) dangerous = 1";
     "	}";
     "	is_clean = 0";
     "	if (k == 1) {";
     "		is_clean = 1";
     "	} else if (!dangerous) {";
     "		opts = f[1]";
     sh "		for (i = 2; i < k; i++) opts = opts `,` f[i]";
     sh "		nopt = split(opts, tokens, `,`)";
     "		ok = 1";
     "		has_restrict = 0";
     "		has_portfwd = 0";
     "		for (i = 1; i <= nopt; i++) {";
     "			t = tokens[i]";
     sh "			if (t == `restrict`) { has_restrict = 1 }";
     sh "			else if (t == `port-forwarding`) { has_portfwd = 1 }";
     sh "			else if (t == `pty` || t == `no-pty` || t == `agent-forwarding` || t == `no-agent-forwarding` || t == `X11-forwarding` || t == `no-X11-forwarding` || t == `user-rc` || t == `no-user-rc`) { }";
     "			else { ok = 0 }";
     "		}";
     "		if (ok && (!has_restrict || has_portfwd)) is_clean = 1";
     "	}";
     "	if (is_clean) clean = 1";
     "	else badline = NR";
     "}";
     sh "END { printf `%d %d %d`, present + 0, clean + 0, badline + 0 }";
     SCAN_HEREDOC;
     sh "info=$(awk -v blob=`$material` -f `$scan` `$home/.ssh/authorized_keys`)";
     sh "rm -f `$scan`";
     "set -- $info";
     "present=${1:-0}";
     "clean=${2:-0}";
     "badline=${3:-0}";
     sh "if [ `$present` = `1` ] && [ `$clean` = `1` ]; then";
     sh "  echo `  key already present, left alone`";
     sh "elif [ `$present` = `1` ]; then";
     sh "  echo `This key is already authorised in authorized_keys, but line $badline restricts it in a way that would block the manager. Edit or remove that line, then run this setup again.` >&2";
     "  exit 1";
     "else";
     sh "  if [ -s `$home/.ssh/authorized_keys` ] && [ -n `$(tail -c 1 `$home/.ssh/authorized_keys`)` ]; then";
     sh "    printf `\n` >> `$home/.ssh/authorized_keys`";
     "  fi";
     sh "  printf `%s\n` `$key` >> `$home/.ssh/authorized_keys`";
     sh "  echo `  key added to $home/.ssh/authorized_keys`";
     "fi"].

Definition hostSetupScript (username publicKey : string) (createAccount : bool) (unlock : UnlockMode)
    (privilege : SetupPrivilege) : string :=
  lines_of_script
    [(match privilege with sudo => "sudo " | no_privilege => EmptyString end) +:+ "sh -s <<'" +:+ SCRIPT_HEREDOC +:+ "'";
     "set -eu";
     EmptyString;
     "account=" +:+ singleQuote username;
     EmptyString;
     "key=$(cat <<'" +:+ KEY_HEREDOC +:+ "'";
     publicKey;
     KEY_HEREDOC;
     ")";
     EmptyString;
     sh "home=$(getent passwd `$account` | cut -d: -f6 || true)";
     (if createAccount then createSection username else missingSection username) +:+ ROOT_SECTION +:+ lockSection username unlock;
     "authorise='" +:+ AUTHORISE +:+ "'";
     sh "if ! said=$(printf '%s\n' `$key` | setsid su -s /bin/sh `$account` -c `$authorise` 2>&1); then";
     sh "  printf '%s\n' `$said` | tr -d '\000-\010\013-\037\177' >&2";
     sh "  echo `Could not authorise the key for $account.` >&2";
     "  exit 1";
     "fi";
     sh "printf '%s\n' `$said` | tr -d '\000-\010\013-\037\177'";
     LINGER_SECTION;
     "machine=$(uname -m)";
     sh "case `$machine` in";
     sh "  x86_64|amd64|aarch64|arm64) echo `  architecture $machine is supported` ;;";
     sh "  *) echo `There is no client build for $machine. This host cannot run instances.` >&2; exit 1 ;;";
     "esac";
     PODMAN_SECTION +:+ SUBORDINATE_SECTION +:+ signInSection username;
     "echo";
     sh "echo `Host key fingerprint - paste this into the dashboard:`";
     fingerprintCommand;
     SCRIPT_HEREDOC].

(** The part that runs as the account is between single quotes, and has none. *)
Example authorise_is_quoted : free_of "'" AUTHORISE = true.
Proof. vm_compute. reflexivity. Qed.

Lemma lower_is_letter c : in_range "a" "z" c = true -> is_letter c = true.
Proof. destruct c as [[] [] [] [] [] [] [] []]; vm_compute; done. Qed.

(** A name that may be an account's is one word of the shell by itself. *)
Lemma account_name_is_a_word name : ACCOUNT_NAME_PATTERN name = true -> accountWord name = name.
Proof.
  unfold ACCOUNT_NAME_PATTERN, accountWord, SHELL_WORD. destruct name as [|c rest]; [done|]. intros H.
  apply andb_true_iff in H as [H Hr]. apply andb_true_iff in H as [Hc _].
  assert (E : is_letter c || is_digit c || (c ≡? "_"%char) = true).
  { apply orb_true_iff in Hc as [Hc|Hc]; [by rewrite (lower_is_letter _ Hc)|by rewrite Hc, orb_true_r]. }
  cbv beta zeta. rewrite E. cbn [andb].
  erewrite chars_all_impl; [done| |exact Hr].
  intros x Hx. apply orb_true_iff in Hx as [Hx|Hx]; [|by rewrite Hx, !orb_true_r].
  apply orb_true_iff in Hx as [Hx|Hx]; [|by rewrite Hx, !orb_true_r].
  apply orb_true_iff in Hx as [Hx|Hx]; [by rewrite (lower_is_letter _ Hx)|by rewrite Hx, ?orb_true_r].
Qed.
