(* ===== verification/ExpressInstall.v ===== *)
(** Setting an account up over a root session.

    [packages/core/src/host/express-install.ts] with the input and the results
    of [packages/contracts/src/express-install.ts], and the [expressInstall]
    of [host.controller.ts].  The session and the removal of secrets from texts
    ([redact]) are arguments. *)

From S2P Require Import Prelude Tables Calendar Observer HealthPoller Shell Control ClientSettings Access HostStore InstanceStore InstanceController MachineFacts Provision HostCheck HostSetup HostController Teardown.

Definition EXPRESS_ROOT_USERNAME : string := "root".
Definition EXPRESS_CONNECT_TIMEOUT_MS : Z := 20000.
Definition EXPRESS_SETUP_TIMEOUT_MS : Z := 600000.
Definition EXPRESS_REASON_TAIL : nat := 600.
Definition EXPRESS_TIMED_OUT_REASON : string :=
  "The setup did not finish in time. It may still be running on the server.".
Definition EXPRESS_NO_REASON : string := "The setup stopped without saying why.".
Definition REDACTED_CREDENTIAL : string := "[redacted credential]".

Inductive RootCredential := root_password (password : string) | root_key (privateKey : string).

Record ExpressInstallInput := MkExpress {
  ex_hostname : string; ex_port : Z; ex_username : string; ex_sshKeyId : string;
  ex_createAccount : bool; ex_expectedFingerprint : string; ex_credential : RootCredential; ex_unlock : bool }.

Inductive ExpressInstallResult :=
  | ex_ready (fingerprint : string)
  | ex_locked (account : string) (keepsPassword : bool)
  | ex_key_mismatch
  | ex_refused
  | ex_credential_unreadable
  | ex_unreachable (reason : string)
  | ex_script_failed (reason : string).

Definition outcome_text (result : ExpressInstallResult) : string :=
  match result with
  | ex_ready _ => "ready" | ex_locked _ _ => "locked" | ex_key_mismatch => "key-mismatch"
  | ex_refused => "refused" | ex_credential_unreadable => "credential-unreadable"
  | ex_unreachable _ => "unreachable" | ex_script_failed _ => "script-failed"
  end.

Definition expressSetupCommand (input : ExpressInstallInput) (publicKey : string) : string :=
  hostSetupScript (ex_username input) publicKey (ex_createAccount input)
    (if ex_unlock input then grant else ask) no_privilege.

Definition credential_kind (credential : RootCredential) : string :=
  match credential with root_password _ => "password" | root_key _ => "key" end.

Definition secretOf (input : ExpressInstallInput) : string :=
  match ex_credential input with root_password password => password | root_key privateKey => privateKey end.

(** [/^SHA256:[A-Za-z0-9+/]{43}$/] *)
Definition HOST_KEY_FINGERPRINT_PATTERN (value : string) : bool :=
  match after "SHA256:" value with
  | Some rest =>
      (String.length rest =? 43)%nat
      && chars_all (fun c => is_letter c || is_digit c || (c ≡? "+"%char) || (c ≡? "/"%char)) rest
  | None => false
  end.

(** [value.split(secret).join(mark)], for a secret that is not empty. *)
Fixpoint replace_all (fuel : nat) (secret mark value : string) : string :=
  match fuel with
  | O => value
  | S fuel =>
      match value with
      | EmptyString => EmptyString
      | String c rest =>
          if startsWith secret value
          then mark +:+ replace_all fuel secret mark (slice_from (String.length secret) value)
          else String c (replace_all fuel secret mark rest)
      end
  end.

Definition split_join_secret (secret mark value : string) : string :=
  replace_all (S (String.length value)) secret mark value.

Definition printedFingerprint (output : string) : option string :=
  find HOST_KEY_FINGERPRINT_PATTERN (map trim (split_on NEWLINE output)).

Section express.
Context {J Y : Type} (deps : HostControllerDeps J Y) (redact : string -> string).
Abbreviation W := (World (J * Y)).

(** [RootSession] of the transport. *)
Record RootSession := MkSession {
  rs_connect : string -> Z -> string -> RootCredential -> string -> Z -> M W unit;
  rs_run : string -> Z -> M W ExecResult;
  rs_close : M W unit }.

Context (createRootSession : M W RootSession) (publicKeyOf : SshKeyRow -> string).

Definition redactValue (value secret : string) : string :=
  redact (if (String.length secret =? 0)%nat then value else split_join_secret secret REDACTED_CREDENTIAL value).

Definition connectFailureOutcome (error : thrown) : ExpressInstallResult :=
  if startsWith "Cannot parse privateKey" (reason_of EmptyString error) then ex_credential_unreadable
  else if instanceof "RootHostKeyRejectedError" error then ex_key_mismatch
  else
    let reason := unreachable_reason deps error in
    if reason ≡? KEY_REFUSED then ex_refused else ex_unreachable reason.

Definition tailOf (text secret : string) : string :=
  let cleaned := trim (redactValue text secret) in
  if (String.length cleaned =? 0)%nat then EXPRESS_NO_REASON
  else if (String.length cleaned <=? EXPRESS_REASON_TAIL)%nat then cleaned
  else slice_from (String.length cleaned - EXPRESS_REASON_TAIL) cleaned.

Definition scriptOutcome (result : ExecResult) (input : ExpressInstallInput) (secret : string)
    : ExpressInstallResult :=
  if negb (exitCode result =? 0) then
    if includes (lockedNotice (ex_username input)) (stderr result)
    then ex_locked (ex_username input) (includes LOCKED_KEEPS_PASSWORD (stderr result))
    else ex_script_failed (tailOf (stderr result) secret)
  else
    match printedFingerprint (stdout result) with
    | None => ex_script_failed (tailOf (stderr result) secret)
    | Some fingerprint =>
        if negb (fingerprint ≡? ex_expectedFingerprint input) then ex_key_mismatch else ex_ready fingerprint
    end.

Definition runFailureOutcome (error : thrown) (secret : string) : ExpressInstallResult :=
  let message := reason_of EmptyString error in
  if includes "timed out" (toLowerCase message) then ex_script_failed EXPRESS_TIMED_OUT_REASON
  else ex_script_failed
         (redactValue (if (0 <? String.length message)%nat then message else COULD_NOT_CONNECT) secret).

Definition expressAuditDetail (input : ExpressInstallInput) (outcome : ExpressInstallResult)
    : list (string * string) :=
  [("hostname", ex_hostname input); ("port", decimal (ex_port input)); ("account", ex_username input);
   ("createAccount", bool_text (ex_createAccount input));
   ("credentialKind", credential_kind (ex_credential input));
   ("unlockRequested", bool_text (ex_unlock input));
   ("fingerprint", ex_expectedFingerprint input); ("outcome", outcome_text outcome)].

(** What the session comes to. *)
Definition express_attempt (input : ExpressInstallInput) (publicKey : string) : M W ExpressInstallResult :=
  let secret := secretOf input in
  let* session := createRootSession in
  let* refusal :=
    try_catch
      (rs_connect session (ex_hostname input) (ex_port input) EXPRESS_ROOT_USERNAME (ex_credential input)
         (ex_expectedFingerprint input) EXPRESS_CONNECT_TIMEOUT_MS ;;; ret None)
      (fun error => ret (Some (connectFailureOutcome (error_itself error)))) in
  match refusal with
  | Some outcome => ret outcome
  | None =>
      try_finally
        (try_catch
           (let* result := rs_run session (expressSetupCommand input publicKey) EXPRESS_SETUP_TIMEOUT_MS in
            ret (scriptOutcome result input secret))
           (fun error => ret (runFailureOutcome (error_itself error) secret)))
        (rs_close session)
  end.

Definition expressInstall (ctx : ActorContext) (input : ExpressInstallInput) (auditId : string)
    : M W ExpressInstallResult :=
  require_enroll ctx "host.enroll" ;;;
  let* key := query (findSshKey (scopeOf ctx) (ex_sshKeyId input)) in
  match key with
  | None => throw (SshKeyNotFoundError ("SSH key not found: " +:+ ex_sshKeyId input))
  | Some k =>
      let* outcome := express_attempt input (publicKeyOf k) in
      host_transaction
        (host_event ctx auditId "host.express" (ex_hostname input) (expressAuditDetail input outcome)) ;;;
      ret outcome
  end.
End express.

(** ** Texts within texts *)

Lemma trim_part v : exists a b, v = a +:+ trim v +:+ b.
Proof.
  destruct (trim_start_suffix v) as [a Ha]. exists a. unfold trim.
  destruct (trim_start_suffix (String.rev (trim_start v))) as [b Hb].
  exists (String.rev b). rewrite Ha at 1. f_equal. rewrite <- rev_concat, <- Hb. by rewrite rev_rev.
Qed.

Lemma slice_part n v : exists a, v = a +:+ slice_from n v.
Proof.
  revert v. induction n as [|n IH]; intros v; [by exists ""|]. destruct v as [|c v]; [by exists ""|].
  destruct (IH v) as [a Ha]. exists (String c a). cbn [slice_from]. by rewrite string_app_cons, <- Ha.
Qed.

Lemma includes_trim s v : includes s v = false -> includes s (trim v) = false.
Proof. destruct (trim_part v) as (a & b & E). rewrite E at 1. apply includes_part. Qed.

Lemma includes_slice s n v : includes s v = false -> includes s (slice_from n v) = false.
Proof.
  destruct (slice_part n v) as [a E]. rewrite E at 1. intros H. apply (includes_part s a _ ""). by rewrite string_app_nil_r.
Qed.

(** The longer of two beginnings of a text begins with the other. *)
Lemma string_split a b x y :
  a +:+ x = b +:+ y -> (String.length b <= String.length a)%nat -> exists z, a = b +:+ z.
Proof.
  revert b. induction a as [|c a IH]; intros [|d b] H Hl; simpl in Hl; try lia; [by exists ""|by exists (String c a)|].
  rewrite !string_app_cons in H. injection H as -> H. destruct (IH b H ltac:(lia)) as [z ->]. by exists z.
Qed.

Lemma suffix_end front m body x :
  m <> "" -> front +:+ m = body +:+ String x "" -> exists k, m = k +:+ String x "".
Proof.
  revert body. induction front as [|c front IH]; intros body Hm H; [by exists body|].
  rewrite string_app_cons in H. destruct body as [|d body].
  - injection H as _ H. by destruct front, m.
  - rewrite string_app_cons in H. injection H as _ H. by apply (IH body).
Qed.

(** ** What is replaced is gone *)

Section replacing.
Context (secret inside : string).
Context (Hopen : free_of "[" secret = true) (Hclose : free_of "]" secret = true).
Let mark := "[" +:+ inside +:+ "]".
Context (Hmark : includes secret mark = false).

(** Before the first mark, the text is the one that was given. *)
Lemma replaced_prefix fuel p value :
  free_of "[" p = true -> startsWith p (replace_all fuel secret mark value) = true -> startsWith p value = true.
Proof.
  revert p value. induction fuel as [|fuel IH]; intros p value Hp H; [done|].
  destruct value as [|c value]; [done|]. cbn [replace_all] in H.
  destruct (startsWith secret (String c value)).
  - destruct p as [|d p]; [done|]. apply starts_iff in H as [b H]. unfold mark in H.
    rewrite !string_app_cons in H. injection H as <- _. discriminate Hp.
  - destruct p as [|d p]; [done|]. apply starts_iff in H as [b H]. rewrite string_app_cons in H.
    injection H as <- H. assert (Hs : startsWith p value = true).
    { apply IH; [|apply starts_iff; by exists b]. unfold free_of in *. simpl in Hp.
      by apply andb_true_iff in Hp as [_ Hp]. }
    apply starts_iff in Hs as [b' ->]. apply starts_iff. by exists b'.
Qed.

(** Nothing starts in a part of the mark and goes on behind it. *)
Lemma after_mark front m r :
  front +:+ m = mark -> includes secret r = false -> includes secret (m +:+ r) = false.
Proof.
  revert front. induction m as [|c m IH]; intros front Hm Hr; [done|].
  rewrite includes_unfold. apply orb_false_iff. split.
  - destruct (startsWith _ _) eqn:E; [|done]. exfalso. apply starts_iff in E as [b E].
    destruct (Nat.le_gt_cases (String.length secret) (String.length (String c m))) as [Hl|Hl].
    + destruct (string_split _ _ _ _ E Hl) as [z Hz].
      assert (includes secret mark = true) as Hi; [|by rewrite Hi in Hmark].
      apply includes_iff. exists front, z. by rewrite <- Hm, Hz.
    + symmetry in E. destruct (string_split _ _ _ _ E ltac:(lia)) as [z Hz].
      destruct (suffix_end front (String c m) ("[" +:+ inside) "]") as [k Hk]; [done|rewrite Hm; unfold mark; by rewrite string_app_assoc|].
      rewrite Hz, Hk, !free_of_app in Hclose. simpl in Hclose. by rewrite andb_false_r in Hclose.
  - apply (IH (front +:+ String c "")); [by rewrite string_app_assoc|exact Hr].
Qed.

Context (Hsome : secret <> "").

Lemma replaced_gone fuel value :
  (String.length value < fuel)%nat -> includes secret (replace_all fuel secret mark value) = false.
Proof.
  revert value. induction fuel as [|fuel IH]; intros value Hf; [lia|].
  destruct value as [|c value].
  - cbn [replace_all]. by destruct secret.
  - cbn [replace_all]. destruct (startsWith secret (String c value)) eqn:E.
    + apply (after_mark ""); [done|]. apply IH. apply starts_iff in E as [b E]. rewrite E.
      pose proof (slice_from_app secret b 0) as Hs. rewrite Nat.add_0_r in Hs. rewrite Hs. clear Hs. cbn [slice_from].
      apply (f_equal String.length) in E. rewrite string_length_app in E. simpl in E, Hf.
      destruct secret; [done|simpl in E; lia].
    + rewrite includes_unfold. simpl in Hf. rewrite IH by lia. rewrite orb_false_r.
      destruct (startsWith secret (String c (replace_all fuel secret mark value))) eqn:E2; [|done]. rewrite <- E. symmetry.
      apply (replaced_prefix (S fuel)); [exact Hopen|]. cbn [replace_all]. by rewrite E.
Qed.
End replacing.

(** ** What a member is told *)

(** The sentences an unreachable machine is told with. *)
Definition CONNECT_SENTENCES : list string :=
  [TIMED_OUT; REFUSED; NOT_FOUND; NO_ROUTE; DROPPED; KEY_REFUSED; HOST_KEY_MISMATCH; COULD_NOT_CONNECT].

Lemma connect_sentence code level message : In (connectFailureReason code level message) CONNECT_SENTENCES.
Proof.
  unfold connectFailureReason. destruct (let? c := code in _) as [reason|] eqn:E.
  - destruct code as [c|]; [|done]. destruct (List.find _ BY_CODE) as [[k v]|] eqn:Ef; [|done].
    injection E as <-. apply find_some in Ef as [Hin _]. simpl in *.
    repeat match goal with H : _ \/ _ |- _ => destruct H as [H|H] end; simplify_eq/=; tauto.
  - repeat case_match; simpl; tauto.
Qed.

Section secrecy.
Context {J Y : Type} (deps : HostControllerDeps J Y) (redact : string -> string).
Abbreviation W := (World (J * Y)).
Context (createRootSession : M W (RootSession (J := J) (Y := Y))) (publicKeyOf : SshKeyRow -> string).
Context (input : ExpressInstallInput).

(** The fields of an answer: what was asked for, a sentence of the program, or
    a text without the credential. *)
Definition tells_nothing (outcome : ExpressInstallResult) : Prop :=
  match outcome with
  | ex_ready fingerprint => fingerprint = ex_expectedFingerprint input
  | ex_locked who _ => who = ex_username input
  | ex_unreachable reason => In reason CONNECT_SENTENCES
  | ex_script_failed reason =>
      In reason [EXPRESS_NO_REASON; EXPRESS_TIMED_OUT_REASON] \/ includes (secretOf input) reason = false
  | _ => True
  end.

(** The credential is not empty, has no square bracket and is not part of the
    mark it is replaced with; the other patterns that are removed leave no
    credential where there was none. *)
Context (Hsome : secretOf input <> "").
Context (Hopen : free_of "[" (secretOf input) = true) (Hclose : free_of "]" (secretOf input) = true).
Context (Hmark : includes (secretOf input) REDACTED_CREDENTIAL = false).
Context (Hredact : forall v, includes (secretOf input) v = false -> includes (secretOf input) (redact v) = false).

Lemma redacted value : includes (secretOf input) (redactValue redact value (secretOf input)) = false.
Proof.
  unfold redactValue. apply Hredact.
  destruct (Nat.eqb_spec (String.length (secretOf input)) 0) as [H|_].
  { destruct (secretOf input); [done|discriminate H]. }
  unfold split_join_secret.
  apply (replaced_gone (secretOf input) "redacted credential" Hopen Hclose Hmark Hsome). lia.
Qed.

Lemma tail_tells text :
  In (tailOf redact text (secretOf input)) [EXPRESS_NO_REASON; EXPRESS_TIMED_OUT_REASON]
  \/ includes (secretOf input) (tailOf redact text (secretOf input)) = false.
Proof.
  unfold tailOf. assert (H := includes_trim _ _ (redacted text)).
  destruct (_ =? 0)%nat; [left; by left|]. destruct (_ <=? _)%nat; right; [exact H|by apply includes_slice].
Qed.

Lemma script_tells result : tells_nothing (scriptOutcome redact result input (secretOf input)).
Proof.
  unfold scriptOutcome. destruct (negb _).
  - destruct (includes (lockedNotice _) _); [done|apply tail_tells].
  - destruct (printedFingerprint _) as [fingerprint|]; [|apply tail_tells].
    case_bool_decide; done.
Qed.

Lemma connect_tells error : tells_nothing (connectFailureOutcome deps error).
Proof.
  unfold connectFailureOutcome. destruct (startsWith _ _); [done|]. destruct (instanceof _ _); [done|].
  case_bool_decide; [done|]. unfold unreachable_reason. simpl. destruct error; [apply connect_sentence|].
  unfold CONNECT_SENTENCES. simpl. tauto.
Qed.

Lemma failure_tells error : tells_nothing (runFailureOutcome redact error (secretOf input)).
Proof.
  unfold runFailureOutcome. destruct (includes "timed out" _); [left; right; by left|]. right. apply redacted.
Qed.

Lemma attempt_tells publicKey :
  triple (fun _ => True) (express_attempt deps redact createRootSession input publicKey)
    (fun outcome _ => tells_nothing outcome) (fun _ _ => True).
Proof.
  eapply (triple_bind _ _ _ (fun _ _ => True)); [intros w _; by destruct (createRootSession w) as [[?|?] ?]|].
  intros session.
  eapply (triple_bind _ _ _ (fun refusal _ => match refusal with Some o => tells_nothing o | None => True end)).
  { intros w _. unfold try_catch, bind, ret.
    destruct (rs_connect session _ _ _ _ _ _ w) as [[?|e] w']; [done|]. apply connect_tells. }
  intros [outcome|]; [intros w Hw; exact Hw|].
  apply (triple_finally _ _ _ (fun outcome _ => tells_nothing outcome) _ _ (fun _ _ => True)).
  - intros w _. unfold try_catch, bind, ret.
    destruct (rs_run session _ _ w) as [[r|e] w']; [apply script_tells|apply failure_tells].
  - intros outcome w Hw. by destruct (rs_close session w) as [[[]|e] w'].
  - intros e w _. by destruct (rs_close session w) as [[[]|e'] w'].
Qed.

(** whatever the root session and the script answer, an answer that setting a
    machine up as root gives to the member consists of what was asked for, of
    sentences of the program, and of texts in which the credential does not
    occur: for a credential without a square bracket that is not part of the mark
    it is replaced with, as long as [redact] brings none in.  What a request that
    throws says is not the subject. *)
Theorem root_credential_is_not_told ctx auditId w :
  match expressInstall deps redact createRootSession publicKeyOf ctx input auditId w with
  | (Ok outcome, w') => tells_nothing outcome
  | (Throw _, _) => True
  end.
Proof.
  enough (H : triple (fun _ => True) (expressInstall deps redact createRootSession publicKeyOf ctx input auditId)
    (fun outcome _ => tells_nothing outcome) (fun _ _ => True)).
  { specialize (H w Logic.I). by destruct (expressInstall _ _ _ _ _ _ _ w) as [[?|?] ?]. }
  unfold expressInstall, require_enroll.
  eapply (triple_bind _ _ _ (fun _ _ => True)); [by destruct (can _ _)|]. intros _.
  eapply (triple_bind _ _ _ (fun _ _ => True)); [by intros ? ?|]. intros [k|]; [|by intros ? ?].
  eapply triple_bind; [apply attempt_tells|]. intros outcome.
  eapply (triple_bind _ _ _ (fun _ _ => tells_nothing outcome)); [|intros ? ? H; exact H].
  intros w0 Hw. by destruct (host_transaction _ w0) as [[?|?] ?].
Qed.
End secrecy.

Module Password.
Abbreviation W := (World (unit * unit)).

Definition deps : HostControllerDeps unit unit :=
  MkHostDeps unit unit (throw (internal "no")) (fun _ _ => Ok "") (fun _ _ _ => ret "")
    (fun _ _ _ => ret handshake_key) (fun _ _ => ret tt) (fun _ => "") (fun _ => None) (fun _ => None) None
    (fun _ _ => ret None) (fun _ => None).

Definition input : ExpressInstallInput :=
  MkExpress "box.example" 22 "mcc" "k" true "SHA256:f" (root_password "hunter2") false.

(** A script that fails and repeats the password. *)
Definition session : M W (RootSession (J := unit) (Y := unit)) :=
  ret (MkSession (fun _ _ _ _ _ _ => ret tt) (fun _ _ => ret (MkExec 1 "" "su: hunter2: wrong")) (ret tt)).

Definition tables : FleetTables :=
  MkFleet [] [MkSshKey "k" "o" "sealed" "key"] [] [] [] [] (TaskStore.MkTaskTables [] [] [] [] [] []) [].

Definition ann : ActorContext := MkActor "o" "m" "Ann" owner.

Example password_is_masked :
  (expressInstall deps (fun v => v) session (fun _ => "ssh-ed25519 A") ann input "a" (MkWorld tables 0 [] (tt, tt))).1
  = Ok (ex_script_failed "su: [redacted credential]: wrong").
Proof. vm_compute. reflexivity. Qed.

Lemma root_credential_is_not_told_witness :
  match expressInstall deps (fun v => v) session (fun _ => "ssh-ed25519 A") ann input "a"
          (MkWorld tables 0 [] (tt, tt)) with
  | (Ok outcome, w') => tells_nothing input outcome
  | (Throw _, _) => True
  end.
Proof.
  apply (root_credential_is_not_told deps (fun v => v) session (fun _ => "ssh-ed25519 A") input).
  - discriminate.
  - vm_compute. reflexivity.
  - vm_compute. reflexivity.
  - vm_compute. reflexivity.
  - intros v Hv. exact Hv.
Defined.
End Password.
