(* ===== verification/ConfigDrift.v ===== *)
(** The configuration file of a client, read back.

    [packages/contracts/src/boundary/mcc-config.ts] reads the values of a
    document and [packages/core/src/instance/config-drift.ts] compares the
    document a client has with the one it should have.  The parser of TOML (a
    package) is the argument [parse], the order of [localeCompare] the argument
    [locale_le] (and [number_le] that of the shapes of settings); numbers are binary floats with the equality of [===], and
    [other_text] prints those that are neither whole numbers below 2^53 nor
    special. *)

From Stdlib Require Import SpecFloat.
From stdpp Require Import gmap.
From S2P Require Import Prelude Tables Calendar Journal Observer Shell ClientSettings ClientConfig.

(** ** What the parser gives *)

Definition Number : Type := spec_float.

(** [===] on numbers. *)
Definition same_number (a b : Number) : bool := SFeqb a b.

(** What an object of the parser may hold: a date has no keys of its own, an
    integer beyond 2^53 is a [bigint]. *)
Inductive Toml :=
  | t_text (text : string)
  | t_number (n : Number)
  | t_flag (b : bool)
  | t_bigint (n : Z)
  | t_date
  | t_array (entries : list Toml)
  | t_table (entries : list (string * Toml)).

Inductive McConfigScalar :=
  | c_text (text : string)
  | c_number (n : Number)
  | c_flag (b : bool).

Inductive McConfigValue :=
  | c_scalar (scalar : McConfigScalar)
  | c_range (min max : Number)
  | c_list (entries : list McConfigScalar).

Definition isScalar (value : Toml) : option McConfigScalar :=
  match value with
  | t_text text => Some (c_text text)
  | t_number n => Some (c_number n)
  | t_flag b => Some (c_flag b)
  | _ => None
  end.

Definition isScalarList (value : Toml) : option (list McConfigScalar) :=
  match value with t_array entries => mapM isScalar entries | _ => None end.

(** The object's own keys. *)
Definition isRecord (value : Toml) : option (list (string * Toml)) :=
  match value with t_table entries => Some entries | t_date => Some [] | _ => None end.

Definition member (key : string) (entries : list (string * Toml)) : option Toml :=
  option_map snd (List.find (fun entry => entry.1 ≡? key) entries).

Definition readRange (value : list (string * Toml)) : option McConfigValue :=
  let keys := map fst value in
  if negb (length keys =? 2)%nat || bool_decide ("min" ∉ keys) || bool_decide ("max" ∉ keys) then None
  else
    match member "min" value, member "max" value with
    | Some (t_number min), Some (t_number max) =>
        Some (if same_number min max then c_scalar (c_number min) else c_range min max)
    | _, _ => None
    end.

Fixpoint descend (current : Toml) (path : list string) : option Toml :=
  match path with
  | [] => Some current
  | segment :: rest =>
      let? entries := isRecord current in
      let? found := member segment entries in descend found rest
  end.

(** ** Reading a document *)

Definition McConfigUnparseableError (message : string) : thrown :=
  ThrownError (NamedError "McConfigUnparseableError") message.

Record McConfigReading := MkConfigReading {
  values : gmap string McConfigValue; unreadable : list string }.

Definition COULD_NOT_BE_READ : string := "The client config could not be read".

(** What is found under a key, when anything is. *)
Definition read_value (found : Toml) : option McConfigValue :=
  match isScalar found with
  | Some scalar => Some (c_scalar scalar)
  | None =>
      match isScalarList found with
      | Some entries => Some (c_list entries)
      | None => let? entries := isRecord found in readRange entries
      end
  end.

Section drift.
Variable parse : string -> result Toml.
Variables number_le locale_le : string -> string -> bool.
Variable other_text : Number -> string.

Definition parseMccConfig (text : string) : result Toml :=
  match parse text with
  | Ok document =>
      Ok (match isRecord document with Some entries => t_table entries | None => t_table [] end)
  | Throw error => Throw (McConfigUnparseableError (reason_of COULD_NOT_BE_READ error))
  end.

Fixpoint read_keys (document : Toml) (keys : list string) (reading : McConfigReading) : McConfigReading :=
  match keys with
  | [] => reading
  | key :: rest =>
      read_keys document rest
        (match descend document (split_on "." key) with
         | None => reading
         | Some found =>
             match read_value found with
             | Some value => MkConfigReading (<[key := value]> (values reading)) (unreadable reading)
             | None => MkConfigReading (values reading) (unreadable reading ++ [key])
             end
         end)
  end.

Definition readMccConfigKeys (text : string) (keys : list string) : result McConfigReading :=
  let+ document := parseMccConfig text in
  Ok (read_keys document keys (MkConfigReading ∅ [])).

Definition section_size (document : Toml) (section : string) : option nat :=
  let? found := descend document (split_on "." section) in
  let? entries := isRecord found in Some (length entries).

(** A [Map] from the sections that are there to their sizes. *)
Definition readMccConfigSections (text : string) (sections : list string) : result (gmap string nat) :=
  let+ document := parseMccConfig text in
  Ok (foldl (fun sizes section =>
               match section_size document section with
               | Some size => <[section := size]> sizes
               | None => sizes
               end) ∅ sections).

(** ** Comparing *)

Definition CONFIG_PATH_NAME : string := CONFIG_FILE_NAME.
Definition MANAGED_KEYS : list string := ALLOWED_CONFIG_KEYS.
Definition FIXED_KEYS : list string := FIXED_CONFIG_KEYS.
Definition OPERATOR_KEYS : list string := ADVANCED_KEY_NAMES number_le locale_le ++ BOT_CONFIG_NAMES number_le.
Definition isOperatorKey (key : string) : bool := bool_decide (key ∈ OPERATOR_KEYS).
Definition SECRET_KEYS : list string := ["Main.General.Account.Password"].
Definition isSecretKey (key : string) : bool := bool_decide (key ∈ SECRET_KEYS).
Definition EXPANDS_ON_THE_CLIENT : list string := ["ChatBot.PlayerListLogger.File"].

(** [[\p{L}\p{Nd}_]], among the code units below 256. *)
Definition variable_char (c : ascii) : bool :=
  let n := nat_of_ascii c in
  is_id_char c && negb (c ≡? "-"%char)
  || (n =? 170)%nat || (n =? 181)%nat || (n =? 186)%nat
  || ((192 <=? n)%nat && negb (n =? 215)%nat && negb (n =? 247)%nat).

(** [/%[\p{L}\p{Nd}_]+%/u.test(value)] *)
Fixpoint CLIENT_VARIABLE (value : string) : bool :=
  match value with
  | EmptyString => false
  | String c rest =>
      (c ≡? "%"%char)
      && (let (name, after) := span variable_char rest in
          (0 <? String.length name)%nat && startsWith "%" after)
      || CLIENT_VARIABLE rest
  end.

Definition unsafeExpansion (key : string) (have : option McConfigValue) : bool :=
  bool_decide (key ∈ EXPANDS_ON_THE_CLIENT)
  && match have with Some (c_scalar (c_text text)) => CLIENT_VARIABLE text | _ => false end.

Definition ALL_KEYS : list string :=
  ALLOWED_CONFIG_KEYS ++ FIXED_CONFIG_KEYS ++ ADVANCED_KEY_NAMES number_le locale_le ++ BOT_CONFIG_NAMES number_le.

(** The whole number a float is, when it is one. *)
Definition whole_of (n : Number) : option Z :=
  match n with
  | S754_zero _ => Some 0
  | S754_finite negative m e =>
      let size := if 0 <=? e then Some (Z.pos m * 2 ^ e)
                  else if Z.pos m mod 2 ^ (- e) =? 0 then Some (Z.pos m / 2 ^ (- e)) else None in
      let? z := size in Some (if negative then - z else z)
  | _ => None
  end.

(** [String(n)] *)
Definition number_text (n : Number) : string :=
  match n with
  | S754_nan => "NaN"
  | S754_infinity negative => if negative then "-Infinity" else "Infinity"
  | _ =>
      match whole_of n with
      | Some z => if Z.abs z <=? 2 ^ 53 then decimal z else other_text n
      | None => other_text n
      end
  end.

Definition scalar_text (value : McConfigScalar) : string :=
  match value with
  | c_text text => text
  | c_number n => number_text n
  | c_flag b => if b then "true" else "false"
  end.

Definition formatConfigValue (value : McConfigValue) : string :=
  match value with
  | c_list entries => "[" +:+ join_with ", " (map scalar_text entries) +:+ "]"
  | c_range min max => number_text min +:+ "-" +:+ number_text max
  | c_scalar scalar => scalar_text scalar
  end.

(** [===] on scalars. *)
Definition same_scalar (a b : McConfigScalar) : bool :=
  match a, b with
  | c_text a, c_text b => a ≡? b
  | c_number a, c_number b => same_number a b
  | c_flag a, c_flag b => Bool.eqb a b
  | _, _ => false
  end.

Fixpoint same_entries (want have : list McConfigScalar) : bool :=
  match want, have with
  | [], [] => true
  | a :: want, b :: have => same_scalar a b && same_entries want have
  | _, _ => false
  end.

Definition sameConfigValue (want : McConfigValue) (have : option McConfigValue) : bool :=
  match want, have with
  | c_list want, Some (c_list have) => same_entries want have
  | c_scalar want, Some (c_scalar have) => same_scalar want have
  | c_range min max, Some (c_range min' max') => same_number min min' && same_number max max'
  | _, _ => false
  end.

Inductive KeyKind := managed | fixed | operator.

Inductive ConfigDrift :=
  | d_key (kind : KeyKind) (key : string) (expected : McConfigValue) (actual : option McConfigValue)
  | d_section (section : string) (entries : nat)
  | d_unreadable (key : string).

Definition kind_of (key : string) (have : option McConfigValue) : KeyKind :=
  if unsafeExpansion key have then fixed
  else if isOperatorKey key then operator
  else if bool_decide (key ∈ FIXED_KEYS) then fixed else managed.

(** One key of the first loop. *)
Definition key_drift (expected actual : McConfigReading) (key : string) : option ConfigDrift :=
  let? want := values expected !! key in
  let have := values actual !! key in
  if sameConfigValue want have then None else Some (d_key (kind_of key have) key want have).

(** [entry.kind !== "section" && entry.key === key] *)
Definition about_key (key : string) (entry : ConfigDrift) : bool :=
  match entry with
  | d_key _ k _ _ | d_unreadable k => k ≡? key
  | d_section _ _ => false
  end.

Fixpoint push_unreadable (keys : list string) (drift : list ConfigDrift) : list ConfigDrift :=
  match keys with
  | [] => drift
  | key :: rest =>
      push_unreadable rest
        (if bool_decide (key ∉ ALL_KEYS) || existsb (about_key key) drift then drift
         else drift ++ [d_unreadable key])
  end.

Definition section_drift (sections : gmap string nat) (section : string) : option ConfigDrift :=
  let? entries := sections !! section in
  if (0 <? entries)%nat then Some (d_section section entries) else None.

Definition compareInstanceConfig (expectedDocument actualDocument : string) : result (list ConfigDrift) :=
  let+ expected := readMccConfigKeys expectedDocument ALL_KEYS in
  let+ actual := readMccConfigKeys actualDocument ALL_KEYS in
  let drift := push_unreadable (unreadable actual) (omap (key_drift expected actual) ALL_KEYS) in
  let+ sections := readMccConfigSections actualDocument EMPTIED_CONFIG_SECTIONS in
  Ok (drift ++ omap (section_drift sections) EMPTIED_CONFIG_SECTIONS).

(** ** Telling of a difference *)

(** [JSON.stringify] of a text, whose code units are below 256. *)
Definition json_char (c : ascii) : string :=
  let n := nat_of_ascii c in
  if c ≡? BACKSLASH then String BACKSLASH (String BACKSLASH "")
  else if c ≡? DQUOTE then String BACKSLASH (String DQUOTE "")
  else if (n =? 8)%nat then String BACKSLASH "b"
  else if (n =? 9)%nat then String BACKSLASH "t"
  else if (n =? 10)%nat then String BACKSLASH "n"
  else if (n =? 12)%nat then String BACKSLASH "f"
  else if (n =? 13)%nat then String BACKSLASH "r"
  else if (n <? 32)%nat
       then String BACKSLASH ("u00" +:+ String (lower_char (hex_digit (n / 16)))
                                          (String (lower_char (hex_digit (n mod 16))) ""))
  else String c "".

Fixpoint json_body (value : string) : string :=
  match value with EmptyString => EmptyString | String c rest => json_char c +:+ json_body rest end.

(** [JSON.stringify(scalar)] *)
Definition json_scalar (value : McConfigScalar) : string :=
  match value with
  | c_text text => QUOTE +:+ json_body text +:+ QUOTE
  | c_number (S754_nan | S754_infinity _) => "null"
  | c_number n => number_text n
  | c_flag b => if b then "true" else "false"
  end.

Definition describeValue (value : McConfigValue) : string :=
  match value with c_scalar scalar => json_scalar scalar | _ => formatConfigValue value end.

Definition describeConfigDrift (drift : ConfigDrift) : string :=
  match drift with
  | d_section section entries =>
      section +:+ " should be empty but holds " +:+ decimal (Z.of_nat entries) +:+ " "
        +:+ (if (entries =? 1)%nat then "entry" else "entries")
  | d_unreadable key => key +:+ " holds a value this manager cannot read"
  | d_key operator key _ _ => key +:+ " does not match the saved value"
  | d_key _ key expected actual =>
      key +:+ " is " +:+ match actual with None => "nothing" | Some value => describeValue value end
        +:+ ", expected " +:+ describeValue expected
  end.

Definition isSafetyDrift (drift : ConfigDrift) : bool :=
  match drift with d_key fixed _ _ _ | d_section _ _ => true | _ => false end.
End drift.

(** A hexadecimal digit. *)
Definition hex_value (c : ascii) : option nat :=
  let n := nat_of_ascii c in
  if (48 <=? n)%nat && (n <=? 57)%nat then Some (n - 48)%nat
  else if (65 <=? n)%nat && (n <=? 70)%nat then Some (n - 55)%nat
  else if (97 <=? n)%nat && (n <=? 102)%nat then Some (n - 87)%nat
  else None.

(** The first character of the body of a JSON string, and the rest: [None] at
    its end, and for what a JSON string cannot hold. *)
Definition read_json_char (text : string) : option (ascii * string) :=
  match text with
  | String c rest =>
      if (c ≡? DQUOTE) || (nat_of_ascii c <? 32)%nat then None
      else if negb (c ≡? BACKSLASH) then Some (c, rest)
      else
        match rest with
        | String "b" rest => Some ("008"%char, rest)
        | String "t" rest => Some ("009"%char, rest)
        | String "n" rest => Some ("010"%char, rest)
        | String "f" rest => Some ("012"%char, rest)
        | String "r" rest => Some ("013"%char, rest)
        | String "u" (String "0" (String "0" (String high (String low rest)))) =>
            let? high := hex_value high in let? low := hex_value low in
            Some (ascii_of_nat (16 * high + low), rest)
        | String c rest => if (c ≡? DQUOTE) || (c ≡? BACKSLASH) || (c ≡? "/"%char) then Some (c, rest) else None
        | EmptyString => None
        end
  | EmptyString => None
  end.

(** What [JSON.stringify] writes of a character is read back. *)
Lemma json_char_reads c rest : read_json_char (json_char c +:+ rest) = Some (c, rest).
Proof. destruct c as [[] [] [] [] [] [] [] []]; reflexivity. Qed.

(** ** What is read of a document *)

Definition value_at (document : Toml) (key : string) : option McConfigValue :=
  descend document (split_on "." key) ≫= read_value.

Definition unreadable_at (document : Toml) (key : string) : bool :=
  match descend document (split_on "." key) with
  | None => false
  | Some found => match read_value found with Some _ => false | None => true end
  end.

Lemma read_keys_unreadable document keys reading :
  unreadable (read_keys document keys reading)
  = unreadable reading ++ List.filter (unreadable_at document) keys.
Proof.
  revert reading. induction keys as [|key keys IH]; intros reading; [symmetry; apply app_nil_r|].
  cbn [read_keys List.filter]. rewrite IH. unfold unreadable_at at 2.
  destruct (descend document _) as [found|]; [|done].
  destruct (read_value found); [done|]. cbn [unreadable]. by rewrite <- app_assoc.
Qed.

Lemma read_keys_values document keys reading key :
  values (read_keys document keys reading) !! key
  = if decide (key ∈ keys) then or_else (value_at document key) (values reading !! key)
    else values reading !! key.
Proof.
  revert reading. induction keys as [|k keys IH]; intros reading; [done|].
  cbn [read_keys]. rewrite IH. clear IH. unfold value_at.
  destruct (decide (k = key)) as [->|Hne].
  - rewrite (decide_True (P := key ∈ key :: keys)) by apply list_elem_of_here.
    destruct (descend document (split_on "." key)) as [found|]; simpl; [|by case_decide].
    destruct (read_value found) as [value|]; simpl; [|by case_decide].
    rewrite lookup_insert_eq. by case_decide.
  - replace (values (match descend document (split_on "." k) with
                     | Some found =>
                         match read_value found with
                         | Some value => MkConfigReading (<[k := value]> (values reading)) (unreadable reading)
                         | None => MkConfigReading (values reading) (unreadable reading ++ [k])
                         end
                     | None => reading
                     end) !! key) with (values reading !! key)
      by (repeat case_match; simpl; rewrite ?lookup_insert_ne by done; done).
    destruct (decide (key ∈ keys)) as [Hin|Hout].
    + by rewrite (decide_True (P := key ∈ k :: keys)) by by apply list_elem_of_further.
    + rewrite (decide_False (P := key ∈ k :: keys)); [done|]. by rewrite not_elem_of_cons.
Qed.

Lemma sections_spec document sections sizes section :
  foldl (fun sizes section =>
           match section_size document section with
           | Some size => <[section := size]> sizes
           | None => sizes
           end) sizes sections !! section
  = if decide (section ∈ sections) then or_else (section_size document section) (sizes !! section)
    else (sizes : gmap string nat) !! section.
Proof.
  revert sizes. induction sections as [|s sections IH]; intros sizes; [done|].
  cbn [foldl]. rewrite IH. clear IH. destruct (decide (s = section)) as [->|Hne].
  - rewrite (decide_True (P := section ∈ section :: sections)) by apply list_elem_of_here.
    destruct (section_size document section) as [size|]; simpl; [|by case_decide].
    rewrite lookup_insert_eq. by case_decide.
  - replace (match section_size document s with Some size => <[s:=size]> sizes | None => sizes end !! section)
      with (sizes !! section) by (case_match; rewrite ?lookup_insert_ne by done; done).
    destruct (decide (section ∈ sections)) as [Hin|Hout].
    + by rewrite (decide_True (P := section ∈ s :: sections)) by by apply list_elem_of_further.
    + rewrite (decide_False (P := section ∈ s :: sections)); [done|]. by rewrite not_elem_of_cons.
Qed.

(** The lists of keys are long: they are looked at by name. *)
#[local] Opaque ALL_KEYS EMPTIED_CONFIG_SECTIONS.

Lemma omap_ext_in {A B} (f g : A -> option B) (l : list A) : (forall x, x ∈ l -> f x = g x) -> omap f l = omap g l.
Proof.
  induction l as [|x l IH]; intros H; simpl; [done|]. rewrite (H x) by apply list_elem_of_here.
  assert (E : omap f l = omap g l) by (apply IH; intros y Hy; apply H; by apply list_elem_of_further).
  destruct (g x); [f_equal|]; exact E.
Qed.

Section comparing.
Variable parse : string -> result Toml.
Variables number_le locale_le : string -> string -> bool.

Abbreviation keys := (ALL_KEYS number_le locale_le).
Abbreviation compare := (compareInstanceConfig parse number_le locale_le).

(** What a document that was read says of the keys. *)
Definition reading_of (document : Toml) : McConfigReading :=
  read_keys document keys (MkConfigReading ∅ []).

Lemma reading_values document key :
  key ∈ keys -> values (reading_of document) !! key = value_at document key.
Proof.
  intros H. unfold reading_of. rewrite read_keys_values, decide_True by done. simpl.
  rewrite lookup_empty. by destruct (value_at document key).
Qed.

(** The differences, document by document. *)
Definition drift_between (d1 d2 : Toml) : list ConfigDrift :=
  push_unreadable number_le locale_le (List.filter (unreadable_at d2) keys)
    (omap (key_drift number_le locale_le (reading_of d1) (reading_of d2)) keys)
  ++ omap (fun section => let? size := section_size d2 section in
                          if (0 <? size)%nat then Some (d_section section size) else None)
       EMPTIED_CONFIG_SECTIONS.

Lemma compare_spec expected actual :
  compare expected actual
  = (let+ d1 := parseMccConfig parse expected in
     let+ d2 := parseMccConfig parse actual in Ok (drift_between d1 d2)).
Proof.
  unfold compareInstanceConfig, readMccConfigKeys, readMccConfigSections.
  destruct (parseMccConfig parse expected) as [d1|]; [|done].
  destruct (parseMccConfig parse actual) as [d2|]; [|done]. cbn [rbind].
  fold (reading_of d1). fold (reading_of d2). unfold drift_between. f_equal. f_equal.
  - f_equal. unfold reading_of. by rewrite read_keys_unreadable.
  - apply omap_ext_in. intros section Hs. unfold section_drift.
    rewrite sections_spec, decide_True by done. rewrite lookup_empty. by destruct (section_size d2 section).
Qed.

Lemma push_unreadable_app ks drift :
  exists more, push_unreadable number_le locale_le ks drift = drift ++ more
    /\ Forall (fun entry => exists key, entry = d_unreadable key) more.
Proof.
  revert drift. induction ks as [|k ks IH]; intros drift; simpl.
  - exists []. by rewrite app_nil_r.
  - case_match.
    + apply IH.
    + destruct (IH (drift ++ [d_unreadable k])) as (more & -> & Hm).
      exists (d_unreadable k :: more). rewrite <- app_assoc. split; [done|]. constructor; eauto.
Qed.

Lemma push_unreadable_nil ks :
  Forall (fun key => key ∈ keys) ks ->
  push_unreadable number_le locale_le ks [] = [] -> ks = [].
Proof.
  destruct ks as [|k ks]; [done|]. intros Hk H. simpl in H. inversion_clear Hk.
  rewrite bool_decide_eq_false_2 in H by tauto. simpl in H.
  destruct (push_unreadable_app ks [d_unreadable k]) as (more & E & _). by rewrite E in H.
Qed.

Lemma omap_nil {A B} (f : A -> option B) (l : list A) : omap f l = [] <-> forall x, x ∈ l -> f x = None.
Proof.
  induction l as [|x l IH]; simpl; [split; [by intros _ x Hx%elem_of_nil|done]|].
  destruct (f x) as [y|] eqn:E.
  - split; [done|]. intros H. specialize (H x (list_elem_of_here _ _)). congruence.
  - rewrite IH. split.
    + intros H y [->|Hy]%elem_of_cons; [done|by apply H].
    + intros H y Hy. apply H. by apply list_elem_of_further.
Qed.

Lemma unreadable_none document :
  List.filter (unreadable_at document) keys = [] <-> forall key, key ∈ keys -> unreadable_at document key = false.
Proof.
  split.
  - intros H key Hk. destruct (unreadable_at document key) eqn:E; [|done].
    assert (Hin : In key []) by (rewrite <- H; apply filter_In; by rewrite <- list_elem_of_In). done.
  - intros H. apply filter_none. intros key Hk. apply H. by apply list_elem_of_In.
Qed.

Lemma key_drift_none d1 d2 :
  omap (key_drift number_le locale_le (reading_of d1) (reading_of d2)) keys = []
  <-> forall key want, key ∈ keys -> value_at d1 key = Some want ->
        sameConfigValue want (value_at d2 key) = true.
Proof.
  rewrite omap_nil. split.
  - intros H key want Hk Hw. specialize (H key Hk). unfold key_drift in H.
    rewrite !reading_values, Hw in H by done. by case_match.
  - intros H key Hk. unfold key_drift. rewrite !reading_values by done.
    destruct (value_at d1 key) as [want|] eqn:E; [|done]. by rewrite (H key want Hk E).
Qed.

Lemma section_drift_none document (sections : list string) :
  omap (fun section => let? size := section_size document section in
                       if (0 <? size)%nat then Some (d_section section size) else None) sections = []
  <-> forall section, section ∈ sections ->
        section_size document section = None \/ section_size document section = Some 0%nat.
Proof.
  rewrite omap_nil. split; intros H section Hs; specialize (H section Hs).
  - destruct (section_size document section) as [[|size]|]; [by right|done|by left].
  - by destruct H as [-> | ->].
Qed.

(** the comparison of the two documents reports nothing exactly when both
    can be read, every value the saved document gives one of the keys the
    manager looks at is what the client has, none of these keys holds something
    the manager cannot read, and the sections that must be empty are. *)
Theorem no_drift_iff expected actual :
  compare expected actual = Ok []
  <-> exists d1 d2,
        parseMccConfig parse expected = Ok d1 /\ parseMccConfig parse actual = Ok d2
        /\ (forall key, key ∈ keys ->
              unreadable_at d2 key = false
              /\ forall want, value_at d1 key = Some want -> sameConfigValue want (value_at d2 key) = true)
        /\ (forall section, section ∈ EMPTIED_CONFIG_SECTIONS ->
              section_size d2 section = None \/ section_size d2 section = Some 0%nat).
Proof.
  rewrite compare_spec. destruct (parseMccConfig parse expected) as [d1|]; [|split; [done|by intros (?&?&?&?)]].
  destruct (parseMccConfig parse actual) as [d2|]; [|split; [done|by intros (?&?&?&?&?)]]. simpl.
  unfold drift_between. split.
  - intros [= [H1 H2]%app_nil]. exists d1, d2. do 2 (split; [done|]).
    destruct (push_unreadable_app (List.filter (unreadable_at d2) keys)
                (omap (key_drift number_le locale_le (reading_of d1) (reading_of d2)) keys)) as (more & E & _).
    rewrite E in H1. apply app_nil in H1 as [H1 ->]. rewrite H1 in E.
    apply push_unreadable_nil in E;
      [|apply List.Forall_forall; intros key Hk%filter_In; apply list_elem_of_In, Hk].
    pose proof (proj1 (key_drift_none d1 d2) H1) as Hk. pose proof (proj1 (unreadable_none d2) E) as Hu.
    split; [|exact (proj1 (section_drift_none d2 _) H2)].
    intros key Hin. split; [by apply Hu|]. intros want. by apply Hk.
  - intros (d1' & d2' & [= <-] & [= <-] & Hk & Hs). f_equal.
    rewrite (proj2 (unreadable_none d2)) by apply Hk.
    rewrite (proj2 (key_drift_none d1 d2)) by (intros key want Hin; by apply Hk).
    by rewrite (proj2 (section_drift_none d2 _) Hs).
Qed.
End comparing.
