(* ===== verification/Reconcile.v ===== *)
(** Comparing a machine with what should be on it.

    [packages/core/src/instance/reconcile.ts]: the units, the images and
    containers, the state of every bot, its files and its live channel;
    [probeListening] of [live-control.ts] and the request [reconcileHost] of
    [instance.controller.ts].  The call over http through a forwarded
    connection is the argument [post]; whether a line holds the mark that
    clients put before chat, a code unit above 255, is the argument
    [chat_line]. *)

From stdpp Require Import gmap.
From S2P Require Import Prelude Tables Calendar Journal Observer Shell Control ClientSettings ClientConfig Access HostStore InstanceStore InstanceController InstanceRequests MachineFacts Teardown ConfigDrift.

(** ** What is observed of a bot *)

Definition RECONCILE_DEADLINE_MS : Z := 60000.

Inductive ObservedState := o_active | o_stuck | o_inactive | o_failed | o_activating | o_unknown.

#[global] Instance ObservedState_eq_dec : EqDecision ObservedState.
Proof. solve_decision. Defined.

(** The states systemd names. *)
Definition OBSERVED_STATES : list (string * ObservedState) :=
  [("active", o_active); ("inactive", o_inactive); ("failed", o_failed); ("activating", o_activating)].

Definition STUCK_MARKERS : list string :=
  ["Failed to parse the settings file"; "Not connected to any server";
   "press Enter to exit Minecraft Console Client"].

Definition SERVER_INFO_MARKER : string := "Server version:".
Definition JOINED_MARKER : string := "Server was successfully joined".
Definition STUCK_SCAN_LINES : Z := 20.

Definition name_char (c : ascii) : bool := is_letter c || is_digit c || (c ≡? "_"%char).

(** [/Cached session is still valid for ([A-Za-z0-9_]{3,16})\./]: the first
    place where it matches. *)
Definition PLAYER_NAME_PATTERN (text : string) : option string :=
  let? rest := after "Cached session is still valid for " text in
  let (name, rest) := span name_char rest in
  if (3 <=? String.length name)%nat && (String.length name <=? 16)%nat && startsWith "." rest
  then Some name else None.

Fixpoint playerNameFrom (journal : string) : option string :=
  match PLAYER_NAME_PATTERN journal with
  | Some name => Some name
  | None => match journal with EmptyString => None | String _ rest => playerNameFrom rest end
  end.

Section stuck.
Variable chat_line : string -> bool.

Definition clientEmittedLines (journal : string) : string :=
  join_with newline (List.filter (fun line => negb (chat_line line)) (split_on NEWLINE journal)).

Definition looksStuck (journal : string) : bool :=
  let own := clientEmittedLines journal in
  if existsb (fun marker => includes marker own) STUCK_MARKERS then true
  else includes SERVER_INFO_MARKER own && negb (includes JOINED_MARKER own).
End stuck.

Definition parseObservedState (output : string) : ObservedState :=
  match find (fun state => state.1 ≡? trim output) OBSERVED_STATES with
  | Some (_, state) => state
  | None => o_unknown
  end.

Definition desiredStateIsSatisfied (desired : InstanceStatus) (observed : ObservedState) : bool :=
  if desired ≡? st_running then (observed ≡? o_active) || (observed ≡? o_activating)
  else if observed ≡? o_stuck then false
  else if desired ≡? st_stopped then observed ≡? o_inactive
  else true.

(** ** What should be on the machine *)

Record UnitRuntime := MkUnitRuntime { ur_networkStack : NetworkStack; ur_imageId : string }.

Definition unitRuntimeFor (stack : NetworkStack) (a : HostArchitecture) : UnitRuntime :=
  MkUnitRuntime stack (podmanImageId (runtimeImageFor a)).

(** [map.set(key, value)]: a key stays where it was first set. *)
Fixpoint map_set {A} (key : string) (value : A) (m : list (string * A)) : list (string * A) :=
  match m with
  | [] => [(key, value)]
  | (k, v) :: rest => if k ≡? key then (k, value) :: rest else (k, v) :: map_set key value rest
  end.

Definition set_all {A} (entries m : list (string * A)) : list (string * A) :=
  foldl (fun m entry => map_set entry.1 entry.2 m) m entries.

Definition map_has {A} (key : string) (m : list (string * A)) : bool := bool_decide (key ∈ map fst m).

Definition known_bot (instances : list InstanceRow) (id : string) : bool :=
  bool_decide (id ∈ map in_id instances).

Definition renderScheduleUnits (schedule : InstanceScheduleRow) : result (list (string * string)) :=
  renderSleepTimers (MkSleepWindow (is_instanceId schedule) (parseDaysOfWeek (is_daysOfWeek schedule))
                       (timeOfDay (is_stopMinuteOfDay schedule)) (timeOfDay (is_startMinuteOfDay schedule))
                       (is_timezone schedule)).

Fixpoint expect_schedules (instances : list InstanceRow) (schedules : list InstanceScheduleRow)
    (renderWindow : InstanceScheduleRow -> result (list (string * string)))
    (expected : list (string * string)) : result (list (string * string)) :=
  match schedules with
  | [] => Ok expected
  | schedule :: rest =>
      if known_bot instances (is_instanceId schedule)
      then let+ entries := renderWindow schedule in
           expect_schedules instances rest renderWindow (set_all entries expected)
      else expect_schedules instances rest renderWindow expected
  end.

Definition expectedUnits (instances : list InstanceRow) (schedules : list InstanceScheduleRow)
    (renderWindow : InstanceScheduleRow -> result (list (string * string))) (runtime : UnitRuntime)
    : result (list (string * string)) :=
  let+ templates := renderUnitTemplates (ur_networkStack runtime) (ur_imageId runtime) in
  expect_schedules instances schedules renderWindow (set_all templates []).

(** ** The facts of a machine, in one answer *)

Definition UNITS_SECTION : string := "open-mcc/units".
Definition PODMAN_SECTION : string := "open-mcc/podman".
Definition CONTAINERS_SECTION : string := "open-mcc/containers".
Definition IMAGE_SECTION : string := "open-mcc/image".
Definition END_SECTION : string := "open-mcc/end".

Definition section_line (marker : string) : string := "printf '%s\n' " +:+ marker.

Definition reconcileFactsCommand (imageId : string) : string :=
  join_with " && "
    [section_line UNITS_SECTION; "ls -1 " +:+ UNIT_DIR; section_line PODMAN_SECTION; "podman --version";
     section_line CONTAINERS_SECTION; podman "ps -a --format '{{.Names}}'"; section_line IMAGE_SECTION;
     "{ " +:+ podman ("image exists " +:+ shellQuote imageId) +:+ "; printf '%s\n' " +:+ dq "$?" +:+ "; }";
     section_line END_SECTION].

(** [/^[A-Za-z0-9][A-Za-z0-9_.-]*$/] *)
Definition CONTAINER_NAME (name : string) : bool :=
  match name with
  | EmptyString => false
  | String c rest =>
      (is_letter c || is_digit c) && chars_all (fun c => is_id_char c || (c ≡? "."%char)) rest
  end.

(** [lines.indexOf(line)] and [lines.lastIndexOf(line)] *)
Fixpoint indexOf (line : string) (lines : list string) : option nat :=
  match lines with
  | [] => None
  | l :: rest => if l ≡? line then Some O else option_map S (indexOf line rest)
  end.

Fixpoint lastIndexOf (line : string) (lines : list string) : option nat :=
  match lines with
  | [] => None
  | l :: rest =>
      match lastIndexOf line rest with
      | Some n => Some (S n)
      | None => if l ≡? line then Some O else None
      end
  end.

Definition linesBetween (lines : list string) (from to : string) : option (list string) :=
  let? start := indexOf from lines in
  let? stop := indexOf to lines in
  if (stop <=? start)%nat then None
  else if negb (lastIndexOf from lines ≡? Some start) || negb (lastIndexOf to lines ≡? Some stop) then None
  else Some (firstn (stop - S start) (skipn (S start) lines)).

Record ReconcileFacts := MkReconcileFacts {
  fact_units : list string; fact_podman : PodmanVersion; fact_containers : list string;
  fact_imageExists : bool }.

(** [output.slice(0, -1).split(newline)] when [output.endsWith(newline)] *)
Definition lines_of (output : string) : option (list string) :=
  let text := without_newline output in
  if text ≡? output then None else Some (split_on NEWLINE text).

Definition only {A} (l : list A) : option A := match l with [x] => Some x | _ => None end.

Definition parseReconcileFacts (output : string) : option ReconcileFacts :=
  let? lines := lines_of output in
  if negb (head lines ≡? Some UNITS_SECTION) || negb (last lines ≡? Some END_SECTION) then None
  else
    let? units := linesBetween lines UNITS_SECTION PODMAN_SECTION in
    let? versions := linesBetween lines PODMAN_SECTION CONTAINERS_SECTION in
    let? containers := linesBetween lines CONTAINERS_SECTION IMAGE_SECTION in
    let? statuses := linesBetween lines IMAGE_SECTION END_SECTION in
    let? version := (let? line := only versions in parsePodmanVersion line) in
    let? status := only statuses in
    if negb ((status ≡? "0") || (status ≡? "1")) then None
    else if negb (forallb CONTAINER_NAME containers) then None
    else Some (MkReconcileFacts (List.filter isManagedUnit (map trim units)) version containers (status ≡? "0")).

(** The name of the bot in [MANAGED_CONTAINER_PATTERN]: the longest prefix is
    tried first. *)
Definition managed_container_id (name : string) : option string :=
  let id_of (kind : string) :=
    let? rest := after ("open-mcc-" +:+ kind) name in
    let? rest' := id_run 1 rest in if rest' ≡? EmptyString then Some rest else None in
  match id_of "auth-" with Some id => Some id | None => id_of EmptyString end.

Definition leftoverContainers (names : list string) (instances : list InstanceRow) : list string :=
  List.filter
    (fun name =>
       match managed_container_id name with
       | None => false
       | Some id => negb (known_bot instances id) && negb (known_bot instances (slice_from 9 name))
       end) names.

Inductive UnitDriftKind := u_missing | u_differs | u_unexpected.
Definition UnitDrift : Type := UnitDriftKind * string.

Record StateDrift := MkStateDrift { sd_instanceId : string; sd_desired : InstanceStatus; sd_observed : ObservedState }.

Inductive PublicKind := p_managed | p_fixed | p_operator | p_section | p_unreadable | p_unreachable.

Record ConfigDriftPublic := MkDriftPublic {
  dp_instanceId : string; dp_kind : PublicKind; dp_key : string; dp_expected : option string;
  dp_actual : option string }.

(** [runtimeDrift] has at most the one entry there is. *)
Record Reconciliation := MkReconciliation {
  runtimeDrift : bool; unitDrift : list UnitDrift; stateDrift : list StateDrift;
  configDrift : list ConfigDriftPublic }.

Record HostObservation := MkObservation {
  reconciliation : Reconciliation; seenPlayers : list (string * string);
  failures : list (string * option Z) }.

Definition WITHHELD_VALUE : string := "something else".
Definition MISSING_MARKER : string := "__open_mcc_missing__".

(** ** What is told of a configuration *)

Section telling.
Variables number_le locale_le : string -> string -> bool.
Variable other_text : Number -> string.

Abbreviation shown := (formatConfigValue other_text).

Definition public_kind (kind : KeyKind) : PublicKind :=
  match kind with managed => p_managed | fixed => p_fixed | operator => p_operator end.

Definition toPublicDrift (instanceId : string) (entry : ConfigDrift) : ConfigDriftPublic :=
  match entry with
  | d_section section entries =>
      MkDriftPublic instanceId p_section section (Some "empty") (Some (decimal (Z.of_nat entries)))
  | d_unreadable key => MkDriftPublic instanceId p_unreadable key None None
  | d_key operator key expected _ => MkDriftPublic instanceId p_operator key (Some (shown expected)) None
  | d_key kind key expected actual =>
      if isSecretKey key || isOperatorKey number_le locale_le key
      then MkDriftPublic instanceId (public_kind kind) key (Some (shown expected))
             (option_map (fun _ => WITHHELD_VALUE) actual)
      else MkDriftPublic instanceId (public_kind kind) key (Some (shown expected)) (option_map shown actual)
  end.
End telling.

(** ** The machine, read *)

Record HttpReply := MkReply { http_status : Z; http_body : string; http_sessionId : option string }.

(** [TransportInterruptedError] and the classes that extend it. *)
Definition INTERRUPTIONS : list string :=
  ["TransportInterruptedError"; "CommandTimedOutError"; "ChannelOpenTimedOutError";
   "ChannelQueueExpiredError"; "ReadDeadlineExceededError"; "ReadConnectionLostError"].

Definition interrupted (error : thrown) : bool := existsb (fun class => instanceof class error) INTERRUPTIONS.

Section reading.
Context {W : Type}.
Variable parse : string -> result Toml.
Variables number_le locale_le : string -> string -> bool.
Variable other_text : Number -> string.
Variable chat_line : string -> bool.
Variable reader : JournalLease W.
Variable post : Z -> string -> string -> list (string * string) -> M W HttpReply.

Definition probeListening (port : Z) (route : string) : M W bool :=
  try_catch (let* reply := post port route EmptyString [] in ret (http_status reply =? 401))
    (fun error => if interrupted error then throw error else ret false).

Definition readFile (path : string) : M W (option string) :=
  let* result := exec reader ("cat " +:+ path +:+ " 2>/dev/null || printf '%s' " +:+ shellQuote MISSING_MARKER) in
  ret (if stdout result ≡? MISSING_MARKER then None else Some (stdout result)).

Definition readHostFacts (imageId : string) : M W ReconcileFacts :=
  let* result := exec reader (reconcileFactsCommand imageId) in
  if negb (exitCode result =? 0)
  then throw (HostRefusedError ("Could not read the host's units and containers: " +:+ trim (stderr result)))
  else
    match parseReconcileFacts (stdout result) with
    | None => throw (HostAnswerUnreadableError "The host's units and containers could not be read in full")
    | Some facts => ret facts
    end.

Definition readUnitExitCode (instanceId : string) : M W (option Z) :=
  let* command := lift (unitExitCommand instanceId) in
  let* result := exec reader command in
  ret (if negb (exitCode result =? 0) then None
       else
         let? exit := parseUnitExitState (stdout result) in
         if negb (exit_result exit ≡? MAIN_PROCESS_EXITED) then None
         else match interpretExitCode (execMainStatus exit) with
              | Shell.clean => None
              | _ => Some (execMainStatus exit)
              end).

Definition readInstanceConfig (instanceId : string) : M W (option string) :=
  let* dir := lift (instanceDir instanceId) in
  let* result := exec reader ("cat " +:+ dir +:+ "/" +:+ CONFIG_FILE_PATH +:+ " 2>/dev/null || true") in
  ret (if trim (stdout result) ≡? EmptyString then None else Some (stdout result)).

(** A loop that pushes to a list. *)
Fixpoint gather {A B} (xs : list A) (body : A -> M W (list B)) : M W (list B) :=
  match xs with
  | [] => ret []
  | x :: rest => let* more := body x in let* others := gather rest body in ret (more ++ others)
  end.

Definition config_drift_of (expectedConfigs : gmap string string) (instance : InstanceRow)
    : M W (list ConfigDriftPublic) :=
  let id := in_id instance in
  match expectedConfigs !! id with
  | None => ret []
  | Some want =>
      let* actual := readInstanceConfig id in
      ret (match actual with
           | None => [MkDriftPublic id p_managed CONFIG_PATH_NAME (Some "a config file") None]
           | Some actual =>
               match compareInstanceConfig parse number_le locale_le want actual with
               | Throw _ => [MkDriftPublic id p_unreadable CONFIG_PATH_NAME None None]
               | Ok found => map (toPublicDrift number_le locale_le other_text id) found
               end
           end)
  end.

Definition configDriftFor (instances : list InstanceRow) (expectedConfigs : gmap string string)
    : M W (list ConfigDriftPublic) := gather instances (config_drift_of expectedConfigs).

Definition unit_env_drift_of (instance : InstanceRow) : M W (list ConfigDriftPublic) :=
  let* dir := lift (instanceDir (in_id instance)) in
  let* actual := readFile (dir +:+ "/" +:+ layout_unitEnv) in
  let* want := lift (renderUnitEnv (in_liveControlPort instance)) in
  ret (if actual ≡? Some want then []
       else [MkDriftPublic (in_id instance) p_managed layout_unitEnv
               (Some (decimal (in_liveControlPort instance)))
               (option_map (fun _ => WITHHELD_VALUE) actual)]).

Definition unitEnvDriftFor (instances : list InstanceRow) : M W (list ConfigDriftPublic) :=
  gather instances unit_env_drift_of.

(** A port is a whole number; [post] to another number is not modelled: it
    counts as silent. *)
Definition listening (port : Number) : M W bool :=
  match whole_of port with Some port => probeListening port LIVE_CONTROL_ROUTE | None => ret false end.

Definition live_keys : list string := ["ChatBot.McpServer.Enabled"; "ChatBot.McpServer.Transport.Port"].

Definition silent_of (expectedConfigs : gmap string string) (joined : list string) (instance : InstanceRow)
    : M W (list ConfigDriftPublic) :=
  let id := in_id instance in
  if bool_decide (id ∉ joined) then ret []
  else
    match expectedConfigs !! id with
    | None => ret []
    | Some document =>
        let* reading := lift (readMccConfigKeys parse document live_keys) in
        match values reading !! "ChatBot.McpServer.Enabled",
              values reading !! "ChatBot.McpServer.Transport.Port" with
        | Some (c_scalar (c_flag true)), Some (c_scalar (c_number port)) =>
            let* answers := listening port in
            ret (if answers then []
                 else [MkDriftPublic id p_unreachable "ChatBot.McpServer" (Some (number_text other_text port)) None])
        | _, _ => ret []
        end
    end.

Definition silentLiveControl (instances : list InstanceRow) (expectedConfigs : gmap string string)
    (joined : list string) : M W (list ConfigDriftPublic) :=
  gather instances (silent_of expectedConfigs joined).

(** One unit of those expected. *)
Definition unit_drift_of (unit : string * string) : M W (list UnitDrift) :=
  let* actual := readFile (UNIT_DIR +:+ "/" +:+ shellQuote unit.1) in
  ret (match actual with
       | None => [(u_missing, unit.1)]
       | Some contents => if contents ≡? unit.2 then [] else [(u_differs, unit.1)]
       end).

(** What is found out of one bot. *)
Record InstanceFinding := MkFinding {
  if_id : string; if_state : option StateDrift; if_joined : bool; if_player : option string;
  if_failure : option (option Z) }.

Definition observe_instance (instance : InstanceRow) : M W InstanceFinding :=
  let id := in_id instance in
  let* unit := lift (unitName id) in
  let service := shellQuote (unit +:+ ".service") in
  let* result := exec reader (systemctl ("is-active " +:+ service) +:+ " || true") in
  let observed := parseObservedState (stdout result) in
  let* seen :=
    (if (observed ≡? o_active) && (in_status instance ≡? st_running) then
       let* journal :=
         exec reader (journalctl ("-u " +:+ service +:+ " --lines " +:+ decimal STUCK_SCAN_LINES
                                    +:+ " --no-pager --output cat") +:+ " 2>/dev/null || true") in
       ret (if looksStuck chat_line (stdout journal) then o_stuck else observed,
            includes JOINED_MARKER (stdout journal), playerNameFrom (stdout journal))
     else ret (observed, false, None)) in
  let '(observed, hasJoined, player) := seen in
  if desiredStateIsSatisfied (in_status instance) observed
  then ret (MkFinding id None hasJoined player None)
  else
    let* failure :=
      (if (in_status instance ≡? st_running) && (observed ≡? o_failed)
       then let* code := readUnitExitCode id in ret (Some code) else ret None) in
    ret (MkFinding id (Some (MkStateDrift id (in_status instance) observed)) hasJoined player failure).

Definition reconcileHostOverTransport (unit_runtime : UnitRuntime) (instances : list InstanceRow)
    (expected : list (string * string)) (expectedConfigs : gmap string string) : M W HostObservation :=
  let* facts := readHostFacts (ur_imageId unit_runtime) in
  let* ofUnits := gather expected unit_drift_of in
  let unexpected :=
    map (pair u_unexpected) (List.filter (fun name => negb (map_has name expected)) (fact_units facts)
                               ++ leftoverContainers (fact_containers facts) instances) in
  let image := if fact_imageExists facts then [] else [(u_missing, RUNTIME_IMAGE_REPOSITORY)] in
  let* findings := gather instances (fun instance => let* found := observe_instance instance in ret [found]) in
  let joined := map if_id (List.filter if_joined findings) in
  let* ofConfig := configDriftFor instances expectedConfigs in
  let* ofEnv := unitEnvDriftFor instances in
  let* silent := silentLiveControl instances expectedConfigs joined in
  ret (MkObservation
         (MkReconciliation (negb (requiredStackFor (major (fact_podman facts)) ≡? ur_networkStack unit_runtime))
            (ofUnits ++ unexpected ++ image) (omap if_state findings) (ofConfig ++ ofEnv ++ silent))
         (set_all (omap (fun f => let? player := if_player f in Some (if_id f, player)) findings) [])
         (set_all (omap (fun f => let? code := if_failure f in Some (if_id f, code)) findings) [])).
End reading.

(** ** The request *)

Inductive HostReconciliation :=
  | not_compared (hostId : string) (reason : HostUnreachableReason)
  | compared (hostId : string) (found : Reconciliation).

Section request.
Context {X : Type} (deps : InstanceControllerDeps X).
Abbreviation W := (World X).
Variable leaseHost : string -> string -> Z -> HostNeed -> M W (JournalLease W).
Variable parse : string -> result Toml.
Variable locale_le : string -> string -> bool.
Variable other_text : Number -> string.
Variable chat_line : string -> bool.
Variable post : JournalLease W -> Z -> string -> string -> list (string * string) -> M W HttpReply.

(** The documents the clients should have, and the bots whose saved settings
    cannot be used. *)
Fixpoint expected_documents (scope : string) (instances : list InstanceRow)
    (found : gmap string string * list string) : M W (gmap string string * list string) :=
  match instances with
  | [] => ret found
  | instance :: rest =>
      let* found :=
        try_catch
          (let* stored := storedConfigFor deps scope instance in
           match stored with
           | None => ret found
           | Some config =>
               let* document := lift (renderInstanceConfig (other_number deps) config) in
               ret (<[in_id instance := document]> found.1, found.2)
           end)
          (fun error =>
             if instanceof "InstanceConfigUnusableError" error
             then ret (found.1, found.2 ++ [in_id instance]) else throw error) in
      expected_documents scope rest found
  end.

Definition record_player (scope : string) (instances : list InstanceRow) (seen : string * string) : M W unit :=
  match find (fun each => in_id each ≡? seen.1) instances with
  | Some known =>
      if in_minecraftUsername known ≡? Some seen.2 then ret tt
      else swallow (on_instances (InstanceRepository.update scope seen.1
                                    (MkInstancePatch None None None (Some (Some seen.2)) None)) ;;; ret tt)
  | None => ret tt
  end.

Definition record_failure (scope : string) (failure : string * option Z) : M W unit :=
  swallow (on_instances (InstanceRepository.recordUnitFailure scope failure.1 failure.2) ;;; ret tt).

Definition unusable_drift (instanceId : string) : ConfigDriftPublic :=
  MkDriftPublic instanceId p_unreadable CONFIG_PATH_NAME None None.

Definition with_unusable (unusable : list string) (found : Reconciliation) : Reconciliation :=
  MkReconciliation (runtimeDrift found) (unitDrift found) (stateDrift found)
    (configDrift found ++ map unusable_drift unusable).

(** What is known of the machine, when it can be compared at all. *)
Definition comparable (host : option HostRow) : HostUnreachableReason + UnitRuntime :=
  match host with
  | None => inl misconfigured
  | Some h =>
      match checkHostRuntime h, networkStack (host_facts h), architecture (host_facts h) with
      | None, Some stack, Some a => inr (unitRuntimeFor stack a)
      | _, _, _ => inl unprovisioned
      end
  end.

(** The reader is given back once the comparison has started: working out
    what is expected comes before. *)
Definition compare_leased (reader : JournalLease W) (hostId : string) (unit_runtime : UnitRuntime)
    (instances : list InstanceRow) (schedules : list InstanceScheduleRow)
    (expectedConfigs : gmap string string) : M W (HostUnreachableReason + HostObservation) :=
  let* expected := lift (expectedUnits instances schedules renderScheduleUnits unit_runtime) in
  try_finally
    (try_catch
       (let* observed :=
          reconcileHostOverTransport parse (number_le deps) locale_le other_text chat_line reader (post reader)
            unit_runtime instances expected expectedConfigs in
        ret (inr observed))
       (fun error =>
          ret (inl (if instanceof "HostAnswerUnreadableError" error then unreadable_answer else interrupted_read))))
    (release reader).

Definition reason_of_lease (error : thrown) : HostUnreachableReason :=
  match error with ThrownError _ _ => reasonFor error | ThrownValue _ => failed_read end.

(** What was observed is recorded and told. *)
Definition conclude (scope hostId : string) (bots : list InstanceRow) (unusable : list string)
    (outcome : HostUnreachableReason + HostObservation) : M W HostReconciliation :=
  match outcome with
  | inl reason => ret (not_compared hostId reason)
  | inr observed =>
      for_each (seenPlayers observed) (record_player scope bots) ;;;
      for_each (failures observed) (record_failure scope) ;;;
      ret (compared hostId
             (match unusable with
              | [] => reconciliation observed
              | _ => with_unusable unusable (reconciliation observed)
              end))
  end.

Definition reconcileHost (ctx : ActorContext) (hostId : string) : M W HostReconciliation :=
  lift (requireCapabilityFor (ctx_role ctx) instance_read) ;;;
  let scope := scopeOf ctx in
  let* host := query (fun t => HostRepository.findById scope hostId (hosts t)) in
  match comparable host with
  | inl reason => ret (not_compared hostId reason)
  | inr unit_runtime =>
      let* bots := query (fun t => List.filter (fun i => in_hostId i ≡? hostId)
                                     (InstanceRepository.list_ scope (instances t))) in
      let* windows := query (fun t => List.filter (fun s => known_bot bots (is_instanceId s))
                                        (ScheduleRepository.list_ scope (schedules t))) in
      let* found := expected_documents scope bots (∅, []) in
      let* lease :=
        try_catch (let* reader := leaseHost scope hostId RECONCILE_DEADLINE_MS runtime in ret (inr reader))
          (fun error => ret (inl (reason_of_lease error))) in
      match lease with
      | inl reason => ret (not_compared hostId reason)
      | inr reader =>
          let* outcome := compare_leased reader hostId unit_runtime bots windows found.1 in
          conclude scope hostId bots found.2 outcome
      end
  end.
End request.
