(* ===== verification/HostReader.v ===== *)
(** Reading from a machine over the shared connections.

    [packages/core/src/host/host-reader.ts], with [leaseTrustedHost] and
    [leaseHost] of [packages/core/src/instance/instance.controller.ts]: a
    reader is leased for a machine whose row allows it, and the row is looked at
    again once the connection is there.  The pool of connections is the argument
    [lease]; it may call back to open one. *)

From S2P Require Import Prelude Tables Calendar Observer Shell Access HostStore InstanceStore InstanceController.

Definition hostReadKey (organizationId hostId : string) : string := organizationId +:+ ":" +:+ hostId.

(** [identityOf(host)]: none while it is being removed, or before its key and
    the machine's are known. *)
Definition identityOf (h : HostRow) : option ConnectionIdentity :=
  match teardownRequestedAt h with
  | Some _ => None
  | None =>
      let? keyOf := truthy (sshKeyId (host_address h)) in
      let? fingerprint := truthy (hostKeyFingerprint (host_trust h)) in
      let a := host_address h in
      Some (MkIdentity (hostname a) (port a) (username a) keyOf fingerprint)
  end.

#[global] Instance ConnectionIdentity_eq_dec : EqDecision ConnectionIdentity.
Proof. solve_decision. Defined.

Definition sameConnectionIdentity (a b : ConnectionIdentity) : bool :=
  (id_hostname a ≡? id_hostname b) && (id_port a =? id_port b) && (id_username a ≡? id_username b)
  && (id_sshKeyId a ≡? id_sshKeyId b) && (id_hostKeyFingerprint a ≡? id_hostKeyFingerprint b).

Inductive HostReadLease (W : Type) :=
  | leased (reader : JournalLease W) (host : HostRow) (identity : ConnectionIdentity)
  | missing_host
  | unprovisioned_host
  | changed_host.
Arguments leased {W}. Arguments missing_host {W}. Arguments unprovisioned_host {W}. Arguments changed_host {W}.

Definition SshKeyGoneError := named "SshKeyGoneError".

Section reader.
Context {X : Type} (deps : InstanceControllerDeps X).
Abbreviation W := (World X).

(** [readConnections.lease(key, identity, deadlineMs, open)]; [open] is given
    how the transport connects. *)
Variable lease : string -> ConnectionIdentity -> Z -> ((ConnectOptions -> M W unit) -> M W unit) -> M W (JournalLease W).

Definition open_for (scope hostId : string) (identity : ConnectionIdentity) (connect : ConnectOptions -> M W unit)
    : M W unit :=
  let* key := query (findSshKey scope (id_sshKeyId identity)) in
  match key with
  | None => throw (SshKeyGoneError ("Ssh key not found for host " +:+ hostId))
  | Some k =>
      try_catch
        (let* privateKey := lift (open_sealed deps (key_privateKeyEncrypted k) (key_privateKeyKeyId k)) in
         connect (MkConnect (id_hostname identity) (id_port identity) (id_username identity) privateKey
                    (id_hostKeyFingerprint identity) CONNECT_TIMEOUT_MS))
        (fun error => throw (HostUnreachableError (connection_failure deps error)))
  end.

(** The reader, or [None] when the key is gone. *)
Definition lease_with_key (scope hostId : string) (identity : ConnectionIdentity) (deadlineMs : Z)
    : M W (option (JournalLease W)) :=
  try_catch (let* reader := lease (hostReadKey scope hostId) identity deadlineMs (open_for scope hostId identity) in
             ret (Some reader))
    (fun error => if instanceof "SshKeyGoneError" error then ret None else throw error).

(** The row as it is now decides whether the reader is handed out. *)
Definition still_trusted (scope hostId : string) (identity : ConnectionIdentity) (need : HostNeed)
    (reader : JournalLease W) : M W (HostReadLease W) :=
  let* current := query (fun t => HostRepository.findById scope hostId (hosts t)) in
  match current with
  | None => release reader ;;; ret missing_host
  | Some h =>
      match identityOf h with
      | None => release reader ;;; ret missing_host
      | Some now_trusted =>
          if negb (hostMeets h need) then release reader ;;; ret missing_host
          else if negb (sameConnectionIdentity now_trusted identity) then release reader ;;; ret changed_host
          else ret (leased reader h now_trusted)
      end
  end.

Definition leaseHostReader (scope hostId : string) (deadlineMs : Z) (need : HostNeed) : M W (HostReadLease W) :=
  let* host := query (fun t => HostRepository.findById scope hostId (hosts t)) in
  match host with
  | None => ret missing_host
  | Some h =>
      match identityOf h with
      | None => ret missing_host
      | Some identity =>
          if negb (hostMeets h need) then ret unprovisioned_host
          else
            let* reader := lease_with_key scope hostId identity deadlineMs in
            match reader with
            | None => ret missing_host
            | Some reader => still_trusted scope hostId identity need reader
            end
      end
  end.

Definition leaseTrustedHost (scope hostId : string) (deadlineMs : Z) (need : HostNeed)
    : M W (JournalLease W * ConnectionIdentity) :=
  let* lease := leaseHostReader scope hostId deadlineMs need in
  match lease with
  | leased reader _ identity => ret (reader, identity)
  | missing_host => throw (InstanceHostNotFoundError ("Host not found: " +:+ hostId))
  | unprovisioned_host =>
      throw (InstanceHostNotProvisionedError ("Host " +:+ hostId +:+ " has never finished provisioning"))
  | changed_host => throw (HostUnreachableError COULD_NOT_CONNECT)
  end.

Definition leaseHost (scope hostId : string) (deadlineMs : Z) (need : HostNeed) : M W (JournalLease W) :=
  let* opened := leaseTrustedHost scope hostId deadlineMs need in ret opened.1.

(** ** Who gets a reader *)

Lemma same_identity a b : sameConnectionIdentity a b = true <-> a = b.
Proof.
  unfold sameConnectionIdentity. destruct a, b. simpl. split.
  - intros H. tests. by subst.
  - intros [= -> -> -> -> ->]. by rewrite Z.eqb_refl, !bool_decide_eq_true_2.
Qed.

(** What is true of the machine when a reader of it is handed out. *)
Definition trusted_now (scope hostId : string) (need : HostNeed) (identity : ConnectionIdentity) (w : W) : Prop :=
  exists h, HostRepository.findById scope hostId (hosts (fleet w)) = Some h
    /\ teardownRequestedAt h = None /\ identityOf h = Some identity /\ hostMeets h need = true.

Lemma identity_no_teardown h identity : identityOf h = Some identity -> teardownRequestedAt h = None.
Proof. unfold identityOf. by destruct (teardownRequestedAt h). Qed.

(** Without a reader handed out, none is kept: none was asked for, the pool
    gave none, or the one it gave was given back. *)
Definition none_kept (scope hostId : string) (deadlineMs : Z) (w : W) (after : result (HostReadLease W) * W) : Prop :=
  after.2 = w
  \/ exists identity,
       match lease (hostReadKey scope hostId) identity deadlineMs (open_for scope hostId identity) w with
       | (Throw _, w1) => after.2 = w1
       | (Ok reader, w1) => after.2 = (release reader w1).2
       end.

Definition handed_properly (scope hostId : string) (deadlineMs : Z) (need : HostNeed) (w : W)
    (after : result (HostReadLease W) * W) : Prop :=
  match after with
  | (Ok (leased reader h identity), w') =>
      trusted_now scope hostId need identity w'
      /\ lease (hostReadKey scope hostId) identity deadlineMs (open_for scope hostId identity) w = (Ok reader, w')
  | _ => none_kept scope hostId deadlineMs w after
  end.

Lemma given_back scope hostId deadlineMs need identity (reader : JournalLease W) (kind : HostReadLease W) w w1 :
  lease (hostReadKey scope hostId) identity deadlineMs (open_for scope hostId identity) w = (Ok reader, w1) ->
  (forall r h i, kind <> leased r h i) ->
  handed_properly scope hostId deadlineMs need w ((release reader ;;; ret kind) w1).
Proof.
  intros El Hk. assert (Hs : ((release reader ;;; ret kind) w1).2 = (release reader w1).2)
    by (unfold bind, ret; by destruct (release reader w1) as [[a|e] w2]).
  assert (Hkept : none_kept scope hostId deadlineMs w ((release reader ;;; ret kind) w1))
    by (right; exists identity; by rewrite El).
  unfold handed_properly. destruct ((release reader ;;; ret kind) w1) as [[[r h i| | |]|e] w2] eqn:E; try exact Hkept.
  exfalso. revert E. unfold bind, ret. destruct (release reader w1) as [[u|e'] w3]; [|done].
  intros [= E _]. by apply (Hk r h i).
Qed.

(** a reader is handed out only for a machine that, in the tables as they
    are at that moment, exists, is not being removed, is set up as far as the
    read needs it, and has the very address, key and fingerprint the connection
    was leased for; whatever happened to the row meanwhile, a reader leased for
    anything else is given back. *)
Theorem readers_are_of_trusted_machines scope hostId deadlineMs need w :
  handed_properly scope hostId deadlineMs need w (leaseHostReader scope hostId deadlineMs need w).
Proof.
  unfold leaseHostReader, query, gets. unfold bind at 1.
  destruct (HostRepository.findById scope hostId (hosts (fleet w))) as [h|]; [|by left].
  destruct (identityOf h) as [identity|]; [|by left]. destruct (hostMeets h need); [|by left]. cbn [negb].
  unfold bind at 1, lease_with_key, try_catch. unfold bind at 1, throw.
  destruct (lease _ _ _ _ w) as [[reader|error] w1] eqn:El.
  - unfold ret at 1, still_trusted, query, gets. unfold bind at 1.
    destruct (HostRepository.findById scope hostId (hosts (fleet w1))) as [now_|] eqn:Enow; [|by eapply given_back].
    destruct (identityOf now_) as [trusted|] eqn:Et; [|by eapply given_back].
    destruct (hostMeets now_ need) eqn:Em; [|by eapply given_back]. cbn [negb].
    destruct (sameConnectionIdentity trusted identity) eqn:Es; [|by eapply given_back]. cbn [negb].
    apply same_identity in Es as ->. split; [|done].
    exists now_. split_and!; [done|by eapply identity_no_teardown|done|done].
  - destruct (instanceof "SshKeyGoneError" error); right; exists identity; by rewrite El.
Qed.
End reader.
