(* ===== verification/ReconcileSafety.v ===== *)
(** What comparing a machine promises.

    The facts of a machine are taken only from a whole answer, what is told of
    a client's settings depends on none of the values that are withheld, a
    report is empty exactly when everything is as it should be, and the request
    touches no bot that is being worked on. *)

From stdpp Require Import gmap.
From S2P Require Import Prelude Tables Calendar Journal Observer Shell Control ClientSettings ClientConfig Access HostStore InstanceStore InstanceController InstanceRequests InstanceSafety MachineFacts Teardown ConfigDrift Reconcile.

(** ** The sections of an answer *)

(** The lines of a text, each ended. *)
Definition unlines (lines : list string) : string := join_with newline lines +:+ newline.

Lemma without_newline_ended text : without_newline (text +:+ newline) = text.
Proof.
  induction text as [|c text IH]; [done|]. rewrite string_app_cons.
  destruct text as [|d text].
  - done.
  - rewrite string_app_cons in *.
    change (String c (without_newline (String d (text +:+ newline))) = String c (String d text)). by rewrite IH.
Qed.

Lemma without_newline_other output :
  without_newline output = output \/ output = without_newline output +:+ newline.
Proof.
  induction output as [|c output IH]; [by left|]. destruct output as [|d output].
  - simpl. case_bool_decide as E; [right; by rewrite E|by left].
  - change (without_newline (String c (String d output)))
      with (String c (without_newline (String d output))).
    destruct IH as [E|E]; [left; by rewrite E|]. right. rewrite string_app_cons. by rewrite <- E.
Qed.

Lemma split_parts_free c s : Forall (fun part => free_of c part = true) (split_on c s).
Proof.
  induction s as [|x s IH]; simpl; [by repeat constructor|].
  case_bool_decide as E; [by constructor|].
  destruct (split_on c s) as [|part parts]; [by repeat constructor; unfold free_of; simpl; rewrite bool_decide_eq_false_2|].
  inversion_clear IH. constructor; [|done]. unfold free_of in *. simpl.
  by rewrite bool_decide_eq_false_2.
Qed.

Lemma split_nonempty c s : split_on c s <> [].
Proof. destruct s as [|x s]; simpl; [done|]. case_bool_decide; [done|]. by destruct (split_on c s). Qed.

Lemma lines_of_spec output lines :
  lines_of output = Some lines
  <-> lines <> [] /\ Forall (fun line => free_of NEWLINE line = true) lines /\ output = unlines lines.
Proof.
  unfold lines_of, unlines. split.
  - case_bool_decide as E; [done|]. intros [= <-]. split; [apply split_nonempty|].
    split; [apply split_parts_free|]. unfold newline. rewrite join_split.
    by destruct (without_newline_other output).
  - intros (Hne & Hfree & ->). rewrite without_newline_ended.
    rewrite bool_decide_eq_false_2.
    + f_equal. by apply split_join.
    + intros E. apply (f_equal String.length) in E. rewrite string_length_app in E. simpl in E. lia.
Qed.

(** A line that is there once splits a list in one way. *)
Lemma split_once {A} (x : A) l r l' r' :
  x ∉ l -> x ∉ r -> l ++ x :: r = l' ++ x :: r' -> l = l' /\ r = r'.
Proof.
  revert l'. induction l as [|y l IH]; intros [|y' l'] Hl Hr H; simpl in H.
  - by injection H.
  - injection H as <- ->. exfalso. apply Hr, elem_of_app. right. apply list_elem_of_here.
  - injection H as -> _. exfalso. apply Hl, list_elem_of_here.
  - injection H as -> H. apply IH in H as [-> ->]; [done| |done].
    intros Hx. by apply Hl, list_elem_of_further.
Qed.

Lemma indexOf_spec line lines n :
  indexOf line lines = Some n
  <-> exists before rest, lines = before ++ line :: rest /\ length before = n /\ line ∉ before.
Proof.
  revert n. induction lines as [|l lines IH]; intros n; simpl.
  - split; [done|]. by intros ([|] & ? & ? & _).
  - case_bool_decide as E.
    + subst l. split.
      * intros [= <-]. exists [], lines. split_and!; [done|done|apply not_elem_of_nil].
      * intros ([|b before] & rest & E & <- & Hb); [done|]. injection E as <- _.
        exfalso. apply Hb, list_elem_of_here.
    + destruct n as [|n].
      * split; [by destruct (indexOf line lines)|]. intros ([|b before] & rest & H & Hn & _); [|done].
        by injection H.
      * transitivity (indexOf line lines = Some n).
        { destruct (indexOf line lines); simpl; split; congruence. }
        rewrite IH. split.
        -- intros (before & rest & -> & <- & Hb). exists (l :: before), rest. split_and!; [done|done|].
           rewrite not_elem_of_cons. naive_solver.
        -- intros ([|b before] & rest & H & Hn & Hb); [done|]. injection H as -> ->.
           rewrite not_elem_of_cons in Hb. exists before, rest. naive_solver.
Qed.

Lemma lastIndexOf_none line lines : lastIndexOf line lines = None <-> line ∉ lines.
Proof.
  induction lines as [|l lines IH]; simpl; [split; [intros _; apply not_elem_of_nil|done]|].
  rewrite not_elem_of_cons, <- IH. destruct (lastIndexOf line lines); [naive_solver|].
  case_bool_decide; naive_solver.
Qed.

Lemma lastIndexOf_after line before rest :
  line ∉ rest -> lastIndexOf line (before ++ line :: rest) = Some (length before).
Proof.
  intros H. induction before as [|b before IH]; simpl.
  - by rewrite (proj2 (lastIndexOf_none line rest) H), bool_decide_eq_true_2.
  - by rewrite IH.
Qed.

Lemma lastIndexOf_once line before rest :
  lastIndexOf line (before ++ line :: rest) = Some (length before) -> line ∉ rest.
Proof.
  induction before as [|b before IH]; simpl; intros H.
  - apply lastIndexOf_none. destruct (lastIndexOf line rest); [done|done].
  - destruct (lastIndexOf line (before ++ line :: rest)); [|by case_bool_decide].
    apply IH. congruence.
Qed.

(** The lines between two marks that are there once each, in this order. *)
Definition sections_at (lines : list string) (from to : string) (mid : list string) : Prop :=
  exists before rest, lines = before ++ from :: mid ++ to :: rest
    /\ from ∉ before ++ mid ++ to :: rest /\ to ∉ before ++ from :: mid ++ rest.

Lemma two_splits {A} (x y : A) b1 r1 b2 r2 :
  b1 ++ x :: r1 = b2 ++ y :: r2 -> (length b1 < length b2)%nat ->
  exists mid, b2 = b1 ++ x :: mid /\ r1 = mid ++ y :: r2.
Proof.
  revert b2. induction b1 as [|b b1 IH]; intros [|b' b2] H Hlen; simpl in *; try lia.
  - injection H as -> ->. by exists b2.
  - injection H as -> H. destruct (IH b2 H) as (mid & -> & ->); [lia|]. by exists mid.
Qed.

Lemma between_marks before (from to : string) mid rest :
  firstn (length (before ++ from :: mid) - S (length before))
    (skipn (S (length before)) (before ++ from :: mid ++ to :: rest)) = mid.
Proof.
  replace (before ++ from :: mid ++ to :: rest) with ((before ++ [from]) ++ mid ++ to :: rest)
    by by rewrite <- app_assoc.
  rewrite drop_app_length' by (rewrite length_app; simpl; lia).
  rewrite length_app. simpl.
  replace (length before + S (length mid) - S (length before))%nat with (length mid) by lia.
  by apply take_app_length.
Qed.

Lemma linesBetween_spec lines from to mid :
  linesBetween lines from to = Some mid <-> sections_at lines from to mid.
Proof.
  unfold linesBetween. split.
  - destruct (indexOf from lines) as [start|] eqn:Efrom; [|done].
    destruct (indexOf to lines) as [stop|] eqn:Eto; [|done].
    destruct (stop <=? start)%nat eqn:Elt; [done|]. apply Nat.leb_gt in Elt.
    case_match eqn:Elast; [done|]. apply orb_false_iff in Elast as [L1 L2].
    apply negb_false_iff, bool_decide_eq_true in L1, L2. intros [= <-].
    apply indexOf_spec in Efrom as (b1 & r1 & E1 & <- & N1).
    apply indexOf_spec in Eto as (b2 & r2 & E2 & <- & N2).
    destruct (two_splits from to b1 r1 b2 r2) as (m & -> & ->); [congruence|done|].
    subst lines. rewrite between_marks.
    apply lastIndexOf_once in L1.
    replace (b1 ++ from :: m ++ to :: r2) with ((b1 ++ from :: m) ++ to :: r2) in L2 by by rewrite <- app_assoc.
    apply lastIndexOf_once in L2. exists b1, r2. split; [done|]. set_solver.
  - intros (before & rest & -> & Nf & Nt).
    rewrite (proj2 (indexOf_spec from _ (length before))) by (exists before, (mid ++ to :: rest); set_solver).
    rewrite (proj2 (indexOf_spec to _ (length (before ++ from :: mid))))
      by (exists (before ++ from :: mid), rest; split_and!; [by rewrite <- app_assoc|done|set_solver]).
    rewrite (lastIndexOf_after from before) by set_solver.
    replace (before ++ from :: mid ++ to :: rest) with ((before ++ from :: mid) ++ to :: rest)
      by by rewrite <- app_assoc.
    rewrite (lastIndexOf_after to (before ++ from :: mid)) by set_solver.
    rewrite !bool_decide_eq_true_2 by done. simpl.
    replace (length (before ++ from :: mid) <=? length before)%nat with false
      by (symmetry; apply Nat.leb_gt; rewrite length_app; simpl; lia).
    f_equal. rewrite <- app_assoc. apply between_marks.
Qed.

Definition SECTIONS : list string :=
  [UNITS_SECTION; PODMAN_SECTION; CONTAINERS_SECTION; IMAGE_SECTION; END_SECTION].

Definition in_sections (units versions containers statuses : list string) : list string :=
  UNITS_SECTION :: units ++ PODMAN_SECTION :: versions ++ CONTAINERS_SECTION :: containers
    ++ IMAGE_SECTION :: statuses ++ [END_SECTION].

Definition no_mark (lines : list string) : Prop := Forall (fun line => line ∉ SECTIONS) lines.

Lemma no_mark_spec lines : no_mark lines <-> forall mark, mark ∈ SECTIONS -> mark ∉ lines.
Proof. unfold no_mark. rewrite Forall_forall. naive_solver. Qed.

(** Two neighbouring sections share their mark. *)
Lemma next_section lines a b c before m1 r1 m2 :
  lines = before ++ a :: m1 ++ b :: r1 -> b ∉ before ++ a :: m1 ++ r1 -> sections_at lines b c m2 ->
  exists r2, r1 = m2 ++ c :: r2 /\ c ∉ before ++ a :: m1 ++ b :: m2 ++ r2.
Proof.
  intros -> Hb (before2 & r2 & E & Nb & Nc).
  assert (S : (before ++ a :: m1) ++ b :: r1 = before2 ++ b :: m2 ++ c :: r2) by by rewrite <- app_assoc.
  apply split_once in S as [<- ->]; [|set_solver|set_solver].
  exists r2. split; [done|]. rewrite <- app_assoc in Nc. exact Nc.
Qed.

Lemma sections_split lines u v c s :
  head lines = Some UNITS_SECTION -> last lines = Some END_SECTION ->
  sections_at lines UNITS_SECTION PODMAN_SECTION u -> sections_at lines PODMAN_SECTION CONTAINERS_SECTION v ->
  sections_at lines CONTAINERS_SECTION IMAGE_SECTION c -> sections_at lines IMAGE_SECTION END_SECTION s ->
  lines = in_sections u v c s /\ no_mark (u ++ v ++ c ++ s).
Proof.
  intros Hhead Hlast (b & r1 & E1 & NU & NP) HP HC HI.
  destruct b as [|x b]; [|subst lines; simpl in Hhead; injection Hhead as ->; set_solver]. simpl in *.
  destruct (next_section lines UNITS_SECTION PODMAN_SECTION CONTAINERS_SECTION [] u r1 v E1 NP HP)
    as (r2 & -> & NC).
  assert (E2 : lines = (UNITS_SECTION :: u) ++ PODMAN_SECTION :: v ++ CONTAINERS_SECTION :: r2) by exact E1.
  destruct (next_section _ _ _ IMAGE_SECTION _ _ _ c E2) as (r3 & -> & NI); [exact NC|done|].
  assert (E3 : lines = (UNITS_SECTION :: u ++ PODMAN_SECTION :: v)
                         ++ CONTAINERS_SECTION :: c ++ IMAGE_SECTION :: r3)
    by (rewrite E2; simpl; by rewrite <- !app_assoc).
  destruct (next_section _ _ _ END_SECTION _ _ _ s E3) as (r4 & -> & NE);
    [simpl in *; by rewrite <- app_assoc|done|].
  assert (r4 = []) as ->.
  { destruct r4 as [|x r4] using rev_ind; [done|]. exfalso. subst lines.
    replace (UNITS_SECTION :: u ++ PODMAN_SECTION :: v ++ CONTAINERS_SECTION :: c ++ IMAGE_SECTION :: s
               ++ END_SECTION :: r4 ++ [x])
      with ((UNITS_SECTION :: u ++ PODMAN_SECTION :: v ++ CONTAINERS_SECTION :: c ++ IMAGE_SECTION :: s
               ++ END_SECTION :: r4) ++ [x]) in Hlast by by simplify_list_eq.
    rewrite last_snoc in Hlast. injection Hlast as ->. set_solver. }
  split; [exact E1|]. apply no_mark_spec. intros mark Hm. unfold SECTIONS in Hm. set_solver.
Qed.

Lemma in_sections_at u v c s :
  no_mark (u ++ v ++ c ++ s) ->
  sections_at (in_sections u v c s) UNITS_SECTION PODMAN_SECTION u
  /\ sections_at (in_sections u v c s) PODMAN_SECTION CONTAINERS_SECTION v
  /\ sections_at (in_sections u v c s) CONTAINERS_SECTION IMAGE_SECTION c
  /\ sections_at (in_sections u v c s) IMAGE_SECTION END_SECTION s.
Proof.
  rewrite no_mark_spec. intros H.
  assert (HU := H UNITS_SECTION ltac:(unfold SECTIONS; set_solver)).
  assert (HP := H PODMAN_SECTION ltac:(unfold SECTIONS; set_solver)).
  assert (HC := H CONTAINERS_SECTION ltac:(unfold SECTIONS; set_solver)).
  assert (HI := H IMAGE_SECTION ltac:(unfold SECTIONS; set_solver)).
  assert (HE := H END_SECTION ltac:(unfold SECTIONS; set_solver)). clear H.
  unfold in_sections. split_and!.
  - eexists [], _. split; [reflexivity|]. set_solver.
  - eexists (UNITS_SECTION :: u), _. split; [reflexivity|]. set_solver.
  - eexists (UNITS_SECTION :: u ++ PODMAN_SECTION :: v), _. split; [by simplify_list_eq|]. set_solver.
  - exists (UNITS_SECTION :: u ++ PODMAN_SECTION :: v ++ CONTAINERS_SECTION :: c), [].
    split; [by simplify_list_eq|]. set_solver.
Qed.

Lemma not_a_mark (p : string -> bool) line :
  forallb (fun mark => negb (p mark)) SECTIONS = true -> p line = true -> line ∉ SECTIONS.
Proof.
  intros H Hp Hin. rewrite forallb_forall in H. apply list_elem_of_In in Hin.
  specialize (H line Hin). by rewrite Hp in H.
Qed.

Definition status_line (exists_ : bool) : string := if exists_ then "0" else "1".

Definition facts_read (output : string) (facts : ReconcileFacts) : Prop :=
  exists units version,
    output = unlines (in_sections units [version] (fact_containers facts) [status_line (fact_imageExists facts)])
    /\ Forall (fun line => free_of NEWLINE line = true) (version :: units)
    /\ no_mark units
    /\ parsePodmanVersion version = Some (fact_podman facts)
    /\ Forall (fun name => CONTAINER_NAME name = true) (fact_containers facts)
    /\ fact_units facts = List.filter isManagedUnit (map trim units).

Lemma facts_whole output facts : parseReconcileFacts output = Some facts -> facts_read output facts.
Proof.
  unfold parseReconcileFacts.
  destruct (lines_of output) as [lines|] eqn:El; [|done]. apply lines_of_spec in El as (_ & Hfree & ->).
  destruct (_ || _) eqn:Hends; [done|]. apply orb_false_iff in Hends as [Hh Hl].
  apply negb_false_iff, bool_decide_eq_true in Hh, Hl.
  destruct (linesBetween lines UNITS_SECTION _) as [u|] eqn:EU; [|done].
  destruct (linesBetween lines PODMAN_SECTION _) as [v|] eqn:EV; [|done].
  destruct (linesBetween lines CONTAINERS_SECTION _) as [c|] eqn:EC; [|done].
  destruct (linesBetween lines IMAGE_SECTION _) as [s|] eqn:ES; [|done].
  destruct v as [|version [|]]; [done| |done]. cbn [only].
  destruct (parsePodmanVersion version) as [podman|] eqn:Ev; [|done].
  destruct s as [|status [|]]; [done| |done]. cbn [only].
  destruct (negb ((status ≡? "0") || _)) eqn:Est; [done|].
  destruct (negb (forallb _ c)) eqn:Ec; [done|]. intros [= <-]. unfold facts_read. simpl.
  apply linesBetween_spec in EU, EV, EC, ES.
  destruct (sections_split lines u [version] c [status] Hh Hl EU EV EC ES) as [-> Hm].
  apply negb_false_iff in Est, Ec. rewrite forallb_forall in Ec.
  exists u, version. split_and!; [| | |done| |done].
  - do 2 f_equal. destruct (decide (status = "0")) as [->|Hne]; [done|].
    rewrite (bool_decide_eq_false_2 (status = "0")) in * by done. simpl in Est. by case_bool_decide; subst.
  - unfold in_sections in Hfree. rewrite Forall_cons in Hfree. destruct Hfree as [_ Hfree].
    apply Forall_app in Hfree as [Hu Hfree]. inversion_clear Hfree as [|? ? _ Hrest].
    inversion_clear Hrest. by constructor.
  - unfold no_mark in *. by apply Forall_app in Hm as [Hm _].
  - apply List.Forall_forall. exact Ec.
Qed.

Lemma container_name_free name : CONTAINER_NAME name = true -> free_of NEWLINE name = true.
Proof.
  destruct name as [|x name]; [done|]. simpl. intros Hn. tests. unfold free_of. simpl. apply andb_true_iff.
  split; [|eapply chars_all_impl; [|exact H0]; intros d Hd]; apply negb_true_iff, bool_decide_eq_false;
    by intros ->.
Qed.

(** The parts of the answer that are not lists of units hold no mark. *)
Lemma answer_no_mark facts version :
  parsePodmanVersion version = Some (fact_podman facts) ->
  Forall (fun name => CONTAINER_NAME name = true) (fact_containers facts) ->
  no_mark (version :: fact_containers facts ++ [status_line (fact_imageExists facts)]).
Proof.
  intros Hv Hc. unfold no_mark. constructor; [|apply Forall_app; split; [|constructor; [|done]]].
  - apply (not_a_mark (fun l => bool_decide (is_Some (parsePodmanVersion l)))); [by vm_compute|].
    by rewrite Hv.
  - eapply Forall_impl; [exact Hc|]. intros name. apply not_a_mark. by vm_compute.
  - destruct (fact_imageExists facts);
      [apply (not_a_mark (fun l => l ≡? "0"))|apply (not_a_mark (fun l => l ≡? "1"))]; by vm_compute.
Qed.

Lemma answer_free facts units version :
  Forall (fun line => free_of NEWLINE line = true) (version :: units) ->
  Forall (fun name => CONTAINER_NAME name = true) (fact_containers facts) ->
  Forall (fun line => free_of NEWLINE line = true)
    (in_sections units [version] (fact_containers facts) [status_line (fact_imageExists facts)]).
Proof.
  intros Hfree Hc. inversion_clear Hfree. unfold in_sections. simpl.
  rewrite Forall_cons, Forall_app, !Forall_cons, Forall_app, !Forall_cons. split_and!; try done.
  - eapply Forall_impl; [exact Hc|]. apply container_name_free.
  - by destruct (fact_imageExists facts).
Qed.

Lemma last_section u v c s : last (in_sections u v c s) = Some END_SECTION.
Proof.
  replace (in_sections u v c s)
    with ((UNITS_SECTION :: u ++ PODMAN_SECTION :: v ++ CONTAINERS_SECTION :: c ++ IMAGE_SECTION :: s) ++ [END_SECTION])
    by (unfold in_sections; by simplify_list_eq).
  apply last_snoc.
Qed.

(** the facts of a machine are read exactly from a whole answer: its lines
    are the five marks in their order, each once, with the units between the
    first two, one line with a version of Podman, names of containers, and one
    line that says whether the image is there; an answer cut short, repeated or
    out of order gives nothing. *)
Theorem facts_are_the_whole_answer output facts :
  parseReconcileFacts output = Some facts <-> facts_read output facts.
Proof.
  split; [apply facts_whole|]. intros (u & version & -> & Hfree & Hu & Hv & Hc & Hunits).
  pose proof (answer_no_mark facts version Hv Hc) as Hm.
  assert (Hall : no_mark (u ++ [version] ++ fact_containers facts ++ [status_line (fact_imageExists facts)]))
    by (apply Forall_app; by split).
  destruct (in_sections_at _ _ _ _ Hall) as (SU & SP & SC & SI). apply linesBetween_spec in SU, SP, SC, SI.
  unfold parseReconcileFacts.
  rewrite (proj2 (lines_of_spec _ (in_sections u [version] (fact_containers facts)
                                     [status_line (fact_imageExists facts)])))
    by (split; [done|]; split; [by apply answer_free|done]).
  rewrite last_section, SU, SP, SC, SI, !bool_decide_eq_true_2 by done. cbn [negb orb only]. rewrite Hv.
  rewrite (proj2 (forallb_forall _ _)) by (by apply List.Forall_forall).
  destruct facts as [units podman containers exists_]. simpl in *. subst units. by destruct exists_.
Qed.

(** ** What is withheld *)

#[local] Opaque ALL_KEYS EMPTIED_CONFIG_SECTIONS isOperatorKey isSecretKey FIXED_KEYS.

Section withheld.
Variable parse : string -> result Toml.
Variables number_le locale_le : string -> string -> bool.
Variable other_text : Number -> string.

Abbreviation keys := (ALL_KEYS number_le locale_le).
Abbreviation told := (toPublicDrift number_le locale_le other_text).

Definition withheld (key : string) : bool := isSecretKey key || isOperatorKey number_le locale_le key.

(** Of a value that is withheld may be known: whether it is there, whether it
    is the saved one, and whether the client would expand it. *)
Definition alike (want : option McConfigValue) (key : string) (have have' : option McConfigValue) : Prop :=
  if withheld key
  then (is_Some have <-> is_Some have')
       /\ unsafeExpansion key have = unsafeExpansion key have'
       /\ forall value, want = Some value -> sameConfigValue value have = sameConfigValue value have'
  else have = have'.

Definition documents_alike (saved d d' : Toml) : Prop :=
  (forall key, key ∈ keys ->
     unreadable_at d key = unreadable_at d' key
     /\ alike (value_at saved key) key (value_at d key) (value_at d' key))
  /\ (forall section, section ∈ EMPTIED_CONFIG_SECTIONS -> section_size d section = section_size d' section).

Definition told_alike (entry entry' : ConfigDrift) : Prop :=
  (forall instanceId, told instanceId entry = told instanceId entry')
  /\ forall key, about_key key entry = about_key key entry'.

Lemma told_withheld instanceId kind key want have :
  withheld key = true ->
  told instanceId (d_key kind key want have)
  = MkDriftPublic instanceId (public_kind kind) key (Some (formatConfigValue other_text want))
      (match kind with operator => None | _ => option_map (fun _ => WITHHELD_VALUE) have end).
Proof. unfold withheld. intros H. destruct kind; cbn [toPublicDrift]; by rewrite ?H. Qed.

Lemma key_drift_alike saved d d' key :
  key ∈ keys -> alike (value_at saved key) key (value_at d key) (value_at d' key) ->
  option_Forall2 told_alike
    (key_drift number_le locale_le (reading_of number_le locale_le saved) (reading_of number_le locale_le d) key)
    (key_drift number_le locale_le (reading_of number_le locale_le saved) (reading_of number_le locale_le d') key).
Proof.
  intros Hk H. unfold key_drift. rewrite !reading_values by done. unfold alike in H.
  destruct (value_at saved key) as [want|]; [|constructor].
  destruct (withheld key) eqn:Ew.
  - destruct H as (Hsome & Hunsafe & Hsame). rewrite (Hsame want eq_refl).
    destruct (sameConfigValue want (value_at d' key)); constructor. split; [|done]. intros instanceId.
    unfold kind_of. rewrite Hunsafe. unfold withheld in Ew.
    assert (Hmap : option_map (fun _ : McConfigValue => WITHHELD_VALUE) (value_at d key)
                   = option_map (fun _ => WITHHELD_VALUE) (value_at d' key)).
    { destruct (value_at d key), (value_at d' key); try done; exfalso;
        [destruct (proj1 Hsome (mk_is_Some _ _ eq_refl)); done|destruct (proj2 Hsome (mk_is_Some _ _ eq_refl)); done]. }
    by rewrite !told_withheld, Hmap by done.
  - rewrite H. destruct (sameConfigValue want (value_at d' key)); by constructor.
Qed.

Lemma omap_alike {A B} (R : B -> B -> Prop) (f g : A -> option B) (l : list A) :
  (forall x, x ∈ l -> option_Forall2 R (f x) (g x)) -> Forall2 R (omap f l) (omap g l).
Proof.
  induction l as [|x l IH]; intros H; simpl; [constructor|].
  assert (IH' : Forall2 R (omap f l) (omap g l)) by (apply IH; intros y Hy; apply H; by apply list_elem_of_further).
  destruct (H x (list_elem_of_here _ _)); [by constructor|done].
Qed.

Lemma about_alike key drift drift' :
  Forall2 told_alike drift drift' -> existsb (about_key key) drift = existsb (about_key key) drift'.
Proof. induction 1 as [|e e' l l' [_ H] _ IH]; simpl; [done|]. by rewrite H, IH. Qed.

Lemma push_alike ks drift drift' :
  Forall2 told_alike drift drift' ->
  Forall2 told_alike (push_unreadable number_le locale_le ks drift) (push_unreadable number_le locale_le ks drift').
Proof.
  revert drift drift'. induction ks as [|k ks IH]; intros drift drift' H; [done|]. cbn [push_unreadable].
  rewrite (about_alike k _ _ H). destruct (bool_decide (k ∉ _) || _); apply IH; [done|].
  apply Forall2_app; [done|]. by repeat constructor.
Qed.

Lemma told_alike_map instanceId drift drift' :
  Forall2 told_alike drift drift' -> map (told instanceId) drift = map (told instanceId) drift'.
Proof. induction 1 as [|e e' l l' [H _] _ IH]; simpl; [done|]. by rewrite H, IH. Qed.

(** what a member is told of the settings a client has does not depend on
    the password or on any setting of the operator: two documents that differ
    only in these, in the same keys, are told of alike. *)
Theorem withheld_values_are_not_told instanceId expected actual actual' saved d d' :
  parseMccConfig parse expected = Ok saved ->
  parseMccConfig parse actual = Ok d -> parseMccConfig parse actual' = Ok d' ->
  documents_alike saved d d' ->
  exists drift drift',
    compareInstanceConfig parse number_le locale_le expected actual = Ok drift
    /\ compareInstanceConfig parse number_le locale_le expected actual' = Ok drift'
    /\ map (told instanceId) drift = map (told instanceId) drift'.
Proof.
  intros Es Ed Ed' [Hkeys Hsections]. rewrite !compare_spec, Es, Ed, Ed'. cbn [rbind].
  do 2 eexists. do 2 (split; [reflexivity|]). apply told_alike_map. unfold drift_between. apply Forall2_app.
  - replace (List.filter (unreadable_at d) keys) with (List.filter (unreadable_at d') keys).
    + apply push_alike, omap_alike. intros key Hk. apply key_drift_alike; [done|]. by apply Hkeys.
    + apply List.filter_ext_in. intros key Hk. symmetry. apply Hkeys. by apply list_elem_of_In.
  - apply omap_alike. intros section Hs. rewrite (Hsections section Hs).
    destruct (section_size d' section) as [size|]; [|constructor]. destruct (0 <? size)%nat; by repeat constructor.
Qed.
End withheld.

(** ** An empty report *)

Section quiet.
Context {W : Type}.
Variable parse : string -> result Toml.
Variables number_le locale_le : string -> string -> bool.
Variable other_text : Number -> string.
Variable chat_line : string -> bool.
(** A machine that stands still: what it answers depends on the command
    alone. *)
Variable answer : string -> result ExecResult.
Variable reply : Z -> string -> result HttpReply.

Definition still_reader : JournalLease W := MkLease W (fun command => lift (answer command)) (ret tt).
Definition still_post (port : Z) (route _ : string) (_ : list (string * string)) : M W HttpReply :=
  lift (reply port route).

Definition says (command text : string) : Prop := exists r, answer command = Ok r /\ stdout r = text.

(** [m] returns [a] and the machine is as before. *)
Definition gives {A} (m : M W A) (a : A) : Prop := forall w, m w = (Ok a, w).

Definition still {A} (m : M W A) : Prop := (exists a, gives m a) \/ exists e, forall w, m w = (Throw e, w).

Lemma gives_inj {A} (m : M W A) (a b : A) (w : W) : gives m a -> gives m b -> a = b.
Proof. intros Ha Hb. specialize (Ha w). specialize (Hb w). congruence. Qed.

Lemma quiet_ret {A} (a : A) : still (ret a).
Proof. left. by exists a. Qed.

Lemma quiet_lift {A} (r : result A) : still (lift r).
Proof. destruct r as [a|e]; [left; by exists a|right; by exists e]. Qed.

Lemma quiet_throw {A} e : still (throw (A := A) e).
Proof. right. by exists e. Qed.

Lemma quiet_bind {A B} (m : M W A) (k : A -> M W B) : still m -> (forall a, still (k a)) -> still (bind m k).
Proof.
  intros [[a Ha]|[e He]] Hk.
  - destruct (Hk a) as [[b Hb]|[e He]]; [left; exists b|right; exists e]; intros w; unfold bind; by rewrite Ha.
  - right. exists e. intros w. unfold bind. by rewrite He.
Qed.

Lemma quiet_catch {A} (m : M W A) h : still m -> (forall e, still (h e)) -> still (try_catch m h).
Proof.
  intros [[a Ha]|[e He]] Hh.
  - left. exists a. intros w. unfold try_catch. by rewrite Ha.
  - destruct (Hh e) as [[b Hb]|[e' He']]; [left; exists b|right; exists e']; intros w; unfold try_catch; by rewrite He.
Qed.

Lemma quiet_gather {A B} (xs : list A) (body : A -> M W (list B)) :
  (forall x, still (body x)) -> still (gather xs body).
Proof.
  intros H. induction xs as [|x xs IH]; simpl; [apply quiet_ret|].
  apply quiet_bind; [apply H|]. intros more. apply quiet_bind; [exact IH|]. intros others. apply quiet_ret.
Qed.

(** What a sequence of still computations gives. *)
Lemma gives_bind {A B} (m : M W A) (k : A -> M W B) b (w : W) :
  still m -> (gives (bind m k) b <-> exists a, gives m a /\ gives (k a) b).
Proof.
  intros Hm. split.
  - intros H. destruct Hm as [[a Ha]|[e He]].
    + exists a. split; [exact Ha|]. intros w'. specialize (H w'). unfold bind in H. by rewrite Ha in H.
    + specialize (H w). unfold bind in H. by rewrite He in H.
  - intros (a & Ha & Hk) w'. unfold bind. by rewrite Ha.
Qed.

Lemma gives_seq {A B} (m : M W A) (k : A -> M W B) a b : gives m a -> gives (k a) b -> gives (bind m k) b.
Proof. intros Ha Hk w. unfold bind. by rewrite Ha. Qed.

Lemma gives_ret {A} (a b : A) (w : W) : gives (ret a) b <-> a = b.
Proof. split; [intros H; by injection (H w)|by intros ->]. Qed.

Lemma gives_lift {A} (r : result A) (a : A) (w : W) : gives (lift r) a <-> r = Ok a.
Proof. split; [intros H; by injection (H w)|intros ->; done]. Qed.

Lemma gives_gather_nil {A B} (xs : list A) (body : A -> M W (list B)) (w : W) :
  (forall x, still (body x)) -> (gives (gather xs body) [] <-> forall x, x ∈ xs -> gives (body x) []).
Proof.
  intros Hs. induction xs as [|x xs IH]; simpl.
  - rewrite gives_ret by done. split; [by intros _ x Hx%elem_of_nil|done].
  - rewrite gives_bind by done. setoid_rewrite gives_bind; [|done|by apply quiet_gather].
    setoid_rewrite gives_ret; [|done]. split.
    + intros (more & Hm & others & Ho & [-> ->]%app_nil) y [->|Hy]%elem_of_cons; [done|]. by apply IH.
    + intros H. exists []. split; [apply H, list_elem_of_here|]. exists []. split; [|done].
      apply IH. intros y Hy. by apply H, list_elem_of_further.
Qed.

Variable w0 : W.

Lemma gives_gather_each {A B} (xs : list A) (body : A -> M W B) (ys : list B) :
  (forall x, still (body x)) ->
  gives (gather xs (fun x => let* y := body x in ret [y])) ys <-> Forall2 (fun x y => gives (body x) y) xs ys.
Proof.
  intros Hs. assert (Hb : forall x, still (let* y := body x in ret [y]))
    by (intros x; apply quiet_bind; [apply Hs|]; intros y; apply quiet_ret).
  revert ys. induction xs as [|x xs IH]; intros ys; simpl.
  - rewrite gives_ret by exact w0. split; [intros <-; constructor|by inversion 1].
  - rewrite gives_bind by (exact w0 || apply Hb). setoid_rewrite gives_bind; [|exact w0|by apply Hs|exact w0|by apply quiet_gather].
    setoid_rewrite gives_ret; [|exact w0|exact w0]. setoid_rewrite IH. split.
    + intros (more & (y & Hy & <-) & others & Ho & <-). simpl. by constructor.
    + inversion 1 as [|? y ? ys' Hy Hys]; subst. by exists [y]; split; [exists y|exists ys'].
Qed.

Abbreviation reader := still_reader.
Abbreviation observed := (observe_instance chat_line reader).

Lemma quiet_exec command : still (exec reader command).
Proof. apply quiet_lift. Qed.

Hint Resolve quiet_ret quiet_throw quiet_lift quiet_exec : core.

Ltac still := repeat first
  [ progress intros | apply quiet_ret | apply quiet_throw | apply quiet_lift | apply quiet_exec
  | apply quiet_bind | apply quiet_catch | apply quiet_gather | case_match ].

Lemma still_readFile path : still (readFile reader path).
Proof. unfold readFile. still. Qed.

Lemma still_facts imageId : still (readHostFacts reader imageId).
Proof. unfold readHostFacts. still. Qed.

Lemma still_config instanceId : still (readInstanceConfig reader instanceId).
Proof. unfold readInstanceConfig. still. Qed.

Lemma still_observed instance : still (observed instance).
Proof. unfold observe_instance, readUnitExitCode. still. Qed.

Lemma still_listening port : still (listening still_post port).
Proof. unfold listening, probeListening, still_post. still. Qed.

Lemma still_unit unit : still (unit_drift_of reader unit).
Proof. unfold unit_drift_of. apply quiet_bind; [apply still_readFile|]. still. Qed.

Lemma still_config_drift configs instance :
  still (config_drift_of parse number_le locale_le other_text reader configs instance).
Proof. unfold config_drift_of. case_match; [|still]. apply quiet_bind; [apply still_config|]. still. Qed.

Lemma still_env instance : still (unit_env_drift_of reader instance).
Proof.
  unfold unit_env_drift_of. apply quiet_bind; [still|]. intros dir. apply quiet_bind; [apply still_readFile|]. still.
Qed.

Lemma still_silent configs joined instance :
  still (silent_of parse other_text still_post configs joined instance).
Proof. unfold silent_of. still. apply still_listening. Qed.

Lemma observed_id instance f : gives (observed instance) f -> if_id f = in_id instance.
Proof.
  intros H. specialize (H w0). revert H. unfold observe_instance, readUnitExitCode, bind, lift, ret.
  repeat case_match; simplify_eq; try done; by intros [= <-].
Qed.

(** *** What the machine is, by what it answers

    Nothing below calls the comparison: it is told from the answers to single
    commands. *)

(** The names of containers the manager makes: of a bot, and of its sign-in. *)
Definition bot_id (id : string) : Prop :=
  chars_all is_id_char id = true /\ (1 <= String.length id <= 64)%nat.

Definition made_by_the_manager (name : string) : Prop := exists id,
  bot_id id /\ (name = "open-mcc-" +:+ id \/ name = "open-mcc-auth-" +:+ id).

Definition container_of (instance : InstanceRow) (name : string) : Prop :=
  name = "open-mcc-" +:+ in_id instance
  \/ (bot_id (in_id instance) /\ name = "open-mcc-auth-" +:+ in_id instance).

(** The file at [path] holds [text]. *)
Definition holds (path text : string) : Prop :=
  says ("cat " +:+ path +:+ " 2>/dev/null || printf '%s' " +:+ shellQuote MISSING_MARKER) text
  /\ text <> MISSING_MARKER.

Definition service_of (instance : InstanceRow) (service : string) : Prop := exists unit,
  unitName (in_id instance) = Ok unit /\ service = shellQuote (unit +:+ ".service").

(** systemd calls the bot's unit [word]. *)
Definition unit_is (instance : InstanceRow) (word : string) : Prop := exists service text,
  service_of instance service /\ says (systemctl ("is-active " +:+ service) +:+ " || true") text /\ trim text = word.

(** The last lines of the bot's journal. *)
Definition journal_of (instance : InstanceRow) (journal : string) : Prop := exists service,
  service_of instance service
  /\ says (journalctl ("-u " +:+ service +:+ " --lines " +:+ decimal STUCK_SCAN_LINES
                          +:+ " --no-pager --output cat") +:+ " 2>/dev/null || true") journal.

(** A line of the client's own, which is not chat, holds [text]. *)
Definition client_said (journal text : string) : Prop := exists line before after,
  line ∈ split_on NEWLINE journal /\ chat_line line = false /\ line = before +:+ text +:+ after.

(** The client waits for somebody: it said that it gave up, or it met the server
    and did not join it. *)
Definition stuck_client (journal : string) : Prop :=
  client_said journal "Failed to parse the settings file"
  \/ client_said journal "Not connected to any server"
  \/ client_said journal "press Enter to exit Minecraft Console Client"
  \/ (client_said journal "Server version:" /\ ~ client_said journal "Server was successfully joined").

(** A running bot runs, or is about to, and is not stuck; a stopped one does not;
    of another nothing is asked but an answer. *)
Definition in_its_state (instance : InstanceRow) : Prop := exists word,
  unit_is instance word
  /\ match in_status instance with
     | st_running => word = "activating" \/ (word = "active" /\ exists journal, journal_of instance journal /\ ~ stuck_client journal)
     | st_stopped => word = "inactive"
     | _ => in_status instance <> st_running /\ in_status instance <> st_stopped
     end.

Definition has_joined (instance : InstanceRow) : Prop :=
  in_status instance = st_running /\ unit_is instance "active"
  /\ exists journal before after, journal_of instance journal
       /\ journal = before +:+ "Server was successfully joined" +:+ after.

(** The port answers as the live channel does: it asks for a token. *)
Definition live (port : Number) : Prop := exists number r,
  whole_of port = Some number /\ reply number LIVE_CONTROL_ROUTE = Ok r /\ http_status r = 401.

Abbreviation keys := (ALL_KEYS number_le locale_le).

(** Two documents say the same: both are read, each key the manager looks at has
    in the second a value the manager can read and, where the first gives one,
    the same, and the sections that must be empty are. *)
Definition documents_agree (want actual : string) : Prop := exists d1 d2,
  parseMccConfig parse want = Ok d1 /\ parseMccConfig parse actual = Ok d2
  /\ (forall key, key ∈ keys ->
        unreadable_at d2 key = false
        /\ forall value, value_at d1 key = Some value -> sameConfigValue value (value_at d2 key) = true)
  /\ (forall section, section ∈ EMPTIED_CONFIG_SECTIONS ->
        section_size d2 section = None \/ section_size d2 section = Some 0%nat).

Record in_order (unit_runtime : UnitRuntime) (instances : list InstanceRow)
    (expected : list (string * string)) (configs : gmap string string) : Prop := MkInOrder {
  (** the machine says what it has: the right stack, the image, no unit that is
      not expected, and no container of the manager's but of its bots *)
  order_facts : exists r facts, answer (reconcileFactsCommand (ur_imageId unit_runtime)) = Ok r /\ exitCode r = 0
    /\ facts_read (stdout r) facts
    /\ requiredStackFor (major (fact_podman facts)) = ur_networkStack unit_runtime
    /\ fact_imageExists facts = true
    /\ (forall unit, unit ∈ fact_units facts -> unit ∈ map fst expected)
    /\ (forall name, name ∈ fact_containers facts -> made_by_the_manager name ->
          exists instance, instance ∈ instances /\ container_of instance name);
  (** every unit file is what it should be *)
  order_units : forall unit, unit ∈ expected -> holds (UNIT_DIR +:+ "/" +:+ shellQuote unit.1) unit.2;
  (** every bot is in the state it should be in *)
  order_states : forall instance, instance ∈ instances -> in_its_state instance;
  (** every client has its document and its port *)
  order_configs : forall instance want, instance ∈ instances -> configs !! in_id instance = Some want ->
    exists dir actual, instanceDir (in_id instance) = Ok dir
      /\ says ("cat " +:+ dir +:+ "/" +:+ CONFIG_FILE_PATH +:+ " 2>/dev/null || true") actual
      /\ trim actual <> EmptyString /\ documents_agree want actual;
  order_env : forall instance, instance ∈ instances ->
    exists dir want, instanceDir (in_id instance) = Ok dir /\ renderUnitEnv (in_liveControlPort instance) = Ok want
      /\ holds (dir +:+ "/" +:+ layout_unitEnv) want;
  (** every client that has joined and should answer on its port does *)
  order_live : forall instance other document, instance ∈ instances -> other ∈ instances ->
    in_id other = in_id instance -> has_joined other -> configs !! in_id instance = Some document ->
    exists reading, readMccConfigKeys parse document live_keys = Ok reading
      /\ forall port, values reading !! "ChatBot.McpServer.Enabled" = Some (c_scalar (c_flag true)) ->
           values reading !! "ChatBot.McpServer.Transport.Port" = Some (c_scalar (c_number port)) -> live port }.

(** *** The program's readings are these *)

Lemma gives_at {A} (m : M W A) a : still m -> (gives m a <-> exists w, m w0 = (Ok a, w)).
Proof.
  intros Hm. split; [intros H; exists w0; apply H|]. intros (w & E). destruct Hm as [[b Hb]|[e He]].
  - specialize (Hb w0) as Hb0. rewrite E in Hb0. by injection Hb0 as ->.
  - by rewrite He in E.
Qed.

Lemma gives_file path text : gives (readFile reader path) (Some text) <-> holds path text.
Proof.
  unfold readFile, holds, says. rewrite gives_bind by (exact w0 || still). setoid_rewrite gives_ret; [|exact w0].
  setoid_rewrite gives_lift; [|exact w0]. split.
  - intros (r & Hr & E). case_bool_decide; [done|]. injection E as <-. split; [by exists r|done].
  - intros ((r & Hr & <-) & Hn). exists r. by rewrite bool_decide_eq_false_2.
Qed.

Lemma gives_facts imageId facts :
  gives (readHostFacts reader imageId) facts
  <-> exists r, answer (reconcileFactsCommand imageId) = Ok r /\ exitCode r = 0 /\ facts_read (stdout r) facts.
Proof.
  unfold readHostFacts. rewrite gives_bind by (exact w0 || still). setoid_rewrite gives_lift; [|exact w0].
  setoid_rewrite <- facts_are_the_whole_answer. split.
  - intros (r & Hr & H). exists r. destruct (Z.eqb_spec (exitCode r) 0) as [E|]; cbn [negb] in H; [|by specialize (H w0)].
    destruct (parseReconcileFacts (stdout r)) as [found|] eqn:Ep; [|by specialize (H w0)].
    apply gives_ret in H; [|exact w0]. by subst.
  - intros (r & Hr & E & Hp). exists r. split; [done|]. rewrite E, Hp. by apply gives_ret.
Qed.

Lemma gives_live port : gives (listening still_post port) true <-> live port.
Proof.
  pose proof (still_listening port) as Hs. unfold listening, live in *. destruct (whole_of port) as [number|].
  - rewrite gives_at by exact Hs. unfold probeListening, still_post, try_catch, bind, lift, ret.
    destruct (reply number LIVE_CONTROL_ROUTE) as [r|e] eqn:Er.
    + destruct (Z.eqb_spec (http_status r) 401); split.
      * intros _. by exists number, r.
      * intros _. by exists w0.
      * by intros (w & [= ?]).
      * intros (? & ? & [= <-] & Er' & ?). rewrite Er in Er'. by injection Er' as <-.
    + split; [|intros (? & ? & [= <-] & Er' & _); by rewrite Er in Er']. intros (w & E). by destruct (interrupted e).
  - split; [intros H; specialize (H w0); by injection H|by intros (? & ? & ? & _)].
Qed.

(** The lines a text is in, when the text is on one line. *)
Lemma includes_join text lines :
  free_of NEWLINE text = true -> text <> EmptyString ->
  includes text (join_with newline lines) = true <-> exists line, line ∈ lines /\ includes text line = true.
Proof.
  intros Hf Hne.
  assert (Hstart : forall rest tail, text +:+ rest <> String NEWLINE tail).
  { intros rest tail E. destruct text as [|c text]; [done|]. rewrite string_app_cons in E. injection E as -> _.
    unfold free_of in Hf. by simpl in Hf. }
  induction lines as [|line [|next lines] IH].
  - split; [|by intros (? & ?%elem_of_nil & _)]. intros (a & b & E)%includes_iff. by destruct a, text.
  - split; [intros H; exists line; split; [apply list_elem_of_here|done]|].
    by intros (l & [->|Hn%elem_of_nil]%elem_of_cons & H).
  - set (others := next :: lines) in *.
    change (join_with newline (line :: others)) with (line +:+ (newline +:+ join_with newline others)).
    split.
    + intros (a & b & E)%includes_iff. apply string_app_eq_app in E as [(e & -> & E)|(e & -> & E)].
      * apply string_app_eq_app in E as [(f & -> & E)|(f & -> & E)].
        -- exists (a +:+ e). split; [apply list_elem_of_here|]. destruct f as [|c f].
           ++ rewrite string_app_nil_r in *. apply includes_iff. exists a, "". by rewrite string_app_nil_r.
           ++ exfalso. rewrite string_app_cons in E. injection E as <- _. unfold free_of in Hf.
              rewrite chars_all_app in Hf. simpl in Hf. rewrite andb_false_r in Hf. done.
        -- exists (a +:+ (text +:+ f)). split; [apply list_elem_of_here|]. apply includes_iff. by exists a, f.
      * destruct e as [|c e]; [exfalso; by apply (Hstart b (join_with newline others))|]. rewrite string_app_cons in E. injection E as _ E.
        destruct (proj1 IH) as (l & Hl & Hi); [apply includes_iff; by exists e, b|].
        exists l. split; [by apply list_elem_of_further|done].
    + intros (l & [->|Hl]%elem_of_cons & Hi).
      * apply includes_iff in Hi as (a & b & ->). apply includes_iff. exists a, (b +:+ (newline +:+ join_with newline others)).
        by rewrite !string_app_assoc.
      * destruct (proj1 (includes_iff _ _) (proj2 IH (ex_intro _ l (conj Hl Hi)))) as (a & b & E). rewrite E.
        apply includes_iff. exists (line +:+ (newline +:+ a)), b. by rewrite !string_app_assoc.
Qed.

Lemma client_said_iff journal text :
  free_of NEWLINE text = true -> text <> EmptyString ->
  includes text (clientEmittedLines chat_line journal) = true <-> client_said journal text.
Proof.
  intros Hf Hne. unfold clientEmittedLines, client_said. rewrite includes_join by done. split.
  - intros (line & Hl & (before & after & E)%includes_iff). apply list_elem_of_In, filter_In in Hl as [Hl Hc].
    exists line, before, after. split; [by apply list_elem_of_In|]. split; [by apply negb_true_iff|done].
  - intros (line & before & after & Hl & Hc & E). exists line. split; [|apply includes_iff; by exists before, after].
    apply list_elem_of_In, filter_In. split; [by apply list_elem_of_In|by rewrite Hc].
Qed.

Lemma stuck_iff journal : looksStuck chat_line journal = true <-> stuck_client journal.
Proof.
  unfold looksStuck, stuck_client. cbv zeta. rewrite <- !client_said_iff by done.
  set (own := clientEmittedLines chat_line journal). cbn [existsb STUCK_MARKERS]. rewrite orb_false_r.
  destruct (includes "Failed to parse the settings file" own); [split; [by left|done]|].
  destruct (includes "Not connected to any server" own); [split; [by right; left|done]|].
  destruct (includes "press Enter to exit Minecraft Console Client" own); [split; [by right; right; left|done]|].
  simpl. rewrite andb_true_iff, negb_true_iff, not_true_iff_false.
  split; [intros H; by do 3 right|by intros [|[|[|H]]]].
Qed.

Lemma span_whole p value rest : span p value = (rest, EmptyString) <-> rest = value /\ chars_all p value = true.
Proof.
  split.
  - intros E. pose proof (span_app p value) as H. pose proof (span_all p value) as Ha. rewrite E in H, Ha.
    cbn [fst snd] in *. rewrite string_app_nil_r in H. by subst.
  - intros [-> H]. induction value as [|c value IH]; [done|]. simpl in *. apply andb_true_iff in H as [-> H].
    by rewrite IH.
Qed.

Lemma bot_id_iff rest :
  (let? rest' := id_run 1 rest in if rest' ≡? EmptyString then Some rest else None) = Some rest <-> bot_id rest.
Proof.
  unfold id_run, bot_id. destruct (span is_id_char rest) as [id rest'] eqn:E.
  destruct ((1 <=? String.length id)%nat && (String.length id <=? 64)%nat) eqn:Hl.
  - destruct (decide (rest' = EmptyString)) as [->|Hne]; [rewrite bool_decide_eq_true_2 by done|rewrite bool_decide_eq_false_2 by done].
    + apply span_whole in E as [-> Hc]. split; [|done]. intros _. split; [done|].
      apply andb_true_iff in Hl as [H1%Nat.leb_le H2%Nat.leb_le]. lia.
    + split; [done|]. intros [Hc _]. pose proof (proj2 (span_whole is_id_char rest rest) (conj eq_refl Hc)) as E'. congruence.
  - split; [done|]. intros [Hc Hlen]. pose proof (proj2 (span_whole is_id_char rest rest) (conj eq_refl Hc)) as E'.
    assert (id = rest) as -> by congruence. apply andb_false_iff in Hl as [H%Nat.leb_gt|H%Nat.leb_gt]; lia.
Qed.

Definition id_after (kind name : string) : option string :=
  let? rest := after ("open-mcc-" +:+ kind) name in
  let? rest' := id_run 1 rest in if rest' ≡? EmptyString then Some rest else None.

Lemma id_after_iff kind name id : id_after kind name = Some id <-> bot_id id /\ name = "open-mcc-" +:+ kind +:+ id.
Proof.
  unfold id_after, after. rewrite <- bot_id_iff. split.
  - destruct (startsWith _ name) eqn:E; [|done]. apply starts_iff in E as [rest ->].
    rewrite <- (Nat.add_0_r (String.length _)), slice_from_app. cbn [slice_from]. intros H.
    assert (rest = id) as <-.
    { destruct (id_run 1 rest) as [rest'|]; [|done]. destruct (rest' ≡? EmptyString); [by injection H|done]. }
    split; [exact H|]. by rewrite string_app_assoc.
  - intros [H ->]. rewrite <- string_app_assoc, startsWith_part, <- (Nat.add_0_r (String.length _)), slice_from_app. exact H.
Qed.

Lemma managed_container_iff name :
  managed_container_id name = match id_after "auth-" name with Some id => Some id | None => id_after EmptyString name end.
Proof. reflexivity. Qed.

Lemma known_iff instances id : known_bot instances id = true <-> exists instance, instance ∈ instances /\ in_id instance = id.
Proof.
  unfold known_bot. rewrite bool_decide_eq_true, list_elem_of_fmap. split; intros (instance & H1 & H2); exists instance; by split.
Qed.

Lemma leftover_none names instances :
  leftoverContainers names instances = []
  <-> forall name, name ∈ names -> made_by_the_manager name -> exists instance, instance ∈ instances /\ container_of instance name.
Proof.
  assert (Hone : forall name,
    match managed_container_id name with
    | None => false
    | Some id => negb (known_bot instances id) && negb (known_bot instances (slice_from 9 name))
    end = false
    <-> (made_by_the_manager name -> exists instance, instance ∈ instances /\ container_of instance name)).
  { intros name. rewrite managed_container_iff. destruct (id_after "auth-" name) as [id|] eqn:Ea.
    - apply id_after_iff in Ea as [Hid ->]. rewrite andb_false_iff, !negb_false_iff, !known_iff. split.
      + intros [(i & Hi & E)|(i & Hi & E)] _; exists i; (split; [done|]); unfold container_of.
        * right. by subst.
        * left. by rewrite E.
      + intros H. destruct H as (i & Hi & Hc); [by exists id; split; [done|right]|].
        destruct Hc as [E|[_ E]]; [right|left]; exists i; (split; [done|]).
        * by apply (string_app_inj_l "open-mcc-").
        * symmetry. by apply (string_app_inj_l "open-mcc-auth-").
    - assert (Ha : forall id, bot_id id -> name <> "open-mcc-auth-" +:+ id).
      { intros id Hid ->. by rewrite (proj2 (id_after_iff "auth-" ("open-mcc-auth-" +:+ id) id)) in Ea. }
      destruct (id_after "" name) as [id|] eqn:En.
      + apply id_after_iff in En as [Hid ->]. change (slice_from 9 ("open-mcc-" +:+ "" +:+ id)) with id.
        rewrite andb_diag, negb_false_iff, known_iff. split.
        * intros (i & Hi & <-) _. exists i. split; [done|]. by left.
        * intros H. destruct H as (i & Hi & Hc); [by exists id; split; [done|left]|]. exists i. split; [done|].
          destruct Hc as [E|[Hb E]]; [symmetry; by apply (string_app_inj_l "open-mcc-")|]. by apply Ha in E.
      + split; [|done]. intros _ (id & Hid & [->|E]); [|by apply Ha in E].
        by rewrite (proj2 (id_after_iff "" ("open-mcc-" +:+ id) id)) in En. }
  unfold leftoverContainers. split.
  - intros H name Hn. apply Hone. destruct (match _ with Some _ => _ | None => _ end) eqn:E; [|done].
    assert (Hin : In name []); [|done]. rewrite <- H. apply filter_In. split; [by apply list_elem_of_In|exact E].
  - intros H. apply filter_none. intros name Hn. apply Hone, H. by apply list_elem_of_In.
Qed.

(** What is found of a bot, by the word and the journal it answers. *)
Lemma says_inj command a b : says command a -> says command b -> a = b.
Proof. intros (r & Hr & <-) (r' & Hr' & <-). congruence. Qed.

Lemma state_of_word text :
  parseObservedState text
  = if decide (trim text = "active") then o_active
    else if decide (trim text = "inactive") then o_inactive
    else if decide (trim text = "failed") then o_failed
    else if decide (trim text = "activating") then o_activating else o_unknown.
Proof.
  unfold parseObservedState. cbn [find OBSERVED_STATES fst].
  repeat (let H := fresh in case_decide as H; [rewrite H; reflexivity|rewrite bool_decide_eq_false_2 by congruence]).
  reflexivity.
Qed.

Lemma active_word text : parseObservedState text = o_active <-> trim text = "active".
Proof. rewrite state_of_word. split; [|intros ->; reflexivity]. repeat case_decide; done. Qed.

Lemma unit_is_iff instance service text word :
  service_of instance service -> says (systemctl ("is-active " +:+ service) +:+ " || true") text ->
  (unit_is instance word <-> trim text = word).
Proof.
  intros (unit & Hu & Hs) Ht. split; [|intros H; exists service, text; split; [by exists unit|done]].
  intros (service' & text' & (unit' & Hu' & Hs') & Ht' & <-). assert (service' = service) as -> by congruence.
  by rewrite (says_inj _ _ _ Ht Ht').
Qed.

Lemma journal_of_iff instance service journal journal' :
  service_of instance service ->
  says (journalctl ("-u " +:+ service +:+ " --lines " +:+ decimal STUCK_SCAN_LINES
                      +:+ " --no-pager --output cat") +:+ " 2>/dev/null || true") journal ->
  (journal_of instance journal' <-> journal' = journal).
Proof.
  intros (unit & Hu & Hs) Hj. split; [|intros ->; exists service; split; [by exists unit|done]].
  intros (service' & (unit' & Hu' & Hs') & Hj'). assert (service' = service) as -> by congruence. by eapply says_inj.
Qed.

(** The two questions to a bot, and what is made of the answers. *)
Lemma observed_iff instance f :
  gives (observed instance) f
  <-> exists service text, service_of instance service
      /\ says (systemctl ("is-active " +:+ service) +:+ " || true") text
      /\ exists seen,
         (if decide (trim text = "active" /\ in_status instance = st_running)
          then exists journal, journal_of instance journal
                 /\ seen = (if looksStuck chat_line journal then o_stuck else o_active,
                            includes JOINED_MARKER journal, playerNameFrom journal)
          else seen = (parseObservedState text, false, None))
         /\ gives (let '(observed, hasJoined, player) := seen in
                   if desiredStateIsSatisfied (in_status instance) observed
                   then ret (MkFinding (in_id instance) None hasJoined player None)
                   else
                     let* failure :=
                       (if (in_status instance ≡? st_running) && (observed ≡? o_failed)
                        then let* code := readUnitExitCode reader (in_id instance) in ret (Some code) else ret None) in
                     ret (MkFinding (in_id instance) (Some (MkStateDrift (in_id instance) (in_status instance) observed)) hasJoined player failure))
                  f.
Proof.
  unfold observe_instance. split.
  - intros (unit & Hu & H)%gives_bind; [|exact w0|still]. apply gives_lift in Hu; [|exact w0]. cbv zeta in H.
    apply gives_bind in H as (r & Hr & H); [|exact w0|still]. apply gives_lift in Hr; [|exact w0].
    set (service := shellQuote (unit +:+ ".service")) in *.
    exists service, (stdout r). split; [by exists unit|]. split; [by exists r|].
    apply gives_bind in H as (seen & Hseen & H); [|exact w0|still]. exists seen. split; [|exact H].
    destruct (decide (trim (stdout r) = "active")) as [Ea|Ea].
    + rewrite (proj2 (active_word _) Ea) in *. destruct (decide (in_status instance = st_running)) as [Es|Es].
      * rewrite decide_True by done. rewrite !bool_decide_eq_true_2 in Hseen by done. cbn [andb] in Hseen.
        apply gives_bind in Hseen as (j & Hj & Hseen); [|exact w0|still]. apply gives_lift in Hj; [|exact w0].
        apply gives_ret in Hseen; [|exact w0]. exists (stdout j). split; [|by rewrite <- Hseen].
        exists service. split; [by exists unit|by exists j].
      * rewrite decide_False by tauto. rewrite (bool_decide_eq_false_2 (in_status instance = st_running)), andb_false_r in Hseen by done.
        apply gives_ret in Hseen; [|exact w0]. by subst.
    + rewrite decide_False by tauto. rewrite bool_decide_eq_false_2 in Hseen by (by rewrite active_word). cbn [andb] in Hseen.
      apply gives_ret in Hseen; [|exact w0]. by subst.
  - intros (service & text & (unit & Hu & ->) & (r & Hr & <-) & seen & Hseen & H).
    eapply gives_seq; [by apply gives_lift|]. cbv zeta. eapply gives_seq; [by apply gives_lift|].
    eapply gives_seq; [|exact H]. destruct (decide (trim (stdout r) = "active")) as [Ea|Ea].
    + rewrite (proj2 (active_word _) Ea) in *. destruct (decide (in_status instance = st_running)) as [Es|Es].
      * rewrite decide_True in Hseen by done. destruct Hseen as (journal & (service' & (unit' & Hu' & ->) & (j & Hj & <-)) & ->).
        assert (unit' = unit) as -> by congruence. rewrite !bool_decide_eq_true_2 by done. cbn [andb].
        eapply gives_seq; [by apply gives_lift|]. by apply gives_ret.
      * rewrite decide_False in Hseen by tauto. rewrite (bool_decide_eq_false_2 (in_status instance = st_running)), andb_false_r by done.
        subst. by apply gives_ret.
    + rewrite decide_False in Hseen by tauto. rewrite bool_decide_eq_false_2 by (by rewrite active_word). cbn [andb].
      subst. by apply gives_ret.
Qed.

Lemma finding_fits instance observed hasJoined player f :
  gives (if desiredStateIsSatisfied (in_status instance) observed
         then ret (MkFinding (in_id instance) None hasJoined player None)
         else
           let* failure :=
             (if (in_status instance ≡? st_running) && (observed ≡? o_failed)
              then let* code := readUnitExitCode reader (in_id instance) in ret (Some code) else ret None) in
           ret (MkFinding (in_id instance) (Some (MkStateDrift (in_id instance) (in_status instance) observed)) hasJoined player failure)) f ->
  if_joined f = hasJoined /\ (if_state f = None <-> desiredStateIsSatisfied (in_status instance) observed = true).
Proof.
  destruct (desiredStateIsSatisfied _ _).
  - intros <-%gives_ret; [done|exact w0].
  - intros (failure & _ & H)%gives_bind; [|exact w0|unfold readUnitExitCode; still].
    apply gives_ret in H; [|exact w0]. by subst.
Qed.

(** In the state it should be in, as far as the words go. *)
Lemma satisfied_iff status text (stuck : bool) :
  desiredStateIsSatisfied status
    (if decide (trim text = "active" /\ status = st_running) then (if stuck then o_stuck else o_active) else parseObservedState text) = true
  <-> match status with
      | st_running => trim text = "activating" \/ (trim text = "active" /\ stuck = false)
      | st_stopped => trim text = "inactive"
      | _ => status <> st_running /\ status <> st_stopped
      end.
Proof.
  destruct (decide (trim text = "active" /\ status = st_running)) as [[E ->]|Hn].
  - rewrite E. destruct stuck; cbn; (split; [try done|try done]); [by intros [|[_ ?]]|by intros _; right].
  - rewrite state_of_word. destruct status; unfold desiredStateIsSatisfied.
    all: destruct (decide (trim text = "active")) as [Ea|Ea]; [|destruct (decide (trim text = "inactive")) as [Ei|Ei];
           [|destruct (decide (trim text = "failed")) as [Ef|Ef]; [|destruct (decide (trim text = "activating")) as [Eg|Eg]]]].
    all: cbn; split; try done; try (intros _; congruence); try (by left); try (by intros [|[]]); intros; exfalso; intuition congruence.
Qed.

Lemma observed_in_state instance :
  (exists f, gives (observed instance) f /\ if_state f = None) <-> in_its_state instance.
Proof.
  unfold in_its_state. split.
  - intros (f & (service & text & Hs & Ht & [[o joined] player] & Hseen & Hf)%observed_iff & Hn).
    apply finding_fits in Hf as [_ Hf]. apply Hf in Hn. clear Hf. exists (trim text). split; [by exists service, text|].
    case_decide as Hd.
    + destruct Hseen as (journal & Hj & [= -> -> ->]).
      pose proof (satisfied_iff (in_status instance) text (looksStuck chat_line journal)) as H. rewrite decide_True in H by done.
      apply H in Hn. destruct Hd as [_ Er]. rewrite Er in *. destruct Hn as [Hn|[Hn Hk]]; [by left|right]. split; [done|]. exists journal.
      split; [done|]. rewrite <- stuck_iff. congruence.
    + injection Hseen as -> _ _. pose proof (satisfied_iff (in_status instance) text false) as H. rewrite decide_False in H by done.
      apply H in Hn. destruct (in_status instance); try done. left. destruct Hn as [Hn|[Hn _]]; [done|by destruct Hd].
  - intros (word & (service & text & Hs & Ht & <-) & Hw).
    assert (Hok : exists seen,
      (if decide (trim text = "active" /\ in_status instance = st_running)
       then exists journal, journal_of instance journal
              /\ seen = (if looksStuck chat_line journal then o_stuck else o_active, includes JOINED_MARKER journal, playerNameFrom journal)
       else seen = (parseObservedState text, false, None))
      /\ desiredStateIsSatisfied (in_status instance) seen.1.1 = true).
    { case_decide as Hd.
      - destruct Hd as [Ea Er]. rewrite Er in Hw. destruct Hw as [Hw|(_ & journal & Hj & Hns)]; [congruence|].
        assert (Hl : looksStuck chat_line journal = false) by (apply not_true_iff_false; by rewrite stuck_iff).
        eexists. split; [by exists journal|]. cbn [fst]. by rewrite Hl, Er.
      - eexists. split; [reflexivity|]. cbn [fst].
        pose proof (satisfied_iff (in_status instance) text false) as H. rewrite decide_False in H by done. apply H.
        destruct (in_status instance); try done. destruct Hw as [Hw|[Hw _]]; [by left|by destruct Hd]. }
    destruct Hok as ([[o joined] player] & Hseen & Hsat). cbn [fst] in Hsat.
    exists (MkFinding (in_id instance) None joined player None). split; [|done]. apply observed_iff.
    exists service, text. split; [done|]. split; [done|]. exists (o, joined, player). split; [exact Hseen|].
    rewrite Hsat. by apply gives_ret.
Qed.

Lemma observed_joined instance :
  (exists f, gives (observed instance) f /\ if_joined f = true) <-> has_joined instance.
Proof.
  unfold has_joined. split.
  - intros (f & (service & text & Hs & Ht & [[o joined] player] & Hseen & Hf)%observed_iff & Hn).
    apply finding_fits in Hf as [Hf _]. rewrite Hn in Hf. subst joined. case_decide as Hd; [|done].
    destruct Hd as [Ea Er]. destruct Hseen as (journal & Hj & [= _ Hi _]). split; [done|]. split; [by exists service, text|].
    symmetry in Hi. apply includes_iff in Hi as (before & after & Hi). by exists journal, before, after.
  - intros (Er & (service & text & Hs & Ht & Ea) & journal & before & after & Hj & Hi).
    assert (Hin : includes JOINED_MARKER journal = true) by (apply includes_iff; by exists before, after).
    set (o := if looksStuck chat_line journal then o_stuck else o_active).
    exists (MkFinding (in_id instance)
              (if desiredStateIsSatisfied (in_status instance) o then None else Some (MkStateDrift (in_id instance) (in_status instance) o))
              true (playerNameFrom journal) None).
    split; [|done]. apply observed_iff. exists service, text. split; [done|]. split; [done|]. exists (o, true, playerNameFrom journal).
    rewrite decide_True by done. split; [exists journal; by rewrite Hin|].
    destruct (desiredStateIsSatisfied _ o); [by apply gives_ret|].
    replace (o ≡? o_failed) with false by (unfold o; by destruct (looksStuck _ _)). rewrite andb_false_r.
    eapply gives_seq; by apply gives_ret.
Qed.

(** *** Each part of the report *)

Lemma unit_in_order unit :
  gives (unit_drift_of reader unit) [] <-> holds (UNIT_DIR +:+ "/" +:+ shellQuote unit.1) unit.2.
Proof.
  rewrite <- gives_file. unfold unit_drift_of. rewrite gives_bind by (exact w0 || apply still_readFile).
  setoid_rewrite gives_ret; [|exact w0].
  split; [|intros H; exists (Some unit.2); by rewrite bool_decide_eq_true_2].
  intros ([contents|] & H & E); [|done]. by case_bool_decide; subst.
Qed.

Lemma config_in_order configs instance :
  gives (config_drift_of parse number_le locale_le other_text reader configs instance) []
  <-> forall want, configs !! in_id instance = Some want ->
        exists dir actual, instanceDir (in_id instance) = Ok dir
          /\ says ("cat " +:+ dir +:+ "/" +:+ CONFIG_FILE_PATH +:+ " 2>/dev/null || true") actual
          /\ trim actual <> EmptyString /\ documents_agree want actual.
Proof.
  unfold config_drift_of, documents_agree. destruct (configs !! in_id instance) as [want|]; [|by split].
  setoid_rewrite <- no_drift_iff. unfold readInstanceConfig. split.
  - intros H want' [= <-]. apply gives_bind in H as (actual & Ha & E); [|exact w0|apply still_config].
    apply gives_ret in E; [|exact w0]. destruct actual as [actual|]; [|done].
    apply gives_bind in Ha as (dir & Hd & Ha); [|exact w0|still]. apply gives_lift in Hd; [|exact w0].
    apply gives_bind in Ha as (r & Hr & Ha); [|exact w0|still]. apply gives_lift in Hr; [|exact w0].
    apply gives_ret in Ha; [|exact w0]. case_bool_decide as Ht; [done|]. injection Ha as <-.
    exists dir, (stdout r). split; [done|]. split; [by exists r|]. split; [done|].
    destruct (compareInstanceConfig _ _ _ want (stdout r)) as [[|]|]; done.
  - intros H. destruct (H want eq_refl) as (dir & actual & Hd & (r & Hr & <-) & Ht & E).
    eapply gives_seq.
    + eapply gives_seq; [by apply gives_lift|]. eapply gives_seq; [by apply gives_lift|].
      rewrite bool_decide_eq_false_2 by done. by apply gives_ret.
    + cbn. rewrite E. by apply gives_ret.
Qed.

Lemma env_in_order instance :
  gives (unit_env_drift_of reader instance) []
  <-> exists dir want, instanceDir (in_id instance) = Ok dir /\ renderUnitEnv (in_liveControlPort instance) = Ok want
        /\ holds (dir +:+ "/" +:+ layout_unitEnv) want.
Proof.
  setoid_rewrite <- gives_file. unfold unit_env_drift_of. split.
  - intros (dir & Hd & H)%gives_bind; [|exact w0|still]. exists dir.
    apply gives_bind in H as (actual & Ha & H); [|exact w0|apply still_readFile].
    apply gives_bind in H as (want & Hw & H); [|exact w0|still]. exists want.
    apply gives_lift in Hd, Hw; [|exact w0..]. apply gives_ret in H; [|exact w0].
    split_and!; [done|done|]. case_bool_decide; [by subst|done].
  - intros (dir & want & Hd & Hw & Ha) w. unfold bind, lift. rewrite Hd, (Ha w), Hw.
    by rewrite bool_decide_eq_true_2.
Qed.

Lemma live_in_order configs joined instance :
  gives (silent_of parse other_text still_post configs joined instance) []
  <-> forall document, in_id instance ∈ joined -> configs !! in_id instance = Some document ->
        exists reading, readMccConfigKeys parse document live_keys = Ok reading
          /\ forall port, values reading !! "ChatBot.McpServer.Enabled" = Some (c_scalar (c_flag true)) ->
               values reading !! "ChatBot.McpServer.Transport.Port" = Some (c_scalar (c_number port)) -> live port.
Proof.
  setoid_rewrite <- gives_live. unfold silent_of. case_bool_decide as Hj; [by split|].
  assert (Hj' : in_id instance ∈ joined) by (by destruct (decide (in_id instance ∈ joined))).
  destruct (configs !! in_id instance) as [document|]; [|by split].
  rewrite gives_bind by (exact w0 || still). setoid_rewrite gives_lift; [|exact w0]. split.
  - intros (reading & Hr & H) document' _ [= <-]. exists reading. split; [done|]. intros port E1 E2.
    rewrite E1, E2, gives_bind in H by (exact w0 || apply still_listening). destruct H as (answers & Ha & E).
    apply gives_ret in E; [|exact w0]. by destruct answers.
  - intros H. destruct (H document Hj' eq_refl) as (reading & Hr & Hp). exists reading. split; [done|].
    repeat case_match; try by apply gives_ret. subst.
    rewrite gives_bind by (exact w0 || apply still_listening). exists true. split; [by apply Hp|]. by apply gives_ret.
Qed.

Definition nothing : Reconciliation := MkReconciliation false [] [] [].

Lemma findings_in_order instances findings :
  Forall2 (fun instance f => gives (observed instance) f) instances findings ->
  omap if_state findings = []
  <-> forall instance, instance ∈ instances -> in_its_state instance.
Proof.
  intros Hf. setoid_rewrite <- observed_in_state. rewrite omap_nil. split.
  - intros H instance Hi. apply list_elem_of_lookup in Hi as [n Hn].
    destruct (Forall2_lookup_l _ _ _ _ _ Hf Hn) as (f & Hf' & Hg). exists f. split; [done|].
    apply H. by eapply list_elem_of_lookup_2.
  - intros H f Hin. apply list_elem_of_lookup in Hin as [n Hn].
    destruct (Forall2_lookup_r _ _ _ _ _ Hf Hn) as (instance & Hi & Hg).
    destruct (H instance) as (f' & Hg' & E); [by eapply list_elem_of_lookup_2|].
    by rewrite (gives_inj _ _ _ w0 Hg Hg').
Qed.

Lemma joined_in_order instances findings id :
  Forall2 (fun instance f => gives (observed instance) f) instances findings ->
  id ∈ map if_id (List.filter if_joined findings)
  <-> exists other, other ∈ instances /\ in_id other = id /\ has_joined other.
Proof.
  intros Hf. setoid_rewrite <- observed_joined. rewrite list_elem_of_In, in_map_iff. setoid_rewrite filter_In. setoid_rewrite <- list_elem_of_In. split.
  - intros (f & <- & Hin & Hj). apply list_elem_of_lookup in Hin as [n Hn].
    destruct (Forall2_lookup_r _ _ _ _ _ Hf Hn) as (other & Ho & Hg). exists other. split_and!; [..|by exists f].
    + by eapply list_elem_of_lookup_2.
    + by rewrite (observed_id _ _ Hg).
  - intros (other & Ho & <- & f & Hg & Hj). apply list_elem_of_lookup in Ho as [n Hn].
    destruct (Forall2_lookup_l _ _ _ _ _ Hf Hn) as (f' & Hf' & Hg').
    rewrite <- (gives_inj _ _ _ w0 Hg Hg') in Hf'. exists f. split_and!; [by apply observed_id| |done].
    by eapply list_elem_of_lookup_2.
Qed.

Lemma unexpected_in_order (expected : list (string * string)) units leftover :
  map (pair u_unexpected) (List.filter (fun name => negb (map_has name expected)) units ++ leftover) = []
  <-> (forall unit, unit ∈ units -> unit ∈ map fst expected) /\ leftover = [].
Proof.
  assert (Hmap : forall l : list string, map (pair u_unexpected) l = [] <-> l = []) by (by intros []).
  rewrite Hmap, app_nil. apply and_iff_compat_r. split.
  - intros H unit Hu. destruct (decide (unit ∈ map fst expected)) as [|Hn]; [done|]. exfalso.
    assert (Hin : In unit []); [|done]. rewrite <- H. apply filter_In. split; [by apply list_elem_of_In|].
    apply negb_true_iff. by apply bool_decide_eq_false.
  - intros H. apply filter_none. intros unit Hu. apply negb_false_iff, bool_decide_eq_true, H.
    by apply list_elem_of_In.
Qed.

Abbreviation reconcile := (reconcileHostOverTransport parse number_le locale_le other_text chat_line reader still_post).

Lemma report_empty_then unit_runtime instances expected configs seen failed :
  gives (reconcile unit_runtime instances expected configs) (MkObservation nothing seen failed) ->
  in_order unit_runtime instances expected configs.
Proof.
  unfold reconcileHostOverTransport.
  intros (facts & Hfacts & H)%gives_bind; [|exact w0|apply still_facts]. apply gives_facts in Hfacts as (r & Hr & Hx & Hread).
  apply gives_bind in H as (ofUnits & HU & H); [|exact w0|apply quiet_gather, still_unit].
  apply gives_bind in H as (findings & HF & H);
    [|exact w0|apply quiet_gather; intros i; apply quiet_bind; [apply still_observed|]; still].
  apply gives_bind in H as (ofConfig & HC & H); [|exact w0|apply quiet_gather, still_config_drift].
  apply gives_bind in H as (ofEnv & HE & H); [|exact w0|apply quiet_gather, still_env].
  apply gives_bind in H as (silent & HS & H); [|exact w0|apply quiet_gather, still_silent].
  apply gives_ret in H; [|exact w0]. injection H as Hstack HU0 HF0 HC0 _ _.
  apply app_nil in HU0 as [-> [Hun Himg]%app_nil]. apply app_nil in HC0 as [-> [-> ->]%app_nil].
  apply gives_gather_each in HF; [|apply still_observed].
  pose proof (proj1 (gives_gather_nil _ _ w0 still_unit) HU) as HU'.
  pose proof (proj1 (gives_gather_nil _ _ w0 (still_config_drift _)) HC) as HC'.
  pose proof (proj1 (gives_gather_nil _ _ w0 still_env) HE) as HE'.
  pose proof (proj1 (gives_gather_nil _ _ w0 (still_silent _ _)) HS) as HS'.
  apply unexpected_in_order in Hun as [Hunits Hleft]. constructor.
  - exists r, facts. split_and!; try done; [by apply negb_false_iff, bool_decide_eq_true in Hstack| |by apply leftover_none].
    by destruct (fact_imageExists facts).
  - intros unit Hu. by apply unit_in_order, HU'.
  - by apply (findings_in_order _ _ HF).
  - intros instance want Hi. by apply config_in_order, HC'.
  - intros instance Hi. by apply env_in_order, HE'.
  - intros instance other document Hi Ho Eid Hj Hd. refine (proj1 (live_in_order configs _ instance) (HS' instance Hi) document _ Hd).
    apply (proj2 (joined_in_order _ _ _ HF)). by exists other.
Qed.

Lemma observe_each (instances : list InstanceRow) :
  (forall instance, instance ∈ instances -> in_its_state instance) ->
  exists findings, Forall2 (fun instance f => gives (observed instance) f) instances findings.
Proof.
  induction instances as [|i instances IH]; intros H; [by exists []|].
  destruct (proj2 (observed_in_state i) (H i (list_elem_of_here _ _))) as (f & Hf & _).
  destruct IH as [fs Hfs]; [intros j Hj; by apply H, list_elem_of_further|]. by exists (f :: fs); constructor.
Qed.

End quiet.

(** ** The request leaves the bots alone *)

Definition with_player (player : option string) (r : InstanceRow) : InstanceRow :=
  MkInstance (in_id r) (in_organizationId r) (in_hostId r) (in_name r) (in_accountType r)
    (in_minecraftAccount r) player (in_status r) (in_lastExitCode r) (in_claims r)
    (in_liveControlPort r) (in_token r) (in_createdAt r).

(** A row may get the name of its player; one of a running bot that no request
    works on may be marked failed. *)
Definition touched (r r' : InstanceRow) : Prop :=
  exists player, r' = with_player player r
    \/ in_status r = st_running /\ configClaimId (in_claims r) = None
       /\ exists exit, r' = with_player player (with_state st_error exit r).

Definition touched_only (t t' : FleetTables) : Prop :=
  t' = with_instances (instances t') t /\ Forall2 touched (instances t) (instances t').

Lemma touched_refl r : touched r r.
Proof. exists (in_minecraftUsername r). left. by destruct r. Qed.

Lemma touched_trans r1 r2 r3 : touched r1 r2 -> touched r2 r3 -> touched r1 r3.
Proof.
  intros (p & [->|(Hs & Hc & x & ->)]) (p' & [->|(Hs' & Hc' & x' & ->)]); simpl in *; exists p'.
  - by left.
  - right. split_and!; [done|done|]. by exists x'.
  - right. split_and!; [done|done|]. by exists x.
  - done.
Qed.

Lemma touched_only_refl t : touched_only t t.
Proof.
  split; [by destruct t|]. induction (instances t); constructor; [apply touched_refl|done].
Qed.

Lemma touched_only_where t t' p f :
  (forall r, p r = true -> touched r (f r)) -> touched_only t t' ->
  touched_only t (with_instances (update_where p f (instances t')) t').
Proof.
  intros Hf [E H]. split; [rewrite E; by destruct t|]. simpl. clear E.
  induction H as [|r r' l l' Hr _ IH]; simpl; constructor; [|done].
  eapply touched_trans; [exact Hr|]. destruct (p r') eqn:E; [by apply Hf|apply touched_refl].
Qed.

Section request.
Context {X : Type} (deps : InstanceControllerDeps X).
Abbreviation W := (World X).
Variable leaseHost : string -> string -> Z -> HostNeed -> M W (JournalLease W).
Variable parse : string -> result Toml.
Variable locale_le : string -> string -> bool.
Variable other_text : Number -> string.
Variable chat_line : string -> bool.
Variable post : JournalLease W -> Z -> string -> string -> list (string * string) -> M W HttpReply.

(** Reading a machine leaves the tables alone: nobody else works meanwhile. *)
Definition reads_only (reader : JournalLease W) : Prop :=
  (forall command, keeps fleet (exec reader command)) /\ keeps fleet (release reader)
  /\ forall port route body headers, keeps fleet (post reader port route body headers).

Definition leases_readers : Prop :=
  forall scope hostId deadline need w,
    match leaseHost scope hostId deadline need w with
    | (Ok reader, w') => reads_only reader /\ fleet w' = fleet w
    | (Throw _, w') => fleet w' = fleet w
    end.

Variable t0 : FleetTables.
Definition only_touched (w : W) : Prop := touched_only t0 (fleet w).

Lemma keeps_only_touched {A} (m : M W A) : keeps fleet m -> preserves only_touched m.
Proof.
  intros H s Hs. specialize (H s). unfold only_touched in *. destruct (m s) as [[a|e] s']; simpl in H; by rewrite H.
Qed.

Lemma query_only_touched {A} (f : FleetTables -> A) : preserves only_touched (query f).
Proof. apply preserves_gets. Qed.

Lemma lift_only_touched {A} (r : result A) : preserves only_touched (lift r).
Proof. intros w Hw. by destruct r. Qed.

Lemma documents_only_touched scope bots found : preserves only_touched (expected_documents deps scope bots found).
Proof.
  revert found. induction bots as [|bot bots IH]; intros found; [apply preserves_ret|].
  apply preserves_bind; [|intros; apply IH]. apply preserves_catch.
  - apply preserves_bind.
    + apply preserves_bind; [apply query_only_touched|]. intros saved. apply lift_only_touched.
    + intros [config|]; [|apply preserves_ret]. apply preserves_bind; [apply lift_only_touched|].
      intros document. apply preserves_ret.
  - intros e. destruct (instanceof _ e); [apply preserves_ret|apply preserves_throw].
Qed.

Lemma gather_only_touched {A B} (xs : list A) (body : A -> M W (list B)) :
  (forall x, preserves only_touched (body x)) -> preserves only_touched (gather xs body).
Proof.
  intros H. induction xs as [|x xs IH]; [apply preserves_ret|]. apply preserves_bind; [apply H|].
  intros more. apply preserves_bind; [exact IH|]. intros others. apply preserves_ret.
Qed.

Ltac reading Hr := repeat lazymatch goal with
  | |- preserves _ (bind _ _) => apply preserves_bind; [|intros ?]
  | |- preserves _ (ret _) => apply preserves_ret
  | |- preserves _ (throw _) => apply preserves_throw
  | |- preserves _ (lift _) => apply lift_only_touched
  | |- preserves _ (exec _ _) => apply keeps_only_touched, Hr
  | |- preserves _ (post _ _ _ _ _) => apply keeps_only_touched, Hr
  | |- preserves _ (try_catch _ _) => apply preserves_catch; [|intros ?]
  | |- preserves _ (gather _ _) => apply gather_only_touched; intros ?
  | |- preserves _ (match ?x with _ => _ end) => destruct x
  end.

Lemma comparing_only_touched reader unit_runtime bots expected configs :
  reads_only reader ->
  preserves only_touched
    (reconcileHostOverTransport parse (number_le deps) locale_le other_text chat_line reader (post reader)
       unit_runtime bots expected configs).
Proof.
  intros Hr. unfold reconcileHostOverTransport, readHostFacts, unit_drift_of, configDriftFor, config_drift_of,
    unitEnvDriftFor, unit_env_drift_of, silentLiveControl, silent_of, listening, probeListening, readFile,
    readInstanceConfig, observe_instance, readUnitExitCode. reading Hr.
Qed.

Lemma update_only_touched p f {A} (answer : InstanceRepository.Table -> A) :
  (forall r, p r = true -> touched r (f r)) ->
  preserves only_touched (on_instances (fun t => (answer t, update_where p f t))).
Proof. intros Hf w Hw. unfold on_instances, on_fleet, stmt. simpl. by apply touched_only_where. Qed.

Lemma player_only_touched scope bots seen : preserves only_touched (record_player scope bots seen).
Proof.
  unfold record_player. case_match; [|apply preserves_ret]. case_bool_decide; [apply preserves_ret|].
  apply preserves_swallow, preserves_bind; [|intros; apply preserves_ret].
  apply update_only_touched. intros r _. exists (Some seen.2). left. by destruct r.
Qed.

Lemma failure_only_touched scope failure : preserves only_touched (record_failure scope failure).
Proof.
  unfold record_failure. apply preserves_swallow, preserves_bind; [|intros; apply preserves_ret].
  apply update_only_touched. intros r Hr. tests. exists (in_minecraftUsername r). right.
  split_and!; [done|done|]. exists failure.2. by destruct r.
Qed.

Lemma finally_only_touched {A} (m : M W A) f :
  preserves only_touched m -> preserves only_touched f -> preserves only_touched (try_finally m f).
Proof. intros Hm Hf. eapply triple_finally; [exact Hm| |]; intros ?; exact Hf. Qed.

Lemma concluding_only_touched scope hostId bots unusable outcome :
  preserves only_touched (conclude scope hostId bots unusable outcome).
Proof.
  destruct outcome as [reason|observed]; [apply preserves_ret|].
  apply preserves_bind; [apply preserves_for_each, player_only_touched|]. intros _.
  apply preserves_bind; [apply preserves_for_each, failure_only_touched|]. intros _. apply preserves_ret.
Qed.

Lemma leased_only_touched reader hostId unit_runtime bots windows configs :
  reads_only reader ->
  preserves only_touched
    (compare_leased deps parse locale_le other_text chat_line post reader hostId unit_runtime bots windows configs).
Proof.
  intros Hr. unfold compare_leased. apply preserves_bind; [apply lift_only_touched|]. intros expected.
  apply finally_only_touched; [|apply keeps_only_touched, Hr]. apply preserves_catch.
  - apply preserves_bind; [by apply comparing_only_touched|]. intros observed. apply preserves_ret.
  - intros e. apply preserves_ret.
Qed.

(** Leasing answers with a reader that leaves the tables alone, or says why
    there is none. *)
Lemma lease_only_touched scope hostId deadline need :
  leases_readers ->
  triple only_touched
    (try_catch (let* reader := leaseHost scope hostId deadline need in ret (inr reader))
       (fun error => ret (inl (reason_of_lease error))))
    (fun lease w => (forall reader, lease = inr reader -> reads_only reader) /\ only_touched w) (fun _ => only_touched).
Proof.
  intros Hlease s Hs. unfold try_catch, bind, ret. specialize (Hlease scope hostId deadline need s).
  unfold only_touched in *. destruct (leaseHost _ _ _ _ s) as [[reader|e] s'].
  - destruct Hlease as [Hr ->]. split; [by intros ? [= <-]|done].
  - by rewrite Hlease.
Qed.

(** asking how a machine compares with what it should hold changes nothing
    in the tables but two things: the name of the player of a bot, and a bot
    whose unit failed is marked so, if it was said to run and no request holds
    its claim. *)
Theorem comparing_touches_no_claimed_bot ctx hostId w :
  leases_readers -> fleet w = t0 ->
  touched_only t0 (fleet (reconcileHost deps leaseHost parse locale_le other_text chat_line post ctx hostId w).2).
Proof.
  intros Hlease Hw.
  assert (H : preserves only_touched (reconcileHost deps leaseHost parse locale_le other_text chat_line post ctx hostId)).
  { unfold reconcileHost. apply preserves_bind; [apply lift_only_touched|]. intros _.
    apply preserves_bind; [apply query_only_touched|]. intros host.
    destruct (comparable host) as [reason|unit_runtime]; [apply preserves_ret|].
    apply preserves_bind; [apply query_only_touched|]. intros bots.
    apply preserves_bind; [apply query_only_touched|]. intros windows.
    apply preserves_bind; [apply documents_only_touched|]. intros found.
    eapply triple_bind; [by apply lease_only_touched|]. intros [reason|reader]; [intros s [_ Hs]; exact Hs|].
    apply triple_and. intros Hr. apply preserves_bind; [apply leased_only_touched; by apply Hr|].
    intros outcome. apply concluding_only_touched. }
  assert (Hs : only_touched w) by (unfold only_touched; rewrite Hw; apply touched_only_refl).
  specialize (H w Hs). by destruct (reconcileHost _ _ _ _ _ _ _ _ _ w) as [[a|e] w'].
Qed.
End request.

(** The reader is given back only once what is expected has been worked out:
    when that throws, it is kept. *)
Lemma unrendered_window_keeps_the_reader {X} (deps : InstanceControllerDeps X) parse locale_le other_text
    chat_line post reader hostId unit_runtime bots windows configs e w :
  expectedUnits bots windows renderScheduleUnits unit_runtime = Throw e ->
  compare_leased deps parse locale_le other_text chat_line post reader hostId unit_runtime bots windows configs w
  = (Throw e, w).
Proof. intros H. unfold compare_leased, bind, lift. by rewrite H. Qed.

(** ** Examples *)

Definition document_with (password : string) : Toml :=
  t_table [("Main", t_table [("General", t_table [("Account", t_table [("Password", t_text password)])])])].

(** A parser that reads every text as the password. *)
Definition password_parser (text : string) : result Toml := Ok (document_with text).

Definition any_le (_ _ : string) : bool := true.
Definition no_other (_ : Number) : string := "?".

Definition PASSWORD_KEY : string := "Main.General.Account.Password".

(** Nothing but the password is there. *)
Definition only_password (document : Toml) (key : string) : bool :=
  (key ≡? PASSWORD_KEY)
  || match value_at document key with None => negb (unreadable_at document key) | Some _ => false end.

Lemma passwords_alike :
  documents_alike any_le any_le (document_with "-") (document_with "hunter2") (document_with "swordfish").
Proof.
  assert (H : forall password, password = "hunter2" \/ password = "swordfish" ->
            forall key, key ∈ ALL_KEYS any_le any_le -> only_password (document_with password) key = true).
  { intros password Hp key Hk%list_elem_of_In. revert key Hk. apply forallb_forall.
    destruct Hp as [-> | ->]; vm_compute; reflexivity. }
  split.
  - intros key Hk. pose proof (H _ (or_introl eq_refl) key Hk) as H1. pose proof (H _ (or_intror eq_refl) key Hk) as H2.
    unfold only_password in H1, H2. destruct (decide (key = PASSWORD_KEY)) as [->|Hne].
    + split; [vm_compute; reflexivity|]. unfold alike.
      replace (withheld any_le any_le PASSWORD_KEY) with true by (vm_compute; reflexivity).
      split; [split; intros _; by eexists|]. split; [vm_compute; reflexivity|].
      intros value E. vm_compute in E. injection E as <-. vm_compute. reflexivity.
    + rewrite !bool_decide_eq_false_2 in H1, H2 by done. simpl in H1, H2.
      destruct (value_at (document_with "hunter2") key), (value_at (document_with "swordfish") key); try done.
      apply negb_true_iff in H1, H2. rewrite H1, H2. split; [done|]. unfold alike. destruct (withheld _ _ key); by try done.
  - intros section Hs. vm_compute in Hs. apply elem_of_cons in Hs as [->|Hs]; [vm_compute; reflexivity|].
    apply list_elem_of_singleton in Hs as ->. vm_compute. reflexivity.
Qed.

Lemma withheld_values_are_not_told_witness :
  exists drift drift',
    compareInstanceConfig password_parser any_le any_le "-" "hunter2" = Ok drift
    /\ compareInstanceConfig password_parser any_le any_le "-" "swordfish" = Ok drift'
    /\ map (toPublicDrift any_le any_le no_other "bot") drift
       = map (toPublicDrift any_le any_le no_other "bot") drift'.
Proof.
  exact (withheld_values_are_not_told password_parser any_le any_le no_other "bot" "-" "hunter2" "swordfish"
           (document_with "-") (document_with "hunter2") (document_with "swordfish") eq_refl eq_refl eq_refl
           passwords_alike).
Defined.

(** A machine where the unit of the bot has failed. *)
Definition failed_machine (command : string) : result ExecResult :=
  Ok (MkExec 0
        (if startsWith "printf" command
         then unlines (in_sections [] ["podman version 5.4.2"] ["open-mcc-old"] ["0"])
         else if includes "is-active" command then "failed" +:+ newline
         else if includes "ExecMainStatus" command then "ExecMainStatus=1" +:+ newline +:+ "Result=exit-code" +:+ newline
         else EmptyString) "").

Definition failed_lease (_ _ : string) (_ : Z) (_ : HostNeed) : M (World unit) (JournalLease (World unit)) :=
  ret (still_reader failed_machine).

Definition no_reply (_ : JournalLease (World unit)) (_ : Z) (_ _ : string) (_ : list (string * string))
    : M (World unit) HttpReply := throw (named "LiveChannelUnavailableError" "closed").

Lemma comparing_touches_no_claimed_bot_witness :
  touched_only (fleet example_world)
    (fleet (reconcileHost example_deps failed_lease password_parser any_le no_other (fun _ => false) no_reply
              example_actor "host" example_world).2)
  /\ map in_status (instances (fleet (reconcileHost example_deps failed_lease password_parser any_le no_other
                                        (fun _ => false) no_reply example_actor "host" example_world).2)) = [st_error].
Proof.
  split; [|vm_compute; reflexivity].
  apply (comparing_touches_no_claimed_bot example_deps failed_lease password_parser any_le no_other
           (fun _ => false) no_reply (fleet example_world) example_actor "host" example_world); [|reflexivity].
  intros scope hostId deadline need w. split; [|reflexivity]. split; [|split].
  - intros command w'. reflexivity.
  - intros w'. reflexivity.
  - intros port route body headers w'. reflexivity.
Defined.
