(* ===== verification/ReadConnections.v ===== *)
(** The shared connections reads go over.

    [packages/transport/src/read-connections.ts] keeps, for every key, the
    connection that is open, the one that is being opened and the leases and
    reads on them.  The objects of the code are records in maps by number: a
    connection, its transport and the call that opened it have one number, a
    lease that of the request it answers, an entry the generation it was made
    with.  Every callback of the code (a promise that settles, a timer that
    fires, a stream that closes) is a step of its own, so they may come in any
    order.  [ReadPool] holds the theorems. *)

From stdpp Require Import gmap.
From S2P Require Import Prelude Tables InstanceController HostReader Limiter.

Definition READ_CONNECTION_IDLE_MS : Z := 10000.
Definition READ_CONNECTION_HARD_AGE_MS : Z := 120000.
Definition READ_CONNECTION_CHANNEL_LIMIT : Z := DEFAULT_EXEC_CONCURRENCY.

Record ReadConnectionsOptions := MkOptions { hardAgeMs : Z; channelLimit : Z }.

(** ** The objects *)

Record Pending := MkPending { pd_id : nat; pd_identity : ConnectionIdentity; pd_generation : nat }.

Record Entry := MkEntry {
  generation : nat; installed : option nat; pending : option Pending; en_connections : list nat }.

Record Connection := MkConnection {
  cn_key : string; cn_entry : nat; cn_identity : ConnectionIdentity; readyAt : Z;
  cn_limiter : ChannelLimiter; cn_leases : list nat; cn_ops : list nat; retired : bool; closed : bool;
  idleTimer : bool; hardTimer : bool }.

Record Lease := MkLease {
  ls_connection : nat; ls_ops : list nat; expired : bool; ls_released : bool; ls_timer : bool }.

Inductive OpKind := op_exec | op_forward.
Inductive OpState := op_queued | op_requested | op_open.

(** What the promise of a read was settled with. *)
Inductive Outcome := answered | connectionLost | queueExpired | deadlinePassed | call_failed.

#[global] Instance OpState_eq_dec : EqDecision OpState.
Proof. solve_decision. Defined.

(** [op_told] is [settled], with what was told; [op_admitted] whether the
    continuation of [acquire] has run. *)
Record Op := MkOp {
  op_lease : nat; op_kind : OpKind; op_state : OpState; op_holdsSlot : bool; op_told : option Outcome;
  op_stream : bool; op_admitted : bool }.

(** A call of [startOpen]; [og_done] is what [done] was settled with: the
    connection, or [None] when it was rejected. *)
Record Opening := MkOpening {
  og_key : string; og_entry : nat; og_identity : ConnectionIdentity; og_generation : nat;
  og_done : option (option nat) }.

(** A call of [lease]: it waits for an opening, or has its reader, or threw. *)
Inductive RequestState := rq_waits (id : nat) | rq_leased | rq_failed.

Record Request := MkRequest {
  rq_key : string; rq_identity : ConnectionIdentity; rq_deadlineMs : Z; rq_state : RequestState }.

Record Pool := MkPool {
  entries : gmap string nat; entry_of : gmap nat Entry; connections : gmap nat Connection;
  leases : gmap nat Lease; ops : gmap nat Op; openings : gmap nat Opening; requests : gmap nat Request;
  generations : nat; opens : nat; leaseCount : Z;
  (** the transports whose state is ready *)
  ready : gset nat }.

Definition createReadConnections : Pool := MkPool ∅ ∅ ∅ ∅ ∅ ∅ ∅ 0 0 0 ∅.

(** ** Fields *)

Definition with_entries x s := MkPool x (entry_of s) (connections s) (leases s) (ops s) (openings s) (requests s)
  (generations s) (opens s) (leaseCount s) (ready s).
Definition with_entry_of x s := MkPool (entries s) x (connections s) (leases s) (ops s) (openings s) (requests s)
  (generations s) (opens s) (leaseCount s) (ready s).
Definition with_connections x s := MkPool (entries s) (entry_of s) x (leases s) (ops s) (openings s) (requests s)
  (generations s) (opens s) (leaseCount s) (ready s).
Definition with_leases x s := MkPool (entries s) (entry_of s) (connections s) x (ops s) (openings s) (requests s)
  (generations s) (opens s) (leaseCount s) (ready s).
Definition with_ops x s := MkPool (entries s) (entry_of s) (connections s) (leases s) x (openings s) (requests s)
  (generations s) (opens s) (leaseCount s) (ready s).
Definition with_openings x s := MkPool (entries s) (entry_of s) (connections s) (leases s) (ops s) x (requests s)
  (generations s) (opens s) (leaseCount s) (ready s).
Definition with_requests x s := MkPool (entries s) (entry_of s) (connections s) (leases s) (ops s) (openings s) x
  (generations s) (opens s) (leaseCount s) (ready s).
Definition with_generations x s := MkPool (entries s) (entry_of s) (connections s) (leases s) (ops s) (openings s)
  (requests s) x (opens s) (leaseCount s) (ready s).
Definition with_opens x s := MkPool (entries s) (entry_of s) (connections s) (leases s) (ops s) (openings s)
  (requests s) (generations s) x (leaseCount s) (ready s).
Definition with_leaseCount x s := MkPool (entries s) (entry_of s) (connections s) (leases s) (ops s) (openings s)
  (requests s) (generations s) (opens s) x (ready s).
Definition with_ready x s := MkPool (entries s) (entry_of s) (connections s) (leases s) (ops s) (openings s)
  (requests s) (generations s) (opens s) (leaseCount s) x.

Definition set_generation x e := MkEntry x (installed e) (pending e) (en_connections e).
Definition set_installed x e := MkEntry (generation e) x (pending e) (en_connections e).
Definition set_pending x e := MkEntry (generation e) (installed e) x (en_connections e).
Definition set_en_connections x e := MkEntry (generation e) (installed e) (pending e) x.

Definition set_limiter x c := MkConnection (cn_key c) (cn_entry c) (cn_identity c) (readyAt c) x (cn_leases c)
  (cn_ops c) (retired c) (closed c) (idleTimer c) (hardTimer c).
Definition set_cn_leases x c := MkConnection (cn_key c) (cn_entry c) (cn_identity c) (readyAt c) (cn_limiter c) x
  (cn_ops c) (retired c) (closed c) (idleTimer c) (hardTimer c).
Definition set_cn_ops x c := MkConnection (cn_key c) (cn_entry c) (cn_identity c) (readyAt c) (cn_limiter c)
  (cn_leases c) x (retired c) (closed c) (idleTimer c) (hardTimer c).
Definition set_retired x c := MkConnection (cn_key c) (cn_entry c) (cn_identity c) (readyAt c) (cn_limiter c)
  (cn_leases c) (cn_ops c) x (closed c) (idleTimer c) (hardTimer c).
Definition set_closed c := MkConnection (cn_key c) (cn_entry c) (cn_identity c) (readyAt c) (cn_limiter c)
  (cn_leases c) (cn_ops c) (retired c) true false false.
Definition set_idle x c := MkConnection (cn_key c) (cn_entry c) (cn_identity c) (readyAt c) (cn_limiter c)
  (cn_leases c) (cn_ops c) (retired c) (closed c) x (hardTimer c).

Definition set_ls_ops x l := MkLease (ls_connection l) x (expired l) (ls_released l) (ls_timer l).
Definition set_expired l := MkLease (ls_connection l) (ls_ops l) true (ls_released l) false.
Definition set_released l := MkLease (ls_connection l) (ls_ops l) (expired l) true false.

Definition set_told x o := MkOp (op_lease o) (op_kind o) (op_state o) (op_holdsSlot o) x (op_stream o) (op_admitted o).
Definition set_slot x o := MkOp (op_lease o) (op_kind o) (op_state o) x (op_told o) (op_stream o) (op_admitted o).
Definition set_admitted o := MkOp (op_lease o) (op_kind o) (op_state o) (op_holdsSlot o) (op_told o) (op_stream o) true.
Definition set_state x o := MkOp (op_lease o) (op_kind o) x (op_holdsSlot o) (op_told o) (op_stream o) (op_admitted o).
Definition set_stream o := MkOp (op_lease o) (op_kind o) op_open (op_holdsSlot o) (op_told o) true (op_admitted o).

Definition upd_entry e f s := with_entry_of (alter f e (entry_of s)) s.
Definition upd_connection c f s := with_connections (alter f c (connections s)) s.
Definition upd_lease l f s := with_leases (alter f l (leases s)) s.
Definition upd_op o f s := with_ops (alter f o (ops s)) s.

(** [set.delete(x)] on a set kept in the order of its elements. *)
Definition without (x : nat) (l : list nat) : list nat := List.filter (fun y => negb (y =? x)%nat) l.

(** ** The helpers of [createReadConnections] *)

(** A new entry under the key, when there is none. *)
Definition entryFor (key : string) (s : Pool) : nat * Pool :=
  match entries s !! key with
  | Some e => (e, s)
  | None =>
      let g := S (generations s) in
      (g, with_entries (<[key := g]> (entries s))
            (with_entry_of (<[g := MkEntry g None None []]> (entry_of s)) (with_generations g s)))
  end.

Definition prune (key : string) (e : nat) (s : Pool) : Pool :=
  match entry_of s !! e with
  | Some (MkEntry _ _ None []) =>
      if entries s !! key ≡? Some e then with_entries (delete key (entries s)) s else s
  | _ => s
  end.

Definition connection_of (o : Op) (s : Pool) : option nat :=
  let? lease := leases s !! op_lease o in Some (ls_connection lease).

Definition finishOp (op : nat) (s : Pool) : Pool :=
  match ops s !! op with
  | None => s
  | Some o =>
      match connection_of o s with
      | None => s
      | Some c =>
          let s := upd_lease (op_lease o) (fun l => set_ls_ops (without op (ls_ops l)) l) s in
          let s := upd_connection c (fun cn => set_cn_ops (without op (cn_ops cn)) cn) s in
          if op_holdsSlot o
          then upd_connection c (fun cn => set_limiter (Limiter.release (cn_limiter cn)) cn) (upd_op op (set_slot false) s)
          else s
      end
  end.

(** [op.controller.abort(error)] is heard by the wait for a channel; the
    transport's own signal is not modelled. *)
Definition abandon_op (error : Outcome) (op : nat) (s : Pool) : Pool :=
  match ops s !! op with
  | None => s
  | Some o =>
      let s := match op_told o with None => upd_op op (set_told (Some error)) s | Some _ => s end in
      let s := match connection_of o s with
               | Some c => upd_connection c (fun cn => set_limiter (Limiter.abort op (cn_limiter cn)) cn) s
               | None => s
               end in
      finishOp op s
  end.

Definition abandon_all_ops (error : Outcome) (all : list nat) (s : Pool) : Pool :=
  foldl (fun s op => abandon_op error op s) s all.

Definition uninstall (c : nat) (e : Entry) : Entry :=
  if installed e ≡? Some c then set_installed None e else e.

Definition shutDown (c : nat) (s : Pool) : Pool :=
  match connections s !! c with
  | None => s
  | Some cn =>
      if closed cn then s
      else
        let s := upd_connection c set_closed s in
        let s := upd_entry (cn_entry cn)
                   (fun e => set_en_connections (without c (en_connections e)) (uninstall c e)) s in
        prune (cn_key cn) (cn_entry cn) (abandon_all_ops connectionLost (cn_ops cn) s)
  end.

Definition retire (c : nat) (s : Pool) : Pool :=
  match connections s !! c with
  | None => s
  | Some cn => upd_entry (cn_entry cn) (uninstall c) (upd_connection c (set_retired true) s)
  end.

Definition installed_in (e : nat) (s : Pool) : option nat := let? entry := entry_of s !! e in installed entry.

Definition afterLastLease (c : nat) (s : Pool) : Pool :=
  match connections s !! c with
  | None => s
  | Some cn =>
      if closed cn || negb (length (cn_leases cn) =? 0)%nat then s
      else if retired cn then shutDown c s
      else if negb (installed_in (cn_entry cn) s ≡? Some c) then shutDown c s
      else upd_connection c (set_idle true) s
  end.

(** One read of a lease whose deadline passed. *)
Definition expire_op (c : nat) (s : Pool) (op : nat) : Pool :=
  match ops s !! op with
  | None => s
  | Some o =>
      if op_state o ≡? op_queued then abandon_op queueExpired op s
      else abandon_op deadlinePassed op (retire c s)
  end.

Definition expire (l : nat) (s : Pool) : Pool :=
  match leases s !! l with
  | None => s
  | Some lease => foldl (expire_op (ls_connection lease)) (upd_lease l set_expired s) (ls_ops lease)
  end.

Definition install (id : nat) (key : string) (e : nat) (identity : ConnectionIdentity) (now : Z) (s : Pool) : Pool :=
  let previous := installed_in e s in
  let s := with_connections
             (<[id := MkConnection key e identity now createChannelLimiter [] [] false false false true]> (connections s)) s in
  let s := upd_entry e (fun entry => set_en_connections (en_connections entry ++ [id]) (set_installed (Some id) entry)) s in
  match previous with
  | None => s
  | Some p =>
      match connections s !! p with
      | None => s
      | Some old => if sameConnectionIdentity (cn_identity old) identity then afterLastLease p s else shutDown p s
      end
  end.

Definition generation_of (e : nat) (s : Pool) : nat := default 0%nat (option_map generation (entry_of s !! e)).

Definition startOpen (key : string) (e : nat) (identity : ConnectionIdentity) (s : Pool) : nat * Pool :=
  let id := S (opens s) in
  let g := generation_of e s in
  (id, upd_entry e (set_pending (Some (MkPending id identity g)))
         (with_openings (<[id := MkOpening key e identity g None]> (openings s)) (with_opens id s))).

Definition is_pending (id e : nat) (s : Pool) : bool :=
  match entry_of s !! e with Some (MkEntry _ _ (Some p) _) => (pd_id p =? id)%nat | _ => false end.

Definition settle_opening (id : nat) (outcome : option nat) (s : Pool) : Pool :=
  with_openings (alter (fun o => MkOpening (og_key o) (og_entry o) (og_identity o) (og_generation o) (Some outcome)) id (openings s)) s.

Definition giveUp (id : nat) (o : Opening) (s : Pool) : Pool :=
  if is_pending id (og_entry o) s
  then prune (og_key o) (og_entry o) (upd_entry (og_entry o) (set_pending None) s)
  else s.

(** What follows [await open(transport)]: [ok] is whether it returned. *)
Definition opened (id : nat) (ok : bool) (now : Z) (s : Pool) : Pool :=
  match openings s !! id with
  | None => s
  | Some o =>
      let current := is_pending id (og_entry o) s && (generation_of (og_entry o) s =? og_generation o)%nat in
      if negb ok || negb current || bool_decide (id ∉ ready s)
      then settle_opening id None (giveUp id o s)
      else settle_opening id (Some id)
             (install id (og_key o) (og_entry o) (og_identity o) now (upd_entry (og_entry o) (set_pending None) s))
  end.

(** ** Reads *)

(** [begin] and the [acquire] of [whenAdmitted]; [op] is a number no read has
    had.  A read that cannot begin has its answer at once. *)
Definition begin (limit : Z) (l op : nat) (kind : OpKind) (s : Pool) : Pool :=
  match leases s !! l with
  | None => s
  | Some lease =>
      let c := ls_connection lease in
      let refused told := with_ops (<[op := MkOp l kind op_queued false (Some told) false true]> (ops s)) s in
      match connections s !! c with
      | None => s
      | Some cn =>
          if ls_released lease || closed cn then refused connectionLost
          else if expired lease then refused queueExpired
          else
            let s := with_ops (<[op := MkOp l kind op_queued false None false false]> (ops s)) s in
            let s := upd_lease l (fun lease => set_ls_ops (ls_ops lease ++ [op]) lease) s in
            upd_connection c
              (fun cn => set_limiter (Limiter.acquire limit op (Some op) (cn_limiter cn))
                           (set_cn_ops (cn_ops cn ++ [op]) cn)) s
      end
  end.

(** The promise of [acquire] was resolved. *)
Definition has_channel (op : nat) (cn : Connection) : bool := bool_decide (op ∈ admitted (cn_limiter cn)).

(** [whenAdmitted]: the continuation of [acquire]. *)
Definition admit_op (op : nat) (s : Pool) : Pool :=
  match ops s !! op with
  | None => s
  | Some o =>
      match connection_of o s with
      | None => s
      | Some c =>
          let s := upd_op op set_admitted s in
          match op_told o with
          | Some _ => upd_connection c (fun cn => set_limiter (Limiter.release (cn_limiter cn)) cn) s
          | None => upd_op op (fun o => set_state op_requested (set_slot true o)) s
          end
      end
  end.

(** [outcomeOf] *)
Definition outcomeOf (c : nat) (s : Pool) : Outcome :=
  match connections s !! c with
  | Some cn => if closed cn || bool_decide (c ∉ ready s) then connectionLost else call_failed
  | None => connectionLost
  end.

(** The transport's promise settles: with a result, or a stream. *)
Definition op_answer (op : nat) (ok : bool) (s : Pool) : Pool :=
  match ops s !! op with
  | None => s
  | Some o =>
      match op_told o with
      | Some _ => s
      | None =>
          match connection_of o s with
          | None => s
          | Some c =>
              let told x := upd_op op (set_told (Some x)) s in
              if negb ok then finishOp op (told (outcomeOf c s))
              else match op_kind o with
                   | op_exec => finishOp op (told answered)
                   | op_forward => upd_op op set_stream (told answered)
                   end
          end
      end
  end.

(** The stream is closed by the reader or by the other side. *)
Definition stream_closed (op : nat) (s : Pool) : Pool :=
  match ops s !! op with
  | Some o => if op_stream o then finishOp op s else s
  | None => s
  end.

Definition release_lease (l : nat) (s : Pool) : Pool :=
  match leases s !! l with
  | None => s
  | Some lease =>
      if ls_released lease then s
      else
        let s := with_leaseCount (leaseCount s - 1) (upd_lease l set_released s) in
        let s := abandon_all_ops connectionLost (ls_ops lease) s in
        let c := ls_connection lease in
        afterLastLease c (upd_connection c (fun cn => set_cn_leases (without l (cn_leases cn)) cn) s)
  end.

Definition checkout (c l : nat) (s : Pool) : Pool :=
  let s := upd_connection c (fun cn => set_cn_leases (cn_leases cn ++ [l]) (set_idle false cn)) s in
  with_leaseCount (leaseCount s + 1) (with_leases (<[l := MkLease c [] false false true]> (leases s)) s).

Definition usable (c : nat) (identity : ConnectionIdentity) (s : Pool) : bool :=
  match connections s !! c with
  | None => false
  | Some cn =>
      negb (closed cn) && negb (retired cn) && bool_decide (c ∈ ready s)
      && sameConnectionIdentity (cn_identity cn) identity
  end.

Definition set_request (rq : nat) (state : RequestState) (s : Pool) : Pool :=
  with_requests (alter (fun r => MkRequest (rq_key r) (rq_identity r) (rq_deadlineMs r) state) rq (requests s)) s.

(** The reader of a request has its number. *)
Definition hand_out (c rq : nat) (s : Pool) : Pool := set_request rq rq_leased (checkout c rq s).

(** Whether the pending opening of an entry may be joined. *)
Definition joinable (e : nat) (identity : ConnectionIdentity) (s : Pool) : option nat :=
  match entry_of s !! e with
  | Some (MkEntry g _ (Some p) _) =>
      if (pd_generation p =? g)%nat && sameConnectionIdentity (pd_identity p) identity then Some (pd_id p) else None
  | _ => None
  end.

(** One turn of the loop of [lease], up to its [await]. *)
Definition lease_turn (options : ReadConnectionsOptions) (rq : nat) (key : string) (identity : ConnectionIdentity)
    (deadlineMs now : Z) (s : Pool) : Pool :=
  let (e, s) := entryFor key s in
  let there := installed_in e s in
  let wait (s : Pool) :=
    match joinable e identity s with
    | Some id => set_request rq (rq_waits id) s
    | None => let (id, s) := startOpen key e identity s in set_request rq (rq_waits id) s
    end in
  match there with
  | None => wait s
  | Some c =>
      if negb (usable c identity s) then wait (shutDown c s)
      else
        match connections s !! c with
        | Some cn =>
            if now + deadlineMs <=? readyAt cn + hardAgeMs options then hand_out c rq s else wait s
        | None => wait s
        end
  end.

(** [lease(key, identity, deadlineMs, open)]; a deadline out of range throws. *)
Definition lease_call (options : ReadConnectionsOptions) (rq : nat) (key : string) (identity : ConnectionIdentity)
    (deadlineMs now : Z) (s : Pool) : Pool :=
  let request state := with_requests (<[rq := MkRequest key identity deadlineMs state]> (requests s)) s in
  if negb ((0 <? deadlineMs) && (deadlineMs <? hardAgeMs options)) then request rq_failed
  else lease_turn options rq key identity deadlineMs now (request (rq_waits 0)).

(** What follows the [await] of [lease]. *)
Definition lease_resumes (options : ReadConnectionsOptions) (rq : nat) (now : Z) (s : Pool) : Pool :=
  match requests s !! rq with
  | Some (MkRequest key identity deadlineMs (rq_waits id)) =>
      match openings s !! id with
      | Some (MkOpening _ _ _ _ (Some (Some c))) =>
          if usable c identity s then hand_out c rq s
          else lease_turn options rq key identity deadlineMs now s
      | Some (MkOpening _ _ _ _ (Some None)) => set_request rq rq_failed s
      | _ => s
      end
  | _ => s
  end.

Definition evict (key : string) (s : Pool) : Pool :=
  match entries s !! key with
  | None => s
  | Some e =>
      let g := S (generations s) in
      let s := upd_entry e (set_generation g) (with_generations g s) in
      let all := default [] (option_map en_connections (entry_of s !! e)) in
      prune key e (foldl (fun s c => shutDown c s) s all)
  end.

Definition activeLeases (s : Pool) : Z := leaseCount s.

(** ** What may happen *)

Inductive Event :=
  | ev_lease (rq : nat) (key : string) (identity : ConnectionIdentity) (deadlineMs now : Z)
  | ev_opened (id : nat) (ok : bool) (now : Z)
  | ev_resumed (rq : nat) (now : Z)
  | ev_read (l op : nat) (kind : OpKind)
  | ev_admitted (op : nat)
  | ev_answered (op : nat) (ok : bool)
  | ev_stream_closed (op : nat)
  | ev_released (l : nat)
  | ev_deadline (l : nat)
  | ev_idle (c : nat)
  | ev_hard_age (c : nat)
  | ev_evicted (key : string)
  | ev_transport (c : nat) (is_ready : bool).

(** When each may: a promise settles once, a timer fires while it is armed,
    numbers are new. *)
Definition may (ev : Event) (s : Pool) : Prop :=
  match ev with
  | ev_lease rq _ _ _ _ => requests s !! rq = None
  | ev_opened id _ _ => exists o, openings s !! id = Some o /\ og_done o = None
  | ev_resumed rq _ => exists r id o, requests s !! rq = Some r /\ rq_state r = rq_waits id
      /\ openings s !! id = Some o /\ is_Some (og_done o)
  | ev_read l op _ => is_Some (leases s !! l) /\ ops s !! op = None
  | ev_admitted op => exists o c cn, ops s !! op = Some o /\ op_admitted o = false
      /\ connection_of o s = Some c /\ connections s !! c = Some cn /\ has_channel op cn = true
  | ev_answered op _ => exists o, ops s !! op = Some o /\ op_admitted o = true /\ op_state o = op_requested
  | ev_stream_closed op => exists o, ops s !! op = Some o /\ op_stream o = true
  | ev_released l => is_Some (leases s !! l)
  | ev_deadline l => exists lease, leases s !! l = Some lease /\ ls_timer lease = true
  | ev_idle c => exists cn, connections s !! c = Some cn /\ idleTimer cn = true
  | ev_hard_age c => exists cn, connections s !! c = Some cn /\ hardTimer cn = true
  | ev_evicted _ | ev_transport _ _ => True
  end.

Definition happen (options : ReadConnectionsOptions) (ev : Event) (s : Pool) : Pool :=
  match ev with
  | ev_lease rq key identity deadlineMs now => lease_call options rq key identity deadlineMs now s
  | ev_opened id ok now => opened id ok now s
  | ev_resumed rq now => lease_resumes options rq now s
  | ev_read l op kind => begin (channelLimit options) l op kind s
  | ev_admitted op => admit_op op s
  | ev_answered op ok => op_answer op ok s
  | ev_stream_closed op => stream_closed op s
  | ev_released l => release_lease l s
  | ev_deadline l => expire l s
  | ev_idle c | ev_hard_age c => shutDown c s
  | ev_evicted key => evict key s
  | ev_transport c true => with_ready ({[c]} ∪ ready s) s
  | ev_transport c false => with_ready (ready s ∖ {[c]}) s
  end.

Inductive step (options : ReadConnectionsOptions) : Pool -> Pool -> Prop :=
  | step_event ev s : may ev s -> step options s (happen options ev s).

Definition reachable (options : ReadConnectionsOptions) : Pool -> Prop :=
  rtc (step options) createReadConnections.

(** A sequence of events, each of which may happen when its turn comes. *)
Fixpoint all_may (options : ReadConnectionsOptions) (events : list Event) (s : Pool) : Prop :=
  match events with [] => True | ev :: rest => may ev s /\ all_may options rest (happen options ev s) end.

Definition trace (options : ReadConnectionsOptions) (events : list Event) (s : Pool) : Pool :=
  foldl (fun s ev => happen options ev s) s events.

Lemma trace_reachable options events : all_may options events createReadConnections ->
  reachable options (trace options events createReadConnections).
Proof.
  unfold reachable. generalize createReadConnections. induction events as [|ev rest IH]; intros s; [done|].
  intros [Hm Hr]. simpl. eapply rtc_l; [by constructor|]. by apply IH.
Qed.
