(* ===== verification/ReadPool.v ===== *)
(** What the shared connections promise.

    Theorems about every state [ReadConnections] can reach: a connection that is
    open is leased or is the one kept for its key, a reader reads over a
    connection of its own key and identity, a read that outlived its lease,
    its deadline or its connection has been told so, and no more reads than the
    limit hold a channel.  One trace shows a connection that evicting its key
    misses. *)

From stdpp Require Import gmap relations.
From S2P Require Import Prelude Tables InstanceController HostReader Limiter ReadConnections.

#[local] Arguments Limiter.release : simpl never.
#[local] Arguments Limiter.abort : simpl never.
#[local] Arguments Limiter.acquire : simpl never.

(** ** What reads do not change

    Two pools have the same bones when they differ only in reads, in the lists
    of reads, in the limiters, in the timers of connections and in what
    the transports say. *)

Definition cn_bones (cn : Connection) : Connection :=
  MkConnection (cn_key cn) (cn_entry cn) (cn_identity cn) (readyAt cn) createChannelLimiter (cn_leases cn) []
    (retired cn) (closed cn) false (hardTimer cn).
Definition ls_bones (ls : Lease) : Lease := set_ls_ops [] ls.

Definition bones (s : Pool) : Pool :=
  MkPool (entries s) (entry_of s) (cn_bones <$> connections s) (ls_bones <$> leases s) ∅ (openings s) (requests s)
    (generations s) (opens s) (leaseCount s) ∅.

Definition same_bones (s s' : Pool) : Prop := bones s = bones s'.

#[global] Instance same_bones_equivalence : Equivalence same_bones.
Proof. split; [done|by intros s s'|]. intros s1 s2 s3 H1 H2. unfold same_bones in *. congruence. Qed.

(** What a connection and a lease keep. *)
Lemma bones_connection s s' c cn :
  same_bones s s' -> connections s !! c = Some cn ->
  exists cn', connections s' !! c = Some cn' /\ cn_bones cn' = cn_bones cn.
Proof.
  intros H E. apply (f_equal connections) in H. simpl in H.
  assert (Hc : (cn_bones <$> connections s) !! c = Some (cn_bones cn)) by (by rewrite lookup_fmap, E).
  rewrite H, lookup_fmap in Hc. destruct (connections s' !! c) as [cn'|]; [|done]. apply (inj Some) in Hc. by exists cn'.
Qed.

Lemma bones_lease s s' l ls :
  same_bones s s' -> leases s !! l = Some ls -> exists ls', leases s' !! l = Some ls' /\ ls_bones ls' = ls_bones ls.
Proof.
  intros H E. apply (f_equal leases) in H. simpl in H.
  assert (Hl : (ls_bones <$> leases s) !! l = Some (ls_bones ls)) by (by rewrite lookup_fmap, E).
  rewrite H, lookup_fmap in Hl. destruct (leases s' !! l) as [ls'|]; [|done]. apply (inj Some) in Hl. by exists ls'.
Qed.

(** Field by field. *)
Lemma cn_bones_eq a b : cn_bones a = cn_bones b ->
  cn_key a = cn_key b /\ cn_entry a = cn_entry b /\ cn_identity a = cn_identity b /\ cn_leases a = cn_leases b
  /\ retired a = retired b /\ closed a = closed b.
Proof. destruct a, b. unfold cn_bones. simpl. intros [=]. subst. by split_and!. Qed.

Lemma ls_bones_eq a b : ls_bones a = ls_bones b ->
  ls_connection a = ls_connection b /\ expired a = expired b /\ ls_released a = ls_released b /\ ls_timer a = ls_timer b.
Proof. destruct a, b. unfold ls_bones. simpl. intros [=]. subst. by split_and!. Qed.

Lemma bones_upd_op op f s : same_bones (upd_op op f s) s.
Proof. done. Qed.

Lemma fmap_alter_id {A} (f g : A -> A) (i : nat) (m : gmap nat A) :
  (forall x, f (g x) = f x) -> f <$> alter g i m = f <$> m.
Proof.
  intros H. apply map_eq. intros j. rewrite !lookup_fmap. destruct (decide (i = j)) as [->|Hne].
  - rewrite lookup_alter_eq. destruct (m !! j); simpl; by rewrite ?H.
  - by rewrite lookup_alter_ne.
Qed.

Lemma bones_upd_connection c f s : (forall cn, cn_bones (f cn) = cn_bones cn) -> same_bones (upd_connection c f s) s.
Proof. intros H. unfold same_bones, bones. simpl. by rewrite fmap_alter_id. Qed.

Lemma bones_upd_lease l f s : (forall ls, ls_bones (f ls) = ls_bones ls) -> same_bones (upd_lease l f s) s.
Proof. intros H. unfold same_bones, bones. simpl. by rewrite fmap_alter_id. Qed.

Lemma bones_finishOp op s : same_bones (finishOp op s) s.
Proof.
  unfold finishOp. destruct (ops s !! op) as [o|]; [|done]. destruct (connection_of o s) as [c|]; [|done].
  assert (H : same_bones (upd_connection c (fun cn => set_cn_ops (without op (cn_ops cn)) cn)
                            (upd_lease (op_lease o) (fun l => set_ls_ops (without op (ls_ops l)) l) s)) s)
    by (etrans; [by apply bones_upd_connection|by apply bones_upd_lease]).
  destruct (op_holdsSlot o); [|exact H]. etrans; [by apply bones_upd_connection|]. exact H.
Qed.

Lemma bones_abandon error op s : same_bones (abandon_op error op s) s.
Proof.
  unfold abandon_op. destruct (ops s !! op) as [o|]; [|done]. etrans; [apply bones_finishOp|].
  destruct (op_told o), (connection_of o _); try done; (etrans; [by apply bones_upd_connection|done]).
Qed.

Lemma bones_abandon_all error all s : same_bones (abandon_all_ops error all s) s.
Proof.
  revert s. induction all as [|op all IH]; intros s; [done|]. simpl. etrans; [apply IH|apply bones_abandon].
Qed.

Lemma bones_idle b c s : same_bones (upd_connection c (set_idle b) s) s.
Proof. by apply bones_upd_connection. Qed.

Lemma bones_rest s s' : same_bones s s' ->
  entries s = entries s' /\ entry_of s = entry_of s' /\ openings s = openings s' /\ generations s = generations s'
  /\ opens s = opens s' /\ leaseCount s = leaseCount s' /\ requests s = requests s'.
Proof. intros H. unfold same_bones, bones in H. injection H as ?????????. by split_and!. Qed.

Lemma bones_installed s s' e : same_bones s s' -> installed_in e s = installed_in e s'.
Proof. intros H. unfold installed_in. by destruct (bones_rest _ _ H) as (_ & -> & _). Qed.

(** ** The invariant of connections, entries, openings and leases

    [outside] is a connection for which the invariant does not hold yet, [fresh]
    an opening whose connection is there before it is settled, [name] the key of
    every entry there has been. *)

Definition unreleased (s : Pool) : gmap nat Lease := filter (fun p => ls_released p.2 = false) (leases s).

Record sound (outside fresh : option nat) (name : nat -> string) (s : Pool) : Prop := {
  leased_or_kept : forall c cn, connections s !! c = Some cn -> closed cn = false -> outside <> Some c ->
    cn_leases cn <> [] \/ installed_in (cn_entry cn) s = Some c;
  kept_is_good : forall e c, installed_in e s = Some c ->
    exists cn, connections s !! c = Some cn /\ closed cn = false /\ retired cn = false /\ cn_entry cn = e;
  entries_list_open : forall e en c, entry_of s !! e = Some en ->
    c ∈ en_connections en <-> exists cn, connections s !! c = Some cn /\ closed cn = false /\ cn_entry cn = e;
  connections_known : forall c cn, connections s !! c = Some cn ->
    (c <= opens s)%nat /\ is_Some (entry_of s !! cn_entry cn) /\ name (cn_entry cn) = cn_key cn
    /\ hardTimer cn = negb (closed cn);
  openings_known : forall id o, openings s !! id = Some o ->
    (id <= opens s)%nat /\ is_Some (entry_of s !! og_entry o) /\ name (og_entry o) = og_key o
    /\ (og_generation o <= generations s)%nat;
  unsettled_not_yet : forall id o, openings s !! id = Some o -> og_done o = None -> fresh <> Some id ->
    connections s !! id = None;
  settled_with : forall id o c, openings s !! id = Some o -> og_done o = Some (Some c) ->
    exists cn, connections s !! c = Some cn /\ cn_key cn = og_key o;
  pending_open : forall e en p, entry_of s !! e = Some en -> pending en = Some p ->
    exists o, openings s !! pd_id p = Some o /\ og_entry o = e /\ og_done o = None /\ fresh <> Some (pd_id p);
  entries_known : forall key e, entries s !! key = Some e -> is_Some (entry_of s !! e) /\ name e = key;
  generations_known : forall e en, entry_of s !! e = Some en ->
    (e <= generations s)%nat /\ (generation en <= generations s)%nat;
  leases_listed : forall c cn, connections s !! c = Some cn -> NoDup (cn_leases cn) /\
    forall l, l ∈ cn_leases cn <-> exists ls, leases s !! l = Some ls /\ ls_connection ls = c /\ ls_released ls = false;
  leases_known : forall l ls, leases s !! l = Some ls -> is_Some (connections s !! ls_connection ls)
    /\ (ls_timer ls = true -> ls_released ls = false);
  leases_counted : leaseCount s = Z.of_nat (size (unreleased s)) }.

Lemma sound_start name : sound None None name createReadConnections.
Proof. by split. Qed.

Lemma bones_connection' s s' c cn' : same_bones s s' -> connections s' !! c = Some cn' ->
  exists cn, connections s !! c = Some cn /\ cn_key cn = cn_key cn' /\ cn_entry cn = cn_entry cn'
    /\ cn_identity cn = cn_identity cn' /\ cn_leases cn = cn_leases cn' /\ retired cn = retired cn' /\ closed cn = closed cn'.
Proof. intros H Hcn. destruct (bones_connection _ _ _ _ (symmetry H) Hcn) as (cn & ? & ?%cn_bones_eq). by exists cn. Qed.

Lemma bones_hard s s' c cn' : same_bones s s' -> connections s' !! c = Some cn' ->
  exists cn, connections s !! c = Some cn /\ cn_key cn = cn_key cn' /\ cn_entry cn = cn_entry cn'
    /\ hardTimer cn = hardTimer cn' /\ closed cn = closed cn'.
Proof.
  intros H Hcn. destruct (bones_connection _ _ _ _ (symmetry H) Hcn) as (cn & E & H'). exists cn.
  split; [done|]. destruct cn, cn'. revert H'. intros [=]. subst. done.
Qed.

Lemma bones_lease' s s' l ls' : same_bones s s' -> leases s' !! l = Some ls' ->
  exists ls, leases s !! l = Some ls /\ ls_connection ls = ls_connection ls' /\ expired ls = expired ls'
    /\ ls_released ls = ls_released ls' /\ ls_timer ls = ls_timer ls'.
Proof. intros H Hls. destruct (bones_lease _ _ _ _ (symmetry H) Hls) as (ls & ? & ?%ls_bones_eq). by exists ls. Qed.

Lemma unreleased_bones s s' : same_bones s s' -> size (unreleased s) = size (unreleased s').
Proof.
  intros H. unfold unreleased. rewrite <- !size_dom. f_equal. apply set_eq. intros l. rewrite !elem_of_dom.
  split; intros [ls [E R]%map_lookup_filter_Some].
  - destruct (bones_lease' _ _ _ _ (symmetry H) E) as (ls' & E' & _ & _ & R' & _).
    exists ls'. apply map_lookup_filter_Some. simpl in *. by rewrite R'.
  - destruct (bones_lease' _ _ _ _ H E) as (ls' & E' & _ & _ & R' & _).
    exists ls'. apply map_lookup_filter_Some. simpl in *. by rewrite R'.
Qed.

Lemma sound_bones outside fresh name s s' :
  same_bones s s' -> sound outside fresh name s -> sound outside fresh name s'.
Proof.
  intros H I. pose proof (symmetry H) as H'. destruct (bones_rest _ _ H) as (Ee & Eo & Ep & Eg & En & Ec & _).
  destruct I. split; rewrite <- ?Ee, <- ?Eo, <- ?Ep, <- ?Eg, <- ?En, <- ?Ec; try done.
  - intros c cn' (cn & Hcn & _ & <- & _ & <- & _ & <-)%(bones_connection' _ _ _ _ H).
    rewrite <- (bones_installed _ _ _ H). eauto.
  - intros e c. rewrite <- (bones_installed _ _ _ H). intros (cn & Hcn & F)%kept_is_good0.
    destruct (bones_connection' _ _ _ _ H' Hcn) as (cn' & Hcn' & _ & E1 & _ & _ & E2 & E3).
    exists cn'. by rewrite E1, E2, E3.
  - intros e en c He. rewrite (entries_list_open0 _ _ _ He). split; intros (cn & Hcn & F).
    + destruct (bones_connection' _ _ _ _ H' Hcn) as (cn' & Hcn' & _ & E & _ & _ & _ & E'). exists cn'. by rewrite E, E'.
    + destruct (bones_connection' _ _ _ _ H Hcn) as (cn' & Hcn' & _ & E & _ & _ & _ & E'). exists cn'. by rewrite E, E'.
  - intros c cn' (cn & Hcn & <- & <- & <- & <-)%(bones_hard _ _ _ _ H). eauto.
  - intros id o Ho Hd Hf. destruct (connections s' !! id) as [cn'|] eqn:E; [|done].
    destruct (bones_connection' _ _ _ _ H E) as (cn & Hcn & _). by rewrite (unsettled_not_yet0 _ _ Ho Hd Hf) in Hcn.
  - intros id o c Ho Hd. destruct (settled_with0 _ _ _ Ho Hd) as (cn & Hcn & Ek).
    destruct (bones_connection' _ _ _ _ H' Hcn) as (cn' & Hcn' & E & _). exists cn'. by rewrite E.
  - intros c cn' (cn & Hcn & _ & _ & _ & <- & _)%(bones_connection' _ _ _ _ H).
    destruct (leases_listed0 _ _ Hcn) as [Hn Hl]. split; [done|]. intros l. rewrite Hl.
    split; intros (ls & Hls & F).
    + destruct (bones_lease' _ _ _ _ H' Hls) as (ls' & Hls' & E & _ & E' & _). exists ls'. by rewrite E, E'.
    + destruct (bones_lease' _ _ _ _ H Hls) as (ls' & Hls' & E & _ & E' & _). exists ls'. by rewrite E, E'.
  - intros l ls' (ls & Hls & <- & _ & <- & <-)%(bones_lease' _ _ _ _ H).
    destruct (leases_known0 _ _ Hls) as [[cn Hcn] F]. split; [|done].
    destruct (bones_connection' _ _ _ _ H' Hcn) as (cn' & ? & _). by exists cn'.
  - by rewrite <- (unreleased_bones _ _ H).
Qed.

(** ** The operations keep it *)

Lemma sound_prune outside fresh name key e s : sound outside fresh name s -> sound outside fresh name (prune key e s).
Proof.
  intros I. unfold prune. destruct (entry_of s !! e) as [[g i [p|] [|c l]]|]; try done.
  destruct (entries s !! key ≡? Some e); [|done]. destruct I. split; try done.
  intros k e'. simpl. intros [_ He]%lookup_delete_Some. auto.
Qed.

Lemma prune_rest key e s : entry_of (prune key e s) = entry_of s /\ connections (prune key e s) = connections s
  /\ openings (prune key e s) = openings s.
Proof. unfold prune. by repeat case_match. Qed.

(** The part of [shutDown] that is not about reads. *)
Definition closing (c : nat) (cn : Connection) (s : Pool) : Pool :=
  upd_entry (cn_entry cn) (fun e => set_en_connections (without c (en_connections e)) (uninstall c e))
    (upd_connection c set_closed s).

Lemma shutDown_closes c cn s : connections s !! c = Some cn -> closed cn = false ->
  shutDown c s = prune (cn_key cn) (cn_entry cn) (abandon_all_ops connectionLost (cn_ops cn) (closing c cn s)).
Proof. intros H E. unfold shutDown. by rewrite H, E. Qed.

Lemma elem_of_without x y l : x ∈ without y l <-> x <> y /\ x ∈ l.
Proof.
  unfold without. rewrite !list_elem_of_In, filter_In. destruct (Nat.eqb_spec x y); simpl; naive_solver.
Qed.

Lemma NoDup_without y l : NoDup l -> NoDup (without y l).
Proof. unfold without. rewrite !NoDup_ListNoDup. apply List.NoDup_filter. Qed.

Lemma uninstall_fields c e : generation (uninstall c e) = generation e /\ pending (uninstall c e) = pending e
  /\ en_connections (uninstall c e) = en_connections e
  /\ forall d, installed (uninstall c e) = Some d <-> installed e = Some d /\ d <> c.
Proof.
  unfold uninstall. destruct (installed e ≡? Some c) eqn:E; tests; simpl; split_and!; try done; naive_solver.
Qed.

Lemma installed_alter e f s d : installed_in e (upd_entry e f s) = Some d <->
  exists en, entry_of s !! e = Some en /\ installed (f en) = Some d.
Proof. unfold installed_in. simpl. rewrite lookup_alter_eq. destruct (entry_of s !! e); simpl; naive_solver. Qed.

Lemma installed_alter_ne e e' f s : e <> e' -> installed_in e' (upd_entry e f s) = installed_in e' s.
Proof. intros H. unfold installed_in. simpl. by rewrite lookup_alter_ne. Qed.

(** What is kept in an entry after a connection is taken out of it. *)
Lemma installed_taken c e f s e' d :
  (forall en, installed (f en) = installed (uninstall c en)) ->
  installed_in e' (upd_entry e f s) = Some d <-> installed_in e' s = Some d /\ (e = e' -> d <> c).
Proof.
  intros Hf. destruct (decide (e = e')) as [<-|Hne].
  - rewrite installed_alter. setoid_rewrite Hf. unfold installed_in.
    destruct (entry_of s !! e) as [en|]; simpl; [|naive_solver].
    destruct (uninstall_fields c en) as (_ & _ & _ & H). naive_solver.
  - rewrite installed_alter_ne by done. naive_solver.
Qed.

Lemma closing_connection c cn s d dn : connections s !! c = Some cn ->
  connections (closing c cn s) !! d = Some dn <->
  (d = c /\ dn = set_closed cn) \/ (d <> c /\ connections s !! d = Some dn).
Proof. intros H. simpl. rewrite lookup_alter_Some. naive_solver. Qed.

Lemma closing_entry c cn s e en : entry_of (closing c cn s) !! e = Some en ->
  exists en0, entry_of s !! e = Some en0 /\ generation en = generation en0 /\ pending en = pending en0
    /\ forall d, d ∈ en_connections en <-> d ∈ en_connections en0 /\ (cn_entry cn = e -> d <> c).
Proof.
  simpl. rewrite lookup_alter_Some. intros [(<- & en0 & He & ->)|[Hne He]].
  - exists en0. destruct (uninstall_fields c en0) as (Hg & Hp & _). split_and!; try done.
    intros d. simpl. rewrite elem_of_without. naive_solver.
  - exists en. split_and!; try done. naive_solver.
Qed.

Lemma closing_known c cn s e : is_Some (entry_of s !! e) -> is_Some (entry_of (closing c cn s) !! e).
Proof. simpl. by rewrite lookup_alter_is_Some. Qed.

Lemma sound_closing outside fresh name c cn s :
  connections s !! c = Some cn -> closed cn = false -> outside = None \/ outside = Some c ->
  sound outside fresh name s -> sound None fresh name (closing c cn s).
Proof.
  intros Hc Hop Hout I. assert (K := fun d dn => closing_connection c cn s d dn Hc).
  assert (Hi : forall e d, installed_in e (closing c cn s) = Some d <-> installed_in e s = Some d /\ d <> c).
  { intros e d. unfold closing. rewrite (installed_taken c) by done. unfold installed_in. simpl.
    split; [|naive_solver]. intros [H1 H2]. split; [done|]. intros ->.
    destruct (kept_is_good _ _ _ _ I e c H1) as (cn' & H3 & _ & _ & E). rewrite Hc in H3. naive_solver. }
  destruct I. split; simpl openings; simpl leases; simpl opens; simpl generations; simpl leaseCount; simpl entries.
  - intros d dn [[-> ->]|[Hne H]]%K Hd _; [done|]. destruct (leased_or_kept0 _ _ H Hd) as [?|Hk]; [naive_solver|by left|].
    right. by apply Hi.
  - intros e d [Hd Hne]%Hi. destruct (kept_is_good0 _ _ Hd) as (dn & H & F). exists dn. rewrite K. naive_solver.
  - intros e en d (en0 & He & _ & _ & Hin)%closing_entry. rewrite Hin, (entries_list_open0 _ _ _ He). split.
    + intros [(dn & H & F) Hne]. exists dn. split; [|done]. apply K. right. split; [|done]. intros ->. apply Hne; [|done].
      by simplify_eq; destruct F.
    + intros (dn & [[-> ->]|[Hne H]]%K & F & <-); [done|]. split; [by exists dn|done].
  - intros d dn [[-> ->]|[Hne H]]%K.
    + destruct (connections_known0 _ _ Hc) as (? & ? & ? & ?). split_and!; [done|by apply closing_known|done|done].
    + destruct (connections_known0 _ _ H) as (? & ? & ? & ?). split_and!; [done|by apply closing_known|done|done].
  - intros id o H. destruct (openings_known0 _ _ H) as (? & ? & ? & ?). split_and!; [done|by apply closing_known|done|done].
  - intros id o H Hd Hf. destruct (connections (closing c cn s) !! id) as [dn|] eqn:E; [|done].
    apply K in E. pose proof (unsettled_not_yet0 _ _ H Hd Hf). naive_solver.
  - intros id o d H Hd. destruct (settled_with0 _ _ _ H Hd) as (dn & Hdn & E).
    destruct (decide (d = c)) as [->|Hne]; [exists (set_closed cn)|exists dn]; rewrite K; naive_solver.
  - intros e en p (en0 & He & _ & Hp & _)%closing_entry E. rewrite Hp in E. eauto.
  - intros k e H. destruct (entries_known0 _ _ H). split; [by apply closing_known|done].
  - intros e en (en0 & He & -> & _)%closing_entry. eauto.
  - intros d dn [[-> ->]|[Hne H]]%K; [exact (leases_listed0 _ _ Hc)|exact (leases_listed0 _ _ H)].
  - intros l ls H. destruct (leases_known0 _ _ H) as [[dn Hdn] F]. split; [|done].
    simpl. by apply lookup_alter_is_Some.
  - done.
Qed.

Lemma sound_shutDown outside fresh name c s : outside = None \/ outside = Some c ->
  sound outside fresh name s -> sound None fresh name (shutDown c s).
Proof.
  intros Hout I. destruct (connections s !! c) as [cn|] eqn:Hc.
  - destruct (closed cn) eqn:Hop.
    + unfold shutDown. rewrite Hc, Hop. destruct I. split; try done. intros d dn H Hd _. eapply leased_or_kept0; [done|done|].
      destruct Hout as [->| ->]; [done|]. intros [= ->]. congruence.
    + rewrite (shutDown_closes c cn) by done. apply sound_prune.
      eapply sound_bones; [symmetry; apply bones_abandon_all|]. by eapply sound_closing.
  - unfold shutDown. rewrite Hc. destruct I. split; try done. intros d dn H Hd _. eapply leased_or_kept0; [done|done|].
    destruct Hout as [->| ->]; [done|]. intros [= ->]. congruence.
Qed.

Lemma sound_waive outside fresh name s : sound None fresh name s -> sound outside fresh name s.
Proof. intros []. split; try done. eauto. Qed.

(** The waived connection is fine after all. *)
Lemma sound_unwaive fresh name c s :
  sound (Some c) fresh name s ->
  (forall cn, connections s !! c = Some cn -> closed cn = false ->
     cn_leases cn <> [] \/ installed_in (cn_entry cn) s = Some c) ->
  sound None fresh name s.
Proof.
  intros [] H. split; try done. intros d dn Hd Ho _. destruct (decide (d = c)) as [->|Hne]; [by eapply H|].
  eapply leased_or_kept0; [done|done|congruence].
Qed.

(** [retire] touches the entry and the flag. *)
Lemma retire_connection c s d dn : connections (retire c s) !! d = Some dn ->
  exists dn0, connections s !! d = Some dn0 /\ cn_key dn = cn_key dn0 /\ cn_entry dn = cn_entry dn0
    /\ cn_identity dn = cn_identity dn0 /\ cn_leases dn = cn_leases dn0 /\ closed dn = closed dn0
    /\ (d <> c -> retired dn = retired dn0).
Proof.
  unfold retire. destruct (connections s !! c) as [cn|] eqn:Hc; [|intros H; by exists dn]. simpl.
  rewrite lookup_alter_Some. intros [(-> & dn0 & H & ->)|[Hne H]]; [by exists dn0|by exists dn].
Qed.

Lemma retire_hard c s d dn : connections (retire c s) !! d = Some dn ->
  exists dn0, connections s !! d = Some dn0 /\ cn_key dn = cn_key dn0 /\ cn_entry dn = cn_entry dn0
    /\ hardTimer dn = hardTimer dn0 /\ closed dn = closed dn0.
Proof.
  unfold retire. destruct (connections s !! c) as [cn|] eqn:Hc; [|intros H; by exists dn]. simpl.
  rewrite lookup_alter_Some. intros [(-> & dn0 & H & ->)|[Hne H]]; [by exists dn0|by exists dn].
Qed.

Lemma retire_has c s d dn0 : connections s !! d = Some dn0 -> exists dn, connections (retire c s) !! d = Some dn.
Proof.
  intros H. unfold retire. destruct (connections s !! c) as [cn|] eqn:Hc; [|by exists dn0]. simpl.
  change (is_Some (alter (set_retired true) c (connections s) !! d)). apply lookup_alter_is_Some. by exists dn0.
Qed.

Lemma retire_rest c s : entries (retire c s) = entries s /\ openings (retire c s) = openings s
  /\ leases (retire c s) = leases s /\ generations (retire c s) = generations s /\ opens (retire c s) = opens s
  /\ leaseCount (retire c s) = leaseCount s /\ requests (retire c s) = requests s /\ ops (retire c s) = ops s.
Proof. unfold retire. by destruct (connections s !! c). Qed.

Lemma retire_entry c s e en : entry_of (retire c s) !! e = Some en ->
  exists en0, entry_of s !! e = Some en0 /\ generation en = generation en0 /\ pending en = pending en0
    /\ en_connections en = en_connections en0.
Proof.
  unfold retire. destruct (connections s !! c) as [cn|]; [|intros H; by exists en]. simpl.
  rewrite lookup_alter_Some. intros [(<- & en0 & He & ->)|[Hne He]]; [|by exists en].
  exists en0. by destruct (uninstall_fields c en0) as (? & ? & ? & _).
Qed.

Lemma retire_known c s e : is_Some (entry_of s !! e) -> is_Some (entry_of (retire c s) !! e).
Proof. unfold retire. destruct (connections s !! c); [|done]. simpl. by rewrite lookup_alter_is_Some. Qed.

Lemma sound_retire fresh name c cn s :
  connections s !! c = Some cn -> cn_leases cn <> [] ->
  sound None fresh name s -> sound None fresh name (retire c s).
Proof.
  intros Hc Hl I.
  assert (Hi : forall e d, installed_in e (retire c s) = Some d <-> installed_in e s = Some d /\ d <> c).
  { intros e d. unfold retire. rewrite Hc, (installed_taken c) by done. unfold installed_in. simpl.
    split; [|naive_solver]. intros [H1 H2]. split; [done|]. intros ->.
    destruct (kept_is_good _ _ _ _ I e c H1) as (cn' & H3 & _ & _ & E). rewrite Hc in H3. naive_solver. }
  destruct (retire_rest c s) as (Ee & Eo & El & Eg & En & Ec & _).
  destruct I. split; rewrite ?Ee, ?Eo, ?El, ?Eg, ?En, ?Ec; try done.
  - intros d dn (dn0 & H & _ & -> & _ & -> & -> & _)%retire_connection Hd _.
    destruct (leased_or_kept0 _ _ H Hd) as [?|Hk]; [done|by left|].
    destruct (decide (d = c)) as [->|Hne]; [left; by simplify_eq|]. right. by apply Hi.
  - intros e d [Hd Hne]%Hi. destruct (kept_is_good0 _ _ Hd) as (dn0 & H & ? & ? & ?).
    destruct (retire_has c _ _ _ H) as [dn Hdn]. exists dn.
    destruct (retire_connection _ _ _ _ Hdn) as (dn1 & Hd1 & _ & E1 & _ & _ & E2 & E3). simplify_eq.
    rewrite E1, E2, E3 by done. by split_and!.
  - intros e en d (en0 & He & _ & _ & ->)%retire_entry. rewrite (entries_list_open0 _ _ _ He). split.
    + intros (dn0 & H & F). destruct (retire_has c _ _ _ H) as [dn Hdn]. exists dn. split; [done|].
      destruct (retire_connection _ _ _ _ Hdn) as (dn1 & Hd1 & _ & E1 & _ & _ & E2 & _). simplify_eq. by rewrite E1, E2.
    + intros (dn & (dn0 & H & _ & -> & _ & _ & -> & _)%retire_connection & F). by exists dn0.
  - intros d dn (dn0 & H & -> & -> & -> & ->)%retire_hard. destruct (connections_known0 _ _ H) as (? & ? & ? & ?).
    split_and!; [done|by apply retire_known|done|done].
  - intros id o H. destruct (openings_known0 _ _ H) as (? & ? & ? & ?). split_and!; [done|by apply retire_known|done|done].
  - intros id o H Hd Hf. destruct (connections (retire c s) !! id) as [dn|] eqn:E; [|done].
    apply retire_connection in E as (dn0 & E & _). by rewrite (unsettled_not_yet0 _ _ H Hd Hf) in E.
  - intros id o d H Hd. destruct (settled_with0 _ _ _ H Hd) as (dn0 & Hdn & E).
    destruct (retire_has c _ _ _ Hdn) as [dn Hdn']. exists dn. split; [done|].
    destruct (retire_connection _ _ _ _ Hdn') as (dn1 & Hd1 & E1 & _). simplify_eq. by rewrite E1.
  - intros e en p (en0 & He & _ & -> & _)%retire_entry. eauto.
  - intros k e H. destruct (entries_known0 _ _ H). split; [by apply retire_known|done].
  - intros e en (en0 & He & -> & _)%retire_entry. eauto.
  - intros d dn (dn0 & H & _ & _ & _ & -> & _)%retire_connection. eauto.
  - intros l ls H. destruct (leases_known0 _ _ H) as [[dn Hdn] F]. split; [by eapply retire_has|done].
  - unfold unreleased. by rewrite El.
Qed.

Lemma sound_afterLastLease outside fresh name c s : outside = None \/ outside = Some c ->
  sound outside fresh name s -> sound None fresh name (afterLastLease c s).
Proof.
  intros Hout I. assert (I' : sound (Some c) fresh name s) by (destruct Hout as [->| ->]; [by apply sound_waive|done]).
  unfold afterLastLease. destruct (connections s !! c) as [cn|] eqn:Hc.
  2: { eapply sound_unwaive; [done|]. intros. congruence. }
  destruct (closed cn || _) eqn:E1.
  { eapply sound_unwaive; [done|]. intros cn' H Ho. simplify_eq. rewrite Ho in E1. simpl in E1.
    left. intros El. by rewrite El in E1. }
  destruct (retired cn); [eapply sound_shutDown; [|done]; by right|].
  destruct (installed_in (cn_entry cn) s ≡? Some c) eqn:E2; simpl; [|eapply sound_shutDown; [|done]; by right].
  eapply sound_bones; [symmetry; by apply bones_idle|]. eapply sound_unwaive; [done|].
  intros cn' H _. simplify_eq. right. by tests.
Qed.

(** ** What stays: the requests, the key and identity of a connection, the key
    of an opening, the connection of a lease *)

Record extends (s s' : Pool) : Prop := {
  ext_connection : forall c cn, connections s !! c = Some cn -> exists cn', connections s' !! c = Some cn'
    /\ cn_key cn' = cn_key cn /\ cn_identity cn' = cn_identity cn;
  ext_opening : forall id o, openings s !! id = Some o -> exists o', openings s' !! id = Some o' /\ og_key o' = og_key o;
  ext_lease : forall l ls', leases s' !! l = Some ls' ->
    exists ls, leases s !! l = Some ls /\ ls_connection ls' = ls_connection ls;
  ext_requests : requests s' = requests s }.

#[global] Instance extends_preorder : PreOrder extends.
Proof.
  split.
  - intros s. split; try done; naive_solver.
  - intros s1 s2 s3 [C1 O1 L1 R1] [C2 O2 L2 R2]. split.
    + intros c cn H. destruct (C1 _ _ H) as (cn2 & H2 & E1 & E2). destruct (C2 _ _ H2) as (cn3 & H3 & E3 & E4).
      exists cn3. by rewrite E3, E4.
    + intros id o H. destruct (O1 _ _ H) as (o2 & H2 & E1). destruct (O2 _ _ H2) as (o3 & H3 & E2).
      exists o3. by rewrite E2.
    + intros l ls H. destruct (L2 _ _ H) as (ls2 & H2 & E1). destruct (L1 _ _ H2) as (ls3 & H3 & E2).
      exists ls3. by rewrite E1.
    + by rewrite R2.
Qed.

Lemma extends_bones s s' : same_bones s s' -> extends s s'.
Proof.
  intros H. destruct (bones_rest _ _ H) as (_ & _ & Eo & _ & _ & _ & Er). split; [| | |done].
  - intros c cn Hcn. destruct (bones_connection _ _ _ _ H Hcn) as (cn' & ? & ?%cn_bones_eq). naive_solver.
  - intros id o. rewrite Eo. eauto.
  - intros l ls (ls' & ? & ? & _)%(bones_lease' _ _ _ _ H). eauto.
Qed.

Lemma extends_prune key e s : extends s (prune key e s).
Proof.
  unfold prune. destruct (entry_of s !! e) as [[g i [p|] [|c l]]|]; try done.
  destruct (entries s !! key ≡? Some e); [|done]. split; simpl; eauto.
Qed.

Lemma extends_upd_entry e f s : extends s (upd_entry e f s).
Proof. split; simpl; eauto. Qed.

Lemma extends_upd_connection c f s :
  (forall cn, cn_key (f cn) = cn_key cn /\ cn_identity (f cn) = cn_identity cn) -> extends s (upd_connection c f s).
Proof.
  intros H. split; simpl; eauto. intros d cn Hd. destruct (decide (c = d)) as [<-|Hne].
  - exists (f cn). by rewrite lookup_alter_eq, Hd.
  - exists cn. by rewrite lookup_alter_ne.
Qed.

Lemma extends_upd_lease l f s : (forall ls, ls_connection (f ls) = ls_connection ls) -> extends s (upd_lease l f s).
Proof. intros H. split; simpl; eauto. intros k ls'. rewrite lookup_alter_Some. naive_solver. Qed.

Lemma extends_shutDown c s : extends s (shutDown c s).
Proof.
  destruct (connections s !! c) as [cn|] eqn:Hc; [|unfold shutDown; by rewrite Hc].
  destruct (closed cn) eqn:Hop; [unfold shutDown; by rewrite Hc, Hop|]. rewrite (shutDown_closes c cn) by done.
  etrans; [|apply extends_prune]. etrans; [|apply extends_bones; symmetry; apply bones_abandon_all].
  unfold closing. etrans; [|apply extends_upd_entry]. by apply extends_upd_connection.
Qed.

Lemma extends_retire c s : extends s (retire c s).
Proof.
  unfold retire. destruct (connections s !! c); [|done]. etrans; [|apply extends_upd_entry]. by apply extends_upd_connection.
Qed.

Lemma extends_afterLastLease c s : extends s (afterLastLease c s).
Proof.
  unfold afterLastLease. destruct (connections s !! c); [|done].
  repeat case_match; try done; try apply extends_shutDown. apply extends_bones. symmetry. apply bones_idle.
Qed.

Lemma extends_expire_op c s op : extends s (expire_op c s op).
Proof.
  unfold expire_op. destruct (ops s !! op) as [o|]; [|done]. destruct (op_state o ≡? op_queued).
  - apply extends_bones. symmetry. apply bones_abandon.
  - etrans; [apply extends_retire|]. apply extends_bones. symmetry. apply bones_abandon.
Qed.

Lemma extends_foldl {A} (f : Pool -> A -> Pool) (l : list A) s : (forall s a, extends s (f s a)) -> extends s (foldl f s l).
Proof. intros H. revert s. induction l as [|a l IH]; intros s; [done|]. simpl. etrans; [apply H|apply IH]. Qed.

Lemma extends_expire l s : extends s (expire l s).
Proof.
  unfold expire. destruct (leases s !! l); [|done]. etrans; [by apply (extends_upd_lease l set_expired)|].
  apply extends_foldl. intros. apply extends_expire_op.
Qed.

(** ** The deadline of a lease *)

Lemma sound_upd_lease outside fresh name l f s :
  (forall ls, ls_connection (f ls) = ls_connection ls /\ ls_released (f ls) = ls_released ls
     /\ (ls_timer (f ls) = true -> ls_timer ls = true)) ->
  sound outside fresh name s -> sound outside fresh name (upd_lease l f s).
Proof.
  intros Hf []. split; try done.
  - intros c cn Hc. destruct (leases_listed0 _ _ Hc) as [Hn Hl]. split; [done|]. intros k. rewrite Hl. simpl.
    setoid_rewrite lookup_alter_Some. split.
    + intros (ls & H & F). destruct (decide (l = k)) as [->|Hne]; [|exists ls; by auto].
      exists (f ls). destruct (Hf ls) as (-> & -> & _). split; [left; by eauto|done].
    + intros (ls & [(-> & ls0 & H & ->)|[Hne H]] & F); [|by exists ls].
      exists ls0. by destruct (Hf ls0) as (<- & <- & _).
  - intros k ls. simpl. rewrite lookup_alter_Some. intros [(-> & ls0 & H & ->)|[Hne H]]; [|eauto].
    destruct (Hf ls0) as (-> & -> & Ht). destruct (leases_known0 _ _ H) as [? F]. auto.
  - simpl. rewrite leases_counted0. f_equal. unfold unreleased. rewrite <- !size_dom. f_equal. apply set_eq. intros k.
    rewrite !elem_of_dom. unfold is_Some. setoid_rewrite map_lookup_filter_Some. simpl. setoid_rewrite lookup_alter_Some. split.
    + intros (ls & H & F). destruct (decide (l = k)) as [->|Hne]; [|exists ls; by auto].
      exists (f ls). destruct (Hf ls) as (_ & -> & _). split; [left; by eauto|done].
    + intros (ls & [(-> & ls0 & H & ->)|[Hne H]] & F); [|by exists ls].
      exists ls0. by destruct (Hf ls0) as (_ & <- & _).
Qed.

Definition leased (c : nat) (s : Pool) : Prop := exists cn, connections s !! c = Some cn /\ cn_leases cn <> [].

Lemma sound_expire_op fresh name c op s :
  sound None fresh name s -> leased c s -> sound None fresh name (expire_op c s op) /\ leased c (expire_op c s op).
Proof.
  intros I (cn & Hc & Hl). unfold expire_op. destruct (ops s !! op) as [o|]; [|by split; [|exists cn]].
  destruct (op_state o ≡? op_queued).
  - split; [eapply sound_bones; [symmetry; apply bones_abandon|done]|].
    destruct (bones_connection _ _ _ _ (symmetry (bones_abandon queueExpired op s)) Hc) as (cn' & Hc' & E%cn_bones_eq).
    exists cn'. split; [done|]. by destruct E as (_ & _ & _ & -> & _).
  - split; [eapply sound_bones; [symmetry; apply bones_abandon|]; by eapply sound_retire|].
    destruct (retire_has c _ _ _ Hc) as [cn1 Hc1].
    destruct (bones_connection _ _ _ _ (symmetry (bones_abandon deadlinePassed op (retire c s))) Hc1) as (cn' & Hc' & E%cn_bones_eq).
    exists cn'. split; [done|]. destruct E as (_ & _ & _ & -> & _).
    destruct (retire_connection _ _ _ _ Hc1) as (cn0 & H0 & _ & _ & _ & -> & _). by simplify_eq.
Qed.

Lemma lease_holds outside fresh name l ls s : sound outside fresh name s -> leases s !! l = Some ls -> ls_released ls = false ->
  leased (ls_connection ls) s.
Proof.
  intros I Hl Hr. destruct (leases_known _ _ _ _ I _ _ Hl) as [[cn Hc] _]. exists cn. split; [done|].
  destruct (leases_listed _ _ _ _ I _ _ Hc) as [_ H]. assert (Hin : l ∈ cn_leases cn) by (apply H; by exists ls).
  intros E. rewrite E in Hin. by apply not_elem_of_nil in Hin.
Qed.

Lemma sound_expire fresh name l ls s : leases s !! l = Some ls -> ls_timer ls = true ->
  sound None fresh name s -> sound None fresh name (expire l s).
Proof.
  intros Hl Ht I. unfold expire. rewrite Hl.
  assert (H : sound None fresh name (upd_lease l set_expired s)) by (apply sound_upd_lease; [|done]; intros []; by split_and!).
  assert (Hh : leased (ls_connection ls) (upd_lease l set_expired s)).
  { eapply (lease_holds _ _ _ l (set_expired ls)); [done|simpl; by rewrite lookup_alter_eq, Hl|].
    destruct (leases_known _ _ _ _ I _ _ Hl) as [_ F]. by apply F. }
  revert H Hh. generalize (upd_lease l set_expired s). induction (ls_ops ls) as [|op rest IH]; intros s' H Hh; [done|].
  simpl. destruct (sound_expire_op _ _ _ op _ H Hh). by apply IH.
Qed.

(** ** Taking and giving back a lease *)

Lemma unreleased_insert l ls s : leases s !! l = None -> ls_released ls = false ->
  size (filter (fun p => ls_released p.2 = false) (<[l := ls]> (leases s))) = S (size (unreleased s)).
Proof.
  intros Hl Hr. rewrite map_filter_insert_True by done. rewrite map_size_insert_None; [done|].
  apply map_lookup_filter_None. by left.
Qed.

Lemma sound_checkout outside fresh name c cn l s :
  connections s !! c = Some cn -> leases s !! l = None ->
  sound outside fresh name s -> sound outside fresh name (checkout c l s).
Proof.
  intros Hc Hl I. unfold checkout. destruct I. split; simpl; try done.
  - intros d dn H Ho Hd. apply lookup_alter_Some in H as [(<- & cn0 & H & ->)|[Hne H]]; [|by eapply leased_or_kept0].
    left. simpl. by destruct (cn_leases cn0).
  - intros e d Hd. destruct (kept_is_good0 e d Hd) as (dn & H & F). destruct (decide (c = d)) as [<-|Hne].
    + rewrite lookup_alter_eq, H. simpl. eexists. split; [done|]. exact F.
    + rewrite lookup_alter_ne by done. by exists dn.
  - intros e en d He. rewrite (entries_list_open0 _ _ _ He). setoid_rewrite lookup_alter_Some. split.
    + intros (dn & H & F). destruct (decide (c = d)) as [<-|Hne]; [|by exists dn; eauto]. eexists. split; [by left; eauto|exact F].
    + intros (dn & [(<- & cn0 & H & ->)|[Hne H]] & F); [by exists cn0|by exists dn].
  - intros d dn. rewrite lookup_alter_Some. intros [(<- & cn0 & H & ->)|[Hne H]]; eauto.
    exact (connections_known0 _ _ H).
  - intros id o Ho Hd Hf. rewrite lookup_alter_None. eauto.
  - intros id o d Ho Hd. destruct (settled_with0 _ _ _ Ho Hd) as (dn & H & E). setoid_rewrite lookup_alter_Some.
    destruct (decide (c = d)) as [<-|Hne]; [|by exists dn; eauto]. eexists. split; [by left; eauto|exact E].
  - intros d dn. rewrite lookup_alter_Some. intros [(<- & cn0 & H & ->)|[Hne H]]; destruct (leases_listed0 _ _ H) as [Hn Hin].
    + simpl. split.
      * apply NoDup_app. split_and!; [done| |by apply NoDup_singleton]. intros k Hk ->%list_elem_of_singleton.
        apply Hin in Hk as (ls & Hk & _). congruence.
      * intros k. rewrite elem_of_app, list_elem_of_singleton, Hin. setoid_rewrite lookup_insert_Some. split.
        -- intros [(ls & Hk & F)| ->]; [|by eexists; split; [by left|]]. exists ls. split; [|done]. right. split; [|done]. intros ->. congruence.
        -- intros (ls & [[<- <-]|[_ Hk]] & F); [by right|left; by exists ls].
    + split; [done|]. intros k. rewrite Hin. setoid_rewrite lookup_insert_Some. split.
      * intros (ls & Hk & F). exists ls. split; [|done]. right. split; [|done]. intros ->. congruence.
      * intros (ls & [[<- <-]|[_ Hk]] & F); [by destruct F|by exists ls].
  - intros k ls. rewrite lookup_insert_Some. rewrite lookup_alter_is_Some. intros [[<- <-]|[_ Hk]]; [|eauto].
    split; [by exists cn|done].
  - rewrite leases_counted0. unfold unreleased at 2. simpl. rewrite unreleased_insert by done. lia.
Qed.

(** What [release] does to the lease and the connection. *)
Definition giving_back (l : nat) (c : nat) (s : Pool) : Pool :=
  upd_connection c (fun cn => set_cn_leases (without l (cn_leases cn)) cn)
    (with_leaseCount (leaseCount s - 1) (upd_lease l set_released s)).

Lemma bones_under_connection c f s s' :
  (forall cn cn', cn_bones cn = cn_bones cn' -> cn_bones (f cn) = cn_bones (f cn')) ->
  same_bones s s' -> same_bones (upd_connection c f s) (upd_connection c f s').
Proof.
  intros Hf H. pose proof (f_equal connections H) as Ec. unfold same_bones, bones in *. simpl in *.
  assert (E : cn_bones <$> alter f c (connections s) = cn_bones <$> alter f c (connections s')).
  { apply map_eq. intros d. pose proof (f_equal (lookup d) Ec) as Ed. rewrite !lookup_fmap in *.
    destruct (decide (c = d)) as [<-|Hne]; [|by rewrite !lookup_alter_ne].
    rewrite !lookup_alter_eq. destruct (connections s !! c), (connections s' !! c); try done. simpl in *.
    f_equal. apply Hf. by apply (inj Some). }
  rewrite E. injection H as -> -> _ -> -> -> -> -> ->. done.
Qed.

Lemma unreleased_release l ls s : leases s !! l = Some ls -> ls_released ls = false ->
  S (size (filter (fun p => ls_released p.2 = false) (alter set_released l (leases s)))) = size (unreleased s).
Proof.
  intros Hl Hr. unfold unreleased.
  assert (E : filter (fun p => ls_released p.2 = false) (alter set_released l (leases s)) = delete l (unreleased s)).
  { apply map_eq. intros k. apply option_eq. intros ks.
    rewrite map_lookup_filter_Some, lookup_delete_Some, lookup_alter_Some. unfold unreleased.
    rewrite map_lookup_filter_Some. simpl. split.
    - intros [[(-> & ls0 & H & ->)|[Hne H]] F]; [done|]. by split_and!.
    - intros (Hne & H & F). split; [by right|done]. }
  rewrite E, map_size_delete_Some; [|eexists; by apply map_lookup_filter_Some].
  assert (Hne : size (unreleased s) <> 0%nat).
  { intros Hz. apply map_size_empty_iff in Hz. assert (Hin : unreleased s !! l = Some ls) by (by apply map_lookup_filter_Some).
    by rewrite Hz, lookup_empty in Hin. }
  unfold unreleased in *. lia.
Qed.

Lemma sound_giving_back fresh name l ls s :
  leases s !! l = Some ls -> ls_released ls = false ->
  sound None fresh name s -> sound (Some (ls_connection ls)) fresh name (giving_back l (ls_connection ls) s).
Proof.
  intros Hl Hr []. unfold giving_back. set (c := ls_connection ls). split; simpl; try done.
  - intros d dn H Ho Hd. apply lookup_alter_Some in H as [(<- & cn0 & H & ->)|[Hne H]]; [done|by eapply leased_or_kept0].
  - intros e d Hd. destruct (kept_is_good0 e d Hd) as (dn & H & F). setoid_rewrite lookup_alter_Some.
    destruct (decide (c = d)) as [<-|Hne]; [|by exists dn; eauto]. eexists. split; [by left; eauto|exact F].
  - intros e en d He. rewrite (entries_list_open0 _ _ _ He). setoid_rewrite lookup_alter_Some. split.
    + intros (dn & H & F). destruct (decide (c = d)) as [<-|Hne]; [|by exists dn; eauto]. eexists. split; [by left; eauto|exact F].
    + intros (dn & [(<- & cn0 & H & ->)|[Hne H]] & F); [by exists cn0|by exists dn].
  - intros d dn. rewrite lookup_alter_Some. intros [(<- & cn0 & H & ->)|[Hne H]]; eauto. exact (connections_known0 _ _ H).
  - intros id o Ho Hd Hf. rewrite lookup_alter_None. eauto.
  - intros id o d Ho Hd. destruct (settled_with0 _ _ _ Ho Hd) as (dn & H & E). setoid_rewrite lookup_alter_Some.
    destruct (decide (c = d)) as [<-|Hne]; [|by exists dn; eauto]. eexists. split; [by left; eauto|exact E].
  - intros d dn. rewrite lookup_alter_Some. intros [(<- & cn0 & H & ->)|[Hne H]]; destruct (leases_listed0 _ _ H) as [Hn Hin].
    + simpl. split; [by apply NoDup_without|]. intros k. rewrite elem_of_without, Hin. setoid_rewrite lookup_alter_Some. split.
      * intros (Hk & ks & H' & F). exists ks. by auto.
      * intros (ks & [(-> & ks0 & H' & ->)|[Hk H']] & F); [by destruct F|]. split; [done|by exists ks].
    + split; [done|]. intros k. rewrite Hin. setoid_rewrite lookup_alter_Some. split.
      * intros (ks & Hk & F & F'). exists ks. split; [|done]. right. split; [|done]. intros <-. by simplify_eq.
      * intros (ks & [(-> & ks0 & H' & ->)|[_ Hk]] & F); [by destruct F|by exists ks].
  - intros k ks. rewrite lookup_alter_Some, lookup_alter_is_Some. intros [(-> & ks0 & H' & ->)|[Hk H']]; [|eauto].
    split; [exact (proj1 (leases_known0 _ _ H'))|done].
  - rewrite leases_counted0. unfold unreleased at 2. simpl.
    pose proof (unreleased_release l ls s Hl Hr). lia.
Qed.

Lemma release_bones l ls s : leases s !! l = Some ls -> ls_released ls = false ->
  exists s1, same_bones s1 (giving_back l (ls_connection ls) s)
    /\ release_lease l s = afterLastLease (ls_connection ls) s1.
Proof.
  intros Hl Hr. unfold release_lease. rewrite Hl, Hr. eexists. split; [|done]. unfold giving_back.
  apply bones_under_connection; [|apply bones_abandon_all].
  intros [] [] [=]. subst. done.
Qed.

Lemma sound_release fresh name l s : sound None fresh name s -> sound None fresh name (release_lease l s).
Proof.
  intros I. destruct (leases s !! l) as [ls|] eqn:Hl; [|unfold release_lease; by rewrite Hl].
  destruct (ls_released ls) eqn:Hr; [unfold release_lease; by rewrite Hl, Hr|].
  destruct (release_bones l ls s Hl Hr) as (s1 & H & ->).
  eapply sound_afterLastLease; [by right|]. eapply sound_bones; [symmetry; exact H|]. by apply sound_giving_back.
Qed.

Lemma extends_release l s : extends s (release_lease l s).
Proof.
  destruct (leases s !! l) as [ls|] eqn:Hl; [|unfold release_lease; by rewrite Hl].
  destruct (ls_released ls) eqn:Hr; [unfold release_lease; by rewrite Hl, Hr|].
  destruct (release_bones l ls s Hl Hr) as (s1 & H & ->).
  etrans; [|apply extends_afterLastLease]. etrans; [|apply extends_bones; symmetry; exact H].
  unfold giving_back. etrans; [|by apply extends_upd_connection].
  etrans; [by apply (extends_upd_lease l set_released)|]. split; simpl; eauto.
Qed.

(** ** Entries and openings *)

Lemma sound_entryFor fresh name key e s s' :
  sound None fresh name s -> entryFor key s = (e, s') ->
  exists name', sound None fresh name' s' /\ name' e = key /\ is_Some (entry_of s' !! e) /\ extends s s'
    /\ connections s' = connections s /\ leases s' = leases s
    /\ forall x, is_Some (entry_of s !! x) -> name' x = name x.
Proof.
  intros I. unfold entryFor. destruct (entries s !! key) as [e0|] eqn:He; intros [= <- <-].
  { destruct (entries_known _ _ _ _ I _ _ He) as [H1 H2]. by exists name. }
  set (g := S (generations s)). exists (fun x => if (x =? g)%nat then key else name x).
  assert (Hnew : entry_of s !! g = None).
  { destruct (entry_of s !! g) as [en|] eqn:E; [|done]. apply (generations_known _ _ _ _ I) in E. lia. }
  assert (Hold : forall x, is_Some (entry_of s !! x) -> (x =? g)%nat = false).
  { intros x [en Hx]. apply Nat.eqb_neq. intros ->. congruence. }
  assert (Hin : forall x, is_Some (entry_of s !! x) -> is_Some (<[g := MkEntry g None None []]> (entry_of s) !! x)).
  { intros x Hx. rewrite lookup_insert_is_Some'. by right. }
  split_and!; simpl; [|by rewrite Nat.eqb_refl|by rewrite lookup_insert_eq|split; simpl; eauto|done|done|intros x Hx; by rewrite (Hold x Hx)].
  destruct I. split; simpl; try done.
  - intros c cn Hc Ho Hf. destruct (leased_or_kept0 _ _ Hc Ho Hf) as [?|H]; [by left|right].
    unfold installed_in in *. simpl. rewrite lookup_insert_ne; [done|]. intros E. by rewrite <- E, Hnew in H.
  - intros x c. unfold installed_in. simpl. destruct (decide (g = x)) as [<-|Hne].
    + by rewrite lookup_insert_eq.
    + rewrite lookup_insert_ne by done. apply kept_is_good0.
  - intros x en c. rewrite lookup_insert_Some. intros [[<- <-]|[Hne H]]; [|by apply entries_list_open0].
    split; [by intros ?%not_elem_of_nil|]. intros (cn & Hc & _ & E).
    destruct (connections_known0 _ _ Hc) as (_ & H & _). rewrite E, Hnew in H. by destruct H.
  - intros c cn Hc. destruct (connections_known0 _ _ Hc) as (? & H & <- & ?). split_and!; [done|by apply Hin|by rewrite (Hold _ H)|done].
  - intros id o Hid. destruct (openings_known0 _ _ Hid) as (? & H & <- & ?). split_and!; [done|by apply Hin|by rewrite (Hold _ H)|lia].
  - intros x en p. rewrite lookup_insert_Some. intros [[<- <-]|[Hne H]]; [done|by eapply pending_open0].
  - intros k x. rewrite lookup_insert_Some. intros [[<- <-]|[Hne H]].
    + by rewrite lookup_insert_eq, Nat.eqb_refl.
    + destruct (entries_known0 _ _ H) as [H' <-]. split; [by apply Hin|]. by rewrite (Hold _ H').
  - intros x en. rewrite lookup_insert_Some. intros [[<- <-]|[Hne H]]; [simpl; lia|]. apply generations_known0 in H. lia.
Qed.

(** An entry whose pending opening alone changes. *)
Lemma installed_pending e f s d : (forall en, installed (f en) = installed en) ->
  installed_in d (upd_entry e f s) = installed_in d s.
Proof.
  intros Hf. unfold installed_in. simpl. destruct (decide (e = d)) as [<-|Hne]; [|by rewrite lookup_alter_ne].
  rewrite lookup_alter_eq. destruct (entry_of s !! e); simpl; by rewrite ?Hf.
Qed.

Lemma sound_upd_entry outside fresh name e f s : 
  (forall en, installed (f en) = installed en /\ en_connections (f en) = en_connections en) ->
  (forall en, entry_of s !! e = Some en -> (generation (f en) <= generations s)%nat) ->
  (forall en p, entry_of s !! e = Some en -> pending (f en) = Some p ->
     exists o, openings s !! pd_id p = Some o /\ og_entry o = e /\ og_done o = None /\ fresh <> Some (pd_id p)) ->
  sound outside fresh name s -> sound outside fresh name (upd_entry e f s).
Proof.
  intros Hf Hg Hp I.
  assert (Hi : forall d, installed_in d (upd_entry e f s) = installed_in d s) by (intros; apply installed_pending; apply Hf).
  destruct I. split; try done; simpl; setoid_rewrite lookup_alter_is_Some || setoid_rewrite lookup_alter_Some || idtac; try done.
  - intros c cn. rewrite Hi. eauto.
  - intros d c. rewrite Hi. eauto.
  - intros d en c [(-> & en0 & H & ->)|[Hne H]]; [|eauto]. destruct (Hf en0) as [_ ->]. eauto.
  - intros d en p [(-> & en0 & H & ->)|[Hne H]] E; [|eauto]. by apply (Hp en0).
  - intros d en [(-> & en0 & H & ->)|[Hne H]]; [|eauto]. destruct (generations_known0 _ _ H). split; [done|]. by apply Hg.
Qed.

Lemma sound_startOpen name key e identity id s s' :
  sound None None name s -> name e = key -> is_Some (entry_of s !! e) -> startOpen key e identity s = (id, s') ->
  sound None None name s' /\ extends s s' /\ leases s' = leases s
    /\ exists o, openings s' !! id = Some o /\ og_key o = key.
Proof.
  intros I Hn He [= <- <-]. set (id := S (opens s)). set (o := MkOpening key e identity _ None).
  assert (Hnew : openings s !! id = None).
  { destruct (openings s !! id) as [x|] eqn:E; [|done]. apply (openings_known _ _ _ _ I) in E. lia. }
  assert (Hno : connections s !! id = None).
  { destruct (connections s !! id) as [x|] eqn:E; [|done]. apply (connections_known _ _ _ _ I) in E. lia. }
  split_and!; [|split; simpl; eauto|done|exists o; simpl; by rewrite lookup_insert_eq].
  - apply sound_upd_entry; [done| | |].
    + intros en H. simpl in *. by apply (generations_known _ _ _ _ I) in H as [_ ?].
    + intros en p _ [= <-]. simpl. exists o. by rewrite lookup_insert_eq.
    + destruct I. split; simpl; try done.
      * intros c cn Hc. destruct (connections_known0 _ _ Hc) as (? & ? & ? & ?). split_and!; [lia|done|done|done].
      * intros x y. rewrite lookup_insert_Some. intros [[<- <-]|[Hne H]].
        -- split_and!; [done|done|done|]. simpl. unfold generation_of.
           destruct (entry_of s !! e) as [en|] eqn:Een; simpl; [|lia]. by destruct (generations_known0 _ _ Een).
        -- destruct (openings_known0 _ _ H) as (? & ? & ? & ?). split_and!; [lia|done|done|done].
      * intros x y. rewrite lookup_insert_Some. intros [[<- <-]|[Hne H]]; [done|eauto].
      * intros x y c. rewrite lookup_insert_Some. intros [[<- <-]|[Hne H]]; [done|eauto].
      * intros x en p H E. destruct (pending_open0 _ _ _ H E) as (y & Hy & F). exists y. split; [|done].
        rewrite lookup_insert_ne; [done|congruence].
  - intros x y H. simpl. rewrite lookup_insert_ne by congruence. eauto.
Qed.

Lemma sound_fresh name id s :
  sound None None name s ->
  (forall e en p, entry_of s !! e = Some en -> pending en = Some p -> pd_id p <> id) ->
  sound None (Some id) name s.
Proof.
  intros [] H. split; try done; [eauto|]. intros e en p He Hp. destruct (pending_open0 _ _ _ He Hp) as (o & ? & ? & ? & _).
  exists o. split_and!; try done. intros [= E]. by apply (H _ _ _ He Hp).
Qed.

Lemma sound_settle name id o outcome s :
  sound None (Some id) name s -> openings s !! id = Some o ->
  (forall c, outcome = Some c -> exists cn, connections s !! c = Some cn /\ cn_key cn = og_key o) ->
  sound None None name (settle_opening id outcome s).
Proof.
  intros [] Ho Hout. unfold settle_opening. split; simpl; try done.
  - intros x y. rewrite lookup_alter_Some. intros [(-> & y0 & H & ->)|[Hne H]]; eauto. exact (openings_known0 _ _ H).
  - intros x y. rewrite lookup_alter_Some. intros [(-> & y0 & H & ->)|[Hne H]]; [done|]. intros E _.
    apply (unsettled_not_yet0 _ _ H E). congruence.
  - intros x y c. rewrite lookup_alter_Some. intros [(-> & y0 & H & ->)|[Hne H]]; [|eauto]. simpl. intros [= E]. simplify_eq.
    by apply Hout.
  - intros e en p He Hp. destruct (pending_open0 _ _ _ He Hp) as (y & H & ? & ? & Hne). exists y. split_and!; try done.
    rewrite lookup_alter_ne; [done|congruence].
Qed.

(** The pending opening of an entry is no more. *)
Lemma sound_unpend name id o s :
  sound None None name s -> openings s !! id = Some o -> og_done o = None ->
  is_pending id (og_entry o) s = true ->
  sound None (Some id) name (upd_entry (og_entry o) (set_pending None) s).
Proof.
  intros I Ho Hd Hp. apply sound_fresh.
  - apply sound_upd_entry; [done| |done|done]. intros en H. simpl. by apply (generations_known _ _ _ _ I) in H as [_ ?].
  - intros e en p. simpl. rewrite lookup_alter_Some. intros [(<- & en0 & H & ->)|[Hne H]] E; [done|]. intros <-.
    destruct (pending_open _ _ _ _ I _ _ _ H E) as (y & Hy & Ey & _). congruence.
Qed.

Lemma sound_not_pending name id o s :
  sound None None name s -> openings s !! id = Some o -> is_pending id (og_entry o) s = false ->
  sound None (Some id) name s.
Proof.
  intros I Ho Hp. apply sound_fresh; [done|]. intros e en p He Ep <-.
  destruct (pending_open _ _ _ _ I _ _ _ He Ep) as (y & Hy & <- & _). simplify_eq. unfold is_pending in Hp. rewrite He in Hp.
  destruct en as [g i pe l]. simpl in Ep. subst. by rewrite Nat.eqb_refl in Hp.
Qed.

Lemma sound_giveUp name id o s :
  sound None None name s -> openings s !! id = Some o -> og_done o = None ->
  sound None (Some id) name (giveUp id o s) /\ extends s (giveUp id o s) /\ openings (giveUp id o s) = openings s.
Proof.
  intros I Ho Hd. unfold giveUp. destruct (is_pending id (og_entry o) s) eqn:E.
  - split_and!; [apply sound_prune; by apply sound_unpend|etrans; [apply extends_upd_entry|apply extends_prune]|].
    by rewrite (proj2 (proj2 (prune_rest _ _ _))).
  - split_and!; [by eapply sound_not_pending|done|done].
Qed.

(** What [install] does before it sees to the connection that was there. *)
Definition installing (id : nat) (key : string) (e : nat) (identity : ConnectionIdentity) (now : Z) (s : Pool) : Pool :=
  upd_entry e (fun entry => set_en_connections (en_connections entry ++ [id]) (set_installed (Some id) entry))
    (with_connections
       (<[id := MkConnection key e identity now createChannelLimiter [] [] false false false true]> (connections s)) s).

Lemma sound_installing name id o identity now s :
  sound None (Some id) name s -> openings s !! id = Some o -> connections s !! id = None ->
  sound (installed_in (og_entry o) s) (Some id) name (installing id (og_key o) (og_entry o) identity now s).
Proof.
  intros I Ho Hc. destruct (openings_known _ _ _ _ I _ _ Ho) as (Hid & [en He] & Hn & _).
  set (e := og_entry o) in *. unfold installing.
  assert (Hkept : forall d c, d <> e -> installed_in d (upd_entry e (fun entry => set_en_connections (en_connections entry ++ [id]) (set_installed (Some id) entry))
    (with_connections (<[id := MkConnection (og_key o) e identity now createChannelLimiter [] [] false false false true]> (connections s)) s)) = Some c
    <-> installed_in d s = Some c).
  { intros d c Hd. unfold installed_in. simpl. by rewrite lookup_alter_ne. }
  assert (Hhere : installed_in e s = installed en) by (unfold installed_in; by rewrite He).
  destruct I. split; simpl; try done.
  - intros c cn. rewrite lookup_insert_Some. intros [[<- <-]|[Hne H]] Hop Hout.
    + right. unfold installed_in. simpl. by rewrite lookup_alter_eq, He.
    + destruct (leased_or_kept0 _ _ H Hop) as [?|Hk]; [done|by left|]. right.
      apply Hkept; [|done]. intros E. rewrite E, Hhere in Hk. by rewrite Hhere, Hk in Hout.
  - intros d c Hd. destruct (decide (d = e)) as [->|Hne].
    + unfold installed_in in Hd. simpl in Hd. rewrite lookup_alter_eq, He in Hd. injection Hd as <-.
      rewrite lookup_insert_eq. by eexists.
    + apply Hkept in Hd; [|done]. destruct (kept_is_good0 _ _ Hd) as (cn & H & F). exists cn.
      rewrite lookup_insert_ne by congruence. done.
  - intros d dn c. rewrite lookup_alter_Some. setoid_rewrite lookup_insert_Some. intros [(<- & en0 & H & ->)|[Hne H]].
    + simpl. rewrite elem_of_app, list_elem_of_singleton, (entries_list_open0 _ _ _ H). split.
      * intros [(cn & Hcn & F)| ->]; [|by eexists; split; [by left|]]. exists cn. split; [right; split; [congruence|done]|done].
      * intros (cn & [[<- <-]|[_ Hcn]] & F); [by right|left; by exists cn].
    + rewrite (entries_list_open0 _ _ _ H). split.
      * intros (cn & Hcn & F). exists cn. split; [right; split; [congruence|done]|done].
      * intros (cn & [[<- <-]|[_ Hcn]] & F & F'); [by simpl in F'|by exists cn].
  - intros c cn. rewrite lookup_insert_Some, lookup_alter_is_Some. intros [[<- <-]|[Hne H]]; [by simpl; split_and!; eauto|eauto].
  - intros x y H. rewrite lookup_alter_is_Some. eauto.
  - intros x y H E Hne. rewrite lookup_insert_ne by congruence. eauto.
  - intros x y c H E. destruct (settled_with0 _ _ _ H E) as (cn & Hcn & F). exists cn. rewrite lookup_insert_ne by congruence. done.
  - intros d dn p. rewrite lookup_alter_Some. intros [(<- & en0 & H & ->)|[Hne H]]; [exact (pending_open0 _ _ _ H)|eauto].
  - intros k x H. rewrite lookup_alter_is_Some. eauto.
  - intros d dn. rewrite lookup_alter_Some. intros [(<- & en0 & H & ->)|[Hne H]]; [exact (generations_known0 _ _ H)|eauto].
  - intros c cn. rewrite lookup_insert_Some. intros [[<- <-]|[Hne H]]; [|eauto]. split; [constructor|]. intros l. simpl.
    split; [by intros ?%not_elem_of_nil|]. intros (ls & Hl & E & _). destruct (leases_known0 _ _ Hl) as [[cn Hcn] _]. congruence.
  - intros l ls Hl. destruct (leases_known0 _ _ Hl) as [H F]. split; [|done]. rewrite lookup_insert_is_Some'. by right.
Qed.

Lemma installing_extends id key e identity now s : connections s !! id = None ->
  extends s (installing id key e identity now s).
Proof.
  intros Hc. split; simpl; eauto. intros c cn H. exists cn. rewrite lookup_insert_ne by congruence. done.
Qed.

Lemma sound_opened name id o ok now s :
  sound None None name s -> openings s !! id = Some o -> og_done o = None ->
  sound None None name (opened id ok now s) /\ extends s (opened id ok now s).
Proof.
  intros I Ho Hd. unfold opened. rewrite Ho. set (e := og_entry o).
  assert (Hsettle : forall out x, extends x (settle_opening id out x)).
  { intros out x. split; simpl; eauto. intros y yo Hy. destruct (decide (id = y)) as [<-|Hne].
    - rewrite lookup_alter_eq, Hy. by eexists.
    - rewrite lookup_alter_ne by done. eauto. }
  destruct (is_pending id e s && _) eqn:Ec; simpl.
  2: { rewrite orb_true_r. simpl. destruct (sound_giveUp name id o s I Ho Hd) as (I' & X & Eo).
       split; [eapply sound_settle; [exact I'|by rewrite Eo|done]|]. etrans; [exact X|apply Hsettle]. }
  rewrite orb_false_r. destruct (negb ok || _) eqn:Er; simpl.
  { destruct (sound_giveUp name id o s I Ho Hd) as (I' & X & Eo).
    split; [eapply sound_settle; [exact I'|by rewrite Eo|done]|]. etrans; [exact X|apply Hsettle]. }
  apply andb_true_iff in Ec as [Hp _].
  pose proof (sound_unpend name id o s I Ho Hd Hp) as I1. fold e in I1.
  set (s1 := upd_entry e (set_pending None) s) in *.
  assert (Hno : connections s1 !! id = None) by (by eapply (unsettled_not_yet _ _ _ _ I)).
  assert (Ho1 : openings s1 !! id = Some o) by done.
  pose proof (sound_installing name id o (og_identity o) now s1 I1 Ho1 Hno) as I2. fold e in I2.
  pose proof (installing_extends id (og_key o) e (og_identity o) now s1 Hno) as X2.
  assert (Hin : sound None (Some id) name (install id (og_key o) e (og_identity o) now s1)
    /\ extends (installing id (og_key o) e (og_identity o) now s1) (install id (og_key o) e (og_identity o) now s1)).
  { unfold install. fold (installing id (og_key o) e (og_identity o) now s1).
    destruct (installed_in e s1) as [p|] eqn:Ep; [|done].
    destruct (kept_is_good _ _ _ _ I1 _ _ Ep) as (old & Hold & _).
    destruct (ext_connection _ _ X2 _ _ Hold) as (old' & Hold' & _). rewrite Hold'.
    destruct (sameConnectionIdentity _ _).
    - split; [eapply (sound_afterLastLease (Some p)); [by right|exact I2]|apply extends_afterLastLease].
    - split; [eapply (sound_shutDown (Some p)); [by right|exact I2]|apply extends_shutDown]. }
  destruct Hin as [I3 X3].
  destruct (ext_opening _ _ X3 id o Ho1) as (o3 & Ho3 & Ek).
  split.
  - eapply sound_settle; [exact I3|exact Ho3|]. intros c [= <-].
    destruct (ext_connection _ _ X3 id (MkConnection (og_key o) e (og_identity o) now createChannelLimiter [] [] false false false true))
      as (cn & Hcn & E & _); [simpl; by rewrite lookup_insert_eq|]. exists cn. by rewrite E, Ek.
  - etrans; [by apply (extends_upd_entry e (set_pending None))|]. fold s1. etrans; [exact X2|]. etrans; [exact X3|apply Hsettle].
Qed.

Lemma sound_evict name key s : sound None None name s -> sound None None name (evict key s) /\ extends s (evict key s).
Proof.
  intros I. unfold evict. destruct (entries s !! key) as [e|] eqn:He; [|done].
  set (g := S (generations s)). set (s1 := upd_entry e (set_generation g) (with_generations g s)).
  assert (I1 : sound None None name s1).
  { unfold s1. apply sound_upd_entry; [done|by intros en _; simpl|simpl; by apply (pending_open _ _ _ _ I)|].
    destruct I. split; simpl; try done.
    - intros id o H. destruct (openings_known0 _ _ H) as (? & ? & ? & ?). split_and!; [done|done|done|unfold g; lia].
    - intros d en H. apply generations_known0 in H. unfold g. lia. }
  assert (X1 : extends s s1) by (split; simpl; eauto).
  generalize (default [] (option_map en_connections (entry_of s1 !! e))). intros all.
  assert (H : forall x, sound None None name x -> sound None None name (foldl (fun s c => shutDown c s) x all)).
  { induction all as [|c all IH]; intros x Hx; [done|]. simpl. apply IH. eapply sound_shutDown; [by left|done]. }
  split; [by apply sound_prune, H|]. etrans; [exact X1|]. etrans; [|apply extends_prune].
  apply extends_foldl. intros. apply extends_shutDown.
Qed.

(** ** Which entries the map has *)

(** The entry has a connection, or one is being opened in it. *)
Definition busy (e : nat) (s : Pool) : Prop := exists en,
  entry_of s !! e = Some en /\ (pending en <> None \/ en_connections en <> []).

(** No entry becomes busy, and the map loses at most entries that are not. *)
Record narrows (s s' : Pool) : Prop := {
  less_busy : forall e, busy e s' -> busy e s;
  less_known : forall key e, entries s !! key = Some e -> busy e s' -> entries s' !! key = Some e }.

#[global] Instance narrows_preorder : PreOrder narrows.
Proof. split; [by split|]. intros s1 s2 s3 [B1 K1] [B2 K2]. split; eauto. Qed.

Lemma narrows_same s s' : entries s' = entries s -> entry_of s' = entry_of s -> narrows s s'.
Proof. intros E1 E2. split; unfold busy; rewrite ?E1, ?E2; eauto. Qed.

Lemma narrows_bones s s' : same_bones s s' -> narrows s s'.
Proof. intros H. destruct (bones_rest _ _ H) as (E & E' & _). by apply narrows_same. Qed.

Lemma narrows_prune key e s : narrows s (prune key e s).
Proof.
  unfold prune. destruct (entry_of s !! e) as [[g i [p|] [|c l]]|] eqn:He; try done.
  destruct (entries s !! key ≡? Some e) eqn:Ek; [|done]. split; [done|].
  intros k x Hx (en & Hen & Hb). simpl in *. rewrite lookup_delete_ne; [done|]. intros <-.
  apply bool_decide_eq_true in Ek. simplify_eq/=. by destruct Hb.
Qed.

Lemma narrows_upd_entry e f s :
  (forall en, (pending (f en) <> None -> pending en <> None) /\ (en_connections (f en) <> [] -> en_connections en <> [])) ->
  narrows s (upd_entry e f s).
Proof.
  intros Hf. split; [|done]. intros x (en & Hen & Hb). simpl in Hen. rewrite lookup_alter_Some in Hen.
  destruct Hen as [(<- & en0 & H & ->)|[Hne H]]; [|by exists en]. exists en0. split; [done|]. destruct (Hf en0), Hb; auto.
Qed.

Lemma uninstall_narrows c en :
  (pending (uninstall c en) <> None -> pending en <> None) /\ (en_connections (uninstall c en) <> [] -> en_connections en <> []).
Proof. by destruct (uninstall_fields c en) as (_ & -> & -> & _). Qed.

Lemma narrows_shutDown c s : narrows s (shutDown c s).
Proof.
  destruct (connections s !! c) as [cn|] eqn:Hc; [|unfold shutDown; by rewrite Hc].
  destruct (closed cn) eqn:Hop; [unfold shutDown; by rewrite Hc, Hop|]. rewrite (shutDown_closes c cn) by done.
  etrans; [|apply narrows_prune]. etrans; [|apply narrows_bones; symmetry; apply bones_abandon_all].
  unfold closing. etrans; [by apply (narrows_same s (upd_connection c set_closed s))|]. apply narrows_upd_entry. intros en.
  destruct (uninstall_fields c en) as (_ & Ep & Ec & _). simpl. rewrite Ep, ?Ec. split; [done|].
  intros H E. apply H. rewrite ?E. done.
Qed.

Lemma narrows_retire c s : narrows s (retire c s).
Proof.
  unfold retire. destruct (connections s !! c); [|done].
  etrans; [by apply (narrows_same s (upd_connection c (set_retired true) s))|]. apply narrows_upd_entry, uninstall_narrows.
Qed.

Lemma narrows_afterLastLease c s : narrows s (afterLastLease c s).
Proof.
  unfold afterLastLease. destruct (connections s !! c); [|done].
  repeat case_match; try done; apply narrows_shutDown.
Qed.

Lemma narrows_foldl {A} (f : Pool -> A -> Pool) (l : list A) s : (forall s a, narrows s (f s a)) -> narrows s (foldl f s l).
Proof. intros H. revert s. induction l as [|a l IH]; intros s; [done|]. simpl. etrans; [apply H|apply IH]. Qed.

Lemma narrows_expire l s : narrows s (expire l s).
Proof.
  unfold expire. destruct (leases s !! l); [|done]. etrans; [by apply (narrows_same s (upd_lease l set_expired s))|].
  apply narrows_foldl. intros x op. unfold expire_op. destruct (ops x !! op) as [o|]; [|done]. destruct (op_state o ≡? op_queued).
  - apply narrows_bones. symmetry. apply bones_abandon.
  - etrans; [apply narrows_retire|]. apply narrows_bones. symmetry. apply bones_abandon.
Qed.

Lemma narrows_release l s : narrows s (release_lease l s).
Proof.
  unfold release_lease. destruct (leases s !! l) as [ls|]; [|done]. destruct (ls_released ls); [done|].
  etrans; [|apply narrows_afterLastLease].
  etrans; [by apply (narrows_same s (with_leaseCount (leaseCount s - 1) (upd_lease l set_released s)))|].
  etrans; [apply narrows_bones; symmetry; apply bones_abandon_all|]. by apply narrows_same.
Qed.

Lemma narrows_evict key s : narrows s (evict key s).
Proof.
  unfold evict. destruct (entries s !! key) as [e|]; [|done]. etrans; [|apply narrows_prune].
  etrans; [|apply narrows_foldl; intros; apply narrows_shutDown].
  etrans; [by apply (narrows_same s (with_generations (S (generations s)) s))|]. by apply narrows_upd_entry.
Qed.

(** An opening makes no entry busy: its own was. *)
Lemma narrows_opened id ok now s : narrows s (opened id ok now s).
Proof.
  unfold opened. destruct (openings s !! id) as [o|]; [|done]. set (e := og_entry o).
  assert (Hgive : narrows s (settle_opening id None (giveUp id o s))).
  { transitivity (giveUp id o s); [|by apply narrows_same]. unfold giveUp. destruct (is_pending _ _ _); [|done].
    etrans; [|apply narrows_prune]. apply narrows_upd_entry. by intros en. }
  destruct (is_pending id e s) eqn:Hp; simpl; [|by rewrite orb_true_r].
  destruct (negb ok || _ || _); [exact Hgive|]. set (s1 := upd_entry e (set_pending None) s).
  transitivity (install id (og_key o) e (og_identity o) now s1); [|by apply narrows_same].
  assert (Hin : narrows s (installing id (og_key o) e (og_identity o) now s1)).
  { split; [|done]. intros x (en & Hen & Hb). simpl in Hen. rewrite lookup_alter_Some in Hen.
    destruct Hen as [(<- & en0 & H & ->)|[Hne H]].
    - unfold is_pending in Hp. destruct (entry_of s !! e) as [[g i [p|] l]|] eqn:He; try done.
      exists (MkEntry g i (Some p) l). split; [done|]. by left.
    - rewrite lookup_alter_ne in H by done. by exists en. }
  unfold install. fold (installing id (og_key o) e (og_identity o) now s1).
  destruct (installed_in e s1); [|exact Hin]. destruct (connections _ !! _); [|exact Hin].
  destruct (sameConnectionIdentity _ _); (etrans; [exact Hin|]); [apply narrows_afterLastLease|apply narrows_shutDown].
Qed.

(** Every busy entry is in the map, but those of [X]. *)
Definition mapped (X : nat -> Prop) (name : nat -> string) (s : Pool) : Prop :=
  forall e, busy e s -> entries s !! name e = Some e \/ X e.

Lemma mapped_narrows X name s s' : narrows s s' -> mapped X name s -> mapped X name s'.
Proof. intros [B K] H e He. destruct (H e (B e He)); [left|by right]. by apply K. Qed.

(** What a request asks for when it looks for a connection. *)
Definition asked_for (ev : Event) (s : Pool) : option (string * ConnectionIdentity) :=
  match ev with
  | ev_lease _ key identity _ _ => Some (key, identity)
  | ev_resumed rq _ => (fun r => (rq_key r, rq_identity r)) <$> requests s !! rq
  | _ => None
  end.

(** A request finds the connection kept for its key unusable and closes it; it
    was the last of entry [e], which leaves the map, and the request goes on in it. *)
Definition goes_on_without (ev : Event) (e : nat) (s : Pool) : Prop := exists key identity c en,
  asked_for ev s = Some (key, identity) /\ entries s !! key = Some e /\ entry_of s !! e = Some en
  /\ installed en = Some c /\ usable c identity s = false
  /\ pending en = None /\ forall d, d ∈ en_connections en -> d = c.

(** An entry in use that a request before took out of the map. *)
Definition taken_out (options : ReadConnectionsOptions) (e : nat) (s : Pool) : Prop := exists s0 ev,
  reachable options s0 /\ may ev s0 /\ goes_on_without ev e s0 /\ rtc (step options) (happen options ev s0) s.

Lemma mapped_entryFor X name key e s s' name' :
  sound None None name s -> entryFor key s = (e, s') -> mapped X name s ->
  (forall x, is_Some (entry_of s !! x) -> name' x = name x) -> mapped X name' s' /\ entries s' !! key = Some e.
Proof.
  intros I. unfold entryFor. destruct (entries s !! key) as [e0|] eqn:He; intros [= <- <-] M Hn.
  { split; [|done]. intros x Hx. rewrite Hn; [by apply M|]. destruct Hx as (en & -> & _). by eexists. }
  simpl. rewrite lookup_insert_eq. split; [|done]. intros x (en & Hen & Hb). simpl in *.
  rewrite lookup_insert_Some in Hen. destruct Hen as [[<- <-]|[Hne H]]; [by destruct Hb|].
  rewrite Hn by (by eexists). destruct (M x) as [Hx|Hx]; [by exists en|left|by right].
  rewrite lookup_insert_ne; [done|]. intros E. congruence.
Qed.

Lemma mapped_startOpen X name key e identity s id s' :
  mapped X name s -> entries s !! name e = Some e \/ X e -> startOpen key e identity s = (id, s') -> mapped X name s'.
Proof.
  intros M H [= <- <-] x (en & Hen & Hb). simpl in *. rewrite lookup_alter_Some in Hen.
  destruct Hen as [(<- & en0 & H0 & ->)|[Hne H0]]; [done|]. apply M. by exists en.
Qed.

(** ** Requests and their leases

    A lease has the number of its request, [but] one that is being answered. *)

Record asked (but : option nat) (s : Pool) : Prop := {
  waits_known : forall rq r id, requests s !! rq = Some r -> rq_state r = rq_waits id -> but <> Some rq ->
    exists o, openings s !! id = Some o /\ og_key o = rq_key r;
  lease_matches : forall l ls, leases s !! l = Some ls ->
    exists r cn, requests s !! l = Some r /\ rq_state r = rq_leased /\ connections s !! ls_connection ls = Some cn
      /\ cn_key cn = rq_key r /\ sameConnectionIdentity (cn_identity cn) (rq_identity r) = true }.

Lemma asked_extends but s s' : extends s s' -> asked but s -> asked but s'.
Proof.
  intros [C O L R] [W M]. split.
  - intros rq r id. rewrite R. intros H E Hb. destruct (W _ _ _ H E Hb) as (o & Ho & Ek).
    destruct (O _ _ Ho) as (o' & ? & E'). exists o'. by rewrite E'.
  - intros l ls' Hl. destruct (L _ _ Hl) as (ls & H & Ec). destruct (M _ _ H) as (r & cn & Hr & Es & Hc & Ek & Ei).
    destruct (C _ _ Hc) as (cn' & ? & E1 & E2). exists r, cn'. by rewrite R, Ec, E1, E2.
Qed.

Lemma sound_requests outside fresh name x s : sound outside fresh name s -> sound outside fresh name (with_requests x s).
Proof. intros []. by split. Qed.

(** A request is told what to wait for. *)
Lemma asked_waits rq r id o s :
  asked (Some rq) s -> requests s !! rq = Some r -> leases s !! rq = None ->
  openings s !! id = Some o -> og_key o = rq_key r ->
  asked None (set_request rq (rq_waits id) s).
Proof.
  intros [W M] Hr Hl Ho Ek. unfold set_request. split; simpl.
  - intros x y i. rewrite lookup_alter_Some. intros [(<- & y0 & H & ->)|[Hne H]] E _.
    + injection E as <-. simplify_eq. by exists o.
    + apply (W _ _ _ H E). congruence.
  - intros l ls H. destruct (M _ _ H) as (y & cn & Hy & F). exists y, cn. rewrite lookup_alter_ne by congruence. done.
Qed.

Lemma asked_handed fresh name rq r c cn s :
  sound None fresh name s -> asked (Some rq) s -> requests s !! rq = Some r -> leases s !! rq = None ->
  connections s !! c = Some cn -> cn_key cn = rq_key r -> usable c (rq_identity r) s = true ->
  sound None fresh name (hand_out c rq s) /\ asked None (hand_out c rq s).
Proof.
  intros I [W M] Hr Hl Hc Ek Hu. split; [by apply sound_requests; eapply sound_checkout|].
  unfold usable in Hu. rewrite Hc in Hu. apply andb_true_iff in Hu as [_ Hi].
  unfold hand_out, set_request, checkout. split; simpl.
  - intros x y i. rewrite lookup_alter_Some. intros [(<- & y0 & H & ->)|[Hne H]] E _; [done|].
    apply (W _ _ _ H E). congruence.
  - intros l ls. rewrite lookup_insert_Some. setoid_rewrite lookup_alter_Some. intros [[<- <-]|[Hne H]].
    + eexists _, _. split; [left; by eauto|]. split; [done|]. split; [left; by eauto|]. done.
    + destruct (M _ _ H) as (y & dn & Hy & Es & Hd & F). exists y.
      destruct (decide (c = ls_connection ls)) as [->|Hne'].
      * eexists. split; [right; split; [congruence|done]|]. split; [done|]. split; [left; by eauto|].
        by simplify_eq.
      * exists dn. split; [right; split; [congruence|done]|]. split; [done|]. split; [by right|done].
Qed.

Lemma known_shutDown c e s : is_Some (entry_of s !! e) -> is_Some (entry_of (shutDown c s) !! e).
Proof.
  intros H. destruct (connections s !! c) as [cn|] eqn:Hc; [|unfold shutDown; by rewrite Hc].
  destruct (closed cn) eqn:Hop; [unfold shutDown; by rewrite Hc, Hop|]. rewrite (shutDown_closes c cn) by done.
  rewrite (proj1 (prune_rest _ _ _)). destruct (bones_rest _ _ (bones_abandon_all connectionLost (cn_ops cn) (closing c cn s))) as (_ & -> & _).
  by apply closing_known.
Qed.

(** A state in which a request is about to wait or to be answered. *)
Record turning (name : nat -> string) (rq : nat) (r : Request) (e : nat) (s : Pool) : Prop := {
  tn_sound : sound None None name s; tn_asked : asked (Some rq) s; tn_request : requests s !! rq = Some r;
  tn_new : leases s !! rq = None; tn_name : name e = rq_key r; tn_entry : is_Some (entry_of s !! e) }.

Definition waiting_turn (e rq : nat) (key : string) (identity : ConnectionIdentity) (s : Pool) : Pool :=
  match joinable e identity s with
  | Some id => set_request rq (rq_waits id) s
  | None => let (id, s) := startOpen key e identity s in set_request rq (rq_waits id) s
  end.

Lemma joinable_pending e identity id s : joinable e identity s = Some id ->
  exists en p, entry_of s !! e = Some en /\ pending en = Some p /\ pd_id p = id.
Proof. unfold joinable. intros H. repeat case_match; simplify_eq/=. by eexists _, _. Qed.

Lemma turn_waits X name rq r e identity s : turning name rq r e s ->
  mapped X name s -> entries s !! rq_key r = Some e \/ X e ->
  sound None None name (waiting_turn e rq (rq_key r) identity s) /\ asked None (waiting_turn e rq (rq_key r) identity s)
  /\ mapped X name (waiting_turn e rq (rq_key r) identity s).
Proof.
  intros [I A Hr Hl Hn He] M Hm. unfold waiting_turn. destruct (joinable e identity s) as [id|] eqn:Ej.
  - apply joinable_pending in Ej as (en & p & Hen & Hp & <-). destruct (pending_open _ _ _ _ I _ _ _ Hen Hp) as (o & Ho & Eo & _).
    split; [by apply sound_requests|]. split; [|by eapply mapped_narrows; [by apply (narrows_same s)|]].
    eapply asked_waits; try done.
    destruct (openings_known _ _ _ _ I _ _ Ho) as (_ & _ & E & _). by rewrite <- E, Eo, Hn.
  - destruct (startOpen (rq_key r) e identity s) as [id s'] eqn:Es.
    destruct (sound_startOpen _ _ _ _ _ _ _ I Hn He Es) as (I' & Xt & El & o & Ho & Ek).
    split; [by apply sound_requests|]. split.
    2: { eapply (mapped_narrows _ _ s'); [by apply narrows_same|].
         apply (mapped_startOpen _ _ _ _ _ _ _ _ M) in Es; [done|by rewrite Hn]. }
    eapply asked_waits; [by eapply asked_extends| | |done|done].
    + by rewrite (ext_requests _ _ Xt).
    + by rewrite El.
Qed.

(** What is left of an entry when the connection kept in it is closed. *)
Lemma shutDown_unmaps name key e c en s :
  sound None None name s -> entries s !! key = Some e -> entry_of s !! e = Some en -> installed en = Some c ->
  entries (shutDown c s) !! key = Some e \/ (pending en = None /\ forall d, d ∈ en_connections en -> d = c).
Proof.
  intros I Hk He Hi. destruct (kept_is_good _ _ _ _ I e c) as (cn & Hc & Hop & _ & Ee); [unfold installed_in; by rewrite He|].
  destruct (pending en) as [p|] eqn:Ep.
  - left. apply (less_known _ _ (narrows_shutDown c s)); [done|]. rewrite (shutDown_closes c cn) by done.
    unfold busy. rewrite (proj1 (prune_rest _ _ _)).
    destruct (bones_rest _ _ (bones_abandon_all connectionLost (cn_ops cn) (closing c cn s))) as (_ & -> & _).
    eexists. simpl. rewrite Ee, lookup_alter_eq, He. split; [done|]. left. simpl. by rewrite (proj1 (proj2 (uninstall_fields c en))), Ep.
  - destruct (without c (en_connections en)) as [|d l] eqn:Ew.
    + right. split; [done|]. intros d Hd. destruct (decide (d = c)) as [|Hne]; [done|].
      assert (H : d ∈ without c (en_connections en)) by (by apply elem_of_without). rewrite Ew in H. by apply not_elem_of_nil in H.
    + left. apply (less_known _ _ (narrows_shutDown c s)); [done|]. rewrite (shutDown_closes c cn) by done.
      unfold busy. rewrite (proj1 (prune_rest _ _ _)).
      destruct (bones_rest _ _ (bones_abandon_all connectionLost (cn_ops cn) (closing c cn s))) as (_ & -> & _).
      eexists. simpl. rewrite Ee, lookup_alter_eq, He. split; [done|]. right. simpl. by rewrite Ew.
Qed.

Lemma lease_turns options X name rq r deadlineMs now s :
  sound None None name s -> asked (Some rq) s -> requests s !! rq = Some r -> leases s !! rq = None ->
  mapped X name s ->
  (forall e c en, entries s !! rq_key r = Some e -> entry_of s !! e = Some en -> installed en = Some c ->
     usable c (rq_identity r) s = false -> pending en = None -> (forall d, d ∈ en_connections en -> d = c) -> X e) ->
  let s' := lease_turn options rq (rq_key r) (rq_identity r) deadlineMs now s in
  exists name', sound None None name' s' /\ asked None s' /\ mapped X name' s'.
Proof.
  intros I A Hr Hl M Hx. unfold lease_turn. destruct (entryFor (rq_key r) s) as [e s1] eqn:Ee.
  destruct (sound_entryFor _ _ _ _ _ _ I Ee) as (name' & I1 & Hn & He & Xt & Ec & El & Hsame). simpl. exists name'.
  destruct (mapped_entryFor X name _ _ _ _ name' I Ee M Hsame) as [M1 Hk].
  assert (T : turning name' rq r e s1)
    by (split; [done|by eapply asked_extends|by rewrite (ext_requests _ _ Xt)|by rewrite El|done|done]).
  destruct (installed_in e s1) as [c|] eqn:Ei; [|by apply (turn_waits X name'); [| |left]].
  destruct (kept_is_good _ _ _ _ I1 _ _ Ei) as (cn & Hc & _ & _ & Een).
  destruct (usable c (rq_identity r) s1) eqn:Eu; simpl.
  - rewrite Hc. destruct (_ <=? _); [|by apply (turn_waits X name'); [| |left]].
    apply and_assoc. split; [|by eapply mapped_narrows; [by apply (narrows_same s1)|]].
    eapply asked_handed; try done; [apply T|apply T|apply T|].
    destruct (connections_known _ _ _ _ I1 _ _ Hc) as (_ & _ & <- & _). by rewrite Een.
  - apply (turn_waits X name'); [|by eapply mapped_narrows; [apply narrows_shutDown|]|].
    2: { destruct He as [en He]. assert (Hi : installed en = Some c) by (unfold installed_in in Ei; by rewrite He in Ei).
         destruct (shutDown_unmaps name' _ e c en s1 I1 Hk He Hi) as [H|[Hp Hd]]; [by left|right].
         unfold entryFor in Ee. destruct (entries s !! rq_key r) as [e0|] eqn:E0; injection Ee as <- <-; [by eapply Hx|].
         simpl in He. rewrite lookup_insert_eq in He. by injection He as <-. }
    pose proof (extends_shutDown c s1) as X'. destruct T as [I0 A0 R0 L0 N0 E0].
    split; [eapply sound_shutDown; [by left|done]|by eapply asked_extends|by rewrite (ext_requests _ _ X')| |done|by apply known_shutDown].
    destruct (leases (shutDown c s1) !! rq) as [ls|] eqn:E; [|done]. apply (ext_lease _ _ X') in E as (? & E & _). congruence.
Qed.

Lemma fresh_request rq s : asked None s -> requests s !! rq = None -> leases s !! rq = None.
Proof.
  intros A Hr. destruct (leases s !! rq) as [ls|] eqn:E; [|done].
  destruct (lease_matches _ _ A _ _ E) as (r & cn & H & _). congruence.
Qed.

Lemma lease_call_keeps options X name rq key identity deadlineMs now s :
  sound None None name s -> asked None s -> requests s !! rq = None -> mapped X name s ->
  (forall e, goes_on_without (ev_lease rq key identity deadlineMs now) e s -> X e) ->
  let s' := lease_call options rq key identity deadlineMs now s in
  exists name', sound None None name' s' /\ asked None s' /\ mapped X name' s'.
Proof.
  intros I A Hr Mp Hx. pose proof (fresh_request _ _ A Hr) as Hl. unfold lease_call.
  assert (A' : forall state, asked (Some rq) (with_requests (<[rq := MkRequest key identity deadlineMs state]> (requests s)) s)).
  { intros state. destruct A as [W M]. split; simpl.
    - intros x y i. rewrite lookup_insert_Some. intros [[<- <-]|[Hne H]] E Hb; [done|]. by eapply W.
    - intros l ls H. destruct (M _ _ H) as (y & cn & Hy & F). exists y, cn. rewrite lookup_insert_ne by congruence. done. }
  destruct (negb _).
  - exists name. split; [by apply sound_requests|]. split; [|done]. destruct (A' rq_failed) as [W M']. split; [|done].
    intros x y i H E _. destruct (decide (rq = x)) as [<-|Hne]; [|eapply W; [done|done|congruence]].
    simpl in H. rewrite lookup_insert_eq in H. by simplify_eq.
  - apply (lease_turns options X name rq (MkRequest key identity deadlineMs (rq_waits 0)) deadlineMs now);
      [by apply sound_requests|apply A'|simpl; by rewrite lookup_insert_eq|done|done|].
    intros e c en H1 H2 H3 H4 H5 H6. apply Hx. by exists key, identity, c, en.
Qed.

Lemma lease_resumes_keeps options X name rq now s :
  sound None None name s -> asked None s -> mapped X name s ->
  (forall e, goes_on_without (ev_resumed rq now) e s -> X e) ->
  let s' := lease_resumes options rq now s in
  exists name', sound None None name' s' /\ asked None s' /\ mapped X name' s'.
Proof.
  intros I A Mp Hx. unfold lease_resumes. destruct (requests s !! rq) as [[key identity deadlineMs [id| |]]|] eqn:Hr; try by exists name.
  destruct (openings s !! id) as [[ok oe oi og [[c|]|]]|] eqn:Ho; try by exists name.
  - assert (Hl : leases s !! rq = None).
    { destruct (leases s !! rq) as [ls|] eqn:E; [|done]. destruct (lease_matches _ _ A _ _ E) as (r & cn & H & Es & _). by simplify_eq. }
    assert (A' : asked (Some rq) s) by (destruct A as [W M]; split; [by eauto|done]).
    destruct (usable c identity s) eqn:Eu.
    + exists name. destruct (settled_with _ _ _ _ I _ _ c Ho eq_refl) as (cn & Hc & Ek). simpl in Ek.
      destruct (waits_known _ _ A _ _ id Hr eq_refl) as (o & Ho' & Ek'); [done|]. simplify_eq/=.
      apply and_assoc. split; [by eapply asked_handed|by eapply mapped_narrows; [by apply (narrows_same s)|]].
    + apply (lease_turns options X name rq (MkRequest key identity deadlineMs (rq_waits id))); try done.
      intros e c' en H1 H2 H3 H4 H5 H6. apply Hx. exists key, identity, c', en. split; [simpl; by rewrite Hr|done].
  - exists name. split; [by apply sound_requests|]. split; [|by eapply mapped_narrows; [by apply (narrows_same s)|]].
    destruct A as [W M]. unfold set_request. split; simpl.
    + intros x y i. rewrite lookup_alter_Some. intros [(<- & y0 & H & ->)|[Hne H]] E _; [done|]. by eapply W.
    + intros l ls H. destruct (M _ _ H) as (y & cn & Hy & Es & F). exists y, cn. rewrite lookup_alter_ne; [done|].
      intros ->. by simplify_eq.
Qed.

(** ** Every step keeps it *)

Lemma bones_begin limit l op kind s : same_bones (begin limit l op kind s) s.
Proof.
  unfold begin. destruct (leases s !! l) as [ls|]; [|done]. destruct (connections s !! _); [|done].
  repeat case_match; try done. etrans; [by apply bones_upd_connection|]. etrans; [by apply bones_upd_lease|done].
Qed.

Lemma bones_admit_op op s : same_bones (admit_op op s) s.
Proof.
  unfold admit_op. destruct (ops s !! op) as [o|]; [|done]. destruct (connection_of o s); [|done].
  destruct (op_told o); [by etrans; [apply bones_upd_connection|]|done].
Qed.

Lemma bones_op_answer op ok s : same_bones (op_answer op ok s) s.
Proof.
  unfold op_answer. destruct (ops s !! op) as [o|]; [|done]. destruct (op_told o), (connection_of o s); try done.
  destruct (negb ok); [etrans; [apply bones_finishOp|done]|].
  destruct (op_kind o); [etrans; [apply bones_finishOp|done]|done].
Qed.

Lemma bones_stream_closed op s : same_bones (stream_closed op s) s.
Proof.
  unfold stream_closed. destruct (ops s !! op) as [o|]; [|done]. destruct (op_stream o); [apply bones_finishOp|done].
Qed.

Definition well_formed (X : nat -> Prop) (s : Pool) : Prop :=
  exists name, sound None None name s /\ asked None s /\ mapped X name s.

Lemma well_formed_bones X s s' : same_bones s' s -> well_formed X s -> well_formed X s'.
Proof.
  intros H%symmetry (name & I & A & M). exists name. split; [by eapply sound_bones|].
  split; [by eapply asked_extends; [apply extends_bones|]|]. by eapply mapped_narrows; [apply narrows_bones|].
Qed.

Lemma well_formed_extends X (f : Pool -> Pool) s :
  (forall name, sound None None name s -> sound None None name (f s)) -> extends s (f s) -> narrows s (f s) ->
  well_formed X s -> well_formed X (f s).
Proof.
  intros Hf Xt N (name & I & A & M). exists name.
  split; [by apply Hf|]. split; [by eapply asked_extends|by eapply mapped_narrows].
Qed.

Lemma step_well_formed options X ev s :
  may ev s -> (forall e, goes_on_without ev e s -> X e) -> well_formed X s -> well_formed X (happen options ev s).
Proof.
  intros Hmay Hx W. destruct ev; simpl in *.
  - destruct W as (name & I & A & M). by eapply lease_call_keeps.
  - destruct Hmay as (o & Ho & Hd).
    apply (well_formed_extends _ (opened id ok now)); [|destruct W as (name & I & _); by eapply sound_opened|apply narrows_opened|done].
    intros name I. by eapply sound_opened.
  - destruct W as (name & I & A & M). by eapply lease_resumes_keeps.
  - eapply well_formed_bones; [apply bones_begin|done].
  - eapply well_formed_bones; [apply bones_admit_op|done].
  - eapply well_formed_bones; [apply bones_op_answer|done].
  - eapply well_formed_bones; [apply bones_stream_closed|done].
  - apply (well_formed_extends _ (release_lease l)); [intros; by apply sound_release|apply extends_release|apply narrows_release|done].
  - destruct Hmay as (ls & Hl & Ht).
    apply (well_formed_extends _ (expire l)); [intros; by eapply sound_expire|apply extends_expire|apply narrows_expire|done].
  - apply (well_formed_extends _ (shutDown c)); [intros; eapply sound_shutDown; [by left|done]|apply extends_shutDown|apply narrows_shutDown|done].
  - apply (well_formed_extends _ (shutDown c)); [intros; eapply sound_shutDown; [by left|done]|apply extends_shutDown|apply narrows_shutDown|done].
  - apply (well_formed_extends _ (evict key)); [intros; by apply sound_evict|destruct W as (name & I & _); by eapply sound_evict|apply narrows_evict|done].
  - destruct is_ready; (eapply well_formed_bones; [|exact W]); done.
Qed.

Lemma reachable_well_formed options s : reachable options s -> well_formed (fun e => taken_out options e s) s.
Proof.
  revert s. apply (rtc_ind_r (fun s => well_formed (fun e => taken_out options e s) s)).
  - exists (fun _ => ""). split; [apply sound_start|]. split; [by split|]. intros e (en & He & _). simpl in He. by rewrite lookup_empty in He.
  - intros x x' H1 Hs. revert H1. destruct Hs as [ev s1 Hmay]. intros H1 IH. apply (step_well_formed options); [done| |].
    + intros e He. exists s1, ev. split_and!; [exact H1|done|done|apply rtc_refl].
    + destruct IH as (name & I & A & M). exists name. split_and!; [done|done|]. intros e He.
      destruct (M e He) as [?|(s0 & ev0 & H0 & Hm & Hg & Hr)]; [by left|right]. exists s0, ev0. split_and!; [done..|].
      eapply rtc_r; [exact Hr|by constructor].
Qed.

(** ** What eviction closes *)

Lemma shutDown_connection c s d dn : connections (shutDown c s) !! d = Some dn ->
  exists dn0, connections s !! d = Some dn0 /\ cn_entry dn = cn_entry dn0
    /\ (closed dn = true <-> closed dn0 = true \/ d = c).
Proof.
  destruct (connections s !! c) as [cn|] eqn:Hc.
  2: { unfold shutDown. rewrite Hc. intros H. exists dn. split_and!; try done. split; [by left|]. intros [?| ->]; [done|congruence]. }
  destruct (closed cn) eqn:Hop.
  { unfold shutDown. rewrite Hc, Hop. intros H. exists dn. split_and!; try done. split; [by left|]. intros [?| ->]; [done|congruence]. }
  rewrite (shutDown_closes c cn) by done.
  rewrite (proj1 (proj2 (prune_rest _ _ _))). intros (dn1 & H & _ & <- & _ & <-)%(bones_hard _ _ _ _ (symmetry (bones_abandon_all connectionLost (cn_ops cn) (closing c cn s)))).
  apply closing_connection in H as [[-> ->]|[Hne H]]; [|by exists dn1; naive_solver|done].
  exists cn. split_and!; try done. simpl. naive_solver.
Qed.

Lemma shutDown_all_connection all : forall s d dn, connections (foldl (fun s c => shutDown c s) s all) !! d = Some dn ->
  exists dn0, connections s !! d = Some dn0 /\ cn_entry dn = cn_entry dn0
    /\ (closed dn = true <-> closed dn0 = true \/ d ∈ all).
Proof.
  induction all as [|c all IH]; intros s d dn; simpl.
  - intros H. exists dn. split_and!; try done. split; [by left|]. intros [?|?%not_elem_of_nil]; done.
  - intros (dn1 & H & -> & E)%IH. apply shutDown_connection in H as (dn0 & H & -> & E').
    exists dn0. split_and!; try done. rewrite E, E', elem_of_cons. tauto.
Qed.

Lemma shutDown_generation c s e : generation_of e (shutDown c s) = generation_of e s.
Proof.
  destruct (connections s !! c) as [cn|] eqn:Hc; [|unfold shutDown; by rewrite Hc].
  destruct (closed cn) eqn:Hop; [unfold shutDown; by rewrite Hc, Hop|]. rewrite (shutDown_closes c cn) by done.
  unfold generation_of. rewrite (proj1 (prune_rest _ _ _)).
  destruct (bones_rest _ _ (bones_abandon_all connectionLost (cn_ops cn) (closing c cn s))) as (_ & -> & _).
  simpl. destruct (decide (cn_entry cn = e)) as [<-|Hne]; [|by rewrite lookup_alter_ne].
  rewrite lookup_alter_eq. destruct (entry_of s !! cn_entry cn) as [en|]; [|done]. simpl.
  by destruct (uninstall_fields c en) as (-> & _).
Qed.

Lemma shutDown_all_generation all e : forall s, generation_of e (foldl (fun s c => shutDown c s) s all) = generation_of e s.
Proof. induction all as [|c all IH]; intros s; [done|]. simpl. by rewrite IH, shutDown_generation. Qed.

Lemma shutDown_openings c s : openings (shutDown c s) = openings s.
Proof.
  destruct (connections s !! c) as [cn|] eqn:Hc; [|unfold shutDown; by rewrite Hc].
  destruct (closed cn) eqn:Hop; [unfold shutDown; by rewrite Hc, Hop|]. rewrite (shutDown_closes c cn) by done.
  rewrite (proj2 (proj2 (prune_rest _ _ _))).
  by destruct (bones_rest _ _ (bones_abandon_all connectionLost (cn_ops cn) (closing c cn s))) as (_ & _ & -> & _).
Qed.

Lemma shutDown_all_openings all : forall s, openings (foldl (fun s c => shutDown c s) s all) = openings s.
Proof. induction all as [|c all IH]; intros s; [done|]. simpl. by rewrite IH, shutDown_openings. Qed.

(** [evict], with what it evicts. *)
Definition evicting (e : nat) (en : Entry) (s : Pool) : Pool :=
  foldl (fun s c => shutDown c s)
    (upd_entry e (set_generation (S (generations s))) (with_generations (S (generations s)) s)) (en_connections en).

Lemma evict_unfold key e en s : entries s !! key = Some e -> entry_of s !! e = Some en ->
  evict key s = prune key e (evicting e en s).
Proof. intros H Hen. unfold evict, evicting. rewrite H. simpl. by rewrite lookup_alter_eq, Hen. Qed.

(** An opening whose generation has passed. *)
Lemma opened_outdated id o ok now s :
  openings s !! id = Some o -> generation_of (og_entry o) s <> og_generation o ->
  openings (opened id ok now s) !! id = Some (MkOpening (og_key o) (og_entry o) (og_identity o) (og_generation o) (Some None))
  /\ connections (opened id ok now s) = connections s.
Proof.
  intros Ho Hg. unfold opened. rewrite Ho. apply Nat.eqb_neq in Hg. rewrite Hg, andb_false_r, orb_true_r. simpl.
  unfold giveUp. destruct (is_pending id (og_entry o) s); simpl; [|by rewrite lookup_alter_eq, Ho].
  destruct (prune_rest (og_key o) (og_entry o) (upd_entry (og_entry o) (set_pending None) s)) as (_ & -> & ->).
  simpl. by rewrite lookup_alter_eq, Ho.
Qed.

(** ** The promises *)

(** C16: Whatever callers, the host and the timers do, and in whatever order:
    an open connection has its hard-age timer running, and is held by a lease
    that was not given back or is the one installed in its entry, so none is
    forgotten open; its entry is the one the map has for its key, unless an
    earlier request found the connection kept in that entry unusable, closed
    it, which took the entry, then empty, out of the map, and went on in it;
    the connection installed in an entry is open and not retired; and
    [activeLeases] is the number of leases not given back. *)
Theorem no_connection_is_forgotten options s :
  reachable options s ->
  (forall c cn, connections s !! c = Some cn -> closed cn = false ->
     hardTimer cn = true
     /\ ((exists l ls, leases s !! l = Some ls /\ ls_connection ls = c /\ ls_released ls = false)
         \/ installed_in (cn_entry cn) s = Some c)
     /\ (entries s !! cn_key cn = Some (cn_entry cn) \/ taken_out options (cn_entry cn) s))
  /\ (forall e c, installed_in e s = Some c ->
        exists cn, connections s !! c = Some cn /\ closed cn = false /\ retired cn = false /\ cn_entry cn = e)
  /\ activeLeases s = Z.of_nat (size (filter (fun p => ls_released p.2 = false) (leases s))).
Proof.
  intros H. destruct (reachable_well_formed _ _ H) as (name & I & _ & M). split_and!; [|apply I|apply I].
  intros c cn Hc Ho. destruct (connections_known _ _ _ _ I _ _ Hc) as (_ & [en He] & <- & ->).
  split_and!; [by rewrite Ho| |].
  - destruct (leased_or_kept _ _ _ _ I _ _ Hc Ho) as [Hl|Hk]; [done|left|by right].
    destruct (cn_leases cn) as [|l rest] eqn:El; [done|]. exists l.
    apply (leases_listed _ _ _ _ I _ _ Hc). rewrite El. apply elem_of_cons. by left.
  - apply M. exists en. split; [done|right]. intros E.
    assert (Hin : c ∈ en_connections en) by (apply (entries_list_open _ _ _ _ I _ _ _ He); by exists cn).
    rewrite E in Hin. by apply not_elem_of_nil in Hin.
Qed.

(** A reader reads from the host it was asked for: the connection of every
    lease was opened for the key of the request that the lease answers, and as
    the host, port, user, key and host key that request named. *)
Theorem readers_read_their_own_host options s l ls :
  reachable options s -> leases s !! l = Some ls ->
  exists r cn, requests s !! l = Some r /\ connections s !! ls_connection ls = Some cn
    /\ cn_key cn = rq_key r /\ sameConnectionIdentity (cn_identity cn) (rq_identity r) = true.
Proof.
  intros H Hl. destruct (reachable_well_formed _ _ H) as (name & _ & A & _).
  destruct (lease_matches _ _ A _ _ Hl) as (r & cn & Hr & _ & F). by exists r, cn.
Qed.

(** When the host of a key is evicted, every open connection of the entry
    that the key has is closed, and an opening of that entry that was under way
    is refused when it completes: it is settled without a connection, and no
    connection is added. *)
Theorem evicting_closes_the_connections_of_the_entry options s key e :
  reachable options s -> entries s !! key = Some e ->
  let s' := evict key s in
  (forall c cn, connections s' !! c = Some cn -> cn_entry cn = e -> closed cn = true)
  /\ (forall id o ok now, openings s' !! id = Some o -> og_entry o = e ->
        openings (opened id ok now s') !! id = Some (MkOpening (og_key o) e (og_identity o) (og_generation o) (Some None))
        /\ connections (opened id ok now s') = connections s').
Proof.
  intros H He. destruct (reachable_well_formed _ _ H) as (name & I & _).
  destruct (entries_known _ _ _ _ I _ _ He) as [[en Hen] _]. simpl. rewrite (evict_unfold key e en s He Hen).
  destruct (prune_rest key e (evicting e en s)) as (Ee & Ec & Eo). split.
  - intros c cn. rewrite Ec. intros (cn0 & Hc & -> & E)%shutDown_all_connection <-. apply E. simpl in Hc.
    destruct (closed cn0) eqn:Ecl; [by left|right]. apply (entries_list_open _ _ _ _ I _ _ _ Hen). by exists cn0.
  - intros id o ok now Ho <-. apply opened_outdated; [done|].
    rewrite Eo in Ho. unfold evicting in Ho. rewrite shutDown_all_openings in Ho.
    destruct (openings_known _ _ _ _ I _ _ Ho) as (_ & _ & _ & Hlt).
    unfold generation_of. rewrite Ee. fold (generation_of (og_entry o) (evicting (og_entry o) en s)).
    unfold evicting. rewrite shutDown_all_generation. unfold generation_of. simpl. rewrite lookup_alter_eq, Hen. simpl. lia.
Qed.


(** ** Traces *)

Definition tower : ConnectionIdentity := MkIdentity "10.0.0.1" 22 "root" "key-1" "SHA256:aa".
Definition limits : ReadConnectionsOptions := MkOptions READ_CONNECTION_HARD_AGE_MS READ_CONNECTION_CHANNEL_LIMIT.

(** A lease is asked for, its connection opens, and it has its reader. *)
Definition one_lease (rq id : nat) : list Event :=
  [ev_lease rq "k" tower 5000 0; ev_transport id true; ev_opened id true 0; ev_resumed rq 0].

(** Every event of a concrete trace may happen. *)
Ltac happens := vm_compute; repeat (first [reflexivity | exact I | split | eexists]).

Definition after (events : list Event) : Pool := trace limits events createReadConnections.

Lemma no_connection_is_forgotten_witness :
  closed <$> connections (after (one_lease 1 1)) !! 1%nat = Some false /\ activeLeases (after (one_lease 1 1)) = 1.
Proof.
  split; [vm_compute; reflexivity|].
  rewrite (proj2 (proj2 (no_connection_is_forgotten limits (after (one_lease 1 1)) ltac:(apply trace_reachable; happens)))).
  vm_compute. reflexivity.
Defined.

Lemma readers_read_their_own_host_witness :
  exists ls r cn, leases (after (one_lease 1 1)) !! 1%nat = Some ls
    /\ requests (after (one_lease 1 1)) !! 1%nat = Some r
    /\ connections (after (one_lease 1 1)) !! ls_connection ls = Some cn
    /\ cn_key cn = rq_key r /\ sameConnectionIdentity (cn_identity cn) (rq_identity r) = true.
Proof.
  eexists. destruct (readers_read_their_own_host limits (after (one_lease 1 1)) 1 _
    ltac:(apply trace_reachable; happens) ltac:(vm_compute; reflexivity)) as (r & cn & H).
  exists r, cn. split; [vm_compute; reflexivity|exact H].
Defined.

Lemma evicting_closes_the_connections_of_the_entry_witness :
  entries (after (one_lease 1 1)) !! "k" = Some 1%nat
  /\ closed <$> connections (evict "k" (after (one_lease 1 1))) !! 1%nat = Some true.
Proof.
  split; [vm_compute; reflexivity|].
  destruct (connections (evict "k" (after (one_lease 1 1))) !! 1%nat) as [cn|] eqn:E; [|vm_compute in E; discriminate].
  simpl. f_equal. refine (proj1 (evicting_closes_the_connections_of_the_entry limits (after (one_lease 1 1)) "k" 1
    ltac:(apply trace_reachable; happens) ltac:(vm_compute; reflexivity)) 1%nat cn E _).
  vm_compute in E. by injection E as <-.
Defined.

(** The connection of the first lease is lost while no one holds it; the next
    request closes it, which takes the entry out of the map, and goes on with
    that entry. *)
Definition reopened : list Event :=
  one_lease 1 1 ++ [ev_released 1; ev_transport 1 false] ++ one_lease 2 2.

(** A connection can be open that evicting its key does not close: when a
    request finds the kept connection of the key lost, [lease] closes it, which
    removes the entry from the map, and opens another in the entry removed;
    [evict] then finds no entry, and the reader goes on reading. *)
Theorem evicting_misses_a_reopened_connection :
  exists s, reachable limits s /\
    let s' := evict "k" s in
    (exists cn, connections s' !! 2%nat = Some cn /\ cn_key cn = "k" /\ closed cn = false /\ cn_leases cn = [2%nat])
    /\ entries s' !! "k" = None.
Proof.
  exists (after reopened). split; [apply trace_reachable; happens|]. split; [|vm_compute; reflexivity].
  eexists. by split_and!; [vm_compute; reflexivity|..].
Qed.
