(* ===== verification/ReadOps.v ===== *)
(** The reads on shared connections and the channels they hold.

    The second half of what [ReadPool] proves: which reads are in flight, and
    how the number of channels a connection's limiter counts relates to them. *)

From stdpp Require Import gmap relations.
From S2P Require Import Prelude Tables InstanceController HostReader Limiter ReadConnections ReadPool.

#[local] Arguments Limiter.release : simpl never.
#[local] Arguments Limiter.abort : simpl never.
#[local] Arguments Limiter.acquire : simpl never.

(** ** The reads in flight

    [due] are reads that are about to be abandoned. *)

Record tracked (due : list nat) (s : Pool) : Prop := {
  op_known : forall op o, ops s !! op = Some o ->
    exists ls, leases s !! op_lease o = Some ls /\ is_Some (connections s !! ls_connection ls);
  in_lease : forall l ls op, leases s !! l = Some ls -> op ∈ ls_ops ls ->
    exists o cn, ops s !! op = Some o /\ op_lease o = l /\ connections s !! ls_connection ls = Some cn /\ op ∈ cn_ops cn
      /\ (op ∈ due \/ (ls_released ls = false /\ expired ls = false /\ closed cn = false));
  in_connection : forall c cn op, connections s !! c = Some cn -> op ∈ cn_ops cn ->
    exists o ls, ops s !! op = Some o /\ leases s !! op_lease o = Some ls /\ ls_connection ls = c /\ op ∈ ls_ops ls;
  in_flight : forall op o, ops s !! op = Some o -> op_told o = None \/ op_holdsSlot o = true ->
    exists ls, leases s !! op_lease o = Some ls /\ op ∈ ls_ops ls;
  streams_told : forall op o, ops s !! op = Some o -> op_stream o = true -> op_told o <> None }.

(** The limiter of a connection has gone through steps of [Limiter]: its calls
    are reads of the connection, and a channel was given back when the read that
    has it gave it back, or was not there to take it. *)
Record channel_of (limit : Z) (c : nat) (lm : ChannelLimiter) (s : Pool) (w : Limiter.world) : Prop := {
  ch_reachable : Limiter.reachable limit w;
  ch_limiter : Limiter.limiter w = lm;
  ch_arrivals : forall op, op ∈ Limiter.arrivals w -> exists o, ops s !! op = Some o /\ connection_of o s = Some c;
  ch_released : forall op o, ops s !! op = Some o -> connection_of o s = Some c ->
    op ∈ Limiter.arrivals w -> (op ∈ Limiter.released w <-> op_admitted o = true /\ op_holdsSlot o = false);
  ch_held : forall op o, ops s !! op = Some o -> connection_of o s = Some c ->
    op_holdsSlot o = true -> op_admitted o = true /\ op ∈ Limiter.admitted lm }.

Definition channels (limit : Z) (s : Pool) : Prop :=
  forall c cn, connections s !! c = Some cn -> exists w, channel_of limit c (cn_limiter cn) s w.

(** ** Steps that are not about reads *)

Record frames (due : list nat) (s s' : Pool) : Prop := {
  fr_ops : ops s' = ops s;
  fr_lease : forall l ls', leases s' !! l = Some ls' ->
    (exists ls, leases s !! l = Some ls /\ ls_connection ls' = ls_connection ls /\ ls_ops ls' = ls_ops ls
       /\ ((ls_released ls' = ls_released ls /\ expired ls' = expired ls) \/ forall op, op ∈ ls_ops ls -> op ∈ due))
    \/ (leases s !! l = None /\ ls_ops ls' = []);
  fr_leases : forall l ls, leases s !! l = Some ls ->
    exists ls', leases s' !! l = Some ls' /\ ls_connection ls' = ls_connection ls /\ ls_ops ls' = ls_ops ls;
  fr_connection : forall c cn', connections s' !! c = Some cn' ->
    (exists cn, connections s !! c = Some cn /\ cn_ops cn' = cn_ops cn /\ cn_limiter cn' = cn_limiter cn
       /\ (closed cn' = closed cn \/ forall op, op ∈ cn_ops cn -> op ∈ due))
    \/ (connections s !! c = None /\ cn_ops cn' = [] /\ cn_limiter cn' = createChannelLimiter);
  fr_connections : forall c cn, connections s !! c = Some cn ->
    exists cn', connections s' !! c = Some cn' /\ cn_ops cn' = cn_ops cn }.

#[global] Instance frames_preorder due : PreOrder (frames due).
Proof.
  split.
  - intros s. split; try done; try (by eauto).
    + intros l ls H. left. exists ls. split_and!; [done..|by left].
    + intros c cn H. left. exists cn. split_and!; [done..|by left].
  - intros s1 s2 s3 [O1 L1 M1 C1 D1] [O2 L2 M2 C2 D2]. split.
    + by rewrite O2.
    + intros l ls3 H. destruct (L2 _ _ H) as [(ls2 & H2 & E1 & E2 & F2)|[H2 E2]].
      * destruct (L1 _ _ H2) as [(ls1 & H1 & E3 & E4 & F1)|[H1 E3]]; [left|right; by rewrite E2].
        exists ls1. rewrite E1, E2. split_and!; try done. rewrite E4 in F2.
        destruct F2 as [[E5 E6]|F2]; [|by right]. destruct F1 as [[E7 E8]|F1]; [left; by rewrite E5, E6|by right].
      * right. split; [|done]. destruct (leases s1 !! l) as [ls|] eqn:E; [|done].
        destruct (M1 _ _ E) as (ls' & ? & _). congruence.
    + intros l ls H. destruct (M1 _ _ H) as (ls2 & H2 & E1 & E2). destruct (M2 _ _ H2) as (ls3 & H3 & E3 & E4).
      exists ls3. by rewrite E3, E4.
    + intros c cn3 H. destruct (C2 _ _ H) as [(cn2 & H2 & E1 & E2 & F2)|[H2 E2]].
      * destruct (C1 _ _ H2) as [(cn1 & H1 & E3 & E4 & F1)|(H1 & E3 & E4)]; [left|right; by rewrite E1, E2].
        exists cn1. rewrite E1, E2. split_and!; try done. rewrite E3 in F2.
        destruct F2 as [E5|F2]; [|by right]. destruct F1 as [E6|F1]; [left; by rewrite E5|by right].
      * right. split; [|done]. destruct (connections s1 !! c) as [cn|] eqn:E; [|done].
        destruct (D1 _ _ E) as (cn' & ? & _). congruence.
    + intros c cn H. destruct (D1 _ _ H) as (cn2 & H2 & E1). destruct (D2 _ _ H2) as (cn3 & H3 & E2).
      exists cn3. by rewrite E2.
Qed.

Lemma tracked_frames due due' s s' :
  frames due' s s' -> (forall op, op ∈ due -> op ∈ due') -> tracked due s -> tracked due' s'.
Proof.
  intros [O L M C D] Hdue [K I J F St]. split; rewrite ?O.
  - intros op o H. destruct (K _ _ H) as (ls & Hl & cn & Hc). destruct (M _ _ Hl) as (ls' & Hl' & E & _).
    exists ls'. rewrite E. split; [done|]. destruct (D _ _ Hc) as (cn' & ? & _). by exists cn'.
  - intros l ls' op Hl' Hin. destruct (L _ _ Hl') as [(ls & Hl & E1 & E2 & F1)|[_ E]].
    + rewrite E2 in Hin. destruct (I _ _ _ Hl Hin) as (o & cn & Ho & Eo & Hc & Hcn & G).
      destruct (D _ _ Hc) as (cn' & Hc' & E3). exists o, cn'. rewrite E1, E3. split_and!; try done.
      destruct (C _ _ Hc') as [(cn0 & Hc0 & _ & _ & F2)|(Hc0 & _)]; [|congruence].
      simplify_eq. destruct G as [G|(G1 & G2 & G3)]; [by left; auto|].
      destruct F1 as [[-> ->]|F1]; [|by left; auto]. destruct F2 as [->|F2]; [by right|left; auto].
    + rewrite E in Hin. by apply not_elem_of_nil in Hin.
  - intros c cn' op Hc' Hin. destruct (C _ _ Hc') as [(cn & Hc & E & _)|(_ & E & _)].
    + rewrite E in Hin. destruct (J _ _ _ Hc Hin) as (o & ls & Ho & Hl & Ec & Hls).
      destruct (M _ _ Hl) as (ls' & Hl' & E1 & E2). exists o, ls'. by rewrite E1, E2.
    + rewrite E in Hin. by apply not_elem_of_nil in Hin.
  - intros op o Ho Hf. destruct (F _ _ Ho Hf) as (ls & Hl & Hin). destruct (M _ _ Hl) as (ls' & Hl' & _ & E).
    exists ls'. by rewrite E.
  - exact St.
Qed.

(** The connection of a read does not change. *)
Lemma connection_of_frames due due' s s' op o :
  frames due s s' -> tracked due' s -> ops s !! op = Some o -> connection_of o s' = connection_of o s.
Proof.
  intros [O L M C D] T H. destruct (op_known _ _ T _ _ H) as (ls & Hl & _). destruct (M _ _ Hl) as (ls' & Hl' & E & _). unfold connection_of. rewrite Hl, Hl'. simpl. by rewrite E.
Qed.

Lemma channels_frames limit due due' s s' :
  0 <= limit -> frames due s s' -> tracked due' s -> channels limit s -> channels limit s'.
Proof.
  intros Hlimit Fr T Ch c cn' Hc'.
  assert (Hco : forall op o, ops s' !! op = Some o -> connection_of o s' = connection_of o s).
  { intros op o H. rewrite (fr_ops _ _ _ Fr) in H. by eapply connection_of_frames. }
  destruct (fr_connection _ _ _ Fr _ _ Hc') as [(cn & Hc & _ & El & _)|(Hnone & _ & El)].
  - destruct (Ch _ _ Hc) as (w & [R Li A Re H]). exists w. split; [done|by rewrite El| | |]; rewrite ?El.
    + intros op Hop. destruct (A _ Hop) as (o & Ho & E). exists o. rewrite (fr_ops _ _ _ Fr). split; [done|].
      rewrite <- E. apply (Hco op). by rewrite (fr_ops _ _ _ Fr).
    + intros op o Ho. rewrite (Hco _ _ Ho). rewrite (fr_ops _ _ _ Fr) in Ho. by apply Re.
    + intros op o Ho. rewrite (Hco _ _ Ho). rewrite (fr_ops _ _ _ Fr) in Ho. by apply H.
  - exists (Limiter.World createChannelLimiter [] []).
    assert (Hno : forall op o, ops s' !! op = Some o -> connection_of o s' <> Some c).
    { intros op o Ho. rewrite (Hco _ _ Ho). rewrite (fr_ops _ _ _ Fr) in Ho.
      destruct (op_known _ _ T _ _ Ho) as (ls & Hl & [cn Hc]). unfold connection_of. rewrite Hl. simpl. intros [= E].
      rewrite E in Hc. congruence. }
    split; [constructor|done|by intros op ?%not_elem_of_nil| |].
    + intros op o Ho Hcn. by destruct (Hno _ _ Ho).
    + intros op o Ho Hcn. by destruct (Hno _ _ Ho).
Qed.

(** *** Which steps those are *)

Lemma frames_intro due s s' :
  ops s' = ops s -> leases s' = leases s -> connections s' = connections s -> frames due s s'.
Proof.
  intros O L C. split; rewrite ?L, ?C; try done; try (by eauto).
  - intros l ls H. left. exists ls. split_and!; [done..|by left].
  - intros c cn H. left. exists cn. split_and!; [done..|by left].
Qed.

Lemma frames_upd_connection due c f s :
  (forall cn, connections s !! c = Some cn -> cn_ops (f cn) = cn_ops cn /\ cn_limiter (f cn) = cn_limiter cn
     /\ (closed (f cn) = closed cn \/ forall op, op ∈ cn_ops cn -> op ∈ due)) ->
  frames due s (upd_connection c f s).
Proof.
  intros Hf. split; try done; try (by eauto).
  - intros l ls H. left. exists ls. split_and!; [done..|by left].
  - intros d cn'. simpl. rewrite lookup_alter_Some. intros [(<- & cn & H & ->)|[Hne H]]; left.
    + exists cn. destruct (Hf _ H) as (? & ? & ?). by split_and!.
    + exists cn'. split_and!; [done..|by left].
  - intros d cn H. simpl. destruct (decide (c = d)) as [<-|Hne].
    + rewrite lookup_alter_eq, H. exists (f cn). by destruct (Hf _ H) as (? & _).
    + rewrite lookup_alter_ne by done. by exists cn.
Qed.

Lemma frames_upd_lease due l f s :
  (forall ls, leases s !! l = Some ls -> ls_connection (f ls) = ls_connection ls /\ ls_ops (f ls) = ls_ops ls
     /\ ((ls_released (f ls) = ls_released ls /\ expired (f ls) = expired ls) \/ forall op, op ∈ ls_ops ls -> op ∈ due)) ->
  frames due s (upd_lease l f s).
Proof.
  intros Hf. split; try done; try (by eauto).
  - intros k ls'. simpl. rewrite lookup_alter_Some. intros [(<- & ls & H & ->)|[Hne H]]; left.
    + exists ls. destruct (Hf _ H) as (? & ? & ?). by split_and!.
    + exists ls'. split_and!; [done..|by left].
  - intros k ls H. simpl. destruct (decide (l = k)) as [<-|Hne].
    + rewrite lookup_alter_eq, H. exists (f ls). by destruct (Hf _ H) as (? & ? & _).
    + rewrite lookup_alter_ne by done. by exists ls.
  - intros c cn H. left. exists cn. split_and!; [done..|by left].
Qed.

Lemma frames_prune due key e s : frames due s (prune key e s).
Proof. unfold prune. repeat case_match; try done; by apply frames_intro. Qed.

Lemma frames_closing c cn s : connections s !! c = Some cn -> frames (cn_ops cn) s (closing c cn s).
Proof.
  intros Hc. unfold closing. transitivity (upd_connection c set_closed s); [|by apply frames_intro].
  apply frames_upd_connection. intros cn' H. simplify_eq. split_and!; [done..|by right].
Qed.

Lemma frames_retire due c s : frames due s (retire c s).
Proof.
  unfold retire. destruct (connections s !! c); [|done].
  transitivity (upd_connection c (set_retired true) s); [|by apply frames_intro].
  apply frames_upd_connection. intros cn' H. split_and!; [done..|by left].
Qed.

Lemma frames_idle due b c s : frames due s (upd_connection c (set_idle b) s).
Proof. apply frames_upd_connection. intros cn' H. split_and!; [done..|by left]. Qed.

Lemma frames_checkout due c l s : leases s !! l = None -> frames due s (checkout c l s).
Proof.
  intros Hl. unfold checkout.
  set (s1 := upd_connection c (fun cn => set_cn_leases (cn_leases cn ++ [l]) (set_idle false cn)) s).
  etrans; [apply (frames_upd_connection due c (fun cn => set_cn_leases (cn_leases cn ++ [l]) (set_idle false cn)));
    intros cn' H; split_and!; [done..|by left]|]. fold s1.
  assert (Hl1 : leases s1 !! l = None) by done. clearbody s1. split; try done; try (by eauto).
  - intros k ls. simpl. rewrite lookup_insert_Some. intros [[<- <-]|[Hne H]]; [by right|left].
    exists ls. split_and!; [done..|by left].
  - intros k ls H. exists ls. simpl. rewrite lookup_insert_ne; [done|congruence].
  - intros d cn H. left. exists cn. split_and!; [done..|by left].
Qed.

Lemma frames_installing due id key e identity now s : connections s !! id = None ->
  frames due s (installing id key e identity now s).
Proof.
  intros Hc. split; try done; try (by eauto).
  - intros l ls H. left. exists ls. split_and!; [done..|by left].
  - intros d cn. simpl. rewrite lookup_insert_Some. intros [[<- <-]|[Hne H]]; [by right|left].
    exists cn. split_and!; [done..|by left].
  - intros d cn H. exists cn. simpl. rewrite lookup_insert_ne; [done|congruence].
Qed.

Lemma frames_entryFor due key e s s' : entryFor key s = (e, s') -> frames due s s'.
Proof. unfold entryFor. destruct (entries s !! key); intros [= <- <-]; [done|by apply frames_intro]. Qed.

(** ** Finishing and abandoning a read *)

Definition out_of_lease (op : nat) (l : Lease) : Lease := set_ls_ops (without op (ls_ops l)) l.
Definition out_of_connection (op : nat) (cn : Connection) : Connection := set_cn_ops (without op (cn_ops cn)) cn.
Definition giving_channel (cn : Connection) : Connection := set_limiter (Limiter.release (cn_limiter cn)) cn.

Lemma finish_known op o c s : ops s !! op = Some o -> connection_of o s = Some c ->
  finishOp op s =
    (let s2 := upd_connection c (out_of_connection op) (upd_lease (op_lease o) (out_of_lease op) s) in
     if op_holdsSlot o then upd_connection c giving_channel (upd_op op (set_slot false) s2) else s2).
Proof. intros Ho Hc. unfold finishOp. by rewrite Ho, Hc. Qed.

Lemma finish_ops op s p q : ops (finishOp op s) !! p = Some q ->
  exists q0, ops s !! p = Some q0 /\ op_lease q = op_lease q0 /\ op_told q = op_told q0 /\ op_admitted q = op_admitted q0
    /\ (op_holdsSlot q = true -> op_holdsSlot q0 = true) /\ (p <> op -> q = q0).
Proof.
  destruct (ops s !! op) as [o|] eqn:Ho; [|unfold finishOp; rewrite Ho; intros H; exists q; by split_and!].
  destruct (connection_of o s) as [c|] eqn:Hc; [|unfold finishOp; rewrite Ho, Hc; intros H; exists q; by split_and!].
  rewrite (finish_known op o c) by done. simpl. destruct (op_holdsSlot o) eqn:Eh; simpl; [|intros H; exists q; by split_and!].
  rewrite lookup_alter_Some. intros [(<- & q0 & H & ->)|[Hne H]]; [|exists q; by split_and!].
  exists q0. split_and!; simpl; done.
Qed.

Lemma finish_stream op s p q : ops (finishOp op s) !! p = Some q ->
  exists q0, ops s !! p = Some q0 /\ op_told q = op_told q0 /\ op_stream q = op_stream q0.
Proof.
  unfold finishOp. destruct (ops s !! op) as [o|]; [|intros H; by exists q].
  destruct (connection_of o s); [|intros H; by exists q]. destruct (op_holdsSlot o); [|intros H; by exists q]. simpl.
  rewrite lookup_alter_Some. intros [(<- & q0 & H & ->)|[Hne H]]; [by exists q0|by exists q].
Qed.

(** The finished read holds no channel. *)
Lemma finish_slot op o c s q : ops s !! op = Some o -> connection_of o s = Some c ->
  ops (finishOp op s) !! op = Some q -> op_holdsSlot q = false.
Proof.
  intros Ho Hc. rewrite (finish_known op o c) by done. simpl. destruct (op_holdsSlot o) eqn:Eh; simpl.
  - rewrite lookup_alter_eq, Ho. by intros [= <-].
  - intros. by simplify_eq.
Qed.

Lemma finish_ops_still op s p q0 : ops s !! p = Some q0 -> exists q, ops (finishOp op s) !! p = Some q /\ op_lease q = op_lease q0.
Proof.
  intros H. destruct (ops s !! op) as [o|] eqn:Ho; [|unfold finishOp; rewrite Ho; by exists q0].
  destruct (connection_of o s) as [c|] eqn:Hc; [|unfold finishOp; rewrite Ho, Hc; by exists q0].
  rewrite (finish_known op o c) by done. simpl. destruct (op_holdsSlot o); simpl; [|by exists q0].
  destruct (decide (op = p)) as [->|Hne].
  - rewrite lookup_alter_eq, H. by eexists.
  - rewrite lookup_alter_ne by done. by exists q0.
Qed.

Lemma finish_leases op o c s : ops s !! op = Some o -> connection_of o s = Some c ->
  leases (finishOp op s) = alter (out_of_lease op) (op_lease o) (leases s).
Proof. intros Ho Hc. rewrite (finish_known op o c) by done. simpl. by destruct (op_holdsSlot o). Qed.

Lemma finish_connections op o c s d : ops s !! op = Some o -> connection_of o s = Some c ->
  connections (finishOp op s) !! d =
    if decide (d = c)
    then (fun cn => if op_holdsSlot o then giving_channel (out_of_connection op cn) else out_of_connection op cn) <$> connections s !! d
    else connections s !! d.
Proof.
  intros Ho Hc. rewrite (finish_known op o c) by done. simpl.
  destruct (op_holdsSlot o); simpl; (destruct (decide (d = c)) as [->|Hne]; [|by rewrite !lookup_alter_ne]);
    rewrite !lookup_alter_eq; by destruct (connections s !! c).
Qed.

Lemma finish_connection op o c s d dn : ops s !! op = Some o -> connection_of o s = Some c ->
  connections (finishOp op s) !! d = Some dn ->
  exists dn0, connections s !! d = Some dn0 /\ closed dn = closed dn0
    /\ (forall p, p ∈ cn_ops dn <-> p ∈ cn_ops dn0 /\ (d = c -> p <> op)).
Proof.
  intros Ho Hc. rewrite (finish_connections op o c) by done.
  destruct (decide (d = c)) as [->|Hne]; [|intros H; exists dn; split_and!; [done..|]; intros p; tauto].
  destruct (connections s !! c) as [cn|]; [|done]. intros [= <-]. exists cn. split; [done|]. split; [by destruct (op_holdsSlot o)|].
  intros p. transitivity (p ∈ without op (cn_ops cn)); [by destruct (op_holdsSlot o)|]. rewrite elem_of_without. tauto.
Qed.

Lemma tracked_known due s op o : tracked due s -> ops s !! op = Some o ->
  exists ls c cn, leases s !! op_lease o = Some ls /\ ls_connection ls = c /\ connections s !! c = Some cn /\ connection_of o s = Some c.
Proof.
  intros T H. destruct (op_known _ _ T _ _ H) as (ls & Hl & [cn Hc]). exists ls, (ls_connection ls), cn.
  split_and!; try done. unfold connection_of. by rewrite Hl.
Qed.

Lemma tracked_finish due op o s :
  tracked (op :: due) s -> ops s !! op = Some o -> op_told o <> None -> tracked due (finishOp op s).
Proof.
  intros T Ho Htold. destruct (tracked_known _ _ _ _ T Ho) as (ls & c & cn & Hl & Elc & Hc & Hco).
  destruct T as [K I J F St]. split.
  - intros p q (q0 & Hq & -> & _)%finish_ops. destruct (K _ _ Hq) as (ms & Hm & dn & Hd).
    rewrite (finish_leases op o c) by done. destruct (decide (op_lease o = op_lease q0)) as [E|Hne].
    + rewrite <- E, lookup_alter_eq. rewrite <- E in Hm. rewrite Hm. eexists. split; [done|]. simpl.
      rewrite (finish_connections op o c) by done. rewrite Hd. by case_decide.
    + rewrite lookup_alter_ne by done. exists ms. split; [done|].
      rewrite (finish_connections op o c) by done. rewrite Hd. by case_decide.
  - intros k ks p. rewrite (finish_leases op o c) by done. rewrite lookup_alter_Some.
    assert (Hgoal : forall ks0, leases s !! k = Some ks0 -> p ∈ ls_ops ks0 -> p <> op ->
      exists q dn, ops (finishOp op s) !! p = Some q /\ op_lease q = k /\ connections (finishOp op s) !! ls_connection ks0 = Some dn
        /\ p ∈ cn_ops dn /\ (p ∈ due \/ (ls_released ks0 = false /\ expired ks0 = false /\ closed dn = false))).
    { intros ks0 Hk Hp Hne. destruct (I _ _ _ Hk Hp) as (q & dn & Hq & Eq & Hd & Hin & G).
      destruct (finish_ops_still op s p q Hq) as (q' & Hq' & Eq').
      assert (Hd' : exists dn', connections (finishOp op s) !! ls_connection ks0 = Some dn').
      { rewrite (finish_connections op o c), Hd by done. case_decide; by eexists. }
      destruct Hd' as [dn' Hd']. destruct (finish_connection op o c s _ _ Ho Hco Hd') as (dn0 & Hd0 & Ecl & Hops). simplify_eq.
      exists q', dn'. split_and!; try done; [apply Hops; by split|]. rewrite elem_of_cons, Ecl in *. tauto. }
    intros [(<- & ks0 & Hk & ->)|[Hne Hk]].
    + simpl. rewrite elem_of_without. intros [Hne Hp]. exact (Hgoal ks0 Hk Hp Hne).
    + intros Hp. apply (Hgoal ks Hk Hp). intros ->. destruct (I _ _ _ Hk Hp) as (q & dn & Hq & Eq & _). congruence.
  - intros d dn p Hd Hp. destruct (finish_connection op o c s _ _ Ho Hco Hd) as (dn0 & Hd0 & _ & Hops).
    destruct (proj1 (Hops p) Hp) as [Hp' Hne']. destruct (J _ _ _ Hd0 Hp') as (q & ms & Hq & Hm & Em & Hin).
    destruct (finish_ops_still op s p q Hq) as (q' & Hq' & Eq'). exists q'. rewrite Eq'.
    rewrite (finish_leases op o c) by done. destruct (decide (op_lease o = op_lease q)) as [E|Hne].
    + rewrite <- E, lookup_alter_eq. rewrite <- E in Hm. rewrite Hm. eexists. split_and!; [done|done|done|]. simpl.
      apply elem_of_without. split; [|done]. apply Hne'. simplify_eq. congruence.
    + rewrite lookup_alter_ne by done. by exists ms.
  - intros p q Hq Hf. destruct (decide (p = op)) as [->|Hne].
    + destruct Hf as [Hf|Hf].
      * apply finish_ops in Hq as (q0 & Hq & _ & Et & _). simplify_eq. congruence.
      * by rewrite (finish_slot op o c s q) in Hf.
    + apply finish_ops in Hq as (q0 & Hq & _ & _ & _ & _ & Eq). specialize (Eq Hne). subst q0.
      destruct (F _ _ Hq Hf) as (ms & Hm & Hin). rewrite (finish_leases op o c) by done.
      destruct (decide (op_lease o = op_lease q)) as [E|Hne'].
      * rewrite <- E, lookup_alter_eq. rewrite <- E in Hm. rewrite Hm. eexists. split; [done|]. simpl. by apply elem_of_without.
      * rewrite lookup_alter_ne by done. by exists ms.
  - intros p q (q0 & Hq & -> & ->)%finish_stream. by apply (St p).
Qed.

(** ** The channels *)

Lemma admitted_abort signal s : Limiter.admitted (Limiter.abort signal s) = Limiter.admitted s.
Proof.
  unfold Limiter.abort. destruct (bool_decide _); [done|].
  assert (H : forall due x, Limiter.admitted (fold_left (fun s t => Limiter.abandon t s) due x) = Limiter.admitted x).
  { induction due as [|t due IH]; intros x; [done|]. simpl. rewrite IH. unfold Limiter.abandon. by rewrite Limiter.admitted_reject. }
  by rewrite H.
Qed.

Lemma admitted_release op s : op ∈ Limiter.admitted s -> op ∈ Limiter.admitted (Limiter.release s).
Proof. intros H. pose proof (proj1 (Limiter.releases_serve_the_queue 1%nat s)) as E. simpl in E. rewrite E. apply elem_of_app. by left. Qed.

Lemma admitted_acquire limit ticket signal op s :
  op ∈ Limiter.admitted s -> op ∈ Limiter.admitted (Limiter.acquire limit ticket signal s).
Proof.
  intros H. unfold Limiter.acquire. destruct (match signal with Some _ => _ | None => _ end).
  - by rewrite Limiter.admitted_reject.
  - destruct (_ <? _); [|done]. rewrite Limiter.admitted_resolve. apply elem_of_app. by left.
Qed.

Lemma admitted_arrived limit w op : 0 <= limit -> Limiter.reachable limit w ->
  op ∈ Limiter.admitted (Limiter.limiter w) -> op ∈ Limiter.arrivals w.
Proof.
  intros Hl Hr H. destruct (Limiter.reachable_invariant _ _ Hl Hr) as [_ _ _ Ho _ _ _ _].
  eapply elem_of_sublist; [|exact Ho]. apply elem_of_app. by left.
Qed.

(** A read that holds a channel is one the limiter counts. *)
Lemma holder_of limit c lm s w op o : 0 <= limit -> channel_of limit c lm s w ->
  ops s !! op = Some o -> connection_of o s = Some c ->
  op ∈ Limiter.admitted lm -> op_admitted o = false \/ op_holdsSlot o = true -> op ∈ Limiter.holders w.
Proof.
  intros Hl [R E A Re H] Ho Hc Had Hs. unfold Limiter.holders. rewrite E. apply list_elem_of_In, filter_In.
  split; [by apply list_elem_of_In|]. apply negb_true_iff, bool_decide_eq_false. intros Hin.
  apply (Re op o Ho Hc) in Hin as [H1 H2]; [destruct Hs; congruence|]. eapply admitted_arrived; [done|done|]. by rewrite E.
Qed.

(** Nothing changes for the other reads of a connection. *)
Definition same_op (o o' : Op) : Prop :=
  op_lease o' = op_lease o /\ op_admitted o' = op_admitted o /\ op_holdsSlot o' = op_holdsSlot o.

Lemma channel_ops limit c lm s s' w :
  channel_of limit c lm s w ->
  (forall op o', ops s' !! op = Some o' -> connection_of o' s' = Some c ->
     (exists o, ops s !! op = Some o /\ connection_of o s = Some c /\ same_op o o')
     \/ (op ∉ Limiter.arrivals w /\ op_holdsSlot o' = false)) ->
  (forall op o, ops s !! op = Some o -> connection_of o s = Some c -> exists o', ops s' !! op = Some o' /\ connection_of o' s' = Some c) ->
  channel_of limit c lm s' w.
Proof.
  intros [R E A Re H] Hback Hforth. split; try done.
  - intros op Hop. destruct (A _ Hop) as (o & Ho & Hc). by apply (Hforth _ o).
  - intros op o' Ho' Hc' Hin. destruct (Hback _ _ Ho' Hc') as [(o & Ho & Hc & _ & E1 & E2)|[Hno _]]; [|done].
    rewrite E1, E2. by apply Re.
  - intros op o' Ho' Hc' Hs. destruct (Hback _ _ Ho' Hc') as [(o & Ho & Hc & _ & E1 & E2)|[_ Hno]]; [|congruence].
    rewrite E1. rewrite E2 in Hs. by apply (H _ o).
Qed.

Lemma connection_of_bones o o' s s' : same_bones s s' -> op_lease o' = op_lease o -> connection_of o' s' = connection_of o s.
Proof.
  intros H E. unfold connection_of. rewrite E. destruct (leases s !! op_lease o) as [ls|] eqn:Hl.
  - destruct (bones_lease _ _ _ _ H Hl) as (ls' & -> & (Ec & _)%ls_bones_eq). simpl. by rewrite Ec.
  - destruct (leases s' !! op_lease o) as [ls'|] eqn:Hl'; [|done].
    destruct (bones_lease _ _ _ _ (symmetry H) Hl') as (ls & Hls & _). congruence.
Qed.

(** Finishing a read that holds a channel is a step of the limiter. *)
Lemma channel_given limit c lm s s' w op o : 0 <= limit ->
  channel_of limit c lm s w -> ops s !! op = Some o -> connection_of o s = Some c ->
  op ∈ Limiter.admitted lm -> op_admitted o = false \/ op_holdsSlot o = true ->
  (forall p q', ops s' !! p = Some q' -> connection_of q' s' = Some c ->
     exists q, ops s !! p = Some q /\ connection_of q s = Some c /\ (p <> op -> same_op q q')) ->
  (forall p q, ops s !! p = Some q -> connection_of q s = Some c -> exists q', ops s' !! p = Some q' /\ connection_of q' s' = Some c) ->
  (forall q', ops s' !! op = Some q' -> op_admitted q' = true /\ op_holdsSlot q' = false) ->
  channel_of limit c (Limiter.release lm) s' (Limiter.World (Limiter.release lm) (Limiter.arrivals w) (Limiter.released w ++ [op])).
Proof.
  intros Hl Ch Ho Hc Had Hs Hback Hforth Hop. pose proof (holder_of _ _ _ _ _ _ _ Hl Ch Ho Hc Had Hs) as Hh.
  destruct Ch as [R E A Re H]. split; simpl; [| done | | |].
  - rewrite <- E. eapply rtc_r; [exact R|]. by apply (Limiter.step_release limit w op).
  - intros p Hp. destruct (A _ Hp) as (q & Hq & Hcq). by apply (Hforth _ q).
  - intros p q' Hq' Hcq' Hin. rewrite elem_of_app, list_elem_of_singleton.
    destruct (Hback _ _ Hq' Hcq') as (q & Hq & Hcq & Hsame). destruct (decide (p = op)) as [->|Hne].
    + destruct (Hop _ Hq') as [-> ->]. tauto.
    + destruct (Hsame Hne) as (_ & -> & ->). rewrite <- (Re _ _ Hq Hcq Hin). tauto.
  - intros p q' Hq' Hcq' Hsl. destruct (Hback _ _ Hq' Hcq') as (q & Hq & Hcq & Hsame). destruct (decide (p = op)) as [->|Hne].
    + destruct (Hop _ Hq') as [_ Hf]. congruence.
    + destruct (Hsame Hne) as (_ & E1 & E2). rewrite E2 in Hsl. rewrite E1. destruct (H _ _ Hq Hcq Hsl) as [? ?].
      split; [done|]. by apply admitted_release.
Qed.

Lemma channels_finish limit due op o s : 0 <= limit ->
  tracked due s -> ops s !! op = Some o -> channels limit s -> channels limit (finishOp op s).
Proof.
  intros Hl T Ho Ch d dn' Hd'. destruct (tracked_known _ _ _ _ T Ho) as (ls & c & cn & _ & _ & Hc & Hco).
  pose proof (bones_finishOp op s) as B.
  assert (Hforth : forall p q, ops s !! p = Some q -> connection_of q s = Some d ->
    exists q', ops (finishOp op s) !! p = Some q' /\ connection_of q' (finishOp op s) = Some d).
  { intros p q Hq Hcq. destruct (finish_ops_still op s p q Hq) as (q' & Hq' & E). exists q'. split; [done|].
    by rewrite (connection_of_bones q q' s (finishOp op s) (symmetry B) E). }
  assert (Hback : forall p q', ops (finishOp op s) !! p = Some q' -> connection_of q' (finishOp op s) = Some d ->
    exists q, ops s !! p = Some q /\ connection_of q s = Some d /\ op_admitted q' = op_admitted q
      /\ (op_holdsSlot q' = true -> op_holdsSlot q = true) /\ (p <> op -> same_op q q')).
  { intros p q' Hq' Hcq'. destruct (finish_ops _ _ _ _ Hq') as (q & Hq & E & _ & E1 & E2 & E3). exists q.
    split; [done|]. split; [by rewrite <- (connection_of_bones q q' s (finishOp op s) (symmetry B) E)|].
    split; [done|]. split; [done|]. intros Hne. by rewrite (E3 Hne). }
  pose proof Hd' as Hd. rewrite (finish_connections op o c) in Hd by done. destruct (decide (d = c)) as [->|Hne].
  - rewrite Hc in Hd. injection Hd as <-. destruct (Ch _ _ Hc) as (w & Hw). destruct (op_holdsSlot o) eqn:Eh.
    + eexists. simpl. destruct (ch_held _ _ _ _ _ Hw _ _ Ho Hco Eh) as [Ea Ein].
      eapply (channel_given limit c _ s _ w op o Hl Hw Ho Hco Ein (or_intror Eh)).
      * intros p q' Hq' Hcq'. destruct (Hback _ _ Hq' Hcq') as (q & ? & ? & _ & _ & ?). by exists q.
      * exact Hforth.
      * intros q' Hq'. split; [|exact (finish_slot op o c s q' Ho Hco Hq')]. destruct (finish_ops _ _ _ _ Hq') as (q & Hq & _ & _ & E & _). simplify_eq. by rewrite E.
    + exists w. simpl. eapply channel_ops; [exact Hw| |exact Hforth].
      intros p q' Hq' Hcq'. left. destruct (Hback _ _ Hq' Hcq') as (q & Hq & Hcq & E1 & E2 & E3). exists q.
      split_and!; [done|done|]. destruct (decide (p = op)) as [->|Hne]; [|by apply E3]. simplify_eq.
      split_and!; [|done|]. { destruct (finish_ops _ _ _ _ Hq') as (q & Hq2 & E & _). by simplify_eq. }
      rewrite Eh. destruct (op_holdsSlot q'); [|done]. by rewrite E2 in Eh.
  - destruct (Ch _ _ Hd) as (w & Hw). exists w. eapply channel_ops; [exact Hw| |exact Hforth].
    intros p q' Hq' Hcq'. left. destruct (Hback _ _ Hq' Hcq') as (q & Hq & Hcq & _ & _ & E3). exists q.
    split_and!; [done|done|]. apply E3. intros ->. simplify_eq.
Qed.

(** ** Both together *)

Definition kept (limit : Z) (due : list nat) (s : Pool) : Prop := tracked due s /\ channels limit s.

(** What an update of one read shows of the others. *)
Lemma upd_op_back op f s p q' : ops (upd_op op f s) !! p = Some q' ->
  exists q, ops s !! p = Some q /\ q' = if decide (op = p) then f q else q.
Proof. simpl. rewrite lookup_alter_Some. intros [(<- & q & H & ->)|[Hne H]]; eexists; (split; [done|by case_decide]). Qed.

Lemma upd_op_forth op f s p q : ops s !! p = Some q -> ops (upd_op op f s) !! p = Some (if decide (op = p) then f q else q).
Proof. intros H. simpl. case_decide as E; [subst; by rewrite lookup_alter_eq, H|by rewrite lookup_alter_ne]. Qed.

Lemma tracked_upd_op due op f s :
  (forall o, ops s !! op = Some o -> op_lease (f o) = op_lease o
     /\ (op_told (f o) = None \/ op_holdsSlot (f o) = true -> op_told o = None \/ op_holdsSlot o = true)
     /\ (op_stream (f o) = true -> op_stream o = true \/ op_told (f o) <> None) /\ (op_told (f o) = None -> op_told o = None)) ->
  tracked due s -> tracked due (upd_op op f s).
Proof.
  intros Hf [K I J F St].
  assert (Hl : forall p q, ops s !! p = Some q -> op_lease (if decide (op = p) then f q else q) = op_lease q).
  { intros p q H. case_decide; [subst; by destruct (Hf _ H)|done]. }
  split.
  - intros p q' (q & Hq & ->)%upd_op_back. rewrite (Hl _ _ Hq). by apply (K p).
  - intros l ls p Hls Hp. destruct (I _ _ _ Hls Hp) as (q & cn & Hq & <- & Hr).
    eexists _, cn. split; [by apply upd_op_forth|]. by rewrite (Hl _ _ Hq).
  - intros c cn p Hc Hp. destruct (J _ _ _ Hc Hp) as (q & ls & Hq & Hr).
    eexists _, ls. split; [by apply upd_op_forth|]. by rewrite (Hl _ _ Hq).
  - intros p q' (q & Hq & ->)%upd_op_back Hs. rewrite (Hl _ _ Hq). apply (F _ _ Hq).
    case_decide; [subst; by apply (Hf _ Hq)|done].
  - intros p q' (q & Hq & ->)%upd_op_back Hs. case_decide; [subst|by apply (St p)].
    destruct (Hf _ Hq) as (_ & _ & H1 & H2). intros E. destruct (H1 Hs) as [H|H]; [|done]. apply (St _ _ Hq H). auto.
Qed.

(** Answering a read changes neither its place nor its channel. *)
Lemma kept_upd_op limit due op f s :
  (forall o, ops s !! op = Some o -> same_op o (f o) /\ (op_told (f o) = None -> op_told o = None)
     /\ (op_stream (f o) = true -> op_stream o = true \/ op_told (f o) <> None)) ->
  kept limit due s -> kept limit due (upd_op op f s).
Proof.
  intros Hf [T Ch]. split.
  - apply tracked_upd_op; [|done]. intros o Ho. destruct (Hf _ Ho) as ((-> & _ & ->) & ? & ?). split_and!; [done|tauto|done|done].
  - intros c cn Hc. destruct (Ch _ _ Hc) as (w & Hw). exists w.
    assert (Hs : forall p q, ops s !! p = Some q -> same_op q (if decide (op = p) then f q else q)).
    { intros p q H. case_decide; [subst; by destruct (Hf _ H)|done]. }
    eapply channel_ops; [exact Hw| |].
    + intros p q' (q & Hq & ->)%upd_op_back Hco. left. exists q. split_and!; [done| |by apply Hs].
      rewrite <- Hco. symmetry. by apply connection_of_bones; [|apply Hs].
    + intros p q Hq Hco. eexists. split; [by apply upd_op_forth|].
      rewrite <- Hco. by apply connection_of_bones; [|apply Hs].
Qed.

Lemma tracked_limiter due c g s : tracked due s -> tracked due (upd_connection c (fun cn => set_limiter (g cn) cn) s).
Proof.
  set (f := fun cn => _). intros [K I J F St].
  assert (Hforth : forall d dn, connections s !! d = Some dn -> exists dn', connections (upd_connection c f s) !! d = Some dn'
    /\ cn_ops dn' = cn_ops dn /\ closed dn' = closed dn).
  { intros d dn H. simpl. destruct (decide (c = d)) as [<-|Hne].
    - rewrite lookup_alter_eq, H. by eexists.
    - rewrite lookup_alter_ne by done. by exists dn. }
  split.
  - intros p q Hq. destruct (K _ _ Hq) as (ls & Hls & dn & Hd). destruct (Hforth _ _ Hd) as (dn' & ? & _). exists ls. split; [done|by exists dn'].
  - intros l ls p Hls Hp. destruct (I _ _ _ Hls Hp) as (q & dn & Hq & E & Hd & Hin & G).
    destruct (Hforth _ _ Hd) as (dn' & Hd' & E1 & E2). exists q, dn'. by rewrite E1, E2.
  - intros d dn' p. simpl. rewrite lookup_alter_Some. intros [(<- & dn & Hd & ->)|[Hne Hd]] Hp; by eapply J.
  - done.
  - done.
Qed.

Lemma kept_abort limit due op c s : 0 <= limit ->
  kept limit due s -> kept limit due (upd_connection c (fun cn => set_limiter (Limiter.abort op (cn_limiter cn)) cn) s).
Proof.
  intros Hl [T Ch]. split; [by apply (tracked_limiter due c (fun cn => Limiter.abort op (cn_limiter cn)))|].
  intros d dn'. simpl. rewrite lookup_alter_Some. intros [(<- & dn & Hd & ->)|[Hne Hd]];
    [|destruct (Ch _ _ Hd) as (w & []); exists w; by split].
  destruct (Ch _ _ Hd) as (w & [R E A Re H]).
  exists (Limiter.World (Limiter.abort op (cn_limiter dn)) (Limiter.arrivals w) (Limiter.released w)).
  split; simpl; [|done|exact A|exact Re|].
  - rewrite <- E. eapply rtc_r; [exact R|]. apply Limiter.step_abort.
  - rewrite admitted_abort. exact H.
Qed.

Lemma kept_finish limit due op o s : 0 <= limit ->
  ops s !! op = Some o -> op_told o <> None -> kept limit (op :: due) s -> kept limit due (finishOp op s).
Proof. intros Hl Ho Ht [T Ch]. split; [by eapply tracked_finish|by eapply channels_finish]. Qed.

Lemma kept_abandon limit due error op s : 0 <= limit ->
  kept limit (op :: due) s -> kept limit due (abandon_op error op s).
Proof.
  intros Hl Kp. unfold abandon_op. destruct (ops s !! op) as [o|] eqn:Ho.
  2: { destruct Kp as [[K I J F St] Ch]. split; [|done]. split; try done. intros l ls p Hls Hp.
       destruct (I _ _ _ Hls Hp) as (q & cn & Hq & E & Hc & Hin & G). exists q, cn. split_and!; try done.
       rewrite elem_of_cons in G. destruct G as [[->|G]|G]; [congruence|by left|by right]. }
  set (s1 := match op_told o with None => _ | Some _ => _ end).
  assert (K1 : kept limit (op :: due) s1 /\ exists o1, ops s1 !! op = Some o1 /\ op_told o1 <> None).
  { unfold s1. destruct (op_told o) eqn:Et.
    - split; [done|]. exists o. by rewrite Et.
    - split; [apply kept_upd_op; [|done]; intros o' Ho'; split_and!; try done; by right|]. simpl. rewrite lookup_alter_eq, Ho. by eexists. }
  destruct K1 as [K1 (o1 & Ho1 & Ht1)]. clearbody s1.
  destruct (connection_of o s1) as [c|]; [|by eapply kept_finish].
  eapply kept_finish; [done|exact Ho1|exact Ht1|]. by apply kept_abort.
Qed.

Lemma kept_abandon_all limit error all : forall s, 0 <= limit ->
  kept limit all s -> kept limit [] (abandon_all_ops error all s).
Proof.
  induction all as [|op all IH]; intros s Hl H; [done|]. simpl. apply IH; [done|]. by apply kept_abandon.
Qed.

(** Steps that are not about reads keep both. *)
Lemma kept_frames limit due due' s s' : 0 <= limit ->
  frames due' s s' -> (forall op, op ∈ due -> op ∈ due') -> kept limit due s -> kept limit due' s'.
Proof. intros Hl Fr Hd [T Ch]. split; [by eapply tracked_frames|by eapply channels_frames]. Qed.

Lemma kept_frames0 limit s s' : 0 <= limit -> frames [] s s' -> kept limit [] s -> kept limit [] s'.
Proof. intros Hl Fr. by apply kept_frames. Qed.

Lemma none_due {P : nat -> Prop} op : op ∈ ([] : list nat) -> P op.
Proof. by intros ?%not_elem_of_nil. Qed.

Lemma kept_shutDown limit c s : 0 <= limit -> kept limit [] s -> kept limit [] (shutDown c s).
Proof.
  intros Hl Kp. destruct (connections s !! c) as [cn|] eqn:Hc; [|unfold shutDown; by rewrite Hc].
  destruct (closed cn) eqn:Ho; [unfold shutDown; by rewrite Hc, Ho|]. rewrite (shutDown_closes c cn) by done.
  eapply kept_frames0; [done|apply frames_prune|]. apply kept_abandon_all; [done|].
  eapply kept_frames; [done|by apply frames_closing|apply none_due|done].
Qed.

Lemma kept_afterLastLease limit c s : 0 <= limit -> kept limit [] s -> kept limit [] (afterLastLease c s).
Proof.
  intros Hl Kp. unfold afterLastLease. destruct (connections s !! c); [|done].
  repeat case_match; try done; try by apply kept_shutDown. eapply kept_frames0; [done|apply frames_idle|done].
Qed.

Lemma kept_expire_op limit due c op s : 0 <= limit -> kept limit (op :: due) s -> kept limit due (expire_op c s op).
Proof.
  intros Hl Kp. unfold expire_op. destruct (ops s !! op) as [o|] eqn:Ho.
  - destruct (op_state o ≡? op_queued); [by apply kept_abandon|]. apply kept_abandon; [done|].
    eapply kept_frames; [done|apply frames_retire| |exact Kp]. done.
  - assert (H := kept_abandon limit due queueExpired op s Hl Kp). unfold abandon_op in H. by rewrite Ho in H.
Qed.

Lemma kept_expire limit l s : 0 <= limit -> kept limit [] s -> kept limit [] (expire l s).
Proof.
  intros Hl Kp. unfold expire. destruct (leases s !! l) as [ls|] eqn:Els; [|done].
  assert (K : kept limit (ls_ops ls) (upd_lease l set_expired s)).
  { eapply kept_frames; [done| |apply none_due|exact Kp]. apply frames_upd_lease. intros ls' H. simplify_eq. split_and!; [done..|by right]. }
  revert K. generalize (upd_lease l set_expired s). induction (ls_ops ls) as [|op all IH]; intros x K; [done|].
  simpl. apply IH. by apply kept_expire_op.
Qed.

Lemma kept_release limit l s : 0 <= limit -> kept limit [] s -> kept limit [] (release_lease l s).
Proof.
  intros Hl Kp. unfold release_lease. destruct (leases s !! l) as [ls|] eqn:Els; [|done].
  destruct (ls_released ls); [done|]. apply kept_afterLastLease; [done|].
  eapply kept_frames0; [done|apply frames_upd_connection; intros cn H; split_and!; [done..|by left]|].
  apply kept_abandon_all; [done|]. eapply kept_frames; [done| |apply none_due|exact Kp].
  transitivity (upd_lease l set_released s); [|by apply frames_intro].
  apply frames_upd_lease. intros ls' H. simplify_eq. split_and!; [done..|by right].
Qed.

Lemma kept_opened X limit id ok now s : 0 <= limit -> well_formed X s ->
  (forall o, openings s !! id = Some o -> og_done o = None) -> kept limit [] s -> kept limit [] (opened id ok now s).
Proof.
  intros Hl (name & I & _) Hd Kp. unfold opened. destruct (openings s !! id) as [o|] eqn:Ho; [|done].
  assert (Kg : kept limit [] (giveUp id o s)).
  { unfold giveUp. destruct (is_pending _ _ _); [|done]. eapply kept_frames0; [done|apply frames_prune|].
    apply (kept_frames0 limit s); [done|by apply frames_intro|done]. }
  destruct (_ || _).
  { apply (kept_frames0 limit (giveUp id o s)); [done|by apply frames_intro|exact Kg]. }
  eapply (kept_frames0 limit (install _ _ _ _ _ _)); [done|by apply frames_intro|].
  assert (Hno : connections s !! id = None) by (eapply (unsettled_not_yet _ _ _ _ I); eauto).
  unfold install. set (s1 := upd_entry (og_entry o) (set_pending None) s).
  fold (installing id (og_key o) (og_entry o) (og_identity o) now s1).
  assert (K2 : kept limit [] (installing id (og_key o) (og_entry o) (og_identity o) now s1)).
  { eapply kept_frames0; [done|by apply frames_installing|]. apply (kept_frames0 limit s); [done|by apply frames_intro|done]. }
  destruct (installed_in _ s1) as [p|]; [|done]. destruct (connections _ !! p); [|done].
  destruct (sameConnectionIdentity _ _); [by apply kept_afterLastLease|by apply kept_shutDown].
Qed.

(** ** Leases *)

Lemma new_after_shutDown c rq s : leases s !! rq = None -> leases (shutDown c s) !! rq = None.
Proof.
  intros H. destruct (leases (shutDown c s) !! rq) as [ls|] eqn:E; [|done].
  apply (ext_lease _ _ (extends_shutDown c s)) in E as (? & E & _). congruence.
Qed.

Lemma kept_hand_out limit c rq s : 0 <= limit -> leases s !! rq = None -> kept limit [] s -> kept limit [] (hand_out c rq s).
Proof.
  intros Hl Hn Kp. apply (kept_frames0 limit (checkout c rq s)); [done|by apply frames_intro|].
  eapply kept_frames0; [done|by apply frames_checkout|done].
Qed.

Lemma kept_waiting_turn limit e rq key identity s : 0 <= limit ->
  kept limit [] s -> kept limit [] (waiting_turn e rq key identity s).
Proof.
  intros Hl Kp. apply (kept_frames0 limit s); [done| |done]. unfold waiting_turn, startOpen.
  destruct (joinable e identity s); by apply frames_intro.
Qed.

Lemma kept_lease_turn limit options rq key identity deadlineMs now s : 0 <= limit -> leases s !! rq = None ->
  kept limit [] s -> kept limit [] (lease_turn options rq key identity deadlineMs now s).
Proof.
  intros Hl Hn Kp. unfold lease_turn. destruct (entryFor key s) as [e s1] eqn:Ee.
  assert (K1 : kept limit [] s1) by (eapply kept_frames0; [done|by eapply frames_entryFor|done]).
  assert (N1 : leases s1 !! rq = None) by (unfold entryFor in Ee; destruct (entries s !! key); by injection Ee as <- <-).
  destruct (installed_in e s1) as [c|]; [|by apply kept_waiting_turn].
  destruct (negb (usable c identity s1)).
  - apply kept_waiting_turn; [done|]. by apply kept_shutDown.
  - destruct (connections s1 !! c) as [cn|]; [|by apply kept_waiting_turn].
    destruct (_ <=? _); [by apply kept_hand_out|by apply kept_waiting_turn].
Qed.

(** ** Reads begin, get their channel and end *)

Lemma kept_refused limit l ls cn op kind told s :
  ops s !! op = None -> leases s !! l = Some ls -> connections s !! ls_connection ls = Some cn -> kept limit [] s ->
  kept limit [] (with_ops (<[op := MkOp l kind op_queued false (Some told) false true]> (ops s)) s).
Proof.
  intros Hn Els Ec [[K I J F St] Ch]. split; [split|]; simpl.
  - intros p q. rewrite lookup_insert_Some. intros [[<- <-]|[Hne H]]; [by exists ls|by apply (K p)].
  - intros k ks p Hk Hp. destruct (I _ _ _ Hk Hp) as (q & dn & Hq & F'). exists q, dn. rewrite lookup_insert_ne by congruence. done.
  - intros c dn p Hd Hp. destruct (J _ _ _ Hd Hp) as (q & ks & Hq & F'). exists q, ks. rewrite lookup_insert_ne by congruence. done.
  - intros p q. rewrite lookup_insert_Some. intros [[<- <-]|[Hne H]]; [by intros []|by apply (F p)].
  - intros p q. rewrite lookup_insert_Some. intros [[<- <-]|[Hne H]]; [done|by apply (St p)].
  - intros c dn Hd. destruct (Ch _ _ Hd) as (w & Hw). exists w. eapply channel_ops; [exact Hw| |].
    + intros p q. simpl. rewrite lookup_insert_Some. intros [[<- <-]|[Hne H]] Hco; [right|left; by exists q].
      split; [|done]. intros Hin. destruct (ch_arrivals _ _ _ _ _ Hw _ Hin) as (o & Ho & _). congruence.
    + intros p q Hq Hco. exists q. simpl. rewrite lookup_insert_ne by congruence. done.
Qed.

(** A read that begins. *)
Definition beginning (limit : Z) (l c op : nat) (kind : OpKind) (s : Pool) : Pool :=
  upd_connection c
    (fun cn => set_limiter (Limiter.acquire limit op (Some op) (cn_limiter cn)) (set_cn_ops (cn_ops cn ++ [op]) cn))
    (upd_lease l (fun lease => set_ls_ops (ls_ops lease ++ [op]) lease)
       (with_ops (<[op := MkOp l kind op_queued false None false false]> (ops s)) s)).

Lemma beginning_lease limit l c op kind s k ks : leases (beginning limit l c op kind s) !! k = Some ks <->
  exists ks0, leases s !! k = Some ks0 /\ ks = if decide (k = l) then set_ls_ops (ls_ops ks0 ++ [op]) ks0 else ks0.
Proof.
  unfold beginning. simpl. rewrite lookup_alter_Some. split.
  - intros [(-> & ks0 & H & ->)|[Hne H]]; eexists; (split; [done|by case_decide]).
  - intros (ks0 & H & ->). case_decide as E; [subst; left; by eauto|by right].
Qed.

Lemma beginning_connection limit l c op kind s d dn : connections (beginning limit l c op kind s) !! d = Some dn <->
  exists dn0, connections s !! d = Some dn0 /\ dn = if decide (d = c)
    then set_limiter (Limiter.acquire limit op (Some op) (cn_limiter dn0)) (set_cn_ops (cn_ops dn0 ++ [op]) dn0) else dn0.
Proof.
  unfold beginning. simpl. rewrite lookup_alter_Some. split.
  - intros [(-> & dn0 & H & ->)|[Hne H]]; eexists; (split; [done|by case_decide]).
  - intros (dn0 & H & ->). case_decide as E; [subst; left; by eauto|by right].
Qed.

Ltac fields := cbn [set_ls_ops ls_ops ls_connection ls_released expired op_lease set_cn_ops cn_ops closed set_limiter cn_limiter].

Lemma in_snoc {A} (P : Prop) `{Decision P} (x y : A) (l : list A) : x <> y ->
  x ∈ (if decide P then l ++ [y] else l) <-> x ∈ l.
Proof. intros Hne. case_decide; [|done]. rewrite elem_of_app, list_elem_of_singleton. tauto. Qed.

Lemma tracked_beginning limit l ls cn op kind s :
  ops s !! op = None -> leases s !! l = Some ls -> connections s !! ls_connection ls = Some cn ->
  ls_released ls = false -> expired ls = false -> closed cn = false ->
  tracked [] s -> tracked [] (beginning limit l (ls_connection ls) op kind s).
Proof.
  intros Hn Els Ec Hr He Hcl [K I J F St].
  assert (Eops : ops (beginning limit l (ls_connection ls) op kind s) = <[op := MkOp l kind op_queued false None false false]> (ops s)) by done.
  assert (Hls : forall k ks0, op ∉ ls_ops ks0 \/ leases s !! k <> Some ks0).
  { intros k ks0. destruct (decide (op ∈ ls_ops ks0)) as [Hin|]; [|by left]. right. intros Hk.
    destruct (I _ _ _ Hk Hin) as (o & ? & Ho & _). congruence. }
  split; rewrite ?Eops.
  - intros p q. rewrite lookup_insert_Some. intros [[<- <-]|[Hne H]]; fields.
    + eexists. split; [by apply beginning_lease; eauto|]. case_decide; [|done]. fields.
      eexists. apply beginning_connection. eauto.
    + destruct (K _ _ H) as (ks & Hk & dn & Hd). eexists. split; [by apply beginning_lease; eauto|].
      eexists. apply beginning_connection. exists dn. split; [|done]. by case_decide.
  - intros k ks p (ks0 & Hk & ->)%beginning_lease Hp. destruct (decide (p = op)) as [->|Hne].
    + destruct (decide (k = l)) as [->|Hkl]; [|by destruct (Hls k ks0)]. simplify_eq.
      rewrite lookup_insert_eq. eexists _, _. split; [done|]. split; [done|].
      split; [by apply beginning_connection; eauto|]. case_decide; [|done]. split; [|by right].
      fields. apply elem_of_app. right. by apply list_elem_of_singleton.
    + assert (Hp' : p ∈ ls_ops ks0).
      { apply (in_snoc (k = l) p op (ls_ops ks0) Hne). by destruct (decide (k = l)). }
      destruct (I _ _ _ Hk Hp') as (q & dn & Hq & E & Hd & Hin & G). exists q. rewrite lookup_insert_ne by done.
      eexists. split; [done|]. split; [done|]. split.
      { apply beginning_connection. exists dn. split; [by destruct (decide (k = l))|done]. }
      split; [apply (in_snoc (ls_connection ks0 = ls_connection ls) p op (cn_ops dn) Hne) in Hin|].
      * destruct (decide (k = l)); fields; by destruct (decide (ls_connection ks0 = ls_connection ls)).
      * destruct (decide (k = l)); fields; by destruct (decide (ls_connection ks0 = ls_connection ls)).
  - intros d dn p (dn0 & Hd & ->)%beginning_connection Hp. destruct (decide (p = op)) as [->|Hne].
    + destruct (decide (d = ls_connection ls)) as [->|Hdc].
      * rewrite lookup_insert_eq. eexists _, _. split; [done|]. split; [by apply beginning_lease; eauto|]. fields.
        destruct (decide (l = l)); [|done]. split; [done|]. fields. apply elem_of_app. right. by apply list_elem_of_singleton.
      * destruct (J _ _ _ Hd Hp) as (q & ? & Hq & _). congruence.
    + assert (Hp' : p ∈ cn_ops dn0).
      { apply (in_snoc (d = ls_connection ls) p op (cn_ops dn0) Hne). by destruct (decide (d = ls_connection ls)). }
      destruct (J _ _ _ Hd Hp') as (q & ks & Hq & Hk & E & Hin). exists q. rewrite lookup_insert_ne by done.
      eexists. split; [done|]. split; [by apply beginning_lease; eauto|].
      destruct (decide (op_lease q = l)); [|done]. split; [done|]. fields. apply elem_of_app. by left.
  - intros p q. rewrite lookup_insert_Some. intros [[<- <-]|[Hne H]] Hs; fields.
    + eexists. split; [by apply beginning_lease; eauto|]. case_decide; [|done]. fields. apply elem_of_app. right. by apply list_elem_of_singleton.
    + destruct (F _ _ H Hs) as (ks & Hk & Hin). eexists. split; [by apply beginning_lease; eauto|].
      case_decide; [|done]. fields. apply elem_of_app. by left.
  - intros p q. rewrite lookup_insert_Some. intros [[<- <-]|[Hne H]]; [done|by apply (St p)].
Qed.

Lemma bones_beginning limit l c op kind s : same_bones (beginning limit l c op kind s) s.
Proof. unfold beginning. etrans; [by apply bones_upd_connection|]. etrans; [by apply bones_upd_lease|done]. Qed.

Lemma channels_beginning limit l ls cn op kind s : 0 <= limit ->
  ops s !! op = None -> leases s !! l = Some ls -> connections s !! ls_connection ls = Some cn ->
  channels limit s -> channels limit (beginning limit l (ls_connection ls) op kind s).
Proof.
  intros Hl Hn Els Ec Ch. set (s' := beginning _ _ _ _ _ _).
  pose proof (bones_beginning limit l (ls_connection ls) op kind s) as B. fold s' in B.
  assert (Hback : forall p q, ops s' !! p = Some q ->
    (p = op /\ connection_of q s' = Some (ls_connection ls) /\ op_admitted q = false /\ op_holdsSlot q = false)
    \/ (p <> op /\ ops s !! p = Some q /\ connection_of q s' = connection_of q s)).
  { intros p q H. change (ops s') with (<[op := MkOp l kind op_queued false None false false]> (ops s)) in H.
    apply lookup_insert_Some in H as [[<- <-]|[Hne H]].
    - left. split_and!; try done. rewrite (connection_of_bones _ _ s s' (symmetry B) eq_refl). unfold connection_of.
      cbn [op_lease]. by rewrite Els.
    - right. split_and!; try done. by apply connection_of_bones. }
  assert (Hforth : forall p q, ops s !! p = Some q -> ops s' !! p = Some q /\ connection_of q s' = connection_of q s).
  { intros p q H. split; [|by apply connection_of_bones].
    change (ops s') with (<[op := MkOp l kind op_queued false None false false]> (ops s)). rewrite lookup_insert_ne; congruence. }
  intros d dn (dn0 & Hd & ->)%beginning_connection. destruct (Ch _ _ Hd) as (w & Hw).
  assert (Hnew : op ∉ Limiter.arrivals w).
  { intros Hin. destruct (ch_arrivals _ _ _ _ _ Hw _ Hin) as (o & Ho & _). congruence. }
  destruct (decide (d = ls_connection ls)) as [->|Hne]; fields.
  - exists (Limiter.World (Limiter.acquire limit op (Some op) (cn_limiter dn0)) (Limiter.arrivals w ++ [op]) (Limiter.released w)).
    destruct Hw as [R E A Re H].
    split; cbn [Limiter.limiter Limiter.arrivals Limiter.released]; [|done| | |].
    + rewrite <- E. eapply rtc_r; [exact R|]. by apply Limiter.step_acquire.
    + intros p [Hp| ->%list_elem_of_singleton]%elem_of_app.
      * destruct (A _ Hp) as (q & Hq & Hco). exists q. destruct (Hforth _ _ Hq) as [? ->]. done.
      * assert (Hop : ops s' !! op = Some (MkOp l kind op_queued false None false false)).
        { change (ops s') with (<[op := MkOp l kind op_queued false None false false]> (ops s)). by rewrite lookup_insert_eq. }
        eexists. split; [exact Hop|]. destruct (Hback _ _ Hop) as [(_ & ? & _)|(? & _)]; done.
    + intros p q Hq Hco. destruct (Hback _ _ Hq) as [(-> & _ & -> & ->)|(Hpne & Hq0 & Ec0)].
      * intros _. split; [|by intros [? _]]. intros Hr. exfalso. apply Hnew.
        eapply admitted_arrived; [done|exact R|]. destruct (Limiter.reachable_invariant _ _ Hl R) as [_ _ _ _ _ _ F _]. by apply F.
      * rewrite elem_of_app, list_elem_of_singleton. intros [Hin|?]; [|done]. apply Re; [done|by rewrite <- Ec0|done].
    + intros p q Hq Hco Hs. destruct (Hback _ _ Hq) as [(-> & _ & _ & E1)|(Hpne & Hq0 & Ec0)]; [congruence|].
      destruct (H _ _ Hq0) as [? ?]; [by rewrite <- Ec0|done|]. split; [done|]. by apply admitted_acquire.
  - exists w. eapply channel_ops; [exact Hw| |].
    + intros p q Hq Hco. destruct (Hback _ _ Hq) as [(-> & E & _)|(Hpne & Hq0 & Ec0)]; [congruence|left]. exists q.
      split_and!; try done. by rewrite <- Ec0.
    + intros p q Hq Hco. exists q. destruct (Hforth _ _ Hq) as [? ->]. done.
Qed.

Lemma kept_begin limit l op kind s : 0 <= limit -> ops s !! op = None -> kept limit [] s ->
  kept limit [] (begin limit l op kind s).
Proof.
  intros Hl Hn Kp. unfold begin. destruct (leases s !! l) as [ls|] eqn:Els; [|done].
  destruct (connections s !! ls_connection ls) as [cn|] eqn:Ec; [|done].
  destruct (ls_released ls || closed cn) eqn:E1; [by eapply kept_refused|].
  destruct (expired ls) eqn:E2; [by eapply kept_refused|].
  apply orb_false_iff in E1 as [E1 E3]. destruct Kp as [T Ch].
  split; [by eapply tracked_beginning|by eapply channels_beginning].
Qed.

(** The continuation of [acquire]. *)
Section AdmitOp.
  Context (limit : Z) (op : nat) (o : Op) (c : nat) (cn : Connection) (s : Pool).
  Context (Hl : 0 <= limit) (Ho : ops s !! op = Some o) (Ha : op_admitted o = false) (Hco : connection_of o s = Some c)
    (Hc : connections s !! c = Some cn) (Hch : op ∈ Limiter.admitted (cn_limiter cn)) (Kp : kept limit [] s).

Lemma before_admission w : channel_of limit c (cn_limiter cn) s w ->
  op_holdsSlot o = false /\ op ∈ Limiter.arrivals w.
Proof.
  intros Hw. split.
  - destruct (op_holdsSlot o) eqn:E; [|done]. destruct (ch_held _ _ _ _ _ Hw _ _ Ho Hco E). congruence.
  - eapply admitted_arrived; [done|apply Hw|]. by rewrite (ch_limiter _ _ _ _ _ Hw).
Qed.

(** An update of this read alone leaves the channels of the others. *)
Lemma others_channel f d lm w : (forall o', op_lease (f o') = op_lease o') -> d <> c ->
  channel_of limit d lm s w -> channel_of limit d lm (upd_op op f s) w.
Proof.
  intros Hf Hne Hw. eapply channel_ops; [exact Hw| |].
  - intros p q' (q & Hq & ->)%upd_op_back Hcq. left. case_decide as E; [|by exists q]. subst p. simplify_eq.
    exfalso. apply Hne. apply (inj Some). rewrite <- Hcq, <- Hco. by apply connection_of_bones.
  - intros p q Hq Hcq. eexists. split; [by apply upd_op_forth|]. rewrite <- Hcq. apply connection_of_bones; [done|]. by case_decide.
Qed.

Lemma kept_admitted_told x : op_told o = Some x ->
  kept limit [] (upd_connection c giving_channel (upd_op op set_admitted s)).
Proof using All.
  intros Et. destruct Kp as [T Ch]. split.
  { apply (tracked_limiter [] c (fun cn => Limiter.release (cn_limiter cn))). apply tracked_upd_op; [|done]. intros o' _. split_and!; try done. by left. }
  intros d dn'. simpl. rewrite lookup_alter_Some. intros [(<- & dn & Hd & ->)|[Hne Hd]].
  - simplify_eq. destruct (Ch _ _ Hc) as (w & Hw). destruct (before_admission w Hw) as [Hs Hin]. eexists.
    eapply (channel_given limit c _ s _ w op o Hl Hw Ho Hco Hch (or_introl Ha)).
    + intros p q' Hq' Hcq'. apply upd_op_back in Hq' as (q & Hq & ->). exists q. split_and!; [done| |].
      * rewrite <- Hcq'. symmetry. apply connection_of_bones; [by etrans; [|symmetry; by apply bones_upd_connection]|by case_decide].
      * intros Hne. case_decide; [congruence|done].
    + intros p q Hq Hcq. eexists. split; [by apply (upd_op_forth op set_admitted)|]. rewrite <- Hcq.
      apply connection_of_bones; [by etrans; [|symmetry; by apply bones_upd_connection]|by case_decide].
    + intros q' (q & Hq & ->)%(upd_op_back op set_admitted). case_decide; [|done]. simplify_eq. by split.
  - destruct (Ch _ _ Hd) as (w & Hw). exists w.
    destruct (others_channel set_admitted d _ w (fun _ => eq_refl) (not_eq_sym Hne) Hw) as [R E A Re H]. by split.
Qed.

Lemma kept_admitted_waiting : op_told o = None ->
  kept limit [] (upd_op op (fun o => set_state op_requested (set_slot true o)) (upd_op op set_admitted s)).
Proof using All.
  intros Et. destruct Kp as [T Ch]. set (f := fun o => set_state op_requested (set_slot true (set_admitted o))).
  assert (E : upd_op op (fun o => set_state op_requested (set_slot true o)) (upd_op op set_admitted s) = upd_op op f s).
  { unfold upd_op, with_ops. simpl. f_equal. apply map_eq. intros p. apply option_eq. intros q.
    rewrite !lookup_alter_Some. setoid_rewrite lookup_alter_Some. unfold f. naive_solver. }
  rewrite E. clear E. split.
  { apply tracked_upd_op; [|done]. intros o' H. simplify_eq. split_and!; try done; by left. }
  intros d dn Hd. change (connections s !! d = Some dn) in Hd. destruct (Ch _ _ Hd) as (w & Hw). exists w.
  destruct (decide (d = c)) as [->|Hne]; [|by apply others_channel].
  simplify_eq. destruct (before_admission w Hw) as [Hs Hin]. destruct Hw as [R El A Re H]. split; [done|done| | |].
  - intros p Hp. destruct (A _ Hp) as (q & Hq & Hcq). eexists. split; [by apply upd_op_forth|].
    rewrite <- Hcq. apply connection_of_bones; [done|]. by case_decide.
  - intros p q' (q & Hq & ->)%upd_op_back Hcq Hp. case_decide as Ep.
    + subst p. simplify_eq. rewrite (Re _ _ Ho Hco Hp), Ha. split; [by intros [? _]|by intros [_ ?]].
    + by apply Re.
  - intros p q' (q & Hq & ->)%upd_op_back Hcq Hp. case_decide as Ep; [by subst p|by apply (H p q)].
Qed.

End AdmitOp.

Lemma kept_admit limit op o c cn s : 0 <= limit ->
  ops s !! op = Some o -> op_admitted o = false -> connection_of o s = Some c -> connections s !! c = Some cn ->
  has_channel op cn = true -> kept limit [] s -> kept limit [] (admit_op op s).
Proof.
  intros Hl Ho Ha Hco Hc Hch%bool_decide_eq_true Kp. unfold admit_op. rewrite Ho, Hco.
  destruct (op_told o) as [x|] eqn:Et; [by eapply kept_admitted_told|by eapply kept_admitted_waiting].
Qed.

Lemma kept_finish0 limit op o s : 0 <= limit ->
  ops s !! op = Some o -> op_told o <> None -> kept limit [] s -> kept limit [] (finishOp op s).
Proof.
  intros Hl Ho Ht [T Ch]. eapply kept_finish; [done..|]. split; [|done].
  eapply tracked_frames; [reflexivity| |exact T]. apply none_due.
Qed.

Lemma kept_answer limit op ok s : 0 <= limit -> kept limit [] s -> kept limit [] (op_answer op ok s).
Proof.
  intros Hl Kp. unfold op_answer. destruct (ops s !! op) as [o|] eqn:Ho; [|done].
  destruct (op_told o) eqn:Et; [done|]. destruct (connection_of o s) as [c|]; [|done].
  assert (H : forall x, kept limit [] (upd_op op (set_told (Some x)) s)
    /\ ops (upd_op op (set_told (Some x)) s) !! op = Some (set_told (Some x) o)).
  { intros x. split; [|simpl; by rewrite lookup_alter_eq, Ho]. apply kept_upd_op; [|done]. intros o' Ho'. split_and!; try done. by right. }
  destruct (negb ok); [destruct (H (outcomeOf c s)); by eapply kept_finish0|].
  destruct (H answered) as [H1 H2]. destruct (op_kind o); [by eapply kept_finish0|].
  apply kept_upd_op; [|done]. intros o' Ho'. simplify_eq. split_and!; try done. by right.
Qed.

Lemma kept_evict limit key s : 0 <= limit -> kept limit [] s -> kept limit [] (evict key s).
Proof.
  intros Hl Kp. unfold evict. destruct (entries s !! key) as [e|]; [|done].
  eapply kept_frames0; [done|apply frames_prune|].
  set (s1 := upd_entry _ _ _). assert (K1 : kept limit [] s1) by (apply (kept_frames0 limit s); [done|by apply frames_intro|done]).
  generalize (default [] (option_map en_connections (entry_of s1 !! e))). intros all. revert K1. generalize s1.
  induction all as [|c all IH]; intros x Kx; [done|]. simpl. apply IH. by apply kept_shutDown.
Qed.

(** ** Every step *)

Lemma step_kept X options s s' : 0 <= channelLimit options ->
  step options s s' -> well_formed X s -> kept (channelLimit options) [] s -> kept (channelLimit options) [] s'.
Proof.
  intros Hl [ev s0 Hmay] W Kp. destruct ev; simpl in *.
  - assert (Hn : leases s0 !! rq = None) by (destruct W as (name & _ & A & _); by apply fresh_request).
    unfold lease_call. destruct (negb _); [apply (kept_frames0 _ s0); [done|by apply frames_intro|done]|].
    apply kept_lease_turn; [done|done|]. apply (kept_frames0 _ s0); [done|by apply frames_intro|done].
  - eapply (kept_opened X); [done|done| |done]. destruct Hmay as (o & Ho & Hd). intros o' Ho'. by simplify_eq.
  - unfold lease_resumes. destruct (requests s0 !! rq) as [[key identity deadlineMs [id| |]]|] eqn:Hr; try done.
    assert (Hn : leases s0 !! rq = None).
    { destruct (leases s0 !! rq) as [ls|] eqn:E; [|done]. destruct W as (name & _ & A).
      destruct (lease_matches _ _ (proj1 A) _ _ E) as (r & cn & H & Es & _). by simplify_eq. }
    destruct (openings s0 !! id) as [[? ? ? ? [[c|]|]]|]; try done.
    + destruct (usable c identity s0); [by apply kept_hand_out|by apply kept_lease_turn].
    + apply (kept_frames0 _ s0); [done|by apply frames_intro|done].
  - destruct Hmay as [_ Hop]. by apply kept_begin.
  - destruct Hmay as (o & c & cn & Ho & Ha & Hco & Hc & Hch). by eapply kept_admit.
  - by apply kept_answer.
  - unfold stream_closed. destruct (ops s0 !! op) as [o|] eqn:Ho; [|done]. destruct (op_stream o) eqn:Es; [|done].
    eapply kept_finish0; [done|done| |done]. destruct Kp as [T _]. by apply (streams_told _ _ T _ _ Ho).
  - by apply kept_release.
  - by apply kept_expire.
  - by apply kept_shutDown.
  - by apply kept_shutDown.
  - by apply kept_evict.
  - destruct is_ready; (apply (kept_frames0 _ s0); [done|by apply frames_intro|done]).
Qed.

Lemma reachable_kept options s : 0 <= channelLimit options -> reachable options s -> kept (channelLimit options) [] s.
Proof.
  intros Hl. revert s. apply (rtc_ind_r (fun s => kept (channelLimit options) [] s)).
  - by split.
  - intros s s' H Hs Kp. by eapply step_kept; [|exact Hs|exact (reachable_well_formed _ _ H)|].
Qed.

(** ** The promises *)

(** C17: No read is left waiting on something that is gone: in every state, a
    read that has not been answered, or that still holds a channel, belongs to a
    lease that was neither given back nor past its deadline, over a connection
    that is open.  So when a lease is given back, expires or loses its
    connection, every read of it has been answered and has given its channel
    back. *)
Theorem no_read_outlives_its_lease options s op o :
  0 <= channelLimit options -> reachable options s ->
  ops s !! op = Some o -> op_told o = None \/ op_holdsSlot o = true ->
  exists ls cn, leases s !! op_lease o = Some ls /\ connections s !! ls_connection ls = Some cn
    /\ ls_released ls = false /\ expired ls = false /\ closed cn = false.
Proof.
  intros Hl H Ho Hs. destruct (reachable_kept options s Hl H) as [T _].
  destruct (in_flight _ _ T _ _ Ho Hs) as (ls & Hls & Hin).
  destruct (in_lease _ _ T _ _ _ Hls Hin) as (q & cn & _ & _ & Hc & _ & [Hd|(? & ? & ?)]); [by apply not_elem_of_nil in Hd|].
  exists ls, cn. by split_and!.
Qed.

(** The reads of a connection that have a channel: they hold it, or were given
    it and have not gone on yet. *)
Definition has_a_channel (c op : nat) (s : Pool) : Prop :=
  exists o cn, ops s !! op = Some o /\ connection_of o s = Some c /\ connections s !! c = Some cn
    /\ has_channel op cn = true /\ (op_holdsSlot o = true \/ op_admitted o = false).

(** C18: The limiter of a connection counts exactly the reads of that connection
    that have a channel, none of which is lost or counted twice, however reads
    begin, are answered, are abandoned or outlive their lease; they are at most
    [channelLimit], and a read waits only while that many have one. *)
Theorem channels_are_counted options s c cn :
  0 <= channelLimit options -> reachable options s -> connections s !! c = Some cn ->
  exists holders, NoDup holders /\ (forall op, op ∈ holders <-> has_a_channel c op s)
    /\ Limiter.active (cn_limiter cn) = Z.of_nat (length holders)
    /\ Z.of_nat (length holders) <= channelLimit options
    /\ (Limiter.waiting (cn_limiter cn) <> [] -> Z.of_nat (length holders) = channelLimit options).
Proof.
  intros Hl H Hc. destruct (reachable_kept options s Hl H) as [T Ch]. destruct (Ch _ _ Hc) as (w & Hw).
  pose proof Hw as [R E A Re Hh]. destruct (Limiter.reachable_invariant _ _ Hl R) as [Ea Elim Ew Ein Eall Eone Erel _].
  exists (Limiter.holders w). rewrite E in Ea, Elim, Ew. split_and!; [| |exact Ea|by rewrite <- Ea|by rewrite <- Ea].
  - unfold Limiter.holders. apply NoDup_ListNoDup, List.NoDup_filter, NoDup_ListNoDup.
    eapply (sublist_NoDup _ (Limiter.arrivals w)); [done|]. etrans; [|exact Ein]. by apply sublist_inserts_r.
  - intros op. split.
    + intros [Had Hr]%list_elem_of_In%filter_In. apply list_elem_of_In in Had. rewrite E in Had.
      apply negb_true_iff, bool_decide_eq_false in Hr.
      destruct (A op) as (o & Ho & Hco); [eapply admitted_arrived; [done|done|by rewrite E]|].
      exists o, cn. split_and!; try done; [by apply bool_decide_eq_true|].
      assert (Hin : op ∈ Limiter.arrivals w) by (eapply admitted_arrived; [done|done|by rewrite E]).
      rewrite (Re _ _ Ho Hco Hin) in Hr. destruct (op_holdsSlot o), (op_admitted o); tauto.
    + intros (o & cn' & Ho & Hco & Hc' & Hch%bool_decide_eq_true & Hs). simplify_eq.
      eapply holder_of; [done|exact Hw|done|done|done|tauto].
Qed.

(** Seven reads over a connection that lets six through, then the deadline of
    the lease, then the continuations of the six. *)
Definition seven_reads : list Event :=
  one_lease 1 1 ++ map (fun op => ev_read 1 op op_exec) (seq 1 7) ++ [ev_admitted 1; ev_admitted 2].

Lemma no_read_outlives_its_lease_witness :
  (op_told <$> ops (after seven_reads) !! 7%nat = Some None)
  /\ exists ls cn, leases (after seven_reads) !! 1%nat = Some ls /\ connections (after seven_reads) !! ls_connection ls = Some cn
    /\ ls_released ls = false /\ expired ls = false /\ closed cn = false.
Proof.
  split; [vm_compute; reflexivity|].
  destruct (ops (after seven_reads) !! 7%nat) as [o|] eqn:E; [|vm_compute in E; discriminate].
  assert (Et : op_told o = None /\ op_lease o = 1%nat) by (vm_compute in E; injection E as <-; by split).
  destruct Et as [Et El]. rewrite <- El.
  exact (no_read_outlives_its_lease limits (after seven_reads) 7 o ltac:(vm_compute; discriminate)
    ltac:(apply trace_reachable; happens) E (or_introl Et)).
Defined.

Lemma channels_are_counted_witness :
  exists holders, NoDup holders /\ 6 = Z.of_nat (length holders) /\ 7%nat ∉ holders
    /\ has_a_channel 1 3 (after seven_reads).
Proof.
  destruct (connections (after seven_reads) !! 1%nat) as [cn|] eqn:E; [|vm_compute in E; discriminate].
  destruct (channels_are_counted limits (after seven_reads) 1 cn ltac:(vm_compute; discriminate)
    ltac:(apply trace_reachable; happens) E) as (holders & Hn & Hin & Ha & _).
  exists holders. split; [done|]. split.
  { rewrite <- Ha. vm_compute in E. injection E as <-. vm_compute. reflexivity. }
  split.
  { intros (o & cn' & _ & _ & Hc & Hch & _)%Hin. rewrite E in Hc. injection Hc as <-.
    vm_compute in E. injection E as <-. vm_compute in Hch. discriminate. }
  vm_compute in E. eexists _, _. split; [vm_compute; reflexivity|]. split; [vm_compute; reflexivity|].
  split; [vm_compute; reflexivity|]. split; [vm_compute; reflexivity|]. right. vm_compute. reflexivity.
Defined.
