(* ===== verification/Mcp.v ===== *)
(** What a client says over its live channel.

    [packages/contracts/src/boundary/mcp.ts] and [mcp-readouts.ts]: the frames
    of a body, the answer to a call, the envelope the client wraps every result
    in, and the readers of the results.  [JSON_parse] is [JSON.parse], [None]
    where it throws, and [other_text] is [String(n)] of a number that is not
    whole.  What [zod] is given is a schema, a function from the value read to
    what is kept of it. *)

From S2P Require Import Prelude Tables Calendar Shell Control Payloads.

(** ** Schemas *)

Record Num := MkNum { num : Z; den : positive }.

Definition num_le (a b : Num) : bool := num a * Zpos (den b) <=? num b * Zpos (den a).
Definition num_lt (a b : Num) : bool := num a * Zpos (den b) <? num b * Zpos (den a).
Definition of_int (n : Z) : Num := MkNum n 1.
Definition is_int (n : Num) : bool := bool_decide (is_Some (whole (num n) (den n))).
Definition num_eq (a b : Num) : bool := num a * Zpos (den b) =? num b * Zpos (den a).

Definition Schema (A : Type) : Type := Json -> option A.

Definition z_string : Schema string := fun v => match v with JString s => Some s | _ => None end.
Definition z_number : Schema Num := fun v => match v with JNumber n d => Some (MkNum n d) | _ => None end.
Definition z_boolean : Schema bool := fun v => match v with JBool b => Some b | _ => None end.
Definition z_unknown : Schema Json := Some.

Definition z_enum (values : list string) : Schema string :=
  fun v => let? s := z_string v in if bool_decide (s ∈ values) then Some s else None.

Fixpoint all_of {A} (schema : Schema A) (items : list Json) : option (list A) :=
  match items with
  | [] => Some []
  | item :: rest => let? a := schema item in let? l := all_of schema rest in Some (a :: l)
  end.

Definition z_array {A} (schema : Schema A) : Schema (list A) :=
  fun v => match v with JArray items => all_of schema items | _ => None end.

(** [schema.nullable()] *)
Definition z_nullable {A} (schema : Schema A) : Schema (option A) :=
  fun v => match v with JNull => Some None | _ => let? a := schema v in Some (Some a) end.

(** [schema.refine(ok)] *)
Definition z_refine {A} (schema : Schema A) (ok : A -> bool) : Schema A :=
  fun v => let? a := schema v in if ok a then Some a else None.

(** [schema.int().min(low).max(high)] *)
Definition z_int_between (low high : Z) : Schema Num :=
  z_refine z_number (fun n => is_int n && num_le (of_int low) n && num_le n (of_int high)).

Definition z_between (low high : Z) : Schema Num :=
  z_refine z_number (fun n => num_le (of_int low) n && num_le n (of_int high)).

(** A field of an object, and a field that may be absent. *)
Definition need {A} (key : string) (schema : Schema A) (fields : list (string * Json)) : option A :=
  let? v := field key fields in schema v.

Definition may {A} (key : string) (schema : Schema A) (fields : list (string * Json)) : option (option A) :=
  match field key fields with None => Some None | Some v => let? a := schema v in Some (Some a) end.

(** [schema.nullable().optional()], read with [?? undefined]. *)
Definition may_null {A} (key : string) (schema : Schema A) (fields : list (string * Json)) : option (option A) :=
  let? read := may key (z_nullable schema) fields in
  Some (match read with Some (Some a) => Some a | _ => None end).

Definition z_object {A} (shape : list (string * Json) -> option A) : Schema A :=
  fun v => match v with JObject fields => shape fields | _ => None end.

(** [schema.safeParse(value)] of a value that may be [undefined]. *)
Definition safeParse {A} (schema : Schema A) (value : option Json) : option A :=
  let? v := value in schema v.

(** ** Requests *)

Definition MCP_PROTOCOL_VERSION : string := "2025-06-18".
Definition MCP_SESSION_HEADER : string := "mcp-session-id".

Definition int (n : Z) : Json := JNumber n 1.

(** [JsonRpcRequest] and [JsonRpcNotification], which has no [id]. *)
Record JsonRpcRequest := MkRpc { rpc_id : option Z; method : string; params : Json }.

Definition rpc_json (r : JsonRpcRequest) : Json :=
  JObject ([("jsonrpc", JString "2.0")]
    ++ match rpc_id r with Some id => [("id", int id)] | None => [] end
    ++ [("method", JString (method r)); ("params", params r)]).

Definition initializeRequest (id : Z) (clientName : string) : JsonRpcRequest :=
  MkRpc (Some id) "initialize"
    (JObject [("protocolVersion", JString MCP_PROTOCOL_VERSION); ("capabilities", JObject []);
              ("clientInfo", JObject [("name", JString clientName); ("version", JString "1")])]).

Definition initializedNotification : JsonRpcRequest := MkRpc None "notifications/initialized" (JObject []).

Definition ToolArguments : Type := list (string * Json).

Definition callToolRequest (id : Z) (name : string) (args : ToolArguments) : JsonRpcRequest :=
  MkRpc (Some id) "tools/call" (JObject [("name", JString name); ("arguments", JObject args)]).

(** ** Bodies *)

Definition newline : ascii := "010"%char.

(** [value.split(/\n\n+/)]; [in_gap] while the newlines of a separator are
    passed. *)
Fixpoint split_blank (in_gap : bool) (value : string) : list string :=
  match value with
  | EmptyString => [EmptyString]
  | String c rest =>
      if in_gap && (c ≡? newline) then split_blank true rest
      else
        match rest with
        | String d _ =>
            if (c ≡? newline) && (d ≡? newline) then EmptyString :: split_blank true rest
            else match split_blank false rest with
                 | piece :: pieces => String c piece :: pieces
                 | [] => [String c EmptyString]
                 end
        | EmptyString => [String c EmptyString]
        end
  end.

Definition data_line (line : string) : option string :=
  if startsWith "data:" line then Some (trim_start (slice_from 5 line)) else None.

Definition payload_of (block : string) : string :=
  join_with (String newline EmptyString) (omap data_line (split_on newline block)).

Definition dataFramesOf (body : string) : list string :=
  let trimmed := trim body in
  if trimmed ≡? EmptyString then []
  else if negb (includes (String newline "data:") trimmed) && negb (startsWith "data:" trimmed) then [trimmed]
  else List.filter (fun payload => negb (payload ≡? EmptyString)) (map payload_of (split_blank false trimmed)).

(** ** Answers *)

Definition McpProtocolError (message : string) : thrown := ThrownError (NamedError "McpProtocolError") message.

Definition MCC_REFUSALS : list string :=
  ["capability_disabled"; "feature_disabled"; "disconnected"; "invalid_args"; "invalid_state"; "action_failed"].

(** The error has the refusal in a field; it is the end of the message. *)
Definition McpRefusalError (refusal : string) : thrown :=
  ThrownError (NamedError "McpRefusalError") ("The client refused the call: " +:+ refusal).

(** What is read of a response is its result. *)
Record JsonRpcResponse := MkResponse { rpc_result : option Json }.

Record RpcReading := MkReading { reading_result : option Json; reading_error : option (Num * string) }.

Definition jsonRpcError : Schema (Num * string) :=
  z_object (fun f => let? code := need "code" z_number f in let? message := need "message" z_string f in Some (code, message)).

Definition number_or_string (v : Json) : option unit :=
  match v with JNumber _ _ | JString _ => Some tt | _ => None end.

Definition jsonRpcResponse : Schema RpcReading :=
  z_object (fun f =>
    let? _ := need "jsonrpc" (z_enum ["2.0"]) f in
    let? _ := may "id" (z_nullable number_or_string) f in
    let? error := may "error" jsonRpcError f in
    Some (MkReading (field "result" f) error)).

Section Answers.
Variable JSON_parse : string -> option Json.
Variable other_text : Num -> string.

Definition number_text (n : Num) : string :=
  match whole (num n) (den n) with
  | Some z => if Z.abs z <? 10 ^ 21 then decimal z else other_text n
  | None => other_text n
  end.

Definition responseFrom (body : string) : result JsonRpcResponse :=
  match last (dataFramesOf body) with
  | None => Throw (McpProtocolError "The client returned an empty response")
  | Some frame =>
      match JSON_parse frame with
      | None => Throw (McpProtocolError "The client returned a response that is not JSON")
      | Some parsed =>
          match jsonRpcResponse parsed with
          | None => Throw (McpProtocolError "The client returned a malformed response")
          | Some (MkReading _ (Some (code, message))) =>
              Throw (McpProtocolError (message +:+ " (" +:+ number_text code +:+ ")"))
          | Some (MkReading answer None) => Ok (MkResponse answer)
          end
      end
  end.

(** [toolContent] *)
Record ToolContent := MkContent {
  tc_content : option (list (string * option string)); structuredContent : option Json; isError : option bool }.

Definition content_part : Schema (string * option string) :=
  z_object (fun f => let? type := need "type" z_string f in let? text := may "text" z_string f in Some (type, text)).

Definition toolContent : Schema ToolContent :=
  z_object (fun f =>
    let? content := may "content" (z_array content_part) f in
    let? error := may "isError" z_boolean f in
    Some (MkContent content (field "structuredContent" f) error)).

Record MccEnvelope := MkEnvelope {
  success : bool; env_data : option Json; env_error : option string; env_errorCode : option string }.

Definition mccEnvelope : Schema MccEnvelope :=
  z_object (fun f =>
    let? success := need "success" z_boolean f in
    let? error := may "error" z_string f in
    let? errorCode := may "errorCode" z_string f in
    Some (MkEnvelope success (field "data" f) error errorCode)).

Definition unwrapEnvelope (value : Json) : result (option Json) :=
  match mccEnvelope value with
  | None => Ok (Some value)
  | Some envelope =>
      if success envelope then Ok (env_data envelope)
      else
        match env_errorCode envelope with
        | Some code =>
            if bool_decide (code ∈ MCC_REFUSALS) then Throw (McpRefusalError code) else Throw (McpProtocolError code)
        | None => Throw (McpProtocolError (default "The client refused the call" (env_error envelope)))
        end
  end.

(** The text of the first part that has one. *)
Definition text_of (content : ToolContent) : option string := head (omap snd (default [] (tc_content content))).

(** What the schema kept, as the value that is returned. *)
Definition kept (content : ToolContent) : Json :=
  JObject
    (match tc_content content with
     | Some parts => [("content", JArray (map (fun part =>
         JObject (("type", JString part.1) :: match part.2 with Some text => [("text", JString text)] | None => [] end)) parts))]
     | None => []
     end
     ++ match isError content with Some b => [("isError", JBool b)] | None => [] end).

Definition toolResultOf (response : JsonRpcResponse) : result (option Json) :=
  match safeParse toolContent (rpc_result response) with
  | None => Ok (rpc_result response)
  | Some content =>
      if isError content ≡? Some true
      then Throw (McpProtocolError (default "The client refused the call" (text_of content)))
      else
        match structuredContent content with
        | Some value => unwrapEnvelope value
        | None =>
            match text_of content with
            | None => Ok (Some (kept content))
            | Some text => match JSON_parse text with None => Ok (Some (JString text)) | Some json => unwrapEnvelope json end
            end
        end
  end.

Definition unreadable (what : string) : thrown :=
  McpProtocolError ("The client reported " +:+ what +:+ " this manager cannot read").

(** A reader: the result of the call, through a schema. *)
Definition read_with {A} (schema : Schema A) (what : string) (response : JsonRpcResponse) : result A :=
  let+ value := toolResultOf response in
  match safeParse schema value with Some a => Ok a | None => Throw (unreadable what) end.
End Answers.

(** ** The session *)

Definition name_between (n : nat) (value : string) : bool :=
  (1 <=? String.length value)%nat && (String.length value <=? n)%nat
  && chars_all (fun c => is_letter c || is_digit c || (c ≡? "_"%char)) value.

(** [MINECRAFT_NAME_SHAPE], and [PLAYER_NAME_PATTERN] of [mcp-readouts.ts]. *)
Definition MINECRAFT_NAME_SHAPE : string -> bool := name_between 16.

Record Place := MkPlace { place_x : option Num; place_y : option Num; place_z : option Num }.

Definition z_place : Schema Place :=
  z_object (fun f =>
    let? x := may "x" z_number f in let? y := may "y" z_number f in let? z := may "z" z_number f in
    Some (MkPlace x y z)).

Record McpSessionStatus := MkSession {
  ss_host : string; ss_port : Num; ss_username : option string; ss_protocolVersion : Num; ss_terrainEnabled : bool;
  ss_inventoryEnabled : bool; ss_entityEnabled : bool; ss_location : option Place }.

Definition mcpSessionStatusSchema : Schema McpSessionStatus :=
  z_object (fun f =>
    let? host := need "host" z_string f in
    let? port := need "port" z_number f in
    let username := match field "username" f with
                    | Some (JString name) => if MINECRAFT_NAME_SHAPE name then Some name else None
                    | _ => None
                    end in
    let? protocolVersion := need "protocolVersion" z_number f in
    let? terrainEnabled := need "terrainEnabled" z_boolean f in
    let? inventoryEnabled := need "inventoryEnabled" z_boolean f in
    let? entityEnabled := need "entityEnabled" z_boolean f in
    let? location := may_null "location" z_place f in
    Some (MkSession host port username protocolVersion terrainEnabled inventoryEnabled entityEnabled location)).

(** ** Chat *)

Inductive ChatKind := ck_chat | ck_private | ck_system.

(** An entry of the history; its kind is text the client chose. *)
Record ChatEntry (K : Type) := MkChat {
  ce_timestampUtc : string; ce_kind : K; ce_text : string; ce_sender : option string; ce_message : option string;
  ce_json : option string }.
Arguments MkChat {K}. Arguments ce_timestampUtc {K}. Arguments ce_kind {K}. Arguments ce_text {K}.
Arguments ce_sender {K}. Arguments ce_message {K}. Arguments ce_json {K}.

Definition McpChatEntry : Type := ChatEntry ChatKind.

Definition chatEntrySchema : Schema (ChatEntry string) :=
  z_object (fun f =>
    let? timestampUtc := need "timestampUtc" z_string f in
    let? kind := need "kind" z_string f in
    let? text := need "text" z_string f in
    let? sender := may_null "sender" z_string f in
    let? message := may_null "message" z_string f in
    let? json := may_null "json" z_string f in
    Some (MkChat timestampUtc kind text sender message json)).

Definition chatHistorySchema : Schema (list (ChatEntry string)) :=
  z_object (fun f => let? _ := need "count" z_number f in need "entries" (z_array chatEntrySchema) f).

Definition asChatKind (value : string) : ChatKind :=
  if value ≡? "chat" then ck_chat else if value ≡? "private" then ck_private else ck_system.

Definition EMPTY_SENDER : string := "<> ".

Definition withoutEmptySender (text : string) : string :=
  if startsWith EMPTY_SENDER text then slice_from (String.length EMPTY_SENDER) text else text.

Definition orUndefined (value : option string) : option string :=
  match value with Some v => if v ≡? EmptyString then None else Some v | None => None end.

Definition chat_entry (entry : ChatEntry string) : McpChatEntry :=
  MkChat (ce_timestampUtc entry) (asChatKind (ce_kind entry)) (withoutEmptySender (ce_text entry))
    (orUndefined (ce_sender entry)) (orUndefined (ce_message entry)) (orUndefined (ce_json entry)).

(** ** Events *)

Definition NOISY_EVENT_TYPES : list string :=
  ["block_break_animation"; "entity_animation"; "actionbar"; "title"; "inventory_open"; "inventory_close";
   "weather_rain"; "weather_thunder"].

Definition isNotableEvent (type : string) : bool := negb (bool_decide (type ∈ NOISY_EVENT_TYPES)).

(** An event with what is said of it: any value as it is read, and then the
    subject. *)
Record Event (D : Type) := MkMcpEvent { ev_id : Num; ev_timestampUtc : string; ev_type : string; ev_about : option D }.
Arguments MkMcpEvent {D}. Arguments ev_id {D}. Arguments ev_timestampUtc {D}. Arguments ev_type {D}. Arguments ev_about {D}.

Definition recentEventSchema : Schema (Event Json) :=
  z_object (fun f =>
    let? id := need "id" z_number f in
    let? timestampUtc := need "timestampUtc" z_string f in
    let? type := need "type" z_string f in
    Some (MkMcpEvent id timestampUtc type (field "data" f))).

Definition recentEventsSchema : Schema (Num * list (Event Json)) :=
  z_object (fun f =>
    let? _ := need "afterId" z_number f in
    let? latestId := need "latestId" z_number f in
    let? _ := need "count" z_number f in
    let? events := need "events" (z_array recentEventSchema) f in
    Some (latestId, events)).

Record McpEventPage := MkEventPage { pg_latestId : Num; pg_events : list (Event string) }.

Section Readers.
Variable JSON_parse : string -> option Json.
Variable other_text : Num -> string.

Definition subject_of (f : list (string * Json)) : option string :=
  let? name := may "name" z_string f in
  let? reason := may "reason" z_string f in
  let? level := may "level" z_number f in
  match name, reason, level with
  | Some name, _, _ => Some name
  | None, Some reason, _ => Some reason
  | None, None, Some level => Some (number_text other_text level)
  | None, None, None => None
  end.

Definition subjectOf (data : option Json) : option string :=
  match data with Some (JObject f) => subject_of f | _ => None end.

Definition event_page (read : Num * list (Event Json)) : McpEventPage :=
  MkEventPage read.1
    (map (fun e => MkMcpEvent (ev_id e) (ev_timestampUtc e) (ev_type e) (subjectOf (ev_about e)))
       (List.filter (fun e => isNotableEvent (ev_type e)) read.2)).

Definition sessionStatusFrom : JsonRpcResponse -> result McpSessionStatus :=
  read_with JSON_parse mcpSessionStatusSchema "a session status".

Definition chatHistoryFrom (response : JsonRpcResponse) : result (list McpChatEntry) :=
  let+ entries := read_with JSON_parse chatHistorySchema "a chat history" response in Ok (map chat_entry entries).

Definition recentEventsFrom (response : JsonRpcResponse) : result McpEventPage :=
  let+ read := read_with JSON_parse recentEventsSchema "events" response in Ok (event_page read).

(** ** The world *)

Record McpWorldState := MkWorldState {
  ws_tps : option Num; ws_dimension : option string; ws_loadedChunkCount : option Num; ws_pendingChunkCount : option Num;
  ws_totalChunkCount : option Num; ws_terrainEnabled : option bool; ws_location : option Place }.

Definition mcpWorldStateSchema : Schema McpWorldState :=
  z_object (fun f =>
    let? tps := may "tps" z_number f in
    let? dimension := may "dimension" z_string f in
    let? loaded := may "loadedChunkCount" z_number f in
    let? pending := may "pendingChunkCount" z_number f in
    let? total := may "totalChunkCount" z_number f in
    let? terrainEnabled := may "terrainEnabled" z_boolean f in
    let? location := may_null "location" z_place f in
    Some (MkWorldState tps dimension loaded pending total terrainEnabled location)).

Definition worldStateFrom : JsonRpcResponse -> result McpWorldState :=
  read_with JSON_parse mcpWorldStateSchema "a world state".

(** ** Entities *)

Record McpEntity := MkEntity { ent_id : Num; ent_label : string; ent_distance : option Num; ent_health : option Num }.

Record McpEntityList := MkEntities { totalTracked : Num; entities : list McpEntity }.

Definition mcpEntitySchema : Schema McpEntity :=
  z_object (fun f =>
    let? id := need "id" z_number f in
    let? type := may "type" z_string f in
    let? typeLabel := may "typeLabel" z_string f in
    let? distance := may "distance" z_number f in
    let? health := may "health" z_number f in
    let? name := may_null "name" z_string f in
    let label := match name, typeLabel, type with
                 | Some name, _, _ => name
                 | None, Some typeLabel, _ => typeLabel
                 | None, None, Some type => type
                 | None, None, None => "unknown"
                 end in
    Some (MkEntity id label distance health)).

Definition mcpEntityListSchema : Schema McpEntityList :=
  z_object (fun f =>
    let? total := may "totalTracked" z_number f in
    let? _ := may "count" z_number f in
    let? entities := need "entities" (z_array mcpEntitySchema) f in
    Some (MkEntities (default (of_int (Z.of_nat (length entities))) total) entities)).

Definition entityListFrom : JsonRpcResponse -> result McpEntityList :=
  read_with JSON_parse mcpEntityListSchema "entities".

(** ** The inventory *)

Definition PLAYER_INVENTORY_ID : Z := 0.

Record McpItemStack := MkStack { stack_label : string; stack_count : Num }.

Record McpInventorySlot := MkSlot { slot : Num; slot_type : string; slot_label : string; slot_count : Num }.

Record McpInventory := MkInventory {
  inv_id : Num; inv_title : option string; inv_slotCount : Num; inv_slots : list McpInventorySlot;
  inv_cursor : option McpItemStack }.

Definition is_upper (c : ascii) : bool := (65 <=? nat_of_ascii c)%nat && (nat_of_ascii c <=? 90)%nat.

(** [value.replace(/([a-z0-9])([A-Z])/g, "$1" + mark + "$2")] *)
Fixpoint between_words (mark : ascii) (value : string) : string :=
  match value with
  | EmptyString => EmptyString
  | String c rest =>
      match rest with
      | String d _ =>
          if (is_lower c || is_digit c) && is_upper d then String c (String mark (between_words mark rest))
          else String c (between_words mark rest)
      | EmptyString => value
      end
  end.

(** [value.replace(/[\s-]+/g, "_")] *)
Fixpoint gaps_to_underscore (in_gap : bool) (value : string) : string :=
  match value with
  | EmptyString => EmptyString
  | String c rest =>
      if is_white c || (c ≡? "-"%char)
      then if in_gap then gaps_to_underscore true rest else String "_" (gaps_to_underscore true rest)
      else String c (gaps_to_underscore false rest)
  end.

Fixpoint keep_chars (p : ascii -> bool) (value : string) : string :=
  match value with
  | EmptyString => EmptyString
  | String c rest => if p c then String c (keep_chars p rest) else keep_chars p rest
  end.

Definition itemSlug (value : string) : string :=
  keep_chars (fun c => is_lower c || is_digit c || (c ≡? "_"%char))
    (toLowerCase (gaps_to_underscore false (between_words "_" value))).

Fixpoint map_chars (f : ascii -> ascii) (value : string) : string :=
  match value with EmptyString => EmptyString | String c rest => String (f c) (map_chars f rest) end.

Definition humanizeItemType (value : string) : string :=
  let spaced := trim (map_chars (fun c => if c ≡? "_"%char then " "%char else c) (between_words " " value)) in
  if spaced ≡? EmptyString then value else spaced.

Definition trimmedOrUndefined (value : option string) : option string :=
  let? v := value in if trim v ≡? EmptyString then None else Some (trim v).

Definition mcpItemStackSchema : Schema McpItemStack :=
  z_object (fun f =>
    let? type := need "type" z_string f in
    let? count := need "count" z_number f in
    Some (MkStack (humanizeItemType type) count)).

Definition mcpInventorySlotSchema : Schema McpInventorySlot :=
  z_object (fun f =>
    let? slot := need "slot" z_number f in
    let? type := need "type" z_string f in
    let? count := need "count" z_number f in
    Some (MkSlot slot type (humanizeItemType type) count)).

Definition slot_le (a b : McpInventorySlot) : bool := num_le (slot a) (slot b).

Definition mcpInventorySchema : Schema McpInventory :=
  z_object (fun f =>
    let? id := need "id" z_number f in
    let? _ := may "type" z_string f in
    let? title := may "title" z_string f in
    let? slotCount := may "slotCount" z_number f in
    let? slots := need "slots" (z_array mcpInventorySlotSchema) f in
    let? cursor := may_null "cursor" mcpItemStackSchema f in
    Some (MkInventory id (trimmedOrUndefined title) (default (of_int 0) slotCount)
            (order_by slot_le (List.filter (fun s => num_lt (of_int 0) (slot_count s)) slots)) cursor)).

Definition inventoryFrom : JsonRpcResponse -> result McpInventory :=
  read_with JSON_parse mcpInventorySchema "an inventory".

Record McpInventoryRegion := MkRegion { reg_name : string; reg_slots : list Z; columns : Z }.

(** [Array.from({ length: to - from + 1 }, ...)]; a length below 0 is 0. *)
Definition slotRange (from to : Z) : list Z := map (fun index => from + Z.of_nat index) (seq 0 (Z.to_nat (to - from + 1))).

Definition INVENTORY_HOTBAR_SLOTS : list Z := slotRange 36 44.

Definition PLAYER_INVENTORY_REGIONS : list McpInventoryRegion :=
  [MkRegion "Armour" (slotRange 5 8) 4; MkRegion "Offhand" [45] 1; MkRegion "Crafting" (slotRange 1 4) 2;
   MkRegion "Inventory" (slotRange 9 35) 9; MkRegion "Hotbar" INVENTORY_HOTBAR_SLOTS 9].

Definition canHoldFromSlot (id : Num) (n : Z) : bool :=
  num_eq id (of_int PLAYER_INVENTORY_ID) && bool_decide (n ∈ INVENTORY_HOTBAR_SLOTS).

Definition regionsFor (id : Num) (slotCount : Z) : list McpInventoryRegion :=
  if num_eq id (of_int PLAYER_INVENTORY_ID) then PLAYER_INVENTORY_REGIONS
  else [MkRegion "Contents" (slotRange 0 (slotCount - 1)) 9].

(** The map as its lookup: of two slots of one number, the later. *)
Definition slotsBySlotNumber (slots : list McpInventorySlot) (n : Num) : option McpInventorySlot :=
  last (List.filter (fun s => num_eq (slot s) n) slots).

Definition inventoryActionFrom (response : JsonRpcResponse) : result unit :=
  let+ _ := toolResultOf JSON_parse response in Ok tt.
End Readers.
