(* ===== verification/McpReadouts.v ===== *)
(** The readouts of a client: the figures of the player, the effects on it,
    the bots it has loaded and the players it sees.

    [packages/contracts/src/boundary/mcp-readouts.ts], with the schemas of
    [Mcp]; and, in [ChatText], the text of a chat message
    ([packages/contracts/src/boundary/chat-component.ts]). *)

From S2P Require Import Prelude Tables Calendar Shell Control Payloads Mcp.

Definition EFFECT_IDS : list string :=
  ["Speed"; "Slowness"; "Haste"; "MiningFatigue"; "Strength"; "InstantHealth"; "InstantDamage"; "JumpBoost"; "Nausea";
   "Regeneration"; "Resistance"; "FireResistance"; "WaterBreathing"; "Invisibility"; "Blindness"; "NightVision"; "Hunger";
   "Weakness"; "Poison"; "Wither"; "HealthBoost"; "Absorption"; "Saturation"; "Glowing"; "Levitation"; "Luck"; "BadLuck";
   "SlowFalling"; "ConduitPower"; "DolphinsGrace"; "BadOmen"; "HerooftheVillage"].

Definition HEALTH_MAXIMUM : Z := 1024.
Definition FOOD_LEVEL_MAXIMUM : Z := 255.
Definition LEVEL_MAXIMUM : Z := 1000000.
Definition TOTAL_EXPERIENCE_MAXIMUM : Z := 2147483647.
Definition GAMEMODE_MAXIMUM : Z := 3.
Definition HOTBAR_SLOTS : Z := 9.
Definition PITCH_LIMIT : Z := 90.
Definition TPS_MAXIMUM : Z := 20.
Definition AMPLIFIER_MAXIMUM : Z := 255.
Definition INFINITE_EFFECT_SECONDS : Z := -1.
Definition REMAINING_SECONDS_MAXIMUM : Z := 107374182.
Definition EFFECTS_MAXIMUM : nat := 32.
Definition BOTS_MAXIMUM : nat := 64.
Definition PLAYERS_MAXIMUM : nat := 1000.

Record McpPlayerStats := MkStats {
  st_health : Num; st_foodLevel : Num; st_level : Num; st_totalExperience : Num; st_gamemode : Num; st_currentSlot : Num;
  st_yaw : Num; st_pitch : Num; st_tps : Num }.

Definition normalisedPlayerStats : Schema McpPlayerStats :=
  z_object (fun f =>
    let? health := need "health" (z_between 0 HEALTH_MAXIMUM) f in
    let? saturation := need "saturation" (z_int_between 0 FOOD_LEVEL_MAXIMUM) f in
    let? level := need "level" (z_int_between 0 LEVEL_MAXIMUM) f in
    let? totalExperience := need "totalExperience" (z_int_between 0 TOTAL_EXPERIENCE_MAXIMUM) f in
    let? gamemode := need "gamemode" (z_int_between 0 GAMEMODE_MAXIMUM) f in
    let? currentSlot := need "currentSlot" (z_int_between 1 HOTBAR_SLOTS) f in
    let? yaw := need "yaw" z_number f in
    let? pitch := need "pitch" (z_between (- PITCH_LIMIT) PITCH_LIMIT) f in
    let? tps := need "tps" (z_refine z_number (fun n => num_lt (of_int 0) n && num_le n (of_int TPS_MAXIMUM))) f in
    Some (MkStats health saturation level totalExperience gamemode currentSlot yaw pitch tps)).

Record McpStatusEffect := MkEffect {
  ef_id : string; ef_amplifier : Num; ef_remainingSeconds : Num; ef_isInfinite : bool }.

Definition infinite_seconds (n : Num) : bool := num_eq n (of_int INFINITE_EFFECT_SECONDS).

Definition remainingSeconds : Schema Num :=
  fun v =>
    match z_refine z_number infinite_seconds v with
    | Some n => Some n
    | None => z_int_between 0 REMAINING_SECONDS_MAXIMUM v
    end.

Definition rawStatusEffect : Schema McpStatusEffect :=
  z_refine
    (z_object (fun f =>
      let? id := need "id" (z_enum EFFECT_IDS) f in
      let? amplifier := need "amplifier" (z_int_between 0 AMPLIFIER_MAXIMUM) f in
      let? remaining := need "remainingSeconds" remainingSeconds f in
      let? isInfinite := need "isInfinite" z_boolean f in
      Some (MkEffect id amplifier remaining isInfinite)))
    (fun value => Bool.eqb (ef_isInfinite value) (infinite_seconds (ef_remainingSeconds value))).

(** [z.array(schema).max(n)] *)
Definition z_array_max {A} (n : nat) (schema : Schema A) : Schema (list A) :=
  z_refine (z_array schema) (fun l => (length l <=? n)%nat).

(** An object with a list and its [count]. *)
Definition counted {A} (key : string) (schema : Schema (list A)) : Schema (list A) :=
  z_object (fun f =>
    let? count := need "count" z_number f in
    let? l := need key schema f in
    if num_eq count (of_int (Z.of_nat (length l))) then Some l else None).

Definition rawStatusEffects : Schema (list McpStatusEffect) :=
  counted "effects" (z_array_max EFFECTS_MAXIMUM rawStatusEffect).

(** [/^[A-Za-z_][A-Za-z0-9_]{0,63}$/] *)
Definition BOT_NAME_PATTERN (name : string) : bool :=
  match name with
  | String c _ => (is_letter c || (c ≡? "_"%char)) && name_between 64 name
  | EmptyString => false
  end.

Record McpLoadedBot := MkLoadedBot { lb_name : string; lb_isScript : bool }.

Definition rawLoadedBot : Schema McpLoadedBot :=
  z_object (fun f =>
    let? name := need "name" (z_refine z_string BOT_NAME_PATTERN) f in
    let? isScript := need "isScript" z_boolean f in
    Some (MkLoadedBot name isScript)).

Definition rawLoadedBots : Schema (list McpLoadedBot) := counted "bots" (z_array_max BOTS_MAXIMUM rawLoadedBot).

Definition PLAYER_NAME_PATTERN : string -> bool := name_between 16.

Definition rawPlayersList : Schema (list string) :=
  z_object (fun f => need "players" (z_array_max PLAYERS_MAXIMUM (z_refine z_string PLAYER_NAME_PATTERN)) f).

Section Readouts.
Variable JSON_parse : string -> option Json.

Definition playerStatsFrom : JsonRpcResponse -> result McpPlayerStats :=
  read_with JSON_parse normalisedPlayerStats "player stats".

Definition statusEffectsFrom : JsonRpcResponse -> result (list McpStatusEffect) :=
  read_with JSON_parse rawStatusEffects "status effects".

Definition loadedBotsFrom : JsonRpcResponse -> result (list McpLoadedBot) :=
  read_with JSON_parse rawLoadedBots "loaded bots".

Definition playersListFrom : JsonRpcResponse -> result (list string) :=
  read_with JSON_parse rawPlayersList "a players list".
End Readouts.

(** ** The text of a chat message

    chat-component.ts: a message of the game is a tree of components, read out of
    JSON and written as spans of one style.  The texts of a language are an
    argument ([translate]), as is [String(n)] of a number that is not whole.
    Theorems say which messages are refused for their depth, that a style never
    changes what is said, and that a template in which each [%] is doubled says
    the text it was made of. *)

Module ChatText.

Definition CHAT_COLOR_NAMES : list string :=
  ["black"; "dark_blue"; "dark_green"; "dark_aqua"; "dark_red"; "dark_purple"; "gold"; "gray"; "dark_gray"; "blue"; "green";
   "aqua"; "red"; "light_purple"; "yellow"; "white"].

Definition hex_digit (c : Ascii.ascii) : bool :=
  let n := Ascii.nat_of_ascii c in ((48 <=? n)%nat && (n <=? 57)%nat) || ((65 <=? n)%nat && (n <=? 70)%nat) || ((97 <=? n)%nat && (n <=? 102)%nat).

Definition HEX_COLOR (value : string) : bool :=
  match value with String c rest => (c ≡? "#"%char) && (String.length rest =? 6)%nat && chars_all hex_digit rest | EmptyString => false end.

Definition colorSchema (value : string) : bool := bool_decide (value ∈ CHAT_COLOR_NAMES) || HEX_COLOR value.

(** The style a component sets. *)
Record StylePatch := MkPatch {
  set_color : option string; set_bold : option bool; set_italic : option bool; set_underlined : option bool;
  set_strikethrough : option bool; set_obfuscated : option bool }.

Definition no_patch : StylePatch := MkPatch None None None None None None.

#[warnings="-register-all"]
Inductive ChatComponent :=
  | Component (text translate : option string) (with_ extra : option (list ChatComponent)) (patch : StylePatch).

Definition of_text (text : string) : ChatComponent := Component (Some text) None None None no_patch.

(** An optional field of a zod object: [None] where it is there and no [A]. *)
Definition optional {A} (read : Json -> option A) (value : option Json) : option (option A) :=
  match value with None => Some None | Some value => option_map Some (read value) end.

Definition as_string (value : Json) : option string := match value with JString text => Some text | _ => None end.
Definition as_bool (value : Json) : option bool := match value with JBool b => Some b | _ => None end.
Definition as_color (value : Json) : option string := match value with JString text => if colorSchema text then Some text else None | _ => None end.

Section Read.
(** [String(n)] of a number that is not whole *)
Variable other_text : Z -> positive -> string.

Definition number_text (numerator : Z) (denominator : positive) : string :=
  if (denominator =? 1)%positive then decimal numerator else other_text numerator denominator.

(** [safeParseChatComponent] *)
Fixpoint safeParseChatComponent (value : Json) : option ChatComponent :=
  let fix all (items : list Json) : option (list ChatComponent) :=
    match items with
    | [] => Some []
    | item :: rest => let? part := safeParseChatComponent item in let? parts := all rest in Some (part :: parts)
    end in
  match value with
  | JString text => Some (of_text text)
  | JNumber numerator denominator => Some (of_text (number_text numerator denominator))
  | JBool b => Some (of_text (if b then "true" else "false"))
  | JArray items => let? parts := all items in Some (Component None None None (Some parts) no_patch)
  | JObject fields =>
      let fix components (key : string) (rest : list (string * Json)) : option (option (list ChatComponent)) :=
        match rest with
        | [] => Some None
        | (name, value) :: rest =>
            if name ≡? key then match value with JArray items => option_map Some (all items) | _ => None end else components key rest
        end in
      let flag key := optional as_bool (field key fields) in
      let? text := optional as_string (field "text" fields) in
      let? translate := optional as_string (field "translate" fields) in
      let? with_ := components "with" fields in
      let? extra := components "extra" fields in
      let? color := optional as_color (field "color" fields) in
      let? bold := flag "bold" in
      let? italic := flag "italic" in
      let? underlined := flag "underlined" in
      let? strikethrough := flag "strikethrough" in
      let? obfuscated := flag "obfuscated" in
      Some (Component text translate with_ extra (MkPatch color bold italic underlined strikethrough obfuscated))
  | JNull => None
  end.
End Read.

(** ** Spans *)

Record ChatStyle := MkStyle {
  color : option string; bold : bool; italic : bool; underlined : bool; strikethrough : bool; obfuscated : bool }.

Record ChatSpan := MkSpan { span_style : ChatStyle; span_text : string }.

Definition INHERITED : ChatStyle := MkStyle None false false false false false.

Definition inherit (parent : ChatStyle) (p : StylePatch) : ChatStyle :=
  MkStyle (match set_color p with Some c => Some c | None => color parent end) (default (bold parent) (set_bold p))
    (default (italic parent) (set_italic p)) (default (underlined parent) (set_underlined p))
    (default (strikethrough parent) (set_strikethrough p)) (default (obfuscated parent) (set_obfuscated p)).

(** A piece of a template: text, [%%], or an argument, with its number where the
    template says one. *)
Inductive Piece := p_char (c : Ascii.ascii) | p_percent | p_argument (explicit : option Z).

Definition is_digit (c : Ascii.ascii) : bool := let n := Ascii.nat_of_ascii c in (48 <=? n)%nat && (n <=? 57)%nat.

Fixpoint digits_of (value : string) : string :=
  match value with String c rest => if is_digit c then String c (digits_of rest) else EmptyString | EmptyString => EmptyString end.

(** [ARGUMENT_PATTERN] after a [%]: the piece, and its length after the [%]. *)
Definition after_percent (rest : string) : option (Piece * nat) :=
  let number := digits_of rest in
  let n := String.length number in
  if (0 <? n)%nat && startsWith "$s" (slice_from n rest) then Some (p_argument (numberOfDigits number), S (S n))
  else if startsWith "s" rest then Some (p_argument None, 1%nat)
  else if startsWith "%" rest then Some (p_percent, 1%nat)
  else None.

(** [template.matchAll(ARGUMENT_PATTERN)] and the text between; [skip] of what a
    match has taken. *)
Fixpoint pieces (skip : nat) (template : string) : list Piece :=
  match template with
  | EmptyString => []
  | String c rest =>
      match skip with
      | S skip => pieces skip rest
      | O =>
          match (if c ≡? "%"%char then after_percent rest else None) with
          | Some (piece, n) => piece :: pieces n rest
          | None => p_char c :: pieces 0 rest
          end
      end
  end.

Definition text_span (style : ChatStyle) (text : string) : list ChatSpan :=
  if (0 <? String.length text)%nat then [MkSpan style text] else [].

(** [expandTranslation], of the spans of the arguments; [pending] is the text
    since the last match. *)
Fixpoint expand (style : ChatStyle) (args : list (list ChatSpan)) (position : nat) (pending : string) (parts : list Piece) : list ChatSpan :=
  match parts with
  | [] => text_span style pending
  | p_char c :: parts => expand style args position (pending +:+ String c EmptyString) parts
  | p_percent :: parts => text_span style pending ++ [MkSpan style "%"] ++ expand style args position EmptyString parts
  | p_argument explicit :: parts =>
      let index := match explicit with None => Some position | Some n => if n <=? 0 then None else Some (Z.to_nat (n - 1)) end in
      text_span style pending ++ default [] (index ≫= fun index => args !! index)
      ++ expand style args (match explicit with None => S position | Some _ => position end) EmptyString parts
  end.

Definition expandTranslation (style : ChatStyle) (template : string) (args : list (list ChatSpan)) : list ChatSpan :=
  expand style args 0 EmptyString (pieces 0 template).

Section Collect.
Variable translate : string -> option string.

(** The spans of the arguments are those [collect] adds for them. *)
Fixpoint collect (node : ChatComponent) (parent : ChatStyle) : list ChatSpan :=
  match node with
  | Component text key with_ extra patch =>
      let style := inherit parent patch in
      let args := match with_ with Some nodes => map (fun argument => collect argument style) nodes | None => [] end in
      match text with Some text => text_span style text | None => [] end
      ++ match key with
         | None => []
         | Some key =>
             match translate key with
             | None => (if (length args =? 0)%nat then [MkSpan style key] else []) ++ concat args
             | Some template => expandTranslation style template args
             end
         end
      ++ match extra with Some nodes => concat (map (fun child => collect child style) nodes) | None => [] end
  end.

Definition flattenChatComponent (component : ChatComponent) : list ChatSpan := collect component INHERITED.
End Collect.

(** ** A message *)

Definition MAX_CHAT_COMPONENT_DEPTH : nat := 32.

Fixpoint tooDeep (value : Json) (depth : nat) : bool :=
  (MAX_CHAT_COMPONENT_DEPTH <? depth)%nat
  || match value with
     | JArray items => existsb (fun item => tooDeep item (S depth)) items
     | JObject fields => existsb (fun entry => tooDeep entry.2 (S depth)) fields
     | _ => false
     end.

Definition said (spans : list ChatSpan) : string := String.concat EmptyString (map span_text spans).

(** [json]: what [JSON.parse] makes of the text, which is not empty. *)
Definition renderChatJson (JSON_parse : string -> option Json) (other_text : Z -> positive -> string) (json : option string) : option string :=
  let? text := json in
  if (String.length text =? 0)%nat then None
  else
    let? parsed := JSON_parse text in
    if tooDeep parsed 0 then None
    else
      let? component := safeParseChatComponent other_text parsed in
      let rendered := said (flattenChatComponent (fun _ => None) component) in
      if (0 <? String.length rendered)%nat then Some rendered else None.

(** ** Depth *)

(** The nesting of arrays and objects. *)
Fixpoint nesting (value : Json) : nat :=
  match value with
  | JArray items => fold_right (fun item deepest => Nat.max (S (nesting item)) deepest) 0%nat items
  | JObject fields => fold_right (fun entry deepest => Nat.max (S (nesting entry.2)) deepest) 0%nat fields
  | _ => 0%nat
  end.

Lemma json_ind' (P : Json -> Prop) :
  P JNull -> (forall b, P (JBool b)) -> (forall n d, P (JNumber n d)) -> (forall s, P (JString s)) ->
  (forall items, Forall P items -> P (JArray items)) -> (forall fields, Forall (fun entry => P entry.2) fields -> P (JObject fields)) ->
  forall value, P value.
Proof.
  intros H1 H2 H3 H4 H5 H6. fix IH 1. intros [|b|n d|s|items|fields]; [done..| |].
  - apply H5. induction items as [|item items IHi]; constructor; [apply IH|done].
  - apply H6. induction fields as [|[key item] fields IHf]; constructor; [apply IH|done].
Qed.

(** A message is refused for its depth exactly when it nests arrays and objects
    more than thirty-two deep. *)
Theorem too_deep_is_nested_too_deep value depth :
  (depth <= MAX_CHAT_COMPONENT_DEPTH)%nat -> tooDeep value depth = (MAX_CHAT_COMPONENT_DEPTH <? depth + nesting value)%nat.
Proof.
  assert (Hlist : forall {A} (get : A -> Json) l, Forall (fun a => forall depth, (depth <= MAX_CHAT_COMPONENT_DEPTH)%nat ->
      tooDeep (get a) depth = (MAX_CHAT_COMPONENT_DEPTH <? depth + nesting (get a))%nat) l -> forall depth, (depth <= MAX_CHAT_COMPONENT_DEPTH)%nat ->
      existsb (fun a => tooDeep (get a) (S depth)) l
      = (MAX_CHAT_COMPONENT_DEPTH <? depth + fold_right (fun a deepest => Nat.max (S (nesting (get a))) deepest) 0 l)%nat).
  { intros A get l Hl d Hd. induction Hl as [|a l Ha _ IH]; [symmetry; apply Nat.ltb_ge; simpl; lia|]. simpl. rewrite IH. apply eq_true_iff_eq.
    rewrite orb_true_iff, !Nat.ltb_lt. destruct (decide (S d <= MAX_CHAT_COMPONENT_DEPTH)%nat) as [Hs|Hs].
    - rewrite (Ha (S d) Hs), Nat.ltb_lt. lia.
    - assert (tooDeep (get a) (S d) = true) as -> by (destruct (get a); cbn [tooDeep]; apply orb_true_iff; left; apply Nat.ltb_lt; lia).
      split; [intros _; lia|by left]. }
  revert depth. induction value as [|b|n d|s|items IH|fields IH] using json_ind'; intros depth Hd.
  5: { cbn [tooDeep nesting]. rewrite (proj2 (Nat.ltb_ge _ _) Hd). exact (Hlist _ (fun x => x) items IH depth Hd). }
  5: { cbn [tooDeep nesting]. rewrite (proj2 (Nat.ltb_ge _ _) Hd). exact (Hlist _ snd fields IH depth Hd). }
  all: cbn [tooDeep nesting]; by rewrite Nat.add_0_r, orb_false_r.
Qed.

(** ** What is said *)

Lemma component_ind' (P : ChatComponent -> Prop) :
  (forall text key with_ extra patch, Forall P (default [] with_) -> Forall P (default [] extra) -> P (Component text key with_ extra patch)) ->
  forall node, P node.
Proof.
  intros H. fix IH 1. intros [text key with_ extra patch]. apply H.
  - destruct with_ as [nodes|]; [|constructor]. cbn. induction nodes as [|node nodes IHn]; constructor; [apply IH|done].
  - destruct extra as [nodes|]; [|constructor]. cbn. induction nodes as [|node nodes IHn]; constructor; [apply IH|done].
Qed.

(** The texts of spans, without their style. *)
Definition texts (spans : list ChatSpan) : list string := map span_text spans.

Lemma texts_app a b : texts (a ++ b) = texts a ++ texts b.
Proof. apply map_app. Qed.

Lemma texts_of_text style style' text : texts (text_span style text) = texts (text_span style' text).
Proof. unfold text_span. by destruct (0 <? _)%nat. Qed.

Lemma expand_texts style style' args args' parts position pending :
  map texts args = map texts args' -> texts (expand style args position pending parts) = texts (expand style' args' position pending parts).
Proof.
  intros Ha. revert position pending. induction parts as [|[c| |explicit] parts IH]; intros position pending; cbn [expand].
  - apply texts_of_text.
  - apply IH.
  - rewrite !texts_app, (IH position), (texts_of_text style style'). done.
  - rewrite !texts_app, IH, (texts_of_text style style'). f_equal. f_equal.
    destruct (match explicit with None => Some position | Some n => _ end) as [index|]; [|done]. cbn.
    assert (H : texts <$> args !! index = texts <$> args' !! index) by (rewrite <- !list_lookup_fmap; unfold fmap, list_fmap; by f_equal).
    destruct (args !! index), (args' !! index); cbn in *; [by injection H|done..].
Qed.

Lemma texts_concat l : texts (concat l) = concat (map texts l).
Proof. induction l as [|spans l IH]; [done|]. cbn. by rewrite texts_app, IH. Qed.

(** A style never changes the texts of a message: neither the one it inherits nor
    those its components set. *)
Fixpoint unstyled (node : ChatComponent) : ChatComponent :=
  match node with
  | Component text key with_ extra patch =>
      Component text key (match with_ with Some nodes => Some (map unstyled nodes) | None => None end)
        (match extra with Some nodes => Some (map unstyled nodes) | None => None end) no_patch
  end.

Theorem styles_do_not_change_what_is_said translate node style style' :
  texts (collect translate node style) = texts (collect translate (unstyled node) style').
Proof.
  revert style style'. induction node as [text key with_ extra patch Hw He] using component_ind'; intros style style'. cbn [collect unstyled].
  set (s := inherit style patch). set (s' := inherit style' no_patch).
  assert (Hall : forall nodes, Forall (fun node => forall style style', texts (collect translate node style) = texts (collect translate (unstyled node) style')) nodes ->
    map texts (map (fun node => collect translate node s) nodes) = map texts (map (fun node => collect translate node s') (map unstyled nodes))).
  { intros nodes H. rewrite !map_map. induction H as [|node nodes Hn _ IH]; [done|]. simpl. by rewrite (Hn s s'), IH. }
  set (args := match with_ with Some nodes => _ | None => [] end).
  set (args' := match match with_ with Some nodes => Some (map unstyled nodes) | None => None end with Some nodes => _ | None => [] end).
  assert (Hargs : map texts args = map texts args') by (unfold args, args'; destruct with_ as [nodes|]; [by apply Hall|done]).
  rewrite !texts_app. f_equal; [destruct text; [apply texts_of_text|done]|]. f_equal.
  - destruct key as [key|]; [|done]. destruct (translate key) as [template|]; [by apply expand_texts|].
    rewrite !texts_app, !texts_concat, Hargs. f_equal.
    assert (length args = length args') as -> by (rewrite <- (length_map texts args), <- (length_map texts args'); by rewrite Hargs).
    by destruct (length args' =? 0)%nat.
  - destruct extra as [nodes|]; [|done]. rewrite !texts_concat. by rewrite Hall.
Qed.

(** Each [%] of a text doubled. *)
Fixpoint doubled (text : string) : string :=
  match text with
  | EmptyString => EmptyString
  | String c rest => if c ≡? "%"%char then String c (String c (doubled rest)) else String c (doubled rest)
  end.

Lemma pieces_of_doubled text :
  pieces 0 (doubled text) = map (fun c => if c ≡? "%"%char then p_percent else p_char c) (String.list_ascii_of_string text).
Proof.
  induction text as [|c text IH]; [done|]. cbn [doubled String.list_ascii_of_string map].
  destruct (c ≡? "%"%char) eqn:E; cbn [pieces]; rewrite E.
  - tests. subst. assert (after_percent (String "%" (doubled text)) = Some (p_percent, 1%nat)) as ->.
    { unfold after_percent. cbn [digits_of]. change (is_digit "%") with false. cbn. by destruct (doubled text). }
    by rewrite IH.
  - by rewrite IH.
Qed.

Lemma concat_texts l l' : String.concat EmptyString (l ++ l') = String.concat EmptyString l +:+ String.concat EmptyString l'.
Proof.
  induction l as [|a l IH]; [done|]. destruct l as [|b l].
  - simpl. destruct l' as [|b l']; simpl; [by rewrite string_app_nil_r|done].
  - simpl in *. rewrite IH. by rewrite string_app_assoc.
Qed.

(** A template made of a text by doubling its percent signs says that text, with
    whatever arguments. *)
Theorem doubled_text_says_itself style args text : said (expandTranslation style (doubled text) args) = text.
Proof.
  unfold expandTranslation. rewrite pieces_of_doubled.
  assert (H : forall text pending, said (expand style args 0 pending (map (fun c => if c ≡? "%"%char then p_percent else p_char c) (String.list_ascii_of_string text))) = pending +:+ text).
  { assert (Hp : forall pending, said (text_span style pending) = pending) by (intros [|c pending]; done).
    clear text. intros text. induction text as [|c text IH]; intros pending; cbn [String.list_ascii_of_string map expand].
    - by rewrite Hp, string_app_nil_r.
    - destruct (c ≡? "%"%char) eqn:E; cbn [expand].
      + tests. subst. unfold said. rewrite !map_app, !concat_texts. fold (said (text_span style pending)). rewrite Hp. f_equal.
        change (map span_text [MkSpan style "%"]) with ["%"]. cbn [String.concat]. specialize (IH EmptyString). unfold said in IH. by rewrite IH.
      + rewrite IH. by rewrite string_app_assoc. }
  apply (H text EmptyString).
Qed.
End ChatText.
