(* ===== verification/RunningChecks.v ===== *)
(** Whether a bot runs, asked once for all who read it.

    [requireRunning] and [forgetActive] of
    [packages/core/src/instance/instance.controller.ts], a transition system:
    requests that read or steer a bot share one check of its unit, its answer is
    good for five seconds, and stopping the bot forgets both.  The callbacks of a
    check ([then], [finally]) and the continuation of a request are steps of
    their own.  [ck_instance], [ck_identity], [ck_epoch] and the check kept beside
    a time are not in the code: they say for the theorems which check an answer
    came from, which bot, machine and login it asked for, and how often its bot
    had been forgotten when it began. *)

From stdpp Require Import gmap relations.
From S2P Require Import Prelude Tables Observer Shell ClientConfig ConfigDrift InstanceController.

(** ** The keys *)

Definition LINE : string := String "010"%char EmptyString.

(** [JSON.stringify] of the five parts of an identity. *)
Definition json_text (value : string) : string := QUOTE +:+ json_body value +:+ QUOTE.

Definition identity_text (i : ConnectionIdentity) : string :=
  "[" +:+ join_with "," [json_text (id_hostname i); decimal (id_port i); json_text (id_username i);
                         json_text (id_sshKeyId i); json_text (id_hostKeyFingerprint i)] +:+ "]".

Definition activeKey (instanceId : string) (identity : ConnectionIdentity) : string :=
  instanceId +:+ LINE +:+ identity_text identity.

(** ** The state *)

(** How far the promise of a check is: asked, [then] has run, [finally] has
    run; [None] is an answer that was rejected. *)
Inductive Phase := asked_machine | after_then (answer : option bool) | after_finally (answer : option bool).

Record RunningCheck := MkCheck {
  ck_key : string; ck_phase : Phase; ck_instance : string; ck_identity : ConnectionIdentity; ck_epoch : nat }.

(** A request waits for a check, or it knows. *)
Inductive Knowing := waits_for (c : nat) | passed (c : nat) | refused (c : nat) | check_failed (c : nat).

Record Checks := MkChecks {
  readAt : gmap string (Z * nat); activeChecks : gmap string nat; checks : gmap nat RunningCheck;
  asking : gmap nat Knowing; begun : nat; epochs : string -> nat }.

Definition no_checks : Checks := MkChecks ∅ ∅ ∅ ∅ 0 (fun _ => 0%nat).

Definition with_asking (rq : nat) (k : Knowing) (s : Checks) : Checks :=
  MkChecks (readAt s) (activeChecks s) (checks s) (<[rq := k]> (asking s)) (begun s) (epochs s).

Definition with_phase (c : nat) (p : Phase) (s : Checks) : Checks :=
  MkChecks (readAt s) (activeChecks s)
    (alter (fun ck => MkCheck (ck_key ck) p (ck_instance ck) (ck_identity ck) (ck_epoch ck)) c (checks s)) (asking s) (begun s) (epochs s).

(** ** The operations *)

Definition still_fresh (key : string) (now : Z) (s : Checks) : option nat :=
  match readAt s !! key with
  | Some (at_, c) => if now - at_ <? ACTIVE_RESULT_MAX_AGE_MS then Some c else None
  | None => None
  end.

(** [requireRunning], up to its [await]. *)
Definition requireRunning (rq : nat) (instanceId : string) (identity : ConnectionIdentity) (now : Z) (s : Checks) : Checks :=
  let key := activeKey instanceId identity in
  match still_fresh key now s with
  | Some c => with_asking rq (passed c) s
  | None =>
      match activeChecks s !! key with
      | Some c =>
          with_asking rq (waits_for c)
            (MkChecks (delete key (readAt s)) (activeChecks s) (checks s) (asking s) (begun s) (epochs s))
      | None =>
          let c := S (begun s) in
          with_asking rq (waits_for c)
            (MkChecks (delete key (readAt s)) (<[key := c]> (activeChecks s))
               (<[c := MkCheck key asked_machine instanceId identity (epochs s instanceId)]> (checks s)) (asking s) c (epochs s))
      end
  end.

(** The callback of [then], when the machine answered; it is skipped when the
    question was rejected. *)
Definition check_answers (c : nat) (answer : option bool) (now : Z) (s : Checks) : Checks :=
  match checks s !! c with
  | None => s
  | Some ck =>
      let s := with_phase c (after_then answer) s in
      if (answer ≡? Some true) && (activeChecks s !! ck_key ck ≡? Some c)
      then MkChecks (<[ck_key ck := (now, c)]> (readAt s)) (activeChecks s) (checks s) (asking s) (begun s) (epochs s)
      else s
  end.

(** The callback of [finally]. *)
Definition check_ends (c : nat) (s : Checks) : Checks :=
  match checks s !! c with
  | Some (MkCheck key (after_then answer) _ _ _) =>
      let s := with_phase c (after_finally answer) s in
      if activeChecks s !! key ≡? Some c
      then MkChecks (readAt s) (delete key (activeChecks s)) (checks s) (asking s) (begun s) (epochs s)
      else s
  | _ => s
  end.

(** What follows the [await]. *)
Definition request_resumes (rq : nat) (s : Checks) : Checks :=
  match asking s !! rq with
  | Some (waits_for c) =>
      match checks s !! c with
      | Some (MkCheck _ (after_finally answer) _ _ _) =>
          with_asking rq (match answer with Some true => passed c | Some false => refused c | None => check_failed c end) s
      | _ => s
      end
  | _ => s
  end.

Definition of_bot (instanceId key : string) : bool := startsWith (instanceId +:+ LINE) key.

Definition forgetActive (instanceId : string) (s : Checks) : Checks :=
  MkChecks (filter (fun p => of_bot instanceId p.1 = false) (readAt s))
    (filter (fun p => of_bot instanceId p.1 = false) (activeChecks s)) (checks s) (asking s) (begun s)
    (fun id => if id ≡? instanceId then S (epochs s id) else epochs s id).

(** ** What may happen

    The ids of bots hold no line feed. *)

Inductive CheckEvent :=
  | ce_asked (rq : nat) (instanceId : string) (identity : ConnectionIdentity) (now : Z)
  | ce_answered (c : nat) (answer : option bool) (now : Z)
  | ce_ended (c : nat)
  | ce_resumed (rq : nat)
  | ce_forgotten (instanceId : string).

Definition may_be (ev : CheckEvent) (s : Checks) : Prop :=
  match ev with
  | ce_asked rq instanceId _ _ => asking s !! rq = None /\ free_of "010" instanceId = true
  | ce_answered c _ _ => exists ck, checks s !! c = Some ck /\ ck_phase ck = asked_machine
  | ce_ended c => exists ck answer, checks s !! c = Some ck /\ ck_phase ck = after_then answer
  | ce_resumed rq => exists c ck answer,
      asking s !! rq = Some (waits_for c) /\ checks s !! c = Some ck /\ ck_phase ck = after_finally answer
  | ce_forgotten instanceId => free_of "010" instanceId = true
  end.

Definition happens_to (ev : CheckEvent) (s : Checks) : Checks :=
  match ev with
  | ce_asked rq instanceId identity now => requireRunning rq instanceId identity now s
  | ce_answered c answer now => check_answers c answer now s
  | ce_ended c => check_ends c s
  | ce_resumed rq => request_resumes rq s
  | ce_forgotten instanceId => forgetActive instanceId s
  end.

Inductive check_step : Checks -> Checks -> Prop := check_step_event ev s : may_be ev s -> check_step s (happens_to ev s).

Definition checks_reachable : Checks -> Prop := rtc check_step no_checks.

(** ** The invariant *)

Definition answer_of (p : Phase) : option (option bool) :=
  match p with asked_machine => None | after_then answer | after_finally answer => Some answer end.

(** A check of the bot's that began since it was last forgotten. *)
Definition current (key : string) (c : nat) (s : Checks) : Prop :=
  exists ck, checks s !! c = Some ck /\ ck_key ck = key /\ ck_epoch ck = epochs s (ck_instance ck).

Record checks_sound (s : Checks) : Prop := {
  remembered_current : forall key at_ c, readAt s !! key = Some (at_, c) ->
    current key c s /\ exists ck, checks s !! c = Some ck /\ answer_of (ck_phase ck) = Some (Some true);
  registered_current : forall key c, activeChecks s !! key = Some c ->
    current key c s /\ exists ck, checks s !! c = Some ck /\ forall answer, ck_phase ck <> after_finally answer;
  known_numbers : forall c ck, checks s !! c = Some ck -> (c <= begun s)%nat
    /\ ck_key ck = activeKey (ck_instance ck) (ck_identity ck) /\ free_of "010" (ck_instance ck) = true
    /\ (ck_epoch ck <= epochs s (ck_instance ck))%nat;
  unregistered_old : forall c ck, checks s !! c = Some ck -> (forall answer, ck_phase ck <> after_finally answer) ->
    activeChecks s !! ck_key ck = Some c \/ (ck_epoch ck < epochs s (ck_instance ck))%nat;
  knowing : forall rq k, asking s !! rq = Some k ->
    match k with
    | passed c => exists ck, checks s !! c = Some ck /\ answer_of (ck_phase ck) = Some (Some true)
    | waits_for c | refused c | check_failed c => is_Some (checks s !! c)
    end }.

(** ** The operations keep it *)

#[local] Arguments ascii_dec : simpl never.

Lemma free_of_cons c d s : free_of c (String d s) = true <-> d <> c /\ free_of c s = true.
Proof. change (free_of c (String d s)) with (negb (d ≡? c) && free_of c s). rewrite andb_true_iff, negb_true_iff, bool_decide_eq_false. done. Qed.

(** A key is of one bot. *)
Lemma of_bot_key a b identity : free_of "010" a = true -> free_of "010" b = true ->
  of_bot a (activeKey b identity) = true <-> a = b.
Proof.
  unfold of_bot, activeKey, LINE, startsWith. generalize (identity_text identity). intros text. revert b.
  induction a as [|c a IH]; intros [|d b]; rewrite ?free_of_cons; simpl.
  - split; [done|]. intros _. destruct (ascii_dec "010" "010"); [|done]. by destruct text.
  - intros _ [Hd _]. destruct (ascii_dec "010" d) as [<-|_]; done.
  - intros [Hc _] _. destruct (ascii_dec c "010") as [->|_]; done.
  - intros [Hc Ha] [Hd Hb]. destruct (ascii_dec c d) as [<-|Hne].
    + rewrite (IH b Ha Hb). split; [by intros ->|by intros [= ->]].
    + split; [done|]. intros [= ? _]. done.
Qed.

(** Checks only go on, and epochs stay: what was current is. *)
Lemma current_same key c s s' : epochs s' = epochs s ->
  (forall ck, checks s !! c = Some ck -> exists ck', checks s' !! c = Some ck' /\ ck_key ck' = ck_key ck
     /\ ck_epoch ck' = ck_epoch ck /\ ck_instance ck' = ck_instance ck) ->
  current key c s -> current key c s'.
Proof.
  intros He Hc (ck & H & E1 & E2). destruct (Hc _ H) as (ck' & H' & F1 & F2 & F3). exists ck'.
  by rewrite F1, F2, F3, He.
Qed.

Lemma sound_with_asking rq k s : checks_sound s ->
  match k with
  | passed c => exists ck, checks s !! c = Some ck /\ answer_of (ck_phase ck) = Some (Some true)
  | waits_for c | refused c | check_failed c => is_Some (checks s !! c)
  end -> checks_sound (with_asking rq k s).
Proof.
  intros [] Hk. split; try done. intros rq' k'. simpl. rewrite lookup_insert_Some. intros [[<- <-]|[_ H]]; [done|by eapply knowing0].
Qed.

Lemma sound_forgotten_time key s : checks_sound s ->
  checks_sound (MkChecks (delete key (readAt s)) (activeChecks s) (checks s) (asking s) (begun s) (epochs s)).
Proof. intros []. split; try done. intros k at_ c H. simpl in H. apply lookup_delete_Some in H as [_ H]. by eapply remembered_current0. Qed.

Lemma sound_asked rq instanceId identity now s : free_of "010" instanceId = true -> checks_sound s -> checks_sound (requireRunning rq instanceId identity now s).
Proof.
  intros Hfree I. unfold requireRunning. set (key := activeKey instanceId identity).
  destruct (still_fresh key now s) as [c|] eqn:Ef.
  - apply sound_with_asking; [done|]. unfold still_fresh in Ef. destruct (readAt s !! key) as [[at_ c']|] eqn:E; [|done].
    destruct (_ <? _); simplify_eq. by destruct (remembered_current _ I _ _ _ E).
  - destruct (activeChecks s !! key) as [c|] eqn:Ea.
    + apply sound_with_asking; [by apply sound_forgotten_time|]. destruct (registered_current _ I _ _ Ea) as [_ (ck & H & _)]. by exists ck.
    + set (c := S (begun s)). apply sound_with_asking; [|simpl; by rewrite lookup_insert_eq].
      assert (Hnew : checks s !! c = None).
      { destruct (checks s !! c) as [ck|] eqn:E; [|done]. apply (known_numbers _ I) in E. unfold c in E. lia. }
      assert (Hcur : forall key' c', current key' c' s ->
        current key' c' (MkChecks (delete key (readAt s)) (<[key := c]> (activeChecks s))
          (<[c := MkCheck key asked_machine instanceId identity (epochs s instanceId)]> (checks s)) (asking s) c (epochs s))).
      { intros key' c'. apply current_same; [done|]. intros ck H. exists ck. simpl. rewrite lookup_insert_ne by congruence. done. }
      assert (Hold : forall c' ck, checks s !! c' = Some ck ->
        <[c := MkCheck key asked_machine instanceId identity (epochs s instanceId)]> (checks s) !! c' = Some ck).
      { intros c' ck H. rewrite lookup_insert_ne by congruence. done. }
      destruct I. split; simpl.
      * intros k at_ c' [_ H]%lookup_delete_Some. destruct (remembered_current0 _ _ _ H) as [H1 (ck & H2 & H3)].
        split; [by apply Hcur|]. exists ck. by rewrite (Hold _ _ H2).
      * intros k c'. rewrite lookup_insert_Some. intros [[<- <-]|[Hne H]].
        -- split; [|rewrite lookup_insert_eq; by eexists].
           eexists. simpl. rewrite lookup_insert_eq. by split_and!.
        -- destruct (registered_current0 _ _ H) as [H1 (ck & H2 & H3)]. split; [by apply Hcur|]. exists ck. by rewrite (Hold _ _ H2).
      * intros c' ck. rewrite lookup_insert_Some. intros [[<- <-]|[Hne H]].
        -- simpl. by split_and!.
        -- destruct (known_numbers0 _ _ H) as (? & ? & ? & ?). unfold c. split_and!; [lia|done|done|done].
      * intros c' ck. rewrite lookup_insert_Some. intros [[<- <-]|[Hne H]] Hp.
        -- left. simpl. by rewrite lookup_insert_eq.
        -- destruct (unregistered_old0 _ _ H Hp) as [Ha|?]; [left|by right]. rewrite lookup_insert_ne; [done|congruence].
      * intros rq' k H. specialize (knowing0 _ _ H). destruct k.
        -- destruct knowing0 as [ck Hk]. rewrite (Hold _ _ Hk). done.
        -- destruct knowing0 as (ck & Hk & ?). exists ck. by rewrite (Hold _ _ Hk).
        -- destruct knowing0 as [ck Hk]. rewrite (Hold _ _ Hk). done.
        -- destruct knowing0 as [ck Hk]. rewrite (Hold _ _ Hk). done.
Qed.

Lemma phase_lookup c p s c' ck : checks (with_phase c p s) !! c' = Some ck <->
  exists ck0, checks s !! c' = Some ck0 /\ ck = if decide (c' = c) then MkCheck (ck_key ck0) p (ck_instance ck0) (ck_identity ck0) (ck_epoch ck0) else ck0.
Proof.
  simpl. rewrite lookup_alter_Some. split.
  - intros [(-> & ck0 & H & ->)|[Hne H]]; eexists; (split; [done|by case_decide]).
  - intros (ck0 & H & ->). case_decide as E; [subst; left; by eauto|by right].
Qed.

Lemma phase_current c p s key c' : current key c' s -> current key c' (with_phase c p s).
Proof.
  apply current_same; [done|]. intros ck H. eexists. split; [by apply phase_lookup; eauto|]. by case_decide.
Qed.

(** An answered check keeps its answer when it goes on. *)
Lemma sound_with_phase c p s ck0 : checks_sound s -> checks s !! c = Some ck0 ->
  (answer_of (ck_phase ck0) = None \/ answer_of p = answer_of (ck_phase ck0)) ->
  ((forall answer, p <> after_finally answer) \/ activeChecks s !! ck_key ck0 <> Some c) ->
  (forall answer, ck_phase ck0 <> after_finally answer) -> checks_sound (with_phase c p s).
Proof.
  intros [] Hc Ha Hf Hn. split; simpl activeChecks; simpl readAt; simpl asking; simpl begun; simpl epochs.
  - intros key at_ c' H. destruct (remembered_current0 _ _ _ H) as [H1 (ck & H2 & H3)]. split; [by apply phase_current|].
    eexists. split; [by apply phase_lookup; eauto|]. case_decide; [|done]. subst. simplify_eq. simpl.
    destruct Ha as [Ha|Ha]; congruence.
  - intros key c' H. destruct (registered_current0 _ _ H) as [H1 (ck & H2 & H3)]. split; [by apply phase_current|].
    eexists. split; [by apply phase_lookup; eauto|]. case_decide; [|done]. subst. simplify_eq. simpl.
    destruct H1 as (ck' & H1 & E & _). simplify_eq. by destruct Hf as [?|Hf].
  - intros c' ck (ck1 & H & ->)%phase_lookup. destruct (known_numbers0 _ _ H) as (? & ? & ? & ?). by case_decide.
  - intros c' ck (ck1 & H & ->)%phase_lookup Hp. case_decide; [|by apply unregistered_old0].
    subst. simplify_eq. simpl. by apply unregistered_old0.
  - intros rq k H. specialize (knowing0 _ _ H). destruct k as [c1|c1|c1|c1].
    + destruct knowing0 as [ck Hk]. eexists. by apply phase_lookup; eauto.
    + destruct knowing0 as (ck & Hk & E). eexists. split; [by apply phase_lookup; eauto|]. case_decide; [|done].
      subst. simplify_eq. simpl. destruct Ha as [Ha|Ha]; congruence.
    + destruct knowing0 as [ck Hk]. eexists. by apply phase_lookup; eauto.
    + destruct knowing0 as [ck Hk]. eexists. by apply phase_lookup; eauto.
Qed.

Lemma sound_answers c answer now s ck0 : checks_sound s -> checks s !! c = Some ck0 -> ck_phase ck0 = asked_machine ->
  checks_sound (check_answers c answer now s).
Proof.
  intros I Hc Hp. unfold check_answers. rewrite Hc.
  assert (I1 : checks_sound (with_phase c (after_then answer) s)).
  { eapply sound_with_phase; [done|exact Hc|left; by rewrite Hp|by left|by rewrite Hp]. }
  destruct (bool_decide (answer = Some true) && _) eqn:E; [|done].
  apply andb_prop in E as [Ea%bool_decide_eq_true Er%bool_decide_eq_true]. subst answer.
  assert (Hc1 : checks (with_phase c (after_then (Some true)) s) !! c
    = Some (MkCheck (ck_key ck0) (after_then (Some true)) (ck_instance ck0) (ck_identity ck0) (ck_epoch ck0))).
  { apply phase_lookup. exists ck0. by case_decide. }
  destruct I1. split; try done. intros key at_ c'. simpl. rewrite lookup_insert_Some. intros [[<- [= <- <-]]|[Hne H]].
  - split; [|eexists; split; [exact Hc1|done]]. destruct (registered_current0 _ _ Er) as [Hcur _]. exact Hcur.
  - by apply (remembered_current0 _ at_).
Qed.

Lemma sound_ends c s ck0 answer : checks_sound s -> checks s !! c = Some ck0 -> ck_phase ck0 = after_then answer ->
  checks_sound (check_ends c s).
Proof.
  intros I Hc Hp. unfold check_ends. rewrite Hc. destruct ck0 as [key p instance identity epoch]. simpl in Hp. subst p.
  destruct (activeChecks (with_phase c (after_finally answer) s) !! key ≡? Some c) eqn:E.
  2: { apply bool_decide_eq_false in E. eapply sound_with_phase; [done|exact Hc|by right|by right|done]. }
  apply bool_decide_eq_true in E. simpl in E. destruct I. split; simpl activeChecks; simpl readAt; simpl asking; simpl begun; simpl epochs.
  - intros k at_ c' H. destruct (remembered_current0 _ _ _ H) as [H1 (ck & H2 & H3)]. split; [by apply phase_current|].
    eexists. split; [by apply phase_lookup; eauto|]. case_decide; [|done]. subst. by simplify_eq.
  - intros k c' [Hne H]%lookup_delete_Some. destruct (registered_current0 _ _ H) as [H1 (ck & H2 & H3)].
    split; [by apply (phase_current c)|]. eexists. split; [by apply phase_lookup; eauto|]. case_decide; [|done].
    subst. destruct H1 as (ck1 & H1 & E1 & _). by simplify_eq.
  - intros c' ck (ck1 & H & ->)%phase_lookup. destruct (known_numbers0 _ _ H) as (? & ? & ? & ?). by case_decide.
  - intros c' ck (ck1 & H & ->)%phase_lookup Hn. case_decide as Ec; [by destruct (Hn answer)|].
    destruct (unregistered_old0 _ _ H Hn) as [Ha|?]; [left|by right]. rewrite lookup_delete_ne; [done|].
    intros ->. congruence.
  - intros rq k H. specialize (knowing0 _ _ H). destruct k as [c1|c1|c1|c1].
    + destruct knowing0 as [ck Hk]. eexists. by apply phase_lookup; eauto.
    + destruct knowing0 as (ck & Hk & E1). eexists. split; [by apply phase_lookup; eauto|]. case_decide; [|done]. subst. by simplify_eq.
    + destruct knowing0 as [ck Hk]. eexists. by apply phase_lookup; eauto.
    + destruct knowing0 as [ck Hk]. eexists. by apply phase_lookup; eauto.
Qed.

Lemma sound_resumes rq s : checks_sound s -> checks_sound (request_resumes rq s).
Proof.
  intros I. unfold request_resumes. destruct (asking s !! rq) as [[c|c|c|c]|]; try done.
  destruct (checks s !! c) as [[key [|answer|answer] instance identity epoch]|] eqn:Hc; try done.
  apply sound_with_asking; [done|]. destruct answer as [[]|]; rewrite ?Hc; try done. by eexists.
Qed.

(** Forgetting a bot leaves what is known of the others. *)
Lemma current_forgotten key c instanceId s : checks_sound s -> free_of "010" instanceId = true ->
  of_bot instanceId key = false -> current key c s -> current key c (forgetActive instanceId s).
Proof.
  intros I Hf Hk (ck & Hc & Ek & Ee). exists ck. split_and!; [done|done|]. simpl.
  destruct (known_numbers _ I _ _ Hc) as (_ & E & Hfree & _).
  rewrite bool_decide_eq_false_2; [done|]. intros <-. rewrite <- Ek, E in Hk.
  by rewrite (proj2 (of_bot_key _ _ (ck_identity ck) Hfree Hfree)) in Hk.
Qed.

Lemma sound_forgets instanceId s : free_of "010" instanceId = true -> checks_sound s -> checks_sound (forgetActive instanceId s).
Proof.
  intros Hf I. assert (Hcur := fun key c => current_forgotten key c instanceId s I Hf). destruct I. split; simpl activeChecks; simpl readAt.
  - intros key at_ c [H Hk]%map_lookup_filter_Some. destruct (remembered_current0 _ _ _ H) as [H1 H2]. split; [by apply Hcur|done].
  - intros key c [H Hk]%map_lookup_filter_Some. destruct (registered_current0 _ _ H) as [H1 H2]. split; [by apply Hcur|done].
  - intros c ck H. destruct (known_numbers0 _ _ H) as (? & ? & ? & ?). split_and!; try done. simpl. case_bool_decide; lia.
  - intros c ck H Hn. destruct (known_numbers0 _ _ H) as (_ & E & Hfree & Hle). simpl. case_bool_decide as Ei.
    + right. lia.
    + destruct (unregistered_old0 _ _ H Hn) as [Ha|?]; [left|by right]. apply map_lookup_filter_Some. split; [done|]. simpl.
      destruct (of_bot instanceId (ck_key ck)) eqn:Eb; [|done]. rewrite E in Eb. apply of_bot_key in Eb; congruence.
  - exact knowing0.
Qed.

Lemma step_sound s s' : check_step s s' -> checks_sound s -> checks_sound s'.
Proof.
  intros [ev s0 Hmay] I. destruct ev; simpl in *.
  - destruct Hmay. by apply sound_asked.
  - destruct Hmay as (ck & Hc & Hp). by eapply sound_answers.
  - destruct Hmay as (ck & a & Hc & Hp). by eapply sound_ends.
  - by apply sound_resumes.
  - by apply sound_forgets.
Qed.

(** *** Keys are of one machine and login *)

Lemma json_body_inj a : forall b rest rest',
  json_body a +:+ String DQUOTE rest = json_body b +:+ String DQUOTE rest' -> a = b /\ rest = rest'.
Proof.
  induction a as [|c a IH]; intros [|d b] rest rest' E; simpl json_body in E; rewrite ?string_app_assoc in E.
  - by injection E as ->.
  - apply (f_equal read_json_char) in E. by rewrite json_char_reads in E.
  - apply (f_equal read_json_char) in E. by rewrite json_char_reads in E.
  - apply (f_equal read_json_char) in E. rewrite !json_char_reads in E. injection E as -> E.
    by apply IH in E as [-> ->].
Qed.

Lemma json_text_inj a b rest rest' : json_text a +:+ rest = json_text b +:+ rest' -> a = b /\ rest = rest'.
Proof. unfold json_text. rewrite !string_app_assoc. intros E. apply string_app_inj_l in E. by apply json_body_inj in E. Qed.

Lemma decimal_before_comma n m rest rest' : decimal n +:+ String "," rest = decimal m +:+ String "," rest' -> n = m /\ rest = rest'.
Proof.
  intros E. assert (n = m) as ->.
  { apply (f_equal (split_on ",")) in E. rewrite !split_app in E by (by apply decimal_free). injection E as E _. by apply decimal_inj. }
  split; [done|]. apply string_app_inj_l in E. by injection E.
Qed.

(** The five parts are read back from the text. *)
Lemma identity_text_inj a b : identity_text a = identity_text b -> a = b.
Proof.
  unfold identity_text. cbn [join_with]. rewrite !string_app_assoc. intros E. apply string_app_inj_l in E.
  apply json_text_inj in E as [E1 E]. apply string_app_inj_l in E.
  apply decimal_before_comma in E as [E2 E].
  apply json_text_inj in E as [E3 E]. apply string_app_inj_l in E.
  apply json_text_inj in E as [E4 E]. apply string_app_inj_l in E.
  apply json_text_inj in E as [E5 E]. destruct a, b. simpl in *. by subst.
Qed.

Lemma reachable_sound s : checks_reachable s -> checks_sound s.
Proof.
  intros H. assert (I : checks_sound no_checks) by (split; simpl; try done; intros; by rewrite lookup_empty in *).
  revert I. induction H as [|s1 s2 s3 Hs _ IH]; [done|]. intros I. apply IH. by eapply step_sound.
Qed.

(** ** What a request rests on *)

Lemma current_of_bot s instanceId identity c : checks_sound s -> free_of "010" instanceId = true ->
  current (activeKey instanceId identity) c s ->
  exists ck, checks s !! c = Some ck /\ ck_instance ck = instanceId /\ ck_identity ck = identity
    /\ ck_epoch ck = epochs s instanceId.
Proof.
  intros I Hf (ck & Hc & Ek & Ee). destruct (known_numbers _ I _ _ Hc) as (_ & E & Hfree & _).
  assert (Ei : instanceId = ck_instance ck).
  { apply (of_bot_key _ _ (ck_identity ck) Hf Hfree). rewrite <- E, Ek. by apply of_bot_key. }
  rewrite E in Ek. unfold activeKey in Ek. rewrite <- Ei in Ek. do 2 apply string_app_inj_l in Ek. apply identity_text_inj in Ek.
  exists ck. split_and!; [done|done|done|]. by rewrite Ee, <- Ei.
Qed.

(** C19: a request of a bot never rests on what was known before the bot was last
    stopped, moved or removed.  It is let through at once only on an answer of
    [true] less than five seconds old, and otherwise waits for a check that is
    not over; either way the check began after the last [forgetActive] of the
    bot and asked for the same bot and for the same host, port, user, key and
    host key, whatever texts these are, even when the answer to an older check
    arrives in between. *)
Theorem requests_rest_on_current_checks s rq instanceId identity now :
  checks_reachable s -> may_be (ce_asked rq instanceId identity now) s ->
  let key := activeKey instanceId identity in
  let s' := requireRunning rq instanceId identity now s in
  exists c ck, checks s' !! c = Some ck /\ ck_instance ck = instanceId /\ ck_identity ck = identity
    /\ ck_epoch ck = epochs s' instanceId /\ epochs s' instanceId = epochs s instanceId
    /\ ((asking s' !! rq = Some (passed c) /\ answer_of (ck_phase ck) = Some (Some true)
         /\ exists at_, readAt s !! key = Some (at_, c) /\ now - at_ < 5000)
        \/ (asking s' !! rq = Some (waits_for c) /\ activeChecks s' !! key = Some c
            /\ forall answer, ck_phase ck <> after_finally answer)).
Proof.
  intros Hr [Hnew Hf] key s'. assert (I := reachable_sound _ Hr).
  assert (I' : checks_sound s') by by apply sound_asked.
  assert (He : epochs s' = epochs s).
  { unfold s', requireRunning. fold key. by destruct (still_fresh key now s), (activeChecks s !! key). }
  destruct (still_fresh key now s) as [c|] eqn:Ef.
  - assert (Es : s' = with_asking rq (passed c) s) by (unfold s', requireRunning; fold key; by rewrite Ef).
    unfold still_fresh in Ef. destruct (readAt s !! key) as [[at_ c']|] eqn:E; [|done].
    destruct (_ <? _) eqn:El; simplify_eq. apply Z.ltb_lt in El.
    destruct (remembered_current _ I _ _ _ E) as [Hc (ck & H & Ha)].
    destruct (current_of_bot _ _ _ _ I Hf Hc) as (ck' & H' & ? & ? & ?). simplify_eq.
    exists c, ck. split_and!; rewrite ?Es; try done. left. split; [simpl; by rewrite lookup_insert_eq|]. split; [done|by exists at_].
  - assert (Hs : exists c, asking s' !! rq = Some (waits_for c) /\ activeChecks s' !! key = Some c).
    { unfold s', requireRunning. fold key. rewrite Ef. destruct (activeChecks s !! key) as [c|] eqn:Ea.
      - exists c. simpl. by rewrite lookup_insert_eq.
      - eexists. simpl. by rewrite !lookup_insert_eq. }
    destruct Hs as (c & Hw & Ha). destruct (registered_current _ I' _ _ Ha) as [Hc (ck & H & Hp)].
    destruct (current_of_bot _ _ _ _ I' Hf Hc) as (ck' & H' & ? & ? & ?). simplify_eq.
    exists c, ck'. split_and!; rewrite ?He; try done; [congruence|]. by right.
Qed.

(** The machine is asked once for all: of one bot at one machine and login,
    two checks that are under way and began since the bot was last forgotten
    are the same check, however requests and answers interleave. *)
Theorem one_check_is_under_way s c1 c2 ck1 ck2 :
  checks_reachable s -> checks s !! c1 = Some ck1 -> checks s !! c2 = Some ck2 ->
  ck_key ck1 = ck_key ck2 ->
  (forall answer, ck_phase ck1 <> after_finally answer) -> (forall answer, ck_phase ck2 <> after_finally answer) ->
  ck_epoch ck1 = epochs s (ck_instance ck1) -> ck_epoch ck2 = epochs s (ck_instance ck2) -> c1 = c2.
Proof.
  intros Hr H1 H2 Ek Hp1 Hp2 He1 He2. assert (I := reachable_sound _ Hr).
  destruct (unregistered_old _ I _ _ H1 Hp1) as [Ha1|?]; [|lia].
  destruct (unregistered_old _ I _ _ H2 Hp2) as [Ha2|?]; [|lia]. rewrite Ek in Ha1. congruence.
Qed.

(** Two requests of one bot, the bot forgotten after the first asked, and the
    first answer late. *)
Module Forgotten_meanwhile.
Definition login : ConnectionIdentity := MkIdentity "host" 22 "root" "key" "SHA256:x".
Definition asked_once : Checks := requireRunning 0 "bot" login 0 no_checks.
Definition forgotten : Checks := forgetActive "bot" asked_once.
Definition asked_again : Checks := requireRunning 1 "bot" login 10 forgotten.
Definition late_answer : Checks := check_answers 1 (Some true) 20 asked_again.

Lemma is_reachable : checks_reachable late_answer.
Proof.
  eapply rtc_l; [apply (check_step_event (ce_asked 0 "bot" login 0)); done|].
  eapply rtc_l; [apply (check_step_event (ce_forgotten "bot")); done|].
  eapply rtc_l; [apply (check_step_event (ce_asked 1 "bot" login 10)); done|].
  eapply rtc_l; [|apply rtc_refl].
  apply (check_step_event (ce_answered 1 (Some true) 20) asked_again). eexists. split; reflexivity.
Qed.
End Forgotten_meanwhile.

Lemma requests_rest_on_current_checks_witness :
  exists c ck, checks (requireRunning 2 "bot" Forgotten_meanwhile.login 30 Forgotten_meanwhile.late_answer) !! c = Some ck
    /\ ck_epoch ck = 1%nat /\ c = 2%nat.
Proof.
  destruct (requests_rest_on_current_checks _ 2 "bot" Forgotten_meanwhile.login 30
    Forgotten_meanwhile.is_reachable (conj eq_refl eq_refl)) as (c & ck & H & _ & _ & He & He' & [(Hp & _)|(Hw & _)]).
  - exfalso. vm_compute in Hp. discriminate.
  - exists c, ck. split; [exact H|]. split; [rewrite He; reflexivity|]. vm_compute in Hw. congruence.
Defined.
