(* ===== verification/LiveControl.v ===== *)
(** Reading and steering a client over its live channel.

    [packages/core/src/instance/live-control.ts] (how an exchange over http
    ends, the three calls of a tool, the tools), the live requests of
    [packages/core/src/instance/instance.controller.ts], and
    [packages/core/src/system/host-metrics.ts].  The http client is the argument
    [post]: what it does with an answer is [on_event].  Whether a bot runs is
    asked through [requireRunning], which [RunningChecks] models with its
    callers. *)

From S2P Require Import Prelude Tables Dates Calendar Due CommandScheduler TaskPlans TaskStore TaskScheduler Journal Observer Shell Control ClientSettings ClientConfig Access HostStore InstanceStore InstanceController InstanceRequests HostReader Payloads Mcp McpReadouts Reconcile.

Definition LIVE_CONTROL_TIMEOUT_MS : Z := 10000.
Definition LIVE_CONTROL_CLIENT : string := "open-mcc-manager".
Definition MAX_LIVE_RESPONSE_BYTES : Z := 1024 * 1024.

Definition READ_TOOLS : list string :=
  ["mcc_session_status"; "mcc_chat_history"; "mcc_recent_events"; "mcc_world_state"; "mcc_player_stats";
   "mcc_status_effects"; "mcc_loaded_bots"; "mcc_players_list"; "mcc_entities_list"; "mcc_inventory_snapshot"].

Definition WRITE_TOOLS : list string := ["mcc_inventory_drop_item"; "mcc_select_item"].

(** ** An exchange *)

Definition LiveChannelUnavailableError := named "LiveChannelUnavailableError".
Definition LiveResponseTooLargeError := named "LiveResponseTooLargeError".
Definition LiveControlUnauthorizedError := named "LiveControlUnauthorizedError".

(** [error instanceof LiveChannelUnavailableError] *)
Definition channel_unavailable (error : thrown) : bool :=
  instanceof "LiveChannelUnavailableError" error || instanceof "ForwardTimedOutError" error.

Definition unavailable (error : thrown) : thrown :=
  if interrupted error then error else LiveChannelUnavailableError (reason_of "" error).

(** What can happen to an exchange: its timer, an error of the socket, of the
    call or of the response, a chunk, and the end of the response. *)
Inductive HttpEvent :=
  | no_answer_in_time
  | failed (error : thrown)
  | chunk (data : string)
  | ended (status : option Z) (sessionId : option string).

(** [closes] counts the calls of [channel.close()]. *)
Record Exchange := MkExchange { received : Z; chunks : string; settled : option (result HttpReply); closes : nat }.

Definition opened_exchange : Exchange := MkExchange 0 EmptyString None 0.

Definition finish (outcome : result HttpReply) (x : Exchange) : Exchange :=
  match settled x with
  | Some _ => x
  | None => MkExchange (received x) (chunks x) (Some outcome) (S (closes x))
  end.

Definition too_large : thrown :=
  LiveResponseTooLargeError ("The client sent more than " +:+ decimal MAX_LIVE_RESPONSE_BYTES +:+ " bytes in one response").

(** The chunks are bytes; [utf8] is their text. *)
Section exchanges.
Variable utf8 : string -> string.

Definition on_event (x : Exchange) (event : HttpEvent) : Exchange :=
  match event with
  | no_answer_in_time => finish (Throw (LiveChannelUnavailableError "The client did not answer")) x
  | failed error => finish (Throw (unavailable error)) x
  | chunk data =>
      let n := received x + Z.of_nat (String.length data) in
      let x := MkExchange n (chunks x) (settled x) (closes x) in
      if MAX_LIVE_RESPONSE_BYTES <? n then finish (Throw too_large) x
      else MkExchange n (chunks x +:+ data) (settled x) (closes x)
  | ended status sessionId => finish (Ok (MkReply (default 0 status) (utf8 (chunks x)) sessionId)) x
  end.

Definition exchange (events : list HttpEvent) : Exchange := fold_left on_event events opened_exchange.
End exchanges.

(** ** Calling a tool *)

Record LiveRoute := MkRoute { lr_port : Z; lr_route : string }.
Record LiveEndpoint := MkEndpoint { le_hostId : string; le_at : LiveRoute; le_token : string }.

Section Calls.
Context {W : Type}.
Variable JSON_parse : string -> option Json.
Variable JSON_stringify : Json -> string.
Variable other_text : Num -> string.

(** [post(channels, endpoint, body, extraHeaders)] *)
Definition Post : Type := LiveRoute -> string -> list (string * string) -> M W HttpReply.

Variable post : Post.

Definition rpc (at_ : LiveRoute) (token : string) (payload : JsonRpcRequest) (sessionId : option string) : M W HttpReply :=
  post at_ (JSON_stringify (rpc_json payload))
    (("authorization", "Bearer " +:+ token)
       :: match sessionId with Some id => [(MCP_SESSION_HEADER, id)] | None => [] end).

Definition ensureAccepted (reply : HttpReply) : result unit :=
  if (http_status reply =? 401) || (http_status reply =? 403)
  then Throw (LiveControlUnauthorizedError "The client rejected this manager's token")
  else if 400 <=? http_status reply
       then Throw (LiveChannelUnavailableError ("The client answered " +:+ decimal (http_status reply)))
  else Ok tt.

Definition callTool {A} (at_ : LiveRoute) (token tool : string) (read : JsonRpcResponse -> result A)
    (args : ToolArguments) : M W A :=
  let* handshake := rpc at_ token (initializeRequest 1 LIVE_CONTROL_CLIENT) None in
  lift (ensureAccepted handshake) ;;;
  let* _ := lift (responseFrom JSON_parse other_text (http_body handshake)) in
  let session := http_sessionId handshake in
  rpc at_ token initializedNotification session ;;;
  let* reply := rpc at_ token (callToolRequest 2 tool args) session in
  lift (ensureAccepted reply) ;;;
  lift (let+ response := responseFrom JSON_parse other_text (http_body reply) in read response).

(** ** The tools *)

Definition LIVE_CHAT_MAX_LINES : Z := 200.
Definition LIVE_EVENT_MAX : Z := 50.
Definition LIVE_ENTITY_MAX : Z := 25.
Definition LIVE_ENTITY_RADIUS : Z := 32.

(** A tool of one of the two lists, with its arguments and its reader. *)
Record LiveTool (A : Type) := MkTool { tool_name : string; tool_args : ToolArguments; tool_read : JsonRpcResponse -> result A }.
Arguments MkTool {A}. Arguments tool_name {A}. Arguments tool_args {A}. Arguments tool_read {A}.

Definition readSessionStatus : LiveTool McpSessionStatus := MkTool "mcc_session_status" [] (sessionStatusFrom JSON_parse).

Definition readChatHistory (maxCount : Z) : LiveTool (list McpChatEntry) :=
  MkTool "mcc_chat_history" [("maxCount", int maxCount); ("includeJson", JBool true)] (chatHistoryFrom JSON_parse).

Definition readRecentEvents (afterId maxCount : Z) : LiveTool Mcp.McpEventPage :=
  MkTool "mcc_recent_events" [("afterId", int afterId); ("maxCount", int maxCount)] (recentEventsFrom JSON_parse other_text).

Definition readWorldState : LiveTool McpWorldState := MkTool "mcc_world_state" [] (worldStateFrom JSON_parse).

Definition readPlayerStats : LiveTool McpPlayerStats := MkTool "mcc_player_stats" [] (playerStatsFrom JSON_parse).

Definition readStatusEffects : LiveTool (list McpStatusEffect) :=
  MkTool "mcc_status_effects" [] (statusEffectsFrom JSON_parse).

Definition readLoadedBots : LiveTool (list McpLoadedBot) := MkTool "mcc_loaded_bots" [] (loadedBotsFrom JSON_parse).

Definition readPlayersList : LiveTool (list string) := MkTool "mcc_players_list" [] (playersListFrom JSON_parse).

Definition readEntities : LiveTool McpEntityList :=
  MkTool "mcc_entities_list" [("maxCount", int LIVE_ENTITY_MAX); ("radius", int LIVE_ENTITY_RADIUS)] (entityListFrom JSON_parse).

Definition readInventory : LiveTool McpInventory :=
  MkTool "mcc_inventory_snapshot" [("inventoryId", int PLAYER_INVENTORY_ID)] (inventoryFrom JSON_parse).

Definition drop_item (itemType : string) (count : Z) : LiveTool unit :=
  MkTool "mcc_inventory_drop_item"
    [("itemType", JString itemType); ("count", int count); ("inventoryId", int PLAYER_INVENTORY_ID)]
    (inventoryActionFrom JSON_parse).

Definition select_item (itemType : string) : LiveTool unit :=
  MkTool "mcc_select_item" [("itemType", JString itemType)] (inventoryActionFrom JSON_parse).

Definition call_tool {A} (at_ : LiveRoute) (token : string) (tool : LiveTool A) : M W A :=
  callTool at_ token (tool_name tool) (tool_read tool) (tool_args tool).
End Calls.
Arguments MkTool {A}. Arguments tool_name {A}. Arguments tool_args {A}. Arguments tool_read {A}.

(** ** The figures of a machine *)

Definition HOST_METRICS_TIMEOUT_MS : Z := 15000.

Definition HOST_METRICS_COMMAND : string :=
  join_with "; "
    ["cut -d' ' -f1 /proc/loadavg"; "awk '/MemTotal/{t=$2}/MemAvailable/{a=$2}END{print t, a}' /proc/meminfo";
     "cut -d' ' -f1 /proc/uptime"].

Record HostMetrics := MkMetrics {
  loadAverage1m : Num; memoryUsedMb : Z; memoryTotalMb : Z; diskUsedMb : Z; diskTotalMb : Z; uptimeSeconds : Z }.

(** [Math.round(n / 1024)] and [Math.floor(n)]. *)
Definition round_kb (n : Num) : Z := (2 * num n + 1024 * Zpos (den n)) / (2048 * Zpos (den n)).
Definition floor_of (n : Num) : Z := num n / Zpos (den n).
Definition num_minus (a b : Num) : Num := MkNum (num a * Zpos (den b) - num b * Zpos (den a)) (den a * den b).

(** The words of a line, [text.trim().split(/\s+/)]. *)
Definition words_of (text : string) : list string := split_white false (trim text).

Section metrics.
(** [Number(value)], when it is finite. *)
Variable finite_number : string -> option Num.

Definition number (value : option string) : Num :=
  match value with Some text => default (of_int 0) (finite_number text) | None => of_int 0 end.

Definition parseHostMetrics (stdout diskStdout : string) : HostMetrics :=
  let lines := split_on Mcp.newline (trim stdout) in
  let load := default EmptyString (lines !! 0%nat) in
  let memory := words_of (default EmptyString (lines !! 1%nat)) in
  let uptime := default EmptyString (lines !! 2%nat) in
  let total := number (memory !! 0%nat) in
  let available := number (memory !! 1%nat) in
  let disk := words_of diskStdout in
  MkMetrics (number (Some (trim load))) (round_kb (num_minus total available)) (round_kb total)
    (round_kb (number (Some (default EmptyString (disk !! 2%nat)))))
    (round_kb (number (Some (default EmptyString (disk !! 1%nat))))) (floor_of (number (Some (trim uptime)))).

Definition readHostMetrics {W} (reader : JournalLease W) : M W HostMetrics :=
  let* general := exec reader HOST_METRICS_COMMAND in
  if negb (exitCode general =? 0)
  then throw (HostRefusedError ("Could not read host metrics: " +:+ trim (stderr general)))
  else
    let* disk := exec reader ("df -Pk " +:+ INSTANCES_ROOT +:+ " 2>/dev/null | tail -n 1") in
    ret (parseHostMetrics (stdout general) (stdout disk)).
End metrics.

(** ** The requests *)

Section Requests.
Context {X : Type} (deps : InstanceControllerDeps X).
Abbreviation W := (World X).
Variable JSON_parse : string -> option Json.
Variable JSON_stringify : Json -> string.
Variable other_text : Num -> string.
Variable lease : string -> ConnectionIdentity -> Z -> ((ConnectOptions -> M W unit) -> M W unit) -> M W (JournalLease W).
Variable requireRunning : string -> ConnectionIdentity -> M W bool -> M W unit.
(** An exchange through a connection forwarded by a reader, or by a transport. *)
Variable post_reader : JournalLease W -> @Post W.
Variable post_transport : HostTransport W -> @Post W.
Variable finite_number : string -> option Num.

Definition activeCheckCommand (instanceId : string) : result string :=
  let+ unit := unitName instanceId in
  Ok (systemctl ("is-active --quiet " +:+ shellQuote (unit +:+ ".service"))).

Definition liveEndpointOf (scope : string) (instance : InstanceRow) : M W (option LiveEndpoint) :=
  match in_token instance with
  | None => ret None
  | Some token =>
      let* saved := query (fun t => InstanceRepository.latestConfig scope (in_id instance) (configs t)) in
      match saved with
      | None => ret None
      | Some row =>
          match storedDocument deps (in_id instance) row with
          | Throw _ => ret None
          | Ok config =>
              if negb (liveControlEnabled config) then ret None
              else
                let* opened := lift (open_sealed deps (ciphertext token) (keyId token)) in
                ret (Some (MkEndpoint (in_hostId instance) (MkRoute (in_liveControlPort instance) LIVE_CONTROL_ROUTE) opened))
          end
      end
  end.

Definition liveEndpointFor (ctx : ActorContext) (instanceId : string) : M W (option LiveEndpoint) :=
  let* instance := requireInstance ctx instanceId in liveEndpointOf (scopeOf ctx) instance.

Definition liveReadTargetFor (ctx : ActorContext) (instanceId : string) : M W (option (JournalLease W * LiveEndpoint)) :=
  let* endpoint := liveEndpointFor ctx instanceId in
  match endpoint with
  | None => ret None
  | Some endpoint =>
      let* opened := leaseTrustedHost deps lease (scopeOf ctx) (le_hostId endpoint) LIVE_CONTROL_TIMEOUT_MS setUpOnce in
      let reader := opened.1 in
      try_catch
        (requireRunning instanceId opened.2
           (let* command := lift (activeCheckCommand instanceId) in
            let* result := exec reader command in ret (exitCode result =? 0)))
        (fun error => release reader ;;; throw error) ;;;
      ret (Some (reader, endpoint))
  end.

Definition close_quietly (transport : HostTransport W) : M W unit := swallow (tr_close transport).

Definition liveWriteTargetFor (ctx : ActorContext) (instanceId : string) : M W (option (HostTransport W * LiveEndpoint)) :=
  let* endpoint := liveEndpointFor ctx instanceId in
  match endpoint with
  | None => ret None
  | Some endpoint =>
      let* opened := openHost deps (scopeOf ctx) (le_hostId endpoint) setUpOnce in
      let transport := opened.1 in
      try_catch
        (requireRunning instanceId opened.2
           (let* command := lift (activeCheckCommand instanceId) in
            let* result := tr_exec transport command LIVE_CONTROL_TIMEOUT_MS None in ret (exitCode result =? 0)))
        (fun error => close_quietly transport ;;; throw error) ;;;
      ret (Some (transport, endpoint))
  end.

(** The answer of a read; [None] when the channel is not there. *)
Definition readLive {A} (ctx : ActorContext) (instanceId : string) (tool : LiveTool A) : M W (option A) :=
  try_catch
    (let* target := liveReadTargetFor ctx instanceId in
     match target with
     | None => ret None
     | Some (reader, endpoint) =>
         try_finally
           (let* answer := call_tool JSON_parse JSON_stringify other_text (post_reader reader) (le_at endpoint)
                             (le_token endpoint) tool in
            ret (Some answer))
           (release reader)
     end)
    (fun error => if channel_unavailable error || interrupted error then ret None else throw error).

Definition read_as {A} (capability : Capability) (tool : LiveTool A) (ctx : ActorContext) (instanceId : string)
    : M W (option A) :=
  lift (requireCapabilityFor (ctx_role ctx) capability) ;;; readLive ctx instanceId tool.

Definition readLiveStatus := read_as instance_read (readSessionStatus JSON_parse).
Definition readLiveChat := read_as console_read (readChatHistory JSON_parse LIVE_CHAT_MAX_LINES).
Definition readLiveEvents := read_as console_read (readRecentEvents JSON_parse other_text 0 LIVE_EVENT_MAX).
Definition readLiveWorld := read_as instance_read (readWorldState JSON_parse).
Definition readLiveEntities := read_as instance_read (readEntities JSON_parse).
Definition readLiveInventory := read_as instance_read (readInventory JSON_parse).
Definition readLivePlayerStats := read_as instance_read (readPlayerStats JSON_parse).
Definition readLiveStatusEffects := read_as instance_read (readStatusEffects JSON_parse).
Definition readLiveBots := read_as instance_read (readLoadedBots JSON_parse).
Definition readLivePlayers := read_as instance_read (readPlayersList JSON_parse).

(** A tool that changes something, and the event in the audit log. *)
Definition write_live (ctx : ActorContext) (instanceId auditId action : string) (detail : list (string * string))
    (tool : LiveTool unit) : M W unit :=
  lift (requireCapabilityFor (ctx_role ctx) console_write) ;;;
  let* target := liveWriteTargetFor ctx instanceId in
  match target with
  | None => throw (LiveChannelUnavailableError "Live view is not open for this instance")
  | Some (transport, endpoint) =>
      try_finally
        (call_tool JSON_parse JSON_stringify other_text (post_transport transport) (le_at endpoint) (le_token endpoint) tool)
        (close_quietly transport) ;;;
      record_event (scopeOf ctx) auditId (by_actor ctx action instanceId detail)
  end.

Definition dropInventoryItem (ctx : ActorContext) (instanceId itemType : string) (count : Z) (auditId : string) : M W unit :=
  write_live ctx instanceId auditId "instance.inventory.drop" [("itemType", itemType); ("count", decimal count)]
    (drop_item JSON_parse itemType count).

Definition selectHeldItem (ctx : ActorContext) (instanceId itemType auditId : string) : M W unit :=
  write_live ctx instanceId auditId "instance.inventory.select" [("itemType", itemType)] (select_item JSON_parse itemType).

Definition hostMetrics (ctx : ActorContext) (hostId : string) : M W HostMetrics :=
  lift (requireCapabilityFor (ctx_role ctx) instance_read) ;;;
  let* reader := leaseHost deps lease (scopeOf ctx) hostId HOST_METRICS_TIMEOUT_MS setUpOnce in
  try_finally (readHostMetrics finite_number reader) (release reader).

(** ** What tasks wait for

    [nanoid] draws a number; [read_events] is [readRecentEvents] over a reader,
    the numbers of its events being whole. *)

Variable nanoid : M W string.
Variable other_date : string -> option Z.
Variable read_events : JournalLease W -> LiveEndpoint -> Z -> Z -> M W Observer.McpEventPage.
Variable finite_integer : string -> option Z.

Definition task_query {A} (f : TaskTables -> A) : M W A := withTransaction (query (fun t => f (task_tables t))).

Definition record_signal (scope : string) (values : SignalValues) : M W unit :=
  let* id := nanoid in on_tasks (TaskStore.recordSignal id scope values) ;;; ret tt.

Definition write_cursor (scope instanceId : string) (source : SignalSource) (cursor : string) (at_ : Z) : M W unit :=
  withTransaction (let* id := nanoid in on_tasks (TaskStore.writeSignalCursor id scope instanceId source cursor at_)).

Definition recordJoinSightings (scope instanceId : string) (joins : list JoinSighting) (at_ : Z) : M W unit :=
  for_each joins (fun join =>
    withTransaction (
      let* seen := query (fun t => TaskStore.hasJoinedAs scope instanceId (join_process join) (task_tables t)) in
      record_signal scope
        (MkSignalValues instanceId SignalLogin (join_process join +:+ ":" +:+ toISOString (join_occurredAt join))
           (Some (join_process join)) (negb seen) (join_occurredAt join) at_))).

Definition observeJoins (scope : string) (instance : InstanceRow) (at_ : Z) : M W unit :=
  let* cursor := task_query (TaskStore.readSignalCursor scope (in_id instance) journalSource) in
  drainJoinSightings
    (MkJoinDrain
       (fun from =>
          let* opened := leaseTrustedHost deps lease scope (in_hostId instance) JOURNAL_READ_TIMEOUT_MS runtime in
          try_finally (readJoinSightings other_date opened.1 (in_id instance) from) (release opened.1))
       (fun joins => recordJoinSightings scope (in_id instance) joins at_)
       (fun next => write_cursor scope (in_id instance) journalSource next at_))
    cursor.

Definition observeRespawns (scope : string) (instance : InstanceRow) (at_ : Z) : M W unit :=
  let* endpoint := liveEndpointOf scope instance in
  match endpoint with
  | None => ret tt
  | Some endpoint =>
      let* stored := task_query (TaskStore.readSignalCursor scope (in_id instance) liveEventsSource) in
      let cursor := let? text := stored in finite_integer text in
      let* opened := leaseTrustedHost deps lease scope (le_hostId endpoint) LIVE_CONTROL_TIMEOUT_MS setUpOnce in
      let* reading :=
        try_finally
          (let* page := read_events opened.1 endpoint (default 0 cursor) RESPAWN_PAGE_MAX in
           ret (respawnsFrom other_date page cursor at_))
          (release opened.1) in
      for_each (respawns reading) (fun respawn =>
        withTransaction (record_signal scope
          (MkSignalValues (in_id instance) SignalRespawn (decimal (respawn_eventId respawn)) None false
             (respawn_occurredAt respawn) at_))) ;;;
      write_cursor scope (in_id instance) liveEventsSource (decimal (respawn_cursor reading)) at_
  end.

Definition observeTaskSignals (scope instanceId : string) (needs : TaskSignalNeeds) (at_ : Z) : M W unit :=
  let* instance := query (fun t => InstanceRepository.findById scope instanceId (instances t)) in
  match instance with
  | Some instance =>
      if negb (in_status instance ≡? st_running) then ret tt
      else
        (if needs_join needs then observeJoins scope instance at_ else ret tt) ;;;
        if negb (needs_respawn needs) then ret tt
        else try_catch (observeRespawns scope instance at_)
               (fun error => if channel_unavailable error || interrupted error then ret tt else throw error)
  | None => ret tt
  end.
End Requests.
