(* ===== verification/LiveSafety.v ===== *)
(** What reading and steering a live client promises.

    An exchange over http ends once and closes its channel; a call of a tool is
    a conversation of three messages, of which the client carries out none
    unless it accepted the first; a read gives back the connection it leased
    and a write is recorded when the client carried it out.  The theorems are
    of [LiveControl] and the readers of [Mcp] and [McpReadouts]. *)

From stdpp Require Import list sorting.
From S2P Require Import Prelude Tables Dates Access Shell Control ClientSettings ClientConfig InstanceStore InstanceController InstanceRequests HostStore TaskStore InstanceSafety HostReader Observer Payloads Mcp McpReadouts Reconcile LiveControl.

(** ** An exchange *)

Section exchanges.
Variable utf8 : string -> string.
Abbreviation on_event := (on_event utf8).
Abbreviation exchange := (exchange utf8).

(** What came before the end. *)
Definition data_of (event : HttpEvent) : string := match event with chunk data => data | _ => EmptyString end.

Definition text_upto (events : list HttpEvent) : string := fold_right (fun event text => data_of event +:+ text) EmptyString events.

Record exchange_sound (events : list HttpEvent) (x : Exchange) : Prop := {
  closed_when_settled : closes x = match settled x with Some _ => 1%nat | None => 0%nat end;
  nothing_lost : settled x = None -> chunks x = text_upto events
    /\ received x = Z.of_nat (String.length (text_upto events)) /\ received x <= MAX_LIVE_RESPONSE_BYTES;
  answered_within : forall reply, settled x = Some (Ok reply) -> exists before after status sessionId,
    events = before ++ ended status sessionId :: after /\ reply = MkReply (default 0 status) (utf8 (text_upto before)) sessionId
    /\ Z.of_nat (String.length (text_upto before)) <= MAX_LIVE_RESPONSE_BYTES }.

Lemma text_upto_app a b : text_upto (a ++ b) = text_upto a +:+ text_upto b.
Proof. induction a as [|e a IH]; simpl; [done|]. by rewrite IH, string_app_assoc. Qed.

Lemma settled_stays x event outcome : settled x = Some outcome ->
  settled (on_event x event) = Some outcome /\ closes (on_event x event) = closes x.
Proof. intros H. destruct event; simpl; unfold finish; simpl; rewrite ?H; [done|done| |done]. destruct (_ <? _); simpl; by rewrite ?H. Qed.

Lemma exchange_step events x event : exchange_sound events x -> exchange_sound (events ++ [event]) (on_event x event).
Proof.
  intros [Hclose Hlost Hans]. destruct (settled x) as [outcome|] eqn:Es.
  - destruct (settled_stays x event outcome Es) as [E1 E2]. split; rewrite ?E1, ?E2; [done|done|].
    intros reply [= ->]. destruct (Hans _ eq_refl) as (before & after & status & sid & -> & H).
    exists before, (after ++ [event]), status, sid. by rewrite <- app_assoc.
  - destruct (Hlost eq_refl) as (Hc & Hr & Hb). destruct event; simpl; unfold finish; simpl; rewrite ?Es.
    + split; simpl; [by rewrite Hclose|done|done].
    + split; simpl; [by rewrite Hclose|done|done].
    + destruct (Z.ltb_spec MAX_LIVE_RESPONSE_BYTES (received x + Z.of_nat (String.length data))) as [Hlt|Hle].
      * split; simpl; [by rewrite Hclose|done|done].
      * split; simpl; rewrite ?Es; [done| |done]. intros _. rewrite text_upto_app. simpl. rewrite string_app_nil_r.
        rewrite string_length_app, Hc, Hr. split; [done|]. split; [lia|]. rewrite <- Hr. done.
    + split; simpl; [by rewrite Hclose|done|]. intros reply [= <-]. exists events, [], status, sessionId.
      rewrite Hc. split; [done|]. split; [done|]. lia.
Qed.

Lemma exchange_is_sound events : exchange_sound events (exchange events).
Proof.
  induction events as [|event events IH] using rev_ind.
  - split; simpl; [done|done|done].
  - unfold exchange, LiveControl.exchange in *. rewrite fold_left_app. by apply exchange_step.
Qed.

(** C21: an exchange is settled once and closes its channel exactly then, in
    whatever order its timer, errors, chunks and the end of the response come.
    When it succeeds its answer is the text of every chunk that came before the
    end, with the status the response ended with, and never of more than
    [MAX_LIVE_RESPONSE_BYTES] bytes; once it is settled nothing changes the
    answer. *)
Theorem exchanges_are_bounded_and_closed_once events :
  let x := exchange events in
  closes x = (if settled x then 1 else 0)%nat
  /\ (forall reply, settled x = Some (Ok reply) -> exists before after status sessionId,
       events = before ++ ended status sessionId :: after
       /\ reply = MkReply (default 0 status) (utf8 (text_upto before)) sessionId
       /\ Z.of_nat (String.length (text_upto before)) <= 1048576)
  /\ (forall more, settled x <> None -> settled (exchange (events ++ more)) = settled x)
  /\ (forall event, In event events -> match event with chunk _ => False | _ => True end -> settled x <> None).
Proof.
  intros x. destruct (exchange_is_sound events) as [H1 H2 H3]. fold x in H1, H2, H3.
  assert (Hstay : forall more x0, settled x0 <> None -> settled (fold_left on_event more x0) = settled x0).
  { induction more as [|e more IH]; intros x0 Hx; simpl; [done|]. destruct (settled x0) as [o|] eqn:E; [|done].
    destruct (settled_stays x0 e o E) as [E1 _]. rewrite IH; rewrite E1; done. }
  split; [rewrite H1; by destruct (settled x)|]. split; [done|]. split.
  - intros more Hx. unfold x, exchange, LiveControl.exchange in *. rewrite fold_left_app. by apply Hstay.
  - intros event (before & after & ->)%in_split Hev. unfold x, exchange, LiveControl.exchange.
    rewrite fold_left_app. simpl. set (y := fold_left on_event before opened_exchange).
    assert (Hy : settled (on_event y event) <> None).
    { destruct event; simpl; unfold finish; [| |done|]; destruct (settled y) eqn:E; simpl; rewrite ?E; done. }
    rewrite (Hstay after _ Hy). done.
Qed.
End exchanges.

(** ** A conversation *)

(** A message to a client and what came of it. *)
Record Said := MkSaid { said_body : string; said_headers : list (string * string); said_reply : result HttpReply }.

Section Conversation.
Context {W A : Type}.
Variable JSON_parse : string -> option Json.
Variable JSON_stringify : Json -> string.
Variable other_text : Num -> string.

(** The same client, with what was said to it written down. *)
Definition noted (post : @Post W) : @Post (W * list Said) := fun at_ body headers s =>
  let '(reply, w) := post at_ body headers s.1 in (reply, (w, s.2 ++ [MkSaid body headers reply])).

Variable post : @Post W.
Variables (at_ : LiveRoute) (token tool : string) (read : JsonRpcResponse -> result A) (args : ToolArguments).

Definition call (w : W) : result A * (W * list Said) :=
  callTool JSON_parse JSON_stringify other_text (noted post) at_ token tool read args (w, []).

Definition bearer : string * string := ("authorization", "Bearer " +:+ token).

Definition in_session (session : option string) : list (string * string) :=
  bearer :: match session with Some id => [(MCP_SESSION_HEADER, id)] | None => [] end.

(** What a call may say, once the client answered [first] to the first
    message. *)
Definition messages (session : option string) : list (string * list (string * string)) :=
  [(JSON_stringify (rpc_json (initializeRequest 1 LIVE_CONTROL_CLIENT)), [bearer]);
   (JSON_stringify (rpc_json initializedNotification), in_session session);
   (JSON_stringify (rpc_json (callToolRequest 2 tool args)), in_session session)].

Definition message_of (s : Said) : string * list (string * string) := (said_body s, said_headers s).

(** The client took the message and answered in its protocol. *)
Definition accepted (reply : HttpReply) (response : JsonRpcResponse) : Prop :=
  http_status reply < 400 /\ responseFrom JSON_parse other_text (http_body reply) = Ok response.

Lemma ensureAccepted_ok reply : ensureAccepted reply = Ok tt <-> http_status reply < 400.
Proof.
  unfold ensureAccepted.
  destruct (Z.eqb_spec (http_status reply) 401), (Z.eqb_spec (http_status reply) 403), (Z.leb_spec 400 (http_status reply));
    simpl; split; intros; try done; lia.
Qed.

(** C20: whatever a client answers, a call of a tool says to it the first one,
    two or three messages of one conversation, each with the token of the bot
    and, after the first, in the session the client opened.  The tool is asked
    for at most once, as the last message, and only when the client accepted
    the first message and answered it in its protocol; the call returns only
    what was read of an accepted answer to that last message; and a client that
    rejects the token is asked nothing more. *)
Theorem a_call_is_one_conversation w :
  let outcome := (call w).1 in
  let said := (call w).2.2 in
  exists first, hd_error said = Some first
  /\ (exists n, (1 <= n <= 3)%nat
        /\ map message_of said
           = take n (messages (match said_reply first with Ok reply => http_sessionId reply | Throw _ => None end)))
  /\ (length said = 3%nat -> exists reply response, said_reply first = Ok reply /\ accepted reply response)
  /\ (forall a, outcome = Ok a -> length said = 3%nat /\ exists asked reply response,
        last said = Some asked /\ said_reply asked = Ok reply /\ accepted reply response /\ read response = Ok a)
  /\ (forall reply, said_reply first = Ok reply -> http_status reply = 401 \/ http_status reply = 403 ->
        length said = 1%nat
        /\ outcome = Throw (LiveControlUnauthorizedError "The client rejected this manager's token")).
Proof.
  unfold call, callTool, rpc, noted, bind, lift. cbn [fst snd app].
  destruct (post at_ _ _ w) as [[handshake|e] w1]; cbn [fst snd app].
  2: { eexists. split; [reflexivity|]. split; [exists 1%nat; split; [lia|reflexivity]|]. split_and!; done. }
  destruct (ensureAccepted handshake) as [[]|e] eqn:Ea; cbn [fst snd app].
  2: { eexists. split; [reflexivity|]. split; [exists 1%nat; split; [lia|reflexivity]|]. split_and!; try done.
       simpl. intros reply [= <-] Hs. split; [done|]. unfold ensureAccepted in Ea.
       by destruct Hs as [Hs|Hs]; rewrite Hs in Ea; injection Ea as <-. }
  assert (Hs := proj1 (ensureAccepted_ok _) Ea).
  destruct (responseFrom JSON_parse other_text (http_body handshake)) as [opening|e] eqn:Er; cbn [fst snd app].
  2: { eexists. split; [reflexivity|]. split; [exists 1%nat; split; [lia|reflexivity]|]. split_and!; try done.
       simpl. intros reply [= <-]. lia. }
  assert (Hw : exists reply response, Ok handshake = Ok reply /\ accepted reply response).
  { exists handshake, opening. done. }
  destruct (post at_ _ _ w1) as [[notified|e] w2]; cbn [fst snd app].
  2: { eexists. split; [reflexivity|]. split; [exists 2%nat; split; [lia|reflexivity]|]. split_and!; try done.
       simpl. intros reply [= <-]. lia. }
  destruct (post at_ _ _ w2) as [[reply|e] w3]; cbn [fst snd app].
  2: { eexists. split; [reflexivity|]. split; [exists 3%nat; split; [lia|reflexivity]|]. split_and!; try done.
       simpl. intros reply [= <-]. lia. }
  destruct (ensureAccepted reply) as [[]|e] eqn:Eb; cbn [fst snd app].
  2: { eexists. split; [reflexivity|]. split; [exists 3%nat; split; [lia|reflexivity]|]. split_and!; try done.
       simpl. intros reply' [= <-]. lia. }
  eexists. split; [reflexivity|]. split; [exists 3%nat; split; [lia|reflexivity]|]. split; [done|]. split.
  - intros a Ho. split; [reflexivity|].
    destruct (responseFrom JSON_parse other_text (http_body reply)) as [response|e] eqn:Ec; [|done].
    eexists _, reply, response. split; [reflexivity|]. split; [reflexivity|]. split; [|exact Ho].
    split; [by apply ensureAccepted_ok|done].
  - simpl. intros reply' [= <-]. lia.
Qed.
End Conversation.

(** ** What the readers let through *)

Definition within (low high : Z) (n : Num) : Prop := low * Zpos (den n) <= num n <= high * Zpos (den n).
Definition whole_within (low high : Z) (n : Num) : Prop := is_int n = true /\ within low high n.

Lemma num_le_spec a b : num_le a b = true <-> num a * Zpos (den b) <= num b * Zpos (den a).
Proof. apply Z.leb_le. Qed.

Lemma z_between_spec low high v n : z_between low high v = Some n -> within low high n.
Proof.
  unfold z_between, z_refine. destruct (z_number v) as [m|]; [|done]. destruct (_ && _) eqn:E; [|done]. intros [= <-].
  apply andb_prop in E as [H1 H2]. rewrite num_le_spec in *. simpl in *. unfold within. lia.
Qed.

Lemma z_int_between_spec low high v n : z_int_between low high v = Some n -> whole_within low high n.
Proof.
  unfold z_int_between, z_refine. destruct (z_number v) as [m|]; [|done]. destruct (_ && _) eqn:E; [|done]. intros [= <-].
  apply andb_prop in E as [[H0 H1]%andb_prop H2]. rewrite num_le_spec in *. simpl in *. unfold whole_within, within. split; [done|lia].
Qed.

Lemma need_some {A} key (schema : Schema A) fields a : need key schema fields = Some a -> exists v, schema v = Some a.
Proof. unfold need. destruct (field key fields) as [v|]; [by exists v|done]. Qed.

(** A value that was read came through its schema. *)
Lemma read_with_some {A} JSON_parse (schema : Schema A) what response a :
  read_with JSON_parse schema what response = Ok a -> exists v, schema v = Some a.
Proof.
  unfold read_with. destruct (toolResultOf JSON_parse response) as [[v|]|e]; simpl; try done.
  destruct (schema v) eqn:E; [|done]. intros [= ->]. by exists v.
Qed.

Lemma all_of_some {A} (schema : Schema A) items l : all_of schema items = Some l -> Forall (fun a => exists v, schema v = Some a) l.
Proof.
  revert l. induction items as [|item items IH]; simpl; intros l; [by intros [= <-]|].
  destruct (schema item) as [a|] eqn:E; [|done]. destruct (all_of schema items) as [l'|]; [|done]. intros [= <-].
  constructor; [by exists item|by apply IH].
Qed.

Lemma z_array_max_some {A} n (schema : Schema A) v l : z_array_max n schema v = Some l ->
  (length l <= n)%nat /\ Forall (fun a => exists v, schema v = Some a) l.
Proof.
  unfold z_array_max, z_refine, z_array. destruct v; try done. destruct (all_of schema _) as [l'|] eqn:E; [|done].
  destruct (_ <=? _)%nat eqn:El; [|done]. intros [= <-]. apply Nat.leb_le in El. split; [done|by eapply all_of_some].
Qed.

(** The fields of an object that was read. *)
Ltac read_fields :=
  repeat match goal with
  | H : z_object _ ?v = Some _ |- _ => unfold z_object in H; destruct v; try done
  | H : (let? x := need ?k ?s ?f in _) = Some _ |- _ =>
      let n := fresh "n" in let E := fresh "E" in destruct (need k s f) as [n|] eqn:E; [|done]; apply need_some in E as [? E]
  end.

Lemma counted_some {A} key (schema : Schema (list A)) v l : counted key schema v = Some l -> exists v', schema v' = Some l.
Proof. unfold counted. intros H. read_fields. destruct (num_eq _ _); [|done]. injection H as <-. by eexists. Qed.

Record stats_in_range (s : McpPlayerStats) : Prop := {
  range_health : within 0 1024 (st_health s);
  range_food : whole_within 0 255 (st_foodLevel s);
  range_level : whole_within 0 1000000 (st_level s);
  range_experience : whole_within 0 2147483647 (st_totalExperience s);
  range_gamemode : whole_within 0 3 (st_gamemode s);
  range_slot : whole_within 1 9 (st_currentSlot s);
  range_pitch : within (-90) 90 (st_pitch s);
  range_tps : 0 < num (st_tps s) /\ within 0 20 (st_tps s) }.

Record effect_in_range (e : McpStatusEffect) : Prop := {
  range_id : ef_id e ∈ EFFECT_IDS;
  range_amplifier : whole_within 0 255 (ef_amplifier e);
  range_remaining : if ef_isInfinite e then num (ef_remainingSeconds e) = - Zpos (den (ef_remainingSeconds e))
                    else whole_within 0 107374182 (ef_remainingSeconds e) }.

Lemma remaining_some v n : remainingSeconds v = Some n ->
  infinite_seconds n = true \/ (infinite_seconds n = false /\ whole_within 0 107374182 n).
Proof.
  unfold remainingSeconds. unfold z_refine at 1. destruct (z_number v) as [m|] eqn:Ev.
  - destruct (infinite_seconds m) eqn:Ei; [intros [= <-]; by left|]. intros H. right.
    assert (n = m) as ->. { unfold z_int_between, z_refine in H. rewrite Ev in H. by destruct (_ && _); simplify_eq. }
    split; [done|by eapply z_int_between_spec].
  - intros H. unfold z_int_between, z_refine in H. by rewrite Ev in H.
Qed.

Lemma effect_some v e : rawStatusEffect v = Some e -> effect_in_range e.
Proof.
  unfold rawStatusEffect, z_refine. destruct (z_object _ v) as [e'|] eqn:E; [|done].
  destruct (Bool.eqb _ _) eqn:Ei; [|done]. intros [= ->]. apply Bool.eqb_prop in Ei. read_fields.
  injection E as <-. simpl in Ei. subst. split; simpl.
  - unfold z_enum in E0. destruct (z_string _) as [s|]; [|done]. case_bool_decide; [by simplify_eq|done].
  - by eapply z_int_between_spec.
  - apply remaining_some in E2 as [Hi|[Hf H]]; [|by rewrite Hf]. rewrite Hi. unfold infinite_seconds, num_eq in Hi.
    apply Z.eqb_eq in Hi. simpl in Hi. unfold INFINITE_EFFECT_SECONDS in Hi. lia.
Qed.

(** Whatever a client reports of its player is within what the game allows
    or is not read at all: health, food, level, experience, game mode, slot,
    pitch and ticks per second in their ranges, whole where the game counts; at
    most 32 status effects, each one the game has, with an amplifier of a byte
    and a time left that is infinite exactly when the client says so. *)
Theorem readouts_are_in_range JSON_parse response :
  (forall s, playerStatsFrom JSON_parse response = Ok s -> stats_in_range s)
  /\ (forall l, statusEffectsFrom JSON_parse response = Ok l -> (length l <= 32)%nat /\ Forall effect_in_range l).
Proof.
  split.
  - intros s [v H]%read_with_some. unfold normalisedPlayerStats in H. read_fields. injection H as <-.
    split; simpl; try by eapply z_int_between_spec. 1,2: by eapply z_between_spec.
    clear - E7. unfold z_refine in E7. destruct (z_number _) as [m|]; [|done]. destruct (_ && _) eqn:Em; [|done].
    injection E7 as <-. apply andb_prop in Em as [H1 H2]. unfold num_lt in H1. apply Z.ltb_lt in H1. simpl in H1.
    rewrite num_le_spec in H2. simpl in H2. unfold within, TPS_MAXIMUM in *. lia.
  - intros l [v H]%read_with_some. unfold rawStatusEffects in H. apply counted_some in H as [v' H].
    apply z_array_max_some in H as [Hn H]. split; [done|]. eapply Forall_impl; [exact H|].
    intros e [u Hu]. by eapply effect_some.
Qed.

(** ** Event streams *)

Definition frame (payload : string) : string :=
  "event: message" +:+ String Mcp.newline ("data: " +:+ payload).

Definition gap : string := String Mcp.newline (String Mcp.newline EmptyString).

(** What a server that streams its answers sends. *)
Definition event_stream (payloads : list string) : string :=
  fold_right (fun payload rest => frame payload +:+ gap +:+ rest) EmptyString payloads.

(** A payload on one line with nothing to trim. *)
Definition one_line (payload : string) : Prop :=
  free_of Mcp.newline payload = true /\ HostCheck.bare payload /\ HostCheck.bare (String.rev payload) /\ payload <> EmptyString.

Lemma free_cons c x s : free_of c (String x s) = true <-> x <> c /\ free_of c s = true.
Proof. change (free_of c (String x s)) with (negb (x ≡? c) && free_of c s). by rewrite andb_true_iff, negb_true_iff, bool_decide_eq_false. Qed.

Lemma split_blank_char c s : c <> Mcp.newline -> s <> EmptyString ->
  split_blank false (String c s)
  = match split_blank false s with piece :: pieces => String c piece :: pieces | [] => [String c EmptyString] end.
Proof.
  intros Hc Hs. destruct s as [|d s]; [done|]. remember (String d s) as t eqn:Et. cbn [split_blank andb].
  rewrite Et at 1. by rewrite (bool_decide_eq_false_2 _ Hc).
Qed.

Lemma split_blank_break c rest : c <> Mcp.newline ->
  split_blank false (String Mcp.newline (String c rest))
  = match split_blank false (String c rest) with
    | piece :: pieces => String Mcp.newline piece :: pieces
    | [] => [String Mcp.newline EmptyString]
    end.
Proof.
  intros Hc. remember (String c rest) as t eqn:Et. cbn [split_blank andb]. rewrite Et at 1.
  by rewrite (bool_decide_eq_false_2 _ Hc).
Qed.

Lemma app_not_empty a c s : a +:+ String c s <> EmptyString.
Proof. by destruct a. Qed.

Lemma split_blank_gap a rest : free_of Mcp.newline a = true -> split_blank false (a +:+ gap +:+ rest) = a :: split_blank true rest.
Proof.
  induction a as [|c a IH]; intros Ha; [reflexivity|]. apply free_cons in Ha as [Hc Ha].
  rewrite string_app_cons, split_blank_char; [by rewrite (IH Ha)|done|apply app_not_empty].
Qed.

Lemma split_blank_line a c rest : free_of Mcp.newline a = true -> c <> Mcp.newline ->
  split_blank false (a +:+ String Mcp.newline (String c rest))
  = match split_blank false (String c rest) with
    | piece :: pieces => (a +:+ String Mcp.newline piece) :: pieces
    | [] => [a +:+ String Mcp.newline EmptyString]
    end.
Proof.
  intros Ha Hc. induction a as [|x a IH]; [by apply split_blank_break|].
  apply free_cons in Ha as [Hx Ha]. rewrite string_app_cons, split_blank_char; [|done|apply app_not_empty].
  rewrite (IH Ha). by destruct (split_blank false (String c rest)).
Qed.

Lemma split_blank_free a : free_of Mcp.newline a = true -> split_blank false a = [a].
Proof.
  induction a as [|c a IH]; intros Ha; [done|]. apply free_cons in Ha as [Hc Ha].
  destruct a as [|d a]; [done|]. by rewrite split_blank_char, (IH Ha).
Qed.

Lemma split_blank_skip s : match s with String c _ => c <> Mcp.newline | EmptyString => True end ->
  split_blank true s = split_blank false s.
Proof. destruct s as [|c s]; [done|]. intros Hc. cbn [split_blank andb]. by rewrite (bool_decide_eq_false_2 _ Hc). Qed.

(** The stream without its last gap. *)
Definition blocks (payloads : list string) : string := join_with gap (map frame payloads).

Lemma split_blank_two a d x rest : free_of Mcp.newline a = true -> free_of Mcp.newline (String d x) = true ->
  let block := a +:+ String Mcp.newline (String d x) in
  split_blank false (block +:+ gap +:+ rest) = block :: split_blank true rest /\ split_blank false block = [block].
Proof.
  intros Ha Hx block. assert (Hd := proj1 (proj1 (free_cons _ _ _) Hx)). unfold block. split.
  - rewrite string_app_assoc, !string_app_cons, split_blank_line by done.
    by rewrite <- string_app_cons, split_blank_gap.
  - by rewrite split_blank_line, split_blank_free.
Qed.

Lemma split_blank_frame payload rest : one_line payload ->
  split_blank false (frame payload +:+ gap +:+ rest) = frame payload :: split_blank true rest
  /\ split_blank false (frame payload) = [frame payload].
Proof. intros (Hf & _). by apply (split_blank_two "event: message" "d" ("ata: " +:+ payload)). Qed.

Lemma split_blocks payloads : Forall one_line payloads -> payloads <> [] ->
  split_blank false (blocks payloads) = map frame payloads.
Proof.
  intros H. induction H as [|p payloads Hp H IH]; [done|]. intros _. destruct payloads as [|q payloads].
  - by apply (split_blank_frame p EmptyString).
  - change (blocks (p :: q :: payloads)) with (frame p +:+ gap +:+ blocks (q :: payloads)).
    destruct (split_blank_frame p (blocks (q :: payloads)) Hp) as [-> _]. rewrite split_blank_skip.
    + by rewrite IH.
    + by destruct payloads.
Qed.

(** Trimming the stream takes its last gap away. *)
Lemma trim_gap s : HostCheck.bare s -> HostCheck.bare (String.rev s) -> trim (s +:+ gap) = s.
Proof.
  intros Hs Hr. unfold trim. assert (E : trim_start (s +:+ gap) = s +:+ gap \/ s = EmptyString).
  { destruct s as [|c s]; [by right|]. left. unfold HostCheck.bare in Hs. rewrite string_app_cons. simpl in *.
    destruct (is_white c); [|done]. exfalso. destruct (HostCheck.trim_start_suffix s) as [front Hf]. rewrite Hs in Hf.
    apply (f_equal String.length) in Hf. rewrite string_length_app in Hf. simpl in Hf. lia. }
  destruct E as [E|E]; [|by subst]. rewrite E, HostCheck.rev_concat.
  change (trim_start (String.rev gap +:+ String.rev s)) with (trim_start (String.rev s)).
  rewrite Hr. apply HostCheck.rev_rev.
Qed.

Lemma bare_app c s t : HostCheck.bare (String c s) -> HostCheck.bare (String c s +:+ t).
Proof.
  unfold HostCheck.bare. rewrite string_app_cons. simpl. destruct (is_white c); [|done]. intros H. exfalso.
  destruct (HostCheck.trim_start_suffix s) as [front Hf]. rewrite H in Hf.
  apply (f_equal String.length) in Hf. rewrite string_length_app in Hf. simpl in Hf. lia.
Qed.

Lemma bare_rev_app s t : HostCheck.bare (String.rev t) -> t <> EmptyString -> HostCheck.bare (String.rev (s +:+ t)).
Proof.
  intros Ht Hne. rewrite HostCheck.rev_concat. destruct (String.rev t) as [|c r] eqn:E; [|by apply bare_app].
  exfalso. apply Hne. by rewrite <- (HostCheck.rev_rev t), E.
Qed.

Lemma frame_bare payload : one_line payload -> HostCheck.bare (String.rev (frame payload)).
Proof.
  intros (_ & _ & Hr & Hne). unfold frame.
  change ("event: message" +:+ String Mcp.newline ("data: " +:+ payload))
    with (("event: message" +:+ String Mcp.newline "data: ") +:+ payload). by apply bare_rev_app.
Qed.

Lemma blocks_bare payloads : Forall one_line payloads -> HostCheck.bare (String.rev (blocks payloads)).
Proof.
  intros H. induction H as [|p payloads Hp H IH]; [done|]. destruct payloads as [|q payloads]; [by apply frame_bare|].
  change (blocks (p :: q :: payloads)) with (frame p +:+ gap +:+ blocks (q :: payloads)).
  rewrite <- string_app_assoc. apply bare_rev_app; [done|by destruct payloads].
Qed.

Lemma stream_blocks p payloads : event_stream (p :: payloads) = blocks (p :: payloads) +:+ gap.
Proof.
  revert p. induction payloads as [|q payloads IH]; intros p; [done|].
  change (event_stream (p :: q :: payloads)) with (frame p +:+ gap +:+ event_stream (q :: payloads)).
  rewrite IH. change (blocks (p :: q :: payloads)) with (frame p +:+ gap +:+ blocks (q :: payloads)).
  by rewrite !string_app_assoc.
Qed.

Lemma payload_of_frame payload : one_line payload -> payload_of (frame payload) = payload.
Proof.
  intros (Hf & Hb & _). unfold payload_of, frame. rewrite split_app by done. rewrite split_free by done. exact Hb.
Qed.

Lemma blocks_start p payloads :
  HostCheck.bare (blocks (p :: payloads)) /\ includes (String Mcp.newline "data:") (blocks (p :: payloads)) = true
  /\ blocks (p :: payloads) <> EmptyString.
Proof.
  assert (Hf : forall t, HostCheck.bare (frame p +:+ t) /\ includes (String Mcp.newline "data:") (frame p +:+ t) = true
    /\ frame p +:+ t <> EmptyString) by done.
  destruct payloads as [|q payloads]; [|apply (Hf (gap +:+ blocks (q :: payloads)))].
  specialize (Hf EmptyString). by rewrite string_app_nil_r in Hf.
Qed.

Lemma frames_of_stream payloads : Forall one_line payloads -> dataFramesOf (event_stream payloads) = payloads.
Proof.
  intros H. destruct payloads as [|p payloads]; [done|]. unfold dataFramesOf. rewrite stream_blocks.
  destruct (blocks_start p payloads) as (Hb & Hd & Hne). rewrite trim_gap by (done || by apply blocks_bare).
  rewrite Hd, bool_decide_eq_false_2 by done. cbn [negb andb].
  rewrite split_blocks by done. rewrite map_map.
  rewrite (map_ext_in _ id), map_id.
  - apply filter_all. intros q Hq. rewrite List.Forall_forall in H. apply H in Hq as (_ & _ & _ & Hq).
    by rewrite bool_decide_eq_false_2.
  - intros q Hq. rewrite List.Forall_forall in H. by apply payload_of_frame, H.
Qed.

Lemma frames_of_plain payload : one_line payload -> startsWith "data:" payload = false -> dataFramesOf payload = [payload].
Proof.
  intros (Hf & Hb & Hr & Hne) Hs. unfold dataFramesOf. assert (Ht : trim payload = payload).
  { unfold trim. by rewrite Hb, Hr, HostCheck.rev_rev. }
  rewrite Ht, bool_decide_eq_false_2 by done.
  assert (Hi : includes (String Mcp.newline "data:") payload = false).
  { clear - Hf. induction payload as [|c s IH]; [done|]. apply free_cons in Hf as [Hc Hf]. cbn [includes String.prefix].
    destruct (ascii_dec Mcp.newline c); [congruence|]. by apply IH. }
  by rewrite Hi, Hs.
Qed.

(** an answer reads the same whether the client sends it as it is or in a
    stream of events after others.  Every payload of a stream, when it is on
    one line and has no white space around it, comes out as it went in and in
    order, and of several messages the last is the answer. *)
Theorem streamed_answers_read_as_plain_ones JSON_parse other_text before text :
  Forall one_line (before ++ [String "{" text]) ->
  dataFramesOf (event_stream (before ++ [String "{" text])) = before ++ [String "{" text]
  /\ responseFrom JSON_parse other_text (event_stream (before ++ [String "{" text]))
     = responseFrom JSON_parse other_text (String "{" text).
Proof.
  intros H. rewrite (frames_of_stream _ H). split; [done|]. unfold responseFrom. rewrite (frames_of_stream _ H).
  rewrite Forall_app in H. destruct H as [_ H%Forall_inv]. rewrite frames_of_plain by done. by rewrite last_snoc.
Qed.

Lemma streamed_answers_read_as_plain_ones_witness :
  responseFrom (fun text => if text ≡? "{1}" then Some (JObject [("jsonrpc", JString "2.0"); ("result", JNull)]) else None)
    (fun _ => EmptyString) (event_stream ["{0}"; "{1}"]) = Ok (MkResponse (Some JNull)).
Proof.
  rewrite (proj2 (streamed_answers_read_as_plain_ones _ _ ["{0}"] "1}"
    ltac:(repeat constructor; repeat split; discriminate))). reflexivity.
Defined.

(** ** Reads give back what they leased *)

Section Leases.
Context {X : Type} (deps : InstanceControllerDeps X).
Abbreviation W := (World X).
Variable JSON_parse : string -> option Json.
Variable JSON_stringify : Json -> string.
Variable other_text : Num -> string.
Variable lease : string -> ConnectionIdentity -> Z -> ((ConnectOptions -> M W unit) -> M W unit) -> M W (JournalLease W).
Variable requireRunning : string -> ConnectionIdentity -> M W bool -> M W unit.
Variable post_reader : JournalLease W -> @Post W.

(** How many leases of the pool are open, and which readers it hands out. *)
Variable open_leases : X -> nat.
Variable handed : JournalLease W -> Prop.

Definition held (w : W) : nat := open_leases (elsewhere w).

(** A lease opens one, giving it back closes one, and nothing done through a
    reader opens or closes any. *)
Class LeasesCounted : Prop := {
  lease_counted : forall scope hostId identity deadlineMs w,
    match lease (hostReadKey scope hostId) identity deadlineMs (open_for deps scope hostId identity) w with
    | (Ok reader, w') => handed reader /\ held w' = S (held w)
    | (Throw _, w') => held w' = held w
    end;
  release_counted : forall reader w, handed reader -> held (release reader w).2 = Nat.pred (held w);
  exec_counted : forall reader command, handed reader -> keeps held (exec reader command);
  post_counted : forall reader at_ body headers, handed reader -> keeps held (post_reader reader at_ body headers);
  asking_counted : forall instanceId identity question,
    keeps held question -> keeps held (requireRunning instanceId identity question) }.

Context `{Counted : !LeasesCounted}.

Lemma counted_run n {A} (m : M W A) : keeps held m -> triple (fun w => held w = n) m (fun _ w => held w = n) (fun _ w => held w = n).
Proof. intros H. exact (preserves_keeps held (fun k => k = n) m H). Qed.

Lemma counted_query n {A} (f : FleetTables -> A) E :
  triple (fun w => held w = n) (query f) (fun _ w => held w = n) E.
Proof. by intros w Hw. Qed.

Lemma counted_release n reader E : handed reader -> (forall e w, held w = n -> E e w) ->
  triple (fun w => held w = S n) (release reader) (fun _ w => held w = n) E.
Proof.
  intros Hh HE w Hw. assert (H := release_counted reader w Hh). destruct (release reader w) as [[u|e] w'] eqn:Er; simpl in H.
  - lia.
  - apply HE. lia.
Qed.

Lemma counted_given_back n reader (kind : HostReadLease W) : handed reader -> (forall r h i, kind <> leased r h i) ->
  triple (fun w => held w = S n) (release reader ;;; ret kind)
    (fun got w => match got with leased r _ _ => handed r /\ held w = S n | _ => held w = n end) (fun _ w => held w = n).
Proof.
  intros Hh Hk. eapply triple_bind; [by apply counted_release|]. intros u w Hw. simpl. by destruct kind; [edestruct Hk| | |].
Qed.

Lemma counted_lease n scope hostId deadlineMs need :
  triple (fun w => held w = n) (leaseHostReader deps lease scope hostId deadlineMs need)
    (fun got w => match got with leased r _ _ => handed r /\ held w = S n | _ => held w = n end) (fun _ w => held w = n).
Proof.
  unfold leaseHostReader. eapply triple_bind; [apply counted_query|]. intros [h|]; [|by intros w Hw].
  destruct (identityOf h) as [identity|]; [|by intros w Hw]. destruct (hostMeets h need); [|by intros w Hw].
  eapply (triple_bind _ _ _ (fun got w => match got with Some r => handed r /\ held w = S n | None => held w = n end)).
  - intros w Hw. unfold lease_with_key, try_catch, bind, ret, throw. assert (H := lease_counted scope hostId identity deadlineMs w).
    destruct (lease _ _ _ _ w) as [[r|e] w']; [by rewrite <- Hw|]. destruct (instanceof _ e); simpl; by rewrite H.
  - intros [r|]; [|by intros w Hw]. apply triple_and. intros Hr. unfold still_trusted.
    eapply triple_bind; [apply counted_query|]. intros [now_|]; [|by apply counted_given_back].
    destruct (identityOf now_) as [trusted|]; [|by apply counted_given_back].
    destruct (hostMeets now_ need); [|by apply counted_given_back].
    destruct (sameConnectionIdentity trusted identity); [by intros w Hw|by apply counted_given_back].
Qed.

Lemma counted_trusted n scope hostId deadlineMs need :
  triple (fun w => held w = n) (leaseTrustedHost deps lease scope hostId deadlineMs need)
    (fun opened w => handed opened.1 /\ held w = S n) (fun _ w => held w = n).
Proof. eapply triple_bind; [apply counted_lease|]. by intros [r h i| | |] w Hw. Qed.

Lemma keeps_lift {A} (r : result A) : keeps held (lift r).
Proof. by intros w. Qed.

Lemma keeps_call {A} reader at_ token (tool : LiveTool A) : handed reader ->
  keeps held (call_tool JSON_parse JSON_stringify other_text (post_reader reader) at_ token tool).
Proof.
  intros Hr w. enough (H : triple (fun w' => held w' = held w)
    (call_tool JSON_parse JSON_stringify other_text (post_reader reader) at_ token tool)
    (fun _ w' => held w' = held w) (fun _ w' => held w' = held w)).
  { specialize (H w eq_refl). by destruct (call_tool _ _ _ _ _ _ _ w) as [[a|e] w']. }
  unfold call_tool, callTool, rpc. repeat (eapply triple_bind; [apply counted_run; (by apply post_counted || apply keeps_lift)|intros ?]).
  apply counted_run, keeps_lift.
Qed.

(** The unit is asked after through the reader, which is given back when it does
    not run. *)
Lemma counted_target n ctx instanceId :
  triple (fun w => held w = n) (liveReadTargetFor deps lease requireRunning ctx instanceId)
    (fun target w => match target with Some (reader, _) => handed reader /\ held w = S n | None => held w = n end)
    (fun _ w => held w = n).
Proof.
  unfold liveReadTargetFor. eapply (triple_bind _ _ _ (fun _ w => held w = n)).
  { apply counted_run. intros w. unfold liveEndpointFor, liveEndpointOf, requireInstance, query, gets, bind, ret, throw, lift.
    destruct (InstanceRepository.findById _ _ _) as [row|]; [|done]. simpl.
    destruct (in_token row); [|done]. destruct (InstanceRepository.latestConfig _ _ _); [|done].
    destruct (storedDocument _ _ _) as [config|]; [|done]. destruct (liveControlEnabled config); [|done]. simpl.
    by destruct (open_sealed _ _ _). }
  intros [endpoint|]; [|by intros w Hw]. eapply triple_bind; [apply counted_trusted|]. intros [reader identity]. simpl.
  apply triple_and. intros Hr. eapply (triple_bind _ _ _ (fun _ w => held w = S n)); [|by intros u w Hw].
  eapply triple_catch.
  - apply counted_run, asking_counted. intros w. unfold bind, lift, ret. destruct (activeCheckCommand instanceId) as [command|]; [|done].
    assert (H := exec_counted reader command Hr w). by destruct (exec reader command w) as [[r|e] w'].
  - intros error. eapply triple_bind; [by apply counted_release|]. by intros u w Hw.
Qed.

Lemma counted_read n {A} ctx instanceId (tool : LiveTool A) :
  triple (fun w => held w = n)
    (readLive deps JSON_parse JSON_stringify other_text lease requireRunning post_reader ctx instanceId tool)
    (fun _ w => held w = n)
    (fun error w => held w = n /\ channel_unavailable error = false /\ interrupted error = false).
Proof.
  unfold readLive. eapply triple_catch.
  - eapply triple_bind; [apply counted_target|]. intros [[reader endpoint]|]; [|by intros w Hw].
    apply triple_and. intros Hr.
    eapply (triple_finally _ _ _ (fun _ w => held w = S n) _ _ (fun _ w => held w = S n)).
    + eapply triple_bind; [apply counted_run; by apply keeps_call|]. by intros a w Hw.
    + intros a. by apply counted_release.
    + intros e. by apply counted_release.
  - intros error w Hw. simpl. destruct (channel_unavailable error) eqn:Ec; [done|]. by destruct (interrupted error) eqn:Ei.
Qed.

(** a read over the live channel gives back the connection it leased,
    however it ends: the bot is not found, its unit does not run, the client
    refuses, answers nonsense or goes away.  It throws neither what says the
    channel is not there nor an interruption, which it answers with [None]; and
    without the capability nothing is leased or said at all. *)
Theorem live_reads_return_their_connection {A} capability (tool : LiveTool A) ctx instanceId w :
  let run := read_as deps JSON_parse JSON_stringify other_text lease requireRunning post_reader capability tool ctx instanceId w in
  held run.2 = held w
  /\ (forall error, can (ctx_role ctx) capability = true -> run.1 = Throw error ->
        channel_unavailable error = false /\ interrupted error = false)
  /\ (can (ctx_role ctx) capability = false -> run.2 = w /\ exists error, run.1 = Throw error).
Proof.
  intros run. unfold run, read_as, bind, lift, requireCapabilityFor.
  destruct (can (ctx_role ctx) capability); simpl.
  - assert (H := counted_read (held w) ctx instanceId tool w eq_refl).
    destruct (readLive _ _ _ _ _ _ _ _ _ _ w) as [[a|e] w'] eqn:E; simpl; [by split_and!|].
    destruct H as (H & H1 & H2). split_and!; [done| |done]. by intros ? _ [= <-].
  - split_and!; [done|done|]. intros _. split; [done|]. by eexists.
Qed.
End Leases.

(** ** Writes are recorded when they were carried out *)

Section Writes.
Context {X : Type} (deps : InstanceControllerDeps X).
Abbreviation W := (World X).
Variable JSON_parse : string -> option Json.
Variable JSON_stringify : Json -> string.
Variable other_text : Num -> string.
Variable requireRunning : string -> ConnectionIdentity -> M W bool -> M W unit.
Variable post_transport : HostTransport W -> @Post W.

Variable open_transports : X -> nat.
Variable made : HostTransport W -> Prop.

Definition seen_of (w : W) : list AuditEventRow * nat := (audits (fleet w), open_transports (elsewhere w)).

(** What is done on machines leaves the audit log alone, and transports are
    opened and closed one at a time. *)
Class TransportsCounted : Prop := {
  created_counted : forall w,
    match createTransport deps w with
    | (Ok transport, w') => made transport /\ seen_of w' = (audits (fleet w), S (open_transports (elsewhere w)))
    | (Throw _, w') => seen_of w' = seen_of w
    end;
  closed_counted : forall transport w, made transport ->
    seen_of (tr_close transport w).2 = (audits (fleet w), Nat.pred (open_transports (elsewhere w)));
  connect_kept : forall transport options, made transport -> keeps seen_of (tr_connect transport options);
  exec_kept : forall transport command timeoutMs stdin, made transport -> keeps seen_of (tr_exec transport command timeoutMs stdin);
  post_kept : forall transport at_ body headers, made transport -> keeps seen_of (post_transport transport at_ body headers);
  asking_kept : forall instanceId identity question,
    keeps seen_of question -> keeps seen_of (requireRunning instanceId identity question) }.

Context `{Counted : !TransportsCounted}.

Definition seeing (log : list AuditEventRow) (n : nat) (w : W) : Prop := seen_of w = (log, n).

Lemma seeing_run log n {A} (m : M W A) : keeps seen_of m -> preserves (seeing log n) m.
Proof. intros H. exact (preserves_keeps seen_of (fun v => v = (log, n)) m H). Qed.

Lemma seeing_close log n transport Q E : made transport -> (forall w, seeing log n w -> Q w) ->
  triple (seeing log (S n)) (close_quietly transport) (fun _ => Q) E.
Proof.
  intros Hm HQ w Hw. assert (H := closed_counted transport w Hm). unfold close_quietly, swallow, try_catch, ret.
  unfold seeing, seen_of in *. injection Hw as <- Hn.
  destruct (tr_close transport w) as [[u|e] w']; apply HQ; simpl in H; by rewrite H, Hn.
Qed.

Lemma seeing_opened log n ctx hostId need :
  triple (seeing log n) (openHost deps (scopeOf ctx) hostId need)
    (fun opened w => made opened.1 /\ seeing log (S n) w) (fun _ => seeing log n).
Proof.
  unfold openHost. eapply (triple_bind _ _ _ (fun _ => seeing log n)).
  { apply seeing_run. intros w. unfold loadHost, query, gets, bind, throw, ret, lift.
    destruct (HostRepository.findById _ _ _) as [h|]; [|done]. destruct (truthy _) as [k|]; [|done].
    destruct (truthy _) as [f|]; [|done]. destruct (hostMeets h need); [|done]. simpl.
    destruct (findSshKey _ _ _) as [row|]; [|done]. by destruct (open_sealed _ _ _). }
  intros loaded. unfold connectLoaded.
  eapply (triple_bind _ _ _ (fun tr w => made tr /\ seeing log (S n) w)); [|by intros tr w Hw].
  eapply (triple_bind _ _ _ (fun tr w => made tr /\ seeing log (S n) w)).
  { intros w Hw. assert (H := created_counted w). unfold seeing in *. unfold seen_of in Hw. injection Hw as <- <-.
    by destruct (createTransport deps w) as [[tr|e] w']. }
  intros tr. apply triple_and. intros Hm. eapply triple_catch.
  - eapply triple_bind; [apply seeing_run; by apply connect_kept|]. by intros u w Hw.
  - intros e. eapply triple_bind; [by apply seeing_close|]. intros u. apply triple_throw.
Qed.

Lemma seeing_target log n ctx instanceId :
  triple (seeing log n) (liveWriteTargetFor deps requireRunning ctx instanceId)
    (fun target w => match target with Some (tr, _) => made tr /\ seeing log (S n) w | None => seeing log n w end)
    (fun _ => seeing log n).
Proof.
  unfold liveWriteTargetFor. eapply (triple_bind _ _ _ (fun _ => seeing log n)).
  { apply seeing_run. intros w. unfold liveEndpointFor, liveEndpointOf, requireInstance, query, gets, bind, ret, throw, lift.
    destruct (InstanceRepository.findById _ _ _) as [row|]; [|done]. simpl.
    destruct (in_token row); [|done]. destruct (InstanceRepository.latestConfig _ _ _); [|done].
    destruct (storedDocument _ _ _) as [config|]; [|done]. destruct (liveControlEnabled config); [|done]. simpl.
    by destruct (open_sealed _ _ _). }
  intros [endpoint|]; [|by intros w Hw]. eapply triple_bind; [apply seeing_opened|]. intros [tr identity]. simpl.
  apply triple_and. intros Hm. eapply (triple_bind _ _ _ (fun _ => seeing log (S n))); [|by intros u w Hw].
  eapply triple_catch.
  - apply seeing_run, asking_kept. intros w. unfold bind, lift, ret. destruct (activeCheckCommand instanceId) as [command|]; [|done].
    assert (H := exec_kept tr command LIVE_CONTROL_TIMEOUT_MS None Hm w). by destruct (tr_exec _ _ _ _ w) as [[r|e] w'].
  - intros error. eapply triple_bind; [by apply seeing_close|]. intros u. apply triple_throw.
Qed.

Lemma seeing_call log n transport at_ token (tool : LiveTool unit) : made transport ->
  preserves (seeing log n) (call_tool JSON_parse JSON_stringify other_text (post_transport transport) at_ token tool).
Proof.
  intros Hm. unfold call_tool, callTool, rpc.
  repeat (apply preserves_bind; [apply seeing_run; (by apply post_kept || by intros w)|intros ?]). apply seeing_run. by intros w.
Qed.

Definition event_of (ctx : ActorContext) (action instanceId : string) (detail : list (string * string)) (event : AuditEventRow) : Prop :=
  ae_organizationId event = ctx_organizationId ctx /\ ae_actorId event = Some (ctx_memberId ctx)
  /\ ae_action event = action /\ ae_subjectId event = instanceId /\ ae_detail event = detail.

Lemma seeing_recorded log n ctx auditId action instanceId detail :
  triple (seeing log n) (record_event (scopeOf ctx) auditId (by_actor ctx action instanceId detail))
    (fun _ w => exists event, event_of ctx action instanceId detail event /\ seeing (log ++ [event]) n w) (fun _ => seeing log n).
Proof.
  intros w Hw. unfold record_event, withTransaction, transaction, record_audit, AuditRepository.record, bind, lift, stmt, ret.
  unfold seeing, seen_of in *. injection Hw as <- <-. destruct (resolveActorLabel _) as [label|e]; simpl; [|done].
  eexists. split; [|done]. repeat split.
Qed.

Lemma seeing_write log n ctx instanceId auditId action detail tool :
  triple (seeing log n)
    (write_live deps JSON_parse JSON_stringify other_text requireRunning post_transport ctx instanceId auditId action detail tool)
    (fun _ w => exists event, event_of ctx action instanceId detail event /\ seeing (log ++ [event]) n w) (fun _ => seeing log n).
Proof.
  unfold write_live. eapply triple_bind; [apply seeing_run; by intros w|]. intros [].
  eapply triple_bind; [apply seeing_target|]. intros [[tr endpoint]|]; [|apply triple_throw].
  apply triple_and. intros Hm. eapply (triple_bind _ _ _ (fun _ => seeing log n)); [|intros []; apply seeing_recorded].
  eapply (triple_finally _ _ _ (fun _ => seeing log (S n)) _ _ (fun _ => seeing log (S n))).
  - by apply seeing_call.
  - intros a. by apply seeing_close.
  - intros e. by apply seeing_close.
Qed.

(** dropping an item or selecting one is in the audit log exactly when the
    request succeeds: one that throws, wherever it fails, leaves the log as it
    was, one that succeeds adds one event with who did what.  Either way the
    connection it opened is closed. *)
Theorem live_writes_are_recorded_once ctx instanceId itemType count auditId w :
  let log := audits (fleet w) in
  let recorded_as (action : string) detail (run : result unit * W) :=
    open_transports (elsewhere run.2) = open_transports (elsewhere w)
    /\ match run.1 with
       | Ok _ => exists event, event_of ctx action instanceId detail event /\ audits (fleet run.2) = log ++ [event]
       | Throw _ => audits (fleet run.2) = log
       end in
  recorded_as "instance.inventory.drop" [("itemType", itemType); ("count", decimal count)]
    (dropInventoryItem deps JSON_parse JSON_stringify other_text requireRunning post_transport ctx instanceId itemType count auditId w)
  /\ recorded_as "instance.inventory.select" [("itemType", itemType)]
    (selectHeldItem deps JSON_parse JSON_stringify other_text requireRunning post_transport ctx instanceId itemType auditId w).
Proof.
  intros log recorded_as. assert (Hw : seeing log (open_transports (elsewhere w)) w) by done. unfold recorded_as. split.
  - assert (H := seeing_write _ _ ctx instanceId auditId "instance.inventory.drop" [("itemType", itemType); ("count", decimal count)]
      (drop_item JSON_parse itemType count) w Hw). fold (dropInventoryItem deps JSON_parse JSON_stringify other_text requireRunning
      post_transport ctx instanceId itemType count auditId) in H.
    destruct (dropInventoryItem _ _ _ _ _ _ _ _ _ _ _ w) as [[u|e] w']; simpl.
    + destruct H as (event & He & H). injection H as H1 H2. split; [done|]. by exists event.
    + by injection H as H1 H2.
  - assert (H := seeing_write _ _ ctx instanceId auditId "instance.inventory.select" [("itemType", itemType)]
      (select_item JSON_parse itemType) w Hw). fold (selectHeldItem deps JSON_parse JSON_stringify other_text requireRunning
      post_transport ctx instanceId itemType auditId) in H.
    destruct (selectHeldItem _ _ _ _ _ _ _ _ _ _ w) as [[u|e] w']; simpl.
    + destruct H as (event & He & H). injection H as H1 H2. split; [done|]. by exists event.
    + by injection H as H1 H2.
Qed.
End Writes.

(** ** A bot that answers *)

Definition live_document : InstanceConfigInput :=
  MkConfig offline "Steve" "mc.example" "1.20.1" 3 true (MkRange 10 20) false (MkRange 10 20) false true 33333 false false false [] [].

Definition live_world : World nat :=
  MkWorld
    (MkFleet [InstanceSafety.example_host] [MkSshKey "ssh-key" "org" "sealed" "key"]
       [MkInstance "bot" "org" "host" "Miner" offline "Steve" None st_running None no_claims 33333
          (Some (MkSealed "token" "key")) 0]
       [MkInstanceConfig "c1" "org" "bot" 1 "{}" None "system"] [] [] no_tables []) 1000 [] 0%nat.

Definition counting (f : nat -> nat) : M (World nat) unit :=
  fun w => (Ok tt, MkWorld (fleet w) (clock w) (activeReadAt w) (f (elsewhere w))).

Definition live_transport : HostTransport (World nat) :=
  MkTransport _ (fun _ => ret tt) (fun _ _ _ => ret (MkExec 0 "" "")) (fun _ _ => ret true) (counting Nat.pred).

Definition live_deps : InstanceControllerDeps nat :=
  MkInstanceDeps nat (counting S ;;; ret live_transport) (fun token => Ok (MkSealed token "key"))
    (fun text _ => Ok text) (fun _ => None) (fun _ => None) (fun text => text) (fun _ => true)
    (fun _ _ => true) (fun _ => true) (fun _ => None) (fun _ => Some live_document) (fun _ => "{}").

Definition live_reader : JournalLease (World nat) := MkLease _ (fun _ => ret (MkExec 0 "" "")) (counting Nat.pred).

Definition live_answer (text : string) : option Json :=
  if text ≡? "{}"
  then Some (JObject [("jsonrpc", JString "2.0");
         ("result", JObject [("structuredContent", JObject [("success", JBool true);
            ("data", JObject [("players", JArray [JString "Steve"])])])])])
  else None.

Definition live_post : @Post (World nat) := fun _ _ _ => ret (MkReply 200 "{}" None).

Definition ask_first (instanceId : string) (identity : ConnectionIdentity) (question : M (World nat) bool) : M (World nat) unit :=
  let* active := question in if active then ret tt else throw (LiveChannelUnavailableError "The bot is not running").

Lemma keeps_asking {B} (f : World nat -> B) instanceId identity question :
  keeps f question -> keeps f (ask_first instanceId identity question).
Proof.
  intros H w. unfold ask_first, bind. specialize (H w). by destruct (question w) as [[[]|e] w'].
Qed.

#[local] Instance live_leases :
  LeasesCounted live_deps (fun _ _ _ _ => counting S ;;; ret live_reader) ask_first (fun _ => live_post) id (fun r => r = live_reader).
Proof.
  split.
  - intros scope hostId identity deadlineMs w. simpl. done.
  - by intros reader w ->.
  - by intros reader command -> w.
  - by intros reader at_ body headers -> w.
  - intros. by apply keeps_asking.
Defined.

#[local] Instance live_transports :
  TransportsCounted live_deps ask_first (fun _ => live_post) id (fun tr => tr = live_transport).
Proof.
  split.
  - intros w. simpl. done.
  - by intros tr w ->.
  - by intros tr options -> w.
  - by intros tr command timeoutMs stdin -> w.
  - by intros tr at_ body headers -> w.
  - intros. by apply keeps_asking.
Defined.

Lemma live_reads_return_their_connection_witness :
  exists w', read_as live_deps live_answer (fun _ => EmptyString) (fun _ => EmptyString)
      (fun _ _ _ _ => counting S ;;; ret live_reader) ask_first (fun _ => live_post)
      instance_read (readPlayersList live_answer) InstanceSafety.example_actor "bot" live_world = (Ok (Some ["Steve"]), w')
    /\ elsewhere w' = 0%nat.
Proof.
  eexists. split; [vm_compute; reflexivity|].
  exact (proj1 (live_reads_return_their_connection live_deps live_answer (fun _ => EmptyString) (fun _ => EmptyString)
    (fun _ _ _ _ => counting S ;;; ret live_reader) ask_first (fun _ => live_post) id (fun r => r = live_reader)
    instance_read (readPlayersList live_answer) InstanceSafety.example_actor "bot" live_world)).
Defined.

Lemma live_writes_are_recorded_once_witness :
  exists w', selectHeldItem live_deps live_answer (fun _ => EmptyString) (fun _ => EmptyString) ask_first (fun _ => live_post)
      InstanceSafety.example_actor "bot" "Torch" "event" live_world = (Ok tt, w')
    /\ exists event, event_of InstanceSafety.example_actor "instance.inventory.select" "bot" [("itemType", "Torch")] event
       /\ audits (fleet w') = [event].
Proof.
  eexists. split; [vm_compute; reflexivity|].
  exact (proj2 (proj2 (live_writes_are_recorded_once live_deps live_answer (fun _ => EmptyString) (fun _ => EmptyString)
    ask_first (fun _ => live_post) id (fun tr => tr = live_transport) InstanceSafety.example_actor "bot" "Torch" 1 "event" live_world))).
Defined.
