(* ===== verification/Destinations.v ===== *)
(** Where alerts go: the settings of a destination and the requests on them.

    [packages/contracts/src/boundary/destination-config.ts] with the schemas of
    [contracts/src/notification.ts], [provider-url.ts], [destination.view.ts]
    and [destination.controller.ts] of [packages/core/src/notification].  The
    checks of [zod] that are patterns of its own ([url], [email], [datetime]),
    the parser of URLs, the hash, the vault and the draw of a secret are
    arguments.  A refused destination throws its reason; its category, a field
    of the error, is left out. *)

From S2P Require Import Prelude Tables Dates StatusKinds StatusStore NotificationStore Announce Access Egress InstanceStore Payloads Mcp Delivery.

(** ** Settings *)

Definition SIGNING_SECRET_PREFIX : string := "whsec_".
Definition ROTATION_OVERLAP_MS : Z := 24 * 60 * 60 * 1000.
Definition FAILURES_PAGE_SIZE : nat := 20.

(** [webhookStoredConfig] *)
Record WebhookConfig := MkWebhook {
  wh_url : string; signingSecret : string; previousSigningSecret : option string;
  previousSigningSecretExpiresAt : option string }.

Record TelegramConfig := MkTelegram { botToken : string; chatId : string; messageThreadId : option Z }.
Record GotifyConfig := MkGotify { gotify_serverUrl : string; appToken : string; gotify_priority : Z }.
Record NtfyConfig := MkNtfy { ntfy_serverUrl : string; topic : string; accessToken : option string; ntfy_priority : Z }.
Record ResendConfig := MkResend { apiKey : string; resend_from : string; resend_to : list string }.
Record EmailConfig := MkEmail {
  smtpServer : string; smtpPort : Z; smtp_username : string; smtp_password : string; email_from : string;
  email_to : list string }.

(** [StoredDestinationConfig] *)
Inductive StoredDestinationConfig :=
  | to_webhook (config : WebhookConfig)
  | to_telegram (config : TelegramConfig)
  | to_discord (url : string)
  | to_slack (url : string)
  | to_teams (url : string)
  | to_gotify (config : GotifyConfig)
  | to_ntfy (config : NtfyConfig)
  | to_resend (config : ResendConfig)
  | to_email (config : EmailConfig).

(** [DestinationConfig], what a form sends: of a webhook only its url. *)
Inductive DestinationInput :=
  | in_webhook (url : string)
  | in_other (settings : StoredDestinationConfig).

Definition kind_of (settings : StoredDestinationConfig) : DestinationKind :=
  match settings with
  | to_webhook _ => webhook | to_telegram _ => telegram | to_discord _ => discord | to_slack _ => slack
  | to_teams _ => teams | to_gotify _ => gotify | to_ntfy _ => ntfy | to_resend _ => resend | to_email _ => email
  end.

Definition input_kind (input : DestinationInput) : DestinationKind :=
  match input with in_webhook _ => webhook | in_other settings => kind_of settings end.

Section Schemas.
Variables is_url is_email is_datetime : string -> bool.

(** [z.string().min(low).max(high)] *)
Definition z_text (low high : nat) : Schema string :=
  z_refine z_string (fun s => (low <=? String.length s)%nat && (String.length s <=? high)%nat).

Definition z_url : Schema string := z_refine (z_refine z_string is_url) (fun s => (String.length s <=? 2048)%nat).
Definition z_email : Schema string := z_refine z_string is_email.

(** [z.number().int().min(low).max(high)]; without [high] there is no bound. *)
Definition z_integer (low : Z) (high : option Z) : Schema Z := fun v =>
  let? n := z_number v in
  let? k := whole (num n) (den n) in
  if (low <=? k) && match high with Some h => k <=? h | None => true end then Some k else None.

(** [schema.default(value)] *)
Definition may_default {A} (key : string) (schema : Schema A) (value : A) (fields : list (string * Json)) : option A :=
  let? read := may key schema fields in Some (default value read).

Definition topic_shape (s : string) : bool :=
  (1 <=? String.length s)%nat && (String.length s <=? 64)%nat
  && chars_all (fun c => Calendar.is_letter c || Calendar.is_digit c || (c ≡? "-"%char) || (c ≡? "_"%char)) s.

Definition z_recipients : Schema (list string) :=
  z_refine (z_array z_email) (fun l => (1 <=? length l)%nat && (length l <=? 20)%nat).

Definition webhookStoredConfig : Schema WebhookConfig :=
  z_object (fun f =>
    let? url := need "url" z_url f in
    let? secret := need "signingSecret" (z_text 1 128) f in
    let? previous := may "previousSigningSecret" (z_text 1 128) f in
    let? expiresAt := may "previousSigningSecretExpiresAt" (z_refine z_string is_datetime) f in
    Some (MkWebhook url secret previous expiresAt)).

Definition telegramConfigInput : Schema TelegramConfig :=
  z_object (fun f =>
    let? token := need "botToken" (z_text 1 256) f in
    let? chat := need "chatId" (z_text 1 64) f in
    let? thread := may "messageThreadId" (z_integer 1 None) f in
    Some (MkTelegram token chat thread)).

Definition incomingWebhookConfigInput : Schema string := z_object (fun f => need "url" z_url f).

Definition gotifyConfigInput : Schema GotifyConfig :=
  z_object (fun f =>
    let? server := need "serverUrl" z_url f in
    let? token := need "appToken" (z_text 1 256) f in
    let? priority := may_default "priority" (z_integer 0 (Some 10)) 5 f in
    Some (MkGotify server token priority)).

Definition ntfyConfigInput : Schema NtfyConfig :=
  z_object (fun f =>
    let? server := need "serverUrl" z_url f in
    let? topic := need "topic" (z_refine z_string topic_shape) f in
    let? token := may "accessToken" (z_text 0 256) f in
    let? priority := may_default "priority" (z_integer 1 (Some 5)) 3 f in
    Some (MkNtfy server topic token priority)).

Definition resendConfigInput : Schema ResendConfig :=
  z_object (fun f =>
    let? key := need "apiKey" (z_text 1 256) f in
    let? from := need "fromAddress" z_email f in
    let? to := need "toAddresses" z_recipients f in
    Some (MkResend key from to)).

Definition emailConfigInput : Schema EmailConfig :=
  z_object (fun f =>
    let? server := need "smtpServer" (z_text 1 253) f in
    let? port := need "smtpPort" (z_integer 1 (Some 65535)) f in
    let? user := need "username" (z_text 0 256) f in
    let? secret := need "password" (z_text 0 256) f in
    let? from := need "fromAddress" z_email f in
    let? to := need "toAddresses" z_recipients f in
    Some (MkEmail server port user secret from to)).

(** [destinationStoredConfig] of [{ kind, config }]. *)
Definition destinationStoredConfig (kind : DestinationKind) : Schema StoredDestinationConfig := fun v =>
  match kind with
  | webhook => let? c := webhookStoredConfig v in Some (to_webhook c)
  | telegram => let? c := telegramConfigInput v in Some (to_telegram c)
  | discord => let? c := incomingWebhookConfigInput v in Some (to_discord c)
  | slack => let? c := incomingWebhookConfigInput v in Some (to_slack c)
  | teams => let? c := incomingWebhookConfigInput v in Some (to_teams c)
  | gotify => let? c := gotifyConfigInput v in Some (to_gotify c)
  | ntfy => let? c := ntfyConfigInput v in Some (to_ntfy c)
  | resend => let? c := resendConfigInput v in Some (to_resend c)
  | email => let? c := emailConfigInput v in Some (to_email c)
  end.

Variable JSON_parse : string -> option Json.

Definition readDestinationConfig (kind : DestinationKind) (sealed : string) : option StoredDestinationConfig :=
  let? decoded := JSON_parse sealed in destinationStoredConfig kind decoded.
End Schemas.

(** A field that is written when it has a value. *)
Definition written (key : string) (value : option Json) : list (string * Json) :=
  match value with Some v => [(key, v)] | None => [] end.

(** [settings.config] *)
Definition config_json (settings : StoredDestinationConfig) : Json :=
  match settings with
  | to_webhook c =>
      JObject ([("url", JString (wh_url c)); ("signingSecret", JString (signingSecret c))]
        ++ written "previousSigningSecret" (option_map JString (previousSigningSecret c))
        ++ written "previousSigningSecretExpiresAt" (option_map JString (previousSigningSecretExpiresAt c)))
  | to_telegram c =>
      JObject ([("botToken", JString (botToken c)); ("chatId", JString (chatId c))]
        ++ written "messageThreadId" (option_map Mcp.int (messageThreadId c)))
  | to_discord url | to_slack url | to_teams url => JObject [("url", JString url)]
  | to_gotify c =>
      JObject [("serverUrl", JString (gotify_serverUrl c)); ("appToken", JString (appToken c));
               ("priority", Mcp.int (gotify_priority c))]
  | to_ntfy c =>
      JObject ([("serverUrl", JString (ntfy_serverUrl c)); ("topic", JString (topic c))]
        ++ written "accessToken" (option_map JString (accessToken c)) ++ [("priority", Mcp.int (ntfy_priority c))])
  | to_resend c =>
      JObject [("apiKey", JString (apiKey c)); ("fromAddress", JString (resend_from c));
               ("toAddresses", JArray (map JString (resend_to c)))]
  | to_email c =>
      JObject [("smtpServer", JString (smtpServer c)); ("smtpPort", Mcp.int (smtpPort c));
               ("username", JString (smtp_username c)); ("password", JString (smtp_password c));
               ("fromAddress", JString (email_from c)); ("toAddresses", JArray (map JString (email_to c)))]
  end.

(** [usableSigningSecrets(config, now)]; [other] reads the dates
    [toISOString] does not print. *)
Definition usableSigningSecrets (other : string -> option Z) (config : WebhookConfig) (now : Z) : list string :=
  match previousSigningSecret config, previousSigningSecretExpiresAt config with
  | Some previous, Some expiresAt =>
      match date_of other expiresAt with
      | Some until => if until <=? now then [signingSecret config] else [signingSecret config; previous]
      | None => [signingSecret config]
      end
  | _, _ => [signingSecret config]
  end.

(** ** Provider addresses *)

Definition TEAMS_HOST_SUFFIX : string := "environment.api.powerplatform.com".
Definition DISCORD_HOSTS : list string := ["discord.com"; "discordapp.com"].
Definition SLACK_HOST : string := "hooks.slack.com".
Definition RETIRED_TEAMS_HOSTS : list string := ["webhook.office.com"; "logic.azure.com"].

(** [value.endsWith(part)] *)
Definition endsWith (part value : string) : bool :=
  (String.length part <=? String.length value)%nat
  && (slice_from (String.length value - String.length part) value ≡? part).

Definition matchesHost (hostname candidate : string) : bool :=
  (hostname ≡? candidate) || endsWith ("." +:+ candidate) hostname.

Inductive ProviderUrlVerdict := provider_allowed | provider_refused (reason : string) (category : RejectionCategory).

Section Provider.
Variable URL_of : string -> option Url.

Definition verifyProviderUrl (kind : DestinationKind) (raw : string) (extraTeamsHosts : list string) : ProviderUrlVerdict :=
  match kind with
  | webhook | telegram | resend | email => provider_allowed
  | _ =>
      match URL_of raw with
      | None => provider_refused "that does not look like a web address" Egress.unreadable
      | Some parsed =>
          let hostname := toLowerCase (bareHostname (url_hostname parsed)) in
          match kind with
          | discord =>
              if existsb (matchesHost hostname) DISCORD_HOSTS then provider_allowed
              else provider_refused "that is not a Discord webhook address" host_category
          | slack =>
              if hostname ≡? SLACK_HOST then provider_allowed
              else provider_refused "that is not a Slack webhook address" host_category
          | teams =>
              if existsb (matchesHost hostname) RETIRED_TEAMS_HOSTS
              then provider_refused "that kind of Teams address no longer works" retired
              else if negb (existsb (matchesHost hostname) (TEAMS_HOST_SUFFIX :: extraTeamsHosts))
                   then provider_refused "that is not a Teams workflow address" host_category
              else match searchParam parsed "sig" with
                   | Some signature =>
                       if is_empty signature then provider_refused "that workflow requires someone to sign in" signin
                       else provider_allowed
                   | None => provider_refused "that workflow requires someone to sign in" signin
                   end
          | _ =>
              if negb (is_empty (url_search parsed))
              then provider_refused "a server address cannot carry anything after a question mark" parameters
              else provider_allowed
          end
      end
  end.
End Provider.

(** ** What is shown of a destination *)

(** [value.slice(-n)] *)
Definition slice_last (n : nat) (value : string) : string := slice_from (String.length value - n) value.

Definition signingSecretHint (secret : string) : string :=
  if (String.length secret <=? 4)%nat then "…" else "…" +:+ slice_last 4 secret.

Definition shortFingerprint (sha256_hex : string -> string) (value : string) : string := String.substring 0 6 (sha256_hex value).

Definition maskedChatId (chat : string) : string :=
  if (String.length chat <=? 4)%nat then "chat …" +:+ chat else "chat …" +:+ slice_last 4 chat.

Definition webhookTarget (URL_of : string -> option Url) (url : string) : string := sanitisedTarget URL_of url.

Definition telegramTarget (chat : string) (threadId : option Z) : string :=
  "Telegram, " +:+ maskedChatId chat +:+ match threadId with Some id => ", topic " +:+ decimal id | None => EmptyString end.

Record DestinationView := MkDestinationView {
  dview_id : string; dview_name : string; dview_kind : DestinationKind; kindLabel : string; enabled : bool;
  target : string; subscribedTo : list StatusEventKind; dview_lastSucceededAt : option string;
  dview_lastFailedAt : option string; dview_lastFailureReason : option string; signingKeyHint : option string;
  targetFingerprint : option string }.

Definition toDestinationView (row : NotificationDestinationRow) (shown : string) (kinds : list StatusEventKind)
    (hint fingerprint : option string) : DestinationView :=
  MkDestinationView (dest_id row) (dest_name row) (dest_kind row) (DESTINATION_LABELS (dest_kind row))
    (dest_enabled row) shown kinds (option_map toISOString (lastSucceededAt row))
    (option_map toISOString (lastFailedAt row)) (lastFailureReason row) hint fingerprint.

Definition configurableUrl (settings : StoredDestinationConfig) : option string :=
  match settings with
  | to_webhook c => Some (wh_url c)
  | to_discord url | to_slack url | to_teams url => Some url
  | to_gotify c => Some (gotify_serverUrl c)
  | to_ntfy c => Some (ntfy_serverUrl c)
  | _ => None
  end.

(** The names of the kinds, as they are stored. *)
Definition destination_text (kind : DestinationKind) : string :=
  match kind with
  | webhook => "webhook" | telegram => "telegram" | discord => "discord" | slack => "slack" | teams => "teams"
  | email => "email" | resend => "resend" | gotify => "gotify" | ntfy => "ntfy"
  end.

Definition targetFor (URL_of : string -> option Url) (settings : StoredDestinationConfig) : string :=
  match settings with
  | to_telegram c => telegramTarget (chatId c) (messageThreadId c)
  | to_resend c => resend_from c
  | to_email c => email_from c
  | _ => match configurableUrl settings with
         | None => destination_text (kind_of settings)
         | Some url => webhookTarget URL_of url
         end
  end.

(** ** The requests *)

Definition DestinationRejectedError (reason : string) : thrown := ThrownError (NamedError "DestinationRejectedError") reason.
Definition DestinationDisabledError (message : string) : thrown := ThrownError (NamedError "DestinationDisabledError") message.
Definition DestinationKindImmutableError (message : string) : thrown :=
  ThrownError (NamedError "DestinationKindImmutableError") message.
Definition DestinationHasNoSigningKeyError (message : string) : thrown :=
  ThrownError (NamedError "DestinationHasNoSigningKeyError") message.
Definition DestinationNotFoundError (message : string) : thrown := ThrownError (NamedError "DestinationNotFoundError") message.
Definition DestinationTestThrottledError (message : string) : thrown :=
  ThrownError (NamedError "DestinationTestThrottledError") message.
Definition OrganizationTestThrottledError (message : string) : thrown :=
  ThrownError (NamedError "OrganizationTestThrottledError") message.
Definition AlertNotQueuedError (message : string) : thrown := ThrownError (NamedError "AlertNotQueuedError") message.

Definition NO_DESTINATION : thrown := DestinationNotFoundError "that destination no longer exists".
Definition NOT_WAITING : thrown := DestinationNotFoundError "that alert is no longer waiting".
Definition TURNED_OFF : thrown := DestinationDisabledError "that destination is turned off".

Record CreateDestinationInput := MkCreateDestination {
  cd_name : string; cd_destination : DestinationInput; cd_subscribedTo : list StatusEventKind }.

Record DeliveryProgress := MkProgress { prog_state : DeliveryState; prog_reason : option string; prog_attempts : Z }.

Record DeliveryFailureView := MkFailure {
  fl_deliveryId : string; fl_destinationId : string; fl_destinationName : string; fl_title : string;
  fl_reason : option string; fl_attempts : Z; fl_settledAt : option string }.

Record FailuresPage := MkFailures { fl_items : list DeliveryFailureView; fl_total : Z; fl_offset : nat }.

(** Latest first; a row without a date comes before all. *)
Definition latest_failure (a b : NotificationDeliveryRow) : bool :=
  match settledAt a, settledAt b with
  | None, None => String.leb (del_id b) (del_id a)
  | None, Some _ => true
  | Some _, None => false
  | Some x, Some y => (y <? x) || ((y =? x) && String.leb (del_id b) (del_id a))
  end.

Definition failure_views (t : NotificationTables) (d : NotificationDeliveryRow) : list DeliveryFailureView :=
  concat (map (fun n => map (fun dest =>
      MkFailure (del_id d) (del_destinationId d) (dest_name dest) (title n) (lastError d) (attempts d)
        (option_map toISOString (settledAt d)))
    (select (owned_destination (del_organizationId d) (del_destinationId d)) (destinations t)))
    (select (of_notification d) (notifications t))).

Definition recentFailures (organizationId : string) (limit offset : nat) (t : NotificationTables) : list DeliveryFailureView :=
  take limit (drop offset (concat (map (failure_views t)
    (order_by latest_failure
      (select (fun d => (del_organizationId d ≡? organizationId) && (del_state d ≡? failed)) (deliveries t)))))).

Section Controller.
Context {J : Type} (sendJob : SendJob J) (idOf : nat -> string) (dbNow : Z) (carrier : list (string * string)).
Abbreviation W := (World J * AuditRepository.Table)%type.

Variable URL_of : string -> option Url.
Variables (isIP : string -> Z) (ranges : Tables_).
Variables is_url is_email is_datetime : string -> bool.
Variable JSON_parse : string -> option Json.
Variable JSON_stringify : Json -> string.
Variable sha256_hex : string -> string.
Variable other_date : string -> option Z.
Variables (seal : string -> result SealedValue) (open : string -> string -> result string).
Variable newSecret : M W string.
Variable policy : EgressPolicy.
Variable teamsHosts : list string.
Variable now : M W Z.

Definition scope_of (actor : ActorContext) : string := ctx_organizationId actor.

Definition requireManage (actor : ActorContext) : result unit :=
  if can (ctx_role actor) notification_manage then Ok tt else Throw (ForbiddenError "You do not have permission to manage alerts").

Definition requireRead (actor : ActorContext) : result unit :=
  if can (ctx_role actor) notification_read then Ok tt else Throw (ForbiddenError "You do not have permission to see alerts").

Definition withDestinationTransaction {A} (m : M W A) : M W A := transaction (fun before _ => before) m.

(** Statements of the repositories; [id] draws an id. *)
Definition notify {A} (f : NotificationTables -> A * NotificationTables) : M W A := on_fst (on_notifs f).
Definition read_notifs {A} (f : NotificationTables -> A) : M W A := on_fst (from_notifs f).
Definition draw : M W string := on_fst (nanoid idOf).

Definition record_for (actor : ActorContext) (action subject id : string) (detail : list (string * string)) : M W unit :=
  let* auditId := draw in
  on_snd (AuditRepository.record (scope_of actor) auditId dbNow
    (MkAuditEntry (Some (ctx_memberId actor)) (ctx_actorLabel actor) action subject id detail)) ;;;
  ret tt.

Definition subscribe (actor : ActorContext) (destinationId : string) (kinds : list StatusEventKind) : M W unit :=
  let* first := on_fst (gets drawn) in
  notify (replaceSubscriptions (fun i => idOf (first + i)%nat) (scope_of actor) destinationId kinds) ;;;
  on_fst (modify (fun w => MkWorld (status w) (notifs w) (jobs w) (drawn w + length kinds)%nat)).

Definition checkUrl (settings : StoredDestinationConfig) : result unit :=
  match settings with
  | to_email c =>
      match verifyDestinationHost isIP ranges (smtpServer c) policy with
      | url_refused reason _ => Throw (DestinationRejectedError reason)
      | url_allowed _ => Ok tt
      end
  | _ =>
      match configurableUrl settings with
      | None => Ok tt
      | Some url =>
          match verifyProviderUrl URL_of (kind_of settings) url teamsHosts with
          | provider_refused reason _ => Throw (DestinationRejectedError reason)
          | provider_allowed =>
              match verifyDestinationUrl isIP ranges URL_of url policy with
              | url_refused reason _ => Throw (DestinationRejectedError reason)
              | url_allowed _ => Ok tt
              end
          end
      end
  end.

(** [error.constructor !== Error] *)
Definition acceptAlert (queue : string) (payload : list (string * string)) : M W unit :=
  let* jobId :=
    try_catch (on_fst (sendJob queue payload None))
      (fun error => match error with ThrownError PlainError message => throw (AlertNotQueuedError message) | _ => throw error end) in
  match jobId with None => throw (AlertNotQueuedError "the alert was not accepted") | Some _ => ret tt end.

Definition storedFor (input : DestinationInput) (secret : option string) (previous : option (string * string))
    : M W StoredDestinationConfig :=
  match input with
  | in_webhook url =>
      let* secret := match secret with Some s => ret s | None => newSecret end in
      ret (to_webhook (MkWebhook url secret (option_map fst previous) (option_map snd previous)))
  | in_other settings => ret settings
  end.

Definition read_config (row : NotificationDestinationRow) (opened : string) : option StoredDestinationConfig :=
  readDestinationConfig is_url is_email is_datetime JSON_parse (dest_kind row) opened.

Definition settingsOf (row : NotificationDestinationRow) : option StoredDestinationConfig :=
  match open (secretEncrypted row) (secretKeyId row) with Ok opened => read_config row opened | Throw _ => None end.

(** The settings in the vault, or a throw of the vault. *)
Definition open_settings (row : NotificationDestinationRow) : result (option StoredDestinationConfig) :=
  let+ opened := open (secretEncrypted row) (secretKeyId row) in Ok (read_config row opened).

Definition sealed_values (name shown : string) (settings : StoredDestinationConfig) : result DestinationValues :=
  let+ sealed := seal (JSON_stringify (config_json settings)) in
  Ok (MkDestinationValues name shown (ciphertext sealed) (keyId sealed)).

Definition webhook_secret (settings : option StoredDestinationConfig) : option WebhookConfig :=
  match settings with Some (to_webhook c) => Some c | _ => None end.

Definition view_of (subscriptions : list (string * StatusEventKind)) (row : NotificationDestinationRow) : DestinationView :=
  let settings := settingsOf row in
  toDestinationView row (match settings with Some s => targetFor URL_of s | None => displayTarget row end)
    (map snd (List.filter (fun entry => entry.1 ≡? dest_id row) subscriptions))
    (option_map (fun c => signingSecretHint (signingSecret c)) (webhook_secret settings))
    (option_map (fun c => shortFingerprint sha256_hex (wh_url c)) (webhook_secret settings)).

Definition list_destinations (actor : ActorContext) : M W (list DestinationView) :=
  lift (requireRead actor) ;;;
  let* rows := read_notifs (listDestinations (scope_of actor)) in
  let* subscriptions := read_notifs (subscriptionsFor (scope_of actor) (map dest_id rows)) in
  ret (map (view_of subscriptions) rows).

Definition create (actor : ActorContext) (input : CreateDestinationInput) : M W (DestinationView * option string) :=
  lift (requireManage actor) ;;;
  let* settings := storedFor (cd_destination input) None None in
  lift (checkUrl settings) ;;;
  let* values := lift (sealed_values (cd_name input) (targetFor URL_of settings) settings) in
  withDestinationTransaction (
    let* id := draw in
    let* row := notify (insertDestination id (scope_of actor) dbNow (kind_of settings) values) in
    subscribe actor (dest_id row) (cd_subscribedTo input) ;;;
    record_for actor "notification.destination.create" "notificationDestination" (dest_id row)
      [("name", dest_name row); ("kind", destination_text (dest_kind row))] ;;;
    ret (toDestinationView row (displayTarget row) (cd_subscribedTo input) None None,
         option_map signingSecret (webhook_secret (Some settings)))).

(** The secret of before the last rotation, while it may still be used. *)
Definition kept_previous (existing : option WebhookConfig) (at_ : Z) : option (string * string) :=
  let? c := existing in
  let? previous := previousSigningSecret c in
  let? expiresAt := previousSigningSecretExpiresAt c in
  let? until := date_of other_date expiresAt in
  if at_ <? until then Some (previous, expiresAt) else None.

Definition edit (actor : ActorContext) (destinationId : string) (input : CreateDestinationInput) : M W DestinationView :=
  lift (requireManage actor) ;;;
  withDestinationTransaction (
    let* found := read_notifs (findDestination (scope_of actor) destinationId) in
    match found with
    | None => throw NO_DESTINATION
    | Some row =>
        if negb (dest_kind row ≡? input_kind (cd_destination input))
        then throw (DestinationKindImmutableError "a destination cannot change what it sends to")
        else
          let* existing := lift (open_settings row) in
          let* at_ := now in
          let* settings :=
            storedFor (cd_destination input) (option_map signingSecret (webhook_secret existing))
              (kept_previous (webhook_secret existing) at_) in
          lift (checkUrl settings) ;;;
          let* values := lift (sealed_values (cd_name input) (targetFor URL_of settings) settings) in
          let* stored := notify (updateDestination (scope_of actor) destinationId values) in
          match stored with
          | None => throw NO_DESTINATION
          | Some stored =>
              subscribe actor destinationId (cd_subscribedTo input) ;;;
              record_for actor "notification.destination.edit" "notificationDestination" destinationId
                [("name", cd_name input)] ;;;
              ret (toDestinationView stored (displayTarget stored) (cd_subscribedTo input) None None)
          end
    end).

Definition rotateSecret (actor : ActorContext) (destinationId : string) : M W string :=
  lift (requireManage actor) ;;;
  withDestinationTransaction (
    let* found := read_notifs (findDestination (scope_of actor) destinationId) in
    match found with
    | None => throw NO_DESTINATION
    | Some row =>
        let* existing := lift (open_settings row) in
        match webhook_secret existing with
        | None => throw (DestinationHasNoSigningKeyError "only a webhook has a signing secret")
        | Some current =>
            let* replacement := newSecret in
            let* at_ := now in
            let* settings :=
              storedFor (in_webhook (wh_url current)) (Some replacement)
                (Some (signingSecret current, toISOString (at_ + ROTATION_OVERLAP_MS))) in
            let* values := lift (sealed_values (dest_name row) (displayTarget row) settings) in
            notify (updateDestination (scope_of actor) destinationId values) ;;;
            record_for actor "notification.destination.rotate" "notificationDestination" destinationId [] ;;;
            ret replacement
        end
    end).

Definition setEnabled (actor : ActorContext) (destinationId : string) (on : bool) : M W Z :=
  lift (requireManage actor) ;;;
  withDestinationTransaction (
    let* changed := notify (setDestinationEnabled (scope_of actor) destinationId on) in
    if negb changed then throw NO_DESTINATION
    else
      let* given_up :=
        if on then ret 0
        else let* at_ := now in
             notify (abandonQueuedFor (scope_of actor) destinationId at_ "this destination was turned off before it could be sent") in
      record_for actor (if on then "notification.destination.enable" else "notification.destination.disable")
        "notificationDestination" destinationId [("abandoned", decimal given_up)] ;;;
      ret given_up).

Definition remove (actor : ActorContext) (destinationId : string) : M W unit :=
  lift (requireManage actor) ;;;
  withDestinationTransaction (
    let* removed := notify (deleteDestination (scope_of actor) destinationId) in
    if negb removed then throw NO_DESTINATION
    else record_for actor "notification.destination.delete" "notificationDestination" destinationId []).

Definition deliveryState (actor : ActorContext) (deliveryId : string) : M W DeliveryProgress :=
  lift (requireRead actor) ;;;
  withDestinationTransaction (
    let* found := read_notifs (findDelivery (scope_of actor) deliveryId) in
    match found with
    | None => throw (DestinationNotFoundError "that test is no longer around")
    | Some delivery => ret (MkProgress (del_state delivery) (lastError delivery) (attempts delivery))
    end).

Definition failures (actor : ActorContext) (offset : nat) : M W FailuresPage :=
  lift (requireRead actor) ;;;
  withDestinationTransaction (
    let* items := read_notifs (recentFailures (scope_of actor) FAILURES_PAGE_SIZE offset) in
    let* total := read_notifs (failureCount (scope_of actor)) in
    ret (MkFailures items total offset)).

Definition dismiss (actor : ActorContext) (deliveryId : string) : M W unit :=
  lift (requireManage actor) ;;;
  withDestinationTransaction (
    let* at_ := now in
    let* dismissed := notify (dismissDelivery (scope_of actor) deliveryId at_) in
    if negb dismissed then throw NOT_WAITING
    else record_for actor "notification.delivery.dismiss" "notificationDelivery" deliveryId []).

Definition alert_payload (actor : ActorContext) (deliveryId : string) : list (string * string) :=
  [("organizationId", scope_of actor); ("deliveryId", deliveryId); ("attempt", "1")] ++ carrier.

Definition retry (actor : ActorContext) (deliveryId : string) : M W unit :=
  lift (requireManage actor) ;;;
  withDestinationTransaction (
    let* existing := read_notifs (findDelivery (scope_of actor) deliveryId) in
    match existing with
    | None => throw NOT_WAITING
    | Some existing =>
        let* found := read_notifs (findDestination (scope_of actor) (del_destinationId existing)) in
        match found with
        | None => throw NO_DESTINATION
        | Some destination =>
            if negb (dest_enabled destination) then throw TURNED_OFF
            else
              let* requeued := notify (requeueDelivery (scope_of actor) deliveryId) in
              if negb requeued then throw NOT_WAITING
              else
                acceptAlert (queueFor destination) (alert_payload actor deliveryId) ;;;
                record_for actor "notification.delivery.retry" "notificationDelivery" deliveryId []
        end
    end).

(** The tests of one minute, of a destination and of the organization. *)
Definition send_test (actor : ActorContext) (destinationId : string) : M W string :=
  lift (requireManage actor) ;;;
  withDestinationTransaction (
    let* found := read_notifs (findDestination (scope_of actor) destinationId) in
    match found with
    | None => throw NO_DESTINATION
    | Some row =>
        if negb (dest_enabled row) then throw TURNED_OFF
        else
          let* at_ := now in
          let since := at_ - TEST_WINDOW_MS in
          let* forDestination := read_notifs (testsSince (scope_of actor) (Some destinationId) since) in
          if throttleExceeded forDestination TESTS_PER_WINDOW
          then throw (DestinationTestThrottledError "this destination was tested a moment ago")
          else
            let* forOrganization := read_notifs (testsSince (scope_of actor) None since) in
            if throttleExceeded forOrganization TESTS_PER_WINDOW_PER_ORGANIZATION
            then throw (OrganizationTestThrottledError "several tests were sent a moment ago")
            else
              let copy := notificationCopy test (dest_name row) in
              let* unique := draw in
              let* notificationId := draw in
              let* notification :=
                notify (createNotification (MkNotification notificationId (scope_of actor) test (copy_title copy)
                  (copy_body copy) "host" destinationId ("test:" +:+ destinationId +:+ ":" +:+ unique) None dbNow)) in
              match notification with
              | None => throw (AlertNotQueuedError "the test alert was not recorded")
              | Some notification =>
                  let* deliveryId := draw in
                  let* delivery :=
                    notify (createDelivery (MkDelivery deliveryId (scope_of actor) (notif_id notification) destinationId
                                              queued 0 dbNow None None)) in
                  match delivery with
                  | None => throw (AlertNotQueuedError "the test alert was not recorded")
                  | Some delivery =>
                      acceptAlert (queueFor row) (alert_payload actor (del_id delivery)) ;;;
                      record_for actor "notification.destination.test" "notificationDestination" destinationId [] ;;;
                      ret (del_id delivery)
                  end
              end
    end).
End Controller.
