(* ===== verification/Senders.v ===== *)
(** Sending an alert over http.

    [bounds.ts], [signature.ts], [pinned.ts], [sender.ts] and [dispatch.ts] of
    [packages/core/src/notification].  A text is its code points, what
    [Array.from] makes of it.  The clock is read once for a delivery, where the
    code reads it again in the sender.  The lookup of names, the http client
    that sends over the pinned addresses, the keyed hash and [JSON.stringify]
    are arguments; an email is sent by the argument [deliverEmail], which [Smtp]
    models. *)

From S2P Require Import Prelude Tables Dates StatusKinds StatusStore NotificationStore Announce Egress Payloads Outcome Delivery Mcp Destinations InstanceStore.

(** ** Bounds *)

Definition Text : Type := list Z.

(** The code points of a text of code units below 256. *)
Fixpoint points (s : string) : Text :=
  match s with EmptyString => [] | String c rest => Z.of_nat (Ascii.nat_of_ascii c) :: points rest end.

(** The bytes of a code point in UTF-8; half a surrogate pair is written as
    U+FFFD, in three. *)
Definition point_bytes (point : Z) : Z :=
  if point <? 128 then 1 else if point <? 2048 then 2 else if point <? 65536 then 3 else 4.

Definition byteLength (text : Text) : Z := fold_right (fun point n => point_bytes point + n) 0 text.

Definition ELLIPSIS : Z := 8230.

Definition truncateChars (text : Text) (max : nat) : Text :=
  if (length text <=? max)%nat then text
  else if (max <=? 1)%nat then take max text
  else take (max - 1) text ++ [ELLIPSIS].

(** The points that fit in what is left of the budget. *)
Fixpoint kept_points (left : Z) (text : Text) : Text :=
  match text with
  | [] => []
  | point :: rest => if left <? point_bytes point then [] else point :: kept_points (left - point_bytes point) rest
  end.

Definition truncateBytes (text : Text) (max : Z) : Text :=
  if byteLength text <=? max then text
  else
    let marker := point_bytes ELLIPSIS in
    if marker <? max then kept_points (max - marker) text ++ [ELLIPSIS] else kept_points max text.

(** ** Signatures *)

Definition SIGNING_SECRET_BYTES : Z := 32.
Definition SIGNATURE_VERSION : string := "v1".

Section Signature.
(** [Buffer.from(text, "base64")], and [createHmac("sha256", key)] of a content
    in base64. *)
Variable base64_bytes : string -> string.
Variable hmac : string -> Text -> string.

Definition signingKeyBytes (secret : string) : string :=
  base64_bytes (if startsWith SIGNING_SECRET_PREFIX secret then slice_from (String.length SIGNING_SECRET_PREFIX) secret else secret).

Definition signedContent (id timestamp : string) (body : Text) : Text := points (id +:+ "." +:+ timestamp +:+ ".") ++ body.

Definition signPayload (secret id timestamp : string) (body : Text) : string :=
  SIGNATURE_VERSION +:+ "," +:+ hmac (signingKeyBytes secret) (signedContent id timestamp body).

Definition signatureHeader (secrets : list string) (id timestamp : string) (body : Text) : string :=
  join_with " " (map (fun secret => signPayload secret id timestamp body) secrets).

(** Of two texts the bytes are compared. *)
Definition verifySignature (header secret id timestamp : string) (body : Text) : bool :=
  let expected := signPayload secret id timestamp body in
  existsb (fun candidate => candidate ≡? expected)
    (List.filter (fun candidate => negb (candidate ≡? EmptyString)) (split_on " " header)).
End Signature.

(** ** Pinned requests *)

Record PinnedAddress := MkPinned { pin_address : string; pin_family : Z; pin_named : bool }.

Inductive PinVerdict := pinned (addresses : list PinnedAddress) | not_pinned (reason : string).

Definition NO_ANSWER : string := "that address could not be looked up".
Definition TOO_SLOW : string := "the delivery took too long".

Definition InternalError_ (message : string) : thrown := ThrownError InternalError message.

Inductive Method := GET | POST.

Record PinnedRequest := MkPinnedRequest {
  req_url : string; req_method : Method; req_headers : list (string * Text); req_body : option Text;
  req_timeoutMs : Z; req_maxResponseBytes : Z; req_policy : EgressPolicy }.

Inductive PinnedResult :=
  | sent (code : Z) (headers : list (string * string)) (reply : string)
  | not_sent (reason : string).

Section Pinned.
Context {W : Type}.
Variables (isIP : string -> Z) (ranges : Tables_).
Variable URL_of : string -> option Url.
(** [lookupAddresses(hostname)], the addresses a name has. *)
Variable lookupAddresses : string -> M W (list string).
(** Whether the time of the delivery has passed. *)
Variable too_late : M W bool.
(** [undiciRequest(url, ...)] over an agent that connects only to the addresses
    its lookup answers. *)
Variable http_request : (option Z -> result (list PinnedAddress)) -> PinnedRequest -> M W PinnedResult.

Fixpoint pin_answers (policy : EgressPolicy) (hostAllowed : bool) (answers : list string) : PinVerdict :=
  match answers with
  | [] => pinned []
  | answer :: rest =>
      let family := isIP answer in
      if family =? 0 then not_pinned NO_ANSWER
      else
        match verifyAddress isIP ranges answer policy hostAllowed with
        | address_refused reason _ => not_pinned reason
        | address_allowed named =>
            match pin_answers policy hostAllowed rest with
            | pinned addresses => pinned (MkPinned answer (if family =? 4 then 4 else 6) named :: addresses)
            | not_pinned reason => not_pinned reason
            end
        end
  end.

Definition resolvePinned (hostname : string) (policy : EgressPolicy) : M W PinVerdict :=
  let hostAllowed := hostIsAllowed hostname policy in
  if negb (isIP hostname =? 0) then
    ret (match verifyAddress isIP ranges hostname policy hostAllowed with
         | address_refused reason _ => not_pinned reason
         | address_allowed named => pinned [MkPinned hostname (if isIP hostname =? 4 then 4 else 6) named]
         end)
  else
    try_catch
      (let* answers := lookupAddresses hostname in
       ret (if (length answers =? 0)%nat then not_pinned NO_ANSWER else pin_answers policy hostAllowed answers))
      (fun _ => ret (not_pinned NO_ANSWER)).

(** What the agent is told of a name: those of the pinned addresses that are
    of the family it asks for. *)
Definition pinnedLookup (addresses : list PinnedAddress) (family : option Z) : result (list PinnedAddress) :=
  let chosen := match family with
                | None => addresses
                | Some wanted => List.filter (fun entry => pin_family entry =? wanted) addresses
                end in
  match chosen with [] => Throw (InternalError_ NO_ANSWER) | _ => Ok chosen end.

(** [beforeDeadline(work, deadline)] *)
Definition beforeDeadline {A} (work : M W A) : M W A :=
  let* late := too_late in
  if late then throw (InternalError_ TOO_SLOW)
  else let* a := work in
       let* late := too_late in
       if late then throw (InternalError_ TOO_SLOW) else ret a.

Definition is_http (url : string) : bool := match URL_of url with Some parsed => protocol parsed ≡? "http:" | None => false end.

Definition sendPinned (request : PinnedRequest) : M W PinnedResult :=
  match verifyDestinationUrl isIP ranges URL_of (req_url request) (req_policy request) with
  | url_refused reason _ => ret (not_sent reason)
  | url_allowed hostname =>
      let* pin := beforeDeadline (resolvePinned (bareHostname hostname) (req_policy request)) in
      match pin with
      | not_pinned reason => ret (not_sent reason)
      | pinned addresses =>
          if is_http (req_url request) && negb (forallb pin_named addresses)
          then ret (not_sent "the address must start with https")
          else http_request (pinnedLookup addresses) request
      end
  end.
End Pinned.

(** ** Senders *)

Definition DISCORD_CONTENT_CHARS : nat := 2000.
Definition SLACK_TEXT_CHARS : nat := 4000.
Definition TEAMS_BODY_BYTES : Z := 25000.
Definition TEAMS_TEXT_BYTES : Z := 20000.
Definition TEAMS_TITLE_CHARS : nat := 250.
Definition NTFY_MESSAGE_BYTES : Z := 4096.
Definition NTFY_TITLE_CHARS : nat := 250.
Definition OPERATIONAL_TEXT_CHARS : nat := 4000.
Definition RESEND_URL : string := "https://api.resend.com/emails".

(** What is given to [JSON.stringify]. *)
Inductive Value :=
  | v_text (text : Text)
  | v_number (n : Z)
  | v_boolean (b : bool)
  | v_list (items : list Value)
  | v_object (fields : list (string * Value)).

Definition v_string (s : string) : Value := v_text (points s).

Definition kind_name (kind : NotificationKind) : string :=
  match kind with about kind => StatusKinds.kind_text kind | test => "test" end.

Section Sending.
Context {W : Type}.
Variables (isIP : string -> Z) (ranges : Tables_).
Variable URL_of : string -> option Url.
Variable lookupAddresses : string -> M W (list string).
Variable too_late : M W bool.
Variable http_request : (option Z -> result (list PinnedAddress)) -> PinnedRequest -> M W PinnedResult.
Variable JSON_text : Value -> Text.
Variable JSON_parse : string -> option Json.
Variable other_number : string -> option Z.
(** What is read of an error of the network. *)
Variable network_error : thrown -> option NetworkError.
Variable base64_bytes : string -> string.
Variable hmac : string -> Text -> string.
Variable policy : EgressPolicy.

Definition header (headers : list (string * string)) (name : string) : option string :=
  option_map snd (List.find (fun entry => entry.1 ≡? name) headers).

Definition webhookBody (envelope : NotificationEnvelope) : Text :=
  JSON_text (v_object
    [("type", v_string (kind_name (env_kind envelope))); ("timestamp", v_string (toISOString (env_occurredAt envelope)));
     ("data", v_object [("id", v_string (env_id envelope)); ("title", v_string (env_title envelope));
        ("body", v_string (env_body envelope));
        ("subject", v_object [("type", v_string (env_subjectType envelope)); ("id", v_string (env_subjectId envelope))])])]).

Definition posting (url : string) (headers : list (string * Text)) (body : Text) : PinnedRequest :=
  MkPinnedRequest url POST headers (Some body) DELIVERY_TIMEOUT_MS DELIVERY_MAX_RESPONSE_BYTES policy.

(** [attempt(request, transport, onSent)] *)
Definition attempt (request : PinnedRequest)
    (onSent : Z -> list (string * string) -> string -> DeliveryOutcome) : M W DeliveryOutcome :=
  let* result :=
    try_catch
      (let* answer := sendPinned isIP ranges URL_of lookupAddresses too_late http_request request in
       ret (match answer with
            | sent code headers reply => onSent code headers reply
            | not_sent reason => classifyRefusal reason
            end))
      (fun error => ret (classifyNetworkFailure (networkReason (network_error error)))) in
  ret result.

Definition by_status (at_ code : Z) (headers : list (string * string)) : DeliveryOutcome :=
  classifyHttpStatus other_number code (header headers "retry-after") at_.

Definition JSON_HEADERS : list (string * Text) :=
  [("content-type", points "application/json"); ("user-agent", points "OpenMCC")].

Definition deliverWebhook (url : string) (signingSecrets : list string) (envelope : NotificationEnvelope) (at_ : Z)
    : M W DeliveryOutcome :=
  let body := webhookBody envelope in
  let timestamp := decimal (at_ / 1000) in
  attempt
    (posting url
       (JSON_HEADERS
          ++ [("webhook-id", points (env_id envelope)); ("webhook-timestamp", points timestamp);
              ("webhook-signature", points (signatureHeader base64_bytes hmac signingSecrets (env_id envelope) timestamp body))])
       body)
    (fun code headers _ => by_status at_ code headers).

Definition plainText (envelope : NotificationEnvelope) : Text :=
  points (env_title envelope) ++ [10] ++ points (env_body envelope).

Definition telegramUrl (token : string) : string := "https://api.telegram.org/bot" +:+ token +:+ "/sendMessage".

Definition deliverTelegram (settings : TelegramConfig) (envelope : NotificationEnvelope) (at_ : Z) : M W DeliveryOutcome :=
  attempt
    (posting (telegramUrl (botToken settings)) JSON_HEADERS
       (JSON_text (v_object
          ([("chat_id", v_string (chatId settings)); ("text", v_text (plainText envelope));
            ("disable_notification", v_boolean false); ("disable_web_page_preview", v_boolean true)]
           ++ match messageThreadId settings with Some id => [("message_thread_id", v_number id)] | None => [] end))))
    (fun code _ reply => classifyTelegramReply other_number code (parseTelegramReply JSON_parse reply) at_).

Definition discordContent (envelope : NotificationEnvelope) : Text := truncateChars (plainText envelope) DISCORD_CONTENT_CHARS.
Definition discordBody (envelope : NotificationEnvelope) : Text := JSON_text (v_object [("content", v_text (discordContent envelope))]).

Definition deliverDiscord (url : string) (envelope : NotificationEnvelope) (at_ : Z) : M W DeliveryOutcome :=
  attempt (posting url JSON_HEADERS (discordBody envelope))
    (fun code headers reply => classifyDiscordReply other_number JSON_parse code (header headers "retry-after") reply at_).

Definition slackText (envelope : NotificationEnvelope) : Text := truncateChars (plainText envelope) SLACK_TEXT_CHARS.
Definition slackBody (envelope : NotificationEnvelope) : Text := JSON_text (v_object [("text", v_text (slackText envelope))]).

Definition deliverSlack (url : string) (envelope : NotificationEnvelope) (at_ : Z) : M W DeliveryOutcome :=
  attempt (posting url JSON_HEADERS (slackBody envelope)) (fun code headers _ => by_status at_ code headers).

Definition RESOLVING (kind : NotificationKind) : bool :=
  match kind with about kind => bool_decide (kind ∈ RESOLVING_EVENT_KINDS) | test => false end.

(** A tick, or a warning sign with its variation selector. *)
Definition teamsTitle (envelope : NotificationEnvelope) : Text :=
  (if RESOLVING (env_kind envelope) then [9989] else [9888; 65039])
    ++ points " " ++ truncateChars (points (env_title envelope)) TEAMS_TITLE_CHARS.

Definition teamsText (envelope : NotificationEnvelope) : Text := truncateBytes (points (env_body envelope)) TEAMS_TEXT_BYTES.

Definition teamsBody (envelope : NotificationEnvelope) : Text :=
  JSON_text (v_object
    [("type", v_string "message");
     ("attachments", v_list [v_object
        [("contentType", v_string "application/vnd.microsoft.card.adaptive");
         ("content", v_object
            [("type", v_string "AdaptiveCard"); ("$schema", v_string "http://adaptivecards.io/schemas/adaptive-card.json");
             ("version", v_string "1.2");
             ("body", v_list
                [v_object [("type", v_string "TextBlock"); ("text", v_text (teamsTitle envelope)); ("size", v_string "Medium");
                           ("weight", v_string "Bolder"); ("wrap", v_boolean true)];
                 v_object [("type", v_string "TextBlock"); ("text", v_text (teamsText envelope)); ("wrap", v_boolean true)]])])]])]).

Definition deliverTeams (url : string) (envelope : NotificationEnvelope) (at_ : Z) : M W DeliveryOutcome :=
  attempt (posting url JSON_HEADERS (teamsBody envelope)) (fun code headers _ => by_status at_ code headers).

(** [serverUrl.replace(/\/+$/, "")] *)
Fixpoint without_slashes (url : string) : string :=
  match url with
  | EmptyString => EmptyString
  | String c rest => if chars_all (fun d => d ≡? "/"%char) url then EmptyString else String c (without_slashes rest)
  end.

Definition gotifyUrl (serverUrl : string) : string := without_slashes serverUrl +:+ "/message".

Definition gotifyBody (envelope : NotificationEnvelope) (priority : Z) : Text :=
  JSON_text (v_object
    [("title", v_text (truncateChars (points (env_title envelope)) TEAMS_TITLE_CHARS));
     ("message", v_text (truncateChars (points (env_body envelope)) OPERATIONAL_TEXT_CHARS));
     ("priority", v_number priority);
     ("extras", v_object [("client::display", v_object [("contentType", v_string "text/plain")])])]).

Definition deliverGotify (settings : GotifyConfig) (envelope : NotificationEnvelope) (at_ : Z) : M W DeliveryOutcome :=
  attempt
    (posting (gotifyUrl (gotify_serverUrl settings)) (JSON_HEADERS ++ [("x-gotify-key", points (appToken settings))])
       (gotifyBody envelope (gotify_priority settings)))
    (fun code headers _ => by_status at_ code headers).

Definition ntfyMessage (envelope : NotificationEnvelope) : Text := truncateBytes (points (env_body envelope)) NTFY_MESSAGE_BYTES.
Definition ntfyUrl (serverUrl topic : string) : string := without_slashes serverUrl +:+ "/" +:+ topic.

Definition deliverNtfy (settings : NtfyConfig) (envelope : NotificationEnvelope) (at_ : Z) : M W DeliveryOutcome :=
  attempt
    (posting (ntfyUrl (ntfy_serverUrl settings) (topic settings))
       ([("content-type", points "text/plain; charset=utf-8"); ("user-agent", points "OpenMCC");
         ("x-title", truncateChars (points (env_title envelope)) NTFY_TITLE_CHARS);
         ("x-priority", points (decimal (ntfy_priority settings)))]
        ++ match accessToken settings with Some token => [("authorization", points ("Bearer " +:+ token))] | None => [] end)
       (ntfyMessage envelope))
    (fun code headers _ => by_status at_ code headers).

Definition resendBody (envelope : NotificationEnvelope) (from : string) (to : list string) : Text :=
  JSON_text (v_object
    [("from", v_string from); ("to", v_list (map v_string to));
     ("subject", v_text (truncateChars (points (env_title envelope)) TEAMS_TITLE_CHARS));
     ("text", v_text (truncateChars (points (env_body envelope)) OPERATIONAL_TEXT_CHARS))]).

Definition deliverResend (settings : ResendConfig) (envelope : NotificationEnvelope) (at_ : Z) : M W DeliveryOutcome :=
  attempt
    (posting RESEND_URL
       (JSON_HEADERS ++ [("authorization", points ("Bearer " +:+ apiKey settings));
                         ("idempotency-key", points (env_deliveryId envelope))])
       (resendBody envelope (resend_from settings) (resend_to settings)))
    (fun code headers reply => classifyResendReply other_number JSON_parse code (header headers "retry-after") reply at_).

Definition fitsTeamsMessage (body : Text) : bool := byteLength body <=? TEAMS_BODY_BYTES.

(** ** Which sender *)

Variables is_url is_email is_datetime : string -> bool.
Variable other_date : string -> option Z.
Variable open : string -> string -> result string.
Variable now : M W Z.
Variable deliverEmail : EmailConfig -> NotificationEnvelope -> M W DeliveryOutcome.

Definition UNREADABLE_SETTINGS : string := "this destination's settings could not be read".

Definition dispatchTo (destination : NotificationDestinationRow) (envelope : NotificationEnvelope) : M W DeliveryOutcome :=
  match open (secretEncrypted destination) (secretKeyId destination) with
  | Throw _ => ret (classifyRefusal UNREADABLE_SETTINGS)
  | Ok opened =>
      match readDestinationConfig is_url is_email is_datetime JSON_parse (dest_kind destination) opened with
      | None => ret (classifyRefusal UNREADABLE_SETTINGS)
      | Some settings =>
          let* at_ := now in
          match settings with
          | to_telegram c => deliverTelegram c envelope at_
          | to_webhook c => deliverWebhook (wh_url c) (usableSigningSecrets other_date c at_) envelope at_
          | to_discord url => deliverDiscord url envelope at_
          | to_slack url => deliverSlack url envelope at_
          | to_teams url => deliverTeams url envelope at_
          | to_gotify c => deliverGotify c envelope at_
          | to_ntfy c => deliverNtfy c envelope at_
          | to_resend c => deliverResend c envelope at_
          | to_email c => deliverEmail c envelope
          end
      end
  end.
End Sending.
