(* ===== verification/SenderSafety.v ===== *)
(** What sending an alert promises.

    No request leaves for an address the policy forbids, a signature is
    verified by whoever holds one of the secrets it was made with, and texts
    are cut to their bounds.  The theorems are of [Senders]. *)

From S2P Require Import Prelude Tables Dates StatusKinds StatusStore NotificationStore Announce Egress Payloads Outcome Delivery Mcp Destinations InstanceStore Senders.

(** ** Bounds *)

Lemma point_bytes_positive point : 1 <= point_bytes point <= 4.
Proof. unfold point_bytes. destruct (point <? 128), (point <? 2048), (point <? 65536); lia. Qed.

Lemma byteLength_nonneg text : 0 <= byteLength text.
Proof. induction text as [|p t IH]; simpl; [lia|]. pose proof (point_bytes_positive p). lia. Qed.

Lemma byteLength_app a b : byteLength (a ++ b) = byteLength a + byteLength b.
Proof. induction a as [|p a IH]; simpl; lia. Qed.

Lemma kept_points_spec left text : 0 <= left ->
  byteLength (kept_points left text) <= left
  /\ exists n, kept_points left text = take n text
     /\ ((n < length text)%nat -> left < byteLength (take (S n) text)).
Proof.
  revert left. induction text as [|p t IH]; intros left Hl; simpl.
  - split; [done|]. exists 0%nat. split; [done|]. simpl. lia.
  - destruct (Z.ltb_spec left (point_bytes p)) as [Hp|Hp].
    + split; [done|]. exists 0%nat. split; [done|]. simpl. destruct t; simpl; lia.
    + destruct (IH (left - point_bytes p)) as (Hb & n & Hn & Hmax); [lia|]. split; [simpl; lia|].
      exists (S n). split; [simpl; by rewrite Hn|]. simpl. intros Hlt.
      assert (Hlt' : (n < length t)%nat) by lia. specialize (Hmax Hlt'). simpl in Hmax. lia.
Qed.

(** A text cut for a service is within what the service takes, is left alone
    when it fits, and otherwise is the longest beginning that leaves room for
    the ellipsis, followed by it: in code points of [truncateChars], in bytes of
    UTF-8 of [truncateBytes], which cuts no code point in two. *)
Theorem texts_are_cut_to_their_bounds text (chars : nat) bytes :
  let cut := truncateChars text chars in
  let cut_bytes := truncateBytes text bytes in
  (length cut <= chars)%nat
  /\ ((length text <= chars)%nat -> cut = text)
  /\ ((1 < chars < length text)%nat -> cut = take (chars - 1) text ++ [ELLIPSIS])
  /\ (0 <= bytes -> byteLength cut_bytes <= bytes)
  /\ (byteLength text <= bytes -> cut_bytes = text)
  /\ (3 < bytes < byteLength text -> exists n, cut_bytes = take n text ++ [ELLIPSIS]
       /\ ((n < length text)%nat -> bytes - 3 < byteLength (take (S n) text))).
Proof.
  unfold truncateChars, truncateBytes. change (point_bytes ELLIPSIS) with 3. split_and!.
  - destruct (Nat.leb_spec (length text) chars); [done|]. destruct (Nat.leb_spec chars 1).
    + rewrite length_take. lia.
    + rewrite length_app, length_take. simpl. lia.
  - intros H. by rewrite (proj2 (Nat.leb_le _ _) H).
  - intros [H1 H2]. rewrite (proj2 (Nat.leb_gt _ _) H2). by rewrite (proj2 (Nat.leb_gt _ _) H1).
  - intros H0. destruct (Z.leb_spec (byteLength text) bytes); [done|]. destruct (Z.ltb_spec 3 bytes).
    + destruct (kept_points_spec (bytes - 3) text) as [Hb _]; [lia|]. rewrite byteLength_app. simpl.
      change (point_bytes ELLIPSIS) with 3. lia.
    + by apply kept_points_spec.
  - intros H. by rewrite (proj2 (Z.leb_le _ _) H).
  - intros [H1 H2]. rewrite (proj2 (Z.leb_gt _ _) H2), (proj2 (Z.ltb_lt _ _) H1).
    destruct (kept_points_spec (bytes - 3) text) as [_ (n & Hn & Hmax)]; [lia|]. exists n. by rewrite Hn.
Qed.

(** ** Signatures *)

Section Signing.
Variable base64_bytes : string -> string.
Variable hmac : string -> Text -> string.

(** Base64 holds no space. *)
Class HashInBase64 : Prop := hash_free : forall key content, free_of " " (hmac key content) = true.

Context `{Hash : !HashInBase64}.

Lemma signature_free secret id timestamp body : free_of " " (signPayload base64_bytes hmac secret id timestamp body) = true.
Proof. unfold signPayload. rewrite !free_of_app, hash_free. done. Qed.

Lemma signed_is_verified secrets secret id timestamp body : In secret secrets ->
  verifySignature base64_bytes hmac (signatureHeader base64_bytes hmac secrets id timestamp body) secret id timestamp body = true.
Proof.
  intros Hin. unfold verifySignature, signatureHeader. change " "%string with (String " "%char "").
  rewrite split_join.
  - apply existsb_exists. exists (signPayload base64_bytes hmac secret id timestamp body).
    rewrite bool_decide_eq_true_2 by done. split; [|done]. apply filter_In.
    split; [exact (in_map (fun s => signPayload base64_bytes hmac s id timestamp body) _ _ Hin)|done].
  - by destruct secrets.
  - apply List.Forall_forall. intros s (x & <- & _)%in_map_iff. apply signature_free.
Qed.
End Signing.

(** ** Where requests go *)

Section Going.
Context {W : Type}.
Variables (isIP : string -> Z) (ranges : Tables_).
Variable URL_of : string -> option Url.
Variable lookupAddresses : string -> M W (list string).
Variable too_late : M W bool.
Variable http_request : (option Z -> result (list PinnedAddress)) -> PinnedRequest -> M W PinnedResult.

(** A request and what its agent is told of a name. *)
Record Sent := MkSent { sent_lookup : option Z -> result (list PinnedAddress); sent_request : PinnedRequest }.

(** The same surroundings, with the requests that left written down. *)
Definition quiet {A} (m : M W A) : M (W * list Sent) A := fun s => let '(r, w) := m s.1 in (r, (w, s.2)).
Definition noted_request (lookup : option Z -> result (list PinnedAddress)) (request : PinnedRequest)
    : M (W * list Sent) PinnedResult :=
  fun s => let '(r, w) := http_request lookup request s.1 in (r, (w, s.2 ++ [MkSent lookup request])).

(** The policy lets the agent connect to every address it is told of, and over
    http each was named in the settings. *)
Definition goes_where_allowed (s : Sent) : Prop :=
  exists hostname, verifyDestinationUrl isIP ranges URL_of (req_url (sent_request s)) (req_policy (sent_request s)) = url_allowed hostname
  /\ forall family chosen, sent_lookup s family = Ok chosen -> chosen <> []
     /\ Forall (fun a =>
          verifyAddress isIP ranges (pin_address a) (req_policy (sent_request s))
            (hostIsAllowed (bareHostname hostname) (req_policy (sent_request s))) = address_allowed (pin_named a)
          /\ (is_http URL_of (req_url (sent_request s)) = true -> pin_named a = true)
          /\ match family with Some f => pin_family a = f | None => True end) chosen.

Definition nothing_yet (s : W * list Sent) : Prop := s.2 = [].

Lemma nothing_quiet {A} (m : M W A) : preserves nothing_yet (quiet m).
Proof. intros [w log] H. unfold quiet. simpl. by destruct (m w) as [[a|e] w']. Qed.

Definition pins (policy : EgressPolicy) (hostname : string) (verdict : PinVerdict) : Prop :=
  match verdict with
  | pinned addresses =>
      Forall (fun a => verifyAddress isIP ranges (pin_address a) policy (hostIsAllowed hostname policy) = address_allowed (pin_named a)) addresses
  | not_pinned _ => True
  end.

Lemma answers_pinned policy hostname answers :
  pins policy hostname (pin_answers isIP ranges policy (hostIsAllowed hostname policy) answers).
Proof.
  induction answers as [|a rest IH]; simpl; [by constructor|]. destruct (isIP a =? 0); [done|].
  destruct (verifyAddress isIP ranges a policy _) as [named|reason category] eqn:E; [|done].
  destruct (pin_answers _ _ _ _ rest) as [l|reason]; [|done]. by constructor.
Qed.

Lemma resolved_pinned policy hostname lookup :
  triple nothing_yet (resolvePinned isIP ranges (fun name => quiet (lookup name)) hostname policy)
    (fun verdict s => pins policy hostname verdict /\ nothing_yet s) (fun _ => nothing_yet).
Proof.
  unfold resolvePinned. destruct (negb (isIP hostname =? 0)).
  - intros s Hs. simpl. split; [|done].
    destruct (verifyAddress isIP ranges hostname policy _) as [named|reason category] eqn:E; [|done]. by repeat constructor.
  - eapply triple_catch; [eapply triple_bind; [apply nothing_quiet|]|].
    + intros answers s Hs. simpl. split; [|done]. destruct (_ =? 0)%nat; [done|apply answers_pinned].
    + intros e s Hs. done.
Qed.

(** At most the one request, and that where it may go. *)
Definition at_most (request : PinnedRequest) (s : W * list Sent) : Prop :=
  s.2 = [] \/ exists one, s.2 = [one] /\ goes_where_allowed one /\ sent_request one = request.

Lemma nothing_at_most request s : nothing_yet s -> at_most request s.
Proof. by left. Qed.

Lemma pinned_goes addresses request hostname :
  verifyDestinationUrl isIP ranges URL_of (req_url request) (req_policy request) = url_allowed hostname ->
  pins (req_policy request) (bareHostname hostname) (pinned addresses) ->
  is_http URL_of (req_url request) && negb (forallb pin_named addresses) = false ->
  goes_where_allowed (MkSent (pinnedLookup addresses) request).
Proof.
  intros Eu Hpins Ehttp. exists hostname. split; [exact Eu|]. simpl. intros family chosen Hl. unfold pinnedLookup in Hl.
  set (these := match family with Some _ => _ | None => _ end) in Hl.
  destruct these as [|a0 rest] eqn:Et; [done|]. injection Hl as <-. split; [done|]. rewrite <- Et.
  apply List.Forall_forall. intros a Ha.
  assert (Hin : In a addresses /\ match family with Some f => pin_family a = f | None => True end).
  { unfold these in Ha. destruct family; [|done]. apply filter_In in Ha as [H1 H2%Z.eqb_eq]. done. }
  destruct Hin as [Hin Hf]. simpl in Hpins. rewrite List.Forall_forall in Hpins. split; [by apply Hpins|]. split; [|done].
  intros Hh. rewrite Hh in Ehttp. apply negb_false_iff in Ehttp. rewrite forallb_forall in Ehttp. by apply Ehttp.
Qed.

Lemma sending_is_allowed request :
  triple nothing_yet
    (sendPinned isIP ranges URL_of (fun name => quiet (lookupAddresses name)) (quiet too_late) noted_request request)
    (fun _ => at_most request) (fun _ => at_most request).
Proof.
  unfold sendPinned. destruct (verifyDestinationUrl _ _ _ _ _) as [hostname|reason category] eqn:Eu; [|by intros s Hs; left].
  eapply (triple_bind _ _ _ (fun verdict s => pins (req_policy request) (bareHostname hostname) verdict /\ nothing_yet s)).
  - eapply (triple_consequence nothing_yet nothing_yet _ _ _ _ (fun _ => nothing_yet));
      [|done|intros a s H; exact H|intros e s; apply nothing_at_most].
    unfold beforeDeadline. eapply triple_bind; [apply nothing_quiet|]. intros [|]; [by intros s Hs|].
    eapply triple_bind; [apply resolved_pinned|]. intros verdict. apply triple_and. intros Hv.
    eapply triple_bind; [apply nothing_quiet|]. intros [|]; [by intros s Hs|]. by intros s Hs.
  - intros [addresses|reason]; apply triple_and; intros Hpins; [|by intros s Hs; left].
    destruct (is_http URL_of (req_url request) && negb (forallb pin_named addresses)) eqn:Ehttp; [by intros s Hs; left|].
    intros [w log] Hs. unfold nothing_yet in Hs. simpl in Hs. subst log. unfold noted_request. simpl.
    assert (Hnew : at_most request (w, [MkSent (pinnedLookup addresses) request])).
    { right. eexists. split; [done|]. split; [by eapply pinned_goes|done]. }
    by destruct (http_request _ _ w) as [[r|e] w'].
Qed.

(** ** Alerts *)

Variable JSON_text : Value -> Text.
Variable JSON_parse : string -> option Json.
Variable other_number : string -> option Z.
Variable network_error : thrown -> option NetworkError.
Variable base64_bytes : string -> string.
Variable hmac : string -> Text -> string.
Variable policy : EgressPolicy.
Variables is_url is_email is_datetime : string -> bool.
Variable other_date : string -> option Z.
Variable open : string -> string -> result string.
Variable now : M W Z.
Variable deliverEmail : EmailConfig -> NotificationEnvelope -> M W DeliveryOutcome.

Definition one_alert (s : W * list Sent) : Prop :=
  s.2 = [] \/ exists one, s.2 = [one] /\ goes_where_allowed one /\ req_policy (sent_request one) = policy.

Lemma attempt_is_allowed request onSent : req_policy request = policy ->
  triple nothing_yet
    (attempt isIP ranges URL_of (fun name => quiet (lookupAddresses name)) (quiet too_late) noted_request network_error request onSent)
    (fun _ => one_alert) (fun _ => one_alert).
Proof.
  intros Hp. assert (Himp : forall s, at_most request s -> one_alert s).
  { intros s [H|(one & H1 & H2 & H3)]; [by left|]. right. exists one. by rewrite H3. }
  unfold attempt. eapply triple_bind; [|intros r; apply triple_ret]. eapply triple_catch.
  - eapply triple_bind; [apply sending_is_allowed|]. intros answer s Hs. simpl. by apply Himp.
  - intros e s Hs. by apply Himp.
Qed.

(** C6: sending an alert, to whatever kind of destination with whatever
    settings, makes at most one http request, and that only where the policy
    lets it: the address of the destination passed the checks, and every
    network address the connection may be made to, of whichever family the
    agent asks for, was itself checked after the name was looked up, so that a
    name cannot be made to mean another address between the check and the
    connection; over http each of them is named in the settings. *)
Theorem alerts_go_where_the_policy_allows destination envelope w :
  let run := dispatchTo isIP ranges URL_of (fun name => quiet (lookupAddresses name)) (quiet too_late) noted_request JSON_text
               JSON_parse other_number network_error base64_bytes hmac policy is_url is_email is_datetime other_date open
               (quiet now) (fun config env => quiet (deliverEmail config env)) destination envelope (w, []) in
  run.2.2 = [] \/ exists one, run.2.2 = [one] /\ goes_where_allowed one /\ req_policy (sent_request one) = policy.
Proof.
  intros run. enough (H : triple nothing_yet
    (dispatchTo isIP ranges URL_of (fun name => quiet (lookupAddresses name)) (quiet too_late) noted_request JSON_text
       JSON_parse other_number network_error base64_bytes hmac policy is_url is_email is_datetime other_date open
       (quiet now) (fun config env => quiet (deliverEmail config env)) destination envelope)
    (fun _ => one_alert) (fun _ => one_alert)).
  { specialize (H (w, []) eq_refl). fold run in H. by destruct run as [[r|e] s]. }
  clear run. unfold dispatchTo. destruct (open _ _) as [opened|e]; [|by intros s Hs; left].
  destruct (readDestinationConfig _ _ _ _ _ _) as [settings|]; [|by intros s Hs; left].
  eapply (triple_bind _ _ _ (fun _ => nothing_yet)).
  { eapply (triple_consequence nothing_yet nothing_yet _ _ (fun _ => nothing_yet) _ (fun _ => nothing_yet));
      [apply nothing_quiet|done|done|by left]. }
  intros at_. destruct settings; try by apply attempt_is_allowed.
  eapply (triple_consequence nothing_yet nothing_yet _ _ (fun _ => nothing_yet) _ (fun _ => nothing_yet));
    [apply nothing_quiet|done|by left|by left].
Qed.
End Going.
