(* ===== verification/DestinationSafety.v ===== *)
(** What the requests on destinations promise.

    Settings are read back as they were saved, a rotated secret overlaps with
    the one before it, a request that fails changes nothing and one that
    succeeds is recorded, tests are throttled, and an alert sent again has its
    job.  The theorems are of [Destinations], with the signatures of [Senders]. *)

From S2P Require Import Prelude Tables Journal Observer ClientConfig ConfigDrift Dates StatusKinds StatusStore NotificationStore Announce Access Egress InstanceStore Payloads Outcome Mcp Delivery Destinations Senders SenderSafety.

(** ** Settings that can be stored *)

Section Storable.
Variables is_url is_email is_datetime : string -> bool.

Definition url_ok (url : string) : bool := is_url url && (String.length url <=? 2048)%nat.
Definition length_between (low high : nat) (s : string) : bool := (low <=? String.length s)%nat && (String.length s <=? high)%nat.
Definition if_some {A} (p : A -> bool) (value : option A) : bool := match value with Some a => p a | None => true end.
Definition recipients_ok (l : list string) : bool := forallb is_email l && (1 <=? length l)%nat && (length l <=? 20)%nat.

Definition storable (settings : StoredDestinationConfig) : bool :=
  match settings with
  | to_webhook c =>
      url_ok (wh_url c) && length_between 1 128 (signingSecret c) && if_some (length_between 1 128) (previousSigningSecret c)
      && if_some is_datetime (previousSigningSecretExpiresAt c)
  | to_telegram c =>
      length_between 1 256 (botToken c) && length_between 1 64 (chatId c) && if_some (fun n => 1 <=? n) (messageThreadId c)
  | to_discord url | to_slack url | to_teams url => url_ok url
  | to_gotify c =>
      url_ok (gotify_serverUrl c) && length_between 1 256 (appToken c) && (0 <=? gotify_priority c) && (gotify_priority c <=? 10)
  | to_ntfy c =>
      url_ok (ntfy_serverUrl c) && topic_shape (topic c) && if_some (length_between 0 256) (accessToken c)
      && (1 <=? ntfy_priority c) && (ntfy_priority c <=? 5)
  | to_resend c => length_between 1 256 (apiKey c) && is_email (resend_from c) && recipients_ok (resend_to c)
  | to_email c =>
      length_between 1 253 (smtpServer c) && (1 <=? smtpPort c) && (smtpPort c <=? 65535)
      && length_between 0 256 (smtp_username c) && length_between 0 256 (smtp_password c) && is_email (email_from c)
      && recipients_ok (email_to c)
  end.

Lemma z_url_ok url : url_ok url = true -> z_url is_url (JString url) = Some url.
Proof. unfold url_ok, z_url, z_refine. simpl. intros [-> ->]%andb_prop. done. Qed.

Lemma z_text_ok low high s : length_between low high s = true -> z_text low high (JString s) = Some s.
Proof. unfold length_between, z_text, z_refine. simpl. intros ->. done. Qed.

Lemma whole_one n : whole n 1 = Some n.
Proof. unfold whole. by rewrite Z.mod_1_r, Z.div_1_r. Qed.

Lemma z_integer_ok low high n : low <= n -> match high with Some h => n <= h | None => True end ->
  z_integer low high (Mcp.int n) = Some n.
Proof.
  intros Hl Hh. unfold z_integer. simpl. rewrite whole_one. rewrite (proj2 (Z.leb_le _ _) Hl). simpl.
  destruct high as [h|]; [|done]. by rewrite (proj2 (Z.leb_le _ _) Hh).
Qed.

Lemma z_recipients_ok l : recipients_ok l = true -> z_recipients is_email (JArray (map JString l)) = Some l.
Proof.
  unfold recipients_ok, z_recipients, z_array. unfold z_refine at 1. intros [[Hall H1]%andb_prop H2]%andb_prop.
  assert (E : all_of (z_email is_email) (map JString l) = Some l).
  { clear H1 H2. induction l as [|a l IH]; [done|]. cbn [map all_of forallb] in *. apply andb_prop in Hall as [Ha Hl].
    rewrite (IH Hl). unfold z_email, z_refine. simpl. by rewrite Ha. }
  by rewrite E, H1, H2.
Qed.

(** What is saved is read back. *)
Lemma stored_is_read settings : storable settings = true ->
  destinationStoredConfig is_url is_email is_datetime (kind_of settings) (config_json settings) = Some settings.
Proof.
  destruct settings as [[url secret previous expires]|[token chat thread]|url|url|url|[server token priority]
    |[server topic token priority]|[key from to]|[server port user secret from to]]; simpl; intros H; tests.
  - unfold webhookStoredConfig, z_object, config_json, need, may. cbn [kind_of].
    destruct previous as [previous|], expires as [expires|]; simpl in *; rewrite ?z_url_ok, ?z_text_ok by done; simpl; unfold z_refine; simpl; rewrite ?H0; done.
  - unfold telegramConfigInput, z_object, need, may.
    destruct thread as [thread|]; simpl in *; rewrite !z_text_ok by done; [|done]. tests. by rewrite z_integer_ok.
  - unfold incomingWebhookConfigInput, z_object, need. simpl. by rewrite z_url_ok.
  - unfold incomingWebhookConfigInput, z_object, need. simpl. by rewrite z_url_ok.
  - unfold incomingWebhookConfigInput, z_object, need. simpl. by rewrite z_url_ok.
  - unfold gotifyConfigInput, z_object, need, may_default, may. simpl. by rewrite z_url_ok, z_text_ok, z_integer_ok.
  - unfold ntfyConfigInput, z_object, need, may_default, may. destruct token as [token|]; simpl in *;
      rewrite z_url_ok by done; unfold z_refine; simpl; rewrite ?H3, ?H2; rewrite ?z_text_ok by done;
      rewrite ?H3, z_integer_ok by done; done.
  - unfold resendConfigInput, z_object, need, z_email, z_refine. simpl. rewrite z_text_ok by done. simpl. rewrite H1. by rewrite z_recipients_ok.
  - unfold emailConfigInput, z_object, need, z_email, z_refine. simpl. rewrite z_text_ok, z_integer_ok, !z_text_ok by done. simpl.
    rewrite H1. by rewrite z_recipients_ok.
Qed.

(** What was read can be stored. *)
Lemma z_url_some v url : z_url is_url v = Some url -> url_ok url = true.
Proof.
  unfold z_url, z_refine. destruct (z_string v) as [s|]; [|done]. destruct (is_url s) eqn:E; [|done].
  destruct (_ <=? _)%nat eqn:El; [|done]. intros [= <-]. unfold url_ok. by rewrite E, El.
Qed.

Lemma z_text_some low high v s : z_text low high v = Some s -> length_between low high s = true.
Proof.
  unfold z_text, z_refine. destruct (z_string v) as [s'|]; [|done]. destruct (_ && _) eqn:E; [|done]. by intros [= <-].
Qed.

Lemma z_refine_some {A} (schema : Schema A) ok v a : z_refine schema ok v = Some a -> ok a = true.
Proof. unfold z_refine. destruct (schema v) as [a'|]; [|done]. destruct (ok a') eqn:E; [|done]. by intros [= <-]. Qed.

Lemma z_integer_some low high v n : z_integer low high v = Some n ->
  (low <=? n) = true /\ match high with Some h => (n <=? h) = true | None => True end.
Proof.
  unfold z_integer. destruct (z_number v) as [m|]; [|done]. destruct (whole _ _) as [k|]; [|done].
  destruct (low <=? k) eqn:El; [|done]. simpl. destruct high as [h|]; [|by intros [= <-]].
  destruct (k <=? h) eqn:Eh; [|done]. by intros [= <-].
Qed.

Lemma z_recipients_some v l : z_recipients is_email v = Some l -> recipients_ok l = true.
Proof.
  unfold z_recipients. unfold z_refine at 1. destruct (z_array _ v) as [l'|] eqn:E; [|done]. destruct (_ && _) eqn:El; [|done].
  intros [= <-]. unfold recipients_ok. rewrite <- andb_assoc, El, andb_true_r. unfold z_array in E. destruct v; try done.
  clear El. revert l' E. induction items as [|item items IH]; simpl; intros l'; [by intros [= <-]|].
  destruct (z_email is_email item) as [a|] eqn:Ea; [|done]. destruct (all_of _ items) as [rest|]; [|done].
  intros [= <-]. simpl. unfold z_email in Ea. apply z_refine_some in Ea. rewrite Ea. by apply IH.
Qed.

Lemma may_some {A} key (schema : Schema A) fields value (p : A -> bool) :
  (forall v a, schema v = Some a -> p a = true) -> may key schema fields = Some value -> if_some p value = true.
Proof.
  unfold may. intros Hp. destruct (field key fields) as [v|]; [|by intros [= <-]].
  destruct (schema v) as [a|] eqn:E; [|done]. intros [= <-]. by eapply Hp.
Qed.

Lemma need_read {A} key (schema : Schema A) fields a : need key schema fields = Some a -> exists v, schema v = Some a.
Proof. unfold need. destruct (field key fields) as [v|]; [by exists v|done]. Qed.

(** The fields of an object that was read. *)
Ltac read_members :=
  repeat match goal with
  | H : (let? x := ?m in _) = Some _ |- _ =>
      let n := fresh "x" in let E := fresh "E" in destruct m as [n|] eqn:E; [|discriminate H]
  | H : Some _ = Some _ |- _ => injection H as <-
  | H : z_object _ ?v = Some _ |- _ => unfold z_object in H; destruct v; try discriminate H
  | H : need _ _ _ = Some _ |- _ => apply need_read in H as [? H]
  end.

Lemma integer_default key low high value fields n :
  may_default key (z_integer low (Some high)) value fields = Some n -> low <= value <= high ->
  (low <=? n) = true /\ (n <=? high) = true.
Proof.
  unfold may_default, may. intros H Hv. destruct (field key fields) as [v|].
  - destruct (z_integer _ _ v) as [k|] eqn:E; [|done]. injection H as <-. by apply z_integer_some in E.
  - injection H as <-. simpl. rewrite !Z.leb_le. lia.
Qed.

Lemma optional_thread fields value : may "messageThreadId" (z_integer 1 None) fields = Some value -> if_some (fun n => 1 <=? n) value = true.
Proof. apply may_some. intros v n Hn. by apply z_integer_some in Hn as [Hn _]. Qed.

(** What each schema says of its value. *)
Ltac members_ok :=
  repeat match goal with
  | H : z_url _ _ = Some _ |- _ => apply z_url_some in H
  | H : z_text _ _ _ = Some _ |- _ => apply z_text_some in H
  | H : z_email _ _ = Some _ |- _ => apply z_refine_some in H
  | H : z_refine _ _ _ = Some _ |- _ => apply z_refine_some in H
  | H : z_recipients _ _ = Some _ |- _ => apply z_recipients_some in H
  | H : z_integer _ _ _ = Some _ |- _ => apply z_integer_some in H as [? ?]
  | H : may _ (z_text _ _) _ = Some _ |- _ => apply (may_some _ _ _ _ _ (z_text_some _ _)) in H
  | H : may _ (z_refine _ _) _ = Some _ |- _ => apply (may_some _ _ _ _ _ (z_refine_some _ _)) in H
  | H : may _ (z_integer _ _) _ = Some _ |- _ => apply optional_thread in H
  | H : may_default _ _ _ _ = Some _ |- _ => apply integer_default in H as [? ?]; [|lia]
  end;
  cbn [storable wh_url signingSecret previousSigningSecret previousSigningSecretExpiresAt botToken chatId messageThreadId
       gotify_serverUrl appToken gotify_priority ntfy_serverUrl topic accessToken ntfy_priority apiKey resend_from resend_to
       smtpServer smtpPort smtp_username smtp_password email_from email_to];
  repeat match goal with H : ?p = true |- context [?p] => rewrite H; clear H end.

Lemma read_is_storable kind v settings :
  destinationStoredConfig is_url is_email is_datetime kind v = Some settings -> kind_of settings = kind /\ storable settings = true.
Proof.
  unfold destinationStoredConfig, webhookStoredConfig, telegramConfigInput, incomingWebhookConfigInput, gotifyConfigInput,
    ntfyConfigInput, resendConfigInput, emailConfigInput.
  destruct kind; intros H; read_members; (split; [reflexivity|]); by members_ok.
Qed.

Variable JSON_parse : string -> option Json.
Variable JSON_stringify : Json -> string.

(** the settings of a destination of every kind are read back from the vault
    exactly as they were put in, and settings that are read from any text are of
    the kind asked for and could have been put in: nothing that breaks a bound of
    its kind is ever used. *)
Theorem settings_are_read_as_they_were_stored kind text settings :
  (storable settings = true -> JSON_parse (JSON_stringify (config_json settings)) = Some (config_json settings) ->
     readDestinationConfig is_url is_email is_datetime JSON_parse (kind_of settings) (JSON_stringify (config_json settings))
     = Some settings)
  /\ (readDestinationConfig is_url is_email is_datetime JSON_parse kind text = Some settings ->
       kind_of settings = kind /\ storable settings = true).
Proof.
  unfold readDestinationConfig. split.
  - intros H E. rewrite E. by apply stored_is_read.
  - destruct (JSON_parse text) as [v|]; [|done]. apply read_is_storable.
Qed.
End Storable.

(** ** All of it, or nothing *)

Section Requests.
Context {J : Type}.
Abbreviation W := (World J * AuditRepository.Table)%type.
Variables (idOf : nat -> string) (dbNow : Z).

Definition event_by (actor : ActorContext) (action subject : string) (event : AuditEventRow) : Prop :=
  ae_organizationId event = ctx_organizationId actor /\ ae_actorId event = Some (ctx_memberId actor)
  /\ ae_action event = action /\ ae_subjectType event = subject.

(** The audit log and the jobs. *)
Definition kept (log : AuditRepository.Table) (js : J) (s : W) : Prop := s.2 = log /\ jobs s.1 = js.

Definition recorded_as (actor : ActorContext) (action subject : string) (log : AuditRepository.Table) (js : J) (s : W) : Prop :=
  exists event, event_by actor action subject event /\ kept (log ++ [event]) js s.

Lemma kept_notify log js {A} (f : NotificationTables -> A * NotificationTables) : preserves (kept log js) (notify f).
Proof. intros [w l] [H1 H2]. unfold notify, on_fst, on_notifs. simpl. by destruct (f (notifs w)). Qed.

Lemma kept_read log js {A} (f : NotificationTables -> A) : preserves (kept log js) (read_notifs f).
Proof. by intros [w l] H. Qed.

Lemma kept_draw log js : preserves (kept log js) (draw idOf).
Proof. by intros [w l] H. Qed.

Lemma kept_lift log js {A} (r : result A) : preserves (kept log js) (lift r).
Proof. intros s H. unfold lift. by destruct r. Qed.

Lemma kept_subscribe log js actor id kinds : preserves (kept log js) (subscribe idOf actor id kinds).
Proof.
  unfold subscribe. apply preserves_bind; [by intros [w l] H|]. intros first.
  apply preserves_bind; [apply kept_notify|]. by intros [] [w l] H.
Qed.

Lemma recorded log js actor action subject id detail :
  triple (kept log js) (record_for idOf dbNow actor action subject id detail)
    (fun _ => recorded_as actor action subject log js) (fun _ _ => True).
Proof.
  unfold record_for. eapply triple_bind; [|intros auditId].
  { eapply triple_consequence; [apply kept_draw|done|intros a s H; exact H|done]. }
  intros [w l] [H1 H2]. unfold AuditRepository.record, bind, lift, on_snd, stmt, ret, rbind. simpl in *.
  destruct (resolveActorLabel _) as [label|e]; simpl; [|done]. subst. eexists. split; [|by split]. by split_and!.
Qed.

Lemma record_keeps_notifs actor action subject id detail :
  keeps (fun s : W => notifs s.1) (record_for idOf dbNow actor action subject id detail).
Proof.
  intros [w l]. unfold record_for, AuditRepository.record, bind, draw, on_fst, on_snd, nanoid, lift, stmt, ret.
  cbn -[resolveActorLabel]. by destruct (resolveActorLabel _).
Qed.

(** The rule of a transaction that starts from [s0]. *)
Lemma transacted {A} s0 (m : M W A) Q : triple (fun s => s = s0) m Q (fun _ _ => True) ->
  triple (fun s => s = s0) (withDestinationTransaction m) Q (fun _ s => s = s0).
Proof.
  intros H s ->. specialize (H s0 eq_refl). unfold withDestinationTransaction, transaction.
  destruct (m s0) as [[a|e] s']; done.
Qed.

Lemma from_kept {A} (s0 : W) (m : M W A) Q : triple (kept s0.2 (jobs s0.1)) m Q (fun _ _ => True) ->
  triple (fun s => s = s0) m Q (fun _ _ => True).
Proof. intros H s ->. by apply H. Qed.

Lemma guarded {A} (s0 : W) (guard : result unit) (m : M W A) Q :
  triple (fun s => s = s0) m Q (fun _ s => s = s0) -> triple (fun s => s = s0) (lift guard ;;; m) Q (fun _ s => s = s0).
Proof. intros H. apply (triple_bind _ _ _ (fun _ s => s = s0)); [|done]. intros s ->. unfold lift. by destruct guard. Qed.

Lemma kept_then {A B} log js (m : M W A) (k : A -> M W B) Q : preserves (kept log js) m ->
  (forall a, triple (kept log js) (k a) Q (fun _ _ => True)) -> triple (kept log js) (bind m k) Q (fun _ _ => True).
Proof.
  intros Hm Hk. eapply triple_bind; [|exact Hk]. eapply triple_consequence; [exact Hm|done|intros a s H; exact H|done].
Qed.

Lemma kept_throw {A} log js e (Q : A -> W -> Prop) : triple (kept log js) (throw e) Q (fun _ _ => True).
Proof. by intros s H. Qed.

Lemma recorded_then {A} log js actor action subject id detail (a : A) :
  triple (kept log js) (record_for idOf dbNow actor action subject id detail ;;; ret a)
    (fun _ => recorded_as actor action subject log js) (fun _ _ => True).
Proof. eapply triple_bind; [apply recorded|]. by intros [] s H. Qed.

Variable URL_of : string -> option Url.
Variables (isIP : string -> Z) (ranges : Tables_).
Variables is_url is_email is_datetime : string -> bool.
Variable JSON_parse : string -> option Json.
Variable JSON_stringify : Json -> string.
Variable other_date : string -> option Z.
Variables (seal : string -> result SealedValue) (open : string -> string -> result string).
Variable newSecret : M W string.
Variable policy : EgressPolicy.
Variable teamsHosts : list string.
Variable now : M W Z.

(** Drawing a secret and reading the clock change nothing that is stored. *)
Class Undisturbed : Prop := {
  secret_undisturbed : forall s, (newSecret s).2 = s;
  clock_undisturbed : forall s, (now s).2 = s }.

Context `{Calm : !Undisturbed}.

Lemma calm_preserves {A} (P : W -> Prop) (m : M W A) : (forall s, (m s).2 = s) -> preserves P m.
Proof. intros H s Hs. specialize (H s). destruct (m s) as [[a|e] s']; simpl in H; by subst. Qed.

Lemma calm_stored (P : W -> Prop) input secret previous : preserves P (storedFor newSecret input secret previous).
Proof.
  destruct input as [url|settings]; [|apply preserves_ret]. simpl. apply preserves_bind; [|intros ?; apply preserves_ret].
  destruct secret; [apply preserves_ret|]. apply calm_preserves, secret_undisturbed.
Qed.

Lemma calm_now (P : W -> Prop) : preserves P now.
Proof. apply calm_preserves, clock_undisturbed. Qed.

Abbreviation recording actor action subject s0 m :=
  (triple (fun s => s = s0) m (fun _ => recorded_as actor action subject s0.2 (jobs s0.1)) (fun _ s => s = s0)).

Ltac kept_step :=
  lazymatch goal with
  | |- triple _ (throw _) _ _ => apply kept_throw
  | |- triple _ (record_for _ _ _ _ _ _ _) _ _ => apply recorded
  | |- triple _ (bind (record_for _ _ _ _ _ _ _) _) _ _ => apply recorded_then
  | |- triple _ (bind (notify _) _) _ _ => apply kept_then; [apply kept_notify|intros ?]
  | |- triple _ (bind (read_notifs _) _) _ _ => apply kept_then; [apply kept_read|intros ?]
  | |- triple _ (bind (draw _) _) _ _ => apply kept_then; [apply kept_draw|intros ?]
  | |- triple _ (bind (lift _) _) _ _ => apply kept_then; [apply kept_lift|intros ?]
  | |- triple _ (bind (subscribe _ _ _ _) _) _ _ => apply kept_then; [apply kept_subscribe|intros ?]
  | |- triple _ (bind (storedFor _ _ _ _) _) _ _ => apply kept_then; [apply calm_stored|intros ?]
  | |- triple _ (bind now _) _ _ => apply kept_then; [apply calm_now|intros ?]
  | |- triple _ (bind newSecret _) _ _ => apply kept_then; [apply calm_preserves, secret_undisturbed|intros ?]
  | |- triple _ (match ?x with _ => _ end) _ _ => destruct x
  end.

Ltac kept_steps := repeat kept_step.

Lemma creating actor input s0 :
  recording actor "notification.destination.create" "notificationDestination" s0
    (create idOf dbNow URL_of isIP ranges JSON_stringify seal newSecret policy teamsHosts actor input).
Proof.
  unfold create. apply guarded. apply (triple_bind _ _ _ (fun _ s => s = s0)); [apply calm_stored|]. intros settings.
  apply guarded. apply (triple_bind _ _ _ (fun _ s => s = s0)).
  { intros s ->. unfold lift. by destruct (sealed_values _ _ _ _ _). }
  intros values. apply transacted, from_kept. kept_steps.
Qed.

Lemma editing actor id input s0 :
  recording actor "notification.destination.edit" "notificationDestination" s0
    (edit idOf dbNow URL_of isIP ranges is_url is_email is_datetime JSON_parse JSON_stringify other_date seal open newSecret
       policy teamsHosts now actor id input).
Proof. unfold edit. apply guarded, transacted, from_kept. kept_steps. Qed.

Lemma rotating actor id s0 :
  recording actor "notification.destination.rotate" "notificationDestination" s0
    (rotateSecret idOf dbNow is_url is_email is_datetime JSON_parse JSON_stringify seal open newSecret now actor id).
Proof. unfold rotateSecret. apply guarded, transacted, from_kept. kept_steps. Qed.

Lemma switching actor id (on : bool) s0 :
  recording actor (if on then "notification.destination.enable" else "notification.destination.disable")
    "notificationDestination" s0 (setEnabled idOf dbNow now actor id on).
Proof.
  unfold setEnabled. apply guarded, transacted, from_kept. apply kept_then; [apply kept_notify|]. intros changed.
  destruct (negb changed); [apply kept_throw|]. apply kept_then.
  - destruct on; [apply preserves_ret|]. apply preserves_bind; [apply calm_now|]. intros at_. apply kept_notify.
  - intros n. apply recorded_then.
Qed.

Lemma removing actor id s0 :
  recording actor "notification.destination.delete" "notificationDestination" s0 (remove idOf dbNow actor id).
Proof. unfold remove. apply guarded, transacted, from_kept. kept_steps. Qed.

Lemma dismissing actor id s0 :
  recording actor "notification.delivery.dismiss" "notificationDelivery" s0 (dismiss idOf dbNow now actor id).
Proof. unfold dismiss. apply guarded, transacted, from_kept. kept_steps. Qed.

(** What a request leaves. *)
Definition accounted {A} (actor : ActorContext) (action subject : string) (s : W) (run : result A * W) : Prop :=
  match run with
  | (Ok _, s') => recorded_as actor action subject s.2 (jobs s.1) s'
  | (Throw _, s') => s' = s
  end.

Lemma accounted_run {A} actor action subject s (m : M W A) :
  triple (fun s' => s' = s) m (fun _ => recorded_as actor action subject s.2 (jobs s.1)) (fun _ s' => s' = s) ->
  accounted actor action subject s (m s).
Proof. intros H. specialize (H s eq_refl). unfold accounted. by destruct (m s) as [[a|e] s']. Qed.

(** every request that changes a destination or dismisses an alert happens
    entirely or not at all: one that throws, at whatever step, leaves the
    destinations, subscriptions, deliveries, jobs and the audit log as they
    were, one that succeeds adds one event to the audit log, of who did what, in
    the same transaction, and queues nothing. *)
Theorem requests_are_recorded_or_undone actor (id : string) input (on : bool) s :
  accounted actor "notification.destination.create" "notificationDestination" s
    (create idOf dbNow URL_of isIP ranges JSON_stringify seal newSecret policy teamsHosts actor input s)
  /\ accounted actor "notification.destination.edit" "notificationDestination" s
    (edit idOf dbNow URL_of isIP ranges is_url is_email is_datetime JSON_parse JSON_stringify other_date seal open newSecret
       policy teamsHosts now actor id input s)
  /\ accounted actor "notification.destination.rotate" "notificationDestination" s
    (rotateSecret idOf dbNow is_url is_email is_datetime JSON_parse JSON_stringify seal open newSecret now actor id s)
  /\ accounted actor (if on then "notification.destination.enable" else "notification.destination.disable")
    "notificationDestination" s (setEnabled idOf dbNow now actor id on s)
  /\ accounted actor "notification.destination.delete" "notificationDestination" s (remove idOf dbNow actor id s)
  /\ accounted actor "notification.delivery.dismiss" "notificationDelivery" s (dismiss idOf dbNow now actor id s).
Proof.
  split_and!; apply accounted_run; [apply creating|apply editing|apply rotating|apply switching|apply removing|apply dismissing].
Qed.

End Requests.

(** ** Rotation *)

Section Rotation.
Context {J : Type}.
Abbreviation W := (World J * AuditRepository.Table)%type.
Variables (idOf : nat -> string) (dbNow : Z).
Variables is_url is_email is_datetime : string -> bool.
Variable JSON_parse : string -> option Json.
Variable JSON_stringify : Json -> string.
Variable other_date : string -> option Z.
Variables (seal : string -> result SealedValue) (open : string -> string -> result string).
Variable base64_bytes : string -> string.
Variable hmac : string -> Text -> string.

(** [JSON.parse] reads the settings of a webhook from the text that
    [JSON.stringify] writes of them: an object of at most four texts. *)
Class WebhookJson : Prop := webhook_read_back : forall c,
  JSON_parse (JSON_stringify (config_json (to_webhook c))) = Some (config_json (to_webhook c)).

(** The vault opens what it sealed. *)
Class Vault : Prop := opens_sealed : forall text sealed, seal text = Ok sealed -> open (ciphertext sealed) (keyId sealed) = Ok text.

(** The pattern of [zod] takes the dates [toISOString] prints. *)
Class IsoDates : Prop := iso_accepted : forall at_, four_digit_year at_ -> is_datetime (toISOString at_) = true.

Context `{Json : !WebhookJson} `{Sealed : !Vault} `{Dates_ : !IsoDates} `{Hash : !HashInBase64 hmac}.

Abbreviation settings_of := (settingsOf is_url is_email is_datetime JSON_parse open).

Lemma find_updated organizationId id values t row :
  findDestination organizationId id t = Some row ->
  exists stored, findDestination organizationId id (updateDestination organizationId id values t).2 = Some stored
    /\ dest_kind stored = dest_kind row /\ secretEncrypted stored = dv_secretEncrypted values
    /\ secretKeyId stored = dv_secretKeyId values.
Proof.
  intros H. unfold findDestination, updateDestination in *. cbn [destinations with_destinations snd].
  rewrite select_first_update by done. rewrite H. apply select_first_spec in H as [_ H]. cbn. rewrite H. by eexists.
Qed.

(** Settings put in the vault are the settings of the row. *)
Lemma stored_settings row name shown c values :
  sealed_values JSON_stringify seal name shown (to_webhook c) = Ok values -> storable is_url is_email is_datetime (to_webhook c) = true ->
  dest_kind row = kind_of (to_webhook c) -> secretEncrypted row = dv_secretEncrypted values -> secretKeyId row = dv_secretKeyId values ->
  settings_of row = Some (to_webhook c).
Proof.
  unfold sealed_values, settingsOf, read_config, readDestinationConfig. intros Hv Hs Hk He Hi.
  destruct (seal _) as [sealed|e] eqn:Eseal; [|done]. injection Hv as <-. cbn in He, Hi. rewrite He, Hi, Hk.
  rewrite (opens_sealed _ _ Eseal), (webhook_read_back c). by apply stored_is_read.
Qed.

(** The secrets in use, and whom a signature with them convinces. *)
Lemma usable_overlap url fresh old until t : four_digit_year until ->
  usableSigningSecrets other_date (MkWebhook url fresh (Some old) (Some (toISOString until))) t
  = if until <=? t then [fresh] else [fresh; old].
Proof. intros H. unfold usableSigningSecrets. simpl. by rewrite (date_of_toISOString _ _ H). Qed.

(** C26: when the secret of a webhook is rotated the receiver is not cut off:
    what is stored afterwards is read back as the same address with the new
    secret, a signature made with it convinces whoever holds the new secret at
    any time and whoever holds the old one for twenty-four hours, and after that
    the old secret is not signed with. *)
Theorem rotated_secrets_overlap actor destinationId row old fresh at_ (s s' : W) secret :
  findDestination (ctx_organizationId actor) destinationId (notifs s.1) = Some row ->
  settings_of row = Some (to_webhook old) ->
  (1 <= String.length fresh <= 128)%nat -> four_digit_year (at_ + 86400000) ->
  rotateSecret idOf dbNow is_url is_email is_datetime JSON_parse JSON_stringify seal open (ret fresh) (ret at_) actor destinationId s
    = (Ok secret, s') ->
  secret = fresh /\ exists row' current,
    findDestination (ctx_organizationId actor) destinationId (notifs s'.1) = Some row'
    /\ settings_of row' = Some (to_webhook current) /\ wh_url current = wh_url old
    /\ forall t id timestamp body,
         let secrets := usableSigningSecrets other_date current t in
         let header := signatureHeader base64_bytes hmac secrets id timestamp body in
         verifySignature base64_bytes hmac header fresh id timestamp body = true
         /\ (t < at_ + 86400000 -> verifySignature base64_bytes hmac header (signingSecret old) id timestamp body = true)
         /\ (at_ + 86400000 <= t -> secrets = [fresh]).
Proof.
  intros Hfind Hset Hlen Hyear Hrun. unfold rotateSecret in Hrun. apply bind_ok in Hrun as ([] & s1 & Hg & Hrun).
  unfold lift in Hg. injection Hg as Hg <-. unfold withDestinationTransaction, transaction in Hrun.
  destruct (bind _ _ s) as [[r|e] s2] eqn:E; [|done]. injection Hrun as -> ->.
  apply bind_ok in E as (found & s3 & E1 & E). injection E1 as E1 <-. unfold scope_of in E1. rewrite Hfind in E1. subst found.
  assert (Hopen : open_settings is_url is_email is_datetime JSON_parse open row = Ok (Some (to_webhook old))).
  { unfold settingsOf in Hset. unfold open_settings. destruct (open _ _) as [opened|e]; [|done]. simpl. by rewrite Hset. }
  rewrite Hopen in E. apply bind_ok in E as (existing & s4 & E1 & E). injection E1 as <- <-. cbn [webhook_secret] in E.
  apply bind_ok in E as (? & s5 & E1 & E). injection E1 as <- <-. apply bind_ok in E as (? & s6 & E1 & E). injection E1 as <- <-.
  apply bind_ok in E as (settings & s7 & E1 & E). injection E1 as <- <-.
  apply bind_ok in E as (values & s8 & E1 & E). unfold lift in E1. injection E1 as Hvalues <-.
  apply bind_ok in E as (stored & s9 & E1 & E). apply bind_ok in E as ([] & s10 & E2 & E). injection E as <- <-.
  split; [done|].
  destruct (find_updated (ctx_organizationId actor) destinationId values (notifs s.1) row Hfind) as (row' & Hf' & Hk & He & Hi).
  set (current := MkWebhook (wh_url old) fresh (Some (signingSecret old)) (Some (toISOString (at_ + ROTATION_OVERLAP_MS)))) in *.
  exists row', current.
  assert (Hn : notifs s10.1 = (updateDestination (ctx_organizationId actor) destinationId values (notifs s.1)).2).
  { unfold notify, on_fst, on_notifs, scope_of in E1. destruct s as [w log]. cbn [fst snd] in *.
    destruct (updateDestination _ _ _ (notifs w)) as [found t1]. injection E1 as <- <-.
    assert (H := record_keeps_notifs idOf dbNow actor "notification.destination.rotate" "notificationDestination" destinationId []
      (with_notifs t1 w, log)). rewrite E2 in H. exact H. }
  assert (Hold : storable is_url is_email is_datetime (to_webhook old) = true /\ dest_kind row = webhook).
  { unfold settingsOf, read_config, readDestinationConfig in Hset. destruct (open _ _) as [opened|e]; [|done].
    destruct (JSON_parse opened) as [v|]; [|done]. apply read_is_storable in Hset as [H1 H2]. by rewrite <- H1. }
  destruct Hold as [Hold Hkind]. split; [by rewrite Hn|]. split; [|split; [done|]].
  { eapply stored_settings; [exact Hvalues| |by rewrite Hk, Hkind|done|done].
    cbn [storable] in Hold |- *. apply andb_prop in Hold as [[[Hu Hs]%andb_prop _]%andb_prop _].
    cbn [wh_url signingSecret previousSigningSecret previousSigningSecretExpiresAt current if_some].
    rewrite Hu, Hs. unfold length_between. rewrite (proj2 (Nat.leb_le _ _) (proj1 Hlen)), (proj2 (Nat.leb_le _ _) (proj2 Hlen)).
    simpl. by apply iso_accepted. }
  intros t id timestamp body. unfold current. rewrite (usable_overlap _ _ _ _ _ Hyear). change ROTATION_OVERLAP_MS with 86400000.
  split_and!.
  - apply signed_is_verified; [done|]. destruct (_ <=? t); by left.
  - intros Ht. apply signed_is_verified; [done|]. destruct (Z.leb_spec (at_ + 86400000) t); [lia|]. right. by left.
  - intros Ht. by rewrite (proj2 (Z.leb_le _ _) Ht).
Qed.
End Rotation.

(** ** Examples *)

(** [JSON.stringify]; a number that is no integer is not written as it would be. *)
Definition json_quoted (value : string) : string := QUOTE +:+ json_body value +:+ QUOTE.

Fixpoint write_json (value : Json) : string :=
  match value with
  | JNull => "null"
  | JBool b => if b then "true" else "false"
  | JNumber n d => if (d =? 1)%positive then decimal n else "null"
  | JString s => json_quoted s
  | JArray items => "[" +:+ join_with "," (map write_json items) +:+ "]"
  | JObject fields =>
      "{" +:+ join_with "," (map (fun f => json_quoted f.1 +:+ ":" +:+ write_json f.2) fields) +:+ "}"
  end.

(** [JSON.parse], of numbers without a fraction. *)
Fixpoint skip_blank (text : string) : string :=
  match text with
  | String c rest => if bool_decide (c ∈ [" "; "009"; "010"; "013"]%char) then skip_blank rest else text
  | EmptyString => text
  end.

(** The body of a string, and what follows its end. *)
Fixpoint read_body (fuel : nat) (text : string) : option (string * string) :=
  match fuel with
  | O => None
  | S fuel =>
      match read_json_char text with
      | Some (c, rest) => let? s := read_body fuel rest in Some (String c s.1, s.2)
      | None => match text with String c rest => if c ≡? DQUOTE then Some (EmptyString, rest) else None | EmptyString => None end
      end
  end.

Definition read_quoted (text : string) : option (string * string) :=
  match skip_blank text with
  | String c rest => if c ≡? DQUOTE then read_body (S (String.length rest)) rest else None
  | EmptyString => None
  end.

Definition read_mark (mark : ascii) (text : string) : option string :=
  match skip_blank text with String c rest => if c ≡? mark then Some rest else None | EmptyString => None end.

Definition read_number (text : string) : option (Json * string) :=
  let (minus, digits) := match text with String "-" rest => (true, rest) | _ => (false, text) end in
  let (run, rest) := span is_digit digits in
  let? n := numberOfDigits run in
  Some (JNumber (if minus : bool then - n else n) 1, rest).

(** The last field of a name is the one that counts. *)
Definition add_field (key : string) (value : Json) (fields : list (string * Json)) : list (string * Json) :=
  match field key fields with Some _ => fields | None => (key, value) :: fields end.

Fixpoint read_value (fuel : nat) (text : string) : option (Json * string) :=
  match fuel with
  | O => None
  | S fuel =>
      let text := skip_blank text in
      match text with
      | String "n" (String "u" (String "l" (String "l" rest))) => Some (JNull, rest)
      | String "t" (String "r" (String "u" (String "e" rest))) => Some (JBool true, rest)
      | String "f" (String "a" (String "l" (String "s" (String "e" rest)))) => Some (JBool false, rest)
      | String "[" rest =>
          match read_mark "]" rest with
          | Some rest => Some (JArray [], rest)
          | None => let? items := read_items fuel rest in Some (JArray items.1, items.2)
          end
      | String "{" rest =>
          match read_mark "}" rest with
          | Some rest => Some (JObject [], rest)
          | None => let? fields := read_fields fuel rest in Some (JObject fields.1, fields.2)
          end
      | String c _ => if c ≡? DQUOTE then let? s := read_quoted text in Some (JString s.1, s.2) else read_number text
      | EmptyString => None
      end
  end
with read_items (fuel : nat) (text : string) : option (list Json * string) :=
  match fuel with
  | O => None
  | S fuel =>
      let? item := read_value fuel text in
      match read_mark "," item.2 with
      | Some rest => let? items := read_items fuel rest in Some (item.1 :: items.1, items.2)
      | None => let? rest := read_mark "]" item.2 in Some ([item.1], rest)
      end
  end
with read_fields (fuel : nat) (text : string) : option (list (string * Json) * string) :=
  match fuel with
  | O => None
  | S fuel =>
      let? key := read_quoted text in
      let? rest := read_mark ":" key.2 in
      let? value := read_value fuel rest in
      match read_mark "," value.2 with
      | Some rest => let? fields := read_fields fuel rest in Some (add_field key.1 value.1 fields.1, fields.2)
      | None => let? rest := read_mark "}" value.2 in Some ([(key.1, value.1)], rest)
      end
  end.

Definition read_json (text : string) : option Json :=
  let? value := read_value (S (String.length text)) text in
  if skip_blank value.2 ≡? EmptyString then Some value.1 else None.

Lemma body_reads s rest : forall fuel, (String.length s < fuel)%nat ->
  read_body fuel (json_body s +:+ String DQUOTE rest) = Some (s, rest).
Proof.
  induction s as [|c s IH]; intros [|fuel] H; simpl in H; try lia; cbn [json_body read_body].
  - reflexivity.
  - rewrite string_app_assoc, json_char_reads, IH by lia. reflexivity.
Qed.

Lemma json_body_longer s : (String.length s <= String.length (json_body s))%nat.
Proof.
  induction s as [|c s IH]; [done|]. cbn [json_body String.length]. rewrite string_length_app.
  assert (H : (1 <= String.length (json_char c))%nat) by (destruct c as [[] [] [] [] [] [] [] []]; simpl; lia). lia.
Qed.

(** A text is read back, whatever it holds. *)
Lemma quoted_reads s rest : read_quoted (json_quoted s +:+ rest) = Some (s, rest).
Proof.
  unfold json_quoted. rewrite !string_app_assoc.
  transitivity (read_body (S (String.length (json_body s +:+ String DQUOTE rest))) (json_body s +:+ String DQUOTE rest)); [reflexivity|].
  apply body_reads. rewrite string_length_app. pose proof (json_body_longer s). lia.
Qed.

Lemma text_value_reads fuel s rest : read_value (S fuel) (json_quoted s +:+ rest) = Some (JString s, rest).
Proof.
  transitivity (let? t := read_quoted (json_quoted s +:+ rest) in Some (JString t.1, t.2)); [reflexivity|].
  by rewrite quoted_reads.
Qed.

(** An object of texts is read back. *)
Definition text_field (t : string * string) : string * Json := (t.1, JString t.2).

Lemma field_absent key (texts : list (string * string)) : ~ In key (map fst texts) -> field key (map text_field texts) = None.
Proof.
  induction texts as [|t texts IH]; intros H; [done|]. simpl in *. rewrite bool_decide_eq_false_2 by tauto. apply IH. tauto.
Qed.

Definition fields_text (texts : list (string * string)) : string :=
  join_with "," (map (fun f => json_quoted f.1 +:+ ":" +:+ write_json f.2) (map text_field texts)).

Lemma text_fields_read texts : List.NoDup (map fst texts) -> texts <> [] -> forall fuel, (length texts < fuel)%nat ->
  read_fields fuel (fields_text texts +:+ "}") = Some (map text_field texts, EmptyString).
Proof.
  induction texts as [|[key s] texts IH]; [done|]. intros [Hin Hn]%NoDup_cons_iff _ [|[|fuel]] Hf; simpl in Hf; try lia.
  assert (Hstep : forall rest, read_fields (S (S fuel)) (json_quoted key +:+ ":" +:+ json_quoted s +:+ rest)
    = match read_mark "," rest with
      | Some rest => let? fields := read_fields (S fuel) rest in Some (add_field key (JString s) fields.1, fields.2)
      | None => let? rest := read_mark "}" rest in Some ([(key, JString s)], rest)
      end).
  { intros rest. remember (S fuel) as f eqn:Ef. cbn [read_fields]. rewrite quoted_reads. cbn [fst snd].
    change (read_mark ":" (":" +:+ ?t)) with (Some t). cbv beta iota. rewrite Ef, text_value_reads. reflexivity. }
  destruct texts as [|t texts].
  - unfold fields_text. cbn [map text_field fst snd join_with write_json]. rewrite !string_app_assoc, Hstep. reflexivity.
  - change (fields_text ((key, s) :: t :: texts)) with ((json_quoted key +:+ ":" +:+ json_quoted s) +:+ "," +:+ fields_text (t :: texts)).
    rewrite !string_app_assoc, Hstep. change (read_mark "," ("," +:+ ?t)) with (Some t). cbv beta iota.
    rewrite IH by (done || (simpl in *; lia)). cbn [fst snd]. unfold add_field. by rewrite field_absent.
Qed.

Lemma fields_text_longer texts : (length texts <= String.length (fields_text texts))%nat.
Proof.
  induction texts as [|t [|t' texts] IH]; [done|unfold fields_text, json_quoted; simpl; lia|].
  change (fields_text (t :: t' :: texts)) with ((json_quoted t.1 +:+ ":" +:+ json_quoted t.2) +:+ "," +:+ fields_text (t' :: texts)).
  rewrite !string_length_app. simpl in *. lia.
Qed.

Lemma texts_read_back texts : List.NoDup (map fst texts) -> texts <> [] ->
  read_json (write_json (JObject (map text_field texts))) = Some (JObject (map text_field texts)).
Proof.
  intros Hn Hne. unfold read_json. change (write_json (JObject (map text_field texts))) with ("{" +:+ fields_text texts +:+ "}").
  set (text := fields_text texts +:+ "}").
  assert (Hl : (length texts < S (String.length text))%nat).
  { subst text. rewrite string_length_app. pose proof (fields_text_longer texts). simpl. lia. }
  assert (Hq : read_mark "}" text = None) by (subst text; destruct texts as [|t [|t' texts]]; [done|reflexivity|reflexivity]).
  change (String.length ("{" +:+ text)) with (S (String.length text)). set (fuel := S (String.length text)) in *.
  assert (E : read_value (S fuel) ("{" +:+ text) = Some (JObject (map text_field texts), EmptyString)).
  { transitivity (match read_mark "}" text with
                  | Some rest => Some (JObject [], rest)
                  | None => let? fields := read_fields fuel text in Some (JObject fields.1, fields.2)
                  end); [reflexivity|]. rewrite Hq. subst text. by rewrite text_fields_read. }
  by rewrite E.
Qed.

#[export] Instance webhook_json : WebhookJson read_json write_json.
Proof.
  intros [url secret previous expires].
  assert (H : exists texts, config_json (to_webhook (MkWebhook url secret previous expires)) = JObject (map text_field texts)
    /\ List.NoDup (map fst texts) /\ texts <> []).
  { destruct previous as [previous|], expires as [expires|];
      [exists [("url", url); ("signingSecret", secret); ("previousSigningSecret", previous); ("previousSigningSecretExpiresAt", expires)]
      |exists [("url", url); ("signingSecret", secret); ("previousSigningSecret", previous)]
      |exists [("url", url); ("signingSecret", secret); ("previousSigningSecretExpiresAt", expires)]
      |exists [("url", url); ("signingSecret", secret)]]; (split; [reflexivity|]; split; [|done]).
    all: repeat constructor; simpl; intuition discriminate. }
  destruct H as (texts & -> & Hn & Hne). by apply texts_read_back.
Qed.

Definition any_text (_ : string) : bool := true.
Definition clear_vault (text : string) : result SealedValue := Ok (MkSealed text "key").
Definition clear_open (text _ : string) : result string := Ok text.

#[export] Instance clear_vault_opens : Vault clear_vault clear_open.
Proof. intros text sealed [= <-]. done. Qed.

#[export] Instance any_dates : IsoDates any_text.
Proof. by intros at_ _. Qed.

Definition no_hash (_ : string) (_ : Text) : string := "x".

#[export] Instance no_hash_in_base64 : HashInBase64 no_hash.
Proof. by intros key content. Qed.

Definition example_webhook : WebhookConfig := MkWebhook "https://hooks.example/in" "old" None None.

Lemma settings_are_read_as_they_were_stored_witness :
  readDestinationConfig any_text any_text any_text read_json webhook (write_json (config_json (to_webhook example_webhook)))
  = Some (to_webhook example_webhook).
Proof.
  exact (proj1 (settings_are_read_as_they_were_stored any_text any_text any_text read_json write_json webhook "" (to_webhook example_webhook))
    eq_refl eq_refl).
Defined.

Definition rotated_row : NotificationDestinationRow :=
  MkDestination "d1" "org" "Ops" webhook true "hooks.example" (write_json (config_json (to_webhook example_webhook))) "key" 0
    None None None.

Definition rotation_world : World unit * AuditRepository.Table :=
  (MkWorld (MkStatusTables [] [] [] []) (MkNotificationTables [rotated_row] [] [] [] []) tt 0, []).

Definition rotation_actor : ActorContext := MkActor "org" "m1" "Ann" owner.

Definition rotation :=
  rotateSecret decimalOfNat 7 any_text any_text any_text read_json write_json clear_vault clear_open (ret "new") (ret 5)
    rotation_actor "d1" rotation_world.

Lemma rotated_secrets_overlap_witness :
  rotation = (Ok "new", rotation.2) /\ exists row' current,
    findDestination "org" "d1" (notifs rotation.2.1) = Some row' /\ wh_url current = "https://hooks.example/in"
    /\ verifySignature id no_hash
         (signatureHeader id no_hash (usableSigningSecrets (fun _ => None) current 6) "m" "6" []) "old" "m" "6" [] = true.
Proof.
  assert (Hrun : rotation = (Ok "new", rotation.2)) by (vm_compute; reflexivity). split; [exact Hrun|].
  assert (H := rotated_secrets_overlap decimalOfNat 7 any_text any_text any_text read_json write_json (fun _ => None) clear_vault clear_open
    id no_hash rotation_actor "d1" rotated_row example_webhook "new" 5 rotation_world rotation.2 "new").
  fold rotation in H. destruct H as (_ & row' & current & H1 & _ & H2 & H3);
    [vm_compute; reflexivity|vm_compute; reflexivity|vm_compute; lia|vm_compute; split; congruence|exact Hrun|].
  exists row', current. split; [exact H1|]. split; [exact H2|]. apply (H3 6 "m" "6" []). lia.
Defined.

Definition undisturbed_example : Undisturbed (J:=unit) (ret "new") (ret 5).
Proof. split; by intros s. Defined.

Lemma requests_are_recorded_or_undone_witness :
  rotation = (Ok "new", rotation.2)
  /\ recorded_as rotation_actor "notification.destination.rotate" "notificationDestination" [] tt rotation.2.
Proof.
  assert (Hrun : rotation = (Ok "new", rotation.2)) by (vm_compute; reflexivity). split; [exact Hrun|].
  destruct (requests_are_recorded_or_undone decimalOfNat 7 (fun _ => None) family_of standard any_text any_text any_text read_json write_json
    (fun _ => None) clear_vault clear_open (ret "new") PUBLIC_ONLY [] (ret 5) rotation_actor "d1" (MkCreateDestination "" (in_webhook "") []) true
    rotation_world (Calm := undisturbed_example)) as (_ & _ & H & _).
  fold rotation in H. unfold accounted in H. rewrite Hrun in H. exact H.
Defined.
