(* ===== verification/AlertSafety.v ===== *)
(** What sending an alert again, and sending a test, promise.

    Both requests of [Destinations] queue a job in the transaction that stores
    what the job is about: the delivery waits, its job is read back as a first
    attempt of it, and nothing is left when the queue, or anything before it,
    fails.  Tests are counted before they are sent. *)

From S2P Require Import Prelude Tables Dates StatusKinds StatusStore NotificationStore Announce Access Egress InstanceStore Payloads Outcome Mcp Delivery Destinations.

(** A payload that starts as this one is the job of a first attempt. *)
Lemma first_attempt_read other organizationId deliveryId carrier :
  organizationId <> EmptyString -> deliveryId <> EmptyString ->
  exists carried,
    readDeliveryPayload other
      (as_json ([("organizationId", organizationId); ("deliveryId", deliveryId); ("attempt", "1")] ++ carrier))
    = Some (MkDeliveryPayload organizationId deliveryId 1 carried).
Proof.
  intros Ho Hd. unfold readDeliveryPayload, as_json, text_field. rewrite !field_as_json.
  assert (Hnonempty : forall s, s <> EmptyString -> (String.length s =? 0)%nat = false) by (by intros []).
  cbn [app List.find fst snd]. constants. cbn [option_map snd]. rewrite !Hnonempty by done. by eexists.
Qed.

(** One row of those [p] holds of. *)
Lemma affected_le {R} (p q : R -> bool) t : (forall r, p r = true -> q r = true) -> (affected p t <= affected q t)%nat.
Proof.
  intros H. unfold affected, select. induction t as [|r t IH]; simpl; [lia|]. specialize (H r).
  destruct (p r), (q r); simpl; lia.
Qed.

Section Tests.
Variables (organizationId notificationId deliveryId destinationId : string).

(** The tests counted for one delivery. *)
Definition counted (t : NotificationTables) (d : NotificationDeliveryRow) : list NotificationRow :=
  select (fun n => of_notification d n && (notif_kind n ≡? test)) (notifications t).

Lemma counted_fresh n d t :
  del_notificationId d <> notif_id n -> counted (with_notifications (notifications t ++ [n]) t) d = counted t d.
Proof.
  intros H. unfold counted. cbn [notifications with_notifications]. rewrite select_app.
  replace (select _ [n]) with (@nil NotificationRow); [by rewrite app_nil_r|].
  unfold select, of_notification. simpl. by rewrite bool_decide_eq_false_2 by congruence.
Qed.

Lemma concat_map_ext {A B} (f g : A -> list B) l : (forall a, In a l -> f a = g a) -> concat (map f l) = concat (map g l).
Proof.
  intros H. induction l as [|a l IH]; [done|]. simpl. rewrite (H a) by (by left). f_equal. apply IH. intros b Hb. apply H. by right.
Qed.

(** A fresh notification with a delivery of it is one test more, at most. *)
Lemma tests_after scope to since n d t :
  Forall (fun d' => del_notificationId d' <> notif_id n) (deliveries t) ->
  Forall (fun n' => notif_id n' <> notif_id n) (notifications t) -> del_notificationId d = notif_id n ->
  testsSince scope to since (with_deliveries (deliveries t ++ [d]) (with_notifications (notifications t ++ [n]) t))
  <= testsSince scope to since t + 1.
Proof.
  intros Hd Hn Hdn. unfold testsSince. cbn [deliveries notifications with_deliveries with_notifications].
  rewrite select_app, map_app, concat_app, length_app.
  rewrite (concat_map_ext _ (counted t)).
  2:{ intros d' Hd'. apply filter_In in Hd' as [Hd' _]. rewrite Forall_forall in Hd.
      rewrite <- (counted_fresh n) by (by apply Hd, list_elem_of_In). done. }
  fold (counted t). match goal with |- context [(_ + length ?one)%nat] => enough (length one <= 1)%nat by lia end.
  match goal with |- context [select ?p [d]] => destruct (p d) eqn:E; unfold select at 2; simpl; rewrite E end; simpl; [|lia].
  rewrite app_nil_r, select_app, length_app. unfold select at 1. rewrite filter_none.
  - unfold select. simpl. by repeat case_match; simpl; lia.
  - intros n' Hn'. rewrite Forall_forall in Hn. unfold of_notification. rewrite bool_decide_eq_false_2; [done|].
    rewrite Hdn. by apply Hn, list_elem_of_In.
Qed.
End Tests.

Section Alerts.
Context {J : Type} (sendJob : SendJob J) {recording : RecordingQueue sendJob} (idOf : nat -> string) (dbNow : Z)
  (carrier : list (string * string)).
Abbreviation W := (World J * AuditRepository.Table)%type.
Variable other : string -> option Z.
Variable at_ : Z.

(** The delivery waits for its first attempt, and [queue] has its job. *)
Definition waits_with_its_job (organizationId deliveryId queue : string) (s s' : W) : Prop :=
  left_as organizationId deliveryId queued 0 s'.1
  /\ exists payload carried, posted (jobs s'.1) = posted (jobs s.1) ++ [(queue, payload, None)]
       /\ readDeliveryPayload other (as_json payload) = Some (MkDeliveryPayload organizationId deliveryId 1 carried).

Lemma accept_ok queue payload (s s' : W) :
  acceptAlert sendJob queue payload s = (Ok tt, s') ->
  notifs s'.1 = notifs s.1 /\ posted (jobs s'.1) = posted (jobs s.1) ++ [(queue, payload, None)].
Proof.
  unfold acceptAlert. intros H. apply bind_ok in H as (jobId & s1 & H1 & H2). destruct jobId as [jobId|]; [|done].
  injection H2 as <-. unfold try_catch, on_fst in H1. destruct s as [w log]. cbn [fst snd] in *.
  assert (Hp := sendJob_posts queue payload None w). destruct (sendJob queue payload None w) as [[r|e] w'].
  - injection H1 as -> <-. exact Hp.
  - destruct e as [[] message|]; discriminate H1.
Qed.

Lemma audit_recorded actor action subject id detail (s s' : W) r :
  record_for idOf dbNow actor action subject id detail s = (Ok r, s') -> notifs s'.1 = notifs s.1 /\ jobs s'.1 = jobs s.1.
Proof.
  destruct s as [w log]. unfold record_for, AuditRepository.record, bind, draw, on_fst, on_snd, nanoid, lift, stmt, ret.
  cbn -[resolveActorLabel]. destruct (resolveActorLabel _); simpl; [|done]. by intros [= _ <-].
Qed.

Lemma transaction_ok {A} (m : M W A) a (s s' : W) : withDestinationTransaction m s = (Ok a, s') -> m s = (Ok a, s').
Proof. unfold withDestinationTransaction, transaction. destruct (m s) as [[b|e] s1]; [by intros [= -> ->]|done]. Qed.

Lemma thrown_undone {A} (guard : result unit) (m : M W A) e (s s' : W) :
  (lift guard ;;; withDestinationTransaction m) s = (Throw e, s') -> s' = s.
Proof.
  unfold bind, lift, withDestinationTransaction, transaction. destruct guard as [[]|e']; [|by intros [= _ ->]].
  destruct (m s) as [[a|e'] s1]; [done|]. by intros [= _ ->].
Qed.

(** C5: an alert is sent again only when it had failed or was given up and its
    destination still exists and is on; it then waits for a first attempt, and
    the queue of its destination has exactly one job more, which the workers
    read as that attempt of that delivery.  When anything throws, up to the
    queue not taking the job or the audit log not taking its event, neither
    has changed. *)
Theorem retried_alerts_wait_with_their_job actor deliveryId s :
  (affected (owned_delivery (ctx_organizationId actor) deliveryId) (deliveries (notifs s.1)) <= 1)%nat ->
  ctx_organizationId actor <> EmptyString -> deliveryId <> EmptyString ->
  match retry sendJob idOf dbNow carrier actor deliveryId s with
  | (Throw _, s') => s' = s
  | (Ok tt, s') =>
      exists delivery destination,
        findDelivery (ctx_organizationId actor) deliveryId (notifs s.1) = Some delivery
        /\ (del_state delivery = failed \/ del_state delivery = abandoned)
        /\ findDestination (ctx_organizationId actor) (del_destinationId delivery) (notifs s.1) = Some destination
        /\ dest_enabled destination = true
        /\ waits_with_its_job (ctx_organizationId actor) deliveryId (queueFor destination) s s'
  end.
Proof.
  intros Hone Ho Hd. set (org := ctx_organizationId actor) in *.
  destruct (retry _ _ _ _ _ _ _) as [[[]|e] s'] eqn:H; [|by apply thrown_undone in H].
  apply bind_ok in H as ([] & s1 & E & H). injection E as _ <-. apply transaction_ok in H.
  apply bind_ok in H as (existing & s1 & E & H). injection E as <- <-.
  destruct (findDelivery _ _ _) as [delivery|] eqn:Edelivery in H; [|done].
  apply bind_ok in H as (found & s1 & E & H). injection E as <- <-.
  destruct (findDestination _ _ _) as [destination|] eqn:Edest in H; [|done].
  destruct (negb (dest_enabled destination)) eqn:Eon; [done|]. apply negb_false_iff in Eon.
  apply bind_ok in H as (requeued & s1 & E & H). destruct (negb requeued) eqn:Er; [done|]. apply negb_false_iff in Er. subst requeued.
  apply bind_ok in H as ([] & s2 & Eaccept & H). apply accept_ok in Eaccept as [Hn2 Hj2]. apply audit_recorded in H as [Hn3 Hj3].
  destruct s as [w log]. unfold notify, on_fst, on_notifs, requeueDelivery in E. cbn [fst snd] in *.
  injection E as Eaff <-. cbn [fst snd] in *. apply bool_decide_eq_true in Eaff || apply Nat.eqb_eq in Eaff.
  unfold scope_of in *. fold org in Edelivery, Edest, Eaff, Hn2, Hj2.
  assert (Hst : del_state delivery = failed \/ del_state delivery = abandoned).
  { set (p := fun d => owned_delivery org deliveryId d && ((del_state d ≡? failed) || (del_state d ≡? abandoned))) in *.
    assert (exists r, In r (deliveries (notifs w)) /\ p r = true) as (r & Hr & Hp).
    { unfold affected, select in Eaff. destruct (List.filter p _) as [|r l] eqn:Ef; [done|]. exists r. apply filter_In. rewrite Ef. by left. }
    apply select_first_spec in Edelivery as [Hin Hown].
    assert (Haff : affected (owned_delivery org deliveryId) (deliveries (notifs w)) = 1%nat).
    { enough (1 <= affected (owned_delivery org deliveryId) (deliveries (notifs w)))%nat by lia.
      rewrite <- Eaff. apply affected_le. intros d Hd'. unfold p in Hd'. by apply andb_prop in Hd' as [? _]. }
    unfold p in Hp. apply andb_prop in Hp as [Hp1 Hp2].
    rewrite (affected_one _ _ _ _ Haff Hr Hp1 Hin Hown). apply orb_prop in Hp2 as [?|?]; tests; auto. }
  exists delivery, destination. do 4 (split; [done|]). split.
  - exists (set_state queued 0 None None delivery). rewrite Hn3, Hn2. split; [|done].
    unfold findDelivery. cbn. rewrite select_first_update by done. unfold findDelivery in Edelivery. rewrite Edelivery. simpl.
    apply select_first_spec in Edelivery as [_ Hown]. rewrite Hown. destruct Hst as [-> | ->]; done.
  - destruct (first_attempt_read other org deliveryId carrier Ho Hd) as [carried Hread].
    exists (alert_payload carrier actor deliveryId), carried. by rewrite Hj3, Hj2.
Qed.

(** The ids that are drawn name nothing yet. *)
Definition fresh_ids (s : W) : Prop := forall n, (drawn s.1 <= n)%nat ->
  idOf n <> EmptyString
  /\ Forall (fun d => del_id d <> idOf n /\ del_notificationId d <> idOf n) (deliveries (notifs s.1))
  /\ Forall (fun n' => notif_id n' <> idOf n) (notifications (notifs s.1)).

Lemma found_appended organizationId id t d :
  Forall (fun d' => del_id d' <> id) (deliveries t) -> del_id d = id -> del_organizationId d = organizationId ->
  findDelivery organizationId id (with_deliveries (deliveries t ++ [d]) t) = Some d.
Proof.
  intros Hall <- <-. unfold findDelivery, select_first. cbn. rewrite select_app. unfold select at 1. rewrite filter_none.
  - unfold select, owned_delivery. simpl. by rewrite !bool_decide_eq_true_2.
  - intros d' Hd'. rewrite Forall_forall in Hall. unfold owned_delivery.
    rewrite (bool_decide_eq_false_2 (del_id d' = del_id d)); [by rewrite andb_false_r|]. by apply Hall, list_elem_of_In.
Qed.

Lemma notify_ok {A} (f : NotificationTables -> A * NotificationTables) w log a (s' : W) :
  notify f (w, log) = (Ok a, s') -> exists t, f (notifs w) = (a, t) /\ s' = (with_notifs t w, log).
Proof. unfold notify, on_fst, on_notifs. simpl. destruct (f (notifs w)) as [b t]. intros [= -> <-]. by exists t. Qed.

Lemma createNotification_ok row t r t' :
  createNotification row t = (Some r, t') -> r = row /\ t' = with_notifications (notifications t ++ [row]) t.
Proof. unfold createNotification, insert_or_nothing. destruct (existsb _ _); [done|]. by intros [= <- <-]. Qed.

Lemma createDelivery_ok row t r t' : createDelivery row t = (Some r, t') -> r = row /\ t' = with_deliveries (deliveries t ++ [row]) t.
Proof. unfold createDelivery, insert_or_nothing. destruct (existsb _ _); [done|]. by intros [= <- <-]. Qed.

(** C27: a test is queued the way an alert is, for a destination that exists and
    is on, as a delivery that was not there before; after it the tests of the
    last minute are three at most for the destination and ten at most for the
    organization.  A test that throws, the one too many among them, leaves no
    notification, no delivery and no job. *)
Theorem tests_are_counted_and_wait_with_their_job actor destinationId s :
  fresh_ids s -> ctx_organizationId actor <> EmptyString ->
  match send_test sendJob idOf dbNow carrier (ret at_) actor destinationId s with
  | (Throw _, s') => s' = s
  | (Ok deliveryId, s') =>
      exists destination,
        findDestination (ctx_organizationId actor) destinationId (notifs s.1) = Some destination
        /\ dest_enabled destination = true
        /\ findDelivery (ctx_organizationId actor) deliveryId (notifs s.1) = None
        /\ waits_with_its_job (ctx_organizationId actor) deliveryId (queueFor destination) s s'
        /\ testsSince (ctx_organizationId actor) (Some destinationId) (at_ - TEST_WINDOW_MS) (notifs s'.1) <= TESTS_PER_WINDOW
        /\ testsSince (ctx_organizationId actor) None (at_ - TEST_WINDOW_MS) (notifs s'.1) <= TESTS_PER_WINDOW_PER_ORGANIZATION
  end.
Proof.
  intros Hfresh Ho. set (org := ctx_organizationId actor) in *.
  destruct (send_test _ _ _ _ _ _ _ _) as [[deliveryId|e] s'] eqn:H; [|by apply thrown_undone in H].
  apply bind_ok in H as ([] & s1 & E & H). injection E as _ <-. apply transaction_ok in H.
  apply bind_ok in H as (found & s1 & E & H). injection E as <- <-.
  destruct (findDestination _ _ _) as [destination|] eqn:Edest in H; [|done].
  destruct (negb (dest_enabled destination)) eqn:Eon; [done|]. apply negb_false_iff in Eon.
  apply bind_ok in H as (? & s1 & E & H). injection E as <- <-.
  apply bind_ok in H as (? & s1 & E & H). injection E as <- <-. destruct (throttleExceeded _ _) eqn:Efew in H; [done|].
  apply bind_ok in H as (? & s1 & E & H). injection E as <- <-. destruct (throttleExceeded _ TESTS_PER_WINDOW_PER_ORGANIZATION) eqn:Efew' in H; [done|].
  apply bind_ok in H as (unique & s1 & E & H). injection E as _ <-. apply bind_ok in H as (notificationId & s1 & E & H). injection E as <- <-.
  apply bind_ok in H as (notification & s1 & E & H). destruct s as [w log]. cbn [fst snd drawn notifs] in *.
  destruct notification as [notification|]; [|done]. apply notify_ok in E as (t1 & E & ->). apply createNotification_ok in E as [-> ->].
  apply bind_ok in H as (newId & s1 & E & H). injection E as <- <-.
  apply bind_ok in H as (delivery & s1 & E & H). destruct delivery as [delivery|]; [|done].
  apply notify_ok in E as (t2 & E & ->). apply createDelivery_ok in E as [-> ->].
  apply bind_ok in H as ([] & s2 & Eaccept & H). apply accept_ok in Eaccept as [Hn2 Hj2].
  apply bind_ok in H as ([] & s3 & Erecord & H). apply audit_recorded in Erecord as [Hn3 Hj3]. injection H as <- <-.
  cbn [fst snd drawn notifs jobs with_notifs notif_id del_id] in *. rewrite <- Hn3 in Hn2. rewrite <- Hj3 in Hj2.
  unfold scope_of in *. fold org in Edest, Efew, Efew', Hn2. clear Hn3 Hj3.
  destruct (Hfresh (drawn w + 1)%nat) as (_ & Hd1 & Hn1); [cbn; lia|].
  destruct (Hfresh (drawn w + 2)%nat) as (Hne & Hd3 & _); [cbn; lia|]. cbn [fst] in *.
  replace (S (drawn w)) with (drawn w + 1)%nat in * by lia. replace (S (drawn w + 1))%nat with (drawn w + 2)%nat in * by lia.
  set (n := MkNotification _ _ _ _ _ _ _ _ _ _) in Hn2. set (d := MkDelivery _ _ _ _ _ _ _ _ _) in Hn2.
  assert (Hdel : Forall (fun d' => del_id d' <> idOf (drawn w + 2)%nat) (deliveries (notifs w))).
  { eapply Forall_impl; [exact Hd3|]. by intros d' [? _]. }
  assert (Hnew : Forall (fun d' => del_notificationId d' <> notif_id n) (deliveries (notifs w))).
  { eapply Forall_impl; [exact Hd1|]. by intros d' [_ ?]. }
  exists destination. do 2 (split; [done|]). split; [|split; [|split]].
  - unfold findDelivery. apply select_first_none. intros d' Hd'. rewrite Forall_forall in Hdel. unfold owned_delivery.
    rewrite (bool_decide_eq_false_2 (del_id d' = _)); [by rewrite andb_false_r|]. by apply Hdel, list_elem_of_In.
  - split.
    + exists d. rewrite Hn2. split; [|done]. by apply (found_appended org (idOf (drawn w + 2)%nat) (with_notifications (notifications (notifs w) ++ [n]) (notifs w))).
    + destruct (first_attempt_read other org (idOf (drawn w + 2)%nat) carrier Ho Hne) as [carried Hread].
      by exists (alert_payload carrier actor (idOf (drawn w + 2)%nat)), carried.
  - rewrite Hn2. etransitivity; [exact (tests_after org (Some destinationId) _ n d _ Hnew Hn1 eq_refl)|]. unfold throttleExceeded in Efew. apply Z.leb_gt in Efew. lia.
  - rewrite Hn2. etransitivity; [exact (tests_after org None _ n d _ Hnew Hn1 eq_refl)|]. unfold throttleExceeded in Efew'. apply Z.leb_gt in Efew'. lia.
Qed.
End Alerts.

(** ** Examples *)

Definition alert_world : World (list delayed_job) * AuditRepository.Table :=
  (MkWorld (MkStatusTables [] [] [] [])
     (MkNotificationTables [example_destination] []
        [MkNotification "n1" "org" (about instance_disconnected) "" "" "instance" "i1" "event:e1" (Some "e1") 6]
        [MkDelivery "v1" "org" "n1" "d1" failed 8 6 (Some 9) (Some "no answer")] []) [] 0, []).

Definition alert_actor : ActorContext := MkActor "org" "m1" "Ann" owner.

Definition retried := retry taking decimalOfNat 7 [("traceparent", "t")] alert_actor "v1" alert_world.

Lemma retried_alerts_wait_with_their_job_witness :
  retried = (Ok tt, retried.2) /\ waits_with_its_job taking (fun _ => None) "org" "v1" NOTIFICATION_HTTP_QUEUE alert_world retried.2.
Proof.
  assert (Hrun : retried = (Ok tt, retried.2)) by (vm_compute; reflexivity). split; [exact Hrun|].
  assert (H := retried_alerts_wait_with_their_job taking decimalOfNat 7 [("traceparent", "t")] (fun _ => None) alert_actor "v1" alert_world).
  fold retried in H. rewrite Hrun in H. destruct H as (delivery & destination & H1 & _ & H3 & _ & H5); [by vm_compute; lia|done|done|].
  vm_compute in H1. injection H1 as <-. vm_compute in H3. injection H3 as <-. exact H5.
Defined.

Definition new_id (n : nat) : string := "new" +:+ decimalOfNat n.
Definition tested := send_test taking new_id 7 [] (ret 10) alert_actor "d1" alert_world.

Lemma tests_are_counted_and_wait_with_their_job_witness :
  tested = (Ok "new2", tested.2) /\ waits_with_its_job taking (fun _ => None) "org" "new2" NOTIFICATION_HTTP_QUEUE alert_world tested.2
  /\ testsSince "org" (Some "d1") (10 - TEST_WINDOW_MS) (notifs tested.2.1) <= TESTS_PER_WINDOW.
Proof.
  assert (Hrun : tested = (Ok "new2", tested.2)) by (vm_compute; reflexivity). split; [exact Hrun|].
  assert (H := tests_are_counted_and_wait_with_their_job taking new_id 7 [] (fun _ => None) 10 alert_actor "d1" alert_world).
  fold tested in H. rewrite Hrun in H. destruct H as (destination & H1 & _ & _ & H2 & H3 & _).
  - intros n _. repeat constructor; discriminate.
  - done.
  - vm_compute in H1. injection H1 as <-. split; [exact H2|exact H3].
Defined.
