(* ===== verification/Bytes.v ===== *)
(** Bytes as text.

    [Buffer.from(text, "utf8")], [buffer.toString("base64")] and
    [Buffer.from(text, "base64")] of the runtime, as the sources use them: a
    buffer is the list of its bytes. *)

From S2P Require Import Prelude.

(** ** UTF-8 *)

(** The bytes of a code point; half a surrogate pair is written as U+FFFD. *)
Definition utf8_point (p : Z) : list Z :=
  if p <? 128 then [p]
  else if p <? 2048 then [192 + p / 64; 128 + p mod 64]
  else if p <? 65536 then
    if (55296 <=? p) && (p <=? 57343) then [239; 191; 189]
    else [224 + p / 4096; 128 + p / 64 mod 64; 128 + p mod 64]
  else [240 + p / 262144; 128 + p / 4096 mod 64; 128 + p / 64 mod 64; 128 + p mod 64].

Definition utf8 (text : list Z) : list Z := concat (map utf8_point text).

Definition is_byte (b : Z) : Prop := 0 <= b < 256.
Definition is_point (p : Z) : Prop := 0 <= p < 1114112.

Lemma utf8_bytes text : Forall is_point text -> Forall is_byte (utf8 text).
Proof.
  intros H. unfold utf8. induction H as [|p text Hp _ IH]; [constructor|]. cbn. apply Forall_app. split; [|done].
  unfold is_point, is_byte, utf8_point in *. repeat case_match; repeat constructor; tests; lia.
Qed.

(** ** Base64 *)

Definition ALPHABET : string := "ABCDEFGHIJKLMNOPQRSTUVWXYZabcdefghijklmnopqrstuvwxyz0123456789+/".

Definition sextet (n : Z) : Ascii.ascii := match String.get (Z.to_nat n) ALPHABET with Some c => c | None => "=" end.

Fixpoint base64 (bytes : list Z) : string :=
  match bytes with
  | [] => EmptyString
  | [a] => String (sextet (a / 4)) (String (sextet (a mod 4 * 16)) "==")
  | [a; b] => String (sextet (a / 4)) (String (sextet (a mod 4 * 16 + b / 16)) (String (sextet (b mod 16 * 4)) "="))
  | a :: b :: c :: rest =>
      String (sextet (a / 4)) (String (sextet (a mod 4 * 16 + b / 16))
        (String (sextet (b mod 16 * 4 + c / 64)) (String (sextet (c mod 64)) (base64 rest))))
  end.

Fixpoint place_of (c : Ascii.ascii) (letters : string) : option Z :=
  match letters with
  | EmptyString => None
  | String d rest => if c ≡? d then Some 0 else option_map (fun n => n + 1) (place_of c rest)
  end.

(** The letters before the padding; what is no letter is skipped. *)
Fixpoint sextets_of (text : string) : list Z :=
  match text with
  | EmptyString => []
  | String c rest =>
      if c ≡? "="%char then []
      else match place_of c ALPHABET with Some n => n :: sextets_of rest | None => sextets_of rest end
  end.

(** Three bytes of four letters; of a rest of two or three, one or two. *)
Fixpoint joined (letters : list Z) : list Z :=
  match letters with
  | a :: b :: c :: d :: rest => (a * 4 + b / 16) :: (b mod 16 * 16 + c / 4) :: (c mod 4 * 64 + d) :: joined rest
  | [a; b; c] => [a * 4 + b / 16; b mod 16 * 16 + c / 4]
  | [a; b] => [a * 4 + b / 16]
  | _ => []
  end.

Definition from_base64 (text : string) : list Z := joined (sextets_of text).

Lemma sextet_value n : 0 <= n < 64 -> place_of (sextet n) ALPHABET = Some n /\ (sextet n ≡? "="%char) = false.
Proof.
  intros H.
  assert (Hall : forallb (fun n => (place_of (sextet n) ALPHABET ≡? Some n) && negb (sextet n ≡? "="%char)) (seqZ 0 64) = true)
    by (vm_compute; reflexivity).
  rewrite forallb_forall in Hall. specialize (Hall n). rewrite <- list_elem_of_In, elem_of_seqZ in Hall. specialize (Hall ltac:(lia)).
  apply andb_prop in Hall as [H1 H2]. split; [exact (bool_decide_eq_true_1 _ H1)|by apply negb_true_iff].
Qed.

Lemma sextets_cons n rest : 0 <= n < 64 -> sextets_of (String (sextet n) rest) = n :: sextets_of rest.
Proof. intros H. cbn [sextets_of]. by destruct (sextet_value n H) as [-> ->]. Qed.

(** What is written in base64 is read back. *)
Lemma from_base64_base64 bytes : Forall is_byte bytes -> from_base64 (base64 bytes) = bytes.
Proof.
  unfold from_base64. induction bytes as [bytes IH] using (induction_ltof1 _ (@length Z)). unfold ltof in IH. intros H. unfold is_byte in H.
  destruct bytes as [|a [|b [|c rest]]]; [done|..]; inversion H as [|? ? Ha Hr]; subst; clear H.
  - cbn [base64]. rewrite !sextets_cons by lia. cbn. f_equal. lia.
  - inversion Hr as [|? ? Hb _]; subst. cbn [base64]. rewrite !sextets_cons by lia. cbn. repeat f_equal; lia.
  - inversion Hr as [|? ? Hb Hr']; subst. inversion Hr' as [|? ? Hc Hrest]; subst. cbn [base64]. rewrite !sextets_cons by lia. cbn [joined].
    rewrite IH by (simpl; lia || done). repeat f_equal; lia.
Qed.

(** The characters of base64. *)
Definition in_base64 (c : Ascii.ascii) : bool :=
  existsb (fun d => c ≡? d) (String.list_ascii_of_string (ALPHABET +:+ "=")).

Lemma sextet_in_base64 n : in_base64 (sextet n) = true.
Proof.
  unfold sextet. destruct (String.get (Z.to_nat n) ALPHABET) as [c|] eqn:E; [|done].
  assert (H : forall s k, String.get k s = Some c -> In c (String.list_ascii_of_string s)).
  { induction s as [|d s IH]; intros [|k]; simpl; try done; [by intros [= ->]; left|]. intros H. right. by eapply IH. }
  apply H in E. unfold in_base64. apply existsb_exists. exists c. split; [|by apply bool_decide_eq_true_2].
  revert E. generalize ALPHABET. intros s. induction s as [|d s IH]; [done|]. simpl. intros [<-|Hin]; [by left|right; by apply IH].
Qed.

Lemma base64_chars bytes : chars_all in_base64 (base64 bytes) = true.
Proof.
  induction bytes as [bytes IH] using (induction_ltof1 _ (@length Z)). unfold ltof in IH.
  destruct bytes as [|a [|b [|c rest]]]; cbn; rewrite ?sextet_in_base64; try done. apply IH. simpl. lia.
Qed.
