(* ===== verification/Smtp.v ===== *)
(** Sending an alert by mail.

    [smtp.reply.ts], [smtp.message.ts], [smtp.client.ts], [smtp.connect.ts] and
    [smtp.sender.ts] of [packages/core/src/notification].  A connection is the
    list of what its socket reports, in order: pieces of text, an error, the end,
    and whether a write went through.  Where the list stops the socket stays
    silent, and the timer set on it destroys it with its error.  What the other
    side does (which addresses answer, how a handshake of TLS ends) is an
    argument; everything said and heard is kept in a log, with whether the
    connection was secure when it was said. *)

From S2P Require Import Prelude Tables Dates StatusKinds StatusStore NotificationStore Announce Egress Payloads Outcome Delivery Mcp Destinations InstanceStore Senders Bytes.

Definition CR : Ascii.ascii := "013".
Definition LF : Ascii.ascii := "010".
Definition CRLF : string := String CR (String LF EmptyString).

(** ** Replies *)

Record SmtpReply := MkReply { code : Z; lines : list string }.

(** The text before the first [\r\n], and what follows it. *)
Fixpoint next_line (buffer : string) : option (string * string) :=
  match buffer with
  | String c ((String d rest) as tail) =>
      if (c ≡? CR) && (d ≡? LF) then Some (EmptyString, rest)
      else let? (line, after) := next_line tail in Some (String c line, after)
  | _ => None
  end.

Definition no_break (c : Ascii.ascii) : bool := negb (c ≡? CR) && negb (c ≡? LF).

(** [LINE]: three digits, a blank or a hyphen, and text that breaks no line. *)
Definition read_LINE (raw : string) : option (Z * bool * string) :=
  match raw with
  | String a (String b (String c (String separator text))) =>
      let? x := digit_value a in
      let? y := digit_value b in
      let? z := digit_value c in
      if ((separator ≡? " "%char) || (separator ≡? "-"%char)) && chars_all no_break text
      then Some (100 * x + 10 * y + z, separator ≡? " "%char, text)
      else None
  | _ => None
  end.

(** Each turn takes a line off the buffer, so its length is fuel enough. *)
Fixpoint read_lines (fuel : nat) (lines : list string) (buffer : string) : option (SmtpReply * string) :=
  match fuel with
  | O => None
  | S fuel =>
      let? (raw, rest) := next_line buffer in
      match read_LINE raw with
      | None => None
      | Some (code, last, text) =>
          if last then Some (MkReply code (lines ++ [text]), rest) else read_lines fuel (lines ++ [text]) rest
      end
  end.

Definition readReply (buffer : string) : option (SmtpReply * string) := read_lines (String.length buffer) [] buffer.

(** [toUpperCase], of the letters a keyword has. *)
Definition upper_char (c : Ascii.ascii) : Ascii.ascii :=
  let n := Ascii.nat_of_ascii c in
  if (97 <=? n)%nat && (n <=? 122)%nat then Ascii.ascii_of_nat (n - 32) else c.

Fixpoint toUpperCase (value : string) : string :=
  match value with EmptyString => EmptyString | String c rest => String (upper_char c) (toUpperCase rest) end.

Definition words (line : string) : list string := split_white false (trim line).

Definition advertises (reply : SmtpReply) (keyword : string) : bool :=
  existsb (fun line => match words line with word :: _ => toUpperCase word ≡? toUpperCase keyword | [] => false end) (lines reply).

Definition authMechanisms (reply : SmtpReply) : list string :=
  concat (map (fun line => match words line with
                           | word :: rest => if toUpperCase word ≡? "AUTH" then map toUpperCase rest else []
                           | [] => []
                           end) (lines reply)).

Definition isPositive (reply : SmtpReply) : bool := (200 <=? code reply) && (code reply <? 400).
Definition isTransient (code : Z) : bool := (400 <=? code) && (code <? 500).

(** ** The message *)

Definition printable (p : Z) : bool := (32 <=? p) && (p <=? 126).

Definition ascii_text (text : Text) : string := fold_right (fun p rest => String (Ascii.ascii_of_nat (Z.to_nat p)) rest) EmptyString text.

Definition encodedWord (value : Text) : string :=
  if forallb printable value then ascii_text value else "=?UTF-8?B?" +:+ base64 (utf8 value) +:+ "?=".

(** [value.replace(/(.{76})/g, "$1\r\n")]; [room] characters are left of the line. *)
Fixpoint wrapped (room : nat) (value : string) : string :=
  match value with
  | EmptyString => EmptyString
  | String c rest => if (room <=? 1)%nat then String c (CRLF +:+ wrapped 76 rest) else String c (wrapped (room - 1) rest)
  end.

Definition wrappedBase64 (value : Text) : string := wrapped 76 (base64 (utf8 value)).

(** [address.lastIndexOf(at) === -1 ? ... : address.slice(at + 1)] *)
Fixpoint after_last (at_ : Ascii.ascii) (value : string) : option string :=
  match value with
  | EmptyString => None
  | String c rest =>
      match after_last at_ rest with
      | Some found => Some found
      | None => if c ≡? at_ then Some rest else None
      end
  end.

Definition domainOf (address : string) : string := default "openmcc.invalid" (after_last "@" address).

Definition WEEKDAYS : list string := ["Sun"; "Mon"; "Tue"; "Wed"; "Thu"; "Fri"; "Sat"].
Definition MONTHS : list string := ["Jan"; "Feb"; "Mar"; "Apr"; "May"; "Jun"; "Jul"; "Aug"; "Sep"; "Oct"; "Nov"; "Dec"].

(** [date.toUTCString()] *)
Definition toUTCString (at_ : Z) : string :=
  let days := at_ / MS_PER_DAY in
  let c := civil_of_days days in
  let ms := at_ mod MS_PER_DAY in
  nth (Z.to_nat ((days + 4) mod 7)) WEEKDAYS EmptyString +:+ ", " +:+ padded 2 (cday c) +:+ " "
    +:+ nth (Z.to_nat (cmonth c - 1)) MONTHS EmptyString +:+ " "
    +:+ (if cyear c <? 0 then "-" else EmptyString) +:+ padded 4 (Z.abs (cyear c)) +:+ " "
    +:+ padded 2 (ms / 3600000) +:+ ":" +:+ padded 2 (ms / 60000 mod 60) +:+ ":" +:+ padded 2 (ms / 1000 mod 60) +:+ " GMT".

Record SmtpMessage := MkSmtpMessage {
  msg_id : string; from : string; to : list string; subject : Text; text : Text; at_time : Z }.

Definition message_headers (message : SmtpMessage) : list string :=
  ["From: " +:+ from message;
   "To: " +:+ join_with ", " (to message);
   "Subject: " +:+ encodedWord (subject message);
   "Date: " +:+ toUTCString (at_time message);
   "Message-ID: <" +:+ msg_id message +:+ "@" +:+ domainOf (from message) +:+ ">";
   "MIME-Version: 1.0";
   "Content-Type: text/plain; charset=" +:+ String (Ascii.ascii_of_nat 34) ("utf-8" +:+ String (Ascii.ascii_of_nat 34) EmptyString);
   "Content-Transfer-Encoding: base64"].

Definition messageBytes (message : SmtpMessage) : string :=
  join_with CRLF (message_headers message ++ [EmptyString; wrappedBase64 (text message)]).

(** ** The connection *)

Definition IMPLICIT_TLS_PORT : Z := 465.
Definition needsStartTls (port : Z) : bool := negb (port =? IMPLICIT_TLS_PORT).

Record SecureOptions := MkSecureOptions { servername : option string; host : option string; rejectUnauthorized : bool }.

Definition secureOptions (isIP : string -> Z) (hostname : string) : SecureOptions :=
  if isIP hostname =? 0 then MkSecureOptions (Some hostname) None true else MkSecureOptions None (Some hostname) true.

(** The first of the three signals [settled] waits for: the timer bounds the
    wait. *)
Inductive Signal := got_ready | got_error (error : thrown) | got_timeout.

Definition settled (signal : Signal) (failure : string) : result unit :=
  match signal with
  | got_ready => Ok tt
  | got_error error => Throw error
  | got_timeout => Throw (InternalError_ failure)
  end.

(** What a socket reports: a piece of text, an error, the end, and that a
    write went through or did not. *)
Inductive SocketEvent :=
  | chunk (text : string)
  | broke (error : thrown)
  | ended
  | went_out
  | stuck (error : thrown).

(** The other side of one connection, before and after its handshake. *)
Record Server := MkServer {
  plainly : list SocketEvent; handshake : SecureOptions -> Signal; securely : list SocketEvent }.

Inductive Entry :=
  | opening (address : string) (port : Z)
  | securing (options : SecureOptions)
  | said (secure : bool) (line : string)
  | heard (reply : SmtpReply).

(** The socket with its reader, and [dataWritten]. *)
Record Wire := MkWire {
  arriving : list SocketEvent; buffer : string; failure : option thrown; is_secure : bool; dataWritten : bool;
  log : list Entry }.

Definition with_reader (events : list SocketEvent) (text : string) (failed : option thrown) (w : Wire) : Wire :=
  MkWire events text failed (is_secure w) (dataWritten w) (log w).
Definition noting (entry : Entry) (w : Wire) : Wire :=
  MkWire (arriving w) (buffer w) (failure w) (is_secure w) (dataWritten w) (log w ++ [entry]).

Definition INJECTED : string := "That mail server's reply looked tampered with".
Definition NO_TLS : string := "That mail server would not start a secure session".
Definition NO_AUTH : string := "That mail server does not accept the sign-in we support".
Definition CLOSED : string := "That mail server closed the connection".
Definition TOO_SLOW : string := "That mail server took too long".
Definition REFUSED : string := "That mail server refused the message".
Definition REFUSED_RECIPIENT : string := "That mail server refused one of the addresses".
Definition PARTIAL : string := "That mail server refused one or more of the addresses".
Definition UNEXPECTED : string := "That mail server answered in a way we did not expect".

(** The listeners of [createReader], when no reading waits. *)
Definition absorb (event : SocketEvent) (text : string) (failed : option thrown) : string * option thrown :=
  match event with
  | chunk piece => (text +:+ piece, failed)
  | broke error => (text, Some error)
  | ended => (text, Some (InternalError_ CLOSED))
  | _ => (text, failed)
  end.

(** Until the callback of a write; where the events stop the timer destroys
    the socket. *)
Fixpoint until_written (events : list SocketEvent) (text : string) (failed : option thrown) (w : Wire) : result unit * Wire :=
  match events with
  | [] => (Throw (InternalError_ TOO_SLOW), with_reader [] text (Some (InternalError_ TOO_SLOW)) w)
  | went_out :: rest => (Ok tt, with_reader rest text failed w)
  | stuck error :: rest => (Throw error, with_reader rest text failed w)
  | event :: rest => let (text, failed) := absorb event text failed in until_written rest text failed w
  end.

Definition say (line : string) : M Wire unit :=
  modify (fun w => noting (said (is_secure w) line) w) ;;;
  (fun w => until_written (arriving w) (buffer w) (failure w) w).

(** A reading that waits: the buffer holds no whole reply. *)
Fixpoint until_reply (events : list SocketEvent) (text : string) (w : Wire) : result SmtpReply * Wire :=
  match events with
  | [] => (Throw (InternalError_ TOO_SLOW), with_reader [] text (Some (InternalError_ TOO_SLOW)) w)
  | chunk piece :: rest =>
      match readReply (text +:+ piece) with
      | Some (reply, after) => (Ok reply, with_reader rest after None w)
      | None => until_reply rest (text +:+ piece) w
      end
  | broke error :: rest => (Throw error, with_reader rest text (Some error) w)
  | ended :: rest => (Throw (InternalError_ CLOSED), with_reader rest text (Some (InternalError_ CLOSED)) w)
  | _ :: rest => until_reply rest text w
  end.

(** [reader.read()]: a failure that was seen comes before what is buffered. *)
Definition read_next : M Wire SmtpReply := fun w =>
  match failure w with
  | Some error => (Throw error, w)
  | None =>
      match readReply (buffer w) with
      | Some (reply, after) => (Ok reply, with_reader (arriving w) after None w)
      | None => until_reply (arriving w) (buffer w) w
      end
  end.

Definition read : M Wire SmtpReply :=
  let* reply := read_next in
  modify (noting (heard reply)) ;;;
  ret reply.

Definition step (line : string) : M Wire SmtpReply := say line ;;; read.

(** [upgrade(socket, hostname, timeoutMs)] and the reader of the new socket. *)
Definition upgrade (isIP : string -> Z) (hostname : string) (server : Server) : M Wire unit :=
  let options := secureOptions isIP hostname in
  modify (noting (securing options)) ;;;
  lift (settled (handshake server options) "the secure connection timed out") ;;;
  modify (fun w => MkWire (securely server) EmptyString None true (dataWritten w) (log w)).

(** ** The conversation *)

Record SmtpCredentials := MkCredentials { hostname : string; port : Z; username : string; password : string }.

Definition encoded (value : string) : string := base64 (utf8 (points value)).

Definition plainCredential (username password : string) : string :=
  base64 (utf8 ([0] ++ points username ++ [0] ++ points password)).

Inductive Conversation := over (outcome : DeliveryOutcome) | tryNextAddress (outcome : DeliveryOutcome).

Definition byReply (code : Z) (reason : string) : Conversation :=
  if isTransient code then tryNextAddress (classifySmtpReply code reason) else over (classifySmtpReply code reason).

(** Asking for every recipient: the codes of those that were refused, and how
    many were taken. *)
Fixpoint ask_recipients (recipients : list string) (refusals : list Z) (takers : Z) : M Wire (list Z * Z) :=
  match recipients with
  | [] => ret (refusals, takers)
  | recipient :: rest =>
      let* answer := step ("RCPT TO:<" +:+ recipient +:+ ">" +:+ CRLF) in
      if isPositive answer then ask_recipients rest refusals (takers + 1)
      else ask_recipients rest (refusals ++ [code answer]) takers
  end.

Definition explains (refusals : list Z) : Z :=
  match List.find (fun code => negb (isTransient code)) refusals with
  | Some code => code
  | None => match refusals with code :: _ => code | [] => 550 end
  end.

Definition dataOf (message : SmtpMessage) : string := messageBytes message +:+ CRLF +:+ "." +:+ CRLF.

Section Client.
Variable isIP : string -> Z.
Variable network_error : thrown -> option NetworkError.

(** From the envelope to the end. *)
Definition hand_over (message : SmtpMessage) : M Wire Conversation :=
  let* sender := step ("MAIL FROM:<" +:+ from message +:+ ">" +:+ CRLF) in
  if negb (isPositive sender) then ret (byReply (code sender) REFUSED)
  else
    let* asked := ask_recipients (to message) [] 0 in
    let '(refusals, takers) := asked in
    if takers =? 0 then ret (byReply (explains refusals) REFUSED_RECIPIENT)
    else
      let* opened := step ("DATA" +:+ CRLF) in
      if negb (code opened =? 354) then ret (byReply (code opened) REFUSED)
      else
        modify (fun w => MkWire (arriving w) (buffer w) (failure w) (is_secure w) true (log w)) ;;;
        let* accepted := step (dataOf message) in
        if negb (isPositive accepted) then ret (byReply (code accepted) REFUSED)
        else
          let landed :=
            match refusals with
            | [] => over (went (Some (code accepted)))
            | _ => over (terminal (Some (explains refusals)) PARTIAL false None)
            end in
          try_catch (say ("QUIT" +:+ CRLF) ;;; ret landed) (fun _ => ret landed).

(** Signing in; [None] when that went well. *)
Definition sign_in (credentials : SmtpCredentials) (capabilities : SmtpReply) : M Wire (option Conversation) :=
  let mechanisms := authMechanisms capabilities in
  if bool_decide ("PLAIN" ∈ mechanisms) then
    let* signedIn := step ("AUTH PLAIN " +:+ plainCredential (username credentials) (password credentials) +:+ CRLF) in
    ret (if isPositive signedIn then None else Some (byReply (code signedIn) NO_AUTH))
  else if bool_decide ("LOGIN" ∈ mechanisms) then
    let* asked := step ("AUTH LOGIN" +:+ CRLF) in
    if negb (code asked =? 334) then ret (Some (byReply (code asked) NO_AUTH))
    else
      let* wantsPassword := step (encoded (username credentials) +:+ CRLF) in
      if negb (code wantsPassword =? 334) then ret (Some (byReply (code wantsPassword) NO_AUTH))
      else
        let* signedIn := step (encoded (password credentials) +:+ CRLF) in
        ret (if isPositive signedIn then None else Some (byReply (code signedIn) NO_AUTH))
  else ret (Some (over (classifyRefusal NO_AUTH))).

Definition EHLO : string := "EHLO openmcc" +:+ CRLF.
Definition STARTTLS : string := "STARTTLS" +:+ CRLF.

(** The capabilities of the secure session, or the end of the conversation. *)
Definition make_secure (credentials : SmtpCredentials) (server : Server) (capabilities : SmtpReply)
    : M Wire (Conversation + SmtpReply) :=
  if needsStartTls (port credentials) then
    if negb (advertises capabilities "STARTTLS") then ret (inl (over (classifyRefusal NO_TLS)))
    else
      let* ready := step STARTTLS in
      if negb (isPositive ready) then ret (inl (byReply (code ready) NO_TLS))
      else
        let* residual := gets buffer in
        if negb (residual ≡? EmptyString) then ret (inl (over (classifyRefusal INJECTED)))
        else
          upgrade isIP (hostname credentials) server ;;;
          let* capabilities := step EHLO in
          ret (if isPositive capabilities then inr capabilities else inl (byReply (code capabilities) UNEXPECTED))
  else ret (inr capabilities).

Definition talk (credentials : SmtpCredentials) (message : SmtpMessage) (server : Server) : M Wire Conversation :=
  let* greeting := read in
  if negb (isPositive greeting) then ret (byReply (code greeting) UNEXPECTED)
  else
    let* capabilities := step EHLO in
    if negb (isPositive capabilities) then ret (byReply (code capabilities) UNEXPECTED)
    else
      let* secured := make_secure credentials server capabilities in
      match secured with
      | inl conversation => ret conversation
      | inr capabilities =>
          let* refused := sign_in credentials capabilities in
          match refused with
          | Some conversation => ret conversation
          | None => hand_over message
          end
      end.

(** [raised?.message === TOO_SLOW ? TOO_SLOW : networkReason(raised)] *)
Definition reason_raised (error : thrown) : string :=
  match error with
  | ThrownError _ message => if message ≡? TOO_SLOW then TOO_SLOW else networkReason (network_error error)
  | ThrownValue _ => networkReason None
  end.

(** Once the message was written an error is the end: it may have arrived. *)
Definition converse (credentials : SmtpCredentials) (message : SmtpMessage) (server : Server) : M Wire Conversation :=
  try_catch (talk credentials message server)
    (fun error =>
       let* written := gets dataWritten in
       let outcome := retryable None (reason_raised error) None None in
       ret (if written then over outcome else tryNextAddress outcome)).

(** ** The sender *)

Definition NOWHERE : string := "that mail server could not be reached".
Definition EMAIL_SUBJECT_CHARS : nat := 250.
Definition EMAIL_TEXT_CHARS : nat := 4000.

Definition emailMessage (settings : EmailConfig) (envelope : NotificationEnvelope) (at_ : Z) : SmtpMessage :=
  MkSmtpMessage (env_deliveryId envelope) (email_from settings) (email_to settings)
    (truncateChars (points (env_title envelope)) EMAIL_SUBJECT_CHARS)
    (truncateChars (points (env_title envelope) ++ [10; 10] ++ points (env_body envelope)) EMAIL_TEXT_CHARS) at_.

Section Sender.
Context {W : Type}.
Variable ranges : Tables_.
Variable lookupAddresses : string -> M W (list string).
(** The connection that is opened in each place of the list of addresses. *)
Variable connect : nat -> PinnedAddress -> Signal * Server.
Variable policy : EgressPolicy.

Abbreviation Mail := (W * list Entry)%type.

Definition note (entry : Entry) : M Mail unit := modify (fun s => (s.1, s.2 ++ [entry])).

Definition failed_because (error : thrown) : DeliveryOutcome :=
  classifyNetworkFailure (networkReason match error with ThrownError _ _ => network_error error | ThrownValue _ => None end).

(** A conversation over a socket that reports [events]. *)
Definition speak (credentials : SmtpCredentials) (message : SmtpMessage) (server : Server) (secure : bool)
    (events : list SocketEvent) : M Mail Conversation :=
  fun s =>
    let (conversation, w) := converse credentials message server (MkWire events EmptyString None secure false s.2) in
    (conversation, (s.1, log w)).

(** The loop over the addresses, from the place [n]. *)
Fixpoint try_addresses (n : nat) (addresses : list PinnedAddress) (credentials : SmtpCredentials) (message : SmtpMessage)
    (lastFailure : DeliveryOutcome) : M Mail DeliveryOutcome :=
  match addresses with
  | [] => ret lastFailure
  | address :: rest =>
      note (opening (pin_address address) (port credentials)) ;;;
      let (signal, server) := connect n address in
      match settled signal "the mail server did not answer" with
      | Throw error => try_addresses (S n) rest credentials message (failed_because error)
      | Ok _ =>
          let options := secureOptions isIP (hostname credentials) in
          let* secured :=
            if negb (needsStartTls (port credentials)) then
              note (securing options) ;;;
              ret (settled (handshake server options) "the secure connection timed out")
            else ret (Ok tt) in
          match secured with
          | Throw error => try_addresses (S n) rest credentials message (failed_because error)
          | Ok _ =>
              let implicit := negb (needsStartTls (port credentials)) in
              let* conversation :=
                speak credentials message server implicit (if implicit then securely server else plainly server) in
              match conversation with
              | over outcome => ret outcome
              | tryNextAddress outcome => try_addresses (S n) rest credentials message outcome
              end
          end
      end
  end.

Definition deliverEmail (at_ : Z) (settings : EmailConfig) (envelope : NotificationEnvelope) : M Mail DeliveryOutcome :=
  let hostname := toLowerCase (bareHostname (smtpServer settings)) in
  let* verdict := on_fst (resolvePinned isIP ranges lookupAddresses hostname policy) in
  match verdict with
  | not_pinned reason => ret (classifyRefusal reason)
  | pinned addresses =>
      try_addresses 0 addresses
        (MkCredentials hostname (smtpPort settings) (smtp_username settings) (smtp_password settings))
        (emailMessage settings envelope at_) (classifyRefusal NOWHERE)
  end.
End Sender.
End Client.
