(* ===== verification/SmtpSafety.v ===== *)
(** What sending by mail promises.

    Replies are read the same however the network cuts them; credentials and
    the message are said only once the connection is secure; the message is
    handed to at most one server that may keep it; mail called delivered was
    taken for every recipient, except where a server answers out of turn; and
    no title, body or name breaks out of its place in the message. *)

From S2P Require Import Prelude Tables Dates StatusKinds StatusStore NotificationStore Announce Egress Payloads Outcome Delivery Mcp Destinations InstanceStore Senders Bytes Smtp.

(** ** Replies in pieces *)

Lemma next_line_cons c d rest :
  next_line (String c (String d rest))
  = if (c ≡? CR) && (d ≡? LF) then Some (EmptyString, rest)
    else let? (line, after) := next_line (String d rest) in Some (String c line, after).
Proof. reflexivity. Qed.

Lemma next_line_app buffer line rest more :
  next_line buffer = Some (line, rest) -> next_line (buffer +:+ more) = Some (line, rest +:+ more).
Proof.
  revert line rest. induction buffer as [|c buffer IH]; [done|]. intros line rest. destruct buffer as [|d buffer]; [done|].
  rewrite !string_app_cons in *. rewrite !next_line_cons. destruct (_ && _); [by intros [= <- <-]|].
  destruct (next_line (String d buffer)) as [[l r]|]; [|done]. intros [= <- <-]. by rewrite (IH _ _ eq_refl).
Qed.

Lemma next_line_length buffer line rest : next_line buffer = Some (line, rest) -> (String.length rest < String.length buffer)%nat.
Proof.
  revert line rest. induction buffer as [|c buffer IH]; [done|]. intros line rest. destruct buffer as [|d buffer]; [done|].
  rewrite next_line_cons. destruct (_ && _); [intros [= <- <-]; simpl; lia|].
  destruct (next_line (String d buffer)) as [[l r]|]; [|done]. intros [= <- <-]. specialize (IH _ _ eq_refl). simpl in *. lia.
Qed.

Lemma read_lines_app fuel fuel' seen buffer more reply rest :
  read_lines fuel seen buffer = Some (reply, rest) -> (fuel <= fuel')%nat ->
  read_lines fuel' seen (buffer +:+ more) = Some (reply, rest +:+ more).
Proof.
  revert fuel' seen buffer. induction fuel as [|fuel IH]; [done|]. intros [|fuel'] seen buffer; [lia|]. cbn [read_lines].
  destruct (next_line buffer) as [[raw after]|] eqn:E; [|done]. rewrite (next_line_app _ _ _ more E).
  destruct (read_LINE raw) as [[[code last] text]|]; [|done]. destruct last; [by intros [= <- <-]|].
  intros H Hf. apply IH; [done|lia].
Qed.

(** A reply in the buffer stays what it is when more arrives. *)
Lemma readReply_app buffer more reply rest :
  readReply buffer = Some (reply, rest) -> readReply (buffer +:+ more) = Some (reply, rest +:+ more).
Proof. intros H. unfold readReply. eapply read_lines_app; [exact H|]. rewrite string_length_app. lia. Qed.


Fixpoint concatenated (pieces : list string) : string :=
  match pieces with [] => EmptyString | piece :: rest => piece +:+ concatenated rest end.

Lemma until_reply_pieces pieces events w : forall text reply rest,
  readReply text = None -> readReply (text +:+ concatenated pieces) = Some (reply, rest) ->
  exists later after, suffix later pieces /\ after +:+ concatenated later = rest
    /\ until_reply (map chunk pieces ++ events) text w = (Ok reply, with_reader (map chunk later ++ events) after None w).
Proof.
  induction pieces as [|piece pieces IH]; intros text reply rest Hnone Hread; cbn [concatenated] in Hread.
  - rewrite string_app_nil_r in Hread. congruence.
  - rewrite <- string_app_assoc in Hread. cbn [map app until_reply]. destruct (readReply (text +:+ piece)) as [[reply' after]|] eqn:E.
    + rewrite (readReply_app _ (concatenated pieces) _ _ E) in Hread. injection Hread as -> <-.
      exists pieces, after. split; [by exists [piece]|]. done.
    + destruct (IH _ _ _ E Hread) as (later & after & Hs & Ha & Hrun). exists later, after. split; [by apply suffix_cons_r|]. done.
Qed.

(** How the network cuts a server's text does not change what is read from
    it: whatever the pieces are, what was buffered and the pieces together
    decide the reply that is read, and what is left of them follows it, in the
    buffer and the pieces still to come. *)
Theorem replies_do_not_depend_on_the_pieces pieces events w reply rest :
  failure w = None -> arriving w = map chunk pieces ++ events ->
  readReply (buffer w +:+ concatenated pieces) = Some (reply, rest) ->
  exists later w', read_next w = (Ok reply, w')
    /\ arriving w' = map chunk later ++ events /\ suffix later pieces /\ failure w' = None
    /\ buffer w' +:+ concatenated later = rest.
Proof.
  intros Hf Ha Hr. unfold read_next. rewrite Hf. destruct (readReply (buffer w)) as [[reply' after]|] eqn:E.
  - rewrite (readReply_app _ (concatenated pieces) _ _ E) in Hr. injection Hr as -> <-.
    eexists pieces, _. split; [reflexivity|]. by rewrite Ha.
  - rewrite Ha. destruct (until_reply_pieces pieces events w _ _ _ E Hr) as (later & after & Hs & Hrest & Hrun).
    exists later. eexists. split; [exact Hrun|]. done.
Qed.

(** Any fuel that is enough reads the same. *)
Lemma read_lines_enough fuel fuel' : forall seen buffer, (String.length buffer <= fuel)%nat -> (String.length buffer <= fuel')%nat ->
  read_lines fuel seen buffer = read_lines fuel' seen buffer.
Proof.
  revert fuel'. induction fuel as [|fuel IH]; intros fuel' seen buffer H H'.
  - destruct buffer; [|simpl in H; lia]. by destruct fuel'.
  - destruct fuel' as [|fuel']; [destruct buffer; [done|simpl in H'; lia]|]. cbn [read_lines].
    destruct (next_line buffer) as [[raw rest]|] eqn:E; [|done]. apply next_line_length in E.
    destruct (read_LINE raw) as [[[code last] text]|]; [|done]. destruct last; [done|]. apply IH; lia.
Qed.

(** ** Steps of the conversation *)

(** The entries a step adds. *)
Lemma until_written_log events : forall text failed w,
  log (until_written events text failed w).2 = log w /\ is_secure (until_written events text failed w).2 = is_secure w
  /\ dataWritten (until_written events text failed w).2 = dataWritten w.
Proof. induction events as [|[] events IH]; intros text_ failed w; simpl; try done; apply IH. Qed.

Lemma until_reply_log events : forall text w,
  log (until_reply events text w).2 = log w /\ is_secure (until_reply events text w).2 = is_secure w
  /\ dataWritten (until_reply events text w).2 = dataWritten w.
Proof.
  induction events as [|[piece| | | |] events IH]; intros text_ w; simpl; try done; try apply IH.
  destruct (readReply _) as [[reply after]|]; [done|apply IH].
Qed.

Lemma read_next_log w :
  log (read_next w).2 = log w /\ is_secure (read_next w).2 = is_secure w /\ dataWritten (read_next w).2 = dataWritten w.
Proof.
  unfold read_next. destruct (failure w); [done|]. destruct (readReply (buffer w)) as [[reply after]|]; [done|]. apply until_reply_log.
Qed.

(** Of a connection: what was logged, whether it is secure, and whether the
    message was written. *)
Definition at_point (l : list Entry) (secure written : bool) (w : Wire) : Prop :=
  log w = l /\ is_secure w = secure /\ dataWritten w = written.

Lemma say_at l secure written line :
  triple (at_point l secure written) (say line)
    (fun _ => at_point (l ++ [said secure line]) secure written) (fun _ => at_point (l ++ [said secure line]) secure written).
Proof.
  intros w (Hl & Hs & Hw). unfold say, bind, modify.
  assert (H := until_written_log (arriving (noting (said (is_secure w) line) w)) (buffer (noting (said (is_secure w) line) w))
    (failure (noting (said (is_secure w) line) w)) (noting (said (is_secure w) line) w)).
  destruct (until_written _ _ _ _) as [[[]|e] w']; simpl in H; destruct H as (H1 & H2 & H3); unfold at_point; by rewrite H1, H2, H3, Hl, Hs.
Qed.

Lemma read_at l secure written :
  triple (at_point l secure written) read
    (fun reply => at_point (l ++ [heard reply]) secure written) (fun _ => at_point l secure written).
Proof.
  intros w (Hl & Hs & Hw). unfold read, bind, modify, ret. assert (H := read_next_log w).
  destruct (read_next w) as [[reply|e] w']; simpl in *; destruct H as (H1 & H2 & H3); unfold at_point; simpl; by rewrite H1, H2, H3, ?Hl.
Qed.

(** A line and its answer; when it throws, the line may stand alone. *)
Lemma step_at l secure written line :
  triple (at_point l secure written) (step line)
    (fun reply => at_point (l ++ [said secure line; heard reply]) secure written)
    (fun _ => at_point (l ++ [said secure line]) secure written).
Proof.
  unfold step. eapply triple_bind; [apply say_at|]. intros []. eapply triple_consequence; [apply read_at|done| |done].
  intros reply w H. cbn beta in H. by rewrite <- app_assoc in H.
Qed.

(** A property of the log that every entry of a step keeps. *)
Definition stays (P : bool -> bool -> list Entry -> Prop) (secure : bool) (line : string) : Prop := forall written l,
  P secure written l -> P secure written (l ++ [said secure line]) /\ forall reply, P secure written (l ++ [said secure line; heard reply]).

Definition holds (P : bool -> bool -> list Entry -> Prop) (w : Wire) : Prop := P (is_secure w) (dataWritten w) (log w).

Lemma step_stays P secure line : stays P secure line -> 
  triple (fun w => holds P w /\ is_secure w = secure) (step line)
    (fun _ w => holds P w /\ is_secure w = secure) (fun _ w => holds P w /\ is_secure w = secure).
Proof.
  intros H w [Hp Hs]. destruct (H (dataWritten w) (log w)) as [H1 H2]; [by rewrite <- Hs|].
  assert (Hw : at_point (log w) secure (dataWritten w) w) by done.
  apply (step_at _ _ _ line) in Hw. destruct (step line w) as [[reply|e] w']; destruct Hw as (Hl' & Hs' & Hw'); unfold holds;
    rewrite Hl', Hs', Hw'; eauto.
Qed.

(** ** What is said, and when *)

Definition is_message (line : string) : bool := startsWith "From: " line.

Lemma prefix_chars p part value : startsWith part value = true -> chars_all p value = true -> chars_all p part = true.
Proof.
  unfold startsWith. revert value. induction part as [|c part IH]; [done|]. intros [|d value]; [done|]. cbn [String.prefix chars_all].
  destruct (Ascii.ascii_dec c d) as [->|]; [|done]. intros Hp [Hd Hv]%andb_prop. rewrite Hd. by apply (IH value).
Qed.

Lemma encoded_is_no_message text : is_message (base64 text +:+ CRLF) = false.
Proof.
  destruct (is_message _) eqn:E; [|done]. set (p c := in_base64 c || negb (no_break c)).
  assert (H : chars_all p "From: " = true); [|done]. eapply prefix_chars; [exact E|]. rewrite chars_all_app.
  rewrite (chars_all_impl in_base64) by (apply base64_chars || (intros c Hc; unfold p; by rewrite Hc)). done.
Qed.

Section Talking.
Variable isIP : string -> Z.
Variable network_error : thrown -> option NetworkError.

(** The lines a connection may carry before the message. *)
Definition speakable (secure : bool) (line : string) : Prop :=
  (secure = true \/ line = EHLO \/ line = STARTTLS) /\ is_message line = false.

Variable P : bool -> bool -> list Entry -> Prop.

(** What the entries before the message keep. *)
Class Unbroken : Prop := {
  unbroken_line : forall secure line, speakable secure line -> stays P secure line;
  unbroken_heard : forall secure written l reply, P secure written l -> P secure written (l ++ [heard reply]);
  unbroken_upgrade : forall written l options, P false written l ->
    P false written (l ++ [securing options]) /\ P true written (l ++ [securing options]) }.

Context `{Kept : !Unbroken}.

Definition on_secure (secure : bool) (w : Wire) : Prop := holds P w /\ is_secure w = secure.

Lemma step_on secure line : speakable secure line -> preserves (on_secure secure) (step line).
Proof. intros H. apply step_stays. by apply unbroken_line. Qed.

Lemma step_secure line : is_message line = false -> preserves (on_secure true) (step line).
Proof. intros H. apply step_on. split; [by left|done]. Qed.

Lemma recipients_on recipients : forall refusals takers, preserves (on_secure true) (ask_recipients recipients refusals takers).
Proof.
  induction recipients as [|recipient recipients IH]; intros refusals takers; [apply preserves_ret|]. simpl.
  apply preserves_bind; [by apply step_secure|]. intros answer. destruct (isPositive answer); apply IH.
Qed.

Lemma sign_in_on credentials capabilities : preserves (on_secure true) (sign_in credentials capabilities).
Proof.
  unfold sign_in. case_bool_decide.
  - apply preserves_bind; [by apply step_secure|]. intros ?. apply preserves_ret.
  - case_bool_decide; [|apply preserves_ret]. apply preserves_bind; [by apply step_secure|]. intros ?.
    destruct (negb _); [apply preserves_ret|]. apply preserves_bind; [apply step_secure, encoded_is_no_message|]. intros ?.
    destruct (negb _); [apply preserves_ret|]. apply preserves_bind; [apply step_secure, encoded_is_no_message|]. intros ?. apply preserves_ret.
Qed.

Definition anywhere (w : Wire) : Prop := holds P w.

Lemma anywhere_on secure {A} (m : M Wire A) : preserves (on_secure secure) m ->
  triple (on_secure secure) m (fun _ => on_secure secure) (fun _ => anywhere).
Proof. intros H. eapply triple_consequence; [exact H|done|done|]. by intros e w [H1 _]. Qed.

Lemma upgrade_on hostname server :
  triple (on_secure false) (upgrade isIP hostname server) (fun _ => on_secure true) (fun _ => anywhere).
Proof.
  intros w [Hp Hs]. unfold upgrade, bind, modify, lift. cbn. unfold holds in Hp. rewrite Hs in Hp.
  destruct (unbroken_upgrade _ _ (secureOptions isIP hostname) Hp) as [H1 H2].
  destruct (settled _ _) as [[]|e]; cbn; [by split|]. unfold anywhere, holds. cbn. by rewrite Hs.
Qed.

(** The session is secure when it goes on. *)
Lemma make_secure_on credentials server capabilities secure : (secure = false -> needsStartTls (port credentials) = true) ->
  (secure = true -> needsStartTls (port credentials) = false) ->
  triple (on_secure secure) (make_secure isIP credentials server capabilities)
    (fun r w => match r with inr _ => on_secure true w | inl _ => anywhere w end) (fun _ => anywhere).
Proof.
  intros Hplain Hsec. unfold make_secure. destruct secure.
  - rewrite Hsec by done. by intros w Hw.
  - rewrite Hplain by done. destruct (negb (advertises _ _)); [by intros w [Hw _]|].
    eapply triple_bind; [apply anywhere_on, step_on; split; [auto|done]|]. intros ready. destruct (negb _); [by intros w [Hw _]|].
    eapply triple_bind; [apply anywhere_on, preserves_gets|].
    intros residual. destruct (negb _); [by intros w [Hw _]|]. eapply triple_bind; [apply upgrade_on|]. intros [].
    eapply triple_bind; [by apply anywhere_on, step_secure|]. intros answer w Hw. destruct (isPositive answer); [done|by destruct Hw].
Qed.

Lemma read_on secure : preserves (on_secure secure) read.
Proof.
  intros w [Hp Hs]. assert (H := read_at (log w) (is_secure w) (dataWritten w) w ltac:(done)).
  destruct (read w) as [[reply|e] w']; destruct H as (H1 & H2 & H3); unfold on_secure, holds; rewrite H1, H2, H3; split; try done.
  by apply unbroken_heard.
Qed.

(** A conversation up to the message. *)
Lemma talk_up_to credentials message server secure (Q : Conversation -> Wire -> Prop) E :
  (secure = false -> needsStartTls (port credentials) = true) -> (secure = true -> needsStartTls (port credentials) = false) ->
  (forall c w, anywhere w -> Q c w) -> (forall e w, anywhere w -> E e w) ->
  triple (on_secure true) (hand_over message) Q E ->
  triple (on_secure secure) (talk isIP credentials message server) Q E.
Proof.
  intros Hplain Hsec Hq He Hover.
  assert (Hon : forall A (m : M Wire A), preserves (on_secure secure) m -> triple (on_secure secure) m (fun _ => on_secure secure) E).
  { intros A m Hm. eapply triple_consequence; [exact Hm|done|done|]. intros e w [H _]. by apply He. }
  assert (Hehlo : speakable secure EHLO) by (split; [auto|done]).
  assert (Hret : forall s c, triple (on_secure s) (ret c) Q E) by (intros s c w [H _]; by apply Hq).
  unfold talk. eapply triple_bind; [apply Hon, read_on|]. intros greeting. destruct (negb _); [apply Hret|].
  eapply triple_bind; [apply Hon; by apply step_on|]. intros capabilities. destruct (negb _); [apply Hret|].
  eapply triple_bind.
  { eapply triple_consequence; [by apply make_secure_on|done|intros r w H; exact H|exact He]. }
  intros [conversation|secured]; cbn beta iota; [intros w H; by apply Hq|].
  eapply triple_bind.
  { eapply triple_consequence; [apply (sign_in_on credentials secured)|done|intros a w H; exact H|]. intros e w [H _]. by apply He. }
  intros [conversation|]; [apply Hret|exact Hover].
Qed.

(** The end of [hand_over], from where the message is written. *)
Definition write_message (message : SmtpMessage) (refusals : list Z) : M Wire Conversation :=
  modify (fun w => MkWire (arriving w) (buffer w) (failure w) (is_secure w) true (log w)) ;;;
  let* accepted := step (dataOf message) in
  if negb (isPositive accepted) then ret (byReply (code accepted) REFUSED)
  else
    let landed :=
      match refusals with
      | [] => over (went (Some (code accepted)))
      | _ => over (terminal (Some (explains refusals)) PARTIAL false None)
      end in
    try_catch (say ("QUIT" +:+ CRLF) ;;; ret landed) (fun _ => ret landed).

Lemma hand_over_up_to message (Q : Conversation -> Wire -> Prop) E :
  (forall c w, anywhere w -> Q c w) -> (forall e w, anywhere w -> E e w) ->
  (forall refusals, triple (on_secure true) (write_message message refusals) Q E) ->
  triple (on_secure true) (hand_over message) Q E.
Proof.
  intros Hq He Hwrite.
  assert (Hon : forall A (m : M Wire A), preserves (on_secure true) m -> triple (on_secure true) m (fun _ => on_secure true) E).
  { intros A m Hm. eapply triple_consequence; [exact Hm|done|done|]. intros e w [H _]. by apply He. }
  assert (Hret : forall c, triple (on_secure true) (ret c) Q E) by (intros c w [H _]; by apply Hq).
  unfold hand_over. eapply triple_bind; [apply Hon; by apply step_secure|]. intros sender. destruct (negb _); [apply Hret|].
  eapply triple_bind; [apply Hon, recipients_on|]. intros [refusals takers]. destruct (takers =? 0); [apply Hret|].
  eapply triple_bind; [apply Hon; by apply step_secure|]. intros opened. destruct (negb _); [apply Hret|]. apply Hwrite.
Qed.
End Talking.

(** ** Nothing but greetings before the connection is secure *)

Definition careful (l : list Entry) : Prop :=
  Forall (fun entry => match entry with said false line => line = EHLO \/ line = STARTTLS | _ => True end) l.

Lemma careful_app l l' : careful (l ++ l') <-> careful l /\ careful l'.
Proof. apply Forall_app. Qed.

#[local] Instance careful_unbroken : Unbroken (fun _ _ => careful).
Proof.
  split.
  - intros secure line [[->|H] _] written l Hl; split; try intros reply; apply careful_app; split; try done; repeat constructor.
    all: destruct secure; try done; by destruct H.
  - intros secure written l reply Hl. apply careful_app. by repeat constructor.
  - intros written l options Hl. split; apply careful_app; by repeat constructor.
Qed.

Lemma careful_secure line : preserves (on_secure (fun _ _ => careful) true) (step line).
Proof. apply step_stays. intros written l Hl. split; [|intros reply]; apply careful_app; by repeat constructor. Qed.

Lemma careful_message message refusals :
  triple (on_secure (fun _ _ => careful) true) (write_message message refusals) (fun _ w => careful (log w)) (fun _ w => careful (log w)).
Proof.
  assert (H : preserves (on_secure (fun _ _ => careful) true) (write_message message refusals)).
  { unfold write_message. apply preserves_bind; [by intros w H|]. intros []. apply preserves_bind; [apply careful_secure|]. intros accepted.
    destruct (negb _); [apply preserves_ret|]. apply preserves_catch; [|intros e; apply preserves_ret].
    apply preserves_bind; [|intros []; apply preserves_ret]. intros w [Hp Hs].
    assert (Hw := say_at (log w) true (dataWritten w) ("QUIT" +:+ CRLF) w ltac:(done)).
    destruct (say _ w) as [[[]|e] w']; destruct Hw as (H1 & H2 & H3); split; try done; unfold holds; rewrite H1; apply careful_app;
      (split; [exact Hp|by repeat constructor]). }
  eapply triple_consequence; [exact H|done|by intros a w [? _]|by intros e w [? _]].
Qed.

Lemma converse_careful isIP network_error credentials message server secure :
  (secure = negb (needsStartTls (port credentials))) ->
  triple (fun w => careful (log w) /\ is_secure w = secure) (converse isIP network_error credentials message server)
    (fun _ w => careful (log w)) (fun _ w => careful (log w)).
Proof.
  intros ->. unfold converse. apply (triple_catch _ _ _ (fun _ w => careful (log w))).
  - apply (talk_up_to isIP (fun _ _ => careful)); try done; [by intros ->%negb_false_iff|by intros ->%negb_true_iff|].
    apply (hand_over_up_to (fun _ _ => careful)); try done. apply careful_message.
  - intros e. apply preserves_bind; [apply preserves_gets|]. intros written. apply preserves_ret.
Qed.

Lemma converse_answers isIP network_error credentials message server w :
  exists conversation, (converse isIP network_error credentials message server w).1 = Ok conversation.
Proof.
  unfold converse, try_catch. destruct (talk _ _ _ _ w) as [[c|e] w']; [by eexists|]. unfold bind, gets, ret. by eexists.
Qed.

(** ** The message is handed over once *)

(** The messages written that the server did not ask to be sent later. *)
Fixpoint undecided (l : list Entry) : nat :=
  match l with
  | [] => 0
  | said _ line :: rest =>
      if is_message line then
        match rest with
        | heard reply :: _ => if isTransient (code reply) then undecided rest else S (undecided rest)
        | _ => S (undecided rest)
        end
      else undecided rest
  | _ :: rest => undecided rest
  end.

Definition counts (entry : Entry) : nat := match entry with said _ line => if is_message line then 1 else 0 | _ => 0 end.

Lemma undecided_snoc l entry : (undecided (l ++ [entry]) <= undecided l + counts entry)%nat.
Proof.
  induction l as [|e l IH]; [by destruct entry; simpl; try destruct (is_message line)|].
  destruct e as [ | |secure line|reply]; try exact IH. simpl. destruct (is_message line); [|exact IH].
  destruct l as [|[] l]; simpl in *; try lia; [|destruct (isTransient _); lia].
  destruct entry as [ | |secure' line'|reply]; simpl in *; [lia|lia|destruct (is_message line'); lia|destruct (isTransient _); lia].
Qed.

(** A message that is to be sent later counts for nothing. *)
Lemma undecided_transient l secure line reply :
  isTransient (code reply) = true -> (undecided (l ++ [said secure line; heard reply]) <= undecided l)%nat.
Proof.
  intros Ht. induction l as [|e l IH]; [simpl; rewrite Ht; by destruct (is_message line)|].
  destruct e as [ | |secure' line'|reply']; try exact IH. simpl. destruct (is_message line'); [|exact IH].
  destruct l as [|[] l]; simpl in *; [rewrite Ht in *; destruct (is_message line); lia|lia|lia|lia|].
  destruct (isTransient (code reply0)); lia.
Qed.

(** Nothing is undecided while the message is not written. *)
Definition handed (_ written : bool) (l : list Entry) : Prop := written = false /\ undecided l = 0%nat.
Definition at_most_one (w : Wire) : Prop := (undecided (log w) <= if dataWritten w then 1 else 0)%nat.

Lemma handed_line secure written l line : is_message line = false -> handed secure written l ->
  handed secure written (l ++ [said secure line]) /\ forall reply, handed secure written (l ++ [said secure line; heard reply]).
Proof.
  unfold handed. intros Hm [Hw Hl]. assert (H := undecided_snoc l (said secure line)). simpl in H. rewrite Hm in H.
  split; [split; [done|lia]|]. intros reply. assert (H' := undecided_snoc (l ++ [said secure line]) (heard reply)). rewrite <- app_assoc in H'. simpl in H'. split; [done|lia].
Qed.

#[local] Instance handed_unbroken : Unbroken handed.
Proof.
  split.
  - intros secure line [_ Hm] written l Hl. by apply handed_line.
  - intros secure written l reply [Hw Hl]. assert (H := undecided_snoc l (heard reply)). simpl in H. split; [done|lia].
  - intros written l options [Hw Hl]. assert (H := undecided_snoc l (securing options)). simpl in H. split; split; (done || lia).
Qed.

Lemma dataOf_is_message message : is_message (dataOf message) = true.
Proof.
  unfold is_message, dataOf, messageBytes, message_headers. cbn [app join_with]. rewrite !string_app_assoc. apply startsWith_part.
Qed.

Lemma quit_at l landed :
  triple (at_point l true true) (try_catch (say ("QUIT" +:+ CRLF) ;;; ret (landed : Conversation)) (fun _ => ret landed))
    (fun c w => c = landed /\ at_point (l ++ [said true ("QUIT" +:+ CRLF)]) true true w) (fun _ _ => False).
Proof.
  apply (triple_catch _ _ _ (fun _ => at_point (l ++ [said true ("QUIT" +:+ CRLF)]) true true)).
  - eapply triple_bind; [apply say_at|]. by intros [] w H.
  - by intros e w H.
Qed.

(** What a conversation leaves: nothing undecided where another address may
    be tried. *)
Definition decided (conversation : Conversation) (w : Wire) : Prop :=
  (undecided (log w) <= match conversation with over _ => 1 | tryNextAddress _ => 0 end)%nat.

Lemma handed_message message refusals :
  triple (on_secure handed true) (write_message message refusals) decided (fun _ => at_most_one).
Proof.
  intros w [[Hw Hl] Hs]. revert w Hw Hl Hs. enough (H : forall l, undecided l = 0%nat ->
    triple (at_point l true false) (write_message message refusals) decided (fun _ => at_most_one)).
  { intros w Hw Hl Hs. by apply (H (log w) Hl w). }
  intros l Hl. unfold write_message. apply (triple_bind _ _ _ (fun _ => at_point l true true)).
  { by intros w (H1 & H2 & H3). }
  intros []. assert (Hsaid := undecided_snoc l (said true (dataOf message))). cbn [counts] in Hsaid.
  rewrite Hl, dataOf_is_message in Hsaid.
  eapply triple_bind.
  - eapply triple_consequence; [apply step_at|done|intros r w H; exact H|]. intros e w (H1 & H2 & H3). unfold at_most_one. rewrite H1, H3. lia.
  - intros accepted. cbn beta. set (l' := l ++ _). assert (Hl' : (undecided l' <= 1)%nat).
    { assert (H := undecided_snoc (l ++ [said true (dataOf message)]) (heard accepted)). rewrite <- app_assoc in H. cbn [counts app] in H. unfold l'. lia. }
    destruct (isPositive accepted) eqn:Ep; simpl.
    + eapply triple_consequence; [apply quit_at|done| |done]. intros c w [-> (H1 & H2 & H3)]. unfold decided. rewrite H1.
      assert (H := undecided_snoc l' (said true ("QUIT" +:+ CRLF))). simpl in H. destruct refusals; lia.
    + intros w (H1 & H2 & H3). unfold ret, decided. rewrite H1. unfold byReply. destruct (isTransient (code accepted)) eqn:Et; [|done].
      assert (H := undecided_transient l true (dataOf message) accepted Et). rewrite Hl in H. exact H.
Qed.

Lemma converse_decides isIP network_error credentials message server secure :
  secure = negb (needsStartTls (port credentials)) ->
  triple (fun w => handed secure (dataWritten w) (log w) /\ is_secure w = secure)
    (converse isIP network_error credentials message server) decided (fun _ _ => False).
Proof.
  intros ->. unfold converse. apply (triple_catch _ _ _ (fun _ => at_most_one)).
  - apply (talk_up_to isIP handed); [by intros ->%negb_false_iff|by intros ->%negb_true_iff| | |].
    + intros c w [Hw Hl]. unfold decided. rewrite Hl. lia.
    + intros e w [Hw Hl]. unfold at_most_one. rewrite Hl. lia.
    + apply (hand_over_up_to handed); [| |apply handed_message].
      * intros c w [Hw Hl]. unfold decided. rewrite Hl. lia.
      * intros e w [Hw Hl]. unfold at_most_one. rewrite Hl. lia.
  - intros e w H. unfold bind, gets, ret. unfold at_most_one in H. unfold decided. by destruct (dataWritten w).
Qed.

(** ** What is called delivered *)

(** [line] was said and [reply] was its answer. *)
Definition answered (line : string) (reply : SmtpReply) (l : list Entry) : Prop :=
  exists secure before after, l = before ++ [said secure line; heard reply] ++ after.

Definition rcpt (recipient : string) : string := "RCPT TO:<" +:+ recipient +:+ ">" +:+ CRLF.

Definition taken_by (recipient : string) (l : list Entry) : Prop :=
  exists reply, answered (rcpt recipient) reply l /\ isPositive reply = true.

(** The message and every recipient were taken. *)
Definition taken (message : SmtpMessage) (l : list Entry) : Prop :=
  (exists reply, answered (dataOf message) reply l /\ isPositive reply = true)
  /\ forall recipient, In recipient (to message) -> taken_by recipient l.

(** A server that says yes where it was to ask for something. *)
Definition out_of_turn (credentials : SmtpCredentials) (l : list Entry) : Prop :=
  exists line reply, answered line reply l /\ isPositive reply = true
    /\ (line = "DATA" +:+ CRLF /\ code reply <> 354
        \/ (line = "AUTH LOGIN" +:+ CRLF \/ line = encoded (username credentials) +:+ CRLF) /\ code reply <> 334).

Definition grows (R : list Entry -> Prop) : Prop := forall l l', R l -> R (l ++ l').

Lemma answered_grows line reply : grows (answered line reply).
Proof. intros l l' (secure & before & after & ->). exists secure, before, (after ++ l'). by rewrite <- !app_assoc. Qed.

Lemma taken_by_grows recipient : grows (taken_by recipient).
Proof. intros l l' (reply & H & Hp). exists reply. split; [by apply answered_grows|done]. Qed.

Lemma step_answers (R : list Entry -> Prop) line : grows R ->
  triple (fun w => R (log w)) (step line) (fun reply w => R (log w) /\ answered line reply (log w)) (fun _ _ => True).
Proof.
  intros Hr w Hw. assert (H := step_at (log w) (is_secure w) (dataWritten w) line w ltac:(done)).
  destruct (step line w) as [[reply|e] w']; [|done]. destruct H as (H & _). rewrite H. split; [by apply Hr|].
  exists (is_secure w), (log w), []. by rewrite app_nil_r.
Qed.

Lemma step_any (R : list Entry -> Prop) line : grows R ->
  triple (fun w => R (log w)) (step line) (fun _ w => R (log w)) (fun _ _ => True).
Proof. intros Hr. eapply triple_consequence; [by apply step_answers|done|by intros reply w [H _]|done]. Qed.

Definition is_went (outcome : DeliveryOutcome) : bool := match outcome with went _ => true | _ => false end.

(** A conversation that says the mail was delivered had [R]; one that is tried
    elsewhere does not say so. *)
Definition delivers (R : list Entry -> Prop) (conversation : Conversation) (w : Wire) : Prop :=
  match conversation with
  | over outcome => is_went outcome = true -> R (log w)
  | tryNextAddress outcome => is_went outcome = false
  end.

Lemma byReply_delivers (R : list Entry -> Prop) code_ reason w :
  ((200 <=? code_) && (code_ <? 400) = true -> R (log w)) -> delivers R (byReply code_ reason) w.
Proof.
  unfold byReply, classifySmtpReply, isTransient, delivers. intros H. destruct ((400 <=? code_) && (code_ <? 500)) eqn:E.
  - destruct ((200 <=? code_) && (code_ <? 400)) eqn:E'; [|done]. tests. lia.
  - destruct ((200 <=? code_) && (code_ <? 400)) eqn:E'; [by intros _; apply H|done].
Qed.

Section Delivered.
Variables (credentials : SmtpCredentials) (message : SmtpMessage).
Variable R : list Entry -> Prop.
Hypothesis when_taken : forall l, taken message l -> R l.
Hypothesis when_out_of_turn : forall l, out_of_turn credentials l -> R l.
Hypothesis R_grows : grows R.

Lemma refusing P reply reason :
  isPositive reply = false -> triple P (ret (byReply (code reply) reason)) (delivers R) (fun _ _ => True).
Proof. intros Hr w _. apply byReply_delivers. unfold isPositive in Hr. congruence. Qed.

(** The codes that are refusals, and who took the message. *)
Definition asked (done_ : list string) (refusals : list Z) (takers : Z) (l : list Entry) : Prop :=
  Forall (fun code => (200 <=? code) && (code <? 400) = false) refusals /\ (refusals = [] -> forall r, In r done_ -> taken_by r l).

Lemma asked_grows done_ refusals takers : grows (asked done_ refusals takers).
Proof. intros l l' [H1 H2]. split; [done|]. intros E r Hr. apply taken_by_grows. by apply H2. Qed.

Lemma recipients_asked recipients : forall done_ refusals takers,
  triple (fun w => asked done_ refusals takers (log w)) (ask_recipients recipients refusals takers)
    (fun r w => asked (done_ ++ recipients) r.1 r.2 (log w)) (fun _ _ => True).
Proof.
  induction recipients as [|recipient recipients IH]; intros done_ refusals takers.
  - rewrite app_nil_r. by intros w H.
  - cbn [ask_recipients]. eapply triple_bind; [apply (step_answers (asked done_ refusals takers)), asked_grows|].
    intros answer. replace (done_ ++ recipient :: recipients) with ((done_ ++ [recipient]) ++ recipients) by (by rewrite <- app_assoc).
    destruct (isPositive answer) eqn:Ep.
    + intros w [[H1 H2] Ha]. apply (IH (done_ ++ [recipient])). split; [done|]. intros E r [Hr|[<-|[]]]%in_app_or; [by apply H2|]. by exists answer.
    + intros w [[H1 H2] Ha]. apply (IH (done_ ++ [recipient])). split; [apply Forall_app; split; [done|by repeat constructor]|].
      intros E. by destruct refusals.
Qed.

Lemma explains_refusal refusals :
  Forall (fun code => (200 <=? code) && (code <? 400) = false) refusals -> (200 <=? explains refusals) && (explains refusals <? 400) = false.
Proof.
  intros H. rewrite Forall_forall in H. unfold explains. destruct (List.find _ _) as [c|] eqn:E.
  - apply find_some in E as [E _]. by apply H, list_elem_of_In.
  - destruct refusals as [|c refusals]; [done|]. apply H. by left.
Qed.

Lemma hand_over_delivers : triple (fun _ => True) (hand_over message) (delivers R) (fun _ _ => True).
Proof.
  unfold hand_over. eapply triple_bind; [by apply (step_any (fun _ => True))|]. intros sender.
  destruct (isPositive sender) eqn:Es; simpl; [|by apply refusing].
  apply (triple_bind _ _ _ (fun r w => asked ([] ++ to message) r.1 r.2 (log w))).
  { intros w _. by apply (recipients_asked (to message) [] []). }
  intros [refusals takers]. cbn [fst snd app]. destruct (takers =? 0).
  { intros w [H _]. apply byReply_delivers. by rewrite explains_refusal. }
  eapply triple_bind; [apply (step_answers (asked (to message) refusals takers)), asked_grows|]. intros opened. cbn beta.
  destruct (Z.eqb_spec (code opened) 354) as [E354|E354]; simpl.
  2:{ intros w [_ Ha]. apply byReply_delivers. intros Hw. apply when_out_of_turn. exists ("DATA" +:+ CRLF), opened. auto. }
  apply (triple_bind _ _ _ (fun _ w => asked (to message) refusals takers (log w))); [by intros w [H _]|]. intros [].
  eapply triple_bind; [apply (step_answers (asked (to message) refusals takers)), asked_grows|]. intros accepted. cbn beta.
  destruct (isPositive accepted) eqn:Ea; simpl; [|by apply refusing]. destruct refusals as [|c refusals].
  - apply (triple_catch _ _ _ (fun _ w => R (log w))); [|intros e w H _; exact H].
    apply (triple_bind _ _ _ (fun _ w => R (log w))); [|intros [] w H _; exact H]. intros w [[_ H] Ha].
    assert (Hr : R (log w)). { apply when_taken. split; [by exists accepted|by apply H]. }
    assert (Hq := say_at (log w) (is_secure w) (dataWritten w) ("QUIT" +:+ CRLF) w ltac:(done)).
    destruct (say _ w) as [[[]|e] w']; destruct Hq as (Hq & _); rewrite Hq; by apply R_grows.
  - intros w _. unfold try_catch, bind. destruct (say _ w) as [[[]|e] w']; by intros ?.
Qed.

Lemma sign_in_delivers capabilities :
  triple (fun _ => True) (sign_in credentials capabilities)
    (fun r w => match r with Some c => delivers R c w | None => True end) (fun _ _ => True).
Proof.
  assert (Hask : forall line (answer : SmtpReply) w, answered line answer (log w) ->
    (line = "AUTH LOGIN" +:+ CRLF \/ line = encoded (username credentials) +:+ CRLF) -> code answer <> 334 ->
    delivers R (byReply (code answer) NO_AUTH) w).
  { intros line answer w Ha Hl Hc. apply byReply_delivers. intros Hw. apply when_out_of_turn. exists line, answer. auto. }
  assert (Hsigned : forall line, triple (fun _ => True)
    (let* signedIn := step line in ret (if isPositive signedIn then None else Some (byReply (code signedIn) NO_AUTH)))
    (fun r w => match r with Some c => delivers R c w | None => True end) (fun _ _ => True)).
  { intros line. eapply triple_bind; [by apply (step_any (fun _ => True))|]. intros signedIn w _. unfold ret.
    destruct (isPositive signedIn) eqn:E; [done|]. by apply (refusing (fun _ => True) signedIn NO_AUTH E w). }
  unfold sign_in. destruct (bool_decide _); [apply Hsigned|]. destruct (bool_decide _); [|by intros w _].
  eapply triple_bind; [by apply (step_answers (fun _ => True))|]. intros answer. cbn beta.
  destruct (Z.eqb_spec (code answer) 334) as [E|E]; simpl; [|intros w [_ Ha]; eapply Hask; eauto].
  apply (triple_bind _ _ _ (fun reply w => answered (encoded (username credentials) +:+ CRLF) reply (log w))).
  { intros w _. assert (H := step_answers (fun _ => True) (encoded (username credentials) +:+ CRLF) ltac:(done) w I).
    destruct (step _ w) as [[reply|e] w']; [by destruct H|done]. }
  intros wants. destruct (Z.eqb_spec (code wants) 334) as [E'|E']; simpl; [|intros w Ha; eapply Hask; eauto].
  intros w _. by apply Hsigned.
Qed.

Lemma make_secure_delivers isIP server capabilities :
  triple (fun _ => True) (make_secure isIP credentials server capabilities)
    (fun r w => match r with inl c => delivers R c w | inr _ => True end) (fun _ _ => True).
Proof.
  unfold make_secure. destruct (needsStartTls _); [|by intros w _]. destruct (negb _); [by intros w _|].
  eapply triple_bind; [by apply (step_any (fun _ => True))|]. intros ready. destruct (isPositive ready) eqn:E; simpl.
  2:{ intros w _. by apply (refusing (fun _ => True) ready NO_TLS E w). }
  apply (triple_bind _ _ _ (fun _ _ => True)); [by intros w _|]. intros residual. destruct (negb _); [by intros w _|].
  apply (triple_bind _ _ _ (fun _ _ => True)); [intros w _; by destruct (upgrade _ _ _ w) as [[?|?] ?]|]. intros [].
  eapply triple_bind; [by apply (step_any (fun _ => True))|]. intros answer w _. unfold ret. destruct (isPositive answer) eqn:Ea; [done|].
  by apply (refusing (fun _ => True) answer UNEXPECTED Ea w).
Qed.

Lemma converse_delivers isIP network_error server :
  triple (fun _ => True) (converse isIP network_error credentials message server) (delivers R) (fun _ _ => True).
Proof.
  unfold converse. apply (triple_catch _ _ _ (fun _ _ => True)).
  2:{ intros e w _. unfold bind, gets, ret. by destruct (dataWritten w). }
  unfold talk. apply (triple_bind _ _ _ (fun _ _ => True)); [intros w _; by destruct (read w) as [[?|?] ?]|]. intros greeting.
  destruct (isPositive greeting) eqn:Eg; simpl; [|by apply refusing].
  eapply triple_bind; [by apply (step_any (fun _ => True))|]. intros capabilities. destruct (isPositive capabilities) eqn:Ec; simpl; [|by apply refusing].
  eapply triple_bind; [apply make_secure_delivers|]. intros [conversation|secured]; [by intros w H|].
  eapply triple_bind; [intros w _; by apply sign_in_delivers|]. intros [conversation|]; [by intros w H|]. intros w _. by apply hand_over_delivers.
Qed.
End Delivered.

Section Sending.
Context {W : Type}.
Variable isIP : string -> Z.
Variable network_error : thrown -> option NetworkError.
Variable ranges : Tables_.
Variable lookupAddresses : string -> M W (list string).
Variable connect : nat -> PinnedAddress -> Signal * Server.
Variable policy : EgressPolicy.
Abbreviation Mail := (W * list Entry)%type.

Lemma on_fst_keeps {A} (Q : list Entry -> Prop) (m : M W A) : preserves (fun s : Mail => Q s.2) (on_fst m).
Proof. intros [w l] H. unfold on_fst. simpl. by destruct (m w) as [[a|e] w']. Qed.

Lemma note_keeps (Q : list Entry -> Prop) entry : (forall l, Q l -> Q (l ++ [entry])) -> preserves (fun s : Mail => Q s.2) (note entry).
Proof. intros H [w l] Hl. by apply H. Qed.

(** The loop over the addresses keeps [Q], what a conversation that may be
    tried elsewhere leaves; it ends with [R]. *)
Lemma addresses_keep (Q R : list Entry -> Prop) message credentials :
  (forall l, Q l -> R l) -> (forall l address, Q l -> Q (l ++ [opening address (port credentials)])) ->
  (forall l options, Q l -> Q (l ++ [securing options])) ->
  (forall server secure events l, Q l -> secure = negb (needsStartTls (port credentials)) ->
     match converse isIP network_error credentials message server (MkWire events EmptyString None secure false l) with
     | (Ok (over outcome), w) => R (log w)
     | (Ok (tryNextAddress outcome), w) => Q (log w)
     | (Throw _, _) => False
     end) ->
  forall addresses n lastFailure,
    triple (fun s : Mail => Q s.2) (try_addresses isIP network_error connect n addresses credentials message lastFailure)
      (fun _ s => R s.2) (fun _ _ => False).
Proof.
  intros Hr Ho Hs Hc. induction addresses as [|address addresses IH]; intros n lastFailure; [by intros s H; apply Hr|]. simpl.
  apply (triple_bind _ _ _ (fun _ s => Q s.2)); [intros s H; by apply Ho|]. intros []. destruct (connect n address) as [signal server].
  destruct (Smtp.settled signal _) as [[]|e]; [|apply IH].
  apply (triple_bind _ _ _ (fun _ s => Q s.2)).
  { destruct (negb _); [|by intros s H]. intros s H. by apply Hs. }
  intros [[]|e]; [|apply IH]. apply (triple_bind _ _ _ (fun conversation s => match conversation with over _ => R s.2 | _ => Q s.2 end)).
  - intros [w l] Hl. unfold speak. simpl. specialize (Hc server (negb (needsStartTls (port credentials)))
      (if negb (needsStartTls (port credentials)) then securely server else plainly server) l Hl eq_refl).
    destruct (converse _ _ _ _ _ _) as [[[outcome|outcome]|e] w']; [done|done|done].
  - intros [outcome|outcome]; [by intros s H|apply IH].
Qed.

Abbreviation deliver := (deliverEmail isIP network_error ranges lookupAddresses connect policy).

(** C23: until a connection is secure nothing is said on it but the greeting and
    the request for a secure session: no name, no password, no address and no
    text of an alert, whatever the servers answer, whichever of the addresses is
    tried, and whether the session is secure from the start or made so. *)
Theorem nothing_is_told_before_the_session_is_secure at_ settings envelope w :
  Forall (fun entry => match entry with said false line => line = EHLO \/ line = STARTTLS | _ => True end)
    (deliver at_ settings envelope (w, [])).2.2.
Proof.
  change (careful (deliver at_ settings envelope (w, [])).2.2).
  enough (H : triple (fun s : Mail => careful s.2) (deliver at_ settings envelope) (fun _ s => careful s.2) (fun _ s => careful s.2)).
  { specialize (H (w, []) ltac:(constructor)). by destruct (deliver _ _ _ _) as [[a|e] s]. }
  unfold deliverEmail. apply preserves_bind; [apply on_fst_keeps|]. intros [addresses|reason]; [|apply preserves_ret].
  eapply triple_consequence; [apply (addresses_keep careful careful)|done|done|done].
  - done.
  - intros l address Hl. apply careful_app. by repeat constructor.
  - intros l options Hl. apply careful_app. by repeat constructor.
  - intros server secure events l Hl Hsec. set (w0 := MkWire _ _ _ _ _ _).
    match goal with |- match converse _ _ ?c ?m _ _ with _ => _ end =>
      assert (H := converse_careful isIP network_error c m server secure Hsec w0 (conj Hl eq_refl));
      destruct (converse_answers isIP network_error c m server w0) as [conversation E] end.
    destruct (converse _ _ _ _ _ _) as [r w']; simpl in E; subst r. by destruct conversation.
Qed.

(** C24: however many addresses a mail server has and whatever they do, a
    message is handed over once: of all the times it was written to a server at
    most one was not answered with a request to try later, so a break in the
    middle never makes a second copy. *)
Theorem a_message_is_handed_over_once at_ settings envelope w :
  (undecided (deliver at_ settings envelope (w, [])).2.2 <= 1)%nat.
Proof.
  set (R l := (undecided l <= 1)%nat). set (Q l := undecided l = 0%nat). assert (Hqr : forall l, Q l -> R l) by (unfold Q, R; lia).
  enough (H : triple (fun s : Mail => Q s.2) (deliver at_ settings envelope) (fun _ s => R s.2) (fun _ s => R s.2)).
  { specialize (H (w, []) eq_refl). by destruct (deliver _ _ _ _) as [[a|e] s]. }
  unfold deliverEmail. eapply triple_bind.
  { eapply triple_consequence; [apply (on_fst_keeps Q)|done|intros v s H; exact H|]. intros e s H. by apply Hqr. }
  intros [addresses|reason]; [|intros s H; by apply Hqr].
  eapply triple_consequence; [apply (addresses_keep Q R)|done|done|done].
  - done.
  - intros l address Hl. assert (H := undecided_snoc l (opening address (smtpPort settings))). unfold Q in *. simpl in *. lia.
  - intros l options Hl. assert (H := undecided_snoc l (securing options)). unfold Q in *. simpl in *. lia.
  - intros server secure events l Hl Hsec. set (w0 := MkWire _ _ _ _ _ _).
    match goal with |- match converse _ _ ?c ?m _ _ with _ => _ end =>
      assert (H := converse_decides isIP network_error c m server secure Hsec w0 (conj (conj eq_refl Hl) eq_refl)) end.
    destruct (converse _ _ _ _ _ _) as [[[outcome|outcome]|e] w']; unfold decided in H; unfold Q, R; [done|lia|done].
Qed.

(** The loop: an outcome that says delivered has [R]. *)
Lemma addresses_deliver (R : list Entry -> Prop) credentials message :
  (forall l, taken message l -> R l) -> (forall l, out_of_turn credentials l -> R l) -> grows R ->
  forall addresses n lastFailure, is_went lastFailure = false ->
    triple (fun _ : Mail => True) (try_addresses isIP network_error connect n addresses credentials message lastFailure)
      (fun outcome s => is_went outcome = true -> R s.2) (fun _ _ => True).
Proof.
  intros Ht Ho Hg. induction addresses as [|address addresses IH]; intros n lastFailure Hlast.
  { intros s _. unfold try_addresses, ret. congruence. }
  simpl. apply (triple_bind _ _ _ (fun _ _ => True)); [done|]. intros []. destruct (connect n address) as [signal server].
  destruct (Smtp.settled signal _) as [[]|e]; [|by apply IH].
  apply (triple_bind _ _ _ (fun _ _ => True)); [by destruct (negb _)|]. intros [[]|e]; [|by apply IH].
  apply (triple_bind _ _ _ (fun conversation s =>
    match conversation with over o => is_went o = true -> R s.2 | tryNextAddress o => is_went o = false end)).
  - intros [w l] _. unfold speak. simpl.
    assert (H := converse_delivers credentials message R Ht Ho Hg isIP network_error server
      (MkWire (if negb (needsStartTls (port credentials)) then securely server else plainly server) EmptyString None
        (negb (needsStartTls (port credentials))) false l) I).
    by destruct (converse _ _ _ _ _ _) as [[conversation|e] w'].
  - intros [outcome|outcome]; [by intros s H|]. intros s H. by apply IH.
Qed.

Definition credentials_of (settings : EmailConfig) : SmtpCredentials :=
  MkCredentials (toLowerCase (bareHostname (smtpServer settings))) (smtpPort settings) (smtp_username settings) (smtp_password settings).

(** C25: mail that is called delivered was taken: a server said yes to every
    recipient and to the message itself, or else it said yes out of turn, where
    it had to ask for a name, a password or the message, which the code takes
    for the end of a delivery. *)
Theorem mail_called_delivered_was_taken at_ settings envelope w outcome s :
  deliver at_ settings envelope (w, []) = (Ok outcome, s) -> is_went outcome = true ->
  taken (emailMessage settings envelope at_) s.2 \/ out_of_turn (credentials_of settings) s.2.
Proof.
  intros Hrun. set (R l := taken (emailMessage settings envelope at_) l \/ out_of_turn (credentials_of settings) l).
  enough (H : triple (fun _ : Mail => True) (deliver at_ settings envelope) (fun o s => is_went o = true -> R s.2) (fun _ _ => True)).
  { specialize (H (w, []) I). by rewrite Hrun in H. }
  unfold deliverEmail. apply (triple_bind _ _ _ (fun _ _ => True)); [intros s' _; by destruct (on_fst _ s') as [[?|?] ?]|].
  intros [addresses|reason]; [|by intros s' _].
  apply (addresses_deliver R (credentials_of settings)); [by left|by right| |done].
  intros l l' [[(reply & Ha & Hp) Hr]|(line & reply & Ha & H)].
  - left. split; [exists reply; split; [by apply answered_grows|done]|]. intros r Hin. apply taken_by_grows. by apply Hr.
  - right. exists line, reply. split; [by apply answered_grows|done].
Qed.
End Sending.

(** ** Examples *)

Definition replying (lines : list string) : list SocketEvent :=
  concat (map (fun line => [chunk (line +:+ CRLF); went_out]) lines).

(** A server that offers STARTTLS, then PLAIN or LOGIN, and answers [rest]. *)
Definition example_server (mechanism : string) (rest : list string) : Server :=
  MkServer (chunk ("220 ready" +:+ CRLF) :: replying ["250 STARTTLS"; "220 go"])
    (fun _ => got_ready) (replying (("250 AUTH " +:+ mechanism) :: rest)).

Definition example_settings : EmailConfig :=
  MkEmail "8.8.8.8" 587 "ann" "secret" "a@example.org" ["b@example.org"; "c@example.org"].

Definition example_envelope : NotificationEnvelope :=
  Delivery.MkEnvelope "n1" "v1" test "Down" "The bot is down." "host" "h1" 0.

(** A delivery where the settings name an address. *)
Definition example_mail (server : Server) : result DeliveryOutcome * (unit * list Entry) :=
  deliverEmail family_of (fun _ => None) standard (fun _ => ret []) (fun _ _ => (got_ready, server))
    PUBLIC_ONLY 0 example_settings example_envelope (tt, []).

Definition accepting_server : Server :=
  example_server "PLAIN" ["235 welcome"; "250 ok"; "250 ok"; "250 ok"; "354 go on"; "250 queued"; "221 bye"].

Lemma mail_called_delivered_was_taken_witness :
  (example_mail accepting_server).1 = Ok (went (Some 250))
  /\ (taken (emailMessage example_settings example_envelope 0) (example_mail accepting_server).2.2
      \/ out_of_turn (credentials_of example_settings) (example_mail accepting_server).2.2).
Proof.
  split; [vm_compute; reflexivity|].
  apply (mail_called_delivered_was_taken family_of (fun _ => None) standard (fun _ => ret []) (fun _ _ => (got_ready, accepting_server))
    PUBLIC_ONLY 0 example_settings example_envelope tt (went (Some 250)) (example_mail accepting_server).2);
    vm_compute; reflexivity.
Defined.

(** A server that answers [DATA] with 250 is not sent the message, and the
    alert is called delivered. *)
Lemma unsent_mail_is_called_delivered :
  let run := example_mail (example_server "PLAIN" ["235 welcome"; "250 ok"; "250 ok"; "250 ok"; "250 ok"]) in
  run.1 = Ok (went (Some 250))
  /\ forallb (fun entry => match entry with said _ line => negb (is_message line) | _ => true end) run.2.2 = true.
Proof. vm_compute. by split. Qed.

Definition example_wire : Wire := MkWire [chunk ("0 first" +:+ String CR EmptyString); chunk (String LF "250-ne"); ended] "25" None true false [].

Lemma replies_do_not_depend_on_the_pieces_witness :
  exists later w', read_next example_wire = (Ok (MkReply 250 ["first"]), w')
    /\ arriving w' = map chunk later ++ [ended] /\ buffer w' +:+ concatenated later = "250-ne".
Proof.
  destruct (replies_do_not_depend_on_the_pieces ["0 first" +:+ String CR EmptyString; String LF "250-ne"] [ended] example_wire
    (MkReply 250 ["first"]) "250-ne" eq_refl eq_refl eq_refl) as (later & w' & H1 & H2 & _ & _ & H3).
  by exists later, w'.
Defined.
