(* ===== verification/MailText.v ===== *)
(** The text of a mail.

    What [messageBytes] of [Smtp] makes of an alert: the lines a mail server
    reads are the headers, the body in lines of base64, and the end, whatever
    the title and the body of the alert hold; and the body is the alert's. *)

From S2P Require Import Prelude Tables Dates StatusKinds StatusStore NotificationStore Announce Egress Payloads Outcome Delivery Mcp Destinations InstanceStore Senders Bytes Smtp SmtpSafety.

(** ** Lines *)

(** The lines of a text that ends with one. *)
Fixpoint lines_of (fuel : nat) (value : string) : list string :=
  match fuel with
  | O => []
  | S fuel => match next_line value with Some (line, rest) => line :: lines_of fuel rest | None => [] end
  end.

Definition all_lines (value : string) : list string := lines_of (String.length value) value.

Lemma next_line_break line rest : chars_all no_break line = true -> next_line (line +:+ CRLF +:+ rest) = Some (line, rest).
Proof.
  induction line as [|c line IH]; [done|]. cbn [chars_all]. intros [Hc Hl]%andb_prop. specialize (IH Hl).
  rewrite string_app_cons. destruct (line +:+ CRLF +:+ rest) as [|d tail] eqn:E; [by destruct line|].
  rewrite next_line_cons, IH. unfold no_break in Hc. apply andb_prop in Hc as [Hc _]. by destruct (c ≡? CR).
Qed.

(** Lines that break nowhere, each ended. *)
Fixpoint written_lines (lines : list string) : string :=
  match lines with [] => EmptyString | line :: rest => line +:+ CRLF +:+ written_lines rest end.

Lemma lines_of_written lines : forall fuel, Forall (fun line => chars_all no_break line = true) lines ->
  (length lines <= fuel)%nat -> lines_of fuel (written_lines lines) = lines.
Proof.
  induction lines as [|line lines IH]; intros fuel H Hf; [by destruct fuel|]. inversion H as [|? ? Hl Hr]; subst.
  destruct fuel as [|fuel]; [simpl in Hf; lia|]. cbn [lines_of written_lines]. rewrite next_line_break by done. f_equal. apply IH; [done|simpl in Hf; lia].
Qed.

Lemma written_lines_length lines : (length lines <= String.length (written_lines lines))%nat.
Proof. induction lines as [|line lines IH]; [done|]. cbn [written_lines]. rewrite !string_length_app. simpl. lia. Qed.

Lemma all_lines_written lines : Forall (fun line => chars_all no_break line = true) lines -> all_lines (written_lines lines) = lines.
Proof. intros H. apply lines_of_written; [done|apply written_lines_length]. Qed.

Lemma written_lines_app a b : written_lines (a ++ b) = written_lines a +:+ written_lines b.
Proof. induction a as [|line a IH]; [done|]. cbn [app written_lines]. by rewrite IH, !string_app_assoc. Qed.

Lemma join_written lines : lines <> [] -> join_with CRLF lines +:+ CRLF = written_lines lines.
Proof.
  induction lines as [|line [|next lines] IH]; [done|by intros _; cbn; rewrite string_app_nil_r|]. intros _.
  cbn [join_with written_lines] in *. rewrite !string_app_assoc. by rewrite (IH ltac:(done)).
Qed.

(** The body: what [wrappedBase64] makes of a text, in lines. *)
Lemma wrapped_lines value : forall room, (room <= 76)%nat -> (1 <= room)%nat ->
  exists first body, wrapped room value +:+ CRLF = written_lines (first :: body) /\ concatenated (first :: body) = value
    /\ (String.length first <= room)%nat /\ Forall (fun line => (String.length line <= 76)%nat) body.
Proof.
  induction value as [|c value IH]; intros room H76 H1.
  - exists EmptyString, []. split; [done|]. split; [done|]. split; [simpl; lia|constructor].
  - cbn [wrapped]. destruct (Nat.leb_spec room 1).
    + destruct (IH 76%nat) as (first & body & E & Ec & Hf & Hb); [lia..|]. exists (String c EmptyString), (first :: body).
      cbn [written_lines] in *. split; [|split; [cbn [concatenated] in *; by rewrite Ec|split; [simpl; lia|by constructor]]].
      rewrite string_app_cons, string_app_assoc, E. done.
    + destruct (IH (room - 1)%nat) as (first & body & E & Ec & Hf & Hb); [lia..|]. exists (String c first), body.
      split; [|split; [cbn [concatenated] in *; by rewrite string_app_cons, Ec|split; [simpl; lia|done]]].
      cbn [written_lines] in *. by rewrite !string_app_cons, E.
Qed.

Lemma chars_all_concatenated p lines : chars_all p (concatenated lines) = true -> Forall (fun line => chars_all p line = true) lines.
Proof.
  induction lines as [|line lines IH]; [constructor|]. cbn [concatenated]. rewrite chars_all_app. intros [H1 H2]%andb_prop. constructor; auto.
Qed.

(** ** Headers *)

Abbreviation unbroken := (chars_all no_break).

Lemma unbroken_padded width n : unbroken (padded width n) = true.
Proof.
  unfold padded, padStart. rewrite chars_all_app. apply andb_true_intro. split.
  - by apply chars_all_repeat.
  - eapply chars_all_impl; [|apply decimal_digits]. intros c. unfold digits_or_dash, no_break. intros H.
    destruct (bool_decide_reflect (c = CR)) as [->|]; [done|]. by destruct (bool_decide_reflect (c = LF)) as [->|].
Qed.

Lemma unbroken_nth n l : Forall (fun part => unbroken part = true) l -> unbroken (nth n l EmptyString) = true.
Proof. intros H. revert n. induction H as [|part l Hp _ IH]; intros [|n]; simpl; auto. Qed.

Lemma unbroken_date at_ : unbroken (toUTCString at_) = true.
Proof.
  unfold toUTCString. rewrite !chars_all_app, !unbroken_padded, !unbroken_nth by (repeat constructor).
  by destruct (cyear _ <? 0).
Qed.

Lemma base64_unbroken bytes : unbroken (base64 bytes) = true.
Proof.
  eapply chars_all_impl; [|apply base64_chars]. intros c. unfold no_break.
  destruct (bool_decide_reflect (c = CR)) as [->|]; [by vm_compute|]. by destruct (bool_decide_reflect (c = LF)) as [->|].
Qed.

Lemma unbroken_subject value : unbroken (encodedWord value) = true.
Proof.
  unfold encodedWord. destruct (forallb printable value) eqn:E; [|by rewrite !chars_all_app, base64_unbroken].
  induction value as [|p value IH]; [done|]. cbn [forallb] in E. apply andb_prop in E as [Hp E]. cbn [ascii_text fold_right chars_all].
  fold (ascii_text value). rewrite (IH E), andb_true_r. unfold printable in Hp. unfold no_break.
  assert (Hn : Ascii.nat_of_ascii (Ascii.ascii_of_nat (Z.to_nat p)) = Z.to_nat p) by (apply Ascii.nat_ascii_embedding; tests; lia).
  destruct (bool_decide_reflect (Ascii.ascii_of_nat (Z.to_nat p) = CR)) as [Ec|]; [rewrite Ec in Hn; change (Ascii.nat_of_ascii CR) with 13%nat in Hn; tests; lia|].
  destruct (bool_decide_reflect (Ascii.ascii_of_nat (Z.to_nat p) = LF)) as [Ec|]; [rewrite Ec in Hn; change (Ascii.nat_of_ascii LF) with 10%nat in Hn; tests; lia|]. done.
Qed.

Lemma unbroken_after c value found : unbroken value = true -> after_last c value = Some found -> unbroken found = true.
Proof.
  revert found. induction value as [|d value IH]; [done|]. intros found. cbn [chars_all after_last]. intros [_ Hv]%andb_prop.
  destruct (after_last c value) as [r|]; [intros [= <-]; by apply IH|]. destruct (d ≡? c); [by intros [= <-]|done].
Qed.

Lemma unbroken_domain address : unbroken address = true -> unbroken (domainOf address) = true.
Proof. intros H. unfold domainOf. destruct (after_last _ _) as [found|] eqn:E; [by eapply unbroken_after|done]. Qed.

Lemma headers_unbroken message :
  unbroken (from message) = true -> unbroken (msg_id message) = true -> Forall (fun r => unbroken r = true) (to message) ->
  Forall (fun line => unbroken line = true) (message_headers message).
Proof.
  intros Hf Hi Ht. unfold message_headers.
  repeat constructor; rewrite ?chars_all_app, ?Hf, ?Hi, ?unbroken_subject, ?unbroken_date, ?unbroken_domain, ?chars_all_join; done.
Qed.

(** C29: a mail is what it was meant to be, whatever the title and the text of
    the alert hold: a server that reads it line by line finds the headers, one
    empty line, lines of at most 76 characters and the end, in that order; no
    line before the end starts with the dot that ends a message; and what the
    lines of the body stand for is the text of the alert, byte for byte. *)
Theorem alerts_stay_in_their_place message :
  unbroken (from message) = true -> unbroken (msg_id message) = true -> Forall (fun r => unbroken r = true) (to message) ->
  Forall is_point (text message) ->
  exists body,
    all_lines (dataOf message) = message_headers message ++ [EmptyString] ++ body ++ ["."]
    /\ from_base64 (concatenated body) = utf8 (text message)
    /\ Forall (fun line => (String.length line <= 76)%nat) body
    /\ Forall (fun line => startsWith "." line = false) (message_headers message ++ [EmptyString] ++ body).
Proof.
  intros Hf Hi Ht Hp. destruct (wrapped_lines (base64 (utf8 (text message))) 76) as (first & body & E & Ec & Hl & Hb); [lia..|].
  assert (Hin : Forall (fun line => chars_all in_base64 line = true) (first :: body)).
  { apply chars_all_concatenated. rewrite Ec. apply base64_chars. }
  assert (Hdata : dataOf message = written_lines (message_headers message ++ [EmptyString] ++ (first :: body) ++ ["."])).
  { unfold dataOf, messageBytes. rewrite <- string_app_assoc, join_written by done. rewrite !written_lines_app, <- E. cbn [written_lines].
    unfold wrappedBase64. by rewrite !string_app_assoc. }
  exists (first :: body). split; [|split; [|split]].
  - rewrite Hdata. apply all_lines_written. repeat (apply Forall_app; split); [by apply headers_unbroken|by repeat constructor| |by repeat constructor].
    eapply Forall_impl; [exact Hin|]. intros line H. eapply chars_all_impl; [|exact H]. intros c Hc.
    unfold no_break. destruct (bool_decide_reflect (c = CR)) as [->|]; [by vm_compute in Hc|]. by destruct (bool_decide_reflect (c = LF)) as [->|].
  - rewrite Ec. by apply from_base64_base64, utf8_bytes.
  - by constructor.
  - repeat (apply Forall_app; split); [by repeat constructor|by repeat constructor|].
    eapply Forall_impl; [exact Hin|]. intros line H. destruct line as [|c line]; [done|]. cbn [chars_all] in H. apply andb_prop in H as [Hc _].
    unfold startsWith. cbn [String.prefix]. destruct (Ascii.ascii_dec "." c) as [<-|]; [by vm_compute in Hc|done].
Qed.

Definition example_message : SmtpMessage := emailMessage example_settings example_envelope 0.

Lemma alerts_stay_in_their_place_witness :
  exists body, all_lines (dataOf example_message) = message_headers example_message ++ [EmptyString] ++ body ++ ["."]
    /\ from_base64 (concatenated body) = utf8 (text example_message).
Proof.
  destruct (alerts_stay_in_their_place example_message) as (body & H1 & H2 & _);
    [vm_compute; reflexivity|vm_compute; reflexivity|by repeat constructor|unfold is_point; repeat constructor; vm_compute; congruence|].
  by exists body.
Defined.
