(* ===== verification/Artifacts.v ===== *)
(** What is collected from a bot's directory.

    [artifact.ts] of [packages/core/src/instance]: the growing list of players is
    read from where it was last read to, finished replays are kept and removed,
    and the state of the mailer is measured.  The parser of toml, the digest,
    the connection and the store are arguments. *)

From stdpp Require Import gmap.
From S2P Require Import Prelude Tables Calendar Observer ClientSettings ConfigDrift HostStore InstanceStore InstanceController Delivery Shell Bytes.

(** ** Constants *)

Definition ARTIFACT_STEP_TIMEOUT_MS : Z := 20000.
Definition MAX_ARTIFACT_BYTES : Z := 512 * 1024.
Definition REPLAYS_PER_SWEEP : nat := 8.
Definition REPLAY_KEEP_DAYS : Z := 7.
Definition REPLAY_SETTLE_MINUTES : Z := 15.
Definition ARTIFACT_RETENTION_DAYS : Z := 30.
Definition ARTIFACTS_KEPT_PER_KIND : nat := 48.
Definition MAILER_STATE_WARN_BYTES : Z := 4 * 1024 * 1024.
Definition FINGERPRINT_BYTES : Z := 64.
Definition EMPTY_FINGERPRINT : string := "e3b0c44298fc1c149afbf4c8996fb92427ae41e4649b934ca495991b7852b855".
Definition TRUNCATE_KILL_AFTER_SECONDS : Z := 2.
Definition TRUNCATE_DEADLINE_SECONDS : Z := 10.
Definition TRUNCATE_LOCK_MISSING_EXIT : Z := 3.
Definition READ_BLOCK_BYTES : Z := 65536.

Definition PLAYER_LIST_FILE_KEY : string := "ChatBot.PlayerListLogger.File".
Definition MAILER_DATABASE_KEY : string := "ChatBot.Mailer.DatabaseFile".
Definition MAILER_IGNORE_LIST_KEY : string := "ChatBot.Mailer.IgnoreListFile".

Definition default_file (key : string) : string :=
  match List.find (fun entry => entry.1 ≡? key) CLIENT_DEFAULT_FILES with Some entry => entry.2 | None => EmptyString end.

Definition PLAYER_LIST_FILE_DEFAULT : string := default_file PLAYER_LIST_FILE_KEY.
Definition MAILER_DATABASE_DEFAULT : string := default_file MAILER_DATABASE_KEY.
Definition MAILER_IGNORE_LIST_DEFAULT : string := default_file MAILER_IGNORE_LIST_KEY.

Definition COLLECTED_KEYS : list string := [PLAYER_LIST_FILE_KEY; MAILER_DATABASE_KEY; MAILER_IGNORE_LIST_KEY].
Definition STOPPED_UNIT_STATES : list string := ["inactive"; "failed"].

(** ** Shapes *)

Definition lower (c : Ascii.ascii) : bool := let n := Ascii.nat_of_ascii c in (97 <=? n)%nat && (n <=? 122)%nat.
Definition digit (c : Ascii.ascii) : bool := match digit_value c with Some _ => true | None => false end.
Definition hexadecimal (c : Ascii.ascii) : bool := let n := Ascii.nat_of_ascii c in digit c || ((97 <=? n)%nat && (n <=? 102)%nat).
Definition base64_letter (c : Ascii.ascii) : bool := match place_of c ALPHABET with Some _ => true | None => false end.

(** Letters, then at most two signs of padding. *)
Fixpoint BASE64_ONLY (text : string) : bool :=
  match text with
  | EmptyString => true
  | String c rest => if base64_letter c then BASE64_ONLY rest else bool_decide (text ∈ ["="; "=="])
  end.

Definition word_of (c : Ascii.ascii) : bool :=
  let n := Ascii.nat_of_ascii c in digit c || lower c || ((65 <=? n)%nat && (n <=? 90)%nat) || (c ≡? "_"%char).

(** [value.slice(0, -n)] and [value.slice(-n)] *)
Definition without_end (n : nat) (value : string) : string := String.substring 0 (String.length value - n) value.
Definition end_of (n : nat) (value : string) : string := slice_from (String.length value - n) value.

Definition isReplayName (value : string) : bool :=
  let stem := without_end 5 value in
  (end_of 5 value ≡? ".mcpr") && (1 <=? String.length stem)%nat && (String.length stem <=? 128)%nat && chars_all word_of stem.

Definition isCollectableName (value : string) : bool := isOperatorFileName value.

(** [/^(0|[1-9][0-9]{0,14})$/] *)
Definition CURSOR_NUMBER (text : string) : bool :=
  match text with
  | EmptyString => false
  | String c rest =>
      (text ≡? "0") || (digit c && negb (c ≡? "0"%char) && (String.length rest <=? 14)%nat && chars_all digit rest)
  end.

Definition FINGERPRINT (text : string) : bool := (String.length text =? 64)%nat && chars_all hexadecimal text.

(** [Number(text)] of digits. *)
Definition number (text : string) : Z := default 0 (numberOfDigits text).

(** ** What a machine answers *)

Inductive DecodedContent := decoded (content : list Z) | no_content | too_big | no_use.

Definition decodeHostBytes (encoded : string) (limit : Z) : DecodedContent :=
  let trimmed := trim encoded in
  if (String.length trimmed =? 0)%nat then no_content
  else if negb (BASE64_ONLY trimmed) then no_use
  else
    let content := from_base64 trimmed in
    if (length content =? 0)%nat then no_content
    else if limit <? Z.of_nat (length content) then too_big
    else decoded content.

Definition countFrom (output : string) : Z :=
  let trimmed := trim output in
  if (1 <=? String.length trimmed)%nat && (String.length trimmed <=? 10)%nat && chars_all digit trimmed then number trimmed else 0.

(** [STAT_LINE]: small words, then a number. *)
Definition read_STAT_LINE (line : string) : option (string * Z) :=
  match rev (split_on " " line) with
  | size :: word :: words =>
      if CURSOR_NUMBER size && forallb (fun w => negb (w ≡? EmptyString) && chars_all lower w) (word :: words)
      then Some (join_with " " (rev (word :: words)), number size) else None
  | _ => None
  end.

Fixpoint mailer_bytes (lines : list string) (bytes : Z) : option Z :=
  match lines with
  | [] => Some bytes
  | line :: rest =>
      if line ≡? EmptyString then mailer_bytes rest bytes
      else
        match read_STAT_LINE line with
        | None => None
        | Some (what, size) => mailer_bytes rest (if what ≡? "regular file" then bytes + size else bytes)
        end
  end.

Definition mailerStateBytesFrom (output : string) : option Z := mailer_bytes (split_on NEWLINE output) 0.

(** ** Which files *)

Record ArtifactNames := MkNames { playerList : option string; mailerDatabase : option string; mailerIgnoreList : option string }.

Definition nameFrom (values : gmap string McConfigValue) (key fallback : string) : option string :=
  match values !! key with
  | None => if isCollectableName fallback then Some fallback else None
  | Some (c_scalar (c_text value)) => if isCollectableName value then Some value else None
  | Some _ => None
  end.

Definition artifactNamesFor (parse : string -> result Toml) (document : option string) : ArtifactNames :=
  match match document with None => Ok ∅ | Some text => let+ reading := readMccConfigKeys parse text COLLECTED_KEYS in Ok (values reading) end with
  | Throw _ => MkNames None None None
  | Ok values =>
      let playerList := nameFrom values PLAYER_LIST_FILE_KEY PLAYER_LIST_FILE_DEFAULT in
      let mailerDatabase := nameFrom values MAILER_DATABASE_KEY MAILER_DATABASE_DEFAULT in
      let mailerIgnoreList := nameFrom values MAILER_IGNORE_LIST_KEY MAILER_IGNORE_LIST_DEFAULT in
      let isMailerFile := (playerList ≡? mailerDatabase) || (playerList ≡? mailerIgnoreList) in
      MkNames (if isMailerFile then None else playerList) mailerDatabase mailerIgnoreList
  end.

(** ** Where the list was read to *)

Record PlayerListCursor := MkCursor { cursor_offset : Z; cursor_fingerprint : string; cursor_version : Z }.

(** The columns of a bot's row, as the driver reads them. *)
Record Collecting := MkCollecting {
  ci_id : string; ci_playerListOffset : string; ci_playerListFingerprint : string; ci_playerListCursorVersion : string }.

Definition cursorOf (row : Collecting) : option PlayerListCursor :=
  if negb (CURSOR_NUMBER (ci_playerListOffset row)) || negb (CURSOR_NUMBER (ci_playerListCursorVersion row))
     || negb (FINGERPRINT (ci_playerListFingerprint row))
  then None
  else Some (MkCursor (number (ci_playerListOffset row)) (ci_playerListFingerprint row) (number (ci_playerListCursorVersion row))).

Definition fingerprintWindow (end_ : Z) : Z * Z :=
  let skip := Z.max 0 (end_ - FINGERPRINT_BYTES) in (skip, end_ - skip).

(** ** Commands *)

(** [name.replace(/[*?[\]]/g, ...)] *)
Fixpoint literalPattern (name : string) : string :=
  match name with
  | EmptyString => EmptyString
  | String c rest =>
      if bool_decide (c ∈ ["*"; "?"; "["; "]"]%char) then String "\" (String c (literalPattern rest)) else String c (literalPattern rest)
  end.

Definition readBytes (path skip count : string) : string :=
  "dd if=" +:+ path +:+ " iflag=nofollow,nonblock,skip_bytes,count_bytes skip=" +:+ skip +:+ " count=" +:+ count
    +:+ " bs=" +:+ decimal READ_BLOCK_BYTES +:+ " status=none".

Definition activeStateOf (unit : string) : string := systemctl ("show -p ActiveState --value " +:+ shellQuote unit).

Definition stateDirectory (instanceId : string) : result string :=
  let+ dir := instanceDir instanceId in Ok (dir +:+ "/" +:+ layout_state).

Definition regularFileSize (instanceId name : string) : result string :=
  let+ state := stateDirectory instanceId in
  Ok ("find " +:+ state +:+ " -maxdepth 1 -type f -name " +:+ shellQuote (literalPattern name) +:+ " -printf '%s\n'").

Definition DIGEST : string := " | sha256sum | cut -c1-64".

Definition playerListReadCommand (instanceId name : string) (offset : Z) : result string :=
  let+ state := stateDirectory instanceId in
  let+ size := regularFileSize instanceId name in
  let+ unit := unitName instanceId in
  let+ auth := authUnitName instanceId in
  let file := state +:+ "/" +:+ shellQuote name in
  let before := fingerprintWindow offset in
  let o := decimal offset in
  Ok (join_with newline [
    "s=$(" +:+ size +:+ ")";
    "n=0";
    "if [ -n " +:+ dq "$s" +:+ " ] && [ " +:+ dq "$s" +:+ " -ge " +:+ o +:+ " ] 2>/dev/null; then n=$((s - " +:+ o +:+ ")); fi";
    "if [ " +:+ dq "$n" +:+ " -gt " +:+ decimal MAX_ARTIFACT_BYTES +:+ " ]; then n=" +:+ decimal MAX_ARTIFACT_BYTES +:+ "; fi";
    "e=$((" +:+ o +:+ " + n))";
    "a=0";
    "if [ " +:+ dq "$e" +:+ " -gt " +:+ decimal FINGERPRINT_BYTES +:+ " ]; then a=$((e - " +:+ decimal FINGERPRINT_BYTES +:+ ")); fi";
    "printf 'size=%s\nunit=%s\nauth=%s\nbefore=%s\nchunk=' " +:+ dq "$s" +:+ " "
      +:+ dq ("$(" +:+ activeStateOf (unit +:+ ".service") +:+ ")") +:+ " " +:+ dq ("$(" +:+ activeStateOf auth +:+ ")") +:+ " "
      +:+ dq ("$(" +:+ readBytes file (decimal before.1) (decimal before.2) +:+ DIGEST +:+ ")");
    readBytes file o "$n" +:+ " | base64 | tr -d '\n'";
    "printf '\nafter=%s\n' " +:+ dq ("$(" +:+ readBytes file "$a" "$((e - a))" +:+ DIGEST +:+ ")")]).

(** What the command that empties the list looks at before it does, in this
    order: the states of the bot's unit and of its sign-in, the size of the file
    and the digest of [count] of its bytes from [skip] on. *)
Inductive TruncateGuard :=
  | unit_is_stopped (unit : string)
  | size_is (size : Z)
  | window_is (skip count : Z) (fingerprint : string).

Definition truncateGuards (unit auth : string) (cursor : PlayerListCursor) : list TruncateGuard :=
  let window := fingerprintWindow (cursor_offset cursor) in
  [unit_is_stopped (unit +:+ ".service"); unit_is_stopped auth; size_is (cursor_offset cursor);
   window_is window.1 window.2 (cursor_fingerprint cursor)].

Definition guard_text (size file : string) (guard : TruncateGuard) : string :=
  match guard with
  | unit_is_stopped unit =>
      "case " +:+ dq ("$(" +:+ activeStateOf unit +:+ ")") +:+ " in " +:+ join_with "|" STOPPED_UNIT_STATES
        +:+ ") ;; *) exit 1 ;; esac"
  | size_is n => "[ " +:+ dq ("$(" +:+ size +:+ ")") +:+ " = " +:+ decimal n +:+ " ]"
  | window_is skip count fingerprint =>
      "[ " +:+ dq ("$(" +:+ readBytes file (decimal skip) (decimal count) +:+ DIGEST +:+ ")") +:+ " = "
        +:+ fingerprint +:+ " ]"
  end.

Definition truncateCommand (instanceId name : string) (cursor : PlayerListCursor) : result string :=
  let+ directory := instanceDir instanceId in
  let+ state := stateDirectory instanceId in
  let+ size := regularFileSize instanceId name in
  let+ unit := unitName instanceId in
  let+ auth := authUnitName instanceId in
  let file := state +:+ "/" +:+ shellQuote name in
  let script := join_with " && " (
    map (guard_text size file) (truncateGuards unit auth cursor)
    ++ ["dd if=/dev/null of=" +:+ file +:+ " oflag=nofollow,nonblock conv=nocreat status=none"]) in
  let wrapper := join_with "; " [
    "f=" +:+ directory +:+ "/" +:+ layout_collectLock;
    "[ -f " +:+ dq "$f" +:+ " ] || exit " +:+ decimal TRUNCATE_LOCK_MISSING_EXIT;
    "{ flock -n 9 || exit 1; " +:+ script +:+ "; } 9< " +:+ dq "$f"] in
  Ok (withDeadline TRUNCATE_KILL_AFTER_SECONDS TRUNCATE_DEADLINE_SECONDS ("sh -c " +:+ shellQuote wrapper)).

Definition readReplayCommand (path : string) : string :=
  "dd if=" +:+ path +:+ " iflag=nofollow,nonblock,count_bytes count=" +:+ decimal (MAX_ARTIFACT_BYTES + 1) +:+ " bs="
    +:+ decimal READ_BLOCK_BYTES +:+ " status=none | base64 | tr -d '\n'".

(** ** The answer to a reading *)

Record PlayerListRead := MkRead {
  rd_size : option Z; rd_unit : string; rd_auth : string; rd_before : string; rd_chunk : list Z; rd_after : string }.

(** The rest of a line that starts with [key]. *)
Definition value_after (key line : string) : option string :=
  if startsWith key line then Some (slice_from (String.length key) line) else None.

(** [[a-z]+(?:-[a-z]+)*] *)
Definition unit_word (text : string) : bool :=
  forallb (fun part => negb (part ≡? EmptyString) && chars_all lower part) (split_on "-" text).

Definition parsePlayerListRead (output : string) : option PlayerListRead :=
  match split_on NEWLINE output with
  | [l1; l2; l3; l4; l5; l6; l7] =>
      let? size := value_after "size=" l1 in
      let? unit := value_after "unit=" l2 in
      let? auth := value_after "auth=" l3 in
      let? before := value_after "before=" l4 in
      let? encoded := value_after "chunk=" l5 in
      let? after := value_after "after=" l6 in
      if negb ((size ≡? EmptyString) || CURSOR_NUMBER size) || negb (unit_word unit) || negb (unit_word auth) || negb (FINGERPRINT before)
         || negb (BASE64_ONLY encoded) || negb (FINGERPRINT after) || negb (l7 ≡? EmptyString)
      then None
      else
        let chunk := from_base64 encoded in
        if negb (base64 chunk ≡? encoded) then None
        else Some (MkRead (if size ≡? EmptyString then None else Some (number size)) unit auth before chunk after)
  | _ => None
  end.

(** ** Collecting *)

Inductive InstanceArtifactKind := kind_playerList | kind_replay.

#[global] Instance InstanceArtifactKind_eq_dec : EqDecision InstanceArtifactKind.
Proof. solve_decision. Defined.

Record CollectedArtifact := MkArtifact { art_kind : InstanceArtifactKind; art_content : list Z; art_digest : string }.

Record ArtifactStore (W : Type) := MkArtifactStore {
  keep : string -> CollectedArtifact -> M W unit;
  storeAndAdvance : string -> CollectedArtifact -> PlayerListCursor -> M W unit;
  resetCursor : string -> Z -> M W bool }.
Arguments keep {W}. Arguments storeAndAdvance {W}. Arguments resetCursor {W}.

(** [Tally]; the kinds are a set in the order they were added. *)
Record Tally := MkTally {
  collected : Z; kindsCollected : list InstanceArtifactKind; oversize : Z; refused : Z; failed : Z; replaysPruned : Z; mailerStateBytes : Z }.

Definition emptyTally : Tally := MkTally 0 [] 0 0 0 0 0.

Definition plus_collected (kind : InstanceArtifactKind) (t : Tally) : Tally :=
  MkTally (collected t + 1) (if bool_decide (kind ∈ kindsCollected t) then kindsCollected t else kindsCollected t ++ [kind])
    (oversize t) (refused t) (failed t) (replaysPruned t) (mailerStateBytes t).
Definition plus_oversize (t : Tally) : Tally :=
  MkTally (collected t) (kindsCollected t) (oversize t + 1) (refused t) (failed t) (replaysPruned t) (mailerStateBytes t).
Definition plus_refused (t : Tally) : Tally :=
  MkTally (collected t) (kindsCollected t) (oversize t) (refused t + 1) (failed t) (replaysPruned t) (mailerStateBytes t).
Definition plus_failed (t : Tally) : Tally :=
  MkTally (collected t) (kindsCollected t) (oversize t) (refused t) (failed t + 1) (replaysPruned t) (mailerStateBytes t).
Definition plus_pruned (n : Z) (t : Tally) : Tally :=
  MkTally (collected t) (kindsCollected t) (oversize t) (refused t) (failed t) (replaysPruned t + n) (mailerStateBytes t).
Definition plus_mailer (n : Z) (t : Tally) : Tally :=
  MkTally (collected t) (kindsCollected t) (oversize t) (refused t) (failed t) (replaysPruned t) (mailerStateBytes t + n).

Definition isStopped (state : string) : bool := bool_decide (state ∈ STOPPED_UNIT_STATES).

Section Collecting.
Context {W : Type}.
Variable exec : string -> Z -> M W ExecResult.
Variable digestOf : list Z -> string.
Variable parse : string -> result Toml.
Variable store : ArtifactStore W.
Variable stillCollecting : M W bool.

Abbreviation T := (W * Tally)%type.

Definition tally (f : Tally -> Tally) : M T unit := modify (fun s => (s.1, f s.2)).

(** A value, or [undefined] when it throws. *)
Definition quietly {A} (m : M W (option A)) : M W (option A) := try_catch m (fun _ => ret None).

Definition exitCodeOf (command : string) : M W (option Z) :=
  quietly (let* result := exec command ARTIFACT_STEP_TIMEOUT_MS in ret (Some (exitCode result))).

Definition readPlayerList (instanceId name : string) (offset : Z) : M W (option PlayerListRead) :=
  quietly (
    let* command := lift (playerListReadCommand instanceId name offset) in
    let* result := exec command ARTIFACT_STEP_TIMEOUT_MS in
    ret (if exitCode result =? 0 then parsePlayerListRead (stdout result) else None)).

Definition truncatePlayerList (instanceId name : string) (cursor : PlayerListCursor) : M T unit :=
  let* command := lift (truncateCommand instanceId name cursor) in
  let* exitCode := on_fst (exitCodeOf command) in
  if exitCode ≡? Some 1 then ret tt
  else if negb (exitCode ≡? Some 0) then tally plus_failed
  else try_catch (on_fst (resetCursor store instanceId (cursor_version cursor)) ;;; ret tt) (fun _ => tally plus_failed).

(** From a list that was read, as far as [cursor]. *)
Definition take_player_list (instanceId name : string) (cursor : PlayerListCursor) (read : PlayerListRead) : M T unit :=
  match rd_size read with
  | None => ret tt
  | Some size =>
      let n := Z.of_nat (length (rd_chunk read)) in
      if negb (n =? Z.min (size - cursor_offset cursor) MAX_ARTIFACT_BYTES) then tally plus_failed
      else
        let* advanced :=
          if 0 <? n then
            let artifact := MkArtifact kind_playerList (rd_chunk read) (digestOf (rd_chunk read)) in
            let* stored :=
              try_catch
                (on_fst (storeAndAdvance store instanceId artifact
                           (MkCursor (cursor_offset cursor) (rd_after read) (cursor_version cursor))) ;;; ret true)
                (fun _ => tally plus_failed ;;; ret false) in
            if negb stored then ret None
            else
              tally (plus_collected kind_playerList) ;;;
              ret (Some (MkCursor (cursor_offset cursor + n) (rd_after read) (cursor_version cursor + 1)))
          else ret (Some cursor) in
        match advanced with
        | None => ret tt
        | Some cursor =>
            if (cursor_offset cursor =? 0) || negb (size =? cursor_offset cursor) then ret tt
            else if negb (isStopped (rd_unit read)) || negb (isStopped (rd_auth read)) then ret tt
            else
              let* still := on_fst stillCollecting in
              if negb still then ret tt else truncatePlayerList instanceId name cursor
        end
  end.

(** Whether the file is not the one that was read. *)
Definition is_another (cursor : PlayerListCursor) (read : option PlayerListRead) : bool :=
  match read with
  | Some r => match rd_size r with Some size => (size <? cursor_offset cursor) || negb (rd_before r ≡? cursor_fingerprint cursor) | None => false end
  | None => false
  end.

Definition collectPlayerList (instance : Collecting) (name : string) : M T unit :=
  match cursorOf instance with
  | None => tally plus_refused
  | Some cursor =>
      let* read := on_fst (readPlayerList (ci_id instance) name (cursor_offset cursor)) in
      if is_another cursor read then
        let* reset := try_catch (on_fst (resetCursor store (ci_id instance) (cursor_version cursor))) (fun _ => ret false) in
        if negb reset then tally plus_failed
        else
          let* read := on_fst (readPlayerList (ci_id instance) name 0) in
          match read with
          | None => tally plus_failed
          | Some read => take_player_list (ci_id instance) name (MkCursor 0 EMPTY_FINGERPRINT (cursor_version cursor + 1)) read
          end
      else
        match read with
        | None => tally plus_failed
        | Some read => take_player_list (ci_id instance) name cursor read
        end
  end.

(** [line.slice(line.lastIndexOf("/") + 1)] *)
Definition base_name (line : string) : string := default EmptyString (last (split_on "/" line)).

Definition listSettledReplays (directory : string) : M W (option (list string)) :=
  quietly (
    let* result :=
      exec ("find " +:+ directory +:+ " -maxdepth 1 -type f -name '*.mcpr' -mmin +" +:+ decimal REPLAY_SETTLE_MINUTES
              +:+ " 2>/dev/null || true") ARTIFACT_STEP_TIMEOUT_MS in
    ret (Some (take REPLAYS_PER_SWEEP
      (List.filter isReplayName (map (fun line => base_name (trim line)) (split_on NEWLINE (stdout result))))))).

Definition readReplay (path : string) : M W (option string) :=
  quietly (let* result := exec (readReplayCommand path) ARTIFACT_STEP_TIMEOUT_MS in ret (Some (stdout result))).

Definition collectReplay (directory instanceId name : string) : M T unit :=
  let path := directory +:+ "/" +:+ shellQuote name in
  let* encoded := on_fst (readReplay path) in
  match encoded with
  | None => tally plus_failed
  | Some encoded =>
      match decodeHostBytes encoded MAX_ARTIFACT_BYTES with
      | no_content => ret tt
      | too_big => tally plus_oversize
      | no_use => tally plus_refused
      | decoded content =>
          let* stored :=
            try_catch (on_fst (keep store instanceId (MkArtifact kind_replay content (digestOf content))) ;;; ret true)
              (fun _ => tally plus_failed ;;; ret false) in
          if negb stored then ret tt
          else
            let* removed := on_fst (exitCodeOf ("rm -f " +:+ path)) in
            if negb (removed ≡? Some 0) then tally plus_failed else tally (plus_collected kind_replay)
      end
  end.

Definition collectReplays (directory instanceId : string) : M T unit :=
  let* names := on_fst (listSettledReplays directory) in
  match names with
  | None => tally plus_failed
  | Some names => for_each names (collectReplay directory instanceId)
  end.

Definition pruneReplays (directory : string) : M T unit :=
  try_catch
    (let* result :=
       on_fst (exec ("find " +:+ directory +:+ " -maxdepth 1 -type f -name '*.mcpr' -mtime +" +:+ decimal REPLAY_KEEP_DAYS
                       +:+ " -delete -print 2>/dev/null | wc -l") ARTIFACT_STEP_TIMEOUT_MS) in
     tally (plus_pruned (countFrom (stdout result))))
    (fun _ => tally plus_failed).

Definition measureMailerState (instanceId : string) (names : ArtifactNames) : M T unit :=
  match mailerDatabase names, mailerIgnoreList names with
  | Some database, Some ignored =>
      let* state := lift (stateDirectory instanceId) in
      try_catch
        (let* result :=
           on_fst (exec ("stat -c '%F %s' -- " +:+ state +:+ "/" +:+ shellQuote database +:+ " " +:+ state +:+ "/" +:+ shellQuote ignored
                           +:+ " 2>/dev/null || true") ARTIFACT_STEP_TIMEOUT_MS) in
         match mailerStateBytesFrom (stdout result) with
         | None => tally plus_refused
         | Some bytes => tally (plus_mailer bytes)
         end)
        (fun _ => tally plus_failed)
  | _, _ => tally plus_refused
  end.

(** [InstanceArtifactSweep]: a bot's id with its tally. *)
Definition InstanceArtifactSweep : Type := string * Tally.

Definition sweep_instance (documents : gmap string string) (instance : Collecting) : M T unit :=
  let* directory := lift (instanceDir (ci_id instance)) in
  let replays := directory +:+ "/" +:+ layout_replays in
  let names := artifactNamesFor parse (documents !! ci_id instance) in
  match playerList names with
  | None => tally plus_refused
  | Some name => collectPlayerList instance name
  end ;;;
  let* still := on_fst stillCollecting in
  if still then
    collectReplays replays (ci_id instance) ;;;
    pruneReplays replays ;;;
    measureMailerState (ci_id instance) names
  else ret tt.

(** A sweep of one bot, with a tally of its own. *)
Definition tallied (m : M T unit) : M W Tally := fun w =>
  match m (w, emptyTally) with
  | (Ok _, (w', t)) => (Ok t, w')
  | (Throw e, (w', _)) => (Throw e, w')
  end.

Fixpoint sweepHostArtifacts (instances : list Collecting) (documents : gmap string string) : M W (list InstanceArtifactSweep) :=
  match instances with
  | [] => ret []
  | instance :: rest =>
      let* still := stillCollecting in
      if negb still then ret []
      else
        let* t := tallied (sweep_instance documents instance) in
        let* sweeps := sweepHostArtifacts rest documents in
        ret ((ci_id instance, t) :: sweeps)
  end.
End Collecting.
