(* ===== verification/ArtifactCollect.v ===== *)
(** Where artifacts are kept, and the job that collects them.

    [artifact.repository.ts] and [artifact-collect.job.ts] of
    [packages/core/src/instance].  The columns of the table of bots that say how
    far the list of players was read are a table of their own here. *)

From stdpp Require Import gmap.
From S2P Require Import Prelude Tables Calendar Observer ClientSettings ConfigDrift HostStore InstanceStore InstanceController Delivery Shell Bytes Artifacts.

(** ** The tables *)

Module ArtifactRepository.

Record ArtifactValues := MkArtifactValues {
  av_instanceId : string; av_kind : InstanceArtifactKind; av_content : list Z; av_digest : string; av_collectedAt : Z }.

Record Row := MkRow {
  ar_id : string; ar_organizationId : string; ar_instanceId : string; ar_kind : InstanceArtifactKind; ar_content : list Z;
  ar_digest : string; ar_byteSize : Z; ar_collectedAt : Z }.

(** The columns of a bot's row that say how far its list was read. *)
Record CursorRow := MkCursorRow {
  cu_organizationId : string; cu_instanceId : string; playerListOffset : Z; playerListFingerprint : string;
  playerListCursorVersion : Z }.

Record Table := MkTable { artifacts : list Row; cursors : list CursorRow }.

Definition same_artifact (a b : Row) : bool :=
  (ar_organizationId a ≡? ar_organizationId b) && (ar_instanceId a ≡? ar_instanceId b) && (ar_kind a ≡? ar_kind b)
  && (ar_digest a ≡? ar_digest b).

Definition row_of (newId organizationId : string) (values : ArtifactValues) : Row :=
  MkRow newId organizationId (av_instanceId values) (av_kind values) (av_content values) (av_digest values)
    (Z.of_nat (length (av_content values))) (av_collectedAt values).

Definition insertArtifact (newId organizationId : string) (values : ArtifactValues) (t : Table) : bool * Table :=
  let row := row_of newId organizationId values in
  let (stored, rows) := insert_or_nothing (fun r => same_artifact r row) row (artifacts t) in
  (bool_decide (is_Some stored), MkTable rows (cursors t)).

Definition store (newId organizationId : string) (values : ArtifactValues) (t : Table) : bool * Table :=
  insertArtifact newId organizationId values t.

Definition at_version (organizationId instanceId : string) (version : Z) (r : CursorRow) : bool :=
  (cu_organizationId r ≡? organizationId) && (cu_instanceId r ≡? instanceId) && (playerListCursorVersion r =? version).

Definition set_cursor (offset : Z) (fingerprint : string) (version : Z) (r : CursorRow) : CursorRow :=
  MkCursorRow (cu_organizationId r) (cu_instanceId r) offset fingerprint version.

(** A transaction: when the cursor has moved, nothing is stored. *)
Definition storeAndAdvance (newId organizationId : string) (values : ArtifactValues) (advance : PlayerListCursor) (t : Table)
    : result unit * Table :=
  let t1 := (insertArtifact newId organizationId values t).2 in
  let p := at_version organizationId (av_instanceId values) (cursor_version advance) in
  if (affected p (cursors t) =? 0)%nat then (Throw (internal "The player list cursor moved after it was read"), t)
  else
    (Ok tt, MkTable (artifacts t1)
       (update_where p
          (set_cursor (cursor_offset advance + Z.of_nat (length (av_content values))) (cursor_fingerprint advance) (cursor_version advance + 1))
          (cursors t))).

Definition resetCursor (organizationId instanceId : string) (version : Z) (t : Table) : bool * Table :=
  let p := at_version organizationId instanceId version in
  (negb (affected p (cursors t) =? 0)%nat,
   MkTable (artifacts t) (update_where p (set_cursor 0 EMPTY_FINGERPRINT (version + 1)) (cursors t))).

Record ArtifactSummary := MkSummary { su_id : string; su_instanceId : string; su_kind : InstanceArtifactKind; su_byteSize : Z; su_collectedAt : Z }.

(** The latest first, then by id in the order of the database, [id_le]. *)
Definition newest_artifact_first (id_le : string -> string -> bool) (a b : Row) : bool :=
  (ar_collectedAt b <? ar_collectedAt a) || ((ar_collectedAt a =? ar_collectedAt b) && id_le (ar_id b) (ar_id a)).

Definition of_instance (organizationId instanceId : string) (r : Row) : bool :=
  (ar_organizationId r ≡? organizationId) && (ar_instanceId r ≡? instanceId).

Definition listSummaries (id_le : string -> string -> bool) (organizationId instanceId : string) (t : Table) : list ArtifactSummary :=
  map (fun r => MkSummary (ar_id r) (ar_instanceId r) (ar_kind r) (ar_byteSize r) (ar_collectedAt r))
    (order_by (newest_artifact_first id_le) (select (of_instance organizationId instanceId) (artifacts t))).

Definition contentOf (organizationId id : string) (t : Table) : option (list Z) :=
  option_map ar_content (select_first (fun r => (ar_organizationId r ≡? organizationId) && (ar_id r ≡? id)) (artifacts t)).

Definition deleteCollectedBefore (organizationId : string) (cutoff : Z) (t : Table) : Z * Table :=
  let p r := (ar_organizationId r ≡? organizationId) && (ar_collectedAt r <? cutoff) in
  (Z.of_nat (affected p (artifacts t)), MkTable (delete_where p (artifacts t)) (cursors t)).

Definition of_kind (organizationId instanceId : string) (kind : InstanceArtifactKind) (r : Row) : bool :=
  of_instance organizationId instanceId r && (ar_kind r ≡? kind).

Definition deleteBeyondKept (id_le : string -> string -> bool) (organizationId instanceId : string) (kind : InstanceArtifactKind) (kept : nat)
    (t : Table) : Z * Table :=
  let stale := map ar_id (drop kept (order_by (newest_artifact_first id_le) (select (of_kind organizationId instanceId kind) (artifacts t)))) in
  if (length stale =? 0)%nat then (0, t)
  else
    let p r := (ar_organizationId r ≡? organizationId) && bool_decide (ar_id r ∈ stale) in
    (Z.of_nat (affected p (artifacts t)), MkTable (delete_where p (artifacts t)) (cursors t)).

End ArtifactRepository.

(** ** The job *)

Record ArtifactCollectRun := MkRun {
  run_hosts : Z; run_unreachable : Z; run_collected : Z; run_oversize : Z; run_refused : Z; run_failed : Z;
  failedInstanceIds : list string; run_replaysPruned : Z; storedPruned : Z; mailerStateOverBudget : Z }.

Definition no_run : ArtifactCollectRun := MkRun 0 0 0 0 0 0 [] 0 0 0.

Record ArtifactCollectDeps (W : Type) := MkCollectDeps {
  d_organizationIds : M W (list string);
  d_hosts : string -> M W (list HostRow);
  d_host : string -> string -> M W (option HostRow);
  d_instancesOn : string -> string -> M W (list Collecting);
  d_savedDocument : string -> string -> M W (option string);
  d_connect : HostRow -> M W (HostTransport W);
  d_store : string -> ArtifactRepository.ArtifactValues -> M W bool;
  d_storeAndAdvance : string -> ArtifactRepository.ArtifactValues -> PlayerListCursor -> M W unit;
  d_resetCursor : string -> string -> Z -> M W bool;
  d_deleteBeyondKept : string -> string -> InstanceArtifactKind -> nat -> M W Z;
  d_deleteCollectedBefore : string -> Z -> M W Z;
  d_now : M W Z;
  d_onError : option (string -> thrown -> M W unit) }.
Arguments d_organizationIds {W}. Arguments d_hosts {W}. Arguments d_host {W}. Arguments d_instancesOn {W}.
Arguments d_savedDocument {W}. Arguments d_connect {W}. Arguments d_store {W}. Arguments d_storeAndAdvance {W}.
Arguments d_resetCursor {W}. Arguments d_deleteBeyondKept {W}. Arguments d_deleteCollectedBefore {W}. Arguments d_now {W}.
Arguments d_onError {W}.

Section Job.
Context {W : Type} (deps : ArtifactCollectDeps W).
Variable digestOf : list Z -> string.
Variable parse : string -> result Toml.

Fixpoint documentsFor (organizationId : string) (instances : list Collecting) (documents : gmap string string) : M W (gmap string string) :=
  match instances with
  | [] => ret documents
  | instance :: rest =>
      let* document := d_savedDocument deps organizationId (ci_id instance) in
      documentsFor organizationId rest (match document with Some text => <[ci_id instance := text]> documents | None => documents end)
  end.

Definition valuesOf (now : Z) (instanceId : string) (artifact : CollectedArtifact) : ArtifactRepository.ArtifactValues :=
  ArtifactRepository.MkArtifactValues instanceId (art_kind artifact) (art_content artifact) (art_digest artifact) now.

Definition store_of (organizationId : string) (now : Z) : ArtifactStore W :=
  MkArtifactStore W
    (fun instanceId artifact => d_store deps organizationId (valuesOf now instanceId artifact) ;;; ret tt)
    (fun instanceId artifact advance => d_storeAndAdvance deps organizationId (valuesOf now instanceId artifact) advance)
    (fun instanceId version => d_resetCursor deps organizationId instanceId version).

Definition still_collecting (organizationId hostId : string) : M W bool :=
  let* host := d_host deps organizationId hostId in
  ret (match host with Some row => bool_decide (teardownRequestedAt row = None) | None => false end).

(** [isPollable] of [health-poller.ts], of a whole row. *)
Definition pollable (host : HostRow) : bool := negb (bool_decide (host_status host = removing)) && hostMeets host runtime.

(** [m] with what it threw as a value. *)
Definition attempted {A} (m : M W A) : M W (result A) := fun w => match m w with (r, w') => (Ok r, w') end.

Abbreviation R := (W * ArtifactCollectRun)%type.
Definition noting (f : ArtifactCollectRun -> ArtifactCollectRun) : M R unit := modify (fun s => (s.1, f s.2)).

Definition plus_host (r : ArtifactCollectRun) : ArtifactCollectRun :=
  MkRun (run_hosts r + 1) (run_unreachable r) (run_collected r) (run_oversize r) (run_refused r) (run_failed r) (failedInstanceIds r)
    (run_replaysPruned r) (storedPruned r) (mailerStateOverBudget r).
Definition plus_unreachable (r : ArtifactCollectRun) : ArtifactCollectRun :=
  MkRun (run_hosts r) (run_unreachable r + 1) (run_collected r) (run_oversize r) (run_refused r) (run_failed r) (failedInstanceIds r)
    (run_replaysPruned r) (storedPruned r) (mailerStateOverBudget r).
Definition plus_stored (n : Z) (r : ArtifactCollectRun) : ArtifactCollectRun :=
  MkRun (run_hosts r) (run_unreachable r) (run_collected r) (run_oversize r) (run_refused r) (run_failed r) (failedInstanceIds r)
    (run_replaysPruned r) (storedPruned r + n) (mailerStateOverBudget r).
Definition plus_sweep (sweep : InstanceArtifactSweep) (r : ArtifactCollectRun) : ArtifactCollectRun :=
  let t := sweep.2 in
  MkRun (run_hosts r) (run_unreachable r) (run_collected r + collected t) (run_oversize r + oversize t) (run_refused r + refused t)
    (run_failed r + failed t) (if 0 <? failed t then failedInstanceIds r ++ [sweep.1] else failedInstanceIds r)
    (run_replaysPruned r + replaysPruned t) (storedPruned r)
    (if MAILER_STATE_WARN_BYTES <? mailerStateBytes t then mailerStateOverBudget r + 1 else mailerStateOverBudget r).

(** What was collected on a machine; nothing when it could not be reached. *)
Definition sweep_host (organizationId : string) (now : Z) (host : HostRow) (instances : list Collecting) (documents : gmap string string)
    : M R (list InstanceArtifactSweep) :=
  let unreached (error : thrown) : M R unit :=
    noting plus_unreachable ;;;
    on_fst (call_optional (d_onError deps) ("Artifact collection could not reach host " +:+ host_id host) error) in
  let* opened := on_fst (attempted (d_connect deps host)) in
  match opened with
  | Throw error => unreached error ;;; ret []
  | Ok transport =>
      try_finally
        (let* swept :=
           on_fst (attempted (sweepHostArtifacts (fun command timeoutMs => tr_exec transport command timeoutMs None) digestOf parse
             (store_of organizationId now) (still_collecting organizationId (host_id host)) instances documents)) in
         match swept with
         | Ok sweeps => ret sweeps
         | Throw error => unreached error ;;; ret []
         end)
        (on_fst (swallow (tr_close transport)))
  end.

Definition prune_sweep (organizationId : string) (sweep : InstanceArtifactSweep) : M R unit :=
  noting (plus_sweep sweep) ;;;
  for_each (kindsCollected sweep.2)
    (fun kind =>
       let* n := on_fst (d_deleteBeyondKept deps organizationId sweep.1 kind ARTIFACTS_KEPT_PER_KIND) in
       noting (plus_stored n)).

Definition collect_host (organizationId : string) (now : Z) (host : HostRow) : M R unit :=
  noting plus_host ;;;
  let* instances := on_fst (d_instancesOn deps organizationId (host_id host)) in
  let* documents := on_fst (documentsFor organizationId instances ∅) in
  let* sweeps := sweep_host organizationId now host instances documents in
  for_each sweeps (prune_sweep organizationId).

Definition collect_organization (now cutoff : Z) (organizationId : string) : M R unit :=
  let* hosts := on_fst (d_hosts deps organizationId) in
  for_each (List.filter pollable hosts) (collect_host organizationId now) ;;;
  let* n := on_fst (d_deleteCollectedBefore deps organizationId cutoff) in
  noting (plus_stored n).

Definition createArtifactCollector : M W ArtifactCollectRun := fun w =>
  match (let* now := on_fst (d_now deps) in
         let* organizationIds := on_fst (d_organizationIds deps) in
         for_each organizationIds (collect_organization now (cutoffFor now ARTIFACT_RETENTION_DAYS))) (w, no_run) with
  | (Ok _, (w', run)) => (Ok run, w')
  | (Throw error, (w', _)) => (Throw error, w')
  end.
End Job.

Inductive LogLine := logged_info (message : string) | logged_warn (message : string).

Definition namesOf (instanceIds : list string) : string :=
  if (length instanceIds =? 0)%nat then EmptyString else " on " +:+ join_with ", " instanceIds.

Definition artifactCollectReporter (run : ArtifactCollectRun) : list LogLine :=
  (if (0 <? run_collected run) || (0 <? run_replaysPruned run) then
     [logged_info ("Collected " +:+ decimal (run_collected run) +:+ " instance artifacts and freed " +:+ decimal (run_replaysPruned run) +:+ " replays")]
   else [])
  ++ (if (0 <? run_oversize run) || (0 <? run_refused run) || (0 <? run_failed run) then
        [logged_warn ("Left " +:+ decimal (run_oversize run) +:+ " artifacts too large to carry, " +:+ decimal (run_refused run)
           +:+ " unusable and " +:+ decimal (run_failed run) +:+ " uncollected" +:+ namesOf (failedInstanceIds run))]
      else [])
  ++ (if 0 <? mailerStateOverBudget run then
        [logged_warn (decimal (mailerStateOverBudget run) +:+ " instance(s) hold more than " +:+ decimal MAILER_STATE_WARN_BYTES
           +:+ " bytes of Mailer state, which the control plane cannot collect")]
      else []).

Definition artifactCollectJob {W} (collect : M W ArtifactCollectRun) (report : list LogLine -> M W unit) : M W unit :=
  let* run := collect in report (artifactCollectReporter run).
