(* ===== verification/ArtifactSafety.v ===== *)
(** What the collection of the list of players promises.

    A bot appends to its list; a sweep stores what is new, and empties the file
    once all of it is stored and the bot stopped; the job then deletes what is
    old or beyond the newest.  Between any two of these steps a command, a write
    or the process may fail.  Whatever fails, what is no longer in the file was
    stored, and is stored until the job deletes it, with two exceptions: a file
    that was emptied comes to hold, before the same byte, the very bytes the
    emptied one ended with, or two pieces of the list have the same digest. *)

From stdpp Require Import gmap.
From S2P Require Import Prelude Tables Calendar Observer ClientSettings ConfigDrift HostStore InstanceStore InstanceController Delivery Shell Payloads Bytes Artifacts ArtifactCollect.
Import ArtifactRepository.

#[export] Instance Row_eq_dec : EqDecision Row.
Proof. solve_decision. Defined.

(** A bot: the tables, all it ever wrote to its list, where and at which size the
    file was emptied, the last time first, and the artifacts that were deleted
    from the tables. *)
Record Bot := MkBot { tables : Table; history : list Z; cuts : list (nat * nat); pruned : list Row }.

(** Every artifact that ever was in the table. *)
Definition rows (w : Bot) : list Row := artifacts (tables w) ++ pruned w.

Definition gone (w : Bot) : nat := match cuts w with (at_, _) :: _ => at_ | [] => 0%nat end.

Definition file (w : Bot) : list Z := drop (gone w) (history w).

(** The bytes the window before [end_] covers. *)
Definition window (bytes : list Z) (end_ : Z) : list Z :=
  let before := fingerprintWindow end_ in take (Z.to_nat before.2) (drop (Z.to_nat before.1) bytes).

(** The bot may have written more. *)
Record later (w w' : Bot) : Prop := MkLater {
  same_tables : tables w' = tables w; same_cuts : cuts w' = cuts w; same_pruned : pruned w' = pruned w; grown : history w `prefix_of` history w' }.

Lemma later_refl w : later w w.
Proof. by constructor. Qed.

Lemma later_trans w w' w'' : later w w' -> later w' w'' -> later w w''.
Proof. intros [] []. constructor; [congruence..|by etrans]. Qed.

Lemma take_prefix_of {A} n (a b : list A) : a `prefix_of` b -> (n <= length a)%nat -> take n b = take n a.
Proof. intros [c ->] H. by rewrite take_app_le. Qed.

Lemma window_stable bytes more (o : Z) : 0 <= o <= Z.of_nat (length bytes) -> window (bytes ++ more) o = window bytes o.
Proof.
  intros H. unfold window, fingerprintWindow, FINGERPRINT_BYTES. cbn [fst snd].
  rewrite drop_app_le by lia. rewrite take_app_le; [done|]. rewrite length_drop. lia.
Qed.

Section Collector.
Variable fingerprintOf digestOf : list Z -> string.
Variables organizationId instanceId name : string.

(** ** What is stored *)

Definition of_list (r : Row) : Prop := of_instance organizationId instanceId r = true /\ ar_kind r = kind_playerList.

Definition stored (w : Bot) (content : list Z) : Prop := exists r, In r (rows w) /\ of_list r /\ ar_content r = content.

(** [piece] is what the list holds from byte [at_] on. *)
Definition held_at (w : Bot) (at_ : nat) (piece : list Z) : Prop := take (length piece) (drop at_ (history w)) = piece.

(** Each of the first [n] bytes of the list is in a piece that is stored, or was
    until the job deleted it. *)
Definition covered (w : Bot) (n : nat) : Prop :=
  (n <= length (history w))%nat
  /\ forall i, (i < n)%nat -> exists at_ piece,
       stored w piece /\ (at_ <= i < at_ + length piece)%nat /\ held_at w at_ piece.

Definition digests_hold (t : Table) : Prop := forall r, In r (artifacts t) -> ar_digest r = digestOf (ar_content r).

Definition of_bot (r : CursorRow) : bool := (cu_organizationId r ≡? organizationId) && (cu_instanceId r ≡? instanceId).

(** The table says the list was read as far as [k]. *)
Definition read_to (k : PlayerListCursor) (w : Bot) : Prop := exists r,
  select_first of_bot (cursors (tables w)) = Some r
  /\ k = MkCursor (playerListOffset r) (playerListFingerprint r) (playerListCursorVersion r).

Definition offset (k : PlayerListCursor) : nat := Z.to_nat (cursor_offset k).

(** The cursor is of the file there is. *)
Definition in_step (k : PlayerListCursor) (w : Bot) : Prop :=
  read_to k w /\ digests_hold (tables w) /\ 0 <= cursor_offset k /\ covered w (gone w + offset k).

(** The cursor is of the file that was emptied last. *)
Definition behind (k : PlayerListCursor) (w : Bot) : Prop :=
  read_to k w /\ digests_hold (tables w) /\ 0 < cursor_offset k /\ covered w (gone w)
  /\ exists older, cuts w = (gone w, offset k) :: older /\ (offset k <= gone w)%nat
     /\ cursor_fingerprint k = fingerprintOf (window (drop (gone w - offset k) (take (gone w) (history w))) (cursor_offset k)).

(** A file that was emptied at [o] bytes came to hold the same before byte [o]. *)
Definition repeats (w : Bot) : Prop := exists g o,
  In (g, o) (cuts w) /\ (0 < o <= g)%nat /\ (g + o <= length (history w))%nat
  /\ fingerprintOf (window (drop (g - o) (take g (history w))) (Z.of_nat o)) = fingerprintOf (window (drop g (history w)) (Z.of_nat o)).

(** A piece of the list that is not an artifact of the list has its digest. *)
Definition collides (w : Bot) : Prop := exists r at_ piece,
  In r (rows w) /\ of_list r /\ held_at w at_ piece /\ digestOf piece = digestOf (ar_content r) /\ piece <> ar_content r.

Definition excused (w : Bot) : Prop := repeats w \/ collides w.

Definition accounted (k : PlayerListCursor) (w : Bot) : Prop := in_step k w \/ behind k w.

(** Nothing that left the file is lost. *)
Definition safe (w : Bot) : Prop := excused w \/ exists k, accounted k w.

Lemma held_later w w' at_ piece : history w `prefix_of` history w' -> held_at w at_ piece -> held_at w' at_ piece.
Proof.
  intros [more Hm] H. destruct piece as [|x piece]; [done|]. unfold held_at in *. rewrite Hm.
  pose proof (f_equal length H) as Hl. rewrite length_take, length_drop in Hl. cbn [length] in Hl.
  rewrite drop_app_le, take_app_le; [done|rewrite length_drop; cbn; lia|lia].
Qed.

Lemma covered_later w w' n : later w w' -> covered w n -> covered w' n.
Proof.
  intros [Ht _ Hp Hg] (Hn & H). pose proof (prefix_length _ _ Hg). split; [lia|]. intros i Hi.
  destruct (H i Hi) as (at_ & piece & Hs & Hr & Hh). exists at_, piece. unfold stored, rows. rewrite Ht, Hp. eauto using held_later.
Qed.

Lemma covered_less w n m : (n <= m)%nat -> covered w m -> covered w n.
Proof. intros Hle [Hl H]. split; [lia|]. intros i Hi. apply H. lia. Qed.

Lemma gone_later w w' : later w w' -> gone w' = gone w.
Proof. intros [_ Hc _ _]. unfold gone. by rewrite Hc. Qed.

Lemma in_step_later k w w' : later w w' -> in_step k w -> in_step k w'.
Proof.
  intros H (Hr & Hd & Ho & Hc). unfold in_step, read_to. rewrite (gone_later _ _ H), (same_tables _ _ H).
  repeat split; [done..|apply (covered_later _ _ _ H Hc)|apply (covered_later _ _ _ H Hc)].
Qed.

Lemma behind_later k w w' : later w w' -> behind k w -> behind k w'.
Proof.
  intros H (Hr & Hd & Ho & Hc & older & E & Hle & Hf). unfold behind, read_to.
  rewrite (gone_later _ _ H), (same_tables _ _ H), (same_cuts _ _ H), (take_prefix_of _ _ _ (grown _ _ H)) by apply Hc.
  repeat split; [done..|apply (covered_later _ _ _ H Hc)|apply (covered_later _ _ _ H Hc)|by exists older].
Qed.

Lemma repeats_mono w w' : cuts w `suffix_of` cuts w' -> history w `prefix_of` history w' -> repeats w -> repeats w'.
Proof.
  intros [newer Hc] Hg (g & o & Hin & Ho & Hl & E). pose proof (prefix_length _ _ Hg). exists g, o. repeat split; [|lia..|].
  - rewrite Hc. apply in_app_iff. by right.
  - rewrite (take_prefix_of _ _ _ Hg) by lia. rewrite E. f_equal. destruct Hg as [more Hm]. rewrite Hm, drop_app_le by lia.
    symmetry. apply window_stable. rewrite length_drop. lia.
Qed.

Lemma excused_mono w w' :
  cuts w `suffix_of` cuts w' -> history w `prefix_of` history w' -> incl (rows w) (rows w') -> excused w -> excused w'.
Proof.
  intros Hc Hh Hr [H|(r & at_ & piece & Hin & Ho & Hat & Hd & Hne)]; [left; by eapply repeats_mono|right].
  exists r, at_, piece. split; [by apply Hr|]. eauto using held_later.
Qed.

Lemma excused_later w w' : later w w' -> excused w -> excused w'.
Proof.
  intros [Ht Hc Hp Hg]. apply excused_mono; [by rewrite Hc|done|]. unfold rows. rewrite Ht, Hp. apply incl_refl.
Qed.

Lemma accounted_later k w w' : later w w' -> accounted k w -> accounted k w'.
Proof. intros H [Hs|Hb]; [left; by eapply in_step_later|right; by eapply behind_later]. Qed.
(** ** The store *)

Definition with_tables (t : Table) (w : Bot) : Bot := MkBot t (history w) (cuts w) (pruned w).

Lemma of_bot_at r : of_bot r = true -> at_version organizationId instanceId (playerListCursorVersion r) r = true.
Proof. unfold of_bot, at_version. intros ->. by rewrite Z.eqb_refl. Qed.

(** The row after a write at the version it has. *)
Lemma cursor_moved k w o f v t' :
  read_to k w -> cursors t' = update_where (at_version organizationId instanceId (cursor_version k)) (set_cursor o f v) (cursors (tables w)) ->
  read_to (MkCursor o f v) (with_tables t' w).
Proof.
  intros (r & Hr & ->) Ht. exists (set_cursor o f v r). split; [|done]. cbn [tables with_tables cursor_version] in *.
  rewrite Ht, select_first_update, Hr by done. cbn. by rewrite of_bot_at by (by eapply select_first_spec).
Qed.

Lemma moves k w : read_to k w -> affected (at_version organizationId instanceId (cursor_version k)) (cursors (tables w)) <> 0%nat.
Proof.
  intros (r & Hr & ->) E. apply select_first_spec in Hr as [Hin Hr]. unfold affected in E. apply length_zero_iff_nil in E.
  apply of_bot_at in Hr. assert (H : In r []); [|done]. rewrite <- E. by apply filter_In.
Qed.

(** What is put in the table, or has the digest of what was there. *)
Lemma inserted newId values t :
  digests_hold t -> av_instanceId values = instanceId -> av_kind values = kind_playerList ->
  av_digest values = digestOf (av_content values) ->
  let t' := (insertArtifact newId organizationId values t).2 in
  digests_hold t' /\ incl (artifacts t) (artifacts t')
  /\ exists r, In r (artifacts t') /\ of_list r /\ digestOf (av_content values) = digestOf (ar_content r).
Proof.
  intros Hd Hi Hk Hv. unfold insertArtifact. set (row := row_of newId organizationId values).
  assert (Hrow : of_list row /\ ar_content row = av_content values /\ ar_digest row = digestOf (ar_content row)).
  { subst row. unfold of_list, of_instance. cbn. rewrite Hi, !bool_decide_eq_true_2; done. }
  destruct Hrow as ([Ho Hkr] & Hc & Hdr).
  destruct (insert_or_nothing _ row (artifacts t)) as [[r|] kept] eqn:E; unfold digests_hold; cbn [artifacts snd].
  - apply insert_or_nothing_some in E as (-> & -> & _). split; [|split; [apply incl_appl, incl_refl|]].
    + intros r [Hr|[<-|[]]]%in_app_iff; [by apply Hd|done].
    + exists row. rewrite in_app_iff. split; [right; by left|]. split; [done|congruence].
  - apply insert_or_nothing_none in E as (-> & r & Hr & Hs). split; [done|]. split; [apply incl_refl|].
    unfold same_artifact in Hs. apply andb_prop in Hs as [[[H1 H2]%andb_prop H3]%andb_prop H4].
    apply bool_decide_eq_true in H1, H2, H3, H4. exists r. split; [done|]. split; [split|].
    + unfold of_instance. rewrite H1, H2. subst row. cbn. rewrite Hi, !bool_decide_eq_true_2; done.
    + congruence.
    + rewrite <- Hc, <- Hdr, <- H4. by apply Hd.
Qed.
(** ** What a machine and the database are relied on for *)

(** What a reading from byte [o] on says of the file. *)
Definition tells (o : Z) (read : PlayerListRead) (size : Z) (w : Bot) : Prop :=
  0 <= size <= Z.of_nat (length (file w))
  /\ (o <= size ->
       rd_before read = fingerprintOf (window (file w) o)
       /\ rd_chunk read = take (Z.to_nat (Z.min (size - o) MAX_ARTIFACT_BYTES)) (drop (Z.to_nat o) (file w))).

Definition true_of (o : Z) (read : option PlayerListRead) (w : Bot) : Prop :=
  forall r size, read = Some r -> rd_size r = Some size -> tells o r size w.

(** The script of [truncateCommand]: its guards are looked at one after the
    other, and the file is emptied when all of them hold.  The bot may write
    meanwhile until its unit and its sign-in are found stopped: the script holds
    the lock without which neither is started. *)
Definition passes (w : Bot) (guard : TruncateGuard) : Prop :=
  match guard with
  | unit_is_stopped _ => True
  | size_is size => Z.of_nat (length (file w)) = size
  | window_is skip count fingerprint =>
      fingerprintOf (take (Z.to_nat count) (drop (Z.to_nat skip) (file w))) = fingerprint
  end.

Section script.
Variables unit auth : string.

Definition wrote (stopped : list string) (w w' : Bot) : Prop :=
  later w w' /\ (In (unit +:+ ".service") stopped -> In auth stopped -> w' = w).

Inductive checked : list string -> list TruncateGuard -> Bot -> Bot -> Prop :=
  | all_checked stopped w w' : wrote stopped w w' -> checked stopped [] w w'
  | one_checked stopped guard guards w w1 w' :
      wrote stopped w w1 -> passes w1 guard ->
      checked (match guard with unit_is_stopped u => u :: stopped | _ => stopped end) guards w1 w' ->
      checked stopped (guard :: guards) w w'.
End script.

Definition cut (w : Bot) : Bot := MkBot (tables w) (history w) ((length (history w), length (file w)) :: cuts w) (pruned w).

Definition emptied (k : PlayerListCursor) (w w' : Bot) : Prop := exists unit auth w1,
  checked unit auth [] (truncateGuards unit auth k) w w1 /\ later (cut w1) w'.

(** What the guards are for: the file is emptied as long as the cursor says, and
    ending as it says. *)
Lemma emptied_as_read k w w' :
  emptied k w w' -> exists w1,
    later w w1 /\ Z.of_nat (length (file w1)) = cursor_offset k
    /\ fingerprintOf (window (file w1) (cursor_offset k)) = cursor_fingerprint k /\ later (cut w1) w'.
Proof.
  intros (unit & auth & w1 & Hc & Hl). exists w1. unfold truncateGuards in Hc.
  inversion_clear Hc as [|? ? ? ? wa ? [Ha _] _ Hc1]. inversion_clear Hc1 as [|? ? ? ? wb ? [Hb _] _ Hc2].
  inversion_clear Hc2 as [|? ? ? ? wc ? [_ Hc'] Hsize Hc3]. inversion_clear Hc3 as [|? ? ? ? wd ? [_ Hd] Hwin Hc4].
  inversion_clear Hc4 as [? ? ? [_ He]|].
  assert (Hq : forall A : Prop, (In (unit +:+ ".service") [auth; unit +:+ ".service"] -> In auth [auth; unit +:+ ".service"] -> A) -> A)
    by (intros A H; apply H; simpl; auto).
  apply Hq in Hc', Hd, He. subst. split; [by eapply later_trans|].
  split; [exact Hsize|]. split; [exact Hwin|exact Hl].
Qed.

(** The two commands: however they end, the reading tells the file as it is, and
    the other ran its script to the end or left the file alone (cut off, it ends
    itself at its deadline, before the time it was given).  The bot may write all
    the while it runs. *)
Class Machine (exec : string -> Z -> M Bot ExecResult) := {
  reads : forall o command w answer w', 0 <= o ->
    playerListReadCommand instanceId name o = Ok command -> exec command ARTIFACT_STEP_TIMEOUT_MS w = (answer, w') ->
    later w w'
    /\ forall response, answer = Ok response -> exitCode response = 0 -> true_of o (parsePlayerListRead (stdout response)) w';
  empties : forall k command w answer w',
    truncateCommand instanceId name k = Ok command -> exec command ARTIFACT_STEP_TIMEOUT_MS w = (answer, w') ->
    later w w' \/ emptied k w w' }.

(** A write that throws may have been made. *)
Definition written (w : Bot) (threw : bool) (t : Table) (w' : Bot) : Prop :=
  later (with_tables t w) w' \/ (threw = true /\ later w w').

Definition threw {A} (answer : result A) : bool := match answer with Ok _ => false | Throw _ => true end.

Class Storage (store : ArtifactStore Bot) := {
  stores : forall artifact advance w answer w', Artifacts.storeAndAdvance store instanceId artifact advance w = (answer, w') ->
    exists newId now,
      let (outcome, t) := storeAndAdvance newId organizationId
                            (MkArtifactValues instanceId (art_kind artifact) (art_content artifact) (art_digest artifact) now) advance (tables w) in
      (answer = Ok tt -> outcome = Ok tt) /\ written w (threw answer) t w';
  resets : forall version w answer w', Artifacts.resetCursor store instanceId version w = (answer, w') ->
    let (moved, t) := resetCursor organizationId instanceId version (tables w) in
    (forall b, answer = Ok b -> b = moved) /\ written w (threw answer) t w' }.

(** ** Steps *)

Definition start_over (k : PlayerListCursor) : PlayerListCursor := MkCursor 0 EMPTY_FINGERPRINT (cursor_version k + 1).

Lemma accounted_facts k w : accounted k w -> read_to k w /\ digests_hold (tables w) /\ 0 <= cursor_offset k /\ covered w (gone w).
Proof.
  intros [(Hr & Hd & Ho & Hc)|(Hr & Hd & Ho & Hc & _)]; (split; [done|]; split; [done|]; split; [lia|]); [|done].
  eapply covered_less; [|exact Hc]. lia.
Qed.

(** An advance past what was read. *)
Lemma in_step_advanced newId now k w read size t after :
  in_step k w -> tells (cursor_offset k) read size w -> cursor_offset k <= size ->
  storeAndAdvance newId organizationId (MkArtifactValues instanceId kind_playerList (rd_chunk read) (digestOf (rd_chunk read)) now)
    (MkCursor (cursor_offset k) after (cursor_version k)) (tables w) = (Ok tt, t) ->
  in_step (MkCursor (cursor_offset k + Z.of_nat (length (rd_chunk read))) after (cursor_version k + 1)) (with_tables t w)
  \/ collides (with_tables t w).
Proof.
  intros (Hr & Hd & Ho & Hc) [Hs Ht] Hle E. destruct (Ht Hle) as [_ Hchunk]. clear Ht.
  unfold storeAndAdvance in E. cbn [av_instanceId av_content cursor_version cursor_offset cursor_fingerprint] in E.
  destruct (_ =? 0)%nat; [done|]. injection E as <-.
  pose proof (inserted newId (MkArtifactValues instanceId kind_playerList (rd_chunk read) (digestOf (rd_chunk read)) now) (tables w)
    Hd eq_refl eq_refl eq_refl) as H. cbv zeta in H. destruct H as (Hd' & Hold & r & Hin & Hlist & Hdig).
  set (t' := (insertArtifact _ _ _ _).2) in *. cbn [av_content] in Hdig.
  set (n := length (rd_chunk read)) in *. set (o := offset k) in *.
  assert (Hlen : (gone w + o + n <= length (history w))%nat).
  { unfold n. rewrite Hchunk. unfold file. rewrite length_take, !length_drop. destruct Hc as [Hc _]. unfold o, offset in *. lia. }
  assert (Hat : held_at w (gone w + o) (rd_chunk read)).
  { assert (Hn : rd_chunk read = take (Z.to_nat (Z.min (size - cursor_offset k) MAX_ARTIFACT_BYTES)) (drop (gone w + o) (history w))).
    { rewrite Hchunk. unfold file. by rewrite drop_drop. }
    unfold held_at. fold n. unfold n. rewrite Hn, length_take. by rewrite <- take_take, firstn_all. }
  assert (Hin' : In r (artifacts t' ++ pruned w)) by (apply in_app_iff; by left).
  destruct (decide (rd_chunk read = ar_content r)) as [Hsame|Hne]; [left|right; by exists r, (gone w + o)%nat, (rd_chunk read)].
  split; [|split; [exact Hd'|split; [cbn; lia|]]].
  - eapply cursor_moved; [exact Hr|]. reflexivity.
  - change (gone (with_tables _ w)) with (gone w).
    replace (offset _) with (o + n)%nat by (unfold o, offset; cbn; lia). split; [cbn; lia|].
    intros i Hi. destruct (decide (i < gone w + o)%nat) as [Hbefore|Hafter].
    + destruct (proj2 Hc i Hbefore) as (at_ & piece & (r' & Hr' & Hrest) & Hheld). exists at_, piece. split; [|exact Hheld].
      exists r'. split; [|exact Hrest]. apply in_app_iff in Hr' as [Hr'|Hr']; apply in_app_iff; [left; by apply Hold|by right].
    + exists (gone w + o)%nat, (rd_chunk read). split; [by exists r|]. split; [fold n; lia|exact Hat].
Qed.
(** A cursor set back to the start of the file there is. *)
Lemma started_over k w :
  accounted k w -> exists t,
    resetCursor organizationId instanceId (cursor_version k) (tables w) = (true, t) /\ artifacts t = artifacts (tables w)
    /\ in_step (start_over k) (with_tables t w).
Proof.
  intros H. apply accounted_facts in H as (Hr & Hd & Ho & Hc). unfold resetCursor.
  eexists. rewrite (proj2 (Nat.eqb_neq _ _) (moves _ _ Hr)). split; [reflexivity|]. split; [reflexivity|]. split; [|split; [exact Hd|split; [done|]]].
  - by eapply cursor_moved.
  - change (covered w (gone w + 0)). by rewrite Nat.add_0_r.
Qed.

(** A file emptied where all of it is stored. *)
Lemma behind_emptied k w w' : in_step k w -> 0 < cursor_offset k -> emptied k w w' -> behind k w'.
Proof.
  intros H Ho (w1 & Hw & Hl & Hf & Hw')%emptied_as_read. apply (in_step_later _ _ _ Hw) in H as (Hr & Hd & _ & Hc).
  assert (Hg : length (history w1) = (gone w1 + offset k)%nat).
  { destruct Hc as [Hc _]. unfold file in Hl. rewrite length_drop in Hl. unfold offset in *. lia. }
  eapply behind_later; [exact Hw'|]. split; [exact Hr|]. split; [exact Hd|]. split; [done|].
  change (gone _) with (length (history w1)). cbn [history cuts cut]. split; [rewrite Hg; exact Hc|].
  assert (Hoff : length (file w1) = offset k) by (unfold offset; lia). rewrite Hoff.
  exists (cuts w1). split; [done|]. split; [lia|]. rewrite <- Hf. rewrite firstn_all. unfold file. do 3 f_equal. lia.
Qed.

(** What still is found to go on from is the file that was read, or one that repeats it. *)
Lemma no_other k w read r size :
  accounted k w -> true_of (cursor_offset k) read w -> read = Some r -> rd_size r = Some size -> is_another k read = false ->
  cursor_offset k <= size /\ (in_step k w \/ excused w).
Proof.
  intros H Ht -> Hs Hn. unfold is_another in Hn. rewrite Hs in Hn. apply orb_false_iff in Hn as [Hle Hf]. tests.
  split; [lia|]. destruct H as [H|H]; [by left|]. right. left. destruct (Ht r size eq_refl Hs) as [Hsize Hread].
  destruct (Hread ltac:(lia)) as [Hb _]. destruct H as (_ & _ & Ho & [Hc _] & older & Hcuts & Hog & Hfp).
  exists (gone w), (offset k). rewrite Hcuts. unfold file in Hsize. rewrite length_drop in Hsize. unfold offset in *.
  split; [by left|]. split; [lia|]. split; [lia|]. rewrite Z2Nat.id by lia. unfold file in Hb. congruence.
Qed.
(** ** A sweep of the list *)

Section Sweep.
Context {exec : string -> Z -> M Bot ExecResult} {machine : Machine exec} {store : ArtifactStore Bot} {storage : Storage store}.
Variable stillCollecting : M Bot bool.
Hypothesis asks : forall w, later w (stillCollecting w).2.

Abbreviation T := (Bot * Tally)%type.

(** Of the bot alone. *)
Lemma triple_bot {A} (P : Bot -> Prop) (m : M Bot A) Q E :
  triple P m Q E -> triple (fun s : T => P s.1) (on_fst m) (fun a s => Q a s.1) (fun e s => E e s.1).
Proof. intros H [w t] Hw. specialize (H w Hw). unfold on_fst. cbn in *. by destruct (m w) as [[a|e] w']. Qed.

Lemma triple_tally (P : Bot -> Prop) f E : triple (fun s : T => P s.1) (tally f) (fun _ s => P s.1) E.
Proof. by intros [w t] Hw. Qed.

Lemma safe_at k w : accounted k w -> safe w.
Proof. intros H. right. by exists k. Qed.

Lemma reads_step k :
  0 <= cursor_offset k ->
  triple (accounted k) (readPlayerList exec instanceId name (cursor_offset k))
    (fun read w => accounted k w /\ true_of (cursor_offset k) read w) (fun _ => accounted k).
Proof.
  intros Ho w Hk. unfold readPlayerList, quietly, try_catch, bind, lift.
  destruct (playerListReadCommand instanceId name (cursor_offset k)) as [command|e] eqn:Ec; [|by split].
  destruct (exec command ARTIFACT_STEP_TIMEOUT_MS w) as [answer w'] eqn:E. apply (reads _ _ _ _ _ Ho Ec) in E as [Hl Ht].
  pose proof (accounted_later _ _ _ Hl Hk) as Hk'. destruct answer as [response|e]; [|by split]. split; [done|].
  destruct (Z.eqb_spec (exitCode response) 0) as [Hx|_]; [by apply Ht|done].
Qed.

Lemma resets_step k :
  triple (accounted k) (Artifacts.resetCursor store instanceId (cursor_version k))
    (fun moved w => moved = true /\ in_step (start_over k) w) (fun _ => safe).
Proof.
  intros w Hk. destruct (started_over _ _ Hk) as (t & Ht & _ & Hs).
  destruct (Artifacts.resetCursor store instanceId (cursor_version k) w) as [answer w'] eqn:E.
  apply resets in E. rewrite Ht in E. destruct E as [Hb [Hw|[Hthrew Hw]]]; destruct answer as [moved|e]; cbn in *; try done.
  - split; [by apply Hb|]. by eapply in_step_later.
  - right. exists (start_over k). left. by eapply in_step_later.
  - right. exists k. by eapply accounted_later.
Qed.

Lemma empties_step k command :
  0 < cursor_offset k -> truncateCommand instanceId name k = Ok command ->
  triple (in_step k) (exitCodeOf exec command) (fun _ => accounted k) (fun _ => accounted k).
Proof.
  intros Ho Ec w Hk. unfold exitCodeOf, quietly, try_catch, bind.
  destruct (exec command ARTIFACT_STEP_TIMEOUT_MS w) as [answer w'] eqn:E. apply (empties _ _ _ _ _ Ec) in E.
  assert (H : accounted k w'); [|by destruct answer].
  destruct E as [E|E]; [left; by eapply in_step_later|right; by eapply behind_emptied].
Qed.

Lemma truncate_safe k :
  0 < cursor_offset k ->
  triple (fun s : T => in_step k s.1) (truncatePlayerList exec store instanceId name k) (fun _ s => safe s.1) (fun _ s => safe s.1).
Proof.
  intros Ho. unfold truncatePlayerList.
  eapply triple_bind; [apply (triple_lift (fun s : T => in_step k s.1)); intros e s _ Hs; apply (safe_at k); by left|].
  intros command. intros s [Hs Ec]. revert s Hs. apply (triple_bind _ _ _ (fun _ s => accounted k s.1)).
  { eapply triple_consequence; [apply triple_bot, (empties_step k _ Ho Ec)|done..|]. intros e s. apply safe_at. }
  intros code. destruct (code ≡? Some 1); [intros s; apply safe_at|].
  destruct (negb _); [intros s Hs; by apply (safe_at k)|].
  eapply triple_catch.
  - eapply triple_bind; [apply triple_bot, resets_step|]. intros moved s [_ Hs]. apply (safe_at (start_over k)). by left.
  - intros e s Hs. exact Hs.
Qed.
Definition advanced (k : PlayerListCursor) (read : PlayerListRead) : PlayerListCursor :=
  MkCursor (cursor_offset k + Z.of_nat (length (rd_chunk read))) (rd_after read) (cursor_version k + 1).

Lemma stores_step k read size :
  cursor_offset k <= size ->
  triple (fun w => tells (cursor_offset k) read size w /\ in_step k w)
    (Artifacts.storeAndAdvance store instanceId (MkArtifact kind_playerList (rd_chunk read) (digestOf (rd_chunk read)))
       (MkCursor (cursor_offset k) (rd_after read) (cursor_version k)))
    (fun _ w => in_step (advanced k read) w \/ excused w) (fun _ => safe).
Proof.
  intros Hle w [Ht Hk].
  destruct (Artifacts.storeAndAdvance store _ _ _ w) as [answer w'] eqn:E. apply stores in E as (newId & now & E).
  cbn [art_kind art_content art_digest] in E.
  destruct (storeAndAdvance newId organizationId _ _ (tables w)) as [outcome t] eqn:Es. destruct E as [Hok Hw].
  destruct outcome as [[]|e'].
  - apply (in_step_advanced newId now k w read size t (rd_after read) Hk Ht Hle) in Es.
    assert (Hdone : later (with_tables t w) w' -> in_step (advanced k read) w' \/ excused w').
    { intros Hl. destruct Es as [Es|Es]; [left; by eapply in_step_later|right; eapply excused_later; [exact Hl|by right]]. }
    destruct answer as [[]|e], Hw as [Hw|[Hthrew Hw]]; try done; [by apply Hdone| |].
    + destruct (Hdone Hw) as [Hi|He]; [|by left]. apply (safe_at (advanced k read)). by left.
    + apply (safe_at k). left. by eapply in_step_later.
  - destruct answer as [[]|e]; [by specialize (Hok eq_refl)|]. apply (safe_at k). left.
    assert (t = tables w) as ->; [|destruct w, Hw as [Hw|[_ Hw]]; by eapply in_step_later].
    revert Es. unfold storeAndAdvance. destruct (_ =? 0)%nat; by intros [= <- <-].
Qed.

Lemma asks_step (P : Bot -> Prop) :
  (forall w w', later w w' -> P w -> P w') ->
  triple (fun s : T => P s.1) (on_fst stillCollecting) (fun _ s => P s.1) (fun _ s => P s.1).
Proof.
  intros HP. apply triple_bot. intros w Hw. pose proof (asks w) as H. destruct (stillCollecting w) as [[b|e] w']; by eapply HP.
Qed.

(** What is excused stays so. *)
Lemma excused_written w b t w' :
  written w b t w' -> incl (artifacts (tables w)) (artifacts t) -> excused w -> excused w'.
Proof.
  intros [H|[_ H]] Ht He; apply (excused_later _ _ H); [|done]. apply (excused_mono w); [done|done| |exact He].
  intros r Hr. apply in_app_iff in Hr as [Hr|Hr]; apply in_app_iff; [left; by apply Ht|by right].
Qed.

Lemma reads_excused o : 0 <= o -> preserves excused (readPlayerList exec instanceId name o).
Proof.
  intros Ho w Hw. unfold readPlayerList, quietly, try_catch, bind, lift.
  destruct (playerListReadCommand instanceId name o) as [command|e] eqn:Ec; [|done].
  destruct (exec command ARTIFACT_STEP_TIMEOUT_MS w) as [answer w'] eqn:E. apply (reads _ _ _ _ _ Ho Ec) in E as [Hl _].
  destruct answer; by eapply excused_later.
Qed.

Lemma empties_excused k command : truncateCommand instanceId name k = Ok command -> preserves excused (exitCodeOf exec command).
Proof.
  intros Ec w Hw. unfold exitCodeOf, quietly, try_catch, bind.
  destruct (exec command ARTIFACT_STEP_TIMEOUT_MS w) as [answer w'] eqn:E. apply (empties _ _ _ _ _ Ec) in E.
  assert (H : excused w'); [|by destruct answer].
  destruct E as [E|(w1 & Hl & _ & _ & Hl')%emptied_as_read]; [by eapply excused_later|]. eapply excused_later; [exact Hl'|].
  apply (excused_mono w1); [by exists [(length (history w1), length (file w1))]|done|apply incl_refl|by eapply excused_later].
Qed.

Lemma resets_excused version : preserves excused (Artifacts.resetCursor store instanceId version).
Proof.
  intros w Hw. destruct (Artifacts.resetCursor store instanceId version w) as [answer w'] eqn:E. apply resets in E.
  destruct (resetCursor _ _ version (tables w)) as [moved t] eqn:Et, E as [_ E]. apply excused_written in E; [by destruct answer| |done].
  injection Et as _ <-. apply incl_refl.
Qed.

Lemma stores_excused artifact advance : preserves excused (Artifacts.storeAndAdvance store instanceId artifact advance).
Proof.
  intros w Hw. destruct (Artifacts.storeAndAdvance store instanceId artifact advance w) as [answer w'] eqn:E. apply stores in E as (newId & now & E).
  destruct (storeAndAdvance _ _ _ _ (tables w)) as [outcome t] eqn:Et, E as [_ E].
  apply excused_written in E; [by destruct answer| |done]. revert Et. unfold storeAndAdvance.
  destruct (_ =? 0)%nat; intros [= _ <-]; [apply incl_refl|]. unfold insertArtifact.
  destruct (insert_or_nothing _ _ _) as [[r|] kept] eqn:Ei; cbn [artifacts snd].
  - apply insert_or_nothing_some in Ei as (_ & -> & _). apply incl_appl, incl_refl.
  - apply insert_or_nothing_none in Ei as (-> & _). apply incl_refl.
Qed.

Lemma bot_excused {A} (m : M Bot A) : preserves excused m -> preserves (fun s : T => excused s.1) (on_fst m).
Proof. apply triple_bot. Qed.

Lemma tally_excused f : preserves (fun s : T => excused s.1) (tally f).
Proof. apply triple_tally. Qed.

Lemma asks_excused : preserves (fun s : T => excused s.1) (on_fst stillCollecting).
Proof. apply asks_step. exact excused_later. Qed.

#[local] Hint Resolve bot_excused tally_excused asks_excused reads_excused resets_excused stores_excused : mcc.

Lemma truncate_excused k : preserves (fun s : T => excused s.1) (truncatePlayerList exec store instanceId name k).
Proof.
  unfold truncatePlayerList. eapply triple_bind; [by apply (triple_lift (fun s : T => excused s.1))|].
  intros command s [Hs Ec]. revert s Hs. apply preserves_bind; [by apply bot_excused, (empties_excused k)|].
  intros code. destruct (code ≡? Some 1); [auto with mcc|]. destruct (negb _); auto 8 with mcc.
Qed.

Lemma triple_either (P P' : T -> Prop) {A} (m : M T A) Q E : triple P m Q E -> triple P' m Q E -> triple (fun s => P s \/ P' s) m Q E.
Proof. intros H H' s [Hs|Hs]; [by apply H|by apply H']. Qed.

Lemma safely {A} (m : M T A) :
  preserves (fun s : T => excused s.1) m -> triple (fun s : T => excused s.1) m (fun _ s => safe s.1) (fun _ s => safe s.1).
Proof. intros H. eapply triple_consequence; [exact H|done|..]; intros ? s Hs; by left. Qed.

Lemma take_safe k read :
  (forall size, rd_size read = Some size -> cursor_offset k <= size) ->
  triple (fun s : T => in_step k s.1 /\ true_of (cursor_offset k) (Some read) s.1)
    (take_player_list exec digestOf store stillCollecting instanceId name k read) (fun _ s => safe s.1) (fun _ s => safe s.1).
Proof.
  intros Hle [w t] [Hk Ht]. unfold take_player_list. destruct (rd_size read) as [size|] eqn:Es; [|apply (safe_at k); by left].
  specialize (Ht read size eq_refl Es). specialize (Hle size eq_refl). pose proof (proj1 (proj2 (proj2 Hk))) as Ho.
  destruct (negb _); [apply (safe_at k); by left|].
  revert w t Ht Hk. enough (H : triple (fun s : T => tells (cursor_offset k) read size s.1 /\ in_step k s.1)
    _ (fun _ s => safe s.1) (fun _ s => safe s.1)) by (intros w t Ht Hk; exact (H (w, t) (conj Ht Hk))).
  eapply (triple_bind _ _ _ (fun moved s => match moved with Some k' => (0 <= cursor_offset k' /\ in_step k' s.1) \/ excused s.1 | None => safe s.1 end)).
  - destruct (0 <? _) eqn:En; [|intros [w t] [_ Hk]; by left].
    eapply (triple_bind _ _ _ (fun stored s => if (stored : bool) then in_step (advanced k read) s.1 \/ excused s.1 else safe s.1)).
    + eapply triple_catch; [eapply triple_bind; [apply (triple_bot _ _ _ _ (stores_step k read size Hle))|]|].
      * intros u s Hs. exact Hs.
      * intros e. intros [w t] Hs. exact Hs.
    + intros [|] [w t] Hs; [|exact Hs]. destruct Hs as [Hs|Hs]; [left|by right]. split; [cbn; lia|exact Hs].
  - intros [k'|]; [|intros s Hs; exact Hs]. apply triple_either.
    2:{ apply safely. repeat case_match; auto with mcc. apply preserves_bind; [auto with mcc|].
        intros [|]; cbn [negb]; auto using truncate_excused with mcc. }
    intros s [Ho' Hk']. revert s Hk'.
    destruct (_ || _) eqn:E0; [intros s Hs; apply (safe_at k'); by left|]. apply orb_false_iff in E0 as [E0 _].
    destruct (_ || _); [intros s Hs; apply (safe_at k'); by left|].
    eapply (triple_bind _ _ _ (fun _ s => in_step k' s.1)).
    + eapply triple_consequence; [apply (asks_step (in_step k')); eauto using in_step_later|done|done|].
      intros e s Hs. apply (safe_at k'). by left.
    + intros [|]; cbn [negb]; [apply truncate_safe; tests; lia|]. intros s Hs. apply (safe_at k'). by left.
Qed.

Lemma take_excused k read : preserves (fun s : T => excused s.1) (take_player_list exec digestOf store stillCollecting instanceId name k read).
Proof.
  unfold take_player_list. destruct (rd_size read) as [size|]; [|auto with mcc].
  destruct (negb _); [auto with mcc|]. apply preserves_bind.
  - destruct (0 <? _); [|auto with mcc]. apply preserves_bind; [auto 8 with mcc|]. intros [|]; cbn [negb]; auto with mcc.
  - intros [k'|]; [|auto with mcc]. repeat case_match; auto with mcc. apply preserves_bind; [auto with mcc|]. intros [|]; cbn [negb]; auto using truncate_excused with mcc.
Qed.

Lemma collect_excused instance k :
  ci_id instance = instanceId -> cursorOf instance = Some k -> 0 <= cursor_offset k ->
  preserves (fun s : T => excused s.1) (collectPlayerList exec digestOf store stillCollecting instance name).
Proof.
  intros Hi Hk Ho. unfold collectPlayerList. rewrite Hi, Hk. apply preserves_bind; [auto with mcc|]. intros read.
  destruct (is_another k read).
  - apply preserves_bind; [auto 8 with mcc|]. intros [|]; cbn [negb]; [|auto with mcc].
    apply preserves_bind; [apply bot_excused, reads_excused; lia|]. intros [again|]; auto using take_excused with mcc.
  - destruct read; auto using take_excused with mcc.
Qed.

(** One sweep, of a cursor as the table has it. *)
Lemma collect_safe instance k :
  ci_id instance = instanceId -> (forall k', cursorOf instance = Some k' -> k' = k) ->
  triple (fun s : T => accounted k s.1) (collectPlayerList exec digestOf store stillCollecting instance name)
    (fun _ s => safe s.1) (fun _ s => safe s.1).
Proof.
  intros Hi Hk. unfold collectPlayerList. rewrite Hi. destruct (cursorOf instance) as [k'|]; [|intros [w t] Hs; by apply (safe_at k)].
  rewrite (Hk k' eq_refl). clear Hk. intros s Hs. pose proof (accounted_facts _ _ Hs) as (_ & _ & Ho & _). revert s Hs.
  eapply (triple_bind _ _ _ (fun read s => accounted k s.1 /\ true_of (cursor_offset k) read s.1)).
  { eapply triple_consequence; [apply triple_bot, (reads_step k Ho)|done|done|]. intros e s. apply safe_at. }
  intros read. destruct (is_another k read) eqn:Ea.
  - eapply (triple_bind _ _ _ (fun moved s => if (moved : bool) then in_step (start_over k) s.1 else safe s.1)).
    { eapply triple_catch.
      - eapply triple_consequence; [apply triple_bot, (resets_step k)|by intros s [Hs _]| |intros e s Hs; exact Hs].
        intros moved s [-> Hs]. exact Hs.
      - intros e s Hs. exact Hs. }
    intros [|]; cbn [negb]; [|intros [w t] Hs; exact Hs].
    eapply (triple_bind _ _ _ (fun read s => in_step (start_over k) s.1 /\ true_of 0 read s.1)).
    + eapply triple_consequence; [apply triple_bot, (reads_step (start_over k) (Z.le_refl 0))|by left| |].
      * intros again s [[Hs|(_ & _ & Hs & _)] Ht]; [by split|done].
      * intros e s. apply safe_at.
    + intros [again|]; [|intros [w t] [Hs _]; apply (safe_at (start_over k)); by left].
      intros s Hs. apply (take_safe (start_over k)); [|exact Hs]. intros size E. apply (proj2 Hs again size eq_refl E).
  - intros s [Hs Ht]. destruct read as [read|]; [|by apply (safe_at k)]. destruct (rd_size read) as [size|] eqn:E.
    + destruct (no_other k s.1 _ read size Hs Ht eq_refl E Ea) as [Hle [Hin|Hr]].
      * apply (take_safe k); [|by split]. intros size' E'. by rewrite E in E'; injection E' as <-.
      * destruct s as [w t]. pose proof (take_excused k read (w, t) Hr) as H.
        destruct (take_player_list _ _ _ _ _ _ _ _ _) as [[u|e] s']; by left.
    + unfold take_player_list. rewrite E. by apply (safe_at k).
Qed.
(** ** Any number of sweeps *)

(** A row of the bot, as it is read for a sweep. *)
Definition as_stored (w : Bot) (instance : Collecting) : Prop := exists r,
  select_first of_bot (cursors (tables w)) = Some r
  /\ instance = MkCollecting instanceId (decimal (playerListOffset r)) (playerListFingerprint r) (decimal (playerListCursorVersion r)).

(** The tables after the job deleted what [t] no longer has. *)
Definition deleted (w : Bot) (t : Table) : Bot :=
  MkBot t (history w) (cuts w) (List.filter (fun r => negb (bool_decide (r ∈ artifacts t))) (artifacts (tables w)) ++ pruned w).

(** A bot that wrote nothing yet writes to its list, is swept, and has what is old
    or beyond the newest of a kind deleted, one after the other. *)
Inductive reachable : Bot -> Prop :=
  | starts t r : select_first of_bot (cursors t) = Some r -> playerListOffset r = 0 -> digests_hold t -> reachable (MkBot t [] [] [])
  | writes w more : reachable w -> reachable (MkBot (tables w) (history w ++ more) (cuts w) (pruned w))
  | keeps_newest w id_le bot kind : reachable w ->
      reachable (deleted w (deleteBeyondKept id_le organizationId bot kind ARTIFACTS_KEPT_PER_KIND (tables w)).2)
  | drops_old w now : reachable w ->
      reachable (deleted w (deleteCollectedBefore organizationId (cutoffFor now ARTIFACT_RETENTION_DAYS) (tables w)).2)
  | sweeps w instance counted : reachable w -> as_stored w instance ->
      reachable (collectPlayerList exec digestOf store stillCollecting instance name (w, counted)).2.1.

Lemma CURSOR_NUMBER_decimal n : CURSOR_NUMBER (decimal n) = true -> 0 <= n /\ number (decimal n) = n.
Proof.
  intros H. assert (Hn : 0 <= n) by (destruct n; [lia|lia|done]). split; [done|].
  pose proof (number_of_decimal (fun _ => None) n Hn) as E. unfold number_of in E. unfold number.
  destruct (numberOfDigits (decimal n)); [by injection E as ->|done].
Qed.

Lemma cursor_as_stored w instance k :
  as_stored w instance -> cursorOf instance = Some k -> read_to k w /\ 0 <= cursor_offset k.
Proof.
  intros (r & Hr & ->). unfold cursorOf. cbn. destruct (CURSOR_NUMBER (decimal (playerListOffset r))) eqn:E1; [|done].
  destruct (CURSOR_NUMBER (decimal (playerListCursorVersion r))) eqn:E2; [|done]. destruct (FINGERPRINT _); [|done]. intros [= <-].
  apply CURSOR_NUMBER_decimal in E1 as [Ho ->], E2 as [_ ->]. split; [by exists r|done].
Qed.

Lemma read_to_same k k' w : read_to k w -> read_to k' w -> k = k'.
Proof. intros (r & Hr & ->) (r' & Hr' & ->). rewrite Hr in Hr'. by injection Hr' as <-. Qed.

Lemma deleted_safe w t :
  cursors t = cursors (tables w) -> incl (artifacts t) (artifacts (tables w)) -> safe w -> safe (deleted w t).
Proof.
  intros Hc Hin.
  assert (Hrows : incl (rows w) (rows (deleted w t))).
  { intros r Hr. unfold rows, deleted in *. cbn [tables pruned]. rewrite !in_app_iff, filter_In, negb_true_iff, bool_decide_eq_false.
    apply in_app_iff in Hr as [Hr|Hr]; [|by right; right].
    destruct (decide (r ∈ artifacts t)) as [H|H]; [left; by apply list_elem_of_In|by right; left]. }
  assert (Hcov : forall n, covered w n -> covered (deleted w t) n).
  { intros n [Hn H]. split; [exact Hn|]. intros i Hi. destruct (H i Hi) as (at_ & piece & (r & Hr & Hrest) & Hheld).
    exists at_, piece. split; [exists r; split; [by apply Hrows|exact Hrest]|exact Hheld]. }
  assert (Hd : digests_hold (tables w) -> digests_hold t) by (intros H r Hr; by apply H, Hin).
  assert (Hk : forall k, read_to k w -> read_to k (deleted w t)) by (intros k; unfold read_to; cbn [tables deleted]; by rewrite Hc).
  intros [H|[k [(Hr & Hdg & Ho & Hcv)|(Hr & Hdg & Ho & Hcv & Hold)]]].
  - left. by eapply excused_mono; [..|exact H].
  - right. exists k. left. repeat split; eauto; by apply Hcov.
  - right. exists k. right. repeat split; eauto; by apply Hcov.
Qed.

Lemma reachable_safe w : reachable w -> safe w.
Proof.
  induction 1 as [t r Hr Ho Hd|w more Hw [H|[k H]]|w id_le bot kind Hw IH|w now Hw IH|w instance counted Hw IH Hi].
  - apply (safe_at (MkCursor (playerListOffset r) (playerListFingerprint r) (playerListCursorVersion r))). left.
    split; [by exists r|]. split; [done|]. cbn. rewrite Ho. split; [done|]. change (covered (MkBot t [] [] []) 0). split; [done|lia].
  - left. eapply excused_later; [|exact H]. constructor; [done..|by apply prefix_app_r].
  - apply (safe_at k). eapply accounted_later; [|exact H]. constructor; [done..|by apply prefix_app_r].
  - apply deleted_safe; [..|exact IH]; unfold deleteBeyondKept; cbv zeta; destruct (_ =? 0)%nat; try done; cbn [artifacts snd];
      [apply incl_refl|]. intros r Hr. by apply filter_In in Hr as [Hr _].
  - apply deleted_safe; [done| |exact IH]. intros r Hr. by apply filter_In in Hr as [Hr _].
  - pose proof Hi as (r & _ & Er). destruct (cursorOf instance) as [k|] eqn:Ek.
    + destruct (cursor_as_stored _ _ _ Hi Ek) as [Hk Ho]. destruct IH as [H|[k' H]].
      * pose proof (collect_excused instance k ltac:(by rewrite Er) Ek Ho (w, counted) H) as Hs.
        destruct (collectPlayerList _ _ _ _ _ _ _) as [[u|e] s']; by left.
      * destruct (accounted_facts _ _ H) as [Hk' _]. rewrite (read_to_same _ _ _ Hk' Hk) in H.
        pose proof (collect_safe instance k ltac:(by rewrite Er) ltac:(intros k2 E2; congruence) (w, counted) H) as Hs.
        destruct (collectPlayerList _ _ _ _ _ _ _) as [[u|e] s']; exact Hs.
    + unfold collectPlayerList. by rewrite Ek.
Qed.

(** C8: however a bot's writes, its sweeps and the deletions of the job follow
    each other, and whichever commands and writes of them fail, every byte that
    is no longer in the bot's list of players was stored in an artifact, at its
    place, and is stored unless the job deleted that artifact since (as older
    than it keeps, or beyond the newest of its kind).  There are two exceptions:
    a file that was emptied came to hold, before the byte it was emptied at, what
    the emptied one ended with, or a piece of the list and an artifact of the
    list have the same digest and are not the same. *)
Theorem nothing_of_the_list_is_lost w :
  reachable w -> ~ repeats w -> ~ collides w ->
  history w = take (gone w) (history w) ++ file w
  /\ forall i, (i < gone w)%nat -> exists at_ r,
       (In r (artifacts (tables w)) \/ In r (pruned w)) /\ of_list r
       /\ (at_ <= i < at_ + length (ar_content r))%nat /\ held_at w at_ (ar_content r).
Proof.
  intros Hw Hr Hc. split; [symmetry; apply take_drop|].
  apply reachable_safe in Hw as [[H|H]|[k H]]; [done|done|]. apply accounted_facts in H as (_ & _ & _ & _ & H).
  intros i Hi. destruct (H i Hi) as (at_ & piece & (r & Hin & Ho & <-) & Hrest). exists at_, r.
  split; [by apply in_app_iff in Hin|]. by split.
Qed.
End Sweep.
End Collector.

(** ** The commands tell what they were made of *)

Lemma number_before_blank n m rest rest' : decimal n +:+ String " " rest = decimal m +:+ String " " rest' -> n = m /\ rest = rest'.
Proof.
  intros E. assert (n = m) as ->.
  { apply (f_equal (split_on " ")) in E. rewrite !split_app in E by (by apply decimal_free). injection E as E _. by apply decimal_inj. }
  split; [done|]. apply string_app_inj_l in E. by injection E.
Qed.

(** [E]: texts that are equal are equal from where they may differ. *)
Ltac same_start E := rewrite ?string_app_assoc in E; repeat apply string_app_inj_l in E.

Lemma read_command_inj instanceId name o o' command :
  playerListReadCommand instanceId name o = Ok command -> playerListReadCommand instanceId name o' = Ok command -> o = o'.
Proof.
  unfold playerListReadCommand, rbind. destruct (stateDirectory instanceId) as [state|]; [|done].
  destruct (regularFileSize instanceId name) as [size|]; [|done]. destruct (unitName instanceId) as [unit|]; [|done].
  destruct (authUnitName instanceId) as [auth|]; [|done]. intros [= <-] [= E]. cbn [join_with] in E. same_start E.
  by apply number_before_blank in E as [-> _].
Qed.

Lemma shellQuote_inj a b rest : sh_ends rest -> shellQuote a +:+ rest = shellQuote b +:+ rest -> a = b.
Proof.
  intros H E. apply (f_equal (sh_word false)) in E. unfold shellQuote in E. rewrite !string_app_assoc in E.
  assert (R : forall v, sh_word false ("'" +:+ (escape_quotes v +:+ ("'" +:+ rest))) = Some (v, rest)) by (intros v; exact (sh_word_quoted v rest H)).
  rewrite !R in E. by injection E.
Qed.

Lemma deadline_inj kill seconds a b :
  withDeadline kill seconds ("sh -c " +:+ shellQuote a) = withDeadline kill seconds ("sh -c " +:+ shellQuote b) -> a = b.
Proof.
  intros E. unfold withDeadline in E. rewrite !string_app_assoc in E. do 6 apply string_app_inj_l in E.
  by apply shellQuote_inj in E.
Qed.

#[local] Opaque shellQuote.

Lemma truncate_command_inj instanceId name k k' command :
  truncateCommand instanceId name k = Ok command -> truncateCommand instanceId name k' = Ok command ->
  cursor_offset k = cursor_offset k' /\ cursor_fingerprint k = cursor_fingerprint k'.
Proof.
  unfold truncateCommand, rbind. destruct (instanceDir instanceId) as [directory|]; [|done].
  destruct (stateDirectory instanceId) as [state|]; [|done].
  destruct (regularFileSize instanceId name) as [size|]; [|done]. destruct (unitName instanceId) as [unit|]; [|done].
  destruct (authUnitName instanceId) as [auth|]; [|done]. intros H H'. cbv zeta in H, H'.
  match type of H with Ok ?a = _ => match type of H' with Ok ?b = _ => assert (E : a = b) by congruence end end. clear H H'.
  apply deadline_inj in E. unfold truncateGuards in E. cbn [map app guard_text join_with] in E. same_start E. apply number_before_blank in E as [Ho E].
  split; [done|]. rewrite Ho in E. apply (string_app_inj_l "]") in E. same_start E. by apply string_app_inj_r in E.
Qed.

#[local] Transparent shellQuote.

(** ** A bot that is swept once *)

Module Once.

Definition fingerprint (bytes : list Z) : string :=
  match bytes with [] => EMPTY_FINGERPRINT | _ => padStart 64 "0"%char (decimal (fold_right Z.add 0 bytes)) end.

Definition digest (bytes : list Z) : string := decimal (Zpos (encode bytes)).

Lemma digest_inj a b : digest a = digest b -> a = b.
Proof. unfold digest. intros H%decimal_inj. injection H as H. by apply (inj encode). Qed.

Definition lost : thrown := internal "The connection was lost".

Definition is_command (command : string) (r : result string) : bool :=
  match r with Ok c => c ≡? command | Throw _ => false end.

Definition answer_of (o : Z) (w : Bot) : string :=
  let size := Z.of_nat (length (file w)) in
  let n := Z.max 0 (Z.min (size - o) MAX_ARTIFACT_BYTES) in
  "size=" +:+ decimal size +:+ newline +:+ "unit=inactive" +:+ newline +:+ "auth=inactive" +:+ newline
    +:+ "before=" +:+ fingerprint (window (file w) o) +:+ newline
    +:+ "chunk=" +:+ base64 (take (Z.to_nat n) (drop (Z.to_nat o) (file w))) +:+ newline
    +:+ "after=" +:+ fingerprint (window (file w) (o + n)) +:+ newline.

#[export] Instance tells_dec o read size w : Decision (tells fingerprint o read size w).
Proof. unfold tells. apply _. Defined.

Definition truthful (o : Z) (text : string) (w : Bot) : bool :=
  match parsePlayerListRead text with
  | Some read => match rd_size read with Some size => bool_decide (tells fingerprint o read size w) | None => true end
  | None => true
  end.

(** It reads the first bytes, and empties the file as it is asked to. *)
Definition exec (command : string) (_ : Z) : M Bot ExecResult := fun w =>
  if startsWith "s=$(" command then
    match List.find (fun o => is_command command (playerListReadCommand "bot" "list" o)) (seqZ 0 16) with
    | Some o => let text := answer_of o w in if truthful o text w then (Ok (MkExec 0 text ""), w) else (Throw lost, w)
    | None => (Throw lost, w)
    end
  else
    let size := length (file w) in
    if is_command command (truncateCommand "bot" "list" (MkCursor (Z.of_nat size) (fingerprint (window (file w) (Z.of_nat size))) 0))
    then (Ok (MkExec 0 "" ""), cut w)
    else (Ok (MkExec 1 "" ""), w).

Lemma is_command_spec command r : is_command command r = true -> r = Ok command.
Proof. unfold is_command. destruct r; [|done]. intros H. tests. by subst. Qed.

#[export] Instance machine : Machine fingerprint "bot" "list" exec.
Proof.
  constructor.
  - intros o command w answer w' Ho Hc. unfold exec.
    assert (startsWith "s=$(" command = true) as ->.
    { revert Hc. unfold playerListReadCommand, rbind. repeat (case_match; [|done]). intros E.
      match type of E with Ok ?a = _ => assert (a = command) as <- by congruence end.
      cbn [join_with]. rewrite !string_app_assoc. apply startsWith_part. }
    destruct (List.find _ _) as [o'|] eqn:Ef; [|intros [= <- <-]; by split; [apply later_refl|]].
    apply find_some in Ef as [_ Hf]. apply is_command_spec in Hf. apply (read_command_inj _ _ o) in Hf as <-; [|done].
    destruct (truthful o (answer_of o w) w) eqn:Et; intros [= <- <-]; (split; [apply later_refl|]); [|done].
    intros response [= <-] _ r size Hr Hs. cbn [stdout] in Hr. unfold truthful in Et. rewrite Hr, Hs in Et. by apply bool_decide_eq_true in Et.
  - intros k command w answer w' Hc. unfold exec. destruct (startsWith _ _).
    + destruct (List.find _ _); [destruct (truthful _ _ _)|]; intros [= <- <-]; left; apply later_refl.
    + destruct (is_command _ _) eqn:Ei; intros [= <- <-]; [|left; apply later_refl]. right.
      apply is_command_spec in Ei. destruct (truncate_command_inj _ _ _ _ _ Hc Ei) as [Ho Hf]. cbn [cursor_offset cursor_fingerprint] in Ho, Hf.
      assert (Hq : forall unit auth stopped, wrote unit auth stopped w w) by (intros; split; [apply later_refl|done]).
      exists "bot", "auth", w. split; [|apply later_refl].
      do 4 (eapply one_checked; [apply Hq|cbn [passes]; try done|]); [..|by apply all_checked].
      rewrite Hf, <- Ho. reflexivity.
Qed.

(** A database that stores, and is lost before the cursor is set back. *)
Definition store : ArtifactStore Bot :=
  MkArtifactStore Bot (fun _ _ => ret tt)
    (fun instanceId artifact advance w =>
       let (outcome, t) := storeAndAdvance "row" "org"
                             (MkArtifactValues instanceId (art_kind artifact) (art_content artifact) (art_digest artifact) 0) advance (tables w) in
       (outcome, with_tables t w))
    (fun _ _ => throw lost).

#[export] Instance storage : Storage "org" "bot" store.
Proof.
  constructor.
  - intros artifact advance w answer w' E. exists "row", 0. cbn in E. destruct (storeAndAdvance _ _ _ _ (tables w)) as [outcome t].
    injection E as <- <-. split; [done|]. left. apply later_refl.
  - intros version w answer w' [= <- <-]. destruct (resetCursor _ _ version (tables w)). split; [done|]. right. split; [done|apply later_refl].
Qed.

Definition still : M Bot bool := ret true.

Definition fresh : Table := MkTable [] [MkCursorRow "org" "bot" 0 EMPTY_FINGERPRINT 0].

Definition wrote : Bot := MkBot fresh [72; 105; 10] [] [].

Definition row : Collecting := MkCollecting "bot" "0" EMPTY_FINGERPRINT "0".

Definition swept : Bot := (collectPlayerList exec digest store still row "list" (wrote, emptyTally)).2.1.

Lemma swept_reachable : reachable digest "org" "bot" "list" (exec := exec) (store := store) still swept.
Proof.
  apply sweeps.
  - apply (writes digest "org" "bot" "list" still (MkBot fresh [] [] []) [72; 105; 10]).
    eapply starts; [vm_compute; reflexivity|reflexivity|intros r []].
  - eexists. split; [vm_compute; reflexivity|vm_compute; reflexivity].
Qed.

(** Three bytes stored and cut off, and the cursor left behind. *)
Definition after_the_cut : Bot :=
  MkBot (MkTable [MkRow "row" "org" "bot" kind_playerList [72; 105; 10] (digest [72; 105; 10]) 3 0]
           [MkCursorRow "org" "bot" 3 (fingerprint [72; 105; 10]) 1]) [72; 105; 10] [(3%nat, 3%nat)] [].

Lemma swept_is : swept = after_the_cut.
Proof. vm_compute. reflexivity. Qed.

Lemma nothing_repeats : ~ repeats fingerprint swept.
Proof.
  rewrite swept_is. intros (g & o & Hin & Ho & Hl & _). cbn in Hin, Hl. destruct Hin as [[= <- <-]|[]]. lia.
Qed.

Lemma nothing_collides w : ~ collides digest "org" "bot" w.
Proof. intros (r & at_ & piece & _ & _ & _ & Hd & Hne). by apply Hne, digest_inj. Qed.

(** A month later, when what was stored is too old to be kept. *)
Definition aged : Bot := deleted swept (deleteCollectedBefore "org" (cutoffFor (31 * 86400000) ARTIFACT_RETENTION_DAYS) (tables swept)).2.

Lemma aged_reachable : reachable digest "org" "bot" "list" (exec := exec) (store := store) still aged.
Proof. apply drops_old, swept_reachable. Qed.

Lemma aged_repeats : ~ repeats fingerprint aged.
Proof. exact nothing_repeats. Qed.

End Once.

Lemma nothing_of_the_list_is_lost_witness :
  let kept w := exists at_ r, (In r (artifacts (tables w)) \/ In r (pruned w)) /\ of_list "org" "bot" r
                  /\ (at_ <= 2 < at_ + length (ar_content r))%nat /\ held_at w at_ (ar_content r) in
  gone Once.swept = 3%nat /\ length (artifacts (tables Once.swept)) = 1%nat /\ kept Once.swept
  /\ artifacts (tables Once.aged) = [] /\ kept Once.aged.
Proof.
  pose proof (fun w => nothing_of_the_list_is_lost Once.fingerprint Once.digest "org" "bot" "list" (exec := Once.exec)
           (machine := Once.machine) (store := Once.store) (storage := Once.storage) Once.still (fun w => later_refl w) w) as H.
  assert (Hg : gone Once.swept = 3%nat) by (rewrite Once.swept_is; reflexivity).
  split; [exact Hg|]. split; [rewrite Once.swept_is; reflexivity|]. split; [|split].
  - apply (proj2 (H Once.swept Once.swept_reachable Once.nothing_repeats (Once.nothing_collides _)) 2%nat).
    rewrite Hg. auto.
  - unfold Once.aged. rewrite Once.swept_is. vm_compute. reflexivity.
  - apply (proj2 (H Once.aged Once.aged_reachable Once.aged_repeats (Once.nothing_collides _)) 2%nat).
    change (gone Once.aged) with (gone Once.swept). rewrite Hg. auto.
Defined.
