(* ===== verification/ArtifactPruning.v ===== *)
(** What is kept of what was collected, and what is removed.

    Pruning keeps the newest artifacts of a kind and touches nothing else; of the
    commands of a sweep two remove replays from the machine, one only what was
    just read and stored, the other only what is a week old.
    Two theorems evaluate what may still be lost: a replay that was read in part,
    and content that equals what was stored long ago. *)

From stdpp Require Import gmap.
From S2P Require Import Prelude Tables Calendar Observer ClientSettings ConfigDrift HostStore InstanceStore InstanceController Delivery Shell Bytes Artifacts ArtifactCollect.
Import ArtifactRepository.

(** ** Pruning *)

Lemma sorted_app {A} (R : A -> A -> Prop) l l' : StronglySorted R (l ++ l') -> forall x y, In x l -> In y l' -> R x y.
Proof.
  induction l as [|z l IH]; intros H x y Hx Hy; [done|]. apply StronglySorted_inv in H as [H Hz].
  destruct Hx as [<-|Hx]; [|by eapply IH]. rewrite Forall_forall in Hz. apply Hz, list_elem_of_In, in_app_iff. by right.
Qed.

Lemma filter_comm {A} (p q : A -> bool) l : List.filter p (List.filter q l) = List.filter q (List.filter p l).
Proof.
  induction l as [|x l IH]; [done|]. simpl. destruct (p x) eqn:Ep, (q x) eqn:Eq; simpl; rewrite ?Ep, ?Eq, IH; done.
Qed.

Lemma filter_perm {A} (p : A -> bool) l l' : Permutation l l' -> Permutation (List.filter p l) (List.filter p l').
Proof.
  induction 1 as [|x l l' H IH|x y l|]; simpl; [done| | |by etrans].
  - destruct (p x); [by constructor|done].
  - destruct (p x), (p y); try done. constructor.
Qed.

Lemma filter_split {A} (p : A -> bool) l :
  (length (List.filter p l) + length (List.filter (fun x => negb (p x)) l))%nat = length l.
Proof. induction l as [|x l IH]; [done|]. simpl. destruct (p x); simpl; lia. Qed.

Lemma in_drop {A} n (l : list A) x : In x (drop n l) -> In x l.
Proof. rewrite <- (take_drop n l) at 2. rewrite in_app_iff. by right. Qed.

Section Pruning.
Variable id_le : string -> string -> bool.
Hypothesis id_total : forall a b, id_le a b = false -> id_le b a = true.
Hypothesis id_trans : forall a b c, id_le a b = true -> id_le b c = true -> id_le a c = true.
Abbreviation newest := (newest_artifact_first id_le).

Lemma newest_total a b : newest a b = false -> newest b a = true.
Proof.
  unfold newest_artifact_first. intros H. apply orb_false_iff in H as [H1 H2]. apply orb_true_iff.
  apply Z.ltb_ge in H1. destruct (Z.eqb_spec (ar_collectedAt a) (ar_collectedAt b)) as [E|E]; [|left; lia].
  right. rewrite E, Z.eqb_refl. by apply id_total.
Qed.

Lemma newest_trans a b c : newest a b = true -> newest b c = true -> newest a c = true.
Proof.
  unfold newest_artifact_first. rewrite !orb_true_iff, !andb_true_iff, !Z.ltb_lt, !Z.eqb_eq.
  intros [H1|[H1 H1']] [H2|[H2 H2']]; [left; lia..|]. right. split; [lia|eauto].
Qed.

Variables organizationId instanceId : string.
Variable kind : InstanceArtifactKind.
Abbreviation wanted := (of_kind organizationId instanceId kind).

(** The rows of the kind, in the order they are pruned in. *)
Definition in_order (t : Table) : list Row := order_by newest (select wanted (artifacts t)).

Lemma in_order_iff t r : In r (in_order t) <-> In r (artifacts t) /\ wanted r = true.
Proof. unfold in_order. rewrite in_order_by. apply filter_In. Qed.

Lemma same_row t r r' : NoDup (map ar_id (artifacts t)) -> In r (artifacts t) -> In r' (artifacts t) -> ar_id r = ar_id r' -> r = r'.
Proof.
  generalize (artifacts t). intros l. induction l as [|x l IH]; intros H; [done|]. cbn in H. apply NoDup_cons in H as [Hx H].
  assert (Hn : forall y, In y l -> ar_id y <> ar_id x) by (intros y Hy E; apply Hx; rewrite <- E; by apply list_elem_of_In, in_map).
  intros [<-|Hr] [<-|Hr'] E; [done|by destruct (Hn r')|by destruct (Hn r)|by apply IH].
Qed.

(** What deletion does to a row. *)
Lemma deleted_iff kept t n t' :
  NoDup (map ar_id (artifacts t)) -> deleteBeyondKept id_le organizationId instanceId kind kept t = (n, t') ->
  cursors t' = cursors t /\ Z.of_nat (length (artifacts t)) = n + Z.of_nat (length (artifacts t'))
  /\ exists gone, artifacts t' = List.filter (fun r => negb (gone r)) (artifacts t)
     /\ forall r, In r (artifacts t) -> (gone r = true <-> In r (drop kept (in_order t))).
Proof.
  intros Hids E. unfold deleteBeyondKept in E. fold (in_order t) in E.
  destruct (length (map ar_id (drop kept (in_order t))) =? 0)%nat eqn:E0; injection E as <- <-; cbn [cursors artifacts].
  - apply Nat.eqb_eq in E0. rewrite length_map in E0. apply nil_length_inv in E0. split; [done|]. split; [lia|].
    exists (fun _ => false). split; [|intros r _; rewrite E0; split; done].
    clear. induction (artifacts t) as [|r l IH]; [done|]. cbn in *. congruence.
  - split; [done|]. split; [unfold affected, delete_where, select; rewrite <- Nat2Z.inj_add; f_equal; symmetry; apply filter_split|].
    eexists. split; [reflexivity|]. intros r Hr. rewrite andb_true_iff, !bool_decide_eq_true. split.
    + intros [_ Hin]. apply list_elem_of_In, in_map_iff in Hin as (r' & Hid & Hin').
      pose proof (proj1 (in_order_iff t r') (in_drop _ _ _ Hin')) as [Hin2 _]. by rewrite (same_row t r r' Hids Hr Hin2 (eq_sym Hid)).
    + intros Hin. split; [|apply list_elem_of_In, in_map, Hin]. pose proof (proj1 (in_order_iff t r) (in_drop _ _ _ Hin)) as [_ Hw].
      unfold of_kind, of_instance in Hw. tests. done.
Qed.

Lemma in_order_nodup t : NoDup (map ar_id (artifacts t)) -> List.NoDup (in_order t).
Proof.
  intros H. apply (Permutation_NoDup (l := select wanted (artifacts t))); [apply Permutation_sym, order_by_perm|].
  unfold select. apply List.NoDup_filter. apply NoDup_ListNoDup in H. by apply NoDup_map_inv in H.
Qed.

(** Pruning keeps, of the artifacts of a kind that a bot has, the newest
    [kept] (all when there are no more), and removes the others; it touches no
    artifact of another kind, bot or organization and no cursor, and answers how
    many it removed. *)
Theorem pruning_keeps_the_newest kept t n t' :
  NoDup (map ar_id (artifacts t)) -> deleteBeyondKept id_le organizationId instanceId kind kept t = (n, t') ->
  length (select wanted (artifacts t')) = Nat.min kept (length (select wanted (artifacts t)))
  /\ (forall r, In r (artifacts t') -> In r (artifacts t))
  /\ (forall r, In r (artifacts t) -> wanted r = false -> In r (artifacts t'))
  /\ (forall old new, In old (artifacts t) -> ~ In old (artifacts t') -> In new (artifacts t') -> wanted new = true -> newest new old = true)
  /\ Z.of_nat (length (artifacts t)) = n + Z.of_nat (length (artifacts t'))
  /\ cursors t' = cursors t.
Proof.
  intros Hids E. apply deleted_iff in E as (Hc & Hn & gone & Ht & Hg); [|done].
  assert (Hin : forall r, In r (artifacts t') <-> In r (artifacts t) /\ ~ In r (drop kept (in_order t))).
  { intros r. rewrite Ht, filter_In, negb_true_iff. split; intros [Hr H]; (split; [done|]).
    - intros Hd. apply (Hg r Hr) in Hd. congruence.
    - apply not_true_iff_false. intros Hd. by apply H, (Hg r Hr). }
  repeat split; try done; [|intros r Hr; by apply Hin| |].
  - transitivity (length (take kept (in_order t))); [|by unfold in_order; rewrite length_take, length_order_by].
    apply Permutation_length, NoDup_Permutation.
    + apply List.NoDup_filter. rewrite Ht. apply List.NoDup_filter. apply NoDup_ListNoDup in Hids. by apply NoDup_map_inv in Hids.
    + apply (NoDup_app_remove_r _ (drop kept (in_order t))). rewrite take_drop. by apply in_order_nodup.
    + intros r. unfold select. rewrite filter_In, Hin. pose proof (in_order_nodup t Hids) as Hnd. rewrite <- (take_drop kept) in Hnd.
      pose proof (in_order_iff t r) as Ho. rewrite <- (take_drop kept (in_order t)), in_app_iff in Ho. split.
      * intros [[Hr Hd] Hw]. by destruct (proj2 Ho (conj Hr Hw)).
      * intros Hr. pose proof (proj1 Ho (or_introl Hr)) as [Ht' Hw]. repeat split; try done. intros Hd.
        apply NoDup_ListNoDup, NoDup_app in Hnd as (_ & Hnd & _). by apply (Hnd r); apply list_elem_of_In.
  - intros r Hr Hw. apply Hin. split; [done|]. intros Hd. apply in_drop, in_order_iff in Hd as [_ Hd]. congruence.
  - intros old new Ho Hold Hnew Hw. apply Hin in Hnew as [Hnew Hd].
    assert (Hod : In old (drop kept (in_order t))).
    { apply (Hg old Ho). destruct (gone old) eqn:Eg; [done|]. exfalso. apply Hold. rewrite Ht. apply filter_In. by rewrite Eg. }
    assert (Hnt : In new (take kept (in_order t))).
    { pose proof (proj2 (in_order_iff t new) (conj Hnew Hw)) as H. rewrite <- (take_drop kept (in_order t)), in_app_iff in H. by destruct H. }
    apply (sorted_app (fun a b => newest a b = true) (take kept (in_order t)) (drop kept (in_order t))); [|done..].
    rewrite take_drop. apply order_by_ordered; [exact newest_total|exact newest_trans].
Qed.
End Pruning.

Definition three_replays : Table :=
  let row id at_ kind := MkRow id "org" "bot" kind [at_] id 1 at_ in
  MkTable [row "a" 10 kind_replay; row "b" 30 kind_replay; row "c" 20 kind_replay; row "d" 5 kind_playerList] [].

Definition any_order (a b : string) : bool := true.

Lemma pruning_keeps_the_newest_witness :
  let (n, t') := deleteBeyondKept any_order "org" "bot" kind_replay 2 three_replays in
  n = 1 /\ map ar_id (artifacts t') = ["b"; "c"; "d"] /\ length (select (of_kind "org" "bot" kind_replay) (artifacts t')) = 2%nat.
Proof.
  assert (H : NoDup (map ar_id (artifacts three_replays))) by (vm_compute; repeat constructor; set_solver).
  destruct (deleteBeyondKept any_order "org" "bot" kind_replay 2 three_replays) as [n t'] eqn:E.
  pose proof (pruning_keeps_the_newest any_order (fun _ _ _ => eq_refl) (fun _ _ _ _ _ => eq_refl) "org" "bot" kind_replay 2 three_replays n t' H E)
    as [Hl _].
  vm_compute in E. injection E as <- <-. split; [reflexivity|]. split; [reflexivity|]. rewrite Hl. reflexivity.
Defined.

(** ** What a sweep runs on a machine *)

(** What happens while bots are swept. *)
Inductive Event :=
  | Ran (command : string) (answer : result ExecResult)
  | Kept (instanceId : string) (artifact : CollectedArtifact) (answer : result unit)
  | Advanced (instanceId : string) (artifact : CollectedArtifact) (advance : PlayerListCursor) (answer : result unit)
  | WasReset (instanceId : string) (version : Z) (answer : result bool)
  | Asked (answer : result bool).

Section Sweeping.
Variable machine : list Event -> string -> result ExecResult.
Variable keeps : list Event -> string -> CollectedArtifact -> result unit.
Variable advances : list Event -> string -> CollectedArtifact -> PlayerListCursor -> result unit.
Variable resets : list Event -> string -> Z -> result bool.
Variable asked : list Event -> result bool.
Variable digestOf : list Z -> string.
Variable parse : string -> result Toml.

(** The machine and the database answer as they like, whatever happened so far. *)
Definition exec (command : string) (_ : Z) : M (list Event) ExecResult :=
  fun t => let answer := machine t command in (answer, t ++ [Ran command answer]).

Definition store : ArtifactStore (list Event) :=
  MkArtifactStore (list Event)
    (fun id artifact t => let answer := keeps t id artifact in (answer, t ++ [Kept id artifact answer]))
    (fun id artifact advance t => let answer := advances t id artifact advance in (answer, t ++ [Advanced id artifact advance answer]))
    (fun id version t => let answer := resets t id version in (answer, t ++ [WasReset id version answer])).

Definition stillCollecting : M (list Event) bool :=
  fun t => let answer := asked t in (answer, t ++ [Asked answer]).

Definition path_of (directory name : string) : string := directory +:+ "/" +:+ shellQuote name.

(** The replay was read just before, and what was read of it was stored. *)
Definition stored_first (directory instanceId : string) (before : list Event) (name : string) : Prop :=
  exists earlier response content,
    before = earlier ++ [Ran (readReplayCommand (path_of directory name)) (Ok response);
                         Kept instanceId (MkArtifact kind_replay content (digestOf content)) (Ok tt)]
    /\ decodeHostBytes (stdout response) MAX_ARTIFACT_BYTES = decoded content.

(** The commands of a sweep of a bot whose replays are in [directory], after
    what happened [before]: two at its list of players, one at the files of its
    mailer, and four at its replays, of which two remove some. *)
Inductive permitted (directory instanceId : string) (before : list Event) : string -> Prop :=
  | reads_list name offset command :
      playerListReadCommand instanceId name offset = Ok command -> permitted directory instanceId before command
  | empties_list name cursor command :
      truncateCommand instanceId name cursor = Ok command -> permitted directory instanceId before command
  | lists_replays :
      permitted directory instanceId before
        ("find " +:+ directory +:+ " -maxdepth 1 -type f -name '*.mcpr' -mmin +" +:+ decimal REPLAY_SETTLE_MINUTES
           +:+ " 2>/dev/null || true")
  | reads_replay name :
      isReplayName name = true -> permitted directory instanceId before (readReplayCommand (path_of directory name))
  | removes_replay name :
      isReplayName name = true -> stored_first directory instanceId before name ->
      permitted directory instanceId before ("rm -f " +:+ path_of directory name)
  | prunes_replays :
      permitted directory instanceId before
        ("find " +:+ directory +:+ " -maxdepth 1 -type f -name '*.mcpr' -mtime +" +:+ decimal REPLAY_KEEP_DAYS
           +:+ " -delete -print 2>/dev/null | wc -l")
  | measures_mailer state database ignored :
      stateDirectory instanceId = Ok state ->
      permitted directory instanceId before
        ("stat -c '%F %s' -- " +:+ state +:+ "/" +:+ shellQuote database +:+ " " +:+ state +:+ "/" +:+ shellQuote ignored
           +:+ " 2>/dev/null || true").

Section commands.
Variable allowed : list Event -> string -> Prop.

(** Every command in the trace was [allowed] where it was run. *)
Definition ruled (t : list Event) : Prop := forall before command answer after,
  t = before ++ Ran command answer :: after -> allowed before command.

Abbreviation ruled_t := (fun s : list Event * Tally => ruled s.1).

Lemma app_last {A} (t : list A) e before x after :
  t ++ [e] = before ++ x :: after -> (t = before /\ e = x) \/ exists after', t = before ++ x :: after'.
Proof.
  destruct after as [|y after _] using rev_ind.
  - intros H. apply app_inj_tail in H as [-> ->]. by left.
  - rewrite app_comm_cons, app_assoc. intros H. apply app_inj_tail in H as [-> ->]. right. by exists after.
Qed.

Lemma ruled_snoc t e :
  ruled t -> (forall command answer, e = Ran command answer -> allowed t command) -> ruled (t ++ [e]).
Proof.
  intros H He before command answer after E. apply app_last in E as [[-> ->]|[after' ->]]; [by eapply He|by eapply H].
Qed.

Lemma ruled_exec command timeoutMs : (forall t, allowed t command) -> preserves ruled (exec command timeoutMs).
Proof.
  intros Hc t H. unfold exec. assert (Ht : ruled (t ++ [Ran command (machine t command)])); [|by destruct (machine t command)].
  apply ruled_snoc; [done|]. by intros ? ? [= <- _].
Qed.

Lemma ruled_advance id artifact advance : preserves ruled (Artifacts.storeAndAdvance store id artifact advance).
Proof.
  intros t H. cbn. assert (Ht : forall answer, ruled (t ++ [Advanced id artifact advance answer])) by (intros; by apply ruled_snoc).
  by destruct (advances _ _ _ _).
Qed.

Lemma ruled_reset id version : preserves ruled (Artifacts.resetCursor store id version).
Proof.
  intros t H. cbn. assert (Ht : forall answer, ruled (t ++ [WasReset id version answer])) by (intros; by apply ruled_snoc).
  by destruct (resets _ _ _).
Qed.

Lemma ruled_asks : preserves ruled stillCollecting.
Proof.
  intros t H. unfold stillCollecting. assert (Ht : forall answer, ruled (t ++ [Asked answer])) by (intros; by apply ruled_snoc).
  by destruct (asked _).
Qed.

Lemma ruled_tallies {A} (m : M (list Event) A) : preserves ruled m -> preserves ruled_t (on_fst m).
Proof. intros H [t c] Hs. specialize (H t Hs). unfold on_fst. cbn in *. by destruct (m t) as [[a|e] t']. Qed.

Lemma ruled_counts f : preserves ruled_t (tally f).
Proof. by intros [t c] H. Qed.

Lemma ruled_quietly {A} (m : M (list Event) (option A)) : preserves ruled m -> preserves ruled (quietly m).
Proof. intros H. unfold quietly. auto with mcc. Qed.
End commands.
#[local] Hint Resolve ruled_advance ruled_reset ruled_asks ruled_tallies ruled_counts ruled_quietly : mcc.

Section one_bot.
Variable allowed : list Event -> string -> Prop.
Variables root instanceId : string.
Abbreviation directory := (root +:+ "/" +:+ layout_replays).
Hypothesis Hallowed : forall before command, permitted directory instanceId before command -> allowed before command.

Abbreviation kept := (ruled allowed).
Abbreviation kept_t := (fun s : list Event * Tally => ruled allowed s.1).

(** A command made first, and then run. *)
Lemma kept_command {S A} (P : S -> Prop) (made : result string) (k : string -> M S A) :
  (forall command, made = Ok command -> preserves P (k command)) -> preserves P (let* command := lift made in k command).
Proof.
  intros H. eapply triple_bind; [apply (triple_lift P); by intros|]. intros command s [Hs Hc]. by apply H.
Qed.

Lemma kept_reading name offset : preserves kept (readPlayerList exec instanceId name offset).
Proof.
  unfold readPlayerList. apply ruled_quietly, kept_command. intros command Hc.
  apply preserves_bind; [apply ruled_exec; intros t; apply Hallowed; by eapply reads_list|auto with mcc].
Qed.

Lemma kept_exit command : (forall t, allowed t command) -> preserves kept (exitCodeOf exec command).
Proof. intros H. unfold exitCodeOf. apply ruled_quietly, preserves_bind; [by apply ruled_exec|auto with mcc]. Qed.

Lemma kept_truncate name cursor : preserves kept_t (truncatePlayerList exec store instanceId name cursor).
Proof.
  unfold truncatePlayerList. apply (kept_command kept_t). intros command Hc.
  apply preserves_bind; [apply ruled_tallies, kept_exit; intros t; apply Hallowed; by eapply empties_list|].
  intros code. repeat case_match; auto 8 with mcc.
Qed.

#[local] Hint Resolve kept_reading kept_truncate : mcc.

Lemma kept_take name cursor read :
  preserves kept_t (take_player_list exec digestOf store stillCollecting instanceId name cursor read).
Proof.
  unfold take_player_list. destruct (rd_size read) as [size|]; [|auto with mcc].
  destruct (negb _); [auto with mcc|]. apply preserves_bind.
  - destruct (0 <? _); [|auto with mcc]. apply preserves_bind; [auto 8 with mcc|]. intros [|]; cbn [negb]; auto with mcc.
  - intros [k'|]; [|auto with mcc]. repeat case_match; auto with mcc. apply preserves_bind; [auto with mcc|].
    intros [|]; cbn [negb]; auto with mcc.
Qed.

Lemma kept_list instance name :
  ci_id instance = instanceId -> preserves kept_t (collectPlayerList exec digestOf store stillCollecting instance name).
Proof.
  intros Hi. unfold collectPlayerList. rewrite Hi. destruct (cursorOf instance) as [k|]; [|auto with mcc].
  apply preserves_bind; [auto with mcc|]. intros read. destruct (is_another k read).
  - apply preserves_bind; [auto 8 with mcc|]. intros [|]; cbn [negb]; [|auto with mcc].
    apply preserves_bind; [auto with mcc|]. intros [again|]; auto using kept_take with mcc.
  - destruct read; auto using kept_take with mcc.
Qed.

(** What is listed as replays has the names of replays. *)
Lemma kept_listed :
  triple kept (listSettledReplays exec directory)
    (fun names t => kept t /\ forall l, names = Some l -> Forall (fun name => isReplayName name = true) l) (fun _ => kept).
Proof.
  intros t H. unfold listSettledReplays, quietly, try_catch, bind, exec. set (command := "find " +:+ _) in *.
  assert (Ht : ruled allowed (t ++ [Ran command (machine t command)])).
  { apply ruled_snoc; [done|]. intros ? ? [= <- _]. apply Hallowed, lists_replays. }
  destruct (machine t command) as [response|e]; (split; [done|]); [|done].
  intros l [= <-]. apply Forall_take. apply Forall_forall. intros name Hin. apply list_elem_of_In, filter_In in Hin. apply Hin.
Qed.

(** One replay: it is removed only where it was stored just before. *)
Lemma kept_replay name :
  isReplayName name = true -> preserves kept_t (collectReplay exec digestOf store directory instanceId name).
Proof.
  intros Hn [t counted] H. unfold collectReplay. fold (path_of directory name). cbn in H.
  unfold bind, on_fst, readReplay, quietly, try_catch, bind, exec, exitCodeOf. cbn [fst snd].
  set (dd := readReplayCommand (path_of directory name)).
  assert (H1 : ruled allowed (t ++ [Ran dd (machine t dd)])).
  { apply ruled_snoc; [done|]. intros ? ? [= <- _]. by apply Hallowed, reads_replay. }
  destruct (machine t dd) as [response|e]; cbn [ret fst snd]; [|exact H1].
  destruct (decodeHostBytes (stdout response) MAX_ARTIFACT_BYTES) as [content| | |] eqn:Ed; try exact H1.
  unfold store, quietly, try_catch, bind, ret, tally, modify. cbn [keep fst snd].
  set (artifact := MkArtifact kind_replay content (digestOf content)). set (t1 := t ++ [_]) in *.
  destruct (keeps t1 instanceId artifact) as [[]|e]; cbn [fst snd negb]; [|by apply ruled_snoc].
  assert (H2 : ruled allowed (t1 ++ [Kept instanceId artifact (Ok tt)])) by (by apply ruled_snoc).
  set (t2 := t1 ++ [_]) in *. set (rm := "rm -f " +:+ path_of directory name) in *.
  assert (H3 : ruled allowed (t2 ++ [Ran rm (machine t2 rm)])).
  { apply ruled_snoc; [done|]. intros command answer [= <- <-]. apply Hallowed, removes_replay; [done|].
    exists t, response, content. split; [|done]. unfold t2, t1. by rewrite <- app_assoc. }
  destruct (machine t2 rm) as [removal|e]; cbn [fst snd]; [|exact H3]. by destruct (negb _).
Qed.

Lemma kept_replays : preserves kept_t (collectReplays exec digestOf store directory instanceId).
Proof.
  intros [t counted] H. unfold collectReplays, bind, on_fst. cbn [fst snd]. pose proof (kept_listed t H) as Hl.
  destruct (listSettledReplays exec directory t) as [[[names|]|e] t']; [|by destruct Hl|done].
  destruct Hl as [Ht Hn]. specialize (Hn names eq_refl).
  assert (Hp : preserves kept_t (for_each names (collectReplay exec digestOf store directory instanceId))).
  { apply triple_for_each_all. intros name Hin. apply kept_replay. rewrite Forall_forall in Hn. by apply Hn, list_elem_of_In. }
  exact (Hp (t', counted) Ht).
Qed.

Lemma kept_prune : preserves kept_t (pruneReplays exec directory).
Proof.
  unfold pruneReplays. apply preserves_catch; [|auto with mcc].
  apply preserves_bind; [|auto with mcc]. apply ruled_tallies, ruled_exec. intros t. apply Hallowed, prunes_replays.
Qed.

Lemma kept_measure names : preserves kept_t (measureMailerState exec instanceId names).
Proof.
  unfold measureMailerState. destruct (mailerDatabase names); [|auto with mcc]. destruct (mailerIgnoreList names); [|auto with mcc].
  apply (kept_command kept_t). intros state Hs. apply preserves_catch; [|auto with mcc]. apply preserves_bind.
  - apply ruled_tallies, ruled_exec. intros t. apply Hallowed. by apply measures_mailer.
  - intros result. repeat case_match; auto with mcc.
Qed.

Lemma kept_sweep documents instance :
  instanceDir (ci_id instance) = Ok root -> ci_id instance = instanceId ->
  preserves kept_t (sweep_instance exec digestOf parse store stillCollecting documents instance).
Proof.
  intros Hroot Hi. unfold sweep_instance. apply (kept_command kept_t). intros dir Hdir. rewrite Hroot in Hdir. injection Hdir as <-.
  rewrite Hi. apply preserves_bind; [destruct (playerList _); auto using kept_list with mcc|].
  intros _. apply preserves_bind; [auto with mcc|]. intros [|]; [|auto with mcc].
  apply preserves_bind; [exact kept_replays|]. intros _. apply preserves_bind; [exact kept_prune|]. intros _. apply kept_measure.
Qed.
End one_bot.

(** The commands of a sweep of [instances]. *)
Definition in_sweep (instances : list Collecting) (before : list Event) (command : string) : Prop :=
  exists instance root, In instance instances /\ instanceDir (ci_id instance) = Ok root
    /\ permitted (root +:+ "/" +:+ layout_replays) (ci_id instance) before command.

Lemma swept_bots instances documents some :
  incl some instances ->
  preserves (ruled (in_sweep instances)) (sweepHostArtifacts exec digestOf parse store stillCollecting some documents).
Proof.
  induction some as [|instance rest IH]; intros Hin; cbn [sweepHostArtifacts]; [auto with mcc|].
  apply preserves_bind; [apply ruled_asks|]. intros [|]; cbn [negb]; [|auto with mcc].
  apply preserves_bind; [|intros c; apply preserves_bind; [apply IH; intros x Hx; by apply Hin; right|auto with mcc]].
  intros t Ht. unfold tallied. set (sweep := sweep_instance _ _ _ _ _ _ _).
  assert (Hp : preserves (fun s : list Event * Tally => ruled (in_sweep instances) s.1) sweep).
  { destruct (instanceDir (ci_id instance)) as [root|e] eqn:Er.
    - apply (kept_sweep _ root (ci_id instance)); [|done..]. intros before command Hc. exists instance, root.
      split; [by apply Hin; left|done].
    - unfold sweep, sweep_instance. rewrite Er. by intros s Hs. }
  specialize (Hp (t, emptyTally) Ht). by destruct (sweep (t, emptyTally)) as [[u|e] [t' c]].
Qed.

(** C33: however the machine and the database answer, a sweep of the bots of a
    machine runs no command but those of [permitted].  Two of them remove
    replays: one removes a replay that was read just before and of which exactly
    what was read was stored; the other, run once for each bot whatever was
    stored, deletes the replays that are more than [REPLAY_KEEP_DAYS] old. *)
Theorem replays_are_removed_once_stored_or_old instances documents before command answer after :
  (sweepHostArtifacts exec digestOf parse store stillCollecting instances documents []).2 = before ++ Ran command answer :: after ->
  in_sweep instances before command.
Proof.
  assert (H0 : ruled (in_sweep instances) []) by (intros before' ? ? ? H; by destruct before').
  pose proof (swept_bots instances documents instances (incl_refl _) [] H0) as H.
  destruct (sweepHostArtifacts _ _ _ _ _ _ _ _) as [[sweeps|e] t]; cbn [snd]; apply H.
Qed.
End Sweeping.

(** A machine with one replay of five bytes, of which it says three before it
    fails. *)
Definition failing_machine (t : list Event) (command : string) : result ExecResult :=
  if startsWith "find " command then Ok (MkExec 0 ("state/first.mcpr" +:+ newline) EmptyString)
  else if startsWith "dd " command then Ok (MkExec 1 (base64 [1; 2; 3]) EmptyString)
  else Ok (MkExec 0 EmptyString EmptyString).

Definition plain_digest (content : list Z) : string := join_with "," (map decimal content).

Definition swept_trace : list Event :=
  (sweepHostArtifacts (exec failing_machine) plain_digest (fun _ => Ok (t_table []))
     (store (fun _ _ _ => Ok tt) (fun _ _ _ _ => Ok tt) (fun _ _ _ => Ok true)) (stillCollecting (fun _ => Ok true))
     [MkCollecting "bot" "0" EMPTY_FINGERPRINT "0"] ∅ []).2.

Definition first_replay : string :=
  path_of (match instanceDir "bot" with Ok root => root | Throw _ => "" end +:+ "/" +:+ layout_replays) "first.mcpr".

Definition removal : Event := Ran ("rm -f " +:+ first_replay) (Ok (MkExec 0 EmptyString EmptyString)).

Lemma replays_are_removed_once_stored_or_old_witness :
  let before := take 6 swept_trace in
  swept_trace = before ++ removal :: drop 7 swept_trace
  /\ in_sweep plain_digest [MkCollecting "bot" "0" EMPTY_FINGERPRINT "0"] before ("rm -f " +:+ first_replay).
Proof.
  assert (E : swept_trace = take 6 swept_trace ++ removal :: drop 7 swept_trace) by (vm_compute; reflexivity).
  split; [exact E|].
  exact (replays_are_removed_once_stored_or_old failing_machine (fun _ _ _ => Ok tt) (fun _ _ _ _ => Ok tt) (fun _ _ _ => Ok true)
           (fun _ => Ok true) plain_digest (fun _ => Ok (t_table [])) _ _ _ _ _ _ E).
Defined.

(** What was read before a reading failed is stored and the replay removed: the
    outcome of the reading is not looked at. *)
Theorem a_replay_read_in_part_is_removed :
  exists response,
    exitCode response <> 0
    /\ In (Ran (readReplayCommand first_replay) (Ok response)) swept_trace
    /\ In removal swept_trace.
Proof.
  exists (MkExec 1 (base64 [1; 2; 3]) EmptyString). split; [done|]. split; vm_compute; auto 10.
Qed.

(** Content that equals what was stored before is not stored again, and goes
    with what was: here the list of players is read on, and what was read is
    removed the same day. *)
Theorem what_was_collected_today_is_removed_today :
  let day := 24 * 60 * 60 * 1000 in
  let old := MkRow "a" "org" "bot" kind_playerList [1; 2; 3] "digest" 3 0 in
  let today := 31 * day in
  let t := MkTable [old] [MkCursorRow "org" "bot" 0 EMPTY_FINGERPRINT 7] in
  exists t',
    storeAndAdvance "b" "org" (MkArtifactValues "bot" kind_playerList [1; 2; 3] "digest" today) (MkCursor 0 "after" 7) t = (Ok tt, t')
    /\ map playerListOffset (cursors t') = [3]
    /\ artifacts (deleteCollectedBefore "org" (cutoffFor today ARTIFACT_RETENTION_DAYS) t').2 = [].
Proof. eexists. split; [vm_compute; reflexivity|]. split; vm_compute; reflexivity. Qed.
