(* ===== verification/Members.v ===== *)
(** The members of an organization.

    [member.controller.ts] and [member.repository.ts] of
    [packages/core/src/member]: who is a member, which invitations wait, and
    their removal.  A removal takes the lock of its organization first, so it is
    one step; who asks may have lost the role it was read with.  A theorem says
    that an organization keeps an owner, another what a removal leaves. *)

From S2P Require Import Prelude Tables Dates Shell TaskStore Access HostStore InstanceStore.

(** ** The tables *)

Record MemberRow := MkMember {
  mb_id : string; mb_organizationId : string; mb_userId : string; mb_role : string; mb_createdAt : Z }.

Record UserRow := MkUser { us_id : string; us_name : string; us_email : string }.

Record InvitationRow := MkInvitation {
  iv_id : string; iv_organizationId : string; iv_email : string; iv_role : option string; iv_status : string;
  iv_inviterId : string; iv_expiresAt : Z; iv_createdAt : Z }.

Definition with_status (status : string) (r : InvitationRow) : InvitationRow :=
  MkInvitation (iv_id r) (iv_organizationId r) (iv_email r) (iv_role r) status (iv_inviterId r) (iv_expiresAt r) (iv_createdAt r).

(** With the tables whose rows name members: machines, settings, the audit log. *)
Record MemberTables := MkTables {
  members : list MemberRow; users : list UserRow; invitations : list InvitationRow; fleet : FleetTables }.

Definition with_members (rows : list MemberRow) (t : MemberTables) : MemberTables := MkTables rows (users t) (invitations t) (fleet t).
Definition with_invitations (rows : list InvitationRow) (t : MemberTables) : MemberTables := MkTables (members t) (users t) rows (fleet t).
Definition with_fleet (x : FleetTables) (t : MemberTables) : MemberTables := MkTables (members t) (users t) (invitations t) x.
Definition with_audit (rows : AuditRepository.Table) (t : MemberTables) : MemberTables := with_fleet (with_audits rows (fleet t)) t.
Definition audit (t : MemberTables) : AuditRepository.Table := audits (fleet t).

(** The foreign keys to a member, when the member goes: who trusted the key of a
    machine, who wrote settings and who acted are set to null. *)
Section Forgotten.
Variables organizationId id : string.

Definition forgotten (rowOrganizationId : string) (value : option string) : option string :=
  if (rowOrganizationId ≡? organizationId) && (value ≡? Some id) then None else value.

Definition forget_trust (h : HostRow) : HostRow :=
  let trust := host_trust h in
  with_trust
    (MkTrust (hostKeyFingerprint trust) (hostKeyAlgorithm trust) (hostKeyTrustedAt trust)
      (forgotten (host_organizationId h) (hostKeyTrustedBy trust)) (hostKeyTrustedByLabel trust)) h.

Definition forget_author (c : InstanceConfigRow) : InstanceConfigRow :=
  MkInstanceConfig (ic_id c) (ic_organizationId c) (ic_instanceId c) (ic_version c) (ic_document c)
    (forgotten (ic_organizationId c) (ic_authorId c)) (ic_authorLabel c).

Definition forget_actor (e : AuditEventRow) : AuditEventRow :=
  MkAuditEvent (ae_id e) (ae_organizationId e) (forgotten (ae_organizationId e) (ae_actorId e)) (ae_actorLabel e) (ae_action e)
    (ae_subjectType e) (ae_subjectId e) (ae_detail e) (ae_createdAt e).

Definition forget_member (t : FleetTables) : FleetTables :=
  MkFleet (map forget_trust (hosts t)) (sshKeys t) (instances t) (map forget_author (configs t)) (schedules t) (commands t)
    (task_tables t) (map forget_actor (audits t)).
End Forgotten.

Module MemberRepository.

(** A member with what its user's row says. *)
Record Joined := MkJoined { jn_member : MemberRow; jn_name : string; jn_email : string }.

Definition membersWithUser (organizationId : string) (t : MemberTables) : list Joined :=
  omap (fun member => let? user := select_first (fun u => us_id u ≡? mb_userId member) (users t) in
                      Some (MkJoined member (us_name user) (us_email user)))
    (select (fun member => mb_organizationId member ≡? organizationId) (members t)).

(** The earliest first, then by id in the order of the database. *)
Definition earliest (id_le : string -> string -> bool) (a b : Z * string) : bool :=
  (a.1 <? b.1) || ((a.1 =? b.1) && id_le a.2 b.2).

Definition list_ (id_le : string -> string -> bool) (organizationId : string) (t : MemberTables) : list Joined :=
  let key j := (mb_createdAt (jn_member j), mb_id (jn_member j)) in
  order_by (fun a b => earliest id_le (key a) (key b)) (membersWithUser organizationId t).

Definition findById (organizationId id : string) (t : MemberTables) : option Joined :=
  select_first (fun j => mb_id (jn_member j) ≡? id) (membersWithUser organizationId t).

Definition is_owner_of (organizationId : string) (member : MemberRow) : bool :=
  (mb_organizationId member ≡? organizationId) && (mb_role member ≡? "owner").

Definition countOwners (organizationId : string) (t : MemberTables) : Z :=
  Z.of_nat (affected (is_owner_of organizationId) (members t)).

Definition is_member (organizationId id : string) (member : MemberRow) : bool :=
  (mb_organizationId member ≡? organizationId) && (mb_id member ≡? id).

Definition delete (organizationId id : string) (t : MemberTables) : bool * MemberTables :=
  let gone := affected (is_member organizationId id) (members t) in
  (0 <? Z.of_nat gone,
   if (gone =? 0)%nat then t
   else with_fleet (forget_member organizationId id (fleet t)) (with_members (delete_where (is_member organizationId id) (members t)) t)).

Definition pending (organizationId : string) (r : InvitationRow) : bool :=
  (iv_organizationId r ≡? organizationId) && (iv_status r ≡? "pending").

Definition listPendingInvitations (id_le : string -> string -> bool) (organizationId : string) (t : MemberTables) : list InvitationRow :=
  order_by (fun a b => earliest id_le (iv_createdAt a, iv_id a) (iv_createdAt b, iv_id b)) (select (pending organizationId) (invitations t)).

Definition cancel_where (p : InvitationRow -> bool) (t : MemberTables) : nat * MemberTables :=
  (affected p (invitations t), with_invitations (update_where p (with_status "canceled") (invitations t)) t).

Definition cancelInvitation (organizationId id : string) (t : MemberTables) : bool * MemberTables :=
  let (n, t') := cancel_where (fun r => pending organizationId r && (iv_id r ≡? id)) t in (0 <? Z.of_nat n, t').

Definition cancelInvitationsSentBy (organizationId userId : string) (t : MemberTables) : Z * MemberTables :=
  let (n, t') := cancel_where (fun r => pending organizationId r && (iv_inviterId r ≡? userId)) t in (Z.of_nat n, t').
End MemberRepository.
Import MemberRepository.

(** ** The requests *)

Definition isRole (value : string) : option Role :=
  List.find (fun role => role_text role ≡? value) [owner; operator; viewer].

Definition LastOwnerError (message : string) : thrown := ThrownError (NamedError "LastOwnerError") message.

Record MemberView := MkMemberView { mv_id : string; mv_name : string; mv_email : string; mv_role : Role; mv_self : bool }.

Record PendingInvitation := MkPending { pi_id : string; pi_email : string; pi_role : Role; pi_expiresAt : string }.

Definition requireMemberManage (ctx : ActorContext) : result unit :=
  if can (ctx_role ctx) member_manage then Ok tt else Throw (ForbiddenError "Forbidden: member.manage").

Section Controller.
Context {X : Type}.
Variable id_le : string -> string -> bool.
Variable newId : M X string.
Variable dbNow : Z.
Variable revokeSessions : string -> string -> M X unit.
Variable reportError : string -> thrown -> M X unit.

Abbreviation W := (MemberTables * X)%type.

Definition read {A} (f : MemberTables -> A) : M W A := on_fst (gets f).
Definition write {A} (f : MemberTables -> A * MemberTables) : M W A := on_fst (stmt f).

Definition withTransaction {A} (m : M W A) : M W A := transaction (fun before after => (before.1, after.2)) m.

Definition record (ctx : ActorContext) (action subjectType subjectId : string) (detail : list (string * string)) : M W unit :=
  let* auditId := on_snd newId in
  on_fst (fun t =>
    match AuditRepository.record (ctx_organizationId ctx) auditId dbNow
            (MkAuditEntry (Some (ctx_memberId ctx)) (ctx_actorLabel ctx) action subjectType subjectId detail) (audit t) with
    | (r, rows) => (r, with_audit rows t)
    end) ;;;
  ret tt.

Definition list_members (ctx : ActorContext) : M W (list MemberView) :=
  lift (requireMemberManage ctx) ;;;
  let* rows := read (list_ id_le (ctx_organizationId ctx)) in
  ret (omap (fun row => let member := jn_member row in
               let? role := isRole (mb_role member) in
               Some (MkMemberView (mb_id member) (jn_name row) (jn_email row) role (mb_id member ≡? ctx_memberId ctx))) rows).

Definition list_invitations (ctx : ActorContext) : M W (list PendingInvitation) :=
  lift (requireMemberManage ctx) ;;;
  let* rows := read (listPendingInvitations id_le (ctx_organizationId ctx)) in
  ret (omap (fun row => let? text := iv_role row in
               let? role := isRole text in
               Some (MkPending (iv_id row) (iv_email row) role (toISOString (iv_expiresAt row)))) rows).

Definition manages (caller : option Joined) : bool :=
  match caller with
  | None => false
  | Some caller => match isRole (mb_role (jn_member caller)) with None => false | Some role => can role member_manage end
  end.

(** What a removal does under the lock of its organization. *)
Definition removing (ctx : ActorContext) (memberId : string) : M W (option MemberRow) :=
  let scope := ctx_organizationId ctx in
  let* caller := read (findById scope (ctx_memberId ctx)) in
  if negb (manages caller) then throw (ForbiddenError "Forbidden: the caller no longer manages members")
  else
    let* found := read (findById scope memberId) in
    match found with
    | None => ret None
    | Some found =>
        let target := jn_member found in
        let* last :=
          if mb_role target ≡? "owner" then let* owners := read (countOwners scope) in ret (owners <=? 1) else ret false in
        if last then throw (LastOwnerError ("Member " +:+ memberId +:+ " is the organization's last owner"))
        else
          write (delete scope memberId) ;;;
          let* invitationsCancelled := write (cancelInvitationsSentBy scope (mb_userId target)) in
          record ctx "member.remove" "member" memberId
            [("email", jn_email found); ("role", mb_role target); ("invitationsCancelled", decimal invitationsCancelled)] ;;;
          ret (Some target)
    end.

Definition remove (ctx : ActorContext) (memberId : string) : M W bool :=
  lift (requireMemberManage ctx) ;;;
  if memberId ≡? ctx_memberId ctx then throw (ForbiddenError "Forbidden: an owner cannot remove themselves")
  else
    let* removed := withTransaction (removing ctx memberId) in
    match removed with
    | None => ret false
    | Some target =>
        try_catch (on_snd (revokeSessions (ctx_organizationId ctx) (mb_userId target)))
          (fun error => on_snd (reportError "Ending a removed member's sessions failed after the removal committed" error)) ;;;
        ret true
    end.

Definition cancelInvitation_request (ctx : ActorContext) (invitationId : string) : M W bool :=
  lift (requireMemberManage ctx) ;;;
  withTransaction (
    let* cancelled := write (cancelInvitation (ctx_organizationId ctx) invitationId) in
    (if cancelled : bool then record ctx "member.invite.cancel" "invitation" invitationId [] else ret tt) ;;;
    ret cancelled).
End Controller.

(** ** What removal leaves *)

(** [target] was removed from [t], and [t'] is left. *)
Record removed (ctx : ActorContext) (memberId : string) (target : MemberRow) (t t' : MemberTables) : Prop := MkRemoved {
  rm_asked : manages (findById (ctx_organizationId ctx) (ctx_memberId ctx) t) = true;
  rm_target : In target (members t) /\ is_member (ctx_organizationId ctx) memberId target = true;
  rm_owner : mb_role target = "owner" -> 1 < countOwners (ctx_organizationId ctx) t;
  rm_members : members t' = delete_where (is_member (ctx_organizationId ctx) memberId) (members t);
  rm_invitations : invitations t' =
    update_where (fun r => pending (ctx_organizationId ctx) r && (iv_inviterId r ≡? mb_userId target)) (with_status "canceled") (invitations t);
  rm_users : users t' = users t;
  rm_fleet : exists event, fleet t' = with_audits (map (forget_actor (ctx_organizationId ctx) memberId) (audit t) ++ [event])
                                       (forget_member (ctx_organizationId ctx) memberId (fleet t)) /\ ae_action event = "member.remove" /\ ae_subjectId event = memberId
             /\ ae_actorId event = Some (ctx_memberId ctx) /\ ae_organizationId event = ctx_organizationId ctx }.

Lemma found_member organizationId id t j :
  findById organizationId id t = Some j -> In (jn_member j) (members t) /\ is_member organizationId id (jn_member j) = true.
Proof.
  intros H. apply select_first_spec in H as [Hin Hid]. unfold membersWithUser in Hin.
  apply list_elem_of_In, list_elem_of_omap in Hin as (member & Hm & E). apply list_elem_of_In, filter_In in Hm as [Hm Ho].
  destruct (select_first _ (users t)); [|done]. injection E as <-. split; [done|]. unfold is_member. cbn in *. by rewrite Ho, Hid.
Qed.

Definition ids_are_unique (t : MemberTables) : Prop := unique_on (fun m => Some (mb_id m)) (members t).

Section Removal.
Context {X : Type}.
Variable newId : M X string.
Variable dbNow : Z.
Variable revokeSessions : string -> string -> M X unit.
Variable reportError : string -> thrown -> M X unit.
Abbreviation removing := (removing newId dbNow).
Abbreviation remove := (remove newId dbNow revokeSessions reportError).

(** What the record of an action adds. *)
Lemma recorded_event ctx action subjectType subjectId detail (t : MemberTables) (x : X) u t' x' :
  record newId dbNow ctx action subjectType subjectId detail (t, x) = (Ok u, (t', x')) ->
  exists event, t' = with_audit (audit t ++ [event]) t /\ ae_action event = action /\ ae_subjectId event = subjectId
    /\ ae_actorId event = Some (ctx_memberId ctx) /\ ae_organizationId event = ctx_organizationId ctx.
Proof.
  unfold record, bind, on_snd, on_fst, AuditRepository.record, lift, stmt, bind. cbn [fst snd].
  destruct (newId x) as [[auditId|e] x1]; [|done]. cbn [fst snd]. destruct (resolveActorLabel _) as [label|e]; [|done].
  intros [= _ <- _]. by eexists.
Qed.

Lemma removing_ok ctx memberId t x found t' x' :
  removing ctx memberId (t, x) = (Ok found, (t', x')) ->
  match found with None => t' = t | Some target => removed ctx memberId target t t' end.
Proof.
  unfold Members.removing. intros H. apply bind_ok in H as (caller & s1 & E1 & H). injection E1 as <- <-. cbn [fst snd] in H.
  destruct (manages _) eqn:Ec; [|done]. cbn [negb] in H. apply bind_ok in H as (j & s1 & E2 & H). injection E2 as <- <-. cbn [fst snd] in H.
  destruct (findById (ctx_organizationId ctx) memberId t) as [j|] eqn:Ej; [|by injection H as <- <- _].
  apply bind_ok in H as (last & s1 & E3 & H).
  assert (s1 = (t, x) /\ (mb_role (jn_member j) = "owner" -> last = (countOwners (ctx_organizationId ctx) t <=? 1))) as [-> Hlast].
  { destruct (mb_role (jn_member j) ≡? "owner") eqn:Er; injection E3 as <- <-; split; try done. intros Ho. tests. done. }
  destruct last; [done|]. apply bind_ok in H as (gone & s1 & E4 & H).
  destruct (found_member _ _ _ _ Ej) as [Hin Hm].
  assert (Hgone : (affected (is_member (ctx_organizationId ctx) memberId) (members t) =? 0)%nat = false).
  { apply Nat.eqb_neq. unfold affected, select. intros H0. assert (Hf : In (jn_member j) (List.filter (is_member (ctx_organizationId ctx) memberId) (members t))) by (by apply filter_In).
    destruct (List.filter _ _); [done|discriminate H0]. }
  unfold write, on_fst, stmt, delete in E4. cbn [fst snd] in E4. rewrite Hgone in E4. injection E4 as _ <-. cbn [fst snd] in H.
  apply bind_ok in H as (n & s1 & E5 & H). unfold write, on_fst, stmt, cancelInvitationsSentBy in E5. cbn [fst snd cancel_where] in E5.
  injection E5 as _ <-. apply bind_ok in H as (u & [t1 x1] & E6 & H). injection H as <- <- _.
  apply recorded_event in E6 as (event & -> & He).
  constructor; try done.
  - intros Ho. specialize (Hlast Ho). lia.
  - exists event. done.
Qed.
(** How a removal ends. *)
Lemma remove_leaves ctx memberId t x r t' x' :
  remove ctx memberId (t, x) = (r, (t', x')) -> t' = t \/ exists target, removed ctx memberId target t t'.
Proof.
  unfold Members.remove, bind at 1, lift. destruct (requireMemberManage ctx) as [[]|e]; [|intros [= _ <- _]; by left].
  destruct (memberId ≡? ctx_memberId ctx); [intros [= _ <- _]; by left|].
  unfold bind at 1, withTransaction, transaction. destruct (removing ctx memberId (t, x)) as [[[target|]|e] [t1 x1]] eqn:E.
  - apply removing_ok in E. unfold bind, try_catch, on_snd. cbn [fst snd].
    destruct (revokeSessions _ _ x1) as [[[]|e] x2]; cbn [fst snd]; [|destruct (reportError _ _ x2) as [[[]|e'] x3]]; intros [= _ <- _]; eauto.
  - apply removing_ok in E. subst t1. intros [= _ <- _]. by left.
  - intros [= _ <- _]. by left.
Qed.

Lemma remove_ends ctx memberId t x r t' x' :
  (forall message e, answers (reportError message e)) -> remove ctx memberId (t, x) = (r, (t', x')) ->
  r = Ok true /\ (exists target, removed ctx memberId target t t') \/ r <> Ok true /\ t' = t.
Proof.
  intros Hr. unfold Members.remove, bind at 1, lift. destruct (requireMemberManage ctx) as [[]|e]; [|intros [= <- <- _]; by right].
  destruct (memberId ≡? ctx_memberId ctx); [intros [= <- <- _]; by right|].
  unfold bind at 1, withTransaction, transaction. destruct (removing ctx memberId (t, x)) as [[[target|]|e] [t1 x1]] eqn:E.
  - apply removing_ok in E. unfold bind, try_catch, on_snd. cbn [fst snd].
    destruct (revokeSessions _ _ x1) as [[[]|e] x2]; cbn [fst snd]; [intros [= <- <- _]; eauto|].
    destruct (Hr "Ending a removed member's sessions failed after the removal committed" e x2) as (u & x3 & ->). intros [= <- <- _]; eauto.
  - apply removing_ok in E. subst t1. intros [= <- <- _]. by right.
  - intros [= <- <- _]. by right.
Qed.

(** A member who is removed is gone with every invitation of theirs that
    waited, by a caller whose row in the table is an owner's at that moment, and
    nothing else changes but that rows no longer name who they were and one event
    of the audit log is added; a removal
    that answers otherwise, or throws, changes nothing. *)
Theorem removal_is_whole ctx memberId t x r t' x' :
  (forall message e, answers (reportError message e)) ->
  ids_are_unique t ->
  remove ctx memberId (t, x) = (r, (t', x')) ->
  match r with
  | Ok true =>
      (exists caller, In caller (members t) /\ is_member (ctx_organizationId ctx) (ctx_memberId ctx) caller = true /\ mb_role caller = "owner")
      /\ (exists target, In target (members t) /\ is_member (ctx_organizationId ctx) memberId target = true
          /\ (forall member, In member (members t') <-> In member (members t) /\ member <> target)
          /\ (forall i, In i (invitations t') -> pending (ctx_organizationId ctx) i = true -> iv_inviterId i <> mb_userId target /\ In i (invitations t)))
      /\ users t' = users t
      /\ exists event, fleet t' = with_audits (map (forget_actor (ctx_organizationId ctx) memberId) (audit t) ++ [event])
                                   (forget_member (ctx_organizationId ctx) memberId (fleet t)) /\ ae_action event = "member.remove" /\ ae_subjectId event = memberId
           /\ ae_actorId event = Some (ctx_memberId ctx)
  | _ => t' = t
  end.
Proof.
  intros Hr Hids E. apply remove_ends in E as [[-> [target H]]|[Hn ->]]; [|by destruct r as [[|]|e]|done].
  split; [|split; [|split; [exact (rm_users _ _ _ _ _ H)|]]].
  - pose proof (rm_asked _ _ _ _ _ H) as Hm. unfold manages in Hm. destruct (findById _ _ t) as [caller|] eqn:Ef; [|done].
    apply found_member in Ef as [Hin Hid]. exists (jn_member caller). split; [done|]. split; [done|].
    destruct (isRole (mb_role (jn_member caller))) as [role|] eqn:Er; [|done]. unfold isRole in Er.
    apply find_some in Er as [_ Er]. tests. subst. by destruct role.
  - exists target. destruct (rm_target _ _ _ _ _ H) as [Hin Hid]. split; [done|]. split; [done|]. split.
    + intros member. rewrite (rm_members _ _ _ _ _ H), in_delete_where. split; intros [Hm Hn]; (split; [done|]); [by intros ->; congruence|].
      destruct (is_member _ _ member) eqn:Em; [|done]. exfalso. apply Hn. unfold is_member in Em, Hid. tests.
      apply (unique_on_eq _ (members t) memberId _ _ Hids); [done..| |]; congruence.
    + intros i Hi Hp. rewrite (rm_invitations _ _ _ _ _ H) in Hi. apply in_update_where in Hi as (i0 & Hi0 & ->).
      destruct (pending (ctx_organizationId ctx) i0 && _) eqn:Ei; [by apply andb_prop in Hp as [_ Hp]|]. rewrite Hp in Ei. split; [|done].
      intros E. by rewrite E, bool_decide_eq_true_2 in Ei.
  - destruct (rm_fleet _ _ _ _ _ H) as (event & Ha & H1 & H2 & H3 & _). by exists event.
Qed.
(** ** An owner stays *)

Definition has_owner (organizationId : string) (t : MemberTables) : Prop :=
  exists member, In member (members t) /\ is_owner_of organizationId member = true.

Inductive Request := ask_remove (ctx : ActorContext) (memberId : string) | ask_cancel (ctx : ActorContext) (invitationId : string).

Definition carry_out (s : MemberTables * X) (request : Request) : MemberTables * X :=
  match request with
  | ask_remove ctx memberId => (remove ctx memberId s).2
  | ask_cancel ctx invitationId => (cancelInvitation_request newId dbNow ctx invitationId s).2
  end.

Definition carry_out_all (requests : list Request) (s : MemberTables * X) : MemberTables * X := fold_left carry_out requests s.

(** Of two rows at least one is another. *)
Lemma another_row (p : MemberRow -> bool) l a :
  unique_on (fun m => Some (mb_id m)) l -> (2 <= affected p l)%nat -> exists b, In b l /\ p b = true /\ mb_id b <> mb_id a.
Proof.
  intros Hu H. unfold affected in H. destruct (existsb (fun b => p b && negb (mb_id b ≡? mb_id a)) l) eqn:E.
  - apply existsb_exists in E as (b & Hb & Hp). tests. by exists b.
  - exfalso. assert (Hle : (length (select p l) <= 1)%nat); [|lia].
    transitivity (length (select (fun m => mb_id m ≡? mb_id a) l)).
    + clear Hu H. induction l as [|x l IH]; [done|]. unfold select in *. simpl in *. apply orb_false_iff in E as [E1 E2]. specialize (IH E2).
      destruct (p x), (mb_id x ≡? mb_id a); simpl in *; try done; lia.
    + apply (unique_on_select_le_1 _ _ (mb_id a) _ Hu). intros r Hr. tests. congruence.
Qed.

Lemma removal_keeps_an_owner organizationId ctx memberId target t t' :
  ids_are_unique t -> removed ctx memberId target t t' -> has_owner organizationId t -> ids_are_unique t' /\ has_owner organizationId t'.
Proof.
  intros Hu H (member & Hin & Ho). destruct (rm_target _ _ _ _ _ H) as [Ht Hid]. pose proof (rm_members _ _ _ _ _ H) as Hm.
  split; [unfold ids_are_unique; rewrite Hm; by apply unique_on_delete|].
  destruct (is_member (ctx_organizationId ctx) memberId member) eqn:Em; [|exists member; rewrite Hm, in_delete_where; done].
  assert (E : member = target) by (apply (unique_on_eq _ (members t) memberId _ _ Hu Hin Ht); unfold is_member in Em, Hid; tests; congruence).
  subst member. assert (Hrole : mb_role target = "owner" /\ organizationId = ctx_organizationId ctx).
  { unfold is_owner_of in Ho. unfold is_member in Hid. tests. split; congruence. }
  destruct Hrole as [Hr ->]. pose proof (rm_owner _ _ _ _ _ H Hr) as Hc. unfold countOwners in Hc.
  destruct (another_row (is_owner_of (ctx_organizationId ctx)) (members t) target Hu) as (other & Hio & Hoo & Hne); [lia|].
  exists other. rewrite Hm, in_delete_where. split; [|done]. split; [done|]. apply not_true_iff_false. intros Hb.
  unfold is_member in Hb, Hid. tests. congruence.
Qed.

Lemma cancel_keeps_members ctx invitationId s : members (cancelInvitation_request newId dbNow ctx invitationId s).2.1 = members s.1.
Proof.
  destruct s as [t x]. unfold cancelInvitation_request, bind at 1, lift. destruct (requireMemberManage ctx) as [[]|e]; [|done].
  unfold withTransaction, transaction. destruct (bind _ _ (t, x)) as [[b|e] [t' x']] eqn:E; [|done]. cbn.
  apply bind_ok in E as (cancelled & s1 & E1 & E). unfold write, on_fst, stmt in E1. cbn [fst snd] in E1. injection E1 as _ <-. cbn [fst snd] in E.
  apply bind_ok in E as ([] & [t1 x1] & E2 & E). injection E as _ <- _. destruct cancelled; [|by injection E2 as <- _].
  apply recorded_event in E2 as (event & -> & _). done.
Qed.

(** C28: Whoever asks for whatever removals and cancellations, in whatever order
    and with whatever role they were read with, an organization that has an
    owner keeps one. *)
Theorem organizations_keep_an_owner organizationId requests t x :
  ids_are_unique t -> has_owner organizationId t -> has_owner organizationId (carry_out_all requests (t, x)).1.
Proof.
  intros Hu Ho. unfold carry_out_all. set (s := (t, x)). assert (H : ids_are_unique s.1 /\ has_owner organizationId s.1) by done.
  clearbody s. clear Hu Ho t x. revert s H. induction requests as [|request requests IH]; intros s [Hu Ho]; [done|]. simpl. apply IH.
  destruct request as [ctx memberId|ctx invitationId]; simpl.
  - destruct s as [t x], (remove ctx memberId (t, x)) as [r [t' x']] eqn:E. cbn in *.
    destruct (remove_leaves _ _ _ _ _ _ _ E) as [->|[target H]]; [done|]. by eapply removal_keeps_an_owner.
  - unfold ids_are_unique, has_owner. by rewrite cancel_keeps_members.
Qed.
End Removal.

Definition two_owners : MemberTables :=
  MkTables
    [MkMember "m1" "org" "u1" "owner" 1; MkMember "m2" "org" "u2" "owner" 2; MkMember "m3" "org" "u3" "viewer" 3]
    [MkUser "u1" "Ada" "ada@example.org"; MkUser "u2" "Ben" "ben@example.org"; MkUser "u3" "Cy" "cy@example.org"]
    [MkInvitation "i1" "org" "dee@example.org" (Some "viewer") "pending" "u2" 9 4] (MkFleet [] [] [] [] [] [] (MkTaskTables [] [] [] [] [] []) []).

Definition by_owner (memberId : string) : ActorContext := MkActor "org" memberId "an owner" owner.

Definition fresh_id : M nat string := fun n => (Ok ("e" +:+ decimal (Z.of_nat n)), S n).
Definition ended (organizationId userId : string) : M nat unit := throw (internal "no sessions").
Definition reported (message : string) (e : thrown) : M nat unit := ret tt.

(** Two owners who remove each other at once. *)
Definition both_at_once : list Request := [ask_remove (by_owner "m1") "m2"; ask_remove (by_owner "m2") "m1"].

Lemma organizations_keep_an_owner_witness :
  let t := (carry_out_all fresh_id 7 ended reported both_at_once (two_owners, 0%nat)).1 in
  map mb_id (members t) = ["m1"; "m3"] /\ has_owner "org" t.
Proof.
  split; [vm_compute; reflexivity|].
  apply (organizations_keep_an_owner fresh_id 7 ended reported "org" both_at_once two_owners 0%nat).
  - unfold ids_are_unique, unique_on. cbn. repeat constructor; set_solver.
  - exists (MkMember "m1" "org" "u1" "owner" 1). split; [by left|reflexivity].
Defined.

Lemma removal_is_whole_witness :
  exists t x, remove fresh_id 7 ended reported (by_owner "m1") "m2" (two_owners, 0%nat) = (Ok true, (t, x))
  /\ users t = users two_owners /\ map iv_status (invitations t) = ["canceled"].
Proof.
  assert (Hu : ids_are_unique two_owners) by (unfold ids_are_unique, unique_on; cbn; repeat constructor; set_solver).
  destruct (remove fresh_id 7 ended reported (by_owner "m1") "m2" (two_owners, 0%nat)) as [r [t x]] eqn:E.
  pose proof (removal_is_whole fresh_id 7 ended reported (by_owner "m1") "m2" two_owners 0%nat r t x
    (fun message e s => ex_intro _ tt (ex_intro _ s eq_refl)) Hu E) as H.
  vm_compute in E. injection E as <- <- <-. destruct H as (_ & _ & Hus & _). eexists _, _. split; [reflexivity|]. split; [exact Hus|reflexivity].
Defined.
