(* ===== verification/ReleaseNotes.v ===== *)
(** The notes of a release, as they are shown.

    [packages/core/src/system/release-notes.ts]: a small Markdown is read into
    blocks and spans, each with where it starts.  A text is the list of its code
    units; [word] is the class of letters and digits of one unit.  The loops take
    the length of what they read as fuel; theorems say that it is enough, that
    starts grow, and that what is shown is bounded. *)

From S2P Require Import Prelude Tables Dates StatusKinds StatusStore NotificationStore Announce Egress Payloads Outcome Delivery Mcp Destinations InstanceStore Senders.

Definition RELEASE_NOTE_MAX_BLOCKS : nat := 500.
Definition RELEASE_NOTE_MAX_BLOCK_CHARS : nat := 2000.

(** ** Code units *)

Abbreviation Units := (list Z).

Definition u (c : Ascii.ascii) : Z := Z.of_nat (Ascii.nat_of_ascii c).

Definition BACKTICK : Z := 96.
Definition TILDE : Z := 126.
Definition NEWLINE : Z := 10.
Definition RETURN : Z := 13.
Definition SPACE : Z := 32.
Definition TAB : Z := 9.
Definition BACKSLASH : Z := 92.

(** [\s], and what [trim] takes off *)
Definition white (c : Z) : bool :=
  ((9 <=? c) && (c <=? 13)) || ((8192 <=? c) && (c <=? 8202))
  || bool_decide (c ∈ [32; 160; 5760; 8232; 8233; 8239; 8287; 12288; 65279]).

Definition blank_unit (c : Z) : bool := (c =? SPACE) || (c =? TAB).

(** A point of a pair of surrogates, or of a unit. *)
Fixpoint points_of (units : Units) : Text :=
  match units with
  | [] => []
  | a :: rest =>
      match rest with
      | b :: rest' =>
          if (55296 <=? a) && (a <=? 56319) && (56320 <=? b) && (b <=? 57343)
          then (65536 + (a - 55296) * 1024 + (b - 56320)) :: points_of rest' else a :: points_of rest
      | [] => [a]
      end
  end.

Definition units_of (text : Text) : Units :=
  flat_map (fun p => if p <? 65536 then [p] else [55296 + (p - 65536) / 1024; 56320 + (p - 65536) mod 1024]) text.

(** [truncateChars(text, max)] *)
Definition truncated_units (text : Units) (max : nat) : Units := units_of (truncateChars (points_of text) max).

Fixpoint take_while (p : Z -> bool) (units : Units) : Units :=
  match units with c :: rest => if p c then c :: take_while p rest else [] | [] => [] end.

Definition drop_while (p : Z -> bool) (units : Units) : Units := drop (length (take_while p units)) units.

(** [source[at - 1]], nothing before the first *)
Definition before (source : Units) (at_ : nat) : option Z := match at_ with O => None | S i => source !! i end.

(** [source.slice(from, to)] *)
Definition slice (source : Units) (from to : nat) : Units := take (to - from) (drop from source).

Definition starts_at (mark source : Units) (at_ : nat) : bool := bool_decide (take (length mark) (drop at_ source) = mark).

(** Where [p] first holds, from [from] on. *)
Definition first_at (p : nat -> bool) (source : Units) (from : nat) : option nat :=
  List.find p (seq from (S (length source) - from)).

(** [source.indexOf(mark, from)] *)
Definition indexOf (mark source : Units) (from : nat) : option nat := first_at (starts_at mark source) source from.

(** ** Spans *)

Inductive ReleaseNoteSpan :=
  | s_text (start : nat) (text : Units)
  | s_bold (start : nat) (text : Units)
  | s_italic (start : nat) (text : Units)
  | s_code (start : nat) (text : Units)
  | s_link (start : nat) (label url : Units).

Definition span_start (span : ReleaseNoteSpan) : nat :=
  match span with s_text start _ | s_bold start _ | s_italic start _ | s_code start _ | s_link start _ _ => start end.

Section Inline.
Variable word : Z -> bool.

Definition isWord (c : option Z) : bool := match c with Some c => word c | None => false end.
Definition isSpace (c : option Z) : bool := match c with Some c => white c | None => true end.

(** [/^[!-/:-@[-`{-~]$/] *)
Definition ESCAPABLE (c : option Z) : bool :=
  match c with
  | Some c => ((33 <=? c) && (c <=? 47)) || ((58 <=? c) && (c <=? 64)) || ((91 <=? c) && (c <=? 96)) || ((123 <=? c) && (c <=? 126))
  | None => false
  end.

(** A mark that may close: not after a blank, no part of a longer mark, and for
    [_] not before a letter. *)
Definition closes (mark source : Units) (at_ : nat) : bool :=
  match mark with
  | [] => false
  | char :: _ =>
      negb (isSpace (before source at_))
      && negb ((length mark =? 1)%nat && (bool_decide (before source at_ = Some char) || bool_decide (source !! (at_ + 1)%nat = Some char)))
      && negb ((char =? u "_") && isWord (source !! (at_ + length mark)%nat))
  end.

Definition findEmphasisClose (source mark : Units) (from : nat) : option nat :=
  first_at (fun at_ => starts_at mark source at_ && closes mark source at_) source from.

Definition backtickRunAt (source : Units) (at_ : nat) : nat := length (take_while (fun c => c =? BACKTICK) (drop at_ source)).

(** Each turn passes a run of backticks. *)
Fixpoint find_close (fuel : nat) (source : Units) (at_ run : nat) : option nat :=
  match fuel with
  | O => None
  | S fuel =>
      let? at_ := indexOf [BACKTICK] source at_ in
      let found := backtickRunAt source at_ in
      if (found =? run)%nat then Some at_ else find_close fuel source (at_ + found) run
  end.

Definition findBacktickClose (source : Units) (from run : nat) : option nat := find_close (S (length source)) source from run.

(** [LINK] at [at_]: its label, its address and its length. *)
Definition link_at (source : Units) (at_ : nat) : option (Units * Units * nat) :=
  match drop at_ source with
  | bracket :: rest =>
      let label := take_while (fun c => negb (bool_decide (c ∈ [u "["; u "]"; NEWLINE]))) rest in
      match drop (length label) rest with
      | close :: open :: rest' =>
          let url := take_while (fun c => negb (bool_decide (c ∈ [u "("; u ")"]) || white c)) rest' in
          match drop (length url) rest' with
          | last :: _ =>
              if (bracket =? u "[") && (close =? u "]") && (open =? u "(") && (last =? u ")")
              then Some (label, url, length label + length url + 4)%nat else None
          | [] => None
          end
      | _ => None
      end
  | [] => None
  end.

(** [IMAGE] at [at_]: its length. *)
Definition image_at (source : Units) (at_ : nat) : option nat :=
  if bool_decide (source !! at_ = Some (u "!")) then let? (_, n) := link_at source (S at_) in Some (S n) else None.

(** What was read: the spans, and the plain text that is not one yet. *)
Record Inline := MkInline { spans : list ReleaseNoteSpan; plain : Units; plainStart : nat }.

Definition addPlain (value : Units) (at_ : nat) (s : Inline) : Inline :=
  MkInline (spans s) (plain s ++ value) (if (length (plain s) =? 0)%nat then at_ else plainStart s).

Definition flush (s : Inline) : Inline :=
  MkInline (if (0 <? length (plain s))%nat then spans s ++ [s_text (plainStart s) (plain s)] else spans s) [] (plainStart s).

Definition push_span (span : ReleaseNoteSpan) (s : Inline) : Inline :=
  let s := flush s in MkInline (spans s ++ [span]) (plain s) (plainStart s).

Definition code_text (inner : Units) : Units :=
  let padded := (2 <? length inner)%nat && bool_decide (inner !! 0%nat = Some SPACE) && bool_decide (last inner = Some SPACE) in
  if padded then slice inner 1 (length inner - 1) else inner.

(** One turn, at a unit that is there: what comes next, and from where. *)
Definition inline_step (source : Units) (at_ : nat) (char : Z) (s : Inline) : nat * Inline :=
  let next := source !! S at_ in
  let plainly := (S at_, addPlain [char] at_ s) in
  if (char =? BACKSLASH) && ESCAPABLE next then ((at_ + 2)%nat, addPlain (from_option (fun c => [c]) [] next) at_ s)
  else if char =? BACKTICK then
    let run := backtickRunAt source at_ in
    match findBacktickClose source (at_ + run) run with
    | None => ((at_ + run)%nat, addPlain (repeat BACKTICK run) at_ s)
    | Some close => ((close + run)%nat, push_span (s_code at_ (code_text (slice source (at_ + run) close))) s)
    end
  else
    match (if char =? u "!" then image_at source at_ else None) with
    | Some n => ((at_ + n)%nat, addPlain (slice source at_ (at_ + n)) at_ s)
    | None =>
        match (if char =? u "[" then link_at source at_ else None) with
        | Some (label, url, n) => ((at_ + n)%nat, push_span (s_link at_ label url) s)
        | None =>
            if (char =? u "*") || (char =? u "_") then
              let mark := if bool_decide (next = Some char) then [char; char] else [char] in
              let start := (at_ + length mark)%nat in
              let opens := negb (isSpace (source !! start)) && negb ((char =? u "_") && isWord (before source at_)) in
              match (if opens then findEmphasisClose source mark (S start) else None) with
              | None => (start, addPlain mark at_ s)
              | Some close =>
                  ((close + length mark)%nat,
                   push_span ((if (length mark =? 2)%nat then s_bold else s_italic) at_ (slice source start close)) s)
              end
            else plainly
        end
    end.

Fixpoint inline_loop (fuel : nat) (source : Units) (at_ : nat) (s : Inline) : option Inline :=
  match source !! at_ with
  | None => Some s
  | Some char =>
      match fuel with
      | O => None
      | S fuel => let (at_, s) := inline_step source at_ char s in inline_loop fuel source at_ s
      end
  end.

Definition parse_inline (source : Units) : option (list ReleaseNoteSpan) :=
  option_map (fun s => spans (flush s)) (inline_loop (length source) source 0 (MkInline [] [] 0)).

Definition parseInline (source : Units) : list ReleaseNoteSpan := default [] (parse_inline source).
End Inline.

(** ** Lines *)

(** [source.replace(/\r\n?/g, "\n")] *)
Fixpoint line_ends (source : Units) : Units :=
  match source with
  | [] => []
  | c :: rest =>
      if c =? RETURN then
        NEWLINE :: match rest with d :: rest' => if d =? NEWLINE then line_ends rest' else line_ends rest | [] => [] end
      else c :: line_ends rest
  end.

(** [source.split("\n")], each line with where it starts. *)
Fixpoint lines_from (start : nat) (source : Units) : list (nat * Units) :=
  match source with
  | [] => [(start, [])]
  | c :: rest =>
      if c =? NEWLINE then (start, []) :: lines_from (S start) rest
      else
        match lines_from (S start) rest with
        | (_, line) :: lines => (start, c :: line) :: lines
        | [] => [(start, [c])]
        end
  end.

Definition isBlank (line : Units) : bool := forallb white line.

Definition ends_of (p : Z -> bool) (value : Units) : Units := rev (drop_while p (rev value)).
Definition trimSpaceEnd (value : Units) : Units := ends_of blank_unit value.

Definition headingTextOf (raw : Units) : Units :=
  let text := trimSpaceEnd raw in
  let rest := ends_of (fun c => c =? u "#") text in
  if (length rest =? length text)%nat then text
  else
    match last rest with
    | None => []
    | Some before => if blank_unit before then trimSpaceEnd rest else text
    end.

(** The line without the three spaces at most that may come first. *)
Definition unindented (line : Units) : Units := drop (Nat.min 3 (length (take_while (fun c => c =? SPACE) line))) line.

(** [FENCE_OPEN]: the mark of a fence. *)
Definition FENCE_OPEN (line : Units) : option Units :=
  match unindented line with
  | c :: rest =>
      let mark := take_while (fun d => d =? c) (c :: rest) in
      if ((c =? BACKTICK) || (c =? TILDE)) && (3 <=? length mark)%nat then Some mark else None
  | [] => None
  end.

Definition closesFence (line mark : Units) : bool :=
  let trimmed := ends_of white (unindented line) in
  (length mark <=? length trimmed)%nat && forallb (fun each => bool_decide (Some each = mark !! 0%nat)) trimmed.

(** [INDENTED], what follows the indentation. *)
Definition INDENTED (line : Units) : option Units :=
  match line with
  | c :: rest =>
      if c =? TAB then Some rest
      else if Nat.leb 4 (length (take_while (fun c => c =? SPACE) line)) then Some (drop 4 line) else None
  | [] => None
  end.

(** The text after one blank or more; [None] where there is none. *)
Definition after_blanks (rest : Units) : option Units :=
  if (0 <? length (take_while blank_unit rest))%nat then Some (drop_while blank_unit rest) else None.

Definition HEADING (line : Units) : option Units :=
  let line := unindented line in
  let level := length (take_while (fun c => c =? u "#") line) in
  if (1 <=? level)%nat && (level <=? 6)%nat then after_blanks (drop level line) else None.

Definition BULLET (line : Units) : option Units :=
  match line with
  | c :: rest => if bool_decide (c ∈ [u "-"; u "*"; u "+"]) then after_blanks rest else None
  | [] => None
  end.

Definition digit_unit (c : Z) : bool := (48 <=? c) && (c <=? 57).

Definition NUMBERED (line : Units) : option (Units * Units) :=
  let number := take_while digit_unit line in
  if (1 <=? length number)%nat && (length number <=? 9)%nat then
    match drop (length number) line with
    | c :: rest => if (c =? u ".") || (c =? u ")") then let? text := after_blanks rest in Some (number, text) else None
    | [] => None
    end
  else None.

(** ** Blocks *)

Inductive ReleaseNoteBlock :=
  | b_heading (start : nat) (spans : list ReleaseNoteSpan)
  | b_paragraph (start : nat) (spans : list ReleaseNoteSpan)
  | b_bullet (start : nat) (spans : list ReleaseNoteSpan)
  | b_numbered (start : nat) (number : Units) (spans : list ReleaseNoteSpan)
  | b_code (start : nat) (text : Units).

Definition block_start (block : ReleaseNoteBlock) : nat :=
  match block with
  | b_heading start _ | b_paragraph start _ | b_bullet start _ | b_numbered start _ _ | b_code start _ => start
  end.

Record ParsedReleaseNotes := MkNotes { blocks : list ReleaseNoteBlock; capped : bool }.

Section Blocks.
Variable word : Z -> bool.
Abbreviation parseInline := (parseInline word).

(** The notes so far, and the paragraph that is being read. *)
Record Reading := MkReading { notes : ParsedReleaseNotes; paragraph : list Units; paragraphStart : nat }.

(** [bounded] of a text, and whether that cut it. *)
Definition bounded (text : Units) : Units * bool :=
  let kept := truncated_units text RELEASE_NOTE_MAX_BLOCK_CHARS in (kept, negb (bool_decide (kept = text))).

Definition push (cut : bool) (block : ReleaseNoteBlock) (r : Reading) : Reading :=
  let n := notes r in
  MkReading
    (if (RELEASE_NOTE_MAX_BLOCKS <=? length (blocks n))%nat then MkNotes (blocks n) true
     else MkNotes (blocks n ++ [block]) (capped n || cut))
    (paragraph r) (paragraphStart r).

Definition joined_lines (lines : list Units) : Units :=
  match lines with [] => [] | line :: lines => line ++ flat_map (fun line => NEWLINE :: line) lines end.

Definition flushParagraph (r : Reading) : Reading :=
  match paragraph r with
  | [] => r
  | lines =>
      let (text, cut) := bounded (joined_lines lines) in
      let r := push cut (b_paragraph (paragraphStart r) (parseInline text)) r in
      MkReading (notes r) [] (paragraphStart r)
  end.

(** A block of one line, after the paragraph before it. *)
Definition push_line (block : list ReleaseNoteSpan -> ReleaseNoteBlock) (text : Units) (r : Reading) : Reading :=
  let (text, cut) := bounded text in push cut (block (parseInline text)) (flushParagraph r).

Definition push_code (start : nat) (body : list Units) (r : Reading) : Reading :=
  let (text, cut) := bounded (joined_lines body) in push cut (b_code start text) r.

(** The lines before the one that closes the fence, and those after it. *)
Fixpoint fenced (mark : Units) (lines : list (nat * Units)) : list Units * list (nat * Units) :=
  match lines with
  | [] => ([], [])
  | (_, line) :: rest =>
      if closesFence line mark then ([], rest) else let (body, rest) := fenced mark rest in (line :: body, rest)
  end.

(** The lines that are indented or blank, without the indentation. *)
Fixpoint indented (lines : list (nat * Units)) : list Units * list (nat * Units) :=
  match lines with
  | [] => ([], [])
  | (start, line) :: rest =>
      match INDENTED line with
      | Some text => let (body, rest) := indented rest in (text :: body, rest)
      | None => if isBlank line then let (body, rest) := indented rest in (line :: body, rest) else ([], lines)
      end
  end.

Fixpoint drop_blank (lines : list Units) : list Units :=
  match lines with line :: rest => if isBlank line then drop_blank rest else lines | [] => [] end.

Definition without_blank_end (body : list Units) : list Units := rev (drop_blank (rev body)).

(** A line that is no fence, not blank and no indented code. *)
Definition line_step (start : nat) (line : Units) (rest : list (nat * Units)) (r : Reading) : list (nat * Units) * Reading :=
  let headingText := match HEADING line with None => [] | Some raw => headingTextOf raw end in
  if (0 <? length headingText)%nat then (rest, push_line (b_heading start) headingText r)
  else
    match BULLET line with
    | Some text => (rest, push_line (b_bullet start) text r)
    | None =>
        match NUMBERED line with
        | Some (number, text) => (rest, push_line (b_numbered start number) text r)
        | None =>
            (rest, MkReading (notes r) (paragraph r ++ [line]) (if (length (paragraph r) =? 0)%nat then start else paragraphStart r))
        end
    end.

(** One turn, at a line that is there. *)
Definition block_step (start : nat) (line : Units) (rest : list (nat * Units)) (r : Reading) : list (nat * Units) * Reading :=
  match FENCE_OPEN line with
  | Some mark => let (body, rest) := fenced mark rest in (rest, push_code start body (flushParagraph r))
  | None =>
      if isBlank line then (rest, flushParagraph r)
      else
        match paragraph r, INDENTED line with
        | [], Some _ => let (body, rest) := indented ((start, line) :: rest) in (rest, push_code start (without_blank_end body) r)
        | _, _ =>
            line_step start line rest r
        end
  end.

Fixpoint block_loop (fuel : nat) (lines : list (nat * Units)) (r : Reading) : option Reading :=
  match lines with
  | [] => Some r
  | (start, line) :: rest =>
      match fuel with
      | O => None
      | S fuel => let (lines, r) := block_step start line rest r in block_loop fuel lines r
      end
  end.

Definition parse_notes (source : Units) : option ParsedReleaseNotes :=
  let lines := lines_from 0 (line_ends source) in
  option_map (fun r => notes (flushParagraph r)) (block_loop (length lines) lines (MkReading (MkNotes [] false) [] 0)).

Definition parseReleaseNotes (source : Units) : ParsedReleaseNotes := default (MkNotes [] false) (parse_notes source).
End Blocks.

(** ** Spans come in order *)

Lemma take_while_length p units : (length (take_while p units) <= length units)%nat.
Proof. induction units as [|c units IH]; [done|]. simpl. destruct (p c); simpl; lia. Qed.

Lemma backtick_run source at_ : source !! at_ = Some BACKTICK -> (1 <= backtickRunAt source at_)%nat.
Proof. intros H. unfold backtickRunAt. rewrite (drop_S _ _ _ H). simpl. lia. Qed.

Lemma first_at_from p source from at_ : first_at p source from = Some at_ -> (from <= at_)%nat /\ p at_ = true.
Proof. intros H. apply find_some in H as [Hin Hp]. apply in_seq in Hin. split; [lia|done]. Qed.

Lemma find_close_from fuel source at_ run close : find_close fuel source at_ run = Some close -> (at_ <= close)%nat.
Proof.
  revert at_. induction fuel as [|fuel IH]; intros at_ H; [done|]. cbn in H.
  destruct (indexOf [BACKTICK] source at_) as [i|] eqn:E; [|done]. apply first_at_from in E as [Hi _].
  destruct (_ =? run)%nat; [by injection H as <-|]. apply IH in H. lia.
Qed.

Lemma indexOf_at c source from at_ : indexOf [c] source from = Some at_ -> source !! at_ = Some c /\ (from <= at_)%nat.
Proof.
  intros H. apply first_at_from in H as [Hf H]. split; [|done]. unfold starts_at in H. apply bool_decide_eq_true in H. cbn in H.
  rewrite <- (Nat.add_0_r at_), <- lookup_drop. destruct (drop at_ source) as [|d rest]; [done|]. by injection H as ->.
Qed.

(** The fuel of [findBacktickClose] is enough: with more it finds the same. *)
Lemma find_close_enough source run fuel more at_ :
  (length source < fuel + at_)%nat -> find_close (fuel + more) source at_ run = find_close fuel source at_ run.
Proof.
  revert at_. induction fuel as [|fuel IH]; intros at_ Hf.
  - destruct more as [|more]; [done|]. cbn. destruct (indexOf [BACKTICK] source at_) as [i|] eqn:E; [|done].
    apply indexOf_at in E as [E Hi]. apply lookup_lt_Some in E. lia.
  - cbn. destruct (indexOf [BACKTICK] source at_) as [i|] eqn:E; [|done]. apply indexOf_at in E as [E Hi].
    destruct (_ =? run)%nat; [done|]. apply IH. pose proof (backtick_run source i E). lia.
Qed.

Section InOrder.
Variable word : Z -> bool.

Definition starts (s : Inline) : list nat := map span_start (spans (flush s)).

Lemma starts_push span s : starts (push_span span s) = starts s ++ [span_start span].
Proof. unfold starts, push_span, flush. cbn. destruct (0 <? length (plain s))%nat; cbn; by rewrite ?map_app. Qed.

Lemma starts_plain value at_ s : starts (addPlain value at_ s) = starts s \/ starts (addPlain value at_ s) = starts s ++ [at_].
Proof.
  unfold starts, addPlain, flush. cbn. rewrite length_app. destruct (plain s) as [|c rest]; cbn; [|left; by rewrite !map_app].
  destruct value; cbn; [by left|right]. by rewrite map_app.
Qed.

(** A turn moves on, and adds at most what starts here. *)
Lemma inline_step_moves source at_ char s :
  source !! at_ = Some char ->
  let (next, s') := inline_step word source at_ char s in
  (at_ < next)%nat /\ (starts s' = starts s \/ starts s' = starts s ++ [at_]).
Proof.
  intros Hc. unfold inline_step. destruct (_ && _); [split; [lia|apply starts_plain]|].
  destruct (Z.eqb_spec char BACKTICK) as [->|_].
  { pose proof (backtick_run _ _ Hc) as Hr. destruct (findBacktickClose _ _ _) as [close|] eqn:E; [|split; [lia|apply starts_plain]].
    apply find_close_from in E. split; [lia|right; apply starts_push]. }
  destruct (if char =? u "!" then image_at source at_ else None) as [n|] eqn:Ei.
  { split; [|apply starts_plain]. destruct (char =? u "!"); [|done]. unfold image_at in Ei. destruct (bool_decide _); [|done].
    destruct (link_at source (S at_)) as [[[label url] m]|]; [|done]. injection Ei as <-. lia. }
  destruct (if char =? u "[" then link_at source at_ else None) as [[[label url] n]|] eqn:El.
  { split; [|right; apply starts_push]. destruct (char =? u "["); [|done]. unfold link_at in El. cbv zeta in El.
    repeat case_match; try discriminate; injection El as _ _ <-; lia. }
  destruct (_ || _); [|split; [lia|apply starts_plain]].
  set (mark := if bool_decide _ then [char; char] else [char]). assert (Hm : (1 <= length mark)%nat) by (subst mark; destruct (bool_decide _); cbn; lia).
  destruct (negb (isSpace _) && _); [|split; [lia|apply starts_plain]].
  destruct (findEmphasisClose _ _ _ _) as [close|] eqn:Ef; [|split; [lia|apply starts_plain]].
  apply first_at_from in Ef as [Hf _]. split; [lia|]. rewrite starts_push. right. by destruct (_ =? 2)%nat.
Qed.

Definition in_order (bound : nat) (l : list nat) : Prop := StronglySorted lt l /\ Forall (fun n => (n < bound)%nat) l.

Lemma in_order_snoc n bound l : (n < bound)%nat -> in_order n l -> in_order bound (l ++ [n]).
Proof.
  intros Hn [Hs Hf]. split.
  - induction Hs as [|m l Hs IH Hm]; [repeat constructor|]. inversion Hf as [|? ? Hmn Hf']; subst. constructor; [by apply IH|].
    apply Forall_app. split; [done|]. by repeat constructor.
  - apply Forall_app. split; [|by repeat constructor]. eapply Forall_impl; [exact Hf|]. simpl. lia.
Qed.

Lemma in_order_more n bound l : (n <= bound)%nat -> in_order n l -> in_order bound l.
Proof. intros Hn [Hs Hf]. split; [done|]. eapply Forall_impl; [exact Hf|]. simpl. lia. Qed.

Lemma inline_loop_ends source fuel at_ s :
  (length source <= fuel + at_)%nat -> in_order (Nat.min at_ (length source)) (starts s) ->
  exists s', inline_loop word fuel source at_ s = Some s' /\ in_order (length source) (starts s').
Proof.
  revert at_ s. induction fuel as [|fuel IH]; intros at_ s Hf Ho; cbn [inline_loop].
  - rewrite lookup_ge_None_2 by lia. exists s. split; [done|]. eapply in_order_more; [|exact Ho]. lia.
  - destruct (source !! at_) as [char|] eqn:Ec; [|exists s; split; [done|]; eapply in_order_more; [|exact Ho]; lia].
    pose proof (inline_step_moves source at_ char s Ec) as H. destruct (inline_step word source at_ char s) as [next s'] eqn:Es.
    destruct H as [Hn Hs]. pose proof (lookup_lt_Some _ _ _ Ec) as Hl. apply IH; [lia|].
    destruct Hs as [->| ->]; [eapply in_order_more; [|exact Ho]; lia|]. apply in_order_snoc; [lia|]. by rewrite Nat.min_l in Ho by lia.
Qed.

(** Reading a text ends, and its spans start one after the other. *)
Lemma parse_inline_ends source :
  exists spans, parse_inline word source = Some spans /\ in_order (length source) (map span_start spans).
Proof.
  destruct (inline_loop_ends source (length source) 0 (MkInline [] [] 0)) as (s & Hs & Ho); [lia|repeat constructor|].
  unfold parse_inline. rewrite Hs. by exists (spans (flush s)).
Qed.
(** ** Blocks come in order, and are bounded *)

#[local] Opaque RELEASE_NOTE_MAX_BLOCKS RELEASE_NOTE_MAX_BLOCK_CHARS.

(** Cut to [max] characters of one or two units. *)
Lemma truncated_length text max : (length (truncated_units text max) <= 2 * max)%nat.
Proof.
  assert (H : forall points, (length (units_of points) <= 2 * length points)%nat).
  { unfold units_of. induction points as [|p points IH]; [done|]. cbn [flat_map]. rewrite length_app. cbn [length]. destruct (p <? 65536); cbn; lia. }
  unfold truncated_units. etrans; [apply H|]. unfold truncateChars.
  destruct (_ <=? max)%nat eqn:E; [apply Nat.leb_le in E; lia|]. destruct (max <=? 1)%nat eqn:E1; [rewrite length_take; lia|].
  apply Nat.leb_gt in E1. rewrite length_app, length_take. cbn. lia.
Qed.

(** The spans of a text that is not too long, or such a text. *)
Definition bounded_block (block : ReleaseNoteBlock) : Prop :=
  let short text := (length text <= 2 * RELEASE_NOTE_MAX_BLOCK_CHARS)%nat in
  match block with
  | b_heading _ spans | b_paragraph _ spans | b_bullet _ spans | b_numbered _ _ spans =>
      exists text, short text /\ parse_inline word text = Some spans /\ in_order (length text) (map span_start spans)
  | b_code _ text => short text
  end.

Definition within (r : Reading) : Prop :=
  (length (blocks (notes r)) <= RELEASE_NOTE_MAX_BLOCKS)%nat /\ Forall bounded_block (blocks (notes r)).

(** Where the blocks start, with the one of the paragraph that is being read. *)
Definition block_starts (r : Reading) : list nat := map block_start (blocks (notes (flushParagraph word r))).

Lemma push_cases cut block r :
  blocks (notes (push cut block r)) = blocks (notes r) \/ blocks (notes (push cut block r)) = blocks (notes r) ++ [block].
Proof. unfold push. destruct (_ <=? _)%nat; [by left|by right]. Qed.

Lemma push_within cut block r : bounded_block block -> within r -> within (push cut block r).
Proof.
  intros Hb [Hl Hf]. unfold push, within. destruct (RELEASE_NOTE_MAX_BLOCKS <=? _)%nat eqn:E; cbn; [by split|].
  apply Nat.leb_gt in E. rewrite length_app. cbn. split; [lia|]. apply Forall_app. split; [done|]. by repeat constructor.
Qed.

Lemma bounded_spans text : exists short, (length short <= 2 * RELEASE_NOTE_MAX_BLOCK_CHARS)%nat
  /\ parse_inline word short = Some (parseInline word (bounded text).1)
  /\ in_order (length short) (map span_start (parseInline word (bounded text).1)).
Proof.
  exists (bounded text).1. split; [apply truncated_length|]. destruct (parse_inline_ends (bounded text).1) as (spans & E & Ho).
  unfold parseInline. by rewrite E.
Qed.

Lemma flush_within r : within r -> within (flushParagraph word r).
Proof.
  intros H. unfold flushParagraph. destruct (paragraph r) as [|line lines]; [done|].
  pose proof (bounded_spans (joined_lines (line :: lines))) as Hs. destruct (bounded _) as [text cut].
  exact (push_within cut (b_paragraph (paragraphStart r) (parseInline word text)) r Hs H).
Qed.

Lemma push_line_within block text r :
  (forall spans, bounded_block (block spans) <-> bounded_block (b_paragraph 0 spans)) -> within r -> within (push_line word block text r).
Proof.
  intros Hb H. unfold push_line. pose proof (bounded_spans text) as Hs. destruct (bounded text) as [short cut].
  apply push_within; [by apply Hb|by apply flush_within].
Qed.

Lemma push_code_within start body r : within r -> within (push_code start body r).
Proof.
  intros H. unfold push_code. pose proof (truncated_length (joined_lines body) RELEASE_NOTE_MAX_BLOCK_CHARS) as Hs.
  unfold bounded. by apply push_within.
Qed.

Lemma flush_paragraph r : paragraph (flushParagraph word r) = [].
Proof. unfold flushParagraph. destruct (paragraph r) eqn:E; [done|]. by destruct (bounded _). Qed.

Lemma starts_flushed r : paragraph r = [] -> block_starts r = map block_start (blocks (notes r)).
Proof. intros H. unfold block_starts, flushParagraph. by rewrite H. Qed.

(** A block pushed onto a reading without a paragraph. *)
Lemma starts_pushed cut block r :
  paragraph r = [] -> block_starts (push cut block r) = block_starts r \/ block_starts (push cut block r) = block_starts r ++ [block_start block].
Proof.
  intros H. rewrite !starts_flushed by done. destruct (push_cases cut block r) as [-> | ->]; [by left|right]. by rewrite map_app.
Qed.

Lemma starts_flush r : block_starts (flushParagraph word r) = block_starts r.
Proof. apply starts_flushed, flush_paragraph. Qed.

Lemma starts_line block text r start :
  (forall spans, block_start (block spans) = start) ->
  block_starts (push_line word block text r) = block_starts r \/ block_starts (push_line word block text r) = block_starts r ++ [start].
Proof.
  intros Hb. unfold push_line. destruct (bounded text) as [short cut]. rewrite <- (Hb (parseInline word short)), <- (starts_flush r).
  apply starts_pushed, flush_paragraph.
Qed.

Lemma starts_code start body r :
  paragraph r = [] -> block_starts (push_code start body r) = block_starts r \/ block_starts (push_code start body r) = block_starts r ++ [start].
Proof. intros H. unfold push_code. destruct (bounded _) as [text cut]. by apply starts_pushed. Qed.

Lemma fenced_rest mark lines : (fenced mark lines).2 `suffix_of` lines.
Proof.
  induction lines as [|[start line] lines IH]; [done|]. cbn. destruct (closesFence line mark); [by exists [(start, line)]|].
  destruct (fenced mark lines) as [body rest]. by apply suffix_cons_r.
Qed.

Lemma indented_rest lines : (indented lines).2 `suffix_of` lines.
Proof.
  induction lines as [|[start line] lines IH]; [done|]. cbn. destruct (INDENTED line); [|destruct (isBlank line); [|done]];
    destruct (indented lines) as [body rest]; by apply suffix_cons_r.
Qed.

Lemma starts_reading r line lines :
  paragraph r = line :: lines ->
  block_starts r = map block_start (blocks (notes r))
                   ++ (if (RELEASE_NOTE_MAX_BLOCKS <=? length (blocks (notes r)))%nat then [] else [paragraphStart r]).
Proof.
  intros H. unfold block_starts, flushParagraph, push. rewrite H. destruct (bounded _) as [text cut]. cbn.
  destruct (RELEASE_NOTE_MAX_BLOCKS <=? length (blocks (notes r)))%nat; cbn; [by rewrite app_nil_r|by rewrite map_app].
Qed.

Lemma line_step_moves start line rest r :
  let (rest', r') := line_step word start line rest r in
  rest' = rest /\ (block_starts r' = block_starts r \/ block_starts r' = block_starts r ++ [start]) /\ (within r -> within r').
Proof.
  unfold line_step. assert (Hline : forall (block : list ReleaseNoteSpan -> ReleaseNoteBlock) text, (forall spans, block_start (block spans) = start) ->
    (forall spans, bounded_block (block spans) <-> bounded_block (b_paragraph 0 spans)) ->
    rest = rest /\ (block_starts (push_line word block text r) = block_starts r \/ block_starts (push_line word block text r) = block_starts r ++ [start])
    /\ (within r -> within (push_line word block text r))).
  { intros block text H1 H2. split; [done|]. split; [by apply starts_line|by apply push_line_within]. }
  destruct (0 <? _)%nat; [by apply Hline|]. destruct (BULLET line); [by apply Hline|]. destruct (NUMBERED line) as [[number text]|]; [by apply Hline|].
  split; [done|]. split; [|done]. destruct (paragraph r) as [|line' lines] eqn:E.
  - rewrite (starts_flushed r E). erewrite starts_reading by done. cbn.
    destruct (RELEASE_NOTE_MAX_BLOCKS <=? length (blocks (notes r)))%nat; [left; by rewrite app_nil_r|by right].
  - left. rewrite (starts_reading r _ _ E). erewrite starts_reading by done. done.
Qed.

(** A turn goes on after its line, and adds at most what starts at it. *)
Lemma block_step_moves start line rest r :
  let (rest', r') := block_step word start line rest r in
  rest' `suffix_of` rest /\ (block_starts r' = block_starts r \/ block_starts r' = block_starts r ++ [start]) /\ (within r -> within r').
Proof.
  unfold block_step. destruct (FENCE_OPEN line) as [mark|].
  { pose proof (fenced_rest mark rest) as Hr. destruct (fenced mark rest) as [body rest']. split; [done|]. split.
    - rewrite <- (starts_flush r). apply starts_code, flush_paragraph.
    - intros H. by apply push_code_within, flush_within. }
  destruct (isBlank line). { split; [done|]. rewrite starts_flush. split; [by left|apply flush_within]. }
  pose proof (line_step_moves start line rest r) as Hline. destruct (line_step word start line rest r) as [rest' r'].
  destruct (paragraph r) as [|line' lines] eqn:E; [destruct (INDENTED line) as [text|] eqn:Ei|]; try (destruct Hline as [-> Hline]; by split).
  cbn [indented]. rewrite Ei. pose proof (indented_rest rest) as Hr. destruct (indented rest) as [body rest'']. split; [done|].
  split; [by apply starts_code|apply push_code_within].
Qed.

Lemma sorted_sublist (l l' : list nat) : l `sublist_of` l' -> StronglySorted lt l' -> StronglySorted lt l.
Proof.
  induction 1 as [|x l l' Hl IH|x l l' Hl IH]; intros Hs; [done|..]; apply StronglySorted_inv in Hs as [Hs Hx]; [|by apply IH].
  constructor; [by apply IH|]. apply Forall_forall. intros y Hy. rewrite Forall_forall in Hx. by apply Hx, (elem_of_sublist l).
Qed.

Lemma block_loop_ends fuel lines r :
  (length lines <= fuel)%nat -> StronglySorted lt (block_starts r ++ map fst lines) -> within r ->
  exists r', block_loop word fuel lines r = Some r' /\ within r'
    /\ StronglySorted lt (block_starts r') /\ (forall n, n ∈ block_starts r' -> n ∈ block_starts r \/ n ∈ map fst lines).
Proof.
  revert lines r. induction fuel as [|fuel IH]; intros [|[start line] rest] r Hf Hs Hw; cbn [block_loop map fst] in *.
  1, 3: rewrite app_nil_r in Hs; exists r; split_and!; try done; by left.
  - simpl in Hf. lia.
  - pose proof (block_step_moves start line rest r) as H. destruct (block_step word start line rest r) as [rest' r'].
    destruct H as ([passed ->] & Hb & Hw'). simpl in Hf. rewrite length_app in Hf.
    assert (Hs' : StronglySorted lt (block_starts r' ++ map fst rest')).
    { rewrite map_app in Hs. destruct Hb as [->| ->].
      - eapply sorted_sublist; [|exact Hs]. apply sublist_app; [done|]. by apply sublist_cons, sublist_inserts_l.
      - eapply sorted_sublist; [|exact Hs]. rewrite <- app_assoc. apply sublist_app; [done|]. by apply sublist_skip, sublist_inserts_l. }
    destruct (IH rest' r' ltac:(lia) Hs' (Hw' Hw)) as (r2 & E & Hw2 & Hs2 & Hin). exists r2. split_and!; try done.
    intros n Hn. destruct (Hin n Hn) as [H|H]; [destruct Hb as [Hb|Hb]; rewrite Hb in H; [by left|]|].
    + apply elem_of_app in H as [H|H]; [by left|]. right. apply list_elem_of_singleton in H as ->. by left.
    + right. right. rewrite map_app. apply elem_of_app. by right.
Qed.
Lemma lines_in_order source start :
  StronglySorted lt (map fst (lines_from start source)) /\ (forall n, n ∈ map fst (lines_from start source) -> (start <= n <= start + length source)%nat)
  /\ exists line rest, lines_from start source = (start, line) :: rest.
Proof.
  revert start. induction source as [|c source IH]; intros start; cbn [lines_from].
  - split; [repeat constructor|]. split; [|by eexists _, _]. intros n Hn%list_elem_of_singleton. cbn in *. lia.
  - destruct (IH (S start)) as (Hs & Hb & line & rest & E). destruct (c =? NEWLINE).
    + split; [|split; [|by eexists _, _]].
      * cbn. constructor; [done|]. apply Forall_forall. intros n Hn. specialize (Hb n Hn). lia.
      * cbn. intros n [->|Hn]%elem_of_cons; [lia|]. specialize (Hb n Hn). lia.
    + rewrite E in *. cbn in *. split; [|split; [|by eexists _, _]].
      * apply StronglySorted_inv in Hs as [Hs Hf]. constructor; [done|]. eapply Forall_impl; [exact Hf|]. intros n Hn. simpl in *. lia.
      * intros n [->|Hn]%elem_of_cons; [lia|]. specialize (Hb n ltac:(by apply elem_of_cons; right)). cbn in Hb. lia.
Qed.

(** C32: Reading the notes of a release ends, whatever they hold: with at most
    five hundred blocks, each starting after the one before it and inside the
    text, each made of a text of at most two thousand characters, whose spans in
    turn start one after the other inside it. *)
Theorem notes_are_read_to_the_end source :
  exists n, parse_notes word source = Some n
  /\ (length (blocks n) <= RELEASE_NOTE_MAX_BLOCKS)%nat
  /\ StronglySorted lt (map block_start (blocks n))
  /\ (forall block, In block (blocks n) -> (block_start block <= length (line_ends source))%nat /\ bounded_block block).
Proof.
  destruct (lines_in_order (line_ends source) 0) as (Hs & Hb & _).
  destruct (block_loop_ends (length (lines_from 0 (line_ends source))) (lines_from 0 (line_ends source)) (MkReading (MkNotes [] false) [] 0))
    as (r & E & Hw & Hsr & Hin); [done|exact Hs|split; [cbn; lia|constructor]|].
  unfold parse_notes. rewrite E. exists (notes (flushParagraph word r)). split; [done|].
  pose proof (flush_within r Hw) as [Hl Hf]. split; [done|]. split; [exact Hsr|]. intros block Hblock. split; [|rewrite Forall_forall in Hf; by apply Hf, list_elem_of_In].
  assert (H : block_start block ∈ block_starts r) by (by apply list_elem_of_In, in_map).
  destruct (Hin _ H) as [H'|H']; [by apply not_elem_of_nil in H'|]. specialize (Hb _ H'). lia.
Qed.

(** Text without a mark is one span. *)
Lemma plain_text_is_itself source :
  source <> [] -> Forall (fun c => c ∉ [BACKSLASH; BACKTICK; u "!"; u "["; u "*"; u "_"]) source -> parseInline word source = [s_text 0 source].
Proof.
  intros Hne Hs. assert (H : forall fuel at_ s, (length source = fuel + at_)%nat -> plain s = take at_ source -> spans s = [] -> plainStart s = 0%nat ->
    inline_loop word fuel source at_ s = Some (MkInline [] source 0)).
  { induction fuel as [|fuel IH]; intros at_ s Hl Hp Hsp Hst; cbn [inline_loop].
    - rewrite lookup_ge_None_2 by lia. destruct s as [spans plain start]. cbn in *. subst. by rewrite firstn_all2 by lia.
    - destruct (source !! at_) as [char|] eqn:Ec; [|apply lookup_ge_None_1 in Ec; lia].
      pose proof (proj1 (Forall_lookup _ _) Hs _ _ Ec) as Hc. cbn in Hc.
      assert (Hstep : inline_step word source at_ char s = (S at_, addPlain [char] at_ s)).
      { unfold inline_step. rewrite !not_elem_of_cons in Hc. destruct Hc as (H1 & H2 & H3 & H4 & H5 & H6 & _).
        by rewrite (proj2 (Z.eqb_neq _ _) H1), (proj2 (Z.eqb_neq _ _) H2), (proj2 (Z.eqb_neq _ _) H3), (proj2 (Z.eqb_neq _ _) H4),
          (proj2 (Z.eqb_neq _ _) H5), (proj2 (Z.eqb_neq _ _) H6). }
      rewrite Hstep. apply IH; [lia| |done|].
      + cbn. rewrite Hp. by rewrite (take_S_r _ _ _ Ec).
      + cbn. destruct (_ =? 0)%nat eqn:E0; [|done]. rewrite Hp, length_take in E0. apply Nat.eqb_eq in E0. destruct source; cbn in *; [done|]. lia. }
  unfold parseInline, parse_inline. rewrite (H (length source) 0%nat (MkInline [] [] 0)) by (done || lia). cbn. by destruct source.
Qed.
End InOrder.
