(* ===== verification/UpdateCheck.v ===== *)
(** Asking whether there is a newer release.

    [update-check.ts], [update-state.repository.ts], [update-status.ts] and
    [build-info.ts] of [packages/core/src/system], with
    [packages/contracts/src/update.ts] and [boundary/github-release.ts].  The
    request, [JSON.parse] and which error means an answer that is too long are
    arguments.  Theorems say what a sequence of checks leaves and asks for, and
    that versions are ordered.  [FleetStatus] compares the builds of the server
    and the worker. *)

From stdpp Require Import sorting.
From S2P Require Import Prelude Tables Dates Calendar StatusKinds StatusStore NotificationStore Announce Egress Payloads Outcome Delivery Mcp Destinations InstanceStore Senders ReleaseNotes.

(** ** Builds *)

Definition DEV_VERSION : string := "0.0.0-dev".
Definition UNKNOWN_COMMIT : string := "unknown".

Record BuildInfo := MkBuild { version : string; commit : string }.

Definition clean (value : option string) (fallback : string) : string :=
  let trimmed := trim (default EmptyString value) in
  if (0 <? String.length trimmed)%nat && (String.length trimmed <=? 64)%nat then trimmed else fallback.

Definition readBuildInfo (APP_VERSION GIT_SHA : option string) : BuildInfo :=
  MkBuild (clean APP_VERSION DEV_VERSION) (String.substring 0 12 (clean GIT_SHA UNKNOWN_COMMIT)).

Definition isDevelopmentBuild (info : BuildInfo) : bool := (version info ≡? DEV_VERSION) || (commit info ≡? UNKNOWN_COMMIT).
Definition sameBuild (left right : BuildInfo) : bool := (version left ≡? version right) && (commit left ≡? commit right).
Definition describeBuild (info : BuildInfo) : string :=
  if commit info ≡? UNKNOWN_COMMIT then version info else version info +:+ " (" +:+ commit info +:+ ")".

(** ** Sources and versions *)

Definition digit (c : Ascii.ascii) : bool := match digit_value c with Some _ => true | None => false end.
Definition letter (c : Ascii.ascii) : bool :=
  let n := Ascii.nat_of_ascii c in ((65 <=? n)%nat && (n <=? 90)%nat) || ((97 <=? n)%nat && (n <=? 122)%nat).
Definition alphanumeric (c : Ascii.ascii) : bool := digit c || letter c.

Definition ends_alphanumeric (value : string) : bool :=
  match value with String c _ => alphanumeric c | EmptyString => false end.

Definition OWNER_PATTERN (owner : string) : bool :=
  (String.length owner <=? 39)%nat && ends_alphanumeric owner && ends_alphanumeric (String.rev owner)
  && chars_all (fun c => alphanumeric c || (c ≡? "-"%char)) owner.

Definition REPO_PATTERN (repo : string) : bool :=
  (1 <=? String.length repo)%nat && (String.length repo <=? 100)%nat
  && chars_all (fun c => alphanumeric c || bool_decide (c ∈ ["."; "_"; "-"]%char)) repo.

(** [0|[1-9]\d*] *)
Definition version_number (part : string) : bool :=
  match part with
  | EmptyString => false
  | String c _ => (part ≡? "0") || (chars_all digit part && negb (c ≡? "0"%char))
  end.

Record UpdateSource := MkSource { owner : string; repo : string }.

Definition updateSourceSchema (source : UpdateSource) : bool :=
  OWNER_PATTERN (owner source) && REPO_PATTERN (repo source) && negb (repo source ≡? ".") && negb (repo source ≡? "..").

Definition PROJECT_SOURCE : UpdateSource := MkSource "thinesjs" "open-mcc-manager".

Definition number (part : string) : Z := default 0 (numberOfDigits part).

Definition partsOf (version : string) : option (Z * Z * Z) :=
  match split_on "." version with
  | [major; minor; patch] =>
      if version_number major && version_number minor && version_number patch
      then Some (number major, number minor, number patch) else None
  | _ => None
  end.

(** [RELEASE_VERSION_PATTERN] *)
Definition releaseVersionSchema (version : string) : bool := bool_decide (is_Some (partsOf version)).

Definition releasePageUrl (source : UpdateSource) (version : string) : string :=
  "https://github.com/" +:+ owner source +:+ "/" +:+ repo source +:+ "/releases/tag/v" +:+ version.

Definition compareVersions (left right : string) : option comparison :=
  let? a := partsOf left in
  let? b := partsOf right in
  let '(a0, a1, a2) := a in
  let '(b0, b1, b2) := b in
  Some (match a0 ?= b0 with Eq => match a1 ?= b1 with Eq => a2 ?= b2 | c => c end | c => c end).

Definition isNewerThan (candidate running : string) : bool := bool_decide (compareVersions candidate running = Some Gt).

(** ** What a check finds *)

Record LatestRelease := MkLatest { rel_version : string; rel_notes : option Text; rel_notesTruncated : bool }.

Inductive UpdateCheckOutcome := oc_ok | oc_unreachable | oc_rate_limited | oc_not_found | oc_unreadable.

#[global] Instance UpdateCheckOutcome_eq_dec : EqDecision UpdateCheckOutcome.
Proof. solve_decision. Defined.

Inductive UpdateCheckResult :=
  | found_release (release : LatestRelease)
  | found_limit (until : option Z)
  | found_unreachable | found_nothing | found_unreadable.

Definition outcome_of (result : UpdateCheckResult) : UpdateCheckOutcome :=
  match result with
  | found_release _ => oc_ok | found_limit _ => oc_rate_limited | found_unreachable => oc_unreachable
  | found_nothing => oc_not_found | found_unreadable => oc_unreadable
  end.

Record UpdateStateRow := MkUpdateState {
  sourceOwner : string; sourceRepo : string; checkedAt : Z; checkOutcome : UpdateCheckOutcome; rateLimitedUntil : option Z;
  latestVersion : option string; latestNotes : option Text; notesTruncated : bool }.

(** The one row, inserted or updated; the columns of a release stay when a check
    finds none. *)
Definition recordCheck (source : UpdateSource) (at_ : Z) (result : UpdateCheckResult) (row : option UpdateStateRow) : option UpdateStateRow :=
  let until := match result with found_limit until => until | _ => None end in
  let old := default (MkUpdateState (owner source) (repo source) at_ oc_ok None None None false) row in
  Some (match result with
        | found_release release =>
            MkUpdateState (sourceOwner old) (sourceRepo old) at_ oc_ok until (Some (rel_version release)) (rel_notes release) (rel_notesTruncated release)
        | _ =>
            MkUpdateState (sourceOwner old) (sourceRepo old) at_ (outcome_of result) until (latestVersion old) (latestNotes old) (notesTruncated old)
        end).

(** ** A check *)

Definition UPDATE_CHECK_CRON : string := "41 */6 * * *".
Definition UPDATE_CHECK_INTERVAL_MS : Z := 6 * 60 * 60 * 1000.
Definition RELEASE_RESPONSE_MAX_BYTES : Z := 1024 * 1024.
Definition RELEASE_NOTES_MAX_BYTES : Z := 64 * 1024.

Definition RELEASE_REQUEST_HEADERS : list (string * Text) :=
  [("accept", points "application/vnd.github+json"); ("user-agent", points "open-mcc-manager"); ("x-github-api-version", points "2022-11-28")].

Definition REDIRECT_STATUSES : list Z := [301; 302; 303; 307; 308].

Definition WHOLE_SECONDS (value : string) : bool :=
  (1 <=? String.length value)%nat && (String.length value <=? 10)%nat && chars_all digit value.

Definition latestReleaseUrl (source : UpdateSource) : string :=
  "https://api.github.com/repos/" +:+ owner source +:+ "/" +:+ repo source +:+ "/releases/latest".

(** The request of [requestRelease], to be sent over pinned addresses. *)
Definition requestRelease (timeoutMs : Z) (policy : EgressPolicy) (url : string) : PinnedRequest :=
  MkPinnedRequest url GET RELEASE_REQUEST_HEADERS None timeoutMs RELEASE_RESPONSE_MAX_BYTES policy.

Section Check.
Variable JSON_parse : string -> option Json.
(** [error instanceof ResponseExceededMaxSizeError] *)
Variable too_long : thrown -> bool.

Record LatestReleaseAnswer := MkAnswer { tagName : string; body : option string }.

Definition parseLatestRelease (raw : string) : option LatestReleaseAnswer :=
  let? decoded := JSON_parse raw in
  let? release := asRecord decoded in
  match field "tag_name" release with
  | Some (JString tagName) =>
      match field "body" release with
      | None | Some JNull => Some (MkAnswer tagName None)
      | Some (JString body) => Some (MkAnswer tagName (Some body))
      | Some _ => None
      end
  | _ => None
  end.

Definition releaseFrom (raw : string) : UpdateCheckResult :=
  match parseLatestRelease raw with
  | None => found_unreadable
  | Some parsed =>
      if negb (startsWith "v" (tagName parsed)) then found_unreadable
      else
        let version := slice_from 1 (tagName parsed) in
        if negb (releaseVersionSchema version) then found_unreadable
        else
          let body := default EmptyString (body parsed) in
          if (String.length (trim body) =? 0)%nat then found_release (MkLatest version None false)
          else found_release (MkLatest version (Some (truncateBytes (points body) RELEASE_NOTES_MAX_BYTES))
                                (RELEASE_NOTES_MAX_BYTES <? byteLength (points body)))
  end.

Definition secondsIn (value : option string) : option Z :=
  let? text := value in if WHOLE_SECONDS text then Some (number text) else None.

Definition rateLimitIn (status : Z) (headers : list (string * string)) (now : Z) : option UpdateCheckResult :=
  let exhausted := bool_decide (header headers "x-ratelimit-remaining" = Some "0") in
  let retryAfter := header headers "retry-after" in
  if negb (status =? 429) && negb ((status =? 403) && (exhausted || bool_decide (is_Some retryAfter))) then None
  else
    match secondsIn retryAfter with
    | Some wait => Some (found_limit (Some (now + wait * 1000)))
    | None =>
        let reset := if exhausted then secondsIn (header headers "x-ratelimit-reset") else None in
        Some (found_limit (option_map (fun reset => reset * 1000) reset))
    end.

Definition readReleaseAnswer (answer : PinnedResult) (now : Z) : UpdateCheckResult :=
  match answer with
  | not_sent _ => found_unreachable
  | sent status headers reply =>
      if status =? 200 then releaseFrom reply
      else if (status =? 404) || bool_decide (status ∈ REDIRECT_STATUSES) then found_nothing
      else
        match rateLimitIn status headers now with
        | Some limited => limited
        | None => if 500 <=? status then found_unreachable else found_unreadable
        end
  end.

Definition checkFailureOf (error : thrown) : UpdateCheckResult := if too_long error then found_unreadable else found_unreachable.

Definition shouldCheckAtBoot (build : BuildInfo) (lastCheckedAt : option Z) (now : Z) : bool :=
  if isDevelopmentBuild build then false
  else match lastCheckedAt with None => true | Some at_ => UPDATE_CHECK_INTERVAL_MS <? now - at_ end.

Inductive UpdateCheckRun := not_checked (reason : string) | checked (outcome : UpdateCheckOutcome).

Definition sourceOf (row : option UpdateStateRow) : option UpdateSource :=
  match row with
  | None => Some PROJECT_SOURCE
  | Some row => let source := MkSource (sourceOwner row) (sourceRepo row) in if updateSourceSchema source then Some source else None
  end.

Section Run.
Context {W : Type}.
Variable build : BuildInfo.
Variable readState : M W (option UpdateStateRow).
Variable request : string -> M W PinnedResult.
Variable record : UpdateSource -> Z -> UpdateCheckResult -> M W unit.
Variable now : M W Z.

Definition createUpdateCheck : M W UpdateCheckRun :=
  if isDevelopmentBuild build then ret (not_checked "development")
  else
    let* row := readState in
    let* at_ := now in
    let recent := match row with Some row => at_ - checkedAt row <? UPDATE_CHECK_INTERVAL_MS / 2 | None => false end in
    if recent then ret (not_checked "recent")
    else
      match sourceOf row with
      | None => ret (not_checked "unusable-source")
      | Some source =>
          let* result :=
            try_catch (let* answer := request (latestReleaseUrl source) in ret (readReleaseAnswer answer at_))
              (fun error => ret (checkFailureOf error)) in
          record source at_ result ;;;
          ret (checked (outcome_of result))
      end.
End Run.

Inductive LogLine := logged_info (message : string) | logged_warn (message : string).

Definition outcome_text (outcome : UpdateCheckOutcome) : string :=
  match outcome with
  | oc_ok => "ok" | oc_unreachable => "unreachable" | oc_rate_limited => "rate-limited" | oc_not_found => "not-found"
  | oc_unreadable => "unreadable"
  end.

Definition updateCheckReporter (run : UpdateCheckRun) : list LogLine :=
  match run with
  | not_checked reason =>
      if reason ≡? "unusable-source"
      then [logged_warn "The recorded release source is not a repository name this manager will ask"] else []
  | checked oc_not_found => [logged_info "The release check found no published release"]
  | checked oc_ok => []
  | checked outcome => [logged_warn ("The release check failed: " +:+ outcome_text outcome)]
  end.

Definition updateCheckJob {W} (check : M W UpdateCheckRun) (report : list LogLine -> M W unit) : M W unit :=
  let* run := check in report (updateCheckReporter run).

(** ** What is shown *)

Definition releaseVersionOf (value : option string) : option string :=
  let? version := value in if releaseVersionSchema version then Some version else None.

Inductive UpdateStatus :=
  | st_development
  | st_unchecked (running : string)
  | st_checked (running : string) (latest : option string) (available : bool) (checkedAt : string) (outcome : UpdateCheckOutcome)
      (rateLimitedUntil : option string) (source : option UpdateSource).

Definition updateStatusFor (build : BuildInfo) (row : option UpdateStateRow) : UpdateStatus :=
  if isDevelopmentBuild build then st_development
  else
    match row with
    | None => st_unchecked (version build)
    | Some row =>
        let source := MkSource (sourceOwner row) (sourceRepo row) in
        let latest := releaseVersionOf (latestVersion row) in
        st_checked (version build) latest
          (match latest with Some latest => isNewerThan latest (version build) | None => false end)
          (toISOString (checkedAt row)) (checkOutcome row) (option_map toISOString (rateLimitedUntil row))
          (if updateSourceSchema source then Some source else None)
    end.

Record ReleaseNotesView := MkNotesView {
  nv_version : string; nv_source : UpdateSource; nv_blocks : list ReleaseNoteBlock; nv_truncated : bool }.

Definition releaseNotesFor (word : Z -> bool) (build : BuildInfo) (row : option UpdateStateRow) : option ReleaseNotesView :=
  let? state := row in
  match updateStatusFor build row with
  | st_checked _ (Some latest) true _ _ _ (Some source) =>
      let parsed := parseReleaseNotes word (units_of (default [] (latestNotes state))) in
      Some (MkNotesView latest source (blocks parsed) (notesTruncated state || capped parsed))
  | _ => None
  end.
End Check.

(** ** Versions are ordered *)

Lemma digit_value_spec c d : digit_value c = Some d -> 0 <= d < 10 /\ c = Ascii.ascii_of_nat (Z.to_nat d + 48).
Proof.
  unfold digit_value. destruct (Ascii.is_nat c) as [n|] eqn:E; [|done]. intros [= <-].
  destruct c as [[] [] [] [] [] [] [] []]; try discriminate E; injection E as <-; (split; [lia|reflexivity]).
Qed.

Lemma digits_from_inj s s' a b n :
  String.length s = String.length s' -> digits_from a s = Some n -> digits_from b s' = Some n -> a = b /\ s = s'.
Proof.
  revert s' a b. induction s as [|c s IH]; intros [|c' s'] a b Hl Hs Hs'; try done; cbn in *; [by split; congruence|].
  destruct (digit_value c) as [d|] eqn:E; [|done]. destruct (digit_value c') as [d'|] eqn:E'; [|done].
  destruct (IH s' _ _ ltac:(lia) Hs Hs') as [Hd ->]. apply digit_value_spec in E as [E ->], E' as [E' ->].
  assert (d = d' /\ a = b) as [-> ->] by lia. done.
Qed.

Lemma digits_from_bounds s a n : 0 <= a -> digits_from a s = Some n -> a * 10 ^ Z.of_nat (String.length s) <= n < (a + 1) * 10 ^ Z.of_nat (String.length s).
Proof.
  revert a. induction s as [|c s IH]; intros a Ha H; cbn [digits_from String.length] in *; [injection H as <-; lia|].
  destruct (digit_value c) as [d|] eqn:E; [|done]. apply digit_value_spec in E as [E _]. apply IH in H; [|lia].
  rewrite Nat2Z.inj_succ, Z.pow_succ_r by lia. nia.
Qed.

(** A number of a version: it is zero, or starts with another digit. *)
Lemma version_number_spec p : version_number p = true ->
  (p = "0" /\ numberOfDigits p = Some 0)
  \/ exists n, numberOfDigits p = Some n /\ 10 ^ (Z.of_nat (String.length p) - 1) <= n < 10 ^ Z.of_nat (String.length p).
Proof.
  destruct p as [|c s]; [done|]. cbn [version_number]. intros H. apply orb_prop in H as [H|H]; [apply bool_decide_eq_true in H; rewrite H; by left|].
  right. apply andb_prop in H as [Hd Hc]. cbn [chars_all] in Hd. apply andb_prop in Hd as [Hd Hs]. unfold digit in Hd.
  destruct (digit_value c) as [d|] eqn:E; [|done]. pose proof (digit_value_spec c d E) as [Hr Ec].
  assert (Hd1 : 1 <= d). { destruct (Z.eqb_spec d 0) as [->|]; [|lia]. rewrite Ec in Hc. done. }
  assert (Hn : exists n, digits_from d s = Some n).
  { clear E Ec Hr Hc Hd Hd1. revert d. induction s as [|x s IH]; intros d; [by exists d|]. cbn in *. apply andb_prop in Hs as [Hx Hs].
    unfold digit in Hx. destruct (digit_value x); [|done]. by apply IH. }
  destruct Hn as [n Hn]. exists n. split; [cbn; by rewrite E|]. apply digits_from_bounds in Hn; [|lia].
  cbn [String.length]. rewrite Nat2Z.inj_succ. replace (Z.succ (Z.of_nat (String.length s)) - 1) with (Z.of_nat (String.length s)) by lia.
  rewrite Z.pow_succ_r by lia. nia.
Qed.

Lemma version_number_inj p q : version_number p = true -> version_number q = true -> number p = number q -> p = q.
Proof.
  intros Hp Hq E. unfold number in E.
  destruct (version_number_spec p Hp) as [[-> Ep]|(n & Ep & Hn)], (version_number_spec q Hq) as [[-> Eq]|(m & Eq & Hm)];
    rewrite ?Ep, ?Eq in E; cbn in E; subst; [done| | |].
  - exfalso. assert (0 < 10 ^ (Z.of_nat (String.length q) - 1)); [|lia]. apply Z.pow_pos_nonneg; [lia|]. destruct q; [done|cbn; lia].
  - exfalso. assert (0 < 10 ^ (Z.of_nat (String.length p) - 1)); [|lia]. apply Z.pow_pos_nonneg; [lia|]. destruct p; [done|cbn; lia].
  - assert (Hl : String.length p = String.length q).
    { assert (H : forall a b : nat, 10 ^ (Z.of_nat a - 1) <= m -> m < 10 ^ Z.of_nat b -> (a <= b)%nat).
      { intros a b Ha Hb. destruct (decide (a <= b)%nat); [done|]. exfalso.
        assert (10 ^ Z.of_nat b <= 10 ^ (Z.of_nat a - 1)) by (apply Z.pow_le_mono_r; lia). lia. }
      pose proof (H _ _ (proj1 Hn) (proj2 Hm)). pose proof (H _ _ (proj1 Hm) (proj2 Hn)). lia. }
    destruct p as [|c p]; [done|]. destruct q as [|d q]; [done|]. exact (proj2 (digits_from_inj _ _ _ _ _ Hl Ep Eq)).
Qed.

Lemma partsOf_inj v w parts : partsOf v = Some parts -> partsOf w = Some parts -> v = w.
Proof.
  unfold partsOf. intros Hv Hw. rewrite <- (join_split "." v), <- (join_split "." w).
  destruct (split_on "." v) as [|a [|b [|c []]]]; try done. destruct (split_on "." w) as [|a' [|b' [|c' []]]]; try done.
  destruct (version_number a && version_number b && version_number c) eqn:E; [|done].
  destruct (version_number a' && version_number b' && version_number c') eqn:E'; [|done]. tests.
  injection Hv as <-. injection Hw as Ea Eb Ec. by rewrite (version_number_inj a a'), (version_number_inj b b'), (version_number_inj c c').
Qed.

(** Of two versions of releases one is newer, or they are the same text; and
    newer is transitive, however large their numbers are. *)
Theorem versions_are_ordered :
  (forall v w, releaseVersionSchema v = true -> releaseVersionSchema w = true ->
     (isNewerThan v w = true /\ isNewerThan w v = false /\ v <> w)
     \/ (isNewerThan w v = true /\ isNewerThan v w = false /\ v <> w)
     \/ (v = w /\ isNewerThan v w = false))
  /\ (forall a b c, isNewerThan a b = true -> isNewerThan b c = true -> isNewerThan a c = true).
Proof.
  assert (Hcmp : forall v w, compareVersions v w = match partsOf v, partsOf w with
    | Some (a0, a1, a2), Some (b0, b1, b2) => Some (match a0 ?= b0 with Eq => match a1 ?= b1 with Eq => a2 ?= b2 | c => c end | c => c end)
    | _, _ => None end) by (intros v w; unfold compareVersions; by destruct (partsOf v) as [[[? ?] ?]|], (partsOf w) as [[[? ?] ?]|]).
  assert (Hnew : forall v w, isNewerThan v w = true <-> exists a0 a1 a2 b0 b1 b2, partsOf v = Some (a0, a1, a2) /\ partsOf w = Some (b0, b1, b2)
    /\ (b0 < a0 \/ (b0 = a0 /\ (b1 < a1 \/ (b1 = a1 /\ b2 < a2))))).
  { intros v w. unfold isNewerThan. rewrite bool_decide_eq_true, Hcmp.
    destruct (partsOf v) as [[[a0 a1] a2]|], (partsOf w) as [[[b0 b1] b2]|]; try (split; [done|by intros (?&?&?&?&?&?&?&?&?)]).
    split.
    - intros H. exists a0, a1, a2, b0, b1, b2. split; [done|]. split; [done|]. injection H as H.
      destruct (Z.compare_spec a0 b0); [|done|lia]. destruct (Z.compare_spec a1 b1); [|done|lia]. destruct (Z.compare_spec a2 b2); [done|done|lia].
    - intros (?&?&?&?&?&?&[= <- <- <-]&[= <- <- <-]&H). f_equal.
      destruct (Z.compare_spec a0 b0); [|lia|done]. destruct (Z.compare_spec a1 b1); [|lia|done]. destruct (Z.compare_spec a2 b2); [lia|lia|done]. }
  split.
  - intros v w Hv Hw. unfold releaseVersionSchema in Hv, Hw. apply bool_decide_eq_true in Hv as [[[a0 a1] a2] Ev], Hw as [[[b0 b1] b2] Ew].
    assert (Hf : forall x y, (isNewerThan x y = true -> False) -> isNewerThan x y = false) by (intros x y; by destruct (isNewerThan x y)).
    destruct (decide (v = w)) as [->|Hne].
    { right. right. split; [done|]. apply Hf. rewrite Hnew. intros (?&?&?&?&?&?&E1&E2&H). rewrite E1 in E2. injection E2 as <- <- <-. lia. }
    assert (Hp : (a0, a1, a2) <> (b0, b1, b2)) by (intros E; apply Hne; apply (partsOf_inj v w (a0, a1, a2)); congruence).
    assert (Hd : (b0 < a0 \/ (b0 = a0 /\ (b1 < a1 \/ (b1 = a1 /\ b2 < a2)))) \/ (a0 < b0 \/ (a0 = b0 /\ (a1 < b1 \/ (a1 = b1 /\ a2 < b2))))).
    { destruct (Z.lt_trichotomy a0 b0) as [?|[->|?]]; [lia| |lia]. destruct (Z.lt_trichotomy a1 b1) as [?|[->|?]]; [lia| |lia].
      destruct (Z.lt_trichotomy a2 b2) as [?|[->|?]]; [lia|done|lia]. }
    destruct Hd as [Hd|Hd]; [left|right; left]; (split; [apply Hnew; by eauto 12|]; split; [|done]); apply Hf; rewrite Hnew;
      intros (?&?&?&?&?&?&E1&E2&H); rewrite Ev, Ew in *; injection E1 as <- <- <-; injection E2 as <- <- <-; lia.
  - intros a b c. rewrite !Hnew. intros (a0&a1&a2&b0&b1&b2&Ea&Eb&H) (?&?&?&c0&c1&c2&Eb'&Ec&H'). rewrite Eb in Eb'. injection Eb' as <- <- <-.
    exists a0, a1, a2, c0, c1, c2. split; [done|]. split; [done|]. lia.
Qed.

(** ** A sequence of checks *)

(** The row, what was asked and when, and what the checks found. *)
Record Updates := MkUpdates { state : option UpdateStateRow; asked : list (Z * string); found : list UpdateCheckResult }.

Section Checks.
Variable JSON_parse : string -> option Json.
Variable too_long : thrown -> bool.
Variable build : BuildInfo.

(** A check at a time, with the answer it would get. *)
Definition check_at (event : Z * result PinnedResult) : M Updates UpdateCheckRun :=
  createUpdateCheck JSON_parse too_long build
    (gets state)
    (fun url w => (event.2, MkUpdates (state w) (asked w ++ [(event.1, url)]) (found w)))
    (fun source at_ result => modify (fun w => MkUpdates (recordCheck source at_ result (state w)) (asked w) (found w ++ [result])))
    (ret event.1).

Definition checks (events : list (Z * result PinnedResult)) (w : Updates) : Updates :=
  fold_left (fun w event => (check_at event w).2) events w.

Definition spaced (a b : Z * string) : Prop := a.1 + UPDATE_CHECK_INTERVAL_MS / 2 <= b.1.

(** The version of the last release that was found, or the one before. *)
Definition last_version (before : option string) (found : list UpdateCheckResult) : option string :=
  fold_left (fun latest result => match result with found_release release => Some (rel_version release) | _ => latest end) found before.

Definition source_of_row (row : option UpdateStateRow) : UpdateSource :=
  match row with None => PROJECT_SOURCE | Some row => MkSource (sourceOwner row) (sourceRepo row) end.

(** What a check does: nothing, or it asks once and records once. *)
Lemma check_at_cases event w :
  let w' := (check_at event w).2 in
  w' = w
  \/ exists result,
       w' = MkUpdates (recordCheck (source_of_row (state w)) event.1 result (state w)) (asked w ++ [(event.1, latestReleaseUrl (source_of_row (state w)))])
              (found w ++ [result])
       /\ updateSourceSchema (source_of_row (state w)) = true
       /\ (forall row, state w = Some row -> checkedAt row + UPDATE_CHECK_INTERVAL_MS / 2 <= event.1).
Proof.
  unfold check_at, createUpdateCheck. destruct (isDevelopmentBuild build); [by left|].
  unfold bind at 1 2, gets, ret at 1. destruct (match state w with Some row => _ | None => false end) eqn:Er; [by left|].
  destruct (sourceOf (state w)) as [source|] eqn:Es; [|by left]. right.
  assert (Hs : source = source_of_row (state w) /\ updateSourceSchema source = true).
  { unfold sourceOf, source_of_row in *. destruct (state w) as [row|]; [|by injection Es as <-].
    destruct (updateSourceSchema _) eqn:Eu; [|done]. by injection Es as <-. }
  destruct Hs as [-> Hs]. unfold bind, try_catch, ret, modify.
  assert (Hrow : forall row, state w = Some row -> checkedAt row + UPDATE_CHECK_INTERVAL_MS / 2 <= event.1) by (intros row E; rewrite E in Er; apply Z.ltb_ge in Er; lia).
  destruct event as [at_ [answer|e]]; cbn in *; rewrite Er, Es; by eexists.
Qed.

Lemma recordCheck_source source at_ result row : source = source_of_row row -> source_of_row (recordCheck source at_ result row) = source.
Proof. intros ->. unfold recordCheck, source_of_row. destruct result, row; cbn; done. Qed.

Definition orderly (start : option UpdateStateRow) (w : Updates) : Prop :=
  StronglySorted spaced (asked w)
  /\ (forall entry, In entry (asked w) -> entry.2 = latestReleaseUrl (source_of_row start) /\ updateSourceSchema (source_of_row start) = true
       /\ exists row, state w = Some row /\ entry.1 <= checkedAt row)
  /\ source_of_row (state w) = source_of_row start
  /\ (state w ≫= latestVersion) = last_version (start ≫= latestVersion) (found w).

Lemma check_keeps_order start event w : orderly start w -> orderly start (check_at event w).2.
Proof.
  intros H. destruct (check_at_cases event w) as [->|(result & -> & Hs & Hrow)]; [done|]. destruct H as (Ho & Ha & Hsrc & Hv).
  unfold orderly. cbn [asked state found]. split; [|split; [|split]].
  - apply StronglySorted_app_2; [|done|repeat constructor]. intros entry last Hin ->%list_elem_of_singleton.
    apply list_elem_of_In, Ha in Hin as (_ & _ & row & Er & Hle). unfold spaced. cbn. specialize (Hrow row Er). lia.
  - intros entry [Hin|[<-|[]]]%in_app_iff; cbn.
    + destruct (Ha entry Hin) as (Hu & Hv' & row & Er & Hle). split; [done|]. split; [done|].
      destruct result; eexists; (split; [unfold recordCheck; reflexivity|]); cbn; specialize (Hrow row Er);
        assert (0 <= UPDATE_CHECK_INTERVAL_MS / 2) by (by vm_compute); lia.
    + rewrite Hsrc in *. split; [done|]. split; [done|]. destruct result; eexists; (split; [unfold recordCheck; reflexivity|]); cbn; lia.
  - rewrite recordCheck_source by done. exact Hsrc.
  - unfold last_version. rewrite fold_left_app. fold (last_version (start ≫= latestVersion) (found w)). rewrite <- Hv.
    destruct result, (state w); done.
Qed.

(** C31: However the checks for updates end and whenever they run, they ask only
    for the latest release of the source that is recorded, when it is the name
    of a repository; two of them ask at least three hours apart; and the version
    that is recorded stays the one last found, whatever fails after it. *)
Theorem checks_are_spaced_and_keep_the_release start events :
  let w := checks events (MkUpdates start [] []) in
  StronglySorted spaced (asked w)
  /\ (forall at_ url, In (at_, url) (asked w) -> url = latestReleaseUrl (source_of_row start) /\ updateSourceSchema (source_of_row start) = true)
  /\ (state w ≫= latestVersion) = last_version (start ≫= latestVersion) (found w).
Proof.
  cbv zeta. assert (H : orderly start (checks events (MkUpdates start [] []))).
  { unfold checks. assert (H : orderly start (MkUpdates start [] [])) by (split; [constructor|]; split; [done|]; split; done).
    revert H. generalize (MkUpdates start [] []). induction events as [|event events IH]; intros w H; [done|]. simpl. apply IH. by apply check_keeps_order. }
  destruct H as (Ho & Ha & _ & Hv). split; [done|]. split; [|done]. intros at_ url Hin. destruct (Ha _ Hin) as (H1 & H2 & _). done.
Qed.
End Checks.

(** ** Server and worker

    [fleet-status.ts] and [process-identity.repository.ts]: both announce
    themselves and keep saying that they run, and the server judges the worker by
    it. *)

Module FleetStatus.

Definition WORKER_STALE_AFTER_MS : Z := 3 * 60 * 1000.
Definition HEARTBEAT_MS : Z := 60000.

Inductive ProcessRole := process_server | process_worker.

#[global] Instance ProcessRole_eq_dec : EqDecision ProcessRole.
Proof. solve_decision. Defined.

Record ProcessRecord := MkProcess {
  pr_role : ProcessRole; pr_build : BuildInfo; pr_schemaVersion : string; pr_startedAt : Z; pr_seenAt : Z }.

Inductive ControlPlaneCondition := cp_healthy | cp_worker_missing | cp_worker_stale | cp_version_skew | cp_schema_skew.

#[global] Instance ControlPlaneCondition_eq_dec : EqDecision ControlPlaneCondition.
Proof. solve_decision. Defined.

Definition isStale (seenAt now : Z) : bool := WORKER_STALE_AFTER_MS <? now - seenAt.

Definition conditionFor (server : BuildInfo) (schemaVersion : string) (worker : option ProcessRecord) (now : Z) : ControlPlaneCondition :=
  match worker with
  | None => cp_worker_missing
  | Some worker =>
      if isStale (pr_seenAt worker) now then cp_worker_stale
      else if negb (sameBuild server (pr_build worker)) then cp_version_skew
      else if negb (schemaVersion ≡? pr_schemaVersion worker) then cp_schema_skew
      else cp_healthy
  end.

Definition CONDITION_EXPLANATION (condition : ControlPlaneCondition) : string :=
  match condition with
  | cp_healthy => "The control plane and its worker are running the same build."
  | cp_worker_missing => "No worker has ever reported in. Host teardown and other background work will not run until one does."
  | cp_worker_stale => "The worker has stopped reporting in. Background work is queued but nothing is running it."
  | cp_version_skew => "The worker is running a different build from this control plane. Finish the upgrade so both run the same version."
  | cp_schema_skew => "The worker applied a different database schema from this control plane. Finish the upgrade before relying on background work."
  end.

Definition needsAttention (condition : ControlPlaneCondition) : bool := negb (condition ≡? cp_healthy).

(** The table has a row for a role, at most. *)
Definition of_role (role : ProcessRole) (r : ProcessRecord) : bool := pr_role r ≡? role.

Definition announce (role : ProcessRole) (build : BuildInfo) (schemaVersion : string) (at_ : Z) (t : list ProcessRecord) : list ProcessRecord :=
  let row := MkProcess role build schemaVersion at_ at_ in
  if existsb (of_role role) t then update_where (of_role role) (fun _ => row) t else t ++ [row].

Definition heartbeat (role : ProcessRole) (at_ : Z) (t : list ProcessRecord) : list ProcessRecord :=
  update_where (of_role role) (fun r => MkProcess (pr_role r) (pr_build r) (pr_schemaVersion r) (pr_startedAt r) at_) t.

Definition find (role : ProcessRole) (t : list ProcessRecord) : option ProcessRecord := select_first (of_role role) t.

(** What the processes do, one after the other. *)
Inductive ProcessEvent :=
  | announced (role : ProcessRole) (build : BuildInfo) (schemaVersion : string) (at_ : Z)
  | beat (role : ProcessRole) (at_ : Z).

Definition process_step (t : list ProcessRecord) (event : ProcessEvent) : list ProcessRecord :=
  match event with
  | announced role build schemaVersion at_ => announce role build schemaVersion at_ t
  | beat role at_ => heartbeat role at_ t
  end.

(** The last build a process announced, and when it was last seen. *)
Definition last_seen (role : ProcessRole) (before : option (BuildInfo * string * Z)) (event : ProcessEvent) : option (BuildInfo * string * Z) :=
  match event with
  | announced role' build schemaVersion at_ => if role' ≡? role then Some (build, schemaVersion, at_) else before
  | beat role' at_ => if role' ≡? role then option_map (fun b => (b.1, at_)) before else before
  end.

Definition told (r : ProcessRecord) : BuildInfo * string * Z := (pr_build r, pr_schemaVersion r, pr_seenAt r).

Lemma find_update role role' f t :
  (forall r, pr_role r = role' -> pr_role (f r) = role') ->
  find role (update_where (of_role role') f t) = if role' ≡? role then option_map f (find role t) else find role t.
Proof.
  intros Hf. unfold find, select_first, select, update_where, of_role. induction t as [|r t IH]; [by destruct (role' ≡? role)|]. simpl.
  destruct (decide (pr_role r = role')) as [Hr|Hr].
  - rewrite (bool_decide_eq_true_2 _ Hr). rewrite (Hf r Hr), Hr. destruct (role' ≡? role) eqn:E; simpl; [done|]. exact IH.
  - rewrite (bool_decide_eq_false_2 _ Hr). destruct (pr_role r ≡? role) eqn:E; simpl; [|exact IH].
    tests. subst. by rewrite (bool_decide_eq_false_2 (role' = pr_role r)) by congruence.
Qed.

Lemma find_announced role role' build schemaVersion at_ t :
  find role (announce role' build schemaVersion at_ t)
  = if role' ≡? role then Some (MkProcess role' build schemaVersion at_ at_) else find role t.
Proof.
  unfold announce. destruct (existsb (of_role role') t) eqn:E.
  - rewrite find_update by done. destruct (decide (role' = role)) as [->|Hn].
    + rewrite bool_decide_eq_true_2 by done. apply existsb_exists in E as (r & Hr & Ho).
      unfold find, select_first, select. assert (Hf : In r (List.filter (of_role role) t)) by (by apply filter_In).
      by destruct (List.filter (of_role role) t).
    + by rewrite bool_decide_eq_false_2 by done.
  - unfold find, select_first, select. rewrite List.filter_app. simpl. unfold of_role at 2. simpl.
    destruct (decide (role' = role)) as [->|Hn].
    + rewrite bool_decide_eq_true_2 by done. replace (List.filter (of_role role) t) with (@nil ProcessRecord); [done|].
      symmetry. clear -E. induction t as [|r t IH]; [done|]. simpl in *. apply orb_false_iff in E as [E1 E2]. rewrite E1. by apply IH.
    + rewrite bool_decide_eq_false_2 by done. by rewrite app_nil_r.
Qed.

(** The row of a process is what it last announced and when it was last seen, so
    the worker is judged by its last words, whatever the server says. *)
Theorem processes_are_judged_by_their_last_words role events t :
  option_map told (find role (fold_left process_step events t)) = fold_left (last_seen role) events (option_map told (find role t)).
Proof.
  revert t. induction events as [|event events IH]; intros t; [done|]. simpl. rewrite IH. f_equal.
  destruct event as [role' build schemaVersion at_|role' at_]; simpl.
  - rewrite find_announced. by destruct (role' ≡? role).
  - unfold heartbeat. rewrite find_update by done. destruct (role' ≡? role); [|done]. by destruct (find role t).
Qed.
End FleetStatus.
