(* ===== verification/SealedBox.v ===== *)
(** Secrets at rest.

    [packages/core/src/crypto/sealed-box.ts]: the keys of a list of pairs, the
    first of which seals, and each of which opens what it sealed.  The box and
    the codecs of the library are arguments; a seal draws a nonce.  A theorem
    says that secrets survive the rotation of keys.  [SshKeys] has the keys
    machines are reached with (ssh-key.controller.ts, ssh-key.repository.ts and
    the comment of a key in generate.ts of [packages/core/src/ssh-key]): a stored
    key opens to the private half that was made, and machines keep their keys.
    [SelfHost] enrolls the machine the manager runs on (self-host.controller.ts of
    [packages/core/src/self-host]) with the key it came with. *)

From S2P Require Import Prelude Tables Dates Shell TaskStore Access HostStore InstanceStore.

Record KeyEntry := MkKey { entry_keyId : string; publicKey : list Z; privateKey : list Z }.

Definition SELF_TEST_PLAINTEXT : string := "open-mcc-manager sealed-box self-test".
Definition KNOWN_INSECURE_KEY_ID : string := "dev-insecure-publicly-known".

Definition usesKnownInsecureKey (sealboxKeys : string) : bool :=
  existsb (fun entry => startsWith (KNOWN_INSECURE_KEY_ID +:+ ":") (trim entry)) (split_on "," sealboxKeys).

(** What is used of the library: lengths of keys, base64, text, and the box. *)
Record Sodium := MkSodium {
  crypto_box_PUBLICKEYBYTES : nat; crypto_box_SECRETKEYBYTES : nat;
  to_base64 : list Z -> string; from_base64 : string -> result (list Z);
  from_string : string -> list Z; to_string : list Z -> result string;
  crypto_box_keypair : nat -> list Z * list Z;
  crypto_box_seal : nat -> list Z -> list Z -> list Z;
  crypto_box_seal_open : list Z -> list Z -> list Z -> result (list Z) }.

Section Store.
Variable sodium : Sodium.

Definition generateKeyPair (seed : nat) (keyId : string) : string :=
  let pair := crypto_box_keypair sodium seed in
  keyId +:+ ":" +:+ to_base64 sodium pair.1 +:+ ":" +:+ to_base64 sodium pair.2.

Definition nonempty (value : string) : bool := negb (value ≡? EmptyString).

Definition parseEntry (raw : string) : result KeyEntry :=
  match split_on ":" raw with
  | [keyId; pub; priv] =>
      if nonempty keyId && nonempty pub && nonempty priv then
        let+ publicKey := from_base64 sodium pub in
        let+ privateKey := from_base64 sodium priv in
        Ok (MkKey keyId publicKey privateKey)
      else Throw (internal "SEALBOX_KEYS entry must be keyId:publicKey:privateKey")
  | _ => Throw (internal "SEALBOX_KEYS entry must be keyId:publicKey:privateKey")
  end.

(** Sealed and opened again. *)
Definition self_test (nonce : nat) (entry : KeyEntry) : result string :=
  let sealed := crypto_box_seal sodium nonce (from_string sodium SELF_TEST_PLAINTEXT) (publicKey entry) in
  let+ opened := crypto_box_seal_open sodium sealed (publicKey entry) (privateKey entry) in
  to_string sodium opened.

Definition verifyKeyPair (nonce : nat) (entry : KeyEntry) : result unit :=
  let about text := "Key pair '" +:+ entry_keyId entry +:+ "' " +:+ text in
  if negb (length (publicKey entry) =? crypto_box_PUBLICKEYBYTES sodium)%nat then Throw (internal (about "has an invalid public key length"))
  else if negb (length (privateKey entry) =? crypto_box_SECRETKEYBYTES sodium)%nat then Throw (internal (about "has an invalid private key length"))
  else
    match self_test nonce entry with
    | Ok opened => if opened ≡? SELF_TEST_PLAINTEXT then Ok tt else Throw (internal (about "failed its seal/open self-test"))
    | Throw _ => Throw (internal (about "failed its seal/open self-test"))
    end.

Fixpoint parse_entries (parts : list string) : result (list KeyEntry) :=
  match parts with
  | [] => Ok []
  | part :: rest => let+ entry := parseEntry part in let+ entries := parse_entries rest in Ok (entry :: entries)
  end.

Fixpoint check_unique (seen : list string) (entries : list KeyEntry) : result unit :=
  match entries with
  | [] => Ok tt
  | entry :: rest =>
      if bool_decide (entry_keyId entry ∈ seen) then Throw (internal ("Duplicate keyId '" +:+ entry_keyId entry +:+ "' in SEALBOX_KEYS"))
      else check_unique (entry_keyId entry :: seen) rest
  end.

(** Each test draws a nonce. *)
Fixpoint verify_all (nonce : nat) (entries : list KeyEntry) : result unit :=
  match entries with [] => Ok tt | entry :: rest => let+ _ := verifyKeyPair nonce entry in verify_all (S nonce) rest end.

Record SecretStore := MkStore { active : KeyEntry; others : list KeyEntry }.

Definition entries_of (spec : string) : list string := List.filter nonempty (map trim (split_on "," spec)).

Definition createSecretStore (spec : string) : result SecretStore :=
  let+ entries := parse_entries (entries_of spec) in
  let+ _ := check_unique [] entries in
  let+ _ := verify_all 0 entries in
  match entries with
  | [] => Throw (internal "SEALBOX_KEYS must contain at least one key")
  | active :: rest => Ok (MkStore active rest)
  end.

Definition all_keys (store : SecretStore) : list KeyEntry := active store :: others store.

Definition seal (store : SecretStore) (nonce : nat) (plaintext : string) : SealedValue :=
  MkSealed (to_base64 sodium (crypto_box_seal sodium nonce (from_string sodium plaintext) (publicKey (active store)))) (entry_keyId (active store)).

(** [open(ciphertext, keyId)] *)
Definition open_sealed (store : SecretStore) (sealed : SealedValue) : result string :=
  match List.find (fun entry => entry_keyId entry ≡? keyId sealed) (all_keys store) with
  | None => Throw (internal ("No key available for keyId '" +:+ keyId sealed +:+ "'"))
  | Some entry =>
      let+ boxed := from_base64 sodium (ciphertext sealed) in
      let+ opened := crypto_box_seal_open sodium boxed (publicKey entry) (privateKey entry) in
      to_string sodium opened
  end.
End Store.

(** ** Rotation *)

Section Rotation.
Variable sodium : Sodium.
Abbreviation createSecretStore := (createSecretStore sodium).

(** What the library promises: a pair that passes the test opens all that is
    sealed to it, and what is sealed or encoded is read back. *)
Class Boxes : Prop := {
  opens_all : forall entry nonce, self_test sodium nonce entry = Ok SELF_TEST_PLAINTEXT ->
    forall nonce' text, let sealed := crypto_box_seal sodium nonce' (from_string sodium text) (publicKey entry) in
    crypto_box_seal_open sodium sealed (publicKey entry) (privateKey entry) = Ok (from_string sodium text);
  base64_read : forall nonce text key, let sealed := crypto_box_seal sodium nonce text key in
    from_base64 sodium (to_base64 sodium sealed) = Ok sealed;
  text_read : forall text, to_string sodium (from_string sodium text) = Ok text }.

Lemma parse_entries_in parts entries part :
  parse_entries sodium parts = Ok entries -> In part parts -> exists entry, parseEntry sodium part = Ok entry /\ In entry entries.
Proof.
  revert entries. induction parts as [|p parts IH]; intros entries H; [done|]. cbn in H.
  destruct (parseEntry sodium p) as [entry|] eqn:Ep; [|done]. destruct (parse_entries sodium parts) as [rest|] eqn:Er; [|done]. injection H as <-.
  intros [->|Hin]; [exists entry; split; [done|by left]|]. destruct (IH rest eq_refl Hin) as (e & He & Hi). exists e. split; [done|by right].
Qed.

Lemma check_unique_finds seen entries entry :
  check_unique seen entries = Ok tt -> In entry entries ->
  entry_keyId entry ∉ seen /\ List.find (fun e => entry_keyId e ≡? entry_keyId entry) entries = Some entry.
Proof.
  revert seen. induction entries as [|e entries IH]; intros seen H; [done|]. cbn in H. destruct (bool_decide _) eqn:Ed; [done|].
  apply bool_decide_eq_false in Ed. intros [->|Hin]; cbn; [by rewrite bool_decide_eq_true_2|].
  destruct (IH _ H Hin) as [Hn Hf]. rewrite not_elem_of_cons in Hn. destruct Hn as [Hne Hn]. split; [done|].
  by rewrite bool_decide_eq_false_2 by congruence.
Qed.

Lemma verify_all_tested nonce entries entry :
  verify_all sodium nonce entries = Ok tt -> In entry entries -> exists n, self_test sodium n entry = Ok SELF_TEST_PLAINTEXT.
Proof.
  revert nonce. induction entries as [|e entries IH]; intros nonce H; [done|]. cbn in H.
  destruct (verifyKeyPair sodium nonce e) as [[]|] eqn:Ev; [|done]. cbn in H. intros [->|Hin]; [|by eapply IH].
  unfold verifyKeyPair in Ev. destruct (negb _); [done|]. destruct (negb _); [done|]. exists nonce.
  destruct (self_test sodium nonce entry) as [opened|]; [|done]. destruct (opened ≡? SELF_TEST_PLAINTEXT) eqn:Eo; [|done]. tests. by subst.
Qed.

(** What making a store has made sure of. *)
Lemma store_made spec store : createSecretStore spec = Ok store ->
  parse_entries sodium (entries_of spec) = Ok (all_keys store) /\ check_unique [] (all_keys store) = Ok tt /\ verify_all sodium 0 (all_keys store) = Ok tt.
Proof.
  unfold SealedBox.createSecretStore, rbind. destruct (parse_entries sodium (entries_of spec)) as [entries|]; [|done].
  destruct (check_unique [] entries) as [[]|] eqn:Eu; [|done]. destruct (verify_all sodium 0 entries) as [[]|] eqn:Ev; [|done].
  destruct entries as [|a rest]; [done|]. by intros [= <-].
Qed.

(** A store opens what any of its keys sealed. *)
Lemma opens_what_its_key_sealed `{!Boxes} spec store entry nonce plaintext :
  createSecretStore spec = Ok store -> In entry (all_keys store) ->
  open_sealed sodium store
    (MkSealed (to_base64 sodium (crypto_box_seal sodium nonce (from_string sodium plaintext) (publicKey entry))) (entry_keyId entry)) = Ok plaintext.
Proof.
  intros Hs Hi. apply store_made in Hs as (_ & Eu & Ev).
  destruct (check_unique_finds _ _ _ Eu Hi) as [_ Hf]. destruct (verify_all_tested _ _ _ Ev Hi) as [n Ht].
  unfold open_sealed. cbn [keyId ciphertext]. rewrite Hf, base64_read. cbn [rbind].
  rewrite (opens_all _ _ Ht). apply text_read.
Qed.

(** C30: What was sealed before the keys were changed is opened after it, as long
    as the list still names the key that sealed it, wherever it stands now; and
    nothing else is asked of the new keys but that they make a store. *)
Theorem secrets_survive_rotation `{!Boxes} old new store store' nonce plaintext :
  createSecretStore old = Ok store -> createSecretStore new = Ok store' ->
  (forall part, head (entries_of old) = Some part -> In part (entries_of new)) ->
  open_sealed sodium store' (seal sodium store nonce plaintext) = Ok plaintext.
Proof.
  intros Ho Hn Hin. apply store_made in Ho as (Ep & _ & _). pose proof Hn as (Ep' & _ & _)%store_made.
  destruct (entries_of old) as [|part rest]; [done|]. cbn in Ep. destruct (parseEntry sodium part) as [entry|] eqn:Ee; [|done].
  assert (Ha : active store = entry).
  { destruct (parse_entries sodium rest); [|done]. cbn in Ep. by injection Ep as <- _. }
  destruct (parse_entries_in _ _ part Ep' (Hin part eq_refl)) as (e & Ee' & Hi). rewrite Ee in Ee'. injection Ee' as <-.
  unfold seal. rewrite Ha. by eapply opens_what_its_key_sealed.
Qed.
End Rotation.

(** ** A box to try it with *)

(** A seal shifts the text by the key. *)
Definition shifted (key : list Z) (by_ : Z -> Z -> Z) (bytes : list Z) : list Z := map (by_ (nth 0 key 0)) bytes.

Fixpoint codes (text : string) : list Z :=
  match text with EmptyString => [] | String c rest => Z.of_nat (Ascii.nat_of_ascii c) :: codes rest end.

Definition text_of (bytes : list Z) : string := fold_right (fun b rest => String (Ascii.ascii_of_nat (Z.to_nat (b mod 256))) rest) EmptyString bytes.

Definition wrapped (n : Z) : Z := n mod 256.

Definition toy : Sodium := {|
  crypto_box_PUBLICKEYBYTES := 1; crypto_box_SECRETKEYBYTES := 1;
  to_base64 := text_of; from_base64 text := Ok (codes text);
  from_string := codes; to_string bytes := Ok (text_of bytes);
  crypto_box_keypair seed := ([Z.of_nat seed], [Z.of_nat seed]);
  crypto_box_seal _ text key := shifted key (fun k b => wrapped (b + k)) text;
  crypto_box_seal_open sealed pub key :=
    if pub ≡? key then Ok (shifted key (fun k b => wrapped (b - k)) sealed) else Throw (internal "incorrect key pair for the given ciphertext") |}.

Lemma text_of_codes text : text_of (codes text) = text.
Proof.
  induction text as [|c text IH]; [done|]. cbn [codes text_of fold_right]. fold (text_of (codes text)). rewrite IH. f_equal.
  pose proof (Ascii.nat_ascii_bounded c). rewrite Z.mod_small by lia. by rewrite Nat2Z.id, Ascii.ascii_nat_embedding.
Qed.

Lemma codes_text_of bytes : Forall (fun b => 0 <= b < 256) bytes -> codes (text_of bytes) = bytes.
Proof.
  induction 1 as [|b bytes Hb _ IH]; [done|]. cbn [text_of fold_right]. fold (text_of bytes). cbn [codes]. rewrite IH. f_equal.
  rewrite Z.mod_small by lia. rewrite Ascii.nat_ascii_embedding; lia.
Qed.

Lemma codes_range text : Forall (fun b => 0 <= b < 256) (codes text).
Proof. induction text as [|c text IH]; constructor; [|done]. pose proof (Ascii.nat_ascii_bounded c). lia. Qed.

#[export] Instance toy_boxes : Boxes toy.
Proof.
  split; cbn.
  - intros entry nonce Ht _ text. unfold self_test in Ht. cbn in Ht. destruct (publicKey entry ≡? privateKey entry) eqn:E; [|done].
    tests. rewrite E. unfold shifted. rewrite map_map. f_equal. rewrite <- (map_id (codes text)) at 2. apply map_ext_in. intros b Hb.
    rewrite <- list_elem_of_In in Hb. pose proof (codes_range text) as Hr. rewrite Forall_forall in Hr. specialize (Hr b Hb).
    unfold wrapped. rewrite Zminus_mod_idemp_l. rewrite Z.mod_small; lia.
  - intros _ text key. f_equal. apply codes_text_of. apply Forall_forall. intros b Hb. apply list_elem_of_In, in_map_iff in Hb as (x & <- & _).
    unfold wrapped. apply Z.mod_pos_bound. lia.
  - intros text. by rewrite text_of_codes.
Qed.

(** The key that sealed is the second of the new list. *)
Lemma secrets_survive_rotation_witness :
  exists store store', createSecretStore toy "a:k:k" = Ok store /\ createSecretStore toy "b:z:z, a:k:k" = Ok store' /\
    ciphertext (seal toy store 0 "hello") <> "hello" /\ open_sealed toy store' (seal toy store 0 "hello") = Ok "hello".
Proof.
  eexists _, _. split; [vm_compute; reflexivity|]. split; [vm_compute; reflexivity|]. split; [vm_compute; congruence|].
  apply (secrets_survive_rotation toy "a:k:k" "b:z:z, a:k:k"); [vm_compute; reflexivity..|].
  intros part [= <-]. right. by left.
Defined.

(** ** The keys of machines *)

Module SshKeys.

(** ** The comment of a key *)

Definition COMMENT_PREFIX : string := "open-mcc".

Definition comment_char (c : Ascii.ascii) : bool :=
  let n := Ascii.nat_of_ascii c in
  ((48 <=? n)%nat && (n <=? 57)%nat) || ((65 <=? n)%nat && (n <=? 90)%nat) || ((97 <=? n)%nat && (n <=? 122)%nat)
  || bool_decide (c ∈ ["."; "_"; "-"]%char).

(** [replace(/[^A-Za-z0-9._-]+/g, "-")]; [inside] a run that was replaced *)
Fixpoint collapsed (inside : bool) (name : string) : string :=
  match name with
  | EmptyString => EmptyString
  | String c rest =>
      if comment_char c then String c (collapsed false rest)
      else if inside then collapsed true rest else String "-" (collapsed true rest)
  end.

Fixpoint without_dashes (value : string) : string :=
  match value with String c rest => if c ≡? "-"%char then without_dashes rest else value | EmptyString => EmptyString end.

Definition withoutSurroundingDashes (value : string) : string := String.rev (without_dashes (String.rev (without_dashes value))).

Definition keyComment (name : string) : string :=
  let safe := String.substring 0 48 (withoutSurroundingDashes (collapsed false (trim name))) in
  if (0 <? String.length safe)%nat then COMMENT_PREFIX +:+ ":" +:+ safe else COMMENT_PREFIX.

(** ** The table *)

Record GeneratedSshKeyPair := MkPair { pair_publicKey : string; pair_privateKey : string }.

Record KeyRow := MkKeyRow {
  kr_id : string; kr_organizationId : string; kr_name : string; kr_publicKey : string; kr_sealed : SealedValue;
  kr_createdAt : Z }.

Record KeyTables := MkKeyTables { keys : list KeyRow; machines : HostRepository.Table; events : AuditRepository.Table }.

Definition with_keys (rows : list KeyRow) (t : KeyTables) : KeyTables := MkKeyTables rows (machines t) (events t).
Definition with_events (rows : AuditRepository.Table) (t : KeyTables) : KeyTables := MkKeyTables (keys t) (machines t) rows.

Definition KEY_NAME_CONSTRAINT : string := "sshKey_org_name_unique".
Definition KEY_OF_HOST_CONSTRAINT : string := "host_sshKey_org_fk".

(** [constraintViolationOf(error)?.kind === "foreignKey"] *)
Definition violates_foreign_key (error : thrown) : bool := constraintViolationOf error ≡? Some KEY_OF_HOST_CONSTRAINT.

Definition uses_key (organizationId id : string) (h : HostRow) : bool :=
  (host_organizationId h ≡? organizationId) && (sshKeyId (host_address h) ≡? Some id).

Module SshKeyRepository.

Definition insert (organizationId newId : string) (createdAt : Z) (name publicKey : string) (sealed : SealedValue)
    : M KeyTables KeyRow := fun t =>
  if existsb (fun k => (kr_organizationId k ≡? organizationId) && (kr_name k ≡? name)) (keys t)
  then (Throw (ConstraintViolation KEY_NAME_CONSTRAINT), t)
  else let row := MkKeyRow newId organizationId name publicKey sealed createdAt in (Ok row, with_keys (keys t ++ [row]) t).

Definition is_key (organizationId id : string) (k : KeyRow) : bool := (kr_id k ≡? id) && (kr_organizationId k ≡? organizationId).

Definition findById (organizationId id : string) (t : KeyTables) : option KeyRow := select_first (is_key organizationId id) (keys t).

Definition list_ (organizationId : string) (t : KeyTables) : list KeyRow :=
  select (fun k => kr_organizationId k ≡? organizationId) (keys t).

Definition delete (organizationId id : string) : M KeyTables bool := fun t =>
  let gone := affected (is_key organizationId id) (keys t) in
  if (0 <? gone)%nat && existsb (uses_key organizationId id) (machines t)
  then (Throw (ConstraintViolation KEY_OF_HOST_CONSTRAINT), t)
  else (Ok (0 <? gone)%nat, with_keys (delete_where (is_key organizationId id) (keys t)) t).
End SshKeyRepository.
Import SshKeyRepository.

(** ** The requests *)

Definition SshKeyInUseError (message : string) : thrown := ThrownError (NamedError "SshKeyInUseError") message.

Record SshKeyPublic := MkPublic { pu_id : string; pu_name : string; pu_publicKey : string; pu_createdAt : string }.

Definition toPublic (row : KeyRow) : SshKeyPublic := MkPublic (kr_id row) (kr_name row) (kr_publicKey row) (toISOString (kr_createdAt row)).

Definition requireKeyManage (ctx : ActorContext) : result unit :=
  if can (ctx_role ctx) sshKey_manage then Ok tt else Throw (ForbiddenError "Forbidden: sshKey.manage").

Definition deleteUnlessInUse (organizationId sshKeyId : string) : M KeyTables bool :=
  try_catch (delete organizationId sshKeyId) (fun error =>
    if violates_foreign_key error then throw (SshKeyInUseError ("SSH key " +:+ sshKeyId +:+ " is still referenced by an enrolled host"))
    else throw error).

Section Controller.
Context {X : Type}.
Variable newId : M X string.
Variable dbNow : Z.
Variable generateKeyPair : string -> M X GeneratedSshKeyPair.
Variable seal : string -> M X SealedValue.

Abbreviation W := (KeyTables * X)%type.

Definition withTransaction {A} (m : M W A) : M W A := transaction (fun before after => (before.1, after.2)) m.

Definition record (ctx : ActorContext) (action subjectId : string) (detail : list (string * string)) : M W unit :=
  let* auditId := on_snd newId in
  on_fst (fun t =>
    match AuditRepository.record (ctx_organizationId ctx) auditId dbNow
            (MkAuditEntry (Some (ctx_memberId ctx)) (ctx_actorLabel ctx) action "sshKey" subjectId detail) (events t) with
    | (r, rows) => (r, with_events rows t)
    end) ;;;
  ret tt.

Definition list_keys (ctx : ActorContext) : M W (list SshKeyPublic) :=
  lift (requireKeyManage ctx) ;;;
  let* rows := on_fst (gets (list_ (ctx_organizationId ctx))) in
  ret (map toPublic rows).

Definition create (ctx : ActorContext) (name : string) : M W SshKeyPublic :=
  lift (requireKeyManage ctx) ;;;
  let* generated := on_snd (generateKeyPair name) in
  let* sealed := on_snd (seal (pair_privateKey generated)) in
  let* created := withTransaction (
    let* keyId := on_snd newId in
    let* row := on_fst (insert (ctx_organizationId ctx) keyId dbNow name (pair_publicKey generated) sealed) in
    record ctx "sshKey.create" (kr_id row) [("name", name)] ;;;
    ret row) in
  ret (toPublic created).

Definition remove (ctx : ActorContext) (sshKeyId : string) : M W bool :=
  lift (requireKeyManage ctx) ;;;
  withTransaction (
    let* removed := on_fst (deleteUnlessInUse (ctx_organizationId ctx) sshKeyId) in
    (if removed : bool then record ctx "sshKey.delete" sshKeyId [] else ret tt) ;;;
    ret removed).
End Controller.

(** ** The comment is short *)

Lemma keyComment_short name : (String.length (keyComment name) <= 57)%nat.
Proof.
  unfold keyComment. set (value := withoutSurroundingDashes _). assert (H : forall n s, (String.length (String.substring 0 n s) <= n)%nat).
  { induction n as [|n IH]; intros [|c s]; cbn; try lia. specialize (IH s). lia. }
  specialize (H 48%nat value). set (safe := String.substring _ _ _) in *. clearbody safe. destruct (0 <? _)%nat; rewrite ?string_length_app; cbn; lia.
Qed.

(** ** What is stored *)

Section Stored.
Context {X : Type}.
Variable newId : M X string.
Variable dbNow : Z.
Variable generateKeyPair : string -> M X GeneratedSshKeyPair.

Lemma recorded_key_event ctx action subjectId detail (t : KeyTables) (x : X) u t' x' :
  record newId dbNow ctx action subjectId detail (t, x) = (Ok u, (t', x')) -> exists event, t' = with_events (events t ++ [event]) t.
Proof.
  unfold record, bind, on_snd, on_fst, AuditRepository.record, lift, stmt, bind. cbn [fst snd].
  destruct (newId x) as [[auditId|e] x1]; [|done]. cbn [fst snd]. destruct (resolveActorLabel _) as [label|e]; [|done].
  intros [= _ <- _]. by eexists.
Qed.

(** How a request to make a key ends. *)
Lemma create_ends seal ctx name t x r t' x' :
  create newId dbNow generateKeyPair seal ctx name (t, x) = (r, (t', x')) ->
  match r with
  | Throw _ => t' = t
  | Ok view => exists generated sealed row x1 x2 event,
      generateKeyPair name x = (Ok generated, x1) /\ seal (pair_privateKey generated) x1 = (Ok sealed, x2)
      /\ view = toPublic row /\ kr_publicKey row = pair_publicKey generated /\ kr_sealed row = sealed
      /\ kr_organizationId row = ctx_organizationId ctx
      /\ t' = with_events (events t ++ [event]) (with_keys (keys t ++ [row]) t)
  end.
Proof.
  unfold create, bind at 1, lift. destruct (requireKeyManage ctx) as [[]|e]; [|by intros [= <- <- _]].
  unfold bind at 1, on_snd at 1. cbn [fst snd]. destruct (generateKeyPair name x) as [[generated|e] x1] eqn:Eg; [|by intros [= <- <- _]].
  unfold bind at 1, on_snd at 1. cbn [fst snd]. destruct (seal _ x1) as [[sealed|e] x2] eqn:Es; [|by intros [= <- <- _]].
  unfold bind at 1, withTransaction, transaction. destruct (bind _ _ (t, x2)) as [[row|e] [t3 x3]] eqn:E; [|by intros [= <- <- _]].
  intros [= <- <- _]. apply bind_ok in E as (keyId & [t4 x4] & E1 & E).
  unfold on_snd in E1. cbn [fst snd] in E1. destruct (newId x2) as [[id|e] x5]; [|done]. injection E1 as _ <- _.
  apply bind_ok in E as (row' & [t5 x6] & E2 & E). unfold on_fst, insert in E2. cbn [fst snd] in E2. destruct (existsb _ _); [done|].
  injection E2 as <- <- _. apply bind_ok in E as (u & [t6 x7] & E3 & E). injection E as <- <- _.
  apply recorded_key_event in E3 as (event & ->). exists generated, sealed. by eexists _, x1, x2, event.
Qed.

(** How a request to remove a key ends. *)
Lemma key_removal_ends ctx id t x r t' x' :
  remove newId dbNow ctx id (t, x) = (r, (t', x')) ->
  t' = t \/ r = Ok true /\ existsb (uses_key (ctx_organizationId ctx) id) (machines t) = false
     /\ exists event, t' = with_events (events t ++ [event]) (with_keys (delete_where (is_key (ctx_organizationId ctx) id) (keys t)) t).
Proof.
  unfold remove, bind at 1, lift. destruct (requireKeyManage ctx) as [[]|e]; [|intros [= _ <- _]; by left].
  unfold withTransaction, transaction. destruct (bind _ _ (t, x)) as [[gone|e] [t1 x1]] eqn:E; [|intros [= _ <- _]; by left].
  intros [= <- <- _]. apply bind_ok in E as (removed & [t2 x2] & E1 & E). unfold on_fst, deleteUnlessInUse, try_catch, delete in E1.
  cbn [fst snd] in E1. unfold affected in E1. destruct (0 <? length (select (is_key (ctx_organizationId ctx) id) (keys t)))%nat eqn:El; cbn [andb] in E1.
  - destruct (existsb (uses_key _ _) (machines t)) eqn:Eu; [done|]. injection E1 as <- <- _.
    apply bind_ok in E as (u & [t3 x3] & E3 & E). injection E as <- <- _. apply recorded_key_event in E3 as (event & ->). right. eauto.
  - apply Nat.ltb_ge in El. injection E1 as <- <- _. apply bind_ok in E as (u & [t3 x3] & E3 & E). injection E3 as _ <- _. injection E as _ <- _. left.
    destruct t as [ks ms es]. unfold with_keys. cbn in *. f_equal. clear -El.
    induction ks as [|k ks IH]; [done|]. unfold select, delete_where in *. simpl in *. destruct (is_key _ id k); simpl in *; [lia|]. f_equal. by apply IH.
Qed.

(** ** Machines keep their keys *)

Inductive KeyRequest := ask_create (ctx : ActorContext) (name : string) | ask_remove (ctx : ActorContext) (keyId : string).

Variable seal : string -> M X SealedValue.

Definition carry_out (s : KeyTables * X) (request : KeyRequest) : KeyTables * X :=
  match request with
  | ask_create ctx name => (create newId dbNow generateKeyPair seal ctx name s).2
  | ask_remove ctx keyId => (remove newId dbNow ctx keyId s).2
  end.

Definition machine_has_key (t : KeyTables) (h : HostRow) : Prop :=
  forall id, sshKeyId (host_address h) = Some id -> exists k, In k (keys t) /\ is_key (host_organizationId h) id k = true.

(** Whoever asks for whatever keys to be made or removed, in whatever order, a
    machine whose key was there still has it. *)
Theorem machines_keep_their_keys requests t x h :
  In h (machines t) -> machine_has_key t h ->
  let t' := (fold_left carry_out requests (t, x)).1 in In h (machines t') /\ machine_has_key t' h.
Proof.
  revert t x. induction requests as [|request requests IH]; intros t x Hin Hh; [done|]. cbn [fold_left].
  destruct (carry_out (t, x) request) as [t1 x1] eqn:E. apply IH; clear IH.
  - destruct request as [ctx name|ctx id]; unfold carry_out in E.
    + destruct (create _ _ _ _ ctx name (t, x)) as [r s] eqn:Ec. cbn [snd] in E. subst s. apply create_ends in Ec. destruct r as [view|e]; [|by subst].
      by destruct Ec as (g & s & row & x2 & x3 & event & _ & _ & _ & _ & _ & _ & ->).
    + destruct (remove _ _ ctx id (t, x)) as [r s] eqn:Er. cbn [snd] in E. subst s. apply key_removal_ends in Er as [->|(_ & _ & event & ->)]; done.
  - destruct request as [ctx name|ctx id]; unfold carry_out in E.
    + destruct (create _ _ _ _ ctx name (t, x)) as [r s] eqn:Ec. cbn [snd] in E. subst s. apply create_ends in Ec. destruct r as [view|e]; [|by subst].
      destruct Ec as (g & s & row & x2 & x3 & event & _ & _ & _ & _ & _ & _ & ->). intros id Hid. destruct (Hh id Hid) as (k & Hk & Hi).
      exists k. split; [|done]. cbn. apply in_app_iff. by left.
    + destruct (remove _ _ ctx id (t, x)) as [r s] eqn:Er. cbn [snd] in E. subst s. apply key_removal_ends in Er as [->|(_ & Hu & event & ->)]; [done|].
      intros id' Hid. destruct (Hh id' Hid) as (k & Hk & Hi). exists k. split; [|done]. cbn. apply in_delete_where. split; [done|].
      apply not_true_iff_false. intros Hb. apply not_true_iff_false in Hu. apply Hu. apply existsb_exists. exists h. split; [done|].
      unfold is_key, uses_key in *. tests. apply andb_true_intro. split; apply bool_decide_eq_true_2; congruence.
Qed.
End Stored.

(** ** A stored key opens *)

Section Opens.
Context {X : Type}.
Variable sodium : Sodium.
Context `{!Boxes sodium}.
Variable store : SecretStore.
Variable nonce : X -> nat.

(** [deps.secrets.seal] *)
Definition seal_with (plaintext : string) : M X SealedValue := fun x => (Ok (SealedBox.seal sodium store (nonce x) plaintext), x).

(** A key that was made is stored with the private half that was generated,
    sealed so that the store opens it; what is told of it is its public half. *)
Theorem made_keys_open spec newId dbNow generateKeyPair ctx name t (x : X) view t' x' :
  createSecretStore sodium spec = Ok store ->
  create newId dbNow generateKeyPair seal_with ctx name (t, x) = (Ok view, (t', x')) ->
  exists generated x1 row, generateKeyPair name x = (Ok generated, x1) /\ keys t' = keys t ++ [row]
    /\ pu_publicKey view = pair_publicKey generated /\ pu_id view = kr_id row
    /\ open_sealed sodium store (kr_sealed row) = Ok (pair_privateKey generated).
Proof.
  intros Hs E. apply create_ends in E as (generated & sealed & row & x1 & x2 & event & Eg & Es & -> & Hp & Hr & _ & ->).
  exists generated, x1, row. split; [done|]. split; [done|]. split; [done|]. split; [done|].
  injection Es as <- _. rewrite Hr. unfold SealedBox.seal. apply (opens_what_its_key_sealed sodium spec store); [done|by left].
Qed.
End Opens.
End SshKeys.

Module SelfHost.
Import SshKeys.

(** ** The machine of the manager *)

Inductive SelfHostReach := proven | reachable | unproven.

#[global] Instance SelfHostReach_eq_dec : EqDecision SelfHostReach.
Proof. solve_decision. Defined.

(** [selfHostPublicOffer]: the offer without the fingerprint. *)
Record SelfHostPublicOffer := MkOffer {
  so_name : string; so_hostname : string; so_port : Z; so_username : string; so_reach : SelfHostReach; so_systemd : bool; so_linger : bool }.

Record SelfHostOffer := MkSelfHostOffer { so_public : SelfHostPublicOffer; so_fingerprint : string }.

Definition canAdoptSelfHost (offer : SelfHostPublicOffer) : bool := (so_reach offer ≡? proven) && so_systemd offer.
Definition needsLinger (offer : SelfHostPublicOffer) : bool := negb (so_linger offer).

Record SelfHostMaterials := MkMaterials { sm_offer : SelfHostOffer; sm_publicKey : string; sm_sealed : SealedValue }.

Definition SelfHostUnavailableError (message : string) : thrown := ThrownError (NamedError "SelfHostUnavailableError") message.

(** What [enroll] is asked for. *)
Record SelfEnroll := MkSelfEnroll {
  se_name : string; se_hostname : string; se_port : Z; se_username : string; se_sshKeyId : string; se_expectedFingerprint : string }.

Section SelfHost.
Context {X H : Type}.
Variable newId : M X string.
Variable dbNow : Z.
Variable materials : option SelfHostMaterials.
Variable enroll : ActorContext -> SelfEnroll -> M (KeyTables * X) H.

Definition keyFor (ctx : ActorContext) (m : SelfHostMaterials) : M (KeyTables * X) KeyRow :=
  let* stored := on_fst (gets (SshKeyRepository.list_ (ctx_organizationId ctx))) in
  match List.find (fun row => kr_publicKey row ≡? sm_publicKey m) stored with
  | Some existing => ret existing
  | None =>
      let name := so_name (so_public (sm_offer m)) in
      SshKeys.withTransaction (
        let* keyId := on_snd newId in
        let* row := on_fst (SshKeyRepository.insert (ctx_organizationId ctx) keyId dbNow name (sm_publicKey m) (sm_sealed m)) in
        SshKeys.record newId dbNow ctx "sshKey.create" (kr_id row) [("name", name); ("origin", "self-host")] ;;;
        ret row)
  end.

Definition offer (ctx : ActorContext) : option SelfHostPublicOffer :=
  if can (ctx_role ctx) host_enroll then option_map (fun m => so_public (sm_offer m)) materials else None.

Definition adopt (ctx : ActorContext) : M (KeyTables * X) H :=
  if negb (can (ctx_role ctx) host_enroll) then throw (ForbiddenError "Forbidden: host.enroll")
  else
    let unavailable := throw (SelfHostUnavailableError "This deployment has no machine of its own to enroll") in
    match materials with
    | None => unavailable
    | Some m =>
        let o := so_public (sm_offer m) in
        if negb (canAdoptSelfHost o) then unavailable
        else
          let* key := keyFor ctx m in
          enroll ctx (MkSelfEnroll (so_name o) (so_hostname o) (so_port o) (so_username o) (kr_id key) (so_fingerprint (sm_offer m)))
    end.

(** The key is stored once: whoever adopts the machine again gets the row that is
    there, and nothing changes. *)
Theorem own_key_is_stored_once ctx m t x row t' x' :
  keyFor ctx m (t, x) = (Ok row, (t', x')) ->
  In row (keys t') /\ kr_publicKey row = sm_publicKey m
  /\ (forall x'', exists again, keyFor ctx m (t', x'') = (Ok again, (t', x'')) /\ kr_publicKey again = sm_publicKey m).
Proof.
  intros E. assert (Hin : In row (keys t') /\ kr_publicKey row = sm_publicKey m /\ kr_organizationId row = ctx_organizationId ctx).
  { unfold keyFor, bind at 1 in E. unfold on_fst at 1, gets in E. cbn [fst snd] in E.
    destruct (List.find _ _) as [existing|] eqn:Ef.
    - injection E as <- <- _. apply find_some in Ef as [Hi Hp]. apply filter_In in Hi as [Hi Ho]. tests. done.
    - unfold SshKeys.withTransaction, transaction in E. destruct (bind _ _ (t, x)) as [[row'|e] [t1 x1]] eqn:Eb; [|done].
      injection E as <- <- _. apply bind_ok in Eb as (keyId & [t2 x2] & E1 & Eb). unfold on_snd in E1. cbn [fst snd] in E1.
      destruct (newId x) as [[id|e] x3]; [|done]. injection E1 as _ <- _. apply bind_ok in Eb as (r & [t3 x4] & E2 & Eb).
      unfold on_fst, SshKeyRepository.insert in E2. cbn [fst snd] in E2. destruct (existsb _ _); [done|]. injection E2 as <- <- _.
      apply bind_ok in Eb as (u & [t4 x5] & E3 & Eb). injection Eb as <- <- _. apply recorded_key_event in E3 as (event & ->).
      split; [|done]. cbn. apply in_app_iff. right. by left. }
  destruct Hin as (Hin & Hp & Ho). split; [done|]. split; [done|]. intros x''. unfold keyFor, bind at 1, on_fst at 1, gets. cbn [fst snd].
  destruct (List.find _ _) as [existing|] eqn:Ef.
  - exists existing. split; [done|]. apply find_some in Ef as [_ Hp']. by tests.
  - exfalso. pose proof (find_none _ _ Ef row) as Hn. assert (Hl : In row (SshKeyRepository.list_ (ctx_organizationId ctx) t')) by (apply filter_In; split; [done|by apply bool_decide_eq_true_2]).
    specialize (Hn Hl). cbn in Hn. by tests.
Qed.
End SelfHost.
End SelfHost.
