(* ===== verification/SshTransport.v ===== *)
(** A connection to a machine.

    [ssh/exec.ts] and [ssh/connection.ts] of [packages/transport/src]: a command
    on a channel, with its output bounded and its time limited; the wait for a
    channel; and the connection that gives channels.  Every callback of the ssh
    client and every timer is a step.  The client, the channel and the decoding
    of bytes are outside; a theorem says that a command always ends, within the
    time it was given, and leaves no channel behind. *)

From S2P Require Import Prelude Shell Observer.

(** ** A command on a channel *)

Definition MAX_STDOUT_BYTES : Z := 1024 * 1024.
Definition MAX_STDERR_BYTES : Z := 1024 * 1024.
Definition DIAGNOSTIC_TAIL_BYTES : Z := 4096.

Inductive ExecStreamName := on_stdout | on_stderr.

Definition stream_text (stream : ExecStreamName) : string := match stream with on_stdout => "stdout" | on_stderr => "stderr" end.

(** What a command ends with instead of a result. *)
Inductive Failure :=
  | CommandTimedOut | StreamOverflow (stream : ExecStreamName) (limitBytes : Z) (diagnostic : string)
  | CommandAborted (signal : option string) | ChannelOpenTimedOut | ChannelQueueExpired
  | channel_failed (error : thrown) | no_channel | not_connected | connection_lost | abandoned (reason : thrown).

Definition CHANNEL_EXHAUSTION (message : string) : bool :=
  existsb (fun part => includes part (toLowerCase message))
    ["open failed"; "administratively prohibited"; "resource shortage"; "too many"].

Definition message_of (error : thrown) : string := match error with ThrownError _ message | ThrownValue message => message end.

Definition isChannelExhaustion (error : thrown) : bool := CHANNEL_EXHAUSTION (message_of error).

Definition namedChannelError (error : thrown) (command : string) : thrown :=
  if isChannelExhaustion error then
    ThrownError (NamedError "ChannelLimitReachedError")
      ("The host refused another session channel, so this command could not run: " +:+ command
       +:+ ". Its MaxSessions limit is likely reached; this is a limit, not an unreachable host")
  else error.

Definition named (name message : string) : thrown := ThrownError (NamedError name) message.

(** The error a promise is rejected with. *)
Definition error_of (command : string) (failure : Failure) : thrown :=
  match failure with
  | CommandTimedOut => named "CommandTimedOutError" ("Command timed out: " +:+ command)
  | StreamOverflow stream limitBytes _ =>
      named "StreamOverflowError"
        ("Command " +:+ stream_text stream +:+ " exceeded " +:+ decimal limitBytes +:+ " bytes and was terminated")
  | CommandAborted None => named "CommandAbortedError" ("Command closed without reporting an exit status: " +:+ command)
  | CommandAborted (Some signal) => named "CommandAbortedError" ("Command was terminated by " +:+ signal +:+ ": " +:+ command)
  | ChannelOpenTimedOut => named "ChannelOpenTimedOutError" ("Command timed out waiting for a channel: " +:+ command)
  | ChannelQueueExpired => named "ChannelQueueExpiredError" ("Command waited too long for a free channel: " +:+ command)
  | channel_failed error => namedChannelError error command
  | no_channel => named "Error" ("Failed to open a channel for: " +:+ command)
  | not_connected => named "Error" "Transport is not connected"
  | connection_lost => named "ReadConnectionLostError" "The connection to the host is closed"
  | abandoned reason => reason
  end.

Abbreviation Outcome := (Failure + ExecResult)%type.

(** What a channel tells. *)
Inductive ChannelEvent :=
  | stdout_chunk (bytes : list Z) | stderr_chunk (bytes : list Z) | channel_closed (exitCode : option Z) (signal : option string).

Section Channel.
(** [buffer.toString()] *)
Variable text : list Z -> string.

(** The variables of [execViaChannel], whether the channel was destroyed and
    whether it closed, and what the promise was settled with. *)
Record Run := MkRun {
  r_settled : bool; r_stdout : list Z; r_stderr : list Z; r_timer : option Z; r_destroyed : bool; r_closed : bool;
  r_outcome : option Outcome }.

Definition boundedTail (buffer : list Z) : string := text (drop (Z.to_nat (Z.of_nat (length buffer) - DIAGNOSTIC_TAIL_BYTES)) buffer).

(** A promise is settled once. *)
Definition first_of (before : option Outcome) (outcome : Outcome) : option Outcome :=
  match before with Some _ => before | None => Some outcome end.

(** [settled = true], the timer cleared, the channel destroyed or closed. *)
Definition settle_run (destroys closes : bool) (outcome : Outcome) (s : Run) : Run :=
  MkRun true (r_stdout s) (r_stderr s) None (r_destroyed s || destroys) (r_closed s || closes) (first_of (r_outcome s) outcome).

Definition run_timer (s : Run) : Run :=
  match r_timer s with
  | None => s
  | Some _ =>
      if r_settled s then MkRun true (r_stdout s) (r_stderr s) None (r_destroyed s) (r_closed s) (r_outcome s)
      else settle_run true false (inl CommandTimedOut) s
  end.

Definition append (current chunk : list Z) (limitBytes : Z) (streamName : ExecStreamName) (s : Run) : option (list Z) * Run :=
  let next := current ++ chunk in
  if Z.of_nat (length next) <=? limitBytes then (Some next, s)
  else if r_settled s then (None, s)
  else (None, settle_run true false (inl (StreamOverflow streamName limitBytes (boundedTail next))) s).

Definition on_channel_event (event : ChannelEvent) (s : Run) : Run :=
  match event with
  | stdout_chunk chunk =>
      if r_settled s then s
      else
        match append (r_stdout s) chunk MAX_STDOUT_BYTES on_stdout s with
        | (Some next, s) => MkRun (r_settled s) next (r_stderr s) (r_timer s) (r_destroyed s) (r_closed s) (r_outcome s)
        | (None, s) => s
        end
  | stderr_chunk chunk =>
      if r_settled s then s
      else
        match append (r_stderr s) chunk MAX_STDERR_BYTES on_stderr s with
        | (Some next, s) => MkRun (r_settled s) (r_stdout s) next (r_timer s) (r_destroyed s) (r_closed s) (r_outcome s)
        | (None, s) => s
        end
  | channel_closed exitCode signal =>
      if r_settled s then MkRun true (r_stdout s) (r_stderr s) (r_timer s) (r_destroyed s) true (r_outcome s)
      else
        settle_run false true
          (match exitCode with
           | None => inl (CommandAborted signal)
           | Some exitCode => inr (MkExec exitCode (text (r_stdout s)) (text (r_stderr s)))
           end) s
  end.

(** What is written on the channel, before its end. *)
Definition execViaChannel (now : Z) (timeoutMs : option Z) (stdin : option string) : list string * Run :=
  (match stdin with Some chunk => [chunk] | None => [] end,
   MkRun false [] [] (option_map (fun timeoutMs => now + timeoutMs) timeoutMs) false false None).

(** ** The wait for a channel *)

(** What the client answers a request for a channel with; it may also throw. *)
Inductive ChannelAnswer := answer_error (error : thrown) | answer_nothing | answer_channel | answer_threw (error : thrown).

(** The variables of [execWithBoundedAcquisition]; [a_late] when a channel came
    too late and [destroy] was called on it. *)
Record Acquisition := MkAcquisition {
  a_settled : bool; a_startedAt : Z; a_timeoutMs : Z; a_timer : option Z; a_answered : bool; a_late : bool; a_stdin : option string;
  a_run : option (list string * Run); a_outcome : option Outcome }.

Definition execWithBoundedAcquisition (now timeoutMs : Z) (stdin : option string) : Acquisition :=
  MkAcquisition false now timeoutMs (Some (now + timeoutMs)) false false stdin None None.

Definition settle_acquisition (outcome : Outcome) (a : Acquisition) : Acquisition :=
  MkAcquisition true (a_startedAt a) (a_timeoutMs a) None (a_answered a) (a_late a) (a_stdin a) (a_run a) (first_of (a_outcome a) outcome).

Definition acquisition_timer (a : Acquisition) : Acquisition :=
  match a_timer a with
  | None => a
  | Some _ =>
      if a_settled a then MkAcquisition true (a_startedAt a) (a_timeoutMs a) None (a_answered a) (a_late a) (a_stdin a) (a_run a) (a_outcome a)
      else settle_acquisition (inl ChannelOpenTimedOut) a
  end.

(** The client answers a request once. *)
Definition on_answer (now : Z) (answer : ChannelAnswer) (a : Acquisition) : Acquisition :=
  if a_answered a then a
  else
    let a := MkAcquisition (a_settled a) (a_startedAt a) (a_timeoutMs a) (a_timer a) true (a_late a) (a_stdin a) (a_run a) (a_outcome a) in
    if a_settled a then
      match answer with
      | answer_channel =>
          MkAcquisition true (a_startedAt a) (a_timeoutMs a) (a_timer a) true true (a_stdin a) (a_run a) (a_outcome a)
      | _ => a
      end
    else
      match answer with
      | answer_error error => settle_acquisition (inl (channel_failed error)) a
      | answer_nothing => settle_acquisition (inl no_channel) a
      | answer_channel =>
          let remainingMs := Z.max 0 (a_timeoutMs a - (now - a_startedAt a)) in
          MkAcquisition false (a_startedAt a) (a_timeoutMs a) None true (a_late a) (a_stdin a)
            (Some (execViaChannel now (Some remainingMs) (a_stdin a))) (a_outcome a)
      | answer_threw error =>
          MkAcquisition false (a_startedAt a) (a_timeoutMs a) (a_timer a) true (a_late a) (a_stdin a) (a_run a)
            (first_of (a_outcome a) (inl (abandoned error)))
      end.

(** A step of the channel, whose end settles the acquisition. *)
Definition with_run (step : Run -> Run) (a : Acquisition) : Acquisition :=
  match a_run a with
  | None => a
  | Some (input, s) =>
      let s := step s in
      let a := MkAcquisition (a_settled a) (a_startedAt a) (a_timeoutMs a) (a_timer a) (a_answered a) (a_late a) (a_stdin a) (Some (input, s)) (a_outcome a) in
      match r_outcome s with
      | None => a
      | Some outcome => settle_acquisition outcome a
      end
  end.

(** ** A command *)

Inductive Event :=
  | admitted | answered (answer : ChannelAnswer) | channel_event (event : ChannelEvent) | timer_fires.

(** A call of [exec] over a connection: the wait for the limiter, the wait for a
    channel, the command; [c_released] counts [limiter.release()]. *)
Record Call := MkCall {
  c_startedAt : Z; c_timeoutMs : Z; c_stdin : option string; c_timer : option Z; c_acquisition : option Acquisition;
  c_released : nat; c_outcome : option Outcome }.

(** [exec], and [acquireWithinDeadline] of it. *)
Definition exec (connected : bool) (now timeoutMs : Z) (stdin : option string) : Call :=
  if connected then MkCall now timeoutMs stdin (Some (now + timeoutMs)) None 0 None
  else MkCall now timeoutMs stdin None None 0 (Some (inl not_connected)).

(** The [finally] of the call. *)
Definition finish (a : Acquisition) (c : Call) : Call :=
  match c_outcome c, a_outcome a with
  | None, Some outcome =>
      MkCall (c_startedAt c) (c_timeoutMs c) (c_stdin c) (c_timer c) (Some a) (S (c_released c)) (Some outcome)
  | _, _ => MkCall (c_startedAt c) (c_timeoutMs c) (c_stdin c) (c_timer c) (Some a) (c_released c) (c_outcome c)
  end.

Definition acquisition_step (now : Z) (event : Event) (a : Acquisition) : Acquisition :=
  match event with
  | admitted => a
  | answered answer => on_answer now answer a
  | channel_event event => with_run (on_channel_event event) a
  | timer_fires => with_run run_timer (acquisition_timer a)
  end.

Definition call_step (now : Z) (event : Event) (c : Call) : Call :=
  match c_acquisition c with
  | Some a => finish (acquisition_step now event a) c
  | None =>
      match c_outcome c, event with
      | None, admitted =>
          let left := Z.max 0 (c_timeoutMs c - (now - c_startedAt c)) in
          MkCall (c_startedAt c) (c_timeoutMs c) (c_stdin c) None (Some (execWithBoundedAcquisition now left (c_stdin c))) (c_released c) None
      | None, timer_fires => MkCall (c_startedAt c) (c_timeoutMs c) (c_stdin c) None None (c_released c) (Some (inl ChannelQueueExpired))
      | _, _ => c
      end
  end.
End Channel.

(** ** A command ends in time *)

Definition run_call (text : list Z -> string) (events : list (Z * Event)) (c : Call) : Call :=
  fold_left (fun c event => call_step text event.1 event.2 c) events c.

(** When the timer that is set fires. *)
Definition due (c : Call) : option Z :=
  match c_acquisition c with
  | None => c_timer c
  | Some a => match a_run a with Some (_, s) => r_timer s | None => a_timer a end
  end.

(** Whether the call has a channel that is neither destroyed nor closed. *)
Definition channel_open (c : Call) : bool :=
  match c_acquisition c with
  | Some a => match a_run a with Some (_, s) => negb (r_destroyed s || r_closed s) | None => false end
  | None => false
  end.

Section InTime.
Variable text : list Z -> string.
Abbreviation call_step := (call_step text).
Abbreviation run_call := (run_call text).

(** How many channels the client hands over to the call in [events]: it answers
    its request for one once. *)
Fixpoint handed_over (events : list (Z * Event)) (c : Call) : nat :=
  match events with
  | [] => 0
  | (now, event) :: rest =>
      (match c_acquisition c, event with
       | Some a, answered answer_channel => if a_answered a then 0 else 1
       | _, _ => 0
       end + handed_over rest (call_step now event c))%nat
  end.

(** The channels of the call that were destroyed or closed: the one that came
    too late, and the one of the command. *)
Definition channels_gone (c : Call) : nat :=
  match c_acquisition c with
  | Some a => ((if a_late a then 1 else 0) + match a_run a with Some (_, s) => if r_destroyed s || r_closed s then 1 else 0 | None => 0 end)%nat
  | None => 0
  end.

(** The channels the call knows of; one that was not answered has none. *)
Definition channels_known (c : Call) : nat :=
  match c_acquisition c with
  | Some a => ((if a_late a then 1 else 0) + match a_run a with Some _ => 1 | None => 0 end)%nat
  | None => 0
  end.

Definition none_unasked (c : Call) : Prop :=
  match c_acquisition c with Some a => a_answered a = false -> a_late a = false /\ a_run a = None | None => True end.

Lemma finish_acquisition a c : c_acquisition (finish a c) = Some a.
Proof. unfold finish. by destruct (c_outcome c), (a_outcome a). Qed.

Lemma with_run_known step a : let a' := with_run step a in
  a_answered a' = a_answered a /\ a_late a' = a_late a /\ (a_run a' = None <-> a_run a = None).
Proof. unfold with_run. destruct (a_run a) as [[input s]|] eqn:E; [|done]. by destruct (r_outcome (step s)). Qed.

Lemma acquisition_timer_known a : let a' := acquisition_timer a in
  a_answered a' = a_answered a /\ a_late a' = a_late a /\ a_run a' = a_run a.
Proof. unfold acquisition_timer. destruct (a_timer a); [|done]. by destruct (a_settled a). Qed.

(** Every step knows of the channels handed over in it. *)
Lemma step_knows now event c : none_unasked c ->
  none_unasked (call_step now event c)
  /\ channels_known (call_step now event c) = (handed_over [(now, event)] c + channels_known c)%nat.
Proof.
  unfold none_unasked, channels_known. simpl. unfold SshTransport.call_step. destruct (c_acquisition c) as [a|] eqn:Ea.
  2: { intros _. destruct (c_outcome c), event; rewrite ?Ea; by cbn. }
  intros Hn. rewrite finish_acquisition.
  assert (Hsame : forall a', a_answered a' = a_answered a -> a_late a' = a_late a -> (a_run a' = None <-> a_run a = None) ->
    (a_answered a' = false -> a_late a' = false /\ a_run a' = None)
    /\ ((if a_late a' then 1 else 0) + match a_run a' with Some _ => 1 | None => 0 end
        = 0 + 0 + ((if a_late a then 1 else 0) + match a_run a with Some _ => 1 | None => 0 end))%nat).
  { intros a' -> -> Hr. split; [intros H; destruct (Hn H); split; [done|by apply Hr]|].
    destruct (a_run a'), (a_run a); try done; exfalso; naive_solver. }
  destruct event as [|answer|event|]; cbn [acquisition_step].
  - by apply Hsame.
  - unfold on_answer. destruct (a_answered a) eqn:Eg; [destruct answer; by apply Hsame|].
    destruct (Hn eq_refl) as [El Er]. rewrite El, Er. destruct (a_settled a) eqn:Es, answer; cbn; rewrite ?El, ?Er; done.
  - destruct (with_run_known (on_channel_event text event) a) as (? & ? & ?). by apply Hsame.
  - destruct (acquisition_timer_known a) as (E1 & E2 & E3).
    destruct (with_run_known (run_timer) (acquisition_timer a)) as (F1 & F2 & F3). apply Hsame; [congruence..|by rewrite F3, E3].
Qed.

Lemma run_knows events : forall c, none_unasked c ->
  none_unasked (run_call events c) /\ channels_known (run_call events c) = (handed_over events c + channels_known c)%nat.
Proof.
  induction events as [|[now event] rest IH]; intros c Hn; [done|]. destruct (step_knows now event c Hn) as [H1 H2].
  destruct (IH _ H1) as [H3 H4]. split; [exact H3|]. cbn [SshTransport.run_call fold_left fst snd] in *. unfold SshTransport.run_call in H4.
  cbn [fst snd]. rewrite H4, H2. simpl. lia.
Qed.

Lemma gone_unless_open c : channel_open c = false -> channels_gone c = channels_known c.
Proof.
  unfold channel_open, channels_gone, channels_known. destruct (c_acquisition c) as [a|]; [|done].
  destruct (a_run a) as [[input s]|]; [|done]. intros H%negb_false_iff. by rewrite H.
Qed.

(** The stages of a call that may take until [limit]. *)
Inductive stage (limit : Z) : Call -> Prop :=
  | at_refused start T stdin timer failure : stage limit (MkCall start T stdin timer None 0 (Some (inl failure)))
  | at_waiting start T stdin : start + T <= limit -> stage limit (MkCall start T stdin (Some (start + T)) None 0 None)
  | at_opening start T stdin timer start' T' stdin' :
      start' + T' <= limit ->
      stage limit (MkCall start T stdin timer
                     (Some (MkAcquisition false start' T' (Some (start' + T')) false false stdin' None None)) 0 None)
  | at_running start T stdin timer start' T' late stdin' input out err d :
      d <= limit ->
      stage limit (MkCall start T stdin timer
                     (Some (MkAcquisition false start' T' None true late stdin'
                              (Some (input, MkRun false out err (Some d) false false None)) None)) 0 None)
  | at_unanswered start T stdin timer settled start' T' timer' given late stdin' outcome :
      settled || given = true ->
      stage limit (MkCall start T stdin timer
                     (Some (MkAcquisition settled start' T' timer' given late stdin' None (Some outcome))) 1 (Some outcome))
  | at_end start T stdin timer settled start' T' timer' late stdin' input out err timer'' destroyed closed outcome :
      destroyed || closed = true ->
      stage limit (MkCall start T stdin timer
                     (Some (MkAcquisition settled start' T' timer' true late stdin'
                              (Some (input, MkRun true out err timer'' destroyed closed (Some outcome))) (Some outcome))) 1 (Some outcome)).

Lemma stage_later limit limit' c : limit <= limit' -> stage limit c -> stage limit' c.
Proof. intros Hl H. destruct H; constructor; try done; lia. Qed.

(** A step at [now] of a call that may take until [limit]. *)
Lemma stage_step limit now event c : stage limit c -> stage (Z.max limit now) (call_step now event c).
Proof.
  destruct 1 as [ | | | |start T stdin timer settled start' T' timer' given late stdin' outcome Hg|start T stdin timer settled start' T' timer' late stdin' input out err timer'' destroyed closed outcome Hc].
  - destruct event; constructor.
  - destruct event as [|answer|event|]; cbn; constructor; lia.
  - destruct event as [|[error| | |error]|event|]; cbn; constructor; (done || lia).
  - destruct event as [|answer|event|]; cbn; [constructor; lia..| |by constructor].
    unfold SshTransport.call_step, acquisition_step, with_run, on_channel_event, append. cbn [c_acquisition a_run r_settled r_stdout r_stderr].
    destruct event as [chunk|chunk|exitCode signal].
    + destruct (_ <=? _); cbn; constructor; [lia|done].
    + destruct (_ <=? _); cbn; constructor; [lia|done].
    + cbn. by constructor.
  - destruct event as [|answer|event|]; [by constructor| |by constructor|].
    + unfold SshTransport.call_step, acquisition_step, on_answer. cbn [c_acquisition a_answered]. destruct given; [cbn; constructor; by destruct settled|].
      rewrite orb_false_r in Hg. subst settled. by destruct answer; cbn; constructor.
    + unfold SshTransport.call_step, acquisition_step, acquisition_timer. cbn [c_acquisition a_timer a_settled a_outcome]. destruct timer' as [d|]; [|by constructor].
      destruct settled; by constructor.
  - destruct event as [|answer|event|]; [by constructor..| |].
    + destruct event as [chunk|chunk|exitCode signal]; constructor; [done..|]. by rewrite orb_true_r.
    + destruct timer' as [d|], settled, timer'' as [d'|]; by constructor.
Qed.

(** An outcome stays. *)
Lemma outcome_stays now event c outcome :
  c_outcome c = Some outcome -> c_outcome (call_step now event c) = Some outcome.
Proof.
  intros H. unfold SshTransport.call_step. destruct (c_acquisition c) as [a|]; [|by rewrite H]. unfold finish. by rewrite H.
Qed.

(** The times of events, from [now] on. *)
Fixpoint in_order (now : Z) (events : list (Z * Event)) : Prop :=
  match events with [] => True | (at_, _) :: rest => now <= at_ /\ in_order at_ rest end.

Definition last_time (start : Z) (events : list (Z * Event)) : Z := fold_left (fun _ event => event.1) events start.

Lemma stage_run limit start events c :
  in_order start events -> stage (Z.max limit start) c -> stage (Z.max limit (last_time start events)) (run_call events c).
Proof.
  revert start c. induction events as [|[at_ event] rest IH]; intros start c Ho Hc; [done|]. destruct Ho as [Hle Ho]. cbn [run_call fold_left last_time].
  apply (IH at_); [done|]. apply (stage_later (Z.max (Z.max limit start) at_)); [cbn; lia|]. by apply stage_step.
Qed.

Lemma run_call_stays events c outcome : c_outcome c = Some outcome -> c_outcome (run_call events c) = Some outcome.
Proof. revert c. induction events as [|event rest IH]; intros c H; [done|]. cbn. apply IH. by apply outcome_stays. Qed.

(** What a stage says of a call. *)
Lemma stage_says limit c : stage limit c ->
  match c_outcome c with
  | None => (exists d, due c = Some d /\ d <= limit) /\ c_released c = 0%nat /\ (forall now, c_outcome (call_step now timer_fires c) <> None)
  | Some _ => channel_open c = false /\ c_released c = (if c_acquisition c is Some _ then 1 else 0)%nat
  end.
Proof.
  destruct 1; cbn; try done; try (split; [by eexists|done]).
  split; [|done]. by destruct destroyed, closed.
Qed.

(** C22: However the limit of the connection, the client, the channel and the
    timers take turns over a command: while it has not ended, a timer is set
    that ends it, due no later than the time the command was given after it was
    asked for, or at once when that has passed; it ends once, with its channel
    destroyed or closed and its place among the commands of the connection given
    back exactly if it had one; and whatever comes later changes none of this:
    as many channels as the client ever hands over to it, one that comes after
    the end too, are destroyed or closed. *)
Theorem commands_end_in_time start timeoutMs stdin events :
  in_order start events ->
  let c := run_call events (exec true start timeoutMs stdin) in
  match c_outcome c with
  | None =>
      (exists d, due c = Some d /\ d <= Z.max (start + timeoutMs) (last_time start events))
      /\ c_released c = 0%nat
      /\ (forall now, c_outcome (call_step now timer_fires c) <> None)
  | Some outcome =>
      forall later, in_order (last_time start events) later ->
      let c' := run_call later c in
      c_outcome c' = Some outcome /\ channel_open c' = false /\ c_released c' = (if c_acquisition c' is Some _ then 1 else 0)%nat
      /\ channels_gone c' = handed_over (events ++ later) (exec true start timeoutMs stdin)
  end.
Proof.
  intros Ho c. assert (Hs : stage (Z.max (start + timeoutMs) (last_time start events)) c).
  { apply stage_run; [done|]. cbn. constructor. lia. }
  destruct (c_outcome c) as [outcome|] eqn:E; [|pose proof (stage_says _ _ Hs) as H; by rewrite E in H].
  intros later Hl c'. assert (E' : c_outcome c' = Some outcome) by (by apply run_call_stays). split; [done|].
  pose proof (stage_says _ _ (stage_run _ _ _ _ Hl Hs)) as H. fold c' in H. rewrite E' in H. destruct H as [H1 H2].
  split; [done|]. split; [done|]. rewrite gone_unless_open by done.
  destruct (run_knows (events ++ later) (exec true start timeoutMs stdin) I) as [_ H]. unfold SshTransport.run_call in H.
  rewrite fold_left_app in H. cbn [channels_known exec c_acquisition] in H. rewrite Nat.add_0_r in H. exact H.
Qed.
End InTime.

(** ** A result is what was said *)

(** What a channel said on a stream, before events that are the timer's. *)
Definition said (stream : ExecStreamName) (events : list (option ChannelEvent)) : list Z :=
  flat_map (fun event => match stream, event with
                         | on_stdout, Some (stdout_chunk bytes) | on_stderr, Some (stderr_chunk bytes) => bytes
                         | _, _ => []
                         end) events.

Section Said.
Variable text : list Z -> string.

Definition run_step (s : Run) (event : option ChannelEvent) : Run :=
  match event with Some event => on_channel_event text event s | None => run_timer s end.

Lemma run_settled_stays events out err timer destroyed closed outcome :
  r_outcome (fold_left run_step events (MkRun true out err timer destroyed closed (Some outcome))) = Some outcome.
Proof.
  revert timer destroyed closed. induction events as [|[[chunk|chunk|exitCode signal]|] events IH]; intros; try done; simpl; [apply IH..|].
  destruct timer; apply IH.
Qed.

(** A result holds all that was said before the channel closed, on both streams,
    and never more than a mebibyte of either. *)
Theorem a_result_is_what_was_said now timeoutMs stdin events result :
  r_outcome (fold_left run_step events (execViaChannel now timeoutMs stdin).2) = Some (inr result) ->
  exists before exitCode signal after,
    events = before ++ Some (channel_closed (Some exitCode) signal) :: after
    /\ result = MkExec exitCode (text (said on_stdout before)) (text (said on_stderr before))
    /\ Z.of_nat (length (said on_stdout before)) <= MAX_STDOUT_BYTES /\ Z.of_nat (length (said on_stderr before)) <= MAX_STDERR_BYTES.
Proof.
  assert (H : forall events out err timer,
    Z.of_nat (length out) <= MAX_STDOUT_BYTES -> Z.of_nat (length err) <= MAX_STDERR_BYTES ->
    r_outcome (fold_left run_step events (MkRun false out err timer false false None)) = Some (inr result) ->
    exists before exitCode signal after,
      events = before ++ Some (channel_closed (Some exitCode) signal) :: after
      /\ result = MkExec exitCode (text (out ++ said on_stdout before)) (text (err ++ said on_stderr before))
      /\ Z.of_nat (length (out ++ said on_stdout before)) <= MAX_STDOUT_BYTES /\ Z.of_nat (length (err ++ said on_stderr before)) <= MAX_STDERR_BYTES).
  2: { apply (H events [] []); by vm_compute. }
  clear events. intros events. induction events as [|event events IH]; intros out err timer Ho He H; [done|]. simpl in H.
  destruct event as [[chunk|chunk|[exitCode|] signal]|]; simpl in H; unfold settle_run in H; simpl in H.
  - unfold append in H. destruct (_ <=? MAX_STDOUT_BYTES) eqn:El; unfold settle_run in H; simpl in H; [|by rewrite run_settled_stays in H]. apply Z.leb_le in El.
    destruct (IH _ _ _ El He H) as (before & code & signal & after & -> & Hr & H1 & H2). exists (Some (stdout_chunk chunk) :: before), code, signal, after.
    rewrite <- app_assoc in *. done.
  - unfold append in H. destruct (_ <=? MAX_STDERR_BYTES) eqn:El; unfold settle_run in H; simpl in H; [|by rewrite run_settled_stays in H]. apply Z.leb_le in El.
    destruct (IH _ _ _ Ho El H) as (before & code & signal & after & -> & Hr & H1 & H2). exists (Some (stderr_chunk chunk) :: before), code, signal, after.
    rewrite <- app_assoc in *. done.
  - rewrite run_settled_stays in H. injection H as <-. exists [], exitCode, signal, events. cbn. rewrite !app_nil_r. done.
  - by rewrite run_settled_stays in H.
  - unfold run_timer, settle_run in H. destruct timer as [d|]; simpl in H; [by rewrite run_settled_stays in H|].
    destruct (IH _ _ _ Ho He H) as (before & code & signal & after & -> & Hr & H1 & H2). by exists (None :: before), code, signal, after.
Qed.
End Said.

(** ** The connection *)

Inductive ConnectionState := disconnected | connecting | conn_ready | degraded | conn_failed.

(** [client] and [state] of [createSshTransport]; a client is a number. *)
Record Transport := MkTransport { client : option nat; state : ConnectionState }.

Definition createSshTransport : Transport := MkTransport None disconnected.

Definition lose (conn : nat) (t : Transport) : Transport := if client t ≡? Some conn then MkTransport None disconnected else t.

(** A call of [connect]: its timer, whether the client was destroyed, and the
    promise. *)
Record Connecting := MkConnecting { n_conn : nat; n_timer : option Z; n_destroyed : bool; n_outcome : option (result unit) }.

Inductive ConnectEvent := connect_timed_out | connect_ready | connect_error (error : thrown) | connect_ended.

Definition connect (conn : nat) (now timeoutMs : Z) (t : Transport) : Connecting * Transport :=
  (MkConnecting conn (Some (now + timeoutMs)) false None, MkTransport (client t) connecting).

Definition keep_first {A} (before : option A) (value : A) : option A := match before with Some _ => before | None => Some value end.

Definition connect_step (hostname : string) (event : ConnectEvent) (s : Connecting * Transport) : Connecting * Transport :=
  let (n, t) := s in
  let failed timer error := (MkConnecting (n_conn n) timer true (keep_first (n_outcome n) (Throw error)), MkTransport (client t) conn_failed) in
  match event with
  | connect_timed_out =>
      match n_timer n with
      | None => s
      | Some _ => failed None (named "Error" ("Connection to " +:+ hostname +:+ " timed out"))
      end
  | connect_error error => failed None error
  | connect_ready => (MkConnecting (n_conn n) None (n_destroyed n) (keep_first (n_outcome n) (Ok tt)), MkTransport (Some (n_conn n)) conn_ready)
  | connect_ended => (n, lose (n_conn n) t)
  end.

(** [close] and [destroy]: the client that is ended, or destroyed. *)
Definition close (t : Transport) : option nat * Transport := (client t, MkTransport None disconnected).
Definition destroy (t : Transport) : option nat * Transport := (client t, MkTransport None disconnected).

(** ** Commands and forwards under a signal *)

(** What the client answers [exec] or [forwardOut] with; it may also throw. *)
Inductive ClientAnswer := client_error (error : thrown) | client_stream | client_threw.

(** The variables of a call of [execUntil]. *)
Record Until := MkUntil { u_settled : bool; u_listening : bool; u_answered : bool; u_run : option Run; u_late : bool; u_outcome : option Outcome }.

Definition abandonedBy (reason : option thrown) : thrown :=
  default (named "TransportInterruptedError" "The channel was abandoned") reason.

(** [aborted]: the reason of a signal that is aborted already. *)
Definition execUntil (conn : option nat) (aborted : option (option thrown)) : Until :=
  match conn, aborted with
  | None, _ => MkUntil false false false None false (Some (inl connection_lost))
  | Some _, Some reason => MkUntil false false false None false (Some (inl (abandoned (abandonedBy reason))))
  | Some _, None => MkUntil false true false None false None
  end.

Definition settle_until (run : option Run) (outcome : Outcome) (u : Until) : Until :=
  if u_settled u then MkUntil true (u_listening u) (u_answered u) run (u_late u) (u_outcome u)
  else MkUntil true false (u_answered u) run (u_late u) (keep_first (u_outcome u) outcome).

Definition destroyed_run (s : Run) : Run :=
  MkRun (r_settled s) (r_stdout s) (r_stderr s) (r_timer s) true (r_closed s) (r_outcome s).

(** [abandon], while it is a listener of the signal. *)
Definition abandon_until (reason : option thrown) (u : Until) : Until :=
  if negb (u_listening u) || u_settled u then u
  else settle_until (option_map destroyed_run (u_run u)) (inl (abandoned (abandonedBy reason))) u.

(** Whether the connection is found lost too. *)
Definition answer_until (now : Z) (answer : ClientAnswer) (u : Until) : Until * bool :=
  if u_answered u || negb (u_listening u || u_settled u) then (u, false)
  else
    let u := MkUntil (u_settled u) (u_listening u) true (u_run u) (u_late u) (u_outcome u) in
    match answer with
    | client_threw => (settle_until (u_run u) (inl connection_lost) u, true)
    | _ =>
        if u_settled u then
          (MkUntil true (u_listening u) true (u_run u) (match answer with client_stream => true | _ => u_late u end) (u_outcome u), false)
        else
          match answer with
          | client_error error => (settle_until (u_run u) (inl (channel_failed error)) u, false)
          | _ => (MkUntil false (u_listening u) true (Some (execViaChannel now None None).2) (u_late u) (u_outcome u), false)
          end
    end.

Definition event_until (text : list Z -> string) (event : ChannelEvent) (u : Until) : Until :=
  match u_run u with
  | None => u
  | Some s =>
      let s := on_channel_event text event s in
      match r_outcome s with
      | None => MkUntil (u_settled u) (u_listening u) (u_answered u) (Some s) (u_late u) (u_outcome u)
      | Some outcome => settle_until (Some s) outcome u
      end
  end.

Inductive UntilEvent := until_aborted (reason : option thrown) | until_answered (answer : ClientAnswer) | until_channel (event : ChannelEvent).

Definition until_step (text : list Z -> string) (now : Z) (event : UntilEvent) (u : Until) : Until :=
  match event with
  | until_aborted reason => abandon_until reason u
  | until_answered answer => (answer_until now answer u).1
  | until_channel event => event_until text event u
  end.

(** ** Forwards *)

(** A forward ends with its socket or an error. *)
Definition Forwarded := option (result unit).

(** What became of the stream the client gave. *)
Inductive StreamFate := no_stream | stream_handed | stream_destroyed | stream_ended.

(** The variables of [forward], [forwardUntil] and [canForward]: [w_pending] a
    timer that is set, or a listener of the signal. *)
Record Forward := MkForward { w_settled : bool; w_pending : bool; w_stream : StreamFate; w_outcome : Forwarded }.

Definition forward_error (port : Z) (error : thrown) : thrown :=
  named "LiveChannelUnavailableError" (message_of (namedChannelError error ("forward to " +:+ decimal port))).

Definition forward (conn : option nat) : Forward :=
  match conn with
  | None => MkForward false false no_stream (Some (Throw (named "Error" "Transport is not connected")))
  | Some _ => MkForward false true no_stream None
  end.

Definition forward_timer (port : Z) (w : Forward) : Forward :=
  if negb (w_pending w) then w
  else if w_settled w then MkForward true false (w_stream w) (w_outcome w)
  else MkForward true false (w_stream w)
         (keep_first (w_outcome w) (Throw (named "ForwardTimedOutError" ("Forwarding to port " +:+ decimal port +:+ " timed out")))).

(** The callback of [forwardOut], in [forward] and in [forwardUntil]. *)
Definition forward_answer (port : Z) (answer : result unit) (w : Forward) : Forward :=
  if w_settled w then
    MkForward true (w_pending w) (match answer with Ok _ => stream_destroyed | Throw _ => w_stream w end) (w_outcome w)
  else
    match answer with
    | Throw error => MkForward true false (w_stream w) (keep_first (w_outcome w) (Throw (forward_error port error)))
    | Ok _ => MkForward true false stream_handed (keep_first (w_outcome w) (Ok tt))
    end.

Definition forwardUntil (conn : option nat) (aborted : option (option thrown)) : Forward :=
  match conn, aborted with
  | None, _ => MkForward false false no_stream (Some (Throw (error_of EmptyString connection_lost)))
  | Some _, Some reason => MkForward false false no_stream (Some (Throw (abandonedBy reason)))
  | Some _, None => MkForward false true no_stream None
  end.

Definition forward_abandoned (reason : option thrown) (w : Forward) : Forward :=
  if negb (w_pending w) then w
  else if w_settled w then MkForward true false (w_stream w) (w_outcome w)
  else MkForward true false (w_stream w) (keep_first (w_outcome w) (Throw (abandonedBy reason))).

(** [forwardOut] that throws at once. *)
Definition forward_threw (w : Forward) : Forward :=
  MkForward true false (w_stream w) (keep_first (w_outcome w) (Throw (error_of EmptyString connection_lost))).

(** [canForward]: [settle], the timer and the callback; the stream is ended. *)
Record CanForward := MkCanForward { v_settled : bool; v_timer : bool; v_stream : StreamFate; v_allowed : option bool }.

Definition canForward (conn : option nat) : CanForward :=
  match conn with None => MkCanForward false false no_stream (Some false) | Some _ => MkCanForward false true no_stream None end.

Definition settle_forward (allowed : bool) (v : CanForward) : CanForward :=
  if v_settled v then v else MkCanForward true false (v_stream v) (keep_first (v_allowed v) allowed).

Definition can_forward_timer (v : CanForward) : CanForward := if v_timer v then settle_forward false v else v.

Definition can_forward_answer (answer : result unit) (v : CanForward) : CanForward :=
  match answer with
  | Throw _ => settle_forward false v
  | Ok _ => settle_forward true (MkCanForward (v_settled v) (v_timer v) stream_ended (v_allowed v))
  end.

(** ** Nothing is left behind *)

Definition run_until (text : list Z -> string) (events : list (Z * UntilEvent)) (u : Until) : Until :=
  fold_left (fun u event => until_step text event.1 event.2 u) events u.

Definition run_open (run : option Run) : bool := match run with Some s => negb (r_destroyed s || r_closed s) | None => false end.

Inductive until_stage : Until -> Prop :=
  | until_refused failure : until_stage (MkUntil false false false None false (Some (inl failure)))
  | until_asked : until_stage (MkUntil false true false None false None)
  | until_running late out err timer : until_stage (MkUntil false true true (Some (MkRun false out err timer false false None)) late None)
  | until_over given run late outcome : run_open run = false -> until_stage (MkUntil true false given run late (Some outcome)).

Section Left.
Variable text : list Z -> string.

(** A channel that is destroyed or closed stays so. *)
Lemma run_stays_shut event s : r_destroyed s || r_closed s = true ->
  let s' := on_channel_event text event s in r_destroyed s' || r_closed s' = true.
Proof.
  intros H. destruct event as [chunk|chunk|exitCode signal]; cbn -[Z.leb]; destruct (r_settled s); cbn; try done.
  - unfold append. destruct (_ <=? _); [done|]. destruct (r_settled s); cbn; [done|]. by rewrite orb_true_r.
  - unfold append. destruct (_ <=? _); [done|]. destruct (r_settled s); cbn; [done|]. by rewrite orb_true_r.
  - apply orb_true_r.
  - by rewrite !orb_true_r.
Qed.

Lemma until_step_stage now event u : until_stage u -> until_stage (until_step text now event u).
Proof.
  destruct 1 as [failure| |late out err timer|given run late outcome Hr]; destruct event as [reason|answer|event]; try (by constructor).
  - by destruct answer; constructor.
  - destruct event as [chunk|chunk|exitCode signal]; cbn -[Z.leb]; [unfold append; destruct (_ <=? _); by constructor..|by constructor].
  - cbn. unfold answer_until. cbn. destruct given; [by constructor|]. by destruct answer; constructor.
  - cbn. unfold event_until. cbn. destruct run as [s|]; [|by constructor]. cbn in Hr. apply negb_false_iff in Hr.
    pose proof (run_stays_shut event s Hr) as H. cbn in H. destruct (r_outcome (on_channel_event text event s)); constructor; cbn; by rewrite H.
Qed.

(** A command under a signal ends once; it has then let go of the signal, its
    channel is destroyed or closed, and so it stays; an abort ends it. *)
Theorem abandoned_commands_leave_no_channel conn aborted events :
  let u := run_until text events (execUntil conn aborted) in
  match u_outcome u with
  | None => forall now reason, u_outcome (until_step text now (until_aborted reason) u) <> None
  | Some outcome =>
      forall later, let u' := run_until text later u in u_outcome u' = Some outcome /\ u_listening u' = false /\ run_open (u_run u') = false
  end.
Proof.
  cbv zeta. assert (Hrun : forall events u, until_stage u -> until_stage (run_until text events u)).
  { intros evs. induction evs as [|event rest IH]; intros u Hu; [done|]. cbn. apply IH. by apply until_step_stage. }
  assert (Hs : until_stage (run_until text events (execUntil conn aborted))) by (apply Hrun; destruct conn, aborted; constructor).
  set (u := run_until text events _) in *. clearbody u. destruct (u_outcome u) as [outcome|] eqn:E.
  - intros later. assert (Hstay : forall evs u, until_stage u -> u_outcome u = Some outcome -> u_outcome (run_until text evs u) = Some outcome).
    { intros evs. induction evs as [|event rest IH]; intros v Hv Ev; [done|]. cbn. apply IH; [by apply until_step_stage|].
      destruct Hv as [failure| |late out err timer|given run late o Hr]; cbn in Ev; try done; injection Ev as ->; destruct event as [at_ [reason|answer|event]]; try done.
      - cbn. unfold answer_until. cbn. destruct given; [done|]. by destruct answer.
      - cbn. unfold event_until. cbn. destruct run; [|done]. by destruct (r_outcome _). }
    pose proof (Hstay later u Hs E) as Ho. pose proof (Hrun later u Hs) as Hl. split; [done|]. by destruct Hl.
  - intros now reason. by destruct Hs.
Qed.
End Left.

(** A forward hands its stream over exactly when it says so, and keeps none that
    came too late. *)
Inductive forward_stage : Forward -> Prop :=
  | forward_asked : forward_stage (MkForward false true no_stream None)
  | forward_over : forward_stage (MkForward true false stream_handed (Some (Ok tt)))
  | forward_failed fate error : fate <> stream_handed -> forward_stage (MkForward true false fate (Some (Throw error))).

Inductive ForwardEvent := forward_timer_fires | forward_aborted (reason : option thrown) | forward_answered (answer : result unit).

Definition forward_step (port : Z) (w : Forward) (event : ForwardEvent) : Forward :=
  match event with
  | forward_timer_fires => forward_timer port w
  | forward_aborted reason => forward_abandoned reason w
  | forward_answered answer => forward_answer port answer w
  end.

(** The client answers once. *)
Definition answers_once (events : list ForwardEvent) : Prop :=
  (length (List.filter (fun event => match event with forward_answered _ => true | _ => false end) events) <= 1)%nat.

Theorem late_streams_are_destroyed port conn events :
  answers_once events ->
  let w := fold_left (forward_step port) events (forward (Some conn)) in
  w_stream w = stream_handed <-> w_outcome w = Some (Ok tt).
Proof.
  intros Ho w. enough (H : forward_stage w) by (clearbody w; destruct H; simpl; split; intros; congruence).
  assert (H : forall w0, forward_stage w0 /\ (w_stream w0 <> stream_handed \/ answers_once (forward_answered (Ok tt) :: events)) -> forward_stage (fold_left (forward_step port) events w0)).
  { clear w. induction events as [|event events IH]; intros w0 [Hw Hn]; [done|]. simpl. apply IH; clear IH.
    - unfold answers_once in *. destruct event; simpl in *; lia.
    - destruct Hw as [| |fate error Hf]; destruct event as [|reason|[[]|error']]; simpl in *; unfold answers_once in *; simpl in *; split; try (by constructor); try (by left); try (right; lia).
      all: destruct Hn as [Hn|Hn]; [congruence|lia]. }
  apply H. split; [constructor|by left].
Qed.

(** ** An example *)

(** Waits for its turn, gets a channel, says a byte, and never closes. *)
Definition silent_command : list (Z * Event) :=
  [(100, admitted); (250, answered answer_channel); (300, channel_event (stdout_chunk [111]))].

Definition in_time_out : list (Z * Event) := silent_command ++ [(5000, timer_fires)].

Definition after_its_time : list (Z * Event) := [(5001, channel_event (channel_closed (Some 0) None))].

(** No channel in time, and one after it. *)
Definition never_answered : list (Z * Event) := [(100, admitted); (5000, timer_fires)].
Definition too_late : list (Z * Event) := [(6000, answered answer_channel)].

Definition nothing_read (bytes : list Z) : string := EmptyString.

Lemma commands_end_in_time_witness :
  let c := run_call nothing_read silent_command (exec true 0 5000 None) in
  due c = Some 5000 /\ c_outcome (call_step nothing_read 5000 timer_fires c) <> None
  /\ (let c' := run_call nothing_read after_its_time (run_call nothing_read in_time_out (exec true 0 5000 None)) in
      c_outcome c' = Some (inl CommandTimedOut) /\ channel_open c' = false /\ c_released c' = 1%nat)
  /\ channels_gone (run_call nothing_read too_late (run_call nothing_read never_answered (exec true 0 5000 None))) = 1%nat.
Proof.
  cbv zeta. pose proof (commands_end_in_time nothing_read 0 5000 None silent_command ltac:(repeat split; lia)) as H.
  pose proof (commands_end_in_time nothing_read 0 5000 None in_time_out ltac:(repeat split; lia)) as H'.
  pose proof (commands_end_in_time nothing_read 0 5000 None never_answered ltac:(repeat split; lia)) as H''. cbv zeta in H, H', H''.
  assert (E : c_outcome (run_call nothing_read silent_command (exec true 0 5000 None)) = None) by (vm_compute; reflexivity).
  assert (E' : c_outcome (run_call nothing_read in_time_out (exec true 0 5000 None)) = Some (inl CommandTimedOut)) by (vm_compute; reflexivity).
  assert (E'' : c_outcome (run_call nothing_read never_answered (exec true 0 5000 None)) = Some (inl ChannelOpenTimedOut)) by (vm_compute; reflexivity).
  rewrite E in H. rewrite E' in H'. rewrite E'' in H''. destruct H as (_ & _ & H). split; [vm_compute; reflexivity|]. split; [exact (H 5000)|].
  split.
  - destruct (H' after_its_time) as (H1 & H2 & H3 & _); [cbn; lia|]. split; [exact H1|]. split; [exact H2|vm_compute; reflexivity].
  - destruct (H'' too_late) as (_ & _ & _ & H4); [cbn; lia|]. rewrite H4. vm_compute. reflexivity.
Defined.
